(* ===== verification/_CoqProject ===== *)
-Q . S2P
Prelude.v
Bits.v
Bytes.v
Fifo.v
Queue.v
Crc.v
Libc.v
Base32.v
Util.v
UsbSm.v
ChargeManager.v
EventLog.v
Shmalloc.v
PdTimer.v
Mkbp.v
MkbpInterrupt.v
Sha256.v
Rsa.v
Hooks.v
UsbPrl.v
UsbPrlSafe.v
UsbPrlLib.v
UsbPrlTx.v
UsbPrlChunk.v
DpmPower.v
HostCommand.v
Timer.v
Task.v
TaskSafe.v
TaskMutex.v
Printf.v
Uart.v
Flash.v
FlashProtect.v
Rollback.v
Cbi.v
HostEvent.v
