(* ===== verification/Prelude.v ===== *)
(** * Verification of the Chrome OS embedded controller firmware

    The firmware is a set of tasks on a small multitasking kernel.  Its core
    logic lives in src/common: library code (queues, heap, checksums, parsers),
    the USB-C stack (a hierarchical state machine framework under the Type-C,
    protocol and policy layers, their timers, and the charge manager that
    picks the charge port and current), the paths by which events reach the
    application processor (MKBP events, the event log, host commands) and the
    drivers around them.  Each file of this library models one component; the
    C functions keep their names.

    ** Files and what they model

    - Prelude.v (this file): machine integers, error codes, arrays, bits, and
      the tactics [divlia], [lens], [addr], [concrete_range].
    - Bits.v: words as sets of small numbers, and the loop over the lowest set
      bit.  Bytes.v: words in byte buffers and the packets' checksum.
    - Fifo.v: the class of bounded FIFO queues, the contract that Queue.v
      discharges.
    - Queue.v: common/queue.c with its policies, unit copies in chunks,
      iterators and peeks.
    - Crc.v: common/crc.c, common/crc8.c.  Base32.v: common/base32.c (on Crc.v).
    - Libc.v: the memory and string routines of builtin/stdlib.c.
    - Util.v: common/util.c, number parsing and arithmetic.
    - UsbSm.v: common/usbc/usb_sm.c, [set_state] and [run_state] with callbacks
      that may request further transitions.
    - PdTimer.v: common/usbc/usb_pd_timer.c with the atomic bitmaps of
      third_party/zephyr/atomic.h.
    - UsbPrl.v: common/usbc/usb_prl_sm.c, the protocol layer of one port over
      an arbitrary policy engine and port controller (on PdTimer.v).
      UsbPrlSafe.v: its invariant.  UsbPrlLib.v: its flags, headers and single
      transitions.  UsbPrlTx.v: sending a packet.  UsbPrlChunk.v: a message
      that crosses two such layers in chunks.
    - ChargeManager.v: common/charge_manager.c.
    - EventLog.v: common/event_log.c.
    - Shmalloc.v: common/shmalloc.c, the heap with its chains inside a word
      memory.
    - Mkbp.v: common/mkbp_fifo.c and the polling command of
      common/mkbp_event.c.  MkbpInterrupt.v: the interrupt protocol of
      common/mkbp_event.c as a step relation over any number of tasks.
    - Hooks.v: common/hooks.c, notification, deferred calls and the hook task,
      with arbitrary client routines.
    - Sha256.v: common/sha256.c against the standard's definition.  Rsa.v:
      common/rsa.c, Montgomery arithmetic and signature verification (on
      Sha256.v).

    - DpmPower.v: the source-out policy of common/usbc/usb_pd_dpm.c, which
      ports may offer 3 A (on Bits.v).
    - HostCommand.v: common/host_command.c and common/host_command_task.c,
      packets, dispatch, slow commands and the commands of these two files over
      arbitrary other handlers.
    - Timer.v: common/timer.c, the 64-bit time and the tasks' timers.
      Task.v: core/cortex-m/task.c, its scheduler, events and mutexes over
      Timer.v, with arbitrary clients, interrupts at any point and time
      passing.  TaskSafe.v: its invariant, wakeups and priorities.
      TaskMutex.v: its mutexes.
    - Printf.v: common/printf.c, the format interpreter and number formatting,
      and [crec_vsnprintf] of builtin/stdlib.c.  Uart.v: the console's rings,
      common/uart_buffering.c, uart_printf.c and uart_hostcmd.c (on Printf.v).
    - Flash.v: common/flash.c with the emulator's driver chip/host/flash.c and
      the check of the running image in common/system.c; an operation may lose
      power at any unit of work.  FlashProtect.v: its write protection.
      Rollback.v: common/rollback.c, the two copies of the rollback record (on
      Flash.v and Sha256.v).
    - Cbi.v: common/cbi.c, cbi_common.c and cbi_eeprom.c, the tagged values of
      the board over a storage interface (on Crc.v).
    - HostEvent.v: common/host_event_commands.c, as functions and as
      interleaved accesses.

    ** Conventions

    A C integer is a [Z] followed by the wrap-around of its type ([u8], [u32],
    [s32], ...).  A struct or a file's static variables are a record, an
    operation is a function from state to results and state, an error is a
    value.  Fallible memory accesses return an option.  Atomicity: an operation
    under a mutex is one step; where interleavings matter the critical sections
    are separate steps (MkbpInterrupt.v, Task.v, HostEvent.v); a reader of the
    event log sees what other tasks make of the log while it copies (EventLog.v).

    ** Fuel

    Loops that are not structural take fuel.  [UsbSm.max_depth] bounds parent
    chains by the number of states, and the fuel of nested requests is bounded
    by the rank that orders them ([UsbSm.sm_discipline]); [Shmalloc.walk_fuel] exceeds the number of
    buffers that fit in the arena; [ChargeManager.refresh_correct] and
    [EventLog.log_add_correct] prove how much fuel suffices, as do
    [Mkbp.mkbp_get_next_correct] and [Hooks.hook_notify_correct]; the
    transitions of the protocol layer nest at most [UsbPrl.depth] deep
    ([UsbPrlSafe.prl_safe]); the 3 A policy settles within two steps per slot
    ([DpmPower.slots_by_priority]); the binary search takes a step per entry
    ([HostCommand.find_binary_linear]); the timer interrupt makes at most
    as many turns as it is given readings ([Timer.process_timers_correct]); a
    format is interpreted in at most its length and seven turns
    ([Printf.vfnprintf_safe]); flash is programmed unit by unit, as many as the
    supply of power allows ([Flash.program]); the string and number loops take the
    length of their input.

    ** What is proved

    Data structures refine lists (Queue.v, EventLog.v, Shmalloc.v) or abstract
    timers (PdTimer.v); codecs round-trip and detect errors (Base32.v, Crc.v);
    library routines agree with reference functions (Libc.v, Util.v); the state
    machine keeps entry and exit nested (UsbSm.v); the protocol layer returns
    whatever its clients do and stays in bounds, but for two places in the
    building of a chunk, numbers its packets and carries messages of up to 260
    bytes between two ports (UsbPrlSafe.v, UsbPrlTx.v, UsbPrlChunk.v); the
    charge manager selects the best port, terminates and keeps the charger's
    limits in sync (ChargeManager.v); the polling command ends and delivers the queued events
    (Mkbp.v), the interrupt keeps its retry armed and only the latest
    activation ends one (MkbpInterrupt.v), a reader of the event log takes each
    entry once (EventLog.v), and the hook task runs what is due, once, and never
    oversleeps (Hooks.v); the streaming hash is SHA-256 and
    [rsa_verify] accepts exactly the PKCS#1 signatures of the digest (Sha256.v,
    Rsa.v); no more ports offer 3 A than the board can power and the offers go
    by priority (DpmPower.v); a host command gets one well-formed response that
    fits, with the status and data of its handler (HostCommand.v); no expired
    timer is left armed (Timer.v); the kernel's assertions hold, the highest
    ready task runs and no event is forgotten (TaskSafe.v); mutexes exclude and
    wake their waiters (TaskMutex.v); formatted printing agrees with a reference
    renderer and is safe on any format (Printf.v); the console's snapshots give
    the host all output (Uart.v); protected flash survives every command, power
    loss and reset, and the running image is not overwritten (FlashProtect.v); a
    rollback update is atomic and the minimum version never decreases
    (Rollback.v); board information survives restarts and damage is noticed
    (Cbi.v); host events are delivered once and none is lost to interleaving
    (HostEvent.v).

    ** Not modelled

    Drivers, chips, boards and the Zephyr glue are register I/O and
    configuration; console commands and prints are output; host tools (util/)
    run on another machine.  Generated and third-party code is left aside.  The
    manifest lists the components not yet covered. *)

From Stdlib Require Export ZArith Lia Bool.
From stdpp Require Export base list numbers.

#[global] Open Scope Z_scope.
#[global] Set Default Goal Selector "!".

(** ** Machine integers

    A [w]-bit unsigned integer is a [Z] in [0 .. 2^w-1]; arithmetic of the
    source is followed by the wrap-around of its C type. *)

Declare Scope ec_scope.
Delimit Scope ec_scope with ec.
#[global] Open Scope ec_scope.

Definition wrap (w x : Z) : Z := x mod 2 ^ w.
Definition swrap (w x : Z) : Z := (x + 2 ^ (w - 1)) mod 2 ^ w - 2 ^ (w - 1).

Abbreviation u8 := (wrap 8).
Abbreviation u16 := (wrap 16).
Abbreviation u32 := (wrap 32).
Abbreviation u64 := (wrap 64).
Abbreviation s32 := (swrap 32).

Definition in_range (w x : Z) : Prop := 0 <= x < 2 ^ w.
Abbreviation is_u8 := (in_range 8).
Abbreviation is_u16 := (in_range 16).
Abbreviation is_u32 := (in_range 32).
Abbreviation is_u64 := (in_range 64).
Abbreviation is_bytes := (Forall (in_range 8)).
Abbreviation is_words := (Forall (in_range 32)).

(** A C truth value, and the test of a flag word. *)
Definition bool_of_Z (x : Z) : bool := negb (x =? 0).
Definition Z_of_bool (b : bool) : Z := if b then 1 else 0.
Definition BIT (n : Z) : Z := Z.shiftl 1 n.

#[export] Instance in_range_dec w x : Decision (in_range w x).
Proof. unfold in_range. apply _. Defined.

Create HintDb ec.
Create Rewrite HintDb ecr.

Lemma wrap_range w x : 0 <= w -> in_range w (wrap w x).
Proof. intros. unfold in_range, wrap. apply Z.mod_pos_bound. lia. Qed.
#[export] Hint Resolve wrap_range : ec.

Lemma wrap_id w x : in_range w x -> wrap w x = x.
Proof. intros. unfold in_range, wrap in *. apply Z.mod_small. lia. Qed.

Lemma wrap_wrap w x : wrap w (wrap w x) = wrap w x.
Proof. unfold wrap. apply Zmod_mod. Qed.

Lemma wrap_add_l w x y : wrap w (wrap w x + y) = wrap w (x + y).
Proof. unfold wrap. apply Zplus_mod_idemp_l. Qed.
Lemma wrap_add_r w x y : wrap w (x + wrap w y) = wrap w (x + y).
Proof. unfold wrap. apply Zplus_mod_idemp_r. Qed.
Lemma wrap_sub_l w x y : wrap w (wrap w x - y) = wrap w (x - y).
Proof. unfold wrap. apply Zminus_mod_idemp_l. Qed.
Lemma wrap_sub_r w x y : wrap w (x - wrap w y) = wrap w (x - y).
Proof. unfold wrap. apply Zminus_mod_idemp_r. Qed.
Lemma wrap_add_l2 w x y z : wrap w (wrap w x + y + z) = wrap w (x + y + z).
Proof. by rewrite <- !Z.add_assoc, wrap_add_l. Qed.
Lemma wrap_add_l3 w x y z v : wrap w (wrap w x + y + z + v) = wrap w (x + y + z + v).
Proof. by rewrite <- !Z.add_assoc, wrap_add_l. Qed.
#[export] Hint Rewrite wrap_wrap wrap_add_l wrap_add_r wrap_sub_l wrap_sub_r wrap_add_l2 wrap_add_l3 : ecr.

(** Reducing modulo a smaller power of two absorbs the wrap-around. *)
Lemma wrap_narrow k w x : 0 <= k <= w -> wrap k (wrap w x) = wrap k x.
Proof.
  intros. unfold wrap. apply Z.mod_mod_divide.
  exists (2 ^ (w - k)). rewrite <- Z.pow_add_r by lia. f_equal. lia.
Qed.

Lemma land_mask k x : 0 <= k -> Z.land x (2 ^ k - 1) = wrap k x.
Proof.
  intros. unfold wrap. rewrite <- Z.land_ones by lia. f_equal.
  rewrite Z.ones_equiv. lia.
Qed.

(** ** Error codes (include/common.h) *)

(** src/include/common.h:347-397 [enum ec_error_list] *)
Inductive ec_error :=
| EC_SUCCESS
| EC_ERROR_UNKNOWN
| EC_ERROR_UNIMPLEMENTED
| EC_ERROR_OVERFLOW
| EC_ERROR_TIMEOUT
| EC_ERROR_INVAL
| EC_ERROR_BUSY
| EC_ERROR_ACCESS_DENIED
| EC_ERROR_CRC
| EC_ERROR_PARAM1
| EC_ERROR_PARAM2
| EC_ERROR_PARAM_COUNT
| EC_ERROR_UNCHANGED.

#[export] Instance ec_error_eq_dec : EqDecision ec_error.
Proof. solve_decision. Defined.

(** ** Arrays

    A C array is a list; an index is a [Z].  Reads outside the array give
    the default, writes outside leave it unchanged; the theorems that matter
    show the indices in range. *)

Definition aget {A} `{Inhabited A} (l : list A) (i : Z) : A := l !!! Z.to_nat i.
Definition aset {A} (l : list A) (i : Z) (v : A) : list A := <[Z.to_nat i := v]> l.

(** [memcpy (&dst[off], src, n)] *)
Definition bcopy {A} (dst : list A) (off : Z) (src : list A) (n : Z) : list A :=
  take (Z.to_nat off) dst ++ take (Z.to_nat n) src ++ drop (Z.to_nat (off + n)) dst.

(** [memset (&dst[off], v, n)] *)
Definition bfill {A} (dst : list A) (off : Z) (v : A) (n : Z) : list A :=
  bcopy dst off (replicate (Z.to_nat n) v) n.

(** [&src[off]] read for [n] elements *)
Definition slice {A} (l : list A) (off n : Z) : list A :=
  take (Z.to_nat n) (drop (Z.to_nat off) l).

Lemma length_bcopy {A} (dst src : list A) off n :
  0 <= off -> 0 <= n -> off + n <= Z.of_nat (length dst) -> n <= Z.of_nat (length src) ->
  length (bcopy dst off src n) = length dst.
Proof. intros. unfold bcopy. rewrite !length_app, !length_take, length_drop. lia. Qed.
Lemma length_bfill {A} (dst : list A) off v n :
  0 <= off -> 0 <= n -> off + n <= Z.of_nat (length dst) -> length (bfill dst off v n) = length dst.
Proof. intros. apply length_bcopy; rewrite ?length_replicate; lia. Qed.

(** Linear arithmetic with divisions and remainders by constants. *)
Ltac divlia := Z.to_euclidean_division_equations; lia.

(** Solve a goal about the lengths of lists built by the copy operations. *)
Ltac lens :=
  repeat first
    [ rewrite length_app | rewrite length_take | rewrite length_drop | rewrite length_replicate
    | rewrite length_insert | rewrite length_fmap | rewrite length_seqZ
    | rewrite length_bcopy by lens ];
  lia.

Lemma take_bcopy {A} (dst src : list A) off n :
  0 <= off -> 0 <= n -> off + n <= Z.of_nat (length dst) -> n <= Z.of_nat (length src) ->
  take (Z.to_nat (off + n)) (bcopy dst off src n) = take (Z.to_nat off) dst ++ take (Z.to_nat n) src.
Proof.
  intros. unfold bcopy. rewrite app_assoc, take_app_le by (rewrite length_app, !length_take; lia).
  apply take_ge. rewrite length_app, !length_take. lia.
Qed.

Lemma lookup_bcopy {A} (dst src : list A) off n i :
  0 <= off -> 0 <= n -> off + n <= Z.of_nat (length dst) -> n <= Z.of_nat (length src) ->
  bcopy dst off src n !! i =
    if decide (off <= Z.of_nat i < off + n) then src !! (i - Z.to_nat off)%nat
    else dst !! i.
Proof.
  intros. unfold bcopy. case_decide as Hd.
  - rewrite lookup_app_r by (rewrite length_take; lia).
    rewrite lookup_app_l by (rewrite !length_take; lia).
    rewrite lookup_take_lt by (rewrite length_take; lia). f_equal. rewrite length_take. lia.
  - destruct (decide (Z.of_nat i < off)).
    + rewrite lookup_app_l by (rewrite length_take; lia). by apply lookup_take_lt; lia.
    + rewrite lookup_app_r by (rewrite length_take; lia).
      rewrite lookup_app_r by (rewrite !length_take; lia).
      rewrite lookup_drop, !length_take. f_equal. lia.
Qed.

Lemma length_slice {A} (l : list A) off n :
  0 <= off -> 0 <= n -> off + n <= Z.of_nat (length l) -> length (slice l off n) = Z.to_nat n.
Proof. intros. unfold slice. rewrite length_take, length_drop. lia. Qed.

Lemma lookup_slice {A} (l : list A) off n i :
  0 <= off -> Z.of_nat i < n -> slice l off n !! i = l !! (Z.to_nat off + i)%nat.
Proof. intros. unfold slice. rewrite lookup_take_lt by lia. by rewrite lookup_drop. Qed.

Lemma slice_none {A} (l : list A) off n i :
  n <= Z.of_nat i -> slice l off n !! i = None.
Proof. intros. unfold slice. apply lookup_ge_None_2. rewrite length_take. lia. Qed.

(** Reading back a freshly copied or an untouched range. *)
Lemma slice_bcopy_same {A} (dst src : list A) off n :
  0 <= off -> 0 <= n -> off + n <= Z.of_nat (length dst) -> n <= Z.of_nat (length src) ->
  slice (bcopy dst off src n) off n = take (Z.to_nat n) src.
Proof.
  intros. apply list_eq. intros i. destruct (decide (Z.of_nat i < n)).
  - rewrite lookup_slice, lookup_bcopy by lia. rewrite decide_True by lia.
    rewrite lookup_take_lt by lia. f_equal. lia.
  - rewrite slice_none by lia. symmetry. apply lookup_ge_None_2. rewrite length_take. lia.
Qed.

Lemma slice_bcopy_disjoint {A} (dst src : list A) off n off' n' :
  0 <= off -> 0 <= n -> off + n <= Z.of_nat (length dst) -> n <= Z.of_nat (length src) ->
  0 <= off' -> (off' + n' <= off \/ off + n <= off') ->
  slice (bcopy dst off src n) off' n' = slice dst off' n'.
Proof.
  intros. apply list_eq. intros i. destruct (decide (Z.of_nat i < n')).
  - rewrite !lookup_slice, lookup_bcopy by lia. rewrite decide_False by lia. done.
  - by rewrite !slice_none by lia.
Qed.

Lemma slice_all {A} (l : list A) n : n = Z.of_nat (length l) -> slice l 0 n = l.
Proof. intros ->. unfold slice. rewrite Nat2Z.id. apply firstn_all. Qed.

(** Splitting a byte array into [n] units of [ub] bytes. *)
Definition chunks {A} (l : list A) (ub n : Z) : list (list A) :=
  (fun i => slice l (i * ub) ub) <$> seqZ 0 n.

Lemma length_chunks {A} (l : list A) ub n : length (chunks l ub n) = Z.to_nat n.
Proof. unfold chunks. by rewrite length_fmap, length_seqZ. Qed.

Lemma lookup_fmap_seqZ {A} (f : Z -> A) n i :
  (f <$> seqZ 0 n) !! i = if decide (Z.of_nat i < n) then Some (f (Z.of_nat i)) else None.
Proof.
  rewrite list_lookup_fmap. case_decide as Hd.
  - rewrite lookup_seqZ_lt by lia. done.
  - by rewrite lookup_seqZ_ge by lia.
Qed.

Lemma seqZ_fmap_ext {A} (f g : Z -> A) n :
  (forall i, 0 <= i < n -> f i = g i) -> f <$> seqZ 0 n = g <$> seqZ 0 n.
Proof.
  intros Hfg. apply list_eq. intros i. rewrite !lookup_fmap_seqZ.
  case_decide; [|done]. rewrite Hfg by lia. done.
Qed.

Lemma slice_slice {A} (l : list A) off n off' n' :
  0 <= off -> 0 <= off' -> 0 <= n' -> off' + n' <= n ->
  slice (slice l off n) off' n' = slice l (off + off') n'.
Proof.
  intros. apply list_eq. intros i. destruct (decide (Z.of_nat i < n')).
  - rewrite !lookup_slice by lia. rewrite Z2Nat.inj_add, Nat.add_assoc by lia. done.
  - by rewrite !slice_none by lia.
Qed.

Lemma slice_take {A} (l : list A) off n m :
  0 <= off -> 0 <= n -> off + n <= m -> slice (take (Z.to_nat m) l) off n = slice l off n.
Proof.
  intros. change (take (Z.to_nat m) l) with (slice l 0 m). rewrite slice_slice by lia. done.
Qed.

Lemma slice_drop {A} (l : list A) off n m :
  0 <= off -> 0 <= m -> slice (drop (Z.to_nat m) l) off n = slice l (m + off) n.
Proof.
  intros. apply list_eq. intros i. destruct (decide (Z.of_nat i < n)).
  - rewrite !lookup_slice, lookup_drop by lia. f_equal. lia.
  - by rewrite !slice_none by lia.
Qed.

(** A slice inside a freshly copied range is the slice of the source. *)
Lemma slice_bcopy_inside {A} (dst src : list A) off n off' n' :
  0 <= off -> 0 <= n -> off + n <= Z.of_nat (length dst) -> n <= Z.of_nat (length src) ->
  off <= off' -> 0 <= n' -> off' + n' <= off + n ->
  slice (bcopy dst off src n) off' n' = slice src (off' - off) n'.
Proof.
  intros. replace off' with (off + (off' - off)) at 1 by lia.
  rewrite <- (slice_slice _ off n) by lia. rewrite slice_bcopy_same by lia.
  apply slice_take; lia.
Qed.

(** Wrapping [x - y] back into the window when the result is in range. *)
Lemma wrap_eq w x y : 0 <= w -> in_range w y -> (exists m, x = y + m * 2 ^ w) -> wrap w x = y.
Proof.
  intros Hw Hy [m ->]. unfold wrap. rewrite Z_mod_plus_full. by apply wrap_id.
Qed.

Lemma seqZ_fmap_shift {A} (f : Z -> A) m n :
  f <$> seqZ m n = (fun i => f (m + i)) <$> seqZ 0 n.
Proof.
  apply list_eq. intros i. rewrite !list_lookup_fmap.
  destruct (decide (Z.of_nat i < n)).
  - by rewrite !lookup_seqZ_lt by lia.
  - by rewrite !lookup_seqZ_ge by lia.
Qed.

(** ** Finite case analysis by computation *)

Lemma forall_below (n : Z) (P : Z -> bool) :
  forallb P (seqZ 0 n) = true -> forall x, 0 <= x < n -> P x = true.
Proof.
  intros H x Hx. rewrite forallb_forall in H. apply H.
  apply list_elem_of_In, elem_of_seqZ. lia.
Qed.

(** A function on [0 .. n-1] with a left inverse is injective; the left
    inverse is a search in the table of its values. *)
Fixpoint index_of (z : Z) (l : list Z) : Z :=
  match l with
  | [] => 0
  | x :: l => if x =? z then 0 else 1 + index_of z l
  end.

Lemma inj_by_table (n : Z) (f : Z -> Z) :
  (let t := f <$> seqZ 0 n in forallb (fun x => index_of (f x) t =? x) (seqZ 0 n)) = true ->
  forall x y, 0 <= x < n -> 0 <= y < n -> f x = f y -> x = y.
Proof.
  intros H x y Hx Hy E.
  pose proof (forall_below _ _ H x Hx) as H1. pose proof (forall_below _ _ H y Hy) as H2.
  cbv beta in H1, H2. rewrite E in H1. lia.
Qed.

(** ** Bits *)

Lemma bits_above w x i : 0 <= w <= i -> in_range w x -> Z.testbit x i = false.
Proof.
  intros Hw [H0 H1]. rewrite <- (Z.mod_small x (2 ^ w)) by lia.
  apply Z.mod_pow2_bits_high. lia.
Qed.

Lemma in_range_bits w x :
  0 <= w -> 0 <= x -> (forall i, w <= i -> Z.testbit x i = false) -> in_range w x.
Proof.
  intros Hw Hx Hb. split; [done|]. destruct (Z.eq_dec x 0) as [->|]; [lia|].
  apply Z.log2_lt_pow2; [lia|].
  destruct (Z.lt_ge_cases (Z.log2 x) w) as [|Hge]; [done|].
  pose proof (Z.bit_log2 x ltac:(lia)) as Ht. by rewrite (Hb _ Hge) in Ht.
Qed.

Lemma lxor_range w x y : 0 <= w -> in_range w x -> in_range w y -> in_range w (Z.lxor x y).
Proof.
  intros Hw Hx Hy. apply in_range_bits; [done| |].
  - apply Z.lxor_nonneg. split; intros; [apply Hy|apply Hx].
  - intros i Hi. by rewrite Z.lxor_spec, !(bits_above w) by (done || lia).
Qed.
Lemma lor_range w x y : 0 <= w -> in_range w x -> in_range w y -> in_range w (Z.lor x y).
Proof.
  intros Hw Hx Hy. apply in_range_bits; [done| |].
  - apply Z.lor_nonneg. split; [apply Hx|apply Hy].
  - intros i Hi. by rewrite Z.lor_spec, !(bits_above w) by (done || lia).
Qed.
Lemma land_range w x y : 0 <= w -> in_range w x -> 0 <= y -> in_range w (Z.land x y).
Proof.
  intros Hw Hx Hy. apply in_range_bits; [done| |].
  - apply Z.land_nonneg. by left; apply Hx.
  - intros i Hi. by rewrite Z.land_spec, (bits_above w x) by (done || lia).
Qed.
#[export] Hint Resolve lxor_range lor_range land_range : ec.

Lemma lxor_cancel_r x y z : Z.lxor x z = Z.lxor y z -> x = y.
Proof.
  intros H. rewrite <- (Z.lxor_0_r x), <- (Z.lxor_0_r y), <- (Z.lxor_nilpotent z).
  by rewrite <- !Z.lxor_assoc, H.
Qed.
Lemma lxor_cancel_l x y z : Z.lxor z x = Z.lxor z y -> x = y.
Proof. rewrite !(Z.lxor_comm z). apply lxor_cancel_r. Qed.

Lemma is_bytes_app l1 l2 : is_bytes (l1 ++ l2) <-> is_bytes l1 /\ is_bytes l2.
Proof. apply Forall_app. Qed.

(** Deciding that the entries of a concrete array are in range. *)
Lemma Forall_in_range_b w l :
  forallb (fun x => (0 <=? x) && (x <? 2 ^ w)) l = true -> Forall (in_range w) l.
Proof.
  intros H. apply Forall_forall. intros x Hx. rewrite forallb_forall in H.
  specialize (H x Hx). unfold in_range. lia.
Qed.

Ltac concrete_range := apply Forall_in_range_b; vm_compute; reflexivity.

(** ** Array reads *)

Lemma aget_aset `{Inhabited A} (l : list A) i j v :
  0 <= i < Z.of_nat (length l) -> 0 <= j ->
  aget (aset l i v) j = if j =? i then v else aget l j.
Proof.
  intros Hi Hj. unfold aget, aset. destruct (Z.eqb_spec j i) as [->|Hne].
  - apply list_lookup_total_insert_eq. lia.
  - apply list_lookup_total_insert_ne. lia.
Qed.

(** Writing the element after a prefix. *)
Lemma length_aset {A} (l : list A) i v : length (aset l i v) = length l.
Proof. apply length_insert. Qed.
Lemma aset_app {A} (l r : list A) x v i :
  i = Z.of_nat (length l) -> aset (l ++ x :: r) i v = (l ++ [v]) ++ r.
Proof.
  intros ->. unfold aset. rewrite Nat2Z.id, insert_app_r_alt by lia.
  rewrite Nat.sub_diag. simpl. by rewrite <- app_assoc.
Qed.

Lemma aget_range w l i : 0 < w -> Forall (in_range w) l -> in_range w (aget l i).
Proof.
  intros Hw Hl. unfold aget. destruct (l !! Z.to_nat i) as [x|] eqn:E.
  - rewrite (list_lookup_total_correct _ _ _ E). rewrite Forall_lookup in Hl. by eapply Hl.
  - rewrite (list_lookup_total_alt l). rewrite E. unfold in_range.
    pose proof (Z.pow_gt_1 2 w). simpl. lia.
Qed.

(** Decide every comparison of addresses. *)
Ltac addr :=
  repeat match goal with
    | |- context [?x =? ?y] => destruct (Z.eqb_spec x y)
    | |- context [?x <=? ?y] => destruct (Z.leb_spec x y)
    | |- context [?x <? ?y] => destruct (Z.ltb_spec x y)
    end; simpl; try lia; try reflexivity; try (f_equal; lia).
