(* ===== verification/Bits.v ===== *)
(** * Sets of small numbers as bit masks

    A C word used as a set: membership, insertion, removal, the elements in
    ascending order, their number, and the loop that takes the lowest element
    until none is left. *)

From Stdlib Require Import Sorting.Permutation.
From S2P Require Import Prelude.

Module Bits.

(** [m & BIT(i)], [m | BIT(i)] and [m & ~BIT(i)]. *)
Definition has (i m : Z) : bool := bool_of_Z (Z.land m (BIT i)).
Definition set_bit (i m : Z) : Z := Z.lor m (BIT i).
Definition clear_bit (i m : Z) : Z := Z.land m (Z.lnot (BIT i)).

Lemma testbit_BIT i j : 0 <= i -> Z.testbit (BIT i) j = (j =? i).
Proof.
  intros Hi. unfold BIT. rewrite Z.shiftl_1_l. destruct (Z.eqb_spec j i) as [->|].
  - by apply Z.pow2_bits_true.
  - by apply Z.pow2_bits_false.
Qed.
Lemma testbit_set i m j : 0 <= i -> Z.testbit (set_bit i m) j = Z.testbit m j || (j =? i).
Proof. intros. unfold set_bit. by rewrite Z.lor_spec, testbit_BIT. Qed.
Lemma testbit_clear i m j : 0 <= i -> Z.testbit (clear_bit i m) j = Z.testbit m j && negb (j =? i).
Proof.
  intros Hi. destruct (Z.neg_nonneg_cases j).
  - rewrite !Z.testbit_neg_r by done. done.
  - unfold clear_bit. by rewrite Z.land_spec, Z.lnot_spec, testbit_BIT.
Qed.
Lemma has_testbit i m : 0 <= i -> has i m = Z.testbit m i.
Proof.
  intros Hi. unfold has, bool_of_Z. destruct (Z.testbit m i) eqn:E.
  - destruct (Z.eqb_spec (Z.land m (BIT i)) 0) as [E0|]; [|done].
    apply (f_equal (fun x => Z.testbit x i)) in E0.
    by rewrite Z.land_spec, testbit_BIT, E, Z.eqb_refl, Z.bits_0 in E0.
  - destruct (Z.eqb_spec (Z.land m (BIT i)) 0) as [|Hne]; [done|]. exfalso. apply Hne.
    apply Z.bits_inj'. intros j Hj. rewrite Z.land_spec, testbit_BIT, Z.bits_0 by done.
    destruct (Z.eqb_spec j i) as [->|]; [by rewrite E|apply andb_false_r].
Qed.

(** ** Elements *)

Definition bits (n m : Z) : list Z := List.filter (Z.testbit m) (seqZ 0 n).
Definition count (n m : Z) : Z := Z.of_nat (length (bits n m)).

Lemma elem_bits n m i : In i (bits n m) <-> 0 <= i < n /\ Z.testbit m i = true.
Proof.
  unfold bits. rewrite filter_In, <- list_elem_of_In, elem_of_seqZ.
  replace (0 + n) with n by lia. done.
Qed.
Lemma nodup_bits n m : List.NoDup (bits n m).
Proof. apply List.NoDup_filter. apply NoDup_ListNoDup, NoDup_seqZ. Qed.
Lemma count_nonneg n m : 0 <= count n m.
Proof. unfold count. lia. Qed.

Lemma count_le n m m' :
  (forall i, 0 <= i < n -> Z.testbit m i = true -> Z.testbit m' i = true) -> count n m <= count n m'.
Proof.
  intros Hs. unfold count. apply Nat2Z.inj_le, List.NoDup_incl_length; [apply nodup_bits|].
  intros i. rewrite !elem_bits. intros [Hr Ht]. auto.
Qed.
Lemma count_ext n m m' :
  (forall i, 0 <= i < n -> Z.testbit m i = Z.testbit m' i) -> count n m = count n m'.
Proof.
  intros He. apply Z.le_antisymm; apply count_le; intros i Hi Ht; [rewrite <- He|rewrite He]; done.
Qed.
Lemma bits_count_zero n m : count n m = 0 <-> forall i, 0 <= i < n -> Z.testbit m i = false.
Proof.
  unfold count. destruct (bits n m) as [|i l] eqn:E.
  - split; [|done]. intros _ i Hi. destruct (Z.testbit m i) eqn:Ht; [|done].
    assert (Hin : In i (bits n m)) by (by apply elem_bits). by rewrite E in Hin.
  - split; [done|]. intros Hz. assert (Hin : In i (bits n m)) by (rewrite E; by left).
    apply elem_bits in Hin as [Hi Ht]. by rewrite Hz in Ht.
Qed.
Lemma count_pos n m i : 0 <= i < n -> Z.testbit m i = true -> 0 < count n m.
Proof.
  intros Hi Ht. destruct (Z.eq_dec (count n m) 0) as [E|]; [|pose proof (count_nonneg n m); lia].
  rewrite bits_count_zero in E. by rewrite E in Ht.
Qed.

(** A set with one element more. *)
Lemma count_insert n m m' i :
  0 <= i < n -> Z.testbit m i = false -> Z.testbit m' i = true ->
  (forall j, 0 <= j < n -> j <> i -> Z.testbit m' j = Z.testbit m j) -> count n m' = count n m + 1.
Proof.
  intros Hi H0 H1 Hj. unfold count.
  assert (Hp : Permutation (bits n m') (i :: bits n m)).
  { apply Stdlib.Sorting.Permutation.NoDup_Permutation; [apply nodup_bits|..].
    - constructor 2; [|apply nodup_bits]. rewrite elem_bits, H0. by intros [].
    - intros j. cbn. rewrite !elem_bits. destruct (Z.eq_dec j i) as [->|Hne]; [tauto|].
      split; [intros [Hr Ht]; right; by rewrite <- Hj|]. intros [->|[Hr Ht]]; [done|]. by rewrite Hj. }
  rewrite Hp. cbn. lia.
Qed.
Lemma count_set n m i :
  0 <= i < n -> Z.testbit m i = false -> count n (set_bit i m) = count n m + 1.
Proof.
  intros Hi Ht. apply (count_insert _ _ _ i); [done|done|..].
  - rewrite testbit_set by lia. rewrite Z.eqb_refl. apply orb_true_r.
  - intros j Hj Hne. rewrite testbit_set by lia. rewrite (proj2 (Z.eqb_neq _ _)) by done.
    apply orb_false_r.
Qed.
Lemma count_clear n m i :
  0 <= i < n -> Z.testbit m i = true -> count n (clear_bit i m) = count n m - 1.
Proof.
  intros Hi Ht. enough (count n m = count n (clear_bit i m) + 1) by lia.
  apply (count_insert _ _ _ i); [done| |done|].
  - rewrite testbit_clear by lia. rewrite Z.eqb_refl. apply andb_false_r.
  - intros j Hj Hne. rewrite testbit_clear by lia. rewrite (proj2 (Z.eqb_neq _ _)) by done.
    by rewrite andb_true_r.
Qed.

(** A set cut into three. *)
Lemma count_split n m a b c :
  (forall i, 0 <= i < n -> Z.b2z (Z.testbit m i) =
    Z.b2z (Z.testbit a i) + Z.b2z (Z.testbit b i) + Z.b2z (Z.testbit c i)) ->
  count n m = count n a + count n b + count n c.
Proof.
  unfold count, bits. intros Hi.
  assert (Hl : forall i, In i (seqZ 0 n) -> 0 <= i < n).
  { intros i Hin. rewrite <- list_elem_of_In, elem_of_seqZ in Hin. lia. }
  generalize dependent (seqZ 0 n). intros l. induction l as [|i l IH]; intros Hl; [done|].
  pose proof (Hi i (Hl i ltac:(by left))) as E. specialize (IH (fun j Hj => Hl j (or_intror Hj))).
  cbn [List.filter]. destruct (Z.testbit m i), (Z.testbit a i), (Z.testbit b i), (Z.testbit c i);
    cbn [Z.b2z length] in *; lia.
Qed.

(** ** Ranges *)

Lemma set_range w i m : 0 <= i < w -> in_range w m -> in_range w (set_bit i m).
Proof.
  intros Hi Hm. apply lor_range; [lia|done|]. unfold BIT, in_range. rewrite Z.shiftl_1_l.
  split; [lia|]. apply Z.pow_lt_mono_r; lia.
Qed.
Lemma clear_range w i m : 0 <= w -> 0 <= i -> in_range w m -> in_range w (clear_bit i m).
Proof.
  intros Hw Hi Hm. apply in_range_bits; [done|apply Z.land_nonneg; left; apply Hm|].
  intros j Hj. rewrite testbit_clear by done. by rewrite (bits_above w m j).
Qed.
Lemma bit_range w m i : 0 <= w -> in_range w m -> Z.testbit m i = true -> 0 <= i < w.
Proof.
  intros Hw Hm Ht. destruct (Z.neg_nonneg_cases i); [by rewrite Z.testbit_neg_r in Ht|].
  destruct (Z.lt_ge_cases i w); [done|]. by rewrite (bits_above w) in Ht.
Qed.
Lemma bits_zero w m : 0 <= w -> in_range w m -> bits w m = [] -> m = 0.
Proof.
  intros Hw Hm E. apply Z.bits_inj'. intros i Hi. rewrite Z.bits_0.
  destruct (Z.lt_ge_cases i w); [|by apply (bits_above w)].
  apply (proj1 (bits_count_zero w m)); [unfold count; by rewrite E|lia].
Qed.

(** ** The lowest element first *)

(** [__builtin_ctz], for a nonzero word. *)
Definition lowest (m : Z) : Z := default 32 (List.find (Z.testbit m) (seqZ 0 32)).

Lemma find_filter {A} (f : A -> bool) l : List.find f l = head (List.filter f l).
Proof. induction l as [|x l IH]; [done|]. cbn. by destruct (f x). Qed.
Lemma lowest_bits m : lowest m = default 32 (head (bits 32 m)).
Proof. unfold lowest, bits. by rewrite find_filter. Qed.

Lemma bits_clear n m i l : bits n m = i :: l -> bits n (clear_bit i m) = l.
Proof.
  intros E. assert (Hin : In i (bits n m)) by (rewrite E; by left). apply elem_bits in Hin as [Hi Ht].
  assert (Hnd : ~ In i l).
  { pose proof (nodup_bits n m) as Hd. rewrite E in Hd. by inversion_clear Hd. }
  unfold bits in *.
  transitivity (List.filter (fun j => negb (j =? i)) (List.filter (Z.testbit m) (seqZ 0 n))).
  - generalize (seqZ 0 n). intros k. induction k as [|j k IH]; [done|]. cbn [List.filter].
    rewrite testbit_clear by lia. destruct (Z.testbit m j); cbn [andb List.filter].
    + destruct (negb (j =? i)); cbn; by rewrite IH.
    + done.
  - rewrite E. cbn [List.filter]. rewrite Z.eqb_refl. cbn [negb]. clear E Ht.
    induction l as [|j l IH]; [done|]. cbn [List.filter].
    rewrite (proj2 (Z.eqb_neq j i)) by (intros ->; apply Hnd; by left). cbn [negb]. f_equal.
    apply IH. intros Hl. apply Hnd. by right.
Qed.

Section While.
Context {S : Type} (step : Z -> S -> S * bool).

(** [while (m) { i = ctz(m); ...; m &= ~BIT(i); }] with a body that may leave
    the loop, and the same as a walk over the elements. *)
Fixpoint while_bits (fuel : nat) (m : Z) (s : S) : option (S * bool) :=
  if m =? 0 then Some (s, true)
  else match fuel with
       | O => None
       | Datatypes.S fuel =>
         let i := lowest m in
         let '(s, go) := step i s in
         if go then while_bits fuel (clear_bit i m) s else Some (s, false)
       end.
Fixpoint each (l : list Z) (s : S) : S * bool :=
  match l with
  | [] => (s, true)
  | i :: l => let '(s, go) := step i s in if go then each l s else (s, false)
  end.

Lemma while_each fuel : forall m s,
  in_range 32 m -> (length (bits 32 m) <= fuel)%nat ->
  while_bits fuel m s = Some (each (bits 32 m) s).
Proof.
  induction fuel as [|fuel IH]; intros m s Hm Hl; cbn [while_bits].
  - destruct (bits 32 m) as [|] eqn:E; [|cbn in Hl; lia].
    by rewrite (bits_zero 32 m) by (done || lia).
  - destruct (Z.eqb_spec m 0) as [->|Hne]; [done|].
    destruct (bits 32 m) as [|i l] eqn:E; [by apply (bits_zero 32) in E|].
    assert (Hi : lowest m = i) by (by rewrite lowest_bits, E). rewrite Hi.
    assert (Hin : In i (bits 32 m)) by (rewrite E; by left). apply elem_bits in Hin as [Hr _].
    cbn [each]. destruct (step i s) as [s' []]; [|done].
    rewrite IH; rewrite ?(bits_clear 32 m i l E); [done|by apply clear_range; [lia..|]|cbn in Hl; lia].
Qed.

Lemma length_bits n m : (length (bits n m) <= Z.to_nat n)%nat.
Proof.
  unfold bits. rewrite <- (length_seqZ 0 n). generalize (seqZ 0 n). intros l.
  induction l as [|i l IH]; [done|]. cbn. destruct (Z.testbit m i); cbn; lia.
Qed.

(** Thirty-two turns are enough. *)
Lemma while_bits_each m s : in_range 32 m -> while_bits 32 m s = Some (each (bits 32 m) s).
Proof. intros. apply while_each; [done|]. pose proof (length_bits 32 m). lia. Qed.

Lemma each_inv (P : S -> Prop) l s :
  (forall i s, In i l -> P s -> P (step i s).1) -> P s -> P (each l s).1.
Proof.
  revert s. induction l as [|i l IH]; intros s Hstep Hs; [done|]. cbn [each].
  pose proof (Hstep i s ltac:(by left) Hs) as H1. destruct (step i s) as [s' []]; [|done].
  apply IH; [|done]. intros j t Hj. apply Hstep. by right.
Qed.
End While.

(** ** The highest element first *)

(** src/include/common.h:449-449 [__fls] *)
Definition __fls (n : Z) : Z := Z.log2 n.

Lemma fls_bit m : 0 < m -> Z.testbit m (__fls m) = true.
Proof. apply Z.bit_log2. Qed.
Lemma fls_max m i : 0 < m -> Z.testbit m i = true -> i <= __fls m.
Proof.
  intros Hm Ht. destruct (Z.le_gt_cases i (__fls m)); [done|].
  rewrite Z.bits_above_log2 in Ht; [done|lia|done].
Qed.
Lemma fls_range w m : 0 < m -> in_range w m -> 0 <= __fls m < w.
Proof.
  intros Hm [_ Hr]. split; [apply Z.log2_nonneg|]. by apply Z.log2_lt_pow2.
Qed.
Lemma bits_fls n m :
  0 < m -> in_range n m -> bits n m = bits n (clear_bit (__fls m) m) ++ [__fls m].
Proof.
  intros Hm Hr. pose proof (fls_range n m Hm Hr) as Hk. set (k := __fls m) in *. unfold bits.
  assert (Hs : seqZ 0 n = seqZ 0 k ++ k :: seqZ (k + 1) (n - k - 1)).
  { replace n with (k + (1 + (n - k - 1))) at 1 by lia. rewrite seqZ_app by lia. f_equal.
    rewrite seqZ_app by lia. by replace (0 + k) with k by lia. }
  rewrite Hs, !List.filter_app. cbn [List.filter].
  assert (Hb : Z.testbit m k = true) by (by apply fls_bit). rewrite Hb, testbit_clear by lia. rewrite Z.eqb_refl, andb_false_r.
  assert (Hhi : forall f, (forall i, k < i -> f i = false) -> List.filter f (seqZ (k + 1) (n - k - 1)) = []).
  { intros f Hf. destruct (List.filter f _) as [|x l] eqn:E; [done|]. exfalso.
    assert (Hin : In x (List.filter f (seqZ (k + 1) (n - k - 1)))) by (rewrite E; by left).
    apply filter_In in Hin as [Hin Hx]. apply list_elem_of_In, elem_of_seqZ in Hin. rewrite Hf in Hx by lia. done. }
  rewrite (Hhi (Z.testbit m)), (Hhi (Z.testbit (clear_bit k m))).
  - rewrite app_nil_r. f_equal. apply filter_ext_in. intros i Hin. apply list_elem_of_In, elem_of_seqZ in Hin.
    rewrite testbit_clear by lia. rewrite (proj2 (Z.eqb_neq _ _)) by lia. by rewrite andb_true_r.
  - intros i Hi. rewrite testbit_clear by lia. destruct (Z.testbit m i) eqn:E; [|done].
    pose proof (fls_max m i Hm E). lia.
  - intros i Hi. destruct (Z.testbit m i) eqn:E; [|done]. pose proof (fls_max m i Hm E). lia.
Qed.

Section WhileFls.
Context {S : Type} (step : Z -> S -> S).

(** [while (m) { i = __fls(m); ...; m &= ~BIT(i); }] *)
Fixpoint while_fls (fuel : nat) (m : Z) (s : S) : option S :=
  if m =? 0 then Some s
  else match fuel with
       | O => None
       | Datatypes.S fuel => let i := __fls m in while_fls fuel (clear_bit i m) (step i s)
       end.

Lemma while_fls_bits n fuel : forall m s,
  0 <= n -> in_range n m -> (length (bits n m) <= fuel)%nat ->
  while_fls fuel m s = Some (foldl (fun s i => step i s) s (rev (bits n m))).
Proof.
  induction fuel as [|fuel IH]; intros m s Hn Hm Hl; cbn [while_fls].
  - destruct (bits n m) as [|] eqn:E; [|cbn in Hl; lia]. by rewrite (bits_zero n m).
  - destruct (Z.eqb_spec m 0) as [->|Hne].
    { replace (bits n 0) with (@nil Z); [done|]. symmetry. unfold bits. generalize (seqZ 0 n).
      induction l; [done|]. cbn. by rewrite Z.bits_0. }
    assert (0 < m) by (destruct Hm; lia). pose proof (fls_range n m ltac:(done) Hm).
    rewrite (bits_fls n m) in Hl |- * by done. rewrite length_app in Hl. cbn [length] in Hl.
    rewrite rev_app_distr. cbn [rev app foldl]. apply IH; [done|apply clear_range; [lia..|done]|lia].
Qed.
Lemma while_fls_all m s :
  in_range 32 m -> while_fls 32 m s = Some (foldl (fun s i => step i s) s (rev (bits 32 m))).
Proof. intros. apply while_fls_bits; [lia|done|]. pose proof (length_bits 32 m). lia. Qed.
End WhileFls.
End Bits.
