(* ===== verification/Bytes.v ===== *)
(** * Integers in byte buffers

    Little-endian stores and loads, runs of bytes read from a buffer, and the
    8-bit sum that packets use as a checksum. *)

From S2P Require Import Prelude.

Module Bytes.

(** The low [n] bytes of a word, as stored. *)
Definition le_bytes (n x : Z) : list Z := (fun i => u8 (Z.shiftr x (8 * i))) <$> seqZ 0 n.
(** [n] bytes read at [off]. *)
Definition bytes_at (l : list Z) (off n : Z) : list Z := (fun i => aget l (off + i)) <$> seqZ 0 n.
(** The word of [n] bytes stored at [off]. *)
Definition le_at (l : list Z) (off n : Z) : Z :=
  foldr (fun b acc => b + 256 * acc) 0 (bytes_at l off n).
(** The sum of the bytes, before it is cut down to a byte. *)
Definition sum_bytes (l : list Z) : Z := foldr Z.add 0 l.

Lemma length_bytes_at l off n : length (bytes_at l off n) = Z.to_nat n.
Proof. unfold bytes_at. by rewrite length_fmap, length_seqZ. Qed.
Lemma length_le_bytes n x : length (le_bytes n x) = Z.to_nat n.
Proof. unfold le_bytes. by rewrite length_fmap, length_seqZ. Qed.
Lemma bytes_at_bytes l off n : is_bytes l -> is_bytes (bytes_at l off n).
Proof.
  intros Hl. unfold bytes_at. apply Forall_fmap, Forall_forall. intros x _.
  by apply aget_range.
Qed.
Lemma le_bytes_bytes n x : is_bytes (le_bytes n x).
Proof. apply Forall_fmap, Forall_forall. intros i _. by apply wrap_range. Qed.
Lemma le_bytes2 h : le_bytes 2 h = [u8 h; u8 (Z.shiftr h 8)].
Proof. unfold le_bytes. change (seqZ 0 2) with [0; 1]. cbn [fmap list_fmap]. by rewrite Z.shiftr_0_r. Qed.

Lemma lookup_bytes_at l off n i :
  0 <= off -> 0 <= n -> off + n <= Z.of_nat (length l) ->
  bytes_at l off n !! i = slice l off n !! i.
Proof.
  intros. unfold bytes_at. rewrite lookup_fmap_seqZ. case_decide.
  - rewrite lookup_slice by lia. unfold aget.
    rewrite (list_lookup_lookup_total_lt l (Z.to_nat off + i)) by lia.
    f_equal. f_equal. lia.
  - by rewrite slice_none by lia.
Qed.
Lemma bytes_at_slice l off n :
  0 <= off -> 0 <= n -> off + n <= Z.of_nat (length l) -> bytes_at l off n = slice l off n.
Proof. intros. apply list_eq. intros i. by apply lookup_bytes_at. Qed.

Lemma le_at_nonneg l off n : is_bytes l -> 0 <= le_at l off n.
Proof.
  intros Hl. unfold le_at. induction (bytes_at_bytes l off n Hl) as [|b bs [Hb _] _ IH]; cbn [foldr]; lia.
Qed.

(** Reading a 16-bit word that was stored. *)
Lemma le_at_two l off a b :
  0 <= off -> slice l off 2 = [a; b] -> le_at l off 2 = a + 256 * b.
Proof.
  intros Ho Hs. assert (Hl : off + 2 <= Z.of_nat (length l)).
  { apply (f_equal length) in Hs. unfold slice in Hs. rewrite length_take, length_drop in Hs. cbn in Hs. lia. }
  unfold le_at. rewrite bytes_at_slice, Hs by lia. cbn [foldr]. lia.
Qed.
Lemma u16_split x : in_range 16 x -> u8 x + 256 * u8 (Z.shiftr x 8) = x.
Proof. unfold in_range. intros. rewrite Z.shiftr_div_pow2 by lia. unfold wrap. divlia. Qed.

(** ** Checksums *)

Lemma sum_bytes_app l1 l2 : sum_bytes (l1 ++ l2) = sum_bytes l1 + sum_bytes l2.
Proof. unfold sum_bytes. induction l1; cbn [foldr app] in *; lia. Qed.
Lemma sum_bytes_nonneg l : is_bytes l -> 0 <= sum_bytes l.
Proof. unfold sum_bytes. induction 1 as [|x l [Hx _] _ IH]; cbn [foldr]; lia. Qed.
End Bytes.
