(* ===== verification/Fifo.v ===== *)
(** * The bounded-FIFO interface

    What the ring buffers of the firmware (the generic queue, the MKBP event
    FIFO, the UART receive ring) promise to their clients: a first-in
    first-out sequence of bounded length.  [FifoSpec] carries the abstraction
    function and the laws; [fifo_refines] is the client-side theorem, proved
    once against the interface: any sequence of puts and gets behaves like the
    same sequence on a plain list. *)

From S2P Require Import Prelude.

Class Fifo (Q A : Type) := {
  fifo_put : A -> Q -> Q * bool;
  fifo_get : Q -> Q * option A;
}.

Class FifoSpec (Q A : Type) `{Fifo Q A} := {
  fifo_wf : Q -> Prop;
  fifo_ok : Q -> A -> Prop;
  fifo_contents : Q -> list A;
  fifo_capacity : Q -> nat;
  fifo_put_spec q a :
    fifo_wf q -> fifo_ok q a ->
    let '(q', b) := fifo_put a q in
    fifo_wf q' /\ fifo_capacity q' = fifo_capacity q /\
    (forall x, fifo_ok q x -> fifo_ok q' x) /\
    (b, fifo_contents q') =
      if decide (length (fifo_contents q) < fifo_capacity q)%nat
      then (true, fifo_contents q ++ [a]) else (false, fifo_contents q);
  fifo_get_spec q :
    fifo_wf q ->
    let '(q', r) := fifo_get q in
    fifo_wf q' /\ fifo_capacity q' = fifo_capacity q /\
    (forall x, fifo_ok q x -> fifo_ok q' x) /\
    r = head (fifo_contents q) /\ fifo_contents q' = tail (fifo_contents q);
}.

(** ** Operation sequences *)

Inductive fifo_op (A : Type) := FPut (a : A) | FGet.
Arguments FPut {A} a.
Arguments FGet {A}.

Inductive fifo_out (A : Type) := OPut (accepted : bool) | OGet (r : option A).
Arguments OPut {A} accepted.
Arguments OGet {A} r.

(** The abstract machine: a list with a capacity. *)
Definition spec_step {A} (cap : nat) (op : fifo_op A) (l : list A) : list A * fifo_out A :=
  match op with
  | FPut a => if decide (length l < cap)%nat then (l ++ [a], OPut true) else (l, OPut false)
  | FGet => (tail l, OGet (head l))
  end.

Fixpoint spec_run {A} (cap : nat) (ops : list (fifo_op A)) (l : list A)
  : list A * list (fifo_out A) :=
  match ops with
  | [] => (l, [])
  | op :: ops =>
      let '(l, o) := spec_step cap op l in
      let '(l, os) := spec_run cap ops l in (l, o :: os)
  end.

Section Run.
Context {Q A : Type} `{FifoSpec Q A}.

Definition fifo_step (op : fifo_op A) (q : Q) : Q * fifo_out A :=
  match op with
  | FPut a => let '(q, b) := fifo_put a q in (q, OPut b)
  | FGet => let '(q, r) := fifo_get q in (q, OGet r)
  end.

Fixpoint fifo_run (ops : list (fifo_op A)) (q : Q) : Q * list (fifo_out A) :=
  match ops with
  | [] => (q, [])
  | op :: ops =>
      let '(q, o) := fifo_step op q in
      let '(q, os) := fifo_run ops q in (q, o :: os)
  end.

Definition op_ok (q : Q) (op : fifo_op A) : Prop :=
  match op with FPut a => fifo_ok q a | FGet => True end.

Lemma fifo_step_refines op q :
  fifo_wf q -> op_ok q op ->
  let '(q', o) := fifo_step op q in
  fifo_wf q' /\ fifo_capacity q' = fifo_capacity q /\
  (forall x, op_ok q x -> op_ok q' x) /\
  spec_step (fifo_capacity q) op (fifo_contents q) = (fifo_contents q', o).
Proof.
  intros Hwf Hok. destruct op as [a|]; simpl in *.
  - pose proof (fifo_put_spec q a Hwf Hok) as Hp.
    destruct (fifo_put a q) as [q' b]. destruct Hp as (? & ? & Hk & Heq).
    split_and!; [done..| |].
    { intros [x|]; simpl; auto. }
    case_decide; congruence.
  - pose proof (fifo_get_spec q Hwf) as Hp.
    destruct (fifo_get q) as [q' r]. destruct Hp as (? & ? & Hk & -> & ->).
    split_and!; [done..| |done]. intros [x|]; simpl; auto.
Qed.

Lemma fifo_refines ops q :
  fifo_wf q -> Forall (op_ok q) ops ->
  let '(q', os) := fifo_run ops q in
  fifo_wf q' /\ spec_run (fifo_capacity q) ops (fifo_contents q) = (fifo_contents q', os).
Proof.
  revert q. induction ops as [|op ops IH]; intros q Hwf Hok; simpl; [done|].
  inversion_clear Hok as [|? ? Ho Hos].
  pose proof (fifo_step_refines op q Hwf Ho) as Hs.
  destruct (fifo_step op q) as [q1 o]. destruct Hs as (Hwf1 & Hcap & Hk & ->).
  assert (Hos1 : Forall (op_ok q1) ops) by (eapply Forall_impl; [exact Hk|exact Hos]).
  specialize (IH q1 Hwf1 Hos1). destruct (fifo_run ops q1) as [q2 os].
  rewrite <- Hcap. destruct IH as [? ->]. done.
Qed.
End Run.

(** On the abstract machine nothing is lost or reordered: what was accepted
    is what comes out, followed by what is still inside. *)
Definition accepted {A} (op : fifo_op A) (o : fifo_out A) : list A :=
  match op, o with FPut a, OPut true => [a] | _, _ => [] end.
Definition delivered {A} (o : fifo_out A) : list A :=
  match o with OGet (Some a) => [a] | _ => [] end.
Definition all_accepted {A} (ops : list (fifo_op A)) (os : list (fifo_out A)) : list A :=
  concat (zip_with accepted ops os).
Definition all_delivered {A} (os : list (fifo_out A)) : list A := concat (delivered <$> os).

Lemma spec_run_order {A} cap (ops : list (fifo_op A)) l :
  let '(l', os) := spec_run cap ops l in
  l ++ all_accepted ops os = all_delivered os ++ l'.
Proof.
  revert l. induction ops as [|op ops IH]; intros l; [by apply app_nil_r|]. simpl.
  destruct (spec_step cap op l) as [l1 o] eqn:Hs. specialize (IH l1).
  destruct (spec_run cap ops l1) as [l2 os]. unfold all_accepted, all_delivered in *. simpl.
  destruct op as [a|]; simpl in Hs.
  - case_decide; simplify_eq/=; [|done]. by rewrite <- app_assoc in IH.
  - simplify_eq. destruct l as [|x l]; simpl in *; [done|]. f_equal. exact IH.
Qed.

Lemma spec_run_bound {A} cap (ops : list (fifo_op A)) l :
  (length l <= cap)%nat -> (length (spec_run cap ops l).1 <= cap)%nat.
Proof.
  revert l. induction ops as [|op ops IH]; intros l Hl; [done|]. simpl.
  destruct (spec_step cap op l) as [l1 o] eqn:Hs. specialize (IH l1).
  destruct (spec_run cap ops l1) as [l2 os]. simpl in *. apply IH.
  destruct op as [a|]; simpl in Hs.
  - case_decide; simplify_eq; [|done]. rewrite length_app. simpl. lia.
  - simplify_eq. destruct l; simpl in *; lia.
Qed.
