(* ===== verification/Queue.v ===== *)
(** * The generic queue (common/queue.c)

    A ring buffer of [buffer_units] units of [unit_bytes] bytes.  [head] and
    [tail] are free-running [size_t] counters (32 bits on the EC cores) that
    are masked only when the buffer is accessed.  The theorems: the byte ring
    refines the bounded FIFO of [Fifo.v]; the batch operations equal the
    corresponding list operations; peeking, the read and write chunks and the
    iterator expose exactly the contents. *)

From S2P Require Import Prelude Fifo.

Module Queue.

(** ** State *)

(** A call of the queue's policy: the consumer is told of added units, the
    producer of removed ones. *)
(** src/include/queue.h:37-40 [struct queue_policy] *)
Inductive policy_call := PolicyAdd (count : Z) | PolicyRemove (count : Z).

(** [q_policy] records the calls of the policy so far, latest first. *)
(** src/include/queue.h:68-99 [struct queue] *)
Record queue := Mk {
  q_head : Z;
  q_tail : Z;
  q_flags : Z;
  q_policy : list policy_call;
  buffer_units : Z;
  buffer_units_mask : Z;
  unit_bytes : Z;
  buffer : list Z;
}.

Definition with_head (h : Z) (q : queue) : queue :=
  Mk h (q_tail q) (q_flags q) (q_policy q) (buffer_units q) (buffer_units_mask q)
    (unit_bytes q) (buffer q).
Definition with_tail (t : Z) (q : queue) : queue :=
  Mk (q_head q) t (q_flags q) (q_policy q) (buffer_units q) (buffer_units_mask q)
    (unit_bytes q) (buffer q).
Definition with_flags (f : Z) (q : queue) : queue :=
  Mk (q_head q) (q_tail q) f (q_policy q) (buffer_units q) (buffer_units_mask q)
    (unit_bytes q) (buffer q).
Definition with_policy (c : policy_call) (q : queue) : queue :=
  Mk (q_head q) (q_tail q) (q_flags q) (c :: q_policy q) (buffer_units q)
    (buffer_units_mask q) (unit_bytes q) (buffer q).
Definition with_buffer (b : list Z) (q : queue) : queue :=
  Mk (q_head q) (q_tail q) (q_flags q) (q_policy q) (buffer_units q) (buffer_units_mask q)
    (unit_bytes q) b.

(** src/include/queue.h:56-63 [enum queue_flags] *)
Definition QUEUE_BUFFERED_MODE : Z := BIT 0.

(** The static initialiser: [SIZE] units of [ub] zero bytes. *)
(** src/include/queue.h:106-114 [QUEUE] *)
Definition QUEUE (SIZE ub : Z) : queue :=
  Mk 0 0 0 [] SIZE (SIZE - 1) ub (replicate (Z.to_nat (SIZE * ub)) 0).

(** ** Operations *)

(** src/common/queue.c:32-41 [queue_init] *)
Definition queue_init (q : queue) : queue :=
  with_flags 0 (with_tail 0 (with_head 0 q)).

(** src/common/queue.c:43-46 [queue_enable_buffered_mode] *)
Definition queue_enable_buffered_mode (q : queue) : queue :=
  with_flags (Z.lor (q_flags q) QUEUE_BUFFERED_MODE) q.

(** src/include/queue.h:125-129 [is_queue_buffered] *)
Definition is_queue_buffered (q : queue) : bool :=
  bool_of_Z (Z.land (q_flags q) QUEUE_BUFFERED_MODE).

(** src/common/queue.c:48-51 [queue_is_empty] *)
Definition queue_is_empty (q : queue) : bool := q_head q =? q_tail q.

(** src/common/queue.c:53-56 [queue_count] *)
Definition queue_count (q : queue) : Z := u32 (q_tail q - q_head q).

(** src/common/queue.c:58-61 [queue_space] *)
Definition queue_space (q : queue) : Z := u32 (buffer_units q - queue_count q).

(** src/common/queue.c:63-66 [queue_is_full] *)
Definition queue_is_full (q : queue) : bool := queue_space q =? 0.

(** A chunk: the number of units and the byte offset of its first unit in the
    buffer ([None] for a null pointer). *)
(** src/include/queue.h:174-177 [struct queue_chunk] *)
Record queue_chunk := Chunk { chunk_count : Z; chunk_buffer : option Z }.

(** src/common/queue.c:89-107 [queue_get_write_chunk] *)
Definition queue_get_write_chunk (q : queue) (offset : Z) : queue_chunk :=
  let head := Z.land (q_head q) (buffer_units_mask q) in
  let tail := Z.land (u32 (q_tail q + offset)) (buffer_units_mask q) in
  let last := if tail <? head then head else buffer_units q in
  if queue_space q <=? offset then Chunk 0 None
  else Chunk (last - tail) (Some (tail * unit_bytes q)).

(** src/common/queue.c:109-121 [queue_get_read_chunk] *)
Definition queue_get_read_chunk (q : queue) : queue_chunk :=
  let head := Z.land (q_head q) (buffer_units_mask q) in
  let tail := Z.land (q_tail q) (buffer_units_mask q) in
  let last := if queue_is_empty q then head
              else if head <? tail then tail else buffer_units q in
  Chunk (last - head) (Some (head * unit_bytes q)).

(** src/common/queue.c:123-132 [queue_advance_head] *)
Definition queue_advance_head (q : queue) (count : Z) : queue * Z :=
  let transfer := Z.min count (queue_count q) in
  let q := with_head (u32 (q_head q + transfer)) q in
  (with_policy (PolicyRemove transfer) q, transfer).

(** src/common/queue.c:134-144 [queue_advance_tail] *)
Definition queue_advance_tail (q : queue) (count : Z) : queue * Z :=
  let transfer := Z.min count (queue_space q) in
  if 0 <? transfer then
    let q := with_tail (u32 (q_tail q + transfer)) q in
    (with_policy (PolicyAdd transfer) q, transfer)
  else (q, transfer).

(** src/common/queue.c:146-159 [queue_add_unit] *)
Definition queue_add_unit (q : queue) (src : list Z) : queue * Z :=
  let tail := Z.land (q_tail q) (buffer_units_mask q) in
  if queue_space q =? 0 then (q, 0)
  else
    let buf := if unit_bytes q =? 1 then aset (buffer q) tail (aget src 0)
               else bcopy (buffer q) (tail * unit_bytes q) src (unit_bytes q) in
    queue_advance_tail (with_buffer buf q) 1.

(** The [memcpy]-like function pointer: [cpy dst off src n] is [dst] after
    [memcpy(&dst[off], src, n)]. *)
Definition copier := list Z -> Z -> list Z -> Z -> list Z.

(** src/common/queue.c:166-181 [queue_add_memcpy] *)
Definition queue_add_memcpy (q : queue) (src : list Z) (count : Z) (cpy : copier)
  : queue * Z :=
  let transfer := Z.min count (queue_space q) in
  let tail := Z.land (q_tail q) (buffer_units_mask q) in
  let first := Z.min transfer (buffer_units q - tail) in
  let buf := cpy (buffer q) (tail * unit_bytes q) src (first * unit_bytes q) in
  let buf := if first <? transfer
             then cpy buf 0 (drop (Z.to_nat (first * unit_bytes q)) src)
                    ((transfer - first) * unit_bytes q)
             else buf in
  queue_advance_tail (with_buffer buf q) transfer.

(** src/common/queue.c:161-164 [queue_add_units] *)
Definition queue_add_units (q : queue) (src : list Z) (count : Z) : queue * Z :=
  queue_add_memcpy q src count bcopy.

(** src/common/queue.c:183-196 [queue_flush] *)
Definition queue_flush (q : queue) : queue :=
  if bool_of_Z (Z.land (q_flags q) QUEUE_BUFFERED_MODE)
  then with_policy (PolicyAdd 0) q else q.

(** The new contents of [dest]. *)
(** src/common/queue.c:198-209 [queue_read_safe] *)
Definition queue_read_safe (q : queue) (dest : list Z) (head transfer : Z) (cpy : copier)
  : list Z :=
  let first := Z.min transfer (buffer_units q - head) in
  let dest := cpy dest 0 (drop (Z.to_nat (head * unit_bytes q)) (buffer q))
                (first * unit_bytes q) in
  if first <? transfer
  then cpy dest (first * unit_bytes q) (buffer q) ((transfer - first) * unit_bytes q)
  else dest.

(** src/common/queue.c:211-224 [queue_remove_unit] *)
Definition queue_remove_unit (q : queue) (dest : list Z) : queue * list Z * Z :=
  let head := Z.land (q_head q) (buffer_units_mask q) in
  if queue_count q =? 0 then (q, dest, 0)
  else
    let dest := if unit_bytes q =? 1 then aset dest 0 (aget (buffer q) head)
                else bcopy dest 0 (drop (Z.to_nat (head * unit_bytes q)) (buffer q))
                       (unit_bytes q) in
    let '(q, n) := queue_advance_head q 1 in (q, dest, n).

(** src/common/queue.c:231-241 [queue_remove_memcpy] *)
Definition queue_remove_memcpy (q : queue) (dest : list Z) (count : Z) (cpy : copier)
  : queue * list Z * Z :=
  let transfer := Z.min count (queue_count q) in
  let head := Z.land (q_head q) (buffer_units_mask q) in
  let dest := queue_read_safe q dest head transfer cpy in
  let '(q, n) := queue_advance_head q transfer in (q, dest, n).

(** src/common/queue.c:226-229 [queue_remove_units] *)
Definition queue_remove_units (q : queue) (dest : list Z) (count : Z) : queue * list Z * Z :=
  queue_remove_memcpy q dest count bcopy.

(** [available - i] is a [size_t] subtraction: it wraps when [i > available]. *)
(** src/common/queue.c:249-263 [queue_peek_memcpy] *)
Definition queue_peek_memcpy (q : queue) (dest : list Z) (i count : Z) (cpy : copier)
  : list Z * Z :=
  let available := queue_count q in
  let transfer := Z.min count (u32 (available - i)) in
  if i <? available then
    let head := Z.land (u32 (q_head q + i)) (buffer_units_mask q) in
    (queue_read_safe q dest head transfer cpy, transfer)
  else (dest, transfer).

(** src/common/queue.c:243-247 [queue_peek_units] *)
Definition queue_peek_units (q : queue) (dest : list Z) (i count : Z) : list Z * Z :=
  queue_peek_memcpy q dest i count bcopy.

(** The iterator: [it_ptr] is a byte offset into the buffer or null. *)
(** src/include/queue.h:143-152 [struct queue_iterator] *)
Record queue_iterator := It {
  it_ptr : option Z; it_offset : Z; it_head : Z; it_tail : Z }.

(** src/common/queue.c:265-275 [queue_begin] *)
Definition queue_begin (q : queue) : queue_iterator :=
  It (if queue_is_empty q then None
      else Some (Z.land (q_head q) (buffer_units_mask q) * unit_bytes q))
     0 (q_head q) (q_tail q).

(** src/common/queue.c:277-306 [queue_next] *)
Definition queue_next (q : queue) (it : queue_iterator) : queue_iterator :=
  if negb (it_head it =? q_head q) || negb (it_tail it =? q_tail q) then
    It None (it_offset it) (it_head it) (it_tail it)
  else match it_ptr it with
  | None => it
  | Some _ =>
    if u32 (it_head it + it_offset it) =? it_tail it then it
    else
      let offset := u32 (it_offset it + 1) in
      if u32 (it_head it + offset) =? it_tail it then
        It None offset (it_head it) (it_tail it)
      else
        It (Some (Z.land (u32 (it_head it + offset)) (buffer_units_mask q) * unit_bytes q))
           offset (it_head it) (it_tail it)
  end.

(** ** Well-formedness and contents *)

Record wf_at (k : Z) (q : queue) : Prop := {
  wf_k : 0 <= k < 32;
  wf_units : buffer_units q = 2 ^ k;
  wf_mask : buffer_units_mask q = 2 ^ k - 1;
  wf_ub : 0 < unit_bytes q;
  wf_len : Z.of_nat (length (buffer q)) = buffer_units q * unit_bytes q;
  wf_head : is_u32 (q_head q);
  wf_tail : is_u32 (q_tail q);
  wf_count : queue_count q <= buffer_units q;
}.
Definition wf (q : queue) : Prop := exists k, wf_at k q.

(** The [i]-th unit of the ring, counted from the head. *)
Definition unit_at (q : queue) (i : Z) : list Z :=
  slice (buffer q) (Z.land (u32 (q_head q + i)) (buffer_units_mask q) * unit_bytes q)
    (unit_bytes q).

Definition contents (q : queue) : list (list Z) := unit_at q <$> seqZ 0 (queue_count q).

Lemma length_contents q : length (contents q) = Z.to_nat (queue_count q).
Proof. unfold contents. by rewrite length_fmap, length_seqZ. Qed.

Lemma count_range q : is_u32 (queue_count q).
Proof. apply wrap_range. lia. Qed.

Section Ring.
Context (k : Z) (q : queue) (Hwf : wf_at k q).

Lemma pow_bound : 0 < 2 ^ k <= 2 ^ 31.
Proof. destruct (wf_k _ _ Hwf). split; [lia|]. apply Z.pow_le_mono_r; lia. Qed.

Lemma mask_pos x : Z.land (u32 x) (buffer_units_mask q) = wrap k x.
Proof.
  destruct (wf_k _ _ Hwf). rewrite (wf_mask _ _ Hwf), land_mask by lia.
  apply wrap_narrow. lia.
Qed.

Lemma mask_in x : is_u32 x -> Z.land x (buffer_units_mask q) = wrap k x.
Proof. intros Hx. rewrite <- (wrap_id 32 x Hx) at 1. apply mask_pos. Qed.

Lemma space_eq : queue_space q = 2 ^ k - queue_count q.
Proof.
  unfold queue_space. pose proof pow_bound. pose proof (count_range q) as [? _].
  pose proof (wf_count _ _ Hwf). rewrite (wf_units _ _ Hwf) in *.
  apply wrap_id. unfold in_range. lia.
Qed.

Lemma unit_at_eq i :
  unit_at q i = slice (buffer q) (wrap k (q_head q + i) * unit_bytes q) (unit_bytes q).
Proof. unfold unit_at. by rewrite mask_pos. Qed.
End Ring.

(** ** Writing and reading across the wrap *)

(** The two-part copy of [queue_add_memcpy]. *)
Definition ring_write (units ub : Z) (buf src : list Z) (tail n : Z) : list Z :=
  let first := Z.min n (units - tail) in
  let b := bcopy buf (tail * ub) src (first * ub) in
  if first <? n then bcopy b 0 (drop (Z.to_nat (first * ub)) src) ((n - first) * ub) else b.

Section Copy.
Context (k ub : Z) (Hk : 0 <= k) (Hub : 0 < ub).

(** [j - tail] modulo the ring size, by cases. *)
Lemma wrap_dist tail j :
  0 <= tail < 2 ^ k -> 0 <= j < 2 ^ k ->
  wrap k (j - tail) = if decide (tail <= j) then j - tail else j - tail + 2 ^ k.
Proof.
  intros. case_decide; apply wrap_eq; unfold in_range; try lia; [exists 0|exists (-1)]; lia.
Qed.

Lemma length_ring_write buf src tail n :
  Z.of_nat (length buf) = 2 ^ k * ub -> 0 <= tail < 2 ^ k -> 0 <= n <= 2 ^ k ->
  n * ub <= Z.of_nat (length src) ->
  length (ring_write (2 ^ k) ub buf src tail n) = length buf.
Proof.
  intros Hb Ht Hn Hs. unfold ring_write.
  assert (Z.min n (2 ^ k - tail) * ub <= n * ub) by nia.
  assert (tail * ub + Z.min n (2 ^ k - tail) * ub <= 2 ^ k * ub) by nia.
  destruct (Z.ltb_spec (Z.min n (2 ^ k - tail)) n).
  - rewrite length_bcopy; rewrite ?length_bcopy, ?length_drop; nia.
  - rewrite length_bcopy; nia.
Qed.

Lemma ring_write_unit buf src tail n j :
  Z.of_nat (length buf) = 2 ^ k * ub -> 0 <= tail < 2 ^ k -> 0 <= n <= 2 ^ k ->
  n * ub <= Z.of_nat (length src) -> 0 <= j < 2 ^ k ->
  slice (ring_write (2 ^ k) ub buf src tail n) (j * ub) ub =
    if decide (wrap k (j - tail) < n) then slice src (wrap k (j - tail) * ub) ub
    else slice buf (j * ub) ub.
Proof.
  intros Hb Ht Hn Hs Hj. unfold ring_write. rewrite wrap_dist by lia.
  set (first := Z.min n (2 ^ k - tail)).
  assert (Hm : forall a b, a <= b -> a * ub <= b * ub) by nia.
  pose proof (Hm 0 first ltac:(lia)). pose proof (Hm 0 tail ltac:(lia)).
  pose proof (Hm first n ltac:(lia)). pose proof (Hm (tail + first) (2 ^ k) ltac:(lia)).
  pose proof (Hm (j + 1) (2 ^ k) ltac:(lia)). pose proof (Hm 0 j ltac:(lia)).
  pose proof (Hm 0 (n - first) ltac:(lia)).
  destruct (Z.ltb_spec first n) as [Hlt|Hge].
  - assert (first = 2 ^ k - tail) as Hf by lia.
    pose proof (Hm (n - first) tail ltac:(lia)).
    destruct (decide (j < n - first)) as [Hin|Hout].
    + pose proof (Hm (j + 1) (n - first) ltac:(lia)).
      rewrite slice_bcopy_inside by lens.
      rewrite slice_drop by lia. rewrite (decide_False (P:=tail <= j)) by lia.
      rewrite decide_True by lia. f_equal. lia.
    + pose proof (Hm (n - first) j ltac:(lia)).
      rewrite slice_bcopy_disjoint by lens.
      destruct (decide (tail <= j)) as [Hc|Hc].
      * pose proof (Hm tail j Hc). pose proof (Hm (j + 1) (tail + first) ltac:(lia)).
        rewrite decide_True by lia. rewrite slice_bcopy_inside by lia. f_equal. lia.
      * pose proof (Hm (j + 1) tail ltac:(lia)).
        rewrite decide_False by lia. rewrite slice_bcopy_disjoint by lia. done.
  - destruct (decide (tail <= j)) as [Hc|Hc].
    + pose proof (Hm tail j Hc). case_decide as Hn'.
      * pose proof (Hm (j + 1) (tail + first) ltac:(lia)).
        rewrite slice_bcopy_inside by lia. f_equal. lia.
      * pose proof (Hm (tail + first) j ltac:(lia)).
        rewrite slice_bcopy_disjoint by lia. done.
    + pose proof (Hm (j + 1) tail ltac:(lia)).
      rewrite decide_False by lia. rewrite slice_bcopy_disjoint by lia. done.
Qed.
End Copy.

(** The two-part copy of [queue_read_safe]. *)
Lemma read_safe_units k q dest head n :
  wf_at k q -> 0 <= head < 2 ^ k -> 0 <= n <= 2 ^ k ->
  n * unit_bytes q <= Z.of_nat (length dest) ->
  let dest' := queue_read_safe q dest head n bcopy in
  length dest' = length dest /\
  chunks dest' (unit_bytes q) n =
    (fun j => slice (buffer q) (wrap k (head + j) * unit_bytes q) (unit_bytes q)) <$> seqZ 0 n.
Proof.
  intros Hwf Hh Hn Hd. unfold queue_read_safe. rewrite (wf_units _ _ Hwf).
  pose proof (wf_ub _ _ Hwf) as Hub. pose proof (wf_len _ _ Hwf) as Hlen.
  rewrite (wf_units _ _ Hwf) in Hlen. pose proof (wf_k _ _ Hwf).
  set (ub := unit_bytes q) in *. set (first := Z.min n (2 ^ k - head)).
  assert (Hm : forall a b, a <= b -> a * ub <= b * ub) by nia.
  pose proof (Hm 0 first ltac:(lia)). pose proof (Hm 0 head ltac:(lia)).
  pose proof (Hm first n ltac:(lia)). pose proof (Hm (head + first) (2 ^ k) ltac:(lia)).
  pose proof (Hm 0 (n - first) ltac:(lia)). pose proof (Hm (n - first) (2 ^ k) ltac:(lia)).
  assert (Hwrap : forall j, 0 <= j < n ->
    wrap k (head + j) = if decide (j < first) then head + j else j - first).
  { intros j Hj. case_decide; apply wrap_eq; unfold in_range; try lia; [exists 0|exists 1]; lia. }
  split.
  { destruct (Z.ltb_spec first n).
    - lens.
    - lens. }
  unfold chunks. apply seqZ_fmap_ext. intros j Hj. rewrite Hwrap by lia.
  pose proof (Hm 0 j ltac:(lia)). case_decide.
  - pose proof (Hm (j + 1) first ltac:(lia)).
    destruct (Z.ltb_spec first n).
    + rewrite slice_bcopy_disjoint by lens.
      rewrite slice_bcopy_inside by lens.
      rewrite slice_drop by lia. f_equal. lia.
    + rewrite slice_bcopy_inside by lens.
      rewrite slice_drop by lia. f_equal. lia.
  - pose proof (Hm first j ltac:(lia)). pose proof (Hm (j + 1) n ltac:(lia)).
    rewrite (proj2 (Z.ltb_lt _ _)) by lia.
    rewrite slice_bcopy_inside by lens.
    f_equal. lia.
Qed.

(** ** The operations on contents *)

(** What [queue_advance_tail] makes of a ring into which [n] units were
    written behind the tail. *)
Lemma advance_tail_contents k q buf us n :
  wf_at k q -> length buf = length (buffer q) -> 0 <= n <= queue_space q ->
  Z.of_nat (length us) = n ->
  (forall j, 0 <= j < 2 ^ k ->
     Some (slice buf (j * unit_bytes q) (unit_bytes q)) =
     if decide (wrap k (j - q_tail q) < n) then us !! Z.to_nat (wrap k (j - q_tail q))
     else Some (slice (buffer q) (j * unit_bytes q) (unit_bytes q))) ->
  let '(q', r) := queue_advance_tail (with_buffer buf q) n in
  r = n /\ wf_at k q' /\ contents q' = contents q ++ us /\ unit_bytes q' = unit_bytes q /\
  q_policy q' = (if 0 <? n then [PolicyAdd n] else []) ++ q_policy q.
Proof.
  intros Hwf Hbuf Hn Hus Hunits. pose proof (pow_bound k q Hwf) as Hp.
  pose proof (wf_count _ _ Hwf) as Hc. pose proof (count_range q) as [Hc0 _].
  rewrite (space_eq k q Hwf) in Hn. rewrite (wf_units _ _ Hwf) in Hc.
  pose proof (wf_k _ _ Hwf) as Hk.
  assert (Hsp : queue_space (with_buffer buf q) = 2 ^ k - queue_count q)
    by apply (space_eq k q Hwf).
  unfold queue_advance_tail. rewrite Hsp, Z.min_l by lia.
  assert (Hcount : u32 (u32 (q_tail q + n) - q_head q) = queue_count q + n).
  { autorewrite with ecr. replace (q_tail q + n - q_head q) with (q_tail q - q_head q + n) by lia.
    rewrite <- wrap_add_l. apply wrap_id. unfold queue_count, in_range in *. lia. }
  assert (Hcont : forall q', q_head q' = q_head q -> buffer q' = buf ->
      buffer_units_mask q' = buffer_units_mask q -> unit_bytes q' = unit_bytes q ->
      queue_count q' = queue_count q + n -> contents q' = contents q ++ us).
  { intros q' E1 E2 E3 E4 E5. apply list_eq. intros i. unfold contents at 1.
    rewrite lookup_fmap_seqZ, E5. unfold unit_at. rewrite E1, E2, E3, E4.
    rewrite (mask_pos k q Hwf). set (p := wrap k (q_head q + Z.of_nat i)).
    assert (Hpr : 0 <= p < 2 ^ k) by (apply wrap_range; lia).
    assert (Hd : wrap k (p - q_tail q) = wrap k (Z.of_nat i - queue_count q)).
    { subst p. rewrite wrap_sub_l. unfold queue_count.
      rewrite <- (wrap_narrow k 32 (Z.of_nat i - _)) by lia. rewrite wrap_sub_r, wrap_narrow by lia.
      f_equal. lia. }
    case_decide as Hi.
    - rewrite Hunits, Hd by lia. destruct (decide (Z.of_nat i < queue_count q)).
      + assert (Hw : wrap k (Z.of_nat i - queue_count q) = Z.of_nat i - queue_count q + 2 ^ k).
        { apply wrap_eq; unfold in_range; [lia|lia|]. exists (-1). lia. }
        rewrite decide_False by lia.
        rewrite lookup_app_l by (rewrite length_contents; lia).
        unfold contents. rewrite lookup_fmap_seqZ, decide_True, (unit_at_eq k q Hwf) by lia. done.
      + assert (Hw : wrap k (Z.of_nat i - queue_count q) = Z.of_nat i - queue_count q).
        { apply wrap_id; unfold in_range; lia. }
        rewrite Hw, decide_True by lia.
        rewrite lookup_app_r by (rewrite length_contents; lia).
        rewrite length_contents. f_equal. lia.
    - symmetry. apply lookup_ge_None_2. rewrite length_app, length_contents. lia. }
  destruct (Z.ltb_spec 0 n) as [Hpos|Hz]; simpl.
  - split_and!; [done| |by apply Hcont|done|done].
    destruct Hwf. constructor; simpl; try done; [congruence|by apply wrap_range; lia|].
    unfold queue_count; simpl. rewrite Hcount. lia.
  - assert (n = 0) as -> by lia. split_and!; [done| | |done|done].
    + destruct Hwf. constructor; simpl; try done; congruence.
    + apply Hcont; try done. rewrite Z.add_0_r. done.
Qed.

(** [queue_add_units]: as many units as fit are appended, in order. *)
Lemma queue_add_units_contents k q src count :
  wf_at k q -> 0 <= count -> count * unit_bytes q <= Z.of_nat (length src) ->
  let n := Z.min count (queue_space q) in
  let '(q', r) := queue_add_units q src count in
  r = n /\ wf_at k q' /\ contents q' = contents q ++ chunks src (unit_bytes q) n /\
  unit_bytes q' = unit_bytes q /\
  q_policy q' = (if 0 <? n then [PolicyAdd n] else []) ++ q_policy q.
Proof.
  intros Hwf Hcnt Hsrc n. pose proof (pow_bound k q Hwf) as Hp.
  pose proof (wf_ub _ _ Hwf). pose proof (wf_k _ _ Hwf).
  pose proof (wf_len _ _ Hwf) as Hlen. rewrite (wf_units _ _ Hwf) in Hlen.
  pose proof (space_eq k q Hwf) as Hsp. pose proof (count_range q) as [? _].
  pose proof (wf_count _ _ Hwf). rewrite (wf_units _ _ Hwf) in *.
  unfold queue_add_units, queue_add_memcpy. fold n. rewrite (wf_units _ _ Hwf).
  rewrite (mask_in k q Hwf) by apply Hwf.
  set (tail := wrap k (q_tail q)).
  assert (Ht : 0 <= tail < 2 ^ k) by (apply wrap_range; lia).
  match goal with |- context [with_buffer ?b q] =>
    change b with (ring_write (2 ^ k) (unit_bytes q) (buffer q) src tail n) end.
  assert (n * unit_bytes q <= Z.of_nat (length src)) by nia.
  apply advance_tail_contents; [done|by apply length_ring_write; lia|lia| |].
  - rewrite length_chunks. lia.
  - intros j Hj. rewrite ring_write_unit by lia.
    subst tail. rewrite wrap_sub_r. case_decide as Hd; [|done].
    unfold chunks. rewrite lookup_fmap_seqZ.
    pose proof (wrap_range k (j - q_tail q)) as Hr. unfold in_range in Hr.
    rewrite !Z2Nat.id, decide_True by lia. done.
Qed.

(** [queue_add_unit] on a unit-sized source. *)
Lemma queue_add_unit_contents k q u :
  wf_at k q -> Z.of_nat (length u) = unit_bytes q ->
  let '(q', r) := queue_add_unit q u in
  wf_at k q' /\ unit_bytes q' = unit_bytes q /\
  if decide (queue_space q = 0) then r = 0 /\ q' = q
  else r = 1 /\ contents q' = contents q ++ [u] /\ q_policy q' = PolicyAdd 1 :: q_policy q.
Proof.
  intros Hwf Hu. unfold queue_add_unit. case_decide as Hs.
  { by rewrite (proj2 (Z.eqb_eq _ _) Hs). }
  rewrite (proj2 (Z.eqb_neq _ _) Hs).
  pose proof (pow_bound k q Hwf) as Hp. pose proof (wf_k _ _ Hwf).
  pose proof (space_eq k q Hwf) as Hsp. pose proof (wf_count _ _ Hwf).
  pose proof (wf_ub _ _ Hwf) as Hub. pose proof (wf_len _ _ Hwf) as Hlen.
  rewrite (wf_units _ _ Hwf) in *.
  rewrite (mask_in k q Hwf) by apply Hwf.
  set (tail := wrap k (q_tail q)).
  assert (Ht : 0 <= tail < 2 ^ k) by (apply wrap_range; lia).
  assert (Hbuf : (if unit_bytes q =? 1 then aset (buffer q) tail (aget u 0)
      else bcopy (buffer q) (tail * unit_bytes q) u (unit_bytes q)) =
      ring_write (2 ^ k) (unit_bytes q) (buffer q) u tail 1).
  { unfold ring_write. rewrite Z.min_l by lia. rewrite Z.ltb_irrefl, Z.mul_1_l.
    destruct (Z.eqb_spec (unit_bytes q) 1) as [E|]; [|done].
    rewrite E in *. destruct u as [|x [|y u]]; simpl in Hu; try lia.
    unfold aset, bcopy, aget. simpl. rewrite insert_take_drop by lia. do 2 f_equal.
    - lia.
    - f_equal. f_equal. lia. }
  rewrite Hbuf.
  pose proof (advance_tail_contents k q (ring_write (2 ^ k) (unit_bytes q) (buffer q) u tail 1)
    [u] 1 Hwf) as Hadv.
  destruct (queue_advance_tail _ 1) as [q' r].
  destruct Hadv as (-> & ? & ? & ? & ?); [by apply length_ring_write; lia|lia|done| |by split_and!].
  intros j Hj. rewrite ring_write_unit by lia. subst tail. rewrite wrap_sub_r.
  case_decide as Hd; [|done].
  pose proof (wrap_range k (j - q_tail q)) as Hr. unfold in_range in Hr.
  replace (wrap k (j - q_tail q)) with 0 by lia. simpl. f_equal. by apply slice_all.
Qed.

(** [queue_advance_head] drops units from the front. *)
Lemma advance_head_contents k q n :
  wf_at k q -> 0 <= n ->
  let '(q', r) := queue_advance_head q n in
  r = Z.min n (queue_count q) /\ wf_at k q' /\ contents q' = drop (Z.to_nat n) (contents q) /\
  unit_bytes q' = unit_bytes q /\ q_policy q' = PolicyRemove r :: q_policy q.
Proof.
  intros Hwf Hn. unfold queue_advance_head. set (r := Z.min n (queue_count q)).
  pose proof (wf_count _ _ Hwf) as Hc. pose proof (count_range q) as [Hc0 Hc1].
  pose proof (wf_k _ _ Hwf).
  set (q' := with_policy _ _).
  assert (Hcount : queue_count q' = queue_count q - r).
  { unfold queue_count at 1. simpl. autorewrite with ecr.
    replace (q_tail q - (q_head q + r)) with (q_tail q - q_head q - r) by lia.
    rewrite <- wrap_sub_l. apply wrap_id. unfold queue_count, in_range in *. lia. }
  split_and!; [done| | |done|done].
  - destruct Hwf. constructor; try done; [apply wrap_range; lia|]. rewrite Hcount. simpl. lia.
  - apply list_eq. intros i. rewrite lookup_drop. unfold contents. rewrite !lookup_fmap_seqZ, Hcount.
    destruct (decide (r = n)).
    + case_decide; [|by rewrite decide_False by lia]. rewrite decide_True by lia.
      rewrite (unit_at_eq k q Hwf). unfold unit_at. simpl. f_equal. f_equal.
      rewrite wrap_add_l, (mask_pos k q Hwf). do 2 f_equal. lia.
    + by rewrite !decide_False by lia.
Qed.

(** [queue_remove_units]: the oldest units are delivered, in order. *)
Lemma queue_remove_units_contents k q dest count :
  wf_at k q -> 0 <= count ->
  let n := Z.min count (queue_count q) in
  n * unit_bytes q <= Z.of_nat (length dest) ->
  let '(q', dest', r) := queue_remove_units q dest count in
  r = n /\ wf_at k q' /\ length dest' = length dest /\
  chunks dest' (unit_bytes q) n = take (Z.to_nat n) (contents q) /\
  contents q' = drop (Z.to_nat n) (contents q) /\ unit_bytes q' = unit_bytes q /\
  q_policy q' = PolicyRemove n :: q_policy q.
Proof.
  intros Hwf Hcnt n Hd. unfold queue_remove_units, queue_remove_memcpy. fold n.
  pose proof (wf_k _ _ Hwf). pose proof (count_range q) as [Hc0 _].
  pose proof (wf_count _ _ Hwf) as Hc. rewrite (wf_units _ _ Hwf) in Hc.
  rewrite (mask_in k q Hwf) by apply Hwf. set (h := wrap k (q_head q)).
  assert (Hh : 0 <= h < 2 ^ k) by (apply wrap_range; lia).
  destruct (read_safe_units k q dest h n Hwf Hh ltac:(lia) Hd) as [Hl Hu].
  pose proof (advance_head_contents k q n Hwf ltac:(lia)) as Ha.
  destruct (queue_advance_head q n) as [q' r]. destruct Ha as (-> & ? & ? & ? & Hp).
  rewrite Z.min_l in * by lia. split_and!; try done. rewrite Hu.
  apply list_eq. intros i. rewrite lookup_fmap_seqZ. case_decide.
  - rewrite lookup_take_lt by lia. unfold contents. rewrite lookup_fmap_seqZ, decide_True by lia.
    rewrite (unit_at_eq k q Hwf). subst h. by rewrite wrap_add_l.
  - rewrite lookup_take_ge by lia. done.
Qed.

(** [queue_remove_unit] is the batch operation with a count of one, except
    that it does not report an empty removal to the policy. *)
Lemma queue_remove_unit_eq k q dest :
  wf_at k q -> unit_bytes q <= Z.of_nat (length dest) -> queue_count q <> 0 ->
  queue_remove_unit q dest = queue_remove_units q dest 1.
Proof.
  intros Hwf Hd Hne. unfold queue_remove_unit, queue_remove_units, queue_remove_memcpy.
  pose proof (count_range q) as [? _]. pose proof (pow_bound k q Hwf). pose proof (wf_k _ _ Hwf).
  pose proof (wf_ub _ _ Hwf). pose proof (wf_len _ _ Hwf) as Hlen. rewrite (wf_units _ _ Hwf) in Hlen.
  rewrite (proj2 (Z.eqb_neq _ _)) by done. rewrite (Z.min_l 1) by lia.
  rewrite (mask_in k q Hwf) by apply Hwf. set (h := wrap k (q_head q)).
  assert (Hh : 0 <= h < 2 ^ k) by (apply wrap_range; lia).
  unfold queue_read_safe. rewrite (wf_units _ _ Hwf), Z.min_l, Z.ltb_irrefl, Z.mul_1_l by lia.
  destruct (Z.eqb_spec (unit_bytes q) 1) as [E|]; [|done].
  assert (Hb : aset dest 0 (aget (buffer q) h) = bcopy dest 0 (drop (Z.to_nat h) (buffer q)) 1).
  { destruct dest as [|x dest]; [simpl in *; lia|]. unfold aset, bcopy. simpl.
    destruct (lookup_lt_is_Some_2 (buffer q) (Z.to_nat h) ltac:(nia)) as [y Hy].
    rewrite (drop_S _ _ _ Hy). simpl. unfold aget. by rewrite (list_lookup_total_correct _ _ _ Hy). }
  rewrite E, Z.mul_1_r, Hb. done.
Qed.

(** ** The queue is a bounded FIFO *)

#[export] Instance queue_fifo : Fifo queue (list Z) := {
  fifo_put u q := let '(q, n) := queue_add_unit q u in (q, bool_of_Z n);
  fifo_get q :=
    let '(q, dest, n) := queue_remove_unit q (replicate (Z.to_nat (unit_bytes q)) 0) in
    (q, if bool_of_Z n then Some dest else None);
}.

#[export] Program Instance queue_fifo_spec : FifoSpec queue (list Z) := {
  fifo_wf := wf;
  fifo_ok q u := Z.of_nat (length u) = unit_bytes q;
  fifo_contents := contents;
  fifo_capacity q := Z.to_nat (buffer_units q);
}.
Next Obligation.
  intros q u [k Hwf] Hu. simpl.
  pose proof (queue_add_unit_contents k q u Hwf Hu) as Ha.
  destruct (queue_add_unit q u) as [q' r]. destruct Ha as (Hwf' & Hub & Ha).
  split_and!; [by exists k|by rewrite (wf_units _ _ Hwf), (wf_units _ _ Hwf')|by rewrite Hub|].
  pose proof (space_eq k q Hwf) as Hs. pose proof (count_range q) as [? _].
  rewrite length_contents, (wf_units _ _ Hwf).
  destruct (decide (queue_space q = 0)).
  - destruct Ha as [-> ->]. by rewrite decide_False by lia.
  - destruct Ha as (-> & -> & _). pose proof (wf_count _ _ Hwf) as Hc.
    rewrite (wf_units _ _ Hwf) in Hc. by rewrite decide_True by lia.
Qed.
Next Obligation.
  intros q [k Hwf]. simpl. set (dest := replicate _ _).
  pose proof (wf_ub _ _ Hwf) as Hub. pose proof (count_range q) as [? _].
  assert (Hd : Z.of_nat (length dest) = unit_bytes q) by (subst dest; lens).
  destruct (decide (queue_count q = 0)) as [He|Hne].
  - unfold queue_remove_unit. rewrite He. simpl.
    split_and!; [by exists k|done|done| |].
    + unfold contents. by rewrite He.
    + unfold contents. by rewrite He.
  - rewrite (queue_remove_unit_eq k) by (done || lia).
    pose proof (queue_remove_units_contents k q dest 1 Hwf ltac:(lia)) as Hr.
    rewrite Z.min_l in Hr by lia. specialize (Hr ltac:(lia)).
    destruct (queue_remove_units q dest 1) as [[q' d'] r].
    destruct Hr as (-> & Hwf' & Hl & Hch & Hdr & Hub' & _). simpl.
    split_and!; [by exists k|by rewrite (wf_units _ _ Hwf), (wf_units _ _ Hwf')|by rewrite Hub'| |].
    + change (Z.to_nat 1) with 1%nat in Hch.
      destruct (contents q) as [|u us] eqn:Ec.
      { apply (f_equal length) in Ec. rewrite length_contents in Ec. simpl in Ec. lia. }
      simpl in *. injection Hch as Hch. rewrite <- Hch. f_equal. symmetry. apply slice_all. lia.
    + rewrite Hdr. by destruct (contents q).
Qed.

(** ** Peeking *)

Lemma queue_peek_contents k q dest i count :
  wf_at k q -> 0 <= i < queue_count q -> 0 <= count ->
  let n := Z.min count (queue_count q - i) in
  n * unit_bytes q <= Z.of_nat (length dest) ->
  let '(dest', r) := queue_peek_units q dest i count in
  r = n /\ length dest' = length dest /\
  chunks dest' (unit_bytes q) n = take (Z.to_nat n) (drop (Z.to_nat i) (contents q)).
Proof.
  intros Hwf Hi Hcnt n Hd. unfold queue_peek_units, queue_peek_memcpy.
  pose proof (wf_k _ _ Hwf). pose proof (count_range q) as [? ?].
  pose proof (wf_count _ _ Hwf) as Hc. rewrite (wf_units _ _ Hwf) in Hc.
  rewrite (wrap_id 32 (_ - i)) by (unfold in_range; lia). fold n.
  rewrite (proj2 (Z.ltb_lt _ _)), (mask_pos k q Hwf) by lia.
  assert (Hh : 0 <= wrap k (q_head q + i) < 2 ^ k) by (apply wrap_range; lia).
  destruct (read_safe_units k q dest _ n Hwf Hh ltac:(lia) Hd) as [Hl Hu].
  split_and!; [done|done|]. rewrite Hu. apply list_eq. intros j.
  rewrite lookup_fmap_seqZ. case_decide.
  - rewrite lookup_take_lt, lookup_drop by lia. unfold contents.
    rewrite lookup_fmap_seqZ, decide_True by lia. rewrite (unit_at_eq k q Hwf), wrap_add_l.
    do 4 f_equal. lia.
  - by rewrite lookup_take_ge by lia.
Qed.

Lemma count_zero k q : wf_at k q -> queue_is_empty q = true <-> queue_count q = 0.
Proof.
  intros Hwf. unfold queue_is_empty, queue_count. rewrite Z.eqb_eq. split.
  - intros ->. by rewrite Z.sub_diag.
  - intros E. rewrite <- (wrap_id 32 (q_head q)), <- (wrap_id 32 (q_tail q)) by apply Hwf.
    replace (q_tail q) with (q_head q + (q_tail q - q_head q)) by lia.
    by rewrite <- wrap_add_r, E, Z.add_0_r.
Qed.

(** ** The iterator *)

(** The byte offsets an iterator visits, and whether it reached its end. *)
Fixpoint iterate (fuel : nat) (q : queue) (it : queue_iterator) : list Z * bool :=
  match it_ptr it with
  | None => ([], true)
  | Some p =>
      match fuel with
      | O => ([], false)
      | S fuel => let '(ps, b) := iterate fuel q (queue_next q it) in (p :: ps, b)
      end
  end.

Lemma iterate_mono f f' q it ps :
  (f <= f')%nat -> iterate f q it = (ps, true) -> iterate f' q it = (ps, true).
Proof.
  revert f' it ps. induction f as [|f IH]; intros [|f'] it ps Hf; simpl; try lia; try done;
    destruct (it_ptr it); try done.
  destruct (iterate f q (queue_next q it)) as [ps0 b] eqn:E. intros [= <- ->].
  by rewrite (IH f' _ ps0) by (done || lia).
Qed.

Lemma iterate_from k q n o :
  wf_at k q -> 0 <= o -> 0 < n -> o + n = queue_count q ->
  iterate (Z.to_nat n) q
    (It (Some (wrap k (q_head q + o) * unit_bytes q)) o (q_head q) (q_tail q)) =
  ((fun i => wrap k (q_head q + o + i) * unit_bytes q) <$> seqZ 0 n, true).
Proof.
  intros Hwf. pose proof (wf_k _ _ Hwf). pose proof (count_range q) as [_ ?].
  remember (Z.to_nat n) as fuel eqn:Hf. revert n o Hf.
  induction fuel as [|fuel IH]; intros n o Hf Ho Hn Hon; [lia|].
  rewrite (seqZ_cons 0) by lia. simpl. unfold queue_next. simpl.
  rewrite !Z.eqb_refl, Z.add_0_r. simpl.
  assert (Hend : forall x, 0 <= x < 2 ^ 32 ->
            (u32 (q_head q + x) =? q_tail q) = (x =? queue_count q)).
  { intros x Hx. rewrite <- (wrap_id 32 (q_tail q)) by apply Hwf. unfold queue_count.
    destruct (Z.eqb_spec x (u32 (q_tail q - q_head q))) as [->|Hne].
    - autorewrite with ecr. apply Z.eqb_eq. f_equal. lia.
    - apply Z.eqb_neq. intros E. apply Hne. rewrite <- (wrap_id 32 x) by done.
      replace x with (q_head q + x - q_head q) by lia.
      rewrite <- wrap_sub_l, E. by autorewrite with ecr. }
  assert (o + 1 < 2 ^ 32) by lia.
  rewrite (Hend o) by lia. rewrite (proj2 (Z.eqb_neq _ _)) by lia.
  rewrite (wrap_id 32 (o + 1)) by (unfold in_range; lia).
  rewrite (Hend (o + 1)) by lia.
  destruct (Z.eqb_spec (o + 1) (queue_count q)) as [He|Hne].
  - assert (n = 1) as -> by lia. assert (fuel = 0%nat) as -> by lia. done.
  - rewrite (mask_pos k q Hwf). rewrite (IH (n - 1) (o + 1)) by lia. do 2 f_equal.
    replace (Z.succ 0) with 1 by lia. replace (Z.pred n) with (n - 1) by lia.
    rewrite (seqZ_fmap_shift _ 1). apply seqZ_fmap_ext. intros i Hi. do 2 f_equal. lia.
Qed.

Lemma iterate_begin k q :
  wf_at k q ->
  iterate (Z.to_nat (queue_count q)) q (queue_begin q) =
  ((fun i => wrap k (q_head q + i) * unit_bytes q) <$> seqZ 0 (queue_count q), true).
Proof.
  intros Hwf. unfold queue_begin. pose proof (count_range q) as [? _].
  destruct (queue_is_empty q) eqn:He.
  - apply (count_zero k q Hwf) in He. by rewrite He.
  - assert (queue_count q <> 0) by (intros E; apply (count_zero k q Hwf) in E; congruence).
    rewrite (mask_in k q Hwf) by apply Hwf. rewrite <- (Z.add_0_r (q_head q)) at 1.
    rewrite (iterate_from k q (queue_count q) 0) by (done || lia). by rewrite Z.add_0_r.
Qed.

(** ** Chunks *)

(** Distance of head and tail inside the buffer. *)
Lemma masked_count k q :
  wf_at k q ->
  let h := wrap k (q_head q) in let t := wrap k (q_tail q) in
  (queue_count q = 2 ^ k /\ h = t) \/
  (queue_count q < 2 ^ k /\ (h <= t -> queue_count q = t - h) /\
   (t < h -> queue_count q = t - h + 2 ^ k)).
Proof.
  intros Hwf h t. pose proof (wf_k _ _ Hwf). pose proof (wf_count _ _ Hwf) as Hc.
  rewrite (wf_units _ _ Hwf) in Hc. pose proof (count_range q) as [? _].
  assert (Hd : wrap k (t - h) = wrap k (queue_count q)).
  { subst h t. unfold queue_count. by rewrite wrap_sub_l, wrap_sub_r, wrap_narrow by lia. }
  assert (0 <= h < 2 ^ k /\ 0 <= t < 2 ^ k) as [Hh Ht] by (split; apply wrap_range; lia).
  rewrite wrap_dist in Hd by lia. destruct (decide (queue_count q = 2 ^ k)) as [E|].
  - left. split; [done|]. rewrite E in Hd. unfold wrap in Hd. rewrite Z_mod_same_full in Hd.
    case_decide; lia.
  - right. rewrite (wrap_id k (queue_count q)) in Hd by (unfold in_range; lia).
    case_decide; lia.
Qed.

Lemma read_chunk_spec k q :
  wf_at k q ->
  let '(Chunk c b) := queue_get_read_chunk q in
  exists off, b = Some off /\ 0 <= off /\ 0 <= c /\
  off + c * unit_bytes q <= Z.of_nat (length (buffer q)) /\
  chunks (drop (Z.to_nat off) (buffer q)) (unit_bytes q) c = take (Z.to_nat c) (contents q) /\
  c <= queue_count q /\ (c = 0 <-> contents q = []).
Proof.
  intros Hwf. unfold queue_get_read_chunk. pose proof (wf_k _ _ Hwf).
  rewrite !(mask_in k q Hwf) by apply Hwf. rewrite (wf_units _ _ Hwf).
  pose proof (masked_count k q Hwf) as Hmc. simpl in Hmc.
  pose proof (wf_ub _ _ Hwf) as Hub. pose proof (wf_len _ _ Hwf) as Hlen.
  rewrite (wf_units _ _ Hwf) in Hlen. pose proof (pow_bound k q Hwf).
  set (h := wrap k (q_head q)) in *. set (t := wrap k (q_tail q)) in *.
  assert (0 <= h < 2 ^ k /\ 0 <= t < 2 ^ k) as [Hh Ht] by (split; apply wrap_range; lia).
  pose proof (count_zero k q Hwf) as He.
  set (last := if queue_is_empty q then h else if h <? t then t else 2 ^ k).
  assert (Hc : 0 <= last - h <= queue_count q /\ last <= 2 ^ k /\
               (last - h = 0 <-> queue_count q = 0)).
  { subst last. pose proof (count_range q) as [? _].
    destruct (queue_is_empty q); [assert (queue_count q = 0) by (by apply He); lia|].
    assert (queue_count q <> 0) by (intros E; by apply He in E).
    destruct (Z.ltb_spec h t); lia. }
  exists (h * unit_bytes q). split_and!; try done; try nia.
  - apply list_eq. intros i. unfold chunks. rewrite lookup_fmap_seqZ. case_decide.
    + rewrite lookup_take_lt by lia. unfold contents. rewrite lookup_fmap_seqZ, decide_True by lia.
      rewrite slice_drop by nia. rewrite (unit_at_eq k q Hwf), <- wrap_add_l. fold h.
      rewrite (wrap_id k) by (unfold in_range; lia). do 2 f_equal. lia.
    + by rewrite lookup_take_ge by lia.
  - rewrite <- length_zero_iff_nil, length_contents. lia.
Qed.

Lemma write_chunk_spec k q :
  wf_at k q ->
  let '(Chunk c b) := queue_get_write_chunk q 0 in
  match b with
  | None => queue_is_full q = true
  | Some off =>
      0 < c <= queue_space q /\ 0 <= off /\
      off + c * unit_bytes q <= Z.of_nat (length (buffer q)) /\
      forall src n, 0 <= n <= c -> n * unit_bytes q <= Z.of_nat (length src) ->
        let '(q', r) := queue_advance_tail
              (with_buffer (bcopy (buffer q) off src (n * unit_bytes q)) q) n in
        r = n /\ wf q' /\ contents q' = contents q ++ chunks src (unit_bytes q) n
  end.
Proof.
  intros Hwf. unfold queue_get_write_chunk, queue_is_full. pose proof (wf_k _ _ Hwf).
  rewrite Z.add_0_r, (wrap_id 32 (q_tail q)) by apply Hwf.
  rewrite !(mask_in k q Hwf) by apply Hwf. rewrite (wf_units _ _ Hwf).
  pose proof (masked_count k q Hwf) as Hmc. simpl in Hmc.
  pose proof (wf_ub _ _ Hwf) as Hub. pose proof (wf_len _ _ Hwf) as Hlen.
  rewrite (wf_units _ _ Hwf) in Hlen. pose proof (pow_bound k q Hwf).
  pose proof (space_eq k q Hwf) as Hsp. pose proof (count_range q) as [? _].
  set (h := wrap k (q_head q)) in *. set (t := wrap k (q_tail q)) in *.
  assert (0 <= h < 2 ^ k /\ 0 <= t < 2 ^ k) as [Hh Ht] by (split; apply wrap_range; lia).
  destruct (Z.leb_spec (queue_space q) 0); [apply Z.eqb_eq; lia|].
  set (last := if t <? h then h else 2 ^ k).
  assert (Hc : 0 < last - t <= queue_space q /\ last <= 2 ^ k).
  { subst last. destruct (Z.ltb_spec t h); lia. }
  split_and!; try lia; try nia.
  intros src n Hn Hsrc.
  assert (Hrw : bcopy (buffer q) (t * unit_bytes q) src (n * unit_bytes q) =
                ring_write (2 ^ k) (unit_bytes q) (buffer q) src t n).
  { unfold ring_write. by rewrite Z.min_l, Z.ltb_irrefl by lia. }
  rewrite Hrw.
  pose proof (advance_tail_contents k q (ring_write (2 ^ k) (unit_bytes q) (buffer q) src t n)
    (chunks src (unit_bytes q) n) n Hwf) as Ha.
  destruct (queue_advance_tail _ n) as [q' r].
  destruct Ha as (-> & ? & ? & _); [by apply length_ring_write; lia|lia|rewrite length_chunks; lia
    | |by split_and!; try done; exists k].
  intros j Hj. rewrite ring_write_unit by lia. subst t. rewrite wrap_sub_r.
  case_decide as Hd; [|done]. unfold chunks. rewrite lookup_fmap_seqZ.
  pose proof (wrap_range k (j - q_tail q)) as Hr. unfold in_range in Hr.
  by rewrite !Z2Nat.id, decide_True by lia.
Qed.

Lemma QUEUE_wf k ub : 0 <= k < 32 -> 0 < ub -> wf_at k (QUEUE (2 ^ k) ub).
Proof.
  intros Hk Hub. assert (0 < 2 ^ k) by lia.
  assert (Hc : queue_count (QUEUE (2 ^ k) ub) = 0) by done.
  constructor; rewrite ?Hc; cbn [QUEUE q_head q_tail buffer_units buffer_units_mask unit_bytes
    buffer]; unfold in_range; try lia. rewrite length_replicate. nia.
Qed.

(** ** Main theorems *)

(** C25. Starting from an initialised queue of a power-of-two size, any
    sequence of [queue_add_unit] and [queue_remove_unit] gives exactly the
    results of the same sequence on a bounded list; hence units leave in the
    order they were accepted, none lost, none duplicated, and never more than
    [SIZE] are held. *)
Theorem queue_trace_refines SIZE ub ops :
  (exists k, 0 <= k < 32 /\ SIZE = 2 ^ k) -> 0 < ub ->
  Forall (op_ok (QUEUE SIZE ub)) ops ->
  let '(q, os) := fifo_run ops (QUEUE SIZE ub) in
  spec_run (Z.to_nat SIZE) ops [] = (contents q, os) /\
  all_accepted ops os = all_delivered os ++ contents q /\
  Z.of_nat (length (contents q)) <= SIZE.
Proof.
  intros (k & Hk & ->) Hub Hops. pose proof (QUEUE_wf k ub Hk Hub) as Hwf.
  pose proof (fifo_refines ops (QUEUE (2 ^ k) ub) (ex_intro _ k Hwf) Hops) as Hr.
  pose proof (spec_run_order (Z.to_nat (2 ^ k)) ops (@nil (list Z))) as Ho.
  destruct (fifo_run ops _) as [q os]. destruct Hr as [[k' Hwf'] Hr].
  simpl in Hr. change (contents (QUEUE (2 ^ k) ub)) with (@nil (list Z)) in Hr. rewrite Hr in Ho.
  split_and!; [done|done|].
  pose proof (spec_run_bound (Z.to_nat (2 ^ k)) ops [] ltac:(simpl; lia)) as Hb.
  rewrite Hr in Hb. simpl in Hb. lia.
Qed.

(** A queue of four one-byte units that overflows once and wraps. *)
Definition demo_ops : list (fifo_op (list Z)) :=
  [FPut [1]; FPut [2]; FPut [3]; FPut [4]; FPut [5]; FGet; FGet; FPut [6]; FGet].

Lemma queue_trace_refines_witness :
  let '(q, os) := fifo_run demo_ops (QUEUE 4 1) in
  spec_run 4 demo_ops [] = (contents q, os) /\
  all_accepted demo_ops os = all_delivered os ++ contents q /\
  Z.of_nat (length (contents q)) <= 4.
Proof.
  apply (queue_trace_refines 4 1 demo_ops); [exists 2; lia|lia|].
  repeat constructor.
Defined.

(** A batch [queue_add_units] followed by a batch [queue_remove_units]:
    as many units as there is space for are accepted, and the bytes delivered
    are the oldest units of old contents followed by the accepted ones. *)
Theorem queue_batch_fifo q src count dest count' :
  wf q -> 0 <= count -> 0 <= count' ->
  count * unit_bytes q <= Z.of_nat (length src) ->
  count' * unit_bytes q <= Z.of_nat (length dest) ->
  let '(q1, n) := queue_add_units q src count in
  let '(q2, dest', m) := queue_remove_units q1 dest count' in
  let all := contents q ++ chunks src (unit_bytes q) n in
  n = Z.min count (queue_space q) /\ m = Z.min count' (queue_count q + n) /\ wf q2 /\
  chunks dest' (unit_bytes q) m = take (Z.to_nat m) all /\
  contents q2 = drop (Z.to_nat m) all.
Proof.
  intros [k Hwf] Hc Hc' Hs Hd.
  pose proof (queue_add_units_contents k q src count Hwf Hc Hs) as Ha.
  destruct (queue_add_units q src count) as [q1 n]. destruct Ha as (-> & Hwf1 & E1 & Hub & _).
  set (n := Z.min count (queue_space q)) in *.
  assert (0 <= n) by (pose proof (wrap_range 32 (buffer_units q - queue_count q)) as Hr;
    unfold in_range in Hr; fold (queue_space q) in Hr; lia).
  assert (Hcnt : queue_count q1 = queue_count q + n).
  { apply (f_equal length) in E1. rewrite length_app, !length_contents, length_chunks in E1.
    pose proof (count_range q) as [? _]. pose proof (count_range q1) as [? _]. lia. }
  pose proof (queue_remove_units_contents k q1 dest count' Hwf1 Hc') as Hr.
  destruct (queue_remove_units q1 dest count') as [[q2 dest'] m].
  pose proof (wf_ub _ _ Hwf). rewrite Hub, Hcnt, E1 in Hr.
  destruct Hr as (-> & ? & ? & ? & ? & ?); [nia|]. split_and!; try done. by exists k.
Qed.

Lemma queue_batch_fifo_witness :
  let q := QUEUE 4 2 in
  let '(q1, n) := queue_add_units q [1; 2; 3; 4; 5; 6] 3 in
  let '(q2, dest', m) := queue_remove_units q1 [0; 0; 0; 0] 2 in
  let all := contents q ++ chunks [1; 2; 3; 4; 5; 6] (unit_bytes q) n in
  n = Z.min 3 (queue_space q) /\ m = Z.min 2 (queue_count q + n) /\ wf q2 /\
  chunks dest' (unit_bytes q) m = take (Z.to_nat m) all /\
  contents q2 = drop (Z.to_nat m) all.
Proof.
  apply (queue_batch_fifo (QUEUE 4 2) [1; 2; 3; 4; 5; 6] 3 [0; 0; 0; 0] 2);
    [exists 2; apply (QUEUE_wf 2 2); lia|lia|lia|simpl; lia|simpl; lia].
Defined.

(** The iterator terminates and visits exactly the contents, oldest
    first; and as soon as the queue has changed underneath it, its next step
    makes it null. *)
Theorem queue_iterator_correct q q' it fuel :
  wf q -> (Z.to_nat (queue_count q) <= fuel)%nat ->
  (let '(ps, done) := iterate fuel q (queue_begin q) in
   done = true /\ (fun p => slice (buffer q) p (unit_bytes q)) <$> ps = contents q) /\
  ((it_head it <> q_head q' \/ it_tail it <> q_tail q') -> it_ptr (queue_next q' it) = None).
Proof.
  intros [k Hwf] Hfuel. split.
  - rewrite (iterate_mono _ _ _ _ _ Hfuel (iterate_begin k q Hwf)). split; [done|].
    unfold contents. rewrite <- list_fmap_compose. apply seqZ_fmap_ext. intros i Hi. simpl.
    by rewrite (unit_at_eq k q Hwf).
  - intros Hch. unfold queue_next.
    destruct (Z.eqb_spec (it_head it) (q_head q')), (Z.eqb_spec (it_tail it) (q_tail q'));
      simpl; try done. lia.
Qed.

Lemma queue_iterator_correct_witness :
  let q := (queue_add_units (QUEUE 4 1) [7; 8; 9] 3).1 in
  (let '(ps, done) := iterate 4 q (queue_begin q) in
   done = true /\ (fun p => slice (buffer q) p (unit_bytes q)) <$> ps = contents q) /\
  ((it_head (queue_begin q) <> q_head (queue_remove_unit q [0]).1.1 \/
    it_tail (queue_begin q) <> q_tail (queue_remove_unit q [0]).1.1) ->
   it_ptr (queue_next (queue_remove_unit q [0]).1.1 (queue_begin q)) = None).
Proof.
  apply (queue_iterator_correct _ _ _ 4).
  - pose proof (queue_add_units_contents 2 (QUEUE 4 1) [7; 8; 9] 3 (QUEUE_wf 2 1 ltac:(lia) ltac:(lia))
      ltac:(lia) ltac:(simpl; lia)) as H.
    destruct (queue_add_units (QUEUE 4 1) [7; 8; 9] 3). exists 2. apply H.
  - vm_compute. lia.
Defined.

(** Zero-copy access.  The read chunk addresses the oldest units in
    place and is empty exactly when the queue is; the write chunk at offset 0
    lies inside the buffer, outside the contents, is null exactly when the
    queue is full, and filling its first [n] units and advancing the tail
    appends them. *)
Theorem queue_chunks_correct q :
  wf q ->
  (let '(Chunk c b) := queue_get_read_chunk q in
   exists off, b = Some off /\ 0 <= off /\ 0 <= c /\
     off + c * unit_bytes q <= Z.of_nat (length (buffer q)) /\
     chunks (drop (Z.to_nat off) (buffer q)) (unit_bytes q) c = take (Z.to_nat c) (contents q) /\
     c <= queue_count q /\ (c = 0 <-> contents q = [])) /\
  (let '(Chunk c b) := queue_get_write_chunk q 0 in
   match b with
   | None => queue_is_full q = true
   | Some off =>
       0 < c <= queue_space q /\ 0 <= off /\
       off + c * unit_bytes q <= Z.of_nat (length (buffer q)) /\
       forall src n, 0 <= n <= c -> n * unit_bytes q <= Z.of_nat (length src) ->
         let '(q', r) := queue_advance_tail
               (with_buffer (bcopy (buffer q) off src (n * unit_bytes q)) q) n in
         r = n /\ wf q' /\ contents q' = contents q ++ chunks src (unit_bytes q) n
   end).
Proof. intros [k Hwf]. split; [by apply (read_chunk_spec k)|by apply (write_chunk_spec k)]. Qed.

Lemma queue_chunks_correct_witness :
  let q := QUEUE 4 1 in
  queue_get_write_chunk q 0 = Chunk 4 (Some 0) /\
  let '(q', r) := queue_advance_tail (with_buffer (bcopy (buffer q) 0 [5; 6] 2) q) 2 in
  r = 2 /\ wf q' /\ contents q' = [[5]; [6]].
Proof.
  split; [done|].
  destruct (queue_chunks_correct (QUEUE 4 1)) as [_ H]; [exists 2; apply (QUEUE_wf 2 1); lia|].
  destruct H as (_ & _ & _ & H). apply (H [5; 6] 2); by vm_compute.
Defined.

(** [queue_peek_units] delivers units [i .. i+n-1] without removing them;
    for an index past the contents it copies nothing, and yet reports a
    nonzero count because [available - i] wraps around. *)
Theorem queue_peek_correct q dest i count :
  wf q -> is_u32 i -> is_u32 count ->
  let '(dest', r) := queue_peek_units q dest i count in
  (i < queue_count q -> Z.min count (queue_count q - i) * unit_bytes q <= Z.of_nat (length dest) ->
     r = Z.min count (queue_count q - i) /\ length dest' = length dest /\
     chunks dest' (unit_bytes q) r = take (Z.to_nat r) (drop (Z.to_nat i) (contents q))) /\
  (queue_count q < i -> dest' = dest /\ r = Z.min count (2 ^ 32 + queue_count q - i)).
Proof.
  intros [k Hwf] Hi Hc. destruct (queue_peek_units q dest i count) as [dest' r] eqn:E. split.
  - intros Hlt Hd. unfold in_range in *.
    pose proof (queue_peek_contents k q dest i count Hwf ltac:(lia) ltac:(lia) Hd) as H.
    rewrite E in H. destruct H as (-> & ? & ?). done.
  - intros Hgt. unfold queue_peek_units, queue_peek_memcpy in E. unfold in_range in Hi.
    rewrite (proj2 (Z.ltb_ge _ _)) in E by lia. injection E as <- <-. split; [done|]. f_equal.
    pose proof (count_range q) as Hq. unfold in_range in Hq.
    apply wrap_eq; [lia|unfold in_range; lia|]. exists (-1). lia.
Qed.

Lemma queue_peek_correct_witness :
  let q := (queue_add_units (QUEUE 4 1) [7; 8; 9] 3).1 in
  let '(dest', r) := queue_peek_units q [0; 0] 1 2 in
  (1 < queue_count q -> Z.min 2 (queue_count q - 1) * unit_bytes q <= 2 ->
     r = Z.min 2 (queue_count q - 1) /\ length dest' = 2%nat /\
     chunks dest' (unit_bytes q) r = take (Z.to_nat r) (drop 1 (contents q))) /\
  (queue_count q < 1 -> dest' = [0; 0] /\ r = Z.min 2 (2 ^ 32 + queue_count q - 1)).
Proof.
  apply (queue_peek_correct _ [0; 0] 1 2); [|by vm_compute|by vm_compute].
  pose proof (queue_add_units_contents 2 (QUEUE 4 1) [7; 8; 9] 3 (QUEUE_wf 2 1 ltac:(lia) ltac:(lia))
    ltac:(lia) ltac:(simpl; lia)) as H.
  destruct (queue_add_units (QUEUE 4 1) [7; 8; 9] 3). exists 2. apply H.
Defined.

End Queue.
