(* ===== verification/Crc.v ===== *)
(** * Checksums (common/crc8.c, common/crc.c)

    CRC-8 (board info, I2C packets), CRC-32 (USB-PD messages) and CRC-16.
    The table-driven CRC-32 is shown equal to the bit-serial one; all three
    are streaming ([Checksum] interface: hashing a concatenation is hashing
    its parts in turn) and detect any error confined to one byte. *)

From S2P Require Import Prelude.

(** ** The interface of a streaming checksum *)

Class Checksum (hash : Z -> list Z -> Z) := {
  cs_width : Z;
  cs_nil crc : in_range cs_width crc -> hash crc [] = crc;
  cs_app crc l1 l2 :
    in_range cs_width crc -> hash crc (l1 ++ l2) = hash (hash crc l1) l2;
  cs_range crc l : in_range cs_width crc -> is_bytes l -> in_range cs_width (hash crc l);
  (* distinct states stay distinct, and distinct bytes separate equal states *)
  cs_inj_state c1 c2 l :
    in_range cs_width c1 -> in_range cs_width c2 -> is_bytes l ->
    hash c1 l = hash c2 l -> c1 = c2;
  cs_inj_byte crc b1 b2 :
    in_range cs_width crc -> in_range 8 b1 -> in_range 8 b2 ->
    hash crc [b1] = hash crc [b2] -> b1 = b2;
}.

(** Two messages that differ in exactly one byte have different checksums. *)
Lemma checksum_one_byte hash `{Checksum hash} crc l1 l2 b1 b2 :
  in_range cs_width crc -> is_bytes l1 -> is_bytes l2 -> in_range 8 b1 -> in_range 8 b2 ->
  b1 <> b2 -> hash crc (l1 ++ b1 :: l2) <> hash crc (l1 ++ b2 :: l2).
Proof.
  intros Hc Hl1 Hl2 Hb1 Hb2 Hne Heq. apply Hne.
  change (b1 :: l2) with ([b1] ++ l2) in Heq. change (b2 :: l2) with ([b2] ++ l2) in Heq.
  pose proof (cs_range crc l1 Hc Hl1) as Hr.
  assert (Hs : forall b, in_range 8 b -> in_range cs_width (hash (hash crc l1) [b])).
  { intros b Hb. apply cs_range; [done|]. by apply Forall_singleton. }
  rewrite !cs_app in Heq by auto.
  apply cs_inj_state in Heq; auto. by apply cs_inj_byte in Heq.
Qed.

(** ** Checksums given by a step per byte *)

Section ByteStep.
Context (w : Z) (step : Z -> Z -> Z).
Hypothesis step_range : forall c d, in_range w c -> is_u8 d -> in_range w (step c d).

Lemma fold_step_range c l : in_range w c -> is_bytes l -> in_range w (fold_left step l c).
Proof.
  intros Hc Hl. revert c Hc. induction Hl as [|d l Hd Hl IH]; intros c Hc; simpl; auto.
Qed.

Lemma fold_step_inj c1 c2 l :
  (forall c c' d, in_range w c -> in_range w c' -> is_u8 d -> step c d = step c' d -> c = c') ->
  in_range w c1 -> in_range w c2 -> is_bytes l ->
  fold_left step l c1 = fold_left step l c2 -> c1 = c2.
Proof.
  intros Hinj H1 H2 Hl. revert c1 c2 H1 H2.
  induction Hl as [|d l Hd Hl IH]; intros c1 c2 H1 H2 E; simpl in E; [done|].
  apply IH in E; eauto.
Qed.

(** A loop that keeps its state in another form. *)
Lemma fold_step_sim (f : Z -> Z -> Z) (g : Z -> Z) c l :
  (forall c d, in_range w c -> is_u8 d -> f (g c) d = g (step c d)) ->
  in_range w c -> is_bytes l -> fold_left f l (g c) = g (fold_left step l c).
Proof.
  intros Hfg Hc Hl. revert c Hc. induction Hl as [|d l Hd Hl IH]; intros c Hc; simpl; [done|].
  rewrite Hfg by done. auto.
Qed.
End ByteStep.

Module Crc.

(** ** CRC-8 *)

(** One pass of the inner loop; [crc] is an [unsigned int]. *)
(** src/common/crc8.c:20-24 [cros_crc8_arg] *)
Definition crc8_shift (crc : Z) : Z :=
  let crc := if bool_of_Z (Z.land crc 0x8000)
             then Z.lxor crc (Z.shiftl 0x1070 3) else crc in
  u32 (Z.shiftl crc 1).

(** src/common/crc8.c:18-25 [cros_crc8_arg] *)
Definition crc8_byte (crc d : Z) : Z := Nat.iter 8 crc8_shift (Z.lxor crc (Z.shiftl d 8)).

(** src/common/crc8.c:13-28 [cros_crc8_arg] *)
Definition cros_crc8_arg (data : list Z) (len : Z) (previous_crc : Z) : Z :=
  let crc := Z.shiftl previous_crc 8 in
  let crc := fold_left crc8_byte (take (Z.to_nat len) data) crc in
  u8 (Z.shiftr crc 8).

(** src/common/crc8.c:8-11 [cros_crc8] *)
Definition cros_crc8 (data : list Z) (len : Z) : Z := cros_crc8_arg data len 0.

(** ** CRC-32 *)

(** src/common/crc.c:10-10 [CRC32_INITIAL] *)
Definition CRC32_INITIAL : Z := 0xFFFFFFFF.

(** src/common/crc.c:12-57 [crc32_tab] *)
Definition crc32_tab : list Z :=
  [ 0x00000000; 0x77073096; 0xee0e612c; 0x990951ba; 0x076dc419; 0x706af48f; 0xe963a535; 0x9e6495a3;
    0x0edb8832; 0x79dcb8a4; 0xe0d5e91e; 0x97d2d988; 0x09b64c2b; 0x7eb17cbd; 0xe7b82d07; 0x90bf1d91;
    0x1db71064; 0x6ab020f2; 0xf3b97148; 0x84be41de; 0x1adad47d; 0x6ddde4eb; 0xf4d4b551; 0x83d385c7;
    0x136c9856; 0x646ba8c0; 0xfd62f97a; 0x8a65c9ec; 0x14015c4f; 0x63066cd9; 0xfa0f3d63; 0x8d080df5;
    0x3b6e20c8; 0x4c69105e; 0xd56041e4; 0xa2677172; 0x3c03e4d1; 0x4b04d447; 0xd20d85fd; 0xa50ab56b;
    0x35b5a8fa; 0x42b2986c; 0xdbbbc9d6; 0xacbcf940; 0x32d86ce3; 0x45df5c75; 0xdcd60dcf; 0xabd13d59;
    0x26d930ac; 0x51de003a; 0xc8d75180; 0xbfd06116; 0x21b4f4b5; 0x56b3c423; 0xcfba9599; 0xb8bda50f;
    0x2802b89e; 0x5f058808; 0xc60cd9b2; 0xb10be924; 0x2f6f7c87; 0x58684c11; 0xc1611dab; 0xb6662d3d;
    0x76dc4190; 0x01db7106; 0x98d220bc; 0xefd5102a; 0x71b18589; 0x06b6b51f; 0x9fbfe4a5; 0xe8b8d433;
    0x7807c9a2; 0x0f00f934; 0x9609a88e; 0xe10e9818; 0x7f6a0dbb; 0x086d3d2d; 0x91646c97; 0xe6635c01;
    0x6b6b51f4; 0x1c6c6162; 0x856530d8; 0xf262004e; 0x6c0695ed; 0x1b01a57b; 0x8208f4c1; 0xf50fc457;
    0x65b0d9c6; 0x12b7e950; 0x8bbeb8ea; 0xfcb9887c; 0x62dd1ddf; 0x15da2d49; 0x8cd37cf3; 0xfbd44c65;
    0x4db26158; 0x3ab551ce; 0xa3bc0074; 0xd4bb30e2; 0x4adfa541; 0x3dd895d7; 0xa4d1c46d; 0xd3d6f4fb;
    0x4369e96a; 0x346ed9fc; 0xad678846; 0xda60b8d0; 0x44042d73; 0x33031de5; 0xaa0a4c5f; 0xdd0d7cc9;
    0x5005713c; 0x270241aa; 0xbe0b1010; 0xc90c2086; 0x5768b525; 0x206f85b3; 0xb966d409; 0xce61e49f;
    0x5edef90e; 0x29d9c998; 0xb0d09822; 0xc7d7a8b4; 0x59b33d17; 0x2eb40d81; 0xb7bd5c3b; 0xc0ba6cad;
    0xedb88320; 0x9abfb3b6; 0x03b6e20c; 0x74b1d29a; 0xead54739; 0x9dd277af; 0x04db2615; 0x73dc1683;
    0xe3630b12; 0x94643b84; 0x0d6d6a3e; 0x7a6a5aa8; 0xe40ecf0b; 0x9309ff9d; 0x0a00ae27; 0x7d079eb1;
    0xf00f9344; 0x8708a3d2; 0x1e01f268; 0x6906c2fe; 0xf762575d; 0x806567cb; 0x196c3671; 0x6e6b06e7;
    0xfed41b76; 0x89d32be0; 0x10da7a5a; 0x67dd4acc; 0xf9b9df6f; 0x8ebeeff9; 0x17b7be43; 0x60b08ed5;
    0xd6d6a3e8; 0xa1d1937e; 0x38d8c2c4; 0x4fdff252; 0xd1bb67f1; 0xa6bc5767; 0x3fb506dd; 0x48b2364b;
    0xd80d2bda; 0xaf0a1b4c; 0x36034af6; 0x41047a60; 0xdf60efc3; 0xa867df55; 0x316e8eef; 0x4669be79;
    0xcb61b38c; 0xbc66831a; 0x256fd2a0; 0x5268e236; 0xcc0c7795; 0xbb0b4703; 0x220216b9; 0x5505262f;
    0xc5ba3bbe; 0xb2bd0b28; 0x2bb45a92; 0x5cb36a04; 0xc2d7ffa7; 0xb5d0cf31; 0x2cd99e8b; 0x5bdeae1d;
    0x9b64c2b0; 0xec63f226; 0x756aa39c; 0x026d930a; 0x9c0906a9; 0xeb0e363f; 0x72076785; 0x05005713;
    0x95bf4a82; 0xe2b87a14; 0x7bb12bae; 0x0cb61b38; 0x92d28e9b; 0xe5d5be0d; 0x7cdcefb7; 0x0bdbdf21;
    0x86d3d2d4; 0xf1d4e242; 0x68ddb3f8; 0x1fda836e; 0x81be16cd; 0xf6b9265b; 0x6fb077e1; 0x18b74777;
    0x88085ae6; 0xff0f6a70; 0x66063bca; 0x11010b5c; 0x8f659eff; 0xf862ae69; 0x616bffd3; 0x166ccf45;
    0xa00ae278; 0xd70dd2ee; 0x4e048354; 0x3903b3c2; 0xa7672661; 0xd06016f7; 0x4969474d; 0x3e6e77db;
    0xaed16a4a; 0xd9d65adc; 0x40df0b66; 0x37d83bf0; 0xa9bcae53; 0xdebb9ec5; 0x47b2cf7f; 0x30b5ffe9;
    0xbdbdf21c; 0xcabac28a; 0x53b39330; 0x24b4a3a6; 0xbad03605; 0xcdd70693; 0x54de5729; 0x23d967bf;
    0xb3667a2e; 0xc4614ab8; 0x5d681b02; 0x2a6f2b94; 0xb40bbe37; 0xc30c8ea1; 0x5a05df1b; 0x2d02ef8d ].

(** src/common/crc.c:65-68 [_crc32_hash] *)
Definition crc32_byte (crc p : Z) : Z :=
  let crc := Z.lxor crc p in
  Z.lxor (aget crc32_tab (Z.land crc 0xFF)) (Z.shiftr crc 8).

(** src/common/crc.c:59-71 [_crc32_hash] *)
Definition crc32_hash_bytes (crc : Z) (buf : list Z) (size : Z) : Z :=
  fold_left crc32_byte (take (Z.to_nat size) buf) crc.

(** src/common/crc.c:73-76 [crc32_ctx_init] *)
Definition crc32_ctx_init : Z := CRC32_INITIAL.

(** src/common/crc.c:78-81 [crc32_ctx_hash] *)
Definition crc32_ctx_hash (crc : Z) (buf : list Z) (size : Z) : Z :=
  crc32_hash_bytes crc buf size.

(** The bytes of a little-endian integer in memory. *)
Fixpoint le_bytes (n : nat) (v : Z) : list Z :=
  match n with
  | O => []
  | S n => u8 v :: le_bytes n (Z.shiftr v 8)
  end.

(** src/common/crc.c:83-86 [crc32_ctx_hash32] *)
Definition crc32_ctx_hash32 (crc val : Z) : Z := crc32_hash_bytes crc (le_bytes 4 (u32 val)) 4.

(** src/common/crc.c:88-91 [crc32_ctx_hash16] *)
Definition crc32_ctx_hash16 (crc val : Z) : Z := crc32_hash_bytes crc (le_bytes 2 (u16 val)) 2.

(** src/common/crc.c:93-96 [crc32_ctx_hash8] *)
Definition crc32_ctx_hash8 (crc val : Z) : Z := crc32_hash_bytes crc (le_bytes 1 (u8 val)) 1.

(** src/common/crc.c:98-101 [crc32_ctx_result] *)
Definition crc32_ctx_result (crc : Z) : Z := Z.lxor crc 0xFFFFFFFF.

(** ** CRC-16 *)

(** src/common/crc.c:140-145 [crc16] *)
Definition crc16_shift (crc16 : Z) : Z :=
  if bool_of_Z (Z.land crc16 0x8000)
  then u16 (Z.lxor (Z.shiftl crc16 1) 0x1021) else u16 (Z.shiftl crc16 1).

(** src/common/crc.c:138-146 [cros_crc16] *)
Definition crc16_byte (crc16 d : Z) : Z :=
  Nat.iter 8 crc16_shift (u16 (Z.lxor crc16 (u16 (Z.shiftl d 8)))).

(** src/common/crc.c:131-149 [cros_crc16] *)
Definition cros_crc16 (data : list Z) (len previous_crc : Z) : Z :=
  fold_left crc16_byte (take (Z.to_nat len) data) previous_crc.

(** ** The bit-serial CRC-32 *)

(** Reflected polynomial of x^32 + x^26 + ... + 1 (0x04C11DB7). *)
Definition POLY_REFLECTED : Z := 0xEDB88320.

Definition crc32_bit (crc : Z) : Z :=
  if Z.odd crc then Z.lxor (Z.shiftr crc 1) POLY_REFLECTED else Z.shiftr crc 1.

Definition crc32_serial_byte (crc p : Z) : Z := Nat.iter 8 crc32_bit (Z.lxor crc p).

Definition crc32_serial (crc : Z) (l : list Z) : Z := fold_left crc32_serial_byte l crc.

(** ** CRC-8 as a byte-wise step *)

Definition crc8_T_def (x : Z) : Z := Z.shiftr (Nat.iter 8 crc8_shift (Z.shiftl x 8)) 8.

(** Sealed: the kernel must not unroll eight symbolic steps. *)
Definition crc8_T_aux : seal crc8_T_def.
Proof. by eexists. Qed.
Definition crc8_T : Z -> Z := unseal crc8_T_aux.
Definition crc8_T_eq : crc8_T = crc8_T_def := seal_eq crc8_T_aux.

Definition crc8_step (c d : Z) : Z := crc8_T (Z.lxor c d).

Lemma crc8_T_table :
  forallb (fun x => (Nat.iter 8 crc8_shift (Z.shiftl x 8) =? Z.shiftl (crc8_T_def x) 8) &&
                    (0 <=? crc8_T_def x) && (crc8_T_def x <? 256)) (seqZ 0 256) = true.
Proof. vm_compute. reflexivity. Qed.

Lemma crc8_T_entry x :
  is_u8 x ->
  (Nat.iter 8 crc8_shift (Z.shiftl x 8) =? Z.shiftl (crc8_T x) 8) &&
  (0 <=? crc8_T x) && (crc8_T x <? 256) = true.
Proof. rewrite crc8_T_eq. exact (forall_below _ _ crc8_T_table x). Qed.

Lemma crc8_iter x :
  is_u8 x -> Nat.iter 8 crc8_shift (Z.shiftl x 8) = Z.shiftl (crc8_T x) 8 /\ is_u8 (crc8_T x).
Proof.
  intros Hx. pose proof (crc8_T_entry x Hx) as H.
  apply andb_true_iff in H as [H H3]. apply andb_true_iff in H as [H1 H2].
  split; [by apply Z.eqb_eq|]. split; [by apply Z.leb_le|by apply Z.ltb_lt].
Qed.

Lemma crc8_T_inj x y : is_u8 x -> is_u8 y -> crc8_T x = crc8_T y -> x = y.
Proof.
  rewrite crc8_T_eq. apply (inj_by_table 256 crc8_T_def). vm_compute. reflexivity.
Qed.

Lemma crc8_step_range c d : is_u8 c -> is_u8 d -> is_u8 (crc8_step c d).
Proof.
  intros. unfold crc8_step. destruct (crc8_iter (Z.lxor c d)) as [_ Hr]; [|exact Hr].
  by apply lxor_range.
Qed.

Lemma crc8_sim c d :
  is_u8 c -> is_u8 d ->
  crc8_byte (Z.shiftl c 8) d = Z.shiftl (crc8_step c d) 8.
Proof.
  intros Hc Hd. unfold crc8_byte. rewrite <- Z.shiftl_lxor. cbv beta.
  destruct (crc8_iter (Z.lxor c d)) as [Hi _]; [|exact Hi]. by apply lxor_range.
Qed.

Lemma crc8_step_inj_l c c' d :
  is_u8 c -> is_u8 c' -> is_u8 d -> crc8_step c d = crc8_step c' d -> c = c'.
Proof.
  intros Hc Hc' Hd E. unfold crc8_step in E. apply crc8_T_inj in E; [|by apply lxor_range..].
  by apply lxor_cancel_r in E.
Qed.

Lemma crc8_step_inj_r c d d' :
  is_u8 c -> is_u8 d -> is_u8 d' -> crc8_step c d = crc8_step c d' -> d = d'.
Proof.
  intros Hc Hd Hd' E. unfold crc8_step in E. apply crc8_T_inj in E; [|by apply lxor_range..].
  by apply lxor_cancel_l in E.
Qed.

Lemma cros_crc8_arg_fold data c :
  is_u8 c -> is_bytes data ->
  cros_crc8_arg data (Z.of_nat (length data)) c = fold_left crc8_step data c.
Proof.
  intros Hc Hl. unfold cros_crc8_arg. rewrite Nat2Z.id, firstn_all.
  rewrite (fold_step_sim 8 crc8_step crc8_step_range crc8_byte (fun c => Z.shiftl c 8) c data
    crc8_sim Hc Hl).
  rewrite Z.shiftr_shiftl_l, Z.shiftl_0_r by lia.
  apply wrap_id. by apply (fold_step_range 8 _ crc8_step_range).
Qed.

(** ** CRC-32 as a byte-wise step *)

Definition crc32_T (x : Z) : Z := Z.lxor (aget crc32_tab (Z.land x 0xFF)) (Z.shiftr x 8).
Lemma crc32_hash_fold data c :
  crc32_hash_bytes c data (Z.of_nat (length data)) = fold_left crc32_byte data c.
Proof. unfold crc32_hash_bytes. by rewrite Nat2Z.id, firstn_all. Qed.

(** Every entry is the bit-serial image of its index. *)
Lemma crc32_tab_serial :
  forallb (fun b => (Nat.iter 8 crc32_bit b =? aget crc32_tab b) &&
      (0 <=? aget crc32_tab b) && (aget crc32_tab b <? 2 ^ 32)) (seqZ 0 256) = true.
Proof. vm_compute. reflexivity. Qed.

Lemma crc32_tab_check b :
  0 <= b < 256 ->
  (Nat.iter 8 crc32_bit b =? aget crc32_tab b) && (0 <=? aget crc32_tab b) &&
  (aget crc32_tab b <? 2 ^ 32) = true.
Proof. exact (forall_below _ _ crc32_tab_serial b). Qed.

Lemma crc32_tab_entry b :
  0 <= b < 256 -> Nat.iter 8 crc32_bit b = aget crc32_tab b /\ is_u32 (aget crc32_tab b).
Proof.
  intros Hb. pose proof (crc32_tab_check b Hb) as H.
  apply andb_true_iff in H as [H H3]. apply andb_true_iff in H as [H1 H2].
  split; [by apply Z.eqb_eq|]. split; [by apply Z.leb_le|by apply Z.ltb_lt].
Qed.

(** Entries are 32-bit words, and their top bytes are all different. *)
Lemma crc32_tab_range i : 0 <= i < 256 -> is_u32 (aget crc32_tab i).
Proof.
  intros Hi. apply crc32_tab_entry in Hi as [_ Hi]. done.
Qed.

Lemma crc32_tab_top_inj i j :
  0 <= i < 256 -> 0 <= j < 256 ->
  Z.shiftr (aget crc32_tab i) 24 = Z.shiftr (aget crc32_tab j) 24 -> i = j.
Proof.
  apply (inj_by_table 256 (fun i => Z.shiftr (aget crc32_tab i) 24)). vm_compute. reflexivity.
Qed.

Lemma low_byte x : Z.land x 0xFF = u8 x.
Proof. exact (land_mask 8 x ltac:(lia)). Qed.

Lemma low_byte_range x : 0 <= Z.land x 0xFF < 256.
Proof. rewrite low_byte. apply (wrap_range 8). lia. Qed.

Lemma shiftr8_range x : is_u32 x -> in_range 24 (Z.shiftr x 8).
Proof.
  intros [H0 H1]. rewrite Z.shiftr_div_pow2 by lia. split; [by apply Z.div_pos; lia|].
  apply Z.div_lt_upper_bound; lia.
Qed.

Lemma crc32_T_range x : is_u32 x -> is_u32 (crc32_T x).
Proof.
  intros Hx. apply lxor_range; [lia|apply crc32_tab_range, low_byte_range|].
  pose proof (shiftr8_range x Hx). unfold in_range in *. lia.
Qed.

Lemma crc32_T_inj x y : is_u32 x -> is_u32 y -> crc32_T x = crc32_T y -> x = y.
Proof.
  intros Hx Hy E. pose proof (shiftr8_range x Hx) as Rx. pose proof (shiftr8_range y Hy) as Ry.
  assert (Etop : Z.land x 0xFF = Z.land y 0xFF).
  { apply crc32_tab_top_inj; [apply low_byte_range..|].
    apply (f_equal (fun z => Z.shiftr z 24)) in E. unfold crc32_T in E.
    rewrite !Z.shiftr_lxor in E.
    assert (Hz : forall z, in_range 24 z -> Z.shiftr z 24 = 0).
    { intros z Hz. rewrite Z.shiftr_div_pow2 by lia. by apply Z.div_small. }
    by rewrite (Hz _ Rx), (Hz _ Ry), !Z.lxor_0_r in E. }
  unfold crc32_T in E. rewrite Etop in E. apply lxor_cancel_l in E.
  rewrite !low_byte in Etop. unfold wrap in Etop. rewrite !Z.shiftr_div_pow2 in E by lia.
  rewrite (Z.div_mod x (2 ^ 8)), (Z.div_mod y (2 ^ 8)) by lia. congruence.
Qed.

(** Bit-serial steps are linear over xor. *)
Lemma crc32_bit_lxor x y : crc32_bit (Z.lxor x y) = Z.lxor (crc32_bit x) (crc32_bit y).
Proof.
  unfold crc32_bit. rewrite <- !Z.bit0_odd, Z.lxor_spec, Z.shiftr_lxor.
  generalize (Z.shiftr x 1) (Z.shiftr y 1) POLY_REFLECTED. intros a b p.
  destruct (Z.testbit x 0), (Z.testbit y 0); simpl.
  - rewrite (Z.lxor_comm b p), Z.lxor_assoc, <- (Z.lxor_assoc p p b), Z.lxor_nilpotent.
    by rewrite Z.lxor_0_l.
  - by rewrite !Z.lxor_assoc, (Z.lxor_comm b p).
  - by rewrite Z.lxor_assoc.
  - done.
Qed.

Lemma crc32_bits_lxor n x y :
  Nat.iter n crc32_bit (Z.lxor x y) = Z.lxor (Nat.iter n crc32_bit x) (Nat.iter n crc32_bit y).
Proof. induction n as [|n IH]; simpl; [done|]. by rewrite IH, crc32_bit_lxor. Qed.

Lemma crc32_bits_shift n x : Nat.iter n crc32_bit (Z.shiftl x (Z.of_nat n)) = x.
Proof.
  revert x. induction n as [|n IH]; intros x; [apply Z.shiftl_0_r|].
  rewrite Nat.iter_succ_r. unfold crc32_bit at 2. rewrite <- Z.bit0_odd.
  rewrite Z.shiftl_spec_low by lia. rewrite Z.shiftr_shiftl_l by lia.
  replace (Z.of_nat (S n) - 1) with (Z.of_nat n) by lia. apply IH.
Qed.

Lemma crc32_bits_table x : 0 <= x -> Nat.iter 8 crc32_bit x = crc32_T x.
Proof.
  intros Hx. rewrite <- (Z.lxor_0_r x) at 1. unfold crc32_T.
  assert (Hsplit : x = Z.lxor (Z.land x 0xFF) (Z.shiftl (Z.shiftr x 8) 8)).
  { apply Z.bits_inj'. intros i Hi. rewrite Z.lxor_spec, Z.land_spec.
    destruct (Z.lt_ge_cases i 8).
    - rewrite Z.shiftl_spec_low by lia. change 0xFF with (Z.ones 8).
      rewrite Z.ones_spec_low by lia. by rewrite andb_true_r, xorb_false_r.
    - rewrite Z.shiftl_spec_high, Z.shiftr_spec by lia. change 0xFF with (Z.ones 8).
      rewrite Z.ones_spec_high by lia. rewrite andb_false_r, xorb_false_l. f_equal. lia. }
  rewrite Z.lxor_0_r, Hsplit at 1. rewrite crc32_bits_lxor.
  rewrite (crc32_bits_shift 8). f_equal.
  by apply crc32_tab_entry, low_byte_range.
Qed.

(** ** CRC-16 *)

Lemma cros_crc16_fold data c :
  cros_crc16 data (Z.of_nat (length data)) c = fold_left crc16_byte data c.
Proof. unfold cros_crc16. by rewrite Nat2Z.id, firstn_all. Qed.

Lemma crc16_shift_range x : is_u16 (crc16_shift x).
Proof. unfold crc16_shift. case_match; by apply wrap_range. Qed.

Lemma testbit15 x : is_u16 x -> bool_of_Z (Z.land x 0x8000) = Z.testbit x 15.
Proof.
  intros Hx. unfold bool_of_Z. change 0x8000 with (2 ^ 15).
  destruct (Z.testbit x 15) eqn:E.
  - apply negb_true_iff, Z.eqb_neq. intros H.
    apply (f_equal (fun z => Z.testbit z 15)) in H.
    by rewrite Z.land_spec, Z.pow2_bits_true, E in H by lia.
  - apply negb_false_iff, Z.eqb_eq, Z.bits_inj'. intros i Hi. rewrite Z.land_spec, Z.bits_0.
    destruct (Z.eq_dec i 15) as [->|]; [by rewrite E|].
    by rewrite Z.pow2_bits_false, andb_false_r by lia.
Qed.

(** The bits of a shifted state: the polynomial is odd, so bit 0 tells
    whether it was added. *)
Lemma crc16_shift_bits x i :
  is_u16 x -> 0 <= i < 16 ->
  Z.testbit (crc16_shift x) i =
    xorb (Z.testbit x (i - 1)) (Z.testbit x 15 && Z.testbit 0x1021 i).
Proof.
  intros Hx Hi. unfold crc16_shift, wrap. rewrite testbit15 by done.
  assert (Hs : Z.testbit (Z.shiftl x 1) i = Z.testbit x (i - 1)) by (apply Z.shiftl_spec; lia).
  destruct (Z.testbit x 15); rewrite Z.mod_pow2_bits_low by lia;
    rewrite ?Z.lxor_spec, Hs; [done|by rewrite xorb_false_r].
Qed.

Lemma crc16_shift_inj x y : is_u16 x -> is_u16 y -> crc16_shift x = crc16_shift y -> x = y.
Proof.
  intros Hx Hy E. apply Z.bits_inj'. intros i Hi.
  assert (Hb : forall j, 0 <= j < 16 ->
    xorb (Z.testbit x (j - 1)) (Z.testbit x 15 && Z.testbit 0x1021 j) =
    xorb (Z.testbit y (j - 1)) (Z.testbit y 15 && Z.testbit 0x1021 j)).
  { intros j Hj. by rewrite <- !crc16_shift_bits, E by done. }
  assert (H15 : Z.testbit x 15 = Z.testbit y 15).
  { specialize (Hb 0 ltac:(lia)). rewrite !(Z.testbit_neg_r _ (0 - 1)) in Hb by lia.
    change (Z.testbit 0x1021 0) with true in Hb. by rewrite !andb_true_r, !xorb_false_l in Hb. }
  destruct (Z.lt_ge_cases i 15).
  - specialize (Hb (i + 1) ltac:(lia)). rewrite H15 in Hb.
    replace (i + 1 - 1) with i in Hb by lia.
    destruct (Z.testbit x i), (Z.testbit y i), (_ && _); done.
  - destruct (Z.eq_dec i 15) as [->|]; [done|].
    by rewrite !(bits_above 16) by (done || lia).
Qed.

Lemma crc16_iter_inj n x y :
  is_u16 x -> is_u16 y -> Nat.iter n crc16_shift x = Nat.iter n crc16_shift y -> x = y.
Proof.
  revert x y. induction n as [|n IH]; intros x y Hx Hy; [done|].
  rewrite !Nat.iter_succ_r. intros E.
  apply IH in E; [|by apply crc16_shift_range..]. by apply crc16_shift_inj.
Qed.

Lemma crc16_byte_range c d : is_u16 (crc16_byte c d).
Proof. apply (crc16_shift_range (Nat.iter 7 crc16_shift _)). Qed.

Lemma crc16_high d : is_u8 d -> u16 (Z.shiftl d 8) = d * 256 /\ is_u16 (u16 (Z.shiftl d 8)).
Proof.
  intros [? ?]. assert (Hr : is_u16 (Z.shiftl d 8)).
  { rewrite Z.shiftl_mul_pow2 by lia. unfold in_range. lia. }
  rewrite wrap_id by done. rewrite Z.shiftl_mul_pow2 in * by lia. done.
Qed.

Lemma crc16_byte_inj c1 c2 d1 d2 :
  is_u16 c1 -> is_u16 c2 -> is_u8 d1 -> is_u8 d2 -> crc16_byte c1 d1 = crc16_byte c2 d2 ->
  Z.lxor c1 (u16 (Z.shiftl d1 8)) = Z.lxor c2 (u16 (Z.shiftl d2 8)).
Proof.
  intros Hc1 Hc2 Hd1 Hd2 E. destruct (crc16_high d1 Hd1) as [_ R1].
  destruct (crc16_high d2 Hd2) as [_ R2].
  assert (is_u16 (Z.lxor c1 (u16 (Z.shiftl d1 8)))) by (by apply lxor_range).
  assert (is_u16 (Z.lxor c2 (u16 (Z.shiftl d2 8)))) by (by apply lxor_range).
  unfold crc16_byte in E.
  rewrite (wrap_id 16 (Z.lxor c1 _)), (wrap_id 16 (Z.lxor c2 _)) in E by done.
  by apply crc16_iter_inj in E.
Qed.

(** ** The three checksums implement the interface *)

Definition hash8 (crc : Z) (l : list Z) : Z := cros_crc8_arg l (Z.of_nat (length l)) crc.
Definition hash16 (crc : Z) (l : list Z) : Z := cros_crc16 l (Z.of_nat (length l)) crc.
Definition hash32 (crc : Z) (l : list Z) : Z := crc32_ctx_hash crc l (Z.of_nat (length l)).

Lemma crc32_byte_range c d : is_u32 c -> is_u8 d -> is_u32 (crc32_byte c d).
Proof.
  intros Hc Hd. apply (crc32_T_range (Z.lxor c d)). apply lxor_range; [lia|done|].
  unfold in_range in *. lia.
Qed.

Lemma crc32_byte_inj c1 c2 d1 d2 :
  is_u32 c1 -> is_u32 c2 -> is_u8 d1 -> is_u8 d2 -> crc32_byte c1 d1 = crc32_byte c2 d2 ->
  Z.lxor c1 d1 = Z.lxor c2 d2.
Proof.
  intros H1 H2 Hd1 Hd2 E.
  apply (crc32_T_inj (Z.lxor c1 d1) (Z.lxor c2 d2)); [..|exact E];
    apply lxor_range; try done; unfold in_range in *; lia.
Qed.

#[export] Program Instance checksum32 : Checksum hash32 := { cs_width := 32 }.
Next Obligation. done. Qed.
Next Obligation.
  intros crc l1 l2 _. unfold hash32, crc32_ctx_hash. by rewrite !crc32_hash_fold, fold_left_app.
Qed.
Next Obligation.
  intros crc l Hc Hl. unfold hash32, crc32_ctx_hash. rewrite crc32_hash_fold.
  by apply (fold_step_range 32 _ crc32_byte_range).
Qed.
Next Obligation.
  intros c1 c2 l H1 H2 Hl. unfold hash32, crc32_ctx_hash. rewrite !crc32_hash_fold.
  apply (fold_step_inj 32 _ crc32_byte_range); try done.
  intros c c' d Hc Hc' Hd E. apply crc32_byte_inj in E; try done. by apply lxor_cancel_r in E.
Qed.
Next Obligation.
  intros c d1 d2 Hc Hd1 Hd2 E. unfold hash32, crc32_ctx_hash in E.
  rewrite !crc32_hash_fold in E. apply crc32_byte_inj in E; try done.
  by apply lxor_cancel_l in E.
Qed.

#[export] Program Instance checksum16 : Checksum hash16 := { cs_width := 16 }.
Next Obligation. done. Qed.
Next Obligation.
  intros crc l1 l2 _. unfold hash16. by rewrite !cros_crc16_fold, fold_left_app.
Qed.
Next Obligation.
  intros crc l Hc Hl. unfold hash16. rewrite cros_crc16_fold.
  apply (fold_step_range 16); try done. intros c d _ _. apply crc16_byte_range.
Qed.
Next Obligation.
  intros c1 c2 l H1 H2 Hl. unfold hash16. rewrite !cros_crc16_fold.
  apply (fold_step_inj 16); try done.
  - intros c d _ _. apply crc16_byte_range.
  - intros c c' d Hc Hc' Hd E. apply crc16_byte_inj in E; try done. by apply lxor_cancel_r in E.
Qed.
Next Obligation.
  intros c d1 d2 Hc Hd1 Hd2 E. unfold hash16 in E. rewrite !cros_crc16_fold in E.
  apply crc16_byte_inj in E; try done. apply lxor_cancel_l in E.
  destruct (crc16_high d1 Hd1) as [E1 _], (crc16_high d2 Hd2) as [E2 _]. lia.
Qed.

(** CRC-8 keeps its state in bits 8..15; the interface is stated for byte
    strings, where the state is one byte between calls. *)
Lemma hash8_app crc l1 l2 :
  is_u8 crc -> is_bytes l1 -> is_bytes l2 -> hash8 crc (l1 ++ l2) = hash8 (hash8 crc l1) l2.
Proof.
  intros Hc H1 H2. unfold hash8.
  assert (is_bytes (l1 ++ l2)) by (by apply is_bytes_app).
  rewrite (cros_crc8_arg_fold l1) by done.
  rewrite !cros_crc8_arg_fold by (done || by apply (fold_step_range 8 _ crc8_step_range)).
  apply fold_left_app.
Qed.

Lemma hash8_one_byte crc l1 l2 b1 b2 :
  is_u8 crc -> is_bytes l1 -> is_bytes l2 -> is_u8 b1 -> is_u8 b2 -> b1 <> b2 ->
  hash8 crc (l1 ++ b1 :: l2) <> hash8 crc (l1 ++ b2 :: l2).
Proof.
  intros Hc H1 H2 Hb1 Hb2 Hne E. apply Hne.
  assert (Hl : forall b, is_u8 b -> is_bytes (l1 ++ b :: l2)).
  { intros b Hb. apply is_bytes_app. split; [done|]. by constructor. }
  unfold hash8 in E. rewrite !cros_crc8_arg_fold in E by auto.
  rewrite !fold_left_app in E. cbn [fold_left] in E.
  pose proof (fold_step_range 8 _ crc8_step_range crc l1 Hc H1) as Hr.
  apply (fold_step_inj 8 _ crc8_step_range) in E; try done.
  - by apply (crc8_step_inj_r _ _ _ Hr Hb1 Hb2).
  - intros c c' d. apply crc8_step_inj_l.
  - by apply (crc8_step_range _ _ Hr).
  - by apply (crc8_step_range _ _ Hr).
Qed.

(** The textbook CRC-8 register for x^8 + x^2 + x + 1. *)
Definition crc8_bit (c : Z) : Z :=
  if Z.testbit c 7 then Z.lxor (u8 (Z.shiftl c 1)) 0x07 else u8 (Z.shiftl c 1).
Definition crc8_serial_byte (c d : Z) : Z := Nat.iter 8 crc8_bit (Z.lxor c d).

Lemma crc8_serial_table :
  forallb (fun x => Nat.iter 8 crc8_bit x =? crc8_T_def x) (seqZ 0 256) = true.
Proof. vm_compute. reflexivity. Qed.

Lemma crc8_serial_entry x : is_u8 x -> (Nat.iter 8 crc8_bit x =? crc8_T x) = true.
Proof. rewrite crc8_T_eq. exact (forall_below _ _ crc8_serial_table x). Qed.

Lemma crc8_serial_eq c d : is_u8 c -> is_u8 d -> crc8_serial_byte c d = crc8_step c d.
Proof.
  intros Hc Hd. unfold crc8_serial_byte, crc8_step.
  apply Z.eqb_eq, crc8_serial_entry. by apply lxor_range.
Qed.

Lemma crc32_serial_eq c d : is_u32 c -> is_u8 d -> crc32_serial_byte c d = crc32_byte c d.
Proof.
  intros Hc Hd. apply crc32_bits_table.
  apply (lxor_range 32 c d); [lia|done|unfold in_range in *; lia].
Qed.

(** ** Main theorems *)

(** The byte-at-a-time [cros_crc8_arg] computes the bit-serial CRC of
    x^8 + x^2 + x + 1, and the table-driven [crc32_ctx_hash] computes the
    bit-serial reflected CRC of 0x04C11DB7, for every buffer and every
    running value. *)
Theorem crc_bit_serial buf size c8 c32 :
  is_bytes buf -> 0 <= size -> is_u8 c8 -> is_u32 c32 ->
  cros_crc8_arg buf size c8 = fold_left crc8_serial_byte (take (Z.to_nat size) buf) c8 /\
  crc32_ctx_hash c32 buf size = crc32_serial c32 (take (Z.to_nat size) buf).
Proof.
  intros Hb Hs H8 H32. set (l := take (Z.to_nat size) buf).
  assert (Hl : is_bytes l) by (by apply Forall_take).
  assert (Ht : take (Z.to_nat (Z.of_nat (length l))) l = l) by (rewrite Nat2Z.id; apply firstn_all).
  split.
  - transitivity (cros_crc8_arg l (Z.of_nat (length l)) c8).
    { unfold cros_crc8_arg. rewrite Ht. done. }
    rewrite cros_crc8_arg_fold by done. symmetry.
    apply (fold_step_sim 8 crc8_step crc8_step_range crc8_serial_byte id c8 l); try done.
    exact crc8_serial_eq.
  - symmetry.
    apply (fold_step_sim 32 crc32_byte crc32_byte_range crc32_serial_byte id c32 l); try done.
    exact crc32_serial_eq.
Qed.

Definition check_string : list Z := [0x31; 0x32; 0x33; 0x34; 0x35; 0x36; 0x37; 0x38; 0x39].

Lemma crc_bit_serial_witness :
  cros_crc8_arg check_string 9 0 = fold_left crc8_serial_byte (take 9 check_string) 0 /\
  crc32_ctx_hash crc32_ctx_init check_string 9 =
    crc32_serial crc32_ctx_init (take 9 check_string).
Proof.
  apply (crc_bit_serial check_string 9 0 crc32_ctx_init); try by vm_compute.
  concrete_range.
Defined.

(** The published check values of the three algorithms. *)
Example crc_check_values :
  cros_crc8 check_string 9 = 0xF4 /\ cros_crc16 check_string 9 0 = 0x31C3 /\
  crc32_ctx_result (crc32_ctx_hash crc32_ctx_init check_string 9) = 0xCBF43926.
Proof. by vm_compute. Qed.

(** Two messages that differ in exactly one byte have different CRC-8,
    CRC-16 and CRC-32, whatever surrounds the byte and whatever the running
    values. *)
Theorem crc_detects_byte_error c8 c16 c32 l1 l2 b1 b2 :
  is_u8 c8 -> is_u16 c16 -> is_u32 c32 -> is_bytes l1 -> is_bytes l2 ->
  is_u8 b1 -> is_u8 b2 -> b1 <> b2 ->
  let m1 := l1 ++ b1 :: l2 in let m2 := l1 ++ b2 :: l2 in
  let n := Z.of_nat (length m1) in
  cros_crc8_arg m1 n c8 <> cros_crc8_arg m2 n c8 /\
  cros_crc16 m1 n c16 <> cros_crc16 m2 n c16 /\
  crc32_ctx_hash c32 m1 n <> crc32_ctx_hash c32 m2 n.
Proof.
  intros H8 H16 H32 H1 H2 Hb1 Hb2 Hne m1 m2 n.
  assert (Hn : n = Z.of_nat (length m2)) by (subst n m1 m2; rewrite !length_app; done).
  split_and!.
  - rewrite Hn at 2. by apply hash8_one_byte.
  - rewrite Hn at 2. by apply (checksum_one_byte hash16 c16).
  - rewrite Hn at 2. by apply (checksum_one_byte hash32 c32).
Qed.

Lemma crc_detects_byte_error_witness :
  let m1 := [1; 2] ++ 3 :: [4] in let m2 := [1; 2] ++ 7 :: [4] in
  let n := Z.of_nat (length m1) in
  cros_crc8_arg m1 n 0 <> cros_crc8_arg m2 n 0 /\
  cros_crc16 m1 n 0 <> cros_crc16 m2 n 0 /\
  crc32_ctx_hash 0 m1 n <> crc32_ctx_hash 0 m2 n.
Proof.
  apply (crc_detects_byte_error 0 0 0 [1; 2] [4] 3 7); try by vm_compute.
  all: concrete_range.
Defined.

End Crc.
