(* ===== verification/Libc.v ===== *)
(** * The firmware's C library routines (builtin/stdlib.c)

    Memory is a total function from addresses to bytes; the word-at-a-time
    [memcpy], [memset] and [memmove] are translated with their alignment
    computations and shown to be the ideal byte copies, overlap included.
    Strings are arrays of character codes; a pointer into a string is the
    suffix it points at ([deref] reads it, [next] advances it).  [char] is
    unsigned, as on the firmware's targets. *)

From S2P Require Import Prelude.

Module Mem.

Definition mem := Z -> Z.
Definition store (m : mem) (a v : Z) : mem := fun x => if x =? a then v else m x.

(** A little-endian 32-bit access. *)
Definition load32 (m : mem) (a : Z) : Z :=
  m a + 2 ^ 8 * m (a + 1) + 2 ^ 16 * m (a + 2) + 2 ^ 24 * m (a + 3).
Definition store32 (m : mem) (a v : Z) : mem :=
  store (store (store (store m a (u8 v)) (a + 1) (u8 (Z.shiftr v 8)))
    (a + 2) (u8 (Z.shiftr v 16))) (a + 3) (u8 (Z.shiftr v 24)).

(** [x & ~3] *)
Definition align_down (x : Z) : Z := Z.land x (Z.lnot 3).

(** [while (d < lim) *(d++) = *(s++);] *)
(** src/builtin/stdlib.c:314-316 [memcpy] *)
Fixpoint bytes_up (fuel : nat) (m : mem) (d s lim : Z) : mem * Z * Z :=
  match fuel with
  | O => (m, d, s)
  | S fuel => if d <? lim then bytes_up fuel (store m d (m s)) (d + 1) (s + 1) lim else (m, d, s)
  end.

(** src/builtin/stdlib.c:318-322 [Copy body] *)
Fixpoint words_up (fuel : nat) (m : mem) (d s lim : Z) : mem * Z * Z :=
  match fuel with
  | O => (m, d, s)
  | S fuel =>
    if d <? lim then words_up fuel (store32 m d (load32 m s)) (d + 4) (s + 4) lim else (m, d, s)
  end.

(** src/builtin/stdlib.c:290-331 [memcpy] *)
Definition memcpy (m : mem) (dest src len : Z) : mem :=
  let tail := dest + len in
  let body := align_down tail in
  let head :=
    if negb (Z.land dest 3 =? Z.land src 3) then tail
    else if tail <? align_down (dest + 3) then tail else align_down (dest + 3) in
  let fuel := Z.to_nat len in
  let '(m, d, s) := bytes_up fuel m dest src head in
  let '(m, d, s) := words_up fuel m d s body in
  let '(m, d, s) := bytes_up fuel m d s tail in
  m.

(** [while (d > lim) *(--d) = *(--s);] *)
(** src/builtin/stdlib.c:406-408 [Copy head] *)
Fixpoint bytes_down (fuel : nat) (m : mem) (d s lim : Z) : mem * Z * Z :=
  match fuel with
  | O => (m, d, s)
  | S fuel =>
    if lim <? d then bytes_down fuel (store m (d - 1) (m (s - 1))) (d - 1) (s - 1) lim
    else (m, d, s)
  end.

(** src/builtin/stdlib.c:410-414 [Copy body] *)
Fixpoint words_down (fuel : nat) (m : mem) (d s lim : Z) : mem * Z * Z :=
  match fuel with
  | O => (m, d, s)
  | S fuel =>
    if lim <? d then words_down fuel (store32 m (d - 4) (load32 m (s - 4))) (d - 4) (s - 4) lim
    else (m, d, s)
  end.

(** src/builtin/stdlib.c:374-424 [memmove] *)
Definition memmove (m : mem) (dest src len : Z) : mem :=
  if (dest <=? src) || (src + len <=? dest) then memcpy m dest src len
  else
    let d := dest + len in
    let s := src + len in
    let tail := dest in
    let body := align_down (tail + 3) in
    let head :=
      if negb (Z.land dest 3 =? Z.land src 3) then tail
      else if align_down d <? tail then tail else align_down d in
    let fuel := Z.to_nat len in
    let '(m, d, s) := bytes_down fuel m d s head in
    let '(m, d, s) := words_down fuel m d s body in
    let '(m, d, s) := bytes_down fuel m d s tail in
    m.

(** src/builtin/stdlib.c:355-357 [Copy head] *)
Fixpoint fill_bytes (fuel : nat) (m : mem) (d c lim : Z) : mem * Z :=
  match fuel with
  | O => (m, d)
  | S fuel => if d <? lim then fill_bytes fuel (store m d (u8 c)) (d + 1) c lim else (m, d)
  end.

(** src/builtin/stdlib.c:359-362 [cccc] *)
Fixpoint fill_words (fuel : nat) (m : mem) (d cccc lim : Z) : mem * Z :=
  match fuel with
  | O => (m, d)
  | S fuel => if d <? lim then fill_words fuel (store32 m d cccc) (d + 4) cccc lim else (m, d)
  end.

(** src/builtin/stdlib.c:335-370 [memset] *)
Definition memset (m : mem) (dest c len : Z) : mem :=
  let tail := dest + len in
  let body := align_down tail in
  let c := Z.land c 0xff in
  let cccc := u32 (Z.lor (Z.lor (Z.lor c (Z.shiftl c 8)) (Z.shiftl c 16)) (Z.shiftl c 24)) in
  let head := if tail <? align_down (dest + 3) then tail else align_down (dest + 3) in
  let fuel := Z.to_nat len in
  let '(m, d) := fill_bytes fuel m dest c head in
  let '(m, d) := fill_words fuel m d cccc body in
  let '(m, d) := fill_bytes fuel m d c tail in
  m.

(** The difference of the first two bytes that differ. *)
(** src/builtin/stdlib.c:274-287 [memcmp] *)
Fixpoint memcmp (m : mem) (s1 s2 : Z) (len : nat) : Z :=
  match len with
  | O => 0
  | S len =>
    let diff := m s1 - m s2 in
    if negb (diff =? 0) then diff else memcmp m (s1 + 1) (s2 + 1) len
  end.

(** The address of the first match, or [None] for NULL. *)
(** src/builtin/stdlib.c:427-438 [memchr] *)
Fixpoint memchr (m : mem) (current c : Z) (n : nat) : option Z :=
  match n with
  | O => None
  | S n => if m current =? c then Some current else memchr m (current + 1) c n
  end.

(** ** Lemmas *)

(** [m] is [m0] with the addresses [lo .. hi-1] read [delta] lower. *)
Definition covers (m0 m : mem) (lo hi delta : Z) : Prop :=
  forall a, m a = if (lo <=? a) && (a <? hi) then m0 (a - delta) else m0 a.
Definition byte_mem (m : mem) : Prop := forall a, is_u8 (m a).

Lemma align_down_spec x : align_down x = 4 * (x / 4).
Proof.
  unfold align_down. change (Z.lnot 3) with (Z.lnot (Z.ones 2)).
  rewrite <- Z.ldiff_land, Z.ldiff_ones_r by lia.
  rewrite Z.shiftl_mul_pow2, Z.shiftr_div_pow2 by lia. change (2 ^ 2) with 4. lia.
Qed.

Lemma land_3 x : Z.land x 3 = x mod 4.
Proof. change 3 with (2 ^ 2 - 1). by rewrite land_mask by lia. Qed.

Lemma store32_load32 m d s a :
  byte_mem m ->
  store32 m d (load32 m s) a = if (d <=? a) && (a <? d + 4) then m (s + (a - d)) else m a.
Proof.
  intros Hm. unfold store32, store, load32.
  pose proof (Hm s). pose proof (Hm (s + 1)). pose proof (Hm (s + 2)). pose proof (Hm (s + 3)).
  unfold in_range in *. rewrite !Z.shiftr_div_pow2 by lia. unfold wrap.
  destruct (Z.eqb_spec a (d + 3)) as [->|].
  { replace (d <=? d + 3) with true by lia. replace (d + 3 <? d + 4) with true by lia.
    simpl. replace (s + (d + 3 - d)) with (s + 3) by lia. divlia. }
  destruct (Z.eqb_spec a (d + 2)) as [->|].
  { replace (d <=? d + 2) with true by lia. replace (d + 2 <? d + 4) with true by lia.
    simpl. replace (s + (d + 2 - d)) with (s + 2) by lia. divlia. }
  destruct (Z.eqb_spec a (d + 1)) as [->|].
  { replace (d <=? d + 1) with true by lia. replace (d + 1 <? d + 4) with true by lia.
    simpl. replace (s + (d + 1 - d)) with (s + 1) by lia. divlia. }
  destruct (Z.eqb_spec a d) as [->|].
  { replace (d <=? d) with true by lia. replace (d <? d + 4) with true by lia.
    simpl. replace (s + (d - d)) with s by lia. divlia. }
  destruct (Z.leb_spec d a), (Z.ltb_spec a (d + 4)); simpl; try done; lia.
Qed.

Lemma covers_byte m0 m lo hi delta : byte_mem m0 -> covers m0 m lo hi delta -> byte_mem m.
Proof. intros H Hc a. rewrite Hc. destruct (_ && _); apply H. Qed.

(** Forward copying: the bytes still to be read lie outside what was written. *)
Definition fwd_ok (dest delta len : Z) : Prop := delta <= 0 \/ len <= delta.

Lemma bytes_up_covers m0 dest delta len fuel : forall m d lim,
  fwd_ok dest delta len -> covers m0 m dest d delta -> dest <= d -> lim <= dest + len ->
  lim - d <= Z.of_nat fuel ->
  let '(m', d', s') := bytes_up fuel m d (d - delta) lim in
  covers m0 m' dest d' delta /\ d' = Z.max d lim /\ s' = d' - delta.
Proof.
  induction fuel as [|fuel IH]; intros m d lim Hf Hc Hd Hl Hfuel; simpl.
  - split_and!; [done|lia|lia].
  - destruct (Z.ltb_spec d lim); [|split_and!; [done|lia|lia]].
    replace (d - delta + 1) with (d + 1 - delta) by lia.
    specialize (IH (store m d (m (d - delta))) (d + 1) lim).
    destruct (bytes_up _ _ _ _ _) as [[m' d'] s']. destruct IH as (H1 & H2 & H3); try lia.
    + done.
    + intros a. unfold store. rewrite !Hc. unfold fwd_ok in Hf. addr. 
    + split_and!; [done|lia|done].
Qed.

Lemma words_up_covers m0 dest delta len fuel : forall m d lim,
  byte_mem m0 -> fwd_ok dest delta len -> (delta mod 4 = 0 \/ lim <= d) ->
  d mod 4 = lim mod 4 \/ lim <= d ->
  covers m0 m dest d delta -> dest <= d -> lim <= dest + len ->
  lim - d <= Z.of_nat fuel ->
  let '(m', d', s') := words_up fuel m d (d - delta) lim in
  covers m0 m' dest d' delta /\ d' = Z.max d lim /\ s' = d' - delta.
Proof.
  induction fuel as [|fuel IH]; intros m d lim Hb Hf H4 Hal Hc Hd Hl Hfuel; simpl.
  - split_and!; [done|lia|lia].
  - destruct (Z.ltb_spec d lim); [|split_and!; [done|lia|lia]].
    assert (d + 4 <= lim) by divlia.
    replace (d - delta + 4) with (d + 4 - delta) by lia.
    specialize (IH (store32 m d (load32 m (d - delta))) (d + 4) lim).
    destruct (words_up _ _ _ _ _) as [[m' d'] s']. destruct IH as (H1 & H2 & H3); try lia; try done.
    + left. divlia.
    + intros a. rewrite store32_load32 by (by eapply covers_byte). unfold fwd_ok in Hf.
      assert (delta = 0 \/ delta <= -4 \/ len <= delta) by divlia.
      rewrite !Hc. addr.
    + split_and!; [done|lia|done].
Qed.

Lemma memcpy_covers m dest src len :
  byte_mem m -> 0 <= len -> fwd_ok dest (dest - src) len ->
  covers m (memcpy m dest src len) dest (dest + len) (dest - src).
Proof.
  intros Hb Hlen Hf. unfold memcpy. rewrite !align_down_spec, !land_3. cbv zeta.
  set (head := if negb _ then _ else _).
  assert (Hhead : dest <= head <= dest + len /\
    (head = dest + len \/ (head mod 4 = 0 /\ (dest - src) mod 4 = 0))).
  { unfold head. destruct (Z.eqb_spec (dest mod 4) (src mod 4)); simpl; [|lia].
    destruct (Z.ltb_spec (dest + len) (4 * ((dest + 3) / 4))); [lia|].
    split; [divlia|right; divlia]. }
  clearbody head. destruct Hhead as [Hh1 Hh2].
  replace src with (dest - (dest - src)) at 1 by lia.
  pose proof (bytes_up_covers m dest (dest - src) len (Z.to_nat len) m dest head Hf) as H1.
  destruct (bytes_up _ _ _ _ _) as [[m1 d1] s1].
  destruct H1 as (H1 & -> & ->); try lia.
  { intros a. addr. }
  pose proof (words_up_covers m dest (dest - src) len (Z.to_nat len) m1 (Z.max dest head)
    (4 * ((dest + len) / 4)) Hb Hf) as H2.
  destruct (words_up _ _ _ _ _) as [[m2 d2] s2].
  destruct H2 as (H2 & -> & ->); try done; try divlia.
  pose proof (bytes_up_covers m dest (dest - src) len (Z.to_nat len) m2
    (Z.max (Z.max dest head) (4 * ((dest + len) / 4))) (dest + len) Hf) as H3.
  destruct (bytes_up _ _ _ _ _) as [[m3 d3] s3].
  destruct H3 as (H3 & -> & ->); try done; try divlia.
  replace (dest + len) with (Z.max (Z.max (Z.max dest head) (4 * ((dest + len) / 4))) (dest + len))
    by divlia. done.
Qed.

(** Backward copying, for a destination that starts inside the source. *)
Lemma bytes_down_covers m0 hi delta fuel : forall m d lim,
  0 < delta -> covers m0 m d hi delta -> d <= hi -> d - lim <= Z.of_nat fuel ->
  let '(m', d', s') := bytes_down fuel m d (d - delta) lim in
  covers m0 m' d' hi delta /\ d' = Z.min d lim /\ s' = d' - delta.
Proof.
  induction fuel as [|fuel IH]; intros m d lim Hd Hc Hhi Hfuel; simpl.
  - split_and!; [done|lia|lia].
  - destruct (Z.ltb_spec lim d); [|split_and!; [done|lia|lia]].
    replace (d - delta - 1) with (d - 1 - delta) by lia.
    specialize (IH (store m (d - 1) (m (d - 1 - delta))) (d - 1) lim).
    destruct (bytes_down _ _ _ _ _) as [[m' d'] s']. destruct IH as (H1 & H2 & H3); try lia.
    + intros a. unfold store. rewrite !Hc. addr.
    + split_and!; [done|lia|done].
Qed.

Lemma words_down_covers m0 hi delta fuel : forall m d lim,
  byte_mem m0 -> 0 < delta -> (delta mod 4 = 0 \/ d <= lim) -> d mod 4 = lim mod 4 \/ d <= lim ->
  covers m0 m d hi delta -> d <= hi -> d - lim <= Z.of_nat fuel ->
  let '(m', d', s') := words_down fuel m d (d - delta) lim in
  covers m0 m' d' hi delta /\ d' = Z.min d lim /\ s' = d' - delta.
Proof.
  induction fuel as [|fuel IH]; intros m d lim Hb Hd H4 Hal Hc Hhi Hfuel; simpl.
  - split_and!; [done|lia|lia].
  - destruct (Z.ltb_spec lim d); [|split_and!; [done|lia|lia]].
    assert (lim <= d - 4) by divlia.
    replace (d - delta - 4) with (d - 4 - delta) by lia.
    specialize (IH (store32 m (d - 4) (load32 m (d - 4 - delta))) (d - 4) lim).
    destruct (words_down _ _ _ _ _) as [[m' d'] s'].
    destruct IH as (H1 & H2 & H3); try lia; try done.
    + left. divlia.
    + intros a. rewrite store32_load32 by (by eapply covers_byte).
      assert (4 <= delta) by divlia. rewrite !Hc. addr.
    + split_and!; [done|lia|done].
Qed.

Lemma memmove_down_covers m dest src len :
  byte_mem m -> 0 <= len -> src < dest < src + len ->
  covers m (memmove m dest src len) dest (dest + len) (dest - src).
Proof.
  intros Hb Hlen Hov. unfold memmove. rewrite !align_down_spec, !land_3. cbv zeta.
  destruct (Z.leb_spec dest src); [lia|]. destruct (Z.leb_spec (src + len) dest); [lia|].
  cbn [orb]. set (head := if negb _ then _ else _).
  assert (Hhead : dest <= head <= dest + len /\
    (head = dest \/ (head mod 4 = 0 /\ (dest - src) mod 4 = 0))).
  { unfold head. destruct (Z.eqb_spec (dest mod 4) (src mod 4)); simpl; [|lia].
    destruct (Z.ltb_spec (4 * ((dest + len) / 4)) dest); [lia|].
    split; [divlia|right; divlia]. }
  clearbody head. destruct Hhead as [Hh1 Hh2].
  replace (src + len) with (dest + len - (dest - src)) by lia.
  pose proof (bytes_down_covers m (dest + len) (dest - src) (Z.to_nat len) m (dest + len) head) as H1.
  destruct (bytes_down _ _ _ _ _) as [[m1 d1] s1].
  destruct H1 as (H1 & -> & ->); try lia.
  { intros a. addr. }
  pose proof (words_down_covers m (dest + len) (dest - src) (Z.to_nat len) m1
    (Z.min (dest + len) head) (4 * ((dest + 3) / 4)) Hb) as H2.
  destruct (words_down _ _ _ _ _) as [[m2 d2] s2].
  destruct H2 as (H2 & -> & ->); try done; try lia; try divlia.
  pose proof (bytes_down_covers m (dest + len) (dest - src) (Z.to_nat len) m2
    (Z.min (Z.min (dest + len) head) (4 * ((dest + 3) / 4))) dest) as H3.
  destruct (bytes_down _ _ _ _ _) as [[m3 d3] s3].
  destruct H3 as (H3 & -> & ->); try done; try lia; try divlia.
  replace dest with (Z.min (Z.min (Z.min (dest + len) head) (4 * ((dest + 3) / 4))) dest) at 1
    by divlia. done.
Qed.

(** [memmove] copies [len] bytes from [src] to [dest] for every overlap
    and every alignment: each destination byte gets the source byte's old value
    and nothing else changes.  When the destination does not start inside the
    source, [memcpy] does the same. *)
Theorem memmove_correct m dest src len :
  byte_mem m -> 0 <= len ->
  (forall a, memmove m dest src len a =
     if (dest <=? a) && (a <? dest + len) then m (src + (a - dest)) else m a) /\
  (dest <= src \/ src + len <= dest ->
   forall a, memcpy m dest src len a =
     if (dest <=? a) && (a <? dest + len) then m (src + (a - dest)) else m a).
Proof.
  intros Hb Hlen.
  assert (Hcpy : dest <= src \/ src + len <= dest ->
   forall a, memcpy m dest src len a =
     if (dest <=? a) && (a <? dest + len) then m (src + (a - dest)) else m a).
  { intros Hf a. rewrite (memcpy_covers m dest src len Hb Hlen) by (unfold fwd_ok; lia).
    destruct (_ && _); [f_equal; lia|done]. }
  split; [|exact Hcpy]. intros a.
  destruct (Z.leb_spec dest src) as [H|H]; [|destruct (Z.leb_spec (src + len) dest) as [H'|H']].
  - rewrite <- Hcpy by lia. unfold memmove. by destruct (Z.leb_spec dest src); [|lia].
  - rewrite <- Hcpy by lia. unfold memmove.
    destruct (Z.leb_spec dest src); [lia|]. by destruct (Z.leb_spec (src + len) dest); [|lia].
  - rewrite (memmove_down_covers m dest src len Hb Hlen) by lia.
    destruct (_ && _); [f_equal; lia|done].
Qed.

Lemma memmove_correct_witness :
  (forall a, memmove (fun a => u8 a) 6 2 9 a =
     if (6 <=? a) && (a <? 6 + 9) then u8 (2 + (a - 6)) else u8 a) /\
  (forall a, memcpy (fun a => u8 a) 2 6 9 a =
     if (2 <=? a) && (a <? 2 + 9) then u8 (6 + (a - 2)) else u8 a).
Proof.
  assert (byte_mem (fun a => u8 a)) by (intros a; apply wrap_range; lia).
  split.
  - apply (memmove_correct (fun a => u8 a) 6 2 9); [done|lia].
  - apply (memmove_correct (fun a => u8 a) 2 6 9); [done|lia|lia].
Defined.

(** *** memset *)

Definition filled (m0 m : mem) (lo hi c : Z) : Prop :=
  forall a, m a = if (lo <=? a) && (a <? hi) then c else m0 a.

Lemma fill_bytes_filled m0 dest c fuel : forall m d lim,
  is_u8 c -> filled m0 m dest d c -> dest <= d -> lim - d <= Z.of_nat fuel ->
  let '(m', d') := fill_bytes fuel m d c lim in filled m0 m' dest d' c /\ d' = Z.max d lim.
Proof.
  induction fuel as [|fuel IH]; intros m d lim Hc Hf Hd Hfuel; simpl.
  - split; [done|lia].
  - destruct (Z.ltb_spec d lim); [|split; [done|lia]].
    specialize (IH (store m d (u8 c)) (d + 1) lim).
    destruct (fill_bytes _ _ _ _ _) as [m' d']. destruct IH as (H1 & ->); try done; try lia.
    + intros a. unfold store. rewrite (wrap_id 8 c) by done. rewrite !Hf. addr.
    + split; [done|lia].
Qed.

(** Each byte of the word that [memset] replicates is [c]. *)
Lemma cccc_table :
  forallb (fun c =>
    let w := u32 (Z.lor (Z.lor (Z.lor c (Z.shiftl c 8)) (Z.shiftl c 16)) (Z.shiftl c 24)) in
    (u8 w =? c) && (u8 (Z.shiftr w 8) =? c) && (u8 (Z.shiftr w 16) =? c) &&
    (u8 (Z.shiftr w 24) =? c)) (seqZ 0 256) = true.
Proof. vm_compute. reflexivity. Qed.

Lemma store32_cccc m d c a :
  is_u8 c ->
  store32 m d (u32 (Z.lor (Z.lor (Z.lor c (Z.shiftl c 8)) (Z.shiftl c 16)) (Z.shiftl c 24))) a
  = if (d <=? a) && (a <? d + 4) then c else m a.
Proof.
  intros Hc. pose proof (forall_below 256 _ cccc_table c Hc) as H. cbv beta zeta in H.
  set (w := u32 _) in *. clearbody w. rewrite !andb_true_iff, !Z.eqb_eq in H.
  destruct H as (((H1 & H2) & H3) & H4). unfold store32, store. rewrite H1, H2, H3, H4. addr.
Qed.

Lemma fill_words_filled m0 dest c fuel : forall m d lim,
  is_u8 c -> d mod 4 = lim mod 4 \/ lim <= d ->
  filled m0 m dest d c -> dest <= d -> lim - d <= Z.of_nat fuel ->
  let '(m', d') := fill_words fuel m d
    (u32 (Z.lor (Z.lor (Z.lor c (Z.shiftl c 8)) (Z.shiftl c 16)) (Z.shiftl c 24))) lim in
  filled m0 m' dest d' c /\ d' = Z.max d lim.
Proof.
  induction fuel as [|fuel IH]; intros m d lim Hc Hal Hf Hd Hfuel; cbn [fill_words].
  - split; [done|lia].
  - destruct (Z.ltb_spec d lim); [|split; [done|lia]].
    assert (d + 4 <= lim) by divlia. set (w := u32 _) in *.
    specialize (IH (store32 m d w) (d + 4) lim).
    destruct (fill_words _ _ _ _ _) as [m' d']. destruct IH as (H1 & ->); try done; try lia.
    + left. divlia.
    + intros a. unfold w. rewrite store32_cccc by done. rewrite !Hf. addr.
    + split; [done|lia].
Qed.

(** [memset] writes the low byte of [c] to exactly the [len] bytes at
    [dest], for every length and alignment. *)
Theorem memset_correct m dest c len :
  0 <= len -> forall a, memset m dest c len a =
    if (dest <=? a) && (a <? dest + len) then u8 c else m a.
Proof.
  intros Hlen. unfold memset. rewrite !align_down_spec. cbv zeta.
  change 255 with (2 ^ 8 - 1). rewrite land_mask by lia.
  assert (Hc : is_u8 (u8 c)) by (apply wrap_range; lia).
  set (head := if _ <? _ then _ else _).
  assert (Hhead : dest <= head <= dest + len /\ (head = dest + len \/ head mod 4 = 0)).
  { unfold head. destruct (Z.ltb_spec (dest + len) (4 * ((dest + 3) / 4))); [lia|].
    split; [divlia|right; divlia]. }
  clearbody head. destruct Hhead as [Hh1 Hh2].
  pose proof (fill_bytes_filled m dest (u8 c) (Z.to_nat len) m dest head Hc) as H1.
  destruct (fill_bytes _ _ _ _ _) as [m1 d1]. destruct H1 as (H1 & ->); try lia.
  { intros a. addr. }
  pose proof (fill_words_filled m dest (u8 c) (Z.to_nat len) m1 (Z.max dest head)
    (4 * ((dest + len) / 4)) Hc) as H2.
  destruct (fill_words _ _ _ _ _) as [m2 d2]. destruct H2 as (H2 & ->); try done; try divlia.
  pose proof (fill_bytes_filled m dest (u8 c) (Z.to_nat len) m2
    (Z.max (Z.max dest head) (4 * ((dest + len) / 4))) (dest + len) Hc) as H3.
  destruct (fill_bytes _ _ _ _ _) as [m3 d3]. destruct H3 as (H3 & ->); try done; try divlia.
  replace (dest + len) with (Z.max (Z.max (Z.max dest head) (4 * ((dest + len) / 4))) (dest + len))
    by divlia. exact H3.
Qed.

Lemma memset_correct_witness : memset (fun _ => 9) 3 (-1) 10 5 = u8 (-1).
Proof. exact (memset_correct (fun _ => 9) 3 (-1) 10 ltac:(lia) 5). Defined.

End Mem.

Module Str.

(** The character a pointer points at, and the pointer after it. *)
Definition deref (s : list Z) : Z := match s with [] => 0 | c :: _ => c end.
Definition next (s : list Z) : list Z := match s with [] => [] | _ :: s => s end.

(** src/builtin/stdlib.c:111-119 [strlen] *)
Fixpoint strlen (s : list Z) : Z :=
  match s with
  | [] => 0
  | c :: s => if c =? 0 then 0 else 1 + strlen s
  end.

(** src/builtin/stdlib.c:121-130 [strnlen] *)
Fixpoint strnlen (s : list Z) (maxlen : nat) : Z :=
  match maxlen with
  | O => 0
  | S maxlen => if deref s =? 0 then 0 else 1 + strnlen (next s) maxlen
  end.

(** src/builtin/stdlib.c:132-142 [strcspn] *)
Fixpoint strcspn (s reject : list Z) : Z :=
  match s with
  | [] => 0
  | c :: s =>
    if c =? 0 then 0
    else if existsb (fun r => c =? r) (take (Z.to_nat (strlen reject)) reject) then 0
    else 1 + strcspn s reject
  end.

(** src/builtin/stdlib.c:144-147 [isspace] *)
Definition isspace (c : Z) : bool := (c =? 32) || (c =? 9) || (c =? 13) || (c =? 10).

(** src/builtin/stdlib.c:149-152 [isdigit] *)
Definition isdigit (c : Z) : bool := (48 <=? c) && (c <=? 57).

(** src/builtin/stdlib.c:154-157 [isalpha] *)
Definition isalpha (c : Z) : bool := ((65 <=? c) && (c <=? 90)) || ((97 <=? c) && (c <=? 122)).

(** src/builtin/stdlib.c:159-162 [isupper] *)
Definition isupper (c : Z) : bool := (65 <=? c) && (c <=? 90).

(** src/builtin/stdlib.c:164-167 [isprint] *)
Definition isprint (c : Z) : bool := (32 <=? c) && (c <=? 126).

(** src/builtin/stdlib.c:169-172 [tolower] *)
Definition tolower (c : Z) : Z := if (65 <=? c) && (c <=? 90) then c + 97 - 65 else c.

(** src/builtin/stdlib.c:94-104 [strcasecmp] *)
Fixpoint strcasecmp (s1 s2 : list Z) : Z :=
  let diff := tolower (deref s1) - tolower (deref s2) in
  if negb (diff =? 0) then diff
  else match s1 with
       | [] => 0
       | c1 :: s1 => if (c1 =? 0) || (deref s2 =? 0) then 0 else strcasecmp s1 (next s2)
       end.

(** The do-while body of [strncasecmp], with [size] > 0 left. *)
(** src/builtin/stdlib.c:181-186 [strncasecmp] *)
Fixpoint strncasecmp_loop (s1 s2 : list Z) (size : nat) : Z :=
  match size with
  | O => 0
  | S size =>
    let diff := tolower (deref s1) - tolower (deref s2) in
    if negb (diff =? 0) then diff
    else if (deref s1 =? 0) || (deref s2 =? 0) then 0
    else strncasecmp_loop (next s1) (next s2) size
  end.

(** src/builtin/stdlib.c:174-187 [strncasecmp] *)
Definition strncasecmp (s1 s2 : list Z) (size : Z) : Z :=
  if size =? 0 then 0 else strncasecmp_loop s1 s2 (Z.to_nat size).

(** src/builtin/stdlib.c:453-464 [strncmp] *)
Fixpoint strncmp (s1 s2 : list Z) (n : nat) : Z :=
  match n with
  | O => 0
  | S n =>
    if negb (deref s1 =? deref s2) then deref s1 - deref s2
    else if deref s1 =? 0 then 0
    else strncmp (next s1) (next s2) n
  end.

(** The characters stored at [d], for [n] > 0 left; the terminator is only
    stored when there is room for it. *)
(** src/builtin/stdlib.c:440-451 [strncpy] *)
Fixpoint strncpy (d src : list Z) (n : nat) : list Z :=
  match n, d with
  | S n, _ :: d => if deref src =? 0 then 0 :: d else deref src :: strncpy d (next src) n
  | _, _ => d
  end.

(** [s[i]] *)
Definition char_at (s : list Z) (i : Z) : Z := nth (Z.to_nat i) s 0.

(** The comparison loop: [q] after it stopped. *)
(** src/builtin/stdlib.c:203-206 [strstr] *)
Fixpoint strstr_compare (fuel : nat) (s1 s2 : list Z) (p q len2 : Z) : Z :=
  match fuel with
  | O => q
  | S fuel =>
    if q <? len2 then
      if negb (char_at s1 p =? char_at s2 q) then q + 1
      else strstr_compare fuel s1 s2 (p + 1) (q + 1) len2
    else q
  end.

(** The outer loop at offset [i], for the [n] remaining offsets. *)
(** src/builtin/stdlib.c:199-211 [strstr] *)
Fixpoint strstr_from (n : nat) (s1 s2 : list Z) (i len2 : Z) : option Z :=
  match n with
  | O => None
  | S n =>
    if (char_at s1 i =? char_at s2 0) &&
       (char_at s2 (strstr_compare (Z.to_nat len2) s1 s2 (i + 1) 1 len2) =? 0)
    then Some i
    else strstr_from n s1 s2 (i + 1) len2
  end.

(** The offset of the result in [s1], or [None] for NULL. *)
(** src/builtin/stdlib.c:189-212 [strstr] *)
Definition strstr (s1 s2 : list Z) : option Z :=
  let len1 := strlen s1 in
  let len2 := strlen s2 in
  if (len1 =? 0) || (len2 =? 0) || (len1 <? len2) then None
  else strstr_from (Z.to_nat (len1 - len2 + 1)) s1 s2 0 len2.

(** src/builtin/stdlib.c:258-259 [isspace] *)
Fixpoint skip_space (s : list Z) : list Z :=
  match s with
  | [] => []
  | c :: s' => if isspace c then skip_space s' else s
  end.

(** src/builtin/stdlib.c:266-269 [isdigit] *)
Fixpoint atoi_loop (s : list Z) (result : Z) : Z :=
  match s with
  | [] => result
  | c :: s => if isdigit c then atoi_loop s (s32 (result * 10 + (c - 48))) else result
  end.

(** src/builtin/stdlib.c:252-272 [atoi] *)
Definition atoi (nptr : list Z) : Z :=
  let s := skip_space nptr in
  let '(neg, s) := if deref s =? 45 then (true, next s) else (false, s) in
  let result := atoi_loop s 0 in
  if neg then s32 (- result) else result.

(** ** String search *)

Lemma strlen_nonneg s : 0 <= strlen s.
Proof. induction s as [|c s IH]; simpl; [lia|]. destruct (c =? 0); lia. Qed.

Lemma char_at_strlen s : char_at s (strlen s) = 0.
Proof.
  unfold char_at. induction s as [|c s IH]; [done|]. cbn [strlen].
  destruct (Z.eqb_spec c 0) as [->|]; [done|].
  pose proof (strlen_nonneg s). rewrite Z2Nat.inj_add by lia. exact IH.
Qed.

Lemma char_at_nonzero s i : 0 <= i < strlen s -> char_at s i <> 0.
Proof.
  unfold char_at. revert i. induction s as [|c s IH]; intros i Hi; cbn [strlen] in Hi; [lia|].
  destruct (Z.eqb_spec c 0) as [->|]; [lia|].
  destruct (decide (i = 0)) as [->|]; [done|].
  replace (Z.to_nat i) with (S (Z.to_nat (i - 1))) by lia. apply IH. lia.
Qed.

Definition same_chars (s1 s2 : list Z) (i a b : Z) : bool :=
  forallb (fun k => char_at s1 (i + k) =? char_at s2 k) (seqZ a (b - a)).

Lemma same_chars_cons s1 s2 i a b :
  a < b -> same_chars s1 s2 i a b = (char_at s1 (i + a) =? char_at s2 a) && same_chars s1 s2 i (a + 1) b.
Proof.
  intros H. unfold same_chars. rewrite seqZ_cons by lia.
  replace (Z.pred (b - a)) with (b - (a + 1)) by lia. by rewrite Z.add_1_r.
Qed.
Lemma same_chars_nil s1 s2 i a b : b <= a -> same_chars s1 s2 i a b = true.
Proof. intros H. unfold same_chars. by rewrite seqZ_nil by lia. Qed.

(** The comparison stops on the terminator exactly when all the needle's
    characters but the last agree. *)
Lemma strstr_compare_end fuel : forall s1 s2 i q,
  1 <= q <= strlen s2 -> strlen s2 - q <= Z.of_nat fuel ->
  (char_at s2 (strstr_compare fuel s1 s2 (i + q) q (strlen s2)) =? 0)
  = same_chars s1 s2 i q (strlen s2 - 1).
Proof.
  induction fuel as [|fuel IH]; intros s1 s2 i q Hq Hf; simpl.
  - replace q with (strlen s2) by lia. rewrite char_at_strlen, same_chars_nil by lia. done.
  - destruct (Z.ltb_spec q (strlen s2)).
    2:{ replace q with (strlen s2) by lia. rewrite char_at_strlen, same_chars_nil by lia. done. }
    destruct (decide (q = strlen s2 - 1)) as [E|E].
    + rewrite same_chars_nil by lia.
      destruct (Z.eqb_spec (char_at s1 (i + q)) (char_at s2 q)); simpl.
      * replace (i + q + 1) with (i + (q + 1)) by lia. rewrite IH by lia. apply same_chars_nil. lia.
      * replace (q + 1) with (strlen s2) by lia. by rewrite char_at_strlen.
    + rewrite same_chars_cons by lia.
      destruct (Z.eqb_spec (char_at s1 (i + q)) (char_at s2 q)); simpl.
      * replace (i + q + 1) with (i + (q + 1)) by lia. apply IH; lia.
      * apply Z.eqb_neq, char_at_nonzero. lia.
Qed.

Lemma strstr_from_find s1 s2 n : forall i,
  1 <= strlen s2 ->
  strstr_from n s1 s2 i (strlen s2) =
    List.find (fun i => same_chars s1 s2 i 0 (Z.max 1 (strlen s2 - 1))) (seqZ i (Z.of_nat n)).
Proof.
  induction n as [|n IH]; intros i Hl; [done|].
  rewrite seqZ_cons by lia. replace (Z.pred (Z.of_nat (S n))) with (Z.of_nat n) by lia.
  cbn [strstr_from List.find]. rewrite IH by done. rewrite <- Z.add_1_r.
  rewrite strstr_compare_end by lia.
  rewrite (same_chars_cons s1 s2 i 0) by lia. rewrite Z.add_0_r.
  replace (same_chars s1 s2 i (0 + 1) (Z.max 1 (strlen s2 - 1)))
    with (same_chars s1 s2 i 1 (strlen s2 - 1)); [done|].
  destruct (decide (1 < strlen s2 - 1)).
  - by replace (Z.max 1 (strlen s2 - 1)) with (strlen s2 - 1) by lia.
  - rewrite !same_chars_nil by lia. done.
Qed.

(** [strstr] returns the first offset at which all characters of the
    needle but the last agree (the first one alone for a needle of length one):
    the [*q] test after the loop does not see a mismatch in the last character.
    Hence it returns NULL only when the needle does not occur, but it can
    return an offset where the needle does not occur. *)
Theorem strstr_behaviour :
  (forall s1 s2, 1 <= strlen s2 <= strlen s1 ->
     strstr s1 s2 =
       List.find (fun i => same_chars s1 s2 i 0 (Z.max 1 (strlen s2 - 1)))
         (seqZ 0 (strlen s1 - strlen s2 + 1))) /\
  (forall s1 s2 i, 1 <= strlen s2 -> 0 <= i -> i + strlen s2 <= strlen s1 ->
     same_chars s1 s2 i 0 (strlen s2) = true -> exists j, strstr s1 s2 = Some j /\ 0 <= j <= i) /\
  (exists s1 s2, strstr s1 s2 = Some 0 /\ same_chars s1 s2 0 0 (strlen s2) = false).
Proof.
  assert (H1 : forall s1 s2, 1 <= strlen s2 <= strlen s1 -> strstr s1 s2 =
       List.find (fun i => same_chars s1 s2 i 0 (Z.max 1 (strlen s2 - 1)))
         (seqZ 0 (strlen s1 - strlen s2 + 1))).
  { intros s1 s2 H. unfold strstr.
    destruct (Z.eqb_spec (strlen s1) 0), (Z.eqb_spec (strlen s2) 0),
      (Z.ltb_spec (strlen s1) (strlen s2)); simpl; try lia.
    rewrite strstr_from_find by lia. by rewrite Z2Nat.id by lia. }
  split_and!; [exact H1| |].
  - intros s1 s2 i Hl Hi Hle Hm. rewrite H1 by lia.
    assert (Hp : same_chars s1 s2 i 0 (Z.max 1 (strlen s2 - 1)) = true).
    { unfold same_chars in *. rewrite forallb_forall in Hm |- *. intros k Hk. apply Hm.
      rewrite <- list_elem_of_In, elem_of_seqZ in Hk |- *. lia. }
    assert (Hgen : forall n a, a <= i < a + Z.of_nat n -> exists j,
      List.find (fun i => same_chars s1 s2 i 0 (Z.max 1 (strlen s2 - 1))) (seqZ a (Z.of_nat n)) = Some j
      /\ a <= j <= i).
    { induction n as [|n IH]; intros a Ha; [lia|].
      rewrite seqZ_cons by lia. replace (Z.pred (Z.of_nat (S n))) with (Z.of_nat n) by lia.
      cbn [List.find]. destruct (same_chars s1 s2 a 0 _) eqn:E; [exists a; split; [done|lia]|].
      destruct (decide (a = i)) as [->|]; [by rewrite Hp in E|].
      destruct (IH (Z.succ a)) as (j & Hj & ?); [lia|]. exists j. split; [done|lia]. }
    rewrite <- (Z2Nat.id (strlen s1 - strlen s2 + 1)) by lia. apply Hgen. lia.
  - exists [97; 98; 0], [97; 99; 0]. done.
Qed.

Lemma strstr_behaviour_witness :
  exists j, strstr [120; 97; 98; 99; 0] [98; 99; 0] = Some j /\ 0 <= j <= 2.
Proof. apply (proj1 (proj2 strstr_behaviour)); done. Defined.

End Str.
