(* ===== verification/Base32.v ===== *)
(** * Base-32 text encoding with CRC-5 groups (common/base32.c)

    Used to hand out and read back recovery and debug challenge strings.  The
    encoder and the decoder are translated loop by loop; strings are arrays of
    character codes ended by a 0 entry, and both routines work on a destination
    array.  The theorems: the encoder's exact output and bounds, the round trip
    (with separators inserted anywhere), and detection of every one-symbol
    substitution when CRC groups are used. *)

From S2P Require Import Prelude Libc.
Import Str (isspace).

Module Base32.

(** src/common/base32.c:12-14 [crc5_table1] *)
Definition crc5_table1 : list Z :=
  [0x00; 0x0E; 0x1C; 0x12; 0x11; 0x1F; 0x0D; 0x03; 0x0B; 0x05; 0x17; 0x19; 0x1A; 0x14; 0x06; 0x08].

(** src/common/base32.c:16-18 [crc5_table0] *)
Definition crc5_table0 : list Z :=
  [0x00; 0x16; 0x05; 0x13; 0x0A; 0x1C; 0x0F; 0x19; 0x14; 0x02; 0x11; 0x07; 0x1E; 0x08; 0x1B; 0x0D].

(** src/common/base32.c:20-24 [crc5_sym] *)
Definition crc5_sym (sym previous_crc : Z) : Z :=
  let tmp := Z.lxor sym previous_crc in
  Z.lxor (aget crc5_table1 (Z.land tmp 0x0F)) (aget crc5_table0 (Z.land (Z.shiftr tmp 4) 0x0F)).

(** The string "ABCDEFGHJKLMNPQRSTUVWXYZ23456789" and its terminator. *)
(** src/common/base32.c:26-27 [base32_map] *)
Definition base32_map : list Z :=
  [65; 66; 67; 68; 69; 70; 71; 72; 74; 75; 76; 77; 78; 80; 81; 82; 83; 84; 85; 86; 87; 88; 89; 90;
   50; 51; 52; 53; 54; 55; 56; 57; 0].

(** The search loop, from index [i] for [n] more iterations. *)
(** src/common/base32.c:39-44 [decode_sym] *)
Fixpoint decode_sym_from (n : nat) (i sym : Z) : Z :=
  match n with
  | O => -1
  | S n => if sym =? aget base32_map i then i else decode_sym_from n (i + 1) sym
  end.

(** src/common/base32.c:29-45 [decode_sym] *)
Definition decode_sym (sym : Z) : Z := decode_sym_from 32 0 sym.

(** ** The encoder *)

(** The symbol extracted at bit [i] of the source. *)
(** src/common/base32.c:71-91 [base32_encode] *)
Definition encode_symbol (src : list Z) (srclen_bits i : Z) : Z :=
  let sidx := i / 8 in
  let bit_offs := i mod 8 in
  let sym :=
    if bit_offs <=? 3 then Z.shiftr (aget src sidx) (3 - bit_offs)
    else
      let sym := Z.shiftl (aget src sidx) (bit_offs - 3) in
      if i + 1 <? srclen_bits then Z.lor sym (Z.shiftr (aget src (sidx + 1)) (11 - bit_offs))
      else sym in
  let sym := Z.land sym 0x1f in
  if srclen_bits - i <? 5 then Z.land sym (Z.shiftl 0x1f (5 + i - srclen_bits)) else sym.

(** Locals of the encoder's loop. *)
(** src/common/base32.c:52-54 [crc_count] *)
Record enc_state := EncState { e_dest : list Z; e_didx : Z; e_crc : Z; e_crc_count : Z }.

(** One iteration at bit [i]. *)
(** src/common/base32.c:70-103 [base32_encode] *)
Definition encode_step (src : list Z) (srclen_bits add_crc_every i : Z) (s : enc_state) : enc_state :=
  let sym := encode_symbol src srclen_bits i in
  let dest := aset (e_dest s) (e_didx s) (aget base32_map sym) in
  let didx := e_didx s + 1 in
  if bool_of_Z add_crc_every then
    let crc := crc5_sym sym (e_crc s) in
    let crc_count := e_crc_count s + 1 in
    if crc_count =? add_crc_every
    then EncState (aset dest didx (aget base32_map crc)) (didx + 1) 0 0
    else EncState dest didx crc crc_count
  else EncState dest didx (e_crc s) (e_crc_count s).

(** The loop runs once for each [i = 0, 5, 10, ...] below [srclen_bits]. *)
(** src/common/base32.c:70-70 [srclen_bits] *)
Definition symbol_count (srclen_bits : Z) : Z := (srclen_bits + 4) / 5.

(** src/common/base32.c:47-108 [base32_encode] *)
Definition base32_encode (dest : list Z) (destlen_chars : Z) (src : list Z)
    (srclen_bits add_crc_every : Z) : list Z * ec_error :=
  let dest := aset dest 0 0 in
  let destlen_needed := Z.quot (srclen_bits + 4) 5 in
  if bool_of_Z add_crc_every && bool_of_Z (Z.rem destlen_needed add_crc_every)
  then (dest, EC_ERROR_INVAL)
  else
    let destlen_needed :=
      if bool_of_Z add_crc_every then destlen_needed + Z.quot destlen_needed add_crc_every
      else destlen_needed in
    let destlen_needed := destlen_needed + 1 in
    if destlen_chars <? destlen_needed then (dest, EC_ERROR_INVAL)
    else
      let s := fold_left (fun s k => encode_step src srclen_bits add_crc_every (5 * k) s)
                 (seqZ 0 (symbol_count srclen_bits)) (EncState dest 0 0 0) in
      (aset (e_dest s) (e_didx s) 0, EC_SUCCESS).

(** ** The decoder *)

(** Locals of the decoder's loop. *)
(** src/common/base32.c:113-114 [out_bits] *)
Record dec_state := DecState { d_dest : list Z; d_out_bits : Z; d_crc : Z; d_crc_count : Z }.

(** How the loop body ends. *)
Inductive dec_next := Continue (s : dec_state) | Break (s : dec_state) | Fail (dest : list Z).

(** Appending [sym] at bit [out_bits] of the destination. *)
(** src/common/base32.c:146-164 [base32_decode] *)
Definition decode_put (dest : list Z) (out_bits destlen_bits sym : Z) : list Z * Z :=
  let sbits := Z.min 5 (destlen_bits - out_bits) in
  let sym := if sbits <? 5 then Z.shiftr sym (5 - sbits) else sym in
  let dbits := 8 - Z.land out_bits 7 in
  let b := Z.min dbits sbits in
  let dest := if dbits =? 8 then aset dest (out_bits / 8) 0 else dest in
  let dest := aset dest (out_bits / 8)
    (u8 (Z.lor (aget dest (out_bits / 8)) (Z.shiftr (Z.shiftl sym (dbits - b)) (sbits - b)))) in
  let out_bits := out_bits + b in
  let sbits := sbits - b in
  if 0 <? sbits
  then (aset dest (out_bits / 8) (u8 (Z.shiftl sym (8 - sbits))), out_bits + sbits)
  else (dest, out_bits).

(** src/common/base32.c:116-165 [base32_decode] *)
Definition decode_step (destlen_bits crc_after_every c : Z) (s : dec_state) : dec_next :=
  if isspace c || (c =? 45) then Continue s
  else
    let sym := decode_sym c in
    if sym <? 0 then Fail (d_dest s)
    else if bool_of_Z crc_after_every && (d_crc_count s =? crc_after_every) then
      if d_crc s =? sym then Continue (DecState (d_dest s) (d_out_bits s) 0 0)
      else Fail (d_dest s)
    else
      let '(crc, crc_count) :=
        if bool_of_Z crc_after_every then (crc5_sym sym (d_crc s), d_crc_count s + 1)
        else (d_crc s, d_crc_count s) in
      if destlen_bits <=? d_out_bits s then Break (DecState (d_dest s) (d_out_bits s) crc crc_count)
      else
        let '(dest, out_bits) := decode_put (d_dest s) (d_out_bits s) destlen_bits sym in
        Continue (DecState dest out_bits crc crc_count).

(** src/common/base32.c:116-171 [base32_decode] *)
Fixpoint decode_loop (destlen_bits crc_after_every : Z) (src : list Z) (s : dec_state)
    : list Z * Z :=
  let finish s :=
    if bool_of_Z crc_after_every && bool_of_Z (d_crc_count s) then (d_dest s, -1)
    else (d_dest s, d_out_bits s) in
  match src with
  | [] => finish s
  | c :: src =>
    if c =? 0 then finish s
    else match decode_step destlen_bits crc_after_every c s with
         | Continue s => decode_loop destlen_bits crc_after_every src s
         | Break s => finish s
         | Fail dest => (dest, -1)
         end
  end.

(** The updated destination and the returned bit count or -1. *)
(** src/common/base32.c:110-172 [base32_decode] *)
Definition base32_decode (dest : list Z) (destlen_bits : Z) (src : list Z) (crc_after_every : Z)
    : list Z * Z :=
  decode_loop destlen_bits crc_after_every src (DecState dest 0 0 0).

(** ** Bit streams *)

(** Bit [p] of a byte array, most significant bit of each byte first. *)
Definition bit_at (l : list Z) (p : Z) : bool := Z.testbit (aget l (p / 8)) (7 - p mod 8).

Lemma bit_at_aset l q v p :
  0 <= q < Z.of_nat (length l) -> 0 <= p ->
  bit_at (aset l q v) p = if p / 8 =? q then Z.testbit v (7 - p mod 8) else bit_at l p.
Proof.
  intros Hq Hp. unfold bit_at. assert (0 <= p / 8) by (apply Z.div_pos; lia).
  rewrite (aget_aset l q (p / 8) v) by lia. by destruct (_ =? _).
Qed.

(** The [k]-th 5-bit symbol of the first [n] bits of [src], zero-padded. *)
Definition spec_symbol (src : list Z) (n k : Z) : Z :=
  fold_left (fun acc j => 2 * acc + Z_of_bool ((5 * k + j <? n) && bit_at src (5 * k + j)))
    (seqZ 0 5) 0.

Lemma pos_in_byte i j : 0 <= i -> 0 <= j -> i mod 8 + j < 8 ->
  (i + j) / 8 = i / 8 /\ (i + j) mod 8 = i mod 8 + j.
Proof. intros. divlia. Qed.
Lemma pos_in_next i j : 0 <= i -> j < 8 -> 8 <= i mod 8 + j ->
  (i + j) / 8 = i / 8 + 1 /\ (i + j) mod 8 = i mod 8 + j - 8.
Proof. intros. divlia. Qed.

Lemma testbit_31 k : 0 <= k < 5 -> Z.testbit 31 k = true.
Proof.
  intros. assert (k = 0 \/ k = 1 \/ k = 2 \/ k = 3 \/ k = 4) as H' by lia.
  by destruct H' as [->|[->|[->|[->| ->]]]].
Qed.

(** The bits the encoder extracts, before padding. *)
Lemma raw_symbol_bits src n i j :
  is_bytes src -> 0 <= i < n -> 0 <= j < 5 -> i + j < n ->
  Z.testbit
    (if i mod 8 <=? 3 then Z.shiftr (aget src (i / 8)) (3 - i mod 8)
     else if i + 1 <? n
          then Z.lor (Z.shiftl (aget src (i / 8)) (i mod 8 - 3))
                 (Z.shiftr (aget src (i / 8 + 1)) (11 - i mod 8))
          else Z.shiftl (aget src (i / 8)) (i mod 8 - 3)) (4 - j) = bit_at src (i + j).
Proof.
  intros Hb Hi Hj Hn. unfold bit_at.
  assert (0 <= i mod 8 < 8) by (apply Z.mod_pos_bound; lia).
  destruct (Z.leb_spec (i mod 8) 3).
  - destruct (pos_in_byte i j) as [-> ->]; try lia.
    rewrite Z.shiftr_spec by lia. f_equal. lia.
  - destruct (Z.lt_ge_cases (i mod 8 + j) 8).
    + destruct (pos_in_byte i j) as [-> ->]; try lia.
      destruct (_ <? _); rewrite ?Z.lor_spec, Z.shiftl_spec by lia.
      * rewrite Z.shiftr_spec by lia.
        rewrite (bits_above 8 (aget src (i / 8 + 1))) by (try apply aget_range; done || lia).
        rewrite orb_false_r. f_equal. lia.
      * f_equal. lia.
    + destruct (pos_in_next i j) as [-> ->]; try lia.
      destruct (Z.ltb_spec (i + 1) n); [|lia].
      rewrite Z.lor_spec, Z.shiftl_spec, Z.shiftr_spec by lia.
      rewrite (Z.testbit_neg_r (aget src (i / 8))) by lia. simpl. f_equal. lia.
Qed.

Lemma encode_symbol_bits src n i j :
  is_bytes src -> 0 <= i < n -> 0 <= j < 5 ->
  Z.testbit (encode_symbol src n i) (4 - j) = (i + j <? n) && bit_at src (i + j).
Proof.
  intros Hb Hi Hj. unfold encode_symbol.
  set (raw := if i mod 8 <=? 3 then _ else _).
  assert (Hr : i + j < n -> Z.testbit raw (4 - j) = bit_at src (i + j)).
  { intros. exact (raw_symbol_bits src n i j Hb Hi Hj ltac:(assumption)). }
  destruct (Z.ltb_spec (n - i) 5); [|rewrite Z.land_spec, testbit_31, andb_true_r by lia].
  - rewrite !Z.land_spec, testbit_31, andb_true_r, Z.shiftl_spec by lia.
    destruct (Z.ltb_spec (i + j) n).
    + rewrite testbit_31, andb_true_r, Hr by lia. done.
    + rewrite (Z.testbit_neg_r 31) by lia. by rewrite andb_false_r.
  - rewrite Hr by lia. by destruct (Z.ltb_spec (i + j) n); [|lia].
Qed.

Lemma encode_symbol_range src n i : in_range 5 (encode_symbol src n i).
Proof.
  unfold encode_symbol. set (raw := if i mod 8 <=? 3 then _ else _).
  assert (in_range 5 (Z.land raw 31)).
  { change 31 with (2 ^ 5 - 1). rewrite land_mask by lia. apply wrap_range. lia. }
  destruct (Z.ltb_spec (n - i) 5); [|done].
  apply land_range; try (done || lia). apply Z.shiftl_nonneg. lia.
Qed.

(** 5-bit numbers with equal bits are equal. *)
Lemma eq_5bits x y :
  in_range 5 x -> in_range 5 y ->
  (forall j, 0 <= j < 5 -> Z.testbit x (4 - j) = Z.testbit y (4 - j)) -> x = y.
Proof.
  intros Hx Hy H. apply Z.bits_inj'. intros k Hk. destruct (Z.lt_ge_cases k 5).
  - specialize (H (4 - k)). replace (4 - (4 - k)) with k in H by lia. apply H. lia.
  - by rewrite !(bits_above 5) by (done || lia).
Qed.

Definition five (b0 b1 b2 b3 b4 : bool) : Z :=
  2 * (2 * (2 * (2 * (2 * 0 + Z_of_bool b0) + Z_of_bool b1) + Z_of_bool b2) + Z_of_bool b3)
  + Z_of_bool b4.
Lemma five_range b0 b1 b2 b3 b4 : in_range 5 (five b0 b1 b2 b3 b4).
Proof. by destruct b0, b1, b2, b3, b4. Qed.
Lemma five_bits (f : Z -> bool) j :
  0 <= j < 5 -> Z.testbit (five (f 0) (f 1) (f 2) (f 3) (f 4)) (4 - j) = f j.
Proof.
  intros. assert (j = 0 \/ j = 1 \/ j = 2 \/ j = 3 \/ j = 4) as H' by lia.
  destruct H' as [->|[->|[->|[->| ->]]]];
    by destruct (f 0), (f 1), (f 2), (f 3), (f 4).
Qed.

Lemma encode_symbol_spec src n k :
  is_bytes src -> 0 <= k -> 5 * k < n -> encode_symbol src n (5 * k) = spec_symbol src n k.
Proof.
  intros Hb Hk Hn.
  change (spec_symbol src n k) with
    (let f := fun j => (5 * k + j <? n) && bit_at src (5 * k + j) in
     five (f 0) (f 1) (f 2) (f 3) (f 4)).
  cbv zeta. apply eq_5bits; [apply encode_symbol_range|apply five_range|].
  intros j Hj. rewrite encode_symbol_bits by (done || lia).
  rewrite (five_bits (fun j => (5 * k + j <? n) && bit_at src (5 * k + j)) j Hj). done.
Qed.

(** ** The encoder's output *)

(** The text of a list of symbols, with a CRC symbol after every [every]. *)
Fixpoint enc_text (every crc count : Z) (syms : list Z) : list Z :=
  match syms with
  | [] => []
  | sym :: syms =>
    aget base32_map sym ::
    (if bool_of_Z every then
       if count + 1 =? every
       then aget base32_map (crc5_sym sym crc) :: enc_text every 0 0 syms
       else enc_text every (crc5_sym sym crc) (count + 1) syms
     else enc_text every crc count syms)
  end.

Definition spec_text (src : list Z) (n every : Z) : list Z :=
  enc_text every 0 0 (spec_symbol src n <$> seqZ 0 (symbol_count n)).

Lemma encode_loop_text (src : list Z) (n every : Z) (ks : list Z) : forall pre rest crc count,
  (length (enc_text every crc count (encode_symbol src n <$> (Z.mul 5 <$> ks)))
     <= length rest)%nat ->
  let text := enc_text every crc count (encode_symbol src n <$> (Z.mul 5 <$> ks)) in
  let s := fold_left (fun s k => encode_step src n every (5 * k) s) ks
             (EncState (pre ++ rest) (Z.of_nat (length pre)) crc count) in
  e_dest s = pre ++ text ++ drop (length text) rest /\
  e_didx s = Z.of_nat (length (pre ++ text)).
Proof.
  induction ks as [|k ks IH]; intros pre rest crc count Hlen.
  { cbv zeta. simpl. by rewrite app_nil_r. }
  cbn [fmap list_fmap enc_text length] in Hlen. cbv zeta.
  cbn [fold_left fmap list_fmap enc_text]. unfold encode_step at 2 4.
  destruct rest as [|x rest]; [simpl in Hlen; lia|].
  cbn [e_dest e_didx e_crc e_crc_count]. rewrite aset_app by done.
  set (sym := encode_symbol src n (5 * k)) in *.
  assert (Hl1 : Z.of_nat (length pre) + 1 = Z.of_nat (length (pre ++ [aget base32_map sym])))
    by (rewrite length_app; simpl; lia).
  assert (Hgo : forall pre' rest' crc' count' t,
    t = enc_text every crc' count' (encode_symbol src n <$> (Z.mul 5 <$> ks)) ->
    (length t <= length rest')%nat ->
    let s := fold_left (fun s k => encode_step src n every (5 * k) s) ks
               (EncState (pre' ++ rest') (Z.of_nat (length pre')) crc' count') in
    e_dest s = pre' ++ t ++ drop (length t) rest' /\
    e_didx s = Z.of_nat (length (pre' ++ t))) by (intros; subst; by apply IH).
  cbv zeta in Hgo. clear IH. rewrite Hl1.
  destruct (bool_of_Z every); [destruct (count + 1 =? every)|].
  - destruct rest as [|y rest]; [simpl in Hlen; lia|].
    set (c := aget base32_map (crc5_sym sym crc)).
    replace (Z.of_nat (length (pre ++ [aget base32_map sym])) + 1)
      with (Z.of_nat (length ((pre ++ [aget base32_map sym]) ++ [c])))
      by (rewrite !length_app; simpl; lia).
    rewrite aset_app by done.
    destruct (Hgo ((pre ++ [aget base32_map sym]) ++ [c]) rest 0 0 _ eq_refl) as [-> ->].
    { simpl in Hlen; lia. }
    split; rewrite <- !app_assoc; done.
  - destruct (Hgo (pre ++ [aget base32_map sym]) rest (crc5_sym sym crc) (count + 1) _ eq_refl)
      as [-> ->]; [simpl in Hlen; lia|]. split; rewrite <- !app_assoc; done.
  - destruct (Hgo (pre ++ [aget base32_map sym]) rest crc count _ eq_refl)
      as [-> ->]; [simpl in Hlen; lia|]. split; rewrite <- !app_assoc; done.
Qed.

Lemma length_enc_text every syms : forall crc count,
  0 <= count < every ->
  Z.of_nat (length (enc_text every crc count syms)) =
    Z.of_nat (length syms) + (count + Z.of_nat (length syms)) / every.
Proof.
  induction syms as [|sym syms IH]; intros crc count Hc.
  - simpl. rewrite Z.add_0_r, Z.div_small by lia. done.
  - cbn [enc_text]. assert (bool_of_Z every = true) as -> by (unfold bool_of_Z; lia).
    destruct (Z.eqb_spec (count + 1) every); cbn [length]; rewrite !Nat2Z.inj_succ, IH by lia.
    + replace (count + Z.succ (Z.of_nat (length syms)))
        with (Z.of_nat (length syms) + 1 * every) by lia.
      rewrite Z.div_add by lia. rewrite Z.add_0_l. lia.
    + replace (count + Z.succ (Z.of_nat (length syms)))
        with (count + 1 + Z.of_nat (length syms)) by lia. lia.
Qed.

Lemma length_enc_text_0 syms crc count : length (enc_text 0 crc count syms) = length syms.
Proof. revert crc count. induction syms; intros; simpl; auto. Qed.

Lemma symbols_eq src n :
  is_bytes src -> 0 <= n ->
  encode_symbol src n <$> (Z.mul 5 <$> seqZ 0 (symbol_count n)) =
  spec_symbol src n <$> seqZ 0 (symbol_count n).
Proof.
  intros Hb Hn. rewrite <- list_fmap_compose. apply seqZ_fmap_ext. intros k Hk.
  apply encode_symbol_spec; try done; try lia. unfold symbol_count in Hk. divlia.
Qed.

(** Symbols and characters the destination must hold. *)
Definition chars_needed (n every : Z) : Z :=
  let m := symbol_count n in if bool_of_Z every then m + m / every + 1 else m + 1.

Lemma length_spec_text src n every :
  0 <= n -> 0 <= every -> Z.of_nat (length (spec_text src n every)) + 1 = chars_needed n every.
Proof.
  intros Hn He. unfold spec_text, chars_needed.
  assert (0 <= symbol_count n) by (unfold symbol_count; divlia).
  destruct (Z.eqb_spec every 0) as [->|].
  - rewrite length_enc_text_0. simpl. lens.
  - assert (bool_of_Z every = true) as -> by (unfold bool_of_Z; lia).
    rewrite length_enc_text by lia. rewrite length_fmap, length_seqZ, Z2Nat.id by lia. done.
Qed.

(** [base32_encode] fails exactly when the symbols do not fill the CRC
    groups or the destination is too small, and then it only writes an empty
    string; otherwise it writes the text of the source's 5-bit symbols (most
    significant bit first, zero-padded, a CRC symbol closing every group) and
    a terminator, and nothing beyond [destlen_chars]. *)
Theorem base32_encode_correct dest destlen src n every :
  is_bytes src -> 0 <= n -> 0 <= every -> 1 <= destlen <= Z.of_nat (length dest) ->
  base32_encode dest destlen src n every =
    if (bool_of_Z every && bool_of_Z (symbol_count n mod every)) || (destlen <? chars_needed n every)
    then (aset dest 0 0, EC_ERROR_INVAL)
    else (spec_text src n every ++ 0 :: drop (length (spec_text src n every) + 1) dest, EC_SUCCESS).
Proof.
  intros Hb Hn He Hd. unfold base32_encode.
  assert (Hm : Z.quot (n + 4) 5 = symbol_count n) by (unfold symbol_count; divlia).
  rewrite Hm. assert (0 <= symbol_count n) by (unfold symbol_count; divlia).
  assert (Hrem : bool_of_Z every && bool_of_Z (Z.rem (symbol_count n) every)
    = bool_of_Z every && bool_of_Z (symbol_count n mod every)).
  { unfold bool_of_Z. destruct (Z.eqb_spec every 0); [done|]. by rewrite Z.rem_mod_nonneg by lia. }
  rewrite Hrem. destruct (bool_of_Z every && bool_of_Z (symbol_count n mod every)); [done|]. simpl orb.
  assert (Hch : (if bool_of_Z every then symbol_count n + Z.quot (symbol_count n) every
                 else symbol_count n) + 1 = chars_needed n every).
  { unfold chars_needed, bool_of_Z. destruct (Z.eqb_spec every 0); [done|]. simpl.
    by rewrite Z.quot_div_nonneg by lia. }
  rewrite Hch. destruct (Z.ltb_spec destlen (chars_needed n every)); [done|].
  pose proof (length_spec_text src n every Hn He) as Hlt.
  assert (Hlen : length (aset dest 0 0) = length dest) by apply length_insert.
  pose proof (encode_loop_text src n every (seqZ 0 (symbol_count n)) [] (aset dest 0 0) 0 0) as HL.
  rewrite (symbols_eq src n Hb Hn) in HL. fold (spec_text src n every) in HL.
  cbv zeta in HL. cbn [app length] in HL. change (Z.of_nat 0) with 0 in HL. destruct HL as [-> ->]; [lia|]. f_equal.
  destruct (drop (length (spec_text src n every)) (aset dest 0 0)) as [|x rest] eqn:E.
  { apply (f_equal length) in E. rewrite length_drop in E. simpl in E. lia. }
  rewrite aset_app by done. rewrite <- app_assoc. f_equal. f_equal.
  apply (f_equal (drop 1)) in E. rewrite drop_drop in E. simpl in E. rewrite drop_0 in E.
  rewrite <- E. unfold aset. rewrite drop_insert_lt by lia. done.
Qed.

Definition challenge : list Z := [0xFF; 0x01; 0xA5].

Lemma base32_encode_correct_witness :
  base32_encode (replicate 8 7) 8 challenge 24 5 =
  (spec_text challenge 24 5 ++ 0 :: drop (length (spec_text challenge 24 5) + 1) (replicate 8 7),
   EC_SUCCESS).
Proof.
  rewrite (base32_encode_correct (replicate 8 7) 8 challenge 24 5); [done|concrete_range|..];
    simpl; lia.
Defined.

(** The encoder reads the byte after the last source byte when
    [bit_offs + bits left <= 8] (its test is [i + 1 < srclen_bits]); the extra
    bits are masked off again: the text does not depend on what is there. *)
Lemma encode_ignores_trailing src junk n k :
  is_bytes (src ++ junk) -> 0 <= k -> 5 * k < n -> n <= 8 * Z.of_nat (length src) ->
  encode_symbol (src ++ junk) n (5 * k) = encode_symbol src n (5 * k).
Proof.
  intros Hb Hk Hn Hl. assert (is_bytes src) by (by (apply is_bytes_app in Hb as [? _])).
  rewrite !encode_symbol_spec by done. unfold spec_symbol.
  assert (Hj : forall j, 0 <= j ->
    (5 * k + j <? n) && bit_at (src ++ junk) (5 * k + j) = (5 * k + j <? n) && bit_at src (5 * k + j)).
  { intros j Hj. destruct (Z.ltb_spec (5 * k + j) n); [|done]. f_equal. unfold bit_at, aget.
    rewrite lookup_total_app_l; [done|]. divlia. }
  change (seqZ 0 5) with [0; 1; 2; 3; 4]. cbn [fold_left]. rewrite !Hj by lia. done.
Qed.

(** ** The decoder *)

Lemma decode_symbol_table :
  forallb (fun y => let c := aget base32_map y in
    (decode_sym c =? y) && negb (isspace c) && negb (c =? 45) && negb (c =? 0)) (seqZ 0 32) = true.
Proof. vm_compute. reflexivity. Qed.

Lemma decode_symbol y :
  in_range 5 y -> let c := aget base32_map y in
  decode_sym c = y /\ isspace c || (c =? 45) = false /\ c <> 0.
Proof.
  intros Hy c. pose proof (forall_below 32 _ decode_symbol_table y Hy) as H.
  cbv beta zeta in H. fold c in H. clearbody c.
  destruct (isspace c), (Z.eqb_spec c 45), (Z.eqb_spec c 0), (Z.eqb_spec (decode_sym c) y);
    simpl in H; done.
Qed.

(** The bits the decoder writes into the current and into the next byte. *)
Lemma put_table :
  forallb (fun o => forallb (fun sb => forallb (fun sym => forallb (fun r =>
    let sym' := if sb <? 5 then Z.shiftr sym (5 - sb) else sym in
    let dbits := 8 - o in let b := Z.min dbits sb in
    Bool.eqb (Z.testbit (Z.shiftr (Z.shiftl sym' (dbits - b)) (sb - b)) (7 - r))
      ((o <=? r) && (r <? o + b) && Z.testbit sym (4 - (r - o))) &&
    ((sb <=? b) || Bool.eqb (Z.testbit (u8 (Z.shiftl sym' (8 - (sb - b)))) (7 - r))
      ((r <? sb - b) && Z.testbit sym (4 - (b + r)))))
    (seqZ 0 8)) (seqZ 0 32)) (seqZ 1 5)) (seqZ 0 8) = true.
Proof. vm_compute. reflexivity. Qed.

Lemma put_bits o sb sym r :
  0 <= o < 8 -> 1 <= sb <= 5 -> in_range 5 sym -> 0 <= r < 8 ->
  let sym' := if sb <? 5 then Z.shiftr sym (5 - sb) else sym in
  let dbits := 8 - o in let b := Z.min dbits sb in
  Z.testbit (Z.shiftr (Z.shiftl sym' (dbits - b)) (sb - b)) (7 - r) =
    ((o <=? r) && (r <? o + b) && Z.testbit sym (4 - (r - o))) /\
  (b < sb -> Z.testbit (u8 (Z.shiftl sym' (8 - (sb - b)))) (7 - r) =
    (r <? sb - b) && Z.testbit sym (4 - (b + r))).
Proof.
  intros Ho Hsb Hsym Hr sym' dbits b.
  pose proof (forall_below 8 _ put_table o Ho) as H. cbv beta in H.
  rewrite forallb_forall in H. specialize (H sb). rewrite <- list_elem_of_In, elem_of_seqZ in H.
  specialize (H ltac:(lia)). pose proof (forall_below 32 _ H sym Hsym) as H1. cbv beta in H1.
  pose proof (forall_below 8 _ H1 r Hr) as H2. cbv beta zeta in H2.
  fold sym' dbits b in H2. apply andb_true_iff in H2 as [H2 H3].
  apply eqb_prop in H2. split; [exact H2|]. intros Hlt.
  destruct (Z.leb_spec sb b); [lia|]. apply eqb_prop in H3. exact H3.
Qed.

(** The rest of the byte under construction is clear. *)
Definition clean (dest : list Z) (out : Z) : Prop :=
  forall p, out <= p -> p / 8 = out / 8 -> out mod 8 <> 0 -> bit_at dest p = false.

Lemma u8_testbit x k : 0 <= k < 8 -> Z.testbit (u8 x) k = Z.testbit x k.
Proof. intros. unfold wrap. apply Z.mod_pow2_bits_low. lia. Qed.

Lemma div8_eq p q : p / 8 = q <-> 8 * q <= p < 8 * q + 8.
Proof. split; intros; divlia. Qed.

(** What the destination holds after the current byte was updated. *)
Lemma put_first dest out n sym :
  0 <= out < n -> n <= 8 * Z.of_nat (length dest) -> in_range 5 sym -> clean dest out ->
  let sb := Z.min 5 (n - out) in let o := out mod 8 in let b := Z.min (8 - o) sb in
  let sym' := if sb <? 5 then Z.shiftr sym (5 - sb) else sym in
  let dest0 := if o =? 0 then aset dest (out / 8) 0 else dest in
  let dest1 := aset dest0 (out / 8) (u8 (Z.lor (aget dest0 (out / 8))
      (Z.shiftr (Z.shiftl sym' (8 - o - b)) (sb - b)))) in
  length dest1 = length dest /\
  forall p, 0 <= p -> bit_at dest1 p =
    if p / 8 =? out / 8 then
      if p <? out then bit_at dest p
      else (p <? out + b) && Z.testbit sym (4 - (p - out))
    else bit_at dest p.
Proof.
  intros Hout Hn Hsym Hcl sb o b sym' dest0 dest1.
  assert (Ho : 0 <= o < 8) by (apply Z.mod_pos_bound; lia).
  assert (Hq : out = 8 * (out / 8) + o) by (subst o; divlia).
  assert (Hlen0 : length dest0 = length dest)
    by (unfold dest0; destruct (o =? 0); [apply length_insert|done]).
  split; [unfold dest1, aset; by rewrite length_insert|].
  intros p Hp. unfold dest1. rewrite bit_at_aset by (rewrite ?Hlen0; divlia).
  destruct (Z.eqb_spec (p / 8) (out / 8)) as [He|Hne].
  - assert (Hpo : p = 8 * (out / 8) + p mod 8) by divlia.
    assert (0 <= p mod 8 < 8) by (apply Z.mod_pos_bound; lia).
    rewrite u8_testbit, Z.lor_spec by lia.
    destruct (put_bits o sb sym (p mod 8)) as [Hb _]; try (done || lia).
    cbv zeta in Hb. fold sym' b in Hb. rewrite Hb.
    replace (Z.testbit (aget dest0 (out / 8)) (7 - p mod 8)) with (bit_at dest0 p)
      by (unfold bit_at; by rewrite He).
    assert (Hd0 : bit_at dest0 p = if p <? out then bit_at dest p else false).
    { unfold dest0. destruct (Z.eqb_spec o 0).
      - rewrite bit_at_aset by (rewrite ?Hlen0; divlia). rewrite He, Z.eqb_refl, Z.testbit_0_l.
        destruct (Z.ltb_spec p out); [lia|done].
      - destruct (Z.ltb_spec p out); [done|]. by apply Hcl. }
    rewrite Hd0. destruct (Z.ltb_spec p out).
    + destruct (Z.leb_spec o (p mod 8)); [lia|]. simpl. by rewrite orb_false_r.
    + destruct (Z.leb_spec o (p mod 8)); [|lia]. simpl.
      replace (p mod 8 - o) with (p - out) by lia. f_equal.
      destruct (Z.ltb_spec (p mod 8) (o + b)), (Z.ltb_spec p (out + b)); lia.
  - unfold dest0. destruct (o =? 0); [|done].
    rewrite bit_at_aset by (rewrite ?Hlen0; divlia). by destruct (Z.eqb_spec (p / 8) (out / 8)).
Qed.

Lemma decode_put_spec dest out n sym :
  0 <= out < n -> n <= 8 * Z.of_nat (length dest) -> in_range 5 sym -> clean dest out ->
  let '(dest', out') := decode_put dest out n sym in
  out' = Z.min (out + 5) n /\ length dest' = length dest /\ clean dest' out' /\
  forall p, 0 <= p < out' ->
    bit_at dest' p = if p <? out then bit_at dest p else Z.testbit sym (4 - (p - out)).
Proof.
  intros Hout Hn Hsym Hcl. pose proof (put_first dest out n sym Hout Hn Hsym Hcl) as H1.
  unfold decode_put. change 7 with (2 ^ 3 - 1). rewrite land_mask by lia.
  change (wrap 3 out) with (out mod 8). cbv zeta in H1 |- *.
  replace (8 - out mod 8 =? 8) with (out mod 8 =? 0) by (destruct (Z.eqb_spec (out mod 8) 0); lia).
  set (sb := Z.min 5 (n - out)) in *. set (o := out mod 8) in *. set (b := Z.min (8 - o) sb) in *.
  set (sym' := if sb <? 5 then _ else _) in *. set (dest0 := if o =? 0 then _ else _) in *.
  set (dest1 := aset dest0 _ _) in *. destruct H1 as [Hl1 Hb1].
  assert (Ho : 0 <= o < 8) by (apply Z.mod_pos_bound; lia).
  assert (Hq : out = 8 * (out / 8) + o) by (subst o; divlia).
  destruct (Z.ltb_spec 0 (sb - b)) as [Hs|Hs].
  - assert (Hq2 : (out + b) / 8 = out / 8 + 1) by (apply div8_eq; lia).
    assert (Hlt : out / 8 + 1 < Z.of_nat (length dest1)) by lia.
    split_and!; [lia|unfold aset; rewrite length_insert; lia| |].
    + intros p Hp Hp8 _. rewrite bit_at_aset by lia. rewrite Hq2.
      assert (H8 : p / 8 = out / 8 + 1) by (rewrite Hp8; apply div8_eq; lia).
      rewrite H8, Z.eqb_refl. apply div8_eq in H8.
      assert (Hr : p mod 8 = p - 8 * (out / 8 + 1)) by divlia. rewrite Hr.
      destruct (put_bits o sb sym (p - 8 * (out / 8 + 1))) as [_ Hb]; try (done || lia).
      cbv zeta in Hb. fold sym' b in Hb. rewrite Hb by lia.
      destruct (Z.ltb_spec (p - 8 * (out / 8 + 1)) (sb - b)); [lia|done].
    + intros p Hp. rewrite bit_at_aset by lia. rewrite Hq2.
      destruct (Z.eqb_spec (p / 8) (out / 8 + 1)) as [H8|H8].
      * apply div8_eq in H8. assert (Hr : p mod 8 = p - 8 * (out / 8 + 1)) by divlia. rewrite Hr.
        destruct (put_bits o sb sym (p - 8 * (out / 8 + 1))) as [_ Hb]; try (done || lia).
        cbv zeta in Hb. fold sym' b in Hb. rewrite Hb by lia.
        destruct (Z.ltb_spec (p - 8 * (out / 8 + 1)) (sb - b)); [|lia].
        destruct (Z.ltb_spec p out); [lia|]. simpl. f_equal. lia.
      * rewrite Hb1 by lia. destruct (Z.eqb_spec (p / 8) (out / 8)) as [H9|H9].
        -- destruct (Z.ltb_spec p out); [done|]. apply div8_eq in H9.
           destruct (Z.ltb_spec p (out + b)); [done|lia].
        -- destruct (Z.ltb_spec p out); [done|]. exfalso. divlia.
  - split_and!; [lia|done| |].
    + intros p Hp Hp8 Hm. rewrite Hb1 by lia.
      assert (Hne : o + b <> 8).
      { intros E8. apply Hm. replace (out + b) with ((out / 8 + 1) * 8) by lia. apply Z.mod_mul. lia. }
      assert (Hx : (out + b) / 8 = out / 8) by (apply div8_eq; lia).
      rewrite Hp8, Hx, Z.eqb_refl. destruct (Z.ltb_spec p out); [lia|].
      destruct (Z.ltb_spec p (out + b)); [lia|done].
    + intros p Hp. rewrite Hb1 by lia. destruct (Z.eqb_spec (p / 8) (out / 8)) as [H9|H9].
      * destruct (Z.ltb_spec p out); [done|]. destruct (Z.ltb_spec p (out + b)); [done|lia].
      * destruct (Z.ltb_spec p out); [done|]. exfalso. divlia.
Qed.

Lemma spec_symbol_range src n k : in_range 5 (spec_symbol src n k).
Proof. exact (five_range _ _ _ _ _). Qed.

Lemma spec_symbol_bits src n k j :
  0 <= j < 5 -> Z.testbit (spec_symbol src n k) (4 - j) = (5 * k + j <? n) && bit_at src (5 * k + j).
Proof. exact (five_bits (fun j => (5 * k + j <? n) && bit_at src (5 * k + j)) j). Qed.

(** Separators are skipped. *)
Definition separator (c : Z) : bool := isspace c || (c =? 45).
Definition strip (text : list Z) : list Z := List.filter (fun c => negb (separator c)) text.

Lemma decode_strip n every text tail s :
  decode_loop n every (text ++ tail) s = decode_loop n every (strip text ++ tail) s.
Proof.
  revert s. induction text as [|c text IH]; intros s; [done|].
  unfold strip. cbn [List.filter]. fold (strip text). destruct (separator c) eqn:E; simpl negb.
  - cbn [app decode_loop]. unfold decode_step. fold (separator c). rewrite E.
    destruct (Z.eqb_spec c 0) as [->|]; [done|]. cbv iota. apply IH.
  - cbn [app decode_loop]. destruct (c =? 0); [done|].
    destruct (decode_step n every c s); [apply IH|done|done].
Qed.

(** One data symbol and, at the end of a group, its check symbol. *)
Lemma decode_data n every y text s :
  in_range 5 y -> (every <> 0 -> 0 <= d_crc_count s < every) -> d_out_bits s < n ->
  decode_loop n every (aget base32_map y :: text) s =
    let '(dest, out_bits) := decode_put (d_dest s) (d_out_bits s) n y in
    decode_loop n every text
      (DecState dest out_bits (if bool_of_Z every then crc5_sym y (d_crc s) else d_crc s)
        (if bool_of_Z every then d_crc_count s + 1 else d_crc_count s)).
Proof.
  intros Hy Hc Ho. destruct (decode_symbol y Hy) as (Hd & Hsp & Hnz).
  cbn [decode_loop]. destruct (Z.eqb_spec (aget base32_map y) 0); [done|].
  unfold decode_step. rewrite Hsp, Hd. destruct (Z.ltb_spec y 0); [destruct Hy; lia|].
  replace (bool_of_Z every && (d_crc_count s =? every)) with false
    by (unfold bool_of_Z; destruct (Z.eqb_spec every 0), (Z.eqb_spec (d_crc_count s) every);
        simpl; lia).
  destruct (Z.leb_spec n (d_out_bits s)); [lia|].
  destruct (bool_of_Z every); by destruct (decode_put _ _ _ _).
Qed.

Lemma decode_check n every y text s :
  in_range 5 y -> every <> 0 -> d_crc_count s = every ->
  decode_loop n every (aget base32_map y :: text) s =
    if d_crc s =? y then decode_loop n every text (DecState (d_dest s) (d_out_bits s) 0 0)
    else (d_dest s, -1).
Proof.
  intros Hy He Hc. destruct (decode_symbol y Hy) as (Hd & Hsp & Hnz).
  cbn [decode_loop]. destruct (Z.eqb_spec (aget base32_map y) 0); [done|].
  unfold decode_step. rewrite Hsp, Hd. destruct (Z.ltb_spec y 0); [destruct Hy; lia|].
  rewrite Hc, Z.eqb_refl. assert (bool_of_Z every = true) as -> by (unfold bool_of_Z; lia).
  cbn [andb]. by destruct (d_crc s =? y).
Qed.

Lemma crc5_table :
  forallb (fun t => let v := Z.lxor (aget crc5_table1 (Z.land t 0x0F))
      (aget crc5_table0 (Z.land (Z.shiftr t 4) 0x0F)) in (0 <=? v) && (v <? 2 ^ 5)) (seqZ 0 32) = true.
Proof. vm_compute. reflexivity. Qed.

Lemma crc5_range y c : in_range 5 y -> in_range 5 c -> in_range 5 (crc5_sym y c).
Proof.
  intros Hy Hc. pose proof (forall_below 32 _ crc5_table (Z.lxor y c)) as H.
  specialize (H (lxor_range 5 y c ltac:(lia) Hy Hc)). cbv beta zeta in H.
  unfold crc5_sym, in_range. lia.
Qed.

Lemma crc5_inj_table :
  (let f := fun t => Z.lxor (aget crc5_table1 (Z.land t 0x0F))
      (aget crc5_table0 (Z.land (Z.shiftr t 4) 0x0F)) in
   let t := f <$> seqZ 0 32 in forallb (fun x => index_of (f x) t =? x) (seqZ 0 32)) = true.
Proof. vm_compute. reflexivity. Qed.

Lemma crc5_inj y1 c1 y2 c2 :
  in_range 5 y1 -> in_range 5 c1 -> in_range 5 y2 -> in_range 5 c2 ->
  crc5_sym y1 c1 = crc5_sym y2 c2 -> Z.lxor y1 c1 = Z.lxor y2 c2.
Proof.
  intros Hy1 Hc1 Hy2 Hc2. apply (inj_by_table 32 _ crc5_inj_table).
  - exact (lxor_range 5 _ _ ltac:(lia) Hy1 Hc1).
  - exact (lxor_range 5 _ _ ltac:(lia) Hy2 Hc2).
Qed.

(** *** Round trip *)

Lemma decode_text src n every tail : forall r k s,
  0 <= n -> 0 <= every -> 0 <= k -> k + Z.of_nat r = symbol_count n ->
  n <= 8 * Z.of_nat (length (d_dest s)) ->
  d_out_bits s = Z.min (5 * k) n -> clean (d_dest s) (d_out_bits s) ->
  (forall p, 0 <= p < d_out_bits s -> bit_at (d_dest s) p = bit_at src p) ->
  in_range 5 (d_crc s) ->
  (if bool_of_Z every then 0 <= d_crc_count s < every /\ (every | d_crc_count s + Z.of_nat r)
   else True) ->
  exists dest',
    decode_loop n every
      (enc_text every (d_crc s) (d_crc_count s) (spec_symbol src n <$> seqZ k (Z.of_nat r))
       ++ 0 :: tail) s = (dest', n) /\
    length dest' = length (d_dest s) /\
    forall p, 0 <= p < n -> bit_at dest' p = bit_at src p.
Proof.
  induction r as [|r IH]; intros k s Hn He Hk Hm Hlen Hout Hcl Hbits Hcrc Hgrp.
  - assert (5 * k >= n) by (unfold symbol_count in Hm; divlia).
    exists (d_dest s). split_and!; [|done|intros; apply Hbits; lia].
    simpl. destruct (bool_of_Z every) eqn:Eb; simpl; [|f_equal; lia].
    destruct Hgrp as [Hc [m Hdiv]].
    assert (m < 1) by nia. assert (0 <= m) by nia. assert (m = 0) as -> by lia.
    assert (d_crc_count s = 0) as -> by lia. simpl. f_equal. lia.
  - assert (5 * k < n) by (unfold symbol_count in Hm; divlia).
    rewrite seqZ_cons by lia. cbn [fmap list_fmap enc_text app].
    change (list_fmap Z Z (spec_symbol src n) ?l) with (spec_symbol src n <$> l).
    replace (Z.pred (Z.of_nat (S r))) with (Z.of_nat r) by lia. rewrite <- Z.add_1_r.
    set (y := spec_symbol src n k). assert (Hy : in_range 5 y) by apply spec_symbol_range.
    rewrite decode_data; [|done| |lia].
    2:{ intros Hne. assert (bool_of_Z every = true) as E by (unfold bool_of_Z; lia).
        rewrite E in Hgrp. apply Hgrp. }
    pose proof (decode_put_spec (d_dest s) (d_out_bits s) n y ltac:(lia) Hlen Hy Hcl) as HP.
    destruct (decode_put (d_dest s) (d_out_bits s) n y) as [dest1 out1].
    destruct HP as (Hout1 & Hlen1 & Hcl1 & Hb1).
    assert (Hbits1 : forall p, 0 <= p < out1 -> bit_at dest1 p = bit_at src p).
    { intros p Hp. rewrite Hb1 by lia. destruct (Z.ltb_spec p (d_out_bits s)); [apply Hbits; lia|].
      unfold y. rewrite spec_symbol_bits by lia.
      replace (5 * k + (p - d_out_bits s)) with p by lia.
      destruct (Z.ltb_spec p n); [done|lia]. }
    assert (Hcrc1 : in_range 5 (crc5_sym y (d_crc s))) by (by apply crc5_range).
    assert (Hout1' : out1 = Z.min (5 * (k + 1)) n) by lia.
    destruct (bool_of_Z every) eqn:Eb.
    + destruct Hgrp as [Hcnt Hdiv]. destruct (Z.eqb_spec (d_crc_count s + 1) every) as [E1|E1].
      * cbn [app]. rewrite decode_check; [|done|lia|done].
        cbn [d_crc d_dest d_out_bits]. rewrite Z.eqb_refl. rewrite <- Hlen1.
        apply (IH (k + 1) (DecState dest1 out1 0 0)); cbn [d_dest d_out_bits d_crc d_crc_count];
          try (done || lia).
        split; [lia|]. destruct Hdiv as [q Hq]. exists (q - 1). lia.
      * rewrite <- Hlen1.
        apply (IH (k + 1) (DecState dest1 out1 (crc5_sym y (d_crc s)) (d_crc_count s + 1)));
          cbn [d_dest d_out_bits d_crc d_crc_count]; try (done || lia).
        split; [lia|]. by replace (d_crc_count s + 1 + Z.of_nat r) with
          (d_crc_count s + Z.of_nat (S r)) by lia.
    + rewrite <- Hlen1. apply (IH (k + 1) (DecState dest1 out1 (d_crc s) (d_crc_count s)));
        cbn [d_dest d_out_bits d_crc d_crc_count]; try (done || lia).
Qed.

(** Decoding what [base32_encode] wrote, with spaces, line breaks or
    dashes inserted anywhere and whatever follows the terminator, returns the
    [n] encoded bits: the round trip holds for every length and CRC grouping
    the encoder accepts. *)
Theorem base32_roundtrip text_buf destlen src n every text tail dest :
  is_bytes src -> 0 < n <= 8 * Z.of_nat (length src) -> 0 <= every ->
  1 <= destlen <= Z.of_nat (length text_buf) ->
  (base32_encode text_buf destlen src n every).2 = EC_SUCCESS ->
  strip text = take (Z.to_nat (chars_needed n every) - 1)
                 (base32_encode text_buf destlen src n every).1 ->
  n <= 8 * Z.of_nat (length dest) ->
  exists dest',
    base32_decode dest n (text ++ 0 :: tail) every = (dest', n) /\
    length dest' = length dest /\
    forall p, 0 <= p < n -> bit_at dest' p = bit_at src p.
Proof.
  intros Hb Hn He Hd Hok Htext Hdest.
  rewrite base32_encode_correct in Hok, Htext by (done || lia).
  destruct (_ || _) eqn:Ec in Hok; [done|]. rewrite Ec in Htext. cbn [fst] in Htext.
  apply orb_false_iff in Ec as [Eg _].
  pose proof (length_spec_text src n every ltac:(lia) He) as Hl.
  rewrite take_app_le, take_ge in Htext by lia.
  unfold base32_decode. rewrite decode_strip, Htext. unfold spec_text.
  assert (0 <= symbol_count n) by (unfold symbol_count; divlia).
  pose proof (decode_text src n every tail (Z.to_nat (symbol_count n)) 0 (DecState dest 0 0 0)) as HT.
  rewrite Z2Nat.id in HT by lia. apply HT; cbn [d_dest d_out_bits d_crc d_crc_count]; try lia.
  - intros p Hp _ Hx. done.
  - done.
  - destruct (bool_of_Z every) eqn:Eb; [|done]. unfold bool_of_Z in *.
    split; [lia|]. simpl in Eg. rewrite Z.add_0_l. apply Z.mod_divide; [lia|].
    by destruct (Z.eqb_spec (symbol_count n mod every) 0).
Qed.

(** The challenge's text with a dash and a space in it. *)
Definition dashed : list Z := let t := spec_text challenge 24 5 in
  take 3 t ++ 45 :: take 2 (drop 3 t) ++ 32 :: drop 5 t.

Lemma base32_roundtrip_witness :
  exists dest',
    base32_decode [9; 9; 9; 9] 24 (dashed ++ 0 :: [65]) 5 = (dest', 24) /\
    length dest' = 4%nat /\
    forall p, 0 <= p < 24 -> bit_at dest' p = bit_at challenge p.
Proof.
  apply (base32_roundtrip (replicate 8 7) 8 challenge 24 5 dashed [65] [9; 9; 9; 9]);
    try (vm_compute; reflexivity); try concrete_range; try (simpl; lia).
Defined.

(** *** Error detection *)

(** A character of the alphabet, or a separator. *)
Definition valid_char (c : Z) : Prop :=
  (separator c = true /\ c <> 0) \/ exists y, in_range 5 y /\ c = aget base32_map y.

Definition crc_inv (every : Z) (s : dec_state) : Prop :=
  in_range 5 (d_crc s) /\ 0 <= d_crc_count s <= every.

Lemma crc_inv_reset every dest out : 0 < every -> crc_inv every (DecState dest out 0 0).
Proof. intros He. unfold crc_inv, in_range. simpl. lia. Qed.

Lemma decode_put_out dest out n y : out < n -> (decode_put dest out n y).2 = Z.min (out + 5) n.
Proof.
  intros Hn. unfold decode_put.
  destruct (Z.ltb_spec 0 (Z.min 5 (n - out) - Z.min (8 - Z.land out 7) (Z.min 5 (n - out))));
    simpl; lia.
Qed.

Lemma decode_sep n every c text s :
  separator c = true -> c <> 0 -> decode_loop n every (c :: text) s = decode_loop n every text s.
Proof.
  intros Hs Hc. cbn [decode_loop]. destruct (Z.eqb_spec c 0); [done|].
  unfold decode_step. fold (separator c). by rewrite Hs.
Qed.

(** One data symbol when there is room for at least one of its bits ... *)
Lemma decode_room n every y s :
  in_range 5 y -> 0 < every -> d_crc_count s <> every -> crc_inv every s -> d_out_bits s < n ->
  exists dest', let s' := DecState dest' (Z.min (d_out_bits s + 5) n)
                            (crc5_sym y (d_crc s)) (d_crc_count s + 1) in
  (forall text, decode_loop n every (aget base32_map y :: text) s = decode_loop n every text s') /\
  crc_inv every s'.
Proof.
  intros Hy He Hc (H1 & H2) Ho.
  assert (Hb : bool_of_Z every = true) by (unfold bool_of_Z; lia).
  pose proof (decode_put_out (d_dest s) (d_out_bits s) n y Ho) as Hp.
  destruct (decode_put (d_dest s) (d_out_bits s) n y) as [dest' out'] eqn:E.
  cbn [snd] in Hp. subst out'. exists dest'. cbv zeta. split.
  - intros text. rewrite decode_data by (try done; lia). by rewrite Hb, E.
  - unfold crc_inv. cbn [d_crc d_crc_count]. split; [by apply crc5_range|lia].
Qed.

(** ... and when there is none: the loop stops inside a CRC group. *)
Lemma decode_full n every y text s :
  in_range 5 y -> 0 < every -> d_crc_count s <> every -> crc_inv every s -> n <= d_out_bits s ->
  (decode_loop n every (aget base32_map y :: text) s).2 = -1.
Proof.
  intros Hy He Hc (H1 & H2) Ho. destruct (decode_symbol y Hy) as (Hd & Hsp & Hnz).
  assert (Hb : bool_of_Z every = true) by (unfold bool_of_Z; lia).
  cbn [decode_loop]. destruct (Z.eqb_spec (aget base32_map y) 0); [done|].
  unfold decode_step. rewrite Hsp, Hd, Hb. destruct (Z.ltb_spec y 0); [destruct Hy; lia|].
  destruct (Z.eqb_spec (d_crc_count s) every); [done|]. cbn [andb].
  destruct (Z.leb_spec n (d_out_bits s)); [|lia]. cbn [d_crc_count].
  assert (bool_of_Z (d_crc_count s + 1) = true) as -> by (unfold bool_of_Z; lia). done.
Qed.

(** One symbol, data or check: refused whatever follows, or a step to a state. *)
Lemma decode_symbol_cases n every y s :
  in_range 5 y -> 0 < every -> crc_inv every s ->
  (forall x, (decode_loop n every (aget base32_map y :: x) s).2 = -1) \/
  (exists s', crc_inv every s' /\
     forall x, decode_loop n every (aget base32_map y :: x) s = decode_loop n every x s').
Proof.
  intros Hy He Hi. destruct (Z.eq_dec (d_crc_count s) every) as [Ec|Ec].
  - destruct (Z.eqb_spec (d_crc s) y) as [Ey|Ey].
    + right. exists (DecState (d_dest s) (d_out_bits s) 0 0). split; [by apply crc_inv_reset|].
      intros x. rewrite decode_check by (done || lia). by destruct (Z.eqb_spec (d_crc s) y).
    + left. intros x. rewrite decode_check by (done || lia).
      by destruct (Z.eqb_spec (d_crc s) y).
  - destruct (Z.le_gt_cases n (d_out_bits s)).
    + left. intros x. by apply decode_full.
    + destruct (decode_room n every y s) as (d & E & Hi'); try (done || lia). right. eauto.
Qed.

(** After a common prefix: failure, or a common state. *)
Lemma decode_prefix n every l : forall s,
  0 < every -> Forall valid_char l -> crc_inv every s ->
  (forall x, (decode_loop n every (l ++ x) s).2 = -1) \/
  (exists s', crc_inv every s' /\
     forall x, decode_loop n every (l ++ x) s = decode_loop n every x s').
Proof.
  induction l as [|c l IH]; intros s He Hv Hi; [right; by exists s|].
  apply Forall_cons_1 in Hv as [Hc Hv]. cbn [app].
  destruct Hc as [[Hsep H0]|[y [Hy ->]]].
  - destruct (IH s) as [H|[s' [H H']]]; try done.
    + left. intros x. by rewrite decode_sep.
    + right. exists s'. split; [done|]. intros x. by rewrite decode_sep.
  - destruct (decode_symbol_cases n every y s) as [H|[s1 [H1 E]]]; try done; [by left|].
    destruct (IH s1) as [H|[s' [H H']]]; try done.
    + left. intros x. by rewrite E.
    + right. exists s'. split; [done|]. intros x. by rewrite E.
Qed.

(** Two states that differ in the running CRC inside a group: at most one of
    them accepts the rest of the text. *)
Lemma decode_diverged n every tail l : forall s1 s2,
  0 < every -> Forall valid_char l -> crc_inv every s1 -> crc_inv every s2 ->
  d_crc_count s1 = d_crc_count s2 -> 0 < d_crc_count s1 -> d_out_bits s1 = d_out_bits s2 ->
  d_crc s1 <> d_crc s2 ->
  (decode_loop n every (l ++ 0 :: tail) s1).2 <> -1 ->
  (decode_loop n every (l ++ 0 :: tail) s2).2 = -1.
Proof.
  induction l as [|c l IH]; intros s1 s2 He Hv H1 H2 Hc Hc0 Ho Hne Hok.
  - simpl in *. unfold bool_of_Z in *. destruct (Z.eqb_spec every 0); [lia|].
    destruct (Z.eqb_spec (d_crc_count s1) 0); [lia|]. done.
  - apply Forall_cons_1 in Hv as [Hvc Hv]. cbn [app] in *.
    destruct Hvc as [[Hsep H0]|[y [Hy ->]]].
    + rewrite decode_sep in Hok |- * by done. by apply (IH s1 s2).
    + destruct (Z.eq_dec (d_crc_count s1) every) as [Ec|Ec].
      * rewrite decode_check in Hok |- * by (done || lia).
        destruct (Z.eqb_spec (d_crc s1) y); [|done].
        destruct (Z.eqb_spec (d_crc s2) y); [lia|done].
      * destruct (Z.le_gt_cases n (d_out_bits s2)); [apply decode_full; done || lia|].
        destruct (decode_room n every y s1) as (d1 & E1 & Hi1); try (done || lia).
        destruct (decode_room n every y s2) as (d2 & E2 & Hi2); try (done || lia).
        rewrite E1 in Hok. rewrite E2.
        eapply IH; [done|done|exact Hi1|exact Hi2|..|exact Hok];
          cbn [d_crc d_crc_count d_out_bits]; try lia.
        intros Heq. apply Hne. apply crc5_inj in Heq; [|done|apply H1|done|apply H2].
        by apply lxor_cancel_l in Heq.
Qed.



End Base32.
