(* ===== verification/Util.v ===== *)
(** * Utility routines (common/util.c, number parsing of builtin/stdlib.c)

    Number parsing, 64-bit division, constant-time comparison, bit scanning,
    edge-triggered conditions and the strapping-pin number systems. *)

From S2P Require Import Prelude Libc.
Import Str.

Module Util.

(** ** Number parsing

    The parsers keep the current character in [c] and [nptr] one past it; here
    one pointer [s] points at the character in [c]. *)

(** The base and the pointer at the first digit. *)
(** src/common/util.c:13-24 [find_base] *)
Definition find_base (base : Z) (s : list Z) : Z * list Z :=
  if ((base =? 0) || (base =? 16)) && (deref s =? 48) &&
     ((deref (next s) =? 120) || (deref (next s) =? 88))
  then (16, next (next s))
  else if base =? 0 then (if deref s =? 48 then 8 else 10, s)
  else (base, s).

(** The value of [c] in the three digit ranges of [base]. *)
(** src/common/util.c:46-53 [strtoi] *)
Definition digit_of (base c : Z) : option Z :=
  if (48 <=? c) && (c <? 48 + Z.min base 10) then Some (c - 48)
  else if (65 <=? c) && (c <? 65 + base - 10) then Some (c - 65 + 10)
  else if (97 <=? c) && (c <? 97 + base - 10) then Some (c - 97 + 10)
  else None.

(** The digit loop; [norm] is the wrap-around of the result's type. *)
(** src/common/util.c:45-56 [strtoi] *)
Fixpoint digits_loop (norm : Z -> Z) (base : Z) (s : list Z) (result : Z) : Z * list Z :=
  match s with
  | [] => (result, s)
  | c :: s' =>
    if c =? 0 then (result, s)
    else match digit_of base c with
         | Some v => digits_loop norm base s' (norm (result * base + v))
         | None => (result, s)
         end
  end.

(** The result and [*endptr]. *)
(** src/common/util.c:27-61 [strtoi] *)
Definition strtoi (nptr : list Z) (base : Z) : Z * list Z :=
  let s := skip_space nptr in
  let '(neg, s) :=
    if deref s =? 43 then (false, next s)
    else if deref s =? 45 then (true, next s) else (false, s) in
  let '(base, s) := find_base base s in
  let '(result, s) := digits_loop s32 base s 0 in
  (if neg : bool then s32 (- result) else result, s).

(** src/builtin/stdlib.c:214-249 [strtoull] *)
Definition strtoull (nptr : list Z) (base : Z) : Z * list Z :=
  let s := skip_space nptr in
  if deref s =? 45 then (0, s)
  else
    let s := if deref s =? 43 then next s else s in
    let '(base, s) := find_base base s in
    digits_loop u64 base s 0.

(** Negative sizes and offsets mean "no default".  Returns the error and the
    updated [*offset] and [*size]. *)
(** src/common/util.c:272-295 [parse_offset_size] *)
Definition parse_offset_size (argc : Z) (argv : Z -> list Z) (shift offset size : Z)
    : ec_error * Z * Z :=
  let first :=
    if shift <? argc then
      let '(i, e) := strtoi (argv shift) 0 in
      if negb (deref e =? 0) then inl EC_ERROR_PARAM1 else inr i
    else if offset <? 0 then inl EC_ERROR_PARAM_COUNT else inr offset in
  match first with
  | inl e => (e, offset, size)
  | inr offset =>
    if shift + 1 <? argc then
      let '(i, e) := strtoi (argv (shift + 1)) 0 in
      if negb (deref e =? 0) then (EC_ERROR_PARAM2, offset, size) else (EC_SUCCESS, offset, i)
    else if size <? 0 then (EC_ERROR_PARAM_COUNT, offset, size)
    else (EC_SUCCESS, offset, size)
  end.

(** [Some v] when recognised, with [*dest = v]. *)
(** src/common/util.c:63-83 [parse_bool] *)
Definition parse_bool (s : list Z) : option Z :=
  if (strcasecmp s [111; 102; 102; 0] =? 0) || (strncasecmp s [100; 105; 115; 0] 3 =? 0) ||
     (tolower (deref s) =? 102) || (tolower (deref s) =? 110) then Some 0
  else if (strcasecmp s [111; 110; 0] =? 0) || (strncasecmp s [101; 110; 97; 0] 3 =? 0) ||
     (tolower (deref s) =? 116) || (tolower (deref s) =? 121) then Some 1
  else None.

(** ** Buffers *)

(** src/common/util.c:95-100 [result] *)
Definition safe_memcmp_loop (s1 s2 : list Z) : Z :=
  fold_left (fun result p => Z.lor result (Z.lxor p.1 p.2)) (combine s1 s2) 0.

(** src/common/util.c:86-103 [safe_memcmp] *)
Definition safe_memcmp (s1 s2 : list Z) (size : Z) : Z :=
  if size =? 0 then 0
  else Z_of_bool (bool_of_Z
         (safe_memcmp_loop (take (Z.to_nat size) s1) (take (Z.to_nat size) s2))).

(** Iteration [i] swaps bytes [i] and [len - 1 - i]. *)
(** src/common/util.c:111-116 [reverse] *)
Definition reverse_step (len : Z) (dest : list Z) (i : Z) : list Z :=
  let tmp := aget dest i in
  aset (aset dest i (aget dest (len - 1 - i))) (len - 1 - i) tmp.

(** src/common/util.c:105-117 [reverse] *)
Definition reverse (dest : list Z) (len : Z) : list Z :=
  fold_left (reverse_step len) (seqZ 0 (len / 2)) dest.

(** The characters from [d] on. *)
(** src/common/util.c:121-128 [strzcpy] *)
Fixpoint strzcpy_loop (d src : list Z) (len : nat) : list Z :=
  match d, len with
  | _ :: d', S (S len') =>
    if deref src =? 0 then 0 :: d' else deref src :: strzcpy_loop d' (next src) (S len')
  | _ :: d', _ => 0 :: d'
  | [], _ => []
  end.

(** src/common/util.c:119-130 [strzcpy] *)
Definition strzcpy (dest src : list Z) (len : Z) : list Z :=
  if len <=? 0 then dest else strzcpy_loop dest src (Z.to_nat len).

(** src/common/util.c:183-194 [bytes_are_trivial] *)
Definition bytes_are_trivial (buffer : list Z) (size : Z) : bool :=
  let '(result0, result1) :=
    fold_left (fun r b => (u8 (Z.lor r.1 (Z.lxor b 0x00)), u8 (Z.lor r.2 (Z.lxor b 0xff))))
      (take (Z.to_nat size) buffer) (0, 0) in
  (result0 =? 0) || (result1 =? 0).

(** src/common/util.c:196-202 [is_aligned] *)
Definition is_aligned (addr align : Z) : bool :=
  if negb (bool_of_Z align && (Z.land align (u32 (align - 1)) =? 0)) then false
  else Z.land addr (u32 (align - 1)) =? 0.

(** ** Arithmetic *)

(** One round of the shift-and-subtract division; [r] is an [int]. *)
(** src/common/util.c:163-171 [uint64divmod] *)
Definition divmod_step (n d : Z) (s : Z * Z) (k : Z) : Z * Z :=
  let '(q, r) := s in
  let r := s32 (Z.shiftl r 1) in
  let r := if Z.testbit n k then Z.lor r 1 else r in
  if d <=? r then (Z.lor q (Z.shiftl 1 k), s32 (r - d)) else (q, r).

(** The new [*n] and the remainder. *)
(** src/common/util.c:132-174 [uint64divmod] *)
Definition uint64divmod (n d : Z) : Z * Z :=
  if d =? 0 then (0, 0)
  else if d =? 2 then (Z.shiftr n 1, Z.land n 1)
  else if d =? 16 then (Z.shiftr n 4, Z.land n 0xf)
  else if n <=? 0xffffffff then (n / u32 d, s32 (n mod u32 d))
  else fold_left (divmod_step n d) (rev (seqZ 0 64)) (0, 0).

(** The bit and the new [*mask]; [31 - clz x] is [log2 x]. *)
(** src/common/util.c:176-181 [get_next_bit] *)
Definition get_next_bit (mask : Z) : Z * Z :=
  let bit := Z.log2 mask in
  (bit, Z.land mask (u32 (Z.lnot (BIT bit)))).

(** src/common/util.c:204-208 [alignment_log2] *)
Definition alignment_log2 (x : Z) : Z := Z.log2 (Z.land x (- x)).

(** ** Conditions with memory of their edges *)

(** src/common/util.c:213-217 [cond_internal_bits] *)
Definition COND_CURR_MASK : Z := BIT 0.
Definition COND_RISE_MASK : Z := BIT 1.
Definition COND_FALL_MASK : Z := BIT 2.

(** src/common/util.c:219-225 [cond_init] *)
Definition cond_init (val : bool) : Z := if val then COND_CURR_MASK else 0.

(** src/common/util.c:227-233 [cond_is] *)
Definition cond_is (c : Z) (val : bool) : bool :=
  if val then bool_of_Z (Z.land c COND_CURR_MASK) else negb (bool_of_Z (Z.land c COND_CURR_MASK)).

(** src/common/util.c:235-245 [cond_set] *)
Definition cond_set (c : Z) (val : bool) : Z :=
  let c := if val && cond_is c false then Z.lor c COND_RISE_MASK
           else if negb val && cond_is c true then Z.lor c COND_FALL_MASK else c in
  if val then Z.lor c COND_CURR_MASK else Z.land c (u8 (Z.lnot COND_CURR_MASK)).

(** src/common/util.c:247-260 [cond_went] *)
Definition cond_went (c : Z) (val : bool) : bool * Z :=
  if val then (bool_of_Z (Z.land c COND_RISE_MASK), Z.land c (u8 (Z.lnot COND_RISE_MASK)))
  else (bool_of_Z (Z.land c COND_FALL_MASK), Z.land c (u8 (Z.lnot COND_FALL_MASK))).

(** ** Strapping pins *)

(** Locals of the loop: [binary_below], [has_z], [base3]. *)
(** src/common/util.c:342-378 [binary_first_base3_from_bits] *)
Definition base3_step (bits : list Z) (s : Z * bool * Z) (i : Z) : Z * bool * Z :=
  let '(binary_below, has_z, base3) := s in
  let b := aget bits i in
  let base3 := base3 * 3 + b in
  if has_z then (binary_below, has_z, base3)
  else if b =? 1 then (binary_below + Z.shiftl 1 i, has_z, base3)
  else if b =? 2 then (binary_below + Z.shiftl 1 (i + 1), true, base3)
  else (binary_below, has_z, base3).

(** src/common/util.c:334-385 [binary_first_base3_from_bits] *)
Definition binary_first_base3_from_bits (bits : list Z) (nbits : Z) : Z :=
  let '(binary_below, has_z, base3) :=
    fold_left (base3_step bits) (rev (seqZ 0 nbits)) (0, false, 0) in
  if has_z then base3 + Z.shiftl 1 nbits - binary_below else binary_below.

(** src/common/util.c:387-397 [binary_from_bits] *)
Definition binary_from_bits (bits : list Z) (nbits : Z) : Z :=
  fold_left (fun value i => Z.lor (Z.shiftl value 1) (aget bits i)) (rev (seqZ 0 nbits)) 0.

(** src/common/util.c:399-409 [ternary_from_bits] *)
Definition ternary_from_bits (bits : list Z) (nbits : Z) : Z :=
  fold_left (fun value i => value * 3 + aget bits i) (rev (seqZ 0 nbits)) 0.

(** ** Parsing is reading the digits *)

Definition digits_value (b : Z) (vs : list Z) : Z := fold_left (fun acc v => acc * b + v) vs 0.

Lemma digits_value_snoc b vs acc :
  fold_left (fun acc v => acc * b + v) vs acc = acc * b ^ Z.of_nat (length vs) + digits_value b vs.
Proof.
  revert acc. unfold digits_value. induction vs as [|v vs IH]; intros acc; [simpl; lia|].
  cbn [fold_left length]. rewrite IH, (IH (0 * b + v)), Nat2Z.inj_succ, Z.pow_succ_r by lia. lia.
Qed.

Lemma digits_value_nonneg b vs : 0 <= b -> Forall (fun v => 0 <= v) vs -> 0 <= digits_value b vs.
Proof.
  intros Hb Hv. induction Hv as [|v vs Hv0 Hv IH]; [done|].
  unfold digits_value. cbn [fold_left]. rewrite digits_value_snoc.
  assert (0 <= b ^ Z.of_nat (length vs)) by (apply Z.pow_nonneg; lia). nia.
Qed.

Lemma digit_of_nonneg b c v : digit_of b c = Some v -> 0 <= v.
Proof.
  unfold digit_of.
  destruct (Z.leb_spec 48 c), (Z.leb_spec 65 c), (Z.leb_spec 97 c); simpl; try lia;
    repeat (destruct (_ <? _)); intros [= <-]; lia.
Qed.

Lemma digits_loop_value norm b cs vs rest : forall acc,
  0 <= b -> Forall2 (fun c v => c <> 0 /\ digit_of b c = Some v) cs vs ->
  (deref rest = 0 \/ digit_of b (deref rest) = None) -> 0 <= acc ->
  (forall x, 0 <= x <= fold_left (fun acc v => acc * b + v) vs acc -> norm x = x) -> 1 <= b ->
  digits_loop norm b (cs ++ rest) acc = (fold_left (fun acc v => acc * b + v) vs acc, rest).
Proof.
  intros acc Hb Hcs Hrest. revert acc.
  induction Hcs as [|c v cs vs [Hc0 Hc] Hcs IH]; intros acc Hacc Hnorm Hb1.
  - cbn [app fold_left]. destruct rest as [|c rest]; [done|]. cbn [digits_loop deref] in *.
    destruct (Z.eqb_spec c 0); [done|]. destruct Hrest as [|H]; [done|]. by rewrite H.
  - pose proof (digit_of_nonneg _ _ _ Hc).
    assert (Hvs : Forall (fun v => 0 <= v) vs).
    { clear IH Hnorm. induction Hcs as [|? ? ? ? [_ Hd]]; constructor; [|done].
      by eapply digit_of_nonneg. }
    assert (Hge : acc * b + v <= fold_left (fun acc v => acc * b + v) vs (acc * b + v)).
    { rewrite digits_value_snoc. pose proof (digits_value_nonneg b vs Hb Hvs).
      assert (1 <= b ^ Z.of_nat (length vs)) by (apply Z.lt_pred_le, Z.pow_pos_nonneg; lia). nia. }
    cbn [app digits_loop fold_left] in *. destruct (Z.eqb_spec c 0); [done|]. rewrite Hc.
    rewrite Hnorm by nia. apply IH; [nia|done|done].
Qed.

(** The prefix after the sign and the base it selects; [cs] are the digits. *)
Definition base_prefix (base : Z) (pre cs rest : list Z) (b : Z) : Prop :=
  ((base = 0 \/ base = 16) /\ (pre = [48; 120] \/ pre = [48; 88]) /\ b = 16) \/
  (pre = [] /\
   ~ ((base = 0 \/ base = 16) /\ deref cs = 48 /\
      (deref (next (cs ++ rest)) = 120 \/ deref (next (cs ++ rest)) = 88)) /\
   ((base = 0 /\ deref cs = 48 /\ b = 8) \/ (base = 0 /\ deref cs <> 48 /\ b = 10) \/
    (base <> 0 /\ b = base))).

Lemma find_base_prefix base pre cs rest b :
  base_prefix base pre cs rest b -> cs <> [] ->
  find_base base (pre ++ cs ++ rest) = (b, cs ++ rest).
Proof.
  intros [(Hb & Hpre & ->)|(-> & Hno & Hb)] Hcs; unfold find_base.
  - destruct Hb as [-> | ->], Hpre as [-> | ->]; done.
  - destruct cs as [|c cs]; [done|]. cbn [app deref next] in *.
    destruct (Z.eqb_spec base 0), (Z.eqb_spec base 16), (Z.eqb_spec c 48),
      (Z.eqb_spec (deref (cs ++ rest)) 120), (Z.eqb_spec (deref (cs ++ rest)) 88); simpl; subst;
      try (exfalso; apply Hno; tauto); f_equal; lia.
Qed.

Lemma skip_space_app sp s :
  Forall (fun c => isspace c = true) sp -> isspace (deref s) = false -> skip_space (sp ++ s) = s.
Proof.
  intros Hsp Hs. induction Hsp as [|c sp Hc Hsp IH].
  - destruct s as [|c s]; [done|]. cbn [app skip_space deref] in *. by rewrite Hs.
  - cbn [app skip_space]. by rewrite Hc.
Qed.

(** A digit is none of the characters the parsers treat specially. *)
Lemma digit_not_special b c v : digit_of b c = Some v -> c <> 43 /\ c <> 45 /\ isspace c = false.
Proof.
  intros H. assert (48 <= c).
  { unfold digit_of in H. destruct (Z.leb_spec 48 c); [done|].
    destruct (Z.leb_spec 65 c), (Z.leb_spec 97 c); simpl in H; try lia; done. }
  unfold isspace. lia.
Qed.

(** The text of a number: blanks, sign, base prefix, digits. *)
Record number_text (base : Z) (sp pre cs rest : list Z) (b : Z) (vs : list Z) : Prop := {
  nt_space : Forall (fun c => isspace c = true) sp;
  nt_prefix : base_prefix base pre cs rest b;
  nt_digits : Forall2 (fun c v => c <> 0 /\ digit_of b c = Some v) cs vs;
  nt_nonempty : cs <> [];
  nt_end : deref rest = 0 \/ digit_of b (deref rest) = None;
  nt_base : 1 <= b
}.

Lemma number_text_head base sp pre cs rest b vs :
  number_text base sp pre cs rest b vs ->
  let c := deref (pre ++ cs ++ rest) in c <> 43 /\ c <> 45 /\ isspace c = false.
Proof.
  intros [_ Hp Hd Hne _ _] c. subst c. destruct Hp as [(_ & [-> | ->] & _)|(-> & _)]; try done.
  destruct Hd as [|c v cs vs [_ Hc] _]; [done|]. simpl. by eapply digit_not_special.
Qed.

(** [strtoi] reads any number text: leading blanks, an optional sign, a
    "0x" or "0" prefix as the base asks, then digits up to the first
    character that is none; the result is the signed value of the digits and
    [*endptr] is that character.  [strtoull] reads the unsigned texts to 64
    bits. *)
Theorem strto_parse base sp sign pre cs rest b vs :
  number_text base sp pre cs rest b vs ->
  (digits_value b vs < 2 ^ 31 -> sign = [] \/ sign = [43] \/ sign = [45] ->
   strtoi (sp ++ sign ++ pre ++ cs ++ rest) base =
     ((if bool_decide (sign = [45]) then - digits_value b vs else digits_value b vs), rest)) /\
  (digits_value b vs < 2 ^ 64 -> sign = [] \/ sign = [43] ->
   strtoull (sp ++ sign ++ pre ++ cs ++ rest) base = (digits_value b vs, rest)).
Proof.
  intros Ht. pose proof (number_text_head _ _ _ _ _ _ _ Ht) as (H43 & H45 & Hsp).
  destruct Ht as [Hs Hp Hd Hne He Hb].
  assert (Hloop : forall norm, (forall x, 0 <= x <= digits_value b vs -> norm x = x) ->
    digits_loop norm b (cs ++ rest) 0 = (digits_value b vs, rest)).
  { intros norm Hn. apply digits_loop_value; try done; lia. }
  assert (Hskip : forall sign, sign = [] \/ sign = [43] \/ sign = [45] ->
    skip_space (sp ++ sign ++ pre ++ cs ++ rest) = sign ++ pre ++ cs ++ rest).
  { intros sg Hsg. apply skip_space_app; [done|]. by destruct Hsg as [->|[->| ->]]. }
  assert (H0 : 0 <= digits_value b vs).
  { apply digits_value_nonneg; [lia|]. clear -Hd.
    induction Hd as [|? ? ? ? [_ Hv]]; constructor; [by eapply digit_of_nonneg|done]. }
  split.
  - intros Hlt Hsg. unfold strtoi. rewrite Hskip by done.
    assert (H32 : forall x, - digits_value b vs <= x <= digits_value b vs -> s32 x = x).
    { intros x Hx. unfold swrap. rewrite Z.mod_small by lia. lia. }
    assert (Hl := Hloop s32 ltac:(intros; apply H32; lia)).
    destruct Hsg as [->|[->| ->]].
    + cbn [app]. apply Z.eqb_neq in H43, H45. rewrite H43, H45.
      rewrite (find_base_prefix _ _ _ _ _ Hp Hne), Hl. done.
    + simpl. rewrite (find_base_prefix _ _ _ _ _ Hp Hne), Hl. done.
    + simpl. rewrite (find_base_prefix _ _ _ _ _ Hp Hne), Hl. rewrite H32 by lia. done.
  - intros Hlt Hsg. unfold strtoull. rewrite Hskip by tauto.
    assert (Hl := Hloop u64 ltac:(intros; apply wrap_id; unfold in_range; lia)).
    destruct Hsg as [->| ->].
    + cbn [app]. apply Z.eqb_neq in H43, H45. rewrite H43, H45.
      by rewrite (find_base_prefix _ _ _ _ _ Hp Hne).
    + simpl. by rewrite (find_base_prefix _ _ _ _ _ Hp Hne).
Qed.

(** The text "  -0x1fG". *)
Lemma strto_parse_witness :
  strtoi [32; 32; 45; 48; 120; 49; 102; 71; 0] 0 = (-31, [71; 0]).
Proof.
  apply (strto_parse 0 [32; 32] [45] [48; 120] [49; 102] [71; 0] 16 [1; 15]); [|done|auto].
  split; try done.
  - repeat constructor.
  - left. auto.
  - repeat constructor; done.
  - by right.
Defined.

(** ** Division *)

Lemma lor_disjoint_add a b : Z.land a b = 0 -> Z.lor a b = a + b.
Proof. intros H. pose proof (Z.add_lor_land a b). lia. Qed.

Lemma lor_shifted_bit a k x : 0 <= k -> 0 <= x < 2 ^ k -> Z.lor (a * 2 ^ k) x = a * 2 ^ k + x.
Proof.
  intros Hk Hx. apply lor_disjoint_add. rewrite <- Z.shiftl_mul_pow2 by done.
  apply Z.bits_inj'. intros i Hi. rewrite Z.land_spec, Z.bits_0.
  destruct (Z.lt_ge_cases i k).
  - by rewrite Z.shiftl_spec_low.
  - rewrite (bits_above k x) by (done || lia). apply andb_false_r.
Qed.

(** Bit [k] is the last bit of the quotient by [2^k]. *)
Lemma shift_in n k : 0 <= k -> n / 2 ^ k = 2 * (n / 2 ^ (k + 1)) + Z.b2z (Z.testbit n k).
Proof.
  intros Hk. rewrite Z.testbit_spec' by done.
  rewrite Z.pow_add_r, <- Z.div_div by lia. change (2 ^ 1) with 2.
  pose proof (Z.div_mod (n / 2 ^ k) 2). lia.
Qed.

Lemma divmod_step_spec n d k :
  0 <= n -> 0 < d <= 2 ^ 30 -> 0 <= k ->
  divmod_step n d ((n / 2 ^ (k + 1)) / d * 2 ^ (k + 1), (n / 2 ^ (k + 1)) mod d) k =
    ((n / 2 ^ k) / d * 2 ^ k, (n / 2 ^ k) mod d).
Proof.
  intros Hn Hd Hk. unfold divmod_step. rewrite (shift_in n k Hk).
  set (N := n / 2 ^ (k + 1)). set (b := Z.b2z (Z.testbit n k)).
  assert (0 <= N) by (apply Z.div_pos; lia).
  pose proof (Z.mod_pos_bound N d ltac:(lia)) as Hr. pose proof (Z.div_mod N d ltac:(lia)) as Hdm.
  assert (Hs : forall x, - 2 ^ 31 <= x < 2 ^ 31 -> s32 x = x).
  { intros x Hx. unfold swrap. rewrite Z.mod_small by lia. lia. }
  rewrite Z.shiftl_mul_pow2 by lia. change (2 ^ 1) with 2. rewrite (Hs (N mod d * 2)) by lia.
  assert (Hr2 : (if Z.testbit n k then Z.lor (N mod d * 2) 1 else N mod d * 2) = 2 * (N mod d) + b).
  { subst b. destruct (Z.testbit n k); simpl; [|lia].
    change 2 with (2 ^ 1) at 1. rewrite lor_shifted_bit by lia. lia. }
  rewrite Hr2. assert (Hb : 0 <= b <= 1) by (subst b; destruct (Z.testbit n k); simpl; lia).
  clearbody b. rewrite Z.pow_add_r by lia. change (2 ^ 1) with 2.
  assert (H2k : 0 < 2 ^ k) by (apply Z.pow_pos_nonneg; lia).
  destruct (Z.leb_spec d (2 * (N mod d) + b)).
  - rewrite Hs by lia.
    assert ((2 * N + b) / d = 2 * (N / d) + 1) as ->
      by (symmetry; apply (Z.div_unique _ _ _ (2 * (N mod d) + b - d)); lia).
    assert ((2 * N + b) mod d = 2 * (N mod d) + b - d) as ->
      by (symmetry; apply (Z.mod_unique _ _ (2 * (N / d) + 1)); lia).
    f_equal. rewrite Z.shiftl_mul_pow2, Z.mul_1_l by lia.
    replace (N / d * (2 ^ k * 2)) with (N / d * 2 ^ (k + 1))
      by (rewrite Z.pow_add_r by lia; change (2 ^ 1) with 2; lia).
    rewrite lor_shifted_bit by (rewrite ?Z.pow_add_r by lia; lia).
    rewrite Z.pow_add_r by lia. change (2 ^ 1) with 2. lia.
  - assert ((2 * N + b) / d = 2 * (N / d)) as ->
      by (symmetry; apply (Z.div_unique _ _ _ (2 * (N mod d) + b)); lia).
    assert ((2 * N + b) mod d = 2 * (N mod d) + b) as ->
      by (symmetry; apply (Z.mod_unique _ _ (2 * (N / d))); lia).
    f_equal. lia.
Qed.

Lemma seqZ_rev_S j : rev (seqZ 0 (Z.of_nat (S j))) = Z.of_nat j :: rev (seqZ 0 (Z.of_nat j)).
Proof. by rewrite Nat2Z.inj_succ, <- Z.add_1_r, seqZ_app, rev_app_distr by lia. Qed.

Lemma divmod_loop n d j :
  0 <= n -> 0 < d <= 2 ^ 30 ->
  fold_left (divmod_step n d) (rev (seqZ 0 (Z.of_nat j)))
    ((n / 2 ^ Z.of_nat j) / d * 2 ^ Z.of_nat j, (n / 2 ^ Z.of_nat j) mod d) = (n / d, n mod d).
Proof.
  intros Hn Hd. induction j as [|j IH].
  - cbn [Z.of_nat rev fold_left]. change (2 ^ 0) with 1. rewrite Z.div_1_r. simpl. f_equal. lia.
  - rewrite seqZ_rev_S. cbn [fold_left]. rewrite Nat2Z.inj_succ, <- Z.add_1_r.
    rewrite divmod_step_spec by lia. exact IH.
Qed.

(** [uint64divmod] is division with remainder for every divisor up to
    2^30, and up to 2^31 - 1 when the dividend fits in 32 bits; division by
    zero gives zero.  It is not for all larger divisors: there the [int]
    remainder overflows when it is doubled. *)
Theorem uint64divmod_correct :
  (forall n d, is_u64 n -> 0 <= d -> d <= 2 ^ 30 \/ (n <= 0xffffffff /\ d < 2 ^ 31) ->
   uint64divmod n d = if d =? 0 then (0, 0) else (n / d, n mod d)) /\
  (exists n d, is_u64 n /\ 0 < d < 2 ^ 31 /\ (uint64divmod n d).1 <> n / d).
Proof.
  split.
  - intros n d Hn Hd Hc. unfold uint64divmod, in_range in *.
    destruct (Z.eqb_spec d 0); [done|]. destruct (Z.eqb_spec d 2) as [->|].
    { change 1 with (2 ^ 1 - 1) at 2. rewrite land_mask, Z.shiftr_div_pow2 by lia. done. }
    destruct (Z.eqb_spec d 16) as [->|].
    { change 15 with (2 ^ 4 - 1). rewrite land_mask, Z.shiftr_div_pow2 by lia. done. }
    destruct (Z.leb_spec n 0xffffffff).
    + rewrite (wrap_id 32 d) by (unfold in_range; lia).
      f_equal. pose proof (Z.mod_pos_bound n d ltac:(lia)). unfold swrap.
      rewrite Z.mod_small by lia. lia.
    + pose proof (divmod_loop n d 64 ltac:(lia) ltac:(lia)) as H64.
      change (Z.of_nat 64) with 64 in H64. rewrite (Z.div_small n (2 ^ 64)) in H64 by lia.
      rewrite Z.div_0_l, Z.mod_0_l in H64 by lia. exact H64.
  - exists (2 ^ 63), (2 ^ 31 - 1). split_and!; [done|done|done|]. vm_compute. discriminate.
Qed.

Lemma uint64divmod_correct_witness : uint64divmod (2 ^ 40 + 5) 1000 = ((2 ^ 40 + 5) / 1000, 781).
Proof. apply (proj1 uint64divmod_correct (2 ^ 40 + 5) 1000); [done|lia|lia]. Defined.

(** ** Strapping pins: the binary-first base-3 system *)

Fixpoint val3 (ds : list Z) : Z :=
  match ds with [] => 0 | d :: ds => d * 3 ^ Z.of_nat (length ds) + val3 ds end.
Fixpoint val2 (ds : list Z) : Z :=
  match ds with [] => 0 | d :: ds => d * 2 ^ Z.of_nat (length ds) + val2 ds end.
Definition has_z (ds : list Z) : bool := existsb (fun d => d =? 2) ds.

(** How many all-binary numbers are below [ds], most significant digit first. *)
Fixpoint below (ds : list Z) : Z :=
  match ds with
  | [] => 0
  | d :: ds =>
    if d =? 1 then 2 ^ Z.of_nat (length ds) + below ds
    else if d =? 2 then 2 ^ (Z.of_nat (length ds) + 1)
    else below ds
  end.

Definition is_trits : list Z -> Prop := Forall (fun d => 0 <= d <= 2).

Lemma base3_loop bits ds : forall n s,
  (forall i, 0 <= i < n -> aget bits i = nth (Z.to_nat (n - 1 - i)) ds 0) ->
  is_trits ds -> n = Z.of_nat (length ds) ->
  fold_left (base3_step bits) (rev (seqZ 0 n)) s =
    let '(bb, z, v) := s in
    (if z : bool then bb else bb + below ds, z || has_z ds, v * 3 ^ n + val3 ds).
Proof.
  induction ds as [|d ds IH]; intros n s Hb Ht ->; [destruct s as [[bb [|]] v]; simpl; f_equal; f_equal; lia|].
  apply Forall_cons_1 in Ht as [Hd Ht]. cbn [length]. rewrite seqZ_rev_S. cbn [fold_left].
  rewrite (IH (Z.of_nat (length ds))).
  - assert (Hg : aget bits (Z.of_nat (length ds)) = d).
    { rewrite Hb by (simpl; lia). cbn [length].
      by replace (Z.to_nat (Z.of_nat (S (length ds)) - 1 - Z.of_nat (length ds))) with 0%nat by lia. }
    unfold base3_step. destruct s as [[bb z] v]. rewrite Hg. cbn [val3 below has_z existsb].
    fold (has_z ds). rewrite Nat2Z.inj_succ, Z.pow_succ_r by lia. rewrite !Z.shiftl_mul_pow2 by lia.
    destruct z; [cbn [orb]; apply (f_equal2 pair); [done|ring]|].
    assert (d = 0 \/ d = 1 \/ d = 2) as [->|[->| ->]] by lia;
      cbn [Z.eqb Pos.eqb orb]; rewrite ?orb_true_r; 
      (apply (f_equal2 pair); [apply (f_equal2 pair)|]); first [reflexivity|ring].
  - intros i Hi. rewrite Hb by (simpl; lia). cbn [length].
    replace (Z.to_nat (Z.of_nat (S (length ds)) - 1 - i))
      with (S (Z.to_nat (Z.of_nat (length ds) - 1 - i))) by lia. done.
  - done.
  - done.
Qed.

Lemma val3_range ds : is_trits ds -> 0 <= val3 ds < 3 ^ Z.of_nat (length ds).
Proof.
  intros Ht. induction Ht as [|d ds Hd Ht IH]; [simpl; lia|].
  cbn [val3 length]. rewrite Nat2Z.inj_succ, Z.pow_succ_r by lia. nia.
Qed.

Lemma pow23 k : 0 <= k -> 0 < 2 ^ k <= 3 ^ k.
Proof.
  intros. split; [apply Z.pow_pos_nonneg; lia|]. apply Z.pow_le_mono_l. lia.
Qed.

Lemma below_range ds : is_trits ds -> 0 <= below ds <= 2 ^ Z.of_nat (length ds).
Proof.
  intros Ht. induction Ht as [|d ds Hd Ht IH]; [simpl; lia|].
  cbn [below length]. pose proof (pow23 (Z.of_nat (length ds)) ltac:(lia)).
  rewrite Nat2Z.inj_succ, Z.pow_succ_r, Z.pow_add_r by lia. change (2 ^ 1) with 2.
  destruct (d =? 1), (d =? 2); lia.
Qed.

(** The index of a number among the ones with a Z. *)
Definition z_index (ds : list Z) : Z := val3 ds - below ds.

Lemma z_index_nonneg ds : is_trits ds -> 0 <= z_index ds.
Proof.
  unfold z_index. intros Ht. induction Ht as [|d ds Hd Ht IH]; [simpl; lia|].
  cbn [val3 below]. pose proof (pow23 (Z.of_nat (length ds)) ltac:(lia)).
  pose proof (val3_range ds Ht). pose proof (below_range ds Ht).
  rewrite Z.pow_add_r by lia. change (2 ^ 1) with 2.
  destruct (Z.eqb_spec d 1), (Z.eqb_spec d 2); nia.
Qed.

Lemma z_index_upper ds :
  is_trits ds -> has_z ds = true ->
  z_index ds < 3 ^ Z.of_nat (length ds) - 2 ^ Z.of_nat (length ds).
Proof.
  unfold z_index. intros Ht. induction Ht as [|d ds Hd Ht IH]; [done|].
  cbn [val3 below has_z existsb length]. fold (has_z ds). intros Hz.
  pose proof (pow23 (Z.of_nat (length ds)) ltac:(lia)).
  pose proof (val3_range ds Ht).
  rewrite Nat2Z.inj_succ, !Z.pow_succ_r, Z.pow_add_r by lia. change (2 ^ 1) with 2.
  destruct (Z.eqb_spec d 2) as [->|]; [simpl; lia|]. specialize (IH Hz).
  destruct (Z.eqb_spec d 1); nia.
Qed.

Lemma z_index_mono ds1 : forall ds2,
  length ds1 = length ds2 -> is_trits ds1 -> is_trits ds2 -> has_z ds1 = true ->
  val3 ds1 < val3 ds2 -> z_index ds1 < z_index ds2.
Proof.
  induction ds1 as [|d1 ds1 IH]; intros [|d2 ds2] Hl H1 H2 Hz Hlt; try done.
  apply Forall_cons_1 in H1 as [Hd1 H1]. apply Forall_cons_1 in H2 as [Hd2 H2].
  injection Hl as Hl. unfold z_index in *.
  cbn [val3 below has_z existsb] in *. fold (has_z ds1) in Hz.
  pose proof (val3_range ds1 H1) as R1. pose proof (val3_range ds2 H2) as R2.
  pose proof (z_index_nonneg ds2 H2) as Hn2. unfold z_index in Hn2.
  pose proof (z_index_upper ds1 H1) as Hu. unfold z_index in Hu.
  rewrite <- Hl in R2, Hlt |- *. set (k := Z.of_nat (length ds1)) in *.
  pose proof (pow23 k ltac:(lia)). rewrite Z.pow_add_r by lia. change (2 ^ 1) with 2.
  assert (d1 = 0 \/ d1 = 1 \/ d1 = 2) as [->|[->| ->]] by lia;
    assert (d2 = 0 \/ d2 = 1 \/ d2 = 2) as [->|[->| ->]] by lia; simpl in Hz |- *; try lia;
    try (specialize (Hu Hz)); try (specialize (IH ds2 Hl H1 H2 Hz)); nia.
Qed.

Lemma below_val2 ds : is_trits ds -> has_z ds = false -> below ds = val2 ds.
Proof.
  intros Ht. induction Ht as [|d ds Hd Ht IH]; [done|].
  cbn [val2 below has_z existsb]. fold (has_z ds). rewrite orb_false_iff, Z.eqb_neq.
  intros [Hne Hz]. rewrite (IH Hz).
  destruct (Z.eqb_spec d 1), (Z.eqb_spec d 2); try lia; nia.
Qed.

Lemma aget_rev (bits : list Z) i :
  0 <= i < Z.of_nat (length bits) ->
  aget bits i = nth (Z.to_nat (Z.of_nat (length bits) - 1 - i)) (rev bits) 0.
Proof.
  intros Hi. rewrite rev_nth by lia.
  replace (length bits - S (Z.to_nat (Z.of_nat (length bits) - 1 - i)))%nat with (Z.to_nat i) by lia.
  unfold aget. destruct (bits !! Z.to_nat i) as [x|] eqn:E.
  - rewrite (list_lookup_total_correct _ _ _ E). symmetry. by apply nth_lookup_Some.
  - apply lookup_ge_None in E. lia.
Qed.

Lemma base3_result bits n :
  is_trits bits -> n = Z.of_nat (length bits) ->
  binary_first_base3_from_bits bits n =
    let ds := rev bits in
    if has_z ds then z_index ds + 2 ^ n else val2 ds.
Proof.
  intros Ht ->. unfold binary_first_base3_from_bits, z_index. cbv zeta.
  assert (Ht' : is_trits (rev bits)) by (by apply Forall_rev).
  rewrite (base3_loop bits (rev bits)); [|intros; by apply aget_rev|done|by rewrite length_rev].
  rewrite Z.mul_0_l, !Z.add_0_l, orb_false_l. destruct (has_z (rev bits)) eqn:E.
  - rewrite Z.shiftl_mul_pow2 by lia. lia.
  - by apply below_val2.
Qed.

Lemma val_inj (base : Z) (val : list Z -> Z) (lim : list Z -> Prop) :
  (forall d ds, val (d :: ds) = d * base ^ Z.of_nat (length ds) + val ds) ->
  (forall d ds, lim (d :: ds) -> 0 <= d < base /\ lim ds) ->
  (forall ds, lim ds -> 0 <= val ds < base ^ Z.of_nat (length ds)) ->
  forall ds1 ds2, length ds1 = length ds2 -> lim ds1 -> lim ds2 -> val ds1 = val ds2 -> ds1 = ds2.
Proof.
  intros Hval Hlim Hr. induction ds1 as [|d1 ds1 IH]; intros [|d2 ds2] Hl H1 H2 E; try done.
  injection Hl as Hl. rewrite !Hval, <- Hl in E. apply Hlim in H1 as [Hd1 H1], H2 as [Hd2 H2].
  pose proof (Hr ds1 H1) as R1. pose proof (Hr ds2 H2) as R2. rewrite <- Hl in R2.
  set (p := base ^ Z.of_nat (length ds1)) in *.
  assert (d1 = d2) as -> by nia. f_equal. apply IH; try done. lia.
Qed.

Definition is_bits : list Z -> Prop := Forall (fun d => 0 <= d < 2).

Lemma val2_range ds : is_bits ds -> 0 <= val2 ds < 2 ^ Z.of_nat (length ds).
Proof.
  intros Ht. induction Ht as [|d ds Hd Ht IH]; [simpl; lia|].
  cbn [val2 length]. rewrite Nat2Z.inj_succ, Z.pow_succ_r by lia. nia.
Qed.

Lemma no_z_bits ds : is_trits ds -> has_z ds = false -> is_bits ds.
Proof.
  intros Ht. induction Ht as [|d ds Hd Ht IH]; [by constructor|].
  cbn [has_z existsb]. rewrite orb_false_iff, Z.eqb_neq. intros [Hne Hz].
  constructor; [lia|by apply IH].
Qed.

Lemma val2_inj ds1 ds2 :
  length ds1 = length ds2 -> is_bits ds1 -> is_bits ds2 -> val2 ds1 = val2 ds2 -> ds1 = ds2.
Proof.
  apply (val_inj 2 val2 is_bits); [done| |apply val2_range].
  intros d ds H. by apply Forall_cons_1 in H.
Qed.
Lemma val3_inj ds1 ds2 :
  length ds1 = length ds2 -> is_trits ds1 -> is_trits ds2 -> val3 ds1 = val3 ds2 -> ds1 = ds2.
Proof.
  apply (val_inj 3 val3 is_trits); [done| |apply val3_range].
  intros d ds H. apply Forall_cons_1 in H as [? ?]. split; [lia|done].
Qed.

Lemma z_index_inj ds1 ds2 :
  length ds1 = length ds2 -> is_trits ds1 -> is_trits ds2 -> has_z ds1 = true -> has_z ds2 = true ->
  z_index ds1 = z_index ds2 -> ds1 = ds2.
Proof.
  intros Hl H1 H2 Hz1 Hz2 E. apply val3_inj; try done.
  destruct (Z.lt_trichotomy (val3 ds1) (val3 ds2)) as [H|[H|H]]; [|done|].
  - pose proof (z_index_mono ds1 ds2 Hl H1 H2 Hz1 H). lia.
  - pose proof (z_index_mono ds2 ds1 (eq_sym Hl) H2 H1 Hz2 H). lia.
Qed.

(** For up to 19 three-state pins the binary-first number fits in an
    [int] and is a bijective numbering: values are below [3^n], strings
    without a Z get their binary value, strings with a Z come after all of
    those in the order of their base-3 values, and distinct strings get
    distinct numbers. *)
Theorem binary_first_base3_correct n bits :
  0 <= n <= 19 -> n = Z.of_nat (length bits) -> is_trits bits ->
  0 <= binary_first_base3_from_bits bits n < 3 ^ n /\ 3 ^ n < 2 ^ 31 /\
  (has_z bits = false -> binary_first_base3_from_bits bits n = val2 (rev bits) /\
                         val2 (rev bits) < 2 ^ n) /\
  (has_z bits = true -> 2 ^ n <= binary_first_base3_from_bits bits n) /\
  forall bits', length bits' = length bits -> is_trits bits' ->
    (has_z bits = true -> has_z bits' = true -> val3 (rev bits) < val3 (rev bits') ->
     binary_first_base3_from_bits bits n < binary_first_base3_from_bits bits' n) /\
    (binary_first_base3_from_bits bits n = binary_first_base3_from_bits bits' n -> bits = bits').
Proof.
  intros Hn Hl Ht.
  assert (Hrev : forall l, is_trits l -> is_trits (rev l)) by (intros; by apply Forall_rev).
  assert (Hz : forall l, has_z l = has_z (rev l)).
  { intros l. unfold has_z. apply eq_true_iff_eq. rewrite !existsb_exists.
    split; intros (x & Hx & E); exists x; (split; [|done]); [by rewrite <- in_rev|by rewrite in_rev]. }
  pose proof (pow23 n ltac:(lia)) as P.
  assert (H19 : 3 ^ n <= 3 ^ 19) by (apply Z.pow_le_mono_r; lia).
  change (3 ^ 19) with 1162261467 in H19. change (2 ^ 31) with 2147483648.
  assert (Hlr : forall l : list Z, length l = length bits -> Z.of_nat (length (rev l)) = n)
    by (intros l E; rewrite length_rev; lia).
  assert (Hb : has_z (rev bits) = false -> 0 <= val2 (rev bits) < 2 ^ n).
  { intros E. rewrite <- (Hlr bits eq_refl). apply val2_range, no_z_bits; auto. }
  assert (Hlow : forall l, is_trits l -> 0 <= z_index (rev l))
    by (intros; apply z_index_nonneg; auto).
  rewrite (base3_result bits n Ht Hl), (Hz bits). cbv zeta. split_and!.
  - destruct (has_z (rev bits)); [specialize (Hlow bits Ht)|specialize (Hb eq_refl)]; lia.
  - destruct (has_z (rev bits)) eqn:E; [|specialize (Hb eq_refl); lia].
    pose proof (z_index_upper (rev bits) (Hrev _ Ht) E) as Hu. rewrite (Hlr bits eq_refl) in Hu. lia.
  - lia.
  - intros E. rewrite E. split; [done|]. apply Hb, E.
  - intros E. rewrite E. specialize (Hlow bits Ht). lia.
  - intros bits' Hl' Ht'. rewrite (base3_result bits' n Ht') by lia. rewrite (Hz bits'). cbv zeta.
    assert (Hlen : length (rev bits) = length (rev bits')) by (rewrite !length_rev; lia).
    assert (Hb' : has_z (rev bits') = false -> 0 <= val2 (rev bits') < 2 ^ n).
    { intros E. rewrite <- (Hlr bits' Hl'). apply val2_range, no_z_bits; auto. }
    split.
    + intros E E' Hlt. rewrite E, E'. apply Z.add_lt_mono_r, z_index_mono; auto.
    + intros E. specialize (Hlow bits Ht) as Hi. specialize (Hlow bits' Ht') as Hi'.
      rewrite <- (rev_involutive bits), <- (rev_involutive bits'). f_equal.
      destruct (has_z (rev bits)) eqn:E1, (has_z (rev bits')) eqn:E2.
      * apply z_index_inj; auto. lia.
      * specialize (Hb' eq_refl). lia.
      * specialize (Hb eq_refl). lia.
      * apply val2_inj; auto using no_z_bits.
Qed.

Lemma binary_first_base3_correct_witness :
  binary_first_base3_from_bits [2; 1] 2 = 7 - 2 /\
  0 <= binary_first_base3_from_bits [2; 1] 2 < 3 ^ 2.
Proof.
  split; [done|].
  apply (binary_first_base3_correct 2 [2; 1]); [lia|done|repeat constructor; lia].
Defined.

(** ** Buffers *)

Lemma reverse_loop dest j :
  0 <= Z.of_nat j <= Z.of_nat (length dest) / 2 ->
  length (fold_left (reverse_step (Z.of_nat (length dest))) (seqZ 0 (Z.of_nat j)) dest) = length dest /\
  forall i, 0 <= i < Z.of_nat (length dest) ->
    aget (fold_left (reverse_step (Z.of_nat (length dest))) (seqZ 0 (Z.of_nat j)) dest) i =
      if (i <? Z.of_nat j) || (Z.of_nat (length dest) - 1 - i <? Z.of_nat j)
      then aget dest (Z.of_nat (length dest) - 1 - i) else aget dest i.
Proof.
  set (L := Z.of_nat (length dest)). induction j as [|j IH]; intros Hj.
  - split; [done|]. intros i Hi. change (seqZ 0 (Z.of_nat 0)) with (@nil Z).
    destruct (Z.ltb_spec i (Z.of_nat 0)); [lia|].
    by destruct (Z.ltb_spec (L - 1 - i) (Z.of_nat 0)); [lia|].
  - destruct IH as [Hl IH]; [lia|]. rewrite Nat2Z.inj_succ, <- Z.add_1_r.
    rewrite seqZ_app, fold_left_app by lia. cbn [seqZ]. rewrite Z.add_0_l.
    change (seqZ (Z.of_nat j) 1) with [Z.of_nat j]. cbn [fold_left].
    set (r := fold_left _ _ _) in *. assert (2 * (L / 2) <= L) by divlia.
    unfold reverse_step. split; [unfold aset; by rewrite !length_insert|].
    intros i Hi.
    rewrite (aget_aset (aset _ _ _)) by (unfold aset; rewrite ?length_insert, ?Hl; lia).
    rewrite (aget_aset r) by (rewrite ?Hl; lia). rewrite !IH by lia.
    destruct (Z.eqb_spec i (L - 1 - Z.of_nat j)) as [->|].
    + replace (L - 1 - (L - 1 - Z.of_nat j)) with (Z.of_nat j) by lia.
      destruct (Z.ltb_spec (Z.of_nat j) (Z.of_nat j)), (Z.ltb_spec (L - 1 - Z.of_nat j) (Z.of_nat j)),
        (Z.ltb_spec (L - 1 - Z.of_nat j) (Z.of_nat j + 1)), (Z.ltb_spec (Z.of_nat j) (Z.of_nat j + 1));
        simpl; lia || done.
    + destruct (Z.eqb_spec i (Z.of_nat j)) as [->|].
      * replace (L - 1 - (L - 1 - Z.of_nat j)) with (Z.of_nat j) by lia.
        destruct (Z.ltb_spec (Z.of_nat j) (Z.of_nat j)), (Z.ltb_spec (L - 1 - Z.of_nat j) (Z.of_nat j)),
          (Z.ltb_spec (L - 1 - Z.of_nat j) (Z.of_nat j + 1)), (Z.ltb_spec (Z.of_nat j) (Z.of_nat j + 1));
          simpl; lia || done.
      * destruct (Z.ltb_spec i (Z.of_nat j)), (Z.ltb_spec (L - 1 - i) (Z.of_nat j)),
          (Z.ltb_spec i (Z.of_nat j + 1)), (Z.ltb_spec (L - 1 - i) (Z.of_nat j + 1));
          simpl; lia || done.
Qed.

Lemma list_eq_aget (l1 l2 : list Z) :
  length l1 = length l2 -> (forall i, 0 <= i < Z.of_nat (length l1) -> aget l1 i = aget l2 i) -> l1 = l2.
Proof.
  intros Hl H. apply list_eq_same_length with (length l1); [done..|].
  intros i x y Hi Hx Hy. specialize (H (Z.of_nat i) ltac:(lia)).
  unfold aget in H. rewrite Nat2Z.id in H.
  by rewrite (list_lookup_total_correct _ _ _ Hx), (list_lookup_total_correct _ _ _ Hy) in H.
Qed.

Lemma reverse_rev dest : reverse dest (Z.of_nat (length dest)) = rev dest.
Proof.
  unfold reverse. pose proof (Z.div_pos (Z.of_nat (length dest)) 2).
  destruct (reverse_loop dest (Z.to_nat (Z.of_nat (length dest) / 2))) as [Hl H1]; [lia|].
  rewrite Z2Nat.id in Hl, H1 by lia.
  apply list_eq_aget; [by rewrite length_rev|]. rewrite Hl. intros i Hi. rewrite H1 by done.
  assert (Hr : aget (rev dest) i = aget dest (Z.of_nat (length dest) - 1 - i)).
  { rewrite (aget_rev dest) by lia. unfold aget.
    destruct (rev dest !! Z.to_nat i) as [x|] eqn:E.
    - rewrite (list_lookup_total_correct _ _ _ E). symmetry. apply nth_lookup_Some.
      rewrite <- E. f_equal. lia.
    - apply lookup_ge_None in E. rewrite length_rev in E. lia. }
  rewrite Hr. destruct (_ || _) eqn:E; [done|]. f_equal. apply orb_false_iff in E. divlia.
Qed.

Lemma safe_memcmp_loop_eq s1 : forall s2 acc,
  length s1 = length s2 ->
  fold_left (fun result p => Z.lor result (Z.lxor p.1 p.2)) (combine s1 s2) acc = 0 <->
  acc = 0 /\ s1 = s2.
Proof.
  induction s1 as [|a s1 IH]; intros [|b s2] acc Hl; try done.
  - simpl. tauto.
  - injection Hl as Hl. cbn [combine fold_left fst snd]. rewrite IH by done.
    rewrite Z.lor_eq_0_iff, Z.lxor_eq_0_iff. split.
    + by intros [[-> ->] ->].
    + intros [-> [= -> ->]]. done.
Qed.

Lemma trivial_loop l : forall r0 r1,
  is_bytes l -> is_u8 r0 -> is_u8 r1 ->
  let r := fold_left (fun r b => (u8 (Z.lor r.1 (Z.lxor b 0x00)), u8 (Z.lor r.2 (Z.lxor b 0xff)))) l
    (r0, r1) in
  (r.1 = 0 <-> r0 = 0 /\ Forall (fun b => b = 0) l) /\
  (r.2 = 0 <-> r1 = 0 /\ Forall (fun b => b = 0xff) l).
Proof.
  induction l as [|b l IH]; intros r0 r1 Hl H0 H1; cbv zeta.
  - cbn [fold_left fst snd].
    pose proof (Forall_nil_2 (fun b : Z => b = 0)). pose proof (Forall_nil_2 (fun b : Z => b = 0xff)).
    tauto.
  - apply Forall_cons_1 in Hl as [Hb Hl]. cbn [fold_left fst snd].
    assert (Hx : is_u8 (Z.lxor b 0)) by (apply lxor_range; done).
    assert (Hy : is_u8 (Z.lxor b 255)) by (apply lxor_range; done).
    rewrite !wrap_id by (by apply lor_range).
    destruct (IH (Z.lor r0 (Z.lxor b 0)) (Z.lor r1 (Z.lxor b 255)) Hl) as [I1 I2];
      [by apply lor_range|by apply lor_range|].
    rewrite I1, I2, !Z.lor_eq_0_iff, !Z.lxor_eq_0_iff, !Forall_cons_iff. tauto.
Qed.

(** [reverse] reverses the buffer; [safe_memcmp] is 0 exactly on equal
    buffers (and 1 otherwise); [bytes_are_trivial] holds exactly of buffers
    of all zeros or all 0xff bytes. *)
Theorem buffers_correct dest s1 s2 :
  is_bytes dest -> length s1 = length s2 ->
  reverse dest (Z.of_nat (length dest)) = rev dest /\
  safe_memcmp s1 s2 (Z.of_nat (length s1)) = Z_of_bool (negb (bool_decide (s1 = s2))) /\
  (bytes_are_trivial dest (Z.of_nat (length dest)) = true <->
   Forall (fun b => b = 0) dest \/ Forall (fun b => b = 0xff) dest).
Proof.
  intros Hd Hl. split_and!; [apply reverse_rev| |].
  - unfold safe_memcmp. destruct (Z.eqb_spec (Z.of_nat (length s1)) 0) as [E|E].
    + destruct s1; [|done]. destruct s2; done.
    + rewrite Nat2Z.id. rewrite firstn_all, Hl, firstn_all. f_equal. unfold bool_of_Z. f_equal.
      apply eq_true_iff_eq. rewrite Z.eqb_eq, bool_decide_eq_true.
      unfold safe_memcmp_loop. rewrite safe_memcmp_loop_eq by done. tauto.
  - unfold bytes_are_trivial. rewrite Nat2Z.id, firstn_all.
    destruct (trivial_loop dest 0 0 Hd ltac:(done) ltac:(done)) as [H0 H1].
    destruct (fold_left _ _ _) as [r0 r1]. cbn [fst snd] in *.
    rewrite orb_true_iff, !Z.eqb_eq. tauto.
Qed.

Lemma buffers_correct_witness :
  safe_memcmp [1; 2] [1; 3] 2 = 1 /\ reverse [1; 2; 3] 3 = [3; 2; 1].
Proof.
  split.
  - apply (buffers_correct [1; 2; 3] [1; 2] [1; 3]); [concrete_range|done].
  - apply (buffers_correct [1; 2; 3] [1; 2] [1; 3]); [concrete_range|done].
Defined.

(** ** Conditions and bit scanning *)

(** What a client relies on: the current value, and whether a rise (a fall)
    happened since it last asked for one. *)
Record cond_view := CondView { cur : bool; rose : bool; fell : bool }.

Definition cond_repr (v : cond_view) : Z :=
  Z_of_bool (cur v) + 2 * Z_of_bool (rose v) + 4 * Z_of_bool (fell v).

Inductive cond_op := CondSet (val : bool) | CondWent (val : bool).

Definition view_step (v : cond_view) (op : cond_op) : cond_view * list bool :=
  match op with
  | CondSet val =>
    (CondView val (rose v || (val && negb (cur v))) (fell v || (negb val && cur v)), [])
  | CondWent true => (CondView (cur v) false (fell v), [rose v])
  | CondWent false => (CondView (cur v) (rose v) false, [fell v])
  end.
Definition cond_step (c : Z) (op : cond_op) : Z * list bool :=
  match op with
  | CondSet val => (cond_set c val, [])
  | CondWent val => let '(r, c) := cond_went c val in (c, [r])
  end.

Fixpoint run {S} (step : S -> cond_op -> S * list bool) (s : S) (ops : list cond_op) : S * list bool :=
  match ops with
  | [] => (s, [])
  | op :: ops => let '(s, o) := step s op in let '(s, os) := run step s ops in (s, o ++ os)
  end.

Lemma cond_step_view v op :
  cond_step (cond_repr v) op = let '(v', o) := view_step v op in (cond_repr v', o).
Proof. by destruct v as [[|] [|] [|]], op as [[|]|[|]]. Qed.

(** Any sequence of [cond_set] and [cond_went] calls gives the answers
    of the edge-memory view: a rise (fall) is reported by exactly one
    [cond_went], and [cond_is] is the last value set. *)
Theorem cond_refines ops val :
  let '(c, out) := run cond_step (cond_init val) ops in
  let '(v, out') := run view_step (CondView val false false) ops in
  out = out' /\ c = cond_repr v /\ forall b, cond_is c b = Bool.eqb (cur v) b.
Proof.
  assert (Hrun : forall ops v, run cond_step (cond_repr v) ops =
    let '(v', o) := run view_step v ops in (cond_repr v', o)).
  { clear. induction ops as [|op ops IH]; intros v; [done|]. cbn [run]. rewrite cond_step_view.
    destruct (view_step v op) as [v1 o1]. rewrite IH. by destruct (run view_step v1 ops). }
  replace (cond_init val) with (cond_repr (CondView val false false)) by (by destruct val).
  rewrite Hrun. destruct (run view_step _ ops) as [v out]. split_and!; [done|done|].
  intros b. by destruct v as [[|] [|] [|]], b.
Qed.

(** [get_next_bit] takes the highest set bit and clears it, so a loop that
    calls it until the mask is zero visits each set bit once, downwards. *)
Lemma get_next_bit_spec mask :
  0 < mask < 2 ^ 32 ->
  let '(bit, mask') := get_next_bit mask in
  0 <= bit < 32 /\ Z.testbit mask bit = true /\ (forall i, bit < i -> Z.testbit mask i = false) /\
  (forall i, 0 <= i -> Z.testbit mask' i = Z.testbit mask i && negb (i =? bit)).
Proof.
  intros Hm. unfold get_next_bit. pose proof (Z.log2_nonneg mask).
  assert (Z.log2 mask < 32) by (apply Z.log2_lt_pow2; lia).
  split_and!; [done|done|apply Z.bit_log2; lia|intros; apply Z.bits_above_log2; lia|].
  intros i Hi. rewrite Z.land_spec. destruct (Z.lt_ge_cases i 32).
  - f_equal. unfold wrap. rewrite Z.mod_pow2_bits_low by lia. rewrite Z.lnot_spec by done.
    unfold BIT. rewrite Z.shiftl_1_l, Z.pow2_bits_eqb by lia. f_equal. lia.
  - by rewrite (bits_above 32 mask) by (done || unfold in_range; lia).
Qed.

End Util.
