(* ===== verification/UsbSm.v ===== *)
(** * The hierarchical state machine framework (common/usbc/usb_sm.c)

    Every USB-C layer (protocol, policy engine, Type-C) is a set of
    [usb_state]s with parents, driven by [set_state] and [run_state].  The
    states' callbacks are client code: a callback is a list of segments, each
    updating the client's world and possibly calling [set_state], which may
    run further callbacks.  The nesting of calls is bounded by fuel; the
    theorems show that the calls return when the requests of entry callbacks
    are well-founded (with fuel for the longest chain of them), and that
    whatever the callbacks request, states are entered parents first and left
    children first, each exactly when its parent is active. *)

From stdpp Require Import sets.
From S2P Require Import Prelude.

Module UsbSm.

(** A pointer to a state: [None] is NULL. *)
Definition usb_state_ptr := option nat.

Section Machine.
(** The client's own state. *)
Context {W : Type}.

(** Part of a callback up to its next call of [set_state], if any. *)
Definition segment := W -> W * option usb_state_ptr.

(** A NULL callback is the empty list. *)
(** src/include/usb_sm.h:33-38 [struct usb_state] *)
Record usb_state := UsbState {
  entry : list segment; run : list segment; exit : list segment; parent : usb_state_ptr }.

Inductive event := Entered (s : nat) | Exited (s : nat) | Ran (s : nat) | Woken.

(** [struct sm_ctx] with its [internal_ctx], the client's world and the log
    of the callbacks called. *)
(** src/common/usbc/usb_sm.c:22-30 [struct internal_ctx] *)
Record sm_ctx := SmCtx {
  current : usb_state_ptr;
  previous : usb_state_ptr;
  last_entered : usb_state_ptr;
  running : bool;
  enter : bool;
  exiting : bool;
  world : W;
  log : list event }.

Context (states : list usb_state) (has_task_pd_c0 : bool).

Definition state_of (s : nat) : usb_state := nth s states (UsbState [] [] [] None).
Definition parent_of (s : nat) : usb_state_ptr := parent (state_of s).

(** A parent chain is no longer than the number of states. *)
Definition max_depth : nat := S (length states).

Definition set_current (m : sm_ctx) new :=
  SmCtx new (current m) (last_entered m) (running m) (enter m) (exiting m) (world m) (log m).
Definition set_last_entered (m : sm_ctx) s :=
  SmCtx (current m) (previous m) s (running m) (enter m) (exiting m) (world m) (log m).
Definition set_running (m : sm_ctx) b :=
  SmCtx (current m) (previous m) (last_entered m) b (enter m) (exiting m) (world m) (log m).
Definition set_enter (m : sm_ctx) b :=
  SmCtx (current m) (previous m) (last_entered m) (running m) b (exiting m) (world m) (log m).
Definition set_exiting (m : sm_ctx) b :=
  SmCtx (current m) (previous m) (last_entered m) (running m) (enter m) b (world m) (log m).
Definition set_world (m : sm_ctx) w :=
  SmCtx (current m) (previous m) (last_entered m) (running m) (enter m) (exiting m) w (log m).
Definition add_log (m : sm_ctx) e :=
  SmCtx (current m) (previous m) (last_entered m) (running m) (enter m) (exiting m) (world m)
    (log m ++ [e]).

(** The search loop at pointers [a] and [b]; the outer option is fuel. *)
(** src/common/usbc/usb_sm.c:42-57 [shared_parent_state] *)
Fixpoint shared_loop (fuel : nat) (orig_b a b : usb_state_ptr) : option usb_state_ptr :=
  match fuel with
  | O => None
  | S fuel =>
    match a with
    | None => Some None
    | Some sa =>
      if decide (a = b) then Some a
      else match b with
           | None => None
           | Some sb =>
             match parent_of sb with
             | None => shared_loop fuel orig_b (parent_of sa) orig_b
             | Some pb => shared_loop fuel orig_b a (Some pb)
             end
           end
    end
  end.

(** src/common/usbc/usb_sm.c:32-60 [shared_parent_state] *)
Definition shared_parent_state (a b : usb_state_ptr) : option usb_state_ptr :=
  match b with
  | None => Some None
  | Some _ => shared_loop (S (max_depth * max_depth)) b a b
  end.

Section Calls.
(** [set_state] as seen by the callbacks. *)
Context (set : usb_state_ptr -> sm_ctx -> option sm_ctx).

Fixpoint callback (segs : list segment) (m : sm_ctx) : option sm_ctx :=
  match segs with
  | [] => Some m
  | seg :: segs =>
    let '(w, req) := seg (world m) in
    match req with
    | None => callback segs (set_world m w)
    | Some target => m ← set target (set_world m w); callback segs m
    end
  end.

(** [n] bounds the length of the parent chain; reaching NULL before [stop]
    would be a null dereference. *)
(** src/common/usbc/usb_sm.c:62-88 [call_entry_functions] *)
Fixpoint call_entry_functions (n : nat) (stop current : usb_state_ptr) (m : sm_ctx)
    : option sm_ctx :=
  if decide (current = stop) then Some m
  else match n, current with
       | S n, Some s =>
         m ← call_entry_functions n stop (parent_of s) m;
         if enter m
         then callback (entry (state_of s)) (add_log (set_last_entered m (Some s)) (Entered s))
         else Some m
       | _, _ => None
       end.

(** src/common/usbc/usb_sm.c:90-104 [call_exit_functions] *)
Fixpoint call_exit_functions (n : nat) (stop current : usb_state_ptr) (m : sm_ctx)
    : option sm_ctx :=
  if decide (current = stop) then Some m
  else match n, current with
       | S n, Some s =>
         m ← callback (exit (state_of s)) (add_log m (Exited s));
         call_exit_functions n stop (parent_of s) m
       | _, _ => None
       end.

(** src/common/usbc/usb_sm.c:173-193 [call_run_functions] *)
Fixpoint call_run_functions (n : nat) (current : usb_state_ptr) (m : sm_ctx) : option sm_ctx :=
  match current with
  | None => Some m
  | Some s =>
    if negb (running m) then Some m
    else match n with
         | O => None
         | S n =>
           m ← callback (run (state_of s)) (add_log m (Ran s));
           call_run_functions n (parent_of s) m
         end
  end.
End Calls.

(** src/common/usbc/usb_sm.c:106-171 [set_state] *)
Fixpoint set_state (fuel : nat) (new_state : usb_state_ptr) (m : sm_ctx) : option sm_ctx :=
  match fuel with
  | O => None
  | S fuel =>
    if exiting m then Some m
    else
      let last_state := if enter m then last_entered m else current m in
      shared_parent ← shared_parent_state last_state new_state;
      m ← call_exit_functions (set_state fuel) max_depth shared_parent last_state
            (set_exiting m true);
      let m := set_current (set_exiting m false) new_state in
      let m := set_enter (set_last_entered m None) true in
      m ← call_entry_functions (set_state fuel) max_depth shared_parent (current m) m;
      let m := set_running (set_enter m false) false in
      Some (if has_task_pd_c0 then add_log m Woken else m)
  end.

(** src/common/usbc/usb_sm.c:195-202 [run_state] *)
Definition run_state (fuel : nat) (m : sm_ctx) : option sm_ctx :=
  let m := set_running m true in
  m ← call_run_functions (set_state fuel) max_depth (current m) m;
  Some (set_running m false).

(** ** Parent chains *)

(** A state and its ancestors, innermost first. *)
Fixpoint chain_n (n : nat) (s : usb_state_ptr) : list nat :=
  match n, s with
  | S n, Some s => s :: chain_n n (parent_of s)
  | _, _ => []
  end.
Definition chain (s : usb_state_ptr) : list nat := chain_n max_depth s.

(** The parent pointers have no cycles. *)
Definition acyclic : Prop := exists rank : nat -> nat,
  (forall s p, parent_of s = Some p -> (rank p < rank s)%nat) /\
  (forall s, (rank s < max_depth)%nat).

Hypothesis no_cycles : acyclic.

Lemma chain_stable :
  exists rank : usb_state_ptr -> nat,
    rank None = 0%nat /\
    (forall s, (rank (parent_of s) < rank (Some s))%nat) /\
    (forall s, (rank s <= max_depth)%nat) /\
    (forall n s, (rank s <= n)%nat -> chain_n n s = chain s) .
Proof.
  destruct no_cycles as (rank & Hp & Hb).
  set (r := fun s : usb_state_ptr => match s with None => 0%nat | Some s => S (rank s) end).
  assert (Hr : forall s, (r (parent_of s) < r (Some s))%nat).
  { intros s. destruct (parent_of s) eqn:E; simpl; [specialize (Hp _ _ E)|]; lia. }
  assert (Hm : forall s, (r s <= max_depth)%nat).
  { intros [s|]; simpl; [specialize (Hb s)|]; lia. }
  exists r. split_and!; [done|done|done|].
  assert (Hst : forall n k s, (r s <= n)%nat -> (n <= k)%nat -> chain_n n s = chain_n k s).
  { induction n as [|n IH]; intros k [s|] Hn Hk; try (simpl in *; lia).
    - by destruct k.
    - destruct k; [lia|]. cbn [chain_n]. f_equal. specialize (Hr s). apply IH; lia.
    - by destruct k. }
  intros n s Hn. unfold chain. specialize (Hm s).
  destruct (Nat.le_ge_cases n max_depth); [by apply Hst|symmetry; by apply Hst].
Qed.

Lemma chain_none : chain None = [].
Proof. done. Qed.

Lemma chain_some s : chain (Some s) = s :: chain (parent_of s).
Proof.
  destruct chain_stable as (r & H0 & Hp & Hm & Hs).
  unfold chain at 1, max_depth. cbn [chain_n]. f_equal. apply Hs.
  specialize (Hp s). specialize (Hm (Some s)). unfold max_depth in *. lia.
Qed.

Lemma chain_length s : (length (chain s) <= max_depth)%nat.
Proof.
  unfold chain. generalize max_depth. intros n. revert s.
  induction n as [|n IH]; intros [s|]; simpl; try lia. specialize (IH (parent_of s)). lia.
Qed.

(** Induction along the parents. *)
Lemma chain_ind (P : usb_state_ptr -> Prop) :
  P None -> (forall s, P (parent_of s) -> P (Some s)) -> forall s, P s.
Proof.
  intros H0 HS s. destruct chain_stable as (r & _ & Hp & _ & _).
  remember (r s) as k eqn:E. assert (Hk : (r s <= k)%nat) by lia. clear E. revert s Hk.
  induction k as [|k IH]; intros [s|] Hk; try done.
  - specialize (Hp s). lia.
  - apply HS, IH. specialize (Hp s). lia.
Qed.

Lemma chain_inj a b : chain a = chain b -> a = b.
Proof. destruct a, b; rewrite ?chain_some, ?chain_none; intros [=]; congruence. Qed.

(** [stop] is [s], an ancestor of it, or NULL. *)
Lemma chain_suffix stop s :
  (exists pre, chain s = pre ++ chain stop) <-> stop = None \/ (exists x, stop = Some x /\ x ∈ chain s).
Proof.
  split.
  - intros [pre H]. destruct stop as [x|]; [right|by left]. exists x. split; [done|].
    rewrite H, chain_some. set_solver.
  - intros [->|(x & -> & Hx)]; [exists (chain s); by rewrite chain_none, app_nil_r|].
    revert s Hx. apply (chain_ind (fun s => x ∈ chain s -> exists pre, chain s = pre ++ chain (Some x))).
    + rewrite chain_none. set_solver.
    + intros s IH. rewrite (chain_some s). rewrite elem_of_cons. intros [->|Hx].
      * exists []. by rewrite chain_some.
      * destruct (IH Hx) as [pre E]. exists (s :: pre). by rewrite E.
Qed.

(** ** The shared parent *)

(** The first of [a] and its ancestors that is [b] or an ancestor of it. *)
Definition first_shared (a b : usb_state_ptr) : usb_state_ptr :=
  head (filter (fun s => s ∈ chain b) (chain a)).

Lemma shared_inner orig sa : forall b f,
  b <> None ->
  shared_loop (length (chain b) + f) orig (Some sa) b =
    if decide (sa ∈ chain b) then Some (Some sa)
    else shared_loop f orig (parent_of sa) orig.
Proof.
  intros b. pattern b. revert b. apply chain_ind; [done|]. intros sb IH f _.
  rewrite (chain_some sb). cbn [length Nat.add shared_loop].
  destruct (decide (sa = sb)) as [->|Hab]; [rewrite !decide_True by set_solver; done|].
  rewrite decide_False by congruence. destruct (parent_of sb) as [pb|] eqn:E.
  - rewrite IH by done. apply decide_ext. rewrite elem_of_cons. naive_solver.
  - rewrite chain_none. rewrite decide_False by set_solver. done.
Qed.

Lemma shared_outer orig f : orig <> None ->
  forall a, shared_loop (length (chain a) * length (chain orig) + S f) orig a orig
    = Some (first_shared a orig).
Proof.
  intros Ho a. pattern a. revert a. apply chain_ind; [done|]. intros s IH.
  unfold first_shared in *. rewrite (chain_some s). cbn [length].
  replace (S (length (chain (parent_of s))) * length (chain orig) + S f)%nat
    with (length (chain orig) + (length (chain (parent_of s)) * length (chain orig) + S f))%nat by lia.
  rewrite shared_inner by done. rewrite filter_cons. by destruct (decide (s ∈ chain orig)).
Qed.

Lemma shared_loop_mono fuel : forall k orig a b x,
  shared_loop fuel orig a b = Some x -> (fuel <= k)%nat -> shared_loop k orig a b = Some x.
Proof.
  induction fuel as [|fuel IH]; intros k orig a b x H Hk; [done|].
  destruct k as [|k]; [lia|]. cbn [shared_loop] in *. destruct a as [sa|]; [|done].
  destruct (decide _); [done|]. destruct b as [sb|]; [|done].
  destruct (parent_of sb); apply IH; (done || lia).
Qed.

Lemma shared_parent_spec a b : shared_parent_state a b = Some (first_shared a b).
Proof.
  unfold shared_parent_state. destruct b as [sb|].
  - eapply shared_loop_mono; [apply (shared_outer (Some sb) 0); done|].
    pose proof (chain_length a). pose proof (chain_length (Some sb)). nia.
  - unfold first_shared. rewrite chain_none.
    assert (filter (fun s => s ∈ []) (chain a) = []) as ->; [|done].
    induction (chain a) as [|x l IH]; [done|].
    rewrite filter_cons, decide_False by set_solver. done.
Qed.

Lemma first_shared_suffix a b :
  (exists pre, chain a = pre ++ chain (first_shared a b)) /\
  (exists pre, chain b = pre ++ chain (first_shared a b)).
Proof.
  rewrite !chain_suffix. unfold first_shared.
  destruct (filter (fun s => s ∈ chain b) (chain a)) as [|x l] eqn:E; simpl; [auto|].
  assert (Hx : x ∈ filter (fun s => s ∈ chain b) (chain a)) by (rewrite E; set_solver).
  apply list_elem_of_filter in Hx as [H1 H2]. split; right; eauto.
Qed.

(** ** Entry and exit discipline *)

(** Replaying a log on the stack of active states: a state is entered on top
    of its parent, only the innermost active state is left, only an active
    state runs. *)
Definition replay_step (st : option (list nat)) (e : event) : option (list nat) :=
  st ← st;
  match e with
  | Entered s => if decide (head st = parent_of s) then Some (s :: st) else None
  | Exited s =>
    match st with
    | x :: st => if decide (x = s) then Some st else None
    | [] => None
    end
  | Ran s => if decide (s ∈ st) then Some st else None
  | Woken => Some st
  end.
Definition replay (l : list event) : option (list nat) := fold_left replay_step l (Some []).
Definition active_stack (m : sm_ctx) (s : usb_state_ptr) : Prop := replay (log m) = Some (chain s).

Definition is_ran (e : event) : Prop := match e with Ran _ => True | _ => False end.
(** Only transitions were logged since [m]. *)
Definition no_runs (m m' : sm_ctx) : Prop :=
  exists ext, log m' = log m ++ ext /\ Forall (fun e => ~ is_ran e) ext.

Lemma no_runs_refl m m' : log m' = log m -> no_runs m m'.
Proof. intros H. exists []. by rewrite H, app_nil_r. Qed.
Lemma no_runs_trans m1 m2 m3 : no_runs m1 m2 -> no_runs m2 m3 -> no_runs m1 m3.
Proof.
  intros (e1 & H1 & F1) (e2 & H2 & F2). exists (e1 ++ e2). split; [by rewrite H2, H1, app_assoc|].
  by apply Forall_app.
Qed.
Lemma no_runs_log m e : ~ is_ran e -> no_runs m (add_log m e).
Proof. intros H. exists [e]. split; [done|by repeat constructor]. Qed.

Lemma replay_snoc m e : replay (log (add_log m e)) = replay_step (replay (log m)) e.
Proof. unfold replay. simpl. by rewrite fold_left_app. Qed.

Lemma head_chain s : head (chain s) = s.
Proof. destruct s; by rewrite ?chain_some, ?chain_none. Qed.

Lemma stack_entered m s :
  active_stack m (parent_of s) -> active_stack (add_log m (Entered s)) (Some s).
Proof.
  intros H. unfold active_stack. rewrite replay_snoc, H. simpl.
  rewrite head_chain, decide_True by done. by rewrite chain_some.
Qed.
Lemma stack_exited m s :
  active_stack m (Some s) -> active_stack (add_log m (Exited s)) (parent_of s).
Proof.
  intros H. unfold active_stack. rewrite replay_snoc, H, chain_some. simpl.
  by rewrite decide_True by done.
Qed.

(** Where [set_state] leaves from. *)
Definition last_state (m : sm_ctx) : usb_state_ptr := if enter m then last_entered m else current m.

(** A completed transition. *)
Definition settled (m : sm_ctx) : Prop :=
  exiting m = false /\ enter m = false /\ running m = false /\ active_stack m (current m).

(** What a callback relies on when it calls [set_state]. *)
Definition set_spec (set : usb_state_ptr -> sm_ctx -> option sm_ctx) : Prop :=
  forall new m m', set new m = Some m' ->
    (exiting m = true -> m' = m) /\
    (exiting m = false -> active_stack m (last_state m) -> settled m' /\ no_runs m m').

Section Spec.
Context (set : usb_state_ptr -> sm_ctx -> option sm_ctx) (Hset : set_spec set).

(** An exit callback only changes the world. *)
Lemma callback_exiting segs : forall m m',
  exiting m = true -> callback set segs m = Some m' -> exists w, m' = set_world m w.
Proof.
  induction segs as [|seg segs IH]; intros m m' He H; cbn [callback] in H.
  - injection H as <-. exists (world m). by destruct m.
  - destruct (seg (world m)) as [w [t|]].
    + destruct (set t (set_world m w)) as [m1|] eqn:E; simpl in H; [|done].
      destruct (Hset _ _ _ E) as [H1 _]. rewrite (H1 He) in H.
      destruct (IH (set_world m w) _ He H) as [w' ->]. by exists w'.
    + destruct (IH (set_world m w) m' He H) as [w' ->]. by exists w'.
Qed.

(** An entry or run callback leaves things as they were or settles. *)
Lemma callback_active segs : forall m m',
  exiting m = false -> active_stack m (last_state m) -> callback set segs m = Some m' ->
  ((exists w, m' = set_world m w) \/ settled m') /\ no_runs m m'.
Proof.
  induction segs as [|seg segs IH]; intros m m' He Ha H; cbn [callback] in H.
  - injection H as <-. split; [left; exists (world m); by destruct m|by apply no_runs_refl].
  - destruct (seg (world m)) as [w [t|]].
    + destruct (set t (set_world m w)) as [m1|] eqn:E; simpl in H; [|done].
      destruct (Hset _ _ _ E) as [_ H1]. destruct (H1 He Ha) as [Hs Hr]. clear H1.
      assert (Hl : active_stack m1 (last_state m1)).
      { unfold last_state. destruct Hs as (_ & -> & _ & Hs). exact Hs. }
      destruct (IH m1 m' (proj1 Hs) Hl H) as [[[w' ->]|Hs'] Hr'].
      * split; [right; exact Hs|]. exact (no_runs_trans (set_world m w) _ _ Hr Hr').
      * split; [by right|]. exact (no_runs_trans (set_world m w) _ _ Hr Hr').
    + destruct (IH (set_world m w) m' He Ha H) as [[[w' ->]|Hs'] Hr'].
      * split; [left; by exists w'|done].
      * split; [by right|done].
Qed.

Lemma exit_spec n stop : forall cur m m',
  exiting m = true -> active_stack m cur ->
  call_exit_functions set n stop cur m = Some m' ->
  active_stack m' stop /\ no_runs m m' /\ current m' = current m /\ exiting m' = true.
Proof.
  induction n as [|n IH]; intros cur m m' He Ha H; cbn [call_exit_functions] in H.
  - destruct (decide (cur = stop)) as [->|]; [|done]. injection H as <-.
    split_and!; [done|by apply no_runs_refl|done|done].
  - destruct (decide (cur = stop)) as [->|].
    { injection H as <-. split_and!; [done|by apply no_runs_refl|done|done]. }
    destruct cur as [s|]; [|done].
    destruct (callback set _ _) as [m1|] eqn:E; simpl in H; [|done].
    destruct (callback_exiting _ (add_log m (Exited s)) _ He E) as [w ->].
    destruct (IH (parent_of s) (set_world (add_log m (Exited s)) w) m' He) as (H1 & H2 & H3 & H4);
      [by apply (stack_exited m)|done|].
    split_and!; [done| |done|done].
    eapply no_runs_trans; [|exact H2]. by apply (no_runs_log m (Exited s)); intros [].
Qed.

Lemma entry_spec n stop : forall cur m m',
  exiting m = false -> enter m = true -> active_stack m stop ->
  call_entry_functions set n stop cur m = Some m' ->
  exiting m' = false /\ no_runs m m' /\
  ((enter m' = true /\ current m' = current m /\ active_stack m' cur) \/
   (enter m' = false /\ active_stack m' (current m'))).
Proof.
  induction n as [|n IH]; intros cur m m' He Hen Ha H; cbn [call_entry_functions] in H.
  - destruct (decide (cur = stop)) as [->|]; [|done]. injection H as <-.
    split_and!; [done|by apply no_runs_refl|by left].
  - destruct (decide (cur = stop)) as [->|].
    { injection H as <-. split_and!; [done|by apply no_runs_refl|by left]. }
    destruct cur as [s|]; [|done].
    destruct (call_entry_functions set n stop (parent_of s) m) as [m1|] eqn:E; simpl in H; [|done].
    destruct (IH _ _ _ He Hen Ha E) as (He1 & Hr1 & [(Hen1 & Hc1 & Ha1)|(Hen1 & Ha1)]).
    2:{ rewrite Hen1 in H. injection H as <-. split_and!; [done|done|by right]. }
    rewrite Hen1 in H.
    set (m2 := add_log (set_last_entered m1 (Some s)) (Entered s)) in *.
    assert (Ha2 : active_stack m2 (Some s)) by (by apply (stack_entered (set_last_entered m1 (Some s)))).
    assert (Hl2 : last_state m2 = Some s) by (unfold last_state, m2; simpl; by rewrite Hen1).
    assert (Hr2 : no_runs m m2).
    { eapply no_runs_trans; [exact Hr1|].
      apply (no_runs_log (set_last_entered m1 (Some s)) (Entered s)). by intros []. }
    assert (Ha2' : active_stack m2 (last_state m2)) by (by rewrite Hl2).
    destruct (callback_active _ m2 m' He1 Ha2' H) as [[[w ->]|Hs] Hr'].
    + split_and!; [done|by eapply no_runs_trans|left; by split_and!].
    + split_and!; [apply Hs|by eapply no_runs_trans|right; split; apply Hs].
Qed.
End Spec.

Lemma set_state_spec fuel : set_spec (set_state fuel).
Proof.
  induction fuel as [|fuel IH]; intros new m m' H; [done|]. cbn [set_state] in H.
  destruct (exiting m) eqn:Ex; [split; [by injection H|done]|]. split; [done|]. intros _ Ha.
  rewrite shared_parent_spec in H. cbn [mbind option_bind] in H. fold (last_state m) in H.
  set (sp := first_shared (last_state m) new) in *.
  destruct (call_exit_functions _ _ _ _ _) as [m1|] eqn:E1; cbn [mbind option_bind] in H; [|done].
  destruct (exit_spec _ IH _ _ _ _ _ (eq_refl : exiting (set_exiting m true) = true) Ha E1)
    as (Ha1 & Hr1 & Hc1 & He1).
  set (m2 := set_enter _ true) in *.
  destruct (call_entry_functions _ _ _ _ _) as [m3|] eqn:E3; cbn [mbind option_bind] in H; [|done].
  destruct (entry_spec _ IH _ _ _ m2 _ eq_refl eq_refl Ha1 E3) as (He3 & Hr3 & Hcase).
  assert (Hr : no_runs m m3) by exact (no_runs_trans m m1 m3 Hr1 Hr3).
  assert (Ha3 : active_stack m3 (current m3)).
  { destruct Hcase as [(_ & -> & Hs)|(_ & Hs)]; exact Hs. }
  destruct has_task_pd_c0; injection H as <-.
  - split.
    + split_and!; [done|done|done|]. unfold active_stack. rewrite replay_snoc.
      change (log (set_running (set_enter m3 false) false)) with (log m3). by rewrite Ha3.
    + eapply no_runs_trans; [exact Hr|]. apply (no_runs_log m3 Woken). by intros [].
  - split; [by split_and!|exact Hr].
Qed.

(** ** Runs of the machine *)

Inductive sm_op := OpSet (new_state : usb_state_ptr) | OpRun.

Definition sm_init (w : W) : sm_ctx := SmCtx None None None false false false w [].

Fixpoint exec (fuel : nat) (ops : list sm_op) (m : sm_ctx) : option sm_ctx :=
  match ops with
  | [] => Some m
  | OpSet new :: ops => m ← set_state fuel new m; exec fuel ops m
  | OpRun :: ops => m ← run_state fuel m; exec fuel ops m
  end.

(** Between calls: no transition in progress, the active states are the
    current one and its ancestors. *)
Definition idle (m : sm_ctx) : Prop :=
  exiting m = false /\ enter m = false /\ active_stack m (current m).

Lemma run_spec fuel n : forall cur m m',
  idle m -> (running m = true -> exists pre, chain (current m) = pre ++ chain cur) ->
  call_run_functions (set_state fuel) n cur m = Some m' -> idle m'.
Proof.
  induction n as [|n IH]; intros cur m m' Hi Hpre H; cbn [call_run_functions] in H.
  - destruct cur; [|by injection H as <-]. destruct (running m); [done|by injection H as <-].
  - destruct cur as [s|]; [|by injection H as <-].
    destruct (running m) eqn:Er; cbn [negb] in H; [|by injection H as <-].
    destruct (Hpre eq_refl) as [pre E]. destruct Hi as (He & Hen & Ha).
    destruct (callback _ _ _) as [m1|] eqn:E1; cbn [mbind option_bind] in H; [|done].
    assert (Ha1 : active_stack (add_log m (Ran s)) (current m)).
    { unfold active_stack. rewrite replay_snoc, Ha. simpl. rewrite decide_True; [done|].
      rewrite E, chain_some. set_solver. }
    assert (Ha2 : active_stack (add_log m (Ran s)) (last_state (add_log m (Ran s))))
      by (unfold last_state; simpl; by rewrite Hen).
    destruct (callback_active _ (set_state_spec fuel) _ (add_log m (Ran s)) m1 He Ha2 E1)
      as [[[w ->]|Hs] _].
    + refine (IH (parent_of s) (set_world (add_log m (Ran s)) w) m' _ _ H).
      * split_and!; [done|done|exact Ha1].
      * intros _. exists (pre ++ [s]). simpl. rewrite E, chain_some, <- app_assoc. done.
    + refine (IH (parent_of s) m1 m' _ _ H).
      * destruct Hs as (? & ? & ? & ?). by split_and!.
      * intros Hr. destruct Hs as (_ & _ & Hr' & _). congruence.
Qed.

Lemma exec_idle fuel ops : forall m m', idle m -> exec fuel ops m = Some m' -> idle m'.
Proof.
  induction ops as [|[new|] ops IH]; intros m m' Hi H; cbn [exec] in H.
  - by injection H as <-.
  - destruct (set_state fuel new m) as [m1|] eqn:E; cbn [mbind option_bind] in H; [|done].
    destruct (set_state_spec fuel _ _ _ E) as [_ H1]. destruct Hi as (He & Hen & Ha).
    destruct (H1 He) as [(? & ? & ? & ?) _]; [unfold last_state; by rewrite Hen|].
    eapply IH; [|exact H]. by split_and!.
  - unfold run_state in H. cbn [current] in H.
    destruct (call_run_functions _ _ _ _) as [m1|] eqn:E; cbn [mbind option_bind] in H; [|done].
    assert (Hi1 : idle m1).
    { refine (run_spec _ _ _ (set_running m true) _ Hi _ E). intros _. by exists []. }
    eapply IH; [|exact H]. exact Hi1.
Qed.

(** ** Transitions whose entry callbacks are quiet *)

Definition quiet (segs : list segment) : Prop := Forall (fun seg : segment => forall w, (seg w).2 = None) segs.

Definition set_wl (m : sm_ctx) (w : W) (l : list event) : sm_ctx :=
  SmCtx (current m) (previous m) (last_entered m) (running m) (enter m) (exiting m) w l.

Lemma callback_quiet set segs : forall m,
  quiet segs -> exists w, callback set segs m = Some (set_wl m w (log m)).
Proof.
  induction segs as [|seg segs IH]; intros m Hq; [exists (world m); by destruct m|].
  apply Forall_cons_1 in Hq as [Hseg Hq]. cbn [callback]. specialize (Hseg (world m)).
  destruct (seg (world m)) as [w r]. simpl in Hseg. subst r.
  destruct (IH (set_world m w) Hq) as [w' ->]. by exists w'.
Qed.

Lemma callback_ignored fuel segs : forall m,
  exiting m = true -> exists w, callback (set_state (S fuel)) segs m = Some (set_wl m w (log m)).
Proof.
  induction segs as [|seg segs IH]; intros m He; [exists (world m); by destruct m|].
  cbn [callback]. destruct (seg (world m)) as [w [t|]].
  - assert (set_state (S fuel) t (set_world m w) = Some (set_world m w)) as ->
      by (cbn [set_state exiting set_world]; by rewrite He).
    cbn [mbind option_bind]. destruct (IH (set_world m w) He) as [w' ->]. by exists w'.
  - destruct (IH (set_world m w) He) as [w' ->]. by exists w'.
Qed.

Lemma chain_split_cons s pre stop cur :
  chain cur = (s :: pre) ++ chain stop ->
  cur = Some s /\ cur <> stop /\ chain (parent_of s) = pre ++ chain stop.
Proof.
  intros E. destruct cur as [s'|]; [|by rewrite chain_none in E].
  assert (Some s' <> stop).
  { intros <-. apply (f_equal length) in E. rewrite !length_app in E. simpl in E. lia. }
  rewrite chain_some in E. injection E as <- E. by split_and!.
Qed.

Lemma exit_total fuel stop pre : forall n cur m,
  chain cur = pre ++ chain stop -> (length pre <= n)%nat -> exiting m = true ->
  exists w, call_exit_functions (set_state (S fuel)) n stop cur m =
    Some (set_wl m w (log m ++ (Exited <$> pre))).
Proof.
  induction pre as [|s pre IH]; intros n cur m E Hn He.
  - apply chain_inj in E as ->. exists (world m). simpl. rewrite app_nil_r.
    destruct n; cbn [call_exit_functions]; rewrite decide_True by done; by destruct m.
  - apply chain_split_cons in E as (-> & Hne & E). destruct n as [|n]; [simpl in Hn; lia|].
    cbn [call_exit_functions]. rewrite decide_False by done.
    destruct (callback_ignored fuel (exit (state_of s)) (add_log m (Exited s)) He) as [w ->].
    cbn [mbind option_bind].
    destruct (IH n (parent_of s) (set_wl (add_log m (Exited s)) w (log (add_log m (Exited s)))) E)
      as [w' ->]; [simpl in Hn; lia|done|].
    exists w'. unfold set_wl. simpl. by rewrite <- app_assoc.
Qed.

(** ** Termination

    Entering a state can lead to another transition only through the entry
    callbacks of the state and of its ancestors; when every target they may
    request is lower in some order of height at most [K], transitions nest no
    deeper than [K]. *)
Definition requests (segs : list segment) (target : usb_state_ptr) : Prop :=
  exists (seg : segment) w, seg ∈ segs /\ (seg w).2 = Some target.
Definition orderly (K : nat) (rank : usb_state_ptr -> nat) : Prop :=
  (forall s, (rank s <= K)%nat) /\
  (forall target s next, s ∈ chain target -> requests (entry (state_of s)) next -> (rank next < rank target)%nat).

Lemma callback_total set segs : forall m,
  (forall target m, requests segs target -> exists m', set target m = Some m') ->
  exists m', callback set segs m = Some m'.
Proof.
  induction segs as [|seg segs IH]; intros m Hset; [by exists m|]. cbn [callback].
  assert (Hset' : forall target m, requests segs target -> exists m', set target m = Some m').
  { intros target m0 (sg & w & Hin & E). apply Hset. exists sg, w. split; [by right|done]. }
  destruct (seg (world m)) as [w [target|]] eqn:E; [|by apply IH].
  destruct (Hset target (set_world m w)) as [m1 ->]; [|by apply IH].
  exists seg, (world m). rewrite E. split; [by left|done].
Qed.

Lemma entry_returns set stop pre : forall n cur m,
  chain cur = pre ++ chain stop -> (length pre <= n)%nat ->
  (forall s target m, s ∈ pre -> requests (entry (state_of s)) target -> exists m', set target m = Some m') ->
  exists m', call_entry_functions set n stop cur m = Some m'.
Proof.
  induction pre as [|s pre IH]; intros n cur m E Hn Hset.
  - apply chain_inj in E as ->. exists m. destruct n; cbn [call_entry_functions]; by rewrite decide_True.
  - apply chain_split_cons in E as (-> & Hne & E). destruct n as [|n]; [simpl in Hn; lia|].
    cbn [call_entry_functions]. rewrite decide_False by done.
    destruct (IH n (parent_of s) m E) as [m1 ->]; [simpl in Hn; lia|intros; eapply Hset; [by right|done]|].
    cbn [mbind option_bind]. destruct (enter m1); [|by eexists].
    apply callback_total. intros target m2. apply Hset. by left.
Qed.

Lemma set_returns K rank : orderly K rank -> forall fuel target m,
  (rank target + 2 <= fuel)%nat -> exists m', set_state fuel target m = Some m'.
Proof.
  intros [_ Hord]. induction fuel as [|fuel IH]; intros target m Hf; [lia|]. cbn [set_state].
  destruct (exiting m) eqn:He; [by eexists|]. rewrite shared_parent_spec. cbn [mbind option_bind].
  set (last := if enter m then last_entered m else current m).
  destruct (first_shared_suffix last target) as [[pre_old Eo] [pre_new En]].
  set (shared := first_shared last target) in *.
  assert (Hlo : (length pre_old <= max_depth)%nat) by (pose proof (chain_length last) as L; rewrite Eo, length_app in L; lia).
  assert (Hln : (length pre_new <= max_depth)%nat) by (pose proof (chain_length target) as L; rewrite En, length_app in L; lia).
  destruct fuel as [|fuel']; [lia|].
  destruct (exit_total fuel' shared pre_old max_depth last (set_exiting m true) Eo Hlo eq_refl) as [w ->].
  cbn [mbind option_bind]. set (m2 := set_enter _ true).
  destruct (entry_returns (set_state (S fuel')) shared pre_new max_depth (current m2) m2 En Hln) as [m3 ->]; [|by eexists].
  intros s next m4 Hs Hreq. apply IH.
  assert (Hin : s ∈ chain target) by (rewrite En; set_solver). specialize (Hord target s next Hin Hreq). lia.
Qed.

Lemma run_returns set : (forall target m, exists m', set target m = Some m') -> forall pre n cur m,
  chain cur = pre -> (length pre <= n)%nat -> exists m', call_run_functions set n cur m = Some m'.
Proof.
  intros Hset. induction pre as [|s pre IH]; intros n cur m E Hn.
  - destruct cur as [s|]; [by rewrite chain_some in E|]. exists m. by destruct n.
  - destruct cur as [s'|]; [|by rewrite chain_none in E]. rewrite chain_some in E. injection E as -> E.
    destruct n as [|n]; [simpl in Hn; lia|]. cbn [call_run_functions].
    destruct (running m); cbn [negb]; [|by eexists].
    destruct (callback_total set (run (state_of s)) (add_log m (Ran s))) as [m1 ->]; [auto|].
    cbn [mbind option_bind]. apply IH; [done|simpl in Hn; lia].
Qed.

Lemma exec_returns K rank fuel ops : orderly K rank -> (K + 2 <= fuel)%nat -> forall m,
  exists m', exec fuel ops m = Some m'.
Proof.
  intros Hord Hf.
  assert (Hset : forall target m, exists m', set_state fuel target m = Some m').
  { intros target m. apply (set_returns K rank Hord). destruct Hord as [Hk _]. specialize (Hk target). lia. }
  induction ops as [|[new|] ops IH]; intros m; cbn [exec]; [by eexists|..].
  - destruct (Hset new m) as [m1 ->]. apply IH.
  - unfold run_state. destruct (run_returns (set_state fuel) Hset (chain (current (set_running m true))) max_depth
      (current (set_running m true)) (set_running m true) eq_refl (chain_length _)) as [m1 ->]. apply IH.
Qed.

(** C28. The framework keeps its discipline.  When no chain of requests of
    entry callbacks is longer than [K] (exit and run callbacks may request
    anything, in any client's world), every sequence of [set_state] and
    [run_state] calls returns; and whatever the callbacks do, when such a
    sequence has returned the log of callbacks replays on a stack: every state
    was entered when exactly its ancestors were active, left when it was the
    innermost active state, and run only while active; at the end exactly the
    current state and its ancestors are active and no transition is in
    progress. *)
Theorem sm_discipline fuel ops w :
  let disciplined m := replay (log m) = Some (chain (current m)) /\ enter m = false /\ exiting m = false in
  (forall K rank, orderly K rank -> (K + 2 <= fuel)%nat -> exists m, exec fuel ops (sm_init w) = Some m /\ disciplined m) /\
  (forall m, exec fuel ops (sm_init w) = Some m -> disciplined m).
Proof.
  intros disciplined.
  assert (Hd : forall m, exec fuel ops (sm_init w) = Some m -> disciplined m).
  { intros m H. destruct (exec_idle fuel ops (sm_init w) m) as (? & ? & ?); [by split_and!|done|]. by split_and!. }
  split; [|done]. intros K rank Hord Hf. destruct (exec_returns K rank fuel ops Hord Hf (sm_init w)) as [m E].
  exists m. split; [done|by apply Hd].
Qed.

Lemma entry_total set stop pre : forall n cur m,
  chain cur = pre ++ chain stop -> (length pre <= n)%nat -> enter m = true ->
  Forall (fun s => quiet (entry (state_of s))) pre ->
  exists w, call_entry_functions set n stop cur m =
    Some (set_wl (if pre is [] then m else set_last_entered m cur) w
            (log m ++ (Entered <$> reverse pre))).
Proof.
  induction pre as [|s pre IH]; intros n cur m E Hn Hen Hq.
  - apply chain_inj in E as ->. exists (world m). simpl. rewrite app_nil_r.
    destruct n; cbn [call_entry_functions]; rewrite decide_True by done; by destruct m.
  - apply chain_split_cons in E as (-> & Hne & E). destruct n as [|n]; [simpl in Hn; lia|].
    apply Forall_cons_1 in Hq as [Hqs Hq].
    cbn [call_entry_functions]. rewrite decide_False by done.
    destruct (IH n (parent_of s) m E) as [w ->]; [simpl in Hn; lia|done|done|].
    cbn [mbind option_bind]. set (m1 := set_wl _ w _).
    assert (enter m1 = true) as -> by (unfold m1; by destruct pre).
    destruct (callback_quiet set (entry (state_of s))
      (add_log (set_last_entered m1 (Some s)) (Entered s)) Hqs) as [w' ->].
    exists w'. f_equal. unfold m1, set_wl. rewrite reverse_cons, fmap_app, app_assoc.
    by destruct pre.
Qed.

(** A transition from an idle machine terminates when the entry
    callbacks of the states it enters make no request; it exits the states
    below the shared parent children first (requests of exit callbacks being
    ignored), then enters the new ones parents first, leaves shared states
    alone, and records the new and the previous state.  [shared] is the first
    ancestor-or-self of the old state that is one of the new state. *)
Theorem set_state_transition fuel new m pre_old pre_new :
  let shared := first_shared (current m) new in
  exiting m = false -> enter m = false ->
  chain (current m) = pre_old ++ chain shared -> chain new = pre_new ++ chain shared ->
  Forall (fun s => quiet (entry (state_of s))) pre_new ->
  exists m', set_state (S (S fuel)) new m = Some m' /\
    current m' = new /\ previous m' = current m /\
    running m' = false /\ enter m' = false /\ exiting m' = false /\
    log m' = log m ++ (Exited <$> pre_old) ++ (Entered <$> reverse pre_new)
               ++ (if has_task_pd_c0 then [Woken] else []).
Proof.
  intros shared He Hen Eo En Hq.
  assert (Hlo : (length pre_old <= max_depth)%nat).
  { pose proof (chain_length (current m)) as L. rewrite Eo, length_app in L. lia. }
  assert (Hln : (length pre_new <= max_depth)%nat).
  { pose proof (chain_length new) as L. rewrite En, length_app in L. lia. }
  remember (S fuel) as f1 eqn:Ef. cbn [set_state]. rewrite He, Hen, shared_parent_spec.
  cbn [mbind option_bind]. fold shared. subst f1.
  destruct (exit_total fuel shared pre_old max_depth (current m) (set_exiting m true) Eo Hlo eq_refl)
    as [w ->].
  cbn [mbind option_bind]. set (m2 := set_enter _ true).
  destruct (entry_total (set_state (S fuel)) shared pre_new max_depth (current m2) m2 En Hln eq_refl Hq)
    as [w' ->].
  cbn [mbind option_bind]. eexists. split; [done|].
  destruct has_task_pd_c0, pre_new; simpl; split_and!; try done;
    unfold m2, set_wl, set_current; simpl; rewrite <- ?app_assoc, ?app_nil_r; done.
Qed.

(** ** Run order *)

Lemma run_total set pre : forall n cur m stop,
  chain cur = pre ++ chain stop -> (length pre <= n)%nat -> running m = true ->
  Forall (fun s => quiet (run (state_of s))) pre ->
  exists w, call_run_functions set n cur m =
    call_run_functions set (n - length pre) stop (set_wl m w (log m ++ (Ran <$> pre))).
Proof.
  induction pre as [|s pre IH]; intros n cur m stop E Hn Hr Hq.
  - apply chain_inj in E as ->. exists (world m). simpl.
    rewrite app_nil_r, Nat.sub_0_r. by destruct m.
  - apply chain_split_cons in E as (-> & Hne & E). destruct n as [|n]; [simpl in Hn; lia|].
    apply Forall_cons_1 in Hq as [Hqs Hq].
    cbn [call_run_functions]. rewrite Hr. cbn [negb].
    destruct (callback_quiet set (run (state_of s)) (add_log m (Ran s)) Hqs) as [w ->].
    cbn [mbind option_bind].
    destruct (IH n (parent_of s) (set_wl (add_log m (Ran s)) w (log (add_log m (Ran s)))) stop E)
      as [w' ->]; [simpl in Hn; lia|done|done|].
    exists w'. simpl. unfold set_wl. simpl. by rewrite <- app_assoc.
Qed.

(** The chain from one of its states on is that state's chain. *)
Lemma chain_from s post : forall cur pre,
  chain cur = pre ++ s :: post -> chain cur = pre ++ chain (Some s).
Proof.
  intros cur pre E. rewrite E, chain_some. f_equal. f_equal. symmetry. revert pre E.
  pattern cur. revert cur. apply chain_ind.
  - intros [|? ?]; by rewrite chain_none.
  - intros s0 IH [|x l]; rewrite chain_some; intros [= <- El]; [done|by eapply IH].
Qed.

Lemma replay_runs l : forall st,
  (forall x, x ∈ l -> x ∈ st) -> fold_left replay_step (Ran <$> l) (Some st) = Some st.
Proof.
  induction l as [|x l IH]; intros st Hx; [done|]. cbn [fmap list_fmap fold_left].
  unfold replay_step at 2. cbn [mbind option_bind]. rewrite decide_True by (apply Hx; set_solver).
  apply IH. intros y Hy. apply Hx. set_solver.
Qed.

(** A callback whose first segment changes state leaves a completed
    transition behind. *)
Lemma callback_requests fuel seg segs m m' :
  exiting m = false -> active_stack m (last_state m) -> (seg (world m)).2 <> None ->
  callback (set_state fuel) (seg :: segs) m = Some m' -> settled m' /\ no_runs m m'.
Proof.
  intros He Ha Hreq H. cbn [callback] in H. destruct (seg (world m)) as [w [t|]]; [|done].
  destruct (set_state fuel t (set_world m w)) as [m1|] eqn:E; cbn [mbind option_bind] in H; [|done].
  destruct (set_state_spec fuel _ _ _ E) as [_ H1]. destruct (H1 He Ha) as [Hs Hr].
  destruct Hs as (He1 & Hen1 & Hr1 & Ha1).
  destruct (callback_active _ (set_state_spec fuel) segs m1 m' He1) as [[[w' ->]|Hs'] Hr'];
    [unfold last_state; by rewrite Hen1|done| |].
  - split; [by split_and!|]. exact (no_runs_trans (set_world m w) _ _ Hr Hr').
  - split; [done|]. exact (no_runs_trans (set_world m w) _ _ Hr Hr').
Qed.

Lemma run_stopped fuel n cur m :
  running m = false -> call_run_functions (set_state fuel) n cur m = Some m.
Proof. intros Hr. destruct n, cur; cbn [call_run_functions]; by rewrite ?Hr. Qed.

(** [run_state] runs the current state and then its ancestors; it stops
    after the first whose run callback changes state.  When all are quiet it
    terminates having run the whole chain; when [pre] is quiet and the next
    state [s] calls [set_state], exactly [pre] and [s] are run, in that
    order. *)
Theorem run_state_order fuel m :
  idle m ->
  (Forall (fun s => quiet (run (state_of s))) (chain (current m)) ->
   exists m', run_state fuel m = Some m' /\ current m' = current m /\
     log m' = log m ++ (Ran <$> chain (current m))) /\
  (forall pre s post seg segs m',
   chain (current m) = pre ++ s :: post -> Forall (fun s => quiet (run (state_of s))) pre ->
   run (state_of s) = seg :: segs -> (forall w, (seg w).2 <> None) ->
   run_state fuel m = Some m' ->
   exists ext, log m' = log m ++ (Ran <$> pre ++ [s]) ++ ext /\ Forall (fun e => ~ is_ran e) ext).
Proof.
  intros (He & Hen & Ha). split.
  - intros Hq. unfold run_state. cbn [current set_running].
    destruct (run_total (set_state fuel) (chain (current m)) max_depth (current m)
      (set_running m true) None) as [w ->];
      [by rewrite chain_none, app_nil_r|apply chain_length|done|done|].
    exists (set_running (set_wl (set_running m true) w (log m ++ (Ran <$> chain (current m)))) false).
    split_and!; [|done|done]. by destruct (max_depth - length (chain (current m)))%nat.
  - intros pre s post seg segs m' E Hq Hrun Hreq H. unfold run_state in H. cbn [current set_running] in H.
    pose proof (chain_from _ _ _ _ E) as Epre.
    pose proof (chain_length (current m)) as L. rewrite E, length_app in L. simpl in L.
    destruct (run_total (set_state fuel) pre max_depth (current m) (set_running m true) (Some s))
      as [w Hrt]; [done|lia|done|done|].
    rewrite Hrt in H.
    destruct (max_depth - length pre)%nat as [|n] eqn:En; [lia|].
    cbn [call_run_functions running set_wl negb] in H. rewrite Hrun in H.
    set (m0 := add_log _ (Ran s)) in H.
    destruct (callback _ _ m0) as [m1|] eqn:E1; cbn [mbind option_bind] in H; [|done].
    assert (Ha0 : active_stack m0 (last_state m0)).
    { unfold last_state, active_stack, replay, m0. simpl. rewrite Hen, !fold_left_app.
      unfold active_stack, replay in Ha. rewrite Ha, replay_runs by (intros; rewrite E; set_solver).
      simpl. rewrite decide_True; [done|]. rewrite E. set_solver. }
    destruct (callback_requests fuel seg segs m0 m1 He Ha0 (Hreq _) E1) as [Hs (ext & Hext & Hf)].
    rewrite run_stopped in H by apply Hs. injection H as <-.
    exists ext. split; [|done]. simpl. rewrite Hext. unfold m0. simpl. rewrite fmap_app. simpl.
    by rewrite <- !app_assoc.
Qed.

End Machine.

(** ** A small machine: entering state 1 diverts to state 2, whose run
    callback goes back to state 1; both have the quiet parent 0. *)
Definition demo_states : list (@usb_state nat) :=
  [ UsbState [] [] [] None;
    UsbState [fun w => (S w, Some (Some 2%nat))] [] [] (Some 0%nat);
    UsbState [] [fun w => (w, Some (Some 1%nat))] [fun w => (w, Some None)] (Some 0%nat) ].

Lemma demo_acyclic : acyclic demo_states.
Proof.
  exists (fun s => match s with 1%nat | 2%nat => 1%nat | _ => 0%nat end). split.
  - intros [|[|[|[|s]]]] p; vm_compute; intros [=]; subst; lia.
  - intros [|[|[|s]]]; vm_compute; lia.
Qed.

(** Only entering state 1 leads to another transition. *)
Lemma demo_orderly : orderly demo_states 1 (fun s => if decide (s = Some 1%nat) then 1%nat else 0%nat).
Proof.
  split; [intros s; case_decide; lia|]. intros target s next Hs (seg & w & Hin & E).
  destruct s as [|[|[|s]]]; try (by apply elem_of_nil in Hin).
  - apply list_elem_of_singleton in Hin as ->. injection E as <-. rewrite decide_False by done.
    rewrite decide_True; [lia|]. apply (bool_decide_eq_true_2 _) in Hs.
    destruct target as [[|[|[|[|t]]]]|]; vm_compute in Hs; first [reflexivity|discriminate Hs].
  - destruct s; by apply elem_of_nil in Hin.
Qed.

Lemma sm_discipline_witness :
  exists m, exec demo_states true 3 [OpSet (Some 1%nat); OpRun] (sm_init 0%nat) = Some m /\
    current m = Some 2%nat /\ replay demo_states (log m) = Some (chain demo_states (current m)).
Proof.
  destruct (sm_discipline demo_states true demo_acyclic 3 [OpSet (Some 1%nat); OpRun] 0%nat) as [H _].
  destruct (H 1%nat _ demo_orderly ltac:(lia)) as (m & E & Hr & _).
  exists m. split; [exact E|]. split; [|exact Hr]. vm_compute in E. by injection E as <-.
Defined.

Lemma set_state_transition_witness :
  exists m', set_state demo_states false 2 None
      (SmCtx (Some 2%nat) None None false false false 0%nat [Entered 0; Entered 2]) = Some m' /\
    log m' = [Entered 0; Entered 2; Exited 2; Exited 0].
Proof.
  destruct (set_state_transition demo_states false demo_acyclic 0 None
    (SmCtx (Some 2%nat) None None false false false 0%nat [Entered 0; Entered 2]) [2; 0]%nat [])
    as (m' & H & _ & _ & _ & _ & _ & Hl); [done|done|reflexivity|reflexivity|by constructor|].
  exists m'. split; [exact H|exact Hl].
Defined.

Lemma run_state_order_witness :
  exists m' ext, run_state demo_states false 9
      (SmCtx (Some 2%nat) None None false false false 0%nat [Entered 0; Entered 2]) = Some m' /\
    log m' = [Entered 0; Entered 2] ++ [Ran 2] ++ ext.
Proof.
  destruct (run_state_order demo_states false demo_acyclic 9
    (SmCtx (Some 2%nat) None None false false false 0%nat [Entered 0; Entered 2])) as [_ H];
    [by split_and!|].
  destruct (run_state demo_states false 9 _) as [m'|] eqn:E; [|vm_compute in E; discriminate].
  destruct (H [] 2%nat [0%nat] _ [] m' eq_refl ltac:(by constructor) eq_refl ltac:(done) eq_refl)
    as (ext & Hl & _).
  by exists m', ext.
Defined.

End UsbSm.
