(* ===== verification/ChargeManager.v ===== *)
(** * Charge port selection (common/charge_manager.c)

    The charge manager records what every supplier on every port offers and
    picks the port and current the system charges from.  The file's static
    variables are the record [cm]; what the operations do outside (deferred
    calls, board and PD requests, host events) is appended to a log.  Board
    code, the PD stack, the battery and the clock are the record [env], read
    afresh by every call; compile-time options are the record [config].  The
    option CONFIG_USB_CHARGER is taken as set (suppliers 0-9, and 10 for the
    dedicated port). *)

From stdpp Require Import sets.
From S2P Require Import Prelude.

Module ChargeManager.

(** ** Constants (include/charge_manager.h, include/ec_commands.h) *)

Definition CHARGE_PORT_NONE : Z := -1.
Definition CHARGE_CEIL_NONE : Z := -1.
Definition CHARGE_CURRENT_UNINITIALIZED : Z := -1.
Definition CHARGE_VOLTAGE_UNINITIALIZED : Z := -1.
Definition OVERRIDE_OFF : Z := -1.
Definition OVERRIDE_DONT_CHARGE : Z := -2.
Definition SECOND : Z := 1000000.
Definition CHARGE_DETECT_DELAY : Z := 2 * SECOND.
(** 1000 ms + 275 ms + 650 ms + 500 ms. *)
Definition POWER_SWAP_TIMEOUT : Z := 2425000.

Definition CHARGE_SUPPLIER_NONE : Z := -1.
Definition CHARGE_SUPPLIER_PD : Z := 0.
Definition CHARGE_SUPPLIER_TYPEC : Z := 1.
Definition CHARGE_SUPPLIER_TYPEC_DTS : Z := 2.
Definition CHARGE_SUPPLIER_BC12_DCP : Z := 3.
Definition CHARGE_SUPPLIER_BC12_CDP : Z := 4.
Definition CHARGE_SUPPLIER_BC12_SDP : Z := 5.
Definition CHARGE_SUPPLIER_PROPRIETARY : Z := 6.
Definition CHARGE_SUPPLIER_TYPEC_UNDER_1_5A : Z := 7.
Definition CHARGE_SUPPLIER_OTHER : Z := 8.
Definition CHARGE_SUPPLIER_VBUS : Z := 9.
Definition CHARGE_SUPPLIER_DEDICATED : Z := 10.

(** src/include/charge_manager.h:147-154 [enum ceil_requestor] *)
Definition CEIL_REQUESTOR_PD : Z := 0.
Definition CEIL_REQUESTOR_HOST : Z := 1.
Definition CEIL_REQUESTOR_COUNT : Z := 2.

(** The default priorities; boards may override the table. *)
(** src/common/charge_manager.c:63-81 [supplier_priority] *)
Definition default_priority : list Z := [1; 2; 2; 3; 3; 3; 3; 4; 4; 4; 0].

(** src/include/charge_manager.h:123-127 [enum dualrole_capabilities] *)
Inductive dualrole_capabilities := CAP_UNKNOWN | CAP_DUALROLE | CAP_DEDICATED.
#[export] Instance dualrole_eq_dec : EqDecision dualrole_capabilities.
Proof. solve_decision. Defined.

(** src/include/charge_manager.h:87-90 [struct charge_port_info] *)
Record charge_port_info := Charge { current : Z; voltage : Z }.

(** src/include/ec_commands.h:6179-6184 [enum usb_power_roles] *)
Inductive usb_power_roles :=
| USB_PD_PORT_POWER_DISCONNECTED
| USB_PD_PORT_POWER_SOURCE
| USB_PD_PORT_POWER_SINK
| USB_PD_PORT_POWER_SINK_NOT_CHARGING.
#[export] Instance usb_power_roles_eq_dec : EqDecision usb_power_roles.
Proof. solve_decision. Defined.

(** src/include/ec_commands.h:6166-6178 [enum usb_chg_type] *)
Inductive usb_chg_type :=
| USB_CHG_TYPE_NONE | USB_CHG_TYPE_PD | USB_CHG_TYPE_C | USB_CHG_TYPE_PROPRIETARY
| USB_CHG_TYPE_BC12_DCP | USB_CHG_TYPE_BC12_CDP | USB_CHG_TYPE_BC12_SDP | USB_CHG_TYPE_OTHER
| USB_CHG_TYPE_VBUS | USB_CHG_TYPE_UNKNOWN | USB_CHG_TYPE_DEDICATED.

(** What [charge_manager_fill_power_info] reports. *)
(** src/include/ec_commands.h:6186-6200 [struct ec_response_usb_pd_power_info] *)
Record power_info := PowerInfo {
  role : usb_power_roles; type : usb_chg_type; dualrole : bool;
  voltage_max : Z; voltage_now : Z; current_max : Z; current_lim : Z; max_power : Z }.

Inductive battery_present := BP_NO | BP_YES | BP_NOT_SURE.
#[export] Instance battery_present_eq_dec : EqDecision battery_present.
Proof. solve_decision. Defined.

(** Calls out of the module. *)
Inductive effect :=
| DeferRefresh
| DeferOverrideTimeout (delay : Z)
| DeferDebounced (delay : Z)
| SetActiveChargePort (port : Z)
| ResetOcpc (port : Z)
| CheckExtpower
| RampSupplierChange (port supplier current : Z) (registered : Z) (voltage : Z)
| SetHwRamp (enable : bool)
| SetChargeLimit (port supplier charge_ma max_ma charge_mv : Z)
| RequestPowerSwap (port : Z)
| NewPowerRequest (port : Z)
| PowerSupplyChange
| HostPowerChange
| SelectSourceRp (port rp : Z)
| SetExternalVoltageLimit (port voltage_lim : Z).

Record config := {
  CONFIG_USB_PD_PORT_MAX_COUNT : Z;
  CONFIG_DEDICATED_CHARGE_PORT_COUNT : Z;
  DEDICATED_CHARGE_PORT : Z;
  board_get_usb_pd_port_count : Z;
  supplier_priority : Z -> Z;
  drp_charging : bool;
  pdc_power_mgmt : bool;
  pd_dps : bool;
  ocpc : bool;
  extpower : bool;
  has_battery : bool;
  has_chg_ramp_task : bool;
  chg_ramp_hw : bool;
  default_current_limit : Z;
  can_query_request : bool;
  safe_mode : bool;
  tcpmv2 : bool;
  max_total_source_current : bool;
  MAX_SINGLE_SOURCE_RP : Z;
  CONFIG_USB_PD_MAX_VOLTAGE_MV : Z;
  PULLUP_RP : Z }.

Record env := {
  get_time : Z;
  pd_is_sink : Z -> bool;
  board_charge_port_is_sink : Z -> bool;
  pd_is_connected : Z -> bool;
  board_charge_port_is_connected : Z -> bool;
  ro_and_locked : bool;
  battery_is_present : battery_present;
  battery_cutoff_normal : bool;
  dps_is_enabled : bool;
  dps_get_charge_port : Z;
  best_pdo : Z -> Z * Z;  (* max voltage, max current *)
  board_accepts : nat -> Z -> bool;  (* the k-th attempt of a refresh *)
  chg_ramp_allowed : Z -> Z -> bool;
  chg_ramp_max : Z -> Z -> Z -> Z;
  chg_ramp_is_stable : bool;
  chg_ramp_get_current_limit : Z;
  requested_voltage : Z -> Z;
  requested_current : Z -> Z;
  measured_vbus : Z -> Z;
  source_current : Z -> Z;
  board_source_info : Z -> Z * Z * Z * Z * Z }.

(** The static variables, and the log of outgoing calls. *)
(** src/common/charge_manager.c:86-191 [available_charge] *)
Record cm := Cm {
  available_charge : Z -> Z -> charge_port_info;  (* supplier, port *)
  registration_time : Z -> Z;
  charge_ceil : Z -> Z -> Z;                      (* port, requestor *)
  dualrole_capability : Z -> dualrole_capabilities;
  charge_port : Z;
  charge_current : Z;
  charge_current_uncapped : Z;
  charge_voltage : Z;
  charge_supplier : Z;
  charge_pd_current_uncapped : Z;
  override_port : Z;
  delayed_override_port : Z;
  delayed_override_deadline : Z;
  left_safe_mode : bool;
  is_seeded : bool;
  active_charge_port_initialized : bool;
  source_port_rp : Z -> Z;
  source_port_bitmap : Z;
  log : list effect }.

(** *** Assignments *)

Definition upd {A} (f : Z -> A) (i : Z) (v : A) : Z -> A := fun x => if x =? i then v else f x.
Definition upd2 {A} (f : Z -> Z -> A) (i j : Z) (v : A) : Z -> Z -> A :=
  fun x y => if (x =? i) && (y =? j) then v else f x y.

Definition set_available (m : cm) v := Cm v (registration_time m) (charge_ceil m)
  (dualrole_capability m) (charge_port m) (charge_current m) (charge_current_uncapped m)
  (charge_voltage m) (charge_supplier m) (charge_pd_current_uncapped m) (override_port m)
  (delayed_override_port m) (delayed_override_deadline m) (left_safe_mode m) (is_seeded m)
  (active_charge_port_initialized m) (source_port_rp m) (source_port_bitmap m) (log m).
Definition set_registration (m : cm) v := Cm (available_charge m) v (charge_ceil m)
  (dualrole_capability m) (charge_port m) (charge_current m) (charge_current_uncapped m)
  (charge_voltage m) (charge_supplier m) (charge_pd_current_uncapped m) (override_port m)
  (delayed_override_port m) (delayed_override_deadline m) (left_safe_mode m) (is_seeded m)
  (active_charge_port_initialized m) (source_port_rp m) (source_port_bitmap m) (log m).
Definition set_ceils (m : cm) v := Cm (available_charge m) (registration_time m) v
  (dualrole_capability m) (charge_port m) (charge_current m) (charge_current_uncapped m)
  (charge_voltage m) (charge_supplier m) (charge_pd_current_uncapped m) (override_port m)
  (delayed_override_port m) (delayed_override_deadline m) (left_safe_mode m) (is_seeded m)
  (active_charge_port_initialized m) (source_port_rp m) (source_port_bitmap m) (log m).
Definition set_dualrole (m : cm) v := Cm (available_charge m) (registration_time m)
  (charge_ceil m) v (charge_port m) (charge_current m) (charge_current_uncapped m)
  (charge_voltage m) (charge_supplier m) (charge_pd_current_uncapped m) (override_port m)
  (delayed_override_port m) (delayed_override_deadline m) (left_safe_mode m) (is_seeded m)
  (active_charge_port_initialized m) (source_port_rp m) (source_port_bitmap m) (log m).
(** [charge_port], [charge_current], [.._uncapped], [charge_voltage],
    [charge_supplier] and [charge_pd_current_uncapped] *)
Definition set_charge (m : cm) p i u v s pd := Cm (available_charge m) (registration_time m)
  (charge_ceil m) (dualrole_capability m) p i u v s pd (override_port m)
  (delayed_override_port m) (delayed_override_deadline m) (left_safe_mode m) (is_seeded m)
  (active_charge_port_initialized m) (source_port_rp m) (source_port_bitmap m) (log m).
(** [override_port], [delayed_override_port] and its deadline *)
Definition set_overrides (m : cm) o d t := Cm (available_charge m) (registration_time m)
  (charge_ceil m) (dualrole_capability m) (charge_port m) (charge_current m)
  (charge_current_uncapped m) (charge_voltage m) (charge_supplier m)
  (charge_pd_current_uncapped m) o d t (left_safe_mode m) (is_seeded m)
  (active_charge_port_initialized m) (source_port_rp m) (source_port_bitmap m) (log m).
(** [left_safe_mode], [is_seeded] and [active_charge_port_initialized] *)
Definition set_flags (m : cm) l s a := Cm (available_charge m) (registration_time m)
  (charge_ceil m) (dualrole_capability m) (charge_port m) (charge_current m)
  (charge_current_uncapped m) (charge_voltage m) (charge_supplier m)
  (charge_pd_current_uncapped m) (override_port m) (delayed_override_port m)
  (delayed_override_deadline m) l s a (source_port_rp m) (source_port_bitmap m) (log m).
Definition set_source (m : cm) rp b := Cm (available_charge m) (registration_time m)
  (charge_ceil m) (dualrole_capability m) (charge_port m) (charge_current m)
  (charge_current_uncapped m) (charge_voltage m) (charge_supplier m)
  (charge_pd_current_uncapped m) (override_port m) (delayed_override_port m)
  (delayed_override_deadline m) (left_safe_mode m) (is_seeded m)
  (active_charge_port_initialized m) rp b (log m).
Definition emit (m : cm) es := Cm (available_charge m) (registration_time m)
  (charge_ceil m) (dualrole_capability m) (charge_port m) (charge_current m)
  (charge_current_uncapped m) (charge_voltage m) (charge_supplier m)
  (charge_pd_current_uncapped m) (override_port m) (delayed_override_port m)
  (delayed_override_deadline m) (left_safe_mode m) (is_seeded m)
  (active_charge_port_initialized m) (source_port_rp m) (source_port_bitmap m) (log m ++ es).

Definition set_override_port (m : cm) o :=
  set_overrides m o (delayed_override_port m) (delayed_override_deadline m).

Section Operations.
Context (cfg : config).

Definition CHARGE_PORT_COUNT : Z :=
  CONFIG_USB_PD_PORT_MAX_COUNT cfg + CONFIG_DEDICATED_CHARGE_PORT_COUNT cfg.
Definition CHARGE_SUPPLIER_COUNT : Z :=
  if 0 <? CONFIG_DEDICATED_CHARGE_PORT_COUNT cfg then 11 else 10.
Definition all_ports : list Z := seqZ 0 CHARGE_PORT_COUNT.
Definition all_suppliers : list Z := seqZ 0 CHARGE_SUPPLIER_COUNT.

(** [POWER(charge_port)]: a product of [int]s. *)
(** src/common/charge_manager.c:41-41 [POWER] *)
Definition POWER (c : charge_port_info) : Z := s32 (current c * voltage c).

(** src/common/charge_manager.c:198-201 [is_pd_port] *)
Definition is_pd_port (port : Z) : bool := (0 <=? port) && (port <? board_get_usb_pd_port_count cfg).

(** src/common/charge_manager.c:203-209 [is_sink] *)
Definition is_sink (e : env) (port : Z) : bool :=
  if negb (is_pd_port port) then board_charge_port_is_sink e port else pd_is_sink e port.

(** src/common/charge_manager.c:211-228 [is_valid_port] *)
Definition is_valid_port (port : Z) : bool :=
  if (port <? 0) || (CHARGE_PORT_COUNT <=? port) then false
  else if (board_get_usb_pd_port_count cfg <=? port) && (port <? CONFIG_USB_PD_PORT_MAX_COUNT cfg)
  then false
  else true.

(** src/common/charge_manager.c:230-233 [is_valid_override_port] *)
Definition is_valid_override_port (port : Z) : bool :=
  (OVERRIDE_DONT_CHARGE <=? port) && (port <? CHARGE_PORT_COUNT).

(** src/common/charge_manager.c:235-241 [is_connected] *)
Definition is_connected (e : env) (port : Z) : bool :=
  if negb (is_pd_port port) then board_charge_port_is_connected e port else pd_is_connected e port.

(** src/common/charge_manager.c:243-260 [charge_manager_spoof_dualrole_capability] *)
Definition charge_manager_spoof_dualrole_capability (e : env) (m : cm) : bool :=
  ro_and_locked e || negb (left_safe_mode m).

Definition zero_charge : charge_port_info := Charge 0 0.
Definition uninitialized : charge_port_info :=
  Charge CHARGE_CURRENT_UNINITIALIZED CHARGE_VOLTAGE_UNINITIALIZED.

(** The initial entry of supplier [j] on port [i]. *)
(** src/common/charge_manager.c:273-300 [charge_manager_init] *)
Definition initial_charge (i j : Z) : charge_port_info :=
  if (0 <? CONFIG_DEDICATED_CHARGE_PORT_COUNT cfg) &&
     (((i =? DEDICATED_CHARGE_PORT cfg) && negb (j =? CHARGE_SUPPLIER_DEDICATED)) ||
      (negb (i =? DEDICATED_CHARGE_PORT cfg) && (j =? CHARGE_SUPPLIER_DEDICATED)))
  then zero_charge else uninitialized.

(** src/common/charge_manager.c:266-308 [charge_manager_init] *)
Definition charge_manager_init (m : cm) : cm :=
  fold_left (fun m i =>
    if negb (is_valid_port i) then m
    else
      let m := fold_left (fun m j =>
        set_available m (upd2 (available_charge m) j i (initial_charge i j))) all_suppliers m in
      let m := fold_left (fun m j => set_ceils m (upd2 (charge_ceil m) i j CHARGE_CEIL_NONE))
        (seqZ 0 CEIL_REQUESTOR_COUNT) m in
      let m := if negb (is_pd_port i)
               then set_dualrole m (upd (dualrole_capability m) i CAP_DEDICATED) else m in
      if is_pd_port i && negb (tcpmv2 cfg)
      then set_source m (upd (source_port_rp m) i (PULLUP_RP cfg)) (source_port_bitmap m) else m)
    all_ports m.

(** Every supplier of every valid port has reported. *)
(** src/common/charge_manager.c:344-354 [charge_manager_is_seeded] *)
Definition all_reported (m : cm) : bool :=
  forallb (fun i => forallb (fun j =>
    negb (is_valid_port j) ||
    negb ((current (available_charge m i j) =? CHARGE_CURRENT_UNINITIALIZED) ||
          (voltage (available_charge m i j) =? CHARGE_VOLTAGE_UNINITIALIZED)))
    all_ports) all_suppliers.

(** src/common/charge_manager.c:329-357 [charge_manager_is_seeded] *)
Definition charge_manager_is_seeded (m : cm) : bool * cm :=
  if is_seeded m then (true, m)
  else if all_reported m
       then (true, set_flags m (left_safe_mode m) true (active_charge_port_initialized m))
       else (false, m).

(** [if (charge_manager_is_seeded()) hook_call_deferred(&charge_manager_refresh_data, 0)] *)
(** src/common/charge_manager.c:1307-1308 [charge_manager_refresh_data] *)
Definition refresh_if_seeded (m : cm) : cm :=
  let '(seeded, m) := charge_manager_is_seeded m in
  if seeded then emit m [DeferRefresh] else m.

(** src/common/charge_manager.c:364-394 [charge_manager_get_source_current] *)
Definition charge_manager_get_source_current (e : env) (m : cm) (port : Z) : Z :=
  if negb (is_pd_port port) then 0
  else if tcpmv2 cfg || pdc_power_mgmt cfg then source_current e port
  else if source_port_rp m port =? 2 then 3000
  else if source_port_rp m port =? 1 then 1500 else 500.

(** ** Reporting *)

(** src/common/charge_manager.c:396-423 [find_supplier] *)
Definition find_supplier (m : cm) (port sup min_cur : Z) : Z :=
  fold_left (fun sup i =>
    let c := available_charge m i port in
    if (current c <=? min_cur) || (voltage c <=? 0) then sup
    else if sup =? CHARGE_SUPPLIER_NONE then i
    else if supplier_priority cfg sup <? supplier_priority cfg i then sup
    else if supplier_priority cfg i <? supplier_priority cfg sup then i
    else if POWER (available_charge m sup port) <? POWER c then i else sup)
    all_suppliers sup.

(** src/common/charge_manager.c:425-443 [get_current_supplier] *)
Definition get_current_supplier (m : cm) (port : Z) : Z :=
  if port =? charge_port m then charge_supplier m
  else
    let supplier := find_supplier m port CHARGE_SUPPLIER_NONE 0 in
    if supplier =? CHARGE_SUPPLIER_NONE then find_supplier m port supplier (-1) else supplier.

(** src/common/charge_manager.c:444-463 [get_current_power_role] *)
Definition get_current_power_role (e : env) (m : cm) (port supplier : Z) : usb_power_roles :=
  if charge_port m =? port then USB_PD_PORT_POWER_SINK
  else if is_connected e port && negb (is_sink e port) then USB_PD_PORT_POWER_SOURCE
  else if negb (supplier =? CHARGE_SUPPLIER_NONE) then USB_PD_PORT_POWER_SINK_NOT_CHARGING
  else USB_PD_PORT_POWER_DISCONNECTED.

(** The measurement itself is the driver's. *)
(** src/common/charge_manager.c:470-505 [get_vbus_voltage] *)
Definition get_vbus_voltage (e : env) (port : Z) (current_role : usb_power_roles) : Z :=
  if decide (current_role = USB_PD_PORT_POWER_SINK_NOT_CHARGING) then 5000
  else measured_vbus e port.

(** src/common/charge_manager.c:507-511 [charge_manager_get_vbus_voltage] *)
Definition charge_manager_get_vbus_voltage (e : env) (m : cm) (port : Z) : Z :=
  get_vbus_voltage e port (get_current_power_role e m port (get_current_supplier m port)).

(** src/common/charge_manager.c:578-610 [USB_CHG_TYPE_PD] *)
Definition supplier_type (sup : Z) : usb_chg_type :=
  if sup =? CHARGE_SUPPLIER_PD then USB_CHG_TYPE_PD
  else if (sup =? CHARGE_SUPPLIER_TYPEC) || (sup =? CHARGE_SUPPLIER_TYPEC_DTS) then USB_CHG_TYPE_C
  else if sup =? CHARGE_SUPPLIER_PROPRIETARY then USB_CHG_TYPE_PROPRIETARY
  else if sup =? CHARGE_SUPPLIER_BC12_DCP then USB_CHG_TYPE_BC12_DCP
  else if sup =? CHARGE_SUPPLIER_BC12_CDP then USB_CHG_TYPE_BC12_CDP
  else if sup =? CHARGE_SUPPLIER_BC12_SDP then USB_CHG_TYPE_BC12_SDP
  else if sup =? CHARGE_SUPPLIER_VBUS then USB_CHG_TYPE_VBUS
  else if (0 <? CONFIG_DEDICATED_CHARGE_PORT_COUNT cfg) && (sup =? CHARGE_SUPPLIER_DEDICATED)
  then USB_CHG_TYPE_DEDICATED else USB_CHG_TYPE_OTHER.

(** The fields [meas.current_lim] (of a PD port that charges nothing) and the
    ones the board fills keep what the caller's buffer held: [r]. *)
(** src/common/charge_manager.c:543-675 [charge_manager_fill_power_info] *)
Definition charge_manager_fill_power_info (e : env) (m : cm) (port : Z) (r : power_info)
    : power_info :=
  let sup := get_current_supplier m port in
  let role := get_current_power_role e m port sup in
  let dual := bool_decide (dualrole_capability m port = CAP_DUALROLE) in
  if (sup =? CHARGE_SUPPLIER_NONE) || bool_decide (role = USB_PD_PORT_POWER_SOURCE) then
    if is_pd_port port then
      PowerInfo role USB_CHG_TYPE_NONE dual 0
        (if decide (role = USB_PD_PORT_POWER_SOURCE) then 5000 else 0)
        (u16 (charge_manager_get_source_current e m port)) (current_lim r) 0
    else
      let '(vmax, vnow, imax, ilim, pmax) := board_source_info e port in
      PowerInfo role USB_CHG_TYPE_NONE dual vmax vnow imax ilim pmax
  else
    let '(max_mv, max_ma) :=
      if pd_dps cfg && dps_is_enabled e && (sup =? CHARGE_SUPPLIER_PD) then best_pdo e port
      else (u32 (voltage (available_charge m sup port)), u32 (current (available_charge m sup port))) in
    let type :=
      if has_battery cfg && (get_time e <? registration_time m port + CHARGE_DETECT_DELAY)
      then USB_CHG_TYPE_UNKNOWN else supplier_type sup in
    let '(imax, ilim) :=
      if (has_chg_ramp_task cfg || chg_ramp_hw cfg) && (charge_port m =? port) &&
         chg_ramp_allowed e port sup
      then
        let lim := u16 (chg_ramp_get_current_limit e) in
        (if chg_ramp_is_stable e then lim else u16 (chg_ramp_max e port sup max_ma), lim)
      else (u16 max_ma, u16 max_ma) in
    PowerInfo role type dual (u16 max_mv) (u16 (get_vbus_voltage e port role)) imax ilim
      (u32 (s32 (imax * u16 max_mv))).

(** ** Port selection *)

(** src/common/charge_manager.c:706-719 [charge_manager_switch_to_source] *)
Definition charge_manager_switch_to_source (e : env) (port : Z) (m : cm) : cm :=
  if negb (is_pd_port port) then m
  else if bool_decide (dualrole_capability m port = CAP_DUALROLE) && is_sink e port
  then emit m [RequestPowerSwap port] else m.

(** src/common/charge_manager.c:721-744 [charge_manager_get_ceil] *)
Definition charge_manager_get_ceil (m : cm) (port : Z) : Z :=
  if negb (is_valid_port port) then CHARGE_CEIL_NONE
  else fold_left (fun ceil i =>
    let val := charge_ceil m port i in
    if negb (val =? CHARGE_CEIL_NONE) && ((ceil =? CHARGE_CEIL_NONE) || (val <? ceil))
    then val else ceil) (seqZ 0 CEIL_REQUESTOR_COUNT) CHARGE_CEIL_NONE.

(** src/common/charge_manager.c:746-755 [get_pd_port_max_power] *)
Definition get_pd_port_max_power (e : env) (port : Z) : Z :=
  let '(max_voltage, max_current) := best_pdo e port in s32 (max_current * max_voltage).

(** src/common/charge_manager.c:757-769 [get_candidate_port_power] *)
Definition get_candidate_port_power (e : env) (m : cm) (supplier port : Z) : Z :=
  let candidate_port_power := POWER (available_charge m supplier port) in
  if pdc_power_mgmt cfg && is_pd_port port
  then Z.max (get_pd_port_max_power e port) candidate_port_power
  else candidate_port_power.

(** src/common/charge_manager.c:771-780 [is_dualrole_charging_capable] *)
Definition is_dualrole_charging_capable (e : env) (m : cm) (port : Z) : bool :=
  if drp_charging cfg then true
  else bool_decide (dualrole_capability m port = CAP_DEDICATED) || (override_port m =? port) ||
       charge_manager_spoof_dualrole_capability e m.

(** src/common/charge_manager.c:782-789 [is_battery_disconnected] *)
Definition is_battery_disconnected (e : env) : bool :=
  has_battery cfg &&
  (bool_decide (battery_is_present e = BP_NO) || bool_decide (battery_is_present e = BP_NOT_SURE) ||
   (bool_decide (battery_is_present e = BP_YES) && negb (battery_cutoff_normal e))).

(** Locals of the selection loop; [stop] records a [break] of the inner one. *)
(** src/common/charge_manager.c:800-803 [best_supplier] *)
Record best := Best { best_supplier : Z; best_port : Z; best_port_power : Z; stop : bool }.

(** A supplier the loop does not skip, the override test aside. *)
(** src/common/charge_manager.c:823-849 [available_charge] *)
Definition eligible (e : env) (m : cm) (sup_idx port_idx : Z) : bool :=
  is_valid_port port_idx &&
  negb ((current (available_charge m sup_idx port_idx) =? 0) ||
        (voltage (available_charge m sup_idx port_idx) =? 0)) &&
  is_dualrole_charging_capable e m port_idx.

(** The body of the inner loop. *)
(** src/common/charge_manager.c:822-889 [charge_manager_get_best_port] *)
Definition consider (e : env) (m : cm) (b : best) (sup_idx port_idx : Z) : best :=
  if stop b then b
  else if negb (eligible e m sup_idx port_idx) then b
  else if negb (override_port m =? OVERRIDE_OFF) && (override_port m =? best_port b) &&
          negb (override_port m =? port_idx) then b
  else
    let candidate_port_power := get_candidate_port_power e m sup_idx port_idx in
    if pd_dps cfg && (override_port m =? OVERRIDE_OFF) && (sup_idx =? CHARGE_SUPPLIER_PD) &&
       (port_idx =? dps_get_charge_port e)
    then Best sup_idx port_idx (best_port_power b) true
    else if (best_supplier b =? CHARGE_SUPPLIER_NONE) ||
            (supplier_priority cfg sup_idx <? supplier_priority cfg (best_supplier b)) ||
            ((port_idx =? override_port m) && negb (best_port b =? override_port m)) ||
            ((supplier_priority cfg sup_idx =? supplier_priority cfg (best_supplier b)) &&
             ((best_port_power b <? candidate_port_power) ||
              ((candidate_port_power =? best_port_power b) && (charge_port m =? port_idx))))
    then Best sup_idx port_idx candidate_port_power false
    else b.

(** src/common/charge_manager.c:821-890 [charge_manager_get_best_port] *)
Definition select_best (e : env) (m : cm) : best :=
  fold_left (fun b sup_idx =>
    let b := fold_left (fun b port_idx => consider e m b sup_idx port_idx) all_ports b in
    Best (best_supplier b) (best_port b) (best_port_power b) false)
    all_suppliers (Best CHARGE_SUPPLIER_NONE CHARGE_PORT_NONE (-1) false).

(** [*new_port] and [*new_supplier]. *)
(** src/common/charge_manager.c:791-910 [charge_manager_get_best_port] *)
Definition charge_manager_get_best_port (e : env) (m : cm) : Z * Z :=
  if override_port m =? OVERRIDE_DONT_CHARGE then (CHARGE_PORT_NONE, CHARGE_SUPPLIER_NONE)
  else
    let b := select_best e m in
    if negb (charge_port m =? CHARGE_PORT_NONE) && negb (charge_port m =? best_port b) &&
       is_battery_disconnected e
    then
      let kept := available_charge m (charge_supplier m) (charge_port m) in
      (charge_port m,
       if negb (current kept =? 0) || negb (voltage kept =? 0)
       then charge_supplier m else best_supplier b)
    else (best_port b, best_supplier b).

(** ** Refresh *)

(** How the hunt for a port ends: in safe mode with no port, on a port, or on
    the failed assertion that "don't charge" is accepted. *)
Inductive hunt_result := HuntReturn (m : cm) | HuntPort (m : cm) (new_port new_supplier : Z) | HuntAssert.

(** src/common/charge_manager.c:969-977 [available_charge] *)
Definition clear_port (m : cm) (new_port : Z) : cm :=
  fold_left (fun m i => set_available m (upd2 (available_charge m) i new_port zero_charge))
    all_suppliers m.

(** The loop, [k] attempts made; [None] when the fuel runs out. *)
(** src/common/charge_manager.c:930-978 [charge_manager_refresh] *)
Fixpoint hunt (fuel : nat) (e : env) (k : nat) (m : cm) : option hunt_result :=
  match fuel with
  | O => None
  | S fuel =>
    let '(new_port, new_supplier) := charge_manager_get_best_port e m in
    if negb (left_safe_mode m) && (new_port =? CHARGE_PORT_NONE) then Some (HuntReturn m)
    else if active_charge_port_initialized m && (new_port =? charge_port m) &&
            (new_supplier =? charge_supplier m)
    then Some (HuntPort m new_port new_supplier)
    else
      let m := if ocpc cfg then emit m [ResetOcpc new_port] else m in
      let m := emit m [SetActiveChargePort new_port] in
      if board_accepts e k new_port
      then Some (HuntPort (if extpower cfg then emit m [CheckExtpower] else m) new_port new_supplier)
      else if new_port =? CHARGE_PORT_NONE then Some HuntAssert
      else hunt fuel e (S k) (clear_port m new_port)
  end.

(** The new current, uncapped current and voltage. *)
(** src/common/charge_manager.c:989-1020 [new_charge_current] *)
Definition new_limits (e : env) (m : cm) (new_port new_supplier : Z) : Z * Z * Z :=
  if new_supplier =? CHARGE_SUPPLIER_NONE
  then (default_current_limit cfg, default_current_limit cfg, 0)
  else
    let avail := available_charge m new_supplier new_port in
    let uncapped :=
      if chg_ramp_hw cfg && chg_ramp_allowed e new_port new_supplier
      then chg_ramp_max e new_port new_supplier (current avail) else current avail in
    let ceil := charge_manager_get_ceil m new_port in
    (if left_safe_mode m && negb (ceil =? CHARGE_CEIL_NONE) then Z.min ceil uncapped else uncapped,
     uncapped, voltage avail).

(** src/common/charge_manager.c:1031-1061 [power_changed] *)
Definition apply_limits (e : env) (m : cm) (new_port new_supplier cur uncapped volt : Z) : cm :=
  let m :=
    if has_chg_ramp_task cfg
    then emit m [RampSupplierChange new_port new_supplier cur (registration_time m new_port) volt]
    else
      let m := if chg_ramp_hw cfg then emit m [SetHwRamp (chg_ramp_allowed e new_port new_supplier)]
               else m in
      emit m [SetChargeLimit new_port new_supplier cur uncapped volt] in
  if extpower cfg then emit m [CheckExtpower] else m.

(** src/common/charge_manager.c:1111-1162 [updated_new_port] *)
Definition request_new_power (e : env) (m : cm) (port : Z) : cm :=
  if negb (is_pd_port port) then m
  else if can_query_request cfg then
    let new_req := negb (requested_voltage e port =? charge_voltage m) ||
                   negb (requested_current e port =? charge_current_uncapped m) in
    let new_req :=
      if pd_dps cfg && dps_is_enabled e then new_req
      else
        let '(max_voltage, max_current) := best_pdo e port in
        new_req || negb (u32 (charge_voltage m) =? max_voltage) ||
        negb (u32 (charge_current_uncapped m) =? max_current) in
    if new_req then emit m [NewPowerRequest port] else m
  else emit m [NewPowerRequest port].

(** What follows the hunt: drop an override that was not selected, set the
    limits, hand over from the old port, notify. *)
(** src/common/charge_manager.c:980-1172 [charge_manager_refresh] *)
Definition refresh_port (e : env) (m : cm) (new_port new_supplier : Z) : cm :=
  let m := set_flags m (left_safe_mode m) (is_seeded m) true in
  let m := if (0 <=? override_port m) && negb (override_port m =? new_port)
           then set_override_port m OVERRIDE_OFF else m in
  let '(cur, uncapped, volt) := new_limits e m new_port new_supplier in
  let pd := if new_supplier =? CHARGE_SUPPLIER_PD then uncapped else CHARGE_CURRENT_UNINITIALIZED in
  let power_changed := negb (new_port =? charge_port m) || negb (cur =? charge_current m) ||
                       negb (new_supplier =? charge_supplier m) in
  let m := if power_changed then apply_limits e m new_port new_supplier cur uncapped volt else m in
  let updated_new_port :=
    if negb (new_port =? CHARGE_PORT_NONE) &&
       (negb (new_port =? charge_port m) || negb (uncapped =? charge_current_uncapped m) ||
        negb (volt =? charge_voltage m))
    then new_port else CHARGE_PORT_NONE in
  let '(m, updated_old_port) :=
    if negb (charge_port m =? new_port) && negb (charge_port m =? CHARGE_PORT_NONE)
    then (charge_manager_switch_to_source e (charge_port m) m, charge_port m)
    else (m, CHARGE_PORT_NONE) in
  let m := set_charge m new_port cur uncapped volt new_supplier pd in
  let m := request_new_power e m updated_new_port in
  let m := if is_pd_port updated_old_port then emit m [NewPowerRequest updated_old_port] else m in
  if power_changed then emit m [PowerSupplyChange; HostPowerChange] else m.

(** [None]: out of fuel or the assertion of the hunt. *)
(** src/common/charge_manager.c:912-1061 [charge_manager_refresh] *)
Definition charge_manager_refresh (fuel : nat) (e : env) (m : cm) : option cm :=
  match hunt fuel e 0 m with
  | Some (HuntReturn m) => Some m
  | Some (HuntPort m new_port new_supplier) => Some (refresh_port e m new_port new_supplier)
  | Some HuntAssert | None => None
  end.

(** src/common/charge_manager.c:1176-1183 [charge_override_timeout] *)
Definition charge_override_timeout (m : cm) : cm :=
  emit (set_overrides m (override_port m) OVERRIDE_OFF (delayed_override_deadline m))
    [HostPowerChange].

(** src/common/charge_manager.c:1186-1193 [charger_detect_debounced] *)
Definition charger_detect_debounced (m : cm) : cm := emit m [HostPowerChange].

(** ** Requests *)

(** src/common/charge_manager.c:1484-1525 [charge_manager_set_override] *)
Definition charge_manager_set_override (e : env) (port : Z) (m : cm) : ec_error * cm :=
  if negb (delayed_override_port m =? OVERRIDE_OFF) then (EC_ERROR_BUSY, m)
  else if (port <? 0) || is_sink e port then
    (EC_SUCCESS,
     if negb (override_port m =? port) then refresh_if_seeded (set_override_port m port) else m)
  else if negb (is_sink e port) && bool_decide (dualrole_capability m port = CAP_DUALROLE) then
    let m := set_overrides m (override_port m) port (u64 (get_time e + POWER_SWAP_TIMEOUT)) in
    (EC_SUCCESS, emit m [DeferOverrideTimeout POWER_SWAP_TIMEOUT; RequestPowerSwap port])
  else (EC_ERROR_INVAL, m).

(** src/common/charge_manager.c:193-196 [enum charge_manager_change_type] *)
Inductive charge_manager_change_type := CHANGE_CHARGE | CHANGE_DUALROLE.
#[export] Instance change_type_eq_dec : EqDecision charge_manager_change_type.
Proof. solve_decision. Defined.

(** [None] when the change cannot affect charging, otherwise whether a
    charger was plugged ([clear_override]). *)
(** src/common/charge_manager.c:1216-1254 [charge_manager_make_change] *)
Definition change_matters (m : cm) (change : charge_manager_change_type) (supplier port : Z)
    (charge : charge_port_info) : option bool :=
  match change with
  | CHANGE_CHARGE =>
    let old := available_charge m supplier port in
    if (current old =? current charge) && (voltage old =? voltage charge) then None
    else Some ((0 <? current charge) && (current old =? 0))
  | CHANGE_DUALROLE =>
    if drp_charging cfg || negb (bool_decide (dualrole_capability m port = CAP_DEDICATED)) then None
    else if existsb (fun i => 0 <? current (available_charge m i port)) all_suppliers
         then Some true else None
  end.

(** src/common/charge_manager.c:1256-1269 [clear_override] *)
Definition drop_override (m : cm) (port : Z) : cm :=
  let m' := set_override_port m OVERRIDE_OFF in
  if negb (delayed_override_port m =? OVERRIDE_OFF)
  then emit (set_overrides m' OVERRIDE_OFF OVERRIDE_OFF (delayed_override_deadline m))
         [DeferOverrideTimeout (-1)]
  else m'.

(** src/common/charge_manager.c:1271-1299 [charge_manager_make_change] *)
Definition record_charge (e : env) (m : cm) (supplier port : Z) (charge : charge_port_info) : cm :=
  let m := set_available m (upd2 (available_charge m) supplier port charge) in
  let m := set_registration m (upd (registration_time m) port (get_time e)) in
  let m := if 0 <? current charge then emit m [DeferDebounced CHARGE_DETECT_DELAY] else m in
  if (port =? delayed_override_port m) && (0 <? current charge) &&
     is_sink e (delayed_override_port m) && (get_time e <? delayed_override_deadline m)
  then
    let m := set_overrides m (override_port m) OVERRIDE_OFF (delayed_override_deadline m) in
    (charge_manager_set_override e port (emit m [DeferOverrideTimeout (-1)])).2
  else m.

(** src/common/charge_manager.c:1196-1309 [charge_manager_make_change] *)
Definition charge_manager_make_change (e : env) (change : charge_manager_change_type)
    (supplier port : Z) (charge : charge_port_info) (m : cm) : cm :=
  if negb (is_valid_port port) then m
  else match change_matters m change supplier port charge with
       | None => m
       | Some clear_override =>
         let m :=
           if clear_override && negb (override_port m =? port) &&
              negb (override_port m =? OVERRIDE_DONT_CHARGE) &&
              (drp_charging cfg || bool_decide (dualrole_capability m port = CAP_DEDICATED))
           then drop_override m port else m in
         let m := if decide (change = CHANGE_CHARGE)
                  then record_charge e m supplier port charge else m in
         refresh_if_seeded m
       end.

(** A NULL [charge] is zero. *)
(** src/common/charge_manager.c:1382-1390 [charge_manager_update_charge] *)
Definition charge_manager_update_charge (e : env) (supplier port : Z)
    (charge : option charge_port_info) (m : cm) : cm :=
  charge_manager_make_change e CHANGE_CHARGE supplier port (default zero_charge charge) m.

(** src/common/charge_manager.c:1311-1318 [charge_manager_invalidate_suppliers] *)
Definition charge_manager_invalidate_suppliers (e : env) (port : Z) (m : cm) : cm :=
  fold_left (fun m i => charge_manager_update_charge e i port None m) all_suppliers m.

(** src/common/charge_manager.c:1320-1328 [pd_set_input_current_limit] *)
Definition pd_set_input_current_limit (e : env) (port max_ma supply_voltage : Z) (m : cm) : cm :=
  charge_manager_update_charge e CHARGE_SUPPLIER_PD port
    (Some (Charge (s32 max_ma) (s32 supply_voltage))) m.

(** src/common/charge_manager.c:1330-1380 [typec_set_input_current_limit] *)
Definition typec_set_input_current_limit (e : env) (port max_ma supply_voltage : Z) (m : cm) : cm :=
  let dts := Z.testbit max_ma 31 in
  let cur := Z.land max_ma (2 ^ 31 - 1) in
  let cur := if negb (has_chg_ramp_task cfg) && negb (chg_ramp_hw cfg) && dts
             then Z.min cur 500 else cur in
  let supplier := if dts then CHARGE_SUPPLIER_TYPEC_DTS else CHARGE_SUPPLIER_TYPEC in
  let supplier := if cur <? 1500 then CHARGE_SUPPLIER_TYPEC_UNDER_1_5A else supplier in
  let m := charge_manager_update_charge e supplier port (Some (Charge cur (s32 supply_voltage))) m in
  fold_left (fun m s => if negb (supplier =? s) then charge_manager_update_charge e s port None m else m)
    [CHARGE_SUPPLIER_TYPEC; CHARGE_SUPPLIER_TYPEC_DTS; CHARGE_SUPPLIER_TYPEC_UNDER_1_5A] m.

(** src/common/charge_manager.c:1392-1402 [charge_manager_update_dualrole] *)
Definition charge_manager_update_dualrole (e : env) (port : Z) (cap : dualrole_capabilities) (m : cm)
    : cm :=
  if negb (is_pd_port port) then m
  else if decide (cap = dualrole_capability m port) then m
  else charge_manager_make_change e CHANGE_DUALROLE 0 port zero_charge
         (set_dualrole m (upd (dualrole_capability m) port cap)).

(** src/common/charge_manager.c:1410-1434 [charge_manager_leave_safe_mode] *)
Definition charge_manager_leave_safe_mode (m : cm) : cm :=
  if left_safe_mode m then m
  else refresh_if_seeded (set_flags m true (is_seeded m) (active_charge_port_initialized m)).

(** src/common/charge_manager.c:1437-1449 [charge_manager_set_ceil] *)
Definition charge_manager_set_ceil (port requestor ceil : Z) (m : cm) : cm :=
  if negb (is_valid_port port) then m
  else if negb (charge_ceil m port requestor =? ceil) then
    let m := set_ceils m (upd2 (charge_ceil m) port requestor ceil) in
    if port =? charge_port m then refresh_if_seeded m else m
  else m.

(** src/common/charge_manager.c:1451-1482 [charge_manager_force_ceil] *)
Definition charge_manager_force_ceil (port ceil : Z) (m : cm) : cm :=
  if left_safe_mode m && (port =? charge_port m) && (ceil <? charge_current m) then
    let m := emit m [SetChargeLimit port CHARGE_SUPPLIER_PD ceil (charge_current_uncapped m)
                       (charge_voltage m)] in
    let m := set_charge m (charge_port m) ceil (charge_current_uncapped m) (charge_voltage m)
               (charge_supplier m) (charge_pd_current_uncapped m) in
    set_ceils m (upd2 (charge_ceil m) port CEIL_REQUESTOR_PD ceil)
  else charge_manager_set_ceil port CEIL_REQUESTOR_PD ceil m.

(** src/common/charge_manager.c:1595-1610 [charge_manager_set_supplier] *)
Definition charge_manager_set_supplier (port supplier : Z) (m : cm) : cm :=
  if negb (charge_supplier m =? CHARGE_SUPPLIER_NONE) || negb (charge_port m =? CHARGE_PORT_NONE)
  then m
  else set_charge m port (charge_current m) (charge_current_uncapped m) (charge_voltage m) supplier
         (charge_pd_current_uncapped m).

(** src/common/charge_manager.c:1612-1627 [charge_manager_get_power_limit_uw] *)
Definition charge_manager_get_power_limit_uw (m : cm) : Z :=
  if (charge_current m =? CHARGE_CURRENT_UNINITIALIZED) ||
     (charge_voltage m =? CHARGE_VOLTAGE_UNINITIALIZED)
  then 0 else s32 (charge_current m * charge_voltage m).

(** src/common/charge_manager.c:1554-1560 [charge_manager_get_selected_charge_port] *)
Definition charge_manager_get_selected_charge_port (e : env) (m : cm) : Z :=
  (charge_manager_get_best_port e m).1.

(** ** Sourcing *)

(** src/common/charge_manager.c:1637-1640 [has_other_active_source] *)
Definition has_other_active_source (m : cm) (port : Z) : bool :=
  bool_of_Z (Z.land (source_port_bitmap m) (u32 (Z.lnot (BIT port)))).

(** src/common/charge_manager.c:1642-1645 [is_active_source] *)
Definition is_active_source (m : cm) (port : Z) : bool :=
  bool_of_Z (Z.land (source_port_bitmap m) (BIT port)).

(** src/common/charge_manager.c:1647-1673 [can_supply_max_current] *)
Definition can_supply_max_current (m : cm) (port : Z) : bool :=
  if max_total_source_current cfg then
    if negb (is_active_source m port) then false
    else forallb (fun p => (p =? port) || negb (source_port_rp m p =? MAX_SINGLE_SOURCE_RP cfg))
           (seqZ 0 (board_get_usb_pd_port_count cfg))
  else is_active_source m port && negb (has_other_active_source m port).

(** src/common/charge_manager.c:1689-1707 [charge_manager_source_port] *)
Definition update_source_rp (m : cm) (p : Z) : cm :=
  let rp := if can_supply_max_current m p then MAX_SINGLE_SOURCE_RP cfg else PULLUP_RP cfg in
  emit (set_source m (upd (source_port_rp m) p rp) (source_port_bitmap m)) [SelectSourceRp p rp].

(** src/common/charge_manager.c:1675-1708 [charge_manager_source_port] *)
Definition charge_manager_source_port (port : Z) (enable : bool) (m : cm) : cm :=
  let prev_bitmap := source_port_bitmap m in
  let bitmap := if enable then Z.lor prev_bitmap (BIT port)
                else Z.land prev_bitmap (u32 (Z.lnot (BIT port))) in
  let m := set_source m (source_port_rp m) bitmap in
  if prev_bitmap =? bitmap then m
  else fold_left update_source_rp (seqZ 0 (board_get_usb_pd_port_count cfg)) m.

(** ** Host commands *)

(** The reply, or [None] for EC_RES_INVALID_PARAM.  [PD_POWER_CHARGING_PORT]
    is 0xff. *)
(** src/common/charge_manager.c:1722-1744 [hc_pd_power_info] *)
Definition hc_pd_power_info (e : env) (m : cm) (p_port : Z) (r : power_info) : option power_info :=
  let port := if p_port =? 0xff then charge_port m else p_port in
  if CHARGE_PORT_COUNT <=? port then None
  else Some (charge_manager_fill_power_info e m port r).

(** src/common/charge_manager.c:1760-1771 [hc_charge_port_override] *)
Definition hc_charge_port_override (e : env) (p_override_port : Z) (m : cm) : option ec_error * cm :=
  let op := swrap 16 p_override_port in
  if negb (is_valid_override_port op) then (None, m)
  else let '(r, m) := charge_manager_set_override e op m in (Some r, m).

(** [None] is EC_RES_UNAVAILABLE. *)
(** src/common/charge_manager.c:1776-1796 [hc_override_dedicated_charger_limit] *)
Definition hc_override_dedicated_charger_limit (e : env) (lim_current lim_voltage : Z) (m : cm)
    : option cm :=
  if negb (charge_port m =? DEDICATED_CHARGE_PORT cfg) then None
  else Some (charge_manager_update_charge e CHARGE_SUPPLIER_DEDICATED (DEDICATED_CHARGE_PORT cfg)
               (Some (Charge lim_current lim_voltage)) m).

(** src/common/charge_manager.c:1823-1837 [charge_manager_set_external_power_limit] *)
Definition charge_manager_set_external_power_limit (current_lim voltage_lim : Z) (m : cm) : cm :=
  let current_lim := if current_lim =? 0xffff then CHARGE_CEIL_NONE else current_lim in
  let voltage_lim := if voltage_lim =? 0xffff then CONFIG_USB_PD_MAX_VOLTAGE_MV cfg else voltage_lim in
  fold_left (fun m port =>
    emit (charge_manager_set_ceil port CEIL_REQUESTOR_HOST current_lim m)
      [SetExternalVoltageLimit port voltage_lim])
    (seqZ 0 (board_get_usb_pd_port_count cfg)) m.

(** ** The selected port is the best one *)

Definition is_member (e : env) (m : cm) (sp : Z * Z) : Prop :=
  sp.1 ∈ all_suppliers /\ sp.2 ∈ all_ports /\ eligible e m sp.1 sp.2 = true.

(** Nothing chosen yet, or an eligible supplier. *)
Definition chosen_or_none (e : env) (m : cm) (b : best) : Prop :=
  (best_supplier b = CHARGE_SUPPLIER_NONE /\ best_port b = CHARGE_PORT_NONE) \/
  is_member e m (best_supplier b, best_port b).

Lemma consider_member e m b s p :
  s ∈ all_suppliers -> p ∈ all_ports -> chosen_or_none e m b -> chosen_or_none e m (consider e m b s p).
Proof.
  intros Hs Hp Hb. unfold consider. destruct (stop b); [done|].
  destruct (eligible e m s p) eqn:E; [|done]. cbn [negb].
  destruct (_ && _ && _); [done|]. destruct (_ && _ && _ && _); [by right|].
  destruct (_ || _); [by right|done].
Qed.

Lemma fold_left_inv {A B} (P : A -> Prop) (f : A -> B -> A) l :
  (forall a b, b ∈ l -> P a -> P (f a b)) -> forall a, P a -> P (fold_left f l a).
Proof.
  induction l as [|b l IH]; intros Hf a Ha; [done|]. simpl. apply IH; [set_solver|]. apply Hf; set_solver.
Qed.

Lemma select_best_member e m : chosen_or_none e m (select_best e m).
Proof.
  unfold select_best. apply fold_left_inv; [|by left]. intros b s Hs Hb.
  assert (Hi : chosen_or_none e m (fold_left (fun b p => consider e m b s p) all_ports b)).
  { apply fold_left_inv; [|done]. intros b' p Hp Hb'. by apply consider_member. }
  exact Hi.
Qed.

(** The pair the DPS task asks for. *)
Definition dps_choice (e : env) (m : cm) (s p : Z) : bool :=
  pd_dps cfg && (override_port m =? OVERRIDE_OFF) && (s =? CHARGE_SUPPLIER_PD) &&
  (p =? dps_get_charge_port e).

(** [(s1, p1)] is at least as good as [(s2, p2)]: the supplier's priority
    first, then the DPS port, then the power, then the active port. *)
Definition better (e : env) (m : cm) (s1 p1 s2 p2 : Z) : Prop :=
  supplier_priority cfg s1 < supplier_priority cfg s2 \/
  (supplier_priority cfg s1 = supplier_priority cfg s2 /\
   (dps_choice e m s1 p1 = true \/
    (dps_choice e m s2 p2 = false /\
     get_candidate_port_power e m s2 p2 <= get_candidate_port_power e m s1 p1 /\
     (get_candidate_port_power e m s2 p2 = get_candidate_port_power e m s1 p1 ->
      p2 = charge_port m -> p1 = charge_port m)))).

Lemma better_refl e m s p : better e m s p s p.
Proof. right. split; [done|]. destruct (dps_choice e m s p) eqn:E; [by left|right]. by split_and!. Qed.

Lemma dps_choice_true e m s p :
  dps_choice e m s p = true -> pd_dps cfg = true /\ override_port m = OVERRIDE_OFF /\
    s = CHARGE_SUPPLIER_PD /\ p = dps_get_charge_port e.
Proof. unfold dps_choice. rewrite !andb_true_iff, !Z.eqb_eq. tauto. Qed.

Section Optimal.
Context (e : env) (m : cm).
(** Where DPS may choose, no other supplier ties with PD. *)
Hypothesis pd_alone : forall s p, dps_choice e m s p = true ->
  forall s', s' ∈ all_suppliers -> supplier_priority cfg s' = supplier_priority cfg CHARGE_SUPPLIER_PD ->
  s' = CHARGE_SUPPLIER_PD.

Abbreviation prio s := (supplier_priority cfg s).
Abbreviation power s p := (get_candidate_port_power e m s p).
Abbreviation ov := (override_port m).

(** [s1, p1] may stand against [s2, p2]: it is on the override port if the
    other is, and better unless the override speaks for it. *)
Definition beats (s1 p1 s2 p2 : Z) : Prop :=
  (p2 = ov -> p1 = ov) /\ ((p1 = ov -> p2 = ov) -> better e m s1 p1 s2 p2).

(** [b] is the best of the eligible pairs in [l]. *)
Record best_of (l : list (Z * Z)) (b : best) : Prop := {
  bo_none : best_supplier b = CHARGE_SUPPLIER_NONE ->
    best_port b = CHARGE_PORT_NONE /\ forall s p, (s, p) ∈ l -> eligible e m s p = false;
  bo_some : best_supplier b <> CHARGE_SUPPLIER_NONE ->
    (best_supplier b, best_port b) ∈ l /\ eligible e m (best_supplier b) (best_port b) = true /\
    (dps_choice e m (best_supplier b) (best_port b) = false ->
     best_port_power b = power (best_supplier b) (best_port b)) /\
    (forall s p, (s, p) ∈ l -> eligible e m s p = true -> beats (best_supplier b) (best_port b) s p)
}.
(** The inner loop of supplier [cur] has been left at the DPS port. *)
Definition stopped (cur : Z) (b : best) : Prop :=
  stop b = true <-> best_supplier b <> CHARGE_SUPPLIER_NONE /\
    dps_choice e m (best_supplier b) (best_port b) = true /\ cur = CHARGE_SUPPLIER_PD.

Lemma best_of_keep l b s p :
  best_of l b ->
  (eligible e m s p = true -> best_supplier b <> CHARGE_SUPPLIER_NONE /\ beats (best_supplier b) (best_port b) s p) ->
  best_of (l ++ [(s, p)]) b.
Proof.
  intros [Hn Hb] Hk. split.
  - intros E. destruct (Hn E) as [H1 H2]. split; [done|]. intros s' p' H.
    apply elem_of_app in H as [H|H]; [by apply H2|]. apply list_elem_of_singleton in H as [= -> ->].
    destruct (eligible e m s p); [|done]. by destruct (Hk eq_refl).
  - intros E. destruct (Hb E) as (H1 & H2 & H3 & H4). split_and!; [set_solver|done|done|].
    intros s' p' H He. apply elem_of_app in H as [H|H]; [by apply H4|].
    apply list_elem_of_singleton in H as [= -> ->]. by apply Hk.
Qed.

Lemma best_of_take l b s p w st :
  0 <= s -> best_of l b -> eligible e m s p = true -> (dps_choice e m s p = false -> w = power s p) ->
  (best_supplier b <> CHARGE_SUPPLIER_NONE ->
   forall s' p', (s', p') ∈ l -> beats (best_supplier b) (best_port b) s' p' -> beats s p s' p') ->
  best_of (l ++ [(s, p)]) (Best s p w st).
Proof.
  intros Hs [Hn Hb] He Hw Hnew.
  split; cbn [best_supplier best_port best_port_power]; [unfold CHARGE_SUPPLIER_NONE; lia|].
  intros _. split_and!; [set_solver|done|done|]. intros s' p' H He'.
  apply elem_of_app in H as [H|H].
  - destruct (Z.eq_dec (best_supplier b) CHARGE_SUPPLIER_NONE) as [E|E].
    + destruct (Hn E) as [_ Hno]. by rewrite Hno in He'.
    + apply Hnew; [done|done|]. by apply Hb.
  - apply list_elem_of_singleton in H as [= -> ->]. split; [done|]. intros _. apply better_refl.
Qed.

(** Which of the two the test of the inner loop picks. *)
Lemma outranked s p b :
  best_supplier b <> CHARGE_SUPPLIER_NONE -> 0 <= p -> 0 <= best_port b -> s ∈ all_suppliers ->
  (dps_choice e m (best_supplier b) (best_port b) = true -> s <> CHARGE_SUPPLIER_PD) ->
  dps_choice e m s p = false ->
  (dps_choice e m (best_supplier b) (best_port b) = false ->
   best_port_power b = power (best_supplier b) (best_port b)) ->
  (best_port b = ov -> p = ov) ->
  if (best_supplier b =? CHARGE_SUPPLIER_NONE) || (prio s <? prio (best_supplier b)) ||
     ((p =? ov) && negb (best_port b =? ov)) ||
     ((prio s =? prio (best_supplier b)) &&
      ((best_port_power b <? power s p) ||
       ((power s p =? best_port_power b) && (charge_port m =? p))))
  then forall s' p', beats (best_supplier b) (best_port b) s' p' -> beats s p s' p'
  else beats (best_supplier b) (best_port b) s p.
Proof.
  intros Hn Hp Hbp Hin Hpd Hd Hw Hfoc.
  destruct (dps_choice e m (best_supplier b) (best_port b)) eqn:Eb.
  - pose proof (dps_choice_true _ _ _ _ Eb) as (_ & Hov & Es & Ep).
    assert (Hne : prio s <> prio (best_supplier b)).
    { rewrite Es. intros E. by apply Hpd, (pd_alone _ _ Eb). }
    clear Hw Hpd. unfold OVERRIDE_OFF in Hov.
    match goal with |- if ?c then _ else _ => destruct c eqn:Et end.
    + intros s' p' [H1 H2]. split; [lia|]. intros _. left.
      destruct (H2 ltac:(lia)) as [H3|[H3 _]]; lia.
    + split; [lia|]. intros _. left. lia.
  - specialize (Hw eq_refl). clear Hpd pd_alone.
    match goal with |- if ?c then _ else _ => destruct c eqn:Et end.
    + intros s' p' [H1 H2]. split; [auto|]. intros Hf.
      assert (Hf' : best_port b = ov -> p' = ov) by auto.
      specialize (H2 Hf'). unfold better in *. rewrite Eb in H2. rewrite Hd.
      destruct H2 as [H2|(H2 & [?|(H3 & H4 & H5)])]; [lia|done|]. rewrite H3. lia.
    + split; [lia|]. intros _. unfold better. rewrite Eb, Hd. lia.
Qed.

Lemma consider_best l b s p :
  s ∈ all_suppliers -> 0 <= p -> (forall s' p', (s', p') ∈ l -> 0 <= s' <= s /\ 0 <= p') ->
  best_of l b -> stopped s b ->
  best_of (l ++ [(s, p)]) (consider e m b s p) /\ stopped s (consider e m b s p).
Proof.
  intros Hs Hp Hl Hb Hst. assert (Hs0 : 0 <= s) by (unfold all_suppliers in Hs; rewrite elem_of_seqZ in Hs; lia).
  pose proof Hb as [Hn Hsome]. unfold consider. destruct (stop b) eqn:Est.
  { split; [|done]. apply best_of_keep; [done|]. intros _. destruct (proj1 Hst Est) as (H1 & H2 & H3).
    pose proof (dps_choice_true _ _ _ _ H2) as (_ & Hov & E & _). unfold OVERRIDE_OFF in Hov.
    split; [done|]. split; [lia|]. intros _. right. rewrite E, H3. split; [done|]. left. congruence. }
  destruct (eligible e m s p) eqn:El; cbn [negb]; [|split; [apply best_of_keep; [done|congruence]|done]].
  destruct (negb (ov =? OVERRIDE_OFF) && (ov =? best_port b) && negb (ov =? p)) eqn:Eskip.
  { split; [|done]. apply best_of_keep; [done|]. intros _. split; [|split; lia]. intros E.
    destruct (Hn E) as [E' _]. unfold CHARGE_PORT_NONE, OVERRIDE_OFF in *. lia. }
  fold (dps_choice e m s p). destruct (dps_choice e m s p) eqn:Ed.
  { pose proof (dps_choice_true _ _ _ _ Ed) as (_ & Hov & E & _). unfold OVERRIDE_OFF in Hov. split.
    - apply (best_of_take l b); [done..|congruence|]. intros _ s' p' H _.
      destruct (Hl _ _ H) as [H1 H2]. unfold CHARGE_SUPPLIER_PD in E. assert (s' = s) as -> by lia.
      split; [lia|]. intros _. right. split; [done|by left].
    - split; [|done]. intros _. cbn [best_supplier best_port]. split_and!; [unfold CHARGE_SUPPLIER_NONE; lia|done|done]. }
  assert (Hstop : stopped s (Best s p (power s p) false)).
  { unfold stopped. cbn [best_supplier best_port stop]. rewrite Ed. split; [done|]. by intros (_ & ? & _). }
  destruct (Z.eq_dec (best_supplier b) CHARGE_SUPPLIER_NONE) as [En|En].
  { rewrite En. cbn [Z.eqb CHARGE_SUPPLIER_NONE Pos.eqb orb]. split; [|done]. by apply (best_of_take l b). }
  destruct (Hsome En) as (H1 & H2 & H3 & H4).
  assert (Hr := outranked s p b En Hp (proj2 (Hl _ _ H1)) Hs).
  specialize (Hr ltac:(intros Hd E; assert (stop b = true) by (by apply Hst); congruence) Ed H3).
  specialize (Hr ltac:(unfold OVERRIDE_OFF, CHARGE_PORT_NONE in *; destruct (Hl _ _ H1); lia)).
  match goal with |- context [if ?c then Best s p _ false else b] => destruct c end.
  - split; [|done]. apply (best_of_take l b); try done. intros _ s' p' _. apply Hr.
  - split; [|done]. by apply best_of_keep.
Qed.

Lemma inner_best s : forall ports l b,
  s ∈ all_suppliers -> (forall p, p ∈ ports -> 0 <= p) ->
  (forall s' p', (s', p') ∈ l -> 0 <= s' <= s /\ 0 <= p') -> best_of l b -> stopped s b ->
  best_of (l ++ ((fun p => (s, p)) <$> ports)) (fold_left (fun b p => consider e m b s p) ports b).
Proof.
  induction ports as [|p ports IH]; intros l b Hs Hp Hl Hb Hst; [by rewrite app_nil_r|].
  cbn [fold_left fmap list_fmap].
  destruct (consider_best l b s p Hs (Hp p ltac:(set_solver)) Hl Hb Hst) as [Hb' Hst'].
  replace (l ++ (s, p) :: ((fun p => (s, p)) <$> ports)) with ((l ++ [(s, p)]) ++ ((fun p => (s, p)) <$> ports))
    by (by rewrite <- app_assoc).
  apply IH; try done; [set_solver|]. intros s' p' H. apply elem_of_app in H as [H|H]; [by apply Hl|].
  apply list_elem_of_singleton in H as [= -> ->]. split; [|apply Hp; set_solver].
  unfold all_suppliers in Hs. rewrite elem_of_seqZ in Hs. lia.
Qed.

Definition pairs_of (sups : list Z) : list (Z * Z) := sups ≫= fun s => (fun p => (s, p)) <$> all_ports.

Lemma outer_best n : forall a l b,
  0 <= a -> (forall s, s ∈ seqZ a n -> s ∈ all_suppliers) ->
  (forall s p, (s, p) ∈ l -> 0 <= s < a /\ 0 <= p) -> best_of l b -> stop b = false ->
  best_of (l ++ pairs_of (seqZ a n)) (fold_left (fun b sup_idx =>
    let b := fold_left (fun b port_idx => consider e m b sup_idx port_idx) all_ports b in
    Best (best_supplier b) (best_port b) (best_port_power b) false) (seqZ a n) b).
Proof.
  destruct (Z.le_gt_cases 0 n) as [Hn|Hn]; [|intros; rewrite seqZ_nil by lia; by rewrite app_nil_r].
  revert n Hn. apply (natlike_ind (fun n => forall a l b, _ -> _ -> _ -> _ -> _ -> _)).
  { intros a l b ?????. rewrite seqZ_nil by done. by rewrite app_nil_r. }
  intros n Hn IH a l b Ha Hin Hl Hb Hst. rewrite seqZ_cons in Hin |- * by lia.
  replace (Z.pred (Z.succ n)) with n in * by lia. cbn [fold_left pairs_of mbind list_bind]. rewrite app_assoc.
  assert (Hb' : best_of (l ++ ((fun p => (a, p)) <$> all_ports))
                  (fold_left (fun b p => consider e m b a p) all_ports b)).
  { apply inner_best; try done; [set_solver|..].
    - intros p Hp. unfold all_ports in Hp. rewrite elem_of_seqZ in Hp. lia.
    - intros s p H. specialize (Hl s p H). lia.
    - split; [congruence|]. intros (H1 & _ & H2). destruct Hb as [_ Hb].
      destruct (Hb H1) as [H3 _]. specialize (Hl _ _ H3). unfold CHARGE_SUPPLIER_PD in H2. lia. }
  fold (pairs_of (seqZ (Z.succ a) n)). apply IH; [lia|set_solver| |destruct Hb'; by split|done].
  intros s p H. apply elem_of_app in H as [H|H]; [specialize (Hl s p H); lia|].
  apply list_elem_of_fmap in H as (q & [= -> ->] & Hq).
  unfold all_ports in Hq. rewrite elem_of_seqZ in Hq. lia.
Qed.

Lemma select_best_of : best_of (pairs_of all_suppliers) (select_best e m).
Proof.
  apply (outer_best CHARGE_SUPPLIER_COUNT 0 [] (Best CHARGE_SUPPLIER_NONE CHARGE_PORT_NONE (-1) false)).
  - done.
  - done.
  - set_solver.
  - split; [|done]. intros _. split; [done|]. set_solver.
  - done.
Qed.
End Optimal.

Lemma elem_of_pairs_of s p : (s, p) ∈ pairs_of all_suppliers <-> s ∈ all_suppliers /\ p ∈ all_ports.
Proof. unfold pairs_of. set_solver. Qed.

(** C26. With no battery reason to stay on the old port, the selected supplier
    is eligible and best: no eligible one has a higher priority; among those of
    the same priority the PD supplier of the port DPS asks for comes first (DPS
    on, no override port set), then the one that offers most power, and among
    equals the active port is kept.  An override port that has anything to
    offer restricts the choice to it; "don't charge" selects nothing; nothing
    is selected only when nothing is eligible.  Where DPS may choose, no other
    supplier shares PD's priority, as in the default table. *)
Theorem best_port_optimal e m :
  (forall s p, dps_choice e m s p = true -> forall s', s' ∈ all_suppliers ->
     supplier_priority cfg s' = supplier_priority cfg CHARGE_SUPPLIER_PD -> s' = CHARGE_SUPPLIER_PD) ->
  is_battery_disconnected e = false ->
  let '(port, sup) := charge_manager_get_best_port e m in
  (override_port m = OVERRIDE_DONT_CHARGE -> port = CHARGE_PORT_NONE /\ sup = CHARGE_SUPPLIER_NONE) /\
  (override_port m <> OVERRIDE_DONT_CHARGE ->
   (sup = CHARGE_SUPPLIER_NONE ->
      port = CHARGE_PORT_NONE /\ forall s p, ~ is_member e m (s, p)) /\
   (sup <> CHARGE_SUPPLIER_NONE ->
      is_member e m (sup, port) /\
      (forall s p, is_member e m (s, p) -> p = override_port m -> port = override_port m) /\
      (forall s p, is_member e m (s, p) -> (port = override_port m -> p = override_port m) ->
         better e m sup port s p))).
Proof.
  intros Hpd Hbat. unfold charge_manager_get_best_port.
  destruct (Z.eqb_spec (override_port m) OVERRIDE_DONT_CHARGE) as [Ho|Ho]; [by split|].
  rewrite Hbat, andb_false_r. split; [done|]. intros _.
  destruct (select_best_of e m Hpd) as [Hn Hs]. split.
  - intros E. destruct (Hn E) as [H1 H2]. split; [done|]. intros s p (Hs' & Hp & He).
    simpl in *. rewrite H2 in He; [done|]. by apply elem_of_pairs_of.
  - intros E. destruct (Hs E) as (H1 & H2 & _ & H4).
    apply elem_of_pairs_of in H1 as [H1a H1b]. split_and!; try done.
    + intros s p (Hs' & Hp & He). by apply (H4 s p (proj2 (elem_of_pairs_of s p) (conj Hs' Hp)) He).
    + intros s p (Hs' & Hp & He). by apply (H4 s p (proj2 (elem_of_pairs_of s p) (conj Hs' Hp)) He).
Qed.

(** ** Refresh terminates and sets what it should *)

Lemma clear_port_spec m port :
  exists A, clear_port m port = set_available m A /\
    forall s p, A s p = if (p =? port) && bool_decide (s ∈ all_suppliers) then zero_charge
                       else available_charge m s p.
Proof.
  unfold clear_port. generalize all_suppliers. intros l. revert m.
  induction l as [|i l IH]; intros m.
  - exists (available_charge m). split; [by destruct m|]. intros s p.
    rewrite bool_decide_false by set_solver. by rewrite andb_false_r.
  - cbn [fold_left]. destruct (IH (set_available m (upd2 (available_charge m) i port zero_charge)))
      as (A & -> & HA). exists A. split; [done|]. intros s p. rewrite HA. cbn [available_charge set_available].
    unfold upd2. destruct (Z.eqb_spec p port), (Z.eqb_spec s i) as [->|]; cbn [andb].
    + rewrite (bool_decide_true (i ∈ i :: l)) by set_solver. by destruct (bool_decide _).
    + rewrite (bool_decide_ext (s ∈ i :: l) (s ∈ l)) by set_solver. done.
    + done.
    + done.
Qed.

(** The ports that still have something to offer. *)
Definition live (e : env) (m : cm) : list Z :=
  filter (fun p => existsb (fun s => eligible e m s p) all_suppliers = true) all_ports.

Lemma eligible_cleared e m port s p :
  s ∈ all_suppliers ->
  eligible e (clear_port m port) s p = negb (p =? port) && eligible e m s p.
Proof.
  intros Hs. destruct (clear_port_spec m port) as (A & -> & HA). unfold eligible.
  cbn [available_charge set_available]. rewrite HA, (bool_decide_true _ Hs), andb_true_r.
  change (is_dualrole_charging_capable e (set_available m A) p) with (is_dualrole_charging_capable e m p).
  destruct (p =? port); simpl; [by rewrite andb_false_r|done].
Qed.

Lemma filter_drop {A} (P Q : A -> Prop) `{!forall x, Decision (P x), !forall x, Decision (Q x)} l x :
  (forall y, Q y -> P y) -> x ∈ l -> P x -> ~ Q x -> (length (filter Q l) < length (filter P l))%nat.
Proof.
  intros HQP Hx HP HQ.
  assert (Hle : forall l, (length (filter Q l) <= length (filter P l))%nat).
  { induction l0 as [|y l0 IH]; [done|]. rewrite !filter_cons.
    destruct (decide (Q y)), (decide (P y)); simpl; try lia. naive_solver. }
  induction l as [|y l IH]; [set_solver|]. rewrite !filter_cons.
  apply elem_of_cons in Hx as [->|Hx].
  - rewrite decide_False, decide_True by done. specialize (Hle l). simpl. lia.
  - specialize (IH Hx). destruct (decide (Q y)), (decide (P y)); simpl; try lia. naive_solver.
Qed.

Lemma live_cleared e m port s :
  is_member e m (s, port) -> (length (live e (clear_port m port)) < length (live e m))%nat.
Proof.
  intros (Hs & Hp & He). simpl in *. apply (filter_drop _ _ _ port); [|done|..].
  - intros q Hq. apply existsb_exists in Hq as (s' & Hs' & Hq). apply existsb_exists.
    exists s'. split; [done|]. rewrite <- list_elem_of_In in Hs'. rewrite eligible_cleared in Hq by done.
    by apply andb_true_iff in Hq as [_ ?].
  - apply existsb_exists. exists s. by rewrite <- list_elem_of_In.
  - intros Hq. apply existsb_exists in Hq as (s' & Hs' & Hq). rewrite <- list_elem_of_In in Hs'.
    rewrite eligible_cleared, Z.eqb_refl in Hq by done. done.
Qed.

Lemma best_port_member e m port sup :
  is_battery_disconnected e = false -> charge_manager_get_best_port e m = (port, sup) ->
  (port = CHARGE_PORT_NONE /\ sup = CHARGE_SUPPLIER_NONE) \/ is_member e m (sup, port).
Proof.
  intros Hbat. unfold charge_manager_get_best_port. destruct (_ =? OVERRIDE_DONT_CHARGE).
  - intros [= <- <-]. by left.
  - rewrite Hbat, andb_false_r. intros [= <- <-]. destruct (select_best_member e m) as [[? ?]|?]; auto.
Qed.

(** What the hunt may change: the charge of rejected ports, and the log. *)
Definition hunted (m m' : cm) : Prop := exists A es, m' = emit (set_available m A) es.

Lemma hunted_refl m : hunted m m.
Proof. exists (available_charge m), []. destruct m. unfold emit. simpl. by rewrite app_nil_r. Qed.
Lemma hunted_trans m1 m2 m3 : hunted m1 m2 -> hunted m2 m3 -> hunted m1 m3.
Proof.
  intros (A1 & e1 & ->) (A2 & e2 & ->). exists A2, (e1 ++ e2). unfold emit. simpl. by rewrite app_assoc.
Qed.
Lemma hunted_emit m es : hunted m (emit m es).
Proof. exists (available_charge m), es. by destruct m. Qed.
Lemma hunted_clear m port : hunted m (clear_port m port).
Proof.
  destruct (clear_port_spec m port) as (A & -> & _). exists A, []. unfold emit. simpl.
  by rewrite app_nil_r.
Qed.

Lemma hunted_fields m m' :
  hunted m m' -> left_safe_mode m' = left_safe_mode m /\ override_port m' = override_port m /\
    charge_port m' = charge_port m /\ charge_current m' = charge_current m.
Proof. by intros (A & es & ->). Qed.

(** The calls before an attempt only add to the log. *)
Definition before_attempt (m : cm) (port : Z) : cm :=
  emit (if ocpc cfg then emit m [ResetOcpc port] else m) [SetActiveChargePort port].

Lemma before_attempt_spec e m port :
  hunted m (before_attempt m port) /\ live e (before_attempt m port) = live e m /\
  forall sp, is_member e m sp -> is_member e (before_attempt m port) sp.
Proof.
  unfold before_attempt. split_and!; [|by destruct (ocpc cfg)|by destruct (ocpc cfg)].
  destruct (ocpc cfg); [eapply hunted_trans|]; apply hunted_emit.
Qed.

Lemma best_port_dont_charge e m port sup :
  charge_manager_get_best_port e m = (port, sup) -> override_port m = OVERRIDE_DONT_CHARGE ->
  port = CHARGE_PORT_NONE.
Proof. intros Eb Ho. unfold charge_manager_get_best_port in Eb. rewrite Ho in Eb. by injection Eb. Qed.

(** A finished hunt: in safe mode with nothing to switch to, or on a port
    that is eligible (or none). *)
Definition hunt_done (e : env) (m : cm) (r : option hunt_result) : Prop :=
  (exists m', r = Some (HuntReturn m') /\ hunted m m' /\ left_safe_mode m = false) \/
  (exists m' port sup, r = Some (HuntPort m' port sup) /\ hunted m m' /\
     ((port = CHARGE_PORT_NONE /\ sup = CHARGE_SUPPLIER_NONE) \/ is_member e m' (sup, port)) /\
     (override_port m = OVERRIDE_DONT_CHARGE -> port = CHARGE_PORT_NONE)).

Lemma hunt_done_trans e m m1 r : hunted m m1 -> hunt_done e m1 r -> hunt_done e m r.
Proof.
  intros H1 H. destruct (hunted_fields _ _ H1) as (Hs & Ho & _).
  destruct H as [(m' & -> & H2 & Hl)|(m' & p & s & -> & H2 & H3 & H4)].
  - left. exists m'. split_and!; [done|by eapply hunted_trans|congruence].
  - right. exists m', p, s. split_and!; [done|by eapply hunted_trans|done|]. rewrite <- Ho. done.
Qed.

Lemma hunt_spec e : forall fuel k m,
  is_battery_disconnected e = false -> (forall k, board_accepts e k CHARGE_PORT_NONE = true) ->
  (length (live e m) < fuel)%nat -> hunt_done e m (hunt fuel e k m).
Proof.
  induction fuel as [|fuel IH]; intros k m Hbat Hacc Hf; [lia|]. cbn [hunt].
  destruct (charge_manager_get_best_port e m) as [port sup] eqn:Eb.
  pose proof (best_port_member e m port sup Hbat Eb) as Hmem.
  pose proof (best_port_dont_charge e m port sup Eb) as Hdc.
  destruct (negb (left_safe_mode m) && _) eqn:Es.
  { left. exists m. split_and!; [done|apply hunted_refl|]. by destruct (left_safe_mode m). }
  destruct (_ && _ && _); [right; exists m, port, sup; split_and!; auto using hunted_refl|].
  fold (before_attempt m port).
  destruct (before_attempt_spec e m port) as (Hb1 & Hb2 & Hb3).
  destruct (board_accepts e k port) eqn:Ea.
  - right. exists (if extpower cfg then emit (before_attempt m port) [CheckExtpower]
                   else before_attempt m port), port, sup.
    split_and!; [done| | |done].
    + destruct (extpower cfg); [|done]. eapply hunted_trans; [exact Hb1|apply hunted_emit].
    + destruct Hmem as [?|Hmem]; [by left|right]. apply Hb3 in Hmem. by destruct (extpower cfg).
  - destruct (Z.eqb_spec port CHARGE_PORT_NONE) as [->|Hne]; [by rewrite Hacc in Ea|].
    destruct Hmem as [[? _]|Hmem]; [done|].
    apply (hunt_done_trans e m (clear_port (before_attempt m port) port)).
    { eapply hunted_trans; [exact Hb1|apply hunted_clear]. }
    apply IH; [done|done|]. pose proof (live_cleared e _ port sup (Hb3 _ Hmem)). rewrite Hb2 in *. lia.
Qed.

(** *** The rest of a refresh *)

Definition is_limit (ef : effect) : Prop := match ef with SetChargeLimit _ _ _ _ _ => True | _ => False end.
Definition quiet (es : list effect) : Prop := Forall (fun ef => ~ is_limit ef) es.

(** [m'] is [m] after calls that set no charge limit. *)
Definition logged (m m' : cm) : Prop := exists es, m' = emit m es /\ quiet es.

Lemma emit_emit m e1 e2 : emit (emit m e1) e2 = emit m (e1 ++ e2).
Proof. unfold emit. simpl. by rewrite app_assoc. Qed.
Lemma logged_refl m : logged m m.
Proof. exists []. split; [|constructor]. unfold emit. rewrite app_nil_r. by destruct m. Qed.
Lemma logged_emit m ef : ~ is_limit ef -> logged m (emit m [ef]).
Proof. intros H. exists [ef]. split; [done|by repeat constructor]. Qed.
Lemma logged_trans m1 m2 m3 : logged m1 m2 -> logged m2 m3 -> logged m1 m3.
Proof.
  intros (e1 & -> & Q1) (e2 & -> & Q2). exists (e1 ++ e2). split; [apply emit_emit|by apply Forall_app].
Qed.

Lemma switch_to_source_logged e port m : logged m (charge_manager_switch_to_source e port m).
Proof.
  unfold charge_manager_switch_to_source. destruct (negb _); [apply logged_refl|].
  destruct (_ && _); [by apply logged_emit; intros []|apply logged_refl].
Qed.
Lemma request_new_power_logged e m port : logged m (request_new_power e m port).
Proof.
  unfold request_new_power. destruct (negb _); [apply logged_refl|].
  destruct (can_query_request cfg); [|by apply logged_emit; intros []].
  destruct (if pd_dps cfg && _ then _ else _); [by apply logged_emit; intros []|apply logged_refl].
Qed.
Lemma apply_limits_logged e m p s cur unc v :
  has_chg_ramp_task cfg = false ->
  exists e1 e2, apply_limits e m p s cur unc v = emit m (e1 ++ [SetChargeLimit p s cur unc v] ++ e2) /\
    quiet e1 /\ quiet e2.
Proof.
  intros Hr. unfold apply_limits. rewrite Hr.
  exists (if chg_ramp_hw cfg then [SetHwRamp (chg_ramp_allowed e p s)] else []),
    (if extpower cfg then [CheckExtpower] else []).
  destruct (chg_ramp_hw cfg), (extpower cfg); rewrite ?emit_emit; split_and!; try done;
    repeat constructor; intros [].
Qed.
Lemma apply_limits_form e m p s cur unc v : exists es, apply_limits e m p s cur unc v = emit m es.
Proof.
  unfold apply_limits. destruct (has_chg_ramp_task cfg), (chg_ramp_hw cfg), (extpower cfg);
    rewrite ?emit_emit; eauto.
Qed.

(** The state the limits are computed in: an unselected override dropped. *)
Definition settle_override (m : cm) (new_port : Z) : cm :=
  let m := set_flags m (left_safe_mode m) (is_seeded m) true in
  if (0 <=? override_port m) && negb (override_port m =? new_port)
  then set_override_port m OVERRIDE_OFF else m.

Definition power_changed (m : cm) (new_port new_supplier cur : Z) : bool :=
  negb (new_port =? charge_port m) || negb (cur =? charge_current m) ||
  negb (new_supplier =? charge_supplier m).

(** The limits a refresh programs: none, or exactly the new ones. *)
Definition programs (changed : bool) (p s cur unc v : Z) (es : list effect) : Prop :=
  if changed then exists e1 e2, es = e1 ++ [SetChargeLimit p s cur unc v] ++ e2 /\ quiet e1 /\ quiet e2
  else quiet es.

Lemma programs_quiet changed p s cur unc v es e2 :
  programs changed p s cur unc v es -> quiet e2 -> programs changed p s cur unc v (es ++ e2).
Proof.
  unfold programs. destruct changed.
  - intros (a & b & -> & Ha & Hb) H2. exists a, (b ++ e2). split_and!; [by rewrite <- !app_assoc|done|].
    by apply Forall_app.
  - intros. by apply Forall_app.
Qed.

Lemma refresh_port_form e m p s cur unc v :
  new_limits e (settle_override m p) p s = (cur, unc, v) ->
  exists es,
    refresh_port e m p s = emit (set_charge (settle_override m p) p cur unc v s
      (if s =? CHARGE_SUPPLIER_PD then unc else CHARGE_CURRENT_UNINITIALIZED)) es /\
    (has_chg_ramp_task cfg = false -> programs (power_changed m p s cur) p s cur unc v es).
Proof.
  intros Hl. unfold refresh_port. fold (settle_override m p). rewrite Hl.
  set (M := settle_override m p).
  assert (HM : charge_port M = charge_port m /\ charge_current M = charge_current m /\
    charge_supplier M = charge_supplier m) by (unfold M, settle_override; by destruct (_ && _)).
  destruct HM as (HM1 & HM2 & HM3). rewrite HM1, HM2, HM3. fold (power_changed m p s cur).
  set (pc := power_changed m p s cur).
  assert (Ha : exists es, (if pc then apply_limits e M p s cur unc v else M) = emit M es /\
    (has_chg_ramp_task cfg = false -> programs pc p s cur unc v es)).
  { destruct pc.
    - destruct (apply_limits_form e M p s cur unc v) as [es Hes]. exists es. split; [done|].
      intros Hr. destruct (apply_limits_logged e M p s cur unc v Hr) as (e1 & e2 & E & Q1 & Q2).
      rewrite Hes in E. exists e1, e2. split_and!; [|done|done].
      apply (f_equal log) in E. simpl in E. by apply app_inv_head in E.
    - destruct (logged_refl M) as (es & E & Q). exists es. by split. }
  destruct Ha as (es & -> & Hp). cbv zeta.
  change (charge_port (emit M es)) with (charge_port M). rewrite HM1.
  set (up := if _ && _ then p else CHARGE_PORT_NONE). clearbody up.
  assert (Hs : exists es2 old, (if negb (charge_port m =? p) && negb (charge_port m =? CHARGE_PORT_NONE)
      then (charge_manager_switch_to_source e (charge_port m) (emit M es), charge_port m)
      else (emit M es, CHARGE_PORT_NONE)) = (emit M (es ++ es2), old) /\ quiet es2).
  { destruct (_ && _).
    - destruct (switch_to_source_logged e (charge_port m) (emit M es)) as (es2 & -> & Q).
      exists es2, (charge_port m). by rewrite emit_emit.
    - exists [], CHARGE_PORT_NONE. rewrite app_nil_r. split; [done|constructor]. }
  destruct Hs as (es2 & old & -> & Q2).
  set (M2 := set_charge (emit M (es ++ es2)) _ _ _ _ _ _).
  destruct (request_new_power_logged e M2 up) as (es3 & -> & Q3).
  set (M4 := if is_pd_port old then _ else _).
  assert (H4 : logged (emit M2 es3) M4).
  { unfold M4. destruct (is_pd_port old); [by apply logged_emit; intros []|apply logged_refl]. }
  destruct H4 as (es4 & -> & Q4).
  assert (H5 : exists es5, (if pc then emit (emit (emit M2 es3) es4) [PowerSupplyChange; HostPowerChange]
     else emit (emit M2 es3) es4) = emit (emit (emit M2 es3) es4) es5 /\ quiet es5).
  { destruct pc; [exists [PowerSupplyChange; HostPowerChange]; split; [done|repeat constructor; intros []]|].
    destruct (logged_refl (emit (emit M2 es3) es4)) as (es5 & E & Q). by exists es5. }
  destruct H5 as (es5 & -> & Q5). rewrite !emit_emit.
  exists ((es ++ es2) ++ (es3 ++ es4) ++ es5). split.
  - unfold M2, set_charge, emit. simpl. by rewrite !app_assoc.
  - intros Hr. apply programs_quiet; [apply programs_quiet; [by apply Hp|done]|].
    repeat (apply Forall_app; split); done.
Qed.

(** The effective ceiling is the least one set. *)
Lemma get_ceil_spec m port r :
  is_valid_port port = true -> 0 <= r < CEIL_REQUESTOR_COUNT ->
  charge_ceil m port r <> CHARGE_CEIL_NONE ->
  charge_manager_get_ceil m port <> CHARGE_CEIL_NONE /\
  charge_manager_get_ceil m port <= charge_ceil m port r.
Proof.
  intros Hv Hr Hne. unfold charge_manager_get_ceil. rewrite Hv. cbn [negb].
  change (seqZ 0 CEIL_REQUESTOR_COUNT) with [0; 1]. cbn [fold_left].
  unfold CEIL_REQUESTOR_COUNT, CHARGE_CEIL_NONE in *.
  assert (r = 0 \/ r = 1) as [->| ->] by lia;
    destruct (Z.eqb_spec (charge_ceil m port 0) (-1)), (Z.eqb_spec (charge_ceil m port 1) (-1));
    simpl; try lia;
    repeat match goal with |- context [?x =? ?y] => destruct (Z.eqb_spec x y) end; simpl; try lia;
    destruct (Z.ltb_spec (charge_ceil m port 1) (charge_ceil m port 0)); lia.
Qed.

Lemma get_ceil_attained m port :
  charge_manager_get_ceil m port <> CHARGE_CEIL_NONE ->
  exists r, 0 <= r < CEIL_REQUESTOR_COUNT /\ charge_ceil m port r = charge_manager_get_ceil m port.
Proof.
  unfold charge_manager_get_ceil. destruct (negb _); [done|].
  change (seqZ 0 CEIL_REQUESTOR_COUNT) with [0; 1]. cbn [fold_left]. unfold CEIL_REQUESTOR_COUNT.
  intros H. repeat case_match; first [done|by (exists 0; split; [lia|])|by (exists 1; split; [lia|])].
Qed.

(** What a refresh leaves behind when it settled on a port. *)
Record refreshed (e : env) (m m2 : cm) : Prop := {
  rf_override : override_port m2 < 0 \/ override_port m2 = charge_port m2;
  rf_dont_charge : override_port m = OVERRIDE_DONT_CHARGE ->
    charge_port m2 = CHARGE_PORT_NONE /\ override_port m2 = OVERRIDE_DONT_CHARGE;
  rf_none : charge_supplier m2 = CHARGE_SUPPLIER_NONE ->
    charge_port m2 = CHARGE_PORT_NONE /\ charge_current m2 = default_current_limit cfg;
  rf_some : charge_supplier m2 <> CHARGE_SUPPLIER_NONE ->
    let offered := available_charge m2 (charge_supplier m2) (charge_port m2) in
    is_valid_port (charge_port m2) = true /\ current offered <> 0 /\ voltage offered <> 0 /\
    charge_voltage m2 = voltage offered /\
    charge_current_uncapped m2 =
      (if chg_ramp_hw cfg && chg_ramp_allowed e (charge_port m2) (charge_supplier m2)
       then chg_ramp_max e (charge_port m2) (charge_supplier m2) (current offered) else current offered) /\
    charge_current m2 <= charge_current_uncapped m2 /\
    (charge_current m2 = charge_current_uncapped m2 \/
     left_safe_mode m2 = true /\ exists r, 0 <= r < CEIL_REQUESTOR_COUNT /\
       charge_ceil m2 (charge_port m2) r <> CHARGE_CEIL_NONE /\
       charge_current m2 = charge_ceil m2 (charge_port m2) r) /\
    (left_safe_mode m2 = true -> forall r, 0 <= r < CEIL_REQUESTOR_COUNT ->
       charge_ceil m2 (charge_port m2) r <> CHARGE_CEIL_NONE ->
       charge_current m2 <= charge_ceil m2 (charge_port m2) r)
}.

Lemma refresh_port_refreshed e m m1 p s :
  hunted m m1 -> (p = CHARGE_PORT_NONE /\ s = CHARGE_SUPPLIER_NONE) \/ is_member e m1 (s, p) ->
  (override_port m = OVERRIDE_DONT_CHARGE -> p = CHARGE_PORT_NONE) ->
  refreshed e m (refresh_port e m1 p s).
Proof.
  intros Hh Hmem Hdc. destruct (new_limits e (settle_override m1 p) p s) as [[cur unc] v] eqn:Hl.
  destruct (refresh_port_form e m1 p s cur unc v Hl) as (es & -> & _).
  destruct (hunted_fields _ _ Hh) as (_ & Ho & _). rewrite <- Ho in Hdc.
  set (M := settle_override m1 p) in *.
  assert (HMo : override_port M = if (0 <=? override_port m1) && negb (override_port m1 =? p)
    then OVERRIDE_OFF else override_port m1) by (unfold M, settle_override; by destruct (_ && _)).
  assert (HMs : available_charge M = available_charge m1)
    by (unfold M, settle_override; by destruct (_ && _)).
  split; cbn [override_port charge_port charge_supplier charge_current available_charge charge_voltage
    charge_current_uncapped left_safe_mode charge_ceil emit set_charge].
  - rewrite HMo. unfold OVERRIDE_OFF. destruct (Z.leb_spec 0 (override_port m1)),
      (Z.eqb_spec (override_port m1) p); simpl; lia.
  - rewrite <- Ho. intros E. split; [by apply Hdc|]. rewrite HMo, E. done.
  - intros ->. destruct Hmem as [[-> _]|(Hin & _)].
    + split; [done|]. unfold new_limits in Hl. simpl in Hl. by injection Hl.
    + simpl in Hin. unfold all_suppliers, CHARGE_SUPPLIER_NONE in Hin. rewrite elem_of_seqZ in Hin. lia.
  - intros Hs. destruct Hmem as [[_ ?]|(Hin & Hp & He)]; [done|]. simpl in *.
    unfold eligible in He. rewrite !andb_true_iff, negb_true_iff, orb_false_iff, !Z.eqb_neq in He.
    destruct He as ((Hv & Hc0 & Hv0) & _).
    unfold new_limits in Hl. destruct (Z.eqb_spec s CHARGE_SUPPLIER_NONE); [done|].
    rewrite HMs in Hl. rewrite HMs. injection Hl as <- <- <-.
    split_and!; try done.
    + set (u := if chg_ramp_hw cfg && _ then _ else _). destruct (left_safe_mode M && _); lia.
    + set (u := if chg_ramp_hw cfg && _ then _ else _). destruct (left_safe_mode M); [|by left].
      destruct (Z.eqb_spec (charge_manager_get_ceil M p) CHARGE_CEIL_NONE) as [|Hcn]; [by left|]. cbn [negb andb].
      destruct (get_ceil_attained M p Hcn) as (r & Hr & Er).
      destruct (Z.le_gt_cases u (charge_manager_get_ceil M p)); [left; lia|].
      right. split; [done|]. exists r. rewrite Er. split_and!; [lia..|done|lia].
    + intros Hls r Hr Hne. rewrite Hls. cbn [andb].
      destruct (get_ceil_spec M p r Hv Hr Hne) as [Hcn Hle].
      destruct (Z.eqb_spec (charge_manager_get_ceil M p) CHARGE_CEIL_NONE); [done|]. cbn [negb]. lia.
Qed.

(** C27. With a battery connected, and a board that accepts "no port" (the code
    asserts it does), a refresh terminates: each rejection by the board
    removes a port, so one attempt per port and one for "no port" suffice.
    Either nothing is found before safe mode is left, and nothing changes; or
    it settles: the voltage is the one the chosen supplier offers, the uncapped
    current what it offers (with hardware ramping of the supplier, the ramp
    limit for that offer), and the charge current is the uncapped one, lowered
    to the smallest ceiling set for the port once safe mode is left (in safe
    mode ceilings do not apply); an override that was not selected is dropped,
    and "don't charge" honoured. *)
Theorem refresh_correct e m fuel :
  is_battery_disconnected e = false -> (forall k, board_accepts e k CHARGE_PORT_NONE = true) ->
  (length all_ports < fuel)%nat ->
  exists m2, charge_manager_refresh fuel e m = Some m2 /\
    ((left_safe_mode m = false /\ charge_port m2 = charge_port m /\
      charge_current m2 = charge_current m /\ override_port m2 = override_port m) \/
     refreshed e m m2).
Proof.
  intros Hbat Hacc Hf. unfold charge_manager_refresh.
  assert (Hlive : (length (live e m) < fuel)%nat).
  { eapply Nat.le_lt_trans; [|exact Hf]. unfold live. apply length_filter. }
  destruct (hunt_spec e fuel 0 m Hbat Hacc Hlive) as [(m1 & -> & Hh & Hs)|(m1 & p & s & -> & Hh & Hmem & Hdc)].
  - exists m1. split; [done|]. left. by destruct (hunted_fields _ _ Hh) as (? & ? & ? & ?).
  - exists (refresh_port e m1 p s). split; [done|]. right. by eapply refresh_port_refreshed.
Qed.

(** Without a battery the old port is kept even when it offers nothing any
    more; a board that rejects it keeps the loop going for ever. *)
Lemma hunt_hangs e : forall fuel k m,
  is_battery_disconnected e = true ->
  override_port m = OVERRIDE_OFF -> 0 <= charge_port m -> charge_supplier m <> CHARGE_SUPPLIER_NONE ->
  left_safe_mode m = true ->
  (forall k, board_accepts e k (charge_port m) = false) ->
  (forall s p, current (available_charge m s p) = 0 /\ voltage (available_charge m s p) = 0) ->
  hunt fuel e k m = None.
Proof.
  induction fuel as [|fuel IH]; intros k m Hbat Ho Hp Hs Hl Hrej Hz; [done|]. cbn [hunt].
  assert (Hnone : select_best e m = Best CHARGE_SUPPLIER_NONE CHARGE_PORT_NONE (-1) false).
  { assert (Hc : forall b s p, stop b = false -> consider e m b s p = b).
    { intros b s p Hb. unfold consider, eligible. rewrite Hb, (proj1 (Hz s p)). simpl.
      by rewrite andb_false_r. }
    unfold select_best. apply (fold_left_inv (fun b => b = Best CHARGE_SUPPLIER_NONE CHARGE_PORT_NONE (-1) false)); [|done].
    intros b s _ ->.
    assert (fold_left (fun b p => consider e m b s p) all_ports
      (Best CHARGE_SUPPLIER_NONE CHARGE_PORT_NONE (-1) false) =
      Best CHARGE_SUPPLIER_NONE CHARGE_PORT_NONE (-1) false) as ->; [|done].
    apply (fold_left_inv (fun b => b = Best CHARGE_SUPPLIER_NONE CHARGE_PORT_NONE (-1) false)); [|done].
    intros b' p _ ->. by apply Hc. }
  assert (Hb : charge_manager_get_best_port e m = (charge_port m, CHARGE_SUPPLIER_NONE)).
  { unfold charge_manager_get_best_port. rewrite Ho, Hnone, Hbat. cbn [best_port best_supplier].
    destruct (Hz (charge_supplier m) (charge_port m)) as [-> ->].
    unfold CHARGE_PORT_NONE. destruct (Z.eqb_spec (charge_port m) (-1)); [lia|done]. }
  rewrite Hb, Hl. cbn [negb andb].
  destruct (Z.eqb_spec CHARGE_SUPPLIER_NONE (charge_supplier m)); [done|]. rewrite andb_false_r.
  fold (before_attempt m (charge_port m)). rewrite Hrej.
  unfold CHARGE_PORT_NONE. destruct (Z.eqb_spec (charge_port m) (-1)); [lia|].
  destruct (clear_port_spec (before_attempt m (charge_port m)) (charge_port m)) as (A & EA & HA).
  rewrite EA.
  assert (Hf : forall P : cm -> Prop, P m -> (forall es, P (emit m es)) -> P (before_attempt m (charge_port m))).
  { intros P H1 H2. unfold before_attempt. destruct (ocpc cfg); [rewrite emit_emit|]; apply H2. }
  assert (Hav : available_charge (before_attempt m (charge_port m)) = available_charge m)
    by (by apply (Hf (fun m' => available_charge m' = available_charge m))).
  apply IH; unfold before_attempt; destruct (ocpc cfg); try done;
    intros s p; cbn [available_charge set_available]; rewrite HA, Hav; destruct (_ && _); try apply Hz; done.
Qed.

(** ** The programmed limit follows the recorded one *)

Definition limit_step (acc : option (Z * Z)) (ef : effect) : option (Z * Z) :=
  match ef with SetChargeLimit p _ c _ _ => Some (p, c) | _ => acc end.
(** The port and current of the last [board_set_charge_limit] call. *)
Definition last_limit (l : list effect) : option (Z * Z) := fold_left limit_step l None.
Definition in_sync (m : cm) : Prop := last_limit (log m) = Some (charge_port m, charge_current m).

Lemma limit_quiet es : forall acc, quiet es -> fold_left limit_step es acc = acc.
Proof.
  induction es as [|ef es IH]; intros acc Q; [done|]. apply Forall_cons_1 in Q as [Hef Q].
  cbn [fold_left]. rewrite IH by done. by destruct ef.
Qed.

(** Operations that leave the charge port, current and limit alone. *)
Definition keeps (m m' : cm) : Prop :=
  charge_port m' = charge_port m /\ charge_current m' = charge_current m /\
  exists es, log m' = log m ++ es /\ quiet es.

Lemma keeps_refl m m' :
  charge_port m' = charge_port m -> charge_current m' = charge_current m -> log m' = log m -> keeps m m'.
Proof. intros. split_and!; [done|done|]. exists []. split; [by rewrite app_nil_r|constructor]. Qed.
Lemma keeps_trans m1 m2 m3 : keeps m1 m2 -> keeps m2 m3 -> keeps m1 m3.
Proof.
  intros (P1 & C1 & e1 & L1 & Q1) (P2 & C2 & e2 & L2 & Q2). split_and!; [congruence|congruence|].
  exists (e1 ++ e2). split; [by rewrite L2, L1, app_assoc|by apply Forall_app].
Qed.
Lemma keeps_emit m es : quiet es -> keeps m (emit m es).
Proof. intros. split_and!; [done|done|]. by exists es. Qed.
Lemma keeps_sync m m' : keeps m m' -> in_sync m -> in_sync m'.
Proof.
  intros (P & C & es & L & Q) H. unfold in_sync, last_limit in *.
  by rewrite L, fold_left_app, limit_quiet, P, C.
Qed.

Ltac kept := by apply keeps_refl.
Ltac calls := apply keeps_emit; repeat constructor; intros [].

Lemma refresh_if_seeded_keeps m : keeps m (refresh_if_seeded m).
Proof.
  unfold refresh_if_seeded, charge_manager_is_seeded. destruct (is_seeded m); [calls|].
  destruct (all_reported m); [|kept]. eapply keeps_trans; [|calls]. kept.
Qed.

Lemma set_override_keeps e port m : keeps m (charge_manager_set_override e port m).2.
Proof.
  unfold charge_manager_set_override. destruct (negb _); [kept|]. destruct (_ || _).
  - cbn [snd]. destruct (negb _); [|kept]. eapply keeps_trans; [|apply refresh_if_seeded_keeps]. kept.
  - destruct (_ && _); [|kept]. eapply keeps_trans; [|calls]. kept.
Qed.

Lemma record_charge_keeps e m sup port c : keeps m (record_charge e m sup port c).
Proof.
  unfold record_charge. cbv zeta. set (m1 := set_registration _ _).
  assert (H1 : keeps m m1) by kept.
  set (m2 := if 0 <? current c then emit m1 _ else m1).
  assert (H2 : keeps m m2) by (unfold m2; destruct (_ <? _); [eapply keeps_trans; [exact H1|calls]|done]).
  destruct (_ && _ && _ && _); [|done].
  eapply keeps_trans; [exact H2|]. eapply keeps_trans; [|apply set_override_keeps].
  eapply keeps_trans; [|calls]. kept.
Qed.

Lemma make_change_keeps e ch sup port c m : keeps m (charge_manager_make_change e ch sup port c m).
Proof.
  unfold charge_manager_make_change. destruct (negb _); [kept|].
  destruct (change_matters _ _ _ _ _) as [clear|]; [|kept].
  eapply keeps_trans; [|apply refresh_if_seeded_keeps].
  set (m1 := if _ && _ && _ && _ then drop_override m port else m).
  assert (H1 : keeps m m1).
  { unfold m1, drop_override. destruct (_ && _ && _ && _); [|kept].
    destruct (negb _); [|kept]. eapply keeps_trans; [|calls]. kept. }
  destruct (decide _); [|done]. eapply keeps_trans; [exact H1|apply record_charge_keeps].
Qed.

Lemma fold_keeps {A} (f : cm -> A -> cm) l : (forall m a, keeps m (f m a)) -> forall m, keeps m (fold_left f l m).
Proof.
  intros Hf. induction l as [|a l IH]; intros m; [kept|]. eapply keeps_trans; [apply Hf|apply IH].
Qed.

Lemma set_ceil_keeps port r c m : keeps m (charge_manager_set_ceil port r c m).
Proof.
  unfold charge_manager_set_ceil. destruct (negb _); [kept|]. destruct (negb _); [|kept].
  destruct (_ =? _); [|kept]. eapply keeps_trans; [|apply refresh_if_seeded_keeps]. kept.
Qed.

(** Everything that happens to the charge manager after its start. *)
Inductive cm_op :=
| OpRefresh
| OpOverrideTimeout
| OpDetectDebounced
| OpUpdateCharge (supplier port : Z) (charge : option charge_port_info)
| OpInvalidate (port : Z)
| OpPdLimit (port max_ma voltage : Z)
| OpTypecLimit (port max_ma voltage : Z)
| OpUpdateDualrole (port : Z) (cap : dualrole_capabilities)
| OpLeaveSafeMode
| OpSetCeil (port requestor ceil : Z)
| OpForceCeil (port ceil : Z)
| OpSetOverride (port : Z)
| OpExternalLimit (current_lim voltage_lim : Z)
| OpSourcePort (port : Z) (enable : bool).

Definition cm_step (fuel : nat) (e : env) (op : cm_op) (m : cm) : option cm :=
  match op with
  | OpRefresh => charge_manager_refresh fuel e m
  | OpOverrideTimeout => Some (charge_override_timeout m)
  | OpDetectDebounced => Some (charger_detect_debounced m)
  | OpUpdateCharge s p c => Some (charge_manager_update_charge e s p c m)
  | OpInvalidate p => Some (charge_manager_invalidate_suppliers e p m)
  | OpPdLimit p i v => Some (pd_set_input_current_limit e p i v m)
  | OpTypecLimit p i v => Some (typec_set_input_current_limit e p i v m)
  | OpUpdateDualrole p c => Some (charge_manager_update_dualrole e p c m)
  | OpLeaveSafeMode => Some (charge_manager_leave_safe_mode m)
  | OpSetCeil p r c => Some (charge_manager_set_ceil p r c m)
  | OpForceCeil p c => Some (charge_manager_force_ceil p c m)
  | OpSetOverride p => Some (charge_manager_set_override e p m).2
  | OpExternalLimit i v => Some (charge_manager_set_external_power_limit i v m)
  | OpSourcePort p en => Some (charge_manager_source_port p en m)
  end.

Fixpoint cm_run (fuel : nat) (ops : list (env * cm_op)) (m : cm) : option cm :=
  match ops with
  | [] => Some m
  | (e, op) :: ops => m ← cm_step fuel e op m; cm_run fuel ops m
  end.

Lemma hunt_keeps e : forall fuel k m r, hunt fuel e k m = Some r ->
  match r with HuntReturn m' | HuntPort m' _ _ => keeps m m' | HuntAssert => True end.
Proof.
  induction fuel as [|fuel IH]; intros k m r H; [done|]. cbn [hunt] in H.
  destruct (charge_manager_get_best_port e m) as [port sup].
  destruct (_ && _); [injection H as <-; kept|]. destruct (_ && _ && _); [injection H as <-; kept|].
  fold (before_attempt m port) in H.
  assert (Hb : keeps m (before_attempt m port)).
  { unfold before_attempt. destruct (ocpc cfg); [rewrite emit_emit|]; calls. }
  destruct (board_accepts e k port).
  - injection H as <-. destruct (extpower cfg); [|done]. eapply keeps_trans; [exact Hb|calls].
  - destruct (_ =? _); [by injection H as <-|].
    assert (Hc : keeps m (clear_port (before_attempt m port) port)).
    { eapply keeps_trans; [exact Hb|].
      destruct (clear_port_spec (before_attempt m port) port) as (A & -> & _). kept. }
    apply IH in H. destruct r; try done; by eapply keeps_trans.
Qed.

Lemma refresh_port_sync e m p s :
  has_chg_ramp_task cfg = false -> in_sync m -> in_sync (refresh_port e m p s).
Proof.
  intros Hr H. destruct (new_limits e (settle_override m p) p s) as [[cur unc] v] eqn:Hl.
  destruct (refresh_port_form e m p s cur unc v Hl) as (es & -> & Hp). specialize (Hp Hr).
  unfold in_sync, last_limit in *. cbn [log emit charge_port charge_current set_charge].
  assert (log (settle_override m p) = log m) as -> by (unfold settle_override; by destruct (_ && _)).
  rewrite fold_left_app, H. unfold programs in Hp.
  destruct (power_changed m p s cur) eqn:E.
  - destruct Hp as (e1 & e2 & -> & Q1 & Q2). rewrite !fold_left_app, (limit_quiet e1) by done.
    cbn [fold_left limit_step]. by rewrite limit_quiet.
  - rewrite limit_quiet by done. unfold power_changed in E.
    rewrite !orb_false_iff, !negb_false_iff, !Z.eqb_eq in E. by destruct E as [[-> ->] _].
Qed.

(** Along every run of operations (charge, role, ceiling and override
    updates, forced ceilings, timeouts, refreshes, in any order and with any
    answers from the outside), the limit last programmed into the charger is
    the recorded active port and charge current; with the ceiling theorem this
    is what bounds the current really drawn. *)
Theorem limit_in_sync fuel ops m m' :
  has_chg_ramp_task cfg = false -> in_sync m -> cm_run fuel ops m = Some m' -> in_sync m'.
Proof.
  intros Hr. revert m. induction ops as [|[e op] ops IH]; intros m Hs H; [by injection H as <-|].
  cbn [cm_run] in H. destruct (cm_step fuel e op m) as [m1|] eqn:E; cbn [mbind option_bind] in H; [|done].
  apply (IH m1); [|done]. clear IH H.
  destruct op; cbn [cm_step] in E; try (injection E as <-; lazymatch goal with
    | |- in_sync (charge_manager_force_ceil _ _ _) => idtac
    | _ => revert Hs; apply keeps_sync end).
  - unfold charge_manager_refresh in E. destruct (hunt fuel e 0 m) as [r|] eqn:Eh; [|done].
    pose proof (hunt_keeps _ _ _ _ _ Eh) as Hk. destruct r as [m2|m2 p s|]; [| |done].
    + injection E as <-. by eapply keeps_sync.
    + injection E as <-. apply refresh_port_sync; [done|]. by eapply keeps_sync.
  - unfold charge_override_timeout. eapply keeps_trans; [|calls]. kept.
  - calls.
  - apply make_change_keeps.
  - apply fold_keeps. intros. apply make_change_keeps.
  - apply make_change_keeps.
  - unfold typec_set_input_current_limit. cbv zeta. eapply keeps_trans; [apply make_change_keeps|].
    apply fold_keeps. intros m2 a. destruct (negb _); [apply make_change_keeps|kept].
  - unfold charge_manager_update_dualrole. destruct (negb _); [kept|]. destruct (decide _); [kept|].
    eapply keeps_trans; [|apply make_change_keeps]. kept.
  - unfold charge_manager_leave_safe_mode. destruct (left_safe_mode m); [kept|].
    eapply keeps_trans; [|apply refresh_if_seeded_keeps]. kept.
  - apply set_ceil_keeps.
  - unfold charge_manager_force_ceil.
    destruct (_ && _ && _) eqn:Ef; [|revert Hs; apply keeps_sync, set_ceil_keeps].
    rewrite !andb_true_iff, Z.eqb_eq in Ef. destruct Ef as [[_ ->] _].
    unfold in_sync, last_limit. cbn [log set_ceils set_charge emit charge_port charge_current].
    by rewrite fold_left_app.
  - apply set_override_keeps.
  - apply fold_keeps. intros. eapply keeps_trans; [apply set_ceil_keeps|calls].
  - unfold charge_manager_source_port. destruct (_ =? _); [kept|].
    eapply keeps_trans; [|apply fold_keeps]; [kept|]. intros.
    unfold update_source_rp. eapply keeps_trans; [|calls]. kept.
Qed.

(** ** Sourcing: at most one port gets the highest current *)

Lemma testbit_active m port : 0 <= port -> is_active_source m port = Z.testbit (source_port_bitmap m) port.
Proof.
  intros Hp. unfold is_active_source, bool_of_Z, BIT. rewrite Z.shiftl_1_l.
  destruct (Z.testbit (source_port_bitmap m) port) eqn:E.
  - destruct (Z.eqb_spec (Z.land (source_port_bitmap m) (2 ^ port)) 0) as [H|]; [|done].
    apply (f_equal (fun x => Z.testbit x port)) in H.
    by rewrite Z.land_spec, E, Z.pow2_bits_true, Z.testbit_0_l in H.
  - assert (Z.land (source_port_bitmap m) (2 ^ port) = 0) as ->; [|done].
    apply Z.bits_inj'. intros i Hi. rewrite Z.land_spec, Z.testbit_0_l, Z.pow2_bits_eqb by done.
    destruct (Z.eqb_spec port i) as [<-|]; [by rewrite E|by rewrite andb_false_r].
Qed.

Lemma no_other_active m port q :
  0 <= port -> 0 <= q < 32 -> has_other_active_source m port = false ->
  is_active_source m q = true -> q = port.
Proof.
  intros Hp Hq Hno Ha. rewrite testbit_active in Ha by lia.
  unfold has_other_active_source, bool_of_Z in Hno. apply negb_false_iff, Z.eqb_eq in Hno.
  destruct (Z.eq_dec q port) as [|Hne]; [done|].
  apply (f_equal (fun x => Z.testbit x q)) in Hno.
  rewrite Z.land_spec, Ha, Z.testbit_0_l in Hno. unfold wrap in Hno.
  rewrite Z.mod_pow2_bits_low, Z.lnot_spec in Hno by lia. unfold BIT in Hno.
  rewrite Z.shiftl_1_l, Z.pow2_bits_eqb in Hno by lia.
  by destruct (Z.eqb_spec port q).
Qed.

Definition source_ports : list Z := seqZ 0 (board_get_usb_pd_port_count cfg).
Definition gets_max (m : cm) (p : Z) : Prop := source_port_rp m p = MAX_SINGLE_SOURCE_RP cfg.

(** After the ports below [k] were updated. *)
Lemma source_loop (m : cm) k :
  MAX_SINGLE_SOURCE_RP cfg <> PULLUP_RP cfg -> board_get_usb_pd_port_count cfg <= 32 ->
  Z.of_nat k <= board_get_usb_pd_port_count cfg ->
  (max_total_source_current cfg = true ->
   forall p q, p ∈ source_ports -> q ∈ source_ports -> gets_max m p -> gets_max m q -> p = q) ->
  let m' := fold_left update_source_rp (seqZ 0 (Z.of_nat k)) m in
  source_port_bitmap m' = source_port_bitmap m /\
  (forall p, Z.of_nat k <= p -> source_port_rp m' p = source_port_rp m p) /\
  (forall p, 0 <= p < Z.of_nat k -> gets_max m' p -> is_active_source m p = true) /\
  (max_total_source_current cfg = true ->
   (forall p q, p ∈ source_ports -> q ∈ source_ports -> gets_max m' p -> gets_max m' q -> p = q) /\
   (forall p, p ∈ source_ports -> gets_max m p -> is_active_source m p = true -> gets_max m' p)) /\
  (max_total_source_current cfg = false ->
   forall p, 0 <= p < Z.of_nat k -> gets_max m' p -> has_other_active_source m p = false).
Proof.
  intros Hrp H32 Hk Huniq. unfold source_ports in *. induction k as [|k IH]; cbv zeta.
  { change (seqZ 0 (Z.of_nat 0)) with (@nil Z). cbn [fold_left].
    split_and!; [done|done|intros; lia| |intros; lia].
    intros Ht. split; [by apply Huniq|done]. }
  destruct IH as (Hb & Hhi & Hact & Htot & Hone); [lia|].
  replace (seqZ 0 (Z.of_nat (S k))) with (seqZ 0 (Z.of_nat k) ++ [Z.of_nat k])
    by (rewrite Nat2Z.inj_succ, <- Z.add_1_r, seqZ_app by lia; done).
  rewrite fold_left_app. cbn [fold_left]. set (m1 := fold_left _ _ m) in *.
  assert (Hact1 : is_active_source m1 (Z.of_nat k) = is_active_source m (Z.of_nat k))
    by (unfold is_active_source; by rewrite Hb).
  assert (Hoth1 : has_other_active_source m1 (Z.of_nat k) = has_other_active_source m (Z.of_nat k))
    by (unfold has_other_active_source; by rewrite Hb).
  assert (Hrp' : forall p, source_port_rp (update_source_rp m1 (Z.of_nat k)) p =
    if p =? Z.of_nat k then if can_supply_max_current m1 (Z.of_nat k) then MAX_SINGLE_SOURCE_RP cfg
                            else PULLUP_RP cfg
    else source_port_rp m1 p) by done.
  assert (Hcan : can_supply_max_current m1 (Z.of_nat k) = true -> is_active_source m (Z.of_nat k) = true).
  { unfold can_supply_max_current. rewrite Hact1. destruct (max_total_source_current cfg);
      by destruct (is_active_source m (Z.of_nat k)). }
  split_and!.
  - exact Hb.
  - intros p Hp. rewrite Hrp'. destruct (Z.eqb_spec p (Z.of_nat k)); [lia|]. apply Hhi. lia.
  - intros p Hp Hg. unfold gets_max in Hg. rewrite Hrp' in Hg.
    destruct (Z.eqb_spec p (Z.of_nat k)) as [->|]; [|apply Hact; [lia|done]].
    destruct (can_supply_max_current m1 (Z.of_nat k)); [auto|congruence].
  - intros Ht. destruct (Htot Ht) as [Hu Hkeep].
    assert (Hmax : can_supply_max_current m1 (Z.of_nat k) = true -> forall q, q ∈ seqZ 0 (board_get_usb_pd_port_count cfg) ->
      gets_max m1 q -> q = Z.of_nat k).
    { intros Hc q Hq Hg. unfold can_supply_max_current in Hc. rewrite Ht in Hc.
      destruct (negb _); [done|]. rewrite forallb_forall in Hc.
      specialize (Hc q (proj1 (list_elem_of_In _ _) Hq)). unfold gets_max in Hg.
      rewrite Hg, Z.eqb_refl in Hc. by destruct (Z.eqb_spec q (Z.of_nat k)). }
    split.
    + intros p q Hp Hq Hgp Hgq. unfold gets_max in Hgp, Hgq. rewrite Hrp' in Hgp, Hgq.
      destruct (can_supply_max_current m1 (Z.of_nat k)) eqn:Ec;
        destruct (Z.eqb_spec p (Z.of_nat k)), (Z.eqb_spec q (Z.of_nat k)); subst; try congruence.
      * symmetry. by apply Hmax.
      * by apply Hmax.
      * by apply Hu.
      * by apply Hu.
    + intros p Hp Hg Ha. specialize (Hkeep p Hp Hg Ha). unfold gets_max. rewrite Hrp'.
      destruct (Z.eqb_spec p (Z.of_nat k)) as [->|]; [|exact Hkeep].
      assert (can_supply_max_current m1 (Z.of_nat k) = true) as ->; [|done].
      unfold can_supply_max_current. rewrite Ht, Hact1, Ha. cbn [negb].
      apply forallb_forall. intros q Hq. rewrite <- list_elem_of_In in Hq.
      destruct (Z.eqb_spec q (Z.of_nat k)) as [|Hne]; [done|].
      destruct (Z.eqb_spec (source_port_rp m1 q) (MAX_SINGLE_SOURCE_RP cfg)); [|done].
      exfalso. apply Hne. by apply Hu.
  - intros Ht p Hp Hg. unfold gets_max in Hg. rewrite Hrp' in Hg.
    destruct (Z.eqb_spec p (Z.of_nat k)) as [->|]; [|apply (Hone Ht); [lia|done]].
    destruct (can_supply_max_current m1 (Z.of_nat k)) eqn:Ec; [|congruence].
    unfold can_supply_max_current in Ec. rewrite Ht, Hoth1 in Ec.
    by destruct (has_other_active_source m (Z.of_nat k)); [rewrite andb_false_r in Ec|].
Qed.

(** Turning sourcing on or off on a port never gives two ports the
    highest source current, gives it only to sourcing ports, and, under the
    total-current policy, does not take it away from a port that has it and
    goes on sourcing. *)
Theorem source_port_single port enable m :
  MAX_SINGLE_SOURCE_RP cfg <> PULLUP_RP cfg -> board_get_usb_pd_port_count cfg <= 32 ->
  (forall p q, p ∈ source_ports -> q ∈ source_ports -> gets_max m p -> gets_max m q -> p = q) ->
  (forall p, p ∈ source_ports -> gets_max m p -> is_active_source m p = true) ->
  let m' := charge_manager_source_port port enable m in
  (forall p q, p ∈ source_ports -> q ∈ source_ports -> gets_max m' p -> gets_max m' q -> p = q) /\
  (forall p, p ∈ source_ports -> gets_max m' p -> is_active_source m' p = true) /\
  (max_total_source_current cfg = true -> forall p, p ∈ source_ports ->
     gets_max m p -> is_active_source m' p = true -> gets_max m' p).
Proof.
  intros Hrp H32 Hu Ha m'. unfold m', charge_manager_source_port.
  set (bitmap := if enable then _ else _). destruct (Z.eqb_spec (source_port_bitmap m) bitmap) as [E|E].
  { rewrite <- E. by split_and!. }
  set (m1 := set_source m (source_port_rp m) bitmap).
  destruct (Z.le_gt_cases 0 (board_get_usb_pd_port_count cfg)) as [H0|H0].
  2:{ assert (seqZ 0 (board_get_usb_pd_port_count cfg) = []) as Hnil by (apply seqZ_nil; lia).
      unfold source_ports. rewrite Hnil. split_and!; intros; set_solver. }
  destruct (source_loop m1 (Z.to_nat (board_get_usb_pd_port_count cfg))) as (Hb & _ & Hact & Htot & Hone);
    [done|done|lia|done|].
  rewrite Z2Nat.id in Hb, Hact, Htot, Hone by lia. set (m2 := fold_left _ _ m1) in *.
  assert (Hact2 : forall p, is_active_source m2 p = is_active_source m1 p)
    by (intros; unfold is_active_source; by rewrite Hb).
  assert (Hr : forall p, p ∈ source_ports -> 0 <= p < board_get_usb_pd_port_count cfg)
    by (intros p Hp; unfold source_ports in Hp; by rewrite elem_of_seqZ in Hp).
  split_and!.
  - destruct (max_total_source_current cfg) eqn:Et; [by apply Htot|].
    intros p q Hp Hq Hgp Hgq. specialize (Hr p Hp) as Rp. specialize (Hr q Hq) as Rq.
    symmetry. eapply (no_other_active m1); [lia|lia|by apply Hone|by apply Hact].
  - intros p Hp Hg. rewrite Hact2. apply Hact; [by apply Hr|done].
  - intros Ht p Hp Hg Hap. rewrite Hact2 in Hap. by apply (Htot Ht).
Qed.

End Operations.

(** ** A two-port system with a dedicated port *)

Definition demo_cfg : config := {|
  CONFIG_USB_PD_PORT_MAX_COUNT := 2; CONFIG_DEDICATED_CHARGE_PORT_COUNT := 1;
  DEDICATED_CHARGE_PORT := 2; board_get_usb_pd_port_count := 2;
  supplier_priority := aget default_priority; drp_charging := false; pdc_power_mgmt := false;
  pd_dps := false; ocpc := false; extpower := true; has_battery := true;
  has_chg_ramp_task := false; chg_ramp_hw := false; default_current_limit := 512;
  can_query_request := true; safe_mode := true; tcpmv2 := false; max_total_source_current := true;
  MAX_SINGLE_SOURCE_RP := 2; CONFIG_USB_PD_MAX_VOLTAGE_MV := 20000; PULLUP_RP := 1 |}.

(** Port 1 is rejected by the board. *)
Definition demo_env : env := {|
  get_time := 0; pd_is_sink := fun _ => true; board_charge_port_is_sink := fun _ => true;
  pd_is_connected := fun _ => true; board_charge_port_is_connected := fun _ => true;
  ro_and_locked := false; battery_is_present := BP_YES; battery_cutoff_normal := true;
  dps_is_enabled := false; dps_get_charge_port := -1; best_pdo := fun _ => (20000, 3000);
  board_accepts := fun _ p => negb (p =? 1); chg_ramp_allowed := fun _ _ => false;
  chg_ramp_max := fun _ _ i => i; chg_ramp_is_stable := true; chg_ramp_get_current_limit := 0;
  requested_voltage := fun _ => 0; requested_current := fun _ => 0; measured_vbus := fun _ => 0;
  source_current := fun _ => 0; board_source_info := fun _ => (0, 0, 0, 0, 0) |}.

(** PD chargers of 45 W on port 0 and of 60 W on port 1, ceiling 2 A. *)
Definition demo_state : cm := {|
  available_charge := fun s p => if s =? 0 then if p =? 0 then Charge 3000 15000
     else if p =? 1 then Charge 3000 20000 else Charge 0 0 else Charge 0 0;
  registration_time := fun _ => 0; charge_ceil := fun _ r => if r =? 1 then 2000 else -1;
  dualrole_capability := fun _ => CAP_DEDICATED; charge_port := -1; charge_current := -1;
  charge_current_uncapped := -1; charge_voltage := 0; charge_supplier := -1;
  charge_pd_current_uncapped := -1; override_port := -1; delayed_override_port := -1;
  delayed_override_deadline := 0; left_safe_mode := true; is_seeded := true;
  active_charge_port_initialized := false; source_port_rp := fun p => if p =? 0 then 2 else 1;
  source_port_bitmap := 1; log := [SetChargeLimit (-1) (-1) (-1) 0 0] |}.

(** DPS on, and asking for port 0 although port 1 offers more. *)
Definition dps_cfg : config := {|
  CONFIG_USB_PD_PORT_MAX_COUNT := 2; CONFIG_DEDICATED_CHARGE_PORT_COUNT := 1;
  DEDICATED_CHARGE_PORT := 2; board_get_usb_pd_port_count := 2;
  supplier_priority := aget default_priority; drp_charging := false; pdc_power_mgmt := false;
  pd_dps := true; ocpc := false; extpower := true; has_battery := true;
  has_chg_ramp_task := false; chg_ramp_hw := false; default_current_limit := 512;
  can_query_request := true; safe_mode := true; tcpmv2 := false; max_total_source_current := true;
  MAX_SINGLE_SOURCE_RP := 2; CONFIG_USB_PD_MAX_VOLTAGE_MV := 20000; PULLUP_RP := 1 |}.
Definition dps_env : env := {|
  get_time := 0; pd_is_sink := fun _ => true; board_charge_port_is_sink := fun _ => true;
  pd_is_connected := fun _ => true; board_charge_port_is_connected := fun _ => true;
  ro_and_locked := false; battery_is_present := BP_YES; battery_cutoff_normal := true;
  dps_is_enabled := true; dps_get_charge_port := 0; best_pdo := fun _ => (20000, 3000);
  board_accepts := fun _ p => negb (p =? 1); chg_ramp_allowed := fun _ _ => false;
  chg_ramp_max := fun _ _ i => i; chg_ramp_is_stable := true; chg_ramp_get_current_limit := 0;
  requested_voltage := fun _ => 0; requested_current := fun _ => 0; measured_vbus := fun _ => 0;
  source_current := fun _ => 0; board_source_info := fun _ => (0, 0, 0, 0, 0) |}.

Lemma best_port_optimal_witness :
  charge_manager_get_best_port demo_cfg demo_env demo_state = (1, 0) /\
  charge_manager_get_best_port dps_cfg dps_env demo_state = (0, 0) /\
  better dps_cfg dps_env demo_state 0 0 0 1.
Proof.
  split; [reflexivity|]. split; [reflexivity|].
  assert (Hpd : forall s p, dps_choice dps_cfg dps_env demo_state s p = true ->
    forall s', s' ∈ all_suppliers dps_cfg ->
    supplier_priority dps_cfg s' = supplier_priority dps_cfg CHARGE_SUPPLIER_PD -> s' = CHARGE_SUPPLIER_PD).
  { intros s p _ s' Hs'. unfold all_suppliers in Hs'. rewrite elem_of_seqZ in Hs'.
    change (CHARGE_SUPPLIER_COUNT dps_cfg) with 11 in Hs'.
    assert (s' = 0 \/ s' = 1 \/ s' = 2 \/ s' = 3 \/ s' = 4 \/ s' = 5 \/ s' = 6 \/ s' = 7 \/ s' = 8 \/
            s' = 9 \/ s' = 10) as H by lia.
    repeat (destruct H as [->|H]; [vm_compute; congruence|]). subst s'. vm_compute; congruence. }
  pose proof (best_port_optimal dps_cfg dps_env demo_state Hpd eq_refl) as H.
  change (charge_manager_get_best_port dps_cfg dps_env demo_state) with (0, 0) in H.
  apply H; [done|done| |done]. split_and!; [by (apply elem_of_seqZ; vm_compute)..|done].
Defined.

Lemma refresh_correct_witness :
  exists m2, charge_manager_refresh demo_cfg 5 demo_env demo_state = Some m2 /\
    charge_port m2 = 0 /\ charge_current m2 = 2000.
Proof.
  destruct (refresh_correct demo_cfg demo_env demo_state 5 eq_refl ltac:(done) ltac:(vm_compute; lia))
    as (m2 & H & _).
  exists m2. split; [exact H|]. vm_compute in H. injection H as <-. done.
Defined.

Lemma limit_in_sync_witness :
  exists m, cm_run demo_cfg 5 [(demo_env, OpRefresh); (demo_env, OpForceCeil 0 500)] demo_state = Some m /\
    in_sync m /\ charge_current m = 500.
Proof.
  destruct (cm_run demo_cfg 5 [(demo_env, OpRefresh); (demo_env, OpForceCeil 0 500)] demo_state)
    as [m|] eqn:E; [|vm_compute in E; discriminate].
  exists m. split; [done|]. split.
  - by apply (limit_in_sync demo_cfg 5 [(demo_env, OpRefresh); (demo_env, OpForceCeil 0 500)] demo_state).
  - vm_compute in E. by injection E as <-.
Defined.

Lemma source_port_single_witness :
  let m' := charge_manager_source_port demo_cfg 1 true demo_state in
  is_active_source m' 1 = true /\ gets_max demo_cfg m' 0 /\ source_port_rp m' 1 = 1.
Proof.
  assert (H01 : forall p, p ∈ source_ports demo_cfg -> p = 0 \/ p = 1).
  { intros p Hp. unfold source_ports in Hp. rewrite elem_of_seqZ in Hp. simpl in Hp. lia. }
  split; [reflexivity|]. split; [|reflexivity].
  apply (source_port_single demo_cfg 1 true demo_state); try done.
  - intros p q Hp Hq. destruct (H01 p Hp) as [->| ->], (H01 q Hq) as [->| ->]; done.
  - intros p Hp. destruct (H01 p Hp) as [->| ->]; done.
  - unfold source_ports. rewrite elem_of_seqZ. simpl. lia.
Defined.

(** A batteryless system whose active port lost its charger and whose board
    does not accept the port any more: the refresh never ends. *)
Lemma refresh_hangs_example :
  let e := {|
    get_time := 0; pd_is_sink := fun _ => true; board_charge_port_is_sink := fun _ => true;
    pd_is_connected := fun _ => true; board_charge_port_is_connected := fun _ => true;
    ro_and_locked := false; battery_is_present := BP_NO; battery_cutoff_normal := true;
    dps_is_enabled := false; dps_get_charge_port := -1; best_pdo := fun _ => (20000, 3000);
    board_accepts := fun _ p => negb (p =? 0); chg_ramp_allowed := fun _ _ => false;
    chg_ramp_max := fun _ _ i => i; chg_ramp_is_stable := true; chg_ramp_get_current_limit := 0;
    requested_voltage := fun _ => 0; requested_current := fun _ => 0; measured_vbus := fun _ => 0;
    source_current := fun _ => 0; board_source_info := fun _ => (0, 0, 0, 0, 0) |} in
  let m := set_charge (set_available demo_state (fun _ _ => Charge 0 0)) 0 3000 3000 15000 0 3000 in
  forall fuel, charge_manager_refresh demo_cfg fuel e m = None.
Proof.
  intros e m fuel. unfold charge_manager_refresh. by rewrite hunt_hangs.
Qed.

End ChargeManager.
