(* ===== verification/EventLog.v ===== *)
(** * The event log FIFO (common/event_log.c)

    A ring of 8-byte units holding variable-size entries (a header unit and up
    to four payload units); adding to a full ring discards the oldest entries.
    The counters [log_head], [log_tail], [log_tail_next] are free-running
    [size_t]s, masked when used.  [log_add_event] is taken to run on its own;
    [log_dequeue_event] reads while other tasks add entries, and tries again when
    they have discarded the entry it was reading.

    The simulation theorem needs a side condition on [log_add_event] that the
    code does not check: its second [memcpy] moves one unit too many, which is
    harmless exactly when a unit stays free. *)

From S2P Require Import Prelude.

Module EventLog.

(** A unit is its 8 bytes; the ring is indexed by unit. *)
Definition unit_t := list Z.
Definition ring := Z -> unit_t.

(** src/include/event_log.h:15-26 [struct event_log_entry] *)
Record event_log_entry := Header { timestamp : Z; type : Z; size : Z; data : Z }.

Definition le_bytes (n : nat) (x : Z) : list Z :=
  (fun i => u8 (Z.shiftr x (8 * i))) <$> seqZ 0 (Z.of_nat n).
Definition header_bytes (h : event_log_entry) : unit_t :=
  le_bytes 4 (timestamp h) ++ [u8 (type h); u8 (size h)] ++ le_bytes 2 (data h).

(** src/include/event_log.h:28-29 [EVENT_LOG_SIZE] *)
Definition EVENT_LOG_SIZE (size : Z) : Z := Z.land size 0x1f.
Definition EVENT_LOG_NO_ENTRY : Z := 0xff.
Definition EVENT_LOG_TIMESTAMP_SHIFT : Z := 10.

(** src/common/event_log.c:44-45 [ENTRY_SIZE] *)
Definition ENTRY_SIZE (payload_sz : Z) : Z := 1 + (payload_sz + 7) / 8.

(** src/common/event_log.c:40-42 [log_head] *)
Record event_log := EventLog {
  log_events : ring; log_head : Z; log_tail : Z; log_tail_next : Z }.

Section Log.
(** UNIT_COUNT is [2^k]. *)
Context (k : Z).
Definition UNIT_COUNT : Z := 2 ^ k.
Definition UNIT_COUNT_MASK : Z := UNIT_COUNT - 1.

(** [n] units written from unit [dst] on, the i-th one [src i]. *)
Definition copy_units (m : ring) (dst : Z) (src : Z -> unit_t) (n : Z) : ring :=
  fun x => if (dst <=? x) && (x <? dst + n) then src (x - dst) else m x.

(** The size byte of the header at a position. *)
Definition size_at (m : ring) (pos : Z) : Z := aget (m pos) 5.

(** Freeing space until [total_size] units fit. *)
(** src/common/event_log.c:63-72 [log_head] *)
Fixpoint discard (fuel : nat) (m : ring) (current_tail head total_size : Z) : option Z :=
  match fuel with
  | O => None
  | S fuel =>
    if u32 (UNIT_COUNT - u32 (current_tail - head)) <? total_size
    then discard fuel m current_tail
           (u32 (head + ENTRY_SIZE (EVENT_LOG_SIZE (size_at m (Z.land head UNIT_COUNT_MASK)))))
           total_size
    else Some head
  end.

(** [payload i] is the i-th 8-byte unit at the caller's pointer. *)
(** src/common/event_log.c:47-91 [log_add_event] *)
Definition log_add_event (fuel : nat) (type size data : Z) (payload : Z -> unit_t) (timestamp : Z)
    (l : event_log) : option event_log :=
  let payload_size := EVENT_LOG_SIZE size in
  let total_size := ENTRY_SIZE payload_size in
  let current_tail := log_tail_next l in
  let tail_next := u32 (current_tail + total_size) in
  head ← discard fuel (log_events l) current_tail (log_head l) total_size;
  let pos := Z.land current_tail UNIT_COUNT_MASK in
  let m := copy_units (log_events l) pos
             (fun _ => header_bytes (Header timestamp type size data)) 1 in
  let first := Z.min (total_size - 1) ((UNIT_COUNT - pos) - 1) in
  let m := if bool_of_Z first then copy_units m (pos + 1) payload first else m in
  let m := if first <? total_size - 1
           then copy_units m 0 (fun i => payload (first + i)) (total_size - first) else m in
  let tail := if current_tail =? log_tail l then tail_next else log_tail l in
  Some (EventLog m head tail tail_next).

(** The units of the entry at the head, read from [m]: all, or up to the end of
    the ring and then from its start. *)
(** src/common/event_log.c:110-115 [entry] *)
Definition read_entry (m : ring) (current_head : Z) : Z * list unit_t :=
  let pos := Z.land current_head UNIT_COUNT_MASK in
  let total_size := ENTRY_SIZE (EVENT_LOG_SIZE (size_at m pos)) in
  let first := Z.min total_size (UNIT_COUNT - pos) in
  (total_size,
   ((fun i => m (pos + i)) <$> seqZ 0 first) ++
   (if first <? total_size then (fun i => m i) <$> seqZ 0 (total_size - first) else [])).

(** An attempt: what the copy sees of the ring while other tasks write to it,
    and the log as they have left it at the critical section. *)
Definition attempt : Type := ring * event_log.

(** The header, payload units and the number of bytes returned; [None] when
    after these attempts it is about to retry. *)
(** src/common/event_log.c:93-131 [log_dequeue_event] *)
Fixpoint log_dequeue_event (now : Z) (attempts : list attempt) (l : event_log)
    : option ((list unit_t * Z) * event_log) :=
  let current_head := log_head l in
  if log_tail l =? current_head
  then Some (([header_bytes (Header 0 EVENT_LOG_NO_ENTRY 0 0)], 8), l)
  else
    match attempts with
    | [] => None
    | (seen, l) :: attempts =>
      let '(total_size, r) := read_entry seen current_head in
      if negb (log_head l =? current_head) then log_dequeue_event now attempts l
      else
        let hd := default [] (head r) in
        let stamp := aget hd 0 + 2 ^ 8 * aget hd 1 + 2 ^ 16 * aget hd 2 + 2 ^ 24 * aget hd 3 in
        let now := u32 (Z.shiftr now EVENT_LOG_TIMESTAMP_SHIFT) in
        Some ((aset r 0 (le_bytes 4 (u32 (now - stamp)) ++ drop 4 hd), total_size * 8),
          EventLog (log_events l) (u32 (log_head l + total_size)) (log_tail l) (log_tail_next l))
    end.

(** src/common/event_log.c:143-149 [log_head] *)
Definition log_clear (l : event_log) : event_log := EventLog (log_events l) 0 0 0.

(** ** What the log promises *)

(** An entry as queued: header and payload units. *)
Record entry := Entry { e_header : event_log_entry; e_payload : list unit_t }.
Definition units_of (e : entry) : list unit_t := header_bytes (e_header e) :: e_payload e.
Definition wf_entry (e : entry) : Prop :=
  is_u8 (size (e_header e)) /\ is_u32 (timestamp (e_header e)) /\
  Z.of_nat (length (units_of e)) = ENTRY_SIZE (EVENT_LOG_SIZE (size (e_header e))).

Definition flat (q : list entry) : list unit_t := concat (units_of <$> q).

(** The log holds the entries of [q], oldest first; other entries may be being
    written behind them. *)
Record committed (l : event_log) (q : list entry) : Prop := {
  h_wf : Forall wf_entry q;
  h_head : is_u32 (log_head l);
  h_tail : log_tail l = u32 (log_head l + Z.of_nat (length (flat q)));
  h_fit : Z.of_nat (length (flat q)) <= UNIT_COUNT;
  h_ring : forall i u, flat q !! i = Some u ->
    log_events l ((log_head l + Z.of_nat i) mod UNIT_COUNT) = u
}.
(** The same, and no task is writing. *)
Record holds (l : event_log) (q : list entry) : Prop := {
  h_committed : committed l q;
  h_next : log_tail_next l = log_tail l
}.

(** Dropping the oldest entries until [n] more units fit. *)
Fixpoint make_room (q : list entry) (n : Z) : list entry :=
  if decide (Z.of_nat (length (flat q)) + n <= UNIT_COUNT) then q
  else match q with [] => [] | _ :: q => make_room q n end.

Hypothesis Hk : 3 <= k <= 31.

Lemma count_bounds : 8 <= UNIT_COUNT <= 2 ^ 31 /\ (UNIT_COUNT | 2 ^ 32).
Proof.
  unfold UNIT_COUNT. split.
  - change 8 with (2 ^ 3). split; apply Z.pow_le_mono_r; lia.
  - exists (2 ^ (32 - k)). rewrite <- Z.pow_add_r by lia. f_equal. lia.
Qed.

Lemma mask_mod x : Z.land (u32 x) UNIT_COUNT_MASK = x mod UNIT_COUNT.
Proof.
  unfold UNIT_COUNT_MASK, UNIT_COUNT. rewrite land_mask by lia.
  rewrite wrap_narrow by lia. done.
Qed.

Lemma entry_size_bounds size : 1 <= ENTRY_SIZE (EVENT_LOG_SIZE size) <= 5.
Proof.
  unfold EVENT_LOG_SIZE. change 31 with (2 ^ 5 - 1). rewrite land_mask by lia.
  pose proof (wrap_range 5 size ltac:(lia)) as [? ?]. unfold ENTRY_SIZE. divlia.
Qed.

Lemma size_byte h : is_u8 (size h) -> aget (header_bytes h) 5 = size h.
Proof. intros H. unfold header_bytes. change (aget _ 5) with (u8 (size h)). by apply wrap_id. Qed.

(** *** Making room *)

Lemma flat_cons e q : flat (e :: q) = units_of e ++ flat q.
Proof. done. Qed.

Lemma committed_drop l e q :
  committed l (e :: q) ->
  committed (EventLog (log_events l) (u32 (log_head l + Z.of_nat (length (units_of e)))) (log_tail l)
    (log_tail_next l)) q.
Proof.
  intros [Hwf Hh Ht Hf Hr]. apply Forall_cons_1 in Hwf as [Hwe Hwf].
  rewrite flat_cons, length_app in *.
  split; cbn [log_events log_head log_tail log_tail_next]; try done.
  - apply wrap_range. lia.
  - rewrite Ht, wrap_add_l. f_equal. lia.
  - lia.
  - intros i u Hu. pose proof (Hr (length (units_of e) + i)%nat u) as H.
    rewrite lookup_app_r, Nat.add_comm, Nat.add_sub in H by lia. specialize (H Hu). rewrite <- H.
    f_equal. unfold wrap. destruct count_bounds as [Hb Hdiv].
    rewrite <- Zplus_mod_idemp_l, Z.mod_mod_divide, Zplus_mod_idemp_l by done. f_equal. lia.
Qed.

Lemma holds_drop l e q :
  holds l (e :: q) ->
  holds (EventLog (log_events l) (u32 (log_head l + Z.of_nat (length (units_of e)))) (log_tail l)
    (log_tail_next l)) q.
Proof. intros [Hc Hn]. split; [by apply committed_drop|done]. Qed.

Lemma discard_spec q : forall l n fuel,
  holds l q -> 1 <= n <= 5 -> (length q < fuel)%nat ->
  exists head, discard fuel (log_events l) (log_tail l) (log_head l) n = Some head /\
    holds (EventLog (log_events l) head (log_tail l) (log_tail_next l)) (make_room q n) /\
    Z.of_nat (length (flat (make_room q n))) + n <= UNIT_COUNT.
Proof.
  destruct count_bounds as [Hb Hdiv].
  induction q as [|e q IH]; intros l n [|fuel] H Hn Hf; [simpl in Hf; lia| |simpl in Hf; lia|].
  - cbn [discard make_room]. pose proof H as [[_ Hh Ht _ _] _].
    change (Z.of_nat (length (flat []))) with 0 in *. rewrite Z.add_0_r, wrap_id in Ht by done.
    rewrite Ht, Z.sub_diag. change (u32 0) with 0.
    rewrite Z.sub_0_r, wrap_id by (unfold in_range; lia).
    rewrite decide_True by (simpl; lia). destruct (Z.ltb_spec UNIT_COUNT n); [lia|].
    exists (log_head l). split_and!; [done| |simpl; lia]. destruct l. simpl in *. by subst.
  - cbn [discard make_room]. pose proof H as [[Hwf Hh Ht Hfit Hr] Hnx].
    assert (Hlen : u32 (log_tail l - log_head l) = Z.of_nat (length (flat (e :: q)))).
    { rewrite Ht, wrap_sub_l. replace (_ - _) with (Z.of_nat (length (flat (e :: q)))) by lia.
      apply wrap_id. unfold in_range. lia. }
    rewrite Hlen, (wrap_id 32 (UNIT_COUNT - _)) by (unfold in_range; lia).
    destruct (Z.ltb_spec (UNIT_COUNT - Z.of_nat (length (flat (e :: q)))) n).
    2:{ rewrite decide_True by lia. exists (log_head l). split_and!; [done|by destruct l|lia]. }
    rewrite decide_False by lia.
    assert (Hs : ENTRY_SIZE (EVENT_LOG_SIZE (size_at (log_events l) (Z.land (log_head l) UNIT_COUNT_MASK)))
      = Z.of_nat (length (units_of e))).
    { rewrite <- (wrap_id 32 (log_head l)) by done. rewrite mask_mod. unfold size_at.
      specialize (Hr 0%nat (header_bytes (e_header e)) eq_refl). rewrite Z.add_0_r in Hr.
      rewrite Hr. apply Forall_cons_1 in Hwf as [(H8 & _ & Hu) _].
      by rewrite size_byte. }
    rewrite Hs. apply holds_drop in H.
    exact (IH _ n fuel H Hn ltac:(simpl in Hf; lia)).
Qed.

(** *** Adding *)

Definition new_entry (type size data : Z) (payload : Z -> unit_t) (timestamp : Z) : entry :=
  Entry (Header timestamp type size data)
    (payload <$> seqZ 0 (ENTRY_SIZE (EVENT_LOG_SIZE size) - 1)).

Lemma new_entry_wf type size data payload timestamp :
  is_u8 size -> is_u32 timestamp -> wf_entry (new_entry type size data payload timestamp).
Proof.
  intros Hs Ht. split_and!; [done|done|]. cbn [units_of length e_payload new_entry e_header EventLog.size].
  pose proof (entry_size_bounds size). rewrite length_fmap, length_seqZ. lia.
Qed.

Lemma new_entry_unit type size data payload timestamp j u :
  units_of (new_entry type size data payload timestamp) !! j = Some u ->
  u = (if decide (j = 0%nat) then header_bytes (Header timestamp type size data)
       else payload (Z.of_nat j - 1)).
Proof.
  intros H. destruct j as [|j]; [by injection H|].
  change ((payload <$> seqZ 0 (ENTRY_SIZE (EVENT_LOG_SIZE size) - 1)) !! j = Some u) in H.
  rewrite lookup_fmap_seqZ in H. destruct (decide (Z.of_nat j < _)); [|done].
  injection H as <-. rewrite decide_False by lia. f_equal. lia.
Qed.

Lemma mod_once x : 0 <= x < 2 * UNIT_COUNT ->
  x mod UNIT_COUNT = if x <? UNIT_COUNT then x else x - UNIT_COUNT.
Proof.
  intros Hx. destruct (Z.ltb_spec x UNIT_COUNT).
  - apply Z.mod_small. lia.
  - symmetry. apply (Z.mod_unique _ _ 1); lia.
Qed.

(** What the ring holds at the positions of the queue after an addition. *)
Lemma add_ring (m : ring) (a L n : Z) (hdr : unit_t) (payload : Z -> unit_t) :
  0 <= a < UNIT_COUNT -> 0 <= L -> 1 <= n -> L + n <= UNIT_COUNT ->
  let pos := (a + L) mod UNIT_COUNT in
  pos + n <= UNIT_COUNT \/ L + n < UNIT_COUNT ->
  let m1 := copy_units m pos (fun _ => hdr) 1 in
  let first := Z.min (n - 1) ((UNIT_COUNT - pos) - 1) in
  let m2 := if bool_of_Z first then copy_units m1 (pos + 1) payload first else m1 in
  let m3 := if first <? n - 1
            then copy_units m2 0 (fun i => payload (first + i)) (n - first) else m2 in
  forall i, 0 <= i < L + n ->
    m3 ((a + i) mod UNIT_COUNT) =
      if i <? L then m ((a + i) mod UNIT_COUNT) else if i =? L then hdr else payload (i - L - 1).
Proof.
  intros Ha HL Hn Hfit pos Hsafe m1 first m2 m3 i Hi.
  assert (Hm2 : forall x, m2 x = copy_units m1 (pos + 1) payload first x).
  { intros x. unfold m2, bool_of_Z. destruct (Z.eqb_spec first 0) as [E|]; [|done]. simpl.
    unfold copy_units. rewrite E. addr. }
  assert (Hm3 : forall x, m3 x = if (first <? n - 1) && (0 <=? x) && (x <? n - first)
      then payload (first + x) else m2 x).
  { intros x. unfold m3. destruct (first <? n - 1); [|done]. unfold copy_units.
    rewrite Z.add_0_l, Z.sub_0_r. done. }
  rewrite Hm3, Hm2. unfold m1, copy_units.
  rewrite !(mod_once (a + i)) by lia.
  assert (Hpos : pos = if a + L <? UNIT_COUNT then a + L else a + L - UNIT_COUNT)
    by (apply mod_once; lia).
  clearbody pos. clear m1 m2 m3 Hm2 Hm3. unfold first in *. clear first.
  destruct (Z.ltb_spec (a + L) UNIT_COUNT), (Z.ltb_spec (a + i) UNIT_COUNT), (Z.ltb_spec i L),
    (Z.eqb_spec i L); try lia; addr.
Qed.

Lemma make_room_suffix q n : exists pre, q = pre ++ make_room q n.
Proof.
  induction q as [|e q [pre IH]]; cbn [make_room]; (case_decide; [by exists []|]).
  - by exists [].
  - exists (e :: pre). simpl. by f_equal.
Qed.

(** Adding, when the entry does not wrap around the end of the ring or a unit
    stays free. *)
Lemma log_add_step fuel type size data payload timestamp l q :
  holds l q -> is_u8 size -> is_u32 timestamp -> (length q < fuel)%nat ->
  let n := ENTRY_SIZE (EVENT_LOG_SIZE size) in
  let kept := make_room q n in
  (log_tail l) mod UNIT_COUNT + n <= UNIT_COUNT \/
    Z.of_nat (length (flat kept)) + n < UNIT_COUNT ->
  exists l', log_add_event fuel type size data payload timestamp l = Some l' /\
    holds l' (kept ++ [new_entry type size data payload timestamp]) /\ exists pre, q = pre ++ kept.
Proof.
  intros H Hs Hts Hf n kept Hsafe. pose proof (entry_size_bounds size) as Hn. fold n in Hn.
  destruct count_bounds as [Hb Hdiv].
  destruct (discard_spec q l n fuel H Hn Hf) as (head & Hd & Hk' & Hfit). fold kept in Hk', Hfit.
  unfold log_add_event. fold n. rewrite (h_next _ _ H), Hd. cbn [mbind option_bind].
  rewrite Z.eqb_refl. eexists. split; [done|]. split; [|apply make_room_suffix].
  pose proof (new_entry_wf type size data payload timestamp Hs Hts) as Hwe.
  set (e := new_entry _ _ _ _ _) in *.
  destruct Hk' as [[Hwf Hh Ht _ Hr] _]. cbn [log_events log_head log_tail] in *.
  set (L := Z.of_nat (length (flat kept))) in *.
  assert (Hflat : flat (kept ++ [e]) = flat kept ++ units_of e).
  { unfold flat. rewrite fmap_app, concat_app. simpl. by rewrite app_nil_r. }
  assert (Hue : Z.of_nat (length (units_of e)) = n) by apply Hwe.
  assert (Htail : log_tail l mod UNIT_COUNT = (head mod UNIT_COUNT + L) mod UNIT_COUNT).
  { rewrite Ht. unfold wrap. rewrite Z.mod_mod_divide by done. by rewrite Zplus_mod_idemp_l. }
  assert (Hpos : Z.land (log_tail l) UNIT_COUNT_MASK = log_tail l mod UNIT_COUNT).
  { rewrite <- mask_mod. f_equal. symmetry. apply wrap_id. rewrite Ht. apply wrap_range. lia. }
  split; [|done]. split; cbn [log_events log_head log_tail log_tail_next]; try done.
  - apply Forall_app. split; [done|by apply Forall_singleton].
  - rewrite Hflat, length_app, Ht, wrap_add_l. f_equal. lia.
  - rewrite Hflat, length_app. lia.
  - intros i u Hu. rewrite Hflat in Hu. rewrite Hpos, Htail.
    rewrite <- (Zplus_mod_idemp_l head). rewrite Htail in Hsafe.
    assert (Hi : Z.of_nat i < L + n).
    { apply lookup_lt_Some in Hu. rewrite length_app in Hu. lia. }
    pose proof (add_ring (log_events l) (head mod UNIT_COUNT) L n
      (header_bytes (Header timestamp type size data)) payload
      ltac:(apply Z.mod_pos_bound; lia) ltac:(lia) ltac:(lia) Hfit Hsafe (Z.of_nat i) ltac:(lia)) as Hring.
    cbv zeta in Hring. rewrite Hring.
    destruct (Z.ltb_spec (Z.of_nat i) L).
    + rewrite Zplus_mod_idemp_l. apply Hr. rewrite lookup_app_l in Hu by lia. done.
    + rewrite lookup_app_r in Hu by lia. apply new_entry_unit in Hu. subst u.
      destruct (Z.eqb_spec (Z.of_nat i) L); destruct (decide _); try lia; [done|]. f_equal. lia.
Qed.

(** *** Dequeuing *)

Lemma le_bytes_value x : is_u32 x ->
  let l := le_bytes 4 x in
  aget l 0 + 2 ^ 8 * aget l 1 + 2 ^ 16 * aget l 2 + 2 ^ 24 * aget l 3 = x.
Proof.
  intros Hx l. unfold l.
  change (u8 (Z.shiftr x 0) + 2 ^ 8 * u8 (Z.shiftr x 8) + 2 ^ 16 * u8 (Z.shiftr x 16) +
    2 ^ 24 * u8 (Z.shiftr x 24) = x).
  rewrite !Z.shiftr_div_pow2 by lia. unfold wrap, in_range in *. divlia.
Qed.

(** Reading [us] out of the ring, in one piece or around its end. *)
Lemma ring_read (ev : Z -> unit_t) a us :
  let n := Z.of_nat (length us) in
  let first := Z.min n (UNIT_COUNT - a) in
  0 <= a < UNIT_COUNT -> n <= UNIT_COUNT ->
  (forall i u, us !! i = Some u -> ev ((a + Z.of_nat i) mod UNIT_COUNT) = u) ->
  ((fun i => ev (a + i)) <$> seqZ 0 first) ++
    (if first <? n then (fun i => ev i) <$> seqZ 0 (n - first) else []) = us.
Proof.
  cbn zeta. set (n := Z.of_nat (length us)). intros Ha Hn Hread.
  assert (Hget : forall i, Z.of_nat i < n -> us !! i = Some (ev ((a + Z.of_nat i) mod UNIT_COUNT))).
  { intros i Hi. destruct (us !! i) as [u|] eqn:Ei; [|apply lookup_ge_None in Ei; lia].
    by rewrite (Hread _ _ Ei). }
  assert (Hend : forall i, n <= Z.of_nat i -> us !! i = None) by (intros; apply lookup_ge_None; lia).
  apply list_eq. intros i. destruct (Z.ltb_spec (Z.min n (UNIT_COUNT - a)) n).
  - destruct (decide (Z.of_nat i < UNIT_COUNT - a)).
    + rewrite lookup_app_l by (rewrite length_fmap, length_seqZ; lia).
      rewrite lookup_fmap_seqZ, decide_True by lia.
      etransitivity; [|symmetry; apply Hget; lia]. by rewrite Z.mod_small by lia.
    + rewrite lookup_app_r by (rewrite length_fmap, length_seqZ; lia).
      rewrite length_fmap, length_seqZ, lookup_fmap_seqZ. destruct (decide _).
      * etransitivity; [|symmetry; apply Hget; lia]. rewrite mod_once by lia.
        destruct (Z.ltb_spec (a + Z.of_nat i) UNIT_COUNT); [lia|]. do 2 f_equal. lia.
      * symmetry. apply Hend. lia.
  - rewrite app_nil_r, lookup_fmap_seqZ. destruct (decide _).
    + etransitivity; [|symmetry; apply Hget; lia]. by rewrite Z.mod_small by lia.
    + symmetry. apply Hend. lia.
Qed.

Lemma committed_empty l q : committed l q -> (log_tail l =? log_head l) = bool_decide (q = []).
Proof.
  destruct count_bounds as [Hb _]. intros [Hwf Hh Ht Hf _]. destruct q as [|e q].
  - change (Z.of_nat (length (flat []))) with 0 in Ht. rewrite Z.add_0_r, wrap_id in Ht by done.
    by rewrite Ht, Z.eqb_refl.
  - rewrite bool_decide_false by done. apply Z.eqb_neq. rewrite Ht. intros E.
    rewrite flat_cons, length_app in *. apply Forall_cons_1 in Hwf as [(_ & _ & Hu) _].
    pose proof (entry_size_bounds (size (e_header e))). unfold wrap, in_range in *.
    change (2 ^ 32) with 4294967296 in *. change (2 ^ 31) with 2147483648 in *. divlia.
Qed.

(** The copy of an entry that stays in place while it is read. *)
Lemma read_entry_spec (seen : ring) h e : is_u32 h -> wf_entry e ->
  Z.of_nat (length (units_of e)) <= UNIT_COUNT ->
  (forall i u, units_of e !! i = Some u -> seen ((h + Z.of_nat i) mod UNIT_COUNT) = u) ->
  read_entry seen h = (Z.of_nat (length (units_of e)), units_of e).
Proof.
  destruct count_bounds as [Hb Hdiv]. intros Hh (H8 & H32 & Hu) Hfit Hr. unfold read_entry.
  assert (Hpos : Z.land h UNIT_COUNT_MASK = h mod UNIT_COUNT)
    by (rewrite <- mask_mod; f_equal; symmetry; by apply wrap_id).
  rewrite Hpos. set (a := h mod UNIT_COUNT) in *.
  assert (Ha : 0 <= a < UNIT_COUNT) by (apply Z.mod_pos_bound; lia).
  assert (Hread : forall i u, units_of e !! i = Some u -> seen ((a + Z.of_nat i) mod UNIT_COUNT) = u)
    by (intros i u Hi; unfold a; rewrite Zplus_mod_idemp_l; by apply Hr).
  assert (Hhd : seen a = header_bytes (e_header e)).
  { rewrite <- (Hread 0%nat _ eq_refl). rewrite Z.add_0_r, Z.mod_small by lia. done. }
  unfold size_at. rewrite Hhd, size_byte, <- Hu by done. f_equal. by apply ring_read.
Qed.

(** What other tasks may do to a log that holds [q] during each attempt: they
    add entries and discard old ones; as long as the head has not moved nothing
    was discarded and the entry at the head is in place. *)
Definition in_place (m : ring) (head : Z) (q : list entry) : Prop :=
  match q with
  | [] => True
  | e :: _ => forall i u, units_of e !! i = Some u -> m ((head + Z.of_nat i) mod UNIT_COUNT) = u
  end.
Fixpoint honest (l : event_log) (q : list entry) (attempts : list attempt) : Prop :=
  match attempts with
  | [] => True
  | (seen, l') :: attempts =>
    exists j new, committed l' (drop j q ++ new) /\
      (log_head l' = log_head l -> j = 0%nat /\ in_place seen (log_head l) q) /\
      honest l' (drop j q ++ new) attempts
  end.
Fixpoint disturbed (l : event_log) (attempts : list attempt) : Prop :=
  match attempts with
  | [] => True
  | (_, l') :: attempts => log_head l' <> log_head l /\ disturbed l' attempts
  end.

(** The caller's copy of an entry, with its age. *)
Definition aged (now : Z) (e : entry) : list unit_t :=
  units_of (Entry (Header (u32 (u32 (Z.shiftr now EVENT_LOG_TIMESTAMP_SHIFT) - timestamp (e_header e)))
                     (type (e_header e)) (size (e_header e)) (data (e_header e))) (e_payload e)).
(** The answer of a log that holds [q], and the log afterwards. *)
Definition answers (now : Z) (q : list entry) (r : list unit_t) (n : Z) (l' : event_log) : Prop :=
  match q with
  | [] => r = [header_bytes (Header 0 EVENT_LOG_NO_ENTRY 0 0)] /\ n = 8 /\ committed l' []
  | e :: q => r = aged now e /\ n = 8 * Z.of_nat (length (units_of e)) /\ committed l' q
  end.

Lemma aged_copy now e : wf_entry e ->
  let hd := default [] (head (units_of e)) in
  let stamp := aget hd 0 + 2 ^ 8 * aget hd 1 + 2 ^ 16 * aget hd 2 + 2 ^ 24 * aget hd 3 in
  aset (units_of e) 0 (le_bytes 4 (u32 (u32 (Z.shiftr now EVENT_LOG_TIMESTAMP_SHIFT) - stamp)) ++ drop 4 hd) =
    aged now e.
Proof.
  intros (_ & H32 & _). pose proof (le_bytes_value _ H32) as Hv. cbv zeta in Hv. cbn zeta.
  change (default [] (head (units_of e))) with (header_bytes (e_header e)).
  unfold aged, aset. cbn [Z.to_nat insert list_insert units_of e_header e_payload]. f_equal.
  change (aget (header_bytes (e_header e)) 0) with (aget (le_bytes 4 (timestamp (e_header e))) 0).
  change (aget (header_bytes (e_header e)) 1) with (aget (le_bytes 4 (timestamp (e_header e))) 1).
  change (aget (header_bytes (e_header e)) 2) with (aget (le_bytes 4 (timestamp (e_header e))) 2).
  change (aget (header_bytes (e_header e)) 3) with (aget (le_bytes 4 (timestamp (e_header e))) 3).
  by rewrite Hv.
Qed.

End Log.

(** An empty ring of 8 units, and four entries that fill it, the last one
    wrapped around the end; and the fifth, which goes over the end with the
    ring exactly full: the extra unit overwrites the oldest entry's header. *)
Definition empty_log (head : Z) : event_log := EventLog (fun _ => replicate 8 0) head head head.
Definition payload_7 : Z -> unit_t := fun _ => [7; 7; 7; 7; 7; 7; 7; 7].

Lemma holds_empty k head : 3 <= k <= 31 -> is_u32 head -> holds k (empty_log head) [].
Proof.
  intros Hk Hh. split; [|done]. split; cbn; try done.
  - rewrite Z.add_0_r. symmetry. by apply wrap_id.
  - unfold UNIT_COUNT. apply Z.pow_nonneg. lia.
Qed.

(** On a log that holds [q], [log_add_event] terminates and leaves the
    newest suffix of [q] that fits together with the new entry at its end,
    provided the entry does not wrap around the end of the ring or a unit
    stays free.  Without the proviso this fails: the copy of the wrapped part
    of the payload is one unit too long, and when the ring is exactly full that
    unit is the header of the oldest entry. *)
Theorem log_add_correct :
  (forall k, 3 <= k <= 31 -> forall fuel type size data payload timestamp l q,
   holds k l q -> is_u8 size -> is_u32 timestamp -> (length q < fuel)%nat ->
   let n := ENTRY_SIZE (EVENT_LOG_SIZE size) in
   let kept := make_room k q n in
   (log_tail l) mod UNIT_COUNT k + n <= UNIT_COUNT k \/
     Z.of_nat (length (flat kept)) + n < UNIT_COUNT k ->
   exists l', log_add_event k fuel type size data payload timestamp l = Some l' /\
     holds k l' (kept ++ [new_entry type size data payload timestamp]) /\
     exists pre, q = pre ++ kept) /\
  (exists l1 l2 e1 e2,
     holds 3 l1 [e1; e2] /\
     log_add_event 3 3 3 31 0 payload_7 0 l1 = Some l2 /\
     Z.of_nat (length (flat [e1; e2])) + ENTRY_SIZE (EVENT_LOG_SIZE 31) = UNIT_COUNT 3 /\
     log_events l2 (log_head l2 mod UNIT_COUNT 3) <> header_bytes (e_header e1)).
Proof.
  split.
  - intros k Hk fuel type size data payload timestamp l q. by apply log_add_step.
  - destruct (log_add_step 3 ltac:(lia) 1 1 8 0 payload_7 0 (empty_log 4) []) as (la & Ea & Ha & _);
      [apply holds_empty; [lia|done]|done|done|simpl; lia|vm_compute; right; reflexivity|].
    vm_compute in Ea. injection Ea as <-.
    destruct (log_add_step 3 ltac:(lia) 3 2 0 0 payload_7 0 _ _ Ha) as (lb & Eb & Hb & _);
      [done|done|simpl; lia|vm_compute; right; reflexivity|].
    vm_compute in Eb. injection Eb as <-.
    eexists _, _, _, _. split; [exact Hb|]. split; [vm_compute; reflexivity|].
    split; [vm_compute; reflexivity|]. vm_compute. discriminate.
Qed.

Lemma log_add_correct_witness :
  exists l', log_add_event 3 3 1 9 0 payload_7 100 (empty_log 6) = Some l' /\
    holds 3 l' [new_entry 1 9 0 payload_7 100].
Proof.
  destruct (proj1 log_add_correct 3 ltac:(lia) 3%nat 1 9 0 payload_7 100 (empty_log 6) [])
    as (l' & E & H & _);
    [apply holds_empty; [lia|done]|done|done|simpl; lia|vm_compute; right; reflexivity|].
  exists l'. split; [exact E|exact H].
Defined.

(** A log of three entries in a ring of 8 units; then one that fills the ring, for
    which the oldest is discarded. *)
Definition add (type size : Z) (l : event_log) : event_log :=
  default l (log_add_event 3 5 type size 0 payload_7 100 l).
Definition three_entries : event_log := add 3 0 (add 2 8 (add 1 9 (empty_log 6))).
Definition then_another : event_log := add 4 16 three_entries.
Definition entry_of (type size : Z) : entry := new_entry type size 0 payload_7 100.

Lemma three_entries_held :
  holds 3 three_entries [entry_of 1 9; entry_of 2 8; entry_of 3 0] /\
  holds 3 then_another [entry_of 2 8; entry_of 3 0; entry_of 4 16].
Proof.
  assert (Hadd : forall type size l q, holds 3 l q -> is_u8 size -> (length q < 5)%nat ->
    (Z.of_nat (length (flat (make_room 3 q (ENTRY_SIZE (EVENT_LOG_SIZE size))))) + ENTRY_SIZE (EVENT_LOG_SIZE size) < 8 \/
     (log_tail l) mod 8 + ENTRY_SIZE (EVENT_LOG_SIZE size) <= 8) ->
    holds 3 (add type size l) (make_room 3 q (ENTRY_SIZE (EVENT_LOG_SIZE size)) ++ [entry_of type size])).
  { intros type size l q Hl Hs Hq Hsafe. unfold add.
    destruct (log_add_step 3 ltac:(lia) 5 type size 0 payload_7 100 l q Hl Hs) as (l' & -> & H & _);
      [done|done|change (UNIT_COUNT 3) with 8; tauto|exact H]. }
  pose proof (Hadd 1 9 _ [] (holds_empty 3 6 ltac:(lia) ltac:(done)) ltac:(done) ltac:(simpl; lia)
    ltac:(vm_compute; left; reflexivity)) as H1.
  pose proof (Hadd 2 8 _ _ H1 ltac:(done) ltac:(simpl; lia) ltac:(vm_compute; left; reflexivity)) as H2.
  pose proof (Hadd 3 0 _ _ H2 ltac:(done) ltac:(simpl; lia) ltac:(vm_compute; left; reflexivity)) as H3.
  pose proof (Hadd 4 16 _ _ H3 ltac:(done) ltac:(simpl; lia) ltac:(vm_compute; right; congruence)) as H4.
  split; [exact H3|exact H4].
Qed.


End EventLog.
