(* ===== verification/Shmalloc.v ===== *)
(** * The shared memory allocator (common/shmalloc.c)

    A best-fit allocator whose free and allocated buffers are two doubly
    linked chains threaded through the arena itself: every buffer starts with
    a [struct shm_buffer].  The arena is modelled word by word, so a write to
    a header or to a buffer really lands in the memory that the chains live
    in; a load or store outside the arena (the NULL pointer included) is
    undefined, [None].  The mutex makes the operations atomic. *)

From stdpp Require Import sets.
From S2P Require Import Prelude.

Module Shmalloc.

(** Memory by byte address of the (32-bit) word. *)
Definition memory := Z -> Z.
Definition upd (m : memory) (k v : Z) : memory := fun x => if x =? k then v else m x.

(** Offsets of the header's fields. *)
(** src/include/shared_mem.h:75-79 [struct shm_buffer] *)
Inductive field := next_buffer | prev_buffer | buffer_size.
Definition offset (f : field) : Z :=
  match f with next_buffer => 0 | prev_buffer => 4 | buffer_size => 8 end.
Definition HDR : Z := 12.
Definition NULL : Z := 0.

(** src/common/shmalloc.c:32-38 [free_buf_chain] *)
Record heap := Heap {
  mem : memory; free_buf_chain : Z; allocced_buf_chain : Z; max_allocated_size : Z }.

Section Arena.
(** [__shared_mem_buf] and [system_usable_ram_end ()]. *)
Context (base ram_end : Z).

Definition mapped (p : Z) : bool := (base <=? p) && (p + HDR <=? ram_end).
Definition ld (m : memory) (p : Z) (f : field) : option Z :=
  if mapped p then Some (m (p + offset f)) else None.
Definition st (m : memory) (p : Z) (f : field) (v : Z) : option memory :=
  if mapped p then Some (upd m (p + offset f) v) else None.

(** Chains are walked with this much fuel: more than the buffers that fit. *)
Definition walk_fuel : nat := S (Z.to_nat (ram_end - base)).

(** src/common/shmalloc.c:40-52 [shared_mem_init] *)
Definition shared_mem_init (m : memory) : option heap :=
  m ← st m base next_buffer NULL;
  m ← st m base prev_buffer NULL;
  m ← st m base buffer_size (u32 (ram_end - base));
  Some (Heap m base NULL 0).

(** [if (p) p->prev_buffer = v;] *)
Definition set_prev_if (m : memory) (p v : Z) : option memory :=
  if p =? NULL then Some m else st m p prev_buffer v.

(** A buffer with a predecessor leaves its chain (lines 83-89 and 248-256). *)
(** src/common/shmalloc.c:248-256 [candidate] *)
Definition unhook (m : memory) (candidate : Z) : option memory :=
  p ← ld m candidate prev_buffer;
  n ← ld m candidate next_buffer;
  m ← st m p next_buffer n;
  n ← ld m candidate next_buffer;
  p ← ld m candidate prev_buffer;
  set_prev_if m n p.

(** Is the buffer on the chain from [pfb]? *)
(** src/common/shmalloc.c:76-79 [pfb] *)
Fixpoint on_chain (fuel : nat) (m : memory) (pfb ptr : Z) : option bool :=
  match fuel with
  | O => None
  | S fuel =>
    if pfb =? NULL then Some false
    else if pfb =? ptr then Some true
    else pfb ← ld m pfb next_buffer; on_chain fuel m pfb ptr
  end.

(** Taking the buffer out of the allocated chain; [Some None] is the early
    return for a buffer that is not there. *)
(** src/common/shmalloc.c:62-90 [allocced_buf_chain] *)
Definition unlink (m : memory) (ac ptr : Z) : option (option (memory * Z)) :=
  if ptr =? ac then
    n ← ld m ptr next_buffer;
    m ← set_prev_if m n NULL;
    ac ← ld m ptr next_buffer;
    Some (Some (m, ac))
  else
    pfb ← ld m ac next_buffer;
    found ← on_chain walk_fuel m pfb ptr;
    if negb found then Some None
    else
      m ← unhook m ptr;
      Some (Some (m, ac)).

(** The highest free buffer below [ptr]. *)
(** src/common/shmalloc.c:144-146 [pfb] *)
Fixpoint find_below (fuel : nat) (m : memory) (pfb ptr : Z) : option Z :=
  match fuel with
  | O => None
  | S fuel =>
    n ← ld m pfb next_buffer;
    if negb (n =? NULL) && (n <? ptr) then find_below fuel m n ptr else Some pfb
  end.

(** [ptr] goes to the front of the free chain. *)
(** src/common/shmalloc.c:111-136 [free_buf_chain] *)
Definition fold_front (m : memory) (fc ptr released_size : Z) : option (memory * Z) :=
  m ← (if u32 (ptr + released_size) =? fc then
         s ← ld m fc buffer_size;
         m ← st m ptr buffer_size (u32 (s + released_size));
         n ← ld m fc next_buffer;
         st m ptr next_buffer n
       else
         m ← st m ptr buffer_size released_size;
         m ← st m ptr next_buffer fc;
         st m fc prev_buffer ptr);
  n ← ld m ptr next_buffer;
  m ← set_prev_if m n ptr;
  m ← st m ptr prev_buffer NULL;
  Some (m, ptr).

(** [ptr] goes after the free buffer [pfb], merged with its neighbours. *)
(** src/common/shmalloc.c:148-196 [released_size] *)
Definition fold_after (m : memory) (pfb ptr released_size : Z) : option memory :=
  ps ← ld m pfb buffer_size;
  if u32 (pfb + ps) =? ptr then
    m ← st m pfb buffer_size (u32 (ps + released_size));
    n ← ld m pfb next_buffer;
    if u32 (ptr + released_size) =? n then
      s ← ld m n buffer_size;
      ps ← ld m pfb buffer_size;
      m ← st m pfb buffer_size (u32 (ps + s));
      n ← ld m pfb next_buffer;
      nn ← ld m n next_buffer;
      m ← st m pfb next_buffer nn;
      set_prev_if m nn pfb
    else Some m
  else
    n ← ld m pfb next_buffer;
    m ← (if u32 (ptr + released_size) =? n then
           s ← ld m n buffer_size;
           m ← st m ptr buffer_size (u32 (released_size + s));
           nn ← ld m n next_buffer;
           st m ptr next_buffer nn
         else
           m ← st m ptr next_buffer n;
           st m ptr buffer_size released_size);
    m ← st m ptr prev_buffer pfb;
    m ← st m pfb next_buffer ptr;
    n ← ld m ptr next_buffer;
    set_prev_if m n ptr.

(** Bringing the buffer back into the free chain. *)
(** src/common/shmalloc.c:92-196 [released_size] *)
Definition fold_in (m : memory) (fc ptr : Z) : option (memory * Z) :=
  released_size ← ld m ptr buffer_size;
  if fc =? NULL then
    m ← st m ptr buffer_size released_size;
    m ← st m ptr next_buffer NULL;
    m ← st m ptr prev_buffer NULL;
    Some (m, ptr)
  else if ptr <? fc then fold_front m fc ptr released_size
  else
    pfb ← find_below walk_fuel m fc ptr;
    m ← fold_after m pfb ptr released_size;
    Some (m, fc).

(** src/common/shmalloc.c:56-196 [do_release] *)
Definition do_release (h : heap) (ptr : Z) : option heap :=
  r ← unlink (mem h) (allocced_buf_chain h) ptr;
  match r with
  | None => Some h
  | Some (m, ac) =>
    '(m, fc) ← fold_in m (free_buf_chain h) ptr;
    Some (Heap m fc ac (max_allocated_size h))
  end.

(** [size] aligned and with room for the header; it is only used as a
    [size_t] from here on. *)
(** src/common/shmalloc.c:205-209 [size] *)
Definition gross_size (size : Z) : Z := u32 (Z.land (u32 (size + 4 - 1)) (u32 (-4)) + HDR).

(** src/common/shmalloc.c:211-220 [headroom] *)
Fixpoint scan (fuel : nat) (m : memory) (pfb size headroom candidate : Z) : option (Z * Z) :=
  match fuel with
  | O => None
  | S fuel =>
    if pfb =? NULL then Some (headroom, candidate)
    else
      bs ← ld m pfb buffer_size;
      let '(headroom, candidate) :=
        if (size <=? bs) && (u32 (bs - size) <? headroom)
        then (u32 (bs - size), pfb) else (headroom, candidate) in
      n ← ld m pfb next_buffer;
      scan fuel m n size headroom candidate
  end.

(** The whole candidate leaves the free chain. *)
(** src/common/shmalloc.c:235-257 [candidate] *)
Definition take_whole (m : memory) (fc candidate : Z) : option (memory * Z) :=
  if candidate =? fc then
    fc ← ld m candidate next_buffer;
    m ← set_prev_if m fc 0;
    Some (m, fc)
  else
    m ← unhook m candidate;
    Some (m, fc).

(** The candidate's tail stays free. *)
(** src/common/shmalloc.c:261-282 [candidate] *)
Definition split (m : memory) (fc candidate size headroom : Z) : option (memory * Z) :=
  m ← st m candidate buffer_size size;
  let pfb := u32 (candidate + size) in
  m ← st m pfb buffer_size headroom;
  n ← ld m candidate next_buffer;
  m ← st m pfb next_buffer n;
  p ← ld m candidate prev_buffer;
  m ← st m pfb prev_buffer p;
  n ← ld m pfb next_buffer;
  m ← set_prev_if m n pfb;
  if candidate =? fc then Some (m, pfb)
  else
    p ← ld m pfb prev_buffer;
    m ← st m p next_buffer pfb;
    Some (m, fc).

(** Returns the memory, the free chain and the candidate. *)
(** src/common/shmalloc.c:199-284 [do_acquire] *)
Definition do_acquire (m : memory) (fc size : Z) : option (ec_error * (memory * Z) * Z) :=
  let size := gross_size size in
  '(headroom, candidate) ← scan walk_fuel m fc size 0x10000000 NULL;
  if candidate =? NULL then Some (EC_ERROR_BUSY, (m, fc), NULL)
  else if headroom <=? HDR then
    r ← take_whole m fc candidate; Some (EC_SUCCESS, r, candidate)
  else
    r ← split m fc candidate size headroom; Some (EC_SUCCESS, r, candidate).

(** src/common/shmalloc.c:294-299 [max_available] *)
Fixpoint max_free (fuel : nat) (m : memory) (pfb max_available : Z) : option Z :=
  match fuel with
  | O => None
  | S fuel =>
    if pfb =? NULL then Some max_available
    else
      bs ← ld m pfb buffer_size;
      n ← ld m pfb next_buffer;
      max_free fuel m n (if max_available <? bs then bs else max_available)
  end.

(** src/common/shmalloc.c:286-305 [shared_mem_size] *)
Definition shared_mem_size (h : heap) : option Z :=
  max_available ← max_free walk_fuel (mem h) (free_buf_chain h) 0;
  Some (s32 (u32 (max_available - HDR))).

(** Returns the status and [*dest_ptr]. *)
(** src/common/shmalloc.c:307-338 [shared_mem_acquire] *)
Definition shared_mem_acquire (in_interrupt_context : bool) (size : Z) (h : heap) :
    option (ec_error * Z * heap) :=
  if in_interrupt_context then Some (EC_ERROR_INVAL, NULL, h)
  else if free_buf_chain h =? NULL then Some (EC_ERROR_BUSY, NULL, h)
  else
    '(rv, (m, fc), new_buf) ← do_acquire (mem h) (free_buf_chain h) size;
    if decide (rv = EC_SUCCESS) then
      let ac := allocced_buf_chain h in
      m ← st m new_buf next_buffer ac;
      m ← st m new_buf prev_buffer NULL;
      m ← set_prev_if m ac new_buf;
      Some (rv, new_buf + HDR,
            Heap m fc new_buf
              (if max_allocated_size h <? size then size else max_allocated_size h))
    else Some (rv, NULL, Heap m fc (allocced_buf_chain h) (max_allocated_size h)).

(** src/common/shmalloc.c:340-351 [shared_mem_release] *)
Definition shared_mem_release (in_interrupt_context : bool) (ptr : Z) (h : heap) : option heap :=
  if in_interrupt_context then Some h
  else if ptr =? NULL then Some h
  else do_release h (ptr - HDR).

(** The sums of [command_shmem]. *)
(** src/common/shmalloc.c:366-377 [command_shmem] *)
Fixpoint chain_size (fuel : nat) (m : memory) (buf acc : Z) : option Z :=
  match fuel with
  | O => None
  | S fuel =>
    if buf =? NULL then Some acc
    else
      s ← ld m buf buffer_size;
      n ← ld m buf next_buffer;
      chain_size fuel m n (u32 (acc + s))
  end.

(** ** The arena as two lists of blocks *)

(** A block: its address and size, header included. *)
Abbreviation block := (Z * Z)%type.

Record blk (x : block) : Prop := {
  blk_base : base <= x.1; blk_size : HDR <= x.2; blk_end : x.1 + x.2 <= ram_end;
  blk_align : (4 | x.1) }.

Definition apart (x y : block) : Prop := x.1 + x.2 <= y.1 \/ y.1 + y.2 <= x.1.

Fixpoint pairwise (l : list block) : Prop :=
  match l with [] => True | x :: l => Forall (apart x) l /\ pairwise l end.

(** Blocks of the arena that do not overlap. *)
Definition arena (l : list block) : Prop := Forall blk l /\ pairwise l.

Fixpoint total (l : list block) : Z :=
  match l with [] => 0 | x :: l => x.2 + total l end.

(** Address order, no two blocks adjacent. *)
Fixpoint coalesced (l : list block) : Prop :=
  match l with
  | [] => True
  | x :: l => match l with [] => True | y :: _ => x.1 + x.2 < y.1 end /\ coalesced l
  end.

(** The bytes of the blocks. *)
Definition covers (l : list block) (k : Z) : Prop := exists x, x ∈ l /\ x.1 <= k < x.1 + x.2.

(** [l] is linked from [p] to [q], the block before it being [prev]. *)
Fixpoint seg (m : memory) (prev p : Z) (l : list block) (q : Z) : Prop :=
  match l with
  | [] => p = q
  | (a, s) :: l =>
    p = a /\ m (a + offset prev_buffer) = prev /\ m (a + offset buffer_size) = s /\
    seg m a (m (a + offset next_buffer)) l q
  end.

(** The address of the last block. *)
Fixpoint last_addr (prev : Z) (l : list block) : Z :=
  match l with [] => prev | x :: l => last_addr x.1 l end.

(** The heap has these blocks free and allocated, and no others. *)
Record heap_ok (h : heap) (free alloc : list block) : Prop := {
  ok_free : seg (mem h) NULL (free_buf_chain h) free NULL;
  ok_alloc : seg (mem h) NULL (allocced_buf_chain h) alloc NULL;
  ok_arena : arena (free ++ alloc);
  ok_coalesced : coalesced free;
  ok_total : total (free ++ alloc) = ram_end - base }.

(** The bytes a client may use. *)
Definition payload_of (alloc : list block) (k : Z) : Prop :=
  exists x, x ∈ alloc /\ x.1 + HDR <= k < x.1 + x.2.

(** The bytes of the headers. *)
Definition header_of (l : list block) (k : Z) : Prop :=
  exists x, x ∈ l /\ x.1 <= k < x.1 + HDR.

(** The memories agree outside the headers of [l]. *)
Definition writes_in (l : list block) (m m' : memory) : Prop :=
  forall k, ~ header_of l k -> m' k = m k.

(** The effect of freeing on the list of free blocks. *)
Definition cons_coalesce (x : block) (l : list block) : list block :=
  match l with
  | [] => [x]
  | y :: l' => if x.1 + x.2 =? y.1 then (x.1, x.2 + y.2) :: l' else x :: l
  end.
Fixpoint insert_free (x : block) (l : list block) : list block :=
  match l with
  | [] => [x]
  | y :: l => if x.1 <? y.1 then cons_coalesce x (y :: l) else cons_coalesce y (insert_free x l)
  end.

(** ** Lists of blocks *)

#[export] Instance pairwise_perm : Proper ((≡ₚ) ==> iff) pairwise.
Proof.
  assert (H : forall l l', l ≡ₚ l' -> pairwise l -> pairwise l').
  { induction 1; simpl.
    - done.
    - intros [H1 H2]. split; [by rewrite <- H|auto].
    - intros [H1 [H2 H3]]. inversion_clear H1 as [|? ? Hyx Hyl].
      repeat split; try done. constructor; [|done]. unfold apart in *. lia.
    - auto. }
  intros l l' Hp. split; apply H; [done|by symmetry].
Qed.

#[export] Instance arena_perm : Proper ((≡ₚ) ==> iff) arena.
Proof. intros l l' Hp. unfold arena. by rewrite Hp. Qed.

#[export] Instance total_perm : Proper ((≡ₚ) ==> eq) total.
Proof. induction 1; simpl; lia. Qed.

Lemma total_app l l' : total (l ++ l') = total l + total l'.
Proof. induction l; simpl; lia. Qed.

Lemma pairwise_app l l' :
  pairwise (l ++ l') <-> pairwise l /\ pairwise l' /\ Forall (fun x => Forall (apart x) l') l.
Proof.
  induction l as [|x l IH]; simpl.
  - split; [intros ?; repeat split; auto|tauto].
  - rewrite Forall_app, Forall_cons_iff, IH. tauto.
Qed.

Lemma arena_cons x l : arena (x :: l) <-> blk x /\ Forall (apart x) l /\ arena l.
Proof. unfold arena. simpl. rewrite Forall_cons_iff. tauto. Qed.

Lemma arena_app l l' :
  arena (l ++ l') <-> arena l /\ arena l' /\ Forall (fun x => Forall (apart x) l') l.
Proof. unfold arena. rewrite Forall_app, pairwise_app. tauto. Qed.

Lemma arena_blk l x : arena l -> x ∈ l -> blk x.
Proof. intros [H _]. by rewrite list.Forall_forall in H; apply H. Qed.

Lemma arena_apart l x y : arena (x :: l) -> y ∈ l -> apart x y.
Proof. intros H. apply arena_cons in H as (_ & H & _). rewrite list.Forall_forall in H. apply H. Qed.

Lemma total_nonneg l : Forall blk l -> 0 <= total l.
Proof.
  induction 1 as [|x l Hx Hl IH]; simpl; [lia|]. pose proof (blk_size _ Hx) as Hs.
  unfold HDR in Hs. lia.
Qed.

Lemma total_length l : Forall blk l -> Z.of_nat (length l) <= total l.
Proof.
  induction 1 as [|x l Hx Hl IH]; simpl; [lia|]. pose proof (blk_size _ Hx) as Hs.
  unfold HDR in Hs. lia.
Qed.

Lemma coalesced_app l l' :
  coalesced (l ++ l') -> coalesced l /\ coalesced l'.
Proof.
  induction l as [|x l IH]; simpl; [done|]. intros [H1 H2]. destruct (IH H2) as [Ha Hb].
  split; [split; [|done]|done]. by destruct l.
Qed.

(** The free chain is in address order. *)
Lemma coalesced_above x l :
  coalesced (x :: l) -> Forall blk (x :: l) -> Forall (fun y => x.1 + x.2 < y.1) l.
Proof.
  revert x. induction l as [|y l IH]; intros x Hc Hb; [constructor|].
  destruct Hc as [H1 H2]. inversion_clear Hb as [|? ? Hx Hb'].
  constructor; [done|]. specialize (IH y H2 Hb').
  apply Forall_cons_1 in Hb' as [Hy _]. pose proof (blk_size _ Hy). unfold HDR in *.
  eapply Forall_impl; [|exact IH]. simpl. intros. lia.
Qed.

(** ** Chains in memory *)

Lemma offset_range f : 0 <= offset f < HDR.
Proof. unfold HDR. destruct f; simpl; lia. Qed.

Lemma header_cons x l k : header_of (x :: l) k <-> x.1 <= k < x.1 + HDR \/ header_of l k.
Proof.
  unfold header_of. split.
  - intros (y & Hy & Hk). apply elem_of_cons in Hy as [->|Hy]; [by left|right; eauto].
  - intros [Hk|(y & Hy & Hk)]; [exists x|exists y]; (split; [set_solver|done]).
Qed.

Lemma header_app l l' k : header_of (l ++ l') k <-> header_of l k \/ header_of l' k.
Proof.
  induction l as [|x l IH]; simpl.
  - split; [by right|intros [(x & Hx & _)|]; [set_solver|done]].
  - rewrite !header_cons, IH. tauto.
Qed.

(** Headers of disjoint blocks are disjoint. *)
Lemma header_apart x l k f :
  arena (x :: l) -> k = x.1 + offset f -> ~ header_of l k.
Proof.
  intros Ha -> (y & Hy & Hk). pose proof (arena_apart _ _ _ Ha Hy) as Hxy.
  pose proof (offset_range f). apply arena_cons in Ha as (Hx & _ & Ha).
  pose proof (arena_blk _ _ Ha Hy) as Hy'. destruct Hx, Hy'. unfold apart in Hxy. lia.
Qed.

Lemma seg_app m prev p l l' q :
  seg m prev p (l ++ l') q <-> exists r, seg m prev p l r /\ seg m (last_addr prev l) r l' q.
Proof.
  revert prev p. induction l as [|[a s] l IH]; intros prev p; simpl.
  - split; [eauto|intros (r & -> & H); done].
  - rewrite IH. split.
    + intros (-> & H1 & H2 & r & H3 & H4). eauto 10.
    + intros (r & (-> & H1 & H2 & H3) & H4). eauto 10.
Qed.

Lemma seg_frame m m' prev p l q :
  (forall k, header_of l k -> m' k = m k) -> seg m prev p l q -> seg m' prev p l q.
Proof.
  revert prev p. induction l as [|[a s] l IH]; intros prev p Hm; simpl; [done|].
  intros (-> & H1 & H2 & H3).
  rewrite !Hm by (apply header_cons; left; simpl; unfold HDR; lia).
  repeat split; [done|done|].
  apply IH; [|done]. intros k Hk. apply Hm, header_cons. by right.
Qed.

Lemma seg_upd m k v prev p l q :
  ~ header_of l k -> seg m prev p l q -> seg (upd m k v) prev p l q.
Proof.
  intros Hk. apply seg_frame. intros k' Hk'. unfold upd.
  destruct (Z.eqb_spec k' k) as [->|]; [by destruct Hk|done].
Qed.

Lemma writes_in_refl l m : writes_in l m m.
Proof. intros k _. done. Qed.

Lemma writes_in_trans l m1 m2 m3 :
  writes_in l m1 m2 -> writes_in l m2 m3 -> writes_in l m1 m3.
Proof. intros H1 H2 k Hk. rewrite H2, H1; done. Qed.

Lemma writes_in_weaken l l' m m' :
  (forall k, header_of l k -> header_of l' k) -> writes_in l m m' -> writes_in l' m m'.
Proof. intros Hl H k Hk. apply H. intros H'. by apply Hk, Hl. Qed.

Lemma writes_in_upd l m x f v :
  x ∈ l -> writes_in l m (upd m (x.1 + offset f) v).
Proof.
  intros Hx k Hk. unfold upd. destruct (Z.eqb_spec k (x.1 + offset f)) as [->|]; [|done].
  destruct Hk. exists x. pose proof (offset_range f). split; [done|lia].
Qed.

Lemma seg_writes l' m m' prev p l q :
  writes_in l' m m' -> (forall k, header_of l k -> ~ header_of l' k) ->
  seg m prev p l q -> seg m' prev p l q.
Proof. intros Hw Hd. apply seg_frame. intros k Hk. apply Hw. by apply Hd. Qed.

Lemma arena_headers l l' k : arena (l ++ l') -> header_of l k -> ~ header_of l' k.
Proof.
  intros Ha (x & Hx & Hk) (y & Hy & Hk').
  apply arena_app in Ha as (Hl & Hl' & Ha). rewrite list.Forall_forall in Ha.
  specialize (Ha x Hx). rewrite list.Forall_forall in Ha. specialize (Ha y Hy).
  pose proof (arena_blk _ _ Hl Hx) as []. pose proof (arena_blk _ _ Hl' Hy) as [].
  unfold apart in Ha. lia.
Qed.

Lemma ld_blk m x f : blk x -> ld m x.1 f = Some (m (x.1 + offset f)).
Proof. intros []. unfold ld, mapped. by replace (_ && _) with true by lia. Qed.
Lemma st_blk m x f v : blk x -> st m x.1 f v = Some (upd m (x.1 + offset f) v).
Proof. intros []. unfold st, mapped. by replace (_ && _) with true by lia. Qed.

Lemma upd_same m k v : upd m k v k = v.
Proof. unfold upd. by rewrite Z.eqb_refl. Qed.
Lemma upd_other m k k' v : k' <> k -> upd m k v k' = m k'.
Proof. intros. unfold upd. by destruct (Z.eqb_spec k' k). Qed.

Section Proofs.
Context (base_pos : 0 < base) (ram_end_u32 : ram_end < 2 ^ 32).
Context (arena_size : ram_end - base < 0x10000000).

(** Writing a field of a block leaves the other blocks' headers alone. *)
Lemma seg_upd_apart m x f v prev p l q :
  arena (x :: l) -> seg m prev p l q -> seg (upd m (x.1 + offset f) v) prev p l q.
Proof. intros Ha. apply seg_upd. by eapply header_apart. Qed.

Lemma set_prev_head m prev p l v :
  seg m prev p l NULL -> arena l ->
  exists m', set_prev_if m p v = Some m' /\ seg m' v p l NULL /\ writes_in l m m'.
Proof.
  intros Hs Ha. unfold set_prev_if. destruct l as [|[a s] l].
  - simpl in Hs. subst p. exists m. split; [done|]. split; [done|apply writes_in_refl].
  - pose proof Ha as (Hb & _ & _)%arena_cons. destruct Hs as (-> & Hp & Hz & Hs).
    destruct (Z.eqb_spec a NULL) as [->|]; [destruct Hb; unfold NULL in *; simpl in *; lia|].
    change (st m a prev_buffer v) with (st m (a, s).1 prev_buffer v).
    eexists. split; [by apply st_blk|]. split; [|apply writes_in_upd; set_solver].
    simpl. rewrite upd_same, !upd_other by lia. repeat split; [done|].
    by apply (seg_upd_apart _ (a, s) prev_buffer).
Qed.

Lemma seg_set_next m prev p l x q v :
  seg m prev p (l ++ [x]) q -> arena (l ++ [x]) ->
  seg (upd m (x.1 + offset next_buffer) v) prev p (l ++ [x]) v.
Proof.
  intros (r & H1 & H2)%seg_app Ha. apply seg_app. exists r. split.
  - apply seg_upd_apart; [|done]. by rewrite <- (Permutation_app_comm l [x]).
  - destruct x as [a s]. destruct H2 as (-> & H2 & H3 & _). simpl.
    rewrite upd_same, !upd_other by lia. done.
Qed.

Lemma last_addr_snoc prev l x : last_addr prev (l ++ [x]) = x.1.
Proof. revert prev. induction l as [|y l IH]; intros prev; simpl; [done|apply IH]. Qed.

Lemma writes_in_incl l l' m m' : l ⊆ l' -> writes_in l m m' -> writes_in l' m m'.
Proof.
  intros Hi. apply writes_in_weaken. intros k (x & Hx & Hk). exists x. split; [by apply Hi|done].
Qed.

(** Reading a chain at the block in its middle. *)
Lemma seg_at m prev p l x l' q :
  seg m prev p (l ++ x :: l') q ->
  seg m prev p l x.1 /\ m (x.1 + offset prev_buffer) = last_addr prev l /\
  m (x.1 + offset buffer_size) = x.2 /\ seg m x.1 (m (x.1 + offset next_buffer)) l' q.
Proof. intros (r & H1 & H2)%seg_app. destruct x as [a s]. destruct H2 as (-> & ? & ? & ?). done. Qed.

Lemma arena_sub l l' : l ⊆+ l' -> arena l' -> arena l.
Proof. intros [k Hk]%submseteq_Permutation. rewrite Hk. by intros (? & _ & _)%arena_app. Qed.

(** Part of a known arena. *)
Ltac sub_arena H := refine (arena_sub _ _ _ H); solve_submseteq.

Lemma unhook_ok (m : memory) c l (y x : block) l' :
  seg m NULL c (l ++ y :: x :: l') NULL -> arena (l ++ y :: x :: l') ->
  exists m', unhook m x.1 = Some m' /\ seg m' NULL c (l ++ y :: l') NULL /\
    m' (x.1 + offset buffer_size) = x.2 /\ writes_in (l ++ y :: l') m m'.
Proof.
  intros Hs Ha. rewrite (cons_middle y l) in Hs. rewrite app_assoc in Hs.
  apply seg_at in Hs as (H1 & H2 & H3 & H4). rewrite last_addr_snoc in H2.
  assert (Hx : arena (x :: l ++ y :: l')) by sub_arena Ha.
  assert (Hy : arena (y :: x :: l ++ l')) by sub_arena Ha.
  assert (Hl : arena ((l ++ [y]) ++ l')) by sub_arena Ha.
  pose proof Hx as (Hbx & _ & _)%arena_cons. pose proof Hy as (Hby & _ & _)%arena_cons.
  set (n := m (x.1 + offset next_buffer)) in *.
  set (m1 := upd m (y.1 + offset next_buffer) n).
  assert (Hm1 : forall f, m1 (x.1 + offset f) = m (x.1 + offset f)).
  { intros f. unfold m1. rewrite upd_other; [done|]. intros E.
    apply (header_apart y (x :: l ++ l') (y.1 + offset next_buffer) next_buffer Hy); [done|].
    rewrite <- E. apply header_cons. left. pose proof (offset_range f). lia. }
  destruct (set_prev_head m1 x.1 n l' y.1) as (m2 & E2 & Hs2 & Hw2).
  { apply seg_upd_apart; [sub_arena Hy|done]. }
  { sub_arena Ha. }
  exists m2. unfold unhook.
  rewrite !ld_blk by done. cbn [mbind option_bind]. rewrite H2.
  rewrite st_blk by done. cbn [mbind option_bind]. fold n m1.
  rewrite !ld_blk by done. cbn [mbind option_bind]. rewrite !Hm1, H2. fold n.
  split; [done|]. split; [|split].
  - rewrite (cons_middle y l), app_assoc. apply seg_app. exists n. split.
    + eapply seg_writes; [exact Hw2| |by apply (seg_set_next m NULL c l y x.1); [|sub_arena Ha]].
      intros k. by apply arena_headers.
    + by rewrite last_addr_snoc.
  - rewrite Hw2, Hm1; [done|]. eapply header_apart; [sub_arena Hx|done].
  - eapply writes_in_trans; [|eapply writes_in_incl; [|exact Hw2]; set_solver].
    apply writes_in_upd. set_solver.
Qed.

(** ** Walking a chain *)

Lemma blk_nonnull x : blk x -> (x.1 =? NULL) = false.
Proof. intros []. unfold NULL. lia. Qed.

Lemma on_chain_ok fuel m prev p l ptr :
  seg m prev p l NULL -> Forall blk l -> (length l < fuel)%nat ->
  on_chain fuel m p ptr = Some (existsb (fun x => x.1 =? ptr) l).
Proof.
  revert prev p fuel. induction l as [|[a s] l IH]; intros prev p fuel Hs Hb Hf;
    (destruct fuel as [|fuel]; simpl in Hf; [lia|]); simpl.
  - simpl in Hs. subst p. done.
  - destruct Hs as (-> & _ & _ & Hs). apply Forall_cons_iff in Hb as [Ha Hb].
    pose proof (blk_nonnull _ Ha) as Hn. simpl in Hn. rewrite Hn.
    destruct (Z.eqb_spec a ptr); [done|].
    pose proof (ld_blk m _ next_buffer Ha) as Hl. simpl fst in Hl. rewrite Hl.
    cbn [mbind option_bind orb]. apply (IH a); [done|done|lia].
Qed.

(** The scan for the smallest sufficient buffer, on the list of blocks. *)
Fixpoint best_fit (l : list block) (n headroom candidate : Z) : Z * Z :=
  match l with
  | [] => (headroom, candidate)
  | (a, s) :: l =>
    if (n <=? s) && (s - n <? headroom) then best_fit l n (s - n) a
    else best_fit l n headroom candidate
  end.

Lemma scan_ok fuel m prev p l n h c :
  seg m prev p l NULL -> Forall blk l -> (length l < fuel)%nat -> 0 <= n ->
  scan fuel m p n h c = Some (best_fit l n h c).
Proof.
  revert prev p fuel h c. induction l as [|[a s] l IH]; intros prev p fuel h c Hs Hb Hf Hn;
    (destruct fuel as [|fuel]; simpl in Hf; [lia|]); simpl.
  - simpl in Hs. subst p. done.
  - destruct Hs as (-> & _ & Hz & Hs). apply Forall_cons_iff in Hb as [Ha Hb].
    pose proof (blk_nonnull _ Ha) as Hn'. simpl in Hn'. rewrite Hn'.
    pose proof (ld_blk m _ next_buffer Ha) as Hl. simpl fst in Hl.
    pose proof (ld_blk m _ buffer_size Ha) as Hl'. simpl fst in Hl'. rewrite Hl', Hz.
    cbn [mbind option_bind].
    assert (E : (n <=? s) && (u32 (s - n) <? h) = (n <=? s) && (s - n <? h)).
    { destruct (Z.leb_spec n s); simpl; [|done].
      rewrite wrap_id; [done|]. destruct Ha. unfold in_range. simpl in *. lia. }
    rewrite E. destruct ((n <=? s) && (s - n <? h)) eqn:Ec; rewrite Hl; cbn [mbind option_bind].
    + rewrite wrap_id by (destruct Ha; unfold in_range; simpl in *; lia).
      apply (IH a); [done|done|lia|done].
    + apply (IH a); [done|done|lia|done].
Qed.

Lemma best_fit_spec l n h c :
  (best_fit l n h c = (h, c) /\ Forall (fun x => n <= x.2 -> h <= x.2 - n) l) \/
  (exists l1 x l2, l = l1 ++ x :: l2 /\ best_fit l n h c = (x.2 - n, x.1) /\
    n <= x.2 /\ x.2 - n < h /\
    Forall (fun y => n <= y.2 -> x.2 < y.2) l1 /\ Forall (fun y => n <= y.2 -> x.2 <= y.2) l2).
Proof.
  revert h c. induction l as [|[a s] l IH]; intros h c; simpl; [by left|].
  destruct ((n <=? s) && (s - n <? h)) eqn:E.
  - right. destruct (IH (s - n) a) as [[-> Hl]|(l1 & x & l2 & -> & -> & Hx & Hxs & H1 & H2)].
    + exists [], (a, s), l. simpl. repeat split; try (done || lia || constructor).
      eapply Forall_impl; [|exact Hl]. simpl. lia.
    + exists ((a, s) :: l1), x, l2. repeat split; try (done || lia).
      constructor; [|done]. simpl. lia.
  - destruct (IH h c) as [[-> Hl]|(l1 & x & l2 & -> & -> & Hx & Hxs & H1 & H2)].
    + left. split; [done|]. constructor; [simpl; lia|done].
    + right. exists ((a, s) :: l1), x, l2. repeat split; try (done || lia).
      constructor; [simpl; lia|done].
Qed.

Lemma find_below_ok fuel m prev x l ptr :
  seg m prev x.1 (x :: l) NULL -> Forall blk (x :: l) -> (length l < fuel)%nat -> x.1 < ptr ->
  exists l1 y l2, x :: l = l1 ++ y :: l2 /\ find_below fuel m x.1 ptr = Some y.1 /\
    Forall (fun z => z.1 < ptr) (l1 ++ [y]) /\
    match l2 with [] => True | z :: _ => ptr <= z.1 end.
Proof.
  revert prev x fuel. induction l as [|z l IH]; intros prev [a s] fuel Hs Hb Hf Hx;
    (destruct fuel as [|fuel]; simpl in Hf; [lia|]).
  - destruct Hs as (_ & _ & _ & Hs). simpl in Hs. apply Forall_cons_iff in Hb as [Ha _].
    pose proof (ld_blk m _ next_buffer Ha) as Hl. simpl fst in Hl.
    exists [], (a, s), []. cbn [find_below fst]. rewrite Hl. cbn [mbind option_bind offset].
    rewrite Hs. repeat split. by repeat constructor.
  - destruct Hs as (_ & _ & _ & Hs). apply Forall_cons_iff in Hb as [Ha Hb].
    pose proof (ld_blk m _ next_buffer Ha) as Hl. simpl fst in Hl.
    assert (Hz : m (a + offset next_buffer) = z.1) by (destruct z; apply Hs).
    rewrite Hz in Hs, Hl. apply Forall_cons_iff in Hb as Hb'. destruct Hb' as [Hbz _].
    cbn [find_below fst]. rewrite Hl. cbn [mbind option_bind]. rewrite (blk_nonnull _ Hbz).
    simpl negb. destruct (Z.ltb_spec z.1 ptr); simpl andb.
    + destruct (IH a z fuel Hs Hb) as (l1 & y & l2 & E & E' & H1 & H2); [lia|done|].
      exists ((a, s) :: l1), y, l2. rewrite E. repeat split; try done. by constructor.
    + exists [], (a, s), (z :: l). split; [done|]. split; [done|]. split; [by constructor|done].
Qed.

Lemma max_free_ok fuel m prev p l k :
  seg m prev p l NULL -> Forall blk l -> (length l < fuel)%nat ->
  max_free fuel m p k = Some (foldl Z.max k (snd <$> l)).
Proof.
  revert prev p fuel k. induction l as [|[a s] l IH]; intros prev p fuel k Hs Hb Hf;
    (destruct fuel as [|fuel]; simpl in Hf; [lia|]); simpl.
  - simpl in Hs. subst p. done.
  - destruct Hs as (-> & _ & Hz & Hs). apply Forall_cons_iff in Hb as [Ha Hb].
    pose proof (blk_nonnull _ Ha) as Hn'. simpl in Hn'. rewrite Hn'.
    pose proof (ld_blk m _ next_buffer Ha) as Hl. simpl fst in Hl.
    pose proof (ld_blk m _ buffer_size Ha) as Hl'. simpl fst in Hl'. rewrite Hl', Hz.
    cbn [mbind option_bind]. rewrite Hl. cbn [mbind option_bind].
    replace (if k <? s then s else k) with (Z.max k s) by (destruct (Z.ltb_spec k s); lia).
    apply (IH a); [done|done|lia].
Qed.

(** ** Freeing, on the list of blocks *)

Lemma arena_merge x y l :
  x.1 + x.2 = y.1 -> arena (x :: y :: l) -> arena ((x.1, x.2 + y.2) :: l).
Proof.
  intros E (Hx & Hxl & Ha)%arena_cons. apply arena_cons in Ha as (Hy & Hyl & Ha).
  apply Forall_cons_iff in Hxl as [_ Hxl]. apply arena_cons. split; [|split; [|done]].
  - destruct Hx, Hy. unfold HDR in *. split; unfold HDR; simpl; first [lia|done].
  - rewrite list.Forall_forall in *. intros z Hz. specialize (Hxl z Hz). specialize (Hyl z Hz).
    pose proof (arena_blk _ _ Ha Hz) as []. destruct Hx, Hy.
    unfold apart, HDR in *. simpl. lia.
Qed.

Lemma cons_coalesce_arena x l k : arena (x :: l ++ k) -> arena (cons_coalesce x l ++ k).
Proof.
  destruct l as [|y l]; simpl; [done|]. destruct (Z.eqb_spec (x.1 + x.2) y.1) as [E|]; [|done].
  by apply arena_merge.
Qed.

Lemma insert_free_arena x l k : arena (x :: l ++ k) -> arena (insert_free x l ++ k).
Proof.
  revert k. induction l as [|y l IH]; intros k Ha; [done|]. cbn [insert_free].
  destruct (x.1 <? y.1); [by apply cons_coalesce_arena|].
  apply cons_coalesce_arena. rewrite (Permutation_middle (insert_free x l) k y).
  apply IH. sub_arena Ha.
Qed.

Lemma cons_coalesce_total x l : total (cons_coalesce x l) = x.2 + total l.
Proof. destruct l as [|y l]; simpl; [done|]. destruct (_ =? _); simpl; lia. Qed.

Lemma insert_free_total x l : total (insert_free x l) = x.2 + total l.
Proof.
  induction l as [|y l IH]; [done|]. cbn [insert_free].
  destruct (_ <? _); rewrite cons_coalesce_total; simpl; lia.
Qed.

Lemma covers_cons x l k : covers (x :: l) k <-> x.1 <= k < x.1 + x.2 \/ covers l k.
Proof.
  unfold covers. split.
  - intros (y & Hy & Hk). apply elem_of_cons in Hy as [->|Hy]; [by left|right; eauto].
  - intros [Hk|(y & Hy & Hk)]; [exists x|exists y]; (split; [set_solver|done]).
Qed.

Lemma cons_coalesce_covers x l k :
  Forall blk (x :: l) -> covers (cons_coalesce x l) k <-> covers (x :: l) k.
Proof.
  intros Hb. destruct l as [|y l]; simpl; [done|].
  destruct (Z.eqb_spec (x.1 + x.2) y.1) as [E|]; [|done].
  apply Forall_cons_iff in Hb as [Hx [Hy _]%Forall_cons_iff]. rewrite !covers_cons.
  destruct Hx, Hy. unfold HDR in *. simpl. split; intros [Hk|Hk]; try tauto; try lia.
  destruct Hk as [Hk|Hk]; [left; lia|by right].
Qed.

Lemma insert_free_blk x l : arena (x :: l) -> Forall blk (insert_free x l).
Proof.
  intros Ha. destruct (insert_free_arena x l []) as [H _]; [by rewrite app_nil_r|].
  by rewrite app_nil_r in H.
Qed.

Lemma insert_free_covers x l k : arena (x :: l) -> covers (insert_free x l) k <-> covers (x :: l) k.
Proof.
  induction l as [|y l IH]; intros Ha; [done|]. cbn [insert_free].
  destruct (x.1 <? y.1); rewrite cons_coalesce_covers.
  - done.
  - apply Ha.
  - rewrite covers_cons, IH by sub_arena Ha. rewrite !covers_cons. tauto.
  - constructor; [|apply insert_free_blk; sub_arena Ha].
    eapply arena_blk; [exact Ha|set_solver].
Qed.

Lemma cons_coalesce_head x l : exists s r, cons_coalesce x l = (x.1, s) :: r.
Proof. destruct x as [a s]. destruct l as [|y l]; simpl; [eauto|]. destruct (_ =? _); eauto. Qed.

Lemma insert_free_head x l :
  exists z r, insert_free x l = z :: r /\
    (z.1 = x.1 \/ exists y l', l = y :: l' /\ y.1 <= x.1 /\ z.1 = y.1).
Proof.
  destruct l as [|y l]; cbn [insert_free]; [eauto|].
  destruct (Z.ltb_spec x.1 y.1); [destruct (cons_coalesce_head x (y :: l)) as (s & r & ->)|
    destruct (cons_coalesce_head y (insert_free x l)) as (s & r & ->)]; eauto 10.
Qed.

Lemma cons_coalesce_coalesced x l :
  coalesced l -> Forall blk l -> match l with [] => True | y :: _ => x.1 + x.2 <= y.1 end ->
  coalesced (cons_coalesce x l).
Proof.
  destruct l as [|y l]; simpl; [done|]. intros [H1 H2] Hb Hx.
  destruct (Z.eqb_spec (x.1 + x.2) y.1) as [E|]; simpl.
  - split; [|done]. destruct l; simpl; [done|]. lia.
  - repeat split; [lia|done|done].
Qed.

Lemma insert_free_coalesced x l : arena (x :: l) -> coalesced l -> coalesced (insert_free x l).
Proof.
  induction l as [|y l IH]; intros Ha Hc; [done|]. cbn [insert_free].
  assert (Hxy : apart x y) by (eapply arena_apart; [exact Ha|set_solver]).
  pose proof (arena_blk _ x Ha ltac:(set_solver)) as Hx.
  pose proof (arena_blk _ y Ha ltac:(set_solver)) as Hy.
  destruct (Z.ltb_spec x.1 y.1).
  - apply cons_coalesce_coalesced; [done|apply (arena_sub (y :: l)) in Ha; [apply Ha|]|].
    { solve_submseteq. }
    destruct Hx, Hy. unfold apart, HDR in *. lia.
  - assert (Ha' : arena (x :: l)) by sub_arena Ha.
    apply cons_coalesce_coalesced; [apply IH; [done|apply Hc]|by apply insert_free_blk|].
    destruct (insert_free_head x l) as (z & r & -> & [E|(w & l' & -> & Hw & E)]); rewrite E.
    + destruct Hx, Hy. unfold apart, HDR in *. lia.
    + destruct Hc as [Hc _]. lia.
Qed.

Lemma insert_free_after l1 y l2 x :
  coalesced (l1 ++ y :: l2) -> Forall (fun z => z.1 < x.1) (l1 ++ [y]) ->
  match l2 with [] => True | z :: _ => x.1 < z.1 end ->
  insert_free x (l1 ++ y :: l2) = l1 ++ cons_coalesce y (cons_coalesce x l2).
Proof.
  intros Hc Hb H2. induction l1 as [|w l1 IH]; simpl.
  - apply Forall_cons_1 in Hb as [Hy _]. destruct (Z.ltb_spec x.1 y.1); [lia|]. f_equal.
    destruct l2 as [|z l2]; [done|]. cbn [insert_free]. by destruct (Z.ltb_spec x.1 z.1); [|lia].
  - apply Forall_cons_1 in Hb as [Hw Hb]. destruct (Z.ltb_spec x.1 w.1); [lia|].
    destruct Hc as [Hn Hc]. specialize (IH Hc Hb). rewrite IH.
    assert (Hh : exists z r, l1 ++ cons_coalesce y (cons_coalesce x l2) = z :: r /\
                             w.1 + w.2 <> z.1).
    { destruct l1 as [|v l1]; simpl in *.
      - destruct (cons_coalesce_head y (cons_coalesce x l2)) as (s & r & ->).
        exists (y.1, s), r. simpl. split; [done|lia].
      - exists v, (l1 ++ cons_coalesce y (cons_coalesce x l2)). split; [done|lia]. }
    destruct Hh as (z & r & -> & Hz). simpl. by destruct (Z.eqb_spec (w.1 + w.2) z.1).
Qed.

(** ** Freeing, in memory *)

Lemma seg_cons m prev p x l q :
  seg m prev p (x :: l) q <->
    p = x.1 /\ m (x.1 + offset prev_buffer) = prev /\ m (x.1 + offset buffer_size) = x.2 /\
    seg m x.1 (m (x.1 + offset next_buffer)) l q.
Proof. by destruct x. Qed.

Lemma relink m x n p l :
  seg m p n l NULL -> arena (x :: l) ->
  exists m', set_prev_if m n x.1 = Some m' /\ seg m' x.1 n l NULL /\ writes_in l m m' /\
    (forall f, m' (x.1 + offset f) = m (x.1 + offset f)).
Proof.
  intros Hs Ha. destruct (set_prev_head m p n l x.1 Hs) as (m' & E & Hs' & Hw).
  { by apply arena_cons in Ha as (_ & _ & ?). }
  exists m'. repeat split; [done|done|done|]. intros f. apply Hw. by eapply header_apart.
Qed.

(** Evaluate accesses to the headers of blocks of the arena. *)
Ltac access :=
  repeat (first [rewrite ld_blk by done | rewrite st_blk by done]; cbn [mbind option_bind]).

(** Read words after writes to other ones. *)
Ltac cells :=
  repeat first [rewrite upd_same | rewrite upd_other by (unfold offset, HDR in *; lia)].

Ltac wr := first
  [ apply writes_in_refl | apply writes_in_upd; set_solver
  | eapply writes_in_trans; [|apply writes_in_upd; set_solver]; wr ].

Lemma fold_front_ok m x z l :
  seg m NULL z.1 (z :: l) NULL -> arena (x :: z :: l) ->
  exists m', fold_front m z.1 x.1 x.2 = Some (m', x.1) /\
    seg m' NULL x.1 (cons_coalesce x (z :: l)) NULL /\ writes_in (x :: z :: l) m m'.
Proof.
  intros Hs Ha. pose proof (arena_blk _ x Ha ltac:(set_solver)) as Hx.
  pose proof (arena_blk _ z Ha ltac:(set_solver)) as Hz.
  pose proof (arena_apart _ _ z Ha ltac:(set_solver)) as Hxz. unfold apart in Hxz.
  assert (Hxl : arena (x :: l)) by sub_arena Ha.
  assert (Hzl : arena (z :: l)) by sub_arena Ha.
  pose proof Hx as [? ? ? _]. pose proof Hz as [? ? ? _].
  pose proof Hs as (_ & _ & Ez & Hl)%seg_cons.
  unfold fold_front. rewrite (wrap_id 32) by (unfold in_range, HDR in *; lia). simpl cons_coalesce.
  destruct (Z.eqb_spec (x.1 + x.2) z.1) as [E|E]; access.
  - rewrite Ez. rewrite wrap_id by (unfold in_range, HDR in *; lia). cells.
    set (n := m (z.1 + offset next_buffer)) in *.
    set (m1 := upd (upd m _ _) _ _).
    destruct (relink m1 x n z.1 l) as (m2 & E2 & Hs2 & Hw2 & Hx2); [|done|].
    { by apply (seg_upd_apart _ x next_buffer), (seg_upd_apart _ x buffer_size). }
    rewrite E2. cbn [mbind option_bind]. access. eexists. split; [done|]. split.
    + apply seg_cons. simpl fst. simpl snd. cells.
      rewrite !Hx2. unfold m1. cells. split; [done|]. split; [done|]. split; [lia|].
      by apply (seg_upd_apart _ x prev_buffer).
    + eapply writes_in_trans; [|apply writes_in_upd; set_solver].
      eapply writes_in_trans; [|eapply writes_in_incl; [|exact Hw2]; set_solver].
      unfold m1. wr.
  - cells. set (m1 := upd (upd m _ _) _ _).
    destruct (relink (upd m1 (z.1 + offset prev_buffer) x.1) x z.1 x.1 (z :: l))
      as (m2 & E2 & Hs2 & Hw2 & Hx2); [|done|].
    { apply seg_cons. unfold m1. cells. repeat split; [done|].
      apply (seg_upd_apart _ z prev_buffer); [done|].
      by apply (seg_upd_apart _ x next_buffer), (seg_upd_apart _ x buffer_size). }
    rewrite E2. cbn [mbind option_bind]. access. eexists. split; [done|]. split.
    + apply seg_cons. cells. rewrite !Hx2. unfold m1. cells. repeat split.
      by apply (seg_upd_apart _ x prev_buffer).
    + eapply writes_in_trans; [|apply writes_in_upd; set_solver].
      eapply writes_in_trans; [|eapply writes_in_incl; [|exact Hw2]; set_solver].
      unfold m1. wr.
Qed.

(** The end of the non-adjacent case: [x] is hung between [y] and its tail. *)
Lemma hang m p x y l s p0 :
  arena (x :: y :: l) -> m (y.1 + offset prev_buffer) = p -> m (y.1 + offset buffer_size) = y.2 ->
  m (x.1 + offset buffer_size) = s -> seg m p0 (m (x.1 + offset next_buffer)) l NULL ->
  exists m',
    (m ← st m x.1 prev_buffer y.1; m ← st m y.1 next_buffer x.1;
     n ← ld m x.1 next_buffer; set_prev_if m n x.1) = Some m' /\
    seg m' p y.1 (y :: (x.1, s) :: l) NULL /\ writes_in (x :: y :: l) m m'.
Proof.
  intros Ha Hp Hz Hs Hl.
  pose proof (arena_blk _ x Ha ltac:(set_solver)) as Hx.
  pose proof (arena_blk _ y Ha ltac:(set_solver)) as Hy.
  pose proof (arena_apart _ _ y Ha ltac:(set_solver)) as Hxy. unfold apart in Hxy.
  assert (Hxl : arena (x :: l)) by sub_arena Ha.
  assert (Hyl : arena (y :: l)) by sub_arena Ha.
  pose proof Hx as [? ? ? _]. pose proof Hy as [? ? ? _]. access. cells.
  set (n := m (x.1 + offset next_buffer)) in *. set (m1 := upd (upd m _ _) _ _).
  destruct (relink m1 x n p0 l) as (m2 & E2 & Hs2 & Hw2 & Hx2); [|done|].
  { by apply (seg_upd_apart _ y next_buffer), (seg_upd_apart _ x prev_buffer). }
  exists m2. split; [done|].
  assert (Hy2 : forall f, m2 (y.1 + offset f) = m1 (y.1 + offset f)).
  { intros f. apply Hw2. by eapply header_apart. }
  split.
  - apply seg_cons. rewrite !Hy2. unfold m1. cells.
    split; [done|]. split; [done|]. split; [done|].
    apply seg_cons. simpl fst. simpl snd. rewrite !Hx2. unfold m1. cells. done.
  - eapply writes_in_trans; [|eapply writes_in_incl; [|exact Hw2]; set_solver].
    unfold m1. wr.
Qed.

Lemma fold_after_below m p x y l :
  seg m p y.1 (y :: l) NULL -> arena (x :: y :: l) -> y.1 + y.2 = x.1 ->
  match l with [] => True | z :: _ => x.1 < z.1 end ->
  exists m', fold_after m y.1 x.1 x.2 = Some m' /\
    seg m' p y.1 (cons_coalesce y (cons_coalesce x l)) NULL /\ writes_in (x :: y :: l) m m'.
Proof.
  intros Hs Ha E Hl.
  pose proof (arena_blk _ x Ha ltac:(set_solver)) as Hx.
  pose proof (arena_blk _ y Ha ltac:(set_solver)) as Hy.
  assert (Hyl : arena (y :: l)) by sub_arena Ha.
  pose proof Hx as [? ? ? _]. pose proof Hy as [? ? ? _].
  pose proof Hs as (_ & Hp & Ey & Hsl)%seg_cons.
  unfold fold_after. access. rewrite Ey, !(wrap_id 32) by (unfold in_range, HDR in *; lia).
  destruct (Z.eqb_spec (y.1 + y.2) x.1) as [_|]; [|done]. access. cells.
  destruct l as [|z l].
  - simpl in Hsl. change (m (y.1 + offset next_buffer) = NULL) in Hsl. rewrite Hsl.
    destruct (Z.eqb_spec (x.1 + x.2) NULL); [unfold NULL, HDR in *; lia|].
    eexists. split; [done|]. simpl cons_coalesce.
    destruct (Z.eqb_spec (y.1 + y.2) x.1) as [_|]; [|done]. split; [|wr].
    apply seg_cons. simpl fst. simpl snd. cells. rewrite Hsl. done.
  - apply seg_cons in Hsl as (En & Hpz & Ez & Hsl). rewrite En in *.
    pose proof (arena_blk _ z Ha ltac:(set_solver)) as Hz. pose proof Hz as [? ? ? _].
    pose proof (arena_apart _ _ z Hyl ltac:(set_solver)) as Hyz. unfold apart in Hyz.
    simpl cons_coalesce. destruct (Z.eqb_spec (x.1 + x.2) z.1) as [E'|E'].
    + access. cells. rewrite Ez. rewrite !wrap_id by (unfold in_range, HDR in *; lia).
      rewrite En. access. cells.
      set (n := m (z.1 + offset next_buffer)) in *. set (m1 := upd (upd (upd m _ _) _ _) _ _).
      assert (Hyl' : arena (y :: l)) by sub_arena Ha.
      destruct (relink m1 y n z.1 l) as (m2 & E2 & Hs2 & Hw2 & Hx2); [|done|].
      { by apply (seg_upd_apart _ y next_buffer), (seg_upd_apart _ y buffer_size),
          (seg_upd_apart _ y buffer_size). }
      exists m2. split; [done|]. simpl cons_coalesce. simpl fst. simpl snd.
      destruct (Z.eqb_spec (y.1 + y.2) x.1) as [_|]; [|done]. split.
      * apply seg_cons. simpl fst. simpl snd. rewrite !Hx2. unfold m1. cells.
        split; [done|]. split; [done|]. split; [lia|done].
      * eapply writes_in_trans; [|eapply writes_in_incl; [|exact Hw2]; set_solver].
        unfold m1. wr.
    + eexists. split; [done|]. simpl cons_coalesce.
      destruct (Z.eqb_spec (y.1 + y.2) x.1) as [_|]; [|done]. split; [|wr].
      apply seg_cons. simpl fst. simpl snd. cells. rewrite En.
      split; [done|]. split; [done|]. split; [done|].
      apply (seg_upd_apart _ y buffer_size); [done|]. by apply seg_cons.
Qed.

Lemma fold_after_apart m p x y l :
  seg m p y.1 (y :: l) NULL -> arena (x :: y :: l) -> y.1 + y.2 <> x.1 ->
  match l with [] => True | z :: _ => y.1 + y.2 < z.1 /\ x.1 < z.1 end ->
  exists m', fold_after m y.1 x.1 x.2 = Some m' /\
    seg m' p y.1 (cons_coalesce y (cons_coalesce x l)) NULL /\ writes_in (x :: y :: l) m m'.
Proof.
  intros Hs Ha E Hl.
  pose proof (arena_blk _ x Ha ltac:(set_solver)) as Hx.
  pose proof (arena_blk _ y Ha ltac:(set_solver)) as Hy.
  pose proof (arena_apart _ _ y Ha ltac:(set_solver)) as Hxy. unfold apart in Hxy.
  pose proof Hx as [? ? ? _]. pose proof Hy as [? ? ? _].
  pose proof Hs as (_ & Hp & Ey & Hsl)%seg_cons.
  unfold fold_after. access. rewrite Ey, !(wrap_id 32) by (unfold in_range, HDR in *; lia).
  destruct (Z.eqb_spec (y.1 + y.2) x.1) as [|_]; [done|]. access.
  set (n := m (y.1 + offset next_buffer)) in *.
  assert (Hc : forall s l', cons_coalesce x l = (x.1, s) :: l' ->
                 cons_coalesce y (cons_coalesce x l) = y :: (x.1, s) :: l').
  { intros s l' ->. simpl. by destruct (Z.eqb_spec (y.1 + y.2) x.1). }
  destruct (Z.eqb_spec (x.1 + x.2) n) as [E'|E'].
  - destruct l as [|z l].
    { simpl in Hsl. unfold NULL, HDR in *. lia. }
    apply seg_cons in Hsl as (En & Hpz & Ez & Hsl). rewrite En in *.
    pose proof (arena_blk _ z Ha ltac:(set_solver)) as Hz. pose proof Hz as [? ? ? _].
    assert (Hxl : arena (x :: l)) by sub_arena Ha.
    assert (Ha' : arena (x :: y :: l)) by sub_arena Ha.
    access. rewrite Ez. rewrite !wrap_id by (unfold in_range, HDR in *; lia). cells.
    set (m1 := upd (upd m _ _) _ _).
    destruct (hang m1 p x y l (x.2 + z.2) z.1 Ha') as (m' & E2 & Hs' & Hw); unfold m1; cells;
      [done|done|done| |].
    { by apply (seg_upd_apart _ x next_buffer), (seg_upd_apart _ x buffer_size). }
    exists m'. split; [revert E2; unfold m1; access; cells; done|]. rewrite (Hc (x.2 + z.2) l).
    2:{ simpl. by destruct (Z.eqb_spec (x.1 + x.2) z.1). }
    split; [done|]. eapply writes_in_trans; [|eapply writes_in_incl; [|exact Hw]; set_solver].
    unfold m1. wr.
  - access. cells. set (m1 := upd (upd m _ _) _ _).
    assert (Hxl : arena (x :: l)) by sub_arena Ha.
    destruct (hang m1 p x y l x.2 y.1 Ha) as (m' & E2 & Hs' & Hw); unfold m1; cells;
      [done|done|done| |].
    { by apply (seg_upd_apart _ x buffer_size), (seg_upd_apart _ x next_buffer). }
    exists m'. split; [revert E2; unfold m1; access; cells; done|]. rewrite (Hc x.2 l).
    2:{ destruct x as [a s]. destruct l as [|z l]; [done|]. simpl.
        apply seg_cons in Hsl as (En & _). simpl in E'.
        destruct (Z.eqb_spec (a + s) z.1); [lia|done]. }
    split; [by destruct x|]. eapply writes_in_trans; [|eapply writes_in_incl; [|exact Hw]; set_solver].
    unfold m1. wr.
Qed.

Lemma fold_after_ok m p x y l :
  seg m p y.1 (y :: l) NULL -> arena (x :: y :: l) -> y.1 < x.1 -> coalesced (y :: l) ->
  match l with [] => True | z :: _ => x.1 < z.1 end ->
  exists m', fold_after m y.1 x.1 x.2 = Some m' /\
    seg m' p y.1 (cons_coalesce y (cons_coalesce x l)) NULL /\ writes_in (x :: y :: l) m m'.
Proof.
  intros Hs Ha Hlt [Hc _] Hl. destruct (Z.eq_dec (y.1 + y.2) x.1).
  - by apply fold_after_below.
  - apply fold_after_apart; [done|done|done|]. by destruct l.
Qed.

Lemma fold_in_ok m fc x l :
  seg m NULL fc l NULL -> m (x.1 + offset buffer_size) = x.2 -> arena (x :: l) ->
  coalesced l -> (length l < walk_fuel)%nat ->
  exists m' fc', fold_in m fc x.1 = Some (m', fc') /\
    seg m' NULL fc' (insert_free x l) NULL /\ writes_in (x :: l) m m'.
Proof.
  intros Hs Hz Ha Hc Hf. pose proof (arena_blk _ x Ha ltac:(set_solver)) as Hx.
  unfold fold_in. access. rewrite Hz. destruct l as [|z l].
  - simpl in Hs. rewrite Hs. simpl Z.eqb. cbv iota. access.
    eexists _, _. split; [done|]. split; [|wr]. cbn [insert_free].
    apply seg_cons. pose proof Hx as [? ? ? _]. cells. done.
  - pose proof Hs as (-> & _)%seg_cons.
    pose proof (arena_blk _ z Ha ltac:(set_solver)) as Hbz. rewrite (blk_nonnull z Hbz).
    destruct (Z.ltb_spec x.1 z.1) as [Hlt|Hge].
    + destruct (fold_front_ok m x z l Hs Ha) as (m' & E & Hs' & Hw).
      exists m', x.1. split; [done|]. split; [|done].
      cbn [insert_free]. by destruct (Z.ltb_spec x.1 z.1); [|lia].
    + pose proof (arena_apart _ _ z Ha ltac:(set_solver)) as Hxz.
      pose proof Ha as (_ & _ & Hal)%arena_cons.
      assert (Hlt : z.1 < x.1).
      { destruct Hx, Hbz. unfold apart, HDR in *. lia. }
      destruct (find_below_ok walk_fuel m NULL z l x.1 Hs) as (l1 & y & l2 & E & Ef & Hb & H2);
        [apply Hal|simpl in Hf; lia|done|].
      rewrite Ef. cbn [mbind option_bind]. rewrite E in *.
      apply seg_app in Hs as (r & Hs1 & Hs2). pose proof Hs2 as (-> & _)%seg_cons.
      assert (Ha2 : arena (x :: y :: l2)) by sub_arena Ha.
      assert (H2' : match l2 with [] => True | w :: _ => x.1 < w.1 end).
      { destruct l2 as [|w l2]; [done|].
        pose proof (arena_apart _ _ w Ha2 ltac:(set_solver)) as Hxw.
        pose proof (arena_blk _ w Ha2 ltac:(set_solver)) as Hw.
        destruct Hx, Hw. unfold apart, HDR in *. lia. }
      destruct (fold_after_ok m (last_addr NULL l1) x y l2) as (m' & E' & Hs' & Hw);
        [done|done| |by apply coalesced_app in Hc as []|done|].
      { apply Forall_app in Hb as [_ Hb]. by apply Forall_cons_1 in Hb as []. }
      rewrite E'. cbn [mbind option_bind]. exists m', z.1. split; [done|]. split.
      * rewrite insert_free_after by done. apply seg_app. exists y.1. split; [|done].
        eapply seg_writes; [exact Hw| |done]. intros k Hk.
        by apply (arena_headers l1 (x :: y :: l2)); [sub_arena Ha|].
      * eapply writes_in_incl; [|exact Hw]. set_solver.
Qed.

(** ** Releasing *)

Lemma length_free h free alloc :
  heap_ok h free alloc ->
  (length free < walk_fuel)%nat /\ (length alloc < walk_fuel)%nat.
Proof.
  intros [_ _ [Hb _] _ Ht]. rewrite total_app in Ht. apply Forall_app in Hb as [H1 H2].
  pose proof (total_length _ H1). pose proof (total_length _ H2).
  pose proof (total_nonneg _ H1). pose proof (total_nonneg _ H2). unfold walk_fuel. lia.
Qed.

Lemma unlink_ok m c l x l' :
  seg m NULL c (l ++ x :: l') NULL -> arena (l ++ x :: l') -> (length (l ++ x :: l') < walk_fuel)%nat ->
  exists m' c', unlink m c x.1 = Some (Some (m', c')) /\
    seg m' NULL c' (l ++ l') NULL /\ m' (x.1 + offset buffer_size) = x.2 /\
    writes_in (l ++ l') m m'.
Proof.
  intros Hs Ha Hf. assert (Hxa : arena (x :: l ++ l')) by sub_arena Ha.
  pose proof (arena_blk _ x Hxa ltac:(set_solver)) as Hx. unfold unlink.
  destruct l as [|w l _] using rev_ind.
  - simpl in Hs, Ha, Hxa. apply seg_cons in Hs as (-> & Hp & Hz & Hs). rewrite Z.eqb_refl. access.
    destruct (set_prev_head m x.1 _ l' NULL Hs) as (m' & E & Hs' & Hw).
    { by apply arena_cons in Ha as (_ & _ & ?). }
    rewrite E. cbn [mbind option_bind]. access. eexists _, _. split; [done|].
    rewrite !Hw by (by eapply header_apart). done.
  - assert (Hy : exists v t, l ++ [w] = v :: t) by (destruct l; simpl; eauto).
    destruct Hy as (v & t & E). rewrite E in Hs, Ha, Hf. simpl app in *.
    pose proof Hs as (-> & _ & _ & Hst)%seg_cons.
    assert (Hvx : apart x v) by (apply (arena_apart _ _ _ Hxa); rewrite E; set_solver).
    pose proof (arena_blk _ v Ha ltac:(set_solver)) as Hv.
    destruct (Z.eqb_spec x.1 v.1) as [Exv|_].
    { destruct Hx, Hv. unfold apart, HDR in *. lia. }
    access. rewrite (on_chain_ok _ _ v.1 _ (t ++ x :: l')); [|done| |].
    + assert (Ef : existsb (fun z => z.1 =? x.1) (t ++ x :: l') = true).
      { rewrite existsb_app. simpl. rewrite Z.eqb_refl. simpl. by rewrite orb_true_r. }
      rewrite Ef. cbn [mbind option_bind negb].
      destruct (unhook_ok m v.1 l w x l') as (m' & E' & Hs' & Hz' & Hw').
      { by rewrite (cons_middle w l), app_assoc, E. }
      { by rewrite (cons_middle w l), app_assoc, E. }
      rewrite E'. cbn [mbind option_bind]. eexists _, _. split; [done|].
      rewrite <- app_assoc. done.
    + by apply arena_cons in Ha as (_ & _ & [? _]).
    + simpl in Hf. lia.
Qed.

Lemma arena_pair l x y : arena l -> x ∈ l -> y ∈ l -> x = y \/ apart x y.
Proof.
  intros Ha [k Hk]%elem_of_Permutation Hy. rewrite Hk in Ha, Hy.
  apply elem_of_cons in Hy as [->|Hy]; [by left|right]. by eapply arena_apart.
Qed.

(** Clients' bytes are not header bytes. *)
Lemma payload_not_header l l' k : arena l -> l' ⊆ l -> payload_of l' k -> ~ header_of l k.
Proof.
  intros Ha Hi (x & Hx & Hk) (y & Hy & Hk').
  destruct (arena_pair l x y Ha (Hi _ Hx) Hy) as [->|Hxy]; [lia|].
  pose proof (arena_blk _ _ Ha (Hi _ Hx)) as []. pose proof (arena_blk _ _ Ha Hy) as [].
  unfold apart in Hxy. lia.
Qed.

Lemma do_release_ok h free l x l' :
  heap_ok h free (l ++ x :: l') ->
  exists h', do_release h x.1 = Some h' /\ heap_ok h' (insert_free x free) (l ++ l') /\
    max_allocated_size h' = max_allocated_size h /\
    writes_in (free ++ l ++ x :: l') (mem h) (mem h').
Proof.
  intros Hok. destruct (length_free _ _ _ Hok) as [Hlf Hla]. destruct Hok as [Hf Hal Ha Hc Ht].
  pose proof Ha as (Haf & Haa & _)%arena_app.
  destruct (unlink_ok _ _ _ _ _ Hal Haa Hla) as (m1 & ac & E1 & Hs1 & Hz1 & Hw1).
  unfold do_release. rewrite E1. cbn [mbind option_bind].
  destruct (fold_in_ok m1 (free_buf_chain h) x free) as (m2 & fc & E2 & Hs2 & Hw2);
    [|done|sub_arena Ha|done|done|].
  { eapply seg_writes; [exact Hw1| |done]. intros k. apply arena_headers. sub_arena Ha. }
  rewrite E2. cbn [mbind option_bind]. eexists. split; [done|]. split; [split|split]; simpl.
  - done.
  - eapply seg_writes; [exact Hw2| |done]. intros k. apply arena_headers. sub_arena Ha.
  - apply insert_free_arena. sub_arena Ha.
  - apply insert_free_coalesced; [sub_arena Ha|done].
  - rewrite total_app, insert_free_total, <- Ht, !total_app. simpl. lia.
  - done.
  - eapply writes_in_trans; eapply writes_in_incl; [|exact Hw1| |exact Hw2]; set_solver.
Qed.

(** A heap with nothing allocated is one free buffer. *)
Lemma all_free_single l :
  Forall blk l -> coalesced l -> total l = ram_end - base -> base < ram_end ->
  l = [(base, ram_end - base)].
Proof.
  intros Hb Hc Ht Hlt.
  assert (H : forall x l, Forall blk (x :: l) -> coalesced (x :: l) ->
    total (x :: l) <= ram_end - x.1 /\ (l <> [] -> total (x :: l) < ram_end - x.1)).
  { clear. intros x l. revert x. induction l as [|y l IH]; intros x Hb Hc.
    - apply Forall_cons_1 in Hb as [[] _]. simpl. split; [lia|done].
    - apply Forall_cons_iff in Hb as [Hx Hb]. destruct Hc as [Hxy Hc].
      destruct (IH y Hb Hc) as [H _]. destruct Hx. simpl in *. split; intros; lia. }
  destruct l as [|x l]; [simpl in Ht; lia|]. destruct (H x l Hb Hc) as [H1 H2].
  apply Forall_cons_1 in Hb as [[] _]. destruct l as [|y l].
  - simpl in *. destruct x as [a s]. simpl in *. do 2 f_equal; lia.
  - specialize (H2 ltac:(done)). lia.
Qed.

(** ** Acquiring *)

Lemma gross_size_eq size :
  0 <= size < 2 ^ 31 -> gross_size size = (size + 3) / 4 * 4 + HDR.
Proof.
  intros Hs. unfold gross_size, HDR.
  rewrite (wrap_id 32 (size + 4 - 1)) by (unfold in_range; lia).
  assert (E : Z.land (size + 4 - 1) (u32 (-4)) = (size + 3) / 4 * 4).
  { replace (size + 4 - 1) with (size + 3) by lia. apply Z.bits_inj'. intros i Hi.
    change (u32 (-4)) with (Z.shiftl (Z.ones 30) 2). rewrite Z.land_spec.
    change 4 with (2 ^ 2). rewrite <- Z.shiftr_div_pow2, <- Z.shiftl_mul_pow2 by lia.
    rewrite !Z.shiftl_spec by lia. destruct (Z.lt_ge_cases i 2) as [Hlt|Hge].
    - rewrite !(Z.testbit_neg_r _ (i - 2)) by lia. by rewrite andb_false_r.
    - rewrite Z.shiftr_spec by lia. replace (i - 2 + 2) with i by lia.
      destruct (Z.lt_ge_cases (i - 2) 30).
      + rewrite Z.ones_spec_low by lia. by rewrite andb_true_r.
      + rewrite Z.ones_spec_high by lia. rewrite andb_false_r. symmetry.
        apply (bits_above 32); [lia|]. unfold in_range. lia. }
  rewrite E. apply wrap_id. unfold in_range. divlia.
Qed.

(** Splitting a block in two. *)
Lemma arena_split x n l :
  HDR <= n -> n + HDR <= x.2 -> (4 | n) -> arena (x :: l) ->
  arena ((x.1, n) :: (x.1 + n, x.2 - n) :: l).
Proof.
  intros Hn Hn' Hd Ha. pose proof (arena_blk _ x Ha ltac:(set_solver)) as Hx.
  apply arena_cons in Ha as (_ & Hxl & Ha). rewrite list.Forall_forall in Hxl.
  apply arena_cons. split; [|split; [constructor|apply arena_cons; split; [|split; [|done]]]].
  - destruct Hx. unfold HDR in *. split; unfold HDR; simpl; first [lia|done].
  - unfold apart. simpl. lia.
  - apply list.Forall_forall. intros z Hz. specialize (Hxl z Hz).
    unfold apart, HDR in *. simpl. lia.
  - destruct Hx. unfold HDR in *. split; unfold HDR; simpl; try lia.
    by apply Z.divide_add_r.
  - apply list.Forall_forall. intros z Hz. specialize (Hxl z Hz).
    unfold apart, HDR in *. simpl. lia.
Qed.

Lemma coalesced_remove l1 x l2 : Forall blk (l1 ++ x :: l2) ->
  coalesced (l1 ++ x :: l2) -> coalesced (l1 ++ l2).
Proof.
  induction l1 as [|w l1 IH]; simpl; [by intros _ [_ ?]|]. intros Hb [H1 H2].
  apply Forall_cons_iff in Hb as [_ Hb]. split; [|by apply IH].
  destruct l1 as [|v l1]; simpl in *; [|done]. destruct l2 as [|z l2]; [done|].
  apply Forall_cons_1 in Hb as [[] _]. unfold HDR in *. lia.
Qed.

Lemma coalesced_shrink l1 x n l2 :
  0 <= n -> coalesced (l1 ++ x :: l2) -> coalesced (l1 ++ (x.1 + n, x.2 - n) :: l2).
Proof.
  intros Hn. induction l1 as [|w l1 IH]; simpl.
  - intros [H1 H2]. split; [|done]. destruct l2; [done|]. lia.
  - intros [H1 H2]. split; [|by apply IH]. destruct l1 as [|v l1]; simpl in *; lia.
Qed.

Lemma take_whole_ok m c l1 x l2 :
  seg m NULL c (l1 ++ x :: l2) NULL -> arena (l1 ++ x :: l2) ->
  exists m' c', take_whole m c x.1 = Some (m', c') /\ seg m' NULL c' (l1 ++ l2) NULL /\
    m' (x.1 + offset buffer_size) = x.2 /\ writes_in (l1 ++ x :: l2) m m'.
Proof.
  intros Hs Ha. pose proof (arena_blk _ x Ha ltac:(set_solver)) as Hx. unfold take_whole.
  destruct l1 as [|w l1 _] using rev_ind; simpl app in *.
  - apply seg_cons in Hs as (-> & _ & Hz & Hs). rewrite Z.eqb_refl. access.
    destruct (set_prev_head m x.1 _ l2 0 Hs) as (m' & E & Hs' & Hw).
    { by apply arena_cons in Ha as (_ & _ & ?). }
    rewrite E. cbn [mbind option_bind]. eexists _, _. split; [done|].
    rewrite Hw by (by eapply header_apart). repeat split; [done|done|].
    eapply writes_in_incl; [|exact Hw]. set_solver.
  - assert (Hc : x.1 <> c).
    { assert (Hv : exists v, v ∈ l1 ++ [w] /\ c = v.1).
      { destruct l1 as [|v l1]; simpl app in *; apply seg_cons in Hs as (-> & _);
          eexists; (split; [|done]); set_solver. }
      destruct Hv as (v & Hv & ->).
      assert (Hxv : arena (x :: (l1 ++ [w]) ++ l2)) by sub_arena Ha.
      pose proof (arena_apart _ _ v Hxv ltac:(set_solver)) as Hap.
      pose proof (arena_blk _ v Hxv ltac:(set_solver)) as [].
      destruct Hx. unfold apart, HDR in *. lia. }
    destruct (Z.eqb_spec x.1 c); [done|]. rewrite <- app_assoc in *. simpl app in *.
    destruct (unhook_ok m c l1 w x l2 Hs Ha) as (m' & E & Hs' & Hz & Hw).
    rewrite E. cbn [mbind option_bind]. eexists _, _. repeat split; [done|done|].
    eapply writes_in_incl; [|exact Hw]. set_solver.
Qed.

Lemma split_ok m c l1 x l2 n :
  seg m NULL c (l1 ++ x :: l2) NULL -> arena (l1 ++ x :: l2) ->
  HDR <= n -> n + HDR < x.2 -> (4 | n) ->
  exists m' c', split m c x.1 n (x.2 - n) = Some (m', c') /\
    seg m' NULL c' (l1 ++ (x.1 + n, x.2 - n) :: l2) NULL /\
    m' (x.1 + offset buffer_size) = n /\
    writes_in ((x.1, n) :: (x.1 + n, x.2 - n) :: l1 ++ l2) m m'.
Proof.
  intros Hs Ha Hn Hn' Hd.
  assert (Hsp : arena ((x.1, n) :: (x.1 + n, x.2 - n) :: l1 ++ l2))
    by (apply arena_split; [done|lia|done|sub_arena Ha]).
  pose proof (arena_blk _ x Ha ltac:(set_solver)) as Hx. pose proof Hx as [? ? ? _].
  pose proof (arena_blk _ (x.1 + n, x.2 - n) Hsp ltac:(set_solver)) as Ht.
  apply seg_at in Hs as (H1 & Hp & Hz & H2).
  assert (Hxo : forall f v, upd m (x.1 + offset f) v = upd m ((x.1, n).1 + offset f) v) by done.
  assert (Hu : u32 (x.1 + n) = x.1 + n) by (apply wrap_id; unfold in_range, HDR in *; lia).
  unfold split. rewrite Hu. remember (x.1 + n, x.2 - n) as t eqn:Et.
  assert (E1 : x.1 + n = t.1) by (by subst t).
  assert (E2 : x.2 - n = t.2) by (by subst t). rewrite E1, E2. clear Et. access. cells.
  set (N := m (x.1 + offset next_buffer)) in *. set (m1 := upd (upd (upd (upd m _ _) _ _) _ _) _ _).
  assert (Hone : forall p0 q l r, l ⊆+ l1 ++ l2 -> seg m p0 q l r -> seg m1 p0 q l r).
  { intros p0 q l r Hl Hseg. unfold m1.
    assert (Hxl : arena ((x.1, n) :: l)) by (refine (arena_sub _ _ _ Hsp); by do 2 constructor).
    assert (Htl : arena (t :: l)) by (refine (arena_sub _ _ _ Hsp); by do 2 constructor).
    do 3 (apply (seg_upd_apart _ t); [done|]). by apply (seg_upd_apart _ (x.1, n) buffer_size). }
  destruct (relink m1 t N x.1 l2) as (m2 & E3 & Hs2 & Hw2 & Ht2).
  { apply Hone; [solve_submseteq|done]. }
  { sub_arena Hsp. }
  rewrite E3. cbn [mbind option_bind].
  assert (Hx2 : m2 (x.1 + offset buffer_size) = n).
  { rewrite Hw2 by (eapply (header_apart (x.1, n)); [sub_arena Hsp|done]).
    unfold m1. by cells. }
  assert (Hw : writes_in ((x.1, n) :: t :: l1 ++ l2) m m2).
  { eapply writes_in_trans; [|eapply writes_in_incl; [|exact Hw2]; set_solver].
    unfold m1. rewrite Hxo. wr. }
  assert (Htn : m2 (t.1 + offset next_buffer) = N) by (rewrite Ht2; unfold m1; by cells).
  assert (Htp : m2 (t.1 + offset prev_buffer) = last_addr NULL l1)
    by (rewrite Ht2; unfold m1; by cells).
  assert (Hts : m2 (t.1 + offset buffer_size) = t.2) by (rewrite Ht2; unfold m1; by cells).
  destruct l1 as [|w l1 _] using rev_ind; simpl app in *.
  - simpl in H1. subst c. rewrite Z.eqb_refl. eexists _, _. split; [done|]. split; [|done].
    apply seg_cons. rewrite Htn. done.
  - destruct (Z.eqb_spec x.1 c) as [Ec|_].
    { exfalso. apply (arena_headers (l1 ++ [w]) (x :: l2) c Ha).
      - destruct l1 as [|v l1]; simpl app in *; apply seg_cons in H1 as (-> & _);
          (apply header_cons; left; unfold HDR; lia).
      - apply header_cons. left. unfold HDR. lia. }
    rewrite last_addr_snoc in *. access. rewrite Htp.
    pose proof (arena_blk _ w Ha ltac:(set_solver)) as Hbw. access.
    eexists _, _. split; [done|]. split; [|split].
    + apply seg_app. exists t.1. split.
      * apply (seg_set_next m2 NULL c l1 w x.1); [|sub_arena Hsp].
        eapply seg_writes; [exact Hw2| |apply Hone; [solve_submseteq|done]].
        intros k. apply arena_headers. sub_arena Hsp.
      * rewrite last_addr_snoc. apply (seg_upd_apart _ w next_buffer); [sub_arena Hsp|].
        apply seg_cons. rewrite Htn. done.
    + rewrite upd_other; [done|]. intros E.
      apply (header_apart (x.1, n) [w] (x.1 + offset buffer_size) buffer_size);
        [sub_arena Hsp|done|]. apply header_cons. left. rewrite E. unfold HDR, offset. lia.
    + eapply writes_in_trans; [exact Hw|]. apply writes_in_upd. set_solver.
Qed.

(** A buffer out of the free chain goes to the front of the allocated chain. *)
Lemma push_ok m fc ac free alloc x mx :
  seg m NULL fc free NULL -> seg m NULL ac alloc NULL -> m (x.1 + offset buffer_size) = x.2 ->
  arena (x :: free ++ alloc) -> coalesced free -> total (x :: free ++ alloc) = ram_end - base ->
  exists m',
    (m ← st m x.1 next_buffer ac; m ← st m x.1 prev_buffer NULL; set_prev_if m ac x.1) = Some m' /\
    heap_ok (Heap m' fc x.1 mx) free (x :: alloc) /\ writes_in (x :: alloc) m m'.
Proof.
  intros Hf Hal Hz Ha Hc Ht. pose proof (arena_blk _ x Ha ltac:(set_solver)) as Hx.
  assert (Hxf : arena (x :: free)) by sub_arena Ha.
  assert (Hxa : arena (x :: alloc)) by sub_arena Ha.
  access. set (m1 := upd (upd m _ _) _ _).
  destruct (relink m1 x ac NULL alloc) as (m2 & E & Hs2 & Hw2 & Hx2); [|done|].
  { by apply (seg_upd_apart _ x prev_buffer), (seg_upd_apart _ x next_buffer). }
  exists m2. split; [done|]. split; [split; simpl mem|].
  - eapply seg_writes; [exact Hw2|intros k; apply arena_headers; sub_arena Ha|].
    by apply (seg_upd_apart _ x prev_buffer), (seg_upd_apart _ x next_buffer).
  - apply seg_cons. rewrite !Hx2. unfold m1. pose proof Hx as [? ? ? _]. cells. done.
  - by rewrite <- Permutation_middle.
  - done.
  - by rewrite <- Permutation_middle.
  - eapply writes_in_trans; [|eapply writes_in_incl; [|exact Hw2]; set_solver].
    unfold m1. wr.
Qed.

Lemma base_lt_end h free alloc : heap_ok h free alloc -> forall x, x ∈ free ++ alloc -> x.2 < 2 ^ 28.
Proof.
  intros [_ _ Ha _ _] x Hx. pose proof (arena_blk _ _ Ha Hx) as []. lia.
Qed.

(** What the free and allocated lists become when [x] is given out. *)
Definition given (x : block) (n : Z) : block := if x.2 - n <=? HDR then x else (x.1, n).
Definition left_over (x : block) (n : Z) : list block :=
  if x.2 - n <=? HDR then [] else [(x.1 + n, x.2 - n)].

Lemma acquire_ok h l1 x l2 alloc size :
  heap_ok h (l1 ++ x :: l2) alloc -> 0 <= size < 2 ^ 31 ->
  let n := (size + 3) / 4 * 4 + HDR in
  best_fit (l1 ++ x :: l2) n 0x10000000 NULL = (x.2 - n, x.1) -> n <= x.2 ->
  exists h', shared_mem_acquire false size h = Some (EC_SUCCESS, x.1 + HDR, h') /\
    heap_ok h' (l1 ++ left_over x n ++ l2) (given x n :: alloc) /\
    max_allocated_size h' = Z.max (max_allocated_size h) size /\
    writes_in ((x.1, n) :: left_over x n ++ l1 ++ x :: l2 ++ alloc) (mem h) (mem h').
Proof.
  intros Hok Hsz n Hbf Hn. destruct (length_free _ _ _ Hok) as [Hlf _].
  destruct Hok as [Hf Hal Ha Hc Ht]. pose proof Ha as (Haf & Haa & _)%arena_app.
  assert (Hn0 : HDR <= n) by (unfold n; divlia).
  assert (Hn4 : (4 | n)).
  { unfold n, HDR. apply Z.divide_add_r; [apply Z.divide_factor_r|by exists 3]. }
  pose proof (arena_blk _ x Haf ltac:(set_solver)) as Hx.
  unfold shared_mem_acquire, do_acquire. rewrite gross_size_eq by done. fold n.
  assert (Hfc : (free_buf_chain h =? NULL) = false).
  { destruct l1 as [|w l1]; simpl app in *; apply seg_cons in Hf as (-> & _);
      apply blk_nonnull; eapply arena_blk; [exact Haf|set_solver|exact Haf|set_solver]. }
  rewrite Hfc. rewrite (scan_ok _ _ NULL _ _ _ _ _ Hf) by (apply Haf || done || (unfold HDR in *; lia)).
  cbn [mbind option_bind]. rewrite Hbf, (blk_nonnull _ Hx).
  assert (Hmax : (if max_allocated_size h <? size then size else max_allocated_size h) =
                 Z.max (max_allocated_size h) size)
    by (destruct (Z.ltb_spec (max_allocated_size h) size); lia).
  unfold given, left_over. destruct (Z.leb_spec (x.2 - n) HDR) as [Hle|Hgt].
  - destruct (take_whole_ok _ _ _ _ _ Hf Haf) as (m1 & fc & E1 & Hs1 & Hz1 & Hw1).
    rewrite E1. cbn [mbind option_bind]. rewrite decide_True by done. simpl app.
    destruct (push_ok m1 fc (allocced_buf_chain h) (l1 ++ l2) alloc x
               (Z.max (max_allocated_size h) size)) as (m2 & E2 & Hok2 & Hw2); [done| |done| | | |].
    { eapply seg_writes; [exact Hw1| |done]. intros k. apply arena_headers. sub_arena Ha. }
    { sub_arena Ha. }
    { eapply coalesced_remove; [|exact Hc]. apply Haf. }
    { rewrite <- Ht. simpl. rewrite !total_app. simpl. lia. }
    revert E2. access. intros E2. rewrite E2. cbn [mbind option_bind]. rewrite Hmax.
    eexists. split; [done|]. split; [done|]. split; [done|].
    eapply writes_in_trans; eapply writes_in_incl; [|exact Hw1| |exact Hw2]; set_solver.
  - destruct (split_ok _ _ _ _ _ n Hf Haf) as (m1 & fc & E1 & Hs1 & Hz1 & Hw1);
      [done|lia|done|].
    rewrite E1. cbn [mbind option_bind]. rewrite decide_True by done.
    assert (Hsp : arena ((x.1, n) :: (x.1 + n, x.2 - n) :: (l1 ++ l2) ++ alloc))
      by (apply arena_split; [done|lia|done|sub_arena Ha]).
    destruct (push_ok m1 fc (allocced_buf_chain h) (l1 ++ (x.1 + n, x.2 - n) :: l2) alloc (x.1, n)
               (Z.max (max_allocated_size h) size)) as (m2 & E2 & Hok2 & Hw2); [done| |done| | | |].
    { eapply seg_writes; [exact Hw1| |done]. intros k. apply arena_headers. sub_arena Hsp. }
    { sub_arena Hsp. }
    { apply coalesced_shrink; [unfold HDR in *; lia|done]. }
    { rewrite <- Ht. simpl. rewrite !total_app. simpl. lia. }
    revert E2. simpl fst. access. intros E2. rewrite E2. cbn [mbind option_bind]. rewrite Hmax.
    eexists. split; [done|]. split; [done|]. split; [done|].
    eapply writes_in_trans; eapply writes_in_incl; [|exact Hw1| |exact Hw2]; set_solver.
Qed.

Lemma heap_init_ok m :
  base + HDR <= ram_end -> (4 | base) ->
  exists h, shared_mem_init m = Some h /\ heap_ok h [(base, ram_end - base)] [].
Proof.
  intros He Hd. set (x := (base, ram_end - base)).
  assert (Hx : blk x) by (unfold HDR in *; split; unfold HDR; simpl; first [lia|done]).
  assert (Hst : forall m f v, st m base f v = Some (upd m (base + offset f) v))
    by (intros; by apply (st_blk _ x)).
  unfold shared_mem_init. rewrite wrap_id by (unfold in_range, HDR in *; lia).
  do 3 (rewrite Hst; cbn [mbind option_bind]). eexists. split; [done|]. split; simpl mem; simpl app.
  - apply seg_cons. cbn [fst snd x free_buf_chain]. cells. done.
  - done.
  - apply arena_cons. split; [done|]. split; [constructor|]. split; [constructor|done].
  - done.
  - simpl. lia.
Qed.

Lemma foldl_max_le k l : k <= foldl Z.max k l /\ Forall (fun y => y <= foldl Z.max k l) l.
Proof.
  revert k. induction l as [|y l IH]; intros k; simpl; [split; [lia|constructor]|].
  destruct (IH (Z.max k y)) as [H1 H2]. split; [lia|]. constructor; [lia|done].
Qed.

Lemma foldl_max_in k l : foldl Z.max k l = k \/ foldl Z.max k l ∈ l.
Proof.
  revert k. induction l as [|y l IH]; intros k; simpl; [by left|].
  destruct (IH (Z.max k y)) as [E|E]; [|right; set_solver]. rewrite E.
  destruct (Z.max_spec k y) as [[_ ->]|[_ ->]]; [right; set_solver|by left].
Qed.

Lemma shared_mem_size_ok h free alloc :
  heap_ok h free alloc -> shared_mem_size h = Some (foldl Z.max 0 (snd <$> free) - HDR).
Proof.
  intros Hok. destruct (length_free _ _ _ Hok) as [Hl _]. pose proof (base_lt_end _ _ _ Hok) as Hlt.
  destruct Hok as [Hf _ Ha _ _]. apply arena_app in Ha as (Ha & _ & _). unfold shared_mem_size.
  rewrite (max_free_ok _ _ NULL _ free) by (done || apply Ha). cbn [mbind option_bind]. f_equal.
  assert (Hr : 0 <= foldl Z.max 0 (snd <$> free) < 2 ^ 28).
  { split; [apply foldl_max_le|].
    destruct (foldl_max_in 0 (snd <$> free)) as [->|(x & -> & Hx)%list_elem_of_fmap]; [lia|].
    apply Hlt. set_solver. }
  unfold s32, wrap, swrap, HDR. divlia.
Qed.

Lemma none_fits (free : list block) n :
  foldl Z.max 0 (snd <$> free) < n -> Forall (fun y => y.2 < n) free.
Proof.
  intros Hlt. destruct (foldl_max_le 0 (snd <$> free)) as [_ H]. rewrite Forall_fmap in H.
  eapply Forall_impl; [|exact H]. simpl. lia.
Qed.

Lemma acquire_busy h free alloc size :
  heap_ok h free alloc -> 0 <= size < 2 ^ 31 ->
  Forall (fun y => y.2 < (size + 3) / 4 * 4 + HDR) free ->
  shared_mem_acquire false size h = Some (EC_ERROR_BUSY, NULL, h).
Proof.
  intros Hok Hsz Hn. destruct (length_free _ _ _ Hok) as [Hl _].
  destruct Hok as [Hf _ Ha _ _]. apply arena_app in Ha as (Ha & _ & _).
  unfold shared_mem_acquire, do_acquire. rewrite gross_size_eq by done.
  set (n := (size + 3) / 4 * 4 + HDR) in *. destruct (free_buf_chain h =? NULL); [done|].
  rewrite (scan_ok _ _ NULL _ free) by (done || apply Ha || (unfold n, HDR; divlia)).
  cbn [mbind option_bind].
  destruct (best_fit_spec free n 0x10000000 NULL)
    as [[-> _]|(l1 & x & l2 & -> & _ & Hx & _)].
  - simpl. by destruct h.
  - exfalso. apply Forall_app in Hn as [_ Hn]. apply Forall_cons_1 in Hn as [Hn _]. lia.
Qed.

Lemma given_payload_frame free alloc x n k :
  arena (free ++ alloc) -> x ∈ free -> 0 <= n <= x.2 -> payload_of alloc k ->
  ~ header_of ((x.1, n) :: left_over x n ++ free ++ alloc) k.
Proof.
  intros Ha Hx Hn Hk Hh.
  assert (Hpx : ~ x.1 <= k < x.1 + x.2).
  { destruct Hk as (y & Hy & Hk). apply arena_app in Ha as (Hf & Hal & Hd).
    rewrite list.Forall_forall in Hd. specialize (Hd x Hx). rewrite list.Forall_forall in Hd.
    specialize (Hd y Hy). pose proof (arena_blk _ _ Hal Hy) as [].
    unfold apart, HDR in *. lia. }
  pose proof (arena_blk _ x Ha ltac:(set_solver)) as [].
  apply header_cons in Hh as [Hh|Hh]; [simpl in Hh; unfold HDR in *; lia|].
  apply header_app in Hh as [Hh|Hh].
  - unfold left_over in Hh. destruct (Z.leb_spec (x.2 - n) HDR) as [Hle|Hgt].
    + destruct Hh as (z & Hz & _). set_solver.
    + destruct Hh as (z & Hz%list_elem_of_singleton & Hh). subst z. simpl in Hh. lia.
  - revert Hh. by apply (payload_not_header (free ++ alloc) alloc k Ha); [set_solver|].
Qed.

(** C31. In a consistent heap, [shared_mem_acquire] of [size] bytes is refused
    in interrupt context; it is [EC_ERROR_BUSY] with the heap unchanged exactly
    when [size], rounded up to words, exceeds what [shared_mem_size] reports;
    and otherwise it returns the payload of a smallest sufficient free buffer
    (the first of them), word aligned and large enough, whose tail stays free
    if a header and more fits there.  The heap stays consistent, no access
    leaves the arena, and the bytes of the other clients are untouched. *)
Theorem acquire_correct h free alloc size :
  heap_ok h free alloc -> 0 <= size < 2 ^ 31 ->
  let n := (size + 3) / 4 * 4 + HDR in
  shared_mem_acquire true size h = Some (EC_ERROR_INVAL, NULL, h) /\
  exists available, shared_mem_size h = Some available /\
  (available < (size + 3) / 4 * 4 ->
   shared_mem_acquire false size h = Some (EC_ERROR_BUSY, NULL, h)) /\
  ((size + 3) / 4 * 4 <= available ->
   exists l1 x l2 h',
     free = l1 ++ x :: l2 /\
     shared_mem_acquire false size h = Some (EC_SUCCESS, x.1 + HDR, h') /\
     n <= x.2 /\ Forall (fun y => n <= y.2 -> x.2 < y.2) l1 /\
     Forall (fun y => n <= y.2 -> x.2 <= y.2) l2 /\
     heap_ok h' (l1 ++ left_over x n ++ l2) (given x n :: alloc) /\
     (4 | x.1 + HDR) /\ size + HDR <= (given x n).2 /\
     max_allocated_size h' = Z.max (max_allocated_size h) size /\
     forall k, payload_of alloc k -> mem h' k = mem h k).
Proof.
  intros Hok Hsz n. split; [done|]. exists (foldl Z.max 0 (snd <$> free) - HDR).
  split; [by eapply shared_mem_size_ok|]. split; intros Hav.
  - eapply acquire_busy; [done|done|]. apply none_fits. lia.
  - assert (Hn0 : HDR <= n) by (unfold n; divlia).
    destruct (best_fit_spec free n 0x10000000 NULL)
      as [[_ Hno]|(l1 & x & l2 & -> & Hbf & Hx & _ & H1 & H2)].
    + exfalso. destruct (foldl_max_in 0 (snd <$> free)) as [E|(x & Ex & Hx)%list_elem_of_fmap].
      * rewrite E in Hav. unfold HDR in *. divlia.
      * rewrite Ex in Hav. rewrite list.Forall_forall in Hno. specialize (Hno x Hx).
        simpl in Hno. specialize (Hno ltac:(unfold n; lia)).
        pose proof (base_lt_end _ _ _ Hok x ltac:(set_solver)). unfold HDR in *. lia.
    + destruct (acquire_ok _ _ _ _ _ _ Hok Hsz Hbf Hx) as (h' & E & Hok' & Hm & Hw).
      pose proof (ok_arena _ _ _ Hok) as Ha.
      pose proof (arena_blk _ x Ha ltac:(set_solver)) as Hb.
      exists l1, x, l2, h'. do 5 (split; [done|]). split; [done|]. split; [|split; [|split; [done|]]].
      * apply Z.divide_add_r; [apply Hb|by exists 3].
      * unfold given. destruct (x.2 - n <=? HDR); simpl; unfold n in *; divlia.
      * intros k Hk. apply Hw.
        replace (l1 ++ x :: l2 ++ alloc) with ((l1 ++ x :: l2) ++ alloc) by by rewrite <- app_assoc.
        apply given_payload_frame; [done|set_solver|unfold HDR in *; lia|done].
Qed.

(** Releasing the buffer in the middle of the allocated chain. *)
Lemma release_live h free l x l' :
  heap_ok h free (l ++ x :: l') -> base < ram_end ->
  exists h' free', do_release h x.1 = Some h' /\ heap_ok h' free' (l ++ l') /\
    (forall k, covers free' k <-> covers free k \/ x.1 <= k < x.1 + x.2) /\
    (l ++ l' = [] -> free' = [(base, ram_end - base)]) /\
    forall k, payload_of (l ++ l') k -> mem h' k = mem h k.
Proof.
  intros Hok Hlt. destruct (do_release_ok _ _ _ _ _ Hok) as (h' & E & Hok' & _ & Hw).
  pose proof (ok_arena _ _ _ Hok) as Ha. assert (Hxf : arena (x :: free)) by sub_arena Ha.
  exists h', (insert_free x free). split; [done|]. split; [done|]. split; [|split].
  - intros k. rewrite insert_free_covers, covers_cons by done. tauto.
  - intros Hnil. destruct Hok' as [_ _ [Hb _] Hc Ht]. rewrite Hnil, app_nil_r in *.
    by apply all_free_single.
  - intros k Hk. apply Hw. by apply (payload_not_header _ (l ++ l') k Ha); [set_solver|].
Qed.

(** A pointer that is not on the allocated chain. *)
Lemma release_unknown h free alloc ptr :
  heap_ok h free alloc -> alloc <> [] -> Forall (fun x => ptr <> x.1 + HDR) alloc ->
  do_release h (ptr - HDR) = Some h.
Proof.
  intros Hok Hne Hno. destruct (length_free _ _ _ Hok) as [_ Hl].
  destruct alloc as [|v t]; [done|]. destruct Hok as [_ Hal Ha _ _].
  pose proof Hal as (Ec & _ & _ & Hs)%seg_cons. apply arena_app in Ha as (_ & Ha & _).
  pose proof (arena_blk _ v Ha ltac:(set_solver)) as Hv.
  unfold do_release, unlink. rewrite Ec. apply Forall_cons_iff in Hno as [Hnv Hno]. simpl in Hnv.
  destruct (Z.eqb_spec (ptr - HDR) v.1); [lia|]. access.
  rewrite (on_chain_ok _ _ v.1 _ t) by (apply arena_cons in Ha as (_ & _ & [? _]) || idtac;
    simpl in Hl; (done || lia)).
  assert (Ex : existsb (fun z => z.1 =? ptr - HDR) t = false).
  { apply not_true_iff_false. rewrite existsb_exists. intros (z & Hz & E).
    rewrite list.Forall_forall in Hno. apply (Hno z); [by apply list_elem_of_In|lia]. }
  by rewrite Ex.
Qed.

(** C32. Releasing the buffer at [x] of a consistent heap frees exactly its
    bytes and keeps the heap consistent: the free chain stays in address
    order with adjacent buffers merged, so that after the last release the
    arena is again the single free buffer of [shared_mem_init].  The other
    clients' bytes are untouched.  A pointer that was not acquired is ignored
    as long as something is allocated; with nothing allocated the check itself
    follows a NULL pointer. *)
Theorem release_correct h free alloc ptr :
  heap_ok h free alloc -> base < ram_end -> ptr <> NULL ->
  shared_mem_release true ptr h = Some h /\
  (forall l x l', alloc = l ++ x :: l' -> ptr = x.1 + HDR ->
   exists h' free', shared_mem_release false ptr h = Some h' /\ heap_ok h' free' (l ++ l') /\
     (forall k, covers free' k <-> covers free k \/ x.1 <= k < x.1 + x.2) /\
     (l ++ l' = [] -> free' = [(base, ram_end - base)]) /\
     forall k, payload_of (l ++ l') k -> mem h' k = mem h k) /\
  (alloc <> [] -> Forall (fun x => ptr <> x.1 + HDR) alloc ->
   shared_mem_release false ptr h = Some h) /\
  (alloc = [] -> shared_mem_release false ptr h = None).
Proof.
  intros Hok Hlt Hp. split; [done|]. unfold shared_mem_release.
  destruct (Z.eqb_spec ptr NULL) as [|_]; [done|]. split; [|split].
  - intros l x l' -> ->. replace (x.1 + HDR - HDR) with x.1 by lia. by apply release_live.
  - intros Hne Hno. by eapply release_unknown.
  - intros ->. pose proof (ok_alloc _ _ _ Hok) as Hal. simpl in Hal.
    unfold do_release, unlink. rewrite Hal.
    assert (Hn : ld (mem h) NULL next_buffer = None).
    { unfold ld, mapped, NULL. by destruct (Z.leb_spec base 0); [lia|]. }
    destruct (Z.eqb_spec (ptr - HDR) NULL) as [->|]; by rewrite Hn.
Qed.

End Proofs.
End Arena.

(** A 64-byte arena at address 16. *)
Lemma demo_init : exists h, shared_mem_init 16 80 (fun _ => 0) = Some h /\
  heap_ok 16 80 h [(16, 64)] [].
Proof. apply (heap_init_ok 16 80); unfold HDR; try lia. by exists 4. Qed.

Lemma acquire_correct_witness :
  exists h h', shared_mem_init 16 80 (fun _ => 0) = Some h /\
    shared_mem_acquire 16 80 false 5 h = Some (EC_SUCCESS, 28, h') /\
    heap_ok 16 80 h' [(36, 44)] [(16, 20)].
Proof.
  destruct demo_init as (h & E & Hok). exists h.
  destruct (acquire_correct 16 80 ltac:(lia) ltac:(lia) ltac:(lia) h [(16, 64)] [] 5 Hok ltac:(lia))
    as (_ & av & Ea & _ & Hacq).
  assert (Hav : av = 52).
  { apply shared_mem_size_ok in Hok; try lia. rewrite Hok in Ea. by injection Ea. }
  destruct (Hacq ltac:(subst av; vm_compute; done)) as (l1 & x & l2 & h' & El & Er & _ & _ & _ & Hok' & _).
  destruct l1 as [|y [|z l1]]; [|discriminate El|discriminate El].
  injection El as <- <-. exists h'. split; [done|]. split; [exact Er|exact Hok'].
Defined.

Lemma release_correct_witness :
  exists h h', heap_ok 16 80 h [(36, 44)] [(16, 20)] /\
    shared_mem_release 16 80 false 28 h = Some h' /\ heap_ok 16 80 h' [(16, 64)] [].
Proof.
  destruct acquire_correct_witness as (h0 & h & _ & _ & Hok). exists h.
  destruct (release_correct 16 80 ltac:(lia) ltac:(lia) ltac:(lia) h [(36, 44)] [(16, 20)] 28 Hok
              ltac:(lia) ltac:(done)) as (_ & Hrel & _).
  destruct (Hrel [] (16, 20) [] eq_refl eq_refl) as (h' & free' & E & Hok' & _ & Hnil & _).
  rewrite (Hnil eq_refl) in Hok'. exists h'. done.
Defined.

End Shmalloc.
