(* ===== verification/PdTimer.v ===== *)
(** * The USB-PD timers (common/usbc/usb_pd_timer.c)

    Every timer of every port has one bit in the bitmap of active timers and
    one in the bitmap of disabled timers, both arrays of 32-bit atomic words;
    a timer in neither has expired.  The specification is one
    [timer_state] per timer; the refinement theorem runs both over any
    sequence of calls. *)

From S2P Require Import Prelude.

Module PdTimer.

(** ** Atomic bitmaps (third_party/zephyr/atomic.h) *)

Definition ATOMIC_BITS : Z := 32.
(** src/third_party/zephyr/atomic.h:67-67 [ATOMIC_MASK] *)
Definition ATOMIC_MASK (bit : Z) : Z := BIT (Z.land bit (ATOMIC_BITS - 1)).
(** src/third_party/zephyr/atomic.h:68-68 [ATOMIC_ELEM] *)
Definition ATOMIC_ELEM (bit : Z) : Z := bit / ATOMIC_BITS.
(** src/third_party/zephyr/atomic.h:80-80 [ATOMIC_BITMAP_SIZE] *)
Definition ATOMIC_BITMAP_SIZE (num_bits : Z) : Z := 1 + (num_bits - 1) / ATOMIC_BITS.

(** src/third_party/zephyr/atomic.h:115-120 [atomic_test_bit] *)
Definition atomic_test_bit (target : list Z) (bit : Z) : bool :=
  let val := aget target (ATOMIC_ELEM bit) in
  negb (Z.land 1 (Z.shiftr val (Z.land bit (ATOMIC_BITS - 1))) =? 0).

(** src/third_party/zephyr/atomic.h:173-178 [atomic_clear_bit] *)
Definition atomic_clear_bit (target : list Z) (bit : Z) : list Z :=
  aset target (ATOMIC_ELEM bit)
    (Z.land (aget target (ATOMIC_ELEM bit)) (u32 (Z.lnot (ATOMIC_MASK bit)))).

(** src/third_party/zephyr/atomic.h:189-194 [atomic_set_bit] *)
Definition atomic_set_bit (target : list Z) (bit : Z) : list Z :=
  aset target (ATOMIC_ELEM bit) (Z.lor (aget target (ATOMIC_ELEM bit)) (ATOMIC_MASK bit)).

(** ** Timers *)

(** A timer is its index in [enum pd_task_timer]; the bounds of the ranges. *)
Definition DPM_TIMER_START : Z := 0.   (* DPM_TIMER_PD_BUTTON_LONG_PRESS *)
Definition DPM_TIMER_END : Z := 1.     (* DPM_TIMER_PD_BUTTON_SHORT_PRESS *)
Definition PE_TIMER_START : Z := 2.    (* PE_TIMER_BIST_CONT_MODE *)
Definition PE_TIMER_END : Z := 23.     (* PE_TIMER_WAIT_AND_ADD_JITTER *)
Definition PR_TIMER_START : Z := 24.   (* PR_TIMER_CHUNK_SENDER_RESPONSE *)
Definition PR_TIMER_END : Z := 28.     (* PR_TIMER_TCPC_TX_TIMEOUT *)
Definition TC_TIMER_START : Z := 29.   (* TC_TIMER_CC_DEBOUNCE *)
Definition TC_TIMER_END : Z := 36.     (* TC_TIMER_VBUS_DEBOUNCE *)
Definition PD_TIMER_COUNT : Z := 37.

(** [OTHER_RANGE] stands for a value outside the enumeration. *)
(** src/include/usb_pd_timer.h:246-251 [pd_timer_range] *)
Inductive pd_timer_range :=
| DPM_TIMER_RANGE | PE_TIMER_RANGE | PR_TIMER_RANGE | TC_TIMER_RANGE | OTHER_RANGE.

Definition MAX_EXPIRE : Z := 0x7FFFFFFF.
Definition NO_TIMEOUT : Z := -1.
Definition EXPIRE_NOW : Z := 0.

(** src/common/usbc/usb_pd_timer.c:43-52 [timer_active] *)
Record timers := Timers {
  timer_active : list Z; timer_disabled : list Z; timer_expires : list (list Z);
  count : list Z; max_count : list Z }.

Section Ports.
Context (MAX_PD_PORTS : Z) (CONFIG_CMD_PD_TIMER : bool).

Definition bit_of (p bit : Z) : Z := p * PD_TIMER_COUNT + bit.

(** src/common/usbc/usb_pd_timer.c:25-26 [PD_SET_ACTIVE] *)
Definition PD_SET_ACTIVE (s : timers) p bit : timers :=
  Timers (atomic_set_bit (timer_active s) (bit_of p bit)) (timer_disabled s)
    (timer_expires s) (count s) (max_count s).
(** src/common/usbc/usb_pd_timer.c:28-29 [PD_CLR_ACTIVE] *)
Definition PD_CLR_ACTIVE (s : timers) p bit : timers :=
  Timers (atomic_clear_bit (timer_active s) (bit_of p bit)) (timer_disabled s)
    (timer_expires s) (count s) (max_count s).
(** src/common/usbc/usb_pd_timer.c:31-32 [PD_CHK_ACTIVE] *)
Definition PD_CHK_ACTIVE (s : timers) p bit : bool :=
  atomic_test_bit (timer_active s) (bit_of p bit).
(** src/common/usbc/usb_pd_timer.c:34-35 [PD_SET_DISABLED] *)
Definition PD_SET_DISABLED (s : timers) p bit : timers :=
  Timers (timer_active s) (atomic_set_bit (timer_disabled s) (bit_of p bit))
    (timer_expires s) (count s) (max_count s).
(** src/common/usbc/usb_pd_timer.c:37-38 [PD_CLR_DISABLED] *)
Definition PD_CLR_DISABLED (s : timers) p bit : timers :=
  Timers (timer_active s) (atomic_clear_bit (timer_disabled s) (bit_of p bit))
    (timer_expires s) (count s) (max_count s).
(** src/common/usbc/usb_pd_timer.c:40-41 [PD_CHK_DISABLED] *)
Definition PD_CHK_DISABLED (s : timers) p bit : bool :=
  atomic_test_bit (timer_disabled s) (bit_of p bit).

Definition set_count (s : timers) p n : timers :=
  Timers (timer_active s) (timer_disabled s) (timer_expires s) (aset (count s) p n) (max_count s).
Definition set_max_count (s : timers) p n : timers :=
  Timers (timer_active s) (timer_disabled s) (timer_expires s) (count s) (aset (max_count s) p n).
Definition set_expires (s : timers) p t v : timers :=
  Timers (timer_active s) (timer_disabled s)
    (aset (timer_expires s) p (aset (aget (timer_expires s) p) t v)) (count s) (max_count s).
Definition expires (s : timers) p t : Z := aget (aget (timer_expires s) p) t.

(** src/common/usbc/usb_pd_timer.c:104-113 [pd_timer_inactive] *)
Definition pd_timer_inactive (p timer : Z) (s : timers) : timers :=
  let s := if PD_CHK_ACTIVE s p timer then
             let s := PD_CLR_ACTIVE s p timer in
             if CONFIG_CMD_PD_TIMER then set_count s p (s32 (aget (count s) p - 1)) else s
           else s in
  PD_CLR_DISABLED s p timer.

(** src/common/usbc/usb_pd_timer.c:115-118 [pd_timer_is_active] *)
Definition pd_timer_is_active (p timer : Z) (s : timers) : bool := PD_CHK_ACTIVE s p timer.

(** src/common/usbc/usb_pd_timer.c:120-123 [pd_timer_is_inactive] *)
Definition pd_timer_is_inactive (p timer : Z) (s : timers) : bool :=
  negb (PD_CHK_ACTIVE s p timer) && negb (PD_CHK_DISABLED s p timer).

(** src/common/usbc/usb_pd_timer.c:128-140 [pd_timer_init] *)
Definition pd_timer_init (p : Z) (s : timers) : timers :=
  let s := if CONFIG_CMD_PD_TIMER then set_count s p 0 else s in
  foldl (fun s bit => PD_SET_DISABLED (PD_CLR_ACTIVE s p bit) p bit) s (seqZ 0 PD_TIMER_COUNT).

(** [now] is what [get_time] returns. *)
(** src/common/usbc/usb_pd_timer.c:142-155 [pd_timer_enable] *)
Definition pd_timer_enable (p timer expires_us now : Z) (s : timers) : timers :=
  let s := if negb (PD_CHK_ACTIVE s p timer) then
             let s := PD_SET_ACTIVE s p timer in
             if CONFIG_CMD_PD_TIMER then
               let s := set_count s p (s32 (aget (count s) p + 1)) in
               if aget (max_count s) p <? aget (count s) p
               then set_max_count s p (aget (count s) p) else s
             else s
           else s in
  let s := PD_CLR_DISABLED s p timer in
  set_expires s p timer (u64 (now + expires_us)).

(** src/common/usbc/usb_pd_timer.c:157-166 [pd_timer_disable] *)
Definition pd_timer_disable (p timer : Z) (s : timers) : timers :=
  let s := if PD_CHK_ACTIVE s p timer then
             let s := PD_CLR_ACTIVE s p timer in
             if CONFIG_CMD_PD_TIMER then set_count s p (s32 (aget (count s) p - 1)) else s
           else s in
  PD_SET_DISABLED s p timer.

(** src/common/usbc/usb_pd_timer.c:173-192 [range] *)
Definition range_bounds (range : pd_timer_range) : option (Z * Z) :=
  match range with
  | DPM_TIMER_RANGE => Some (DPM_TIMER_START, DPM_TIMER_END)
  | PE_TIMER_RANGE => Some (PE_TIMER_START, PE_TIMER_END)
  | PR_TIMER_RANGE => Some (PR_TIMER_START, PR_TIMER_END)
  | TC_TIMER_RANGE => Some (TC_TIMER_START, TC_TIMER_END)
  | OTHER_RANGE => None
  end.

(** src/common/usbc/usb_pd_timer.c:168-196 [pd_timer_disable_range] *)
Definition pd_timer_disable_range (p : Z) (range : pd_timer_range) (s : timers) : timers :=
  match range_bounds range with
  | None => s
  | Some (start, end_) =>
    foldl (fun s timer => pd_timer_disable p timer s) s (seqZ start (end_ - start + 1))
  end.

(** src/common/usbc/usb_pd_timer.c:198-201 [pd_timer_is_disabled] *)
Definition pd_timer_is_disabled (p timer : Z) (s : timers) : bool := PD_CHK_DISABLED s p timer.

(** src/common/usbc/usb_pd_timer.c:203-213 [pd_timer_is_expired] *)
Definition pd_timer_is_expired (p timer now : Z) (s : timers) : bool * timers :=
  if pd_timer_is_active p timer s then
    if expires s p timer <=? now then (true, pd_timer_inactive p timer s)
    else (false, s)
  else (pd_timer_is_inactive p timer s, s).

(** [clock timer] is the time read for [timer]. *)
(** src/common/usbc/usb_pd_timer.c:215-223 [pd_timer_manage_expired] *)
Definition pd_timer_manage_expired (p : Z) (clock : Z -> Z) (s : timers) : timers :=
  foldl (fun s timer =>
           if pd_timer_is_active p timer s then
             let '(expired, s) := pd_timer_is_expired p timer (clock timer) s in
             if expired then pd_timer_inactive p timer s else s
           else s) s (seqZ 0 PD_TIMER_COUNT).

(** src/common/usbc/usb_pd_timer.c:231-246 [ret_value] *)
Fixpoint next_loop (p now : Z) (s : timers) (l : list Z) (ret_value : Z) : Z :=
  match l with
  | [] => ret_value
  | timer :: l =>
    if pd_timer_is_active p timer s then
      let t_value := expires s p timer in
      if t_value <=? now then EXPIRE_NOW
      else
        let delta := s32 (u64 (t_value - now)) in
        next_loop p now s l (if delta <? ret_value then delta else ret_value)
    else next_loop p now s l ret_value
  end.

(** src/common/usbc/usb_pd_timer.c:225-252 [pd_timer_next_expiration] *)
Definition pd_timer_next_expiration (p now : Z) (s : timers) : Z :=
  let ret_value := next_loop p now s (seqZ 0 PD_TIMER_COUNT) MAX_EXPIRE in
  if ret_value =? MAX_EXPIRE then NO_TIMEOUT else ret_value.

(** ** Specification *)

Inductive timer_state := Disabled | Expired | Running (deadline : Z).

(** One state per port and timer. *)
Definition spec := Z -> Z -> timer_state.

Definition put (a : spec) (p : Z) (f : Z -> timer_state -> timer_state) : spec :=
  fun p' t => if p' =? p then f t (a p' t) else a p' t.

Definition put1 (a : spec) (p timer : Z) (x : timer_state) : spec :=
  put a p (fun t y => if t =? timer then x else y).

Definition expire_at (now : Z) (x : timer_state) : timer_state :=
  match x with Running d => if d <=? now then Expired else x | _ => x end.

Definition expired (x : timer_state) : bool :=
  match x with Expired => true | _ => false end.
Definition running (x : timer_state) : bool :=
  match x with Running _ => true | _ => false end.
Definition disabled (x : timer_state) : bool :=
  match x with Disabled => true | _ => false end.

(** What is left of the running timers, as an [int]. *)
Definition remaining (now : Z) (x : timer_state) : list Z :=
  match x with Running d => [if d <=? now then 0 else s32 (u64 (d - now))] | _ => [] end.

Definition due (now : Z) (x : timer_state) : bool :=
  match x with Running d => d <=? now | _ => false end.

Definition next_due (a : spec) (p now : Z) : Z :=
  let l := a p <$> seqZ 0 PD_TIMER_COUNT in
  if existsb (due now) l then EXPIRE_NOW
  else
    let r := foldr Z.min MAX_EXPIRE (concat (remaining now <$> l)) in
    if r =? MAX_EXPIRE then NO_TIMEOUT else r.

(** A call of the interface. *)
Inductive call :=
| Init (p : Z)
| Enable (p timer expires_us now : Z)
| Disable (p timer : Z)
| DisableRange (p : Z) (range : pd_timer_range)
| IsDisabled (p timer : Z)
| IsExpired (p timer now : Z)
| ManageExpired (p : Z) (clock : Z -> Z)
| NextExpiration (p now : Z).

Definition run_call (c : call) (s : timers) : Z * timers :=
  match c with
  | Init p => (0, pd_timer_init p s)
  | Enable p t us now => (0, pd_timer_enable p t us now s)
  | Disable p t => (0, pd_timer_disable p t s)
  | DisableRange p r => (0, pd_timer_disable_range p r s)
  | IsDisabled p t => (Z_of_bool (pd_timer_is_disabled p t s), s)
  | IsExpired p t now =>
    let '(b, s) := pd_timer_is_expired p t now s in (Z_of_bool b, s)
  | ManageExpired p clock => (0, pd_timer_manage_expired p clock s)
  | NextExpiration p now => (pd_timer_next_expiration p now s, s)
  end.

Definition spec_call (c : call) (a : spec) : Z * spec :=
  match c with
  | Init p => (0, put a p (fun _ _ => Disabled))
  | Enable p t us now => (0, put1 a p t (Running (u64 (now + us))))
  | Disable p t => (0, put1 a p t Disabled)
  | DisableRange p r =>
    (0, match range_bounds r with
        | Some (st, en) => put a p (fun t x => if (st <=? t) && (t <=? en) then Disabled else x)
        | None => a
        end)
  | IsDisabled p t => (Z_of_bool (disabled (a p t)), a)
  | IsExpired p t now =>
    let x := expire_at now (a p t) in (Z_of_bool (expired x), put1 a p t x)
  | ManageExpired p clock => (0, put a p (fun t => expire_at (clock t)))
  | NextExpiration p now => (next_due a p now, a)
  end.

Fixpoint run_calls (l : list call) (s : timers) : list Z * timers :=
  match l with
  | [] => ([], s)
  | c :: l => let '(r, s) := run_call c s in let '(rs, s) := run_calls l s in (r :: rs, s)
  end.
Fixpoint spec_calls (l : list call) (a : spec) : list Z * spec :=
  match l with
  | [] => ([], a)
  | c :: l => let '(r, a) := spec_call c a in let '(rs, a) := spec_calls l a in (r :: rs, a)
  end.

Definition valid_timer (p t : Z) : Prop := 0 <= p < MAX_PD_PORTS /\ 0 <= t < PD_TIMER_COUNT.

(** Calls within the arrays. *)
Definition valid_call (c : call) : Prop :=
  match c with
  | Init p | DisableRange p _ | ManageExpired p _ | NextExpiration p _ => 0 <= p < MAX_PD_PORTS
  | Enable p t _ _ | Disable p t | IsDisabled p t | IsExpired p t _ => valid_timer p t
  end.

(** The number of running timers of a port. *)
Definition nrunning (a : spec) (p : Z) : Z :=
  foldr (fun t n => Z_of_bool (running (a p t)) + n) 0 (seqZ 0 PD_TIMER_COUNT).

(** The arrays represent the specification. *)
Record rep0 (s : timers) (a : spec) : Prop := {
  rep_alen : Z.of_nat (length (timer_active s)) = ATOMIC_BITMAP_SIZE (PD_TIMER_COUNT * MAX_PD_PORTS);
  rep_dlen : Z.of_nat (length (timer_disabled s)) = ATOMIC_BITMAP_SIZE (PD_TIMER_COUNT * MAX_PD_PORTS);
  rep_elen : Z.of_nat (length (timer_expires s)) = MAX_PD_PORTS;
  rep_rows : Forall (fun r => Z.of_nat (length r) = PD_TIMER_COUNT) (timer_expires s);
  rep_clen : Z.of_nat (length (count s)) = MAX_PD_PORTS;
  rep_mlen : Z.of_nat (length (max_count s)) = MAX_PD_PORTS;
  rep_active : forall p t, valid_timer p t -> PD_CHK_ACTIVE s p t = running (a p t);
  rep_disabled : forall p t, valid_timer p t -> PD_CHK_DISABLED s p t = disabled (a p t);
  rep_deadline : forall p t d, valid_timer p t -> a p t = Running d -> expires s p t = d }.

(** The debug counters count the running timers. *)
Definition counted (s : timers) (a : spec) : Prop :=
  CONFIG_CMD_PD_TIMER = true -> forall p, 0 <= p < MAX_PD_PORTS ->
    aget (count s) p = nrunning a p /\ nrunning a p <= aget (max_count s) p <= PD_TIMER_COUNT.

Definition rep (s : timers) (a : spec) : Prop := rep0 s a /\ counted s a.

(** ** Bitmaps *)

Lemma land31 b : Z.land b (32 - 1) = b mod 32.
Proof. change (32 - 1) with (2 ^ 5 - 1). rewrite land_mask by lia. done. Qed.

Lemma test_bit_spec w b :
  atomic_test_bit w b = Z.testbit (aget w (b / 32)) (b mod 32).
Proof.
  unfold atomic_test_bit, ATOMIC_ELEM, ATOMIC_BITS.
  rewrite land31.
  rewrite Z.land_comm. change 1 with (2 ^ 1 - 1) at 1. rewrite land_mask by lia.
  unfold wrap. change (2 ^ 1) with 2. rewrite <- Z.bit0_mod.
  rewrite Z.shiftr_spec by lia. rewrite Z.add_0_l. by destruct (Z.testbit _ _).
Qed.

Lemma mask_spec b i : 0 <= i -> Z.testbit (ATOMIC_MASK b) i = (i =? b mod 32).
Proof.
  intros. unfold ATOMIC_MASK, BIT, ATOMIC_BITS.
  rewrite land31.
  rewrite Z.shiftl_1_l, Z.pow2_bits_eqb by divlia. lia.
Qed.

Lemma bit_eq b b' : (b' / 32 =? b / 32) && (b' mod 32 =? b mod 32) = (b' =? b).
Proof. destruct (Z.eqb_spec b' b) as [->|]; [by rewrite !Z.eqb_refl|]. divlia. Qed.

Lemma test_set w b b' :
  0 <= b < 32 * Z.of_nat (length w) -> 0 <= b' ->
  atomic_test_bit (atomic_set_bit w b) b' = (b' =? b) || atomic_test_bit w b'.
Proof.
  intros Hb Hb'. rewrite !test_bit_spec. unfold atomic_set_bit, ATOMIC_ELEM, ATOMIC_BITS.
  rewrite aget_aset by divlia. rewrite <- (bit_eq b b').
  destruct (Z.eqb_spec (b' / 32) (b / 32)) as [->|]; [|done].
  rewrite Z.lor_spec, mask_spec by divlia. simpl. apply orb_comm.
Qed.

Lemma test_clear w b b' :
  0 <= b < 32 * Z.of_nat (length w) -> 0 <= b' ->
  atomic_test_bit (atomic_clear_bit w b) b' = negb (b' =? b) && atomic_test_bit w b'.
Proof.
  intros Hb Hb'. rewrite !test_bit_spec. unfold atomic_clear_bit, ATOMIC_ELEM, ATOMIC_BITS.
  rewrite aget_aset by divlia. rewrite <- (bit_eq b b').
  destruct (Z.eqb_spec (b' / 32) (b / 32)) as [->|]; [|done].
  rewrite Z.land_spec. unfold wrap. rewrite Z.mod_pow2_bits_low by divlia.
  rewrite Z.lnot_spec, mask_spec by divlia. simpl. apply andb_comm.
Qed.

Lemma bit_of_range p t :
  valid_timer p t ->
  0 <= bit_of p t < 32 * ATOMIC_BITMAP_SIZE (PD_TIMER_COUNT * MAX_PD_PORTS).
Proof.
  unfold valid_timer, bit_of, ATOMIC_BITMAP_SIZE, ATOMIC_BITS, PD_TIMER_COUNT. intros. divlia.
Qed.

Lemma bit_of_eq p t p' t' :
  valid_timer p t -> valid_timer p' t' ->
  (bit_of p' t' =? bit_of p t) = (p' =? p) && (t' =? t).
Proof. unfold valid_timer, bit_of, PD_TIMER_COUNT. intros. lia. Qed.

(** ** One timer changes state *)

Lemma chk_set_active s p t p' t' :
  Z.of_nat (length (timer_active s)) = ATOMIC_BITMAP_SIZE (PD_TIMER_COUNT * MAX_PD_PORTS) ->
  valid_timer p t -> valid_timer p' t' ->
  PD_CHK_ACTIVE (PD_SET_ACTIVE s p t) p' t' = (p' =? p) && (t' =? t) || PD_CHK_ACTIVE s p' t'.
Proof.
  intros Hl Hv Hv'. unfold PD_CHK_ACTIVE. simpl.
  rewrite test_set, (bit_of_eq p t) by (try rewrite Hl; try done; by apply bit_of_range). done.
Qed.

Lemma chk_clr_active s p t p' t' :
  Z.of_nat (length (timer_active s)) = ATOMIC_BITMAP_SIZE (PD_TIMER_COUNT * MAX_PD_PORTS) ->
  valid_timer p t -> valid_timer p' t' ->
  PD_CHK_ACTIVE (PD_CLR_ACTIVE s p t) p' t' =
    negb ((p' =? p) && (t' =? t)) && PD_CHK_ACTIVE s p' t'.
Proof.
  intros Hl Hv Hv'. unfold PD_CHK_ACTIVE. simpl.
  rewrite test_clear, (bit_of_eq p t) by (try rewrite Hl; try done; by apply bit_of_range). done.
Qed.

Lemma chk_set_disabled s p t p' t' :
  Z.of_nat (length (timer_disabled s)) = ATOMIC_BITMAP_SIZE (PD_TIMER_COUNT * MAX_PD_PORTS) ->
  valid_timer p t -> valid_timer p' t' ->
  PD_CHK_DISABLED (PD_SET_DISABLED s p t) p' t' =
    (p' =? p) && (t' =? t) || PD_CHK_DISABLED s p' t'.
Proof.
  intros Hl Hv Hv'. unfold PD_CHK_DISABLED. simpl.
  rewrite test_set, (bit_of_eq p t) by (try rewrite Hl; try done; by apply bit_of_range). done.
Qed.

Lemma chk_clr_disabled s p t p' t' :
  Z.of_nat (length (timer_disabled s)) = ATOMIC_BITMAP_SIZE (PD_TIMER_COUNT * MAX_PD_PORTS) ->
  valid_timer p t -> valid_timer p' t' ->
  PD_CHK_DISABLED (PD_CLR_DISABLED s p t) p' t' =
    negb ((p' =? p) && (t' =? t)) && PD_CHK_DISABLED s p' t'.
Proof.
  intros Hl Hv Hv'. unfold PD_CHK_DISABLED. simpl.
  rewrite test_clear, (bit_of_eq p t) by (try rewrite Hl; try done; by apply bit_of_range). done.
Qed.

Lemma length_set_bit w b : length (atomic_set_bit w b) = length w.
Proof. apply length_insert. Qed.
Lemma length_clear_bit w b : length (atomic_clear_bit w b) = length w.
Proof. apply length_insert. Qed.

Lemma nrunning_sum (f g : Z -> bool) t n :
  0 <= t < n -> (forall t', t' <> t -> g t' = f t') ->
  foldr (fun t n => Z_of_bool (g t) + n) 0 (seqZ 0 n) =
  foldr (fun t n => Z_of_bool (f t) + n) 0 (seqZ 0 n) + Z_of_bool (g t) - Z_of_bool (f t).
Proof.
  intros Ht Hfg.
  assert (H : forall l, NoDup l ->
    foldr (fun t n => Z_of_bool (g t) + n) 0 l =
    foldr (fun t n => Z_of_bool (f t) + n) 0 l +
    if decide (t ∈ l) then Z_of_bool (g t) - Z_of_bool (f t) else 0).
  { induction l as [|x l IH]; intros Hnd; cbn [foldr].
    - case_decide as Hd; [by apply elem_of_nil in Hd|lia].
    - apply list.NoDup_cons in Hnd as [Hx Hnd]. rewrite (IH Hnd).
      destruct (Z.eq_dec x t) as [->|Hne]; repeat case_decide;
        rewrite ?elem_of_cons in *; first [lia | rewrite (Hfg x) by done; lia | naive_solver]. }
  rewrite H by apply NoDup_seqZ. rewrite decide_True by (apply elem_of_seqZ; lia). lia.
Qed.

Lemma nrunning_put1 a p t x p' :
  0 <= t < PD_TIMER_COUNT ->
  nrunning (put1 a p t x) p' =
    nrunning a p' + if p' =? p then Z_of_bool (running x) - Z_of_bool (running (a p t)) else 0.
Proof.
  intros Ht. unfold nrunning, put1, put. destruct (Z.eqb_spec p' p) as [->|]; [|lia].
  rewrite (nrunning_sum (fun t => running (a p t))
             (fun t0 => running (if t0 =? t then x else a p t0)) t) by
    (try done; intros t' Ht'; by destruct (Z.eqb_spec t' t)).
  rewrite Z.eqb_refl. lia.
Qed.

Lemma nrunning_range a p : 0 <= nrunning a p <= PD_TIMER_COUNT.
Proof.
  unfold nrunning. assert (H : forall l, 0 <= foldr (fun t n => Z_of_bool (running (a p t)) + n) 0 l
                                          <= Z.of_nat (length l)).
  { induction l as [|t l IH]; simpl; [lia|]. destruct (running _); simpl; lia. }
  specialize (H (seqZ 0 PD_TIMER_COUNT)). by rewrite length_seqZ in H.
Qed.

Lemma put1_eq a p t x p' t' :
  put1 a p t x p' t' = if (p' =? p) && (t' =? t) then x else a p' t'.
Proof. unfold put1, put. by destruct (p' =? p), (t' =? t). Qed.

Lemma rep_len_set s s' a :
  rep0 s a -> length (timer_active s') = length (timer_active s) ->
  length (timer_disabled s') = length (timer_disabled s) ->
  length (count s') = length (count s) -> length (max_count s') = length (max_count s) ->
  length (timer_expires s') = length (timer_expires s) ->
  Forall (fun r => Z.of_nat (length r) = PD_TIMER_COUNT) (timer_expires s') ->
  forall a',
  (forall p t, valid_timer p t -> PD_CHK_ACTIVE s' p t = running (a' p t)) ->
  (forall p t, valid_timer p t -> PD_CHK_DISABLED s' p t = disabled (a' p t)) ->
  (forall p t d, valid_timer p t -> a' p t = Running d -> expires s' p t = d) -> rep0 s' a'.
Proof. intros [] E1 E2 E3 E4 E5 ? ? ? ? ?. split; try done; congruence. Qed.

(** Specifications are compared on the timers that exist. *)
Definition spec_eq (a a' : spec) : Prop := forall p t, valid_timer p t -> a p t = a' p t.

#[local] Instance spec_eq_equiv : Equivalence spec_eq.
Proof.
  split.
  - intros a p t _. done.
  - intros a a' H p t Hv. symmetry. by apply H.
  - intros a b c H1 H2 p t Hv. rewrite H1 by done. by apply H2.
Qed.

Lemma nrunning_ext a a' p : spec_eq a a' -> 0 <= p < MAX_PD_PORTS -> nrunning a p = nrunning a' p.
Proof.
  intros Ha Hp. unfold nrunning.
  assert (H : forall l, (forall t, t ∈ l -> 0 <= t < PD_TIMER_COUNT) ->
    foldr (fun t n => Z_of_bool (running (a p t)) + n) 0 l =
    foldr (fun t n => Z_of_bool (running (a' p t)) + n) 0 l).
  { induction l as [|t l IH]; intros Hl; simpl; [done|].
    rewrite IH by (intros; apply Hl; apply elem_of_cons; by right).
    rewrite (Ha p t); [done|]. split; [done|]. apply Hl. apply elem_of_cons. by left. }
  apply H. intros t Ht%elem_of_seqZ. lia.
Qed.

#[local] Instance rep_proper : Proper (eq ==> spec_eq ==> iff) rep.
Proof.
  assert (H : forall s a a', spec_eq a a' -> rep s a -> rep s a').
  { intros s a a' Ha [[] Hc]. split; [split; try done|].
    - intros p t Hv. rewrite <- Ha by done. auto.
    - intros p t Hv. rewrite <- Ha by done. auto.
    - intros p t d Hv. rewrite <- Ha by done. auto.
    - intros Hcmd p Hp. destruct (Hc Hcmd p Hp) as [H1 H2].
      by rewrite <- (nrunning_ext a a'). }
  intros s ? <- a a' Ha. split; apply H; [done|by symmetry].
Qed.

Lemma s32_id x : - 2 ^ 31 <= x < 2 ^ 31 -> s32 x = x.
Proof. intros. unfold swrap. rewrite Z.mod_small; lia. Qed.

(** The two halves of every change of state. *)
Lemma drop_active_ok s a p t x :
  rep0 s a -> valid_timer p t -> running x = false ->
  let s' := if PD_CHK_ACTIVE s p t then
              let s := PD_CLR_ACTIVE s p t in
              if CONFIG_CMD_PD_TIMER then set_count s p (s32 (aget (count s) p - 1)) else s
            else s in
  (forall p' t', valid_timer p' t' -> PD_CHK_ACTIVE s' p' t' = running (put1 a p t x p' t')) /\
  timer_disabled s' = timer_disabled s /\ timer_expires s' = timer_expires s /\
  max_count s' = max_count s /\ length (count s') = length (count s) /\
  length (timer_active s') = length (timer_active s) /\
  (counted s a -> counted s' (put1 a p t x)).
Proof.
  intros Hr Hv Hx. pose proof Hr as []. pose proof Hv as [Hp Ht].
  assert (Hpt : PD_CHK_ACTIVE s p t = running (a p t)) by auto.
  assert (Hn : forall p', nrunning (put1 a p t x) p' =
            nrunning a p' - if p' =? p then Z_of_bool (running (a p t)) else 0).
  { intros p'. rewrite nrunning_put1 by done. rewrite Hx. simpl. destruct (p' =? p); lia. }
  simpl. rewrite Hpt. destruct (running (a p t)) eqn:Ea.
  - assert (HA : forall p' t', valid_timer p' t' ->
      PD_CHK_ACTIVE (PD_CLR_ACTIVE s p t) p' t' = running (put1 a p t x p' t')).
    { intros p' t' Hv'. rewrite chk_clr_active, put1_eq by done.
      destruct ((p' =? p) && (t' =? t)); simpl; [by rewrite Hx|auto]. }
    destruct CONFIG_CMD_PD_TIMER eqn:Ecmd; (split; [exact HA|]); do 3 (split; [done|]);
      simpl; unfold aset; rewrite ?length_insert, ?length_clear_bit; do 2 (split; [done|]).
    + intros Hc Hcmd p' Hp'. destruct (Hc Hcmd p' Hp') as [E1 E2]. rewrite Hn. simpl.
      pose proof (nrunning_range a p) as Hr0.
      rewrite aget_aset by lia. destruct (Z.eqb_spec p' p) as [->|]; [|lia].
      rewrite E1, s32_id by (unfold PD_TIMER_COUNT in *; lia). lia.
    + intros Hc Hcmd. congruence.
  - split.
    { intros p' t' Hv'. rewrite put1_eq. destruct (Z.eqb_spec p' p) as [->|], (Z.eqb_spec t' t) as [->|];
        simpl; try by auto. by rewrite Hpt, Hx. }
    do 5 (split; [done|]). intros Hc Hcmd p' Hp'. destruct (Hc Hcmd p' Hp') as [E1 E2].
    rewrite Hn. simpl. destruct (p' =? p); lia.
Qed.

Lemma stop_ok s a p t x D :
  rep s a -> valid_timer p t -> running x = false ->
  length D = length (timer_disabled s) ->
  (forall p' t', valid_timer p' t' ->
     atomic_test_bit D (bit_of p' t') = disabled (put1 a p t x p' t')) ->
  let s1 := if PD_CHK_ACTIVE s p t then
              let s := PD_CLR_ACTIVE s p t in
              if CONFIG_CMD_PD_TIMER then set_count s p (s32 (aget (count s) p - 1)) else s
            else s in
  rep (Timers (timer_active s1) D (timer_expires s1) (count s1) (max_count s1)) (put1 a p t x).
Proof.
  intros [Hr Hc] Hv Hx HD HDt. pose proof (drop_active_ok s a p t x Hr Hv Hx) as H.
  cbv zeta in *. set (s1 := if PD_CHK_ACTIVE s p t then _ else s) in *.
  destruct H as (HA & ED & EE & EM & EC & EL & Hc'). split; [|exact (Hc' Hc)].
  refine (rep_len_set s _ a Hr _ _ _ _ _ _ _ _ _ _); simpl.
  - done.
  - done.
  - done.
  - by rewrite EM.
  - by rewrite EE.
  - rewrite EE. apply Hr.
  - exact HA.
  - exact HDt.
  - intros p' t' d Hv'. rewrite put1_eq. destruct ((p' =? p) && (t' =? t)); [by destruct x|].
    intros Hd. unfold expires. simpl. rewrite EE. by apply Hr.
Qed.

(** Fields untouched by the first half. *)
Lemma drop_active_disabled s p t :
  timer_disabled (if PD_CHK_ACTIVE s p t then
                    let s := PD_CLR_ACTIVE s p t in
                    if CONFIG_CMD_PD_TIMER then set_count s p (s32 (aget (count s) p - 1)) else s
                  else s) = timer_disabled s.
Proof. by destruct (PD_CHK_ACTIVE s p t), CONFIG_CMD_PD_TIMER. Qed.

Lemma disable_ok s a p t :
  rep s a -> valid_timer p t -> rep (pd_timer_disable p t s) (put1 a p t Disabled).
Proof.
  intros Hr Hv. unfold pd_timer_disable, PD_SET_DISABLED. rewrite drop_active_disabled.
  apply stop_ok; try done; [apply length_set_bit|].
  intros p' t' Hv'. destruct Hr as [Hr _]. rewrite put1_eq.
  pose proof (chk_set_disabled s p t p' t' ltac:(apply Hr) Hv Hv') as E.
  unfold PD_CHK_DISABLED in E. simpl in E. rewrite E.
  destruct ((p' =? p) && (t' =? t)); [done|]. by apply Hr.
Qed.

Lemma inactive_ok s a p t :
  rep s a -> valid_timer p t -> rep (pd_timer_inactive p t s) (put1 a p t Expired).
Proof.
  intros Hr Hv. unfold pd_timer_inactive, PD_CLR_DISABLED. rewrite drop_active_disabled.
  apply stop_ok; try done; [apply length_clear_bit|].
  intros p' t' Hv'. destruct Hr as [Hr _]. rewrite put1_eq.
  pose proof (chk_clr_disabled s p t p' t' ltac:(apply Hr) Hv Hv') as E.
  unfold PD_CHK_DISABLED in E. simpl in E. rewrite E.
  destruct ((p' =? p) && (t' =? t)); [done|]. by apply Hr.
Qed.

Lemma set_expires_ok s p t v p' t' a :
  rep0 s a -> valid_timer p t -> valid_timer p' t' ->
  expires (set_expires s p t v) p' t' = (if (p' =? p) && (t' =? t) then v else expires s p' t') /\
  length (timer_expires (set_expires s p t v)) = length (timer_expires s) /\
  Forall (fun r => Z.of_nat (length r) = PD_TIMER_COUNT) (timer_expires (set_expires s p t v)).
Proof.
  intros [] [Hp Ht] [Hp' Ht']. unfold expires. simpl.
  assert (Hrow : Z.of_nat (length (aget (timer_expires s) p)) = PD_TIMER_COUNT).
  { rewrite Forall_lookup in rep_rows0. apply (rep_rows0 (Z.to_nat p)).
    apply list_lookup_lookup_total_lt. lia. }
  split; [|split].
  - rewrite aget_aset by lia. destruct (Z.eqb_spec p' p) as [->|]; [|done].
    rewrite aget_aset by lia. done.
  - unfold aset. apply length_insert.
  - apply Forall_insert; [done|]. unfold aset. by rewrite length_insert.
Qed.

Lemma enable_ok s a p t us now :
  rep s a -> valid_timer p t ->
  rep (pd_timer_enable p t us now s) (put1 a p t (Running (u64 (now + us)))).
Proof.
  intros [Hr Hc] Hv. unfold pd_timer_enable. set (v := u64 (now + us)).
  set (s1 := if negb (PD_CHK_ACTIVE s p t) then _ else s).
  assert (Hpt : PD_CHK_ACTIVE s p t = running (a p t)) by (by apply Hr).
  assert (HA : forall p' t', valid_timer p' t' ->
            PD_CHK_ACTIVE s1 p' t' = running (put1 a p t (Running v) p' t')).
  { intros p' t' Hv'. rewrite put1_eq.
    assert (E : PD_CHK_ACTIVE s1 p' t' = if PD_CHK_ACTIVE s p t then PD_CHK_ACTIVE s p' t'
                                         else PD_CHK_ACTIVE (PD_SET_ACTIVE s p t) p' t').
    { unfold s1. destruct (PD_CHK_ACTIVE s p t); [done|]. simpl.
      destruct CONFIG_CMD_PD_TIMER; [|done]. by case_match. }
    rewrite E, chk_set_active by (done || apply Hr).
    destruct (Z.eqb_spec p' p) as [->|], (Z.eqb_spec t' t) as [->|]; simpl;
      destruct (PD_CHK_ACTIVE s p t) eqn:Ec; rewrite ?Ec; try done; by apply Hr. }
  assert (Hf : timer_disabled s1 = timer_disabled s /\ timer_expires s1 = timer_expires s /\
               length (timer_active s1) = length (timer_active s) /\
               length (count s1) = length (count s) /\ length (max_count s1) = length (max_count s)).
  { unfold s1. destruct (PD_CHK_ACTIVE s p t); [done|]. simpl.
    destruct CONFIG_CMD_PD_TIMER; simpl; [case_match; simpl|]; unfold aset;
      by rewrite ?length_insert, ?length_set_bit. }
  destruct Hf as (ED & EE & LA & LC & LM). split.
  - refine (rep_len_set s _ a Hr _ _ _ _ _ _ _ _ _ _); simpl; try done.
    + rewrite length_clear_bit. by rewrite ED.
    + rewrite EE. by apply (set_expires_ok s p t v p t a).
    + rewrite EE. by apply (set_expires_ok s p t v p t a).
    + intros p' t' Hv'. rewrite put1_eq. unfold PD_CHK_DISABLED. simpl.
      pose proof (chk_clr_disabled s p t p' t' ltac:(apply Hr) Hv Hv') as E.
      unfold PD_CHK_DISABLED in E. simpl in E. rewrite ED, E.
      destruct ((p' =? p) && (t' =? t)); [done|]. by apply Hr.
    + intros p' t' d Hv'. rewrite put1_eq. unfold expires. simpl. rewrite EE.
      pose proof (set_expires_ok s p t v p' t' a Hr Hv Hv') as [E _].
      unfold expires in E. simpl in E. rewrite E.
      destruct ((p' =? p) && (t' =? t)); [by intros [= ->]|]. intros Hd. by apply Hr.
  - intros Hcmd p' Hp'. destruct (Hc Hcmd p' Hp') as [E1 E2].
    pose proof (nrunning_range (put1 a p t (Running v)) p') as Hn.
    rewrite nrunning_put1 in * by apply Hv. simpl running in *. simpl count. simpl max_count.
    unfold s1. rewrite Hpt. pose proof Hr as []. destruct Hv as [Hp Ht].
    destruct (running (a p t)); simpl in *.
    + destruct (p' =? p); lia.
    + rewrite Hcmd in *. simpl. rewrite (aget_aset _ p p) by lia. rewrite Z.eqb_refl.
      destruct (Hc Hcmd p Hp) as [E1' E2']. rewrite E1'.
      pose proof (nrunning_range a p) as Hnp.
      rewrite s32_id by (unfold PD_TIMER_COUNT in *; lia).
      destruct (Z.ltb_spec (aget (max_count s) p) (nrunning a p + 1)); simpl;
        rewrite ?aget_aset by (unfold aset; rewrite ?length_insert; lia);
        destruct (Z.eqb_spec p' p) as [->|]; lia.
Qed.

(** ** Loops over timers *)

(** Running [f] on the timers of [l] one after another. *)
Lemma fold_timers_ok (R : timers -> spec -> Prop) (f : timers -> Z -> timers)
    (g : Z -> timer_state -> timer_state) p l s a :
  Proper (eq ==> spec_eq ==> iff) R ->
  (forall s a t, t ∈ l -> R s a -> R (f s t) (put1 a p t (g t (a p t)))) ->
  NoDup l -> R s a ->
  R (foldl f s l) (put a p (fun t x => if decide (t ∈ l) then g t x else x)).
Proof.
  intros Hext. revert s a. induction l as [|t l IH]; intros s a Hf Hnd Hr.
  - eapply Hext; [done| |exact Hr]. intros p' t' _. unfold put.
    case_decide as Hd; [by apply elem_of_nil in Hd|]. by destruct (p' =? p).
  - apply list.NoDup_cons in Hnd as [Ht Hnd]. cbn [foldl].
    eapply Hext; [done| |apply (IH (f s t) (put1 a p t (g t (a p t))))].
    + intros p' t' _. unfold put1, put. destruct (Z.eqb_spec p' p) as [->|]; [|done].
      repeat case_decide; rewrite ?elem_of_cons in *; destruct (Z.eqb_spec t' t) as [->|];
        naive_solver.
    + intros s' a' t' Hin. apply Hf. apply elem_of_cons. by right.
    + done.
    + apply Hf; [apply elem_of_cons; by left|done].
Qed.

(** All the timers of a port. *)
Lemma put_all a p g :
  spec_eq (put a p (fun t x => if decide (t ∈ seqZ 0 PD_TIMER_COUNT) then g t x else x)) (put a p g).
Proof.
  intros p' t' [_ Ht]. unfold put. destruct (p' =? p); [|done].
  rewrite decide_True; [done|]. apply elem_of_seqZ. lia.
Qed.

Lemma is_expired_ok s a p t now :
  rep s a -> valid_timer p t ->
  let '(b, s') := pd_timer_is_expired p t now s in
  b = expired (expire_at now (a p t)) /\ rep s' (put1 a p t (expire_at now (a p t))).
Proof.
  intros Hr Hv. pose proof Hr as [[] _].
  assert (Hsame : rep s (put1 a p t (a p t))).
  { eapply rep_proper; [done| |exact Hr]. intros p' t' _. rewrite put1_eq.
    by destruct (Z.eqb_spec p' p) as [->|], (Z.eqb_spec t' t) as [->|]. }
  unfold pd_timer_is_expired, pd_timer_is_active, pd_timer_is_inactive.
  rewrite rep_active0, rep_disabled0 by done.
  destruct (a p t) as [| |d] eqn:Ea; simpl; [done|done|].
  rewrite (rep_deadline0 p t d) by done. destruct (d <=? now) eqn:Ed; [|done].
  split; [done|]. by apply inactive_ok.
Qed.

Lemma manage_ok s a p clock :
  rep s a -> 0 <= p < MAX_PD_PORTS ->
  rep (pd_timer_manage_expired p clock s) (put a p (fun t => expire_at (clock t))).
Proof.
  intros Hr Hp. unfold pd_timer_manage_expired. rewrite <- put_all.
  apply (fold_timers_ok rep); [apply _| |apply NoDup_seqZ|done].
  clear s a Hr. intros s a t Ht%elem_of_seqZ Hr.
  assert (Hv : valid_timer p t) by (unfold valid_timer; lia).
  pose proof (is_expired_ok s a p t (clock t) Hr Hv) as He.
  assert (Hact : pd_timer_is_active p t s = running (a p t)) by (by apply Hr).
  destruct (pd_timer_is_expired p t (clock t) s) as [b s'] eqn:E. destruct He as [-> He].
  rewrite Hact. destruct (a p t) as [| |d] eqn:Ea; simpl in *.
  - eapply rep_proper; [done| |exact Hr]. intros p' t' _. rewrite put1_eq.
    by destruct (Z.eqb_spec p' p) as [->|], (Z.eqb_spec t' t) as [->|].
  - eapply rep_proper; [done| |exact Hr]. intros p' t' _. rewrite put1_eq.
    by destruct (Z.eqb_spec p' p) as [->|], (Z.eqb_spec t' t) as [->|].
  - destruct (d <=? clock t); simpl in *; [|done].
    eapply rep_proper; [done| |by apply inactive_ok].
    intros p' t' _. rewrite !put1_eq. by destruct ((p' =? p) && (t' =? t)).
Qed.

Lemma disable_range_ok s a p r :
  rep s a -> 0 <= p < MAX_PD_PORTS ->
  rep (pd_timer_disable_range p r s) (spec_call (DisableRange p r) a).2.
Proof.
  intros Hr Hp. unfold pd_timer_disable_range, spec_call.
  destruct (range_bounds r) as [[st en]|] eqn:Er; [|done].
  assert (Hb : 0 <= st /\ en < PD_TIMER_COUNT).
  { destruct r; simpl in Er; try discriminate; injection Er as <- <-; by vm_compute. }
  eapply rep_proper; [done| |apply (fold_timers_ok rep _ (fun _ _ => Disabled) p)].
  - intros p' t' _. cbn [snd]. unfold put. destruct (p' =? p); [|done].
    case_decide as Hd; rewrite elem_of_seqZ in Hd.
    + by replace ((st <=? t') && (t' <=? en)) with true by lia.
    + by replace ((st <=? t') && (t' <=? en)) with false by lia.
  - apply _.
  - intros s' a' t Ht%elem_of_seqZ Hr'. apply disable_ok; [done|]. unfold valid_timer. lia.
  - apply NoDup_seqZ.
  - done.
Qed.

Lemma init_loop_ok s a p :
  rep0 s a -> 0 <= p < MAX_PD_PORTS ->
  rep0 (foldl (fun s bit => PD_SET_DISABLED (PD_CLR_ACTIVE s p bit) p bit) s (seqZ 0 PD_TIMER_COUNT))
    (put a p (fun _ _ => Disabled)).
Proof.
  intros Hr Hp.
  assert (Hprop : Proper (eq ==> spec_eq ==> iff) rep0).
  { assert (H : forall s a a', spec_eq a a' -> rep0 s a -> rep0 s a').
    { intros s0 a0 a' Ha []. split; try done; intros p0 t0; intros; rewrite <- ?Ha in * by done; auto. }
    intros s0 ? <- a0 a' Ha. split; apply H; [done|by symmetry]. }
  eapply Hprop; [done|symmetry; apply put_all|].
  apply (fold_timers_ok rep0); [done| |apply NoDup_seqZ|done].
  clear s a Hr. intros s a t Ht%elem_of_seqZ Hr.
  assert (Hv : valid_timer p t) by (unfold valid_timer; lia).
  refine (rep_len_set s _ a Hr _ _ _ _ _ _ _ _ _ _); simpl; try done.
  - apply length_clear_bit.
  - apply length_set_bit.
  - apply Hr.
  - intros p' t' Hv'. rewrite put1_eq.
    pose proof (chk_clr_active s p t p' t' ltac:(apply Hr) Hv Hv') as E.
    unfold PD_CHK_ACTIVE in *. simpl in *. rewrite E.
    destruct ((p' =? p) && (t' =? t)); [done|]. by apply Hr.
  - intros p' t' Hv'. rewrite put1_eq.
    pose proof (chk_set_disabled s p t p' t' ltac:(apply Hr) Hv Hv') as E.
    unfold PD_CHK_DISABLED in *. simpl in *. rewrite E.
    destruct ((p' =? p) && (t' =? t)); [done|]. by apply Hr.
  - intros p' t' d Hv'. rewrite put1_eq. destruct ((p' =? p) && (t' =? t)); [done|].
    intros Hd. by apply Hr.
Qed.

Lemma foldl_keeps {A B C} (f : A -> B -> A) (h : A -> C) l s :
  (forall s x, h (f s x) = h s) -> h (foldl f s l) = h s.
Proof. intros H. revert s. induction l as [|x l IH]; intros s; simpl; [done|]. by rewrite IH. Qed.

Lemma timer_init_ok s a p :
  rep s a -> 0 <= p < MAX_PD_PORTS ->
  rep (pd_timer_init p s) (put a p (fun _ _ => Disabled)).
Proof.
  intros [Hr Hc] Hp. unfold pd_timer_init.
  set (s1 := if CONFIG_CMD_PD_TIMER then set_count s p 0 else s).
  assert (Hr1 : rep0 s1 a).
  { unfold s1. destruct CONFIG_CMD_PD_TIMER; [|done]. destruct Hr. split; try done.
    simpl. unfold aset. by rewrite length_insert. }
  split; [by apply init_loop_ok|].
  intros Hcmd p' Hp'. destruct (Hc Hcmd p' Hp') as [E1 E2].
  rewrite (foldl_keeps _ count) by done. rewrite (foldl_keeps _ max_count) by done.
  unfold s1. rewrite Hcmd. simpl. rewrite aget_aset by (destruct Hr; lia).
  assert (En : nrunning (put a p (fun _ _ => Disabled)) p' = if p' =? p then 0 else nrunning a p').
  { unfold nrunning, put. destruct (p' =? p); [|done].
    induction (seqZ 0 PD_TIMER_COUNT) as [|t l IH]; cbn [foldr]; [done|]. by rewrite IH. }
  rewrite En. pose proof (nrunning_range a p'). destruct (p' =? p); lia.
Qed.

Lemma foldr_min r d l : foldr Z.min (Z.min r d) l = Z.min d (foldr Z.min r l).
Proof. induction l as [|x l IH]; simpl; lia. Qed.

Lemma next_loop_ok s a p now l r :
  rep s a -> (forall t, t ∈ l -> valid_timer p t) ->
  next_loop p now s l r =
    if existsb (due now) (a p <$> l) then EXPIRE_NOW
    else foldr Z.min r (concat (remaining now <$> (a p <$> l))).
Proof.
  intros [[] _]. revert r. induction l as [|t l IH]; intros r Hl; [done|].
  assert (Hv : valid_timer p t) by (apply Hl, elem_of_cons; by left).
  assert (Hl' : forall t, t ∈ l -> valid_timer p t) by (intros; apply Hl, elem_of_cons; by right).
  cbn [next_loop]. unfold pd_timer_is_active. rewrite rep_active0 by done.
  rewrite !fmap_cons. cbn [existsb concat]. destruct (a p t) as [| |d] eqn:Ea; cbn [running due remaining orb app].
  - by apply IH.
  - by apply IH.
  - rewrite (rep_deadline0 p t d) by done. destruct (d <=? now); [done|]. simpl orb.
    rewrite IH by done. destruct (existsb _ _); [done|]. simpl.
    set (x := s32 (u64 (d - now))).
    replace (if x <? r then x else r) with (Z.min r x) by (destruct (Z.ltb_spec x r); lia).
    apply foldr_min.
Qed.

Lemma run_call_ok c s a :
  rep s a -> valid_call c ->
  (run_call c s).1 = (spec_call c a).1 /\ rep (run_call c s).2 (spec_call c a).2.
Proof.
  intros Hr Hv. destruct c as [p|p t us now|p t|p r|p t|p t now|p clock|p now]; simpl in Hv.
  - split; [done|]. by apply timer_init_ok.
  - split; [done|]. by apply enable_ok.
  - split; [done|]. by apply disable_ok.
  - split; [done|]. by apply disable_range_ok.
  - split; [|done]. simpl. f_equal. by apply Hr.
  - pose proof (is_expired_ok s a p t now Hr Hv) as H. simpl.
    destruct (pd_timer_is_expired p t now s) as [b s']. by destruct H as [-> H].
  - split; [done|]. by apply manage_ok.
  - split; [|done]. simpl. unfold pd_timer_next_expiration, next_due.
    rewrite (next_loop_ok s a) by (done || intros t Ht%elem_of_seqZ; unfold valid_timer; lia).
    by destruct (existsb _ _).
Qed.

Lemma foldr_min_spec l r :
  foldr Z.min r l <= r /\ (forall x, x ∈ l -> foldr Z.min r l <= x) /\
  (foldr Z.min r l = r \/ foldr Z.min r l ∈ l).
Proof.
  induction l as [|y l (H1 & H2 & H3)]; simpl.
  - split; [lia|]. split; [intros x Hx; by apply elem_of_nil in Hx|by left].
  - split; [lia|]. split.
    + intros x [->|Hx]%elem_of_cons; [lia|]. specialize (H2 x Hx). lia.
    + destruct (Z.min_spec y (foldr Z.min r l)) as [[_ E]|[_ E]]; rewrite E.
      * right. apply elem_of_cons. by left.
      * destruct H3 as [->|H3]; [by left|right]. apply elem_of_cons. by right.
Qed.

(** The wake-up time of a port in terms of the deadlines: the earliest one
    from [now], or [NO_TIMEOUT] when no timer runs. *)
Definition wakes (a : spec) (p now r : Z) : Prop :=
  (r = NO_TIMEOUT /\ forall t, 0 <= t < PD_TIMER_COUNT -> running (a p t) = false) \/
  ((exists t d, 0 <= t < PD_TIMER_COUNT /\ a p t = Running d /\ r = Z.max 0 (d - now)) /\
   forall t d, 0 <= t < PD_TIMER_COUNT -> a p t = Running d -> r <= Z.max 0 (d - now)).

Lemma next_due_wakes a p now :
  (forall t d, 0 <= t < PD_TIMER_COUNT -> a p t = Running d -> 0 <= d < now + MAX_EXPIRE) ->
  wakes a p now (next_due a p now).
Proof.
  intros Hd. unfold next_due, wakes. set (l := a p <$> seqZ 0 PD_TIMER_COUNT).
  assert (Hl : forall x, x ∈ l <-> exists t, 0 <= t < PD_TIMER_COUNT /\ a p t = x).
  { intros x. unfold l. rewrite list_elem_of_fmap. setoid_rewrite elem_of_seqZ.
    split; [intros (t & -> & Ht)|intros (t & Ht & <-)]; exists t; split; (done || lia). }
  destruct (existsb (due now) l) eqn:Ee.
  - right. apply existsb_exists in Ee as (x & Hx & Hdue). apply list_elem_of_In, Hl in Hx as (t & Ht & Hx).
    destruct x as [| |d]; try done. simpl in Hdue. unfold EXPIRE_NOW. split.
    + exists t, d. split; [done|]. split; [done|]. lia.
    + intros. lia.
  - assert (Hlate : forall t d, 0 <= t < PD_TIMER_COUNT -> a p t = Running d -> now < d).
    { intros t d Ht Ex. destruct (Z.lt_ge_cases now d) as [|Hle]; [done|exfalso].
      apply not_true_iff_false in Ee. apply Ee, existsb_exists. exists (Running d).
      split; [apply list_elem_of_In, Hl; eauto|simpl; lia]. }
    assert (Hrem : forall x, x ∈ concat (remaining now <$> l) <->
              exists t d, 0 <= t < PD_TIMER_COUNT /\ a p t = Running d /\ x = d - now).
    { intros x. rewrite list_elem_of_In, in_concat. split.
      - intros (r & Hr & Hx). apply list_elem_of_In, list_elem_of_fmap in Hr as (y & -> & Hy).
        apply Hl in Hy as (t & Ht & Ey). destruct y as [| |d]; simpl in Hx; try done.
        destruct Hx as [<-|[]]. exists t, d. split; [done|]. split; [done|].
        pose proof (Hlate t d Ht Ey). pose proof (Hd t d Ht Ey). unfold MAX_EXPIRE in *.
        destruct (Z.leb_spec d now); [lia|].
        rewrite wrap_id by (unfold in_range; lia). apply s32_id. lia.
      - intros (t & d & Ht & Ea & ->). exists (remaining now (Running d)). split.
        + apply list_elem_of_In, list_elem_of_fmap. exists (Running d). split; [done|].
          apply Hl. eauto.
        + pose proof (Hlate t d Ht Ea). pose proof (Hd t d Ht Ea). unfold MAX_EXPIRE in *.
          simpl. destruct (Z.leb_spec d now); [lia|]. left.
          rewrite wrap_id by (unfold in_range; lia). apply s32_id. lia. }
    destruct (foldr_min_spec (concat (remaining now <$> l)) MAX_EXPIRE) as (_ & H2 & H3).
    set (m := foldr Z.min MAX_EXPIRE _) in *. destruct (Z.eqb_spec m MAX_EXPIRE) as [Em|Em].
    + left. split; [done|]. intros t Ht. destruct (a p t) as [| |d] eqn:Ea; try done. exfalso.
      specialize (H2 (d - now)). rewrite Hrem in H2. specialize (H2 ltac:(eauto 10)).
      pose proof (Hd t d Ht Ea). lia.
    + right. destruct H3 as [|H3]; [done|]. apply Hrem in H3 as (t & d & Ht & Ea & E). split.
      * exists t, d. pose proof (Hlate t d Ht Ea). split; [done|]. split; [done|]. lia.
      * intros t' d' Ht' Ea'. specialize (H2 (d' - now)). rewrite Hrem in H2.
        specialize (H2 ltac:(eauto 10)). lia.
Qed.

(** C33. Any sequence of calls on existing ports and timers gives the results
    of the specification, in which every timer is disabled, expired or running
    to a deadline, and leaves arrays that represent its state, the debug
    counters included: a timer reports expiry exactly when it was enabled and
    its deadline has passed, and stays expired until it is enabled or disabled
    again.  The task's next wake-up is the earliest running deadline of the
    port, provided the deadlines are within 2^31 us of [now]. *)
Theorem pd_timer_refines s a l :
  rep s a -> Forall valid_call l ->
  let '(rs, s') := run_calls l s in
  let '(rs', a') := spec_calls l a in
  rs = rs' /\ rep s' a' /\
  forall p now, 0 <= p < MAX_PD_PORTS ->
    (forall t d, 0 <= t < PD_TIMER_COUNT -> a' p t = Running d -> 0 <= d < now + MAX_EXPIRE) ->
    wakes a' p now (pd_timer_next_expiration p now s').
Proof.
  intros Hr Hl. revert s a Hr. induction Hl as [|c l Hc Hl IH]; intros s a Hr; simpl.
  - split; [done|]. split; [done|]. intros p now Hp Hd.
    destruct (run_call_ok (NextExpiration p now) s a Hr Hp) as [E _]. simpl in E. rewrite E.
    by apply next_due_wakes.
  - destruct (run_call_ok c s a Hr Hc) as [E Hr'].
    destruct (run_call c s) as [r s1], (spec_call c a) as [r' a1]. simpl in *. subst r'.
    specialize (IH s1 a1 Hr').
    destruct (run_calls l s1) as [rs s2], (spec_calls l a1) as [rs' a2].
    destruct IH as (-> & ? & ?). done.
Qed.

End Ports.

(** Two ports at reset: every bit is clear, so every timer reads as expired
    until [pd_timer_init]. *)
Definition reset : timers :=
  Timers [0; 0; 0] [0; 0; 0] (replicate 2 (replicate 37 0)) [0; 0] [0; 0].

Lemma reset_rep : rep 2 true reset (fun _ _ => Expired).
Proof.
  assert (Hb : forall p t, valid_timer 2 p t -> atomic_test_bit [0; 0; 0] (bit_of p t) = false).
  { intros p t [Hp Ht]. rewrite test_bit_spec. unfold bit_of, PD_TIMER_COUNT in *.
    unfold aget.
    assert (Hi : 0 <= (p * 37 + t) / 32 < 3) by divlia.
    set (i := (p * 37 + t) / 32) in *.
    assert (Hc : i = 0 \/ i = 1 \/ i = 2) by lia.
    destruct Hc as [-> | [-> | ->]]; simpl; apply Z.bits_0. }
  split; [split; try done; first [by repeat constructor | intros p t Hv; by apply Hb]|].
  intros _ p Hp. assert (Hc : p = 0 \/ p = 1) by lia. destruct Hc as [->| ->]; by vm_compute.
Qed.

Lemma pd_timer_refines_witness :
  let l := [Init 0; Enable 0 3 1000 5000; Enable 0 4 200 5000; IsExpired 0 4 5300;
            NextExpiration 0 5300; ManageExpired 0 (fun _ => 6500); IsExpired 0 3 6600;
            IsDisabled 0 5] in
  rep 2 true reset (fun _ _ => Expired) /\
  fst (run_calls true l reset) = [0; 0; 0; 1; 700; 0; 1; 1] /\
  rep 2 true (snd (run_calls true l reset)) (snd (spec_calls l (fun _ _ => Expired))).
Proof.
  intros l. split; [exact reset_rep|]. split; [by vm_compute|].
  pose proof (pd_timer_refines 2 true reset (fun _ _ => Expired) l reset_rep) as H.
  specialize (H ltac:(repeat constructor; unfold PD_TIMER_COUNT; lia)).
  destruct (run_calls true l reset) as [rs s'], (spec_calls l (fun _ _ => Expired)) as [rs' a'].
  apply H.
Defined.

End PdTimer.
