(* ===== verification/Mkbp.v ===== *)
(** * MKBP events (common/mkbp_fifo.c, common/mkbp_event.c)

    Keyboard, button, switch and sysrq events wait in a common FIFO; the bit
    set [events] tells the AP which kinds of event are pending, and the host
    command EC_CMD_GET_NEXT_EVENT picks a pending kind round robin and asks
    its source for the data.  The FIFO's sources refuse ([-EC_ERROR_BUSY]) when
    another kind is at the head.  The interrupt to the AP is modelled in
    MkbpInterrupt.v. *)

From S2P Require Import Prelude.

Module Mkbp.

Definition FIFO_DEPTH : Z := 16.
Definition EC_ERROR_UNKNOWN_ : Z := 1.
Definition EC_ERROR_BUSY_ : Z := 6.

(** [enum ec_mkbp_event] *)
Definition EC_MKBP_EVENT_KEY_MATRIX : Z := 0.
Definition EC_MKBP_EVENT_HOST_EVENT : Z := 1.
Definition EC_MKBP_EVENT_BUTTON : Z := 3.
Definition EC_MKBP_EVENT_SWITCH : Z := 4.
Definition EC_MKBP_EVENT_SYSRQ : Z := 6.
Definition EC_MKBP_EVENT_HOST_EVENT64 : Z := 7.
Definition EC_MKBP_EVENT_COUNT : Z := 13.
Definition EC_MKBP_HAS_MORE_EVENTS : Z := 0x80.

(** [data] is the union's 18 bytes. *)
(** src/include/ec_commands.h:4259-4263 [ec_response_get_next_event_v3] *)
Record entry := Entry { event_type : Z; data : list Z }.
#[export] Instance entry_inhabited : Inhabited entry := populate (Entry 0 []).

(** src/common/mkbp_fifo.c:30-34 [fifo_start] *)
Record fifo_state := Fifo {
  fifo_start : Z; fifo_end : Z; fifo_entries : Z; fifo_max_depth : Z; fifo : list entry }.

(** The FIFO, [state.events] and the [last] of [mkbp_get_next_event]; [W] is
    the state of the other event sources. *)
(** src/common/mkbp_event.c:52-68 [struct mkbp_state] *)
Record mkbp_state {W : Type} := Mkbp {
  the_fifo : fifo_state; events : Z; last : Z; world : W }.
Arguments mkbp_state : clear implicits.
Arguments Mkbp {W}.

Section Device.
(** The number of keyboard columns, [keyboard_get_cols ()]. *)
Context (cols : Z).

(** src/common/mkbp_fifo.c:52-71 [get_data_size] *)
Definition get_data_size (e : Z) : Z :=
  if e =? EC_MKBP_EVENT_KEY_MATRIX then cols
  else if e =? EC_MKBP_EVENT_HOST_EVENT64 then 8
  else if (e =? EC_MKBP_EVENT_HOST_EVENT) || (e =? EC_MKBP_EVENT_BUTTON) ||
          (e =? EC_MKBP_EVENT_SWITCH) || (e =? EC_MKBP_EVENT_SYSRQ) then 4
  else 0.

(** Popping; [buffp] is the caller's buffer, [None] for NULL. *)
(** src/common/mkbp_fifo.c:78-112 [fifo_remove] *)
Definition fifo_remove (buffp : option (list Z)) (f : fifo_state) :
    ec_error * option (list Z) * fifo_state :=
  if fifo_entries f =? 0 then
    let last := (fifo_start f + FIFO_DEPTH - 1) mod FIFO_DEPTH in
    let e := aget (fifo f) last in
    (EC_ERROR_UNKNOWN,
     (fun b => bcopy b 0 (data e) (get_data_size (event_type e))) <$> buffp, f)
  else
    let e := aget (fifo f) (fifo_start f) in
    (EC_SUCCESS,
     (fun b => bcopy b 0 (data e) (get_data_size (event_type e))) <$> buffp,
     Fifo ((fifo_start f + 1) mod FIFO_DEPTH) (fifo_end f) (fifo_entries f - 1)
       (fifo_max_depth f) (fifo f)).

(** src/common/mkbp_fifo.c:117-120 [mkbp_fifo_depth_update] *)
Definition mkbp_fifo_depth_update (new_max_depth : Z) (f : fifo_state) : fifo_state :=
  Fifo (fifo_start f) (fifo_end f) (fifo_entries f) new_max_depth (fifo f).

(** One step of the loop: the entries moved, the end and the new count. *)
(** src/common/mkbp_fifo.c:139-148 [cur] *)
Definition clear_step (start : Z) (s : list entry * Z * Z) (i : Z) : list entry * Z * Z :=
  let '(l, end_, n) := s in
  let cur := (start + i) mod FIFO_DEPTH in
  if event_type (aget l cur) =? EC_MKBP_EVENT_KEY_MATRIX then (l, end_, n)
  else (aset l end_ (aget l cur), (end_ + 1) mod FIFO_DEPTH, n + 1).

(** src/common/mkbp_fifo.c:122-154 [mkbp_fifo_clear_keyboard] *)
Definition mkbp_fifo_clear_keyboard (f : fifo_state) : fifo_state :=
  let '(l, end_, n) :=
    foldl (clear_step (fifo_start f)) (fifo f, fifo_start f, 0) (seqZ 0 (fifo_entries f)) in
  Fifo (fifo_start f) end_ n (fifo_max_depth f) l.

(** The [memset] uses the size of the older, 17-byte response. *)
(** src/common/mkbp_fifo.c:156-178 [mkbp_clear_fifo] *)
Definition mkbp_clear_fifo (f : fifo_state) : fifo_state :=
  Fifo 0 0 0 (fifo_max_depth f)
    ((fun e => Entry 0 (bfill (data e) 0 0 16)) <$> fifo f).

Context {W : Type}.

Definition set_fifo (s : mkbp_state W) f := Mkbp f (events s) (last s) (world s).

(** The part of [activate_mkbp_with_events] that concerns the event set; it
    always returns 1. *)
(** src/common/mkbp_event.c:360-365 [mkbp_send_event] *)
Definition mkbp_send_event (event_type : Z) (s : mkbp_state W) : Z * mkbp_state W :=
  (1, Mkbp (the_fifo s) (u32 (Z.lor (events s) (BIT event_type))) (last s) (world s)).

(** src/common/mkbp_fifo.c:180-208 [mkbp_fifo_add] *)
Definition mkbp_fifo_add (ev : Z) (buffp : list Z) (s : mkbp_state W) :
    ec_error * mkbp_state W :=
  let f := the_fifo s in
  if fifo_max_depth f <=? fifo_entries f then (EC_ERROR_OVERFLOW, s)
  else
    let size := u8 (get_data_size ev) in
    let e := Entry ev (bcopy (data (aget (fifo f) (fifo_end f))) 0 buffp size) in
    let f := Fifo (fifo_start f) ((fifo_end f + 1) mod FIFO_DEPTH) (fifo_entries f + 1)
               (fifo_max_depth f) (aset (fifo f) (fifo_end f) e) in
    let '(sent, s) := mkbp_send_event ev (set_fifo s f) in
    let s := if negb (bool_of_Z sent) && (fifo_entries (the_fifo s) =? 1)
             then set_fifo s (fifo_remove None (the_fifo s)).2 else s in
    (EC_SUCCESS, s).

(** Returns the size or a negative error, and the caller's buffer. *)
(** src/common/mkbp_fifo.c:210-244 [mkbp_fifo_get_next_event] *)
Definition mkbp_fifo_get_next_event (out : list Z) (evt : Z) (s : mkbp_state W) :
    Z * list Z * mkbp_state W :=
  let f := the_fifo s in
  let t := event_type (aget (fifo f) (fifo_start f)) in
  if fifo_entries f =? 0 then (-1, out, s)
  else if negb (t =? u8 evt) then (- EC_ERROR_BUSY_, out, s)
  else
    let '(_, out', f) := fifo_remove (Some out) f in
    let s := set_fifo s f in
    let s := if bool_of_Z (fifo_entries f)
             then (mkbp_send_event (event_type (aget (fifo f) (fifo_start f))) s).2 else s in
    let size := u8 (get_data_size t) in
    (if bool_of_Z size then size else - EC_ERROR_UNKNOWN_, default out out', s).

(** The sources registered by DECLARE_EVENT_SOURCE: the four kinds that use the
    FIFO, and the others, which work on [W]. *)
Definition is_fifo_event (e : Z) : bool :=
  (e =? EC_MKBP_EVENT_KEY_MATRIX) || (e =? EC_MKBP_EVENT_BUTTON) ||
  (e =? EC_MKBP_EVENT_SWITCH) || (e =? EC_MKBP_EVENT_SYSRQ).
Context (other_source : Z -> option (list Z -> W -> Z * list Z * W)).

(** src/common/mkbp_event.c:405-421 [find_mkbp_event_source] *)
Definition find_mkbp_event_source (type : Z) :
    option (list Z -> mkbp_state W -> Z * list Z * mkbp_state W) :=
  if is_fifo_event type then Some (fun out s => mkbp_fifo_get_next_event out type s)
  else
    get ← other_source type;
    Some (fun out s =>
            let '(n, out, w) := get out (world s) in
            (n, out, Mkbp (the_fifo s) (events s) (last s) w)).

(** src/common/mkbp_event.c:395-403 [take_event_if_set] *)
Definition take_event_if_set (event_type events : Z) : bool * Z :=
  (bool_of_Z (Z.land events (BIT event_type)),
   Z.land events (u32 (Z.lnot (BIT event_type)))).

(** The [for] loop from [i]: the index found and the new event set. *)
(** src/common/mkbp_event.c:438-442 [take_event_if_set] *)
Fixpoint take_next (n : nat) (last i events : Z) : Z * Z :=
  match n with
  | O => (i, events)
  | S n =>
    let '(taken, events) := take_event_if_set ((last + i) mod EC_MKBP_EVENT_COUNT) events in
    if taken then (i, events) else take_next n last (i + 1) events
  end.

Inductive ec_status := EC_RES_SUCCESS | EC_RES_ERROR | EC_RES_UNAVAILABLE.

(** Only the result; the interrupt is modelled in MkbpInterrupt.v. *)
(** src/common/mkbp_event.c:367-392 [set_inactive_if_no_events] *)
Definition set_inactive_if_no_events (s : mkbp_state W) : bool := events s =? 0.

(** The loop that finds an event whose source is ready; returns the status for
    the early returns, or the event with the source's result. *)
(** src/common/mkbp_event.c:433-474 [evt] *)
Fixpoint next_event_loop (fuel : nat) (out : list Z) (s : mkbp_state W) :
    option ((ec_status + Z * Z * list Z) * mkbp_state W) :=
  match fuel with
  | O => None
  | S fuel =>
    let '(i, evs) := take_next (Z.to_nat EC_MKBP_EVENT_COUNT) (last s) 0 (events s) in
    let s := Mkbp (the_fifo s) evs (last s) (world s) in
    if i =? EC_MKBP_EVENT_COUNT then
      if set_inactive_if_no_events s then Some (inl EC_RES_UNAVAILABLE, s)
      else next_event_loop fuel out s
    else
      let evt := (i + last s) mod EC_MKBP_EVENT_COUNT in
      let s := Mkbp (the_fifo s) evs (evt + 1) (world s) in
      match find_mkbp_event_source evt with
      | None => Some (inl EC_RES_ERROR, s)
      | Some get_data =>
        let '(data_size, out, s) := get_data out s in
        if data_size =? - EC_ERROR_BUSY_ then
          next_event_loop fuel out
            (Mkbp (the_fifo s) (Z.lor (events s) (BIT evt)) (last s) (world s))
        else Some (inr (evt, data_size, out), s)
      end
  end.

Definition key_matrix_size (version : Z) : Z :=
  if version =? 0 then 13 else if (version =? 1) || (version =? 2) then 16 else 18.

(** [MIN (data_size, max_size)] of an [int] and a [size_t]: the comparison is
    unsigned. *)
Definition min_int_size (data_size max_size : Z) : Z :=
  if u32 data_size <? max_size then data_size else max_size.

(** The response: event type and data. *)
(** src/common/mkbp_event.c:423-503 [mkbp_get_next_event] *)
Definition mkbp_get_next_event (fuel : nat) (version : Z) (s : mkbp_state W) :
    option ((ec_status * option (Z * list Z)) * mkbp_state W) :=
  '(r, s) ← next_event_loop fuel (replicate 18 0) s;
  match r with
  | inl status => Some ((status, None), s)
  | inr (evt, data_size, out) =>
    let data_size := if evt =? EC_MKBP_EVENT_KEY_MATRIX
                     then min_int_size data_size (key_matrix_size version) else data_size in
    let type := if negb (set_inactive_if_no_events s) && (2 <=? version)
                then Z.lor evt EC_MKBP_HAS_MORE_EVENTS else evt in
    if data_size <? 0 then Some ((EC_RES_ERROR, None), s)
    else Some ((EC_RES_SUCCESS, Some (type, take (Z.to_nat data_size) out)), s)
  end.

(** ** The FIFO as a list *)

Definition slot (f : fifo_state) (i : Z) : entry :=
  aget (fifo f) ((fifo_start f + i) mod FIFO_DEPTH).
Definition item (e : entry) : Z * list Z :=
  (event_type e, take (Z.to_nat (get_data_size (event_type e))) (data e)).
Definition queue (f : fifo_state) : list (Z * list Z) :=
  (fun i => item (slot f i)) <$> seqZ 0 (fifo_entries f).

Record wf (f : fifo_state) : Prop := {
  wf_start : 0 <= fifo_start f < FIFO_DEPTH;
  wf_entries : 0 <= fifo_entries f <= FIFO_DEPTH;
  wf_end : fifo_end f = (fifo_start f + fifo_entries f) mod FIFO_DEPTH;
  wf_depth : fifo_max_depth f <= FIFO_DEPTH;
  wf_len : Z.of_nat (length (fifo f)) = FIFO_DEPTH;
  wf_data : Forall (fun e => Z.of_nat (length (data e)) = 18) (fifo f) }.

(** ** Ring lemmas *)

Lemma slot_eq s i j : 0 <= i < FIFO_DEPTH -> 0 <= j < FIFO_DEPTH ->
  ((s + i) mod FIFO_DEPTH =? (s + j) mod FIFO_DEPTH) = (i =? j).
Proof. unfold FIFO_DEPTH. intros. divlia. Qed.

Lemma slot_in f i : wf f -> 0 <= (fifo_start f + i) mod FIFO_DEPTH < Z.of_nat (length (fifo f)).
Proof. intros []. rewrite wf_len0. unfold FIFO_DEPTH. divlia. Qed.

Lemma slot_data f i : wf f -> Z.of_nat (length (data (slot f i))) = 18.
Proof.
  intros Hw. pose proof (slot_in f i Hw) as Hi. destruct Hw. unfold slot, aget.
  rewrite Forall_lookup in wf_data0. eapply wf_data0. apply list_lookup_lookup_total_lt. lia.
Qed.

Lemma queue_nil f : wf f -> queue f = [] <-> fifo_entries f = 0.
Proof.
  intros []. unfold queue. split.
  - intros E. assert (H : length (queue f) = 0%nat) by (unfold queue; by rewrite E).
    unfold queue in H. rewrite length_fmap, length_seqZ in H. lia.
  - intros ->. done.
Qed.

Lemma queue_cons f :
  wf f -> fifo_entries f <> 0 ->
  queue f = item (slot f 0) ::
            ((fun i => item (slot f (i + 1))) <$> seqZ 0 (fifo_entries f - 1)).
Proof.
  intros [] Hn. unfold queue. rewrite (seqZ_cons 0) by lia. cbn [fmap list_fmap]. f_equal.
  rewrite (seqZ_fmap_shift _ (Z.succ 0)). replace (Z.pred (fifo_entries f)) with (fifo_entries f - 1) by lia.
  apply seqZ_fmap_ext. intros i Hi. do 2 f_equal. lia.
Qed.

(** ** The FIFO's operations *)

Context (cols_range : 0 < cols <= 18).

Lemma data_size_range e : 0 <= get_data_size e <= 18.
Proof. unfold get_data_size. repeat case_match; lia. Qed.

Lemma data_size_u8 e : u8 (get_data_size e) = get_data_size e.
Proof. apply wrap_id. pose proof (data_size_range e). unfold in_range. lia. Qed.

Lemma item_fresh e old buffp :
  Z.of_nat (length old) = 18 -> Z.of_nat (length buffp) = 18 ->
  item (Entry e (bcopy old 0 buffp (get_data_size e))) =
    (e, take (Z.to_nat (get_data_size e)) buffp).
Proof.
  intros Ho Hb. pose proof (data_size_range e). unfold item. simpl. f_equal.
  pose proof (slice_bcopy_same old buffp 0 (get_data_size e)) as H1.
  unfold slice in H1. simpl in H1. apply H1; lia.
Qed.

Lemma add_ok s ev buffp :
  wf (the_fifo s) -> 0 <= ev < EC_MKBP_EVENT_COUNT -> Z.of_nat (length buffp) = 18 ->
  is_u32 (events s) -> fifo_entries (the_fifo s) < fifo_max_depth (the_fifo s) ->
  exists s', mkbp_fifo_add ev buffp s = (EC_SUCCESS, s') /\ wf (the_fifo s') /\
    queue (the_fifo s') =
      queue (the_fifo s) ++ [(ev, take (Z.to_nat (get_data_size ev)) buffp)] /\
    events s' = Z.lor (events s) (BIT ev) /\ last s' = last s /\ world s' = world s /\
    fifo_max_depth (the_fifo s') = fifo_max_depth (the_fifo s).
Proof.
  intros Hw Hev Hb Hu Hd. unfold mkbp_fifo_add.
  destruct (Z.leb_spec (fifo_max_depth (the_fifo s)) (fifo_entries (the_fifo s))); [lia|].
  simpl. eexists. split; [done|]. cbn [the_fifo events last world set_fifo].
  pose proof Hw as []. set (f := the_fifo s) in *. rewrite data_size_u8.
  pose proof (slot_data f (fifo_entries f) Hw) as Hold. unfold slot in Hold. rewrite <- wf_end0 in Hold.
  pose proof (data_size_range ev) as Hs.
  split; [|split; [|split; [|done]]].
  - split; cbn.
    + done.
    + unfold FIFO_DEPTH in *. lia.
    + rewrite wf_end0. unfold FIFO_DEPTH. divlia.
    + done.
    + unfold aset. by rewrite length_insert.
    + apply Forall_insert; [done|]. simpl. rewrite length_bcopy by lia. done.
  - unfold queue. cbn. rewrite seqZ_app by lia. rewrite fmap_app. f_equal.
    + apply seqZ_fmap_ext. intros i Hi. unfold slot. cbn. f_equal.
      rewrite aget_aset by (rewrite ?wf_len0, ?wf_end0; unfold FIFO_DEPTH in *; divlia).
      rewrite wf_end0, slot_eq by (unfold FIFO_DEPTH in *; lia).
      by destruct (Z.eqb_spec i (fifo_entries f)); [lia|].
    + change (seqZ (0 + fifo_entries f) 1) with [0 + fifo_entries f]. simpl. f_equal.
      unfold slot. cbn. rewrite Z.add_0_l.
      rewrite aget_aset by (rewrite ?wf_len0, ?wf_end0; unfold FIFO_DEPTH in *; divlia).
      rewrite wf_end0, Z.eqb_refl. rewrite <- wf_end0. by apply item_fresh.
  - apply wrap_id. apply lor_range; [lia|done|]. unfold BIT, in_range, EC_MKBP_EVENT_COUNT in *.
    rewrite Z.shiftl_1_l. split; [lia|]. apply Z.pow_lt_mono_r; lia.
Qed.

(** What taking the head leaves. *)
Definition popped (s s' : mkbp_state W) (q : list (Z * list Z)) : Prop :=
  wf (the_fifo s') /\ queue (the_fifo s') = q /\
  events s' = match q with [] => events s | (t, _) :: _ => Z.lor (events s) (BIT t) end /\
  last s' = last s /\ world s' = world s /\
  fifo_max_depth (the_fifo s') = fifo_max_depth (the_fifo s).

Lemma get_ok s evt out :
  wf (the_fifo s) -> 0 <= evt < EC_MKBP_EVENT_COUNT -> Z.of_nat (length out) = 18 ->
  is_u32 (events s) -> Forall (fun x => 0 <= x.1 < EC_MKBP_EVENT_COUNT) (queue (the_fifo s)) ->
  match queue (the_fifo s) with
  | [] => mkbp_fifo_get_next_event out evt s = (-1, out, s)
  | (t, d) :: q =>
    if t =? evt then
      exists s', mkbp_fifo_get_next_event out evt s =
        (if get_data_size t =? 0 then -1 else get_data_size t, bcopy out 0 d (get_data_size t), s') /\
        popped s s' q
    else mkbp_fifo_get_next_event out evt s = (- EC_ERROR_BUSY_, out, s)
  end.
Proof.
  intros Hw Hev Hout Hu Hq. unfold mkbp_fifo_get_next_event. set (f := the_fifo s) in *.
  destruct (Z.eqb_spec (fifo_entries f) 0) as [E|E].
  { by rewrite (proj2 (queue_nil f Hw) E). }
  rewrite queue_cons in * by done. set (q := _ <$> _) in *.
  assert (Hh : aget (fifo f) (fifo_start f) = slot f 0).
  { unfold slot. rewrite Z.add_0_r. pose proof Hw as []. by rewrite Z.mod_small. }
  rewrite Hh. unfold item at 1. rewrite (wrap_id 8 evt)
    by (unfold in_range, EC_MKBP_EVENT_COUNT in *; lia).
  set (t := event_type (slot f 0)) in *. destruct (Z.eqb_spec t evt) as [Et|]; [|done].
  simpl negb. cbv iota. unfold fifo_remove. destruct (Z.eqb_spec (fifo_entries f) 0); [done|].
  rewrite Hh. fold t. cbn [fmap option_fmap option_map default]. rewrite data_size_u8.
  pose proof (data_size_range t) as Hs. pose proof (slot_data f 0 Hw) as Hd.
  set (f' := Fifo _ _ _ _ _). eexists.
  split; [apply f_equal2; [apply f_equal2|reflexivity]|].
  - unfold bool_of_Z. by destruct (get_data_size t =? 0).
  - unfold bcopy. rewrite take_take, Nat.min_id. done.
  - pose proof Hw as [].
    assert (Hw' : wf f').
    { split; unfold f'; cbn; try done.
      - unfold FIFO_DEPTH. divlia.
      - lia.
      - rewrite wf_end0. unfold FIFO_DEPTH. divlia. }
    assert (Hslot : forall i, slot f' i = slot f (i + 1)).
    { intros i. unfold slot, f'. cbn. f_equal. unfold FIFO_DEPTH. divlia. }
    assert (Hq' : queue f' = q).
    { unfold queue, q. cbn. apply seqZ_fmap_ext. intros i Hi. by rewrite Hslot. }
    assert (Hh' : aget (fifo f) ((fifo_start f + 1) mod FIFO_DEPTH) = slot f' 0).
    { by rewrite Hslot. }
    unfold popped. destruct (bool_of_Z (fifo_entries f')) eqn:En; unfold bool_of_Z in En.
    + assert (En' : fifo_entries f' <> 0) by lia.
      cbn. split; [done|]. split; [done|]. split; [|done].
      rewrite Hh', <- Hq', queue_cons by done. unfold item at 1.
      rewrite <- Hq', (queue_cons f') in Hq by done.
      apply Forall_cons_1 in Hq as [_ Hq]. apply Forall_cons_1 in Hq as [Ht' _]. simpl in Ht'.
      apply wrap_id. apply lor_range; [lia|done|].
      unfold BIT, in_range, EC_MKBP_EVENT_COUNT in *. rewrite Z.shiftl_1_l.
      split; [lia|]. apply Z.pow_lt_mono_r; lia.
    + cbn. split; [done|]. split; [done|]. split; [|done].
      rewrite <- Hq', (proj2 (queue_nil f' Hw')); [done|lia].
Qed.

Definition not_key (x : Z * list Z) : Prop := x.1 <> EC_MKBP_EVENT_KEY_MATRIX.
#[export] Instance not_key_dec x : Decision (not_key x).
Proof. unfold not_key. apply _. Defined.

(** After the first [k] entries the kept ones are at the front. *)
Definition cleared (f : fifo_state) (k : Z) (r : list entry * Z * Z) : Prop :=
  let '(l, end_, n) := r in
  0 <= n <= k /\ end_ = (fifo_start f + n) mod FIFO_DEPTH /\
  Z.of_nat (length l) = FIFO_DEPTH /\ Forall (fun e => Z.of_nat (length (data e)) = 18) l /\
  (forall j, k <= j < FIFO_DEPTH -> aget l ((fifo_start f + j) mod FIFO_DEPTH) = slot f j) /\
  (fun i => item (aget l ((fifo_start f + i) mod FIFO_DEPTH))) <$> seqZ 0 n =
    filter not_key ((fun i => item (slot f i)) <$> seqZ 0 k).

Lemma clear_step_ok f k r :
  wf f -> 0 <= k < FIFO_DEPTH -> cleared f k r ->
  cleared f (k + 1) (clear_step (fifo_start f) r k).
Proof.
  intros Hw Hk. destruct r as [[l end_] n]. intros (Hn & He & Hl & Hd & Hslots & Hq).
  unfold clear_step. rewrite Hslots by lia.
  unfold cleared. rewrite (seqZ_app 0 k 1) by lia. change (seqZ (0 + k) 1) with [0 + k].
  rewrite fmap_app, list.filter_app, <- Hq. cbn [fmap list_fmap]. rewrite Z.add_0_l.
  destruct (Z.eqb_spec (event_type (slot f k)) EC_MKBP_EVENT_KEY_MATRIX) as [E|E].
  - rewrite filter_cons_False by (unfold not_key, item; simpl; lia). rewrite list.filter_nil, app_nil_r.
    repeat split; try done; try lia. intros j Hj. apply Hslots. lia.
  - rewrite filter_cons_True by done. rewrite list.filter_nil.
    assert (Hg : forall x, 0 <= x < FIFO_DEPTH ->
      aget (aset l end_ (slot f k)) ((fifo_start f + x) mod FIFO_DEPTH) =
      if x =? n then slot f k else aget l ((fifo_start f + x) mod FIFO_DEPTH)).
    { intros x Hx. rewrite aget_aset by (rewrite ?Hl, ?He; unfold FIFO_DEPTH in *; divlia).
      rewrite He, slot_eq by lia. done. }
    split; [lia|]. split; [rewrite He; unfold FIFO_DEPTH; divlia|].
    split; [unfold aset; by rewrite length_insert|].
    split; [apply Forall_insert; [done|by apply slot_data]|]. split.
    + intros j Hj. rewrite Hg by lia. destruct (Z.eqb_spec j n); [lia|]. apply Hslots. lia.
    + rewrite (seqZ_app 0 n 1), fmap_app by lia. change (seqZ (0 + n) 1) with [0 + n].
      f_equal.
      * apply seqZ_fmap_ext. intros x Hx. rewrite Hg by lia.
        by destruct (Z.eqb_spec x n); [lia|].
      * cbn [fmap list_fmap]. rewrite Z.add_0_l, Hg by lia. by rewrite Z.eqb_refl.
Qed.

Lemma clear_loop_ok f k :
  wf f -> Z.of_nat k <= FIFO_DEPTH ->
  cleared f (Z.of_nat k)
    (foldl (clear_step (fifo_start f)) (fifo f, fifo_start f, 0) (seqZ 0 (Z.of_nat k))).
Proof.
  intros Hw. induction k as [|k IH]; intros Hk.
  - simpl. pose proof Hw as []. unfold cleared. repeat split; try done; try lia.
    rewrite Z.add_0_r. by rewrite Z.mod_small.
  - replace (Z.of_nat (S k)) with (Z.of_nat k + 1) by lia.
    rewrite (seqZ_app 0 (Z.of_nat k) 1) by lia. rewrite foldl_app. simpl foldl at 1.
    change (seqZ (0 + Z.of_nat k) 1) with [0 + Z.of_nat k]. rewrite Z.add_0_l. cbn [foldl].
    apply clear_step_ok; [done|lia|]. apply IH. lia.
Qed.

Lemma clear_keyboard_ok f :
  wf f -> wf (mkbp_fifo_clear_keyboard f) /\
  queue (mkbp_fifo_clear_keyboard f) = filter not_key (queue f).
Proof.
  intros Hw. pose proof Hw as []. unfold mkbp_fifo_clear_keyboard.
  pose proof (clear_loop_ok f (Z.to_nat (fifo_entries f)) Hw) as H.
  rewrite Z2Nat.id in H by lia. specialize (H ltac:(lia)).
  destruct (foldl _ _ _) as [[l end_] n]. destruct H as (Hn & He & Hl & Hd & _ & Hq).
  split; [|exact Hq]. split; cbn; try done. lia.
Qed.

Lemma clear_fifo_ok f :
  wf f -> wf (mkbp_clear_fifo f) /\ queue (mkbp_clear_fifo f) = [].
Proof.
  intros []. split; [|done]. split; cbn; try done.
  - by rewrite length_fmap.
  - apply Forall_fmap. eapply Forall_impl; [|exact wf_data0]. intros e He. simpl in He. unfold compose. cbn [data]. unfold bfill. rewrite length_bcopy; [done|lia|lia|lia|].
    rewrite length_replicate. lia.
Qed.

(** The ring of the MKBP FIFO is a bounded list of events.  Adding appends
    the event with its data and flags its kind, or fails with
    [EC_ERROR_OVERFLOW] and no effect at the soft depth; asking for a kind
    returns -1 on an empty FIFO, [-EC_ERROR_BUSY] when another kind is at the
    head, and otherwise pops the head into the caller's buffer and flags the
    kind of the next one; clearing the keyboard drops exactly the key matrices
    and keeps the order of the rest. *)
Theorem mkbp_fifo_correct s ev buffp :
  wf (the_fifo s) -> is_u32 (events s) -> 0 <= ev < EC_MKBP_EVENT_COUNT ->
  Z.of_nat (length buffp) = 18 ->
  Forall (fun x => 0 <= x.1 < EC_MKBP_EVENT_COUNT) (queue (the_fifo s)) ->
  (if fifo_max_depth (the_fifo s) <=? Z.of_nat (length (queue (the_fifo s)))
   then mkbp_fifo_add ev buffp s = (EC_ERROR_OVERFLOW, s)
   else exists s', mkbp_fifo_add ev buffp s = (EC_SUCCESS, s') /\ wf (the_fifo s') /\
     queue (the_fifo s') =
       queue (the_fifo s) ++ [(ev, take (Z.to_nat (get_data_size ev)) buffp)] /\
     events s' = Z.lor (events s) (BIT ev)) /\
  match queue (the_fifo s) with
  | [] => mkbp_fifo_get_next_event buffp ev s = (-1, buffp, s)
  | (t, d) :: q =>
    if t =? ev then
      exists s', mkbp_fifo_get_next_event buffp ev s =
        (if get_data_size t =? 0 then -1 else get_data_size t,
         bcopy buffp 0 d (get_data_size t), s') /\ popped s s' q
    else mkbp_fifo_get_next_event buffp ev s = (- EC_ERROR_BUSY_, buffp, s)
  end /\
  wf (mkbp_fifo_clear_keyboard (the_fifo s)) /\
  queue (mkbp_fifo_clear_keyboard (the_fifo s)) = filter not_key (queue (the_fifo s)) /\
  wf (mkbp_clear_fifo (the_fifo s)) /\ queue (mkbp_clear_fifo (the_fifo s)) = [].
Proof.
  intros Hw Hu Hev Hb Hq.
  assert (Hlen : Z.of_nat (length (queue (the_fifo s))) = fifo_entries (the_fifo s)).
  { unfold queue. rewrite length_fmap, length_seqZ. destruct Hw. lia. }
  split; [|split; [by apply get_ok|]].
  - rewrite Hlen. destruct (Z.leb_spec (fifo_max_depth (the_fifo s)) (fifo_entries (the_fifo s))).
    + unfold mkbp_fifo_add.
      by destruct (Z.leb_spec (fifo_max_depth (the_fifo s)) (fifo_entries (the_fifo s))); [|lia].
    + destruct (add_ok s ev buffp) as (s' & ? & ? & ? & ? & _); try done. by exists s'.
  - destruct (clear_keyboard_ok _ Hw), (clear_fifo_ok _ Hw). done.
Qed.

(** ** Picking the next event *)

Lemma land_bit_test ev e : 0 <= e -> bool_of_Z (Z.land ev (BIT e)) = Z.testbit ev e.
Proof.
  intros He. unfold bool_of_Z, BIT. rewrite Z.shiftl_1_l.
  destruct (Z.testbit ev e) eqn:Eb.
  - destruct (Z.eqb_spec (Z.land ev (2 ^ e)) 0) as [E|]; [|done].
    assert (Hb : Z.testbit (Z.land ev (2 ^ e)) e = true)
      by (rewrite Z.land_spec, Eb, Z.pow2_bits_true by lia; done).
    by rewrite E, Z.bits_0 in Hb.
  - replace (Z.land ev (2 ^ e)) with 0; [done|]. symmetry. apply Z.bits_inj'. intros i Hi.
    rewrite Z.land_spec, Z.bits_0, Z.pow2_bits_eqb by lia.
    destruct (Z.eqb_spec e i) as [<-|]; [by rewrite Eb|by rewrite andb_false_r].
Qed.

Lemma clear_bit_eq ev e :
  in_range 13 ev -> 0 <= e < EC_MKBP_EVENT_COUNT ->
  Z.land ev (u32 (Z.lnot (BIT e))) = Z.clearbit ev e.
Proof.
  intros Hev He. apply Z.bits_inj'. intros i Hi. rewrite Z.land_spec, Z.clearbit_eqb by lia.
  destruct (Z.lt_ge_cases i 13) as [Hlt|Hge]; [|by rewrite (bits_above 13) by (done || lia)].
  f_equal. unfold wrap, BIT. rewrite Z.mod_pow2_bits_low, Z.lnot_spec, Z.shiftl_1_l by lia.
  rewrite Z.pow2_bits_eqb by lia. done.
Qed.

Lemma clearbit_unset ev e : Z.testbit ev e = false -> 0 <= e -> Z.clearbit ev e = ev.
Proof.
  intros Hb He. apply Z.bits_inj'. intros i Hi. rewrite Z.clearbit_eqb by lia.
  destruct (Z.eqb_spec e i) as [<-|]; [by rewrite Hb|by rewrite andb_true_r].
Qed.

Lemma clearbit_restore ev e : Z.testbit ev e = true -> 0 <= e -> Z.lor (Z.clearbit ev e) (BIT e) = ev.
Proof.
  intros Hb He. apply Z.bits_inj'. intros i Hi. unfold BIT.
  rewrite Z.lor_spec, Z.clearbit_eqb, Z.shiftl_1_l, Z.pow2_bits_eqb by lia.
  destruct (Z.eqb_spec e i) as [<-|]; simpl.
  - by rewrite Hb, andb_false_r.
  - by rewrite andb_true_r, orb_false_r.
Qed.

Lemma clearbit_range ev e : in_range 13 ev -> 0 <= e -> in_range 13 (Z.clearbit ev e).
Proof.
  intros Hev He. apply in_range_bits; [lia| |].
  - unfold Z.clearbit. apply Z.ldiff_nonneg. left. apply Hev.
  - intros i Hi. rewrite Z.clearbit_eqb by lia. by rewrite (bits_above 13) by (done || lia).
Qed.

Lemma take_next_ok n last i ev :
  in_range 13 ev ->
  let '(j, ev') := take_next n last i ev in
  let bit k := Z.testbit ev ((last + k) mod EC_MKBP_EVENT_COUNT) in
  i <= j /\ (forall k, i <= k < j -> bit k = false) /\
  ((j = i + Z.of_nat n /\ ev' = ev) \/
   (j < i + Z.of_nat n /\ bit j = true /\
    ev' = Z.clearbit ev ((last + j) mod EC_MKBP_EVENT_COUNT))).
Proof.
  intros Hev. revert i. induction n as [|n IH]; intros i; cbn [take_next].
  - split; [lia|]. split; [lia|]. left. split; [lia|done].
  - unfold take_event_if_set. set (e := (last + i) mod EC_MKBP_EVENT_COUNT).
    assert (He : 0 <= e < EC_MKBP_EVENT_COUNT) by (unfold e, EC_MKBP_EVENT_COUNT; divlia).
    rewrite land_bit_test, clear_bit_eq by (done || lia). destruct (Z.testbit ev e) eqn:Eb.
    + split; [lia|]. split; [lia|]. right. split; [lia|]. done.
    + rewrite clearbit_unset by (done || lia). specialize (IH (i + 1)).
      destruct (take_next n last (i + 1) ev) as [j ev']. destruct IH as (H1 & H2 & H3).
      split; [lia|]. split.
      * intros k Hk. destruct (Z.eq_dec k i) as [->|]; [done|]. apply H2. lia.
      * destruct H3 as [[-> ->]|(? & ? & ?)]; [left|right]; split; (done || lia).
Qed.

(** The flags agree with the FIFO: its head is flagged, and a flagged FIFO kind
    is somewhere in it. *)
Record inv (s : mkbp_state W) : Prop := {
  inv_wf : wf (the_fifo s);
  inv_events : in_range 13 (events s);
  inv_last : 0 <= last s <= EC_MKBP_EVENT_COUNT;
  inv_kinds : Forall (fun x => 0 <= x.1 < EC_MKBP_EVENT_COUNT /\ is_fifo_event x.1 = true /\
                Z.of_nat (length x.2) = get_data_size x.1) (queue (the_fifo s));
  inv_head : match queue (the_fifo s) with
             | [] => True | (t, _) :: _ => Z.testbit (events s) t = true end;
  inv_bits : forall t, is_fifo_event t = true -> Z.testbit (events s) t = true ->
    exists d, (t, d) ∈ queue (the_fifo s) }.

(** The sources outside the FIFO always have something to say. *)
Context (other_ready : forall t get out w, other_source t = Some get ->
  Z.of_nat (length out) = 18 ->
  let '(n, out', _) := get out w in n <> - EC_ERROR_BUSY_ /\ Z.of_nat (length out') = 18).

(** A flagged event that can be delivered now. *)
Definition ready (s : mkbp_state W) (e : Z) : Prop :=
  Z.testbit (events s) e = true /\ 0 <= e < EC_MKBP_EVENT_COUNT /\
  (is_fifo_event e = true -> exists d q, queue (the_fifo s) = (e, d) :: q).

(** How far round robin is from [e]. *)
Definition distance (last e : Z) : Z := (e - last) mod EC_MKBP_EVENT_COUNT.

(** What the loop returns for event [evt]. *)
Definition served (s : mkbp_state W) (out : list Z) (evt : Z)
    (r : ec_status + Z * Z * list Z) (s' : mkbp_state W) : Prop :=
  last s' = evt + 1 /\
  if is_fifo_event evt then
    exists d q, queue (the_fifo s) = (evt, d) :: q /\
      r = inr (evt, get_data_size evt, bcopy out 0 d (get_data_size evt)) /\
      queue (the_fifo s') = q /\ world s' = world s /\
      events s' = match q with
                  | [] => Z.clearbit (events s) evt
                  | (t, _) :: _ => Z.lor (Z.clearbit (events s) evt) (BIT t) end
  else
    the_fifo s' = the_fifo s /\ events s' = Z.clearbit (events s) evt /\
    match other_source evt with
    | None => r = inl EC_RES_ERROR /\ world s' = world s
    | Some get => let '(n, out', w) := get out (world s) in r = inr (evt, n, out') /\ world s' = w
    end.

Lemma fifo_event_cases e :
  is_fifo_event e = true -> e = 0 \/ e = 3 \/ e = 4 \/ e = 6.
Proof.
  unfold is_fifo_event, EC_MKBP_EVENT_KEY_MATRIX, EC_MKBP_EVENT_BUTTON, EC_MKBP_EVENT_SWITCH,
    EC_MKBP_EVENT_SYSRQ. lia.
Qed.

Lemma fifo_data_size e : is_fifo_event e = true -> 0 < get_data_size e.
Proof.
  intros He. destruct (fifo_event_cases e He) as [-> | [-> | [-> | ->]]]; unfold get_data_size;
    simpl; lia.
Qed.

(** Any flagged event means that some event is ready. *)
Lemma some_ready s : inv s -> events s <> 0 -> exists e, ready s e.
Proof.
  intros [] Hne.
  assert (He : exists e, 0 <= e < 13 /\ Z.testbit (events s) e = true).
  { exists (Z.log2 (events s)). destruct inv_events0 as [H0 H1].
    pose proof (Z.log2_nonneg (events s)). split; [|apply Z.bit_log2; lia].
    split; [done|]. apply Z.log2_lt_pow2; lia. }
  destruct He as (e & He & Hb). destruct (is_fifo_event e) eqn:Ef.
  - destruct (inv_bits0 e Ef Hb) as (d & Hd). destruct (queue (the_fifo s)) as [|[t d'] q] eqn:Eq.
    + by apply elem_of_nil in Hd.
    + exists t. split; [done|]. apply Forall_cons_1 in inv_kinds0 as [[Ht _] _].
      split; [done|]. rewrite Eq. eauto.
  - exists e. split; [done|]. split; [done|]. by rewrite Ef.
Qed.

(** The state after a source was busy: only [last] has moved. *)
Lemma busy_inv s l : inv s -> 0 <= l <= EC_MKBP_EVENT_COUNT ->
  inv (Mkbp (the_fifo s) (events s) l (world s)).
Proof. intros [] Hl. by split. Qed.

Lemma distance_after last j e :
  0 <= last -> 0 <= j -> 0 <= e < EC_MKBP_EVENT_COUNT ->
  (forall k, 0 <= k < j -> (last + k) mod EC_MKBP_EVENT_COUNT <> e) -> j < EC_MKBP_EVENT_COUNT ->
  (j + last) mod EC_MKBP_EVENT_COUNT <> e ->
  distance ((j + last) mod EC_MKBP_EVENT_COUNT + 1) e = distance last e - j - 1 /\
  0 <= distance ((j + last) mod EC_MKBP_EVENT_COUNT + 1) e.
Proof.
  intros Hl Hj He Hk Hj' Hne. unfold distance, EC_MKBP_EVENT_COUNT in *.
  assert (Hd : j <= (e - last) mod 13).
  { destruct (Z.lt_ge_cases ((e - last) mod 13) j) as [Hlt|]; [|done]. exfalso.
    apply (Hk ((e - last) mod 13)); [|]; divlia. }
  clear Hk. divlia.
Qed.

Lemma take_first s e :
  inv s -> ready s e ->
  exists j, 0 <= j < EC_MKBP_EVENT_COUNT /\
    let evt := (j + last s) mod EC_MKBP_EVENT_COUNT in
    take_next (Z.to_nat EC_MKBP_EVENT_COUNT) (last s) 0 (events s) =
      (j, Z.clearbit (events s) evt) /\
    Z.testbit (events s) evt = true /\ 0 <= evt < EC_MKBP_EVENT_COUNT /\
    forall e', ready s e' -> e' <> evt ->
      0 <= distance (evt + 1) e' < distance (last s) e'.
Proof.
  intros Hi (Hb & He & _). pose proof Hi as [].
  pose proof (take_next_ok (Z.to_nat EC_MKBP_EVENT_COUNT) (last s) 0 (events s) inv_events0) as H.
  destruct (take_next _ _ _ _) as [j ev']. cbv zeta in H. destruct H as (Hj & Hk & Hc).
  rewrite Z2Nat.id in Hc by (unfold EC_MKBP_EVENT_COUNT; lia). rewrite Z.add_0_l in Hc.
  assert (Hfind : j < EC_MKBP_EVENT_COUNT /\
            Z.testbit (events s) ((last s + j) mod EC_MKBP_EVENT_COUNT) = true /\
            ev' = Z.clearbit (events s) ((last s + j) mod EC_MKBP_EVENT_COUNT)).
  { destruct Hc as [[-> _]|Hc]; [exfalso|done].
    specialize (Hk (distance (last s) e) ltac:(unfold distance, EC_MKBP_EVENT_COUNT; divlia)).
    replace ((last s + distance (last s) e) mod EC_MKBP_EVENT_COUNT) with e in Hk
      by (unfold distance, EC_MKBP_EVENT_COUNT in *; divlia). congruence. }
  clear Hc. destruct Hfind as (Hj' & Hbj & ->). exists j. split; [lia|]. cbv zeta.
  rewrite (Z.add_comm j). split; [done|]. split; [done|].
  split; [unfold EC_MKBP_EVENT_COUNT; divlia|].
  intros e' (Hb' & He' & _) Hne. rewrite (Z.add_comm (last s)) in *.
  destruct (distance_after (last s) j e') as [E1 E2]; try (done || lia).
  intros k Hk' E. specialize (Hk k ltac:(lia)). rewrite E in Hk. congruence.
Qed.

(** Serving the head of the FIFO keeps the flags in agreement. *)
Lemma pop_inv s evt d q s' :
  inv s -> queue (the_fifo s) = (evt, d) :: q -> is_fifo_event evt = true ->
  0 <= evt < EC_MKBP_EVENT_COUNT ->
  wf (the_fifo s') -> queue (the_fifo s') = q -> last s' = evt + 1 ->
  events s' = match q with
              | [] => Z.clearbit (events s) evt
              | (t, _) :: _ => Z.lor (Z.clearbit (events s) evt) (BIT t) end ->
  inv s'.
Proof.
  intros [] Eq Hf Hevt Hw' Eq' El Ee. rewrite Eq in *.
  apply Forall_cons_iff in inv_kinds0 as [_ Hk].
  assert (Hc : in_range 13 (Z.clearbit (events s) evt)) by (apply clearbit_range; [done|lia]).
  split; rewrite ?Eq', ?Ee, ?El; try done.
  - destruct q as [|[t d'] q]; [done|]. apply lor_range; [lia|done|].
    apply Forall_cons_1 in Hk as [[Ht _] _]. simpl in Ht. unfold BIT, in_range, EC_MKBP_EVENT_COUNT in *.
    rewrite Z.shiftl_1_l. split; [lia|]. apply Z.pow_lt_mono_r; lia.
  - lia.
  - destruct q as [|[t d'] q]; [done|]. apply Forall_cons_1 in Hk as [[Ht _] _]. simpl in Ht.
    unfold BIT. rewrite Z.lor_spec, Z.shiftl_1_l, Z.pow2_bits_true by lia. apply orb_true_r.
  - intros t Ht Hb.
    assert (Hcase : Z.testbit (Z.clearbit (events s) evt) t = true \/
              exists d' q', q = (t, d') :: q').
    { destruct q as [|[t' d'] q']; [by left|]. revert Hb. unfold BIT.
      destruct (fifo_event_cases t Ht) as [-> | [-> | [-> | ->]]];
        (apply Forall_cons_1 in Hk as [[Ht' _] _]; simpl in Ht';
         rewrite Z.lor_spec, Z.shiftl_1_l, Z.pow2_bits_eqb by lia;
         intros [Hb|E]%orb_true_iff; [by left|right; apply Z.eqb_eq in E; subst; eauto]). }
    destruct Hcase as [Hc'|(d' & q' & ->)]; [|exists d'; apply elem_of_cons; by left].
    assert (Hne : 0 <= t) by (destruct (fifo_event_cases t Ht) as [-> | [-> | [-> | ->]]]; lia).
    rewrite Z.clearbit_eqb in Hc' by lia. apply andb_true_iff in Hc' as [Hb' Hnt].
    destruct (inv_bits0 t Ht Hb') as (d' & [[= -> ->]|Hd']%elem_of_cons); [|by exists d'].
    exfalso. rewrite Z.eqb_refl in Hnt. done.
Qed.

Lemma serve_head s out evt d q s' :
  inv s -> queue (the_fifo s) = (evt, d) :: q -> is_fifo_event evt = true ->
  0 <= evt < EC_MKBP_EVENT_COUNT ->
  popped (Mkbp (the_fifo s) (Z.clearbit (events s) evt) (evt + 1) (world s)) s' q ->
  served s out evt (inr (evt, get_data_size evt, bcopy out 0 d (get_data_size evt))) s' /\ inv s'.
Proof.
  intros Hi Eq Ef Hevt (Hw' & Eq' & Ee & El & Ew & _). split.
  - unfold served. rewrite Ef. split; [done|]. exists d, q. repeat split; done.
  - eapply pop_inv; [exact Hi|exact Eq|done|done|done|done|done|exact Ee].
Qed.

Lemma other_inv s evt w :
  inv s -> is_fifo_event evt = false -> 0 <= evt < EC_MKBP_EVENT_COUNT ->
  inv (Mkbp (the_fifo s) (Z.clearbit (events s) evt) (evt + 1) w).
Proof.
  intros [] Ef Hevt.
  assert (Hkeep : forall t, is_fifo_event t = true ->
    Z.testbit (Z.clearbit (events s) evt) t = Z.testbit (events s) t).
  { intros t Ht. rewrite Z.clearbit_eqb by lia. destruct (Z.eqb_spec evt t) as [->|];
      [congruence|apply andb_true_r]. }
  split; cbn; try done.
  - apply clearbit_range; [done|lia].
  - lia.
  - destruct (queue (the_fifo s)) as [|[t d] q]; [done|].
    apply Forall_cons_1 in inv_kinds0 as [[_ [Ht _]] _]. by rewrite Hkeep.
  - intros t Ht. rewrite Hkeep by done. by apply inv_bits0.
Qed.

Lemma loop_ok n fuel s out :
  inv s -> (exists e, ready s e /\ distance (last s) e < Z.of_nat n) -> (n <= fuel)%nat ->
  Z.of_nat (length out) = 18 ->
  exists evt r s', next_event_loop fuel out s = Some (r, s') /\
    Z.testbit (events s) evt = true /\ 0 <= evt < EC_MKBP_EVENT_COUNT /\
    served s out evt r s' /\ inv s' /\
    forall e, ready s e -> e <> evt -> distance (last s') e < distance (last s) e.
Proof.
  revert fuel s. induction n as [|n IH]; intros fuel s Hi (e & He & Hd) Hf Hout.
  { exfalso. pose proof (Z.mod_pos_bound (e - last s) 13). unfold distance, EC_MKBP_EVENT_COUNT in Hd. lia. }
  destruct fuel as [|fuel]; [lia|]. pose proof Hi as [].
  destruct (take_first s e Hi He) as (j & Hj & Et & Hb & Hevt & Hfair). cbn [next_event_loop].
  set (evt := (j + last s) mod EC_MKBP_EVENT_COUNT) in *. rewrite Et.
  destruct (Z.eqb_spec j EC_MKBP_EVENT_COUNT); [lia|]. cbn [last].
  fold evt. unfold find_mkbp_event_source.
  set (s1 := Mkbp (the_fifo s) (Z.clearbit (events s) evt) (evt + 1) (world s)).
  assert (Hc : in_range 13 (Z.clearbit (events s) evt)) by (apply clearbit_range; [done|lia]).
  assert (Hu1 : is_u32 (events s1)).
  { unfold in_range in *. cbn [s1 events]. lia. }
  destruct (is_fifo_event evt) eqn:Ef.
  - assert (Hk1 : Forall (fun x => 0 <= x.1 < EC_MKBP_EVENT_COUNT) (queue (the_fifo s1))).
    { eapply Forall_impl; [|exact inv_kinds0]. intros x Hx. simpl in Hx. tauto. }
    pose proof (get_ok s1 evt out inv_wf0 Hevt Hout Hu1 Hk1) as Hget.
    cbn [s1 the_fifo] in Hget. destruct (queue (the_fifo s)) as [|[t d] q] eqn:Eq.
    { destruct (inv_bits0 evt Ef Hb) as (d & Hd'). by apply elem_of_nil in Hd'. }
    cbv beta. cbn [the_fifo events world]. fold s1.
    destruct (Z.eqb_spec t evt) as [->|Hne].
    + destruct Hget as (s' & Eg & Hp). rewrite Eg.
      pose proof (fifo_data_size evt Ef) as Hsz.
      destruct (Z.eqb_spec (get_data_size evt) 0); [lia|].
      destruct (Z.eqb_spec (get_data_size evt) (- EC_ERROR_BUSY_));
        [unfold EC_ERROR_BUSY_ in *; lia|].
      destruct (serve_head s out evt d q s' Hi Eq Ef Hevt Hp) as [Hserved Hi'].
      eexists evt, _, s'. do 3 (split; [done|]). split; [exact Hserved|]. split; [done|].
      intros e' He' Hne'. rewrite (proj1 Hserved). by apply Hfair.
    + rewrite Hget. rewrite Z.eqb_refl. cbn [s1 the_fifo events last world].
      rewrite clearbit_restore by (done || lia).
      set (s2 := Mkbp (the_fifo s) (events s) (evt + 1) (world s)).
      assert (Hr2 : forall x, ready s2 x <-> ready s x) by done.
      assert (Hnr : forall x, ready s x -> x <> evt).
      { intros x (_ & _ & Hx) ->. destruct (Hx Ef) as (d' & q' & E'). rewrite Eq in E'.
        injection E' as E' _ _. done. }
      destruct (IH fuel s2) as (evt' & r & s' & El & Hb' & Hevt' & Hserved & Hi' & Hfair').
      { apply (busy_inv s (evt + 1) Hi). unfold EC_MKBP_EVENT_COUNT in *. lia. }
      { exists e. split; [by apply Hr2|]. specialize (Hfair e He (Hnr e He)). cbn [s2 last]. lia. }
      { lia. }
      { done. }
      exists evt', r, s'. split; [done|]. split; [done|]. split; [done|].
      split; [done|]. split; [done|]. intros x Hx Hne'.
      specialize (Hfair' x (proj2 (Hr2 x) Hx) Hne'). specialize (Hfair x Hx (Hnr x Hx)).
      cbn [s2 last] in Hfair'. lia.
  - assert (Hi' : forall w, inv (Mkbp (the_fifo s) (Z.clearbit (events s) evt) (evt + 1) w))
      by (intros w; by apply other_inv).
    destruct (other_source evt) as [get|] eqn:Eo; cbn [mbind option_bind].
    + cbn [s1 world]. pose proof (other_ready evt get out (world s) Eo Hout) as Hor.
      destruct (get out (world s)) as [[m out'] w] eqn:Eg. destruct Hor as [Hm Hout'].
      destruct (Z.eqb_spec m (- EC_ERROR_BUSY_)); [done|].
      eexists evt, _, _. split; [done|]. split; [done|]. split; [done|]. split; [|split].
      * unfold served. rewrite Ef, Eo, Eg. done.
      * apply Hi'.
      * intros x Hx Hne. by apply Hfair.
    + eexists evt, _, _. split; [done|]. split; [done|]. split; [done|]. split; [|split].
      * unfold served. rewrite Ef, Eo. done.
      * apply Hi'.
      * intros x Hx Hne. by apply Hfair.
Qed.

Lemma loop_empty fuel s out :
  inv s -> events s = 0 ->
  next_event_loop (S fuel) out s =
    Some (inl EC_RES_UNAVAILABLE, Mkbp (the_fifo s) 0 (last s) (world s)).
Proof.
  intros [] E0.
  pose proof (take_next_ok (Z.to_nat EC_MKBP_EVENT_COUNT) (last s) 0 (events s) inv_events0) as H.
  cbn [next_event_loop]. rewrite E0 in *.
  destruct (take_next _ _ _ _) as [j ev']. cbv zeta in H.
  destruct H as (_ & _ & [[-> ->]|(_ & Hb & _)]); [done|]. by rewrite Z.bits_0 in Hb.
Qed.

(** What the host command answers for event [evt] with [data_size] bytes [out]. *)
Definition response (version evt data_size : Z) (out : list Z) (s' : mkbp_state W) :
    ec_status * option (Z * list Z) :=
  if data_size <? 0 then (EC_RES_ERROR, None)
  else (EC_RES_SUCCESS,
        Some (if negb (events s' =? 0) && (2 <=? version)
              then Z.lor evt EC_MKBP_HAS_MORE_EVENTS else evt,
              take (Z.to_nat data_size) out)).

(** Adding keeps the flags in agreement. *)
Lemma add_inv s ev buffp :
  inv s -> is_fifo_event ev = true -> Z.of_nat (length buffp) = 18 ->
  inv (mkbp_fifo_add ev buffp s).2.
Proof.
  intros Hi Hf Hb. pose proof Hi as [].
  assert (Hev : 0 <= ev < EC_MKBP_EVENT_COUNT)
    by (unfold EC_MKBP_EVENT_COUNT; destruct (fifo_event_cases ev Hf) as [-> | [-> | [-> | ->]]]; lia).
  destruct (Z.le_gt_cases (fifo_max_depth (the_fifo s)) (fifo_entries (the_fifo s))) as [Hle|Hgt].
  { unfold mkbp_fifo_add.
    by destruct (Z.leb_spec (fifo_max_depth (the_fifo s)) (fifo_entries (the_fifo s))); [|lia]. }
  destruct (add_ok s ev buffp) as (s' & -> & Hw & Hq & Hev' & Hl & Hwo & _); try (done || lia).
  { unfold in_range in *. lia. }
  cbn [snd]. pose proof (data_size_range ev) as Hds.
  assert (Hbit : forall t, 0 <= t -> Z.testbit (events s') t = Z.testbit (events s) t || (ev =? t)).
  { intros t Ht. rewrite Hev'. unfold BIT.
    by rewrite Z.lor_spec, Z.shiftl_1_l, Z.pow2_bits_eqb by lia. }
  split; rewrite ?Hq, ?Hl; try done.
  - rewrite Hev'. apply lor_range; [lia|done|]. unfold BIT, in_range, EC_MKBP_EVENT_COUNT in *.
    rewrite Z.shiftl_1_l. split; [lia|]. apply Z.pow_lt_mono_r; lia.
  - apply Forall_app. split; [done|]. constructor; [|constructor]. cbn [fst snd]. split; [done|].
    split; [done|]. rewrite length_take. lia.
  - destruct (queue (the_fifo s)) as [|[t d] q]; simpl.
    + rewrite Hbit by lia. rewrite Z.eqb_refl. apply orb_true_r.
    + apply Forall_cons_1 in inv_kinds0 as [[Ht _] _]. simpl in Ht. rewrite Hbit by lia.
      by rewrite inv_head0.
  - intros t Ht Hbt. rewrite Hbit in Hbt
      by (destruct (fifo_event_cases t Ht) as [-> | [-> | [-> | ->]]]; lia).
    apply orb_true_iff in Hbt as [Hbt|E].
    + destruct (inv_bits0 t Ht Hbt) as (d & Hd). exists d. apply elem_of_app. by left.
    + apply Z.eqb_eq in E as <-. eexists. apply elem_of_app. right. by apply list_elem_of_singleton.
Qed.

(** The number of bytes sent of a FIFO event. *)
Lemma served_size version evt :
  is_fifo_event evt = true ->
  let n := if evt =? EC_MKBP_EVENT_KEY_MATRIX
           then Z.min cols (key_matrix_size version) else get_data_size evt in
  (if evt =? EC_MKBP_EVENT_KEY_MATRIX
   then min_int_size (get_data_size evt) (key_matrix_size version)
   else get_data_size evt) = n /\ 0 <= n <= get_data_size evt.
Proof.
  intros Ef. pose proof (fifo_data_size evt Ef) as Hsz.
  assert (Hks : 13 <= key_matrix_size version) by (unfold key_matrix_size; repeat case_match; lia).
  destruct (Z.eqb_spec evt EC_MKBP_EVENT_KEY_MATRIX) as [->|]; [|cbv zeta; split; [done|lia]].
  change (get_data_size EC_MKBP_EVENT_KEY_MATRIX) with cols in *. cbv zeta.
  unfold min_int_size. rewrite wrap_id by (unfold in_range; lia).
  destruct (Z.ltb_spec cols (key_matrix_size version)); lia.
Qed.

Lemma take_response evt n d :
  0 <= n <= get_data_size evt -> Z.of_nat (length d) = get_data_size evt ->
  take (Z.to_nat n) (bcopy (replicate 18 0) 0 d (get_data_size evt)) = take (Z.to_nat n) d.
Proof.
  intros Hn Hd. unfold bcopy. change (Z.to_nat 0) with 0%nat. rewrite take_0, app_nil_l.
  rewrite take_app_le by (rewrite length_take; lia). rewrite take_take. f_equal. lia.
Qed.

(** As long as the flags agree with the FIFO (which adding events and this
    command preserve), [mkbp_get_next_event] returns within 13 rounds of its
    loop.  With nothing flagged it answers EC_RES_UNAVAILABLE, and then the
    FIFO is empty.  Otherwise it serves one flagged event: a FIFO kind only
    when it is at the head, which it pops and returns (the key matrix cut to
    the size of the request's version), any other kind from its source; the
    answer says whether more events are flagged.  Round robin gets nearer to
    every other deliverable event, so none waits for more than 13 commands. *)
Theorem mkbp_get_next_correct version s :
  inv s ->
  (forall ev buffp, is_fifo_event ev = true -> Z.of_nat (length buffp) = 18 ->
     inv (mkbp_fifo_add ev buffp s).2) /\
  (events s = 0 -> queue (the_fifo s) = [] /\
     exists s', mkbp_get_next_event 13 version s = Some ((EC_RES_UNAVAILABLE, None), s') /\
       the_fifo s' = the_fifo s /\ events s' = 0) /\
  (events s <> 0 -> exists evt resp s',
     mkbp_get_next_event 13 version s = Some (resp, s') /\ Z.testbit (events s) evt = true /\
     inv s' /\
     (forall e, ready s e -> e <> evt -> distance (last s') e < distance (last s) e) /\
     if is_fifo_event evt then
       exists d q, queue (the_fifo s) = (evt, d) :: q /\ queue (the_fifo s') = q /\
         let n := if evt =? EC_MKBP_EVENT_KEY_MATRIX
                  then Z.min cols (key_matrix_size version) else get_data_size evt in
         resp = response version evt n d s'
     else
       the_fifo s' = the_fifo s /\ events s' = Z.clearbit (events s) evt /\
       match other_source evt with
       | None => resp = (EC_RES_ERROR, None)
       | Some get => let '(n, out', w) := get (replicate 18 0) (world s) in
                     resp = response version evt n out' s' /\ world s' = w
       end).
Proof.
  intros Hi. split; [intros; by apply add_inv|]. split.
  - intros E0. pose proof Hi as []. split.
    { destruct (queue (the_fifo s)) as [|[t d] q]; [done|]. by rewrite E0, Z.bits_0 in inv_head0. }
    unfold mkbp_get_next_event. rewrite (loop_empty 12) by done.
    eexists. split; [done|]. done.
  - intros Hne. destruct (some_ready s Hi Hne) as (e & He).
    destruct (loop_ok 13 13 s (replicate 18 0) Hi) as (evt & r & s' & El & Hb & Hevt & Hs & Hi' & Hf);
      [|lia|done|].
    { exists e. split; [done|]. unfold distance, EC_MKBP_EVENT_COUNT. divlia. }
    unfold mkbp_get_next_event. rewrite El. cbn [mbind option_bind].
    destruct Hs as [_ Hs]. unfold set_inactive_if_no_events.
    destruct (is_fifo_event evt) eqn:Ef.
    + destruct Hs as (d & q & Eq & -> & Eq' & _ & _). destruct Hi as [_ _ _ Hk _ _].
      rewrite Eq in Hk. apply Forall_cons_1 in Hk as [(_ & _ & Hd) _]. simpl in Hd.
      set (n := if evt =? EC_MKBP_EVENT_KEY_MATRIX
                then Z.min cols (key_matrix_size version) else get_data_size evt).
      assert (Hn : (if evt =? EC_MKBP_EVENT_KEY_MATRIX
                    then min_int_size (get_data_size evt) (key_matrix_size version)
                    else get_data_size evt) = n /\ 0 <= n <= get_data_size evt)
        by (by apply served_size).
      destruct Hn as [-> Hn]. exists evt, (response version evt n d s'), s'. split.
      * unfold response. rewrite take_response by done. by destruct (n <? 0).
      * do 3 (split; [done|]). rewrite Ef. by exists d, q.
    + destruct Hs as (E1 & E2 & Hs).
      assert (Hk : (evt =? EC_MKBP_EVENT_KEY_MATRIX) = false).
      { destruct (Z.eqb_spec evt EC_MKBP_EVENT_KEY_MATRIX) as [->|]; done. }
      destruct (other_source evt) as [get|] eqn:Eo.
      * destruct (get (replicate 18 0) (world s)) as [[n out'] w] eqn:Eg. destruct Hs as [-> Ew].
        exists evt, (response version evt n out' s'), s'.
        split; [rewrite Hk; unfold response; by destruct (n <? 0)|].
        do 3 (split; [done|]). rewrite Ef, Eo, Eg. done.
      * destruct Hs as [-> _]. eexists evt, _, s'. split; [done|].
        do 3 (split; [done|]). rewrite Ef, Eo. done.
Qed.

End Device.

(** ** Concrete runs *)

Definition no_source (t : Z) : option (list Z -> unit -> Z * list Z * unit) := None.

(** Reset: an empty FIFO of depth 16. *)
Definition reset : mkbp_state unit :=
  Mkbp (Fifo 0 0 0 16 (replicate 16 (Entry 0 (replicate 18 0)))) 0 0 tt.

Definition bytes (n : Z) : list Z := replicate 18 n.

(** A button, a key matrix and another button. *)
Definition three : mkbp_state unit :=
  (mkbp_fifo_add 13 3 (bytes 7) (mkbp_fifo_add 13 0 (bytes 5) (mkbp_fifo_add 13 3 (bytes 1) reset).2).2).2.

Lemma reset_inv : inv 13 reset.
Proof.
  split; try done.
  - split; try done. by repeat constructor.
  - intros t _ Hb. by rewrite Z.bits_0 in Hb.
Qed.

Lemma ready_no_source t get out w : no_source t = Some get ->
  Z.of_nat (length out) = 18 ->
  let '(n, out', _) := get out w in n <> - EC_ERROR_BUSY_ /\ Z.of_nat (length out') = 18.
Proof. done. Qed.

Lemma three_inv : inv 13 three.
Proof. unfold three. repeat (apply (add_inv 13 no_source ltac:(lia)); [|done|done]). exact reset_inv. Qed.

Lemma mkbp_fifo_correct_witness :
  exists s', mkbp_fifo_add 13 6 (bytes 9) three = (EC_SUCCESS, s') /\
    queue 13 (the_fifo s') = [(3, [1; 1; 1; 1]); (0, replicate 13 5); (3, [7; 7; 7; 7]); (6, [9; 9; 9; 9])] /\
    queue 13 (mkbp_fifo_clear_keyboard (the_fifo three)) = [(3, [1; 1; 1; 1]); (3, [7; 7; 7; 7])].
Proof.
  destruct (mkbp_fifo_correct 13 no_source ltac:(lia) three 6 (bytes 9)) as (Ha & _ & _ & Hc & _);
    [apply three_inv|vm_compute; done|done|done|vm_compute; repeat constructor; discriminate|].
  destruct Ha as (s' & E & _ & Hq & _). exists s'. split; [exact E|]. split; [rewrite Hq; done|].
  rewrite Hc. done.
Defined.

Lemma mkbp_get_next_correct_witness :
  inv 13 three /\
  exists s', mkbp_get_next_event 13 no_source 13 2 three =
    Some ((EC_RES_SUCCESS, Some (0x83, [1; 1; 1; 1])), s') /\ inv 13 s'.
Proof.
  split; [exact three_inv|].
  destruct (mkbp_get_next_correct 13 no_source ltac:(lia) ready_no_source 2 three three_inv)
    as (_ & _ & H).
  destruct (H ltac:(vm_compute; discriminate)) as (evt & resp & s' & E & _ & Hi & _).
  exists s'. split; [|exact Hi]. rewrite E. f_equal. f_equal.
  assert (E' : fst <$> mkbp_get_next_event 13 no_source 13 2 three =
               Some (EC_RES_SUCCESS, Some (0x83, [1; 1; 1; 1]))) by (vm_compute; reflexivity).
  rewrite E in E'. by injection E'.
Defined.

(** Clearing the keyboard does not flag the kind of the new head: after the
    first button is served and the key matrix dropped, only the key matrix is
    flagged while a button is at the head, and the loop never ends. *)
Definition stuck : mkbp_state unit :=
  let s := default reset (snd <$> mkbp_get_next_event 13 no_source 13 2 three) in
  set_fifo s (mkbp_fifo_clear_keyboard (the_fifo s)).

Lemma stuck_busy n l out :
  l = 1 \/ l = 4 ->
  next_event_loop 13 no_source (S n) out (Mkbp (the_fifo stuck) 1 l tt) =
  next_event_loop 13 no_source n out (Mkbp (the_fifo stuck) 1 1 tt).
Proof.
  intros Hl. cbn [next_event_loop].
  assert (Et : take_next (Z.to_nat EC_MKBP_EVENT_COUNT) (last (Mkbp (the_fifo stuck) 1 l tt)) 0
                 (events (Mkbp (the_fifo stuck) 1 l tt)) = (13 - l, 0)
             /\ (13 - l + l) mod EC_MKBP_EVENT_COUNT = 0 /\ (13 - l =? EC_MKBP_EVENT_COUNT) = false)
    by (destruct Hl as [-> | ->]; by vm_compute).
  destruct Et as (-> & Ee & ->). cbn [the_fifo events last world]. rewrite Ee.
  assert (Eg : mkbp_fifo_get_next_event 13 out 0 (Mkbp (the_fifo stuck) 0 (0 + 1) tt) =
               (- EC_ERROR_BUSY_, out, Mkbp (the_fifo stuck) 0 (0 + 1) tt)) by (vm_compute; reflexivity).
  change (find_mkbp_event_source 13 no_source 0)
    with (Some (fun out s => mkbp_fifo_get_next_event 13 out 0 (s : mkbp_state unit))).
  cbv iota beta. rewrite Eg. rewrite Z.eqb_refl. done.
Qed.

Lemma get_next_livelock fuel : mkbp_get_next_event 13 no_source fuel 2 stuck = None.
Proof.
  assert (Es : stuck = Mkbp (the_fifo stuck) 1 4 tt) by (vm_compute; reflexivity).
  assert (H : forall n out, next_event_loop 13 no_source n out (Mkbp (the_fifo stuck) 1 1 tt) = None).
  { induction n as [|n IH]; intros out; [done|]. rewrite stuck_busy by (by left). apply IH. }
  unfold mkbp_get_next_event. destruct fuel as [|fuel]; [done|].
  rewrite Es at 1. rewrite stuck_busy by (by right). by rewrite H.
Qed.

(** An empty FIFO whose key matrix is flagged (after clearing a lone one)
    answers with a key matrix of zeros: the negative size is compared as
    unsigned. *)
Lemma min_hides_error : min_int_size (-1) (key_matrix_size 2) = 16.
Proof. reflexivity. Qed.

End Mkbp.
