(* ===== verification/MkbpInterrupt.v ===== *)
(** * The MKBP interrupt to the AP (common/mkbp_event.c)

    Any task may flag an event ([mkbp_send_event]); the task that finds the
    interrupt inactive sends it, outside the lock, and then records the
    outcome; a deferred call retries when the AP does not answer; the AP's
    polling command turns the interrupt off.  The steps of the model are the
    critical sections of [state.lock] and the calls between them, so the step
    relation has every interleaving of any number of tasks with the hook task
    and the host command. *)

From S2P Require Import Prelude.
From S2P Require Import Mkbp.

Module MkbpInterrupt.

(** src/common/mkbp_event.c:46-50 [enum interrupt_state] *)
Inductive interrupt_state := INTERRUPT_INACTIVE | INTERRUPT_INACTIVE_TO_ACTIVE | INTERRUPT_ACTIVE.
#[export] Instance interrupt_state_eq_dec : EqDecision interrupt_state.
Proof. solve_decision. Defined.

(** src/common/mkbp_event.c:52-71 [struct mkbp_state] *)
Record state := State {
  events : Z;
  interrupt : interrupt_state;
  interrupt_id : Z;
  failed_attempts : Z }.

(** The board's options: the two wake masks, when configured. *)
(** src/common/mkbp_event.c:76-82 [mkbp_event_wake_mask] *)
Record config := Config {
  mkbp_event_wake_mask : option Z;
  mkbp_host_event_wake_mask : option Z;
  track_host_sleep_state : bool }.

(** [suspended]: the host reported one of the three suspend states. *)
(** src/common/mkbp_event.c:188-199 [host_is_sleeping] *)
Definition host_is_sleeping (c : config) (chipset_on suspended : bool) : bool :=
  negb chipset_on || (track_host_sleep_state c && suspended).

(** src/common/mkbp_event.c:213-234 [skip_interrupt] *)
Definition skip_interrupt (c : config) (sleeping : bool) (host_get_events events_to_add : Z) : bool :=
  let skip :=
    match mkbp_host_event_wake_mask c with
    | Some mask =>
      if (events_to_add =? BIT Mkbp.EC_MKBP_EVENT_HOST_EVENT) ||
         (events_to_add =? BIT Mkbp.EC_MKBP_EVENT_HOST_EVENT64)
      then sleeping && negb (bool_of_Z (Z.land host_get_events mask)) else false
    | None => false
    end in
  match mkbp_event_wake_mask c with
  | Some mask =>
    if negb skip then sleeping && negb (bool_of_Z (Z.land events_to_add mask)) else skip
  | None => skip
  end.

(** The first critical section: the new interrupt id, if this task sends. *)
(** src/common/mkbp_event.c:236-248 [interrupt_id] *)
Definition activate_enter (skip : bool) (events_to_add : Z) (s : state) : option Z * state :=
  let ev := u32 (Z.lor (events s) events_to_add) in
  let skip := skip && negb (bool_of_Z (Z.land ev (BIT Mkbp.EC_MKBP_EVENT_KEY_MATRIX))) in
  if bool_of_Z ev && bool_decide (interrupt s = INTERRUPT_INACTIVE) && negb skip then
    let id := u8 (interrupt_id s + 1) in
    (Some id, State ev INTERRUPT_INACTIVE_TO_ACTIVE id (failed_attempts s))
  else (None, State ev (interrupt s) (interrupt_id s) (failed_attempts s)).

(** The second critical section: whether to schedule the deferred call. *)
(** src/common/mkbp_event.c:261-268 [schedule_deferred] *)
Definition activate_exit (id : Z) (ok : bool) (s : state) : bool * state :=
  if bool_decide (interrupt s = INTERRUPT_INACTIVE_TO_ACTIVE) && (id =? interrupt_id s) then
    (true, State (events s) (if ok then INTERRUPT_ACTIVE else INTERRUPT_INACTIVE)
             (interrupt_id s) (failed_attempts s))
  else (false, s).

(** The deferred call's critical section: [send_mkbp_interrupt]. *)
(** src/common/mkbp_event.c:282-337 [force_mkbp_if_events] *)
Definition force_mkbp_if_events (s : state) : bool * state :=
  match interrupt s with
  | INTERRUPT_INACTIVE => (true, s)
  | INTERRUPT_INACTIVE_TO_ACTIVE => (false, s)
  | INTERRUPT_ACTIVE =>
    let failed := u8 (failed_attempts s + 1) in
    if failed <? 3
    then (true, State (events s) INTERRUPT_INACTIVE (interrupt_id s) failed)
    else (false, State (events s) INTERRUPT_INACTIVE (interrupt_id s) 0)
  end.

(** The critical section of the AP's command; on [true] the line has been
    lowered inside it. *)
(** src/common/mkbp_event.c:371-379 [interrupt_cleared] *)
Definition set_inactive_if_no_events (s : state) : bool * state :=
  if events s =? 0 then (true, State (events s) INTERRUPT_INACTIVE (interrupt_id s) 0)
  else (false, s).

(** src/common/mkbp_event.c:395-403 [take_event_if_set] *)
Definition take_event_if_set (e : Z) (s : state) : state :=
  State (Z.land (events s) (u32 (Z.lnot (BIT e)))) (interrupt s) (interrupt_id s) (failed_attempts s).
(** src/common/mkbp_event.c:469-473 [events] *)
Definition put_back_event (e : Z) (s : state) : state :=
  State (Z.lor (events s) (BIT e)) (interrupt s) (interrupt_id s) (failed_attempts s).

(** ** Tasks *)

(** Where a task stands between critical sections.  [turn] counts the
    transitions to INTERRUPT_INACTIVE_TO_ACTIVE; the code keeps it in 8 bits. *)
Inductive task :=
| Sending (turn : Z)             (* about to call mkbp_set_host_active (1, ...) *)
| Sent (turn : Z) (ok : bool)    (* with its result *)
| Arming                         (* about to call hook_call_deferred (..., SECOND) *)
| Firing                         (* in force_mkbp_if_events, before the lock *)
| Forcing.                       (* about to call activate_mkbp_with_events (0) *)

#[export] Instance task_eq_dec : EqDecision task.
Proof. solve_decision. Defined.

Record world := World {
  st : state;
  tasks : list task;
  deferred : bool;               (* the deferred call is scheduled *)
  line : bool;                   (* what the AP sees *)
  cancelling : bool;             (* the host command is about to cancel the deferred call *)
  turn : Z;                      (* ghost: transitions so far *)
  late_cancel : bool;            (* ghost: a cancel came after the last activation *)
  reporter : Z }.                (* ghost: the turn whose task reported last *)

Definition init : world :=
  World (State 0 INTERRUPT_INACTIVE 0 0) [] false false false 0 false 0.

(** Running [activate_enter] as part of a task. *)
Definition enter (skip : bool) (ev : Z) (w : world) (rest : list task) : world :=
  let '(id, s) := activate_enter skip ev (st w) in
  match id with
  | Some _ => World s (rest ++ [Sending (turn w + 1)]) (deferred w) (line w) (cancelling w)
                (turn w + 1) (late_cancel w) (reporter w)
  | None => World s rest (deferred w) (line w) (cancelling w) (turn w) (late_cancel w) (reporter w)
  end.

(** src/common/mkbp_event.c:209-393 [activate_mkbp_with_events] *)
Inductive step (c : config) : world -> world -> Prop :=
| step_send w e sleeping hev :
    0 <= e < 32 ->
    step c w (enter (skip_interrupt c sleeping hev (BIT e)) (BIT e) w (tasks w))
| step_line w l1 l2 t ok :
    tasks w = l1 ++ Sending t :: l2 ->
    step c w (World (st w) (l1 ++ Sent t ok :: l2) (deferred w) (line w || ok) (cancelling w)
                (turn w) (late_cancel w) (reporter w))
| step_exit w l1 l2 t ok s :
    tasks w = l1 ++ Sent t ok :: l2 ->
    activate_exit (u8 t) ok (st w) = (true, s) ->
    step c w (World s (l1 ++ Arming :: l2) (deferred w) (line w) (cancelling w) (turn w)
                false t)
| step_exit_superseded w l1 l2 t ok s :
    tasks w = l1 ++ Sent t ok :: l2 ->
    activate_exit (u8 t) ok (st w) = (false, s) ->
    step c w (World s (l1 ++ l2) (deferred w) (line w) (cancelling w) (turn w)
                (late_cancel w) (reporter w))
| step_arm w l1 l2 :
    tasks w = l1 ++ Arming :: l2 ->
    step c w (World (st w) (l1 ++ l2) true (line w) (cancelling w) (turn w) (late_cancel w) (reporter w))
| step_fire w :
    deferred w = true ->
    step c w (World (st w) (tasks w ++ [Firing]) false (line w) (cancelling w) (turn w)
                (late_cancel w) (reporter w))
| step_force w l1 l2 send s :
    tasks w = l1 ++ Firing :: l2 ->
    force_mkbp_if_events (st w) = (send, s) ->
    step c w (World s (l1 ++ (if send : bool then [Forcing] else []) ++ l2) (deferred w) (line w)
                (cancelling w) (turn w) (late_cancel w) (reporter w))
| step_resend w l1 l2 sleeping hev :
    tasks w = l1 ++ Forcing :: l2 ->
    step c w (enter (skip_interrupt c sleeping hev 0) 0 w (l1 ++ l2))
| step_take w e :
    0 <= e < Mkbp.EC_MKBP_EVENT_COUNT ->
    step c w (World (take_event_if_set e (st w)) (tasks w) (deferred w) (line w) (cancelling w)
                (turn w) (late_cancel w) (reporter w))
| step_put_back w e :
    0 <= e < Mkbp.EC_MKBP_EVENT_COUNT ->
    step c w (World (put_back_event e (st w)) (tasks w) (deferred w) (line w) (cancelling w)
                (turn w) (late_cancel w) (reporter w))
| step_clear w cleared s :
    cancelling w = false ->
    set_inactive_if_no_events (st w) = (cleared, s) ->
    step c w (World s (tasks w) (deferred w) (line w && negb cleared) cleared
                (turn w) (late_cancel w) (reporter w))
| step_cancel w :
    cancelling w = true ->
    step c w (World (st w) (tasks w) false (line w) false (turn w)
                (late_cancel w || bool_decide (interrupt (st w) = INTERRUPT_ACTIVE)) (reporter w)).

Inductive reachable (c : config) : world -> Prop :=
| reachable_init : reachable c init
| reachable_step w w' : reachable c w -> step c w w' -> reachable c w'.

(** ** The invariant *)

Definition task_turn (t : task) : option Z :=
  match t with Sending n | Sent n _ => Some n | _ => None end.

(** The deferred call will run, or is running. *)
Definition net (w : world) : Prop :=
  deferred w = true \/ Arming ∈ tasks w \/ Firing ∈ tasks w.

Record inv (w : world) : Prop := {
  inv_id : interrupt_id (st w) = u8 (turn w);
  inv_failed : 0 <= failed_attempts (st w) <= 2;
  inv_sender : interrupt (st w) = INTERRUPT_INACTIVE_TO_ACTIVE ->
    exists t, t ∈ tasks w /\ task_turn t = Some (turn w);
  inv_sent : interrupt (st w) = INTERRUPT_INACTIVE_TO_ACTIVE ->
    Sent (turn w) true ∈ tasks w -> line w = true;
  inv_turns : forall t n, t ∈ tasks w -> task_turn t = Some n -> n <= turn w;
  inv_line : interrupt (st w) = INTERRUPT_ACTIVE ->
    exists k, 0 <= k /\ reporter w = turn w - 256 * k /\ (k = 0 -> line w = true);
  inv_net : late_cancel w = false -> interrupt (st w) = INTERRUPT_ACTIVE -> net w }.

Lemma tasks_mid w l1 x l2 (t : task) :
  tasks w = l1 ++ x :: l2 -> t ∈ l1 ++ l2 -> t ∈ tasks w.
Proof. intros -> H. rewrite elem_of_app, elem_of_cons. apply elem_of_app in H. tauto. Qed.

Lemma tasks_here w l1 x l2 : tasks w = l1 ++ x :: l2 -> x ∈ tasks w.
Proof. intros ->. rewrite elem_of_app, elem_of_cons. tauto. Qed.

(** What a task other than the stepping one keeps. *)
Lemma tasks_other w l1 x l2 (t : task) :
  tasks w = l1 ++ x :: l2 -> t ∈ tasks w -> t <> x -> t ∈ l1 ++ l2.
Proof. intros -> H Hne. rewrite elem_of_app, elem_of_cons in H. apply elem_of_app. naive_solver. Qed.

Lemma enter_inv skip ev w rest :
  inv w ->
  (forall t, t ∈ rest -> t ∈ tasks w) ->
  (forall t, t ∈ tasks w -> t ∈ rest \/ t = Forcing) ->
  inv (enter skip ev w rest).
Proof.
  intros [H1 H2 H3 H4 H5 H6 H7] Hin Hout. unfold enter, activate_enter.
  case_match eqn:E; simplify_eq.
  destruct (_ && _ && _) eqn:Hg; simplify_eq; simpl.
  - split; simpl.
    + rewrite H1. by autorewrite with ecr.
    + done.
    + intros _. exists (Sending (turn w + 1)). split; [|done]. rewrite elem_of_app. right. by left.
    + intros _ Hs. rewrite elem_of_app in Hs. destruct Hs as [Hs|Hs].
      * apply Hin in Hs. specialize (H5 _ _ Hs eq_refl). lia.
      * apply list_elem_of_singleton in Hs. done.
    + intros t n Ht Hn. rewrite elem_of_app in Ht. destruct Ht as [Ht|Ht].
      * specialize (H5 _ _ (Hin _ Ht) Hn). lia.
      * apply list_elem_of_singleton in Ht as ->. simpl in Hn. simplify_eq. lia.
    + done.
    + done.
  - split; simpl; try done.
    + intros Hi. destruct (H3 Hi) as (t & Ht & Hn). exists t. split; [|done].
      destruct (Hout _ Ht) as [Hr|Hr]; [done|]. subst t. done.
    + intros Hi Hs. auto.
    + intros t n Ht Hn. eauto.
    + intros Hl Hi. destruct (H7 Hl Hi) as [Hd|Hd]; [by left|]; destruct Hd as [Ha|Ha];
        destruct (Hout _ Ha) as [|]; try done; unfold net; simpl; tauto.
Qed.

(** A step that leaves the protocol's state alone and only loses the task [x]. *)
Lemma inv_same_state w w' :
  inv w ->
  interrupt (st w') = interrupt (st w) -> interrupt_id (st w') = interrupt_id (st w) ->
  failed_attempts (st w') = failed_attempts (st w) ->
  turn w' = turn w -> reporter w' = reporter w ->
  (line w = true -> line w' = true) ->
  (forall t n, t ∈ tasks w' -> task_turn t = Some n -> exists t', t' ∈ tasks w /\ task_turn t' = Some n) ->
  (forall n, Sent n true ∈ tasks w' -> Sent n true ∈ tasks w \/ line w' = true) ->
  (interrupt (st w) = INTERRUPT_INACTIVE_TO_ACTIVE ->
     forall t n, t ∈ tasks w -> task_turn t = Some n ->
     n = turn w -> exists t', t' ∈ tasks w' /\ task_turn t' = Some n) ->
  (late_cancel w' = false -> interrupt (st w) = INTERRUPT_ACTIVE ->
     late_cancel w = false /\ (net w -> net w')) ->
  inv w'.
Proof.
  intros [H1 H2 H3 H4 H5 H6 H7] Hi Hid Hf Ht Hd Hl Hback Hsent Hfwd Hnet.
  split.
  - congruence.
  - by rewrite Hf.
  - rewrite Hi, Ht. intros E. destruct (H3 E) as (t & Hin & Hn). by eapply Hfwd.
  - rewrite Hi, Ht. intros E Hs. destruct (Hsent _ Hs) as [Hs'|]; auto.
  - intros t n Hin Hn. rewrite Ht. destruct (Hback _ _ Hin Hn) as (t' & Hin' & Hn'). eauto.
  - rewrite Hi, Hd, Ht. intros E. destruct (H6 E) as (k & ? & ? & ?). exists k. auto.
  - rewrite Hi. intros Hc E. destruct (Hnet Hc E). auto.
Qed.

(** A step after which the interrupt is neither being sent nor active. *)
Lemma inv_inactive w w' :
  inv w ->
  interrupt (st w') = INTERRUPT_INACTIVE -> interrupt_id (st w') = interrupt_id (st w) ->
  0 <= failed_attempts (st w') <= 2 -> turn w' = turn w ->
  (forall t n, t ∈ tasks w' -> task_turn t = Some n -> t ∈ tasks w) ->
  inv w'.
Proof.
  intros H Hi Hid Hf Ht Hback. split; rewrite ?Hi; try done.
  - rewrite Hid, Ht. apply H.
  - intros t n Hin Hn. rewrite Ht. eapply inv_turns; eauto.
Qed.

Ltac in_mid H := rewrite ?elem_of_app, ?elem_of_cons in H.

Lemma inv_line_step w l1 l2 t ok :
  tasks w = l1 ++ Sending t :: l2 -> inv w ->
  inv (World (st w) (l1 ++ Sent t ok :: l2) (deferred w) (line w || ok) (cancelling w)
         (turn w) (late_cancel w) (reporter w)).
Proof.
  intros E H. eapply inv_same_state; eauto; simpl.
  - intros ->. done.
  - intros x n Hin Hn. in_mid Hin. rewrite E. destruct Hin as [Hin|[->|Hin]].
    + exists x. rewrite elem_of_app. auto.
    + exists (Sending t). rewrite elem_of_app, elem_of_cons. auto.
    + exists x. rewrite elem_of_app, elem_of_cons. auto.
  - intros n Hin. in_mid Hin. rewrite E, elem_of_app, elem_of_cons.
    destruct Hin as [Hin|[Hin|Hin]]; [auto| |auto]. simplify_eq. right. by rewrite orb_true_r.
  - intros _ x n Hin Hn _. rewrite E in Hin. in_mid Hin. destruct Hin as [Hin|[->|Hin]].
    + exists x. rewrite elem_of_app. auto.
    + exists (Sent t ok). rewrite elem_of_app, elem_of_cons. auto.
    + exists x. rewrite elem_of_app, elem_of_cons. auto.
  - intros ? _. split; [done|]. unfold net. simpl. rewrite E, !elem_of_app, !elem_of_cons. naive_solver.
Qed.

Lemma inv_exit_step w l1 l2 t ok s :
  tasks w = l1 ++ Sent t ok :: l2 -> activate_exit (u8 t) ok (st w) = (true, s) -> inv w ->
  inv (World s (l1 ++ Arming :: l2) (deferred w) (line w) (cancelling w) (turn w)
         false t).
Proof.
  intros E Ha H. unfold activate_exit in Ha. destruct (bool_decide _ && _) eqn:Hg; simplify_eq.
  apply andb_prop in Hg as [Hi%bool_decide_eq_true_1 Hid%Z.eqb_eq].
  split; simpl; try apply H.
  - by destruct ok.
  - by destruct ok.
  - intros x n Hin Hn. eapply inv_turns; eauto. in_mid Hin. rewrite E, elem_of_app, elem_of_cons.
    destruct Hin as [?|[->|?]]; [auto|done|auto].
  - destruct ok; [|done]. intros _. rewrite (inv_id w H) in Hid.
    assert (Hle : t <= turn w) by (apply (inv_turns w H (Sent t true)); [rewrite E, elem_of_app, elem_of_cons; auto|done]).
    exists ((turn w - t) / 256). unfold wrap in Hid. change (2 ^ 8) with 256 in Hid.
    split; [divlia|]. split; [divlia|]. intros Hk. replace t with (turn w) in * by divlia.
    apply (inv_sent w H Hi). rewrite E, elem_of_app, elem_of_cons. auto.
  - intros _ _. right. left. simpl. rewrite elem_of_app, elem_of_cons. auto.
Qed.

(** The task of the current turn is never superseded while the interrupt is
    being sent. *)
Lemma inv_superseded_step w l1 l2 t ok s :
  tasks w = l1 ++ Sent t ok :: l2 -> activate_exit (u8 t) ok (st w) = (false, s) -> inv w ->
  inv (World s (l1 ++ l2) (deferred w) (line w) (cancelling w) (turn w) (late_cancel w) (reporter w)).
Proof.
  intros E Ha H. unfold activate_exit in Ha. destruct (bool_decide _ && _) eqn:Hg; simplify_eq.
  eapply inv_same_state; eauto; simpl.
  - intros x n Hin Hn. exists x. split; [|done]. eauto using tasks_mid.
  - intros n Hin. left. eauto using tasks_mid.
  - intros Hi x n Hin Hn ->. exists x. split; [|done]. eapply tasks_other; eauto.
    intros ->. simpl in Hn. simplify_eq.
    rewrite bool_decide_true, (inv_id w H), Z.eqb_refl in Hg by done. done.
  - intros Hc _. split; [done|]. unfold net. simpl. rewrite E, !elem_of_app, !elem_of_cons. naive_solver.
Qed.

Lemma inv_force_step w l1 l2 send s :
  tasks w = l1 ++ Firing :: l2 -> force_mkbp_if_events (st w) = (send, s) -> inv w ->
  inv (World s (l1 ++ (if send then [Forcing] else []) ++ l2) (deferred w) (line w) (cancelling w)
         (turn w) (late_cancel w) (reporter w)).
Proof.
  intros E Hf H. unfold force_mkbp_if_events in Hf.
  assert (Hback : forall x n, x ∈ l1 ++ (if send then [Forcing] else []) ++ l2 ->
            task_turn x = Some n -> x ∈ tasks w).
  { intros x n Hin Hn. rewrite E, elem_of_app, elem_of_cons. destruct send; in_mid Hin.
    - destruct Hin as [?|[[->|?%elem_of_nil]|?]]; [auto|done|done|auto].
    - destruct Hin as [?|[?%elem_of_nil|?]]; [auto|done|auto]. }
  pose proof (inv_failed w H) as Hfa. destruct (interrupt (st w)) eqn:Hi.
  - simplify_eq. eapply inv_inactive; eauto.
  - simplify_eq. eapply inv_same_state; eauto; simpl.
    + intros _ x n Hin Hn _. exists x. split; [|done]. eapply tasks_other; eauto. by intros ->.
    + congruence.
  - assert (u8 (failed_attempts (st w) + 1) = failed_attempts (st w) + 1) as Hu
      by (apply wrap_id; unfold in_range; lia).
    rewrite Hu in Hf. destruct (Z.ltb_spec (failed_attempts (st w) + 1) 3); simplify_eq;
      eapply inv_inactive; eauto; simpl; lia.
Qed.

Lemma inv_step c w w' : step c w w' -> inv w -> inv w'.
Proof.
  intros Hstep H. destruct Hstep as
    [w e sl hev He|w l1 l2 t ok E|w l1 l2 t ok s E Ha|w l1 l2 t ok s E Ha|w l1 l2 E|w Hd
    |w l1 l2 send s E Hf|w l1 l2 sl hev E|w e He|w e He|w cl s Hc Hs|w Hc].
  - apply enter_inv; auto.
  - by apply inv_line_step.
  - by eapply inv_exit_step.
  - by eapply inv_superseded_step.
  - eapply inv_same_state; eauto; simpl; eauto 6 using tasks_mid.
    + intros _ x n Hin Hn _. exists x. split; [|done]. eapply tasks_other; eauto. by intros ->.
    + intros Hc _. split; [done|]. intros _. by left.
  - eapply inv_same_state; eauto; simpl.
    + intros x n Hin Hn. in_mid Hin. destruct Hin as [?|[->|?%elem_of_nil]]; [eauto|done|done].
    + intros n Hin. in_mid Hin. destruct Hin as [?|[?|?%elem_of_nil]]; [eauto|done|done].
    + intros _ x n Hin Hn _. exists x. rewrite elem_of_app. auto.
    + intros Hc _. split; [done|]. intros _. right. right. simpl. rewrite elem_of_app, elem_of_cons. auto.
  - by eapply inv_force_step.
  - apply enter_inv; [done|eauto using tasks_mid|]. intros x Hx.
    destruct (decide (x = Forcing)); [auto|]. left. eapply tasks_other; eauto.
  - eapply inv_same_state; eauto; simpl; eauto.
  - eapply inv_same_state; eauto; simpl; eauto.
  - unfold set_inactive_if_no_events in Hs. destruct (_ =? _); simplify_eq; simpl.
    + eapply inv_inactive; eauto. simpl. lia.
    + eapply inv_same_state; eauto; simpl; eauto. by intros ->.
  - eapply inv_same_state; eauto; simpl; eauto. intros Hl Hi.
    rewrite bool_decide_true, orb_true_r in Hl by done. done.
Qed.

Lemma inv_init : inv init.
Proof. by split; simpl; try done; intros ? ? ?%elem_of_nil. Qed.

Lemma reachable_inv c w : reachable c w -> inv w.
Proof. induction 1; eauto using inv_init, inv_step. Qed.

(** ** Whole calls, without interleaving *)

(** src/common/mkbp_event.c:209-274 [activate_mkbp_with_events] *)
Definition activate_mkbp_with_events (c : config) (sleeping : bool) (hev ev : Z) (ok : bool) (s : state)
  : bool * state :=
  match activate_enter (skip_interrupt c sleeping hev ev) ev s with
  | (None, s) => (false, s)
  | (Some id, s) => activate_exit id ok s
  end.

(** The deferred call; the result is whether it is scheduled again. *)
(** src/common/mkbp_event.c:276-337 [force_mkbp_if_events] *)
Definition deferred_call (c : config) (sleeping : bool) (hev : Z) (ok : bool) (s : state) : bool * state :=
  let '(send, s) := force_mkbp_if_events s in
  if send then activate_mkbp_with_events c sleeping hev 0 ok s else (false, s).

Lemma activate_sends c sl hev ev ok s :
  u32 (Z.lor (events s) ev) <> 0 -> interrupt s = INTERRUPT_INACTIVE ->
  skip_interrupt c sl hev ev = false ->
  activate_mkbp_with_events c sl hev ev ok s =
    (true, State (u32 (Z.lor (events s) ev)) (if ok then INTERRUPT_ACTIVE else INTERRUPT_INACTIVE)
             (u8 (interrupt_id s + 1)) (failed_attempts s)).
Proof.
  intros Hev Hi Hs. unfold activate_mkbp_with_events, activate_enter. rewrite Hs. simpl.
  unfold bool_of_Z. rewrite (proj2 (Z.eqb_neq _ _) Hev), bool_decide_true by done. simpl.
  unfold activate_exit. simpl. by rewrite Z.eqb_refl.
Qed.

(** No event is skipped while the host is awake, and nothing is when a key
    matrix event is pending. *)
Lemma awake_never_skips c hev ev : skip_interrupt c false hev ev = false.
Proof.
  unfold skip_interrupt.
  destruct (mkbp_event_wake_mask c), (mkbp_host_event_wake_mask c); simpl; by repeat case_match.
Qed.

(** [n] deferred calls in a row, with the outcomes of the sends. *)
Fixpoint deferred_calls (c : config) (n : nat) (ok : bool) (r : bool * state) : bool * state :=
  match n with
  | O => r
  | S n => deferred_calls c n ok (if r.1 : bool then deferred_call c false 0 ok r.2 else r)
  end.

Lemma deferred_call_unanswered c s :
  is_u32 (events s) -> events s <> 0 -> interrupt s = INTERRUPT_ACTIVE ->
  0 <= failed_attempts s < 2 ->
  deferred_call c false 0 true s =
    (true, State (events s) INTERRUPT_ACTIVE (u8 (interrupt_id s + 1)) (failed_attempts s + 1)).
Proof.
  intros Hr Hev Hi Hf. unfold deferred_call, force_mkbp_if_events. rewrite Hi.
  rewrite (wrap_id 8) by (unfold in_range; lia).
  rewrite (proj2 (Z.ltb_lt _ _)) by lia.
  rewrite activate_sends; simpl; rewrite ?Z.lor_0_r, ?(wrap_id 32) by done; auto using awake_never_skips.
Qed.

Lemma deferred_call_gives_up c s :
  interrupt s = INTERRUPT_ACTIVE -> failed_attempts s = 2 ->
  deferred_call c false 0 true s = (false, State (events s) INTERRUPT_INACTIVE (interrupt_id s) 0).
Proof. intros Hi Hf. unfold deferred_call, force_mkbp_if_events. by rewrite Hi, Hf. Qed.

Lemma deferred_call_send_failed c s :
  is_u32 (events s) -> events s <> 0 -> interrupt s = INTERRUPT_INACTIVE ->
  deferred_call c false 0 false s =
    (true, State (events s) INTERRUPT_INACTIVE (u8 (interrupt_id s + 1)) (failed_attempts s)).
Proof.
  intros Hr Hev Hi. unfold deferred_call, force_mkbp_if_events. rewrite Hi.
  rewrite activate_sends; rewrite ?Z.lor_0_r, ?(wrap_id 32) by done; auto using awake_never_skips.
Qed.

Lemma deferred_calls_send_failed c n s :
  is_u32 (events s) -> events s <> 0 -> interrupt s = INTERRUPT_INACTIVE -> is_u8 (interrupt_id s) ->
  deferred_calls c n false (true, s) =
    (true, State (events s) INTERRUPT_INACTIVE (u8 (interrupt_id s + Z.of_nat n)) (failed_attempts s)).
Proof.
  revert s. induction n as [|n IH]; intros s Hr Hev Hi Hid.
  - rewrite Z.add_0_r, (wrap_id 8) by done. destruct s; simpl in *. by subst.
  - simpl deferred_calls. rewrite deferred_call_send_failed by done.
    rewrite IH by (done || by apply wrap_range). simpl. autorewrite with ecr.
    do 3 f_equal. lia.
Qed.

Lemma deferred_calls_snoc c n ok r :
  deferred_calls c (S n) ok r =
    let r' := deferred_calls c n ok r in if r'.1 then deferred_call c false 0 ok r'.2 else r'.
Proof. revert r. induction n as [|n IH]; intros r; [done|]. apply IH. Qed.

Lemma deferred_calls_unanswered c n s :
  is_u32 (events s) -> events s <> 0 -> interrupt s = INTERRUPT_ACTIVE -> is_u8 (interrupt_id s) ->
  0 <= failed_attempts s -> failed_attempts s + Z.of_nat n <= 2 ->
  deferred_calls c n true (true, s) =
    (true, State (events s) INTERRUPT_ACTIVE (u8 (interrupt_id s + Z.of_nat n))
             (failed_attempts s + Z.of_nat n)).
Proof.
  intros Hr Hev Hi Hid Hf. induction n as [|n IH]; intros Hn.
  - rewrite !Z.add_0_r, (wrap_id 8) by done. destruct s; simpl in *. by subst.
  - rewrite deferred_calls_snoc, IH by lia. simpl.
    rewrite deferred_call_unanswered; simpl; try done; try lia. autorewrite with ecr.
    do 2 f_equal; [f_equal|]; lia.
Qed.

Lemma event_flag_nonzero ev e : is_u32 ev -> 0 <= e < 32 -> u32 (Z.lor ev (BIT e)) <> 0.
Proof.
  intros Hev He H. assert (is_u32 (BIT e)) as Hb.
  { unfold BIT, in_range. rewrite Z.shiftl_1_l. split; [lia|]. apply Z.pow_lt_mono_r; lia. }
  rewrite wrap_id in H by (apply lor_range; done).
  apply Z.lor_eq_0_iff in H as [_ H]. unfold BIT in H. rewrite Z.shiftl_1_l in H.
  assert (0 < 2 ^ e) by (apply Z.pow_pos_nonneg; lia). lia.
Qed.

(** ** Properties *)

(** C36. In every reachable interleaving of any number of event-sending tasks,
    the deferred retry and the AP's polling command: the attempt counter stays
    below 3; while the interrupt is being sent, the task that sends it for the
    current turn exists and will report the outcome (so the state cannot
    stick); an ACTIVE interrupt was reported by the task
    that sends it for the current turn, and then the line was raised and not
    lowered since, or by one whose turn is older by a multiple of 256, which
    the 8-bit id cannot tell from it; and an ACTIVE
    interrupt has its retry armed, pending or running, unless a polling
    command's late cancellation came after the activation. *)
Theorem interrupt_protocol c w :
  reachable c w ->
  0 <= failed_attempts (st w) <= 2 /\
  (interrupt (st w) = INTERRUPT_INACTIVE_TO_ACTIVE ->
     exists t, t ∈ tasks w /\ task_turn t = Some (turn w) /\
       (forall ok, activate_exit (u8 (turn w)) ok (st w) =
          (true, State (events (st w)) (if ok then INTERRUPT_ACTIVE else INTERRUPT_INACTIVE)
                   (interrupt_id (st w)) (failed_attempts (st w))))) /\
  (interrupt (st w) = INTERRUPT_ACTIVE ->
     exists k, 0 <= k /\ reporter w = turn w - 256 * k /\ (k = 0 -> line w = true)) /\
  (interrupt (st w) = INTERRUPT_ACTIVE -> net w \/ late_cancel w = true).
Proof.
  intros H%reachable_inv. split; [apply H|]. split_and!.
  - intros Hi. destruct (inv_sender w H Hi) as (t & Hin & Hn). exists t. split; [done|]. split; [done|].
    intros ok. unfold activate_exit. by rewrite bool_decide_true, (inv_id w H), Z.eqb_refl by done.
  - apply (inv_line w H).
  - intros Hi. destruct (late_cancel w) eqn:E; [auto|]. left. by apply (inv_net w H).
Qed.

(** Failures of the host are retried in a bounded way and failures to send
    without bound: with the AP awake and silent, an activation with [f] failed
    attempts is re-sent by each of the next [2 - f] deferred calls, under a new
    interrupt id each, and the call after those stops: the interrupt is
    INACTIVE with the counter reset, no call is scheduled and the events are
    kept, and any later event sends the interrupt again; when sending itself
    fails, every deferred call tries again and schedules the next, with the
    counter untouched. *)
Theorem retry_correct c s :
  is_u32 (events s) -> events s <> 0 -> is_u8 (interrupt_id s) -> 0 <= failed_attempts s <= 2 ->
  (interrupt s = INTERRUPT_ACTIVE ->
     (forall i, (i <= Z.to_nat (2 - failed_attempts s))%nat ->
        deferred_calls c i true (true, s) =
          (true, State (events s) INTERRUPT_ACTIVE (u8 (interrupt_id s + Z.of_nat i))
                   (failed_attempts s + Z.of_nat i))) /\
     exists s', deferred_calls c (S (Z.to_nat (2 - failed_attempts s))) true (true, s) = (false, s') /\
       interrupt s' = INTERRUPT_INACTIVE /\ failed_attempts s' = 0 /\ events s' = events s /\
       forall e, 0 <= e < 32 ->
         exists s2, activate_mkbp_with_events c false 0 (BIT e) true s' = (true, s2) /\
           interrupt s2 = INTERRUPT_ACTIVE) /\
  (interrupt s = INTERRUPT_INACTIVE ->
     forall n, deferred_calls c n false (true, s) =
       (true, State (events s) INTERRUPT_INACTIVE (u8 (interrupt_id s + Z.of_nat n)) (failed_attempts s))).
Proof.
  intros Hr Hev Hid Hf. split; intros Hi.
  - split; [intros i Hle; apply deferred_calls_unanswered; done || lia|].
    eexists. split_and!.
    + rewrite deferred_calls_snoc, deferred_calls_unanswered by (done || lia). simpl.
      rewrite deferred_call_gives_up by (simpl; lia || done). done.
    + done.
    + done.
    + done.
    + intros e He. eexists. rewrite activate_sends; [done| |done|apply awake_never_skips].
      by apply event_flag_nonzero.
  - intros n. by apply deferred_calls_send_failed.
Qed.

Definition no_masks : config := Config None None false.

(** One uninterrupted send of event [e] that reaches the AP. *)
Lemma send_steps w e s s' :
  reachable no_masks w -> 0 <= e < 32 -> tasks w = [] ->
  activate_enter false (BIT e) (st w) = (Some (u8 (turn w + 1)), s) ->
  activate_exit (u8 (turn w + 1)) true s = (true, s') ->
  reachable no_masks (World s' [] true true (cancelling w) (turn w + 1) false (turn w + 1)).
Proof.
  intros Hw He Ht Hen Hex.
  assert (reachable no_masks (World s [Sending (turn w + 1)] (deferred w) (line w) (cancelling w)
            (turn w + 1) (late_cancel w) (reporter w))) as R1.
  { eapply reachable_step; [exact Hw|].
    pose proof (step_send no_masks w e false 0 He) as St. unfold enter in St.
    rewrite Ht in St. change (skip_interrupt no_masks false 0 (BIT e)) with false in St.
    by rewrite Hen in St. }
  unshelve epose proof (reachable_step _ _ _ R1 (step_line _ _ [] [] (turn w + 1) true _)) as R2; [done|].
  unshelve epose proof (reachable_step _ _ _ R2 (step_exit _ _ [] [] (turn w + 1) true s' _ _)) as R3;
    [done|exact Hex|].
  unshelve epose proof (reachable_step _ _ _ R3 (step_arm _ _ [] [] _)) as R4; [done|]. simpl in R4.
  rewrite orb_true_r in R4. exact R4.
Qed.

(** The retry can be lost: the AP's command takes the last event and turns the
    interrupt off, another task sends a new event and arms its retry, and the
    command's cancellation, outside the lock, removes that retry. *)
Definition lost_retry : world :=
  World (State 2 INTERRUPT_ACTIVE 2 0) [] false true false 2 true 2.

Lemma lost_retry_reachable : reachable no_masks lost_retry.
Proof.
  assert (reachable no_masks (World (State 1 INTERRUPT_ACTIVE 1 0) [] true true false 1 false 1)) as R1.
  { eapply (send_steps init 0); try reflexivity; [constructor|lia]. }
  pose proof (reachable_step _ _ _ R1 (step_take _ _ 0 ltac:(vm_compute; done))) as R2.
  unshelve epose proof (reachable_step _ _ _ R2 (step_clear _ _ true (State 0 INTERRUPT_INACTIVE 1 0) _ _)) as R3;
    [done|done|]. simpl in R3.
  assert (reachable no_masks (World (State 2 INTERRUPT_ACTIVE 2 0) [] true true true 2 false 2)) as R4.
  { exact (send_steps _ 1 _ _ R3 ltac:(lia) eq_refl eq_refl eq_refl). }
  unshelve epose proof (reachable_step _ _ _ R4 (step_cancel _ _ _)) as R5; [done|]. exact R5.
Qed.

Lemma retry_lost : interrupt (st lost_retry) = INTERRUPT_ACTIVE /\ events (st lost_retry) <> 0 /\ ~ net lost_retry.
Proof.
  split_and!; [done|done|]. intros [H|[H%elem_of_nil|H%elem_of_nil]]; done.
Qed.

Lemma interrupt_protocol_witness : reachable no_masks lost_retry /\ 0 <= failed_attempts (st lost_retry) <= 2.
Proof.
  split; [exact lost_retry_reachable|].
  exact (proj1 (interrupt_protocol no_masks lost_retry lost_retry_reachable)).
Defined.

Lemma retry_correct_witness :
  deferred_calls no_masks 2 true (true, State 4 INTERRUPT_ACTIVE 254 0) =
    (true, State 4 INTERRUPT_ACTIVE 0 2).
Proof.
  refine (proj1 (proj1 (retry_correct no_masks (State 4 INTERRUPT_ACTIVE 254 0) _ _ _ _) _) 2%nat _);
    simpl; unfold in_range; (lia || reflexivity).
Defined.

End MkbpInterrupt.
