(* ===== verification/Sha256.v ===== *)
(** * SHA-256 and HMAC (common/sha256.c)

    The hash with its streaming interface ([SHA256_init], [SHA256_update],
    [SHA256_final]), both forms of the compression loop (rolled, and unrolled
    with rotating indices) and the HMAC built on it, against the definition of
    the standard (FIPS 180-4 and FIPS 198-1) in Module Fips. *)

From S2P Require Import Prelude.

Module Sha256.

(** src/include/sha256.h:13-13 [SHA256_DIGEST_SIZE] *)
Definition SHA256_DIGEST_SIZE : Z := 32.
(** src/include/sha256.h:14-14 [SHA256_BLOCK_SIZE] *)
Definition SHA256_BLOCK_SIZE : Z := 64.

(** src/common/sha256.c:42-42 [SHFR] *)
Definition SHFR (x n : Z) : Z := Z.shiftr x n.
(** src/common/sha256.c:43-43 [ROTR] *)
Definition ROTR (x n : Z) : Z := Z.lor (Z.shiftr x n) (u32 (Z.shiftl x (32 - n))).
(** src/common/sha256.c:45-45 [CH] *)
Definition CH (x y z : Z) : Z := Z.lxor (Z.land x y) (Z.land (u32 (Z.lnot x)) z).
(** src/common/sha256.c:46-46 [MAJ] *)
Definition MAJ (x y z : Z) : Z := Z.lxor (Z.lxor (Z.land x y) (Z.land x z)) (Z.land y z).
(** src/common/sha256.c:48-48 [SHA256_F1] *)
Definition SHA256_F1 (x : Z) : Z := Z.lxor (Z.lxor (ROTR x 2) (ROTR x 13)) (ROTR x 22).
(** src/common/sha256.c:49-49 [SHA256_F2] *)
Definition SHA256_F2 (x : Z) : Z := Z.lxor (Z.lxor (ROTR x 6) (ROTR x 11)) (ROTR x 25).
(** src/common/sha256.c:50-50 [SHA256_F3] *)
Definition SHA256_F3 (x : Z) : Z := Z.lxor (Z.lxor (ROTR x 7) (ROTR x 18)) (SHFR x 3).
(** src/common/sha256.c:51-51 [SHA256_F4] *)
Definition SHA256_F4 (x : Z) : Z := Z.lxor (Z.lxor (ROTR x 17) (ROTR x 19)) (SHFR x 10).

(** The four bytes [UNPACK32] stores at [str]. *)
(** src/common/sha256.c:53-59 [UNPACK32] *)
Definition UNPACK32 (x : Z) : list Z :=
  [u8 (Z.shiftr x 24); u8 (Z.shiftr x 16); u8 (Z.shiftr x 8); u8 x].

(** src/common/sha256.c:61-67 [PACK32] *)
Definition PACK32 (message : list Z) (str : Z) : Z :=
  Z.lor (Z.lor (Z.lor (aget message (str + 3)) (Z.shiftl (aget message (str + 2)) 8))
           (Z.shiftl (aget message (str + 1)) 16))
    (Z.shiftl (aget message str) 24).

(** src/common/sha256.c:71-75 [SHA256_SCR] *)
Definition SHA256_SCR (w : list Z) (i : Z) : list Z :=
  aset w i (u32 (SHA256_F4 (aget w (i - 2)) + aget w (i - 7) + SHA256_F3 (aget w (i - 15)) + aget w (i - 16))).

(** src/common/sha256.c:86-88 [sha256_h0] *)
Definition sha256_h0 : list Z :=
  0x6a09e667 :: 0xbb67ae85 :: 0x3c6ef372 :: 0xa54ff53a :: 0x510e527f :: 0x9b05688c ::
  0x1f83d9ab :: 0x5be0cd19 :: [].

(** src/common/sha256.c:90-102 [sha256_k] *)
Definition sha256_k : list Z :=
  0x428a2f98 :: 0x71374491 :: 0xb5c0fbcf :: 0xe9b5dba5 :: 0x3956c25b :: 0x59f111f1 ::
  0x923f82a4 :: 0xab1c5ed5 :: 0xd807aa98 :: 0x12835b01 :: 0x243185be :: 0x550c7dc3 ::
  0x72be5d74 :: 0x80deb1fe :: 0x9bdc06a7 :: 0xc19bf174 :: 0xe49b69c1 :: 0xefbe4786 ::
  0x0fc19dc6 :: 0x240ca1cc :: 0x2de92c6f :: 0x4a7484aa :: 0x5cb0a9dc :: 0x76f988da ::
  0x983e5152 :: 0xa831c66d :: 0xb00327c8 :: 0xbf597fc7 :: 0xc6e00bf3 :: 0xd5a79147 ::
  0x06ca6351 :: 0x14292967 :: 0x27b70a85 :: 0x2e1b2138 :: 0x4d2c6dfc :: 0x53380d13 ::
  0x650a7354 :: 0x766a0abb :: 0x81c2c92e :: 0x92722c85 :: 0xa2bfe8a1 :: 0xa81a664b ::
  0xc24b8b70 :: 0xc76c51a3 :: 0xd192e819 :: 0xd6990624 :: 0xf40e3585 :: 0x106aa070 ::
  0x19a4c116 :: 0x1e376c08 :: 0x2748774c :: 0x34b0bcb5 :: 0x391c0cb3 :: 0x4ed8aa4a ::
  0x5b9cca4f :: 0x682e6ff3 :: 0x748f82ee :: 0x78a5636f :: 0x84c87814 :: 0x8cc70208 ::
  0x90befffa :: 0xa4506ceb :: 0xbef9a3f7 :: 0xc67178f2 :: [].

(** src/include/sha256.h:35-41 [struct sha256_ctx] *)
Record sha256_ctx := Ctx {
  h : list Z;
  tot_len : Z;
  len : Z;
  block : list Z;
  buf : list Z }.

(** src/common/sha256.c:104-113 [SHA256_init] *)
Definition SHA256_init (ctx : sha256_ctx) : sha256_ctx :=
  Ctx sha256_h0 0 0 (block ctx) (buf ctx).

(** ** Compression *)

(** The words of one block and the message schedule. *)
(** src/common/sha256.c:128-145 [SHA256_transform] *)
Definition expand (sub_block : list Z) : list Z :=
  let w := fold_left (fun w j => aset w j (PACK32 sub_block (4 * j))) (seqZ 0 16) (replicate 64 0) in
  fold_left SHA256_SCR (seqZ 16 48) w.

(** One iteration of the rolled loop. *)
(** src/common/sha256.c:163-173 [SHA256_transform] *)
Definition rolled_round (w wv : list Z) (j : Z) : list Z :=
  let t1 := u32 (aget wv 7 + SHA256_F2 (aget wv 4) + CH (aget wv 4) (aget wv 5) (aget wv 6)
                 + aget sha256_k j + aget w j) in
  let t2 := u32 (SHA256_F1 (aget wv 0) + MAJ (aget wv 0) (aget wv 1) (aget wv 2)) in
  let wv := aset wv 7 (aget wv 6) in
  let wv := aset wv 6 (aget wv 5) in
  let wv := aset wv 5 (aget wv 4) in
  let wv := aset wv 4 (u32 (aget wv 3 + t1)) in
  let wv := aset wv 3 (aget wv 2) in
  let wv := aset wv 2 (aget wv 1) in
  let wv := aset wv 1 (aget wv 0) in
  aset wv 0 (u32 (t1 + t2)).

(** src/common/sha256.c:77-84 [SHA256_EXP] *)
Definition SHA256_EXP (wt : list Z) (a b c d e f g hh j : Z) (wv : list Z) : list Z :=
  let t1 := u32 (aget wv hh + SHA256_F2 (aget wv e) + CH (aget wv e) (aget wv f) (aget wv g)
                 + aget sha256_k j + aget wt j) in
  let t2 := u32 (SHA256_F1 (aget wv a) + MAJ (aget wv a) (aget wv b) (aget wv c)) in
  let wv := aset wv d (u32 (aget wv d + t1)) in
  aset wv hh (u32 (t1 + t2)).

(** Eight unrolled rounds. *)
(** src/common/sha256.c:151-160 [SHA256_transform] *)
Definition unrolled_rounds (w wv : list Z) (j : Z) : list Z :=
  let wv := SHA256_EXP w 0 1 2 3 4 5 6 7 j wv in
  let wv := SHA256_EXP w 7 0 1 2 3 4 5 6 (j + 1) wv in
  let wv := SHA256_EXP w 6 7 0 1 2 3 4 5 (j + 2) wv in
  let wv := SHA256_EXP w 5 6 7 0 1 2 3 4 (j + 3) wv in
  let wv := SHA256_EXP w 4 5 6 7 0 1 2 3 (j + 4) wv in
  let wv := SHA256_EXP w 3 4 5 6 7 0 1 2 (j + 5) wv in
  let wv := SHA256_EXP w 2 3 4 5 6 7 0 1 (j + 6) wv in
  SHA256_EXP w 1 2 3 4 5 6 7 0 (j + 7) wv.

(** The unrolled message schedule; the loop variable counts by eight. *)
(** src/common/sha256.c:128-141 [SHA256_transform] *)
Definition unrolled_expand (sub_block : list Z) : list Z :=
  let w := fold_left (fun w j => aset w j (PACK32 sub_block (4 * j))) (seqZ 0 16) (replicate 64 0) in
  fold_left (fun w j =>
      SHA256_SCR (SHA256_SCR (SHA256_SCR (SHA256_SCR (SHA256_SCR (SHA256_SCR (SHA256_SCR
        (SHA256_SCR w j) (j + 1)) (j + 2)) (j + 3)) (j + 4)) (j + 5)) (j + 6)) (j + 7))
    ((fun i => 16 + 8 * i) <$> seqZ 0 6) w.

(** [CONFIG_SHA256_UNROLLED] chooses the loops. *)
(** src/common/sha256.c:125-179 [SHA256_transform] *)
Definition transform_block (unrolled : bool) (hs sub_block : list Z) : list Z :=
  let w := if unrolled then unrolled_expand sub_block else expand sub_block in
  let wv :=
    if unrolled then fold_left (unrolled_rounds w) ((fun i => 8 * i) <$> seqZ 0 8) hs
    else fold_left (rolled_round w) (seqZ 0 64) hs in
  (fun j => u32 (aget hs j + aget wv j)) <$> seqZ 0 8.

(** The blocks at [message + (i << 6)]. *)
(** src/common/sha256.c:115-180 [SHA256_transform] *)
Definition SHA256_transform (unrolled : bool) (ctx : sha256_ctx) (message : list Z) (block_nb : Z) : sha256_ctx :=
  let hs := fold_left (fun hs i => transform_block unrolled hs (drop (Z.to_nat (Z.shiftl i 6)) message))
              (seqZ 0 block_nb) (h ctx) in
  Ctx hs (tot_len ctx) (len ctx) (block ctx) (buf ctx).

(** ** The streaming interface *)

(** src/common/sha256.c:182-212 [SHA256_update] *)
Definition SHA256_update (unrolled : bool) (ctx : sha256_ctx) (data : list Z) (n : Z) : sha256_ctx :=
  let tmp_len := u32 (SHA256_BLOCK_SIZE - len ctx) in
  let rem_len := if n <? tmp_len then n else tmp_len in
  let ctx := Ctx (h ctx) (tot_len ctx) (len ctx) (bcopy (block ctx) (len ctx) data rem_len) (buf ctx) in
  if u32 (len ctx + n) <? SHA256_BLOCK_SIZE
  then Ctx (h ctx) (tot_len ctx) (u32 (len ctx + n)) (block ctx) (buf ctx)
  else
    let new_len := u32 (n - rem_len) in
    let block_nb := new_len / SHA256_BLOCK_SIZE in
    let shifted_data := drop (Z.to_nat rem_len) data in
    let ctx := SHA256_transform unrolled ctx (block ctx) 1 in
    let ctx := SHA256_transform unrolled ctx shifted_data block_nb in
    let rem_len := new_len mod SHA256_BLOCK_SIZE in
    Ctx (h ctx) (u32 (tot_len ctx + Z.shiftl (block_nb + 1) 6)) rem_len
      (bcopy (block ctx) 0 (drop (Z.to_nat (Z.shiftl block_nb 6)) shifted_data) rem_len) (buf ctx).

(** src/common/sha256.c:214-229 [SHA256_init_1b] *)
Definition SHA256_init_1b (unrolled : bool) (ctx : sha256_ctx) (data : list Z) : sha256_ctx :=
  let ctx := Ctx sha256_h0 (tot_len ctx) (len ctx) (block ctx) (buf ctx) in
  let ctx := SHA256_transform unrolled ctx data 1 in
  Ctx (h ctx) SHA256_BLOCK_SIZE 0 (block ctx) (buf ctx).

(** src/common/sha256.c:231-254 [SHA256_final] *)
Definition SHA256_final (unrolled : bool) (ctx : sha256_ctx) : sha256_ctx :=
  let block_nb := 1 + (if SHA256_BLOCK_SIZE - 9 <? len ctx mod SHA256_BLOCK_SIZE then 1 else 0) in
  let len_b := u32 (Z.shiftl (u32 (tot_len ctx + len ctx)) 3) in
  let pm_len := Z.shiftl block_nb 6 in
  let b := bfill (block ctx) (len ctx) 0 (pm_len - len ctx) in
  let b := aset b (len ctx) 0x80 in
  let b := bcopy b (pm_len - 4) (UNPACK32 len_b) 4 in
  let ctx := SHA256_transform unrolled (Ctx (h ctx) (tot_len ctx) (len ctx) b (buf ctx)) b block_nb in
  let out := fold_left (fun out i => bcopy out (Z.shiftl i 2) (UNPACK32 (aget (h ctx) i)) 4)
               (seqZ 0 8) (buf ctx) in
  Ctx (h ctx) (tot_len ctx) (len ctx) (block ctx) out.

(** ** HMAC *)

(** [stack] is what the uninitialised local context holds. *)
(** src/common/sha256.c:256-275 [hmac_SHA256_step] *)
Definition hmac_SHA256_step (unrolled : bool) (stack : sha256_ctx) (output : list Z) (mask : Z)
    (key : list Z) (key_len : Z) (data : list Z) (data_len : Z) : list Z :=
  let key_pad := bfill (block stack) 0 mask SHA256_BLOCK_SIZE in
  let key_pad := fold_left (fun p i => aset p i (Z.lxor (aget p i) (aget key i))) (seqZ 0 key_len) key_pad in
  let ctx := Ctx (h stack) (tot_len stack) (len stack) key_pad (buf stack) in
  let ctx := SHA256_init_1b unrolled ctx key_pad in
  let ctx := SHA256_update unrolled ctx data data_len in
  let ctx := SHA256_final unrolled ctx in
  bcopy output 0 (buf ctx) SHA256_DIGEST_SIZE.

(** [None] is a failed assertion. *)
(** src/common/sha256.c:277-296 [hmac_SHA256] *)
Definition hmac_SHA256 (unrolled : bool) (stack1 stack2 : sha256_ctx) (output key : list Z) (key_len : Z)
    (message : list Z) (message_len : Z) : option (list Z) :=
  if key_len <=? SHA256_BLOCK_SIZE then
    let output := hmac_SHA256_step unrolled stack1 output 0x36 key key_len message message_len in
    Some (hmac_SHA256_step unrolled stack2 output 0x5c key key_len output SHA256_DIGEST_SIZE)
  else None.

End Sha256.

(** ** The standard *)

Module Fips.

(** The constants: the first 32 bits of the fractional parts of the square
    roots (hash value) and the cube roots (round constants) of the primes. *)
Definition primes (n : Z) : list Z :=
  filter (fun p => forallb (fun d => negb (p mod d =? 0)) (seqZ 2 (p - 2)) = true) (seqZ 2 n).

(** Integer cube root, by bits. *)
Fixpoint cbrt (bits : nat) (r n : Z) : Z :=
  match bits with
  | O => r
  | S b => let r' := r + 2 ^ Z.of_nat b in cbrt b (if r' * r' * r' <=? n then r' else r) n
  end.

Definition H0 : list Z := (fun p => u32 (Z.sqrt (p * 2 ^ 64))) <$> primes 18.
Definition K : list Z := (fun p => u32 (cbrt 40 0 (p * 2 ^ 96))) <$> primes 310.

Definition add (x y : Z) : Z := u32 (x + y).
Definition rotr (n x : Z) : Z := Z.lor (Z.shiftr x n) (u32 (Z.shiftl x (32 - n))).
Definition shr (n x : Z) : Z := Z.shiftr x n.
Definition xor3 (x y z : Z) : Z := Z.lxor (Z.lxor x y) z.
Definition Ch (x y z : Z) : Z := Z.lxor (Z.land x y) (Z.land (u32 (Z.lnot x)) z).
Definition Maj (x y z : Z) : Z := xor3 (Z.land x y) (Z.land x z) (Z.land y z).
Definition Sigma0 (x : Z) : Z := xor3 (rotr 2 x) (rotr 13 x) (rotr 22 x).
Definition Sigma1 (x : Z) : Z := xor3 (rotr 6 x) (rotr 11 x) (rotr 25 x).
Definition sigma0 (x : Z) : Z := xor3 (rotr 7 x) (rotr 18 x) (shr 3 x).
Definition sigma1 (x : Z) : Z := xor3 (rotr 17 x) (rotr 19 x) (shr 10 x).

(** Big-endian numbers. *)
Definition be (bs : list Z) : Z := fold_left (fun acc b => acc * 256 + b) bs 0.
Definition to_be (n x : Z) : list Z := (fun i => x / 256 ^ (n - 1 - i) mod 256) <$> seqZ 0 n.

(** The schedule [W], one word after the other. *)
Fixpoint schedule (n : nat) (W : list Z) : list Z :=
  match n with
  | O => W
  | S n =>
    let t := Z.of_nat (length W) in
    schedule n (W ++ [add (add (add (sigma1 (aget W (t - 2))) (aget W (t - 7))) (sigma0 (aget W (t - 15))))
                          (aget W (t - 16))])
  end.
Definition message_schedule (M : list Z) : list Z := schedule 48 (be <$> chunks M 4 16).

Definition round (Kt Wt : Z) (s : list Z) : list Z :=
  match s with
  | [a; b; c; d; e; f; g; h] =>
    let T1 := add (add (add (add h (Sigma1 e)) (Ch e f g)) Kt) Wt in
    let T2 := add (Sigma0 a) (Maj a b c) in
    [add T1 T2; a; b; c; add d T1; e; f; g]
  | _ => s
  end.

Definition compress (H M : list Z) : list Z :=
  let W := message_schedule M in
  zip_with add H (fold_left (fun s t => round (aget K t) (aget W t) s) (seqZ 0 64) H).

Definition pad (m : list Z) : list Z :=
  let l := Z.of_nat (length m) in
  m ++ [0x80] ++ replicate (Z.to_nat ((55 - l) mod 64)) 0 ++ to_be 8 (8 * l).

(** The hash value after the whole blocks of [m]. *)
Definition chain (H m : list Z) : list Z :=
  fold_left compress (chunks m 64 (Z.of_nat (length m) / 64)) H.

Definition sha256 (m : list Z) : list Z := concat (to_be 4 <$> chain H0 (pad m)).

(** HMAC (FIPS 198-1) with a key of at most one block. *)
Definition hmac (key m : list Z) : list Z :=
  let k0 := key ++ replicate (64 - length key) 0 in
  sha256 (((fun b => Z.lxor b 0x5c) <$> k0) ++ sha256 (((fun b => Z.lxor b 0x36) <$> k0) ++ m)).

End Fips.

Module Sha256Proofs.
Import Sha256.

(** ** The constants *)

Lemma sha256_h0_fips : sha256_h0 = Fips.H0.
Proof. vm_compute. reflexivity. Qed.
Lemma sha256_k_fips : sha256_k = Fips.K.
Proof. vm_compute. reflexivity. Qed.

(** ** Big-endian words *)

Lemma lor_add_disjoint k x y : 0 <= k -> 0 <= x < 2 ^ k -> Z.lor x (Z.shiftl y k) = x + y * 2 ^ k.
Proof.
  intros Hk Hx. rewrite Z.shiftl_mul_pow2 by done. pose proof (Z.add_lor_land x (y * 2 ^ k)) as E. revert E.
  assert (Z.land x (y * 2 ^ k) = 0) as ->; [|lia].
  apply Z.bits_inj'. intros i Hi. rewrite Z.land_spec, Z.bits_0.
  destruct (Z.lt_ge_cases i k).
  - rewrite Z.mul_pow2_bits_low by lia. apply andb_false_r.
  - rewrite (bits_above k) by (unfold in_range; lia). done.
Qed.

Lemma is_bytes_aget l i : is_bytes l -> 0 <= aget l i < 256.
Proof. intros H. apply (aget_range 8 l i); done. Qed.

(** A slice of four elements, element by element. *)
Lemma slice_4 (l : list Z) i :
  0 <= i -> i + 4 <= Z.of_nat (length l) ->
  slice l i 4 = [aget l i; aget l (i + 1); aget l (i + 2); aget l (i + 3)].
Proof.
  intros Hi Hl. apply list_eq. intros k. destruct (decide (k < 4)%nat) as [Hk|Hk].
  - rewrite lookup_slice by lia. unfold aget.
    assert (k = 0 \/ k = 1 \/ k = 2 \/ k = 3)%nat as [->|[->|[->| ->]]] by lia; simpl;
      rewrite <- list_lookup_lookup_total_lt by lia; f_equal; lia.
  - rewrite slice_none by lia. symmetry. apply lookup_ge_None_2. simpl. lia.
Qed.

Lemma PACK32_be message j :
  is_bytes message -> 0 <= j -> j + 4 <= Z.of_nat (length message) ->
  PACK32 message j = Fips.be (slice message j 4).
Proof.
  intros Hb Hj Hl. rewrite slice_4 by done. unfold PACK32, Fips.be. simpl.
  pose proof (is_bytes_aget message j Hb). pose proof (is_bytes_aget message (j + 1) Hb).
  pose proof (is_bytes_aget message (j + 2) Hb). pose proof (is_bytes_aget message (j + 3) Hb).
  rewrite (lor_add_disjoint 8), (lor_add_disjoint 16), (lor_add_disjoint 24) by lia. lia.
Qed.

(** ** The message schedule *)

Lemma aget_app_l (l r : list Z) i : 0 <= i < Z.of_nat (length l) -> aget (l ++ r) i = aget l i.
Proof. intros. unfold aget. apply lookup_total_app_l. lia. Qed.

(** Filling an array from the left. *)
Lemma fill_array (f : Z -> Z) n m :
  fold_left (fun w j => aset w j (f j)) (seqZ 0 (Z.of_nat n)) (replicate (n + m) 0) =
  (f <$> seqZ 0 (Z.of_nat n)) ++ replicate m 0.
Proof.
  revert m. induction n as [|n IH]; intros m; [done|].
  replace (Z.of_nat (S n)) with (Z.of_nat n + 1) by lia.
  rewrite (seqZ_app 0 (Z.of_nat n) 1) by lia. rewrite fold_left_app, fmap_app.
  replace (S n + m)%nat with (n + S m)%nat by lia. rewrite IH. simpl.
  rewrite aset_app; [by rewrite ?Z.add_0_r|]. rewrite length_fmap, length_seqZ. lia.
Qed.

Lemma SCR_schedule W r n t :
  t = Z.of_nat (length W) -> 16 <= t ->
  fold_left SHA256_SCR (seqZ t (Z.of_nat n)) (W ++ replicate (n + r) 0) = Fips.schedule n W ++ replicate r 0.
Proof.
  revert W t. induction n as [|n IH]; intros W t -> Ht; [done|].
  rewrite seqZ_cons by lia. cbn [fold_left Fips.schedule].
  replace (Z.pred (Z.of_nat (S n))) with (Z.of_nat n) by lia.
  unfold SHA256_SCR at 2. cbn [replicate Nat.add]. rewrite !aget_app_l by lia.
  rewrite aset_app by done. rewrite IH; [|rewrite ?length_app; simpl; lia..].
  do 4 f_equal. unfold Fips.add. autorewrite with ecr. reflexivity.
Qed.

Lemma expand_fips M :
  is_bytes M -> 64 <= Z.of_nat (length M) -> expand M = Fips.message_schedule M.
Proof.
  intros Hb Hl. unfold expand, Fips.message_schedule.
  pose proof (fill_array (fun j => PACK32 M (4 * j)) 16 48) as E. change (Z.of_nat 16) with 16 in E.
  cbn [Nat.add] in E. rewrite E.
  pose proof (SCR_schedule ((fun j => PACK32 M (4 * j)) <$> seqZ 0 16) 0 48 16) as E2.
  change (Z.of_nat 48) with 48 in E2. cbn [Nat.add] in E2. rewrite E2 by (rewrite ?length_fmap, ?length_seqZ; lia).
  rewrite app_nil_r. f_equal. unfold chunks. rewrite <- list_fmap_compose. apply seqZ_fmap_ext.
  intros i Hi. change (PACK32 M (4 * i) = Fips.be (slice M (i * 4) 4)).
  rewrite PACK32_be by (lia || exact Hb). do 2 f_equal. lia.
Qed.

(** A loop unrolled eight times, as the plain loop. *)
Definition by8 (j : Z) : list Z := [j; j + 1; j + 2; j + 3; j + 4; j + 5; j + 6; j + 7].

Lemma fold_left_by8 {A} (f : A -> Z -> A) (g : A -> Z -> A) (P : A -> Prop) l x :
  (forall x j, P x -> g x j = fold_left f (by8 j) x) -> (forall x j, P x -> P (g x j)) -> P x ->
  fold_left g l x = fold_left f (concat (by8 <$> l)) x.
Proof.
  intros Hg HP. revert x. induction l as [|j l IH]; intros x Hx; [done|].
  cbn [fold_left fmap list_fmap concat]. rewrite fold_left_app, <- Hg by done. auto.
Qed.

Lemma unrolled_expand_eq M : unrolled_expand M = expand M.
Proof.
  unfold unrolled_expand, expand.
  rewrite (fold_left_by8 SHA256_SCR _ (fun _ => True)) by done.
  f_equal.
Qed.

(** ** The rounds *)

Lemma list_8 (l : list Z) : length l = 8%nat -> exists a b c d e f g h, l = [a; b; c; d; e; f; g; h].
Proof. intros H. do 9 (destruct l as [|? l]; try done). by repeat eexists. Qed.

(** Computing on an eight-word array without unfolding the arithmetic. *)
Ltac words8 :=
  cbv -[wrap Z.add Fips.add SHA256_F1 SHA256_F2 CH MAJ Fips.Sigma0 Fips.Sigma1 Fips.Ch Fips.Maj].

Lemma fips_T1 a b c d e : Fips.add (Fips.add (Fips.add (Fips.add a b) c) d) e = u32 (a + b + c + d + e).
Proof. unfold Fips.add. by autorewrite with ecr. Qed.

Lemma rolled_round_fips w wv j :
  length wv = 8%nat -> rolled_round w wv j = Fips.round (aget sha256_k j) (aget w j) wv.
Proof.
  intros (a & b & c & d & e & f & g & hh & ->)%list_8. unfold rolled_round.
  generalize (aget sha256_k j), (aget w j). intros k wj. words8.
  change Fips.Sigma0 with SHA256_F1. change Fips.Sigma1 with SHA256_F2.
  change Fips.Ch with CH. change Fips.Maj with MAJ.
  rewrite (fips_T1 hh). unfold Fips.add. by autorewrite with ecr.
Qed.

Lemma length_round k w s : length s = 8%nat -> length (Fips.round k w s) = 8%nat.
Proof. by intros (a & b & c & d & e & f & g & hh & ->)%list_8. Qed.

(** In the unrolled form the variables stay where they are and their names
    rotate. *)
Definition rot (r : nat) (l : list Z) : list Z := drop r l ++ take r l.

Ltac exp_step :=
  match goal with |- context [rolled_round ?w ?l ?j] =>
    let H := fresh in intros (? & ? & ? & ? & ? & ? & ? & ? & ->)%list_8;
    unfold rolled_round, SHA256_EXP; generalize (aget sha256_k j), (aget w j); intros; words8; reflexivity
  end.

Lemma exp_rot0 w l j : length l = 8%nat -> SHA256_EXP w 0 1 2 3 4 5 6 7 j l = rot 1 (rolled_round w l j).
Proof. exp_step. Qed.
Lemma exp_rot1 w l j : length l = 8%nat -> SHA256_EXP w 7 0 1 2 3 4 5 6 j (rot 1 l) = rot 2 (rolled_round w l j).
Proof. exp_step. Qed.
Lemma exp_rot2 w l j : length l = 8%nat -> SHA256_EXP w 6 7 0 1 2 3 4 5 j (rot 2 l) = rot 3 (rolled_round w l j).
Proof. exp_step. Qed.
Lemma exp_rot3 w l j : length l = 8%nat -> SHA256_EXP w 5 6 7 0 1 2 3 4 j (rot 3 l) = rot 4 (rolled_round w l j).
Proof. exp_step. Qed.
Lemma exp_rot4 w l j : length l = 8%nat -> SHA256_EXP w 4 5 6 7 0 1 2 3 j (rot 4 l) = rot 5 (rolled_round w l j).
Proof. exp_step. Qed.
Lemma exp_rot5 w l j : length l = 8%nat -> SHA256_EXP w 3 4 5 6 7 0 1 2 j (rot 5 l) = rot 6 (rolled_round w l j).
Proof. exp_step. Qed.
Lemma exp_rot6 w l j : length l = 8%nat -> SHA256_EXP w 2 3 4 5 6 7 0 1 j (rot 6 l) = rot 7 (rolled_round w l j).
Proof. exp_step. Qed.
Lemma exp_rot7 w l j : length l = 8%nat -> SHA256_EXP w 1 2 3 4 5 6 7 0 j (rot 7 l) = rolled_round w l j.
Proof. exp_step. Qed.

Lemma length_rolled w l j : length l = 8%nat -> length (rolled_round w l j) = 8%nat.
Proof. intros H. by rewrite rolled_round_fips, length_round. Qed.

Lemma unrolled_rounds_eq w wv j :
  length wv = 8%nat -> unrolled_rounds w wv j = fold_left (rolled_round w) (by8 j) wv.
Proof.
  intros H. unfold unrolled_rounds, by8. cbn [fold_left].
  rewrite exp_rot0, exp_rot1, exp_rot2, exp_rot3, exp_rot4, exp_rot5, exp_rot6, exp_rot7
    by (repeat apply length_rolled; exact H).
  done.
Qed.

Lemma length_rounds w l wv : length wv = 8%nat -> length (fold_left (rolled_round w) l wv) = 8%nat.
Proof. revert wv. induction l as [|j l IH]; intros wv H; [done|]. apply IH. by apply length_rolled. Qed.

Lemma fold_rounds_fips w l wv :
  length wv = 8%nat ->
  fold_left (rolled_round w) l wv = fold_left (fun s t => Fips.round (aget Fips.K t) (aget w t) s) l wv.
Proof.
  revert wv. induction l as [|j l IH]; intros wv H; [done|]. cbn [fold_left].
  rewrite rolled_round_fips, sha256_k_fips by done. apply IH. by apply length_round.
Qed.

(** One block, in either form, is the compression function. *)
Lemma transform_block_fips u hs M :
  length hs = 8%nat -> is_bytes M -> 64 <= Z.of_nat (length M) ->
  transform_block u hs M = Fips.compress hs M.
Proof.
  intros Hh Hb Hl. unfold transform_block, Fips.compress.
  assert ((if u then unrolled_expand M else expand M) = Fips.message_schedule M) as ->.
  { destruct u; [rewrite unrolled_expand_eq|]; exact (expand_fips M Hb Hl). }
  set (w := Fips.message_schedule M).
  assert ((if u then fold_left (unrolled_rounds w) ((fun i => 8 * i) <$> seqZ 0 8) hs
           else fold_left (rolled_round w) (seqZ 0 64) hs) = fold_left (rolled_round w) (seqZ 0 64) hs) as ->.
  { destruct u; [|done]. rewrite (fold_left_by8 (rolled_round w) _ (fun l => length l = 8%nat)); [done| | |done].
    - intros. by apply unrolled_rounds_eq.
    - intros. rewrite unrolled_rounds_eq by done. by apply length_rounds. }
  pose proof (length_rounds w (seqZ 0 64) hs Hh) as Hl8. rewrite (fold_rounds_fips w) in * by done.
  revert Hl8. generalize (fold_left (fun s t => Fips.round (aget Fips.K t) (aget w t) s) (seqZ 0 64) hs).
  intros l Hl8. apply list_8 in Hh as (a & b & c & d & e & f & g & hh & ->).
  apply list_8 in Hl8 as (a' & b' & c' & d' & e' & f' & g' & hh' & ->). reflexivity.
Qed.

Lemma length_compress hs M : length hs = 8%nat -> length (Fips.compress hs M) = 8%nat.
Proof.
  intros H. unfold Fips.compress. rewrite length_zip_with, <- fold_rounds_fips, length_rounds by done. lia.
Qed.
(** ** Blocks *)

Lemma chunks_prefix (l1 l2 : list Z) ub n :
  0 <= ub -> n * ub <= Z.of_nat (length l1) -> take (Z.to_nat (n * ub)) l1 = take (Z.to_nat (n * ub)) l2 ->
  chunks l1 ub n = chunks l2 ub n.
Proof.
  intros Hub Hl E. unfold chunks. apply seqZ_fmap_ext. intros i Hi.
  rewrite <- (slice_take l1 _ _ (n * ub)), <- (slice_take l2 _ _ (n * ub)) by nia. by rewrite E.
Qed.

Lemma compress_prefix H M1 M2 :
  64 <= Z.of_nat (length M1) -> take 64 M1 = take 64 M2 -> Fips.compress H M1 = Fips.compress H M2.
Proof.
  intros Hl E. unfold Fips.compress, Fips.message_schedule.
  rewrite (chunks_prefix M1 M2 4 16) by (lia || exact E). done.
Qed.

Lemma chunks_app {A} (l1 l2 : list A) ub n1 n2 :
  0 < ub -> 0 <= n1 -> 0 <= n2 -> Z.of_nat (length l1) = n1 * ub ->
  chunks (l1 ++ l2) ub (n1 + n2) = chunks l1 ub n1 ++ chunks l2 ub n2.
Proof.
  intros Hub H1 H2 Hl. unfold chunks. rewrite (seqZ_app 0 n1 n2), fmap_app by lia. f_equal.
  - apply seqZ_fmap_ext. intros i Hi. unfold slice. rewrite drop_app_le by nia.
    rewrite take_app_le by (rewrite length_drop; nia). done.
  - rewrite seqZ_fmap_shift. apply seqZ_fmap_ext. intros i Hi. unfold slice.
    rewrite drop_app_ge by nia. do 2 f_equal. nia.
Qed.

Lemma chain_app H m1 m2 :
  Z.of_nat (length m1) mod 64 = 0 -> Fips.chain H (m1 ++ m2) = Fips.chain (Fips.chain H m1) m2.
Proof.
  intros Hm. unfold Fips.chain. rewrite length_app, Nat2Z.inj_add.
  replace ((Z.of_nat (length m1) + Z.of_nat (length m2)) / 64)
    with (Z.of_nat (length m1) / 64 + Z.of_nat (length m2) / 64) by divlia.
  rewrite chunks_app by divlia. by rewrite fold_left_app.
Qed.

Lemma length_fold_compress l H : length H = 8%nat -> length (fold_left Fips.compress l H) = 8%nat.
Proof. revert H. induction l as [|M l IH]; intros H Hh; [done|]. apply IH. by apply length_compress. Qed.

Lemma length_chain H m : length H = 8%nat -> length (Fips.chain H m) = 8%nat.
Proof. apply length_fold_compress. Qed.

Lemma is_bytes_drop n l : is_bytes l -> is_bytes (drop n l).
Proof. apply Forall_drop. Qed.
Lemma is_bytes_take n l : is_bytes l -> is_bytes (take n l).
Proof. apply Forall_take. Qed.
#[local] Hint Resolve is_bytes_drop is_bytes_take : ec.

(** [SHA256_transform] is the chain over its blocks. *)
Lemma transform_chain u ctx message nb :
  length (h ctx) = 8%nat -> is_bytes message -> 0 <= nb -> nb * 64 <= Z.of_nat (length message) ->
  SHA256_transform u ctx message nb =
    Ctx (Fips.chain (h ctx) (take (Z.to_nat (nb * 64)) message)) (tot_len ctx) (len ctx) (block ctx) (buf ctx).
Proof.
  intros Hh Hb Hn Hl. unfold SHA256_transform, Fips.chain. f_equal.
  rewrite length_take. replace (Z.of_nat (Z.to_nat (nb * 64) `min` length message) / 64) with nb by divlia.
  rewrite (chunks_prefix _ message) by (rewrite ?length_take, ?take_take; try lia; f_equal; lia).
  unfold chunks. revert Hh. generalize (h ctx). intros hs Hh.
  assert (forall l hs, length hs = 8%nat -> (forall i, i ∈ l -> 0 <= i < nb) ->
    fold_left (fun hs i => transform_block u hs (drop (Z.to_nat (Z.shiftl i 6)) message)) l hs =
    fold_left Fips.compress ((fun i => slice message (i * 64) 64) <$> l) hs) as Hgen.
  { clear hs Hh. intros l. induction l as [|i l IH]; intros hs Hh Hi; [done|]. cbn [fold_left fmap list_fmap].
    assert (0 <= i < nb) as Hi0 by (apply Hi; left). rewrite Z.shiftl_mul_pow2 by lia. change (2 ^ 6) with 64.
    rewrite transform_block_fips by (auto with ec; rewrite ?length_drop; lia).
    rewrite (compress_prefix _ _ (slice message (i * 64) 64)).
    - apply IH; [by apply length_compress|]. intros j Hj. apply Hi. by right.
    - rewrite length_drop. lia.
    - unfold slice. by rewrite take_take. }
  apply Hgen; [done|]. intros i Hi%elem_of_seqZ. lia.
Qed.

(** ** Streaming *)

(** [ctx] has absorbed the message [m]. *)
Record absorbed (ctx : sha256_ctx) (m : list Z) : Prop := {
  ab_h : length (h ctx) = 8%nat;
  ab_block : length (block ctx) = 128%nat;
  ab_bytes : is_bytes (block ctx);
  ab_len : 0 <= len ctx < 64;
  ab_buf : length (buf ctx) = 32%nat;
  ab_msg : exists p, m = p ++ take (Z.to_nat (len ctx)) (block ctx) /\
    Z.of_nat (length p) mod 64 = 0 /\ h ctx = Fips.chain Fips.H0 p /\
    tot_len ctx = Z.of_nat (length p) }.

Lemma is_bytes_bcopy dst off src n : is_bytes dst -> is_bytes src -> is_bytes (bcopy dst off src n).
Proof. intros. unfold bcopy. rewrite !is_bytes_app. auto with ec. Qed.
#[local] Hint Resolve is_bytes_bcopy : ec.

Lemma init_absorbed ctx :
  length (block ctx) = 128%nat -> is_bytes (block ctx) -> length (buf ctx) = 32%nat ->
  absorbed (SHA256_init ctx) [].
Proof.
  intros. split; simpl; try done. exists []. split; [done|]. split; [done|]. split; [|done].
  by rewrite sha256_h0_fips.
Qed.

Lemma update_short u ctx data n :
  0 <= len ctx -> 0 <= n -> len ctx + n < 64 ->
  SHA256_update u ctx data n =
    Ctx (h ctx) (tot_len ctx) (len ctx + n) (bcopy (block ctx) (len ctx) data n) (buf ctx).
Proof.
  intros. unfold SHA256_update, SHA256_BLOCK_SIZE. cbn zeta. cbn [len h tot_len block buf].
  rewrite (wrap_id 32 (64 - len ctx)), (wrap_id 32 (len ctx + n)) by (unfold in_range; lia).
  by rewrite (proj2 (Z.ltb_lt n (64 - len ctx))), (proj2 (Z.ltb_lt (len ctx + n) 64)) by lia.
Qed.

Lemma update_long u ctx data n :
  0 <= len ctx < 64 -> 64 <= len ctx + n < 2 ^ 32 ->
  let rem := 64 - len ctx in
  let nb := (n - rem) / 64 in
  let b := bcopy (block ctx) (len ctx) data rem in
  let rest := drop (Z.to_nat rem) data in
  let c := SHA256_transform u (SHA256_transform u (Ctx (h ctx) (tot_len ctx) (len ctx) b (buf ctx)) b 1) rest nb in
  SHA256_update u ctx data n =
    Ctx (h c) (u32 (tot_len ctx + (nb + 1) * 64)) ((n - rem) mod 64)
      (bcopy b 0 (drop (Z.to_nat (nb * 64)) rest) ((n - rem) mod 64)) (buf ctx).
Proof.
  intros Hl Hn. cbn zeta. unfold SHA256_update, SHA256_BLOCK_SIZE. cbn zeta. cbn [len h tot_len block buf].
  rewrite (wrap_id 32 (64 - len ctx)), (wrap_id 32 (len ctx + n)) by (unfold in_range; lia).
  rewrite (proj2 (Z.ltb_ge (len ctx + n) 64)) by lia.
  assert ((if n <? 64 - len ctx then n else 64 - len ctx) = 64 - len ctx) as E by (case_match; lia).
  rewrite E, (wrap_id 32 (n - (64 - len ctx))) by (unfold in_range; lia).
  rewrite !Z.shiftl_mul_pow2 by lia. reflexivity.
Qed.

Lemma update_absorbed u ctx m data n :
  absorbed ctx m -> is_bytes data -> 0 <= n <= Z.of_nat (length data) ->
  Z.of_nat (length m) + n < 2 ^ 29 ->
  absorbed (SHA256_update u ctx data n) (m ++ take (Z.to_nat n) data).
Proof.
  intros [Hh Hbl Hby Hlen Hbuf (p & -> & Hp & Hc & Ht)] Hd Hn Htot.
  rewrite length_app, length_take in Htot. destruct (Z.lt_ge_cases (len ctx + n) 64) as [Hs|Hs].
  - rewrite update_short by lia.
    split; simpl; auto with ec; [rewrite length_bcopy; lia|lia|].
    exists p. rewrite take_bcopy, app_assoc by lia. done.
  - rewrite update_long by lia. cbn zeta.
    set (rem := 64 - len ctx). set (b := bcopy (block ctx) (len ctx) data rem).
    set (nb := (n - rem) / 64). set (rest := drop (Z.to_nat rem) data).
    assert (length b = 128%nat) as Hb by (subst b; rewrite length_bcopy; lia).
    assert (Z.of_nat (length rest) = Z.of_nat (length data) - rem) as Hr by (subst rest; rewrite length_drop; lia).
    assert (take 64 b = take (Z.to_nat (len ctx)) (block ctx) ++ take (Z.to_nat rem) data) as Hb64.
    { subst b. rewrite <- take_bcopy by lia. f_equal. lia. }
    set (r := (n - rem) mod 64).
    assert (0 <= nb /\ nb * 64 + r = n - rem /\ 0 <= r < 64) as (Hnb & Hmod & Hr64) by (subst nb r; divlia).
    assert (is_bytes b) as Hbb by (subst b; auto with ec).
    assert (is_bytes rest) as Hrb by (subst rest; auto with ec).
    rewrite (transform_chain u _ b 1); cbn [h tot_len len block buf]; [|done|done|lia|lia].
    rewrite transform_chain; cbn [h tot_len len block buf]; [|by apply length_chain|auto|lia|lia].
    change (Z.to_nat (1 * 64)) with 64%nat. rewrite Hb64.
    set (p' := p ++ (take (Z.to_nat (len ctx)) (block ctx) ++ take (Z.to_nat rem) data)
                 ++ take (Z.to_nat (nb * 64)) rest).
    assert (Z.of_nat (length p') = Z.of_nat (length p) + (nb + 1) * 64) as Hp'
      by (subst p'; rewrite !length_app, !length_take; lia).
    split; simpl; auto with ec.
    + by do 2 apply length_chain.
    + rewrite length_bcopy; rewrite ?length_drop; lia.
    + exists p'. split_and!.
      * unfold bcopy. simpl. rewrite take_app_length' by (rewrite !length_take, length_drop; lia).
        subst p' rest. rewrite <- !app_assoc. do 2 f_equal.
        rewrite <- (take_drop (Z.to_nat rem) (take (Z.to_nat n) data)), take_take, skipn_firstn_comm.
        rewrite <- (take_drop (Z.to_nat (nb * 64)) (take _ (drop _ data))), take_take, skipn_firstn_comm.
        repeat f_equal; lia.
      * rewrite Hp'. divlia.
      * subst p'. rewrite !(chain_app _ p), Hc by done. symmetry. apply chain_app.
        rewrite length_app, !length_take. replace (Z.of_nat _) with 64 by lia. done.
      * rewrite Ht, Hp'. apply wrap_id. unfold in_range. lia.
Qed.

(** ** Finishing *)

Lemma to_be_4 x : Fips.to_be 4 x = UNPACK32 x.
Proof.
  unfold Fips.to_be, UNPACK32, wrap. change (seqZ 0 4) with [0; 1; 2; 3]. simpl.
  rewrite !Z.shiftr_div_pow2, Z.div_1_r by lia. reflexivity.
Qed.

Lemma to_be_8 x : is_u32 x -> Fips.to_be 8 x = replicate 4 0 ++ UNPACK32 x.
Proof.
  unfold in_range. intros Hx. rewrite <- to_be_4. unfold Fips.to_be.
  change (seqZ 0 8) with [0; 1; 2; 3; 4; 5; 6; 7]. change (seqZ 0 4) with [0; 1; 2; 3]. simpl.
  repeat f_equal; rewrite Z.div_small by lia; done.
Qed.

Lemma UNPACK32_bytes x : is_bytes (UNPACK32 x).
Proof. unfold UNPACK32. repeat constructor; apply wrap_range; lia. Qed.
#[local] Hint Resolve UNPACK32_bytes : ec.

(** The padded tail that [SHA256_final] builds in the context's block. *)
Lemma final_tail (b : list Z) l pm v :
  length b = 128%nat -> 0 <= l -> l + 9 <= pm -> pm <= 128 ->
  let b' := bcopy (aset (bfill b l 0 (pm - l)) l 0x80) (pm - 4) (UNPACK32 v) 4 in
  b' = (take (Z.to_nat l) b ++ [0x80] ++ replicate (Z.to_nat (pm - l - 5)) 0 ++ UNPACK32 v)
       ++ drop (Z.to_nat pm) b.
Proof.
  intros Hb Hl Hpm H128. cbn zeta. unfold bfill, bcopy at 2.
  rewrite (take_ge (replicate _ _)) by (rewrite length_replicate; lia).
  assert (Z.to_nat (pm - l) = S (Z.to_nat (pm - l - 1))) as Ek by lia. rewrite Ek at 1. cbn [replicate].
  rewrite <- app_comm_cons, aset_app by (rewrite length_take; lia).
  replace (l + (pm - l)) with pm by lia.
  replace (Z.to_nat (pm - l - 1)) with (Z.to_nat (pm - l - 5) + 4)%nat by lia.
  rewrite replicate_add. unfold bcopy. replace (pm - 4 + 4) with pm by lia.
  rewrite (app_assoc _ _ (drop (Z.to_nat pm) b)).
  rewrite drop_app_length' by (rewrite !length_app, !length_replicate, length_take; simpl; lia).
  rewrite <- !app_assoc. rewrite (app_assoc _ [128]), (app_assoc (_ ++ [128])).
  rewrite take_app_length' by (rewrite !length_app, !length_replicate, length_take; simpl; lia).
  rewrite <- !app_assoc. reflexivity.
Qed.

Lemma length_sha256 m : length (Fips.sha256 m) = 32%nat.
Proof.
  unfold Fips.sha256. pose proof (length_chain Fips.H0 (Fips.pad m) eq_refl) as H.
  apply list_8 in H as (a & b & c & d & e & f & g & hh & ->). reflexivity.
Qed.

(** Writing the words out. *)
Lemma fill_words (hs out : list Z) n :
  (4 * n <= length out)%nat ->
  fold_left (fun out i => bcopy out (Z.shiftl i 2) (UNPACK32 (aget hs i)) 4) (seqZ 0 (Z.of_nat n)) out =
  concat ((fun i => UNPACK32 (aget hs i)) <$> seqZ 0 (Z.of_nat n)) ++ drop (4 * n) out.
Proof.
  induction n as [|n IH]; intros Hl; [done|].
  replace (Z.of_nat (S n)) with (Z.of_nat n + 1) by lia.
  rewrite (seqZ_app 0 (Z.of_nat n) 1), fold_left_app, IH by lia. rewrite fmap_app, concat_app.
  change (seqZ (0 + Z.of_nat n) 1) with [Z.of_nat n]. cbn [fold_left fmap list_fmap concat].
  set (c := concat _). assert (length c = 4 * n)%nat as Hc.
  { subst c. clear. induction n as [|n IH]; [done|]. replace (Z.of_nat (S n)) with (Z.of_nat n + 1) by lia.
    rewrite (seqZ_app 0 (Z.of_nat n) 1), fmap_app, concat_app, length_app, IH by lia. simpl. lia. }
  unfold bcopy. rewrite Z.shiftl_mul_pow2 by lia. change (2 ^ 2) with 4.
  rewrite take_app_length' by lia. rewrite drop_app_ge, drop_drop by lia. rewrite <- app_assoc, app_nil_r.
  f_equal. f_equal. f_equal. lia.
Qed.

Lemma final_correct u ctx m :
  absorbed ctx m -> Z.of_nat (length m) < 2 ^ 29 ->
  buf (SHA256_final u ctx) = Fips.sha256 m.
Proof.
  intros [Hh Hbl Hby Hlen Hbuf (p & -> & Hp & Hc & Ht)] H29.
  rewrite length_app, length_take in H29.
  unfold SHA256_final, SHA256_BLOCK_SIZE. cbn zeta. cbn [h tot_len len block buf].
  rewrite Z.mod_small by lia. change (64 - 9) with 55.
  set (nb := 1 + (if 55 <? len ctx then 1 else 0)).
  assert (nb = 1 /\ len ctx <= 55 \/ nb = 2 /\ 55 < len ctx) as Hnb
    by (subst nb; destruct (Z.ltb_spec 55 (len ctx)); lia).
  rewrite (wrap_id 32 (tot_len ctx + len ctx)) by (unfold in_range; lia).
  rewrite !(Z.shiftl_mul_pow2 _ 6), (Z.shiftl_mul_pow2 _ 3) by lia.
  set (v := u32 ((tot_len ctx + len ctx) * 2 ^ 3)).
  assert (v = 8 * (Z.of_nat (length p) + len ctx)) as Hv.
  { subst v. rewrite Ht, wrap_id; [lia|]. unfold in_range. lia. }
  rewrite final_tail by lia.
  set (tail := take (Z.to_nat (len ctx)) (block ctx) ++ [128] ++ _).
  assert (length tail = Z.to_nat (nb * 64)) as Hlt.
  { subst tail. rewrite !length_app, length_take, length_replicate. simpl. lia. }
  assert (is_bytes (tail ++ drop (Z.to_nat (nb * 2 ^ 6)) (block ctx))) as Htb.
  { subst tail. rewrite !is_bytes_app. split_and!; auto with ec.
    - apply Forall_singleton. unfold in_range. lia.
    - apply Forall_replicate. unfold in_range. lia. }
  rewrite transform_chain; cbn [h tot_len len block buf];
    [|done|done|lia|rewrite length_app; lia].
  rewrite take_app_length' by done. rewrite Hc, <- chain_app by done.
  pose proof (fill_words (Fips.chain Fips.H0 (p ++ tail)) (buf ctx) 8) as Hf.
  change (Z.of_nat 8) with 8 in Hf. rewrite Hf by lia. rewrite drop_ge, app_nil_r by lia.
  unfold Fips.sha256. assert (Fips.pad (p ++ take (Z.to_nat (len ctx)) (block ctx)) = p ++ tail) as ->.
  { unfold Fips.pad. rewrite <- app_assoc. f_equal. subst tail. do 2 f_equal.
    rewrite length_app, length_take.
    replace (Z.of_nat (length p + Z.to_nat (len ctx) `min` length (block ctx)))
      with (Z.of_nat (length p) + len ctx) by lia.
    rewrite <- Hv, to_be_8 by (unfold in_range; lia). rewrite app_assoc, <- replicate_add. f_equal. f_equal.
    change (2 ^ 6) with 64. divlia. }
  f_equal. assert (length (Fips.chain Fips.H0 (p ++ tail)) = 8%nat) as H8 by by apply length_chain.
  revert H8. generalize (Fips.chain Fips.H0 (p ++ tail)).
  intros l (a & b & c & d & e & f & g & hh & ->)%list_8.
  change (seqZ 0 8) with [0; 1; 2; 3; 4; 5; 6; 7]. cbn [fmap list_fmap]. rewrite !to_be_4. reflexivity.
Qed.

Lemma updates_absorbed u chunks ctx m :
  absorbed ctx m -> Forall is_bytes chunks -> Z.of_nat (length (m ++ concat chunks)) < 2 ^ 29 ->
  absorbed (fold_left (fun ctx data => SHA256_update u ctx data (Z.of_nat (length data))) chunks ctx)
    (m ++ concat chunks).
Proof.
  revert ctx m. induction chunks as [|d chunks IH]; intros ctx m Ha Hb Hl.
  - by rewrite app_nil_r.
  - apply Forall_cons_iff in Hb as [Hd Hb]. cbn [fold_left concat] in *. rewrite app_assoc in Hl |- *.
    apply IH; [|done|done]. rewrite !length_app in Hl.
    pose proof (update_absorbed u ctx m d (Z.of_nat (length d)) Ha Hd ltac:(lia) ltac:(lia)) as Hu.
    by rewrite Nat2Z.id, firstn_all in Hu.
Qed.

(** ** HMAC *)

Lemma xor_fold (f : Z -> Z -> Z) (p : list Z) n :
  (n <= length p)%nat ->
  fold_left (fun p i => aset p i (f (aget p i) i)) (seqZ 0 (Z.of_nat n)) p =
  ((fun i => f (aget p i) i) <$> seqZ 0 (Z.of_nat n)) ++ drop n p.
Proof.
  induction n as [|n IH]; intros Hl; [done|].
  replace (Z.of_nat (S n)) with (Z.of_nat n + 1) by lia.
  rewrite (seqZ_app 0 (Z.of_nat n) 1), fold_left_app, IH, fmap_app by lia.
  change (seqZ (0 + Z.of_nat n) 1) with [Z.of_nat n]. cbn [fold_left fmap list_fmap].
  assert (drop n p = aget p (Z.of_nat n) :: drop (S n) p) as ->.
  { unfold aget. rewrite Nat2Z.id. destruct (lookup_lt_is_Some_2 p n) as [x Hx]; [lia|].
    rewrite (list_lookup_total_correct _ _ _ Hx). by apply drop_S. }
  rewrite aset_app by (rewrite length_fmap, length_seqZ; lia). do 4 f_equal.
  unfold aget at 1. rewrite Nat2Z.id, lookup_total_app_r by (rewrite length_fmap, length_seqZ; lia).
  rewrite length_fmap, length_seqZ. replace (n - _)%nat with 0%nat by lia. done.
Qed.

(** The padded and masked key. *)
Definition masked (mask : Z) (key : list Z) : list Z :=
  (fun b => Z.lxor b mask) <$> (key ++ replicate (64 - length key) 0).

Lemma key_pad_masked (b : list Z) mask key :
  length b = 128%nat -> (length key <= 64)%nat ->
  fold_left (fun p i => aset p i (Z.lxor (aget p i) (aget key i))) (seqZ 0 (Z.of_nat (length key)))
    (bfill b 0 mask 64) = masked mask key ++ drop 64 b.
Proof.
  intros Hb Hk. assert (bfill b 0 mask 64 = replicate 64 mask ++ drop 64 b) as -> by reflexivity.
  rewrite (xor_fold (fun x i => Z.lxor x (aget key i))) by (rewrite length_app, length_replicate; lia).
  unfold masked. rewrite fmap_app, fmap_replicate, Z.lxor_0_l.
  rewrite drop_app_le by (rewrite length_replicate; lia).
  rewrite drop_replicate, app_assoc. f_equal. f_equal.
  apply list_eq. intros i. rewrite lookup_fmap_seqZ, list_lookup_fmap. case_decide.
  - rewrite aget_app_l by (rewrite length_replicate; lia). unfold aget at 1.
    rewrite lookup_total_replicate_2 by lia. rewrite Z.lxor_comm. unfold aget. rewrite Nat2Z.id.
    destruct (lookup_lt_is_Some_2 key i) as [x Hx]; [lia|]. rewrite Hx.
    by rewrite (list_lookup_total_correct _ _ _ Hx).
  - by rewrite lookup_ge_None_2 by lia.
Qed.

Lemma length_masked mask key : (length key <= 64)%nat -> length (masked mask key) = 64%nat.
Proof. intros. unfold masked. rewrite length_fmap, length_app, length_replicate. lia. Qed.

Lemma masked_bytes mask key : in_range 8 mask -> is_bytes key -> is_bytes (masked mask key).
Proof.
  intros Hm Hk. unfold masked. apply Forall_fmap, Forall_app. split.
  - eapply Forall_impl; [|exact Hk]. intros x Hx. by apply lxor_range.
  - by apply Forall_replicate.
Qed.

Lemma init_1b_absorbed u ctx key_pad :
  length (block ctx) = 128%nat -> is_bytes (block ctx) -> length (buf ctx) = 32%nat ->
  is_bytes key_pad -> (64 <= length key_pad)%nat ->
  absorbed (SHA256_init_1b u ctx key_pad) (take 64 key_pad).
Proof.
  intros Hb Hby Hbuf Hk Hl. unfold SHA256_init_1b.
  rewrite transform_chain; cbn [h tot_len len block buf]; [|done|done|lia|lia].
  rewrite sha256_h0_fips. split; simpl; try done.
  - by apply length_chain.
  - exists (take 64 key_pad). rewrite app_nil_r, length_take. rewrite Nat.min_l by lia. done.
Qed.

(** A local context on the stack: any contents of the right sizes. *)
Definition stack_ok (ctx : sha256_ctx) : Prop :=
  length (block ctx) = 128%nat /\ is_bytes (block ctx) /\ length (buf ctx) = 32%nat.

Lemma hmac_step_correct u stack output mask key data n :
  stack_ok stack -> in_range 8 mask -> is_bytes key -> (length key <= 64)%nat ->
  is_bytes data -> 0 <= n <= Z.of_nat (length data) -> 64 + n < 2 ^ 29 ->
  hmac_SHA256_step u stack output mask key (Z.of_nat (length key)) data n =
    Fips.sha256 (masked mask key ++ take (Z.to_nat n) data) ++ drop 32 output.
Proof.
  intros (Hb & Hby & Hbuf) Hm Hk Hkl Hd Hn Htot. unfold hmac_SHA256_step, SHA256_BLOCK_SIZE.
  rewrite key_pad_masked by done.
  set (pad := masked mask key ++ drop 64 (block stack)).
  pose proof (length_masked mask key Hkl) as Hml.
  assert (is_bytes pad) as Hpb by (subst pad; apply is_bytes_app; split; [by apply masked_bytes|by apply is_bytes_drop]).
  assert (length pad = 128%nat) as Hpl by (subst pad; rewrite length_app, length_drop; lia).
  assert (take 64 pad = masked mask key) as Htk by (subst pad; by rewrite take_app_length').
  pose proof (init_1b_absorbed u (Ctx (h stack) (tot_len stack) (len stack) pad (buf stack)) pad
    Hpl Hpb Hbuf Hpb ltac:(lia)) as Ha. rewrite Htk in Ha.
  pose proof (update_absorbed u _ _ data n Ha Hd Hn ltac:(rewrite Hml; lia)) as Hu.
  unfold bcopy. change (take (Z.to_nat 0) output) with (@nil Z). rewrite app_nil_l, (final_correct u _ _ Hu) by (rewrite length_app, length_take; lia).
  f_equal. apply take_ge, Nat.eq_le_incl, length_sha256.
Qed.

(** ** Well-formed contexts *)

Record ctx_wf (ctx : sha256_ctx) : Prop := {
  wf_h : length (h ctx) = 8%nat /\ Forall (in_range 32) (h ctx);
  wf_tot_len : is_u32 (tot_len ctx);
  wf_len : 0 <= len ctx < SHA256_BLOCK_SIZE;
  wf_block : length (block ctx) = 128%nat /\ is_bytes (block ctx);
  wf_buf : length (buf ctx) = 32%nat /\ is_bytes (buf ctx) }.

Lemma compress_words H M : Forall (in_range 32) (Fips.compress H M).
Proof.
  unfold Fips.compress. apply list.Forall_forall. intros x Hx. apply list_elem_of_lookup_1 in Hx as [i Hx].
  apply lookup_zip_with_Some in Hx as (? & ? & -> & _). by apply wrap_range.
Qed.

Lemma chain_words H m : Forall (in_range 32) H -> Forall (in_range 32) (Fips.chain H m).
Proof.
  unfold Fips.chain. generalize (chunks m 64 (Z.of_nat (length m) / 64)). intros l. revert H.
  induction l as [|M l IH]; intros H Hh; [done|]. apply IH, compress_words.
Qed.

Lemma sha256_bytes m : is_bytes (Fips.sha256 m).
Proof.
  unfold Fips.sha256. generalize (Fips.chain Fips.H0 (Fips.pad m)). intros l.
  induction l as [|x l IH]; [constructor|]. cbn [fmap list_fmap concat]. apply is_bytes_app.
  split; [|done]. rewrite to_be_4. apply UNPACK32_bytes.
Qed.
Lemma update_wf u ctx data n :
  ctx_wf ctx -> is_bytes data -> 0 <= n <= Z.of_nat (length data) -> len ctx + n < 2 ^ 32 ->
  ctx_wf (SHA256_update u ctx data n).
Proof.
  intros [[Hh Hhw] Ht Hlen [Hbl Hby] Hbuf] Hd Hn H32. unfold SHA256_BLOCK_SIZE in *.
  destruct (Z.lt_ge_cases (len ctx + n) 64) as [Hs|Hs].
  - rewrite update_short by lia. split; simpl; auto with ec; [unfold SHA256_BLOCK_SIZE; lia|].
    split; [rewrite length_bcopy; lia|auto with ec].
  - rewrite update_long by lia. cbn zeta.
    set (rem := 64 - len ctx). set (b := bcopy (block ctx) (len ctx) data rem).
    set (nb := (n - rem) / 64). set (rest := drop (Z.to_nat rem) data). set (r := (n - rem) mod 64).
    assert (0 <= nb /\ nb * 64 + r = n - rem /\ 0 <= r < 64) as (Hnb & Hmod & Hr64) by (subst nb r; divlia).
    assert (length b = 128%nat) as Hb by (subst b; rewrite length_bcopy; lia).
    assert (Z.of_nat (length rest) = Z.of_nat (length data) - rem) as Hr by (subst rest; rewrite length_drop; lia).
    assert (is_bytes b) as Hbb by (subst b; auto with ec).
    assert (is_bytes rest) as Hrb by (subst rest; auto with ec).
    rewrite (transform_chain u _ b 1); cbn [h tot_len len block buf]; [|done|done|lia|lia].
    rewrite transform_chain; cbn [h tot_len len block buf]; [|by apply length_chain|auto|lia|lia].
    split; cbn [h tot_len len block buf]; [|by apply wrap_range|exact Hr64| |done].
    + split; [by do 2 apply length_chain|by do 2 apply chain_words].
    + split; [rewrite length_bcopy; rewrite ?length_drop; lia|auto with ec].
Qed.

Lemma final_wf u ctx : ctx_wf ctx -> ctx_wf (SHA256_final u ctx).
Proof.
  intros [[Hh Hhw] Ht Hlen [Hbl Hby] [Hbuf Hbb]]. unfold SHA256_BLOCK_SIZE in *.
  unfold SHA256_final, SHA256_BLOCK_SIZE. cbn zeta. cbn [h tot_len len block buf].
  rewrite Z.mod_small by lia. change (64 - 9) with 55.
  set (nb := 1 + (if 55 <? len ctx then 1 else 0)).
  assert (nb = 1 /\ len ctx <= 55 \/ nb = 2 /\ 55 < len ctx) as Hnb
    by (subst nb; destruct (Z.ltb_spec 55 (len ctx)); lia).
  rewrite !(Z.shiftl_mul_pow2 _ 6) by lia. rewrite final_tail by lia.
  set (b := _ ++ drop (Z.to_nat (nb * 2 ^ 6)) (block ctx)).
  assert (length b = 128%nat) as Hlb.
  { subst b. rewrite !length_app, length_take, length_replicate, length_drop. simpl. lia. }
  assert (is_bytes b) as Htb.
  { subst b. rewrite !is_bytes_app. split_and!; auto with ec.
    - apply Forall_singleton. unfold in_range. lia.
    - apply Forall_replicate. unfold in_range. lia. }
  rewrite transform_chain; cbn [h tot_len len block buf]; [|done|done|lia|lia].
  set (hs := Fips.chain _ _).
  pose proof (fill_words hs (buf ctx) 8) as Hf. change (Z.of_nat 8) with 8 in Hf. rewrite Hf by lia.
  rewrite drop_ge, app_nil_r by lia.
  split; cbn [h tot_len len block buf]; auto.
  - split; [by apply length_chain|by apply chain_words].
  - split; [done|]. change (seqZ 0 8) with [0; 1; 2; 3; 4; 5; 6; 7]. cbn [fmap list_fmap concat].
    rewrite !is_bytes_app. split_and!; auto with ec.
Qed.

Lemma h0_words : Forall (in_range 32) sha256_h0.
Proof. concrete_range. Qed.

(** ** Properties *)

(** C38. Streaming a message through [SHA256_init], any number of
    [SHA256_update] calls of any sizes and [SHA256_final] yields the SHA-256
    of the concatenation, as FIPS 180-4 defines it (padding, schedule, rounds
    and the constants computed from the primes), with either form of the
    compression loop, for messages below 2^29 bytes (the length field is 32
    bits wide). *)
Theorem sha256_correct u ctx chunks :
  stack_ok ctx -> Forall is_bytes chunks -> Z.of_nat (length (concat chunks)) < 2 ^ 29 ->
  buf (SHA256_final u
         (fold_left (fun ctx data => SHA256_update u ctx data (Z.of_nat (length data))) chunks
            (SHA256_init ctx))) = Fips.sha256 (concat chunks).
Proof.
  intros (Hb & Hby & Hbuf) Hc Hl. apply final_correct; [|done].
  apply (updates_absorbed u chunks _ []); [by apply init_absorbed|done|done].
Qed.

(** [hmac_SHA256] with a key of at most one block writes the HMAC-SHA256
    of the message (FIPS 198-1) to the first 32 bytes of the output and leaves
    the rest of it, whatever its local contexts held; a longer key fails the
    assertion. *)
Theorem hmac_correct u stack1 stack2 output key message :
  stack_ok stack1 -> stack_ok stack2 -> (32 <= length output)%nat ->
  is_bytes output -> is_bytes key -> is_bytes message -> 64 + Z.of_nat (length message) < 2 ^ 29 ->
  hmac_SHA256 u stack1 stack2 output key (Z.of_nat (length key)) message (Z.of_nat (length message)) =
    if decide (length key <= 64)%nat then Some (Fips.hmac key message ++ drop 32 output) else None.
Proof.
  intros H1 H2 Ho Hob Hk Hm Hl. unfold hmac_SHA256, SHA256_BLOCK_SIZE.
  destruct (decide _) as [Hle|Hgt]; [|by rewrite (proj2 (Z.leb_gt _ _)) by lia].
  rewrite (proj2 (Z.leb_le _ _)) by lia. f_equal.
  rewrite (hmac_step_correct u stack1) by (done || lia). rewrite Nat2Z.id, firstn_all.
  pose proof (length_sha256 (masked 54 key ++ message)) as Hs.
  set (inner := Fips.sha256 (masked 54 key ++ message)) in *.
  assert (is_bytes inner) as Hsb by apply sha256_bytes.
  rewrite hmac_step_correct; try done.
  - change (Z.to_nat SHA256_DIGEST_SIZE) with 32%nat. rewrite take_app_length', drop_app_length' by done. done.
  - apply is_bytes_app. split; [done|by apply is_bytes_drop].
  - rewrite length_app. unfold SHA256_DIGEST_SIZE. lia.
Qed.

(** C40. A context keeps its type through every operation: eight 32-bit words,
    a block offset below 64, blocks and digest of their sizes made of bytes,
    for any data whose length does not wrap the 32-bit counter, so no copy
    leaves the context's arrays. *)
Theorem sha256_ctx_type u ctx :
  (stack_ok ctx -> is_bytes (buf ctx) -> ctx_wf (SHA256_init ctx)) /\
  (forall data n, ctx_wf ctx -> is_bytes data -> 0 <= n <= Z.of_nat (length data) ->
     len ctx + n < 2 ^ 32 -> ctx_wf (SHA256_update u ctx data n)) /\
  (ctx_wf ctx -> ctx_wf (SHA256_final u ctx)).
Proof.
  split_and!; [|apply update_wf|apply final_wf].
  intros (? & ? & ?) ?. split; simpl; auto using h0_words; done.
Qed.

Definition zero_ctx : sha256_ctx := Ctx (replicate 8 0) 0 0 (replicate 128 0xaa) (replicate 32 0).
Lemma zero_ctx_ok : stack_ok zero_ctx.
Proof. split; [done|]. split; [concrete_range|done]. Qed.

(** FIPS 180-4's example, in two pieces. *)
Lemma sha256_correct_witness :
  buf (SHA256_final true (SHA256_update true (SHA256_update true (SHA256_init zero_ctx) [97] 1) [98; 99] 2)) =
    Fips.sha256 [97; 98; 99] /\
  firstn 4 (Fips.sha256 [97; 98; 99]) = [0xba; 0x78; 0x16; 0xbf].
Proof.
  split; [|vm_compute; reflexivity].
  apply (sha256_correct true zero_ctx [[97]; [98; 99]]); [exact zero_ctx_ok| |vm_compute; reflexivity].
  constructor; [concrete_range|constructor; [concrete_range|constructor]].
Defined.

Lemma hmac_correct_witness :
  hmac_SHA256 false zero_ctx zero_ctx (replicate 33 9) [75] 1 [77; 77] 2 =
    Some (Fips.hmac [75] [77; 77] ++ [9]).
Proof.
  refine (hmac_correct false zero_ctx zero_ctx (replicate 33 9) [75] [77; 77] zero_ctx_ok zero_ctx_ok _ _ _ _ _);
    [simpl; lia|concrete_range|concrete_range|concrete_range|simpl; lia].
Defined.

Lemma sha256_ctx_type_witness : ctx_wf (SHA256_init zero_ctx).
Proof. apply (sha256_ctx_type true zero_ctx); [exact zero_ctx_ok|concrete_range]. Defined.

End Sha256Proofs.
