(* ===== verification/Rsa.v ===== *)
(** * RSA signature verification (common/rsa.c)

    Verification of SHA256WithRSA PKCS#1 v1.5 signatures with a pre-processed
    key: Montgomery multiplication on little-endian arrays of 32-bit words,
    the public exponentiation for both exponents, the padding check and
    [rsa_verify].  [RSANUMWORDS] is a parameter (the key size is a
    configuration option). *)

From S2P Require Import Prelude.
From S2P Require Import Sha256.

Module Rsa.
Import Sha256.

(** src/include/util.h:289-297 [mula32] *)
Definition mula32 (a b c : Z) : Z := u64 (u64 (a * b) + c).
(** src/include/util.h:299-308 [mulaa32] *)
Definition mulaa32 (a b c d : Z) : Z := u64 (u64 (u64 (a * b) + c) + d).

Section Key.
Context (RSANUMWORDS : Z).

(** src/include/rsa.h:18-18 [RSANUMBYTES] *)
Definition RSANUMBYTES : Z := 4 * RSANUMWORDS.

(** src/include/rsa.h:58-62 [struct rsa_public_key] *)
Record rsa_public_key := Key { n : list Z; rr : list Z; n0inv : Z }.

(** src/common/rsa.c:22-26 [sub_mod] *)
Definition sub_step (key : rsa_public_key) (s : Z * list Z) (i : Z) : Z * list Z :=
  let '(A, a) := s in
  let A := swrap 64 (u64 (A + u64 (aget a i - aget (n key) i))) in
  (Z.shiftr A 32, aset a i (u32 A)).
(** src/common/rsa.c:15-27 [sub_mod] *)
Definition sub_mod (key : rsa_public_key) (a : list Z) : list Z :=
  snd (fold_left (sub_step key) (seqZ 0 RSANUMWORDS) (0, a)).

(** The loop from index [i - 1] down. *)
Fixpoint ge_from (key : rsa_public_key) (a : list Z) (i : nat) : bool :=
  match i with
  | O => true
  | S i =>
    let i' := Z.of_nat i in
    if aget a i' <? aget (n key) i' then false
    else if aget a i' >? aget (n key) i' then true
    else ge_from key a i
  end.
(** src/common/rsa.c:29-43 [ge_mod] *)
Definition ge_mod (key : rsa_public_key) (a : list Z) : bool := ge_from key a (Z.to_nat RSANUMWORDS).

(** src/common/rsa.c:56-60 [mont_mul_add] *)
Definition mont_step (key : rsa_public_key) (a : Z) (b : list Z) (d0 : Z) (s : Z * Z * list Z) (i : Z)
  : Z * Z * list Z :=
  let '(A, B, c) := s in
  let A := mulaa32 a (aget b i) (aget c i) (u32 (Z.shiftr A 32)) in
  let B := mulaa32 d0 (aget (n key) i) (u32 A) (u32 (Z.shiftr B 32)) in
  (A, B, aset c (i - 1) (u32 B)).
(** src/common/rsa.c:45-68 [mont_mul_add] *)
Definition mont_mul_add (key : rsa_public_key) (c : list Z) (a : Z) (b : list Z) : list Z :=
  let A := mula32 a (aget b 0) (aget c 0) in
  let d0 := u32 (u32 A * n0inv key) in
  let B := mula32 d0 (aget (n key) 0) (u32 A) in
  let '(A, B, c) := fold_left (mont_step key a b d0) (seqZ 1 (RSANUMWORDS - 1)) (A, B, c) in
  let A := u64 (Z.shiftr A 32 + Z.shiftr B 32) in
  let c := aset c (RSANUMWORDS - 1) (u32 A) in
  if bool_of_Z (Z.shiftr A 32) then sub_mod key c else c.

(** src/common/rsa.c:81-84 [mont_mul_add_0] *)
Definition mont_0_step (key : rsa_public_key) (d0 : Z) (s : Z * list Z) (i : Z) : Z * list Z :=
  let '(B, c) := s in
  let B := mulaa32 d0 (aget (n key) i) (aget c i) (u32 (Z.shiftr B 32)) in
  (B, aset c (i - 1) (u32 B)).
(** src/common/rsa.c:71-87 [mont_mul_add_0] *)
Definition mont_mul_add_0 (key : rsa_public_key) (c : list Z) : list Z :=
  let d0 := u32 (aget c 0 * n0inv key) in
  let B := mula32 d0 (aget (n key) 0) (aget c 0) in
  let '(B, c) := fold_left (mont_0_step key d0) (seqZ 1 (RSANUMWORDS - 1)) (B, c) in
  aset c (RSANUMWORDS - 1) (u32 (Z.shiftr B 32)).

(** src/common/rsa.c:89-101 [mont_mul_1] *)
Definition mont_mul_1 (key : rsa_public_key) (a : list Z) : list Z :=
  let c := replicate (Z.to_nat RSANUMWORDS) 0 in
  fold_left (fun c _ => mont_mul_add_0 key c) (seqZ 1 (RSANUMWORDS - 1)) (mont_mul_add key c 1 a).

(** The result array is zeroed first, so its old contents are not an argument. *)
(** src/common/rsa.c:104-116 [mont_mul] *)
Definition mont_mul (key : rsa_public_key) (a b : list Z) : list Z :=
  fold_left (fun c i => mont_mul_add key c (aget a i) b) (seqZ 0 RSANUMWORDS)
    (replicate (Z.to_nat RSANUMWORDS) 0).

(** Big-endian bytes to little-endian words. *)
(** src/common/rsa.c:136-143 [mod_pow] *)
Definition words_of_bytes (inout : list Z) : list Z :=
  (fun i =>
     let at_ := (RSANUMWORDS - 1 - i) * 4 in
     Z.lor (Z.lor (Z.lor (Z.shiftl (aget inout at_) 24) (Z.shiftl (aget inout (at_ + 1)) 16))
              (Z.shiftl (aget inout (at_ + 2)) 8)) (aget inout (at_ + 3))) <$> seqZ 0 RSANUMWORDS.

(** src/common/rsa.c:168-171 [tmp] *)
Definition word_bytes (tmp : Z) : list Z :=
  [u8 (Z.shiftr tmp 24); u8 (Z.shiftr tmp 16); u8 (Z.shiftr tmp 8); u8 (Z.shiftr tmp 0)].
(** src/common/rsa.c:165-172 [mod_pow] *)
Definition bytes_of_words (aaa : list Z) : list Z :=
  concat ((fun i => word_bytes (aget aaa (RSANUMWORDS - 1 - i))) <$> seqZ 0 RSANUMWORDS).

(** [exponent_3] is [CONFIG_RSA_EXPONENT_3]; the arrays of the work buffer are
    named as in the code. *)
(** src/common/rsa.c:118-173 [mod_pow] *)
Definition mod_pow (exponent_3 : bool) (key : rsa_public_key) (inout : list Z) : list Z :=
  let a := words_of_bytes inout in
  let a_r := mont_mul key a (rr key) in
  let aaa :=
    if exponent_3 then
      let aa_r := mont_mul key a_r a_r in
      let a := mont_mul key aa_r a_r in
      mont_mul_1 key a
    else
      let a_r := fold_left (fun a_r _ =>
          let aa_r := mont_mul key a_r a_r in
          mont_mul key aa_r aa_r) ((fun i => 2 * i) <$> seqZ 0 8) a_r in
      mont_mul key a_r a in
  let aaa := if ge_mod key aaa then sub_mod key aaa else aaa in
  bytes_of_words aaa.

(** src/common/rsa.c:175-192 [sha256_tail] *)
Definition sha256_tail : list Z :=
  [0x00; 0x30; 0x31; 0x30; 0x0d; 0x06; 0x09; 0x60; 0x86; 0x48; 0x01; 0x65; 0x03; 0x04;
   0x02; 0x01; 0x05; 0x00; 0x04; 0x20].

(** src/common/rsa.c:194-194 [PKCS_PAD_SIZE] *)
Definition PKCS_PAD_SIZE : Z := RSANUMBYTES - SHA256_DIGEST_SIZE.

(** Plain [char] is signed or not, by the compiler. *)
Definition char_of (char_signed : bool) (x : Z) : Z := if char_signed then swrap 8 x else x.

(** src/builtin/stdlib.c:274-287 [memcmp] *)
Fixpoint memcmp (char_signed : bool) (s1 s2 : list Z) (len : nat) : Z :=
  match len with
  | O => 0
  | S len =>
    let diff := char_of char_signed (aget s1 0) - char_of char_signed (aget s2 0) in
    if negb (diff =? 0) then diff else memcmp char_signed (tail s1) (tail s2) len
  end.

(** src/common/rsa.c:196-219 [check_padding] *)
Definition check_padding (char_signed : bool) (sig : list Z) : Z :=
  let result := Z.lor 0 (Z.lxor (aget sig 0) 0) in
  let result := Z.lor result (Z.lxor (aget sig 1) 1) in
  let ff := PKCS_PAD_SIZE - 20 - 2 in
  let result := fold_left (fun result i => Z.lor result (Z.lxor (aget sig (2 + i)) 0xff))
                  (seqZ 0 ff) result in
  let result := Z.lor result (memcmp char_signed (drop (Z.to_nat (2 + ff)) sig) sha256_tail 20) in
  Z_of_bool (negb (negb (bool_of_Z result))).

(** src/common/rsa.c:221-251 [rsa_verify] *)
Definition rsa_verify (exponent_3 : bool) (char_signed : bool) (key : rsa_public_key) (signature sha : list Z) : Z :=
  let buf := take (Z.to_nat RSANUMBYTES) signature in
  let buf := mod_pow exponent_3 key buf in
  if negb (check_padding char_signed buf =? 0) then 0
  else if negb (memcmp char_signed (drop (Z.to_nat PKCS_PAD_SIZE) buf) sha (Z.to_nat SHA256_DIGEST_SIZE) =? 0) then 0
  else 1.

End Key.

End Rsa.

Module RsaProofs.
Import Sha256 Sha256Proofs Rsa.

(** ** Numbers in words *)

Fixpoint value (l : list Z) : Z :=
  match l with [] => 0 | w :: l => w + 2 ^ 32 * value l end.

(** [2^32] to the [k]. *)
Definition pw (k : nat) : Z := 2 ^ (32 * Z.of_nat k).

Lemma pw_S k : pw (S k) = 2 ^ 32 * pw k.
Proof. unfold pw. rewrite <- Z.pow_add_r by lia. f_equal. lia. Qed.
Lemma pw_pos k : 0 < pw k.
Proof. unfold pw. apply Z.pow_pos_nonneg; lia. Qed.

Lemma value_app l1 l2 : value (l1 ++ l2) = value l1 + pw (length l1) * value l2.
Proof.
  induction l1 as [|w l1 IH]; [unfold pw; simpl; lia|].
  cbn [app value length]. rewrite IH, pw_S. lia.
Qed.

Lemma value_range l : is_words l -> 0 <= value l < pw (length l).
Proof.
  induction l as [|w l IH]; intros H; [unfold pw; simpl; lia|].
  apply Forall_cons_iff in H as [Hw Hl]. cbn [value length]. rewrite pw_S.
  specialize (IH Hl). unfold in_range in Hw. lia.
Qed.

Lemma value_take_S l k :
  (k < length l)%nat -> value (take (S k) l) = value (take k l) + pw k * aget l (Z.of_nat k).
Proof.
  intros Hk. destruct (lookup_lt_is_Some_2 l k Hk) as [x Hx].
  rewrite (take_S_r _ _ _ Hx), value_app, length_take, Nat.min_l by lia. simpl.
  unfold aget. rewrite Nat2Z.id, (list_lookup_total_correct _ _ _ Hx). lia.
Qed.

Lemma value_replicate k : value (replicate k 0) = 0.
Proof. induction k as [|k IH]; [done|]. cbn [replicate value]. lia. Qed.

Lemma split32 x : u32 x + 2 ^ 32 * Z.shiftr x 32 = x.
Proof. unfold wrap. rewrite Z.shiftr_div_pow2 by lia. pose proof (Z.div_mod x (2 ^ 32)). lia. Qed.

Lemma words_aget l i : is_words l -> 0 <= aget l i < 2 ^ 32.
Proof. intros H. by apply (aget_range 32 l i). Qed.

Lemma swrap_id w x : 0 < w -> - 2 ^ (w - 1) <= x < 2 ^ (w - 1) -> swrap w (wrap w x) = x.
Proof.
  intros Hw Hx. assert (2 ^ w = 2 * 2 ^ (w - 1)) as E by (rewrite <- Z.pow_succ_r by lia; f_equal; lia).
  unfold swrap, wrap. rewrite Zplus_mod_idemp_l, Z.mod_small by lia. lia.
Qed.

(** Overwriting the next entry of an array filled from the left. *)
Lemma aset_next (out l : list Z) k v :
  length out = k -> (k < length l)%nat ->
  aset (out ++ drop k l) (Z.of_nat k) v = (out ++ [v]) ++ drop (S k) l.
Proof.
  intros Ho Hk. destruct (lookup_lt_is_Some_2 l k Hk) as [x Hx].
  rewrite (drop_S _ _ _ Hx). apply aset_app. lia.
Qed.

Lemma aget_rest (out l : list Z) j k :
  length out = j -> (j <= k)%nat -> aget (out ++ drop j l) (Z.of_nat k) = aget l (Z.of_nat k).
Proof.
  intros Ho Hk. unfold aget. rewrite Nat2Z.id, lookup_total_app_r by lia.
  rewrite Ho. rewrite !list_lookup_total_alt, lookup_drop. do 2 f_equal. lia.
Qed.

Lemma is_words_snoc l x : is_words l -> is_words (l ++ [u32 x]).
Proof. intros H. apply Forall_app. split; [done|]. apply Forall_singleton. by apply wrap_range. Qed.

(** ** The key *)

Section WithKey.
Context (N : nat) (HN : (0 < N)%nat) (key : rsa_public_key).

(** What the code relies on of a key: [N] words each, [n0inv] is
    [-1 / n mod 2^32], [rr] is [R^2 mod n] up to multiples, and the modulus has
    its top bit set. *)
Definition R : Z := pw N.
Definition modulus : Z := value (n key).
Record key_ok : Prop := {
  ko_n : length (n key) = N /\ is_words (n key);
  ko_rr : length (rr key) = N /\ is_words (rr key);
  ko_inv : (n0inv key * modulus + 1) mod 2 ^ 32 = 0;
  ko_sq : value (rr key) mod modulus = (R * R) mod modulus;
  ko_top : R <= 2 * modulus }.

Context (Hkey : key_ok).

(** A number of [N] words. *)
Definition num (l : list Z) : Prop := length l = N /\ is_words l.

Lemma num_range l : num l -> 0 <= value l < R.
Proof. intros [Hl Hw]. unfold R. rewrite <- Hl. by apply value_range. Qed.

Lemma modulus_range : 0 < modulus < R.
Proof.
  pose proof (num_range (n key) (ko_n Hkey)) as H. pose proof (ko_top Hkey). unfold modulus in *.
  pose proof (pw_pos N). unfold R in *. lia.
Qed.

Lemma num_take l : num l -> take N l = l.
Proof. intros [Hl _]. apply take_ge. lia. Qed.

Lemma sub_mod_loop a k :
  num a -> (k <= N)%nat ->
  exists out A,
    fold_left (sub_step key) (seqZ 0 (Z.of_nat k)) (0, a) = (A, out ++ drop k a) /\
    length out = k /\ is_words out /\ -1 <= A <= 0 /\
    value out + pw k * A = value (take k a) - value (take k (n key)).
Proof.
  intros [Hla Hwa]. destruct (ko_n Hkey) as [Hln Hwn]. induction k as [|k IH]; intros Hk.
  { exists [], 0. rewrite !take_0. simpl. split; [done|]. split; [done|]. split; [constructor|]. lia. }
  destruct IH as (out & A & Hf & Hlen & Hw & HA & Hv); [lia|].
  replace (Z.of_nat (S k)) with (Z.of_nat k + 1) by lia.
  rewrite (seqZ_app 0 (Z.of_nat k) 1), fold_left_app, Hf by lia.
  change (seqZ (0 + Z.of_nat k) 1) with [Z.of_nat k]. cbn [fold_left sub_step].
  rewrite aget_rest by lia. pose proof (words_aget a (Z.of_nat k) Hwa). pose proof (words_aget (n key) (Z.of_nat k) Hwn).
  autorewrite with ecr. rewrite swrap_id by lia.
  set (x := A + (aget a (Z.of_nat k) - aget (n key) (Z.of_nat k))).
  exists (out ++ [u32 x]), (Z.shiftr x 32). rewrite aset_next by lia. split; [done|].
  split; [rewrite length_app; simpl; lia|]. split; [by apply is_words_snoc|].
  pose proof (split32 x) as Hx. pose proof (wrap_range 32 x ltac:(lia)) as Hu. unfold in_range in Hu.
  split; [lia|]. rewrite value_app, !value_take_S, pw_S, Hlen by lia. cbn [value].
  rewrite Z.mul_0_r, Z.add_0_r. unfold x in *. nia.
Qed.

Lemma sub_mod_value a :
  num a -> num (sub_mod (Z.of_nat N) key a) /\
  value (sub_mod (Z.of_nat N) key a) = (value a - modulus) mod R.
Proof.
  intros Ha. unfold sub_mod. destruct (sub_mod_loop a N Ha ltac:(lia)) as (out & A & Hf & Hlen & Hw & HA & Hv).
  rewrite Hf. simpl. destruct Ha as [Hla Hwa]. rewrite drop_ge, app_nil_r by lia. split; [done|].
  rewrite !num_take in Hv by (split; auto; apply Hkey).
  pose proof (value_range out Hw) as Hr. rewrite Hlen in Hr. fold R in *. fold modulus in Hv.
  replace (value a - modulus) with (value out + A * R) by lia. rewrite Z_mod_plus_full, Z.mod_small by lia. done.
Qed.

Lemma ge_from_value a k :
  num a -> (k <= N)%nat ->
  ge_from key a k = (value (take k (n key)) <=? value (take k a)).
Proof.
  intros [Hla Hwa]. destruct (ko_n Hkey) as [Hln Hwn]. induction k as [|k IH]; intros Hk; [done|].
  cbn [ge_from]. rewrite !value_take_S by lia.
  pose proof (value_range (take k a) (Forall_take _ _ _ Hwa)) as H1.
  pose proof (value_range (take k (n key)) (Forall_take _ _ _ Hwn)) as H2.
  rewrite length_take, Nat.min_l in H1, H2 by lia.
  destruct (Z.ltb_spec (aget a (Z.of_nat k)) (aget (n key) (Z.of_nat k))).
  { symmetry. apply Z.leb_gt. nia. }
  rewrite Z.gtb_ltb. destruct (Z.ltb_spec (aget (n key) (Z.of_nat k)) (aget a (Z.of_nat k))).
  { symmetry. apply Z.leb_le. nia. }
  rewrite IH by lia. replace (aget a (Z.of_nat k)) with (aget (n key) (Z.of_nat k)) by lia.
  destruct (Z.leb_spec (value (take k (n key))) (value (take k a)));
    destruct (Z.leb_spec (value (take k (n key)) + pw k * aget (n key) (Z.of_nat k))
                (value (take k a) + pw k * aget (n key) (Z.of_nat k))); lia.
Qed.

Lemma ge_mod_value a : num a -> ge_mod (Z.of_nat N) key a = (modulus <=? value a).
Proof.
  intros Ha. unfold ge_mod. rewrite Nat2Z.id, ge_from_value by (done || lia).
  rewrite !num_take; [done|done|apply Hkey].
Qed.

(** ** Montgomery multiplication *)

Lemma mula32_exact a b c : is_u32 a -> is_u32 b -> is_u32 c -> mula32 a b c = a * b + c.
Proof.
  unfold mula32, in_range. intros. assert (0 <= a * b <= (2 ^ 32 - 1) * (2 ^ 32 - 1)) by nia.
  rewrite !(wrap_id 64) by (unfold in_range; rewrite ?(wrap_id 64) by (unfold in_range; lia); lia). done.
Qed.

Lemma mulaa32_exact a b c d : is_u32 a -> is_u32 b -> is_u32 c -> is_u32 d -> mulaa32 a b c d = a * b + c + d.
Proof.
  unfold mulaa32, in_range. intros. assert (0 <= a * b <= (2 ^ 32 - 1) * (2 ^ 32 - 1)) by nia.
  autorewrite with ecr. apply wrap_id. unfold in_range. lia.
Qed.

Lemma shiftr_u64 x : is_u64 x -> is_u32 (Z.shiftr x 32).
Proof. unfold in_range. rewrite Z.shiftr_div_pow2 by lia. intros. divlia. Qed.

Lemma aget_u32 l i : is_words l -> is_u32 (aget l i).
Proof. apply words_aget. Qed.
#[local] Hint Resolve aget_u32 shiftr_u64 : ec.

Lemma u32_range x : is_u32 (u32 x).
Proof. by apply wrap_range. Qed.
#[local] Hint Resolve u32_range : ec.

Lemma mula32_u64 a b c : is_u64 (mula32 a b c).
Proof. by apply wrap_range. Qed.
Lemma mulaa32_u64 a b c d : is_u64 (mulaa32 a b c d).
Proof. by apply wrap_range. Qed.
#[local] Hint Resolve mula32_u64 mulaa32_u64 : ec.

Lemma mont_loop a b c d0 k A0 B0 :
  num b -> num c -> is_u32 a -> is_u32 d0 -> (S k <= N)%nat ->
  A0 = a * aget b 0 + aget c 0 -> B0 = d0 * aget (n key) 0 + u32 A0 -> u32 B0 = 0 ->
  is_u64 A0 -> is_u64 B0 ->
  exists out A B,
    fold_left (mont_step key a b d0) (seqZ 1 (Z.of_nat k)) (A0, B0, c) = (A, B, out ++ drop k c) /\
    length out = k /\ is_words out /\ is_u64 A /\ is_u64 B /\
    2 ^ 32 * value out + pw (S k) * (Z.shiftr A 32 + Z.shiftr B 32) =
      value (take (S k) c) + a * value (take (S k) b) + d0 * value (take (S k) (n key)).
Proof.
  intros [Hlb Hwb] [Hlc Hwc] Ha Hd Hk HA0 HB0 HB HA64 HB64. destruct (ko_n Hkey) as [Hln Hwn].
  induction k as [|k IH].
  - exists [], A0, B0. split; [done|]. split; [done|]. split; [constructor|]. split; [done|]. split; [done|].
    rewrite !value_take_S, !take_0 by lia. change (Z.of_nat 0) with 0. rewrite pw_S.
    pose proof (split32 A0). pose proof (split32 B0). unfold pw. simpl. nia.
  - destruct IH as (out & A & B & Hf & Hlen & Hw & HAr & HBr & Hv); [lia|].
    replace (Z.of_nat (S k)) with (Z.of_nat k + 1) by lia.
    rewrite (seqZ_app 1 (Z.of_nat k) 1), fold_left_app, Hf by lia.
    replace (1 + Z.of_nat k) with (Z.of_nat (S k)) by lia.
    change (seqZ (Z.of_nat (S k)) 1) with [Z.of_nat (S k)]. cbn [fold_left mont_step].
    rewrite (aget_rest out c k (S k)) by lia.
    replace (Z.of_nat (S k) - 1) with (Z.of_nat k) by lia. rewrite aset_next by lia.
    rewrite (wrap_id 32 (Z.shiftr A 32)), (wrap_id 32 (Z.shiftr B 32)) by auto with ec.
    set (A' := mulaa32 a _ _ _). set (B' := mulaa32 d0 _ _ _).
    assert (A' = a * aget b (Z.of_nat (S k)) + aget c (Z.of_nat (S k)) + Z.shiftr A 32) as HA'
      by (apply mulaa32_exact; auto with ec).
    assert (B' = d0 * aget (n key) (Z.of_nat (S k)) + u32 A' + Z.shiftr B 32) as HB'
      by (apply mulaa32_exact; auto with ec).
    exists (out ++ [u32 B']), A', B'. split; [done|].
    split; [rewrite length_app; simpl; lia|]. split; [by apply is_words_snoc|].
    split; [by apply wrap_range|]. split; [by apply wrap_range|].
    rewrite value_app, !(value_take_S _ (S k)), Hlen, (pw_S (S k)), (pw_S k) in * by lia. cbn [value].
    pose proof (split32 A'). pose proof (split32 B'). nia.
Qed.

Lemma modulus_low : exists q, modulus = aget (n key) 0 + 2 ^ 32 * q.
Proof.
  destruct (ko_n Hkey) as [Hln _]. unfold modulus. destruct (n key) as [|x l] eqn:E; [simpl in Hln; lia|].
  exists (value l). done.
Qed.

(** The quotient digit clears the low word. *)
Lemma low_word_zero x : u32 (u32 (u32 x * n0inv key) * aget (n key) 0 + u32 x) = 0.
Proof.
  destruct modulus_low as [q Hq]. pose proof (ko_inv Hkey) as Hi. rewrite Hq in Hi.
  apply Z.mod_divide in Hi as [m Hm]; [|lia].
  apply (wrap_eq 32); [lia|unfold in_range; lia|].
  pose proof (split32 (u32 x * n0inv key)) as Hs.
  set (y := u32 x) in *. set (t := Z.shiftr (y * n0inv key) 32) in *. set (d := u32 (y * n0inv key)) in *.
  exists (y * (m - n0inv key * q) - t * aget (n key) 0). nia.
Qed.

Lemma num_snoc out x k : length out = k -> S k = N -> is_words out -> num (out ++ [u32 x]).
Proof. intros. split; [rewrite length_app; simpl; lia|by apply is_words_snoc]. Qed.

Lemma mont_mul_add_value c a b :
  num c -> num b -> is_u32 a ->
  num (mont_mul_add (Z.of_nat N) key c a b) /\
  exists d, 2 ^ 32 * value (mont_mul_add (Z.of_nat N) key c a b) = value c + a * value b + d * modulus.
Proof.
  intros Hc Hb Ha. pose proof Hc as [Hlc Hwc]. pose proof Hb as [Hlb Hwb]. destruct (ko_n Hkey) as [Hln Hwn].
  unfold mont_mul_add. rewrite (mula32_exact a) by auto with ec.
  set (A0 := a * aget b 0 + aget c 0). set (d0 := u32 (u32 A0 * n0inv key)).
  rewrite (mula32_exact d0) by (subst d0; auto with ec).
  set (B0 := d0 * aget (n key) 0 + u32 A0).
  assert (is_u64 A0) as HA64 by (subst A0; rewrite <- mula32_exact by auto with ec; auto with ec).
  assert (is_u64 B0) as HB64.
  { subst B0. rewrite <- (mula32_exact d0) by (subst d0; auto with ec). auto with ec. }
  destruct (mont_loop a b c d0 (N - 1) A0 B0) as (out & A & B & Hf & Hlen & Hw & HAr & HBr & Hv);
    try done; try lia; [subst d0; auto with ec|apply low_word_zero|].
  replace (Z.of_nat (N - 1)) with (Z.of_nat N - 1) in Hf by lia. rewrite Hf.
  replace (Z.of_nat N - 1) with (Z.of_nat (N - 1)) by lia. rewrite aset_next by lia.
  rewrite drop_ge, app_nil_r by lia.
  replace (S (N - 1)) with N in Hv by lia. rewrite !num_take in Hv; try done.
  apply shiftr_u64 in HAr, HBr. unfold in_range in HAr, HBr.
  rewrite (wrap_id 64 (_ + _)) by (unfold in_range; lia). set (S := Z.shiftr A 32 + Z.shiftr B 32) in *.
  set (r := out ++ [u32 S]). assert (num r) as Hr by (eapply num_snoc; eauto; lia).
  assert (value r + R * Z.shiftr S 32 = value out + pw (N - 1) * S) as Hval.
  { subst r. rewrite value_app, Hlen. cbn [value]. unfold R. pose proof (split32 S).
    replace N with (Datatypes.S (N - 1)) at 2 by lia. rewrite pw_S. nia. }
  assert (pw N = 2 ^ 32 * pw (N - 1)) as HpN by (rewrite <- pw_S; f_equal; lia).
  fold modulus in Hv. pose proof (num_range r Hr) as Hrr. pose proof (num_range c Hc). pose proof (num_range b Hb).
  pose proof modulus_range as Hm. unfold R in *.
  pose proof (u32_range (u32 A0 * n0inv key)) as Hd. fold d0 in Hd. unfold in_range in Ha, Hd.
  assert (2 ^ 32 * (value r + pw N * Z.shiftr S 32) = value c + a * value b + d0 * modulus) as Hsum by nia.
  assert (0 <= Z.shiftr S 32 <= 1) as HS by (rewrite Z.shiftr_div_pow2 by lia; divlia).
  unfold bool_of_Z. destruct (Z.eqb_spec (Z.shiftr S 32) 0) as [E|E]; simpl.
  - split; [done|]. exists d0. rewrite E in Hsum. lia.
  - assert (Z.shiftr S 32 = 1) as E1 by lia. rewrite E1 in Hsum.
    destruct (sub_mod_value r Hr) as [Hns Hvs]. split; [done|]. exists (d0 - 2 ^ 32). rewrite Hvs.
    assert (value r < modulus) by nia.
    rewrite <- (Z_mod_plus_full _ 1), Z.mod_small by (unfold R; lia). unfold R. lia.
Qed.

Lemma mont_0_loop c d0 b k A B :
  is_words c -> Z.shiftr A 32 = 0 -> (S k <= length c)%nat ->
  exists A' B' c',
    fold_left (mont_step key 0 b d0) (seqZ 1 (Z.of_nat k)) (A, B, c) = (A', B', c') /\
    fold_left (mont_0_step key d0) (seqZ 1 (Z.of_nat k)) (B, c) = (B', c') /\ Z.shiftr A' 32 = 0 /\
    is_words c' /\ length c' = length c /\ (k <> 0%nat -> is_u64 B').
Proof.
  intros Hc HA. induction k as [|k IH]; intros Hk; [exists A, B, c; done|].
  destruct IH as (A' & B' & c' & H1 & H2 & H3 & H4 & H5 & _); [lia|].
  replace (Z.of_nat (S k)) with (Z.of_nat k + 1) by lia.
  rewrite (seqZ_app 1 (Z.of_nat k) 1), !fold_left_app, H1, H2 by lia.
  replace (1 + Z.of_nat k) with (Z.of_nat (S k)) by lia.
  change (seqZ (Z.of_nat (S k)) 1) with [Z.of_nat (S k)]. cbn [fold_left mont_step mont_0_step].
  rewrite H3. pose proof (aget_u32 c' (Z.of_nat (S k)) H4) as Hx.
  assert (mulaa32 0 (aget b (Z.of_nat (S k))) (aget c' (Z.of_nat (S k))) (u32 0) = aget c' (Z.of_nat (S k))) as ->.
  { unfold mulaa32. rewrite Z.mul_0_l. change (u64 0) with 0. change (u32 0) with 0.
    rewrite Z.add_0_r, Z.add_0_l, wrap_wrap, wrap_id; [done|]. unfold in_range in *. lia. }
  rewrite (wrap_id 32 (aget c' _)) by done. do 3 eexists. split; [done|]. split; [done|].
  split; [rewrite Z.shiftr_div_pow2 by lia; apply Z.div_small; exact Hx|].
  unfold aset. rewrite length_insert. split; [|split; [done|auto with ec]].
  apply Forall_insert; [done|apply u32_range].
Qed.

(** "Montgomery c[] += 0 * b[]", as the code's comment has it. *)
Lemma mont_mul_add_0_eq c b :
  num c -> mont_mul_add_0 (Z.of_nat N) key c = mont_mul_add (Z.of_nat N) key c 0 b.
Proof.
  intros [Hl Hw]. unfold mont_mul_add_0, mont_mul_add.
  pose proof (aget_u32 c 0 Hw) as Hx.
  assert (mula32 0 (aget b 0) (aget c 0) = aget c 0) as ->.
  { unfold mula32. rewrite Z.mul_0_l. change (u64 0) with 0. rewrite Z.add_0_l. apply wrap_id.
    unfold in_range in *. lia. }
  rewrite (wrap_id 32 (aget c 0)) by done.
  set (d0 := u32 (aget c 0 * n0inv key)). set (B0 := mula32 d0 _ _).
  destruct (mont_0_loop c d0 b (N - 1) (aget c 0) B0) as (A' & B' & c' & H1 & H2 & H3 & _ & _ & H6);
    [done|rewrite Z.shiftr_div_pow2 by lia; apply Z.div_small; exact Hx|lia|].
  replace (Z.of_nat (N - 1)) with (Z.of_nat N - 1) in H1, H2 by lia. rewrite H1, H2, H3, Z.add_0_l.
  assert (is_u64 B') as HB.
  { destruct (decide (N - 1 = 0)%nat) as [E|E]; [|by apply H6].
    replace (Z.of_nat N - 1) with 0 in H1 by lia. simpl in H1. simplify_eq. apply mula32_u64. }
  apply shiftr_u64 in HB. unfold in_range in HB. rewrite (wrap_id 64) by (unfold in_range; lia).
  unfold bool_of_Z. rewrite (Z.shiftr_div_pow2 (Z.shiftr B' 32)), Z.div_small by lia. done.
Qed.

(** ** Products and powers modulo the modulus *)

Definition eqm (x y : Z) : Prop := x mod modulus = y mod modulus.
#[local] Instance eqm_equiv : Equivalence eqm.
Proof. split; unfold eqm; [by intros x|by intros x y|intros x y z; congruence]. Qed.
#[local] Instance eqm_mul : Proper (eqm ==> eqm ==> eqm) Z.mul.
Proof. intros x x' Hx y y' Hy. unfold eqm in *. by rewrite Zmult_mod, Hx, Hy, <- Zmult_mod. Qed.
#[local] Instance eqm_add : Proper (eqm ==> eqm ==> eqm) Z.add.
Proof. intros x x' Hx y y' Hy. unfold eqm in *. by rewrite Zplus_mod, Hx, Hy, <- Zplus_mod. Qed.

Lemma eqm_multiple x d : eqm (x + d * modulus) x.
Proof. unfold eqm. apply Z_mod_plus_full. Qed.

Lemma coprime_pow k : Z.coprime (pw k) modulus.
Proof.
  assert (Z.coprime (2 ^ 32) modulus) as H1.
  { pose proof (ko_inv Hkey) as Hi. apply Z.mod_divide in Hi as [m Hm]; [|lia].
    apply Z.coprime_Bezout. exists m, (- n0inv key). lia. }
  induction k as [|k IH]; [apply Z.gcd_1_l|]. rewrite pw_S. by apply Z.coprime_mul_l.
Qed.

Lemma eqm_divide x y : eqm x y <-> (modulus | x - y).
Proof.
  pose proof modulus_range. unfold eqm. split.
  - intros H1. apply Z.mod_divide; [lia|]. by rewrite Zminus_mod, H1, Z.sub_diag, Z.mod_0_l by lia.
  - intros [q Hq]. replace x with (y + q * modulus) by lia. apply Z_mod_plus_full.
Qed.

Lemma eqm_cancel k x y : eqm (pw k * x) (pw k * y) -> eqm x y.
Proof.
  rewrite !eqm_divide, <- Z.mul_sub_distr_l. intros H. apply Z.gauss in H; [done|].
  rewrite Z.gcd_comm. apply coprime_pow.
Qed.

Lemma mont_mul_prefix a b k :
  num a -> num b -> (k <= N)%nat ->
  let c := fold_left (fun c i => mont_mul_add (Z.of_nat N) key c (aget a i) b) (seqZ 0 (Z.of_nat k)) (replicate N 0) in
  num c /\ eqm (pw k * value c) (value (take k a) * value b).
Proof.
  intros Ha Hb. induction k as [|k IH]; intros Hk; cbn zeta.
  - simpl. rewrite value_replicate, Z.mul_0_r. split; [|done].
    split; [apply length_replicate|]. apply Forall_replicate. unfold in_range. lia.
  - destruct IH as [Hc He]; [lia|]. replace (Z.of_nat (S k)) with (Z.of_nat k + 1) by lia.
    rewrite (seqZ_app 0 (Z.of_nat k) 1), fold_left_app by lia.
    change (seqZ (0 + Z.of_nat k) 1) with [Z.of_nat k]. cbn [fold_left].
    set (c := fold_left _ _ _) in *.
    destruct (mont_mul_add_value c (aget a (Z.of_nat k)) b Hc Hb (aget_u32 _ _ (proj2 Ha))) as [Hn [d Hd]].
    split; [done|]. rewrite pw_S, value_take_S by (destruct Ha; lia).
    replace (2 ^ 32 * pw k * _) with (pw k * (value c + aget a (Z.of_nat k) * value b) + (pw k * d) * modulus) by nia.
    rewrite eqm_multiple, Z.mul_add_distr_l, He. unfold eqm. f_equal. ring.
Qed.

Lemma mont_mul_value a b :
  num a -> num b ->
  num (mont_mul (Z.of_nat N) key a b) /\ eqm (R * value (mont_mul (Z.of_nat N) key a b)) (value a * value b).
Proof.
  intros Ha Hb. unfold mont_mul. rewrite Nat2Z.id.
  destruct (mont_mul_prefix a b N Ha Hb ltac:(lia)) as [Hn He]. split; [done|].
  unfold R. by rewrite num_take in He.
Qed.

(** The numeral one. *)
Definition one : list Z := 1 :: replicate (N - 1) 0.

Lemma one_num : num one.
Proof.
  split; [unfold one; simpl; rewrite length_replicate; lia|].
  constructor; [unfold in_range; lia|]. apply Forall_replicate. unfold in_range. lia.
Qed.
Lemma one_value : value one = 1.
Proof. unfold one. cbn [value]. rewrite value_replicate. lia. Qed.

Lemma mont_mul_1_eq a : num a -> mont_mul_1 (Z.of_nat N) key a = mont_mul (Z.of_nat N) key one a.
Proof.
  intros Ha. unfold mont_mul_1, mont_mul. rewrite Nat2Z.id.
  rewrite (seqZ_cons 0) by lia. change (Z.succ 0) with 1.
  replace (Z.pred (Z.of_nat N)) with (Z.of_nat N - 1) by lia.
  cbn [fold_left]. change (aget one 0) with 1.
  assert (num (mont_mul_add (Z.of_nat N) key (replicate N 0) 1 a)) as Hc.
  { apply mont_mul_add_value; [|done|unfold in_range; lia].
    split; [apply length_replicate|]. apply Forall_replicate. unfold in_range. lia. }
  revert Hc. generalize (mont_mul_add (Z.of_nat N) key (replicate N 0) 1 a). intros c Hc.
  assert (forall l c, num c -> (forall i, i ∈ l -> 1 <= i < Z.of_nat N) ->
    fold_left (fun c _ => mont_mul_add_0 (Z.of_nat N) key c) l c =
    fold_left (fun c i => mont_mul_add (Z.of_nat N) key c (aget one i) a) l c) as Hgen.
  { clear c Hc. intros l. induction l as [|i l IH]; intros c Hc Hi; [done|]. cbn [fold_left].
    assert (1 <= i < Z.of_nat N) as Hi1 by (apply Hi; left).
    assert (aget one i = 0) as ->.
    { unfold aget, one. rewrite list_lookup_total_alt.
      replace (Z.to_nat i) with (S (Z.to_nat (i - 1))) by lia. rewrite lookup_cons_ne_0 by done.
      destruct (_ !! _) as [x|] eqn:E; [|apply lookup_ge_None_1 in E; rewrite length_replicate in E; simpl in E; lia].
      by apply lookup_replicate in E as [-> _]. }
    rewrite (mont_mul_add_0_eq c a Hc). apply IH; [|intros; apply Hi; by right].
    apply mont_mul_add_value; [done|done|unfold in_range; lia]. }
  apply Hgen; [done|]. intros i Hi%elem_of_seqZ. lia.
Qed.

(** ** Bytes and words *)

Lemma be_acc l acc : fold_left (fun a b => a * 256 + b) l acc = acc * 256 ^ Z.of_nat (length l) + Fips.be l.
Proof.
  unfold Fips.be. revert acc. induction l as [|x l IH]; intros acc; [simpl; lia|].
  cbn [fold_left length]. rewrite IH, (IH (0 * 256 + x)), Nat2Z.inj_succ, Z.pow_succ_r by lia. lia.
Qed.

Lemma be_app l1 l2 : Fips.be (l1 ++ l2) = Fips.be l1 * 256 ^ Z.of_nat (length l2) + Fips.be l2.
Proof. unfold Fips.be at 1. by rewrite fold_left_app, be_acc. Qed.

Lemma be_cons x l : Fips.be (x :: l) = x * 256 ^ Z.of_nat (length l) + Fips.be l.
Proof. change (x :: l) with ([x] ++ l). rewrite be_app. unfold Fips.be at 1. simpl. lia. Qed.

Lemma be_range l : is_bytes l -> 0 <= Fips.be l < 256 ^ Z.of_nat (length l).
Proof.
  induction l as [|x l IH]; intros H; [unfold Fips.be; simpl; lia|].
  apply Forall_cons_iff in H as [Hx Hl]. specialize (IH Hl). rewrite be_cons. cbn [length].
  rewrite Nat2Z.inj_succ, Z.pow_succ_r by lia. unfold in_range in Hx. nia.
Qed.

Lemma be_inj l1 l2 :
  is_bytes l1 -> is_bytes l2 -> length l1 = length l2 -> Fips.be l1 = Fips.be l2 -> l1 = l2.
Proof.
  revert l2. induction l1 as [|x l1 IH]; intros [|y l2] H1 H2 Hl E; try done.
  apply Forall_cons_iff in H1 as [Hx H1], H2 as [Hy H2]. injection Hl as Hl.
  rewrite !be_cons, Hl in E. pose proof (be_range l1 H1) as B1. pose proof (be_range l2 H2) as B2.
  rewrite Hl in B1. assert (x = y) as -> by nia. f_equal. apply IH; try done. lia.
Qed.

Lemma pow_256 k : 256 ^ Z.of_nat (4 * k) = pw k.
Proof. unfold pw. change 256 with (2 ^ 8). rewrite <- Z.pow_mul_r by lia. f_equal. lia. Qed.

Lemma be_4 a b c d :
  in_range 8 a -> in_range 8 b -> in_range 8 c -> in_range 8 d ->
  Z.lor (Z.lor (Z.lor (Z.shiftl a 24) (Z.shiftl b 16)) (Z.shiftl c 8)) d = Fips.be [a; b; c; d].
Proof.
  unfold in_range, Fips.be. intros. simpl.
  rewrite (Z.lor_comm (Z.lor _ _) d), (Z.lor_comm (Z.lor _ _) (Z.shiftl c 8)), (Z.lor_comm (Z.shiftl a 24)).
  rewrite (Z.lor_assoc d), (lor_add_disjoint 8 d c) by lia.
  rewrite Z.lor_assoc, (lor_add_disjoint 16), (lor_add_disjoint 24) by lia. lia.
Qed.

Lemma be_word_bytes x :
  is_u32 x -> Fips.be (word_bytes x) = x.
Proof.
  unfold in_range, Fips.be, word_bytes, wrap. intros. simpl. rewrite !Z.shiftr_div_pow2 by lia. divlia.
Qed.

Lemma word_bytes_bytes x : is_bytes (word_bytes x).
Proof. repeat constructor; apply wrap_range; lia. Qed.

Lemma words_of_bytes_prefix l k :
  is_bytes l -> length l = (4 * N)%nat -> (k <= N)%nat ->
  value (take k (words_of_bytes (Z.of_nat N) l)) = Fips.be (drop (4 * (N - k)) l) /\
  is_words (take k (words_of_bytes (Z.of_nat N) l)).
Proof.
  intros Hb Hl. assert (length (words_of_bytes (Z.of_nat N) l) = N) as Hlw
    by (unfold words_of_bytes; rewrite length_fmap, length_seqZ; lia).
  induction k as [|k IH]; intros Hk.
  { rewrite drop_ge by lia. split; [done|constructor]. }
  destruct IH as [IH1 IH2]; [lia|]. rewrite value_take_S, IH1 by lia.
  set (o := (Z.of_nat N - 1 - Z.of_nat k) * 4).
  assert (aget (words_of_bytes (Z.of_nat N) l) (Z.of_nat k) = Fips.be (slice l o 4)) as Hw.
  { unfold words_of_bytes, aget at 1.
    erewrite list_lookup_total_correct
      by (rewrite lookup_fmap_seqZ, decide_True by lia; rewrite Nat2Z.id; reflexivity).
    cbv beta. fold o. rewrite slice_4 by (subst o; lia). apply be_4; by apply (aget_range 8). }
  assert (length (slice l o 4) = 4%nat) as Hsl by (rewrite length_slice; subst o; lia).
  assert (is_bytes (slice l o 4)) as Hsb by (unfold slice; by apply Forall_take, Forall_drop).
  rewrite Hw. split.
  - assert (drop (4 * (N - S k)) l = slice l o 4 ++ drop (4 * (N - k)) l) as ->.
    { unfold slice. replace (4 * (N - S k))%nat with (Z.to_nat o) by (subst o; lia).
      rewrite <- (take_drop 4 (drop (Z.to_nat o) l)) at 1. rewrite drop_drop. do 2 f_equal. subst o. lia. }
    rewrite be_app, length_drop, Hl. replace (4 * N - 4 * (N - k))%nat with (4 * k)%nat by lia.
    rewrite pow_256. lia.
  - rewrite (take_S_r _ _ (Fips.be (slice l o 4))).
    + apply Forall_app. split; [done|]. apply Forall_singleton. unfold in_range.
      pose proof (be_range _ Hsb) as Hr. rewrite Hsl in Hr. exact Hr.
    + rewrite <- Hw. unfold aget. rewrite Nat2Z.id. apply list_lookup_lookup_total_lt. lia.
Qed.

Lemma words_of_bytes_value l :
  is_bytes l -> length l = (4 * N)%nat ->
  num (words_of_bytes (Z.of_nat N) l) /\ value (words_of_bytes (Z.of_nat N) l) = Fips.be l.
Proof.
  intros Hb Hl. destruct (words_of_bytes_prefix l N Hb Hl ltac:(lia)) as [Hv Hw].
  assert (length (words_of_bytes (Z.of_nat N) l) = N) as Hlw
    by (unfold words_of_bytes; rewrite length_fmap, length_seqZ; lia).
  rewrite take_ge in Hv, Hw by lia. rewrite Nat.sub_diag in Hv. done.
Qed.

Lemma bytes_of_words_value c :
  num c ->
  length (bytes_of_words (Z.of_nat N) c) = (4 * N)%nat /\ is_bytes (bytes_of_words (Z.of_nat N) c) /\
  Fips.be (bytes_of_words (Z.of_nat N) c) = value c.
Proof.
  intros [Hl Hw]. unfold bytes_of_words. set (f := fun i => _).
  assert (forall k, (k <= N)%nat ->
    let bs := concat (f <$> seqZ 0 (Z.of_nat k)) in
    length bs = (4 * k)%nat /\ is_bytes bs /\ Fips.be bs = value (drop (N - k) c)) as Hgen.
  { induction k as [|k IH]; intros Hk; cbn zeta.
    - rewrite drop_ge by lia. split; [done|]. split; [constructor|done].
    - destruct IH as (H1 & H2 & H3); [lia|]. replace (Z.of_nat (S k)) with (Z.of_nat k + 1) by lia.
      rewrite (seqZ_app 0 (Z.of_nat k) 1), fmap_app, concat_app by lia.
      change (seqZ (0 + Z.of_nat k) 1) with [Z.of_nat k]. cbn [fmap list_fmap concat]. rewrite app_nil_r.
      rewrite length_app, is_bytes_app, be_app, H1, H3.
      change (f (Z.of_nat k)) with (word_bytes (aget c (Z.of_nat N - 1 - Z.of_nat k))).
      set (x := aget c (Z.of_nat N - 1 - Z.of_nat k)).
      assert (Fips.be (word_bytes x) = x) as -> by (apply be_word_bytes, aget_u32; exact Hw).
      change (length (word_bytes x)) with 4%nat.
      split; [lia|]. split.
      + split; [exact H2|apply word_bytes_bytes].
      + assert (drop (N - S k) c = x :: drop (N - k) c) as ->.
        { subst x. unfold aget. destruct (lookup_lt_is_Some_2 c (N - S k)) as [y Hy]; [lia|].
          replace (Z.to_nat (Z.of_nat N - 1 - Z.of_nat k)) with (N - S k)%nat by lia.
          rewrite (list_lookup_total_correct _ _ _ Hy), (drop_S _ _ _ Hy). do 2 f_equal. lia. }
        cbn [value]. change (256 ^ Z.of_nat 4) with (2 ^ 32). lia. }
  destruct (Hgen N ltac:(lia)) as (H1 & H2 & H3). by rewrite Nat.sub_diag in H3.
Qed.

(** ** Exponentiation *)

(** A Montgomery product, from what its factors are times [R]. *)
Lemma mont_eqm x z t :
  num x -> num z -> eqm (value x * value z) (R * t) ->
  num (mont_mul (Z.of_nat N) key x z) /\ eqm (value (mont_mul (Z.of_nat N) key x z)) t.
Proof.
  intros Hx Hz H. destruct (mont_mul_value x z Hx Hz) as [Hn He]. split; [done|].
  apply (eqm_cancel N). fold R. by rewrite He, H.
Qed.

(** [x] is the Montgomery form of [y]. *)
Definition mont_form (x : list Z) (y : Z) : Prop := num x /\ eqm (value x) (R * y).

Lemma mont_form_mul x z p q :
  mont_form x p -> mont_form z q -> mont_form (mont_mul (Z.of_nat N) key x z) (p * q).
Proof.
  intros [Hx Ex] [Hz Ez]. apply mont_eqm; [done|done|]. rewrite Ex, Ez. unfold eqm. f_equal. ring.
Qed.

Lemma mont_form_leave x z p q :
  mont_form x p -> num z -> eqm (value z) q ->
  num (mont_mul (Z.of_nat N) key x z) /\ eqm (value (mont_mul (Z.of_nat N) key x z)) (p * q).
Proof.
  intros [Hx Ex] Hz Ez. apply mont_eqm; [done|done|]. rewrite Ex, Ez. unfold eqm. f_equal. ring.
Qed.

Lemma mont_form_enter a : num a -> mont_form (mont_mul (Z.of_nat N) key a (rr key)) (value a).
Proof.
  intros Ha. apply mont_eqm; [done|apply Hkey|].
  assert (eqm (value (rr key)) (R * R)) as E by apply (ko_sq Hkey). rewrite E. unfold eqm. f_equal. ring.
Qed.

Lemma squarings l x y :
  mont_form x y ->
  mont_form (fold_left (fun a_r (_ : Z) =>
               let aa_r := mont_mul (Z.of_nat N) key a_r a_r in mont_mul (Z.of_nat N) key aa_r aa_r) l x)
    (y ^ (4 ^ Z.of_nat (length l))).
Proof.
  revert x y. induction l as [|i l IH]; intros x y H; [by rewrite Z.pow_1_r|].
  cbn [fold_left length]. rewrite Nat2Z.inj_succ, Z.pow_succ_r, Z.pow_mul_r by lia.
  replace (y ^ 4) with (y * y * (y * y)) by ring. apply IH. by do 2 apply mont_form_mul.
Qed.

Definition exponent (exponent_3 : bool) : Z := if exponent_3 then 3 else 65537.

(** The number left in [aaa] before the final subtraction. *)
Lemma mod_pow_reduced a3 x :
  num a3 -> eqm (value a3) x ->
  let r := if ge_mod (Z.of_nat N) key a3 then sub_mod (Z.of_nat N) key a3 else a3 in
  num r /\ value r = x mod modulus.
Proof.
  intros Ha E. rewrite ge_mod_value by done. unfold eqm in E. rewrite <- E.
  pose proof (num_range a3 Ha). pose proof modulus_range. pose proof (ko_top Hkey).
  destruct (Z.leb_spec modulus (value a3)).
  - destruct (sub_mod_value a3 Ha) as [Hn Hv]. split; [done|]. rewrite Hv, Z.mod_small by lia.
    rewrite <- (Z_mod_plus_full _ (-1)), Z.mod_small by lia. lia.
  - split; [done|]. by rewrite Z.mod_small by lia.
Qed.

Lemma mod_pow_value e3 l :
  is_bytes l -> length l = (4 * N)%nat ->
  length (mod_pow (Z.of_nat N) e3 key l) = (4 * N)%nat /\ is_bytes (mod_pow (Z.of_nat N) e3 key l) /\
  Fips.be (mod_pow (Z.of_nat N) e3 key l) = Fips.be l ^ exponent e3 mod modulus.
Proof.
  intros Hb Hl. unfold mod_pow. destruct (words_of_bytes_value l Hb Hl) as [Ha Hv].
  set (a := words_of_bytes _ l) in *. pose proof (mont_form_enter a Ha) as Har.
  set (ar := mont_mul _ key a (rr key)) in *.
  match goal with |- context [if ge_mod _ key ?x then _ else _] => set (a3 := x) end.
  assert (num a3 /\ eqm (value a3) (Fips.be l ^ exponent e3)) as [Hn He].
  { rewrite <- Hv. subst a3. destruct e3; cbn [exponent].
    - pose proof (mont_form_mul _ _ _ _ (mont_form_mul _ _ _ _ Har Har) Har) as H3.
      rewrite mont_mul_1_eq by apply H3. destruct H3 as [Hn3 He3]. apply mont_eqm; [apply one_num|done|].
      rewrite one_value, He3. unfold eqm. f_equal. ring.
    - pose proof (squarings ((fun i => 2 * i) <$> seqZ 0 8) ar (value a) Har) as Hs.
      change (4 ^ Z.of_nat (length ((fun i => 2 * i) <$> seqZ 0 8))) with 65536 in Hs.
      change 65537 with (Z.succ 65536). rewrite Z.pow_succ_r, Z.mul_comm by lia.
      by apply mont_form_leave. }
  destruct (mod_pow_reduced a3 _ Hn He) as [Hr Hrv]. cbn zeta in *.
  destruct (bytes_of_words_value _ Hr) as (H1 & H2 & H3). by rewrite H3, Hrv.
Qed.

(** ** Padding *)

Lemma char_of_inj b x y : in_range 8 x -> in_range 8 y -> char_of b x = char_of b y -> x = y.
Proof. unfold in_range, char_of, swrap. destruct b; [|lia]. intros. divlia. Qed.

Lemma memcmp_zero b l1 l2 k :
  is_bytes l1 -> is_bytes l2 -> (k <= length l1)%nat -> (k <= length l2)%nat ->
  memcmp b l1 l2 k = 0 <-> take k l1 = take k l2.
Proof.
  revert l1 l2. induction k as [|k IH]; intros l1 l2 H1 H2 Hl1 Hl2; [done|].
  destruct l1 as [|x l1]; [simpl in Hl1; lia|]. destruct l2 as [|y l2]; [simpl in Hl2; lia|].
  apply Forall_cons_iff in H1 as [Hx H1], H2 as [Hy H2]. cbn [memcmp tail take length] in *.
  change (aget (x :: l1) 0) with x. change (aget (y :: l2) 0) with y.
  destruct (Z.eqb_spec (char_of b x - char_of b y) 0) as [E|E]; simpl.
  - assert (x = y) as <- by (apply (char_of_inj b); done || lia). rewrite IH by (done || lia).
    split; [by intros ->|by intros [= ->]].
  - split; [done|]. intros [= -> _]. lia.
Qed.

Lemma lxor_zero x y : Z.lxor x y = 0 <-> x = y.
Proof. split; [apply Z.lxor_eq|intros ->; apply Z.lxor_nilpotent]. Qed.

Lemma or_fold (f : Z -> Z) l acc :
  fold_left (fun r i => Z.lor r (f i)) l acc = 0 <-> acc = 0 /\ (forall i, i ∈ l -> f i = 0).
Proof.
  revert acc. induction l as [|i l IH]; intros acc; cbn [fold_left].
  - split; [intros ->; split; [done|by intros ? ?%elem_of_nil]|by intros [-> _]].
  - rewrite IH, Z.lor_eq_0_iff. split.
    + intros [[-> Hi] Hl]. split; [done|]. intros j [->|Hj]%elem_of_cons; auto.
    + intros [-> Hl]. split; [split; [done|]|]; intros; apply Hl; apply elem_of_cons; auto.
Qed.

(** EMSA-PKCS1-v1_5 for SHA-256. *)
Definition padded (digest : list Z) : list Z :=
  [0; 1] ++ replicate (4 * N - 54) 255 ++ sha256_tail ++ digest.

Lemma check_padding_zero b l :
  is_bytes l -> length l = (4 * N)%nat -> (54 <= 4 * N)%nat ->
  check_padding (Z.of_nat N) b l = 0 <->
  take (4 * N - 32) l = [0; 1] ++ replicate (4 * N - 54) 255 ++ sha256_tail.
Proof.
  intros Hb Hl H54. unfold check_padding, PKCS_PAD_SIZE, RSANUMBYTES, SHA256_DIGEST_SIZE.
  set (k := (4 * N - 54)%nat). replace (4 * Z.of_nat N - 32 - 20 - 2) with (Z.of_nat k) by lia.
  destruct l as [|x [|y l]]; [simpl in Hl; lia|simpl in Hl; lia|].
  apply Forall_cons_iff in Hb as [Hx [Hy Hb]%Forall_cons_iff]. cbn [length] in Hl.
  change (aget (x :: y :: l) 0) with x. change (aget (x :: y :: l) 1) with y.
  replace (Z.to_nat (2 + Z.of_nat k)) with (S (S k)) by lia. cbn [drop].
  unfold bool_of_Z. rewrite negb_involutive. set (r := Z.lor _ (memcmp _ _ _ _)).
  assert (Z_of_bool (negb (r =? 0)) = 0 <-> r = 0) as ->.
  { destruct (Z.eqb_spec r 0); simpl; split; done || lia. }
  subst r. rewrite Z.lor_eq_0_iff, or_fold, !Z.lor_eq_0_iff, !lxor_zero.
  rewrite memcmp_zero; [|by apply Forall_drop|by concrete_range|rewrite length_drop; lia|simpl; lia].
  replace (4 * N - 32)%nat with (S (S (k + 20))) by lia. cbn [take app].
  change (take 20 sha256_tail) with sha256_tail.
  assert (take (k + 20) l = take k l ++ take 20 (drop k l)) as ->.
  { rewrite <- (take_drop k (take (k + 20) l)), take_take, skipn_firstn_comm.
    do 2 f_equal; lia. }
  assert ((forall i, i ∈ seqZ 0 (Z.of_nat k) -> Z.lxor (aget (x :: y :: l) (2 + i)) 255 = 0) <->
          take k l = replicate k 255) as ->.
  { split.
    - intros H. apply list_eq. intros i. destruct (decide (i < k)%nat) as [Hi|Hi].
      + rewrite lookup_take_lt, lookup_replicate_2 by lia. specialize (H (Z.of_nat i)).
        rewrite lxor_zero, elem_of_seqZ in H. rewrite <- H by lia. unfold aget.
        replace (Z.to_nat (2 + Z.of_nat i)) with (S (S i)) by lia.
        change ((x :: y :: l) !!! S (S i)) with (l !!! i). apply list_lookup_lookup_total_lt. lia.
      + rewrite !lookup_ge_None_2; rewrite ?length_replicate, ?length_take; lia || done.
    - intros H i Hi%elem_of_seqZ. apply lxor_zero. unfold aget.
      replace (Z.to_nat (2 + i)) with (S (S (Z.to_nat i))) by lia.
      apply (list_lookup_total_correct _ _ _). change (l !! Z.to_nat i = Some 255).
      rewrite <- (lookup_take_lt l k) by lia. rewrite H. apply lookup_replicate_2. lia. }
  split.
  - intros [[[[_ ->] ->] ->] ->]. done.
  - intros [= -> -> E]. apply app_inj_1 in E as [-> ->]; [done|]. rewrite length_take, length_replicate. lia.
Qed.

(** ** Verification *)

Lemma padded_length digest : (54 <= 4 * N)%nat -> length digest = 32%nat -> length (padded digest) = (4 * N)%nat.
Proof. intros. unfold padded. rewrite !length_app, length_replicate. simpl. lia. Qed.

Lemma padded_bytes digest : is_bytes digest -> is_bytes (padded digest).
Proof.
  intros H. unfold padded. rewrite !is_bytes_app. split; [concrete_range|].
  split; [apply Forall_replicate; unfold in_range; lia|]. split; [concrete_range|done].
Qed.

(** The decoded block passes both comparisons iff it is the padded digest. *)
Lemma split_padded l digest :
  length l = (4 * N)%nat -> (54 <= 4 * N)%nat -> length digest = 32%nat ->
  take (4 * N - 32) l = [0; 1] ++ replicate (4 * N - 54) 255 ++ sha256_tail /\
    take 32 (drop (4 * N - 32) l) = take 32 digest <-> l = padded digest.
Proof.
  intros Hl H54 Hd. rewrite (take_ge digest), (take_ge (drop _ _)) by (rewrite ?length_drop; lia).
  assert (padded digest = ([0; 1] ++ replicate (4 * N - 54) 255 ++ sha256_tail) ++ digest) as ->
    by (unfold padded; by rewrite <- !app_assoc).
  rewrite <- (take_drop (4 * N - 32) l) at 3. split; [by intros [-> ->]|].
  intros E. apply app_inj_1 in E; [done|].
  rewrite length_take, !length_app, length_replicate. simpl. lia.
Qed.

Lemma rsa_verify_spec e3 b signature sha :
  (54 <= 4 * N)%nat -> is_bytes signature -> length signature = (4 * N)%nat ->
  is_bytes sha -> length sha = 32%nat ->
  rsa_verify (Z.of_nat N) e3 b key signature sha =
    if decide (Fips.be signature ^ exponent e3 mod modulus = Fips.be (padded sha)) then 1 else 0.
Proof.
  intros H54 Hb Hl Hsb Hsl. unfold rsa_verify, PKCS_PAD_SIZE, RSANUMBYTES, SHA256_DIGEST_SIZE.
  rewrite take_ge by lia. destruct (mod_pow_value e3 signature Hb Hl) as (Hml & Hmb & Hmv).
  set (m := mod_pow _ e3 key signature) in *.
  pose proof (check_padding_zero b m Hmb Hml H54) as Hc.
  replace (Z.to_nat (4 * Z.of_nat N - 32)) with (4 * N - 32)%nat by lia.
  change (Z.to_nat 32) with 32%nat.
  assert (Hd : memcmp b (drop (4 * N - 32) m) sha 32 = 0 <-> take 32 (drop (4 * N - 32) m) = take 32 sha).
  { apply memcmp_zero; [by apply Forall_drop|done|rewrite length_drop; lia|lia]. }
  pose proof (split_padded m sha Hml H54 Hsl) as Hs.
  assert (m = padded sha <-> Fips.be m = Fips.be (padded sha)) as He.
  { split; [by intros ->|]. intros E. apply be_inj; [done|by apply padded_bytes| |done].
    by rewrite Hml, padded_length. }
  rewrite Hmv in He. clearbody m.
  destruct (Z.eqb_spec (check_padding (Z.of_nat N) b m) 0); cbn [negb];
    [|rewrite decide_False; [reflexivity|tauto]].
  destruct (Z.eqb_spec (memcmp b (drop (4 * N - 32) m) sha 32) 0); cbn [negb].
  - rewrite decide_True; [reflexivity|tauto].
  - rewrite decide_False; [reflexivity|tauto].
Qed.

End WithKey.

(** ** Properties *)

(** C37. [rsa_verify] accepts a signature exactly when, as a big-endian number,
    its [e]-th power modulo the key's modulus is the PKCS#1 v1.5 encoding of
    the digest, for either exponent and any number of words: the Montgomery
    arithmetic (with its low-word inverse, the carry out of the top word and
    the reduced first row) computes the power, and every byte of the padding
    and of the digest is compared.  The answer depends on the signature only
    modulo the key: adding the modulus to it is not noticed. *)
Theorem rsa_verify_correct N key e3 char_signed signature sha :
  (54 <= 4 * N)%nat -> key_ok N key ->
  is_bytes signature -> length signature = (4 * N)%nat -> is_bytes sha -> length sha = 32%nat ->
  rsa_verify (Z.of_nat N) e3 char_signed key signature sha =
    (if decide (Fips.be signature ^ exponent e3 mod modulus key = Fips.be (padded N sha)) then 1 else 0) /\
  (forall signature', is_bytes signature' -> length signature' = (4 * N)%nat ->
     Fips.be signature' mod modulus key = Fips.be signature mod modulus key ->
     rsa_verify (Z.of_nat N) e3 char_signed key signature' sha =
     rsa_verify (Z.of_nat N) e3 char_signed key signature sha).
Proof.
  intros H54 Hk Hb Hl Hsb Hsl. split; [apply rsa_verify_spec; done || lia|].
  intros signature' Hb' Hl' E. rewrite !rsa_verify_spec by (done || lia).
  assert (0 <= exponent e3) by (destruct e3; simpl; lia).
  by rewrite <- (Z.mod_pow_l (Fips.be signature')), E, Z.mod_pow_l.
Qed.

(** A 448-bit key (14 words), the digest of "abc" and its signature. *)
Definition le_words (k : nat) (x : Z) : list Z := (fun i => u32 (Z.shiftr x (32 * i))) <$> seqZ 0 (Z.of_nat k).
Definition small_key : rsa_public_key :=
  Key (le_words 14 0xb1c90db0077925e8b830e6804a53ce2936a061553975be92bcedbb62e869155328d734dc93692a7e5752d6aa83ecd05f6dfd34bdd29f5795)
      (le_words 14 0x83709734d6b3f51ee77c0c1963036405c64727d67f0eec3d7c21406b97538b966fa8328a4b4ab2377a90a67dce16079a5e8490c16bcf8a07)
      0x94c6c443.
Definition small_sig : list Z :=
  Fips.to_be 56 0x2e004afde83406ab5fe0c4f21848d6757e0f8d7237350c92b074931d8926f6e20408838849febb477f4c3a48094c1ce09e3ced3f88b78de7.
Definition abc_digest : list Z :=
  Fips.to_be 32 0xba7816bf8f01cfea414140de5dae2223b00361a396177a9cb410ff61f20015ad.

Lemma small_key_ok : key_ok 14 small_key.
Proof.
  split.
  - split; [done|concrete_range].
  - split; [done|concrete_range].
  - vm_compute. reflexivity.
  - vm_compute. reflexivity.
  - vm_compute. discriminate.
Qed.

(** The signature verifies, so its power is the padded digest. *)
Lemma rsa_verify_correct_witness :
  Fips.be small_sig ^ 65537 mod modulus small_key = Fips.be (padded 14 abc_digest).
Proof.
  pose proof (proj1 (rsa_verify_correct 14 small_key false true small_sig abc_digest
    ltac:(lia) small_key_ok ltac:(concrete_range) eq_refl ltac:(concrete_range) eq_refl)) as H.
  assert (rsa_verify (Z.of_nat 14) false true small_key small_sig abc_digest = 1) as E
    by (vm_compute; reflexivity).
  rewrite E in H. destruct (decide _) as [Heq|]; [exact Heq|discriminate H].
Defined.

End RsaProofs.
