(* ===== verification/Hooks.v ===== *)
(** * Hooks and deferred calls (common/hooks.c)

    [hook_notify] calls the registered routines of one type in priority order;
    [hook_call_deferred] arms, re-arms or cancels a deferred routine; the hook
    task runs expired routines and the periodic hooks and sleeps until the next
    deadline.  The routines are arbitrary client code: [client] says what a
    routine does (let time pass, arm or cancel deferred calls), depending on
    the whole state. *)

From stdpp Require Import sets.
From S2P Require Import Prelude.

Module Hooks.

(** src/include/hooks.h:17-24 [HOOK_PRIO_FIRST] *)
Definition HOOK_PRIO_FIRST : Z := 1.
(** src/include/hooks.h:17-24 [HOOK_PRIO_LAST] *)
Definition HOOK_PRIO_LAST : Z := 9999.

(** ** Notification

    A hook list is the list of its priorities; the calls are the indexes. *)

(** src/common/hooks.c:128-132 [hook_notify] *)
Definition find_prio (hooks : list Z) (last_prio : Z) : Z :=
  fold_left (fun prio p => if (p <? prio) && (p >? last_prio) then p else prio) hooks (HOOK_PRIO_LAST + 1).

(** The hooks with priority [prio], in table order. *)
(** src/common/hooks.c:136-141 [hook_notify] *)
Definition called_at (hooks : list Z) (prio : Z) : list Z :=
  filter (fun i => aget hooks i = prio) (seqZ 0 (Z.of_nat (length hooks))).

(** src/common/hooks.c:126-142 [hook_notify] *)
Fixpoint notify_loop (fuel : nat) (hooks : list Z) (called last_prio : Z) (acc : list Z) : option (list Z) :=
  match fuel with
  | O => None
  | S fuel =>
    if called <? Z.of_nat (length hooks) then
      let prio := find_prio hooks last_prio in
      let now := called_at hooks prio in
      notify_loop fuel hooks (called + Z.of_nat (length now)) prio (acc ++ now)
    else Some acc
  end.

(** src/common/hooks.c:110-150 [hook_notify] *)
Definition hook_notify (fuel : nat) (hooks : list Z) : option (list Z) :=
  notify_loop fuel hooks 0 (HOOK_PRIO_FIRST - 1) [].

(** ** The hook task *)

Inductive event :=
| Deferred (i deadline : Z)       (* a deferred routine is called *)
| Requested (i us d : Z)          (* hook_call_deferred, and the deadline it sets *)
| Tick
| Second.

Record hooks := Hooks {
  until : list Z;                 (* __deferred_until *)
  last_second : Z;
  last_tick : Z;
  now : Z;                        (* the clock *)
  log : list event }.

(** src/include/timer.h:28-28 [SECOND] *)
Definition SECOND : Z := 1000000.

(** src/common/hooks.c:152-172 [hook_call_deferred] *)
Definition hook_call_deferred (h : hooks) (data us : Z) : ec_error * hooks :=
  if (data <? 0) || (data >=? Z.of_nat (length (until h))) then (EC_ERROR_INVAL, h)
  else
    let v := if us =? -1 then 0 else u64 (now h + us) in
    (EC_SUCCESS,
     Hooks (aset (until h) data v) (last_second h) (last_tick h) (now h) (log h ++ [Requested data us v])).

(** What client code can do. *)
Inductive action :=
| Elapse (us : N)
| Defer (data us : Z).

Definition act (h : hooks) (a : action) : hooks :=
  match a with
  | Elapse us => Hooks (until h) (last_second h) (last_tick h) (now h + Z.of_N us) (log h)
  | Defer data us => snd (hook_call_deferred h data us)
  end.

Section Task.
Context (HOOK_TICK_INTERVAL : Z) (client : event -> hooks -> list action).

(** A routine is called: the call is logged and the client code runs. *)
Definition run (e : event) (h : hooks) : hooks :=
  let h := Hooks (until h) (last_second h) (last_tick h) (now h) (log h ++ [e]) in
  fold_left act (client e h) h.

(** src/common/hooks.c:196-206 [hook_task] *)
Definition call_expired (t : Z) (h : hooks) (i : Z) : hooks :=
  let d := aget (until h) i in
  if bool_of_Z d && (d <? t)
  then run (Deferred i d)
         (Hooks (aset (until h) i 0) (last_second h) (last_tick h) (now h) (log h))
  else h.

(** [next] is an [int]; the comparison is unsigned, [next] being positive. *)
(** src/common/hooks.c:237-247 [hook_task] *)
Fixpoint next_loop (t : Z) (us : list Z) (next : Z) : Z :=
  match us with
  | [] => next
  | d :: us =>
    if next >? 0 then
      if d =? 0 then next_loop t us next
      else if d <? t then next_loop t us 0
      else if u64 (d - t) <? next then next_loop t us (swrap 32 (u64 (d - t)))
      else next_loop t us next
    else next
  end.

(** src/common/hooks.c:211-219 [hook_task] *)
Definition tick_turn (t : Z) (h : hooks) : hooks :=
  if u64 (t - last_tick h) >=? HOOK_TICK_INTERVAL then
    let h := run Tick h in Hooks (until h) (last_second h) t (now h) (log h)
  else h.
(** src/common/hooks.c:221-229 [hook_task] *)
Definition second_turn (t : Z) (h : hooks) : hooks :=
  if u64 (t - last_second h) >=? SECOND then
    let h := run Second h in Hooks (until h) t (last_tick h) (now h) (log h)
  else h.

(** One turn of the task's loop: the time to sleep, 0 when it does not. [dt] is
    the time the code of the loop itself takes. *)
(** src/common/hooks.c:188-255 [hook_task] *)
Definition hook_task_turn (dt : N) (h : hooks) : Z * hooks :=
  let t := now h in
  let h := fold_left (call_expired t) (seqZ 0 (Z.of_nat (length (until h)))) h in
  let h := tick_turn t h in
  let h := second_turn t h in
  let h := Hooks (until h) (last_second h) (last_tick h) (now h + Z.of_N dt) (log h) in
  let t := now h in
  let due := u64 (last_tick h + HOOK_TICK_INTERVAL) in
  let next := if due >? t then swrap 32 (u64 (due - t)) else 0 in
  (next_loop t (until h) next, h).

End Task.

(** src/common/hooks.c:174-183 [hook_task] *)
Definition hook_task_start (HOOK_TICK_INTERVAL n t : Z) : hooks :=
  Hooks (replicate (Z.to_nat n) 0) (u64 (- SECOND)) (u64 (- HOOK_TICK_INTERVAL)) t [].

(** ** Notification: proofs *)

Section Notify.
Context (hooks : list Z).
Abbreviation count := (Z.of_nat (length hooks)).

(** All calls for priorities [1 .. last]. *)
Definition calls_to (last : Z) : list Z := concat ((fun p => called_at hooks p) <$> seqZ HOOK_PRIO_FIRST last).

Definition in_prio (last i : Z) : Prop := HOOK_PRIO_FIRST <= aget hooks i <= last.
#[local] Instance in_prio_dec last i : Decision (in_prio last i).
Proof. unfold in_prio. apply _. Defined.

Lemma filter_split (P Q R : Z -> Prop) `{!forall x, Decision (P x), !forall x, Decision (Q x), !forall x, Decision (R x)} (l : list Z) :
  (forall x, R x <-> P x \/ Q x) -> (forall x, P x -> Q x -> False) ->
  filter P l ++ filter Q l ≡ₚ filter R l.
Proof.
  intros HR Hd. induction l as [|x l IH]; [done|]. rewrite !filter_cons.
  destruct (decide (P x)), (decide (Q x)), (decide (R x)); try (exfalso; naive_solver); simpl.
  - by rewrite IH.
  - rewrite <- IH. by rewrite Permutation_middle.
  - done.
Qed.

Lemma filter_none (P : Z -> Prop) `{!forall x, Decision (P x)} (l : list Z) :
  (forall x, x ∈ l -> ~ P x) -> filter P l = [].
Proof.
  intros Hl. induction l as [|x l IH]; [done|]. rewrite filter_cons_False by (apply Hl; left).
  apply IH. intros y Hy. apply Hl. by right.
Qed.

Lemma filter_all (P : Z -> Prop) `{!forall x, Decision (P x)} (l : list Z) :
  (forall x, x ∈ l -> P x) -> filter P l = l.
Proof.
  intros Hl. induction l as [|x l IH]; [done|]. rewrite filter_cons_True by (apply Hl; left).
  f_equal. apply IH. intros y Hy. apply Hl. by right.
Qed.

Lemma calls_to_S k : 0 <= k -> calls_to (k + 1) = calls_to k ++ called_at hooks (k + 1).
Proof.
  intros. unfold calls_to, HOOK_PRIO_FIRST. rewrite (seqZ_app 1 k 1), fmap_app, concat_app by lia.
  replace (1 + k) with (k + 1) by lia. change (seqZ (k + 1) 1) with [k + 1]. simpl. by rewrite app_nil_r.
Qed.

Lemma calls_to_filter (k : nat) : calls_to (Z.of_nat k) ≡ₚ filter (in_prio (Z.of_nat k)) (seqZ 0 count).
Proof.
  induction k as [|k IH].
  - unfold calls_to. simpl. rewrite filter_none; [done|]. intros x _. unfold in_prio, HOOK_PRIO_FIRST. lia.
  - replace (Z.of_nat (S k)) with (Z.of_nat k + 1) by lia. rewrite calls_to_S, IH by lia.
    unfold called_at. apply filter_split; unfold in_prio, HOOK_PRIO_FIRST; intros x; lia.
Qed.

Lemma length_calls_to (k : nat) : Z.of_nat (length (calls_to (Z.of_nat k))) <= count.
Proof.
  rewrite (calls_to_filter k). pose proof (length_filter (in_prio (Z.of_nat k)) (seqZ 0 count)) as Hl.
  rewrite length_seqZ in Hl. lia.
Qed.

(** The next priority: the least one above [last]. *)
Lemma find_prio_spec last :
  let p := find_prio hooks last in
  (p = HOOK_PRIO_LAST + 1 \/ p > last /\ p ∈ hooks) /\ (forall q, q ∈ hooks -> q > last -> p <= q).
Proof.
  unfold find_prio. generalize (HOOK_PRIO_LAST + 1). intros top. set (f := fun prio p => _).
  assert (forall l init, (forall q, q ∈ l -> q ∈ hooks) ->
    let p := fold_left f l init in
    p <= init /\ (p = init \/ p > last /\ p ∈ hooks) /\ (forall q, q ∈ l -> q > last -> p <= q)) as Hf.
  { intros l. induction l as [|x l IH]; intros init Hl; cbn [fold_left].
    - split; [lia|]. split; [by left|]. by intros q ?%elem_of_nil.
    - destruct (IH (f init x)) as (H1 & H2 & H3); [intros; apply Hl; by right|].
      assert (Hx : x ∈ hooks) by (apply Hl; left). cbn zeta.
      assert (f init x = x /\ x < init /\ x > last \/ f init x = init /\ (init <= x \/ x <= last)) as Hc.
      { unfold f. destruct (Z.ltb_spec x init), (Z.gtb_spec x last); simpl; lia. }
      split; [lia|]. split.
      + destruct Hc as [(E & _ & ?)|[E _]]; rewrite E in *; [|done].
        destruct H2 as [-> |?]; [right; split; [lia|done]|by right].
      + intros q [->|Hq]%elem_of_cons Hgt; [lia|auto]. }
  destruct (Hf hooks top ltac:(done)) as (_ & H2 & H3). done.
Qed.

Lemma hook_index q : q ∈ hooks <-> exists i, i ∈ seqZ 0 count /\ aget hooks i = q.
Proof.
  split.
  - intros [i Hi]%list_elem_of_lookup_1. exists (Z.of_nat i). pose proof (lookup_lt_Some _ _ _ Hi).
    rewrite elem_of_seqZ. split; [lia|]. unfold aget. rewrite Nat2Z.id. by apply list_lookup_total_correct.
  - intros (i & Hi%elem_of_seqZ & <-). unfold aget. apply list_elem_of_lookup_total_2. lia.
Qed.

(** Nothing is called at priorities that do not occur. *)
Lemma called_at_none p : p ∉ hooks -> called_at hooks p = [].
Proof.
  intros Hp. apply filter_none. intros i Hi E. apply Hp, hook_index. eauto.
Qed.

Lemma calls_to_skip (k : nat) lo :
  0 <= lo -> (forall q, lo < q <= lo + Z.of_nat k -> q ∉ hooks) -> calls_to (lo + Z.of_nat k) = calls_to lo.
Proof.
  intros Hlo. induction k as [|k IH]; intros Hq; [by rewrite Z.add_0_r|].
  replace (lo + Z.of_nat (S k)) with ((lo + Z.of_nat k) + 1) by lia.
  rewrite calls_to_S, called_at_none, app_nil_r by (lia || (apply Hq; lia)). apply IH. intros. apply Hq. lia.
Qed.

Lemma calls_to_next lo p :
  0 <= lo < p -> (forall q, q ∈ hooks -> q > lo -> p <= q) -> calls_to p = calls_to lo ++ called_at hooks p.
Proof.
  intros Hp Hq. replace p with ((p - 1) + 1) at 1 by lia. rewrite calls_to_S by lia.
  replace (p - 1 + 1) with p by lia. f_equal.
  replace (p - 1) with (lo + Z.of_nat (Z.to_nat (p - 1 - lo))) by lia. apply calls_to_skip; [lia|].
  intros q H Hin. specialize (Hq q Hin). lia.
Qed.

Context (Hprio : Forall (fun p => HOOK_PRIO_FIRST <= p <= HOOK_PRIO_LAST) hooks).

Lemma calls_below (k : nat) q :
  q ∈ hooks -> q > Z.of_nat k -> Z.of_nat (length (calls_to (Z.of_nat k))) < count.
Proof.
  intros (i & Hi & E)%hook_index Hq. rewrite (calls_to_filter k).
  assert (length (filter (in_prio (Z.of_nat k)) (seqZ 0 count)) < length (seqZ 0 count))%nat as Hlt.
  { apply (length_filter_lt _ _ i Hi). unfold in_prio. lia. }
  rewrite length_seqZ in Hlt. lia.
Qed.

Lemma calls_complete (k : nat) :
  (forall q, q ∈ hooks -> q <= Z.of_nat k) -> Z.of_nat (length (calls_to (Z.of_nat k))) = count.
Proof.
  intros Hq. rewrite (calls_to_filter k), filter_all; [rewrite length_seqZ; lia|].
  intros i Hi. assert (Hin : aget hooks i ∈ hooks) by (apply hook_index; eauto).
  pose proof Hprio as Hpr. rewrite list.Forall_forall in Hpr. specialize (Hpr _ Hin). specialize (Hq _ Hin). unfold in_prio. lia.
Qed.

Lemma notify_loop_spec fuel : forall (k : nat),
  Z.of_nat k <= HOOK_PRIO_LAST -> count - Z.of_nat (length (calls_to (Z.of_nat k))) < Z.of_nat fuel ->
  notify_loop fuel hooks (Z.of_nat (length (calls_to (Z.of_nat k)))) (Z.of_nat k) (calls_to (Z.of_nat k)) =
    Some (calls_to HOOK_PRIO_LAST).
Proof.
  pose proof Hprio as Hpr. rewrite list.Forall_forall in Hpr. unfold HOOK_PRIO_FIRST, HOOK_PRIO_LAST in Hpr |- *.
  induction fuel as [|fuel IH]; intros k Hk Hf; [pose proof (length_calls_to k); lia|]. cbn [notify_loop].
  destruct (Z.ltb_spec (Z.of_nat (length (calls_to (Z.of_nat k)))) count) as [Hlt|Hge].
  - destruct (find_prio_spec (Z.of_nat k)) as [Hp Hmin]. set (p := find_prio hooks (Z.of_nat k)) in *.
    assert (exists q, q ∈ hooks /\ q > Z.of_nat k) as (q & Hq & Hqk).
    { destruct (decide (Exists (fun q => q > Z.of_nat k) hooks)) as [(q & ? & ?)%list.Exists_exists|Hn]; [eauto|].
      exfalso. rewrite (calls_complete k) in Hlt; [lia|]. intros q Hq.
      destruct (Z.le_gt_cases q (Z.of_nat k)); [done|]. exfalso. apply Hn, list.Exists_exists. exists q. split; [done|lia]. }
    pose proof (Hmin q Hq Hqk). pose proof (Hpr q Hq).
    destruct Hp as [Hp|[Hpk Hpin]]; [unfold HOOK_PRIO_LAST in Hp; lia|].
    pose proof (calls_to_next (Z.of_nat k) p ltac:(lia) Hmin) as Hn.
    assert (0 < length (called_at hooks p))%nat as Hpos.
    { apply hook_index in Hpin as (i & Hi & E). assert (i ∈ called_at hooks p) as Hc
        by (unfold called_at; by apply list_elem_of_filter).
      destruct (called_at hooks p); [by apply elem_of_nil in Hc|simpl; lia]. }
    rewrite <- Nat2Z.inj_add, <- length_app, <- Hn. replace p with (Z.of_nat (Z.to_nat p)) by lia.
    apply IH; [pose proof (Hpr p Hpin); lia|]. rewrite Z2Nat.id, Hn, length_app by lia. lia.
  - f_equal. replace 9999 with (Z.of_nat k + Z.of_nat (Z.to_nat (9999 - Z.of_nat k))) by lia.
    symmetry. apply calls_to_skip; [lia|]. intros q Hq Hin. pose proof (calls_below k q Hin). lia.
Qed.

End Notify.

(** ** The hook task: proofs *)

(** The sleep ends at the earliest armed deadline, and there is one unless
    something is due. *)
Lemma swrap32_id x : 0 <= x < 2 ^ 31 -> swrap 32 x = x.
Proof. intros. unfold swrap. change (32 - 1) with 31. rewrite Z.mod_small; lia. Qed.

(** How long the task may sleep, as an [int]. *)
Lemma time_to_next due t tick :
  is_u64 due -> tick < 2 ^ 31 -> (t < due -> 0 < due - t <= tick) -> 0 < tick ->
  let n := if due >? t then swrap 32 (u64 (due - t)) else 0 in
  0 <= n <= tick /\ (0 < n -> t + n = due) /\ (n = 0 -> due <= t).
Proof.
  intros Hdue Ht Hb Hp n. subst n. unfold in_range in *. rewrite Z.gtb_ltb.
  destruct (Z.ltb_spec t due); [|lia].
  rewrite wrap_id by (unfold in_range; lia). rewrite swrap32_id by lia. lia.
Qed.

Lemma next_loop_spec t us next :
  is_u64 t -> Forall (in_range 64) us -> 0 <= next < 2 ^ 31 ->
  let r := next_loop t us next in
  0 <= r <= next /\ (0 < r -> forall d, d ∈ us -> d <> 0 -> t + r <= d) /\
  (r = 0 -> next = 0 \/ exists d, d ∈ us /\ d <> 0 /\ d <= t).
Proof.
  intros Ht. revert next. induction us as [|d us IH]; intros next Hu Hn; cbn zeta; cbn [next_loop].
  { split; [lia|]. split; [by intros _ ? ?%elem_of_nil|by left]. }
  apply Forall_cons_iff in Hu as [Hd Hu]. unfold in_range in Ht, Hd.
  rewrite Z.gtb_ltb. destruct (Z.ltb_spec 0 next) as [Hpos|]; [|split; [lia|]; split; [lia|by left]].
  assert (exists next', next_loop t us next' =
      (if d =? 0 then next_loop t us next
       else if d <? t then next_loop t us 0
       else if u64 (d - t) <? next then next_loop t us (swrap 32 (u64 (d - t))) else next_loop t us next) /\
      0 <= next' <= next /\ (d <> 0 -> 0 < next' -> t + next' <= d) /\
      (next' = 0 -> d <> 0 /\ d <= t)) as (next' & <- & Hn' & Hd1 & Hd2).
  { destruct (Z.eqb_spec d 0); [exists next; split; [done|lia]|].
    destruct (Z.ltb_spec d t); [exists 0; split; [done|lia]|].
    rewrite (wrap_id 64 (d - t)) by (unfold in_range; lia).
    destruct (Z.ltb_spec (d - t) next); [exists (d - t); rewrite swrap32_id by lia|exists next]; (split; [done|lia]). }
  destruct (IH next' Hu ltac:(lia)) as (H1 & H2 & H3). split; [lia|]. split.
  - intros Hr e [->|He]%elem_of_cons He0; [|auto]. specialize (Hd1 He0 ltac:(lia)). lia.
  - intros Hr. right. destruct (H3 Hr) as [E|(e & He & ?)].
    + exists d. split; [left|tauto].
    + exists e. split; [by right|done].
Qed.

Definition is_request (e : event) : Prop := match e with Requested _ _ _ => True | _ => False end.
Definition requested (i : Z) (l : list event) : Prop := exists us d, Requested i us d ∈ l.

(** The deadline of routine [i] after the events: a call clears it, a request
    sets it. *)
Definition deadline_step (i v : Z) (e : event) : Z :=
  match e with
  | Deferred j _ => if j =? i then 0 else v
  | Requested j _ d => if j =? i then d else v
  | _ => v
  end.
Definition deadline_after (i : Z) (l : list event) (v : Z) : Z := fold_left (deadline_step i) l v.

Lemma deadline_app i l1 l2 v : deadline_after i (l1 ++ l2) v = deadline_after i l2 (deadline_after i l1 v).
Proof. apply fold_left_app. Qed.

(** Client code only appends requests and changes only the deadlines it asks
    for. *)
Record client_step (h h' : hooks) (new : list event) : Prop := {
  cs_log : log h' = log h ++ new;
  cs_len : length (until h') = length (until h);
  cs_until : forall i, 0 <= i < Z.of_nat (length (until h)) ->
    aget (until h') i = aget (until h) i \/ requested i new;
  cs_deadline : forall i, 0 <= i < Z.of_nat (length (until h)) ->
    aget (until h') i = deadline_after i new (aget (until h) i);
  cs_now : now h <= now h';
  cs_u64 : Forall (in_range 64) (until h) -> Forall (in_range 64) (until h');
  cs_tick : last_tick h' = last_tick h;
  cs_second : last_second h' = last_second h }.

Lemma requested_app i l1 l2 : requested i (l1 ++ l2) <-> requested i l1 \/ requested i l2.
Proof. unfold requested. setoid_rewrite elem_of_app. naive_solver. Qed.

Lemma client_step_refl h : client_step h h [].
Proof. split; rewrite ?app_nil_r; auto. lia. Qed.

Lemma client_step_trans h1 h2 h3 l1 l2 :
  client_step h1 h2 l1 -> client_step h2 h3 l2 -> client_step h1 h3 (l1 ++ l2).
Proof.
  intros [A1 A2 A3 A3' An A4 A5 A6] [B1 B2 B3 B3' Bn B4 B5 B6]. split; try congruence; auto; [..|lia].
  - by rewrite B1, A1, app_assoc.
  - intros i Hi. rewrite requested_app. destruct (A3 i Hi) as [<-|]; [|tauto].
    destruct (B3 i ltac:(lia)); tauto.
  - intros i Hi. by rewrite deadline_app, <- A3', <- B3' by lia.
Qed.

Lemma act_step h a : exists new, client_step h (act h a) new /\ Forall is_request new.
Proof.
  destruct a as [us|i us]; simpl.
  - exists []. split; [|constructor]. split; simpl; rewrite ?app_nil_r; auto. lia.
  - unfold hook_call_deferred. destruct (Z.ltb_spec i 0); simpl; [exists []; split; [apply client_step_refl|constructor]|].
    destruct (Z.geb_spec i (Z.of_nat (length (until h)))); simpl;
      [exists []; split; [apply client_step_refl|constructor]|].
    set (v := if us =? -1 then 0 else _).
    exists [Requested i us v]. split; [|by repeat constructor]. split; simpl; auto; [..|lia|].
    + unfold aset. by rewrite length_insert.
    + intros j Hj. rewrite aget_aset by lia. destruct (Z.eqb_spec j i) as [->|]; [right|by left].
      exists us, v. by left.
    + intros j Hj. rewrite aget_aset by lia. rewrite (Z.eqb_sym j i). by destruct (i =? j).
    + intros Hu. apply Forall_insert; [done|]. subst v. case_match; [unfold in_range; lia|by apply wrap_range].
Qed.

Lemma acts_step l : forall h, exists new, client_step h (fold_left act l h) new /\ Forall is_request new.
Proof.
  induction l as [|a l IH]; intros h; [exists []; split; [apply client_step_refl|constructor]|].
  destruct (act_step h a) as (n1 & H1 & R1). destruct (IH (act h a)) as (n2 & H2 & R2).
  exists (n1 ++ n2). split; [by eapply client_step_trans|by apply Forall_app].
Qed.

(** The indexes of the deferred routines called, in order. *)
Definition called (l : list event) : list Z :=
  omap (fun e => match e with Deferred i _ => Some i | _ => None end) l.

Lemma called_requests l : Forall is_request l -> called l = [].
Proof. induction 1 as [|e l He _ IH]; [done|]. by destruct e. Qed.

Lemma not_in_requests reqs e : Forall is_request reqs -> ~ is_request e -> e ∉ reqs.
Proof. intros Hr He Hin. rewrite list.Forall_forall in Hr. by apply He, Hr. Qed.

Lemma called_app l1 l2 : called (l1 ++ l2) = called l1 ++ called l2.
Proof. apply omap_app. Qed.

(** Only the periodic part calls its own hook. *)
Lemma periodic_only (e e' : event) P `{!Decision P} l :
  (if decide P then exists r, l = e :: r /\ Forall is_request r else l = []) -> ~ is_request e' ->
  (e' ∈ l <-> P /\ e' = e).
Proof.
  intros H He. case_decide.
  - destruct H as (r & -> & Hr). rewrite elem_of_cons. split; [|tauto].
    intros [?|Hin]; [done|]. by destruct (not_in_requests r e' Hr He).
  - subst l. split; [by intros ?%elem_of_nil|tauto].
Qed.

Lemma called_periodic (e : event) P `{!Decision P} l :
  called [e] = [] ->
  (if decide P then exists r, l = e :: r /\ Forall is_request r else l = []) -> called l = [].
Proof.
  intros He H. case_decide; [|by subst].
  destruct H as (r & -> & Hr). change (e :: r) with ([e] ++ r). by rewrite called_app, He, called_requests.
Qed.

Section TaskProofs.
Context (tick : Z) (client : event -> hooks -> list action).
#[local] Abbreviation run := (run client).
#[local] Abbreviation call_expired := (call_expired client).

Lemma run_step e h :
  (forall i, 0 <= i < Z.of_nat (length (until h)) -> deadline_step i (aget (until h) i) e = aget (until h) i) ->
  exists reqs, client_step h (run e h) (e :: reqs) /\ Forall is_request reqs.
Proof.
  intros He. unfold Hooks.run. set (h1 := Hooks _ _ _ _ _).
  destruct (acts_step (client e h1) h1) as (reqs & Hs & Hr). exists reqs. split; [|done].
  eapply (client_step_trans h h1 _ [e]); [|done]. split; simpl; auto; [|lia]. intros i Hi. by rewrite He.
Qed.

(** Part of the expired routines' turn and what it appends to the log. *)
Record piece (t : Z) (h h' : hooks) (new : list event) : Prop := {
  pc_log : log h' = log h ++ new;
  pc_len : length (until h') = length (until h);
  pc_deadline : forall i, 0 <= i < Z.of_nat (length (until h)) ->
    aget (until h') i = deadline_after i new (aget (until h) i);
  pc_now : now h <= now h';
  pc_u64 : Forall (in_range 64) (until h) -> Forall (in_range 64) (until h');
  pc_tick : last_tick h' = last_tick h;
  pc_second : last_second h' = last_second h;
  pc_early : forall i d, Deferred i d ∈ new -> d <> 0 /\ d < t;
  pc_periodic : (Tick ∉ new) /\ (Second ∉ new);
  pc_until : forall i, 0 <= i < Z.of_nat (length (until h)) ->
    aget (until h') i = aget (until h) i \/ requested i new \/ i ∈ called new }.

Lemma piece_refl t h : piece t h h [].
Proof.
  split; rewrite ?app_nil_r; auto.
  - lia.
  - by intros ? ? ?%elem_of_nil.
  - split; apply not_elem_of_nil.
Qed.

Lemma piece_trans t h1 h2 h3 l1 l2 : piece t h1 h2 l1 -> piece t h2 h3 l2 -> piece t h1 h3 (l1 ++ l2).
Proof.
  intros [A1 A2 Ad An A3 A4 A5 A6 [A7 A7'] A8] [B1 B2 Bd Bn B3 B4 B5 B6 [B7 B7'] B8].
  split; try congruence; auto.
  - by rewrite B1, A1, app_assoc.
  - intros i Hi. by rewrite deadline_app, <- Ad, <- Bd by lia.
  - lia.
  - intros i d [H|H]%elem_of_app; eauto.
  - rewrite !not_elem_of_app. done.
  - intros i Hi. rewrite requested_app, called_app, elem_of_app.
    destruct (A8 i Hi) as [<-|]; [|tauto]. destruct (B8 i ltac:(lia)); tauto.
Qed.

Lemma call_expired_one t h i :
  0 <= i < Z.of_nat (length (until h)) ->
  exists new, piece t h (call_expired t h i) new /\
    (called new = [] \/ called new = [i]) /\
    (aget (until h) i <> 0 -> aget (until h) i < t -> Deferred i (aget (until h) i) ∈ new).
Proof.
  intros Hi. unfold Hooks.call_expired. set (d := aget (until h) i).
  unfold bool_of_Z. destruct (Z.eqb_spec d 0) as [E|E]; simpl;
    [exists []; split; [apply piece_refl|]; split; [by left|lia]|].
  destruct (Z.ltb_spec d t) as [Hlt|]; [|exists []; split; [apply piece_refl|]; split; [by left|lia]].
  set (h0 := Hooks (aset (until h) i 0) _ _ _ _).
  assert (length (until h0) = length (until h)) as Hl0 by apply length_insert.
  assert (Hu0 : forall j, 0 <= j -> aget (until h0) j = if j =? i then 0 else aget (until h) j)
    by (intros; unfold h0; cbn [until]; by rewrite aget_aset by lia).
  destruct (run_step (Deferred i d) h0) as (reqs & [S1 S2 S3 Sd Sn S4 S5 S6] & Hreq).
  { intros j Hj. cbn [deadline_step]. rewrite Hu0 by lia. rewrite (Z.eqb_sym i j). by destruct (j =? i). }
  exists (Deferred i d :: reqs). assert (called (Deferred i d :: reqs) = [i]) as Hc
    by (change (i :: called reqs = [i]); by rewrite called_requests).
  split; [|split; [by right|intros _ _; by left]]. split; auto; try congruence.
  - intros j Hj. rewrite Sd, Hu0 by lia. cbn. rewrite (Z.eqb_sym i j). by destruct (j =? i).
  - intros Hu. apply S4. by apply Forall_insert.
  - intros j e Hin. apply elem_of_cons in Hin as [Ej|H]; [injection Ej as _ ->; split; [exact E|exact Hlt]|].
    destruct (not_in_requests reqs (Deferred j e) Hreq (fun x => x) H).
  - rewrite !not_elem_of_cons. split; (split; [done|apply (not_in_requests _ _ Hreq); intros []]).
  - intros j Hj. rewrite Hc, list_elem_of_singleton. destruct (S3 j ltac:(lia)) as [->|]; [|tauto].
    rewrite Hu0 by lia. destruct (Z.eqb_spec j i); tauto.
Qed.

Lemma call_expired_run t l : forall h,
  NoDup l -> Forall (fun i => 0 <= i < Z.of_nat (length (until h))) l ->
  exists new, piece t h (fold_left (call_expired t) l h) new /\ (called new) `sublist_of` l /\
    (forall i, i ∈ l -> aget (until h) i <> 0 -> aget (until h) i < t ->
       Deferred i (aget (until h) i) ∈ new \/ requested i new).
Proof.
  induction l as [|i l IH]; intros h Hnd Hl.
  { exists []. split; [apply piece_refl|]. split; [done|]. by intros ? ?%elem_of_nil. }
  apply list.NoDup_cons in Hnd as [Hni Hnd]. apply Forall_cons_iff in Hl as [Hi Hl]. cbn [fold_left].
  destruct (call_expired_one t h i Hi) as (l1 & P1 & C1 & D1).
  destruct (IH (call_expired t h i) Hnd ltac:(by rewrite (pc_len _ _ _ _ P1))) as (l2 & P2 & C2 & D2).
  exists (l1 ++ l2). split; [by eapply piece_trans|]. rewrite called_app. split.
  - destruct C1 as [-> | ->]; simpl; [by apply sublist_cons|by apply sublist_skip].
  - intros j [->|Hj]%elem_of_cons Hd0 Hdt; rewrite elem_of_app, requested_app; [left; left; auto|].
    assert (0 <= j < Z.of_nat (length (until h))) as Hjr
      by (rewrite list.Forall_forall in Hl; by apply Hl).
    destruct (pc_until _ _ _ _ P1 j Hjr) as [E|[?|Hc]]; [|tauto|].
    + rewrite <- E in *. destruct (D2 j Hj Hd0 Hdt); tauto.
    + exfalso. destruct C1 as [C1|C1]; rewrite C1 in Hc; [by apply elem_of_nil in Hc|].
      apply list_elem_of_singleton in Hc as ->. done.
Qed.

(** A periodic hook appends one call and the requests it makes. *)
Definition periodic_piece (P : Prop) `{!Decision P} (e : event) (h h' : hooks) (l : list event) : Prop :=
  log h' = log h ++ l /\ (if decide P then exists r, l = e :: r /\ Forall is_request r else l = []) /\
  (Forall (in_range 64) (until h) -> Forall (in_range 64) (until h')) /\
  length (until h') = length (until h) /\ now h <= now h' /\
  (forall i, 0 <= i < Z.of_nat (length (until h)) -> aget (until h') i = deadline_after i l (aget (until h) i)).

Lemma tick_turn_spec t h : exists l,
  periodic_piece (u64 (t - last_tick h) >= tick) Tick h (tick_turn tick client t h) l /\
  last_second (tick_turn tick client t h) = last_second h /\
  last_tick (tick_turn tick client t h) = if decide (u64 (t - last_tick h) >= tick) then t else last_tick h.
Proof.
  unfold tick_turn, periodic_piece. destruct (Z.geb_spec (u64 (t - last_tick h)) tick).
  - destruct (run_step Tick h) as (r & S & Hr); [done|].
    exists (Tick :: r). rewrite !decide_True by lia. destruct S. split_and!; eauto.
  - exists []. rewrite !decide_False by lia. rewrite app_nil_r. split_and!; auto. lia.
Qed.

Lemma second_turn_spec t h : exists l,
  periodic_piece (u64 (t - last_second h) >= SECOND) Second h (second_turn client t h) l /\
  last_tick (second_turn client t h) = last_tick h /\
  last_second (second_turn client t h) = if decide (u64 (t - last_second h) >= SECOND) then t else last_second h.
Proof.
  unfold second_turn, periodic_piece. destruct (Z.geb_spec (u64 (t - last_second h)) SECOND).
  - destruct (run_step Second h) as (r & S & Hr); [done|].
    exists (Second :: r). rewrite !decide_True by lia. destruct S. split_and!; eauto.
  - exists []. rewrite !decide_False by lia. rewrite app_nil_r. split_and!; auto. lia.
Qed.

(** ** Properties *)

Definition armed (h : hooks) (d : Z) : Prop := d ∈ until h /\ d <> 0.

End TaskProofs.

(** [hook_notify] returns and calls every hook of the list exactly once,
    priority by priority from [HOOK_PRIO_FIRST] to [HOOK_PRIO_LAST] and in
    table order within one priority, when the priorities are within these
    bounds; one pass of its loop per distinct priority is enough. *)
Theorem hook_notify_correct hooks fuel :
  Forall (fun p => HOOK_PRIO_FIRST <= p <= HOOK_PRIO_LAST) hooks -> (length hooks < fuel)%nat ->
  exists calls, hook_notify fuel hooks = Some calls /\
    calls = concat ((fun p => filter (fun i => aget hooks i = p) (seqZ 0 (Z.of_nat (length hooks))))
                      <$> seqZ HOOK_PRIO_FIRST HOOK_PRIO_LAST) /\
    calls ≡ₚ seqZ 0 (Z.of_nat (length hooks)).
Proof.
  intros Hp Hf. exists (calls_to hooks HOOK_PRIO_LAST). split; [|split; [done|]].
  - apply (notify_loop_spec hooks Hp fuel 0); [unfold HOOK_PRIO_LAST; lia|]. lia.
  - change HOOK_PRIO_LAST with (Z.of_nat (Z.to_nat 9999)). rewrite calls_to_filter, filter_all; [done|].
    intros i Hi. rewrite list.Forall_forall in Hp. apply Hp, hook_index. eauto.
Qed.

(** A hook whose priority is below the first is never called, and the loop
    never ends. *)
Lemma notify_diverges fuel : forall last acc, 0 <= last -> notify_loop fuel [0] 0 last acc = None.
Proof.
  induction fuel as [|fuel IH]; intros last acc Hl; [done|]. cbn [notify_loop]. simpl (0 <? _).
  destruct (find_prio_spec [0] last) as [Hp _]. set (p := find_prio [0] last) in *.
  assert (p = HOOK_PRIO_LAST + 1) as Ep.
  { destruct Hp as [|[Hgt Hin%list_elem_of_singleton]]; [done|lia]. }
  rewrite Ep. change (called_at [0] (HOOK_PRIO_LAST + 1)) with (@nil Z). rewrite app_nil_r.
  apply IH. unfold HOOK_PRIO_LAST. lia.
Qed.

(** The time to the next tick fits an [int], the clock being no earlier. *)
Lemma next_tick_bound last t0 t tick :
  is_u64 last -> is_u64 t0 -> is_u64 t -> t0 <= t -> 0 < tick < 2 ^ 31 ->
  (last = t0 \/ u64 (t0 - last) < tick) ->
  let due := u64 (last + tick) in t < due -> 0 < due - t <= tick.
Proof.
  unfold in_range, wrap. change (2 ^ 64) with 18446744073709551616. change (2 ^ 31) with 2147483648.
  intros H1 H2 H3 H4 H5 [->|H6]; cbn zeta; divlia.
Qed.

(** C39. One turn of the hook task, whatever its routines do: a routine armed
    with a deadline that has passed is called in this turn, unless a routine
    of this turn re-armed or cancelled it; none is called before its
    deadline or twice, and they are called in table order; after the turn a
    routine's deadline is the one of its last request, none if it was called
    after it, and the one before the turn if neither happened; the tick and the
    second hooks run exactly when their interval has passed, which then starts
    anew; and the task never sleeps past a deadline or the next tick, and goes
    to sleep unless one of them is due.  The tick interval is shorter than
    2^31 us. *)
Theorem hook_task_turn_correct tick client dt h :
  Forall (in_range 64) (until h) -> is_u64 (last_tick h) -> is_u64 (now h) -> 0 < tick < 2 ^ 31 ->
  let '(next, h') := hook_task_turn tick client dt h in
  is_u64 (now h') ->
  exists new, log h' = log h ++ new /\
    (forall i, 0 <= i < Z.of_nat (length (until h)) -> aget (until h) i <> 0 -> aget (until h) i < now h ->
       Deferred i (aget (until h) i) ∈ new \/ requested i new) /\
    (forall i d, Deferred i d ∈ new -> d <> 0 /\ d < now h) /\
    (called new) `sublist_of` (seqZ 0 (Z.of_nat (length (until h)))) /\
    (length (until h') = length (until h) /\
     forall i, 0 <= i < Z.of_nat (length (until h)) -> aget (until h') i = deadline_after i new (aget (until h) i)) /\
    (Tick ∈ new <-> u64 (now h - last_tick h) >= tick) /\
    last_tick h' = (if decide (u64 (now h - last_tick h) >= tick) then now h else last_tick h) /\
    (Second ∈ new <-> u64 (now h - last_second h) >= SECOND) /\
    last_second h' = (if decide (u64 (now h - last_second h) >= SECOND) then now h else last_second h) /\
    (0 < next -> now h' + next <= u64 (last_tick h' + tick) /\ forall d, armed h' d -> now h' + next <= d) /\
    (next = 0 -> u64 (last_tick h' + tick) <= now h' \/ exists d, armed h' d /\ d <= now h') /\
    0 <= next <= tick.
Proof.
  intros Hu Hlt Hnow0 Htick. unfold hook_task_turn.
  destruct (call_expired_run client (now h) (seqZ 0 (Z.of_nat (length (until h)))) h) as (l1 & P & C & D);
    [apply NoDup_seqZ|apply list.Forall_forall; intros i Hi%elem_of_seqZ; lia|].
  set (h1 := fold_left _ _ h) in *.
  destruct (tick_turn_spec (tick) client (now h) h1) as (l2 & (L2 & T2 & U2 & N2 & C2 & D2) & S2 & K2).
  set (h2 := tick_turn _ _ _ h1) in *.
  destruct (second_turn_spec client (now h) h2) as (l3 & (L3 & T3 & U3 & N3 & C3 & D3) & K3 & S3).
  set (h3 := second_turn _ _ h2) in *.
  cbn [now last_tick last_second until log]. intros Hnow. exists (l1 ++ l2 ++ l3).
  pose proof (pc_tick _ _ _ _ P) as Et. pose proof (pc_second _ _ _ _ P) as Es.
  pose proof (pc_now _ _ _ _ P) as Hn1. pose proof (pc_len _ _ _ _ P) as Hlen.
  rewrite Et in T2, K2. rewrite S2, Es in T3, S3. rewrite K3, K2.
  set (prev := if decide _ then now h else last_tick h).
  set (due := u64 (prev + tick)). set (t := now h3 + Z.of_N dt) in *.
  assert (Hbound : t < due -> 0 < due - t <= tick).
  { apply (next_tick_bound prev (now h)); [by unfold prev; destruct (decide _)|done|done|lia|done|].
    unfold prev. destruct (decide _); [by left|right; lia]. }
  set (n := if due >? t then swrap 32 (u64 (due - t)) else 0).
  assert (0 <= n <= tick /\ (0 < n -> t + n = due) /\ (n = 0 -> due <= t)) as (Hnext & Hn2 & Hn3).
  { apply time_to_next; [by apply wrap_range|lia|done|lia]. }
  assert (Hin : forall e, ~ is_request e -> e ∈ l1 ++ l2 ++ l3 <->
            e ∈ l1 \/ (u64 (now h - last_tick h) >= tick /\ e = Tick) \/
            (u64 (now h - last_second h) >= SECOND /\ e = Second)).
  { intros e He. rewrite !elem_of_app. rewrite (periodic_only _ _ _ l2 T2 He), (periodic_only _ _ _ l3 T3 He). done. }
  destruct (next_loop_spec _ _ n Hnow (U3 (U2 (pc_u64 _ _ _ _ P Hu))) ltac:(lia)) as (Q1 & Q2 & Q3).
  destruct (pc_periodic _ _ _ _ P) as [Nt Ns]. split; [by rewrite L3, L2, (pc_log _ _ _ _ P), <- !app_assoc|].
  split_and!; try done; try lia.
  - intros i Hi Hd0 Hdt. destruct (D i) as [?|?]; [apply elem_of_seqZ; lia|done|done| |].
    + left. rewrite elem_of_app. by left.
    + right. rewrite requested_app. by left.
  - intros i d Hd. rewrite Hin in Hd by (by intros []). destruct Hd as [Hd|[[_ ?]|[_ ?]]]; [|done|done].
    by apply (pc_early _ _ _ _ P i).
  - by rewrite !called_app, (called_periodic Tick _ l2 eq_refl T2), (called_periodic Second _ l3 eq_refl T3), !app_nil_r.
  - intros i Hi. by rewrite !deadline_app, <- (pc_deadline _ _ _ _ P), <- D2, <- D3 by lia.
  - rewrite Hin by (by intros []). naive_solver.
  - rewrite Hin by (by intros []). naive_solver.
  - intros Hpos. split; [lia|]. intros d [Hd Hd0]. by apply Q2.
  - intros E0. destruct (Q3 E0) as [?|(d & Hd & Hd0 & Hdt)]; [left; lia|right; by exists d].
Qed.
Lemma hook_notify_correct_witness :
  exists calls, hook_notify 4 [5000; 1; 5000] = Some calls /\ calls ≡ₚ [0; 1; 2].
Proof.
  destruct (hook_notify_correct [5000; 1; 5000] 4) as (calls & H1 & _ & H2).
  - unfold HOOK_PRIO_FIRST, HOOK_PRIO_LAST. repeat constructor; lia.
  - simpl. lia.
  - exists calls. split; [exact H1|exact H2].
Defined.

Example notify_order : hook_notify 4 [5000; 1; 5000] = Some [1; 0; 2].
Proof. reflexivity. Qed.

(** A routine that re-arms itself for 50 us later. *)
Definition rearm (e : event) (_ : hooks) : list action :=
  match e with Deferred i _ => [Elapse 2%N; Defer i 50] | _ => [] end.
Definition some_hooks : hooks := Hooks [5; 0; 40] 0 0 10 [].

Lemma hook_task_turn_correct_witness :
  let '(next, h') := hook_task_turn 1000 rearm 1 some_hooks in
  next = 27 /\ until h' = [62; 0; 40] /\
  exists new, log h' = log some_hooks ++ new /\ (called new) `sublist_of` (seqZ 0 3).
Proof.
  pose proof (hook_task_turn_correct 1000 rearm 1 some_hooks ltac:(concrete_range)
    ltac:(split; vm_compute; congruence) ltac:(split; vm_compute; congruence) ltac:(lia)) as H.
  destruct (hook_task_turn 1000 rearm 1 some_hooks) as [next h'] eqn:E. vm_compute in E.
  injection E as <- <-. split; [reflexivity|]. split; [reflexivity|].
  destruct H as (new & H1 & _ & _ & H2 & _); [split; vm_compute; congruence|].
  exists new. split; [exact H1|exact H2].
Defined.

End Hooks.
