(* ===== verification/UsbPrl.v ===== *)
(** * The USB-PD protocol layer (common/usbc/usb_prl_sm.c)

    Four state machines per port move messages between the policy engine and
    the port controller: [prl_tx] sends one packet, [prl_hr] performs hard
    resets, [tch] and [rch] cut long messages into chunks and put them
    together; [prl_rx_wait_for_phy_message] takes packets from the controller.
    This file is the model of one port, for the configuration with
    CONFIG_USB_PD_REV30 and CONFIG_USB_PD_EXTENDED_MESSAGES that is not a
    VCONN-powered device; UsbPrlSafe.v, UsbPrlTx.v and
    UsbPrlChunk.v hold the theorems.

    The states have no parents, so [set_state] here is usb_sm.c's (UsbSm.v)
    for a flat machine, with the four machines' contexts in one state because
    their entry and exit functions change each other's state.  The policy
    engine and the drivers are a [Client]: any world that answers the layer's
    queries and reacts to its calls; a reaction of the policy engine may call
    back into this layer at once.  [log] records the calls made.  [None] is a
    failed ASSERT, or nesting beyond [depth]; UsbPrlSafe.v shows that neither
    happens.  Debug prints and the debug event log are left out. *)

From S2P Require Import Prelude Bytes PdTimer.
Import Bytes.

Module UsbPrl.

(** ** Constants *)

Definition PRL_FLAGS_TX_COMPLETE : Z := BIT 0.
Definition PRL_FLAGS_SINK_NG : Z := BIT 1.
Definition PRL_FLAGS_WAIT_SINK_OK : Z := BIT 2.
Definition PRL_FLAGS_TX_ERROR : Z := BIT 3.
Definition PRL_FLAGS_PE_HARD_RESET : Z := BIT 4.
Definition PRL_FLAGS_HARD_RESET_COMPLETE : Z := BIT 5.
Definition PRL_FLAGS_PORT_PARTNER_HARD_RESET : Z := BIT 6.
Definition PRL_FLAGS_MSG_XMIT : Z := BIT 7.
Definition PRL_FLAGS_MSG_RECEIVED : Z := BIT 8.
Definition PRL_FLAGS_ABORT : Z := BIT 9.
Definition PRL_FLAGS_CHUNKING : Z := BIT 10.
Definition PRL_FLAGS_IGNORE_DATA_ROLE : Z := BIT 11.

Definition PD_MESSAGE_ID_COUNT : Z := 7.
Definition CHK_BUF_SIZE : Z := 7.
Definition CHK_BUF_SIZE_BYTES : Z := 28.
Definition EXTENDED_BUFFER_SIZE : Z := 260.
Definition PD_MAX_EXTENDED_MSG_CHUNK_LEN : Z := 26.

Definition NUM_SOP_STAR_TYPES : Z := 5.
Definition TCPCI_MSG_SOP : Z := 0.
Definition TCPCI_MSG_TX_HARD_RESET : Z := 5.
Definition TCPC_TX_UNSET : Z := -1.
Definition TCPC_TX_WAIT : Z := 0.
Definition TCPC_TX_COMPLETE_SUCCESS : Z := 1.
Definition TCPC_TX_COMPLETE_DISCARDED : Z := 2.
Definition TCPC_TX_COMPLETE_FAILED : Z := 3.
Definition PD_REV30 : Z := 2.
Definition PD_REVISION : Z := PD_REV30.
Definition PD_ROLE_SOURCE : Z := 1.
Definition PD_PLUG_FROM_DFP_UFP : Z := 0.
Definition PD_CTRL_PING : Z := 5.
Definition PD_CTRL_SOFT_RESET : Z := 13.
Definition TYPEC_CC_VOLT_RP_3_0 : Z := 7.

Definition MSEC : Z := 1000.
Definition PD_T_SINK_TX : Z := 18 * MSEC.
Definition PD_T_PS_HARD_RESET : Z := 25 * MSEC.
Definition PD_T_CHUNK_SENDER_RESPONSE : Z := 25 * MSEC.
Definition PD_T_CHUNK_SENDER_REQUEST : Z := 25 * MSEC.
Definition PD_T_TCPC_TX_TIMEOUT : Z := 100 * MSEC.
Definition PR_TIMER_CHUNK_SENDER_RESPONSE : Z := PdTimer.PR_TIMER_START.
Definition PR_TIMER_CHUNK_SENDER_REQUEST : Z := PdTimer.PR_TIMER_START + 1.
Definition PR_TIMER_HARD_RESET_COMPLETE : Z := PdTimer.PR_TIMER_START + 2.
Definition PR_TIMER_SINK_TX : Z := PdTimer.PR_TIMER_START + 3.
Definition PR_TIMER_TCPC_TX_TIMEOUT : Z := PdTimer.PR_TIMER_START + 4.

(** ** Message headers (include/usb_pd.h) *)

(** src/include/usb_pd.h:1619-1621 [PD_HEADER] *)
Definition PD_HEADER (type prole drole id cnt rev ext : Z) : Z :=
  Z.lor (Z.lor (Z.lor (Z.lor (Z.lor (Z.lor type (Z.shiftl rev 6)) (Z.shiftl drole 5))
    (Z.shiftl prole 8)) (Z.shiftl id 9)) (Z.shiftl cnt 12)) (Z.shiftl ext 15).
(** src/include/usb_pd.h:1624-1624 [PD_HEADER_EXT] *)
Definition PD_HEADER_EXT (header : Z) : Z := Z.land (Z.shiftr header 15) 1.
(** src/include/usb_pd.h:1625-1625 [PD_HEADER_CNT] *)
Definition PD_HEADER_CNT (header : Z) : Z := Z.land (Z.shiftr header 12) 7.
(** src/include/usb_pd.h:1630-1630 [PD_HEADER_TYPE] *)
Definition PD_HEADER_TYPE (header : Z) : Z := Z.land header 0x1F.
(** src/include/usb_pd.h:1631-1631 [PD_HEADER_ID] *)
Definition PD_HEADER_ID (header : Z) : Z := Z.land (Z.shiftr header 9) 7.
(** src/include/usb_pd.h:1632-1632 [PD_HEADER_PROLE] *)
Definition PD_HEADER_PROLE (header : Z) : Z := Z.land (Z.shiftr header 8) 1.
(** src/include/usb_pd.h:1633-1633 [PD_HEADER_REV] *)
Definition PD_HEADER_REV (header : Z) : Z := Z.land (Z.shiftr header 6) 3.
(** src/include/usb_pd.h:1634-1634 [PD_HEADER_DROLE] *)
Definition PD_HEADER_DROLE (header : Z) : Z := Z.land (Z.shiftr header 5) 1.
(** src/include/usb_pd.h:1641-1641 [PD_HEADER_GET_SOP] *)
Definition PD_HEADER_GET_SOP (header : Z) : Z := Z.land (Z.shiftr header 28) 0xf.
(** src/include/usb_pd.h:1612-1613 [PD_EXT_HEADER] *)
Definition PD_EXT_HEADER (cnum rchk dsize : Z) : Z :=
  Z.lor (Z.lor (Z.lor (BIT 15) (Z.shiftl cnum 11)) (Z.shiftl rchk 10)) dsize.
(** src/include/usb_pd.h:1645-1645 [PD_EXT_HEADER_CHUNKED] *)
Definition PD_EXT_HEADER_CHUNKED (header : Z) : Z := Z.land (Z.shiftr header 15) 1.
(** src/include/usb_pd.h:1646-1646 [PD_EXT_HEADER_CHUNK_NUM] *)
Definition PD_EXT_HEADER_CHUNK_NUM (header : Z) : Z := Z.land (Z.shiftr header 11) 0xf.
(** src/include/usb_pd.h:1647-1647 [PD_EXT_HEADER_REQ_CHUNK] *)
Definition PD_EXT_HEADER_REQ_CHUNK (header : Z) : Z := Z.land (Z.shiftr header 10) 1.
(** src/include/usb_pd.h:1648-1648 [PD_EXT_HEADER_DATA_SIZE] *)
Definition PD_EXT_HEADER_DATA_SIZE (header : Z) : Z := Z.land header 0x1ff.
(** src/include/usb_pd.h:1651-1651 [GET_EXT_HEADER] *)
Definition GET_EXT_HEADER (msg : Z) : Z := Z.land msg 0xffff.

(** ** States *)

(** src/common/usbc/usb_prl_sm.c:204-214 [usb_prl_tx_state] *)
Inductive usb_prl_tx_state :=
| PRL_TX_PHY_LAYER_RESET
| PRL_TX_WAIT_FOR_MESSAGE_REQUEST
| PRL_TX_LAYER_RESET_FOR_TRANSMIT
| PRL_TX_WAIT_FOR_PHY_RESPONSE
| PRL_TX_SRC_SOURCE_TX
| PRL_TX_SNK_START_AMS
| PRL_TX_SRC_PENDING
| PRL_TX_SNK_PENDING
| PRL_TX_DISCARD_MESSAGE.

(** src/common/usbc/usb_prl_sm.c:217-222 [usb_prl_hr_state] *)
Inductive usb_prl_hr_state :=
| PRL_HR_WAIT_FOR_REQUEST
| PRL_HR_RESET_LAYER
| PRL_HR_WAIT_FOR_PHY_HARD_RESET_COMPLETE
| PRL_HR_WAIT_FOR_PE_HARD_RESET_COMPLETE.

(** src/common/usbc/usb_prl_sm.c:225-232 [usb_rch_state] *)
Inductive usb_rch_state :=
| RCH_WAIT_FOR_MESSAGE_FROM_PROTOCOL_LAYER
| RCH_PASS_UP_MESSAGE
| RCH_PROCESSING_EXTENDED_MESSAGE
| RCH_REQUESTING_CHUNK
| RCH_WAITING_CHUNK
| RCH_REPORT_ERROR.

(** src/common/usbc/usb_prl_sm.c:235-244 [usb_tch_state] *)
Inductive usb_tch_state :=
| TCH_WAIT_FOR_MESSAGE_REQUEST_FROM_PE
| TCH_WAIT_FOR_TRANSMISSION_COMPLETE
| TCH_CONSTRUCT_CHUNKED_MESSAGE
| TCH_SENDING_CHUNKED_MESSAGE
| TCH_WAIT_CHUNK_REQUEST
| TCH_MESSAGE_RECEIVED
| TCH_MESSAGE_SENT
| TCH_REPORT_ERROR.

(** A pointer into one of the four arrays of [usb_state]s. *)
Inductive state :=
| StTx (s : usb_prl_tx_state)
| StHr (s : usb_prl_hr_state)
| StRch (s : usb_rch_state)
| StTch (s : usb_tch_state).

#[export] Instance tx_state_eq_dec : EqDecision usb_prl_tx_state.
Proof. solve_decision. Defined.
#[export] Instance hr_state_eq_dec : EqDecision usb_prl_hr_state.
Proof. solve_decision. Defined.
#[export] Instance rch_state_eq_dec : EqDecision usb_rch_state.
Proof. solve_decision. Defined.
#[export] Instance tch_state_eq_dec : EqDecision usb_tch_state.
Proof. solve_decision. Defined.
#[export] Instance state_eq_dec : EqDecision state.
Proof. solve_decision. Defined.

(** src/include/usb_pe_sm.h:19-25 [enum pe_error] *)
Inductive pe_error :=
| ERR_RCH_CHUNKED
| ERR_RCH_MSG_REC
| ERR_RCH_CHUNK_WAIT_TIMEOUT
| ERR_TCH_CHUNKED
| ERR_TCH_XMIT.

(** src/include/usb_sm.h:53-57 [sm_local_state] *)
Inductive sm_local_state := SM_INIT | SM_RUN | SM_PAUSED.

#[export] Instance sm_local_state_eq_dec : EqDecision sm_local_state.
Proof. solve_decision. Defined.

(** ** Data

    The contexts of the flat machines; [exiting] is the source's
    [internal->exit]. *)

(** src/common/usbc/usb_sm.c:22-30 [struct internal_ctx] *)
Record sm_ctx := SmCtx {
  current : option state;
  previous : option state;
  last_entered : option state;
  running : bool;
  enter : bool;
  exiting : bool }.
Definition set_current (x : option state) (r : sm_ctx) : sm_ctx :=
  SmCtx x (previous r) (last_entered r) (running r) (enter r) (exiting r).
Definition set_previous (x : option state) (r : sm_ctx) : sm_ctx :=
  SmCtx (current r) x (last_entered r) (running r) (enter r) (exiting r).
Definition set_last_entered (x : option state) (r : sm_ctx) : sm_ctx :=
  SmCtx (current r) (previous r) x (running r) (enter r) (exiting r).
Definition set_running (x : bool) (r : sm_ctx) : sm_ctx :=
  SmCtx (current r) (previous r) (last_entered r) x (enter r) (exiting r).
Definition set_enter (x : bool) (r : sm_ctx) : sm_ctx :=
  SmCtx (current r) (previous r) (last_entered r) (running r) x (exiting r).
Definition set_exiting (x : bool) (r : sm_ctx) : sm_ctx :=
  SmCtx (current r) (previous r) (last_entered r) (running r) (enter r) x.

(** src/common/usbc/usb_prl_sm.c:298-305 [struct rx_chunked] *)
Record rx_chunked := RxChunked {
  rch_ctx : sm_ctx;
  rch_flags : Z;
  rch_error : pe_error }.
Definition set_rch_ctx (x : sm_ctx) (r : rx_chunked) : rx_chunked :=
  RxChunked x (rch_flags r) (rch_error r).
Definition set_rch_flags (x : Z) (r : rx_chunked) : rx_chunked :=
  RxChunked (rch_ctx r) x (rch_error r).
Definition set_rch_error (x : pe_error) (r : rx_chunked) : rx_chunked :=
  RxChunked (rch_ctx r) (rch_flags r) x.

(** src/common/usbc/usb_prl_sm.c:308-315 [struct tx_chunked] *)
Record tx_chunked := TxChunked {
  tch_ctx : sm_ctx;
  tch_flags : Z;
  tch_error : pe_error }.
Definition set_tch_ctx (x : sm_ctx) (r : tx_chunked) : tx_chunked :=
  TxChunked x (tch_flags r) (tch_error r).
Definition set_tch_flags (x : Z) (r : tx_chunked) : tx_chunked :=
  TxChunked (tch_ctx r) x (tch_error r).
Definition set_tch_error (x : pe_error) (r : tx_chunked) : tx_chunked :=
  TxChunked (tch_ctx r) (tch_flags r) x.

(** src/common/usbc/usb_prl_sm.c:318-323 [struct protocol_layer_rx] *)
Record protocol_layer_rx := ProtocolLayerRx {
  sop : Z;
  msg_id : list Z }.
Definition set_sop (x : Z) (r : protocol_layer_rx) : protocol_layer_rx :=
  ProtocolLayerRx x (msg_id r).
Definition set_msg_id (x : list Z) (r : protocol_layer_rx) : protocol_layer_rx :=
  ProtocolLayerRx (sop r) x.

(** src/common/usbc/usb_prl_sm.c:326-337 [struct protocol_layer_tx] *)
Record protocol_layer_tx := ProtocolLayerTx {
  tx_ctx : sm_ctx;
  tx_flags : Z;
  last_xmit_type : Z;
  msg_id_counter : list Z;
  xmit_status : Z }.
Definition set_tx_ctx (x : sm_ctx) (r : protocol_layer_tx) : protocol_layer_tx :=
  ProtocolLayerTx x (tx_flags r) (last_xmit_type r) (msg_id_counter r) (xmit_status r).
Definition set_tx_flags (x : Z) (r : protocol_layer_tx) : protocol_layer_tx :=
  ProtocolLayerTx (tx_ctx r) x (last_xmit_type r) (msg_id_counter r) (xmit_status r).
Definition set_last_xmit_type (x : Z) (r : protocol_layer_tx) : protocol_layer_tx :=
  ProtocolLayerTx (tx_ctx r) (tx_flags r) x (msg_id_counter r) (xmit_status r).
Definition set_msg_id_counter (x : list Z) (r : protocol_layer_tx) : protocol_layer_tx :=
  ProtocolLayerTx (tx_ctx r) (tx_flags r) (last_xmit_type r) x (xmit_status r).
Definition set_xmit_status (x : Z) (r : protocol_layer_tx) : protocol_layer_tx :=
  ProtocolLayerTx (tx_ctx r) (tx_flags r) (last_xmit_type r) (msg_id_counter r) x.

(** src/common/usbc/usb_prl_sm.c:340-345 [struct protocol_hard_reset] *)
Record protocol_hard_reset := ProtocolHardReset {
  hr_ctx : sm_ctx;
  hr_flags : Z }.
Definition set_hr_ctx (x : sm_ctx) (r : protocol_hard_reset) : protocol_hard_reset :=
  ProtocolHardReset x (hr_flags r).
Definition set_hr_flags (x : Z) (r : protocol_hard_reset) : protocol_hard_reset :=
  ProtocolHardReset (hr_ctx r) x.

(** src/common/usbc/usb_prl_sm.c:348-370 [struct pd_message] *)
Record pd_message := PdMessage {
  pd_flags : Z;
  xmit_type : Z;
  msg_type : Z;
  rev : list Z;
  data_objs : Z;
  tx_chk_buf : list Z;
  rx_chk_buf : list Z;
  chunk_number_expected : Z;
  num_bytes_received : Z;
  ext : Z;
  chunk_number_to_send : Z;
  send_offset : Z }.
Definition set_pd_flags (x : Z) (r : pd_message) : pd_message :=
  PdMessage x (xmit_type r) (msg_type r) (rev r) (data_objs r) (tx_chk_buf r) (rx_chk_buf r) (chunk_number_expected r) (num_bytes_received r) (ext r) (chunk_number_to_send r) (send_offset r).
Definition set_xmit_type (x : Z) (r : pd_message) : pd_message :=
  PdMessage (pd_flags r) x (msg_type r) (rev r) (data_objs r) (tx_chk_buf r) (rx_chk_buf r) (chunk_number_expected r) (num_bytes_received r) (ext r) (chunk_number_to_send r) (send_offset r).
Definition set_msg_type (x : Z) (r : pd_message) : pd_message :=
  PdMessage (pd_flags r) (xmit_type r) x (rev r) (data_objs r) (tx_chk_buf r) (rx_chk_buf r) (chunk_number_expected r) (num_bytes_received r) (ext r) (chunk_number_to_send r) (send_offset r).
Definition set_rev (x : list Z) (r : pd_message) : pd_message :=
  PdMessage (pd_flags r) (xmit_type r) (msg_type r) x (data_objs r) (tx_chk_buf r) (rx_chk_buf r) (chunk_number_expected r) (num_bytes_received r) (ext r) (chunk_number_to_send r) (send_offset r).
Definition set_data_objs (x : Z) (r : pd_message) : pd_message :=
  PdMessage (pd_flags r) (xmit_type r) (msg_type r) (rev r) x (tx_chk_buf r) (rx_chk_buf r) (chunk_number_expected r) (num_bytes_received r) (ext r) (chunk_number_to_send r) (send_offset r).
Definition set_tx_chk_buf (x : list Z) (r : pd_message) : pd_message :=
  PdMessage (pd_flags r) (xmit_type r) (msg_type r) (rev r) (data_objs r) x (rx_chk_buf r) (chunk_number_expected r) (num_bytes_received r) (ext r) (chunk_number_to_send r) (send_offset r).
Definition set_rx_chk_buf (x : list Z) (r : pd_message) : pd_message :=
  PdMessage (pd_flags r) (xmit_type r) (msg_type r) (rev r) (data_objs r) (tx_chk_buf r) x (chunk_number_expected r) (num_bytes_received r) (ext r) (chunk_number_to_send r) (send_offset r).
Definition set_chunk_number_expected (x : Z) (r : pd_message) : pd_message :=
  PdMessage (pd_flags r) (xmit_type r) (msg_type r) (rev r) (data_objs r) (tx_chk_buf r) (rx_chk_buf r) x (num_bytes_received r) (ext r) (chunk_number_to_send r) (send_offset r).
Definition set_num_bytes_received (x : Z) (r : pd_message) : pd_message :=
  PdMessage (pd_flags r) (xmit_type r) (msg_type r) (rev r) (data_objs r) (tx_chk_buf r) (rx_chk_buf r) (chunk_number_expected r) x (ext r) (chunk_number_to_send r) (send_offset r).
Definition set_ext (x : Z) (r : pd_message) : pd_message :=
  PdMessage (pd_flags r) (xmit_type r) (msg_type r) (rev r) (data_objs r) (tx_chk_buf r) (rx_chk_buf r) (chunk_number_expected r) (num_bytes_received r) x (chunk_number_to_send r) (send_offset r).
Definition set_chunk_number_to_send (x : Z) (r : pd_message) : pd_message :=
  PdMessage (pd_flags r) (xmit_type r) (msg_type r) (rev r) (data_objs r) (tx_chk_buf r) (rx_chk_buf r) (chunk_number_expected r) (num_bytes_received r) (ext r) x (send_offset r).
Definition set_send_offset (x : Z) (r : pd_message) : pd_message :=
  PdMessage (pd_flags r) (xmit_type r) (msg_type r) (rev r) (data_objs r) (tx_chk_buf r) (rx_chk_buf r) (chunk_number_expected r) (num_bytes_received r) (ext r) (chunk_number_to_send r) x.

(** src/include/usb_emsg.h:17-21 [struct extended_msg] *)
Record extended_msg := ExtendedMsg {
  header : Z;
  len : Z;
  buf : list Z }.
Definition set_header (x : Z) (r : extended_msg) : extended_msg :=
  ExtendedMsg x (len r) (buf r).
Definition set_len (x : Z) (r : extended_msg) : extended_msg :=
  ExtendedMsg (header r) x (buf r).
Definition set_buf (x : list Z) (r : extended_msg) : extended_msg :=
  ExtendedMsg (header r) (len r) x.

(** ** The client *)

(** A call that the layer makes. *)
Inductive output :=
| PeReportError (e : pe_error) (type : Z)
| PeReportDiscard
| PeGotHardReset
| PeGotSoftReset
| PeHardResetSent
| PeMessageSent
| PeMessageReceived (m : extended_msg) (type : Z)
| TcStartErrorRecovery
| TcpmTransmit (type header : Z) (data : list Z)
| TcpmSetRxEnable (enable : bool)
| TypecSelectSrcCollisionRp (ok : bool)
| TypecUpdateCc
| PdNotifyHardReset
| TaskWake
| TaskSetEventTx.

(** A call into the layer; [WriteTxEmsg] is the policy engine storing its
    message in [tx_emsg]. *)
Inductive request :=
| WriteTxEmsg (n : Z) (data : list Z)
| SendCtrlMsg (type msg : Z)
| SendDataMsg (type msg : Z)
| SendExtDataMsg (type msg : Z)
| PrlExecuteHardReset
| PdExecuteHardReset
| HardResetComplete
| ResetSoft
| SetDataRoleCheck (enable : bool)
| SetDefaultPdRevision
| SetRev (type r : Z)
| ResetMsgIds (type : Z)
| TransmitComplete (status : Z).

(** What the layer needs from the policy engine and the drivers; [calls] is
    what a call does, with the requests it makes before it returns, and
    [notify] a call that makes none.  [beyond_tx_emsg] is the memory that lies
    after [tx_emsg.buf], which the construction of a chunk can read. *)
Class Client (W : Type) := {
  get_time : W -> Z;
  pe_in_local_ams : W -> bool;
  pe_in_frs_mode : W -> bool;
  pd_get_power_role : W -> Z;
  pd_get_data_role : W -> Z;
  tc_get_cable_plug : W -> Z;
  pd_is_connected : W -> bool;
  tcpm_get_cc : W -> Z * Z;
  tcpm_has_pending_message : W -> bool;
  tcpm_dequeue_message : W -> option (list Z * Z) * W;
  notify : output -> W -> W;
  beyond_tx_emsg : W -> Z -> Z;
  calls : output -> W -> list request * W }.

(** The port, and whether the timers keep statistics. *)
Class Config := { port : Z; CONFIG_CMD_PD_TIMER : bool }.

Section Port.
Context {W : Type} `{Client W} `{Config}.

(** The static variables of one port. *)
Record prl := Prl {
  local_state : sm_local_state;
  rch : rx_chunked;
  tch : tx_chunked;
  prl_rx : protocol_layer_rx;
  prl_tx : protocol_layer_tx;
  prl_hr : protocol_hard_reset;
  pdmsg : pd_message;
  rx_emsg : extended_msg;
  tx_emsg : extended_msg;
  tcpc_tx_success_ts : Z;
  timers : PdTimer.timers;
  world : W;
  log : list output }.
Definition set_local_state (x : sm_local_state) (r : prl) : prl :=
  Prl x (rch r) (tch r) (prl_rx r) (prl_tx r) (prl_hr r) (pdmsg r) (rx_emsg r) (tx_emsg r) (tcpc_tx_success_ts r) (timers r) (world r) (log r).
Definition set_rch (x : rx_chunked) (r : prl) : prl :=
  Prl (local_state r) x (tch r) (prl_rx r) (prl_tx r) (prl_hr r) (pdmsg r) (rx_emsg r) (tx_emsg r) (tcpc_tx_success_ts r) (timers r) (world r) (log r).
Definition set_tch (x : tx_chunked) (r : prl) : prl :=
  Prl (local_state r) (rch r) x (prl_rx r) (prl_tx r) (prl_hr r) (pdmsg r) (rx_emsg r) (tx_emsg r) (tcpc_tx_success_ts r) (timers r) (world r) (log r).
Definition set_prl_rx (x : protocol_layer_rx) (r : prl) : prl :=
  Prl (local_state r) (rch r) (tch r) x (prl_tx r) (prl_hr r) (pdmsg r) (rx_emsg r) (tx_emsg r) (tcpc_tx_success_ts r) (timers r) (world r) (log r).
Definition set_prl_tx (x : protocol_layer_tx) (r : prl) : prl :=
  Prl (local_state r) (rch r) (tch r) (prl_rx r) x (prl_hr r) (pdmsg r) (rx_emsg r) (tx_emsg r) (tcpc_tx_success_ts r) (timers r) (world r) (log r).
Definition set_prl_hr (x : protocol_hard_reset) (r : prl) : prl :=
  Prl (local_state r) (rch r) (tch r) (prl_rx r) (prl_tx r) x (pdmsg r) (rx_emsg r) (tx_emsg r) (tcpc_tx_success_ts r) (timers r) (world r) (log r).
Definition set_pdmsg (x : pd_message) (r : prl) : prl :=
  Prl (local_state r) (rch r) (tch r) (prl_rx r) (prl_tx r) (prl_hr r) x (rx_emsg r) (tx_emsg r) (tcpc_tx_success_ts r) (timers r) (world r) (log r).
Definition set_rx_emsg (x : extended_msg) (r : prl) : prl :=
  Prl (local_state r) (rch r) (tch r) (prl_rx r) (prl_tx r) (prl_hr r) (pdmsg r) x (tx_emsg r) (tcpc_tx_success_ts r) (timers r) (world r) (log r).
Definition set_tx_emsg (x : extended_msg) (r : prl) : prl :=
  Prl (local_state r) (rch r) (tch r) (prl_rx r) (prl_tx r) (prl_hr r) (pdmsg r) (rx_emsg r) x (tcpc_tx_success_ts r) (timers r) (world r) (log r).
Definition set_tcpc_tx_success_ts (x : Z) (r : prl) : prl :=
  Prl (local_state r) (rch r) (tch r) (prl_rx r) (prl_tx r) (prl_hr r) (pdmsg r) (rx_emsg r) (tx_emsg r) x (timers r) (world r) (log r).
Definition set_timers (x : PdTimer.timers) (r : prl) : prl :=
  Prl (local_state r) (rch r) (tch r) (prl_rx r) (prl_tx r) (prl_hr r) (pdmsg r) (rx_emsg r) (tx_emsg r) (tcpc_tx_success_ts r) x (world r) (log r).
Definition set_world (x : W) (r : prl) : prl :=
  Prl (local_state r) (rch r) (tch r) (prl_rx r) (prl_tx r) (prl_hr r) (pdmsg r) (rx_emsg r) (tx_emsg r) (tcpc_tx_success_ts r) (timers r) x (log r).
Definition set_log (x : list output) (r : prl) : prl :=
  Prl (local_state r) (rch r) (tch r) (prl_rx r) (prl_tx r) (prl_hr r) (pdmsg r) (rx_emsg r) (tx_emsg r) (tcpc_tx_success_ts r) (timers r) (world r) x.

(** ** Access *)

Definition upd_rch (f : rx_chunked -> rx_chunked) (p : prl) : prl := set_rch (f (rch p)) p.
Definition upd_tch (f : tx_chunked -> tx_chunked) (p : prl) : prl := set_tch (f (tch p)) p.
Definition upd_rx (f : protocol_layer_rx -> protocol_layer_rx) (p : prl) : prl :=
  set_prl_rx (f (prl_rx p)) p.
Definition upd_tx (f : protocol_layer_tx -> protocol_layer_tx) (p : prl) : prl :=
  set_prl_tx (f (prl_tx p)) p.
Definition upd_hr (f : protocol_hard_reset -> protocol_hard_reset) (p : prl) : prl :=
  set_prl_hr (f (prl_hr p)) p.
Definition upd_pdmsg (f : pd_message -> pd_message) (p : prl) : prl := set_pdmsg (f (pdmsg p)) p.

(** [atomic_or], [atomic_clear_bits] and a test of some bits. *)
Definition or_bits (flag x : Z) : Z := Z.lor x flag.
Definition clear_bits (flag x : Z) : Z := Z.land x (Z.lnot flag).
Definition any_bit (flag x : Z) : bool := bool_of_Z (Z.land x flag).

(** src/common/usbc/usb_prl_sm.c:69-69 [RCH_SET_FLAG] *)
Definition RCH_SET_FLAG flag := upd_rch (fun r => set_rch_flags (or_bits flag (rch_flags r)) r).
(** src/common/usbc/usb_prl_sm.c:70-70 [RCH_CLR_FLAG] *)
Definition RCH_CLR_FLAG flag := upd_rch (fun r => set_rch_flags (clear_bits flag (rch_flags r)) r).
(** src/common/usbc/usb_prl_sm.c:71-71 [RCH_CHK_FLAG] *)
Definition RCH_CHK_FLAG flag (p : prl) : bool := any_bit flag (rch_flags (rch p)).
(** src/common/usbc/usb_prl_sm.c:73-73 [TCH_SET_FLAG] *)
Definition TCH_SET_FLAG flag := upd_tch (fun r => set_tch_flags (or_bits flag (tch_flags r)) r).
(** src/common/usbc/usb_prl_sm.c:74-74 [TCH_CLR_FLAG] *)
Definition TCH_CLR_FLAG flag := upd_tch (fun r => set_tch_flags (clear_bits flag (tch_flags r)) r).
(** src/common/usbc/usb_prl_sm.c:75-75 [TCH_CHK_FLAG] *)
Definition TCH_CHK_FLAG flag (p : prl) : bool := any_bit flag (tch_flags (tch p)).
(** src/common/usbc/usb_prl_sm.c:77-78 [PRL_TX_SET_FLAG] *)
Definition PRL_TX_SET_FLAG flag := upd_tx (fun r => set_tx_flags (or_bits flag (tx_flags r)) r).
(** src/common/usbc/usb_prl_sm.c:79-80 [PRL_TX_CLR_FLAG] *)
Definition PRL_TX_CLR_FLAG flag := upd_tx (fun r => set_tx_flags (clear_bits flag (tx_flags r)) r).
(** src/common/usbc/usb_prl_sm.c:81-81 [PRL_TX_CHK_FLAG] *)
Definition PRL_TX_CHK_FLAG flag (p : prl) : bool := any_bit flag (tx_flags (prl_tx p)).
(** src/common/usbc/usb_prl_sm.c:83-84 [PRL_HR_SET_FLAG] *)
Definition PRL_HR_SET_FLAG flag := upd_hr (fun r => set_hr_flags (or_bits flag (hr_flags r)) r).
(** src/common/usbc/usb_prl_sm.c:87-87 [PRL_HR_CHK_FLAG] *)
Definition PRL_HR_CHK_FLAG flag (p : prl) : bool := any_bit flag (hr_flags (prl_hr p)).
(** src/common/usbc/usb_prl_sm.c:89-89 [PDMSG_SET_FLAG] *)
Definition PDMSG_SET_FLAG flag := upd_pdmsg (fun r => set_pd_flags (or_bits flag (pd_flags r)) r).
(** src/common/usbc/usb_prl_sm.c:90-90 [PDMSG_CLR_FLAG] *)
Definition PDMSG_CLR_FLAG flag :=
  upd_pdmsg (fun r => set_pd_flags (clear_bits flag (pd_flags r)) r).
(** src/common/usbc/usb_prl_sm.c:91-91 [PDMSG_CHK_FLAG] *)
Definition PDMSG_CHK_FLAG flag (p : prl) : bool := any_bit flag (pd_flags (pdmsg p)).

(** The machine of a state and its context. *)
Inductive machine := MTx | MHr | MRch | MTch.
#[export] Instance machine_eq_dec : EqDecision machine.
Proof. solve_decision. Defined.
Definition machine_of (s : state) : machine :=
  match s with StTx _ => MTx | StHr _ => MHr | StRch _ => MRch | StTch _ => MTch end.
Definition ctx (m : machine) (p : prl) : sm_ctx :=
  match m with
  | MTx => tx_ctx (prl_tx p)
  | MHr => hr_ctx (prl_hr p)
  | MRch => rch_ctx (rch p)
  | MTch => tch_ctx (tch p)
  end.
Definition upd_ctx (m : machine) (f : sm_ctx -> sm_ctx) (p : prl) : prl :=
  match m with
  | MTx => upd_tx (fun r => set_tx_ctx (f (tx_ctx r)) r) p
  | MHr => upd_hr (fun r => set_hr_ctx (f (hr_ctx r)) r) p
  | MRch => upd_rch (fun r => set_rch_ctx (f (rch_ctx r)) r) p
  | MTch => upd_tch (fun r => set_tch_ctx (f (tch_ctx r)) r) p
  end.
Definition cleared : sm_ctx := SmCtx None None None false false false.

(** src/common/usbc/usb_prl_sm.c:467-470 [prl_hr_get_state] *)
Definition prl_hr_get_state (p : prl) : option state := current (ctx MHr p).
(** src/common/usbc/usb_prl_sm.c:490-493 [rch_get_state] *)
Definition rch_get_state (p : prl) : option state := current (ctx MRch p).
(** src/common/usbc/usb_prl_sm.c:512-518 [tch_get_state] *)
Definition tch_get_state (p : prl) : option state := current (ctx MTch p).
(** src/common/usbc/usb_prl_sm.c:445-448 [prl_tx_get_state] *)
Definition prl_tx_get_state (p : prl) : option state := current (ctx MTx p).

(** A call that makes no request. *)
Definition emit (o : output) (p : prl) : prl :=
  set_log (log p ++ [o]) (set_world (notify o (world p)) p).
Definition task_wake : prl -> prl := emit TaskWake.

Definition pd_timer_enable (timer us : Z) (p : prl) : prl :=
  set_timers (PdTimer.pd_timer_enable CONFIG_CMD_PD_TIMER port timer us (get_time (world p))
    (timers p)) p.
Definition pd_timer_disable (timer : Z) (p : prl) : prl :=
  set_timers (PdTimer.pd_timer_disable CONFIG_CMD_PD_TIMER port timer (timers p)) p.
Definition pd_timer_is_expired (timer : Z) (p : prl) : bool * prl :=
  let '(b, t) := PdTimer.pd_timer_is_expired CONFIG_CMD_PD_TIMER port timer (get_time (world p))
    (timers p) in (b, set_timers t p).

(** [rx_chk_buf[0]] *)
Definition rx_chk_word0 (p : prl) : Z :=
  let b i := aget (rx_chk_buf (pdmsg p)) i in
  b 0 + 2 ^ 8 * b 1 + 2 ^ 16 * b 2 + 2 ^ 24 * b 3.

(** ** Revisions and message ids *)

(** src/common/usbc/usb_prl_sm.c:702-714 [prl_set_default_pd_revision] *)
Definition prl_set_default_pd_revision : prl -> prl :=
  upd_pdmsg (fun m => set_rev (aset (aset (aset (aset (aset (rev m) 0 PD_REVISION) 1 PD_REVISION)
    2 PD_REVISION) 3 PD_REVISION) 4 PD_REVISION) m).

(** src/common/usbc/usb_prl_sm.c:793-799 [prl_set_rev] *)
Definition prl_set_rev (type r : Z) (p : prl) : option prl :=
  if type <? NUM_SOP_STAR_TYPES
  then Some (upd_pdmsg (fun m => set_rev (aset (rev m) type r) m) p) else None.

(** src/common/usbc/usb_prl_sm.c:801-807 [prl_get_rev] *)
Definition prl_get_rev (type : Z) (p : prl) : option Z :=
  if type <? NUM_SOP_STAR_TYPES then Some (aget (rev (pdmsg p)) type) else None.

(** src/common/usbc/usb_prl_sm.c:809-813 [prl_reset_msg_ids] *)
Definition prl_reset_msg_ids (type : Z) (p : prl) : prl :=
  let p := upd_tx (fun r => set_msg_id_counter (aset (msg_id_counter r) type 0) r) p in
  upd_rx (fun r => set_msg_id (aset (msg_id r) type (-1)) r) p.

(** The loop over all partners. *)
Definition reset_all_msg_ids (p : prl) : prl :=
  foldl (fun p i => prl_reset_msg_ids i p) p (seqZ 0 NUM_SOP_STAR_TYPES).

(** src/common/usbc/usb_prl_sm.c:851-858 [pdmsg_xmit_type_is_rev30] *)
Definition pdmsg_xmit_type_is_rev30 (p : prl) : bool :=
  (xmit_type (pdmsg p) <? NUM_SOP_STAR_TYPES) &&
  bool_decide (prl_get_rev (xmit_type (pdmsg p)) p = Some PD_REV30).

(** src/common/usbc/usb_prl_sm.c:861-865 [is_sop_rev30] *)
Definition is_sop_rev30 (p : prl) : bool :=
  bool_decide (prl_get_rev TCPCI_MSG_SOP p = Some PD_REV30).

(** ** Requests that change only flags and the message *)

(** src/common/usbc/usb_prl_sm.c:536-539 [set_tcpc_tx_success_ts] *)
Definition set_success_ts (p : prl) : prl := set_tcpc_tx_success_ts (get_time (world p)) p.

(** src/common/usbc/usb_prl_sm.c:541-546 [pd_transmit_complete] *)
Definition pd_transmit_complete (status : Z) (p : prl) : prl :=
  let p := if status =? TCPC_TX_COMPLETE_SUCCESS then set_success_ts p else p in
  upd_tx (set_xmit_status status) p.

(** src/common/usbc/usb_prl_sm.c:578-581 [prl_is_running] *)
Definition prl_is_running (p : prl) : bool := bool_decide (local_state p = SM_RUN).

(** src/common/usbc/usb_prl_sm.c:570-576 [prl_set_data_role_check] *)
Definition prl_set_data_role_check (enable : bool) (p : prl) : prl :=
  if enable then RCH_CLR_FLAG PRL_FLAGS_IGNORE_DATA_ROLE p
  else RCH_SET_FLAG PRL_FLAGS_IGNORE_DATA_ROLE p.

(** src/common/usbc/usb_prl_sm.c:628-637 [prl_is_busy] *)
Definition prl_is_busy (p : prl) : bool :=
  negb (bool_decide (rch_get_state p = Some (StRch RCH_WAIT_FOR_MESSAGE_FROM_PROTOCOL_LAYER))) ||
  negb (bool_decide (tch_get_state p = Some (StTch TCH_WAIT_FOR_MESSAGE_REQUEST_FROM_PE))).

(** src/common/usbc/usb_prl_sm.c:646-650 [prl_hard_reset_complete] *)
Definition prl_hard_reset_complete (p : prl) : prl :=
  task_wake (PRL_HR_SET_FLAG PRL_FLAGS_HARD_RESET_COMPLETE p).

(** src/common/usbc/usb_prl_sm.c:652-669 [prl_send_ctrl_msg] *)
Definition prl_send_ctrl_msg (type msg : Z) (p : prl) : prl :=
  let p := upd_pdmsg (fun m => set_data_objs 0 (set_msg_type (u8 msg) (set_xmit_type type m))) p in
  let p := set_tx_emsg (set_len 0 (tx_emsg p)) p in
  let p := upd_pdmsg (set_ext 0) p in
  task_wake (TCH_SET_FLAG PRL_FLAGS_MSG_XMIT p).

(** src/common/usbc/usb_prl_sm.c:671-687 [prl_send_data_msg] *)
Definition prl_send_data_msg (type msg : Z) (p : prl) : prl :=
  let p := upd_pdmsg (fun m => set_ext 0 (set_msg_type (u8 msg) (set_xmit_type type m))) p in
  task_wake (TCH_SET_FLAG PRL_FLAGS_MSG_XMIT p).

(** src/common/usbc/usb_prl_sm.c:690-699 [prl_send_ext_data_msg] *)
Definition prl_send_ext_data_msg (type msg : Z) (p : prl) : prl :=
  let p := upd_pdmsg (fun m => set_ext 1 (set_msg_type (u8 msg) (set_xmit_type type m))) p in
  task_wake (TCH_SET_FLAG PRL_FLAGS_MSG_XMIT p).

(** src/common/usbc/usb_prl_sm.c:716-723 [prl_reset_soft] *)
Definition prl_reset_soft (p : prl) : prl := task_wake (set_local_state SM_INIT p).

(** src/common/usbc/usb_prl_sm.c:815-849 [prl_copy_msg_to_buffer] *)
Definition prl_copy_msg_to_buffer (p : prl) : prl :=
  if len (tx_emsg p) =? 0 then upd_pdmsg (set_data_objs 0) p
  else
    let p := if CHK_BUF_SIZE_BYTES <? len (tx_emsg p)
             then set_tx_emsg (set_len CHK_BUF_SIZE_BYTES (tx_emsg p)) p else p in
    let n := len (tx_emsg p) in
    let p := upd_pdmsg (fun m => set_tx_chk_buf
               (bcopy (bfill (tx_chk_buf m) 0 0 CHK_BUF_SIZE_BYTES) 0
                  (bytes_at (buf (tx_emsg p)) 0 n) n) m) p in
    upd_pdmsg (set_data_objs (u16 (Z.shiftr (u32 (n + 3)) 2))) p.

(** src/common/usbc/usb_prl_sm.c:956-965 [increment_msgid_counter] *)
Definition increment_msgid_counter (p : prl) : prl :=
  let t := last_xmit_type (prl_tx p) in
  if NUM_SOP_STAR_TYPES <=? t then p
  else upd_tx (fun r => set_msg_id_counter
         (aset (msg_id_counter r) t
            (Z.land (u32 (aget (msg_id_counter r) t + 1)) PD_MESSAGE_ID_COUNT)) r) p.

(** src/common/usbc/usb_prl_sm.c:1080-1099 [get_sop_star_header] *)
Definition get_sop_star_header (p : prl) : Z :=
  let m := pdmsg p in
  let is_sop_packet := xmit_type m =? TCPCI_MSG_SOP in
  u32 (PD_HEADER (msg_type m)
    (if is_sop_packet then pd_get_power_role (world p) else tc_get_cable_plug (world p))
    (if is_sop_packet then pd_get_data_role (world p) else 0)
    (aget (msg_id_counter (prl_tx p)) (xmit_type m))
    (data_objs m) (aget (rev m) (xmit_type m)) (ext m)).

(** src/common/usbc/usb_prl_sm.c:1475-1487 [copy_chunk_to_ext] *)
Definition copy_chunk_to_ext (p : prl) : prl :=
  let n := PD_HEADER_CNT (header (rx_emsg p)) * 4 in
  let p := upd_pdmsg (set_num_bytes_received n) p in
  set_rx_emsg (set_len n (set_buf
    (bcopy (buf (rx_emsg p)) 0 (bytes_at (rx_chk_buf (pdmsg p)) 0 n) n) (rx_emsg p))) p.

(** ** Calls and transitions

    [set] is [set_state] as the functions below see it. *)

Section Calls.
Context (set : state -> prl -> option prl).

(** src/common/usbc/usb_prl_sm.c:438-442 [set_state_prl_tx] *)
Definition set_state_prl_tx (s : usb_prl_tx_state) : prl -> option prl := set (StTx s).
(** src/common/usbc/usb_prl_sm.c:460-464 [set_state_prl_hr] *)
Definition set_state_prl_hr (s : usb_prl_hr_state) : prl -> option prl := set (StHr s).
(** src/common/usbc/usb_prl_sm.c:482-486 [set_state_rch] *)
Definition set_state_rch (s : usb_rch_state) : prl -> option prl := set (StRch s).
(** src/common/usbc/usb_prl_sm.c:505-509 [set_state_tch] *)
Definition set_state_tch (s : usb_tch_state) : prl -> option prl := set (StTch s).

(** src/common/usbc/usb_prl_sm.c:559-568 [prl_execute_hard_reset] *)
Definition prl_execute_hard_reset (p : prl) : option prl :=
  if negb (prl_is_running p) then Some p
  else
    let p := PRL_HR_SET_FLAG PRL_FLAGS_PE_HARD_RESET p in
    p ← set_state_prl_hr PRL_HR_RESET_LAYER p;
    Some (task_wake p).

(** src/common/usbc/usb_prl_sm.c:548-557 [pd_execute_hard_reset] *)
Definition pd_execute_hard_reset (p : prl) : option prl :=
  if negb (prl_is_running p) then Some p
  else
    let p := PRL_HR_SET_FLAG PRL_FLAGS_PORT_PARTNER_HARD_RESET p in
    p ← set_state_prl_hr PRL_HR_RESET_LAYER p;
    Some (task_wake p).

Definition do_request (r : request) (p : prl) : option prl :=
  match r with
  | WriteTxEmsg n data =>
    Some (set_tx_emsg (set_len n (set_buf
      (bcopy (buf (tx_emsg p)) 0 data (Z.of_nat (length data))) (tx_emsg p))) p)
  | SendCtrlMsg type msg => Some (prl_send_ctrl_msg type msg p)
  | SendDataMsg type msg => Some (prl_send_data_msg type msg p)
  | SendExtDataMsg type msg => Some (prl_send_ext_data_msg type msg p)
  | PrlExecuteHardReset => prl_execute_hard_reset p
  | PdExecuteHardReset => pd_execute_hard_reset p
  | HardResetComplete => Some (prl_hard_reset_complete p)
  | ResetSoft => Some (prl_reset_soft p)
  | SetDataRoleCheck enable => Some (prl_set_data_role_check enable p)
  | SetDefaultPdRevision => Some (prl_set_default_pd_revision p)
  | SetRev type r => prl_set_rev type r p
  | ResetMsgIds type => Some (prl_reset_msg_ids type p)
  | TransmitComplete status => Some (pd_transmit_complete status p)
  end.

Fixpoint do_requests (l : list request) (p : prl) : option prl :=
  match l with
  | [] => Some p
  | r :: l => p ← do_request r p; do_requests l p
  end.

(** A call, with the requests it makes. *)
Definition call (o : output) (p : prl) : option prl :=
  let '(rs, w) := calls o (world p) in
  do_requests rs (set_log (log p ++ [o]) (set_world w p)).

(** *** Message transmission *)

(** src/common/usbc/usb_prl_sm.c:1101-1130 [prl_tx_construct_message] *)
Definition prl_tx_construct_message (p : prl) : option prl :=
  let header := if xmit_type (pdmsg p) <? NUM_SOP_STAR_TYPES then get_sop_star_header p else 0 in
  let p := upd_tx (set_last_xmit_type (xmit_type (pdmsg p))) p in
  let p := upd_tx (set_xmit_status TCPC_TX_WAIT) p in
  let p := PDMSG_CLR_FLAG PRL_FLAGS_TX_COMPLETE p in
  call (TcpmTransmit (xmit_type (pdmsg p)) (u16 header)
          (tx_chk_buf (pdmsg p))) p.

(** src/common/usbc/usb_prl_sm.c:868-880 [prl_tx_phy_layer_reset_entry] *)
Definition prl_tx_phy_layer_reset_entry (p : prl) : option prl :=
  let p := emit (TcpmSetRxEnable (pd_is_connected (world p))) p in
  set_state_prl_tx PRL_TX_WAIT_FOR_MESSAGE_REQUEST p.

(** src/common/usbc/usb_prl_sm.c:882-887 [prl_tx_wait_for_message_request_entry] *)
Definition prl_tx_wait_for_message_request_entry (p : prl) : option prl :=
  Some (upd_tx (set_xmit_status TCPC_TX_UNSET) p).

(** src/common/usbc/usb_prl_sm.c:891-901 [prl_tx_wait_for_message_request_run] *)
Definition leave_ams (p : prl) : prl :=
  if negb (pe_in_local_ams (world p)) then
    let p := if PRL_TX_CHK_FLAG PRL_FLAGS_SINK_NG p
             then emit TypecUpdateCc (emit (TypecSelectSrcCollisionRp true) p) else p in
    PRL_TX_CLR_FLAG (Z.lor PRL_FLAGS_SINK_NG PRL_FLAGS_WAIT_SINK_OK) p
  else p.

(** The message pending, a soft reset or another one. *)
(** src/common/usbc/usb_prl_sm.c:936-950 [prl_tx_wait_for_message_request_run] *)
Definition send_pending (p : prl) : option prl :=
  if (msg_type (pdmsg p) =? PD_CTRL_SOFT_RESET) && (len (tx_emsg p) =? 0)
  then set_state_prl_tx PRL_TX_LAYER_RESET_FOR_TRANSMIT p
  else p ← prl_tx_construct_message p; set_state_prl_tx PRL_TX_WAIT_FOR_PHY_RESPONSE p.

(** src/common/usbc/usb_prl_sm.c:889-954 [prl_tx_wait_for_message_request_run] *)
Definition prl_tx_wait_for_message_request_run (p : prl) : option prl :=
  let p := leave_ams p in
  if is_sop_rev30 p && pe_in_local_ams (world p) &&
     negb (PRL_TX_CHK_FLAG (Z.lor PRL_FLAGS_SINK_NG PRL_FLAGS_WAIT_SINK_OK) p)
  then
    if pd_get_power_role (world p) =? PD_ROLE_SOURCE
    then set_state_prl_tx PRL_TX_SRC_SOURCE_TX (PRL_TX_SET_FLAG PRL_FLAGS_SINK_NG p)
    else set_state_prl_tx PRL_TX_SNK_START_AMS (PRL_TX_SET_FLAG PRL_FLAGS_WAIT_SINK_OK p)
  else if PRL_TX_CHK_FLAG PRL_FLAGS_MSG_XMIT p
  then send_pending (PRL_TX_CLR_FLAG PRL_FLAGS_MSG_XMIT p)
  else Some p.

(** src/common/usbc/usb_prl_sm.c:970-1001 [prl_tx_discard_message_entry] *)
Definition prl_tx_discard_message_entry (p : prl) : option prl :=
  p ← (if PRL_TX_CHK_FLAG PRL_FLAGS_MSG_XMIT p || (xmit_status (prl_tx p) =? TCPC_TX_WAIT) ||
          (xmit_status (prl_tx p) =? TCPC_TX_COMPLETE_DISCARDED)
       then
         let p := PRL_TX_CLR_FLAG PRL_FLAGS_MSG_XMIT p in
         let p := if negb (xmit_status (prl_tx p) =? TCPC_TX_UNSET)
                  then increment_msgid_counter p else p in
         call PeReportDiscard p
       else Some p);
  set_state_prl_tx PRL_TX_PHY_LAYER_RESET p.

(** src/common/usbc/usb_prl_sm.c:1007-1014 [prl_tx_src_source_tx_entry] *)
Definition prl_tx_src_source_tx_entry (p : prl) : option prl :=
  Some (emit TypecUpdateCc (emit (TypecSelectSrcCollisionRp false) p)).

(** src/common/usbc/usb_prl_sm.c:1016-1025 [prl_tx_src_source_tx_run] *)
Definition prl_tx_src_source_tx_run (p : prl) : option prl :=
  if PRL_TX_CHK_FLAG PRL_FLAGS_MSG_XMIT p then set_state_prl_tx PRL_TX_SRC_PENDING p else Some p.

(** src/common/usbc/usb_prl_sm.c:1035-1044 [prl_tx_snk_start_ams_run] *)
Definition prl_tx_snk_start_ams_run (p : prl) : option prl :=
  if PRL_TX_CHK_FLAG PRL_FLAGS_MSG_XMIT p then set_state_prl_tx PRL_TX_SNK_PENDING p else Some p.

(** src/common/usbc/usb_prl_sm.c:1050-1071 [prl_tx_layer_reset_for_transmit_entry] *)
Definition prl_tx_layer_reset_for_transmit_entry (p : prl) : option prl :=
  if xmit_type (pdmsg p) <? NUM_SOP_STAR_TYPES
  then Some (prl_reset_msg_ids (xmit_type (pdmsg p)) p) else Some p.

(** src/common/usbc/usb_prl_sm.c:1073-1078 [prl_tx_layer_reset_for_transmit_run] *)
Definition prl_tx_layer_reset_for_transmit_run (p : prl) : option prl :=
  p ← prl_tx_construct_message p; set_state_prl_tx PRL_TX_WAIT_FOR_PHY_RESPONSE p.

(** src/common/usbc/usb_prl_sm.c:1135-1140 [prl_tx_wait_for_phy_response_entry] *)
Definition prl_tx_wait_for_phy_response_entry (p : prl) : option prl :=
  Some (pd_timer_enable PR_TIMER_TCPC_TX_TIMEOUT PD_T_TCPC_TX_TIMEOUT p).

(** src/common/usbc/usb_prl_sm.c:1142-1193 [prl_tx_wait_for_phy_response_run] *)
Definition prl_tx_wait_for_phy_response_run (p : prl) : option prl :=
  if xmit_status (prl_tx p) =? TCPC_TX_COMPLETE_SUCCESS then
    let p := increment_msgid_counter p in
    let p := PDMSG_SET_FLAG PRL_FLAGS_TX_COMPLETE p in
    set_state_prl_tx PRL_TX_WAIT_FOR_MESSAGE_REQUEST (task_wake p)
  else
    let '(expired, p) := pd_timer_is_expired PR_TIMER_TCPC_TX_TIMEOUT p in
    if expired || (xmit_status (prl_tx p) =? TCPC_TX_COMPLETE_FAILED) then
      let p := PDMSG_SET_FLAG PRL_FLAGS_TX_ERROR p in
      set_state_prl_tx PRL_TX_WAIT_FOR_MESSAGE_REQUEST (increment_msgid_counter p)
    else Some p.

(** src/common/usbc/usb_prl_sm.c:1195-1198 [prl_tx_wait_for_phy_response_exit] *)
Definition prl_tx_wait_for_phy_response_exit (p : prl) : option prl :=
  Some (pd_timer_disable PR_TIMER_TCPC_TX_TIMEOUT p).

(** src/common/usbc/usb_prl_sm.c:1204-1210 [prl_tx_src_pending_entry] *)
Definition prl_tx_src_pending_entry (p : prl) : option prl :=
  Some (pd_timer_enable PR_TIMER_SINK_TX PD_T_SINK_TX p).

(** src/common/usbc/usb_prl_sm.c:1212-1239 [prl_tx_src_pending_run] *)
Definition prl_tx_src_pending_run (p : prl) : option prl :=
  let '(expired, p) := pd_timer_is_expired PR_TIMER_SINK_TX p in
  if expired then
    let p := PRL_TX_CLR_FLAG PRL_FLAGS_MSG_XMIT p in
    if (len (tx_emsg p) =? 0) && (msg_type (pdmsg p) =? PD_CTRL_SOFT_RESET)
    then set_state_prl_tx PRL_TX_LAYER_RESET_FOR_TRANSMIT p
    else p ← prl_tx_construct_message p; set_state_prl_tx PRL_TX_WAIT_FOR_PHY_RESPONSE p
  else Some p.

(** src/common/usbc/usb_prl_sm.c:1241-1244 [prl_tx_src_pending_exit] *)
Definition prl_tx_src_pending_exit (p : prl) : option prl :=
  Some (pd_timer_disable PR_TIMER_SINK_TX p).

(** src/common/usbc/usb_prl_sm.c:1254-1299 [prl_tx_snk_pending_run] *)
Definition prl_tx_snk_pending_run (p : prl) : option prl :=
  let start_tx :=
    if pe_in_frs_mode (world p) then true
    else let '(cc1, cc2) := tcpm_get_cc (world p) in
         (cc1 =? TYPEC_CC_VOLT_RP_3_0) || (cc2 =? TYPEC_CC_VOLT_RP_3_0) in
  if start_tx then send_pending (PRL_TX_CLR_FLAG PRL_FLAGS_MSG_XMIT p) else Some p.

(** *** Hard reset *)

(** src/common/usbc/usb_prl_sm.c:1302-1320 [prl_hr_send_msg_to_phy] *)
Definition prl_hr_send_msg_to_phy (p : prl) : option prl :=
  let p := upd_pdmsg (set_xmit_type TCPCI_MSG_TX_HARD_RESET) p in
  let p := upd_tx (set_xmit_status TCPC_TX_UNSET) p in
  let p := PDMSG_CLR_FLAG PRL_FLAGS_TX_COMPLETE p in
  call (TcpmTransmit (xmit_type (pdmsg p)) 0
          (tx_chk_buf (pdmsg p))) p.

(** src/common/usbc/usb_prl_sm.c:1322-1327 [prl_hr_wait_for_request_entry] *)
Definition prl_hr_wait_for_request_entry (p : prl) : option prl := Some (upd_hr (set_hr_flags 0) p).

(** src/common/usbc/usb_prl_sm.c:1329-1334 [prl_hr_wait_for_request_run] *)
Definition prl_hr_wait_for_request_run (p : prl) : option prl :=
  if PRL_HR_CHK_FLAG (Z.lor PRL_FLAGS_PE_HARD_RESET PRL_FLAGS_PORT_PARTNER_HARD_RESET) p
  then set_state_prl_hr PRL_HR_RESET_LAYER p else Some p.

(** src/common/usbc/usb_prl_sm.c:1339-1386 [prl_hr_reset_layer_entry] *)
Definition prl_hr_reset_layer_entry (p : prl) : option prl :=
  let p := upd_rch (set_rch_flags 0) (upd_tch (set_tch_flags 0) p) in
  let p := upd_pdmsg (set_pd_flags 0) p in
  let p := reset_all_msg_ids p in
  let p := emit (TcpmSetRxEnable false) p in
  let p := prl_set_default_pd_revision p in
  let p := emit PdNotifyHardReset p in
  set_state_prl_tx PRL_TX_WAIT_FOR_MESSAGE_REQUEST p.

(** src/common/usbc/usb_prl_sm.c:1388-1411 [prl_hr_reset_layer_run] *)
Definition prl_hr_reset_layer_run (p : prl) : option prl :=
  if PRL_HR_CHK_FLAG PRL_FLAGS_PE_HARD_RESET p then
    p ← prl_hr_send_msg_to_phy p;
    set_state_prl_hr PRL_HR_WAIT_FOR_PHY_HARD_RESET_COMPLETE p
  else
    p ← call PeGotHardReset p;
    set_state_prl_hr PRL_HR_WAIT_FOR_PE_HARD_RESET_COMPLETE p.

(** src/common/usbc/usb_prl_sm.c:1416-1422 [prl_hr_wait_for_phy_hard_reset_complete_entry] *)
Definition prl_hr_wait_for_phy_hard_reset_complete_entry (p : prl) : option prl :=
  Some (pd_timer_enable PR_TIMER_HARD_RESET_COMPLETE PD_T_PS_HARD_RESET p).

(** src/common/usbc/usb_prl_sm.c:1424-1440 [prl_hr_wait_for_phy_hard_reset_complete_run] *)
Definition prl_hr_wait_for_phy_hard_reset_complete_run (p : prl) : option prl :=
  let '(done, p) :=
    if PDMSG_CHK_FLAG PRL_FLAGS_TX_COMPLETE p then (true, p)
    else pd_timer_is_expired PR_TIMER_HARD_RESET_COMPLETE p in
  if done : bool then
    p ← call PeHardResetSent p;
    set_state_prl_hr PRL_HR_WAIT_FOR_PE_HARD_RESET_COMPLETE p
  else Some p.

(** src/common/usbc/usb_prl_sm.c:1442-1445 [prl_hr_wait_for_phy_hard_reset_complete_exit] *)
Definition prl_hr_wait_for_phy_hard_reset_complete_exit (p : prl) : option prl :=
  Some (pd_timer_disable PR_TIMER_HARD_RESET_COMPLETE p).

(** src/common/usbc/usb_prl_sm.c:1455-1462 [prl_hr_wait_for_pe_hard_reset_complete_run] *)
Definition prl_hr_wait_for_pe_hard_reset_complete_run (p : prl) : option prl :=
  if PRL_HR_CHK_FLAG PRL_FLAGS_HARD_RESET_COMPLETE p
  then set_state_prl_hr PRL_HR_WAIT_FOR_REQUEST p else Some p.

(** src/common/usbc/usb_prl_sm.c:1464-1473 [prl_hr_wait_for_pe_hard_reset_complete_exit] *)
Definition prl_hr_wait_for_pe_hard_reset_complete_exit (p : prl) : option prl :=
  p ← set_state_prl_tx PRL_TX_PHY_LAYER_RESET p;
  p ← set_state_rch RCH_WAIT_FOR_MESSAGE_FROM_PROTOCOL_LAYER p;
  set_state_tch TCH_WAIT_FOR_MESSAGE_REQUEST_FROM_PE p.

(** *** Chunked reception *)

(** src/common/usbc/usb_prl_sm.c:1496-1505 [rch_wait_for_message_from_protocol_layer_entry] *)
Definition rch_wait_for_message_from_protocol_layer_entry (p : prl) : option prl :=
  Some (upd_rch (set_rch_flags PRL_FLAGS_CHUNKING) (PDMSG_CLR_FLAG PRL_FLAGS_ABORT p)).

Definition rch_fail (e : pe_error) (p : prl) : option prl :=
  set_state_rch RCH_REPORT_ERROR (upd_rch (set_rch_error e) p).

(** src/common/usbc/usb_prl_sm.c:1507-1578 [rch_wait_for_message_from_protocol_layer_run] *)
Definition rch_wait_for_message_from_protocol_layer_run (p : prl) : option prl :=
  if RCH_CHK_FLAG PRL_FLAGS_MSG_RECEIVED p then
    let p := RCH_CLR_FLAG PRL_FLAGS_MSG_RECEIVED p in
    let ext := bool_of_Z (PD_HEADER_EXT (header (rx_emsg p))) in
    if pdmsg_xmit_type_is_rev30 p && ext then
      let chunked := bool_of_Z (PD_EXT_HEADER_CHUNKED (GET_EXT_HEADER (rx_chk_word0 p))) in
      if RCH_CHK_FLAG PRL_FLAGS_CHUNKING p && chunked then
        let t := PD_HEADER_TYPE (header (rx_emsg p)) in
        let p := upd_pdmsg (fun m => set_msg_type t (set_num_bytes_received 0
                   (set_chunk_number_expected 0 m))) p in
        set_state_rch RCH_PROCESSING_EXTENDED_MESSAGE p
      else if negb (RCH_CHK_FLAG PRL_FLAGS_CHUNKING p) && negb chunked
      then set_state_rch RCH_PASS_UP_MESSAGE (copy_chunk_to_ext p)
      else rch_fail ERR_RCH_CHUNKED p
    else if negb ext then set_state_rch RCH_PASS_UP_MESSAGE (copy_chunk_to_ext p)
    else rch_fail ERR_RCH_CHUNKED p
  else Some p.

(** [pe_message_received], which reads [rx_emsg] and [prl_rx.sop]. *)
Definition pe_message_received (p : prl) : option prl :=
  call (PeMessageReceived (rx_emsg p) (sop (prl_rx p))) p.

(** src/common/usbc/usb_prl_sm.c:1583-1590 [rch_pass_up_message_entry] *)
Definition rch_pass_up_message_entry (p : prl) : option prl :=
  p ← pe_message_received p; set_state_rch RCH_WAIT_FOR_MESSAGE_FROM_PROTOCOL_LAYER p.

(** src/common/usbc/usb_prl_sm.c:1633-1641 [rch_processing_extended_message_run] *)
Definition append_chunk (byte_num : Z) (p : prl) : prl :=
  let data := bytes_at (rx_chk_buf (pdmsg p)) 2 byte_num in
  let p := set_rx_emsg (set_buf
             (bcopy (buf (rx_emsg p)) (num_bytes_received (pdmsg p)) data byte_num) (rx_emsg p)) p in
  upd_pdmsg (fun m => set_num_bytes_received (u32 (num_bytes_received m + byte_num))
    (set_chunk_number_expected (u32 (chunk_number_expected m + 1)) m)) p.

(** src/common/usbc/usb_prl_sm.c:1600-1662 [rch_processing_extended_message_run] *)
Definition rch_processing_extended_message_run (p : prl) : option prl :=
  let exhdr := GET_EXT_HEADER (rx_chk_word0 p) in
  let chunk_num := PD_EXT_HEADER_CHUNK_NUM exhdr in
  let data_size := PD_EXT_HEADER_DATA_SIZE exhdr in
  if PDMSG_CHK_FLAG PRL_FLAGS_ABORT p
  then set_state_rch RCH_WAIT_FOR_MESSAGE_FROM_PROTOCOL_LAYER p
  else if chunk_num =? chunk_number_expected (pdmsg p) then
    let received := num_bytes_received (pdmsg p) in
    let byte_num := u32 (data_size - received) in
    let byte_num := if PD_MAX_EXTENDED_MSG_CHUNK_LEN <=? byte_num
                    then PD_MAX_EXTENDED_MSG_CHUNK_LEN else byte_num in
    if EXTENDED_BUFFER_SIZE <? u32 (received + byte_num) then rch_fail ERR_RCH_CHUNKED p
    else
      let p := append_chunk byte_num p in
      if data_size <=? num_bytes_received (pdmsg p) then
        let p := set_rx_emsg (set_len (num_bytes_received (pdmsg p)) (rx_emsg p)) p in
        set_state_rch RCH_PASS_UP_MESSAGE p
      else set_state_rch RCH_REQUESTING_CHUNK p
  else rch_fail ERR_RCH_CHUNKED p.

(** src/common/usbc/usb_prl_sm.c:1667-1686 [rch_requesting_chunk_entry] *)
Definition rch_requesting_chunk_entry (p : prl) : option prl :=
  let req := u32 (PD_EXT_HEADER (chunk_number_expected (pdmsg p)) 1 0) in
  let p := upd_pdmsg (fun m => set_xmit_type (sop (prl_rx p)) (set_ext 1 (set_data_objs 1
             (set_tx_chk_buf (bcopy (tx_chk_buf m) 0 (le_bytes 4 req) 4) m)))) p in
  Some (emit TaskSetEventTx (PRL_TX_SET_FLAG PRL_FLAGS_MSG_XMIT p)).

(** src/common/usbc/usb_prl_sm.c:1688-1711 [rch_requesting_chunk_run] *)
Definition rch_requesting_chunk_run (p : prl) : option prl :=
  if PDMSG_CHK_FLAG PRL_FLAGS_TX_COMPLETE p
  then set_state_rch RCH_WAITING_CHUNK (PDMSG_CLR_FLAG PRL_FLAGS_TX_COMPLETE p)
  else if PDMSG_CHK_FLAG PRL_FLAGS_TX_ERROR p then rch_fail ERR_RCH_CHUNKED p
  else if RCH_CHK_FLAG PRL_FLAGS_MSG_RECEIVED p then set_state_rch RCH_WAITING_CHUNK p
  else Some p.

(** src/common/usbc/usb_prl_sm.c:1716-1725 [rch_waiting_chunk_entry] *)
Definition rch_waiting_chunk_entry (p : prl) : option prl :=
  Some (pd_timer_enable PR_TIMER_CHUNK_SENDER_RESPONSE PD_T_CHUNK_SENDER_RESPONSE p).

(** src/common/usbc/usb_prl_sm.c:1727-1778 [rch_waiting_chunk_run] *)
Definition rch_waiting_chunk_run (p : prl) : option prl :=
  if RCH_CHK_FLAG PRL_FLAGS_MSG_RECEIVED p then
    let p := if PDMSG_CHK_FLAG PRL_FLAGS_TX_COMPLETE p
             then PDMSG_CLR_FLAG PRL_FLAGS_TX_COMPLETE p else p in
    if bool_of_Z (PD_HEADER_EXT (header (rx_emsg p))) then
      let exhdr := GET_EXT_HEADER (rx_chk_word0 p) in
      if bool_of_Z (PD_EXT_HEADER_REQ_CHUNK exhdr) || negb (bool_of_Z (PD_EXT_HEADER_CHUNKED exhdr))
      then rch_fail ERR_RCH_CHUNKED p
      else set_state_rch RCH_PROCESSING_EXTENDED_MESSAGE (RCH_CLR_FLAG PRL_FLAGS_MSG_RECEIVED p)
    else Some p
  else
    let '(expired, p) := pd_timer_is_expired PR_TIMER_CHUNK_SENDER_RESPONSE p in
    if expired then rch_fail ERR_RCH_CHUNK_WAIT_TIMEOUT p else Some p.

(** src/common/usbc/usb_prl_sm.c:1780-1783 [rch_waiting_chunk_exit] *)
Definition rch_waiting_chunk_exit (p : prl) : option prl :=
  Some (pd_timer_disable PR_TIMER_CHUNK_SENDER_RESPONSE p).

(** src/common/usbc/usb_prl_sm.c:1788-1808 [rch_report_error_entry] *)
Definition rch_report_error_entry (p : prl) : option prl :=
  if RCH_CHK_FLAG PRL_FLAGS_MSG_RECEIVED p then
    let p := RCH_CLR_FLAG PRL_FLAGS_MSG_RECEIVED p in
    p ← pe_message_received (copy_chunk_to_ext p);
    call (PeReportError ERR_RCH_MSG_REC (sop (prl_rx p))) p
  else call (PeReportError (rch_error (rch p)) (sop (prl_rx p))) p.

(** src/common/usbc/usb_prl_sm.c:1810-1813 [rch_report_error_run] *)
Definition rch_report_error_run (p : prl) : option prl :=
  set_state_rch RCH_WAIT_FOR_MESSAGE_FROM_PROTOCOL_LAYER p.

(** *** Chunked transmission *)

Definition tch_fail (e : pe_error) (p : prl) : option prl :=
  set_state_tch TCH_REPORT_ERROR (upd_tch (set_tch_error e) p).
Definition tch_received (p : prl) : option prl :=
  set_state_tch TCH_MESSAGE_RECEIVED (TCH_CLR_FLAG PRL_FLAGS_MSG_RECEIVED p).

(** src/common/usbc/usb_prl_sm.c:1822-1831 [tch_wait_for_message_request_from_pe_entry] *)
Definition tch_wait_for_message_request_from_pe_entry (p : prl) : option prl :=
  Some (TCH_SET_FLAG PRL_FLAGS_CHUNKING (PDMSG_CLR_FLAG PRL_FLAGS_ABORT p)).

(** src/common/usbc/usb_prl_sm.c:1833-1883 [tch_wait_for_message_request_from_pe_run] *)
Definition tch_wait_for_message_request_from_pe_run (p : prl) : option prl :=
  if TCH_CHK_FLAG PRL_FLAGS_MSG_RECEIVED p then tch_received p
  else if TCH_CHK_FLAG PRL_FLAGS_MSG_XMIT p then
    let p := TCH_CLR_FLAG PRL_FLAGS_MSG_XMIT p in
    if negb (bool_decide (rch_get_state p = Some (StRch RCH_WAIT_FOR_MESSAGE_FROM_PROTOCOL_LAYER)))
    then tch_fail ERR_TCH_XMIT p
    else if pdmsg_xmit_type_is_rev30 p && bool_of_Z (ext (pdmsg p)) &&
            TCH_CHK_FLAG PRL_FLAGS_CHUNKING p then
      let p := upd_pdmsg (fun m => set_chunk_number_to_send 0 (set_send_offset 0 m)) p in
      set_state_tch TCH_CONSTRUCT_CHUNKED_MESSAGE p
    else
      let p := prl_copy_msg_to_buffer p in
      set_state_tch TCH_WAIT_FOR_TRANSMISSION_COMPLETE (PRL_TX_SET_FLAG PRL_FLAGS_MSG_XMIT p)
  else Some p.

(** src/common/usbc/usb_prl_sm.c:1893-1928 [tch_wait_for_transmission_complete_run] *)
Definition tch_wait_for_transmission_complete_run (p : prl) : option prl :=
  if PDMSG_CHK_FLAG PRL_FLAGS_TX_COMPLETE p
  then set_state_tch TCH_MESSAGE_SENT (PDMSG_CLR_FLAG PRL_FLAGS_TX_COMPLETE p)
  else if PDMSG_CHK_FLAG PRL_FLAGS_TX_ERROR p
  then tch_fail ERR_TCH_XMIT (PDMSG_CLR_FLAG PRL_FLAGS_TX_ERROR p)
  else if TCH_CHK_FLAG PRL_FLAGS_MSG_RECEIVED p &&
          negb (xmit_status (prl_tx p) =? TCPC_TX_COMPLETE_SUCCESS)
  then tch_received p
  else Some p.

(** [n] bytes of the message to send, from [off]; past the end of the buffer,
    whatever memory holds there. *)
(** src/common/usbc/usb_prl_sm.c:1967-1967 [tch_construct_chunked_message_entry] *)
Definition tx_emsg_bytes (p : prl) (off n : Z) : list Z :=
  (fun i => if off + i <? EXTENDED_BUFFER_SIZE then aget (buf (tx_emsg p)) (off + i)
            else beyond_tx_emsg (world p) (off + i)) <$> seqZ 0 n.

(** The next chunk, put together in the transmit buffer; the [memset] of 28
    bytes runs two bytes past it, into the receive buffer that follows it in
    the structure. *)
(** src/common/usbc/usb_prl_sm.c:1950-1978 [tch_construct_chunked_message_entry] *)
Definition construct_chunk (p : prl) : prl :=
  let m := pdmsg p in
  let num := u16 (len (tx_emsg p) - send_offset m) in
  let num := if PD_MAX_EXTENDED_MSG_CHUNK_LEN <? num then PD_MAX_EXTENDED_MSG_CHUNK_LEN else num in
  let ext_hdr := u16 (PD_EXT_HEADER (chunk_number_to_send m) 0 (len (tx_emsg p))) in
  let tx := bcopy (tx_chk_buf m) 0 (le_bytes 2 ext_hdr) 2 in
  let tx := bfill tx 2 0 (CHK_BUF_SIZE_BYTES - 2) in
  let rx := bfill (rx_chk_buf m) 0 0 (28 - (CHK_BUF_SIZE_BYTES - 2)) in
  let tx := bcopy tx 2 (tx_emsg_bytes p (send_offset m) num) num in
  upd_pdmsg (fun m => set_data_objs (Z.shiftr (num + 2 + 3) 2)
    (set_send_offset (u32 (send_offset m + num)) (set_rx_chk_buf rx (set_tx_chk_buf tx m)))) p.

(** src/common/usbc/usb_prl_sm.c:1933-1982 [tch_construct_chunked_message_entry] *)
Definition tch_construct_chunked_message_entry (p : prl) : option prl :=
  if TCH_CHK_FLAG PRL_FLAGS_MSG_RECEIVED p then tch_received p
  else Some (PRL_TX_SET_FLAG PRL_FLAGS_MSG_XMIT (construct_chunk p)).

(** src/common/usbc/usb_prl_sm.c:1984-1990 [tch_construct_chunked_message_run] *)
Definition tch_construct_chunked_message_run (p : prl) : option prl :=
  if PDMSG_CHK_FLAG PRL_FLAGS_ABORT p then set_state_tch TCH_WAIT_FOR_MESSAGE_REQUEST_FROM_PE p
  else set_state_tch TCH_SENDING_CHUNKED_MESSAGE p.

(** src/common/usbc/usb_prl_sm.c:2000-2033 [tch_sending_chunked_message_run] *)
Definition tch_sending_chunked_message_run (p : prl) : option prl :=
  if PDMSG_CHK_FLAG PRL_FLAGS_TX_ERROR p then tch_fail ERR_TCH_XMIT p
  else if (len (tx_emsg p) =? send_offset (pdmsg p)) && PDMSG_CHK_FLAG PRL_FLAGS_TX_COMPLETE p
  then set_state_tch TCH_MESSAGE_SENT (PDMSG_CLR_FLAG PRL_FLAGS_TX_COMPLETE p)
  else if TCH_CHK_FLAG PRL_FLAGS_MSG_RECEIVED p then tch_received p
  else if (send_offset (pdmsg p) <? len (tx_emsg p)) && PDMSG_CHK_FLAG PRL_FLAGS_TX_COMPLETE p
  then set_state_tch TCH_WAIT_CHUNK_REQUEST (PDMSG_CLR_FLAG PRL_FLAGS_TX_COMPLETE p)
  else Some p.

(** src/common/usbc/usb_prl_sm.c:2038-2047 [tch_wait_chunk_request_entry] *)
Definition tch_wait_chunk_request_entry (p : prl) : option prl :=
  let p := upd_pdmsg (fun m => set_chunk_number_to_send (u32 (chunk_number_to_send m + 1)) m) p in
  Some (pd_timer_enable PR_TIMER_CHUNK_SENDER_REQUEST PD_T_CHUNK_SENDER_REQUEST p).

(** src/common/usbc/usb_prl_sm.c:2049-2091 [tch_wait_chunk_request_run] *)
Definition tch_wait_chunk_request_run (p : prl) : option prl :=
  if TCH_CHK_FLAG PRL_FLAGS_MSG_RECEIVED p then
    let p := TCH_CLR_FLAG PRL_FLAGS_MSG_RECEIVED p in
    let exthdr := GET_EXT_HEADER (rx_chk_word0 p) in
    if bool_of_Z (PD_HEADER_EXT (header (rx_emsg p))) && bool_of_Z (PD_EXT_HEADER_REQ_CHUNK exthdr)
    then
      if PD_EXT_HEADER_CHUNK_NUM exthdr =? chunk_number_to_send (pdmsg p)
      then set_state_tch TCH_CONSTRUCT_CHUNKED_MESSAGE p
      else tch_fail ERR_TCH_CHUNKED p
    else set_state_tch TCH_MESSAGE_RECEIVED p
  else
    let '(expired, p) := pd_timer_is_expired PR_TIMER_CHUNK_SENDER_REQUEST p in
    if expired then set_state_tch TCH_MESSAGE_SENT p else Some p.

(** src/common/usbc/usb_prl_sm.c:2093-2096 [tch_wait_chunk_request_exit] *)
Definition tch_wait_chunk_request_exit (p : prl) : option prl :=
  Some (pd_timer_disable PR_TIMER_CHUNK_SENDER_REQUEST p).

(** src/common/usbc/usb_prl_sm.c:2101-2114 [tch_message_received_entry] *)
Definition tch_message_received_entry (p : prl) : option prl :=
  let p := RCH_SET_FLAG PRL_FLAGS_MSG_RECEIVED p in
  p ← (if TCH_CHK_FLAG PRL_FLAGS_MSG_XMIT p
       then call PeReportDiscard (TCH_CLR_FLAG PRL_FLAGS_MSG_XMIT p) else Some p);
  Some (upd_pdmsg (set_data_objs 0) p).

(** src/common/usbc/usb_prl_sm.c:2116-2119 [tch_message_received_run] *)
Definition tch_message_received_run (p : prl) : option prl :=
  set_state_tch TCH_WAIT_FOR_MESSAGE_REQUEST_FROM_PE p.

(** src/common/usbc/usb_prl_sm.c:2131-2141 [tch_message_sent_entry] *)
Definition tch_leave (p : prl) : option prl :=
  if TCH_CHK_FLAG PRL_FLAGS_MSG_RECEIVED p then tch_received p
  else set_state_tch TCH_WAIT_FOR_MESSAGE_REQUEST_FROM_PE p.

(** src/common/usbc/usb_prl_sm.c:2124-2142 [tch_message_sent_entry] *)
Definition tch_message_sent_entry (p : prl) : option prl :=
  p ← call PeMessageSent p; tch_leave p.

(** src/common/usbc/usb_prl_sm.c:2147-2165 [tch_report_error_entry] *)
Definition tch_report_error_entry (p : prl) : option prl :=
  p ← call (PeReportError (tch_error (tch p)) (last_xmit_type (prl_tx p))) p; tch_leave p.

(** *** The tables *)

(** src/common/usbc/usb_prl_sm.c:2345-2473 [prl_tx_states] *)
Definition entry (s : state) : prl -> option prl :=
  match s with
  | StTx PRL_TX_PHY_LAYER_RESET => prl_tx_phy_layer_reset_entry
  | StTx PRL_TX_WAIT_FOR_MESSAGE_REQUEST => prl_tx_wait_for_message_request_entry
  | StTx PRL_TX_LAYER_RESET_FOR_TRANSMIT => prl_tx_layer_reset_for_transmit_entry
  | StTx PRL_TX_WAIT_FOR_PHY_RESPONSE => prl_tx_wait_for_phy_response_entry
  | StTx PRL_TX_SRC_SOURCE_TX => prl_tx_src_source_tx_entry
  | StTx PRL_TX_SRC_PENDING => prl_tx_src_pending_entry
  | StTx PRL_TX_DISCARD_MESSAGE => prl_tx_discard_message_entry
  | StHr PRL_HR_WAIT_FOR_REQUEST => prl_hr_wait_for_request_entry
  | StHr PRL_HR_RESET_LAYER => prl_hr_reset_layer_entry
  | StHr PRL_HR_WAIT_FOR_PHY_HARD_RESET_COMPLETE => prl_hr_wait_for_phy_hard_reset_complete_entry
  | StRch RCH_WAIT_FOR_MESSAGE_FROM_PROTOCOL_LAYER =>
    rch_wait_for_message_from_protocol_layer_entry
  | StRch RCH_PASS_UP_MESSAGE => rch_pass_up_message_entry
  | StRch RCH_REQUESTING_CHUNK => rch_requesting_chunk_entry
  | StRch RCH_WAITING_CHUNK => rch_waiting_chunk_entry
  | StRch RCH_REPORT_ERROR => rch_report_error_entry
  | StTch TCH_WAIT_FOR_MESSAGE_REQUEST_FROM_PE => tch_wait_for_message_request_from_pe_entry
  | StTch TCH_CONSTRUCT_CHUNKED_MESSAGE => tch_construct_chunked_message_entry
  | StTch TCH_WAIT_CHUNK_REQUEST => tch_wait_chunk_request_entry
  | StTch TCH_MESSAGE_RECEIVED => tch_message_received_entry
  | StTch TCH_MESSAGE_SENT => tch_message_sent_entry
  | StTch TCH_REPORT_ERROR => tch_report_error_entry
  | _ => Some
  end.

(** src/common/usbc/usb_prl_sm.c:2345-2473 [prl_tx_states] *)
Definition exit (s : state) : prl -> option prl :=
  match s with
  | StTx PRL_TX_WAIT_FOR_PHY_RESPONSE => prl_tx_wait_for_phy_response_exit
  | StTx PRL_TX_SRC_PENDING => prl_tx_src_pending_exit
  | StHr PRL_HR_WAIT_FOR_PHY_HARD_RESET_COMPLETE => prl_hr_wait_for_phy_hard_reset_complete_exit
  | StHr PRL_HR_WAIT_FOR_PE_HARD_RESET_COMPLETE => prl_hr_wait_for_pe_hard_reset_complete_exit
  | StRch RCH_WAITING_CHUNK => rch_waiting_chunk_exit
  | StTch TCH_WAIT_CHUNK_REQUEST => tch_wait_chunk_request_exit
  | _ => Some
  end.

(** src/common/usbc/usb_prl_sm.c:2345-2473 [prl_tx_states] *)
Definition run (s : state) : prl -> option prl :=
  match s with
  | StTx PRL_TX_WAIT_FOR_MESSAGE_REQUEST => prl_tx_wait_for_message_request_run
  | StTx PRL_TX_LAYER_RESET_FOR_TRANSMIT => prl_tx_layer_reset_for_transmit_run
  | StTx PRL_TX_WAIT_FOR_PHY_RESPONSE => prl_tx_wait_for_phy_response_run
  | StTx PRL_TX_SRC_SOURCE_TX => prl_tx_src_source_tx_run
  | StTx PRL_TX_SNK_START_AMS => prl_tx_snk_start_ams_run
  | StTx PRL_TX_SRC_PENDING => prl_tx_src_pending_run
  | StTx PRL_TX_SNK_PENDING => prl_tx_snk_pending_run
  | StHr PRL_HR_WAIT_FOR_REQUEST => prl_hr_wait_for_request_run
  | StHr PRL_HR_RESET_LAYER => prl_hr_reset_layer_run
  | StHr PRL_HR_WAIT_FOR_PHY_HARD_RESET_COMPLETE => prl_hr_wait_for_phy_hard_reset_complete_run
  | StHr PRL_HR_WAIT_FOR_PE_HARD_RESET_COMPLETE => prl_hr_wait_for_pe_hard_reset_complete_run
  | StRch RCH_WAIT_FOR_MESSAGE_FROM_PROTOCOL_LAYER => rch_wait_for_message_from_protocol_layer_run
  | StRch RCH_PROCESSING_EXTENDED_MESSAGE => rch_processing_extended_message_run
  | StRch RCH_REQUESTING_CHUNK => rch_requesting_chunk_run
  | StRch RCH_WAITING_CHUNK => rch_waiting_chunk_run
  | StRch RCH_REPORT_ERROR => rch_report_error_run
  | StTch TCH_WAIT_FOR_MESSAGE_REQUEST_FROM_PE => tch_wait_for_message_request_from_pe_run
  | StTch TCH_WAIT_FOR_TRANSMISSION_COMPLETE => tch_wait_for_transmission_complete_run
  | StTch TCH_CONSTRUCT_CHUNKED_MESSAGE => tch_construct_chunked_message_run
  | StTch TCH_SENDING_CHUNKED_MESSAGE => tch_sending_chunked_message_run
  | StTch TCH_WAIT_CHUNK_REQUEST => tch_wait_chunk_request_run
  | StTch TCH_MESSAGE_RECEIVED => tch_message_received_run
  | _ => Some
  end.

(** *** Reception *)

(** A packet taken from the controller. *)
(** src/common/usbc/usb_prl_sm.c:2187-2195 [prl_rx_wait_for_phy_message] *)
Definition load_packet (payload : list Z) (header : Z) (p : prl) : prl :=
  let p := upd_pdmsg (fun m => set_rx_chk_buf
             (bcopy (rx_chk_buf m) 0 payload CHK_BUF_SIZE_BYTES) m) p in
  let p := set_rx_emsg (set_header header (rx_emsg p)) p in
  upd_rx (set_sop (PD_HEADER_GET_SOP header)) p.

(** src/common/usbc/usb_prl_sm.c:2171-2342 [prl_rx_wait_for_phy_message] *)
Definition prl_rx_wait_for_phy_message (p : prl) : option prl :=
  if RCH_CHK_FLAG PRL_FLAGS_MSG_RECEIVED p || negb (tcpm_has_pending_message (world p)) then Some p
  else
    let '(m, w) := tcpm_dequeue_message (world p) in
    let p := set_world w p in
    match m with
    | None => Some p
    | Some (payload, header) =>
      let type := PD_HEADER_TYPE header in
      let cnt := Z.min (PD_HEADER_CNT header) CHK_BUF_SIZE in
      let msid := PD_HEADER_ID header in
      let sop := PD_HEADER_GET_SOP header in
      let p := load_packet payload header p in
      if negb (sop =? TCPCI_MSG_SOP) && (PD_HEADER_PROLE header =? PD_PLUG_FROM_DFP_UFP)
      then Some p
      else if negb (RCH_CHK_FLAG PRL_FLAGS_IGNORE_DATA_ROLE p) && (sop =? TCPCI_MSG_SOP) &&
              (PD_HEADER_DROLE header =? pd_get_data_role (world p))
      then call TcStartErrorRecovery p
      else if (cnt =? 0) && (type =? PD_CTRL_SOFT_RESET) then
        let p := prl_reset_msg_ids sop p in
        p ← set_state_prl_tx PRL_TX_PHY_LAYER_RESET p;
        p ← set_state_rch RCH_WAIT_FOR_MESSAGE_FROM_PROTOCOL_LAYER p;
        p ← set_state_tch TCH_WAIT_FOR_MESSAGE_REQUEST_FROM_PE p;
        call PeGotSoftReset p
      else if aget (msg_id (prl_rx p)) sop =? msid then Some p
      else
        p ← (if ((0 <? cnt) || negb (type =? PD_CTRL_PING)) &&
                (negb (xmit_status (prl_tx p) =? TCPC_TX_COMPLETE_SUCCESS) ||
                 PRL_TX_CHK_FLAG PRL_FLAGS_MSG_XMIT p)
             then set_state_prl_tx PRL_TX_DISCARD_MESSAGE p else Some p);
        let p := upd_rx (fun r => set_msg_id (aset (msg_id r) sop msid) r) p in
        if (cnt =? 0) && (type =? PD_CTRL_PING)
        then pe_message_received (set_rx_emsg (set_len 0 (rx_emsg p)) p)
        else if negb (bool_decide
                  (tch_get_state p = Some (StTch TCH_WAIT_FOR_MESSAGE_REQUEST_FROM_PE))) ||
                TCH_CHK_FLAG PRL_FLAGS_MSG_XMIT p
        then Some (task_wake (TCH_SET_FLAG PRL_FLAGS_MSG_RECEIVED p))
        else Some (task_wake (RCH_SET_FLAG PRL_FLAGS_MSG_RECEIVED p))
    end.

(** *** The layer *)

(** src/common/usbc/usb_prl_sm.c:583-626 [prl_init] *)
Definition prl_init (p : prl) : option prl :=
  let p := upd_tx (set_tx_flags 0) p in
  let p := emit (TypecSelectSrcCollisionRp true) p in
  let p := upd_tx (fun r => set_xmit_status TCPC_TX_UNSET (set_last_xmit_type TCPCI_MSG_SOP r)) p in
  let p := upd_rch (set_rch_flags 0) (upd_tch (set_tch_flags 0) p) in
  let p := upd_pdmsg (set_pd_flags 0) p in
  let p := upd_hr (set_hr_flags 0) p in
  let p := reset_all_msg_ids p in
  let p := set_timers (PdTimer.pd_timer_disable_range CONFIG_CMD_PD_TIMER port
             PdTimer.PR_TIMER_RANGE (timers p)) p in
  p ← set_state_prl_tx PRL_TX_PHY_LAYER_RESET (upd_tx (set_tx_ctx cleared) p);
  p ← set_state_rch RCH_WAIT_FOR_MESSAGE_FROM_PROTOCOL_LAYER (upd_rch (set_rch_ctx cleared) p);
  p ← set_state_tch TCH_WAIT_FOR_MESSAGE_REQUEST_FROM_PE (upd_tch (set_tch_ctx cleared) p);
  set_state_prl_hr PRL_HR_WAIT_FOR_REQUEST (upd_hr (set_hr_ctx cleared) p).

(** src/common/usbc/usb_sm.c:195-202 [run_state] *)
Definition run_state (m : machine) (p : prl) : option prl :=
  let p := upd_ctx m (set_running true) p in
  p ← (match current (ctx m p) with None => Some p | Some s => run s p end);
  Some (upd_ctx m (set_running false) p).

(** src/common/usbc/usb_prl_sm.c:760-787 [prl_run] *)
Definition run_messages (p : prl) : option prl :=
  p ← prl_rx_wait_for_phy_message p;
  p ← run_state MRch p;
  p ← run_state MTch p;
  p ← run_state MTx p;
  run_state MTch p.

(** src/common/usbc/usb_prl_sm.c:735-790 [prl_run] *)
Definition prl_run_enabled (en : bool) (p : prl) : option prl :=
  if negb en then Some (set_local_state SM_PAUSED (emit (TcpmSetRxEnable false) p))
  else
    p ← run_state MHr p;
    if bool_decide (prl_hr_get_state p = Some (StHr PRL_HR_WAIT_FOR_REQUEST))
    then run_messages p else Some p.

(** src/common/usbc/usb_prl_sm.c:725-791 [prl_run] *)
Definition prl_run (en : bool) (p : prl) : option prl :=
  match local_state p with
  | SM_PAUSED =>
    if negb en then Some p
    else p ← prl_init p; prl_run_enabled en (set_local_state SM_RUN p)
  | SM_INIT => p ← prl_init p; prl_run_enabled en (set_local_state SM_RUN p)
  | SM_RUN => prl_run_enabled en p
  end.
End Calls.

(** Leaving the state last entered and entering [s], unless they are the
    same. *)
(** src/common/usbc/usb_sm.c:106-171 [set_state] *)
Fixpoint set_state (fuel : nat) (s : state) (p : prl) : option prl :=
  match fuel with
  | O => None
  | S fuel =>
    let m := machine_of s in
    if exiting (ctx m p) then Some p
    else
      let last := if enter (ctx m p) then last_entered (ctx m p) else current (ctx m p) in
      p ← (match last with
           | Some l =>
             if decide (l = s) then Some p
             else p ← exit (set_state fuel) l (upd_ctx m (set_exiting true) p);
                  Some (upd_ctx m (set_exiting false) p)
           | None => Some p
           end);
      let p := upd_ctx m (fun c => set_enter true (set_last_entered None
                 (set_current (Some s) (set_previous (current c) c)))) p in
      p ← (if decide (last = Some s) then Some p
           else entry (set_state fuel) s (upd_ctx m (set_last_entered (Some s)) p));
      Some (task_wake (upd_ctx m (fun c => set_running false (set_enter false c)) p))
  end.

(** Transitions nest at most this deep. *)
Definition depth : nat := 5.

(** An operation of the layer: a turn of its task, or a call from the policy
    engine or the port controller's interrupt. *)
Inductive op := Run (en : bool) | Request (r : request).

Definition step (o : op) (p : prl) : option prl :=
  match o with
  | Run en => prl_run (set_state depth) en p
  | Request r => do_request (set_state depth) r p
  end.

Fixpoint steps (l : list op) (p : prl) : option prl :=
  match l with
  | [] => Some p
  | o :: l => p ← step o p; steps l p
  end.
End Port.
End UsbPrl.
