(* ===== verification/UsbPrlSafe.v ===== *)
(** * Safety of the USB-PD protocol layer

    Every operation of UsbPrl.v returns, keeps every index and length in
    bounds, and leaves the four machines in states that can go on. *)

From S2P Require Import Prelude Bytes PdTimer UsbPrl.
Import Bytes UsbPrl.

Module UsbPrlSafe.

Create HintDb prl.

(** ** Well-formed data *)

Definition wf_rx (r : protocol_layer_rx) : Prop :=
  0 <= sop r < NUM_SOP_STAR_TYPES /\ length (msg_id r) = 5%nat /\
  Forall (fun x => -1 <= x <= PD_MESSAGE_ID_COUNT) (msg_id r).
Definition wf_tx (r : protocol_layer_tx) : Prop :=
  0 <= last_xmit_type r /\ length (msg_id_counter r) = 5%nat /\
  Forall (fun x => 0 <= x <= PD_MESSAGE_ID_COUNT) (msg_id_counter r).
Definition wf_pdmsg (m : pd_message) : Prop :=
  0 <= xmit_type m /\ length (rev m) = 5%nat /\ 0 <= data_objs m <= CHK_BUF_SIZE /\
  (length (tx_chk_buf m) = 28%nat /\ is_bytes (tx_chk_buf m)) /\
  (length (rx_chk_buf m) = 28%nat /\ is_bytes (rx_chk_buf m)) /\
  0 <= num_bytes_received m <= EXTENDED_BUFFER_SIZE /\
  0 <= chunk_number_expected m /\
  0 <= send_offset m < EXTENDED_BUFFER_SIZE + PD_MAX_EXTENDED_MSG_CHUNK_LEN.
Definition wf_emsg (m : extended_msg) : Prop :=
  0 <= len m <= EXTENDED_BUFFER_SIZE /\
  Z.of_nat (length (buf m)) = EXTENDED_BUFFER_SIZE /\ is_bytes (buf m).

(** There is a byte left to send, in the buffer. *)
Definition more_to_send (m : pd_message) : Prop := send_offset m < EXTENDED_BUFFER_SIZE.

(** The last law: the request for a chunk is waited for only where one starts
    in the buffer. *)
Record wf {W} (p : prl (W := W)) : Prop := {
  wf_prl_rx : wf_rx (prl_rx p);
  wf_prl_tx : wf_tx (prl_tx p);
  wf_pd : wf_pdmsg (pdmsg p);
  wf_rx_emsg : wf_emsg (rx_emsg p);
  wf_tx_emsg : wf_emsg (tx_emsg p);
  wf_wait : current (ctx MTch p) = Some (StTch TCH_WAIT_CHUNK_REQUEST) -> more_to_send (pdmsg p) }.

(** What the policy engine may ask. *)
Definition valid_request (r : request) : Prop :=
  match r with
  | WriteTxEmsg n data =>
    0 <= n <= EXTENDED_BUFFER_SIZE /\ Z.of_nat (length data) <= EXTENDED_BUFFER_SIZE /\
    is_bytes data
  | SendCtrlMsg type _ | SendDataMsg type _ | SendExtDataMsg type _ => 0 <= type
  | SetRev type _ | ResetMsgIds type => 0 <= type < NUM_SOP_STAR_TYPES
  | _ => True
  end.

(** A client that makes such requests only, and whose port controller hands
    over whole packets from one of the five partners. *)
Class ClientLaws (W : Type) `{Client W} := {
  calls_valid o w : Forall valid_request (calls o w).1;
  beyond_bytes w i : is_u8 (beyond_tx_emsg w i);
  dequeue_valid w payload h w' :
    tcpm_dequeue_message w = (Some (payload, h), w') ->
    length payload = 28%nat /\ is_bytes payload /\ PD_HEADER_GET_SOP h < NUM_SOP_STAR_TYPES }.

Section Safe.
Context {W : Type} `{ClientLaws W} `{Config}.
Implicit Types p q : prl (W := W).

(** ** The machines *)

(** The state whose exit function [set_state] would call. *)
Definition last (m : machine) p : option state :=
  if enter (ctx m p) then last_entered (ctx m p) else current (ctx m p).

(** A state that only has an entry function, which leaves it. *)
Definition transient (s : state) : bool :=
  match s with
  | StTx PRL_TX_PHY_LAYER_RESET | StTx PRL_TX_DISCARD_MESSAGE | StRch RCH_PASS_UP_MESSAGE
  | StTch TCH_MESSAGE_SENT | StTch TCH_REPORT_ERROR => true
  | _ => false
  end.

(** Machine [m] is in one of its own lasting states, and at rest there. *)
Definition lasting (m : machine) p : Prop :=
  forall s, current (ctx m p) = Some s -> transient s = false /\ machine_of s = m.
Definition resting (m : machine) p : Prop := enter (ctx m p) = false /\ lasting m p.

Definition typed (m : machine) p : Prop := forall s, last m p = Some s -> machine_of s = m.
Definition not_resetting p : Prop := last MTx p <> Some (StTx PRL_TX_PHY_LAYER_RESET).

Lemma resting_last m p s : resting m p -> last m p = Some s -> transient s = false /\ machine_of s = m.
Proof. intros [E Hs] E2. unfold last in E2. rewrite E in E2. auto. Qed.

(** What every operation preserves. *)
Record good p q : Prop := {
  good_wf : wf q;
  good_exiting m : exiting (ctx m q) = exiting (ctx m p);
  good_reset : not_resetting p -> not_resetting q;
  good_typed m : typed m p -> typed m q;
  good_enter m : enter (ctx m p) = false -> enter (ctx m q) = false;
  good_lasting m : lasting m p -> lasting m q;
  good_live m : current (ctx m p) <> None -> current (ctx m q) <> None;
  good_run : local_state q = SM_RUN -> local_state p = SM_RUN;
  good_calls : log p `prefix_of` log q }.

Lemma good_refl p : wf p -> good p p.
Proof. by split. Qed.

Lemma good_trans p1 p2 p3 : good p1 p2 -> good p2 p3 -> good p1 p3.
Proof.
  intros [G1 E1 ? ? ? ? ? ? ?] [G2 E2 ? ? ? ? ? ? ?].
  split; [done|intros m; by rewrite E2|auto..|by etrans].
Qed.

(** An operation that leaves the contexts alone, up to [running]. *)
Lemma good_states p q q' :
  good p q -> wf q' -> (local_state q' = SM_RUN -> local_state q = SM_RUN) ->
  log q `prefix_of` log q' ->
  (forall m, (last m q', current (ctx m q'), enter (ctx m q'), exiting (ctx m q')) =
             (last m q, current (ctx m q), enter (ctx m q), exiting (ctx m q))) -> good p q'.
Proof.
  intros [Hw He Hr Ht Hn Hl Hv Hu Ho] Hw' Hu' Ho' E.
  assert (E' : forall m, last m q' = last m q /\ current (ctx m q') = current (ctx m q) /\
    enter (ctx m q') = enter (ctx m q) /\ exiting (ctx m q') = exiting (ctx m q)).
  { intros m. specialize (E m). by simplify_eq. }
  clear E. split; [done|..].
  - intros m. destruct (E' m) as (_ & _ & _ & ->). auto.
  - unfold not_resetting. destruct (E' MTx) as (-> & _). auto.
  - intros m. unfold typed. destruct (E' m) as (-> & _). apply Ht.
  - intros m. destruct (E' m) as (_ & _ & -> & _). auto.
  - intros m. unfold lasting. destruct (E' m) as (_ & -> & _). apply Hl.
  - intros m. destruct (E' m) as (_ & -> & _). auto.
  - auto.
  - by etrans.
Qed.
Lemma good_same p q q' :
  good p q -> (forall m, ctx m q' = ctx m q) -> (local_state q' = SM_RUN -> local_state q = SM_RUN) ->
  log q `prefix_of` log q' -> wf q' -> good p q'.
Proof. intros G E Hu Ho Hw. eapply good_states; [done..|]. intros m. unfold last. by rewrite E. Qed.

(** *** Updates *)

Lemma good_emit p q o : good p q -> good p (emit o q).
Proof.
  intros G. eapply good_same; [done|by intros []|done|by apply prefix_app_r|].
  by destruct (good_wf _ _ G). Qed.
Lemma good_timers p q t : good p q -> good p (set_timers t q).
Proof. intros G. eapply good_same; [done|by intros []|done|reflexivity|]. by destruct (good_wf _ _ G). Qed.
Lemma good_world p q w : good p q -> good p (set_world w q).
Proof. intros G. eapply good_same; [done|by intros []|done|reflexivity|]. by destruct (good_wf _ _ G). Qed.
Lemma good_log p q l : log q `prefix_of` l -> good p q -> good p (set_log l q).
Proof. intros Ho G. eapply good_same; [done|by intros []|done|done|]. by destruct (good_wf _ _ G). Qed.
Lemma good_local p q l : l <> SM_RUN -> good p q -> good p (set_local_state l q).
Proof. intros Hl G. eapply good_same; [done|by intros []|done|reflexivity|]. by destruct (good_wf _ _ G). Qed.
Lemma good_ts p q t : good p q -> good p (set_tcpc_tx_success_ts t q).
Proof. intros G. eapply good_same; [done|by intros []|done|reflexivity|]. by destruct (good_wf _ _ G). Qed.

Lemma good_upd_rch p q f : (forall r, rch_ctx (f r) = rch_ctx r) -> good p q -> good p (upd_rch f q).
Proof.
  intros Hf G. eapply good_same; [done|intros []; cbn; auto|done|reflexivity|]. by destruct (good_wf _ _ G).
Qed.
Lemma good_upd_tch p q f : (forall r, tch_ctx (f r) = tch_ctx r) -> good p q -> good p (upd_tch f q).
Proof.
  intros Hf G. eapply good_same; [done|intros []; cbn; auto|done|reflexivity|]. destruct (good_wf _ _ G).
  split; try done. cbn in *. by rewrite Hf.
Qed.
Lemma good_upd_hr p q f : (forall r, hr_ctx (f r) = hr_ctx r) -> good p q -> good p (upd_hr f q).
Proof.
  intros Hf G. eapply good_same; [done|intros []; cbn; auto|done|reflexivity|]. by destruct (good_wf _ _ G).
Qed.
Lemma good_upd_tx p q f :
  (forall r, tx_ctx (f r) = tx_ctx r) -> (wf_tx (prl_tx q) -> wf_tx (f (prl_tx q))) ->
  good p q -> good p (upd_tx f q).
Proof.
  intros Hf Hw G. eapply good_same; [done|intros []; cbn; auto|done|reflexivity|].
  destruct (good_wf _ _ G). split; cbn; auto.
Qed.
Lemma good_upd_rx p q f :
  (wf_rx (prl_rx q) -> wf_rx (f (prl_rx q))) -> good p q -> good p (upd_rx f q).
Proof.
  intros Hw G. eapply good_same; [done|by intros []|done|reflexivity|]. destruct (good_wf _ _ G). split; cbn; auto.
Qed.
Lemma good_upd_pdmsg p q f :
  (wf q -> wf_pdmsg (pdmsg q) -> wf_pdmsg (f (pdmsg q))) ->
  (more_to_send (pdmsg q) -> more_to_send (f (pdmsg q))) -> good p q -> good p (upd_pdmsg f q).
Proof.
  intros Hw Hm G. eapply good_same; [done|by intros []|done|reflexivity|]. destruct (good_wf _ _ G).
  split; cbn; auto. apply Hw; [by split|done].
Qed.
Lemma good_set_rx_emsg p q m :
  (wf q -> wf_emsg (rx_emsg q) -> wf_emsg m) -> good p q -> good p (set_rx_emsg m q).
Proof.
  intros Hw G. eapply good_same; [done|by intros []|done|reflexivity|]. destruct (good_wf _ _ G).
  split; cbn; auto. apply Hw; [by split|done].
Qed.
Lemma good_set_tx_emsg p q m :
  (wf_emsg (tx_emsg q) -> wf_emsg m) -> good p q -> good p (set_tx_emsg m q).
Proof.
  intros Hw G. eapply good_same; [done|by intros []|done|reflexivity|]. destruct (good_wf _ _ G). split; cbn; auto.
Qed.

(** *** Lengths and ranges *)

Lemma Forall_bcopy {A} (P : A -> Prop) dst src off n :
  Forall P dst -> Forall P src -> Forall P (bcopy dst off src n).
Proof.
  intros Hd Hs. unfold bcopy. rewrite !Forall_app.
  split_and!; auto using Forall_take, Forall_drop.
Qed.
Lemma Forall_aset {A} (P : A -> Prop) l i v : Forall P l -> P v -> Forall P (aset l i v).
Proof. intros. by apply Forall_insert. Qed.
Lemma bfill_bytes l off n : is_bytes l -> is_bytes (bfill l off 0 n).
Proof. intros. apply Forall_bcopy; [done|]. apply Forall_replicate. unfold in_range. lia. Qed.
Lemma land7 x : 0 <= Z.land x 7 <= 7.
Proof. change 7 with (2 ^ 3 - 1) at 1 2. rewrite land_mask by lia. unfold wrap. divlia. Qed.
Lemma cnt_range h : 0 <= PD_HEADER_CNT h <= 7.
Proof. apply land7. Qed.
Lemma id_range h : 0 <= PD_HEADER_ID h <= 7.
Proof. apply land7. Qed.
Lemma sop_nonneg h : 0 <= PD_HEADER_GET_SOP h.
Proof. apply Z.land_nonneg. by right. Qed.

Ltac bytes :=
  lazymatch goal with
  | |- Forall (in_range 8) (bcopy _ _ _ _) => apply Forall_bcopy; bytes
  | |- Forall (in_range 8) (bfill _ _ _ _) => apply bfill_bytes; bytes
  | |- Forall (in_range 8) (bytes_at _ _ _) => apply bytes_at_bytes; bytes
  | |- Forall (in_range 8) (le_bytes _ _) => apply le_bytes_bytes
  | |- _ => assumption
  end.

(** The well-formedness of an updated record, up to the fields that need an
    argument. *)
Ltac wfs :=
  unfold wf_rx, wf_tx, wf_pdmsg, wf_emsg, PD_MAX_EXTENDED_MSG_CHUNK_LEN, CHK_BUF_SIZE, EXTENDED_BUFFER_SIZE, NUM_SOP_STAR_TYPES,
    PD_MESSAGE_ID_COUNT, PD_REVISION, TCPCI_MSG_SOP, TCPCI_MSG_TX_HARD_RESET in *;
  intros; destruct_and?; cbn in *; split_and?; rewrite ?length_aset;
  try assumption; try lia; try (apply Forall_aset; [assumption|]); try lia.

(** *** Operations without calls *)

Lemma good_or_rch p q fl : good p q -> good p (RCH_SET_FLAG fl q).
Proof. by apply good_upd_rch. Qed.
Lemma good_clr_rch p q fl : good p q -> good p (RCH_CLR_FLAG fl q).
Proof. by apply good_upd_rch. Qed.
Lemma good_or_tch p q fl : good p q -> good p (TCH_SET_FLAG fl q).
Proof. by apply good_upd_tch. Qed.
Lemma good_clr_tch p q fl : good p q -> good p (TCH_CLR_FLAG fl q).
Proof. by apply good_upd_tch. Qed.
Lemma good_or_tx p q fl : good p q -> good p (PRL_TX_SET_FLAG fl q).
Proof. by apply good_upd_tx. Qed.
Lemma good_clr_tx p q fl : good p q -> good p (PRL_TX_CLR_FLAG fl q).
Proof. by apply good_upd_tx. Qed.
Lemma good_or_hr p q fl : good p q -> good p (PRL_HR_SET_FLAG fl q).
Proof. by apply good_upd_hr. Qed.
Lemma good_or_pd p q fl : good p q -> good p (PDMSG_SET_FLAG fl q).
Proof. by apply good_upd_pdmsg. Qed.
Lemma good_clr_pd p q fl : good p q -> good p (PDMSG_CLR_FLAG fl q).
Proof. by apply good_upd_pdmsg. Qed.
Lemma good_enable p q t us : good p q -> good p (pd_timer_enable t us q).
Proof. apply good_timers. Qed.
Lemma good_disable p q t : good p q -> good p (pd_timer_disable t q).
Proof. apply good_timers. Qed.
Lemma good_expired p q t : good p q -> good p (pd_timer_is_expired t q).2.
Proof.
  intros G. unfold pd_timer_is_expired. destruct (PdTimer.pd_timer_is_expired _ _ _ _ _).
  by apply good_timers.
Qed.
Lemma good_set_xmit_status p q x : good p q -> good p (upd_tx (set_xmit_status x) q).
Proof. by apply good_upd_tx. Qed.
#[local] Hint Resolve good_emit good_timers good_world good_log good_local good_ts good_or_rch
  good_clr_rch good_or_tch good_clr_tch good_or_tx good_clr_tx good_or_hr good_or_pd good_clr_pd
  good_enable good_disable good_expired good_set_xmit_status : prl.

Lemma good_reset_ids p q t :
  0 <= t < NUM_SOP_STAR_TYPES -> good p q -> good p (prl_reset_msg_ids t q).
Proof.
  intros Ht G. apply good_upd_rx; [wfs|]. apply good_upd_tx; [done|wfs|done].
Qed.

Lemma good_reset_all p q : good p q -> good p (reset_all_msg_ids q).
Proof.
  intros G. unfold reset_all_msg_ids. change (seqZ 0 NUM_SOP_STAR_TYPES) with [0; 1; 2; 3; 4].
  cbn [foldl]. repeat (apply good_reset_ids; [unfold NUM_SOP_STAR_TYPES; lia|]). done.
Qed.

Lemma good_default_rev p q : good p q -> good p (prl_set_default_pd_revision q).
Proof. apply good_upd_pdmsg; [wfs|done]. Qed.

Lemma good_increment p q : good p q -> good p (increment_msgid_counter q).
Proof.
  intros G. unfold increment_msgid_counter. case_match; [done|].
  apply good_upd_tx; [done|wfs; apply land7|done].
Qed.

Lemma good_transmit_complete p q st : good p q -> good p (pd_transmit_complete st q).
Proof. intros G. unfold pd_transmit_complete, set_success_ts. case_match; auto with prl. Qed.

Lemma good_role_check p q b : good p q -> good p (prl_set_data_role_check b q).
Proof. intros G. destruct b; unfold prl_set_data_role_check; auto with prl. Qed.

Lemma good_send_ctrl p q t m : 0 <= t -> good p q -> good p (prl_send_ctrl_msg t m q).
Proof.
  intros Ht G. apply good_emit, good_or_tch, good_upd_pdmsg; [wfs|done|].
  apply good_set_tx_emsg; [wfs|]. apply good_upd_pdmsg; [wfs|done|done].
Qed.
Lemma good_send_data p q t m : 0 <= t -> good p q -> good p (prl_send_data_msg t m q).
Proof. intros Ht G. apply good_emit, good_or_tch, good_upd_pdmsg; [wfs|done|done]. Qed.
Lemma good_send_ext p q t m : 0 <= t -> good p q -> good p (prl_send_ext_data_msg t m q).
Proof. intros Ht G. apply good_emit, good_or_tch, good_upd_pdmsg; [wfs|done|done]. Qed.

Lemma good_copy_chunk p q : good p q -> good p (copy_chunk_to_ext q).
Proof.
  intros G. unfold copy_chunk_to_ext. set (n := PD_HEADER_CNT (header (rx_emsg q)) * 4).
  pose proof (cnt_range (header (rx_emsg q))) as Hn. assert (0 <= n <= 28) by lia. clearbody n.
  apply good_set_rx_emsg; [|apply good_upd_pdmsg; [wfs|done|done]].
  intros [_ _ Hw _ _ _]. wfs; [rewrite length_bcopy; rewrite ?length_bytes_at; lia|bytes].
Qed.

Lemma good_copy_msg p q : good p q -> good p (prl_copy_msg_to_buffer q).
Proof.
  intros G. unfold prl_copy_msg_to_buffer. case_match; [apply good_upd_pdmsg; [wfs|done|done]|].
  set (q1 := if _ <? _ then _ else q).
  assert (G1 : good p q1 /\ len (tx_emsg q1) <= 28).
  { subst q1. unfold CHK_BUF_SIZE_BYTES in *. case_match; cbn; [|split; [done|lia]].
    split; [|lia]. apply good_set_tx_emsg; [wfs|done]. }
  destruct G1 as [G1 Hn]. pose proof (wf_tx_emsg _ (good_wf _ _ G1)) as Hw. clearbody q1.
  apply good_upd_pdmsg; [|done|apply good_upd_pdmsg; [|done|done]]; unfold CHK_BUF_SIZE_BYTES in *;
    revert Hw; wfs.
  - apply wrap_range. lia.
  - rewrite Z.shiftr_div_pow2 by lia. unfold wrap. rewrite (Z.mod_small _ (2 ^ 32)) by lia.
    rewrite Z.mod_small by divlia. divlia.
  - rewrite length_bcopy; rewrite ?length_bfill, ?length_bytes_at; lia.
  - bytes.
Qed.

Lemma length_tx_emsg_bytes p off n : length (tx_emsg_bytes p off n) = Z.to_nat n.
Proof. unfold tx_emsg_bytes. by rewrite length_fmap, length_seqZ. Qed.
Lemma tx_emsg_bytes_bytes p off n : is_bytes (buf (tx_emsg p)) -> is_bytes (tx_emsg_bytes p off n).
Proof.
  intros Hb. unfold tx_emsg_bytes. apply Forall_fmap, Forall_forall. intros i _. cbn.
  case_match; [by apply aget_range|apply beyond_bytes].
Qed.

(** A chunk starts in the buffer, and ends at most 25 bytes past it. *)
Lemma good_construct p q :
  good p q -> more_to_send (pdmsg q) ->
  current (ctx MTch q) <> Some (StTch TCH_WAIT_CHUNK_REQUEST) -> good p (construct_chunk q).
Proof.
  intros G Hm Hc. unfold construct_chunk, more_to_send in *. set (num := if _ <? _ then _ else _).
  assert (Hn : 0 <= num <= 26).
  { subst num. unfold PD_MAX_EXTENDED_MSG_CHUNK_LEN.
    pose proof (wrap_range 16 (len (tx_emsg q) - send_offset (pdmsg q)) ltac:(lia)) as [? _].
    case_match; lia. }
  pose proof (length_tx_emsg_bytes q (send_offset (pdmsg q)) num) as Hl.
  pose proof (tx_emsg_bytes_bytes q (send_offset (pdmsg q)) num) as Hb.
  set (data := tx_emsg_bytes _ _ _) in *. clearbody num data.
  eapply good_same; [exact G|by intros []|done|reflexivity|]. destruct (good_wf _ _ G) as [? ? Hp ? Ht ?].
  specialize (Hb (proj2 (proj2 Ht))). split; try done.
  revert Hp. cbn [pdmsg upd_pdmsg set_pdmsg]. unfold CHK_BUF_SIZE_BYTES. wfs.
  - rewrite Z.shiftr_div_pow2 by lia. divlia.
  - rewrite Z.shiftr_div_pow2 by lia. divlia.
  - rewrite length_bcopy; rewrite ?length_bfill; rewrite ?length_bcopy; rewrite ?length_le_bytes; lia.
  - bytes.
  - rewrite length_bfill; lia.
  - bytes.
  - unfold wrap. apply Z.mod_pos_bound. lia.
  - unfold wrap. rewrite Z.mod_small by lia. lia.
Qed.

Lemma good_append p q n :
  0 <= n <= 26 -> num_bytes_received (pdmsg q) + n <= EXTENDED_BUFFER_SIZE ->
  good p q -> good p (append_chunk n q).
Proof.
  intros Hn Hr G. unfold append_chunk. pose proof (wf_pd _ (good_wf _ _ G)) as Hp.
  apply good_upd_pdmsg; [|done|apply good_set_rx_emsg; [|done]].
  - intros _ Hw. unfold wrap. wfs; unfold EXTENDED_BUFFER_SIZE in *;
      try (rewrite Z.mod_small by lia; lia). apply Z.mod_pos_bound. lia.
  - intros _ Hw. revert Hp. wfs; [|bytes].
    rewrite length_bcopy; rewrite ?length_bytes_at; lia.
Qed.
Lemma good_load p q payload h :
  length payload = 28%nat -> is_bytes payload -> PD_HEADER_GET_SOP h < NUM_SOP_STAR_TYPES ->
  good p q -> good p (load_packet payload h q).
Proof.
  intros Hl Hb Hs G. pose proof (sop_nonneg h). apply good_upd_rx; [wfs|].
  apply good_set_rx_emsg; [wfs|]. apply good_upd_pdmsg; [|done|done].
  unfold CHK_BUF_SIZE_BYTES. wfs; [|bytes]. rewrite length_bcopy; lia.
Qed.
#[local] Hint Resolve good_reset_all good_default_rev good_increment good_transmit_complete
  good_role_check good_copy_chunk good_copy_msg : prl.

Lemma ctx_upd_same m f p : ctx m (upd_ctx m f p) = f (ctx m p).
Proof. by destruct m. Qed.
Lemma ctx_upd_other m m' f p : m' <> m -> ctx m' (upd_ctx m f p) = ctx m' p.
Proof. by destruct m, m'. Qed.
Lemma wf_upd_ctx m f p :
  (current (f (ctx m p)) = Some (StTch TCH_WAIT_CHUNK_REQUEST) ->
   current (ctx m p) = Some (StTch TCH_WAIT_CHUNK_REQUEST)) -> wf p -> wf (upd_ctx m f p).
Proof. intros Hf []. destruct m; split; try done. cbn in *. auto. Qed.
Lemma wf_upd_ctx_more m f p : wf p -> more_to_send (pdmsg p) -> wf (upd_ctx m f p).
Proof. intros [] Hm. by destruct m; split. Qed.

(** ** Functions that call [set_state] *)

Definition returns (o : option (prl (W := W))) (Q : prl (W := W) -> Prop) : Prop :=
  exists q, o = Some q /\ Q q.

Lemma returns_some Q p : Q p -> returns (Some p) Q.
Proof. intros. by exists p. Qed.
Lemma returns_bind o f P Q :
  returns o P -> (forall p, P p -> returns (f p) Q) -> returns (o ≫= f) Q.
Proof. intros (p & -> & Hp) Hf. by apply Hf. Qed.
Lemma returns_weaken o (P Q : prl -> Prop) : returns o P -> (forall q, P q -> Q q) -> returns o Q.
Proof. intros (q & E & HP) HQ. exists q. auto. Qed.

(** How deep the transitions started by entering a state nest. *)
Definition cost (s : state) : nat :=
  match s with
  | StTx PRL_TX_PHY_LAYER_RESET => 2
  | StHr _ => 3
  | StTx PRL_TX_DISCARD_MESSAGE | StRch RCH_PASS_UP_MESSAGE | StRch RCH_REPORT_ERROR
  | StTch TCH_MESSAGE_RECEIVED => 4
  | StTch TCH_CONSTRUCT_CHUNKED_MESSAGE | StTch TCH_MESSAGE_SENT | StTch TCH_REPORT_ERROR => 5
  | _ => 1
  end.

Definition sound p : Prop := (forall m, typed m p) /\ not_resetting p.

(** The states that have a chunk to send. *)
Definition needs_more (s : state) : bool :=
  match s with
  | StTch TCH_CONSTRUCT_CHUNKED_MESSAGE | StTch TCH_WAIT_CHUNK_REQUEST => true
  | _ => false
  end.

(** When a transition to [s] may be requested: a reset of the transmitter
    requests nothing but its next state, an entry-only state is entered from a
    state at rest, a chunk is sent when there is one. *)
Definition allowed (s : state) p : Prop :=
  (forall m, typed m p) /\ (s <> StTx PRL_TX_WAIT_FOR_MESSAGE_REQUEST -> not_resetting p) /\
  (transient s = true -> s <> StTx PRL_TX_PHY_LAYER_RESET -> resting (machine_of s) p) /\
  (needs_more s = true -> more_to_send (pdmsg p)).

Lemma good_sound p q : good p q -> sound p -> sound q.
Proof. intros [] []. split; [intros m|]; auto. Qed.
Lemma good_resting m p q : good p q -> resting m p -> resting m q.
Proof. intros [] []. split; auto. Qed.

Lemma sound_allowed s p :
  sound p -> (transient s = true -> s <> StTx PRL_TX_PHY_LAYER_RESET -> resting (machine_of s) p) ->
  (needs_more s = true -> more_to_send (pdmsg p)) -> allowed s p.
Proof. intros [] ? ?. unfold allowed. split_and!; auto. Qed.

(** What a transition achieves: its machine comes to rest. *)
Definition settled (s : state) p q : Prop :=
  exiting (ctx (machine_of s) p) = false ->
  resting (machine_of s) q /\ current (ctx (machine_of s) q) <> None.

Section Level.
Context (set : state -> prl (W := W) -> option (prl (W := W))) (n : nat).
Hypothesis set_ok : forall s p, (cost s <= n)%nat -> wf p -> allowed s p ->
  returns (set s p) (fun q => good p q /\ settled s p q).

Lemma set_good s p0 p :
  (cost s <= n)%nat -> good p0 p -> allowed s p -> returns (set s p) (good p0).
Proof.
  intros Hc G Ha. eapply returns_weaken; [by apply set_ok, Ha; [|eapply good_wf]|].
  intros q [? _]. by eapply good_trans.
Qed.

Lemma set_lasting s p0 p :
  (cost s <= n)%nat -> transient s = false -> (needs_more s = true -> more_to_send (pdmsg p)) ->
  sound p0 -> good p0 p -> returns (set s p) (good p0).
Proof.
  intros Hc Ht Hm Hs G. apply set_good; [done|done|]. apply sound_allowed; [by eapply good_sound| |done].
  by rewrite Ht.
Qed.
Lemma set_resting s p0 p :
  (cost s <= n)%nat -> resting (machine_of s) p0 -> needs_more s = false -> sound p0 -> good p0 p ->
  returns (set s p) (good p0).
Proof.
  intros Hc Ht Hm Hs G. apply set_good; [done|done|].
  apply sound_allowed; [by eapply good_sound| |by rewrite Hm]. intros _ _. by eapply good_resting.
Qed.
Lemma set_phy p0 p :
  (2 <= n)%nat -> sound p0 -> good p0 p -> returns (set (StTx PRL_TX_PHY_LAYER_RESET) p) (good p0).
Proof.
  intros Hc Hs G. apply set_good; [done|done|]. by apply sound_allowed; [eapply good_sound|..].
Qed.

Lemma request_ok r p0 p :
  (3 <= n)%nat -> valid_request r -> sound p0 -> good p0 p -> returns (do_request set r p) (good p0).
Proof.
  intros Hn Hv Hs G. destruct r; cbn [do_request]; try (apply returns_some).
  - destruct Hv as (Hl & Hd & Hb). apply good_set_tx_emsg; [|done]. unfold EXTENDED_BUFFER_SIZE in *.
    wfs; [rewrite length_bcopy; lia|bytes].
  - by apply good_send_ctrl.
  - by apply good_send_data.
  - by apply good_send_ext.
  - unfold prl_execute_hard_reset. case_match; [by apply returns_some|].
    eapply returns_bind; [apply set_lasting; [done|done|done|done|auto with prl]|].
    intros q G2. apply returns_some. by apply good_emit.
  - unfold pd_execute_hard_reset. case_match; [by apply returns_some|].
    eapply returns_bind; [apply set_lasting; [done|done|done|done|auto with prl]|].
    intros q G2. apply returns_some. by apply good_emit.
  - unfold prl_hard_reset_complete, task_wake. auto with prl.
  - unfold prl_reset_soft, task_wake. by apply good_emit, good_local.
  - auto with prl.
  - auto with prl.
  - unfold prl_set_rev. destruct Hv. rewrite (proj2 (Z.ltb_lt _ _)) by done.
    apply returns_some. apply good_upd_pdmsg; [wfs|done|done].
  - by apply good_reset_ids.
  - auto with prl.
Qed.

Lemma requests_ok l : forall p0 p,
  (3 <= n)%nat -> Forall valid_request l -> sound p0 -> good p0 p ->
  returns (do_requests set l p) (good p0).
Proof.
  induction l as [|r l IH]; intros p0 p Hn Hv Hs G; cbn [do_requests]; [by apply returns_some|].
  inversion_clear Hv. eapply returns_bind; [by apply request_ok|]. intros q G2. by apply IH.
Qed.

Lemma call_ok o p0 p : (3 <= n)%nat -> sound p0 -> good p0 p -> returns (call set o p) (good p0).
Proof.
  intros Hn Hs G. unfold call. pose proof (calls_valid o (world p)) as Hv.
  destruct (calls o (world p)) as [rs w]. apply requests_ok; [done|done|done|].
  apply good_log; [by apply prefix_app_r|auto with prl].
Qed.

(** The call itself comes first. *)
Lemma call_log o p :
  (3 <= n)%nat -> wf p -> sound p ->
  returns (call set o p) (fun q => good p q /\ (log p ++ [o]) `prefix_of` log q).
Proof.
  intros Hn Hw Hs. unfold call. pose proof (calls_valid o (world p)) as Hv.
  destruct (calls o (world p)) as [rs w]. set (p1 := set_log _ _).
  assert (G : good p p1).
  { apply good_log; [by apply prefix_app_r|]. by apply good_world, good_refl. }
  eapply returns_weaken; [apply (requests_ok rs p1 p1)|].
  - done.
  - done.
  - by eapply good_sound.
  - by apply good_refl, (good_wf _ _ G).
  - intros q G2. split; [by eapply good_trans|]. apply (good_calls _ _ G2).
Qed.

Lemma pe_message_received_ok p0 p :
  (3 <= n)%nat -> sound p0 -> good p0 p -> returns (pe_message_received set p) (good p0).
Proof. apply call_ok. Qed.

Lemma expired_bind t p0 p (f : bool -> prl -> option prl) Q :
  good p0 p -> (forall b q, good p0 q -> returns (f b q) Q) ->
  returns (let '(b, q) := pd_timer_is_expired t p in f b q) Q.
Proof.
  intros G Hf. pose proof (good_expired p0 p t G). destruct (pd_timer_is_expired t p). by apply Hf.
Qed.

#[local] Hint Extern 2 (good _ (upd_pdmsg _ _)) => apply good_upd_pdmsg; [wfs; fail|done|] : prl.
#[local] Hint Extern 2 (good _ (upd_tx _ _)) => apply good_upd_tx; [reflexivity|wfs; fail|] : prl.
#[local] Hint Extern 2 (good _ (upd_rx _ _)) => apply good_upd_rx; [wfs; fail|] : prl.
#[local] Hint Extern 2 (good _ (upd_rch _ _)) => apply good_upd_rch; [reflexivity|] : prl.
#[local] Hint Extern 2 (good _ (upd_tch _ _)) => apply good_upd_tch; [reflexivity|] : prl.
#[local] Hint Extern 2 (good _ (upd_hr _ _)) => apply good_upd_hr; [reflexivity|] : prl.

(** Symbolic execution: [pure] closes what is left of an update. *)
Ltac pure := solve [auto 30 with prl].
Ltac sym :=
  unfold rch_fail, tch_fail, tch_received, set_state_prl_tx, set_state_prl_hr, set_state_rch,
    set_state_tch, task_wake in *;
  repeat first
    [ progress cbv zeta
    | match goal with
      | |- returns (Some _) _ => apply returns_some
      | G : good ?p0 _ |- returns (_ ≫= _) _ => apply (returns_bind _ _ (good p0)); [|intros ? ?]
      | G : good ?p0 _ |- returns (let '(_, _) := pd_timer_is_expired _ _ in _) _ =>
        apply (expired_bind _ p0); [|intros ? ? ?]
      | |- returns (call _ _ _) _ => apply call_ok; [lia|assumption|]
      | |- returns (pe_message_received _ _) _ => apply pe_message_received_ok; [lia|assumption|]
      | |- returns (set (StTx PRL_TX_PHY_LAYER_RESET) _) _ => apply set_phy; [lia|assumption|]
      | |- returns (set _ _) _ =>
        first [ apply set_lasting; [cbn; lia|reflexivity|done|assumption|]
              | apply set_resting; [cbn; lia|auto|reflexivity|assumption|] ]
      | |- returns (if ?b then _ else _) _ => destruct b
      | |- good _ (if ?b then _ else _) => destruct b
      end
    | pure
    | match goal with |- good _ ?e => match e with context [if ?b then _ else _] => destruct b end end ].

Lemma exit_ok s p0 p :
  (machine_of s = MHr -> (2 <= n)%nat /\ sound p0) -> good p0 p -> returns (exit set s p) (good p0).
Proof.
  intros Hc G. destruct s as [[]|[]|[]|[]]; cbn in Hc |- *; try (by apply returns_some);
    [unfold prl_tx_wait_for_phy_response_exit|unfold prl_tx_src_pending_exit
    |unfold prl_hr_wait_for_phy_hard_reset_complete_exit
    |unfold prl_hr_wait_for_pe_hard_reset_complete_exit; destruct (Hc eq_refl)
    |unfold rch_waiting_chunk_exit|unfold tch_wait_chunk_request_exit]; sym.
Qed.

Lemma hr_reset_layer_entry_ok p0 p :
  (2 <= n)%nat -> sound p0 -> good p0 p -> returns (prl_hr_reset_layer_entry set p) (good p0).
Proof. intros Hn Hs G. unfold prl_hr_reset_layer_entry. sym. Qed.

Lemma requesting_chunk_entry_ok p0 p :
  good p0 p -> returns (rch_requesting_chunk_entry p) (good p0).
Proof.
  intros G. unfold rch_requesting_chunk_entry. sym.
  apply good_emit, good_or_tx, good_upd_pdmsg; [|done|done]. intros [Hr _ _ _ _ _]. revert Hr. wfs.
  - rewrite length_bcopy; rewrite ?length_le_bytes; lia.
  - bytes.
Qed.

Lemma entry_lasting s p0 p :
  (cost s <= S n)%nat -> transient s = false ->
  (needs_more s = true -> current (ctx MTch p) = Some s /\ more_to_send (pdmsg p)) ->
  sound p0 -> good p0 p -> returns (entry set s p) (good p0).
Proof.
  intros Hc Ht Hm Hs G. destruct s as [[]|[]|[]|[]]; cbn in Hc, Ht, Hm |- *; try discriminate;
    try (by apply returns_some).
  all: try (unfold prl_tx_wait_for_message_request_entry, prl_tx_wait_for_phy_response_entry,
    prl_tx_src_source_tx_entry, prl_tx_src_pending_entry, prl_hr_wait_for_request_entry,
    prl_hr_wait_for_phy_hard_reset_complete_entry, rch_wait_for_message_from_protocol_layer_entry,
    rch_waiting_chunk_entry, rch_report_error_entry, tch_wait_for_message_request_from_pe_entry,
    tch_wait_chunk_request_entry, tch_message_received_entry;
    sym; fail).
  - unfold prl_tx_layer_reset_for_transmit_entry.
    destruct (Z.ltb_spec (xmit_type (pdmsg p)) NUM_SOP_STAR_TYPES); sym.
    pose proof (wf_pd _ (good_wf _ _ G)) as [? _]. by apply good_reset_ids.
  - by apply hr_reset_layer_entry_ok; [lia|..].
  - by apply requesting_chunk_entry_ok.
  - destruct (Hm eq_refl) as [Hcur Hmore]. unfold tch_construct_chunked_message_entry. sym.
    apply good_or_tx, good_construct; [done|done|cbn; congruence].
Qed.

(** The entry-only states leave their machine at rest. *)
Definition leaves (m : machine) p q : Prop :=
  good p q /\
  (exiting (ctx m p) = false -> resting m q /\ current (ctx m q) <> None).

Lemma set_leaves s p0 p :
  (cost s <= n)%nat -> transient s = false \/ s = StTx PRL_TX_PHY_LAYER_RESET ->
  needs_more s = false -> good p0 p ->
  (forall m, typed m p0) -> (s <> StTx PRL_TX_WAIT_FOR_MESSAGE_REQUEST -> not_resetting p0) ->
  returns (set s p) (leaves (machine_of s) p0).
Proof.
  intros Hc Ht Hm G Hty Hr. eapply returns_weaken; [apply set_ok; [done|by eapply good_wf|]|].
  - split; [|split; [|split; [|by rewrite Hm]]].
    + intros m. apply (good_typed _ _ G), Hty.
    + intros Hs. apply (good_reset _ _ G). auto.
    + destruct Ht; congruence.
  - intros q [G2 Hq]. split; [by eapply good_trans|]. intros E. apply Hq.
    by rewrite (good_exiting _ _ G).
Qed.

Lemma tch_leave_ok p0 p :
  (4 <= n)%nat -> sound p0 -> good p0 p -> returns (tch_leave set p) (leaves MTch p0).
Proof.
  intros Hn [] G. unfold tch_leave, tch_received, set_state_tch. case_match.
  - apply (set_leaves (StTch TCH_MESSAGE_RECEIVED)); auto with prl.
  - apply (set_leaves (StTch TCH_WAIT_FOR_MESSAGE_REQUEST_FROM_PE)); auto. cbn. lia.
Qed.

Lemma entry_leaves s p :
  (cost s <= S n)%nat -> transient s = true -> wf p -> (forall m, typed m p) ->
  (s <> StTx PRL_TX_PHY_LAYER_RESET -> not_resetting p) ->
  returns (entry set s p) (leaves (machine_of s) p).
Proof.
  intros Hc Ht Hw Hty Hr. pose proof (good_refl p Hw) as G.
  destruct s as [[]|[]|[]|[]]; cbn in Hc, Ht |- *; try discriminate;
    try (assert (Hs : sound p) by (split; auto; apply Hr; congruence)).
  - apply (set_leaves (StTx PRL_TX_WAIT_FOR_MESSAGE_REQUEST)); auto with prl; cbn; lia.
  - apply (returns_bind _ _ (good p)); [sym|]. intros q G2.
    apply (set_leaves (StTx PRL_TX_PHY_LAYER_RESET)); auto; cbn; lia.
  - apply (returns_bind _ _ (good p)); [sym|]. intros q G2.
    apply (set_leaves (StRch RCH_WAIT_FOR_MESSAGE_FROM_PROTOCOL_LAYER)); auto; cbn; lia.
  - apply (returns_bind _ _ (good p)); [sym|]. intros q G2. by apply tch_leave_ok; [lia|..].
  - apply (returns_bind _ _ (good p)); [sym|]. intros q G2. by apply tch_leave_ok; [lia|..].
Qed.

(** *** Running a state *)

Section Run.
Hypothesis deep : (5 <= n)%nat.

(** Between the functions of a turn every machine is at rest. *)
Definition at_rest p : Prop := forall m, resting m p.

Lemma construct_ok p0 p :
  sound p0 -> good p0 p -> returns (prl_tx_construct_message set p) (good p0).
Proof.
  intros Hs G. unfold prl_tx_construct_message. sym.
  apply good_clr_pd, good_set_xmit_status, good_upd_tx; [done| |done].
  pose proof (wf_pd _ (good_wf _ _ G)) as [? _]. wfs.
Qed.

Lemma send_pending_ok p0 p : sound p0 -> good p0 p -> returns (send_pending set p) (good p0).
Proof.
  intros Hs G. unfold send_pending. sym; by apply construct_ok.
Qed.

Lemma tx_run_ok s p0 p :
  at_rest p0 -> sound p0 -> good p0 p -> returns (run set (StTx s) p) (good p0).
Proof.
  intros Hrest Hs G. destruct s; cbn [run]; try (by apply returns_some).
  - unfold prl_tx_wait_for_message_request_run.
    assert (G2 : good p0 (leave_ams p)) by (unfold leave_ams; sym). revert G2.
    generalize (leave_ams p). intros q G2. sym. apply send_pending_ok; auto with prl.
  - unfold prl_tx_layer_reset_for_transmit_run. sym. by apply construct_ok.
  - unfold prl_tx_wait_for_phy_response_run. sym.
  - unfold prl_tx_src_source_tx_run. sym.
  - unfold prl_tx_snk_start_ams_run. sym.
  - unfold prl_tx_src_pending_run. sym. apply construct_ok; auto with prl.
  - unfold prl_tx_snk_pending_run. destruct (tcpm_get_cc (world p)). cbv zeta. sym;
      apply send_pending_ok; auto with prl.
Qed.

Lemma hr_run_ok s p0 p :
  at_rest p0 -> sound p0 -> good p0 p -> returns (run set (StHr s) p) (good p0).
Proof.
  intros Hrest Hs G. destruct s; cbn [run].
  - unfold prl_hr_wait_for_request_run. sym.
  - unfold prl_hr_reset_layer_run, prl_hr_send_msg_to_phy. sym.
  - unfold prl_hr_wait_for_phy_hard_reset_complete_run. destruct (PDMSG_CHK_FLAG _ p); sym.
  - unfold prl_hr_wait_for_pe_hard_reset_complete_run. sym.
Qed.

Lemma processing_run_ok p0 p :
  at_rest p0 -> sound p0 -> good p0 p ->
  returns (rch_processing_extended_message_run set p) (good p0).
Proof.
  intros Hrest Hs G. unfold rch_processing_extended_message_run. cbv zeta.
  set (n0 := u32 (_ - _)). set (num := if _ <=? n0 then _ else _).
  assert (Hn : 0 <= num <= 26).
  { subst num n0. unfold PD_MAX_EXTENDED_MSG_CHUNK_LEN.
    pose proof (wrap_range 32 (PD_EXT_HEADER_DATA_SIZE (GET_EXT_HEADER (rx_chk_word0 p)) -
      num_bytes_received (pdmsg p)) ltac:(lia)) as [? _]. case_match; lia. }
  pose proof (wf_pd _ (good_wf _ _ G)) as (_ & _ & _ & _ & _ & Hr & _). clearbody num.
  destruct (Z.ltb_spec EXTENDED_BUFFER_SIZE (u32 (num_bytes_received (pdmsg p) + num))) as [|Hb]; [sym|].
  unfold EXTENDED_BUFFER_SIZE, wrap in Hb, Hr. rewrite Z.mod_small in Hb by lia.
  assert (G2 : good p0 (append_chunk num p)) by (apply good_append; [done|done|done]).
  sym. apply good_set_rx_emsg; [|done]. intros [_ _ Hw _ _ _]. revert Hw. wfs.
Qed.

Lemma rch_run_ok s p0 p :
  at_rest p0 -> sound p0 -> good p0 p -> returns (run set (StRch s) p) (good p0).
Proof.
  intros Hrest Hs G. destruct s; cbn [run]; try (by apply returns_some).
  - unfold rch_wait_for_message_from_protocol_layer_run. sym.
  - by apply processing_run_ok.
  - unfold rch_requesting_chunk_run. sym.
  - unfold rch_waiting_chunk_run. sym.
  - unfold rch_report_error_run. sym.
Qed.

Lemma tch_run_ok s p0 p :
  at_rest p0 -> sound p0 -> good p0 p -> current (ctx MTch p) = Some (StTch s) ->
  returns (run set (StTch s) p) (good p0).
Proof.
  intros Hrest Hs G Hcur. destruct s; cbn [run]; try (by apply returns_some).
  - unfold tch_wait_for_message_request_from_pe_run. sym.
  - unfold tch_wait_for_transmission_complete_run. sym.
  - unfold tch_construct_chunked_message_run. sym.
  - unfold tch_sending_chunked_message_run. pose proof (wf_tx_emsg _ (good_wf _ _ G)) as [Hlen _].
    destruct (Z.ltb_spec (send_offset (pdmsg p)) (len (tx_emsg p))); cbn [andb]; sym.
    apply set_lasting; [cbn; lia|done| |done|auto with prl]. intros _. unfold more_to_send. cbn. lia.
  - pose proof (wf_wait _ (good_wf _ _ G) Hcur) as Hmore. unfold tch_wait_chunk_request_run. sym.
  - unfold tch_message_received_run. sym.
Qed.

Lemma run_ok s p0 p :
  at_rest p0 -> sound p0 -> good p0 p -> current (ctx (machine_of s) p) = Some s ->
  returns (run set s p) (good p0).
Proof. destruct s; intros ? ? ? ?; [by apply tx_run_ok|by apply hr_run_ok|by apply rch_run_ok|by apply tch_run_ok]. Qed.

Lemma good_running p q m b : good p q -> good p (upd_ctx m (set_running b) q).
Proof.
  intros G. eapply good_states; [done|by apply wf_upd_ctx, (good_wf _ _ G)|by destruct m|by destruct m|].
  intros m'. by destruct m, m'.
Qed.

Lemma run_state_ok m p0 p :
  at_rest p0 -> sound p0 -> good p0 p -> returns (run_state set m p) (good p0).
Proof.
  intros Hrest Hs G. unfold run_state. cbv zeta.
  assert (G2 : good p0 (upd_ctx m (set_running true) p)) by by apply good_running.
  eapply returns_bind.
  - destruct (current (ctx m (upd_ctx m (set_running true) p))) as [s|] eqn:Es; [|by apply returns_some].
    apply run_ok; try done. destruct (good_resting m _ _ G2 (Hrest m)) as [_ Hl].
    by destruct (Hl s Es) as [_ ->].
  - intros q G3. by apply returns_some, good_running.
Qed.

Lemma rx_ok p0 p :
  at_rest p0 -> sound p0 -> good p0 p -> returns (prl_rx_wait_for_phy_message set p) (good p0).
Proof.
  intros Hrest Hs G. unfold prl_rx_wait_for_phy_message.
  case_match; [by apply returns_some|].
  pose proof (dequeue_valid (world p)) as Hd.
  destruct (tcpm_dequeue_message (world p)) as [[[payload h]|] w]; [|sym].
  destruct (Hd _ _ _ eq_refl) as (Hlp & Hbp & Hsop). pose proof (sop_nonneg h) as Hsop0. cbv zeta.
  pose proof (id_range h) as Hid.
  set (q1 := load_packet _ _ _).
  assert (G1 : good p0 q1) by by apply good_load, good_world.
  clearbody q1. sym.
  - by apply good_reset_ids.
  - apply good_set_rx_emsg; [wfs|]. apply good_upd_rx; [wfs|done].
Qed.

(** *** The layer *)

(** Between two operations. *)
Definition ready p : Prop := wf p /\ at_rest p /\ forall m, exiting (ctx m p) = false.
Definition live p : Prop := forall m, current (ctx m p) <> None.

Lemma ready_sound p : ready p -> sound p.
Proof.
  intros (_ & Hr & _). split.
  - intros m s. apply resting_last, Hr.
  - intros E. by destruct (resting_last _ _ _ (Hr MTx) E).
Qed.
Lemma good_ready p q : good p q -> ready p -> ready q.
Proof.
  intros G (_ & Hr & He). split_and!; [by destruct G| |].
  - intros m. by apply (good_resting m _ _ G).
  - intros m. by rewrite (good_exiting _ _ G).
Qed.
Lemma ready_cleared m p : ready p -> ready (upd_ctx m (fun _ => cleared) p).
Proof.
  intros (Hw & Hr & He). split; [by apply wf_upd_ctx|].
  split; intros m'; destruct (decide (m' = m)) as [->|].
  - unfold resting, lasting. by rewrite ctx_upd_same.
  - unfold resting, lasting. rewrite ctx_upd_other by done. apply Hr.
  - by rewrite ctx_upd_same.
  - by rewrite ctx_upd_other.
Qed.

(** Starting machine [m] afresh in state [s]. *)
Lemma restart_ok s p :
  (cost s <= n)%nat -> needs_more s = false -> ready p ->
  returns (set s (upd_ctx (machine_of s) (fun _ => cleared) p)) (fun q =>
    ready q /\ current (ctx (machine_of s) q) <> None /\
    (forall m, m <> machine_of s -> current (ctx m p) <> None -> current (ctx m q) <> None)).
Proof.
  intros Hc Hmo Hr. set (p1 := upd_ctx _ _ p).
  assert (R1 : ready p1) by by apply ready_cleared.
  eapply returns_weaken; [apply set_ok; [done|apply R1|]|].
  - apply sound_allowed; [by apply ready_sound| |by rewrite Hmo]. intros _ _. apply R1.
  - intros q [G Hs]. split_and!; [by eapply good_ready|apply Hs, R1|].
    intros m Hm Hl. apply (good_live _ _ G). unfold p1. by rewrite ctx_upd_other.
Qed.

Lemma init_ok p : ready p -> returns (prl_init set p) (fun q => ready q /\ live q).
Proof.
  intros Hr. pose proof (good_refl p (proj1 Hr)) as G. unfold prl_init. cbv zeta.
  match goal with |- context [upd_tx (set_tx_ctx cleared) ?q] => set (q0 := q) end.
  assert (R0 : ready q0).
  { apply (good_ready p); [|done]. subst q0. apply good_timers, good_reset_all.
    apply good_upd_hr; [done|]. apply good_upd_pdmsg; [wfs|done|]. apply good_upd_rch; [done|].
    apply good_upd_tch; [done|]. apply good_upd_tx; [done|wfs|]. apply good_emit.
    by apply good_upd_tx. }
  clearbody q0. clear G Hr p.
  eapply returns_bind; [apply (restart_ok (StTx PRL_TX_PHY_LAYER_RESET)); [cbn; lia|done|done]|].
  intros q1 (R1 & L1 & _).
  eapply returns_bind;
    [apply (restart_ok (StRch RCH_WAIT_FOR_MESSAGE_FROM_PROTOCOL_LAYER)); [cbn; lia|done|done]|].
  intros q2 (R2 & L2 & K2).
  eapply returns_bind;
    [apply (restart_ok (StTch TCH_WAIT_FOR_MESSAGE_REQUEST_FROM_PE)); [cbn; lia|done|done]|].
  intros q3 (R3 & L3 & K3).
  eapply returns_weaken; [apply (restart_ok (StHr PRL_HR_WAIT_FOR_REQUEST)); [cbn; lia|done|done]|].
  intros q4 (R4 & L4 & K4). split; [done|]. cbn [machine_of] in *.
  intros []; [apply K4; [done|]; apply K3; [done|]; by apply K2|done|apply K4; [done|]; by apply K3
             |by apply K4].
Qed.

Lemma run_messages_ok p0 p :
  at_rest p0 -> sound p0 -> good p0 p -> returns (run_messages set p) (good p0).
Proof.
  intros Hrest Hs G. unfold run_messages.
  apply (returns_bind _ _ (good p0)); [by apply rx_ok|]. intros q1 G1.
  apply (returns_bind _ _ (good p0)); [by apply run_state_ok|]. intros q2 G2.
  apply (returns_bind _ _ (good p0)); [by apply run_state_ok|]. intros q3 G3.
  apply (returns_bind _ _ (good p0)); [by apply run_state_ok|]. intros q4 G4.
  by apply run_state_ok.
Qed.

Lemma run_enabled_ok en p :
  ready p -> returns (prl_run_enabled set en p) (good p).
Proof.
  intros Hr. pose proof (good_refl p (proj1 Hr)) as G. pose proof (ready_sound p Hr) as Hs.
  unfold prl_run_enabled. destruct en; cbn [negb].
  - apply (returns_bind _ _ (good p)); [apply run_state_ok; [apply Hr|done|done]|]. intros q1 G1.
    case_match; [|by apply returns_some]. apply run_messages_ok; [apply Hr|done|done].
  - apply returns_some. by apply good_local, good_emit.
Qed.

(** The invariant of the layer. *)
Definition inv p : Prop := ready p /\ (local_state p = SM_RUN -> live p).

Lemma start_ok en p :
  ready p -> returns (q ← prl_init set p; prl_run_enabled set en (set_local_state SM_RUN q)) inv.
Proof.
  intros Hr. eapply returns_bind; [by apply init_ok|]. intros q [Rq Lq].
  eapply returns_weaken; [apply run_enabled_ok|].
  - destruct Rq as ([] & ? & ?). by split.
  - intros q2 G. split; [eapply good_ready; [done|]; destruct Rq as ([] & ? & ?); by split|].
    intros _ m. apply (good_live _ _ G). apply Lq.
Qed.

Lemma prl_run_ok en p : inv p -> returns (prl_run set en p) inv.
Proof.
  intros [Hr Hl]. unfold prl_run. destruct (local_state p) eqn:E; [by apply start_ok| |].
  - eapply returns_weaken; [by apply run_enabled_ok|]. intros q G.
    split; [by eapply good_ready|]. intros _ m. apply (good_live _ _ G). by apply Hl.
  - destruct en; cbn [negb]; [by apply start_ok|]. apply returns_some. by split; [|rewrite E].
Qed.

Lemma request_inv r p : valid_request r -> inv p -> returns (do_request set r p) inv.
Proof.
  intros Hv [Hr Hl].
  eapply returns_weaken; [apply (request_ok r p p); [lia|done|by apply ready_sound|]|].
  - by apply good_refl, Hr.
  - intros q G. split; [by eapply good_ready|]. intros Hq m. apply (good_live _ _ G), Hl.
    by apply (good_run _ _ G).
Qed.
End Run.
(** The message is passed up before anything else, and its sending
    reported. *)
Lemma pass_up_log p :
  (3 <= n)%nat -> wf p -> sound p ->
  returns (entry set (StRch RCH_PASS_UP_MESSAGE) p) (fun q =>
    (log p ++ [PeMessageReceived (rx_emsg p) (sop (prl_rx p))]) `prefix_of` log q).
Proof.
  intros Hn Hw Hs. eapply returns_bind; [by apply call_log|]. intros q [G Hl].
  eapply returns_weaken; [apply (set_lasting (StRch RCH_WAIT_FOR_MESSAGE_FROM_PROTOCOL_LAYER) q q)|].
  - cbn. lia.
  - done.
  - done.
  - by eapply good_sound.
  - by apply good_refl, (good_wf _ _ G).
  - intros q2 G2. by rewrite <- (good_calls _ _ G2).
Qed.
Lemma message_sent_log p :
  (4 <= n)%nat -> wf p -> sound p ->
  returns (entry set (StTch TCH_MESSAGE_SENT) p) (fun q => (log p ++ [PeMessageSent]) `prefix_of` log q).
Proof.
  intros Hn Hw Hs. eapply returns_bind; [apply call_log; [lia|done|done]|]. intros q [G Hl].
  eapply returns_weaken; [apply (tch_leave_ok q q)|].
  - done.
  - by eapply good_sound.
  - by apply good_refl, (good_wf _ _ G).
  - intros q2 [G2 _]. by rewrite <- (good_calls _ _ G2).
Qed.

End Level.

(** ** Transitions *)


(** What is preserved while machine [m] changes state. *)
Record good_except (m : machine) p q : Prop := {
  ge_wf : wf q;
  ge_exiting m' : exiting (ctx m' q) = exiting (ctx m' p);
  ge_reset : m <> MTx -> not_resetting p -> not_resetting q;
  ge_typed m' : m' <> m -> typed m' p -> typed m' q;
  ge_enter m' : m' <> m -> enter (ctx m' p) = false -> enter (ctx m' q) = false;
  ge_lasting m' : m' <> m -> lasting m' p -> lasting m' q;
  ge_live m' : m' <> m -> current (ctx m' p) <> None -> current (ctx m' q) <> None;
  ge_run : local_state q = SM_RUN -> local_state p = SM_RUN;
  ge_calls : log p `prefix_of` log q }.

Lemma good_ge m p q : good p q -> good_except m p q.
Proof. intros []. split; auto. Qed.

Lemma ge_trans m p1 p2 p3 : good_except m p1 p2 -> good_except m p2 p3 -> good_except m p1 p3.
Proof.
  intros [G1 E1 ? ? ? ? ? ? ?] [G2 E2 ? ? ? ? ? ? ?].
  split; [done|intros m'; by rewrite E2|auto..|by etrans].
Qed.

Lemma ge_upd m f p :
  wf (upd_ctx m f p) -> (forall c, exiting (f c) = exiting c) -> good_except m p (upd_ctx m f p).
Proof.
  intros Hw Hf. split; unfold not_resetting, typed, lasting, last.
  - done.
  - intros m'. destruct (decide (m' = m)) as [->|]; [by rewrite ctx_upd_same|by rewrite ctx_upd_other].
  - intros ?. by rewrite ctx_upd_other.
  - intros m' ?. by rewrite ctx_upd_other.
  - intros m' ?. by rewrite ctx_upd_other.
  - intros m' ?. by rewrite ctx_upd_other.
  - intros m' ?. by rewrite ctx_upd_other.
  - by destruct m.
  - by destruct m.
Qed.

Lemma ge_good m p q :
  good_except m p q -> resting m q -> typed m q -> (m = MTx -> not_resetting q) ->
  current (ctx m q) <> None -> good p q.
Proof.
  intros [] [] ? ? ?. split; [done|done|..].
  - destruct (decide (m = MTx)); auto.
  - intros m'. destruct (decide (m' = m)) as [->|]; auto.
  - intros m'. destruct (decide (m' = m)) as [->|]; auto.
  - intros m'. destruct (decide (m' = m)) as [->|]; auto.
  - intros m'. destruct (decide (m' = m)) as [->|]; auto.
  - done.
  - done.
Qed.

Lemma last_exiting m m' b p : last m' (upd_ctx m (set_exiting b) p) = last m' p.
Proof. by destruct m, m'. Qed.
Lemma current_exiting m m' b p : current (ctx m' (upd_ctx m (set_exiting b) p)) = current (ctx m' p).
Proof. by destruct m, m'. Qed.
Lemma enter_exiting m m' b p : enter (ctx m' (upd_ctx m (set_exiting b) p)) = enter (ctx m' p).
Proof. by destruct m, m'. Qed.

(** Leaving a state: its exit function runs with [exiting] set. *)
Lemma bracket m p q :
  exiting (ctx m p) = false -> good (upd_ctx m (set_exiting true) p) q ->
  good p (upd_ctx m (set_exiting false) q).
Proof.
  intros E [Hw He Hr Ht Hn Hl Hv Hu Ho]. unfold not_resetting, typed, lasting in *.
  split; unfold not_resetting, typed, lasting.
  - by apply wf_upd_ctx.
  - intros m'. specialize (He m'). destruct (decide (m' = m)) as [->|];
      [by rewrite ctx_upd_same|]. by rewrite ctx_upd_other in He |- *.
  - rewrite !last_exiting in *. auto.
  - intros m'. specialize (Ht m'). rewrite !last_exiting in *. auto.
  - intros m'. specialize (Hn m'). rewrite !enter_exiting in *. auto.
  - intros m'. specialize (Hl m'). rewrite !current_exiting in *. auto.
  - intros m'. specialize (Hv m'). rewrite !current_exiting in *. auto.
  - destruct m; exact Hu.
  - destruct m; exact Ho.
Qed.

Definition leave (n : nat) (s : state) p : option prl :=
  match last (machine_of s) p with
  | Some l =>
    if decide (l = s) then Some p
    else q ← exit (set_state n) l (upd_ctx (machine_of s) (set_exiting true) p);
         Some (upd_ctx (machine_of s) (set_exiting false) q)
  | None => Some p
  end.
Definition arrive (s : state) p : prl :=
  upd_ctx (machine_of s) (fun c => set_enter true (set_last_entered None
    (set_current (Some s) (set_previous (current c) c)))) p.
Definition enter_state (n : nat) (s : state) (same : bool) p : option prl :=
  if same then Some p
  else entry (set_state n) s (upd_ctx (machine_of s) (set_last_entered (Some s)) p).
Definition finish (m : machine) p : prl :=
  task_wake (upd_ctx m (fun c => set_running false (set_enter false c)) p).

Lemma set_state_eq n s p :
  set_state (S n) s p =
    if exiting (ctx (machine_of s) p) then Some p
    else p1 ← leave n s p;
         p2 ← enter_state n s (bool_decide (last (machine_of s) p = Some s)) (arrive s p1);
         Some (finish (machine_of s) p2).
Proof.
  cbn [set_state]. unfold leave, arrive, enter_state, finish, last.
  destruct (exiting _); [done|]. match goal with |- (?o ≫= _) = _ => destruct o as [p1|]; [|done] end.
  cbn [mbind option_bind].
  case_bool_decide as E; [by rewrite decide_True|by rewrite decide_False].
Qed.

Lemma finish_ge m p : wf p -> good_except m p (finish m p).
Proof.
  intros Hw. apply (ge_trans _ _ (upd_ctx m (fun c => set_running false (set_enter false c)) p)).
  { by apply ge_upd; [apply wf_upd_ctx|]. }
  by apply good_ge, good_emit, good_refl, wf_upd_ctx.
Qed.
Lemma finish_ctx m p :
  ctx m (finish m p) = set_running false (set_enter false (ctx m p)).
Proof. by destruct m. Qed.

(** Once its entry has run, the machine of [s] is at rest. *)
Lemma finish_good m p q :
  good_except m p q -> lasting m q -> current (ctx m q) <> None ->
  good p (finish m q) /\ resting m (finish m q) /\ current (ctx m (finish m q)) <> None.
Proof.
  intros G Hl Hc.
  assert (R : resting m (finish m q)).
  { split; [by rewrite finish_ctx|]. intros s. rewrite finish_ctx. apply Hl. }
  assert (Hc' : current (ctx m (finish m q)) <> None) by by rewrite finish_ctx.
  split_and!; [|done|done]. apply (ge_good m); [|done|..|done].
  - eapply ge_trans; [done|]. apply finish_ge. by destruct G.
  - intros s Hs. by apply (resting_last m _ s R).
  - intros -> E. by destruct (resting_last MTx _ _ R E).
Qed.

Lemma leave_ok n s p :
  (forall s p, (cost s <= n)%nat -> wf p -> allowed s p ->
     returns (set_state n s p) (fun q => good p q /\ settled s p q)) ->
  (cost s <= S n)%nat -> wf p -> allowed s p -> exiting (ctx (machine_of s) p) = false ->
  returns (leave n s p) (good p).
Proof.
  intros IH Hc Hw (Hty & Hr & Ht & _) E. unfold leave.
  destruct (last (machine_of s) p) as [l|] eqn:El; [|by apply returns_some, good_refl].
  case_decide; [by apply returns_some, good_refl|].
  set (px := upd_ctx (machine_of s) (set_exiting true) p).
  assert (Gx : good px px) by by apply good_refl, wf_upd_ctx.
  eapply returns_bind; [apply (exit_ok _ n IH l px px); [|done]|].
  - intros Hm. assert (Hs : machine_of s = MHr) by (rewrite <- Hm; symmetry; by apply Hty).
    destruct s; try discriminate. cbn in Hc. split; [lia|]. split.
    + intros m. unfold typed, px. rewrite last_exiting. apply Hty.
    + unfold not_resetting, px. rewrite last_exiting. by apply Hr.
  - intros q G. apply returns_some. by apply bracket.
Qed.

Lemma wf_arrive s p :
  wf p -> (needs_more s = true -> more_to_send (pdmsg p)) -> wf (arrive s p).
Proof.
  intros Hw Hm. unfold arrive. destruct (needs_more s) eqn:E; [by apply wf_upd_ctx_more; [|apply Hm]|].
  apply wf_upd_ctx; [|done]. cbn. intros [= ->]. done.
Qed.
Lemma arrive_ge s p :
  wf p -> (needs_more s = true -> more_to_send (pdmsg p)) -> good_except (machine_of s) p (arrive s p).
Proof. intros. by apply ge_upd; [apply wf_arrive|]. Qed.
Lemma arrive_ctx s p :
  current (ctx (machine_of s) (arrive s p)) = Some s /\
  exiting (ctx (machine_of s) (arrive s p)) = exiting (ctx (machine_of s) p).
Proof. unfold arrive. by rewrite ctx_upd_same. Qed.

(** The state at the start of an entry function. *)
Definition entering (s : state) p : prl :=
  upd_ctx (machine_of s) (set_last_entered (Some s)) (arrive s p).

Lemma entering_ge s p :
  wf p -> (needs_more s = true -> more_to_send (pdmsg p)) -> good_except (machine_of s) p (entering s p).
Proof.
  intros. eapply ge_trans; [by apply arrive_ge|]. apply ge_upd; [|done]. by apply wf_upd_ctx, wf_arrive.
Qed.
Lemma entering_ctx s p :
  last (machine_of s) (entering s p) = Some s /\
  current (ctx (machine_of s) (entering s p)) = Some s /\
  exiting (ctx (machine_of s) (entering s p)) = exiting (ctx (machine_of s) p).
Proof. unfold last, entering, arrive. by rewrite !ctx_upd_same. Qed.

Lemma entering_sound s p :
  wf p -> (needs_more s = true -> more_to_send (pdmsg p)) ->
  (forall m, typed m p) -> (s <> StTx PRL_TX_WAIT_FOR_MESSAGE_REQUEST -> not_resetting p) ->
  (forall m, typed m (entering s p)) /\
  (s <> StTx PRL_TX_PHY_LAYER_RESET -> not_resetting (entering s p)).
Proof.
  intros Hw Hm Hty Hr. destruct (entering_ctx s p) as (L & _ & _).
  pose proof (entering_ge s p Hw Hm) as Ge. split.
  - intros m. destruct (decide (m = machine_of s)) as [->|]; [|by apply (ge_typed _ _ _ Ge)].
    intros s'. rewrite L. by intros [= <-].
  - intros Hne. destruct (decide (machine_of s = MTx)) as [Em|Em].
    + unfold not_resetting. rewrite <- Em, L. congruence.
    + apply (ge_reset _ _ _ Ge); [done|]. apply Hr. by destruct s.
Qed.

Lemma entry_ok n s p :
  (forall s p, (cost s <= n)%nat -> wf p -> allowed s p ->
     returns (set_state n s p) (fun q => good p q /\ settled s p q)) ->
  (cost s <= S n)%nat -> wf p -> (needs_more s = true -> more_to_send (pdmsg p)) ->
  (forall m, typed m p) -> (s <> StTx PRL_TX_WAIT_FOR_MESSAGE_REQUEST -> not_resetting p) ->
  exiting (ctx (machine_of s) p) = false ->
  returns (entry (set_state n) s (entering s p))
    (fun q => good (entering s p) q /\ lasting (machine_of s) q /\
              current (ctx (machine_of s) q) <> None).
Proof.
  intros IH Hc Hw Hm Hty Hr E. destruct (entering_ctx s p) as (L & C & X).
  pose proof (ge_wf _ _ _ (entering_ge s p Hw Hm)) as Hwe.
  destruct (entering_sound s p Hw Hm Hty Hr) as [Te Re]. destruct (transient s) eqn:Ht.
  - eapply returns_weaken; [by apply (entry_leaves _ n IH)|].
    intros q [G Hq]. destruct Hq as [[_ Hl] ?]; [congruence|]. done.
  - assert (Hs : sound (entering s p)) by (split; [done|]; apply Re; by intros ->).
    assert (Hm' : needs_more s = true -> current (ctx MTch (entering s p)) = Some s /\
                   more_to_send (pdmsg (entering s p))).
    { intros En. specialize (Hm En). by destruct s as [| | |[]]. }
    eapply returns_weaken; [by apply (entry_lasting _ n IH _ (entering s p)); auto using good_refl|].
    intros q G. split; [done|]. split.
    + apply (good_lasting _ _ G). intros s'. rewrite C. by intros [= <-].
    + apply (good_live _ _ G). by rewrite C.
Qed.

(** Leaving a state of [tch] does not touch the message. *)
Lemma leave_pdmsg n s p q :
  typed MTch p -> machine_of s = MTch -> leave n s p = Some q -> pdmsg q = pdmsg p.
Proof.
  intros Hty Hs. unfold leave. rewrite Hs. destruct (last MTch p) as [l|] eqn:El; [|by intros [= <-]].
  case_decide; [by intros [= <-]|]. specialize (Hty l El). destruct l as [| | |l]; try discriminate.
  destruct l; cbn; by intros [= <-].
Qed.

(** Entry and exit of states nest no deeper than the cost of the target. *)
Lemma set_state_ok n : forall s p,
  (cost s <= n)%nat -> wf p -> allowed s p ->
  returns (set_state n s p) (fun q => good p q /\ settled s p q).
Proof.
  induction n as [|n IH]; intros s p Hc Hw Ha; [by destruct s as [[]|[]|[]|[]]; cbn in Hc; lia|].
  rewrite set_state_eq. destruct (exiting _) eqn:E.
  { apply returns_some. split; [by apply good_refl|]. unfold settled. congruence. }
  set (m := machine_of s) in *.
  destruct (leave_ok n s p IH Hc Hw Ha E) as (p1 & E1 & G1).
  destruct Ha as (Hty & Hr & Ht & Hm). pose proof (good_wf _ _ G1) as Hw1.
  assert (Hm1 : needs_more s = true -> more_to_send (pdmsg p1)).
  { intros En. rewrite (leave_pdmsg n s p p1 (Hty MTch)); [auto|by destruct s|done]. }
  rewrite E1. cbn [mbind option_bind].
  enough (returns (enter_state n s (bool_decide (last m p = Some s)) (arrive s p1))
    (fun q => good_except m p q /\ lasting m q /\ current (ctx m q) <> None)) as Hq.
  { eapply returns_bind; [exact Hq|]. intros q (Gq & Hl & Hn). apply returns_some.
    destruct (finish_good m p q Gq Hl Hn) as (? & ?). by split; [|intros _]. }
  assert (Ga : good_except m p (arrive s p1)).
  { eapply ge_trans; [by apply good_ge|]. by apply arrive_ge. }
  case_bool_decide as Hsame; cbn [enter_state].
  - apply returns_some. split; [done|]. unfold lasting, m. rewrite (proj1 (arrive_ctx s p1)).
    split; [|done]. intros s' [= <-]. split; [|done].
    destruct (transient s) eqn:Et; [|done]. exfalso.
    destruct (decide (s = StTx PRL_TX_PHY_LAYER_RESET)) as [->|Hne]; [by apply Hr|].
    destruct (resting_last m p s (Ht eq_refl Hne) Hsame). congruence.
  - eapply returns_weaken; [apply (entry_ok n s p1 IH); auto|].
    + intros m'. by apply (good_typed _ _ G1).
    + intros Hne. by apply (good_reset _ _ G1), Hr.
    + by rewrite (good_exiting _ _ G1).
    + intros q (Gq & Hl & Hn). split_and!; [|done|done].
      eapply ge_trans; [by apply good_ge|]. eapply ge_trans; [by apply entering_ge|].
      by apply good_ge.
Qed.

(** ** The result *)

Definition valid_op (o : op) : Prop := match o with Run _ => True | Request r => valid_request r end.

Lemma step_ok o p : valid_op o -> inv p -> returns (step o p) inv.
Proof.
  intros Hv Hi. destruct o as [en|r]; cbn [step].
  - by apply (prl_run_ok _ depth (set_state_ok depth)).
  - by apply (request_inv _ depth (set_state_ok depth)).
Qed.

Lemma steps_ok ops : forall p, Forall valid_op ops -> inv p -> returns (steps ops p) inv.
Proof.
  induction ops as [|o ops IH]; intros p Hv Hi; [by exists p|].
  inversion_clear Hv. destruct (step_ok o p) as (q & E & Hq); [done|done|].
  cbn [steps]. rewrite E. by apply IH.
Qed.

End Safe.

(** ** A client

    A policy engine that asks for a hard reset when it hears of an error and
    completes it when told, over a controller that acknowledges at once and
    hands over the packets it was given. *)

Record demo := Demo { demo_time : Z; demo_ams : bool; demo_in : list (list Z * Z) }.

#[export] Instance demo_client : Client demo := {|
  get_time := demo_time;
  pe_in_local_ams := demo_ams;
  pe_in_frs_mode _ := false;
  pd_get_power_role _ := 1;
  pd_get_data_role _ := 1;
  tc_get_cable_plug _ := 0;
  pd_is_connected _ := true;
  tcpm_get_cc _ := (TYPEC_CC_VOLT_RP_3_0, 0);
  tcpm_has_pending_message w := match demo_in w with [] => false | _ => true end;
  beyond_tx_emsg _ i := u8 i;
  tcpm_dequeue_message w :=
    match demo_in w with
    | [] => (None, w)
    | (payload, h) :: l =>
      (if decide (length payload = 28%nat /\ is_bytes payload /\
                  PD_HEADER_GET_SOP h < NUM_SOP_STAR_TYPES)
       then Some (payload, h) else None, Demo (demo_time w) (demo_ams w) l)
    end;
  notify _ w := Demo (demo_time w + 1000) (demo_ams w) (demo_in w);
  calls o w :=
    (match o with
     | TcpmTransmit _ _ _ => [TransmitComplete TCPC_TX_COMPLETE_SUCCESS]
     | PeReportError _ _ => [PrlExecuteHardReset]
     | PeHardResetSent | PeGotHardReset => [HardResetComplete]
     | PeGotSoftReset => [SendCtrlMsg 0 3]
     | _ => []
     end, w) |}.

#[export] Instance demo_laws : ClientLaws demo.
Proof.
  split.
  - intros [] w; cbn; repeat constructor; unfold valid_request; lia.
  - intros w i. by apply wrap_range.
  - intros w payload h w'. cbn. destruct (demo_in w) as [|[x y] l]; [done|].
    case_decide; [|done]. intros [= -> -> <-]. done.
Qed.

#[export] Instance demo_config : Config := {| port := 0; CONFIG_CMD_PD_TIMER := false |}.

(** Static storage before the task starts. *)
Definition boot_timers : PdTimer.timers :=
  PdTimer.Timers [0; 0] [0; 0] [replicate 37 0] [0] [0].
Definition boot {W} (w : W) : prl :=
  Prl SM_INIT (RxChunked cleared 0 ERR_RCH_CHUNKED) (TxChunked cleared 0 ERR_RCH_CHUNKED)
    (ProtocolLayerRx 0 (replicate 5 0)) (ProtocolLayerTx cleared 0 0 (replicate 5 0) 0)
    (ProtocolHardReset cleared 0)
    (PdMessage 0 0 0 (replicate 5 0) 0 (replicate 28 0) (replicate 28 0) 0 0 0 0 0)
    (ExtendedMsg 0 0 (replicate 260 0)) (ExtendedMsg 0 0 (replicate 260 0)) 0 boot_timers w [].

Lemma boot_inv {W} `{Client W} (w : W) : inv (boot w).
Proof.
  split; [split_and!|done].
  - split; cbn; unfold wf_rx, wf_tx, wf_pdmsg, wf_emsg; cbn; split_and?; try lia; try done;
      try concrete_range; by repeat (constructor; [unfold PD_MESSAGE_ID_COUNT; lia|]).
  - intros m. by destruct m.
  - intros m. by destruct m.
Qed.

Definition demo_ops : list op :=
  [Run true; Request SetDefaultPdRevision; Request (WriteTxEmsg 30 (replicate 30 7));
   Request (SendExtDataMsg 0 1); Run true; Run true; Request PrlExecuteHardReset; Run true;
   Run true; Run true; Run true; Request ResetSoft; Run false; Run true].


(** A policy engine that rewrites its message while chunks of it are sent: a
    message of 10 bytes becomes one of 260 before its only chunk is
    acknowledged, and one of 10 again before the tenth: that one is read from
    bytes 244 to 269 of a buffer of 260. *)
Definition chunk_request (k : Z) : list Z * Z :=
  (le_bytes 2 (PD_EXT_HEADER k 1 0) ++ replicate 26 0, 0x9082 + 0x200 * ((k - 1) mod 8)).
Definition rewriting_ops : list op :=
  [Run true; Request (SetRev 0 2); Request (WriteTxEmsg 10 (replicate 10 7));
   Request (SendExtDataMsg 0 1); Run true; Request (WriteTxEmsg 260 []); Run true] ++
  replicate 18 (Run true) ++ [Request (WriteTxEmsg 10 []); Run true].
Definition rewriting_demo : demo :=
  Demo 0 false ([([], 0); ([], 0); ([], 0)] ++
    concat ((fun k => [chunk_request k; ([], 0)]) <$> seqZ 1 10)).
Example chunk_overread :
  (fun p => (send_offset (pdmsg p), slice (tx_chk_buf (pdmsg p)) 18 10)) <$>
    steps rewriting_ops (boot rewriting_demo) = Some (270, u8 <$> seqZ 260 10).
Proof. vm_compute. reflexivity. Qed.
End UsbPrlSafe.
