(* ===== verification/UsbPrlLib.v ===== *)
(** * Lemmas on the USB-PD protocol layer

    Flag words, message headers as numbers, and what a transition does when
    the functions it runs start no other. *)

From S2P Require Import Prelude PdTimer UsbPrl UsbPrlSafe.
Import UsbPrl UsbPrlSafe.

Module UsbPrlLib.

(** ** Flags *)

Lemma any_bit_testbit i x : 0 <= i -> any_bit (BIT i) x = Z.testbit x i.
Proof.
  intros Hi. unfold any_bit, bool_of_Z, BIT. rewrite Z.shiftl_1_l.
  destruct (Z.testbit x i) eqn:E.
  - destruct (Z.eqb_spec (Z.land x (2 ^ i)) 0) as [E0|]; [|done].
    pose proof (Z.land_spec x (2 ^ i) i) as Hs.
    rewrite E0, Z.bits_0, Z.pow2_bits_true, E in Hs by done. done.
  - destruct (Z.eqb_spec (Z.land x (2 ^ i)) 0) as [|Hne]; [done|]. exfalso. apply Hne.
    apply Z.bits_inj'. intros k Hk. rewrite Z.land_spec, Z.bits_0.
    destruct (decide (i = k)) as [->|]; [by rewrite E|].
    rewrite Z.pow2_bits_false by done. apply andb_false_r.
Qed.

Lemma any_or i j x : 0 <= i -> 0 <= j ->
  any_bit (BIT i) (or_bits (BIT j) x) = any_bit (BIT i) x || (i =? j).
Proof.
  intros Hi Hj. rewrite !any_bit_testbit by done. unfold or_bits, BIT. rewrite Z.lor_spec, Z.shiftl_1_l.
  f_equal. destruct (Z.eqb_spec i j) as [->|]; [by apply Z.pow2_bits_true|by apply Z.pow2_bits_false].
Qed.
Lemma any_clear i j x : 0 <= i -> 0 <= j ->
  any_bit (BIT i) (clear_bits (BIT j) x) = any_bit (BIT i) x && negb (i =? j).
Proof.
  intros Hi Hj. rewrite !any_bit_testbit by done. unfold clear_bits, BIT.
  rewrite Z.land_spec, Z.lnot_spec, Z.shiftl_1_l by done.
  f_equal. f_equal.
  destruct (Z.eqb_spec i j) as [->|]; [by apply Z.pow2_bits_true|by apply Z.pow2_bits_false].
Qed.

Lemma clear_lor a b x : clear_bits (Z.lor a b) x = clear_bits a (clear_bits b x).
Proof.
  unfold clear_bits. apply Z.bits_inj'. intros i Hi.
  rewrite !Z.land_spec, !Z.lnot_spec, Z.lor_spec by done. rewrite negb_orb.
  by destruct (Z.testbit x i), (Z.testbit a i), (Z.testbit b i).
Qed.

(** Compute a test of an updated flag word. *)
Ltac flag :=
  unfold PRL_FLAGS_TX_COMPLETE, PRL_FLAGS_SINK_NG, PRL_FLAGS_WAIT_SINK_OK, PRL_FLAGS_TX_ERROR,
    PRL_FLAGS_PE_HARD_RESET, PRL_FLAGS_HARD_RESET_COMPLETE, PRL_FLAGS_PORT_PARTNER_HARD_RESET,
    PRL_FLAGS_MSG_XMIT, PRL_FLAGS_MSG_RECEIVED, PRL_FLAGS_ABORT, PRL_FLAGS_CHUNKING,
    PRL_FLAGS_IGNORE_DATA_ROLE in *;
  rewrite ?clear_lor; rewrite ?any_clear, ?any_or by lia; cbn [Z.eqb Pos.eqb negb];
  rewrite ?andb_true_r, ?andb_false_r, ?orb_false_r, ?orb_true_r; try assumption; try reflexivity.
Lemma any_zero f : any_bit f 0 = false.
Proof. done. Qed.

(** ** Headers as numbers *)

Lemma lor_shift a b k : 0 <= k -> 0 <= a < 2 ^ k -> Z.lor a (Z.shiftl b k) = a + b * 2 ^ k.
Proof.
  intros Hk Ha. rewrite Z.shiftl_mul_pow2 by done.
  rewrite <- (Z.lxor_lor a (b * 2 ^ k)).
  - symmetry. apply Z.add_nocarry_lxor. apply Z.bits_inj'. intros i Hi.
    rewrite Z.land_spec, Z.bits_0. destruct (Z.lt_ge_cases i k).
    + rewrite Z.mul_pow2_bits_low by done. apply andb_false_r.
    + by rewrite (bits_above k a i) by (done || lia).
  - apply Z.bits_inj'. intros i Hi.
    rewrite Z.land_spec, Z.bits_0. destruct (Z.lt_ge_cases i k).
    + rewrite Z.mul_pow2_bits_low by done. apply andb_false_r.
    + by rewrite (bits_above k a i) by (done || lia).
Qed.

Definition header_fields (type prole drole id cnt rev ext : Z) : Prop :=
  0 <= type < 32 /\ 0 <= prole < 2 /\ 0 <= drole < 2 /\ 0 <= id < 8 /\ 0 <= cnt < 8 /\
  0 <= rev < 4 /\ 0 <= ext < 2.

Lemma PD_HEADER_sum type prole drole id cnt rev ext :
  header_fields type prole drole id cnt rev ext ->
  PD_HEADER type prole drole id cnt rev ext =
    type + drole * 32 + rev * 64 + prole * 256 + id * 512 + cnt * 4096 + ext * 32768.
Proof.
  intros (?&?&?&?&?&?&?). unfold PD_HEADER.
  rewrite <- (Z.lor_assoc type), (Z.lor_comm (Z.shiftl rev 6)), Z.lor_assoc.
  rewrite (lor_shift type), (lor_shift _ rev) by lia. rewrite (lor_shift _ prole) by lia.
  rewrite (lor_shift _ id) by lia. rewrite (lor_shift _ cnt) by lia. rewrite (lor_shift _ ext) by lia.
  lia.
Qed.

Lemma field_spec x i k : 0 <= i -> 0 <= k -> Z.land (Z.shiftr x i) (2 ^ k - 1) = (x / 2 ^ i) mod 2 ^ k.
Proof. intros. rewrite land_mask, Z.shiftr_div_pow2 by done. done. Qed.

Lemma mask_val x k : 0 <= k -> Z.land x (2 ^ k - 1) = x mod 2 ^ k.
Proof. apply land_mask. Qed.
Lemma type_val h : PD_HEADER_TYPE h = h mod 32.
Proof. apply (mask_val h 5). lia. Qed.
Lemma prole_val h : PD_HEADER_PROLE h = (h / 256) mod 2.
Proof. by apply (field_spec h 8 1). Qed.
Lemma drole_val h : PD_HEADER_DROLE h = (h / 32) mod 2.
Proof. by apply (field_spec h 5 1). Qed.
Lemma id_val h : PD_HEADER_ID h = (h / 512) mod 8.
Proof. by apply (field_spec h 9 3). Qed.
Lemma cnt_val h : PD_HEADER_CNT h = (h / 4096) mod 8.
Proof. by apply (field_spec h 12 3). Qed.
Lemma rev_val h : PD_HEADER_REV h = (h / 64) mod 4.
Proof. by apply (field_spec h 6 2). Qed.
Lemma ext_val h : PD_HEADER_EXT h = (h / 32768) mod 2.
Proof. by apply (field_spec h 15 1). Qed.
Lemma sop_val h : PD_HEADER_GET_SOP h = (h / 268435456) mod 16.
Proof. by apply (field_spec h 28 4). Qed.
Lemma chunk_num_val h : PD_EXT_HEADER_CHUNK_NUM h = (h / 2048) mod 16.
Proof. by apply (field_spec h 11 4). Qed.
Lemma req_chunk_val h : PD_EXT_HEADER_REQ_CHUNK h = (h / 1024) mod 2.
Proof. by apply (field_spec h 10 1). Qed.
Lemma data_size_val h : PD_EXT_HEADER_DATA_SIZE h = h mod 512.
Proof. apply (mask_val h 9). lia. Qed.
Lemma chunked_val h : PD_EXT_HEADER_CHUNKED h = (h / 32768) mod 2.
Proof. by apply (field_spec h 15 1). Qed.
Lemma ext_header_val h : GET_EXT_HEADER h = h mod 65536.
Proof. apply (mask_val h 16). lia. Qed.

Ltac pow2 :=
  repeat match goal with
    | |- context [2 ^ ?n] => let v := eval vm_compute in (2 ^ n) in change (2 ^ n) with v
    end.

(** Packing and unpacking a message header are inverse. *)
Lemma header_roundtrip type prole drole id cnt rev ext :
  header_fields type prole drole id cnt rev ext ->
  let h := u16 (u32 (PD_HEADER type prole drole id cnt rev ext)) in
  PD_HEADER_TYPE h = type /\ PD_HEADER_PROLE h = prole /\ PD_HEADER_DROLE h = drole /\
  PD_HEADER_ID h = id /\ PD_HEADER_CNT h = cnt /\ PD_HEADER_REV h = rev /\ PD_HEADER_EXT h = ext /\
  PD_HEADER_GET_SOP h = TCPCI_MSG_SOP.
Proof.
  intros Hf h. assert (Eh : h = PD_HEADER type prole drole id cnt rev ext).
  { subst h. rewrite PD_HEADER_sum by done. destruct Hf as (?&?&?&?&?&?&?).
    rewrite (wrap_id 32), (wrap_id 16); [done|unfold in_range; lia..]. }
  rewrite Eh, PD_HEADER_sum by done. clear Eh h. destruct Hf as (?&?&?&?&?&?&?).
  rewrite type_val, prole_val, drole_val, id_val, cnt_val, rev_val, ext_val, sop_val.
  unfold TCPCI_MSG_SOP. split_and!; divlia.
Qed.

Lemma PD_EXT_HEADER_sum cnum rchk dsize :
  0 <= cnum < 16 -> 0 <= rchk < 2 -> 0 <= dsize < 512 ->
  PD_EXT_HEADER cnum rchk dsize = dsize + rchk * 1024 + cnum * 2048 + 32768.
Proof.
  intros. unfold PD_EXT_HEADER. rewrite (Z.lor_comm _ dsize), (Z.lor_comm _ (Z.shiftl rchk 10)),
    (Z.lor_comm (BIT 15)), !Z.lor_assoc.
  unfold BIT. rewrite (lor_shift dsize), (lor_shift _ cnum), (lor_shift _ 1) by lia. lia.
Qed.

Lemma ext_header_roundtrip cnum rchk dsize :
  0 <= cnum < 16 -> 0 <= rchk < 2 -> 0 <= dsize < 512 ->
  let h := PD_EXT_HEADER cnum rchk dsize in
  0 <= h < 2 ^ 16 /\ PD_EXT_HEADER_CHUNK_NUM h = cnum /\ PD_EXT_HEADER_REQ_CHUNK h = rchk /\
  PD_EXT_HEADER_DATA_SIZE h = dsize /\ PD_EXT_HEADER_CHUNKED h = 1.
Proof.
  intros Hc Hr Hd h. subst h. rewrite PD_EXT_HEADER_sum by done.
  rewrite chunk_num_val, req_chunk_val, data_size_val, chunked_val. pow2. split_and!; divlia.
Qed.

(** ** Transitions whose functions start no other *)

Section Quiet.
Context {W : Type} `{ClientLaws W} `{Config}.
Implicit Types p q : prl (W := W).

(** What a layer hands to the controller. *)
Definition outgoing p : list Z := tx_chk_buf (pdmsg p).

(** The state in which the entry function of [s] runs, [e] being what the
    exit function left. *)
Definition at_entry (s : state) e : prl (W := W) :=
  entering s (upd_ctx (machine_of s) (set_exiting false) e).

Lemma wf_pd_timer_disable t p : wf p -> wf (pd_timer_disable t p).
Proof. intros []. by split. Qed.

Lemma pdmsg_upd_ctx m f p : pdmsg (upd_ctx m f p) = pdmsg p.
Proof. by destruct m. Qed.
Lemma wf_at_entry s e :
  (needs_more s = true -> more_to_send (pdmsg e)) -> wf e -> wf (at_entry s e).
Proof.
  intros Hm Hw. unfold at_entry. refine (ge_wf _ _ _ (entering_ge s _ _ _)); [by apply wf_upd_ctx|].
  by rewrite pdmsg_upd_ctx.
Qed.
Lemma pdmsg_finish m p : pdmsg (finish m p) = pdmsg p.
Proof. by destruct m. Qed.
Lemma pdmsg_tx_flag fl p : pdmsg (PRL_TX_SET_FLAG fl p) = pdmsg p.
Proof. done. Qed.
Lemma log_upd_ctx m f p : log (upd_ctx m f p) = log p.
Proof. by destruct m. Qed.
Lemma log_finish m p : log (finish m p) = log p ++ [TaskWake].
Proof. by destruct m. Qed.

Lemma set_quiet n s l p e f :
  ready p -> current (ctx (machine_of s) p) = Some l -> l <> s ->
  exit (set_state n) l (upd_ctx (machine_of s) (set_exiting true) p) = Some e ->
  entry (set_state n) s (at_entry s e) = Some f ->
  set_state (S n) s p = Some (finish (machine_of s) f).
Proof.
  intros (Hw & Hr & He) Hl Hne Hx Hf. rewrite set_state_eq, He.
  assert (L : last (machine_of s) p = Some l).
  { unfold last. by rewrite (proj1 (Hr (machine_of s))). }
  unfold leave. rewrite L, decide_False by done. rewrite Hx. cbn [mbind option_bind].
  rewrite bool_decide_eq_false_2 by congruence. unfold enter_state.
  unfold at_entry, entering in Hf. rewrite Hf. done.
Qed.

(** The transition to a lasting state, from layers at rest to a layer at
    rest. *)
Lemma set_quiet_ready n s l p e f :
  (cost s <= S n)%nat -> transient s = false -> (needs_more s = true -> more_to_send (pdmsg p)) ->
  ready p -> current (ctx (machine_of s) p) = Some l -> l <> s ->
  exit (set_state n) l (upd_ctx (machine_of s) (set_exiting true) p) = Some e ->
  entry (set_state n) s (at_entry s e) = Some f ->
  set_state (S n) s p = Some (finish (machine_of s) f) /\ ready (finish (machine_of s) f).
Proof.
  intros Hc Ht Hm Hr Hl Hne Hx Hf. pose proof (set_quiet n s l p e f Hr Hl Hne Hx Hf) as E.
  split; [done|].
  destruct (set_state_ok (S n) s p) as (q & Eq & G & _); [done|apply Hr| |].
  { apply sound_allowed; [by apply ready_sound|congruence|done]. }
  rewrite E in Eq. injection Eq as <-. by eapply good_ready.
Qed.

(** Running the current state of a machine at rest. *)
Lemma run_state_eq set m s p :
  current (ctx m p) = Some s ->
  run_state set m p =
    (q ← run set s (upd_ctx m (set_running true) p); Some (upd_ctx m (set_running false) q)).
Proof. intros E. unfold run_state. by destruct m; cbn in *; rewrite E. Qed.

Lemma ready_running m b p : ready p -> ready (upd_ctx m (set_running b) p).
Proof. intros Hr. eapply good_ready; [|exact Hr]. by apply good_running, good_refl, Hr. Qed.

(** A turn of machine [m] that ends in a quiet transition from [l] to [s]. *)
Lemma turn m l s p p1 e f :
  current (ctx m p) = Some l -> machine_of s = m -> l <> s -> transient s = false ->
  (needs_more s = true -> more_to_send (pdmsg p1)) ->
  run (set_state depth) l (upd_ctx m (set_running true) p) = set_state depth s p1 ->
  ready p1 -> current (ctx m p1) = Some l ->
  exit (set_state 4) l (upd_ctx m (set_exiting true) p1) = Some e ->
  entry (set_state 4) s (at_entry s e) = Some f ->
  let q := upd_ctx m (set_running false) (finish m f) in
  run_state (set_state depth) m p = Some q /\ ready q.
Proof.
  intros Hl Hm Hne Ht Hmo Hrun Hr1 Hl1 Hx Hf q. subst m.
  destruct (set_quiet_ready 4 s l p1 e f) as [E R]; try done; [by destruct s as [[]|[]|[]|[]]; cbn; lia|].
  split; [|by apply ready_running]. rewrite (run_state_eq _ _ l) by done.
  rewrite Hrun. unfold depth. by rewrite E.
Qed.

(** A transition to an entry-only state that makes a call. *)
Lemma set_loud n s l p e o :
  (cost s <= S n)%nat -> needs_more s = false ->
  ready p -> current (ctx (machine_of s) p) = Some l -> l <> s -> s <> StTx PRL_TX_PHY_LAYER_RESET ->
  exit (set_state n) l (upd_ctx (machine_of s) (set_exiting true) p) = Some e ->
  (wf (at_entry s e) -> sound (at_entry s e) ->
   returns (entry (set_state n) s (at_entry s e)) (fun f => (log p ++ [o]) `prefix_of` log f)) ->
  exists q, set_state (S n) s p = Some q /\ ready q /\ (log p ++ [o]) `prefix_of` log q.
Proof.
  intros Hc Hm Hr Hl Hne Hphy Hx He. pose proof (ready_sound p Hr) as Hs.
  assert (Ha : allowed s p) by (apply sound_allowed; [done|intros _ _; apply Hr|by rewrite Hm]).
  destruct (set_state_ok (S n) s p) as (q & E & G & _); [done|apply Hr|done|].
  assert (Gx : good p (upd_ctx (machine_of s) (set_exiting false) e)).
  { destruct (leave_ok n s p) as (q' & El & Gl); [apply set_state_ok|done|apply Hr|done|apply Hr|].
    unfold leave in El. replace (last (machine_of s) p) with (Some l) in El.
    - rewrite decide_False, Hx in El by done. cbn in El. by injection El as <-.
    - unfold last. by rewrite (proj1 (proj1 (proj2 Hr) (machine_of s))). }
  destruct (entering_sound s _ (good_wf _ _ Gx)) as [Ht Hres].
  { by rewrite Hm. }
  { apply (good_sound _ _ Gx Hs). }
  { intros _. apply (good_sound _ _ Gx Hs). }
  destruct He as (f & Ef & Hf).
  { apply (ge_wf (machine_of s) (upd_ctx (machine_of s) (set_exiting false) e)).
    apply entering_ge; [apply Gx|by rewrite Hm]. }
  { split; [done|]. by apply Hres. }
  exists q. split; [done|]. split; [by eapply good_ready|].
  rewrite (set_quiet n s l p e f) in E by done. injection E as <-.
  etrans; [exact Hf|]. unfold finish, task_wake, emit. cbn. by destruct s; cbn; apply prefix_app_r.
Qed.

(** A turn that ends in such a transition. *)
Lemma loud_turn m l s p p1 e o :
  current (ctx m p) = Some l -> machine_of s = m -> needs_more s = false -> l <> s ->
  s <> StTx PRL_TX_PHY_LAYER_RESET -> run (set_state depth) l (upd_ctx m (set_running true) p) = set_state depth s p1 ->
  ready p1 -> current (ctx m p1) = Some l ->
  exit (set_state 4) l (upd_ctx m (set_exiting true) p1) = Some e ->
  (wf (at_entry s e) -> sound (at_entry s e) ->
   returns (entry (set_state 4) s (at_entry s e)) (fun f => (log p1 ++ [o]) `prefix_of` log f)) ->
  exists q, run_state (set_state depth) m p = Some q /\ ready q /\ (log p1 ++ [o]) `prefix_of` log q.
Proof.
  intros Hl Hm Hmo Hne Hphy Hrun Hr1 Hl1 Hx He. subst m.
  destruct (set_loud 4 s l p1 e o) as (q & E & Rq & Hq); try done;
    [by destruct s as [[]|[]|[]|[]]; cbn; lia|].
  exists (upd_ctx (machine_of s) (set_running false) q).
  split; [|split; [by apply ready_running|by destruct s]].
  rewrite (run_state_eq _ _ l) by done. rewrite Hrun. unfold depth. by rewrite E.
Qed.
End Quiet.
End UsbPrlLib.
