(* ===== verification/UsbPrlTx.v ===== *)
(** * Sending one message through the USB-PD protocol layer

    The cycle of [prl_tx] for a message outside an atomic message sequence:
    the header it builds, the transmission, and what the outcome does to the
    message identifier and the flags of the chunked layer. *)

From S2P Require Import Prelude PdTimer UsbPrl UsbPrlSafe UsbPrlLib.
Import UsbPrl UsbPrlSafe UsbPrlLib.

Module UsbPrlTx.

Section Send.
Context {W : Type} `{ClientLaws W} {K : Config}.
Implicit Types p q : prl (W := W).

Definition run_tx p := run_state (set_state depth) MTx p.

(** The controller reports the outcome later, not before [tcpm_transmit]
    returns: the call makes no request of its own. *)
Definition async : Prop := forall t h b w, (calls (TcpmTransmit t h b) w).1 = [].

(** The fields of the next header. *)
Definition roles p : Z * Z :=
  if xmit_type (pdmsg p) =? TCPCI_MSG_SOP
  then (pd_get_power_role (world p), pd_get_data_role (world p))
  else (tc_get_cable_plug (world p), 0).
Definition next_id p : Z := aget (msg_id_counter (prl_tx p)) (xmit_type (pdmsg p)).
Definition next_rev p : Z := aget (rev (pdmsg p)) (xmit_type (pdmsg p)).

(** A message waits to be sent. *)
Record sendable p : Prop := {
  t_ready : ready p;
  t_cur : current (ctx MTx p) = Some (StTx PRL_TX_WAIT_FOR_MESSAGE_REQUEST);
  t_xmit : PRL_TX_CHK_FLAG PRL_FLAGS_MSG_XMIT p = true;
  t_ng : PRL_TX_CHK_FLAG PRL_FLAGS_SINK_NG p = false;
  t_ams : pe_in_local_ams (world p) = false;
  t_type : xmit_type (pdmsg p) < NUM_SOP_STAR_TYPES;
  t_reset : (msg_type (pdmsg p) =? PD_CTRL_SOFT_RESET) && (len (tx_emsg p) =? 0) = false;
  t_fields : header_fields (msg_type (pdmsg p)) (roles p).1 (roles p).2 (next_id p)
               (data_objs (pdmsg p)) (next_rev p) (ext (pdmsg p)) }.

Definition sent_header p : Z := u16 (get_sop_star_header p).

Lemma sent_header_fields p :
  sendable p -> let h := sent_header p in
  PD_HEADER_TYPE h = msg_type (pdmsg p) /\ PD_HEADER_PROLE h = (roles p).1 /\
  PD_HEADER_DROLE h = (roles p).2 /\ PD_HEADER_ID h = next_id p /\
  PD_HEADER_CNT h = data_objs (pdmsg p) /\ PD_HEADER_REV h = next_rev p /\
  PD_HEADER_EXT h = ext (pdmsg p) /\ PD_HEADER_GET_SOP h = TCPCI_MSG_SOP.
Proof.
  intros S h. pose proof (t_fields p S) as Hf. apply header_roundtrip in Hf.
  subst h. unfold sent_header, get_sop_star_header. unfold roles, next_id, next_rev in *.
  by destruct (xmit_type (pdmsg p) =? TCPCI_MSG_SOP).
Qed.

(** The state in which [prl_tx] hands the message to the controller, and the
    one it continues with. *)
Definition prepared p : prl (W := W) :=
  PDMSG_CLR_FLAG PRL_FLAGS_TX_COMPLETE (upd_tx (set_xmit_status TCPC_TX_WAIT)
    (upd_tx (set_last_xmit_type (xmit_type (pdmsg p)))
      (PRL_TX_CLR_FLAG PRL_FLAGS_MSG_XMIT
        (PRL_TX_CLR_FLAG (Z.lor PRL_FLAGS_SINK_NG PRL_FLAGS_WAIT_SINK_OK)
          (upd_ctx MTx (set_running true) p))))).
Definition handed_over p : output := TcpmTransmit (xmit_type (pdmsg p)) (sent_header p) (outgoing p).
Definition handed p : prl (W := W) :=
  set_log (log (prepared p) ++ [handed_over p])
    (set_world (calls (handed_over p) (world (prepared p))).2 (prepared p)).

Lemma handed_ready p : sendable p -> ready (handed p).
Proof.
  intros S. pose proof (t_ready p S) as R. apply (good_ready p); [|done].
  destruct (wf_pd _ (proj1 R)) as [Ht _].
  unfold handed. apply good_log; [by apply prefix_app_r|]. apply good_world.
  unfold prepared. apply good_clr_pd, good_set_xmit_status, good_upd_tx; [done|by intros (? & ? & ?)|].
  apply good_clr_tx, good_clr_tx, good_running, good_refl, R.
Qed.

Lemma handed_run p :
  async -> sendable p ->
  prl_tx_wait_for_message_request_run (set_state depth) (upd_ctx MTx (set_running true) p) =
    set_state depth (StTx PRL_TX_WAIT_FOR_PHY_RESPONSE) (handed p).
Proof.
  intros Ha []. set (p0 := upd_ctx MTx (set_running true) p).
  unfold prl_tx_wait_for_message_request_run, leave_ams.
  change (pe_in_local_ams (world p0)) with (pe_in_local_ams (world p)). rewrite t_ams0. cbn [negb].
  assert (PRL_TX_CHK_FLAG PRL_FLAGS_SINK_NG p0 = false) as -> by exact t_ng0.
  set (p1 := PRL_TX_CLR_FLAG _ p0).
  change (pe_in_local_ams (world p1)) with (pe_in_local_ams (world p)).
  rewrite t_ams0, andb_false_r. cbn [andb].
  assert (PRL_TX_CHK_FLAG PRL_FLAGS_MSG_XMIT p1 = true) as ->.
  { unfold PRL_TX_CHK_FLAG in *. cbn -[BIT]. flag. }
  unfold send_pending. set (p2 := PRL_TX_CLR_FLAG _ p1).
  change (pdmsg p2) with (pdmsg p). change (tx_emsg p2) with (tx_emsg p). rewrite t_reset0.
  unfold prl_tx_construct_message. change (pdmsg p2) with (pdmsg p).
  rewrite (proj2 (Z.ltb_lt _ _) t_type0). cbv zeta. unfold handed, call.
  change (PDMSG_CLR_FLAG PRL_FLAGS_TX_COMPLETE _) with (prepared p).
  change (TcpmTransmit _ _ _) with (handed_over p).
  pose proof (Ha (xmit_type (pdmsg p)) (sent_header p) (outgoing p) (world (prepared p))) as Hc.
  fold (handed_over p) in Hc. destruct (calls (handed_over p) (world (prepared p))) as [rs w].
  cbn in Hc. by subst rs.
Qed.

(** The message is handed over. *)
Definition waiting p q : Prop :=
  ready q /\ current (ctx MTx q) = Some (StTx PRL_TX_WAIT_FOR_PHY_RESPONSE) /\
  log q = log p ++ [TcpmTransmit (xmit_type (pdmsg p)) (sent_header p) (outgoing p); TaskWake] /\
  last_xmit_type (prl_tx q) = xmit_type (pdmsg p) /\
  msg_id_counter (prl_tx q) = msg_id_counter (prl_tx p) /\
  PDMSG_CHK_FLAG PRL_FLAGS_TX_COMPLETE q = false /\
  PDMSG_CHK_FLAG PRL_FLAGS_TX_ERROR q = PDMSG_CHK_FLAG PRL_FLAGS_TX_ERROR p /\
  PRL_TX_CHK_FLAG PRL_FLAGS_MSG_XMIT q = false.

Lemma handed_turn p :
  async -> sendable p -> exists q, run_tx p = Some q /\ waiting p q.
Proof.
  intros Ha S. pose proof (handed_ready p S) as R. pose proof (handed_run p Ha S) as Hrun.
  edestruct (turn MTx (StTx PRL_TX_WAIT_FOR_MESSAGE_REQUEST) (StTx PRL_TX_WAIT_FOR_PHY_RESPONSE)
    p (handed p)) as [E' R']; [apply S|reflexivity|discriminate|reflexivity|discriminate|exact Hrun|exact R|apply S
    |reflexivity|reflexivity|].
  eexists. split; [exact E'|]. split; [exact R'|]. split; [done|].
  split; [cbn; by rewrite <- app_assoc|]. do 2 (split; [done|]).
  unfold PDMSG_CHK_FLAG, PRL_TX_CHK_FLAG. cbn -[BIT]. split_and!; flag.
Qed.

(** ** The outcome *)

Definition outcome (st : Z) : Prop := st = TCPC_TX_COMPLETE_SUCCESS \/ st = TCPC_TX_COMPLETE_FAILED.

(** The next identifier. *)
Lemma increment_id p q :
  wf q -> last_xmit_type (prl_tx q) = xmit_type (pdmsg p) -> xmit_type (pdmsg p) < NUM_SOP_STAR_TYPES ->
  msg_id_counter (prl_tx q) = msg_id_counter (prl_tx p) -> 0 <= next_id p < 8 ->
  msg_id_counter (prl_tx (increment_msgid_counter q)) =
    aset (msg_id_counter (prl_tx p)) (xmit_type (pdmsg p)) ((next_id p + 1) mod 8).
Proof.
  intros Hw Hl Ht Hc Hn. unfold increment_msgid_counter. rewrite Hl, (proj2 (Z.leb_gt _ _)) by done.
  cbn [prl_tx upd_tx set_prl_tx msg_id_counter set_msg_id_counter]. rewrite Hc. f_equal.
  fold (next_id p). rewrite (wrap_id 32) by (unfold in_range; lia).
  by apply (mask_val (next_id p + 1) 3).
Qed.

(** What [prl_tx] has done with the message when it waits for the next one. *)
Record sent (st : Z) (p r : prl (W := W)) : Prop := {
  n_ready : ready r;
  n_cur : current (ctx MTx r) = Some (StTx PRL_TX_WAIT_FOR_MESSAGE_REQUEST);
  n_id : msg_id_counter (prl_tx r) =
    aset (msg_id_counter (prl_tx p)) (xmit_type (pdmsg p)) ((next_id p + 1) mod 8);
  n_cmpl : PDMSG_CHK_FLAG PRL_FLAGS_TX_COMPLETE r = (st =? TCPC_TX_COMPLETE_SUCCESS);
  n_err : PDMSG_CHK_FLAG PRL_FLAGS_TX_ERROR r =
    PDMSG_CHK_FLAG PRL_FLAGS_TX_ERROR p || (st =? TCPC_TX_COMPLETE_FAILED);
  n_xmit : PRL_TX_CHK_FLAG PRL_FLAGS_MSG_XMIT r = false }.

(** The state [prl_tx] leaves the wait with. *)
Definition success q : prl (W := W) :=
  task_wake (PDMSG_SET_FLAG PRL_FLAGS_TX_COMPLETE (increment_msgid_counter
    (upd_ctx MTx (set_running true) (pd_transmit_complete TCPC_TX_COMPLETE_SUCCESS q)))).
Definition failure q : prl (W := W) :=
  increment_msgid_counter (PDMSG_SET_FLAG PRL_FLAGS_TX_ERROR
    (pd_timer_is_expired PR_TIMER_TCPC_TX_TIMEOUT
      (upd_ctx MTx (set_running true) (pd_transmit_complete TCPC_TX_COMPLETE_FAILED q))).2).

Lemma increment_same q :
  ctx MTx (increment_msgid_counter q) = ctx MTx q /\ pdmsg (increment_msgid_counter q) = pdmsg q /\
  tx_flags (prl_tx (increment_msgid_counter q)) = tx_flags (prl_tx q).
Proof. unfold increment_msgid_counter. by case_match. Qed.
Lemma expired_same t q :
  ctx MTx (pd_timer_is_expired t q).2 = ctx MTx q /\ pdmsg (pd_timer_is_expired t q).2 = pdmsg q /\
  prl_tx (pd_timer_is_expired t q).2 = prl_tx q.
Proof. unfold pd_timer_is_expired. by destruct (PdTimer.pd_timer_is_expired _ _ _ _ _). Qed.

Lemma success_ready q : ready q -> ready (success q).
Proof.
  intros R. apply (good_ready q); [|done].
  by apply good_emit, good_or_pd, good_increment, good_running, good_transmit_complete, good_refl, R.
Qed.
Lemma failure_ready q : ready q -> ready (failure q).
Proof.
  intros R. apply (good_ready q); [|done].
  by apply good_increment, good_or_pd, good_expired, good_running, good_transmit_complete, good_refl, R.
Qed.

(** The wait ends in a state in which everything is as [x] left it. *)
Lemma outcome_turn st p q x :
  sendable p -> waiting p q -> ready x -> ctx MTx x = set_running true (ctx MTx q) ->
  prl_tx_wait_for_phy_response_run (set_state depth)
    (upd_ctx MTx (set_running true) (pd_transmit_complete st q)) =
    set_state depth (StTx PRL_TX_WAIT_FOR_MESSAGE_REQUEST) x ->
  msg_id_counter (prl_tx x) =
    aset (msg_id_counter (prl_tx p)) (xmit_type (pdmsg p)) ((next_id p + 1) mod 8) ->
  PDMSG_CHK_FLAG PRL_FLAGS_TX_COMPLETE x = (st =? TCPC_TX_COMPLETE_SUCCESS) ->
  PDMSG_CHK_FLAG PRL_FLAGS_TX_ERROR x =
    PDMSG_CHK_FLAG PRL_FLAGS_TX_ERROR p || (st =? TCPC_TX_COMPLETE_FAILED) ->
  tx_flags (prl_tx x) = tx_flags (prl_tx q) ->
  exists r, run_tx (pd_transmit_complete st q) = Some r /\ sent st p r.
Proof.
  intros S (R & C & _ & _ & _ & _ & _ & Hx) Rx Cx Hrun Hid Hc He Hf.
  assert (C0 : current (ctx MTx (pd_transmit_complete st q)) = Some (StTx PRL_TX_WAIT_FOR_PHY_RESPONSE)).
  { rewrite <- C. unfold pd_transmit_complete, set_success_ts. by case_match. }
  edestruct (turn MTx (StTx PRL_TX_WAIT_FOR_PHY_RESPONSE) (StTx PRL_TX_WAIT_FOR_MESSAGE_REQUEST)
    (pd_transmit_complete st q) x) as [E' R'];
    [exact C0|reflexivity|discriminate|reflexivity|discriminate|exact Hrun|exact Rx|by rewrite Cx
    |reflexivity|reflexivity|].
  eexists. split; [exact E'|]. split; [exact R'|done|exact Hid|exact Hc|exact He|].
  unfold PRL_TX_CHK_FLAG in *. cbn -[BIT]. by rewrite Hf.
Qed.

Lemma success_turn p q :
  sendable p -> waiting p q ->
  exists r, run_tx (pd_transmit_complete TCPC_TX_COMPLETE_SUCCESS q) = Some r /\
    sent TCPC_TX_COMPLETE_SUCCESS p r.
Proof.
  intros S Q. pose proof Q as (R & _ & _ & Hl & Hid & Hcm & Her & _).
  set (y := upd_ctx MTx (set_running true) (pd_transmit_complete TCPC_TX_COMPLETE_SUCCESS q)).
  assert (Wy : wf y).
  { apply (good_wf q). by apply good_running, good_transmit_complete, good_refl, R. }
  destruct (increment_same y) as (Ec & Ep & Ef). pose proof (t_fields p S) as (_ & _ & _ & Hn & _).
  pose proof (increment_id p y Wy Hl (t_type p S) Hid Hn) as Ei.
  assert (Fp : pdmsg (success q) =
    set_pd_flags (or_bits PRL_FLAGS_TX_COMPLETE (pd_flags (pdmsg q))) (pdmsg q)).
  { transitivity (set_pd_flags (or_bits PRL_FLAGS_TX_COMPLETE (pd_flags (pdmsg (increment_msgid_counter y))))
      (pdmsg (increment_msgid_counter y))); [reflexivity|by rewrite Ep]. }
  apply (outcome_turn _ p q (success q)); [done|done|by apply success_ready|..].
  - transitivity (ctx MTx (increment_msgid_counter y)); [reflexivity|by rewrite Ec].
  - fold y. unfold prl_tx_wait_for_phy_response_run.
    change (xmit_status (prl_tx y) =? _) with true. reflexivity.
  - transitivity (msg_id_counter (prl_tx (increment_msgid_counter y))); [reflexivity|exact Ei].
  - unfold PDMSG_CHK_FLAG in *. rewrite Fp. cbn -[BIT]. flag.
  - unfold PDMSG_CHK_FLAG in *. rewrite Fp. cbn -[BIT]. rewrite <- Her. rewrite orb_false_r. flag.
  - transitivity (tx_flags (prl_tx (increment_msgid_counter y))); [reflexivity|by rewrite Ef].
Qed.

Lemma failure_turn p q :
  sendable p -> waiting p q ->
  exists r, run_tx (pd_transmit_complete TCPC_TX_COMPLETE_FAILED q) = Some r /\
    sent TCPC_TX_COMPLETE_FAILED p r.
Proof.
  intros S Q. pose proof Q as (R & _ & _ & Hl & Hid & Hcm & Her & _).
  set (y := upd_ctx MTx (set_running true) (pd_transmit_complete TCPC_TX_COMPLETE_FAILED q)).
  pose proof (expired_same PR_TIMER_TCPC_TX_TIMEOUT y) as (Xc & Xp & Xt).
  assert (Wz : wf (PDMSG_SET_FLAG PRL_FLAGS_TX_ERROR (pd_timer_is_expired PR_TIMER_TCPC_TX_TIMEOUT y).2)).
  { apply (good_wf q).
    by apply good_or_pd, good_expired, good_running, good_transmit_complete, good_refl, R. }
  set (z := PDMSG_SET_FLAG _ _) in Wz.
  destruct (increment_same z) as (Ec & Ep & Ef). pose proof (t_fields p S) as (_ & _ & _ & Hn & _).
  assert (Et : prl_tx z = prl_tx y) by exact Xt.
  assert (Ei : msg_id_counter (prl_tx (failure q)) =
    aset (msg_id_counter (prl_tx p)) (xmit_type (pdmsg p)) ((next_id p + 1) mod 8)).
  { apply (increment_id p z Wz); [by rewrite Et|apply S|by rewrite Et|done]. }
  assert (Fp : pdmsg (failure q) = set_pd_flags (or_bits PRL_FLAGS_TX_ERROR (pd_flags (pdmsg q))) (pdmsg q)).
  { unfold failure. fold y. fold z. rewrite Ep. set (x := (pd_timer_is_expired _ y).2) in *.
    transitivity (set_pd_flags (or_bits PRL_FLAGS_TX_ERROR (pd_flags (pdmsg x))) (pdmsg x));
      [reflexivity|by rewrite Xp]. }
  apply (outcome_turn _ p q (failure q)); [done|done|by apply failure_ready|..].
  - unfold failure. fold y. fold z. rewrite Ec. transitivity (ctx MTx y); [exact Xc|reflexivity].
  - fold y. unfold prl_tx_wait_for_phy_response_run.
    change (xmit_status (prl_tx y) =? _) with false. cbv iota. unfold failure. fold y.
    destruct (pd_timer_is_expired PR_TIMER_TCPC_TX_TIMEOUT y) as [b x] eqn:Ex. cbn [snd] in *.
    rewrite Xt. change (xmit_status (prl_tx y) =? _) with true. by rewrite orb_true_r.
  - exact Ei.
  - unfold PDMSG_CHK_FLAG in *. rewrite Fp. cbn -[BIT]. flag.
  - unfold PDMSG_CHK_FLAG in *. rewrite Fp. cbn -[BIT]. rewrite <- Her. flag.
  - unfold failure. fold y. fold z. by rewrite Ef, Et.
Qed.

(** A message that waits outside an atomic message sequence is handed to
    the controller by the next turn of [prl_tx], and nothing else is: its
    header unpacks to the message's type, length and revision, the port's
    roles, and the next message identifier of the partner; while the
    controller works the chunked layer sees neither outcome.  When the
    controller reports success or failure the next turn advances that
    partner's identifier modulo 8, and no other, in both cases, raises
    exactly the flag for the outcome, and is ready for the next message. *)
Theorem tx_message_correct st p :
  async -> sendable p -> outcome st ->
  exists h q r,
    run_tx p = Some q /\
    log q = log p ++ [TcpmTransmit (xmit_type (pdmsg p)) h (outgoing p); TaskWake] /\
    PD_HEADER_TYPE h = msg_type (pdmsg p) /\ PD_HEADER_CNT h = data_objs (pdmsg p) /\
    PD_HEADER_REV h = next_rev p /\ PD_HEADER_EXT h = ext (pdmsg p) /\
    (PD_HEADER_PROLE h, PD_HEADER_DROLE h) = roles p /\ PD_HEADER_ID h = next_id p /\
    PDMSG_CHK_FLAG PRL_FLAGS_TX_COMPLETE q = false /\
    PDMSG_CHK_FLAG PRL_FLAGS_TX_ERROR q = PDMSG_CHK_FLAG PRL_FLAGS_TX_ERROR p /\
    run_tx (pd_transmit_complete st q) = Some r /\ sent st p r.
Proof.
  intros Ha S Ho. destruct (handed_turn p Ha S) as (q & Eq & Q).
  destruct (sent_header_fields p S) as (F1 & F2 & F3 & F4 & F5 & F6 & F7 & _).
  assert (exists r, run_tx (pd_transmit_complete st q) = Some r /\ sent st p r) as (r & Er & R).
  { destruct Ho as [->| ->]; [by apply success_turn|by apply failure_turn]. }
  destruct Q as (_ & _ & Hl & _ & _ & Hc & He & _).
  exists (sent_header p), q, r. split_and!; try done. rewrite F2, F3. by destruct (roles p).
Qed.
End Send.

(** ** A client without requests *)

Inductive silent := Silent.
#[export] Instance silent_client : Client silent := {|
  get_time _ := 0; pe_in_local_ams _ := false; pe_in_frs_mode _ := false;
  pd_get_power_role _ := 1; pd_get_data_role _ := 1; tc_get_cable_plug _ := 0;
  pd_is_connected _ := true; tcpm_get_cc _ := (0, 0); tcpm_has_pending_message _ := false;
  tcpm_dequeue_message w := (None, w); beyond_tx_emsg _ _ := 0; notify _ w := w; calls _ w := ([], w) |}.
#[export] Instance silent_laws : ClientLaws silent.
Proof. split; [intros; constructor|intros; unfold is_u8, in_range; cbn; lia|done]. Qed.

(** A layer asked to send GET_SOURCE_CAP, which the chunked layer has passed
    to [prl_tx]. *)
Definition silent_send : prl (W := silent) :=
  PRL_TX_SET_FLAG PRL_FLAGS_MSG_XMIT (default (boot Silent)
    (steps [Run true; Request SetDefaultPdRevision; Request (SendCtrlMsg 0 7)] (boot Silent))).

Lemma silent_ready : ready silent_send.
Proof.
  destruct (steps_ok [Run true; Request SetDefaultPdRevision; Request (SendCtrlMsg 0 7)]
    (boot Silent)) as (q & E & [Hq _]).
  - repeat (apply Forall_nil_2 || apply Forall_cons_2); try done.
  - apply boot_inv.
  - unfold silent_send. rewrite E. apply (good_ready q); [|done]. apply good_or_tx, good_refl, Hq.
Qed.

Lemma tx_message_correct_witness :
  sendable silent_send /\
  exists h q r,
    run_tx silent_send = Some q /\
    log q = log silent_send ++ [TcpmTransmit (xmit_type (pdmsg silent_send)) h (outgoing silent_send);
      TaskWake] /\
    PD_HEADER_TYPE h = msg_type (pdmsg silent_send) /\ PD_HEADER_CNT h = data_objs (pdmsg silent_send) /\
    PD_HEADER_REV h = next_rev silent_send /\ PD_HEADER_EXT h = ext (pdmsg silent_send) /\
    (PD_HEADER_PROLE h, PD_HEADER_DROLE h) = roles silent_send /\ PD_HEADER_ID h = next_id silent_send /\
    PDMSG_CHK_FLAG PRL_FLAGS_TX_COMPLETE q = false /\
    PDMSG_CHK_FLAG PRL_FLAGS_TX_ERROR q = PDMSG_CHK_FLAG PRL_FLAGS_TX_ERROR silent_send /\
    run_tx (pd_transmit_complete TCPC_TX_COMPLETE_FAILED q) = Some r /\
    sent TCPC_TX_COMPLETE_FAILED silent_send r.
Proof.
  assert (S : sendable silent_send).
  { split; [apply silent_ready|vm_compute; reflexivity..|vm_compute; intuition congruence]. }
  split; [exact S|]. apply (tx_message_correct TCPC_TX_COMPLETE_FAILED silent_send);
    [intros ? ? ? ?; reflexivity|exact S|by right].
Defined.

(** ** An error that is reported again

    A chunk fails, the policy engine is told, and sends another message; the
    flag of the failed chunk is still set, so that message is reported as
    failed in the turn in which it is handed to the controller. *)

Inductive event := Transmitted | Failed.
Definition events {W} (p : prl (W := W)) : list event :=
  omap (fun o => match o with
                 | TcpmTransmit _ _ _ => Some Transmitted
                 | PeReportError _ _ => Some Failed
                 | _ => None
                 end) (log p).

Definition failed_chunk : list op :=
  [Run true; Request SetDefaultPdRevision; Request (WriteTxEmsg 30 (replicate 30 7));
   Request (SendExtDataMsg 0 1); Run true; Request (TransmitComplete TCPC_TX_COMPLETE_FAILED);
   Run true; Run true].
Lemma stale_error_example :
  events <$> steps (failed_chunk ++ [Request (SendCtrlMsg 0 7); Run true]) (boot Silent) =
    Some [Transmitted; Failed; Transmitted; Failed].
Proof. vm_compute. reflexivity. Qed.
End UsbPrlTx.
