(* ===== verification/UsbPrlChunk.v ===== *)
(** * Chunked messages of the USB-PD protocol layer

    An extended message is cut into chunks by [tch] on one port and put
    together by [rch] on the other.  [exchange] connects two layers: it hands
    what one puts in its transmit buffer to the other, the way
    [prl_rx_wait_for_phy_message] does, and reports each transmission as
    complete, the way [prl_tx] does.  The theorem is that every message of 1 to
    260 bytes arrives. *)

From S2P Require Import Prelude Bytes PdTimer UsbPrl UsbPrlSafe UsbPrlLib.
Import Bytes UsbPrl UsbPrlSafe UsbPrlLib.

Module UsbPrlChunk.

(** ** Byte buffers *)

Definition zeros (n : Z) : list Z := replicate (Z.to_nat n) 0.

(** ** What a chunk holds *)

Definition chunk_size (total k : Z) : Z := Z.min 26 (total - 26 * k).
Definition chunk_of (data : list Z) (k : Z) : list Z :=
  let total := Z.of_nat (length data) in
  le_bytes 2 (PD_EXT_HEADER k 0 total) ++ slice data (26 * k) (chunk_size total k) ++
  zeros (26 - chunk_size total k).

Lemma length_chunk_of data k :
  0 <= k -> 26 * k <= Z.of_nat (length data) -> length (chunk_of data k) = 28%nat.
Proof.
  intros Hk Hd. unfold chunk_of, zeros, chunk_size. rewrite !length_app, le_bytes2, length_replicate.
  rewrite length_slice by lia. cbn [length]. lia.
Qed.

(** The three copies that build a chunk. *)
Lemma built_chunk chk hdr src num :
  length chk = 28%nat -> length hdr = 2%nat -> 0 <= num <= 26 -> length src = Z.to_nat num ->
  bcopy (bfill (bcopy chk 0 hdr 2) 2 0 26) 2 src num = hdr ++ src ++ zeros (26 - num).
Proof.
  intros Hc Hh Hn Hs. apply list_eq. intros i. unfold bfill.
  rewrite lookup_bcopy by (lia || lens). case_decide.
  { rewrite lookup_app_r, lookup_app_l by lia. f_equal. lia. }
  rewrite lookup_bcopy by (lia || lens). case_decide.
  { rewrite !lookup_app_r by lia. unfold zeros. rewrite !lookup_replicate_2 by lia. done. }
  destruct (decide (i < 28)%nat) as [Hi|Hi].
  - rewrite lookup_bcopy by lia. rewrite decide_True by lia.
    rewrite lookup_app_l by lia. f_equal. lia.
  - rewrite !lookup_ge_None_2; [done|unfold zeros; rewrite !length_app, length_replicate; lia|lens].
Qed.

Section Link.
Context {W : Type} `{ClientLaws W} {K : Config}.
Implicit Types p q : prl (W := W).

(** ** Reading a packet *)

Lemma rx_byte payload h p i :
  length (rx_chk_buf (pdmsg p)) = 28%nat -> length payload = 28%nat -> 0 <= i < 28 ->
  aget (rx_chk_buf (pdmsg (load_packet payload h p))) i = aget payload i.
Proof.
  intros Hc Hp Hi. cbn. unfold aget, CHK_BUF_SIZE_BYTES.
  rewrite !list_lookup_total_alt, lookup_bcopy by lia. rewrite decide_True by lia.
  do 2 f_equal. lia.
Qed.

Lemma u8_split h : 0 <= h < 2 ^ 16 -> u8 h + 2 ^ 8 * u8 (Z.shiftr h 8) = h.
Proof. intros. rewrite Z.shiftr_div_pow2 by lia. unfold wrap. divlia. Qed.

Lemma aget4 (a b c d : Z) r :
  aget (a :: b :: c :: d :: r) 0 = a /\ aget (a :: b :: c :: d :: r) 1 = b /\
  aget (a :: b :: c :: d :: r) 2 = c /\ aget (a :: b :: c :: d :: r) 3 = d.
Proof. done. Qed.

Lemma rx_ext_header payload h p hdr :
  length (rx_chk_buf (pdmsg p)) = 28%nat -> length payload = 28%nat -> is_bytes payload ->
  take 2 payload = le_bytes 2 hdr -> 0 <= hdr < 2 ^ 16 ->
  GET_EXT_HEADER (rx_chk_word0 (load_packet payload h p)) = hdr.
Proof.
  intros Hc Hp Hb Ht Hh. unfold rx_chk_word0. rewrite !rx_byte by (done || lia).
  rewrite ext_header_val. rewrite le_bytes2 in Ht.
  destruct payload as [|b0 [|b1 [|b2 [|b3 r]]]]; try discriminate. cbn in Ht. injection Ht as -> ->.
  destruct (aget4 (u8 hdr) (u8 (Z.shiftr hdr 8)) b2 b3 r) as (-> & -> & -> & ->).
  pose proof (u8_split hdr Hh) as Hs. inversion_clear Hb as [|? ? _ Hb2]. inversion_clear Hb2 as [|? ? _ Hb3].
  inversion_clear Hb3 as [|? ? R2 Hb4]. inversion_clear Hb4 as [|? ? R3 _]. unfold in_range in *.
  rewrite Hs. replace (hdr + _ + _) with (hdr + (b2 + 256 * b3) * 65536) by lia.
  rewrite Z_mod_plus_full. apply Z.mod_small. lia.
Qed.

Lemma rx_data payload h p n :
  length (rx_chk_buf (pdmsg p)) = 28%nat -> length payload = 28%nat -> 0 <= n <= 26 ->
  bytes_at (rx_chk_buf (pdmsg (load_packet payload h p))) 2 n = slice payload 2 n.
Proof.
  intros Hc Hp Hn. cbn. unfold CHK_BUF_SIZE_BYTES.
  rewrite bytes_at_slice by (rewrite ?length_bcopy; lia).
  rewrite slice_bcopy_inside by lia. f_equal.
Qed.

Lemma chunk_bytes data k : is_bytes data -> is_bytes (chunk_of data k).
Proof.
  intros Hd. unfold chunk_of. rewrite !is_bytes_app. split_and!; [apply le_bytes_bytes| |].
  - by apply Forall_take, Forall_drop.
  - apply Forall_replicate. unfold in_range. lia.
Qed.

Lemma chunk_payload data k :
  0 <= k -> 26 * k <= Z.of_nat (length data) ->
  take 2 (chunk_of data k) = le_bytes 2 (PD_EXT_HEADER k 0 (Z.of_nat (length data))) /\
  slice (chunk_of data k) 2 (chunk_size (Z.of_nat (length data)) k) =
    slice data (26 * k) (chunk_size (Z.of_nat (length data)) k).
Proof.
  intros Hk Hd. unfold chunk_of. rewrite le_bytes2. split; [done|].
  set (n := chunk_size _ k). assert (0 <= n) by (unfold n, chunk_size; lia).
  assert (Hs : length (slice data (26 * k) n) = Z.to_nat n) by (apply length_slice; unfold n, chunk_size; lia).
  set (src := slice data (26 * k) n) in *. clearbody src. unfold slice.
  change (Z.to_nat 2) with 2%nat. cbn [app skipn].
  rewrite drop_0, take_app_le by lia. apply take_ge. lia.
Qed.

(** ** The sender *)

(** [tch] in state [s], with [off] bytes of [data] sent and the chunk [num]
    next. *)
Record sdata (data : list Z) (num off : Z) (fl : Z) (m : pd_message) (e : extended_msg) : Prop := {
  sd_rcv : any_bit PRL_FLAGS_MSG_RECEIVED fl = false;
  sd_cmpl : any_bit PRL_FLAGS_TX_COMPLETE (pd_flags m) = false;
  sd_err : any_bit PRL_FLAGS_TX_ERROR (pd_flags m) = false;
  sd_abort : any_bit PRL_FLAGS_ABORT (pd_flags m) = false;
  sd_num : chunk_number_to_send m = num;
  sd_off : send_offset m = off;
  sd_len : len e = Z.of_nat (length data);
  sd_buf : take (length data) (buf e) = data }.
Record sender (s : usb_tch_state) (data : list Z) (num off : Z) p : Prop := {
  s_ready : ready p;
  s_cur : current (ctx MTch p) = Some (StTch s);
  s_data : sdata data num off (tch_flags (tch p)) (pdmsg p) (tx_emsg p) }.

(** What the policy engine has been told. *)
Definition pe_call (o : output) : bool :=
  match o with
  | PeReportError _ _ | PeReportDiscard | PeGotHardReset | PeGotSoftReset | PeHardResetSent
  | PeMessageSent | PeMessageReceived _ _ => true
  | _ => false
  end.
Definition told p : list output := List.filter pe_call (log p).
Lemma told_quiet p q l :
  log q = log p ++ l -> List.filter pe_call l = [] -> told q = told p.
Proof. intros E Hl. unfold told. by rewrite E, List.filter_app, Hl, app_nil_r. Qed.

Definition run_tch p := run_state (set_state depth) MTch p.
Definition run_rch p := run_state (set_state depth) MRch p.

(** Runs the only turn that the state and the flags allow. *)
Ltac take_turn m l s p C R :=
  edestruct (turn m l s p) as [E' R'];
    [exact C|reflexivity|discriminate|reflexivity|try discriminate| |exact R|exact C|reflexivity|reflexivity|].

Lemma construct_turn data num off p :
  sender TCH_CONSTRUCT_CHUNKED_MESSAGE data num off p ->
  exists q, run_tch p = Some q /\ sender TCH_SENDING_CHUNKED_MESSAGE data num off q /\
    pdmsg q = pdmsg p /\ told q = told p.
Proof.
  intros [R C D].
  take_turn MTch (StTch TCH_CONSTRUCT_CHUNKED_MESSAGE) (StTch TCH_SENDING_CHUNKED_MESSAGE) p C
    (ready_running MTch true p R).
  { cbn [run]. unfold tch_construct_chunked_message_run, PDMSG_CHK_FLAG. cbn.
    by rewrite (sd_abort _ _ _ _ _ _ D). }
  eexists. split; [exact E'|]. split; [by split|]. split; [done|].
  by eapply told_quiet.
Qed.

(** The transmission of a chunk is reported, and more is to come. *)
Lemma sent_turn data num off p :
  0 <= num < 16 -> off < Z.of_nat (length data) <= EXTENDED_BUFFER_SIZE ->
  sender TCH_SENDING_CHUNKED_MESSAGE data num off p ->
  exists q, run_tch (PDMSG_SET_FLAG PRL_FLAGS_TX_COMPLETE p) = Some q /\
    sender TCH_WAIT_CHUNK_REQUEST data (num + 1) off q /\ told q = told p.
Proof.
  intros Hnum Hoff [R C D]. pose proof D as [].
  set (p0 := PDMSG_SET_FLAG PRL_FLAGS_TX_COMPLETE p).
  assert (R0 : ready (PDMSG_CLR_FLAG PRL_FLAGS_TX_COMPLETE (upd_ctx MTch (set_running true) p0))).
  { apply (good_ready p); [|done]. apply good_clr_pd, good_running, good_or_pd, good_refl, R. }
  take_turn MTch (StTch TCH_SENDING_CHUNKED_MESSAGE) (StTch TCH_WAIT_CHUNK_REQUEST) p0 C R0.
  { intros _. unfold more_to_send. cbn. lia. }
  { cbn [run]. unfold tch_sending_chunked_message_run, PDMSG_CHK_FLAG, TCH_CHK_FLAG. cbn.
    rewrite sd_rcv0, sd_len0, sd_off0. flag. rewrite sd_err0.
    rewrite (proj2 (Z.eqb_neq _ _)), (proj2 (Z.ltb_lt _ _)) by lia. done. }
  eexists. split; [exact E'|]. split; [|by eapply told_quiet].
  split; [exact R'|done|]. split; cbn; try assumption; try (flag; fail).
  rewrite sd_num0. apply wrap_id. unfold in_range. lia.
Qed.

Lemma last_turn data num p :
  sender TCH_SENDING_CHUNKED_MESSAGE data num (Z.of_nat (length data)) p ->
  exists q, run_tch (PDMSG_SET_FLAG PRL_FLAGS_TX_COMPLETE p) = Some q /\ ready q /\
    (log p ++ [PeMessageSent]) `prefix_of` log q.
Proof.
  intros [R C D]. pose proof D as []. set (p0 := PDMSG_SET_FLAG PRL_FLAGS_TX_COMPLETE p).
  assert (R0 : ready (PDMSG_CLR_FLAG PRL_FLAGS_TX_COMPLETE (upd_ctx MTch (set_running true) p0))).
  { apply (good_ready p); [|done]. apply good_clr_pd, good_running, good_or_pd, good_refl, R. }
  edestruct (loud_turn MTch (StTch TCH_SENDING_CHUNKED_MESSAGE) (StTch TCH_MESSAGE_SENT) p0)
    as (q & E' & R' & L'); [exact C|reflexivity|reflexivity|discriminate|discriminate| |exact R0|exact C|reflexivity| |].
  - cbn [run]. unfold tch_sending_chunked_message_run, PDMSG_CHK_FLAG, TCH_CHK_FLAG. cbn.
    rewrite sd_len0, sd_off0, Z.eqb_refl. flag. by rewrite sd_err0.
  - intros Hw Hs. eapply returns_weaken.
    + apply (message_sent_log (set_state 4) 4 (set_state_ok 4)); [lia|exact Hw|exact Hs].
    + intros f Hf. exact Hf.
  - by exists q.
Qed.

(** Inside the buffer, no byte comes from the memory that follows it. *)
Lemma tx_emsg_inside p off n :
  0 <= off -> 0 <= n -> off + n <= EXTENDED_BUFFER_SIZE ->
  length (buf (tx_emsg p)) = Z.to_nat EXTENDED_BUFFER_SIZE ->
  tx_emsg_bytes p off n = slice (buf (tx_emsg p)) off n.
Proof.
  intros Ho Hn Hb Hl. apply list_eq. intros i. destruct (decide (i < Z.to_nat n)%nat) as [Hi|Hi].
  - unfold tx_emsg_bytes. rewrite list_lookup_fmap, lookup_seqZ_lt by lia. cbn.
    rewrite (proj2 (Z.ltb_lt _ _)) by lia. rewrite lookup_slice by lia.
    unfold aget. rewrite <- list_lookup_lookup_total_lt by lia. f_equal. lia.
  - rewrite !lookup_ge_None_2; [done|rewrite length_slice; lia|rewrite length_tx_emsg_bytes; lia].
Qed.

(** The chunk that is built. *)
Lemma construct_data data num p :
  wf p -> len (tx_emsg p) = Z.of_nat (length data) -> take (length data) (buf (tx_emsg p)) = data ->
  chunk_number_to_send (pdmsg p) = num -> send_offset (pdmsg p) = 26 * num ->
  0 <= num -> 26 * num <= Z.of_nat (length data) <= EXTENDED_BUFFER_SIZE ->
  send_offset (pdmsg (construct_chunk p)) = Z.min (Z.of_nat (length data)) (26 * num + 26) /\
  tx_chk_buf (pdmsg (construct_chunk p)) = chunk_of data num.
Proof.
  intros Hw Hl Hb Hn Ho Hn0 Hd. unfold EXTENDED_BUFFER_SIZE in Hd.
  destruct (wf_pd _ Hw) as (_ & _ & _ & [Hc _] & _). destruct (wf_tx_emsg _ Hw) as (_ & Hbl & _).
  unfold construct_chunk. rewrite Hl, Hn, Ho.
  assert (Esz : (let n := u16 (Z.of_nat (length data) - 26 * num) in
    if PD_MAX_EXTENDED_MSG_CHUNK_LEN <? n then PD_MAX_EXTENDED_MSG_CHUNK_LEN else n) =
    chunk_size (Z.of_nat (length data)) num).
  { unfold PD_MAX_EXTENDED_MSG_CHUNK_LEN, chunk_size.
    rewrite (wrap_id 16) by (unfold in_range; lia). destruct (Z.ltb_spec 26 (Z.of_nat (length data) - 26 * num)); lia. }
  cbv zeta in Esz |- *. rewrite Esz. clear Esz.
  set (n := chunk_size (Z.of_nat (length data)) num).
  assert (Hn2 : n = Z.min 26 (Z.of_nat (length data) - 26 * num)) by done. split.
  - cbn. rewrite Ho. rewrite wrap_id by (unfold in_range; lia). lia.
  - cbn [pdmsg upd_pdmsg set_pdmsg tx_chk_buf set_tx_chk_buf set_rx_chk_buf set_data_objs set_send_offset].
    unfold CHK_BUF_SIZE_BYTES, EXTENDED_BUFFER_SIZE in *.
    destruct (ext_header_roundtrip num 0 (Z.of_nat (length data))) as (Hh & _); [lia..|].
    rewrite (wrap_id 16 (PD_EXT_HEADER _ _ _)) by done.
    rewrite (tx_emsg_inside p) by (unfold EXTENDED_BUFFER_SIZE; lia).
    assert (Es : slice (buf (tx_emsg p)) (26 * num) n = slice data (26 * num) n).
    { transitivity (slice (take (length data) (buf (tx_emsg p))) (26 * num) n); [|by rewrite Hb].
      rewrite <- (Nat2Z.id (length data)), slice_take by lia. done. }
    rewrite Es. apply built_chunk; [done|done|lia|rewrite length_slice; lia].
Qed.

(** The request for the next chunk arrives. *)
Lemma request_turn data num p payload h :
  0 <= num -> 26 * num < Z.of_nat (length data) <= EXTENDED_BUFFER_SIZE ->
  length payload = 28%nat -> is_bytes payload -> PD_HEADER_GET_SOP h < NUM_SOP_STAR_TYPES ->
  PD_HEADER_EXT h = 1 ->
  PD_EXT_HEADER_REQ_CHUNK (GET_EXT_HEADER (rx_chk_word0 (load_packet payload h p))) = 1 ->
  PD_EXT_HEADER_CHUNK_NUM (GET_EXT_HEADER (rx_chk_word0 (load_packet payload h p))) = num ->
  sender TCH_WAIT_CHUNK_REQUEST data num (26 * num) p ->
  exists q, run_tch (TCH_SET_FLAG PRL_FLAGS_MSG_RECEIVED (load_packet payload h p)) = Some q /\
    sender TCH_CONSTRUCT_CHUNKED_MESSAGE data num (Z.min (Z.of_nat (length data)) (26 * num + 26)) q /\
    tx_chk_buf (pdmsg q) = chunk_of data num /\
    told q = told p.
Proof.
  intros Hnum Hlen Hpl Hpb Hsop Hext Hreq Hcn [R C D]. pose proof D as [].
  set (p0 := TCH_SET_FLAG PRL_FLAGS_MSG_RECEIVED (load_packet payload h p)).
  assert (R0 : ready (TCH_CLR_FLAG PRL_FLAGS_MSG_RECEIVED (upd_ctx MTch (set_running true) p0))).
  { apply (good_ready p); [|done].
    apply good_clr_tch, good_running, good_or_tch, good_load, good_refl, R; done. }
  set (p1 := TCH_CLR_FLAG PRL_FLAGS_MSG_RECEIVED (upd_ctx MTch (set_running true) p0)) in *.
  set (e := pd_timer_disable PR_TIMER_CHUNK_SENDER_REQUEST (upd_ctx MTch (set_exiting true) p1)).
  set (x := at_entry (StTch TCH_CONSTRUCT_CHUNKED_MESSAGE) e).
  assert (More : more_to_send (pdmsg p1)) by (unfold more_to_send; cbn; lia).
  assert (Wx : wf x) by (
    apply wf_at_entry; [intros _; exact More|apply wf_pd_timer_disable, wf_upd_ctx; [done|apply R0]]).
  destruct (construct_data data num x Wx sd_len0 sd_buf0 sd_num0 sd_off0 Hnum) as [Ho Hc]; [lia|].
  destruct (turn MTch (StTch TCH_WAIT_CHUNK_REQUEST) (StTch TCH_CONSTRUCT_CHUNKED_MESSAGE) p0 p1 e
    (PRL_TX_SET_FLAG PRL_FLAGS_MSG_XMIT (construct_chunk x)))
    as [E' R']; [exact C|reflexivity|discriminate|reflexivity|intros _; exact More| |exact R0|exact C|reflexivity| |].
  { cbn [run]. unfold tch_wait_chunk_request_run, TCH_CHK_FLAG. cbn -[set_state rx_chk_word0 BIT].
    flag. repeat match goal with
      | |- context [rx_chk_word0 ?x] =>
        change (rx_chk_word0 x) with (rx_chk_word0 (load_packet payload h p))
      end.
    rewrite Hext, Hreq, Hcn, sd_num0, Z.eqb_refl. reflexivity. }
  { change (at_entry _ _) with x. cbn [entry]. unfold tch_construct_chunked_message_entry.
    assert (TCH_CHK_FLAG PRL_FLAGS_MSG_RECEIVED x = false) as ->; [|done].
    unfold TCH_CHK_FLAG. cbn -[BIT]. flag. }
  eexists. split; [exact E'|]. split; [split; [exact R'|reflexivity|]|split; [exact Hc|by eapply told_quiet]].
  split; [|exact sd_cmpl0|exact sd_err0|exact sd_abort0|exact sd_num0|exact Ho|exact sd_len0|exact sd_buf0].
  cbn -[BIT]. flag.
Qed.

(** ** The receiver *)

(** [rch] in state [s], with the first [got] bytes of [data] received and the
    chunk [num] expected. *)
Record rdata (data : list Z) (num got : Z) (m : pd_message) (e : extended_msg) : Prop := {
  rd_cmpl : any_bit PRL_FLAGS_TX_COMPLETE (pd_flags m) = false;
  rd_err : any_bit PRL_FLAGS_TX_ERROR (pd_flags m) = false;
  rd_abort : any_bit PRL_FLAGS_ABORT (pd_flags m) = false;
  rd_num : chunk_number_expected m = num;
  rd_got : num_bytes_received m = got;
  rd_buf : take (Z.to_nat got) (buf e) = take (Z.to_nat got) data }.
Record receiver (s : usb_rch_state) (data : list Z) (num got : Z) q : Prop := {
  r_ready : ready q;
  r_cur : current (ctx MRch q) = Some (StRch s);
  r_rcv : RCH_CHK_FLAG PRL_FLAGS_MSG_RECEIVED q = false;
  r_data : rdata data num got (pdmsg q) (rx_emsg q) }.

(** The header of a received packet, and the chunk in it. *)
Definition chunk_packet (data : list Z) (k h : Z) : Prop :=
  0 <= k /\ 26 * k < Z.of_nat (length data) <= EXTENDED_BUFFER_SIZE /\ is_bytes data /\
  PD_HEADER_GET_SOP h < NUM_SOP_STAR_TYPES /\ PD_HEADER_EXT h = 1.

Lemma chunk_packet_facts data k h q :
  wf q -> chunk_packet data k h ->
  let q' := load_packet (chunk_of data k) h q in
  length (chunk_of data k) = 28%nat /\ is_bytes (chunk_of data k) /\
  GET_EXT_HEADER (rx_chk_word0 q') = PD_EXT_HEADER k 0 (Z.of_nat (length data)) /\
  bytes_at (rx_chk_buf (pdmsg q')) 2 (chunk_size (Z.of_nat (length data)) k) =
    slice data (26 * k) (chunk_size (Z.of_nat (length data)) k).
Proof.
  intros Hw (Hk & Hd & Hb & Hsop & Hext) q'. destruct (wf_pd _ Hw) as (_ & _ & _ & _ & [Hc _] & _).
  unfold EXTENDED_BUFFER_SIZE in Hd.
  destruct (ext_header_roundtrip k 0 (Z.of_nat (length data))) as (Hh & _); [lia..|].
  destruct (chunk_payload data k) as [Ht Hs]; [lia..|].
  assert (Hl : length (chunk_of data k) = 28%nat) by (apply length_chunk_of; lia).
  pose proof (chunk_bytes data k Hb) as Hcb. split_and!; [done|done| |].
  - by apply rx_ext_header.
  - unfold q'. rewrite rx_data by (unfold chunk_size; lia || done). done.
Qed.

(** The chunk [k] of [data] is in the receive buffer. *)
Definition holding (data : list Z) (k : Z) (q : prl (W := W)) : Prop :=
  GET_EXT_HEADER (rx_chk_word0 q) = PD_EXT_HEADER k 0 (Z.of_nat (length data)) /\
  bytes_at (rx_chk_buf (pdmsg q)) 2 (chunk_size (Z.of_nat (length data)) k) =
    slice data (26 * k) (chunk_size (Z.of_nat (length data)) k).

(** The first chunk arrives. *)
Lemma first_turn data h q :
  ready q -> current (ctx MRch q) = Some (StRch RCH_WAIT_FOR_MESSAGE_FROM_PROTOCOL_LAYER) ->
  RCH_CHK_FLAG PRL_FLAGS_CHUNKING q = true -> pdmsg_xmit_type_is_rev30 q = true ->
  PDMSG_CHK_FLAG PRL_FLAGS_TX_COMPLETE q = false -> PDMSG_CHK_FLAG PRL_FLAGS_TX_ERROR q = false ->
  PDMSG_CHK_FLAG PRL_FLAGS_ABORT q = false -> chunk_packet data 0 h ->
  let q0 := load_packet (chunk_of data 0) h q in
  exists q', run_rch (RCH_SET_FLAG PRL_FLAGS_MSG_RECEIVED q0) = Some q' /\
    receiver RCH_PROCESSING_EXTENDED_MESSAGE data 0 0 q' /\
    holding data 0 q' /\ told q' = told q.
Proof.
  intros R C Hfl Hrev Hcm Her Hab Hp.
  destruct (chunk_packet_facts data 0 h q (proj1 R) Hp) as (Hl & Hb & Hx & Hy).
  destruct Hp as (_ & Hd & Hdb & Hsop & Hext). intros q0.
  destruct (ext_header_roundtrip 0 0 (Z.of_nat (length data))) as (_ & _ & _ & _ & Hch);
    [lia|lia|unfold EXTENDED_BUFFER_SIZE in *; lia|].
  fold q0 in Hx. set (q1 := RCH_SET_FLAG PRL_FLAGS_MSG_RECEIVED q0).
  set (q2 := upd_pdmsg (fun m => set_msg_type (PD_HEADER_TYPE h) (set_num_bytes_received 0
                   (set_chunk_number_expected 0 m)))
               (RCH_CLR_FLAG PRL_FLAGS_MSG_RECEIVED (upd_ctx MRch (set_running true) q1))).
  assert (R2 : ready q2).
  { apply (good_ready q); [|done]. apply good_upd_pdmsg.
    - intros _ (? & ? & ? & ? & ? & ? & ? & ?). unfold EXTENDED_BUFFER_SIZE.
      split_and!; cbn; (assumption || lia || tauto).
    - done.
    - apply good_clr_rch, good_running, good_or_rch, good_load, good_refl, R; done. }
  edestruct (turn MRch (StRch RCH_WAIT_FOR_MESSAGE_FROM_PROTOCOL_LAYER)
    (StRch RCH_PROCESSING_EXTENDED_MESSAGE) q1 q2)
    as [E' R']; [exact C|reflexivity|discriminate|reflexivity|discriminate| |exact R2|exact C|reflexivity|reflexivity|].
  { cbn [run]. unfold rch_wait_for_message_from_protocol_layer_run.
    assert (RCH_CHK_FLAG PRL_FLAGS_MSG_RECEIVED (upd_ctx MRch (set_running true) q1) = true) as ->.
    { unfold RCH_CHK_FLAG. cbn -[BIT]. flag. }
    cbv zeta. set (y := RCH_CLR_FLAG PRL_FLAGS_MSG_RECEIVED (upd_ctx MRch (set_running true) q1)).
    assert (RCH_CHK_FLAG PRL_FLAGS_CHUNKING y = true) as ->.
    { unfold RCH_CHK_FLAG in *. cbn -[BIT]. flag. }
    change (pdmsg_xmit_type_is_rev30 y) with (pdmsg_xmit_type_is_rev30 q).
    change (rx_chk_word0 y) with (rx_chk_word0 q0). change (header (rx_emsg y)) with h.
    rewrite Hrev, Hext, Hx, Hch. reflexivity. }
  eexists. split; [exact E'|]. split; [|split; [by split|by eapply told_quiet]].
  split; [exact R'|done| |].
  - unfold RCH_CHK_FLAG. cbn -[BIT]. flag.
  - by split.
Qed.

Lemma take_slice (data : list Z) off n :
  0 <= off -> 0 <= n ->
  take (Z.to_nat off) data ++ slice data off n = take (Z.to_nat (off + n)) data.
Proof.
  intros. unfold slice. rewrite Z2Nat.inj_add by done. apply take_take_drop.
Qed.

Lemma append_data data k q :
  wf q -> rdata data k (26 * k) (pdmsg q) (rx_emsg q) -> holding data k q ->
  0 <= k -> 26 * k < Z.of_nat (length data) <= EXTENDED_BUFFER_SIZE ->
  let q' := append_chunk (chunk_size (Z.of_nat (length data)) k) q in
  rdata data (k + 1) (Z.min (Z.of_nat (length data)) (26 * k + 26)) (pdmsg q') (rx_emsg q').
Proof.
  intros Hw [] [_ Hx] Hk Hd q'. unfold EXTENDED_BUFFER_SIZE in Hd.
  destruct (wf_rx_emsg _ Hw) as (_ & Hbl & _). unfold EXTENDED_BUFFER_SIZE in Hbl.
  set (n := chunk_size (Z.of_nat (length data)) k) in *.
  assert (Hn : n = Z.min 26 (Z.of_nat (length data) - 26 * k)) by done.
  replace (Z.min _ _) with (26 * k + n) by lia.
  split; [done|done|done| | |].
  - cbn. rewrite rd_num0. apply wrap_id. unfold in_range. lia.
  - cbn. rewrite rd_got0. apply wrap_id. unfold in_range. lia.
  - unfold q', append_chunk. cbn. rewrite rd_got0, Hx.
    assert (Hs : length (slice data (26 * k) n) = Z.to_nat n) by (apply length_slice; lia).
    rewrite take_bcopy by lia. rewrite rd_buf0, (take_ge (slice _ _ _)) by lia.
    apply take_slice; lia.
Qed.

(** What a processing turn computes before it decides. *)
Lemma processing_run data k q :
  wf q -> rdata data k (26 * k) (pdmsg q) (rx_emsg q) -> holding data k q ->
  0 <= k -> 26 * k < Z.of_nat (length data) <= EXTENDED_BUFFER_SIZE ->
  let q' := append_chunk (chunk_size (Z.of_nat (length data)) k) q in
  rch_processing_extended_message_run (set_state depth) q =
    if Z.of_nat (length data) <=? Z.min (Z.of_nat (length data)) (26 * k + 26)
    then set_state depth (StRch RCH_PASS_UP_MESSAGE)
           (set_rx_emsg (set_len (Z.of_nat (length data)) (rx_emsg q')) q')
    else set_state depth (StRch RCH_REQUESTING_CHUNK) q'.
Proof.
  intros Hw D Hh Hk Hd q'. pose proof (append_data data k q Hw D Hh Hk Hd) as D'. cbv zeta in D'. fold q' in D'.
  destruct Hh as [Hx _]. unfold rch_processing_extended_message_run. rewrite Hx. cbv zeta.
  destruct (ext_header_roundtrip k 0 (Z.of_nat (length data))) as (_ & -> & _ & -> & _);
    [unfold EXTENDED_BUFFER_SIZE in Hd; lia..|].
  unfold PDMSG_CHK_FLAG. rewrite (rd_abort _ _ _ _ _ D), (rd_num _ _ _ _ _ D), Z.eqb_refl.
  rewrite (rd_got _ _ _ _ _ D). unfold PD_MAX_EXTENDED_MSG_CHUNK_LEN, EXTENDED_BUFFER_SIZE in *.
  rewrite (wrap_id 32 (Z.of_nat (length data) - 26 * k)) by (unfold in_range; lia).
  replace (if 26 <=? _ then 26 else _) with (chunk_size (Z.of_nat (length data)) k).
  2: { unfold chunk_size. destruct (Z.leb_spec 26 (Z.of_nat (length data) - 26 * k)); lia. }
  rewrite (wrap_id 32) by (unfold in_range, chunk_size; lia).
  destruct (Z.ltb_spec 260 (26 * k + chunk_size (Z.of_nat (length data)) k)) as [|_];
    [unfold chunk_size in *; lia|].
  fold q'. rewrite (rd_got _ _ _ _ _ D'). destruct (Z.leb_spec (Z.of_nat (length data))
    (Z.min (Z.of_nat (length data)) (26 * k + 26))) as [Hle|]; [|done].
  do 3 f_equal. lia.
Qed.

Lemma request_bytes chk x :
  take 2 (bcopy chk 0 (le_bytes 4 x) 4) = le_bytes 2 x.
Proof.
  unfold bcopy. change (Z.to_nat 0) with 0%nat. change (Z.to_nat 4) with 4%nat.
  rewrite take_0, (take_ge (le_bytes 4 x)) by (by rewrite length_le_bytes). by rewrite le_bytes2.
Qed.

Lemma append_ready data k q :
  ready q -> rdata data k (26 * k) (pdmsg q) (rx_emsg q) -> 0 <= k ->
  26 * k < Z.of_nat (length data) <= EXTENDED_BUFFER_SIZE ->
  ready (append_chunk (chunk_size (Z.of_nat (length data)) k) (upd_ctx MRch (set_running true) q)).
Proof.
  intros R D Hk Hd. apply (good_ready q); [|done].
  apply good_append; [unfold chunk_size; lia| |by apply good_running, good_refl, R].
  change (pdmsg (upd_ctx MRch (set_running true) q)) with (pdmsg q). rewrite (rd_got _ _ _ _ _ D).
  unfold chunk_size. lia.
Qed.

(** A chunk in the middle is stored and the next one requested. *)
Lemma middle_turn data k q :
  0 <= k -> 26 * k + 26 < Z.of_nat (length data) <= EXTENDED_BUFFER_SIZE ->
  receiver RCH_PROCESSING_EXTENDED_MESSAGE data k (26 * k) q -> holding data k q ->
  exists q', run_rch q = Some q' /\
    receiver RCH_REQUESTING_CHUNK data (k + 1) (26 * (k + 1)) q' /\
    take 2 (outgoing q') = le_bytes 2 (PD_EXT_HEADER (k + 1) 1 0) /\ told q' = told q.
Proof.
  intros Hk Hd [R C F D] Hh. set (q1 := upd_ctx MRch (set_running true) q).
  set (q2 := append_chunk (chunk_size (Z.of_nat (length data)) k) q1).
  assert (R2 : ready q2) by (apply append_ready; [done|done|done|lia]).
  pose proof (append_data data k q1 (proj1 (ready_running MRch true q R)) D Hh Hk ltac:(lia)) as D2.
  cbv zeta in D2. fold q2 in D2. rewrite Z.min_r in D2 by lia.
  edestruct (turn MRch (StRch RCH_PROCESSING_EXTENDED_MESSAGE) (StRch RCH_REQUESTING_CHUNK) q q2)
    as [E' R']; [exact C|reflexivity|discriminate|reflexivity|discriminate| |exact R2|exact C|reflexivity|reflexivity|].
  { cbn [run]. fold q1. rewrite (processing_run data k q1 (proj1 (ready_running MRch true q R)) D Hh Hk) by lia.
    rewrite (proj2 (Z.leb_gt _ _)) by lia. done. }
  assert (Hreq : u32 (PD_EXT_HEADER (chunk_number_expected (pdmsg q2)) 1 0) = PD_EXT_HEADER (k + 1) 1 0).
  { rewrite (rd_num _ _ _ _ _ D2). unfold EXTENDED_BUFFER_SIZE in Hd.
    destruct (ext_header_roundtrip (k + 1) 1 0) as (Hr & _); [lia..|].
    apply wrap_id. unfold in_range. lia. }
  eexists. split; [exact E'|]. split; [|split].
  3: { apply (told_quiet _ _ [TaskSetEventTx; TaskWake]); [|done]. cbn. by rewrite <- app_assoc. }
  - split; [exact R'|done|exact F|]. destruct D2.
    replace (26 * (k + 1)) with (26 * k + 26) by lia. by split.
  - unfold outgoing. etrans; [apply (request_bytes (tx_chk_buf (pdmsg q2))
      (u32 (PD_EXT_HEADER (chunk_number_expected (pdmsg q2)) 1 0)))|]. by rewrite Hreq.
Qed.

(** The last chunk completes the message, which is passed up. *)
Lemma final_turn data k q :
  0 <= k -> 26 * k < Z.of_nat (length data) <= 26 * k + 26 ->
  Z.of_nat (length data) <= EXTENDED_BUFFER_SIZE ->
  receiver RCH_PROCESSING_EXTENDED_MESSAGE data k (26 * k) q -> holding data k q ->
  exists q' m t, run_rch q = Some q' /\ ready q' /\
    (told q ++ [PeMessageReceived m t]) `prefix_of` told q' /\
    len m = Z.of_nat (length data) /\ take (length data) (buf m) = data.
Proof.
  intros Hk Hd Hmax [R C F D] Hh. set (q1 := upd_ctx MRch (set_running true) q).
  set (q2 := append_chunk (chunk_size (Z.of_nat (length data)) k) q1).
  assert (R2 : ready q2) by (apply append_ready; [done|done|done|lia]).
  pose proof (append_data data k q1 (proj1 (ready_running MRch true q R)) D Hh Hk ltac:(lia)) as D2.
  cbv zeta in D2. fold q2 in D2. rewrite Z.min_l in D2 by lia.
  set (m := set_len (Z.of_nat (length data)) (rx_emsg q2)). set (q3 := set_rx_emsg m q2).
  assert (R3 : ready q3).
  { apply (good_ready q2); [|done]. apply good_set_rx_emsg; [|by apply good_refl, R2].
    intros _ (? & ? & ?). split_and!; cbn; (assumption || lia). }
  edestruct (loud_turn MRch (StRch RCH_PROCESSING_EXTENDED_MESSAGE) (StRch RCH_PASS_UP_MESSAGE) q q3)
    as (q' & E' & R' & L'); [exact C|reflexivity|reflexivity|discriminate|discriminate| |exact R3|exact C|reflexivity| |].
  - cbn [run]. fold q1. rewrite (processing_run data k q1 (proj1 (ready_running MRch true q R)) D Hh Hk) by lia.
    rewrite (proj2 (Z.leb_le _ _)) by lia. done.
  - intros Hw Hs. eapply returns_weaken.
    + apply (pass_up_log (set_state 4) 4 (set_state_ok 4)); [lia|exact Hw|exact Hs].
    + intros f Hf. exact Hf.
  - exists q', m, (sop (prl_rx q)). split_and!; [done|done| |done|].
    + unfold told. destruct L' as [l ->]. rewrite !List.filter_app. cbn.
      apply prefix_app_r. done.
    + destruct D2. rewrite Nat2Z.id in rd_buf0. change (buf m) with (buf (rx_emsg q2)).
      rewrite rd_buf0. by apply take_ge.
Qed.

(** The request has been sent. *)
Lemma requested_turn data k q :
  receiver RCH_REQUESTING_CHUNK data k (26 * k) q ->
  exists q', run_rch (PDMSG_SET_FLAG PRL_FLAGS_TX_COMPLETE q) = Some q' /\
    receiver RCH_WAITING_CHUNK data k (26 * k) q' /\ told q' = told q.
Proof.
  intros [R C F D]. set (q0 := PDMSG_SET_FLAG PRL_FLAGS_TX_COMPLETE q).
  set (q1 := PDMSG_CLR_FLAG PRL_FLAGS_TX_COMPLETE (upd_ctx MRch (set_running true) q0)).
  assert (R1 : ready q1).
  { apply (good_ready q); [|done]. apply good_clr_pd, good_running, good_or_pd, good_refl, R. }
  edestruct (turn MRch (StRch RCH_REQUESTING_CHUNK) (StRch RCH_WAITING_CHUNK) q0 q1)
    as [E' R']; [exact C|reflexivity|discriminate|reflexivity|discriminate| |exact R1|exact C|reflexivity|reflexivity|].
  { cbn [run]. unfold rch_requesting_chunk_run.
    assert (PDMSG_CHK_FLAG PRL_FLAGS_TX_COMPLETE (upd_ctx MRch (set_running true) q0) = true) as ->;
      [|done]. unfold PDMSG_CHK_FLAG. cbn -[BIT]. flag. }
  eexists. split; [exact E'|]. split; [|by eapply told_quiet].
  split; [exact R'|done|exact F|]. destruct D. split; try assumption; cbn -[BIT]; flag.
Qed.

(** The requested chunk arrives. *)
Lemma next_turn data k h q :
  receiver RCH_WAITING_CHUNK data k (26 * k) q -> chunk_packet data k h ->
  exists q', run_rch (RCH_SET_FLAG PRL_FLAGS_MSG_RECEIVED (load_packet (chunk_of data k) h q)) = Some q' /\
    receiver RCH_PROCESSING_EXTENDED_MESSAGE data k (26 * k) q' /\ holding data k q' /\
    told q' = told q.
Proof.
  intros [R C F D] Hp.
  destruct (chunk_packet_facts data k h q (proj1 R) Hp) as (Hl & Hb & Hx & Hy).
  destruct Hp as (Hk & Hd & Hdb & Hsop & Hext). set (q0 := load_packet (chunk_of data k) h q) in *.
  destruct (ext_header_roundtrip k 0 (Z.of_nat (length data))) as (_ & _ & Hrq & _ & Hch);
    [unfold EXTENDED_BUFFER_SIZE in *; lia..|].
  set (q1 := RCH_SET_FLAG PRL_FLAGS_MSG_RECEIVED q0).
  set (q2 := RCH_CLR_FLAG PRL_FLAGS_MSG_RECEIVED (upd_ctx MRch (set_running true) q1)).
  assert (R2 : ready q2).
  { apply (good_ready q); [|done].
    apply good_clr_rch, good_running, good_or_rch, good_load, good_refl, R; done. }
  edestruct (turn MRch (StRch RCH_WAITING_CHUNK) (StRch RCH_PROCESSING_EXTENDED_MESSAGE) q1 q2)
    as [E' R']; [exact C|reflexivity|discriminate|reflexivity|discriminate| |exact R2|exact C|reflexivity|reflexivity|].
  { cbn [run]. unfold rch_waiting_chunk_run. set (y := upd_ctx MRch (set_running true) q1).
    assert (RCH_CHK_FLAG PRL_FLAGS_MSG_RECEIVED y = true) as ->.
    { unfold RCH_CHK_FLAG. cbn -[BIT]. flag. }
    assert (PDMSG_CHK_FLAG PRL_FLAGS_TX_COMPLETE y = false) as -> by exact (rd_cmpl _ _ _ _ _ D).
    cbv zeta. change (rx_chk_word0 y) with (rx_chk_word0 q0). change (header (rx_emsg y)) with h.
    rewrite Hext, Hx, Hrq, Hch. reflexivity. }
  eexists. split; [exact E'|]. split; [|split; [by split|by eapply told_quiet]].
  split; [exact R'|done| |].
  - unfold RCH_CHK_FLAG. cbn -[BIT]. flag.
  - destruct D. by split.
Qed.

(** ** A layer with nothing under way *)

Record idle p : Prop := {
  i_ready : ready p;
  i_tch : current (ctx MTch p) = Some (StTch TCH_WAIT_FOR_MESSAGE_REQUEST_FROM_PE);
  i_rch : current (ctx MRch p) = Some (StRch RCH_WAIT_FOR_MESSAGE_FROM_PROTOCOL_LAYER);
  i_received : TCH_CHK_FLAG PRL_FLAGS_MSG_RECEIVED p = false;
  i_tchunk : TCH_CHK_FLAG PRL_FLAGS_CHUNKING p = true;
  i_rchunk : RCH_CHK_FLAG PRL_FLAGS_CHUNKING p = true;
  i_cmpl : PDMSG_CHK_FLAG PRL_FLAGS_TX_COMPLETE p = false;
  i_err : PDMSG_CHK_FLAG PRL_FLAGS_TX_ERROR p = false;
  i_abort : PDMSG_CHK_FLAG PRL_FLAGS_ABORT p = false }.

(** The request of the policy engine becomes the first chunk. *)
Lemma start_turn data type msg p :
  idle p -> 0 <= type -> prl_get_rev type p = Some PD_REV30 ->
  0 < Z.of_nat (length data) <= EXTENDED_BUFFER_SIZE ->
  len (tx_emsg p) = Z.of_nat (length data) -> take (length data) (buf (tx_emsg p)) = data ->
  exists q, run_tch (prl_send_ext_data_msg type msg p) = Some q /\
    sender TCH_CONSTRUCT_CHUNKED_MESSAGE data 0 (Z.min (Z.of_nat (length data)) 26) q /\
    outgoing q = chunk_of data 0 /\ told q = told p.
Proof.
  intros [R Ct Cr F1 F2 F3 F4 F5 F6] Ht Hrev Hd Hlen Hbuf.
  set (p0 := prl_send_ext_data_msg type msg p).
  set (p1 := upd_pdmsg (fun m => set_chunk_number_to_send 0 (set_send_offset 0 m))
    (TCH_CLR_FLAG PRL_FLAGS_MSG_XMIT (upd_ctx MTch (set_running true) p0))).
  assert (R1 : ready p1).
  { apply (good_ready p); [|done]. apply good_upd_pdmsg.
    - intros _ (? & ? & ? & ? & ? & ? & ? & ?). split_and!; cbn; (assumption || lia || tauto).
    - intros _. unfold more_to_send. cbn. lia.
    - by apply good_clr_tch, good_running, good_send_ext, good_refl, R. }
  set (e := upd_ctx MTch (set_exiting true) p1).
  set (x := at_entry (StTch TCH_CONSTRUCT_CHUNKED_MESSAGE) e).
  assert (More : more_to_send (pdmsg p1)) by (unfold more_to_send; cbn; lia).
  assert (Wx : wf x) by (
    apply wf_at_entry; [intros _; exact More|apply wf_upd_ctx; [done|apply R1]]).
  destruct (construct_data data 0 x Wx Hlen Hbuf eq_refl eq_refl) as [Ho Hc]; [lia|lia|].
  change (26 * 0 + 26) with 26 in Ho.
  destruct (turn MTch (StTch TCH_WAIT_FOR_MESSAGE_REQUEST_FROM_PE)
    (StTch TCH_CONSTRUCT_CHUNKED_MESSAGE) p0 p1 e (PRL_TX_SET_FLAG PRL_FLAGS_MSG_XMIT (construct_chunk x)))
    as [E' R']; [exact Ct|reflexivity|discriminate|reflexivity|intros _; exact More| |exact R1|exact Ct|reflexivity| |].
  { cbn [run]. unfold tch_wait_for_message_request_from_pe_run, tch_received.
    set (y := upd_ctx MTch (set_running true) p0).
    assert (TCH_CHK_FLAG PRL_FLAGS_MSG_RECEIVED y = false) as ->.
    { unfold TCH_CHK_FLAG in *. cbn -[BIT]. flag. }
    assert (TCH_CHK_FLAG PRL_FLAGS_MSG_XMIT y = true) as ->.
    { unfold TCH_CHK_FLAG in *. cbn -[BIT]. flag. }
    set (z := TCH_CLR_FLAG PRL_FLAGS_MSG_XMIT y).
    rewrite (bool_decide_eq_true_2 (rch_get_state z = _)) by exact Cr.
    assert (pdmsg_xmit_type_is_rev30 z = true) as ->.
    { unfold pdmsg_xmit_type_is_rev30, prl_get_rev in *. cbn -[PD_REV30].
      destruct (type <? NUM_SOP_STAR_TYPES); [|done]. cbn -[PD_REV30]. by apply bool_decide_eq_true_2. }
    assert (TCH_CHK_FLAG PRL_FLAGS_CHUNKING z = true) as ->; [|reflexivity].
    unfold TCH_CHK_FLAG in *. cbn -[BIT]. flag. }
  { change (at_entry _ _) with x. cbn [entry]. unfold tch_construct_chunked_message_entry.
    assert (TCH_CHK_FLAG PRL_FLAGS_MSG_RECEIVED x = false) as ->; [|done].
    unfold TCH_CHK_FLAG in *. cbn -[BIT]. flag. }
  set (q := upd_ctx MTch _ _) in E', R'. exists q.
  assert (Ep : pdmsg q = pdmsg (construct_chunk x)).
  { unfold q. by rewrite pdmsg_upd_ctx, pdmsg_finish, pdmsg_tx_flag. }
  split; [exact E'|]. split; [split; [exact R'|reflexivity|]|split].
  - rewrite Ep. split; [|exact F4|exact F5|exact F6|reflexivity|exact Ho|exact Hlen|exact Hbuf].
    unfold TCH_CHK_FLAG in *. cbn -[BIT]. flag.
  - unfold outgoing. by rewrite Ep.
  - apply (told_quiet _ _ [TaskWake; TaskWake]); [|done]. unfold q.
    rewrite log_upd_ctx, log_finish. change (log (PRL_TX_SET_FLAG _ _)) with (log p ++ [TaskWake]).
    by rewrite <- app_assoc.
Qed.

(** ** Both sides *)

Lemma told_prefix p q o :
  pe_call o = true -> (log p ++ [o]) `prefix_of` log q -> (told p ++ [o]) `prefix_of` told q.
Proof.
  intros Ho [l E]. unfold told. rewrite E, !List.filter_app. cbn. rewrite Ho. by apply prefix_app_r.
Qed.

Lemma outgoing_bytes p : wf p -> length (outgoing p) = 28%nat /\ is_bytes (outgoing p).
Proof.
  intros Hw. destruct (wf_pd _ Hw) as (_ & _ & _ & Hc & _). exact Hc.
Qed.

(** ** Where the code does less than it means to *)

(** A message that is not extended, received while a chunk is awaited, stops
    the receiver: the flag stays set, so [prl_rx] takes no further packet and
    the timer that would end the wait is not looked at. *)
Lemma rch_stuck q :
  current (ctx MRch q) = Some (StRch RCH_WAITING_CHUNK) ->
  RCH_CHK_FLAG PRL_FLAGS_MSG_RECEIVED q = true -> PD_HEADER_EXT (header (rx_emsg q)) = 0 ->
  prl_rx_wait_for_phy_message (set_state depth) q = Some q /\
  exists q', run_rch q = Some q' /\ current (ctx MRch q') = Some (StRch RCH_WAITING_CHUNK) /\
    RCH_CHK_FLAG PRL_FLAGS_MSG_RECEIVED q' = true /\ rx_emsg q' = rx_emsg q /\ log q' = log q.
Proof.
  intros C F E. split; [unfold prl_rx_wait_for_phy_message; by rewrite F|].
  unfold run_rch. rewrite (run_state_eq _ _ _ _ C). cbn [run]. unfold rch_waiting_chunk_run.
  set (y := upd_ctx MRch (set_running true) q).
  assert (RCH_CHK_FLAG PRL_FLAGS_MSG_RECEIVED y = true) as -> by exact F.
  cbv zeta. set (z := if PDMSG_CHK_FLAG _ _ then _ else _).
  assert (ctx MRch z = ctx MRch y /\ rch z = rch y /\ rx_emsg z = rx_emsg q /\ log z = log q) as (Ec & Er & Ex & El).
  { unfold z. by case_match. }
  rewrite Ex, E. eexists. split; [reflexivity|]. split; [|split; [|by split]].
  - transitivity (current (ctx MRch z)); [reflexivity|by rewrite Ec].
  - transitivity (RCH_CHK_FLAG PRL_FLAGS_MSG_RECEIVED z); [reflexivity|]. unfold RCH_CHK_FLAG. by rewrite Er.
Qed.

(** Entering the waiting state forgets that the data role is not checked. *)
Lemma role_check_lost p q :
  rch_wait_for_message_from_protocol_layer_entry (prl_set_data_role_check false p) = Some q ->
  RCH_CHK_FLAG PRL_FLAGS_IGNORE_DATA_ROLE q = false.
Proof. by intros [= <-]. Qed.

(** Clearing the chunk clears the first bytes of the packet received last. *)
Lemma construct_overruns p i :
  length (rx_chk_buf (pdmsg p)) = 28%nat -> 0 <= i < 2 ->
  aget (rx_chk_buf (pdmsg (construct_chunk p))) i = 0.
Proof.
  intros Hc Hi. unfold construct_chunk. cbn [pdmsg upd_pdmsg set_pdmsg rx_chk_buf set_tx_chk_buf
    set_rx_chk_buf set_data_objs set_send_offset]. unfold CHK_BUF_SIZE_BYTES, bfill, aget.
  rewrite list_lookup_total_alt, lookup_bcopy by lens. rewrite decide_True by lia.
  by rewrite lookup_replicate_2 by lia.
Qed.
End Link.

(** ** Two ports *)

Section Exchange.
Context {W1 W2 : Type} `{L1 : ClientLaws W1} `{L2 : ClientLaws W2} (K1 K2 : Config).

(** The headers with which the packets of round [k] arrive: [hd k] on the
    chunk, [hr k] on the request that answers it. *)
Context (hd hr : Z -> Z).

#[local] Abbreviation p_turn := (@run_tch W1 _ K1).
#[local] Abbreviation q_turn := (@run_rch W2 _ K2).

(** The chunk [k] goes from the transmit buffer of [p] to [q]; [q] stores it
    and [p] learns that it has been sent. *)
Definition send_chunk (k : Z) (p : prl (W := W1)) (q : prl (W := W2)) : option (prl * prl) :=
  p1 ← p_turn p;
  q1 ← q_turn (RCH_SET_FLAG PRL_FLAGS_MSG_RECEIVED (load_packet (outgoing p) (hd k) q));
  q2 ← q_turn q1;
  p2 ← p_turn (PDMSG_SET_FLAG PRL_FLAGS_TX_COMPLETE p1);
  Some (p2, q2).

(** The request of [q] for another chunk goes to [p]. *)
Definition send_request (k : Z) (p : prl (W := W1)) (q : prl (W := W2)) : option (prl * prl) :=
  q1 ← q_turn (PDMSG_SET_FLAG PRL_FLAGS_TX_COMPLETE q);
  p1 ← p_turn (TCH_SET_FLAG PRL_FLAGS_MSG_RECEIVED (load_packet (outgoing q) (hr k) p));
  Some (p1, q1).

(** [n] chunks that are answered by a request, and the last one. *)
Fixpoint exchange (n : nat) (k : Z) p q : option (prl * prl) :=
  '(p1, q1) ← send_chunk k p q;
  match n with
  | O => Some (p1, q1)
  | S n => '(p2, q2) ← send_request k p1 q1; exchange n (k + 1) p2 q2
  end.

(** The whole transfer of the message in the transmit buffer of [p]. *)
Definition transfer type msg (n : nat) p q : option (prl * prl) :=
  p0 ← p_turn (prl_send_ext_data_msg type msg p); exchange n 0 p0 q.

Definition arrives (h : Z) : Prop := PD_HEADER_GET_SOP h < NUM_SOP_STAR_TYPES /\ PD_HEADER_EXT h = 1.
Context (Hhd : forall k, arrives (hd k)) (Hhr : forall k, arrives (hr k)).

(** What the two policy engines have been told in the end. *)
Definition delivered (data : list Z) (tp tq : list output) (r : prl (W := W1) * prl (W := W2)) : Prop :=
  ready r.1 /\ ready r.2 /\ (tp ++ [PeMessageSent]) `prefix_of` told r.1 /\
  exists m t, (tq ++ [PeMessageReceived m t]) `prefix_of` told r.2 /\
    len m = Z.of_nat (length data) /\ take (length data) (buf m) = data.

(** [q] takes the chunk [k] out of its buffer once it is delivered. *)
Definition accepts (data : list Z) (k : Z) (q : prl (W := W2)) : Prop :=
  exists q', q_turn (RCH_SET_FLAG PRL_FLAGS_MSG_RECEIVED (load_packet (chunk_of data k) (hd k) q)) = Some q' /\
    receiver RCH_PROCESSING_EXTENDED_MESSAGE data k (26 * k) q' /\ holding data k q' /\ told q' = told q.

Lemma middle_chunk data k p q :
  is_bytes data -> 0 <= k -> 26 * k + 26 < Z.of_nat (length data) <= EXTENDED_BUFFER_SIZE ->
  sender TCH_CONSTRUCT_CHUNKED_MESSAGE data k (26 * k + 26) p -> outgoing p = chunk_of data k ->
  accepts data k q ->
  exists p2 q2, send_chunk k p q = Some (p2, q2) /\
    sender TCH_WAIT_CHUNK_REQUEST data (k + 1) (26 * (k + 1)) p2 /\ told p2 = told p /\
    receiver RCH_REQUESTING_CHUNK data (k + 1) (26 * (k + 1)) q2 /\ told q2 = told q /\
    take 2 (outgoing q2) = le_bytes 2 (PD_EXT_HEADER (k + 1) 1 0).
Proof.
  intros Hb Hk Hd S O (q1 & Eq1 & Rq1 & Hq1 & Tq1).
  destruct (construct_turn (K := K1) _ _ _ _ S) as (p1 & Ep1 & S1 & _ & Tp1).
  destruct (middle_turn (K := K2) data k q1) as (q2 & Eq2 & Rq2 & Hq2 & Tq2); [done|lia|done|done|].
  destruct (sent_turn (K := K1) data k (26 * k + 26) p1) as (p2 & Ep2 & S2 & Tp2);
    [unfold EXTENDED_BUFFER_SIZE in *; lia|lia|done|].
  exists p2, q2. unfold send_chunk. rewrite Ep1. cbn [mbind option_bind]. rewrite O, Eq1. cbn [mbind option_bind].
  rewrite Eq2. cbn [mbind option_bind]. rewrite Ep2. cbn [mbind option_bind].
  replace (26 * (k + 1)) with (26 * k + 26) by lia.
  split_and!; try done; try congruence. by replace (26 * k + 26) with (26 * (k + 1)) by lia.
Qed.

Lemma last_chunk data k p q :
  0 <= k -> 26 * k < Z.of_nat (length data) <= 26 * k + 26 ->
  Z.of_nat (length data) <= EXTENDED_BUFFER_SIZE ->
  sender TCH_CONSTRUCT_CHUNKED_MESSAGE data k (Z.of_nat (length data)) p -> outgoing p = chunk_of data k ->
  accepts data k q ->
  exists r, send_chunk k p q = Some r /\ delivered data (told p) (told q) r.
Proof.
  intros Hk Hd Hm S O (q1 & Eq1 & Rq1 & Hq1 & Tq1).
  destruct (construct_turn (K := K1) _ _ _ _ S) as (p1 & Ep1 & S1 & _ & Tp1).
  destruct (final_turn (K := K2) data k q1) as (q2 & m & t & Eq2 & Rq2 & Hq2 & Hl & Hbuf); [done..|].
  destruct (last_turn (K := K1) data k p1 S1) as (p2 & Ep2 & R2 & Tp2).
  exists (p2, q2). unfold send_chunk. rewrite Ep1. cbn [mbind option_bind]. rewrite O, Eq1. cbn [mbind option_bind].
  rewrite Eq2. cbn [mbind option_bind]. rewrite Ep2. cbn [mbind option_bind].
  split; [done|]. split_and!; [done|done| |].
  - rewrite <- Tp1. by apply told_prefix.
  - rewrite <- Tq1. by exists m, t.
Qed.

Lemma request_chunk data k p q :
  is_bytes data -> 0 <= k -> 26 * (k + 1) < Z.of_nat (length data) <= EXTENDED_BUFFER_SIZE ->
  sender TCH_WAIT_CHUNK_REQUEST data (k + 1) (26 * (k + 1)) p ->
  receiver RCH_REQUESTING_CHUNK data (k + 1) (26 * (k + 1)) q ->
  take 2 (outgoing q) = le_bytes 2 (PD_EXT_HEADER (k + 1) 1 0) ->
  exists p1 q1, send_request k p q = Some (p1, q1) /\
    sender TCH_CONSTRUCT_CHUNKED_MESSAGE data (k + 1)
      (Z.min (Z.of_nat (length data)) (26 * (k + 1) + 26)) p1 /\
    outgoing p1 = chunk_of data (k + 1) /\ told p1 = told p /\
    accepts data (k + 1) q1 /\ told q1 = told q.
Proof.
  intros Hb Hk Hd S R Hreq. destruct (requested_turn (K := K2) data (k + 1) q R) as (q1 & Eq1 & R1 & Tq1).
  destruct (outgoing_bytes q (proj1 (r_ready _ _ _ _ _ R))) as [Hl Hob].
  destruct (ext_header_roundtrip (k + 1) 1 0) as (Hh & Hnum & Hrq & _);
    [unfold EXTENDED_BUFFER_SIZE in *; lia..|].
  destruct (wf_pd _ (proj1 (s_ready _ _ _ _ _ S))) as (_ & _ & _ & _ & [Hc _] & _).
  pose proof (rx_ext_header (outgoing q) (hr k) p _ Hc Hl Hob Hreq Hh) as Hx.
  destruct (request_turn (K := K1) data (k + 1) p (outgoing q) (hr k)) as (p1 & Ep1 & S1 & Hout & Tp1);
    [lia|lia|done|done|apply Hhr|apply Hhr|by rewrite Hx|by rewrite Hx|done|].
  exists p1, q1. unfold send_request. rewrite Eq1. cbn [mbind option_bind]. rewrite Ep1. cbn [mbind option_bind].
  split_and!; try done. apply next_turn; [done|]. destruct (Hhd (k + 1)). by split_and!; [lia|lia|lia|..].
Qed.

Lemma exchange_ok data n : forall k p q,
  is_bytes data -> 0 <= k -> Z.of_nat n = (Z.of_nat (length data) - 1) / 26 - k ->
  26 * k < Z.of_nat (length data) <= EXTENDED_BUFFER_SIZE ->
  sender TCH_CONSTRUCT_CHUNKED_MESSAGE data k (Z.min (Z.of_nat (length data)) (26 * k + 26)) p ->
  outgoing p = chunk_of data k -> accepts data k q ->
  exists r, exchange n k p q = Some r /\ delivered data (told p) (told q) r.
Proof.
  induction n as [|n IH]; intros k p q Hb Hk Hn Hd S O A; cbn [exchange].
  - rewrite Z.min_l in S by divlia.
    destruct (last_chunk data k p q) as ([p2 q2] & E & D); [done|divlia|lia|done..|].
    rewrite E. by exists (p2, q2).
  - rewrite Z.min_r in S by divlia.
    destruct (middle_chunk data k p q) as (p2 & q2 & E & S2 & Tp & R2 & Tq & Hreq); [done|done|divlia|done..|].
    rewrite E. cbn [mbind option_bind].
    destruct (request_chunk data k p2 q2) as (p3 & q3 & E3 & S3 & O3 & Tp3 & A3 & Tq3);
      [done|done|divlia|done..|].
    rewrite E3. cbn [mbind option_bind].
    rewrite <- Tp, <- Tp3, <- Tq, <- Tq3. apply IH; [done|lia|lia|divlia|done..].
Qed.

Lemma idle_accepts data q :
  idle q -> pdmsg_xmit_type_is_rev30 q = true -> is_bytes data ->
  0 < Z.of_nat (length data) <= EXTENDED_BUFFER_SIZE -> accepts data 0 q.
Proof.
  intros [] Hrev Hb Hd. apply first_turn; try done. destruct (Hhd 0). by split_and!; [lia|lia|lia|..].
Qed.

(** C19. Between two ports that speak PD 3.0, a message of 1 to 260 bytes that
    the policy engine of one hands to its idle protocol layer is cut into chunks, requested chunk by chunk
    and put together by the idle protocol layer of the other port: after
    [(length - 1) / 26] rounds of chunk and request and one last chunk, the
    first policy engine has been told that the message was sent, the second
    has been given a message of the same length with exactly those bytes,
    neither has been told anything before that, and both layers are at rest. *)
Theorem chunked_message_delivered data type msg p q :
  idle p -> idle q -> 0 <= type -> prl_get_rev type p = Some PD_REV30 ->
  pdmsg_xmit_type_is_rev30 q = true -> is_bytes data ->
  0 < Z.of_nat (length data) <= EXTENDED_BUFFER_SIZE ->
  len (tx_emsg p) = Z.of_nat (length data) -> take (length data) (buf (tx_emsg p)) = data ->
  exists r, transfer type msg (Z.to_nat ((Z.of_nat (length data) - 1) / 26)) p q = Some r /\
    delivered data (told p) (told q) r.
Proof.
  intros Ip Iq Ht Hrp Hrq Hb Hd Hl Hbuf.
  destruct (start_turn (K := K1) data type msg p) as (p0 & E0 & S0 & O0 & T0); [done..|].
  unfold transfer. rewrite E0. cbn [mbind option_bind]. rewrite <- T0.
  apply exchange_ok; [done|lia|divlia|lia|exact S0|done|by apply idle_accepts].
Qed.
End Exchange.

(** ** A concrete transfer *)

(** A layer that was started, and given [data] to send. *)
Definition demo_prepare (data : list Z) : list op :=
  [Run true; Request SetDefaultPdRevision; Request (WriteTxEmsg (Z.of_nat (length data)) data)].
Definition demo_link (data : list Z) : prl (W := demo) :=
  default (boot (Demo 0 false [])) (steps (demo_prepare data) (boot (Demo 0 false []))).
Definition demo_data : list Z := (fun i => 3 * i) <$> seqZ 0 60.
Definition demo_header : Z := PD_HEADER 1 1 1 0 7 2 1.

Lemma demo_valid data :
  is_bytes data -> Z.of_nat (length data) <= EXTENDED_BUFFER_SIZE -> Forall valid_op (demo_prepare data).
Proof.
  intros. unfold demo_prepare. repeat (apply Forall_nil_2 || apply Forall_cons_2); try done.
  cbn. split_and!; [lia|done|lia|done].
Qed.

Lemma demo_bytes : is_bytes demo_data.
Proof. concrete_range. Qed.

Lemma demo_idle : idle (demo_link demo_data).
Proof.
  assert (Hi : inv (demo_link demo_data)).
  { unfold demo_link. destruct (steps_ok (demo_prepare demo_data) (boot (Demo 0 false [])))
      as (q & E & Hq); [by apply demo_valid; [apply demo_bytes|]|apply boot_inv|]. by rewrite E. }
  split; [apply Hi|vm_compute; reflexivity..].
Qed.

Lemma chunked_message_delivered_witness :
  exists r, transfer demo_config demo_config (fun _ => demo_header) (fun _ => demo_header) 0 1 2
      (demo_link demo_data) (demo_link demo_data) = Some r /\
    delivered demo_data (told (demo_link demo_data)) (told (demo_link demo_data)) r.
Proof.
  apply (chunked_message_delivered demo_config demo_config (fun _ => demo_header)
    (fun _ => demo_header)) with (data := demo_data).
  - by split; vm_compute.
  - by split; vm_compute.
  - apply demo_idle.
  - apply demo_idle.
  - lia.
  - vm_compute; reflexivity.
  - vm_compute; reflexivity.
  - apply demo_bytes.
  - by vm_compute.
  - vm_compute; reflexivity.
  - vm_compute; reflexivity.
Defined.
End UsbPrlChunk.
