(* ===== verification/DpmPower.v ===== *)
(** * The source-out policy (common/usbc/usb_pd_dpm.c)

    Every port that sources power may offer 1.5 A; CONFIG_USB_PD_3A_PORTS of
    them may offer 3 A at a time.  [balance_source_ports] hands these slots
    out: first to partners whose sink capabilities ask for more than 1.5 A,
    then to ports that prepare for a fast role swap, then to partners without
    USB-PD.  It takes a slot from a port of a lower class by lowering that
    port's offer, waits in a deferred call until the partner has adjusted, and
    only then hands it on.

    The state is the file's static variables; [log] records the calls that
    change a port's offer.  Operations are atomic: balancing runs under
    max_current_claimed_lock, and the request masks, which other tasks may
    change meanwhile, are taken as they are when it starts. *)

From stdpp Require Import sets.
From S2P Require Import Prelude Bits.
Import Bits.

Module DpmPower.

Definition TYPEC_RP_USB : Z := 0.
Definition TYPEC_RP_1A5 : Z := 1.
Definition TYPEC_RP_3A0 : Z := 2.
Definition PD_ROLE_SINK : Z := 0.
Definition PD_ROLE_SOURCE : Z := 1.
Definition PD_REV20 : Z := 1.
(** src/include/usb_pd.h:292-292 [PD_T_SINK_ADJ] *)
Definition PD_T_SINK_ADJ : Z := 55000.

(** ** Power data objects *)

(** src/include/ec_commands.h:7525-7525 [PDO_TYPE_MASK] *)
Definition PDO_TYPE_MASK : Z := Z.shiftl 3 30.
(** src/include/ec_commands.h:7521-7521 [PDO_TYPE_FIXED] *)
Definition PDO_TYPE_FIXED : Z := Z.shiftl 0 30.
(** src/include/ec_commands.h:7540-7540 [PDO_FIXED_DUAL_ROLE] *)
Definition PDO_FIXED_DUAL_ROLE : Z := BIT 29.
(** src/include/ec_commands.h:7544-7544 [PDO_FIXED_FRS_CURR_MASK] *)
Definition PDO_FIXED_FRS_CURR_MASK : Z := Z.shiftl 3 23.
(** src/include/ec_commands.h:7545-7545 [PDO_FIXED_VOLTAGE] *)
Definition PDO_FIXED_VOLTAGE (p : Z) : Z := Z.land (Z.shiftr p 10) 0x3FF * 50.
(** src/include/ec_commands.h:7546-7546 [PDO_FIXED_CURRENT] *)
Definition PDO_FIXED_CURRENT (p : Z) : Z := Z.land p 0x3FF * 10.
(** src/include/usb_pd.h:123-123 [PDO_FIXED_FRS_CURR_DFLT_USB_POWER] *)
Definition PDO_FIXED_FRS_CURR_DFLT_USB_POWER : Z := Z.shiftl 1 23.
(** src/include/usb_pd.h:124-124 [PDO_FIXED_FRS_CURR_1A5_AT_5V] *)
Definition PDO_FIXED_FRS_CURR_1A5_AT_5V : Z := Z.shiftl 2 23.

(** ** The state *)

(** The calls that leave the file. *)
Inductive output :=
| SelectRp (port rp : Z)
| FrsDetect (port : Z) (enable : bool)
| CallBalance (us : Z)
| ErrorRecovery (port : Z).

(** The board, and what the other layers of the stack answer. *)
Class Board := {
  CONFIG_USB_PD_3A_PORTS : Z;
  CONFIG_USB_PD_FRS : bool;
  board_get_usb_pd_port_count : Z;
  typec_get_default_current_limit_rp : Z -> Z;
  pd_src_pdo : list Z;
  pd_src_pdo_max : list Z }.

(** src/common/usbc/usb_pd_dpm.c:655-666 [max_current_claimed] *)
Record power := Power {
  max_current_claimed : Z;
  sink_max_pdo_requested : Z;
  source_frs_max_requested : Z;
  non_pd_sink_max_requested : Z;
  bist_shared_mode_enabled : bool;
  deferred_waiting : bool;
  log : list output }.

Definition set_claimed v s := Power v (sink_max_pdo_requested s) (source_frs_max_requested s)
  (non_pd_sink_max_requested s) (bist_shared_mode_enabled s) (deferred_waiting s) (log s).
Definition set_sinks v s := Power (max_current_claimed s) v (source_frs_max_requested s)
  (non_pd_sink_max_requested s) (bist_shared_mode_enabled s) (deferred_waiting s) (log s).
Definition set_frs v s := Power (max_current_claimed s) (sink_max_pdo_requested s) v
  (non_pd_sink_max_requested s) (bist_shared_mode_enabled s) (deferred_waiting s) (log s).
Definition set_non_pd v s := Power (max_current_claimed s) (sink_max_pdo_requested s)
  (source_frs_max_requested s) v (bist_shared_mode_enabled s) (deferred_waiting s) (log s).
Definition set_bist v s := Power (max_current_claimed s) (sink_max_pdo_requested s)
  (source_frs_max_requested s) (non_pd_sink_max_requested s) v (deferred_waiting s) (log s).
Definition set_waiting v s := Power (max_current_claimed s) (sink_max_pdo_requested s)
  (source_frs_max_requested s) (non_pd_sink_max_requested s) (bist_shared_mode_enabled s) v (log s).
Definition emit o s := Power (max_current_claimed s) (sink_max_pdo_requested s)
  (source_frs_max_requested s) (non_pd_sink_max_requested s) (bist_shared_mode_enabled s)
  (deferred_waiting s) (log s ++ [o]).

Section Policy.
Context `{Board}.
Implicit Types s : power.

(** src/common/usbc/usb_pd_dpm.c:670-680 [count_port_bits] *)
Definition count_port_bits (bitmask : Z) : Z :=
  foldl (fun total i => if has i bitmask then total + 1 else total) 0
    (seqZ 0 board_get_usb_pd_port_count).

Definition claim (port : Z) s : power := set_claimed (set_bit port (max_current_claimed s)) s.
Definition unclaim (port : Z) s : power := set_claimed (clear_bit port (max_current_claimed s)) s.

(** Take the slot of the lowest port without USB-PD. *)
(** src/common/usbc/usb_pd_dpm.c:728-741 [balance_source_ports] *)
Definition downgrade_non_pd s : power :=
  let rem_non_pd := lowest (Z.land (non_pd_sink_max_requested s) (max_current_claimed s)) in
  let s := emit (SelectRp rem_non_pd (typec_get_default_current_limit_rp rem_non_pd)) s in
  let s := unclaim rem_non_pd s in
  emit (CallBalance PD_T_SINK_ADJ) (set_waiting true s).

(** src/common/usbc/usb_pd_dpm.c:742-753 [balance_source_ports] *)
Definition downgrade_frs s : power :=
  let rem_frs := lowest (Z.land (source_frs_max_requested s) (max_current_claimed s)) in
  let s := unclaim rem_frs (emit (FrsDetect rem_frs false) s) in
  emit (CallBalance 20000) (set_waiting true s).

(** One turn of each of the three loops; [false] is "goto unlock". *)
(** src/common/usbc/usb_pd_dpm.c:721-757 [balance_source_ports] *)
Definition give_sink (new_max_port : Z) s : power * bool :=
  if count_port_bits (max_current_claimed s) <? CONFIG_USB_PD_3A_PORTS
  then (emit (SelectRp new_max_port TYPEC_RP_3A0) (claim new_max_port s), true)
  else if bool_of_Z (Z.land (non_pd_sink_max_requested s) (max_current_claimed s))
  then (downgrade_non_pd s, false)
  else if bool_of_Z (Z.land (source_frs_max_requested s) (max_current_claimed s))
  then (downgrade_frs s, false)
  else (s, false).

(** src/common/usbc/usb_pd_dpm.c:764-787 [balance_source_ports] *)
Definition give_frs (new_frs_port : Z) s : power * bool :=
  if count_port_bits (max_current_claimed s) <? CONFIG_USB_PD_3A_PORTS
  then (emit (FrsDetect new_frs_port true) (claim new_frs_port s), true)
  else if bool_of_Z (Z.land (non_pd_sink_max_requested s) (max_current_claimed s))
  then (downgrade_non_pd s, false)
  else (s, false).

(** src/common/usbc/usb_pd_dpm.c:794-804 [balance_source_ports] *)
Definition give_non_pd (new_max_port : Z) s : power * bool :=
  if count_port_bits (max_current_claimed s) <? CONFIG_USB_PD_3A_PORTS
  then (emit (SelectRp new_max_port TYPEC_RP_3A0) (claim new_max_port s), true)
  else (s, false).

(** The ports of a class without a slot. *)
Definition unmet (requested : Z) s : Z := Z.land requested (Z.lnot (max_current_claimed s)).

(** Ports which no longer require 3.0 A lose their slots. *)
(** src/common/usbc/usb_pd_dpm.c:712-716 [balance_source_ports] *)
Definition remove_ports s : power :=
  let removed_ports := Z.land (max_current_claimed s)
    (Z.lnot (Z.lor (Z.lor (sink_max_pdo_requested s) (source_frs_max_requested s))
      (non_pd_sink_max_requested s))) in
  set_claimed (Z.land (max_current_claimed s) (Z.lnot removed_ports)) s.

(** [in_deferred] is [in_deferred_context ()]; a word has 32 bits, so the
    fuel of the loops is not exhausted ([balance_total]). *)
(** src/common/usbc/usb_pd_dpm.c:688-809 [balance_source_ports] *)
Definition balance_source_ports (in_deferred : bool) s : option power :=
  let s := if in_deferred then set_waiting false s else s in
  if deferred_waiting s then Some s
  else if bist_shared_mode_enabled s then Some s
  else
    let s := remove_ports s in
    '(s, go) ← while_bits give_sink 32 (unmet (sink_max_pdo_requested s) s) s;
    if negb go then Some s else
    '(s, go) ← while_bits give_frs 32 (unmet (source_frs_max_requested s) s) s;
    if negb go then Some s else
    '(s, _) ← while_bits give_non_pd 32 (unmet (non_pd_sink_max_requested s) s) s;
    Some s.

(** ** Requests

    [role] and [rev] are what [pd_get_power_role] and [pd_get_rev] answer for
    the port. *)

(** src/common/usbc/usb_pd_dpm.c:811-859 [dpm_evaluate_sink_fixed_pdo] *)
Definition dpm_evaluate_sink_fixed_pdo (port vsafe5v_pdo role rev : Z) s : option power :=
  if negb (Z.land vsafe5v_pdo PDO_TYPE_MASK =? PDO_TYPE_FIXED) then Some s
  else if negb (PDO_FIXED_VOLTAGE vsafe5v_pdo =? 5000) then Some s
  else if role =? PD_ROLE_SOURCE then
    if CONFIG_USB_PD_3A_PORTS =? 0 then Some s
    else if PDO_FIXED_CURRENT vsafe5v_pdo <=? 1500 then Some s
    else balance_source_ports false (set_sinks (set_bit port (sink_max_pdo_requested s)) s)
  else
    let frs_current := Z.land vsafe5v_pdo PDO_FIXED_FRS_CURR_MASK in
    if negb CONFIG_USB_PD_FRS then Some s
    else if rev =? PD_REV20 then Some s
    else if bool_of_Z (Z.land vsafe5v_pdo PDO_FIXED_DUAL_ROLE) && bool_of_Z frs_current then
      if (frs_current =? PDO_FIXED_FRS_CURR_DFLT_USB_POWER) ||
         (frs_current =? PDO_FIXED_FRS_CURR_1A5_AT_5V)
      then Some (emit (FrsDetect port true) s)
      else if CONFIG_USB_PD_3A_PORTS =? 0 then Some s
      else balance_source_ports false (set_frs (set_bit port (source_frs_max_requested s)) s)
    else Some s.

(** src/common/usbc/usb_pd_dpm.c:861-869 [dpm_add_non_pd_sink] *)
Definition dpm_add_non_pd_sink (port : Z) s : option power :=
  if CONFIG_USB_PD_3A_PORTS =? 0 then Some s
  else balance_source_ports false (set_non_pd (set_bit port (non_pd_sink_max_requested s)) s).

(** src/common/usbc/usb_pd_dpm.c:871-888 [dpm_remove_sink] *)
Definition dpm_remove_sink (port : Z) s : option power :=
  if CONFIG_USB_PD_3A_PORTS =? 0 then Some s
  else if negb (has port (sink_max_pdo_requested s)) && negb (has port (non_pd_sink_max_requested s))
  then Some s
  else
    let s := set_sinks (clear_bit port (sink_max_pdo_requested s)) s in
    let s := set_non_pd (clear_bit port (non_pd_sink_max_requested s)) s in
    balance_source_ports false (emit (SelectRp port (typec_get_default_current_limit_rp port)) s).

(** src/common/usbc/usb_pd_dpm.c:890-904 [dpm_remove_source] *)
Definition dpm_remove_source (port : Z) s : option power :=
  if CONFIG_USB_PD_3A_PORTS =? 0 then Some s
  else if negb CONFIG_USB_PD_FRS then Some s
  else if negb (has port (source_frs_max_requested s)) then Some s
  else balance_source_ports false (set_frs (clear_bit port (source_frs_max_requested s)) s).

(** src/common/usbc/usb_pd_dpm.c:906-939 [dpm_bist_shared_mode_enter] *)
Definition dpm_bist_shared_mode_enter (port : Z) (role : Z -> Z) s : power :=
  if CONFIG_USB_PD_3A_PORTS =? 0 then s
  else if negb (role port =? PD_ROLE_SOURCE) then s
  else foldl (fun s i => if role i =? PD_ROLE_SOURCE then emit (SelectRp i TYPEC_RP_3A0) s else s)
         (set_bist true s) (seqZ 0 board_get_usb_pd_port_count).

(** src/common/usbc/usb_pd_dpm.c:941-969 [dpm_bist_shared_mode_exit] *)
Definition dpm_bist_shared_mode_exit (port : Z) s : power :=
  if CONFIG_USB_PD_3A_PORTS =? 0 then s
  else if negb (bist_shared_mode_enabled s) then s
  else foldl (fun s i => emit (ErrorRecovery i) s) (set_bist false s)
         (seqZ 0 board_get_usb_pd_port_count).

(** src/common/usbc/usb_pd_dpm.c:1206-1220 [pd_set_bist_share_mode] *)
Definition pd_set_bist_share_mode (enable locked : bool) s : bool * power :=
  if (CONFIG_USB_PD_3A_PORTS =? 0) || locked then (false, s) else (true, set_bist enable s).

(** ** What a port offers *)

(** src/common/usbc/usb_pd_dpm.c:978-990 [dpm_get_source_pdo] *)
Definition dpm_get_source_pdo (port : Z) s : list Z :=
  if (0 <? CONFIG_USB_PD_3A_PORTS) &&
     (has port (max_current_claimed s) || bist_shared_mode_enabled s)
  then pd_src_pdo_max else pd_src_pdo.

(** src/common/usbc/usb_pd_dpm.c:992-1003 [dpm_get_source_current] *)
Definition dpm_get_source_current (port role : Z) s : Z :=
  if role =? PD_ROLE_SINK then 0
  else if has port (max_current_claimed s) || bist_shared_mode_enabled s then 3000
  else if typec_get_default_current_limit_rp port =? TYPEC_RP_1A5 then 1500
  else 500.

Definition PD_SOURCE_PORT_CAPABILITY_MANAGED : Z := 0.
Definition PD_SOURCE_PORT_CAPABILITY_GUARANTEED : Z := 1.
Definition PD_SIDO2_15W : Z := 30.
Definition PD_SIDO2_7_5W : Z := 15.
(** src/include/usb_pd.h:382-382 [PD_PDP_SIDO2_TO_SIDO1] *)
Definition PD_PDP_SIDO2_TO_SIDO1 (pdp : Z) : Z := Z.shiftr pdp 1.

(** The fields of the two Source_Info data objects that the code computes;
    the others are zero. *)
(** src/include/usb_pd.h:744-768 [struct sido1] *)
Record sido := Sido {
  port_reported_pdp : Z;
  port_present_pdp : Z;
  port_maximum_pdp : Z;
  port_type : Z;
  port_guaranteed_pdp2 : Z;
  port_maximum_pdp2 : Z }.

(** src/common/usbc/usb_pd_dpm.c:1139-1204 [dpm_get_source_info_msg] *)
Definition dpm_get_source_info_msg (port : Z) s : sido :=
  let type := if 0 <? CONFIG_USB_PD_3A_PORTS then PD_SOURCE_PORT_CAPABILITY_MANAGED
              else PD_SOURCE_PORT_CAPABILITY_GUARANTEED in
  let max2 := if 0 <? CONFIG_USB_PD_3A_PORTS then PD_SIDO2_15W else PD_SIDO2_7_5W in
  let max1 := PD_PDP_SIDO2_TO_SIDO1 max2 in
  let reported :=
    match List.rev (dpm_get_source_pdo port s) with
    | [] => 0
    | highest_pdo :: _ =>
      u8 (u32 (PDO_FIXED_VOLTAGE highest_pdo * PDO_FIXED_CURRENT highest_pdo) / 1000000)
    end in
  let present :=
    if has port (max_current_claimed s) ||
       (count_port_bits (max_current_claimed s) <? CONFIG_USB_PD_3A_PORTS)
    then max1 else reported in
  Sido reported present max1 type PD_SIDO2_7_5W max2.

(** ** Operations *)

Inductive op :=
| EvaluateSinkFixedPdo (port vsafe5v_pdo role rev : Z)
| AddNonPdSink (port : Z)
| RemoveSink (port : Z)
| RemoveSource (port : Z)
| BistEnter (port : Z) (role : Z -> Z)
| BistExit (port : Z)
| SetBist (enable locked : bool)
| Deferred.

Definition step (o : op) s : option power :=
  match o with
  | EvaluateSinkFixedPdo port pdo role rev => dpm_evaluate_sink_fixed_pdo port pdo role rev s
  | AddNonPdSink port => dpm_add_non_pd_sink port s
  | RemoveSink port => dpm_remove_sink port s
  | RemoveSource port => dpm_remove_source port s
  | BistEnter port role => Some (dpm_bist_shared_mode_enter port role s)
  | BistExit port => Some (dpm_bist_shared_mode_exit port s)
  | SetBist enable locked => Some (pd_set_bist_share_mode enable locked s).2
  | Deferred => balance_source_ports true s
  end.
Fixpoint steps (l : list op) s : option power :=
  match l with
  | [] => Some s
  | o :: l => s ← step o s; steps l s
  end.
Definition start : power := Power 0 0 0 0 false false [].
End Policy.

(** ** Bounds of the board *)

Class BoardLaws `{Board} := {
  port_count : 0 < board_get_usb_pd_port_count <= 32;
  slots_nonneg : 0 <= CONFIG_USB_PD_3A_PORTS }.

Section Proofs.
Context `{BoardLaws}.
Implicit Types s : power.
Abbreviation nports := board_get_usb_pd_port_count.
Abbreviation slots := CONFIG_USB_PD_3A_PORTS.

Lemma count_port_bits_count m : count_port_bits m = count nports m.
Proof.
  unfold count_port_bits, count, bits.
  enough (Hg : forall l t, (forall i, In i l -> 0 <= i) ->
    foldl (fun total i => if has i m then total + 1 else total) t l =
    t + Z.of_nat (length (List.filter (Z.testbit m) l))).
  { rewrite Hg; [lia|]. intros i Hi. rewrite <- list_elem_of_In, elem_of_seqZ in Hi. lia. }
  induction l as [|i l IH]; intros t Hl; [cbn; lia|]. cbn [foldl List.filter].
  rewrite IH by (intros j Hj; apply Hl; by right).
  rewrite has_testbit by (apply Hl; by left). destruct (Z.testbit m i); cbn [length]; lia.
Qed.

(** A mask of existing ports. *)
Definition ports (m : Z) : Prop := in_range nports m.
Lemma ports_word m : ports m -> in_range 32 m.
Proof.
  pose proof port_count. intros [H0' H1']. split; [done|].
  eapply Z.lt_le_trans; [exact H1'|]. apply Z.pow_le_mono_r; lia.
Qed.
Lemma ports_bit m i : ports m -> Z.testbit m i = true -> 0 <= i < nports.
Proof.
  pose proof port_count. intros Hm Ht. destruct (Z.neg_nonneg_cases i).
  - by rewrite Z.testbit_neg_r in Ht.
  - split; [done|]. destruct (Z.lt_ge_cases i nports); [done|].
    by rewrite (bits_above nports m i) in Ht by (lia || done).
Qed.
Lemma ports_sub m m' : ports m -> 0 <= m' -> (forall i, Z.testbit m' i = true -> Z.testbit m i = true) ->
  ports m'.
Proof.
  pose proof port_count. intros Hm Hm' Hs. apply in_range_bits; [lia|done|].
  intros i Hi. destruct (Z.testbit m' i) eqn:E; [|done]. apply Hs in E.
  by rewrite (bits_above nports m i) in E by (lia || done).
Qed.
Lemma ports_land m m' : ports m -> ports (Z.land m m').
Proof.
  intros Hm. apply (ports_sub m); [done|apply Z.land_nonneg; left; apply Hm|].
  intros i. rewrite Z.land_spec. by destruct (Z.testbit m i).
Qed.
Lemma ports_set m i : 0 <= i < nports -> ports m -> ports (set_bit i m).
Proof. apply set_range. Qed.
Lemma ports_clear m i : 0 <= i -> ports m -> ports (clear_bit i m).
Proof. pose proof port_count. intros. apply clear_range; [lia|done|done]. Qed.

(** A mask that is not empty has a lowest port. *)
Lemma lowest_port m : ports m -> bool_of_Z m = true ->
  0 <= lowest m < nports /\ Z.testbit m (lowest m) = true.
Proof.
  intros Hm Hne. rewrite lowest_bits. destruct (bits 32 m) as [|i l] eqn:E.
  - rewrite (bits_zero 32 m) in Hne by (done || lia || by apply ports_word). done.
  - cbn. assert (Hin : In i (bits 32 m)) by (rewrite E; by left).
    apply elem_bits in Hin as [_ Ht]. split; [by apply (ports_bit m)|done].
Qed.
Lemma empty_mask m i : bool_of_Z m = false -> Z.testbit m i = false.
Proof.
  unfold bool_of_Z. intros E. apply negb_false_iff, Z.eqb_eq in E. subst. apply Z.bits_0.
Qed.

(** ** Slots *)

Record wf s : Prop := {
  wf_claimed : ports (max_current_claimed s);
  wf_sink : ports (sink_max_pdo_requested s);
  wf_frs : ports (source_frs_max_requested s);
  wf_non_pd : ports (non_pd_sink_max_requested s) }.
Definition taken s : Z := count nports (max_current_claimed s).
Definition inv s : Prop := wf s /\ taken s <= slots.

Lemma inv_emit o s : inv s -> inv (emit o s).
Proof. intros [[] ?]. by split. Qed.
Lemma inv_waiting b s : inv s -> inv (set_waiting b s).
Proof. intros [[] ?]. by split. Qed.
Lemma inv_bist b s : inv s -> inv (set_bist b s).
Proof. intros [[] ?]. by split. Qed.
Lemma inv_sub m s : inv s -> 0 <= m ->
  (forall i, Z.testbit m i = true -> Z.testbit (max_current_claimed s) i = true) -> inv (set_claimed m s).
Proof.
  intros [[] Ht] Hm Hs. split; [split; cbn; try done; by apply (ports_sub (max_current_claimed s))|].
  unfold taken in *. cbn. etrans; [|exact Ht]. apply count_le. auto.
Qed.
Lemma inv_unclaim i s : 0 <= i -> inv s -> inv (unclaim i s).
Proof.
  intros Hi Hs. apply inv_sub; [done|apply (ports_clear _ _ Hi), Hs|].
  intros j. rewrite testbit_clear by done. by destruct (Z.testbit _ j).
Qed.
Lemma inv_claim i s : 0 <= i < nports -> taken s < slots -> inv s -> inv (claim i s).
Proof.
  intros Hi Ht [[] _]. split; [split; cbn; try done; by apply ports_set|].
  unfold taken in *. cbn. destruct (Z.testbit (max_current_claimed s) i) eqn:E.
  - rewrite (count_ext _ _ (max_current_claimed s)); [lia|]. intros j _.
    rewrite testbit_set by lia. destruct (Z.eqb_spec j i) as [->|]; [by rewrite E|apply orb_false_r].
  - rewrite count_set by done. lia.
Qed.
Lemma inv_remove s : inv s -> inv (remove_ports s).
Proof.
  intros Hs. unfold remove_ports. apply inv_sub; [done| |].
  - apply Z.land_nonneg. left. apply Hs.
  - intros i. rewrite Z.land_spec. by destruct (Z.testbit _ i).
Qed.

Lemma inv_downgrade_non_pd s :
  bool_of_Z (Z.land (non_pd_sink_max_requested s) (max_current_claimed s)) = true ->
  inv s -> inv (downgrade_non_pd s).
Proof.
  intros Hne Hs. unfold downgrade_non_pd. apply inv_emit, inv_waiting, inv_unclaim, inv_emit, Hs.
  apply lowest_port in Hne; [apply Hne|]. apply ports_land, Hs.
Qed.
Lemma inv_downgrade_frs s :
  bool_of_Z (Z.land (source_frs_max_requested s) (max_current_claimed s)) = true ->
  inv s -> inv (downgrade_frs s).
Proof.
  intros Hne Hs. unfold downgrade_frs. apply inv_emit, inv_waiting, inv_unclaim, inv_emit, Hs.
  apply lowest_port in Hne; [apply Hne|]. apply ports_land, Hs.
Qed.

Lemma inv_give_sink i s : 0 <= i < nports -> inv s -> inv (give_sink i s).1.
Proof.
  intros Hi Hs. unfold give_sink. rewrite count_port_bits_count.
  destruct (Z.ltb_spec (count nports (max_current_claimed s)) slots).
  - by apply inv_emit, inv_claim.
  - case_match; [by apply inv_downgrade_non_pd|]. case_match; [by apply inv_downgrade_frs|done].
Qed.
Lemma inv_give_frs i s : 0 <= i < nports -> inv s -> inv (give_frs i s).1.
Proof.
  intros Hi Hs. unfold give_frs. rewrite count_port_bits_count.
  destruct (Z.ltb_spec (count nports (max_current_claimed s)) slots).
  - by apply inv_emit, inv_claim.
  - case_match; [by apply inv_downgrade_non_pd|done].
Qed.
Lemma inv_give_non_pd i s : 0 <= i < nports -> inv s -> inv (give_non_pd i s).1.
Proof.
  intros Hi Hs. unfold give_non_pd. rewrite count_port_bits_count.
  destruct (Z.ltb_spec (count nports (max_current_claimed s)) slots); [by apply inv_emit, inv_claim|done].
Qed.

(** A loop over the ports of a class. *)
Lemma unmet_ports r s : ports r -> ports (unmet r s).
Proof. apply ports_land. Qed.
Lemma loop_each give r s :
  ports r -> while_bits give 32 (unmet r s) s = Some (each give (bits 32 (unmet r s)) s).
Proof. intros Hr. apply while_bits_each, ports_word, unmet_ports, Hr. Qed.
Lemma elem_unmet r s i : ports r -> In i (bits 32 (unmet r s)) <->
  0 <= i < nports /\ Z.testbit r i = true /\ Z.testbit (max_current_claimed s) i = false.
Proof.
  pose proof port_count. intros Hr. rewrite elem_bits. unfold unmet. rewrite Z.land_spec. split.
  - intros [Hi Ht]. rewrite Z.lnot_spec in Ht by lia. apply andb_true_iff in Ht as [Ht1 Ht2].
    split; [by apply (ports_bit r)|]. by destruct (Z.testbit (max_current_claimed s) i).
  - intros (Hi & Ht & Hc). rewrite Z.lnot_spec, Ht, Hc by lia. split; [lia|done].
Qed.
Lemma inv_loop give r s :
  (forall i t, 0 <= i < nports -> inv t -> inv (give i t).1) -> ports r -> inv s ->
  inv (each give (bits 32 (unmet r s)) s).1.
Proof.
  intros Hg Hr Hs. apply each_inv; [|done]. intros i t Hi. apply Hg. by apply elem_unmet in Hi as [? _].
Qed.

(** Balancing ends, and never hands out more slots than there are. *)
Lemma balance_inv d s0 : inv s0 -> exists t, balance_source_ports d s0 = Some t /\ inv t.
Proof.
  intros Hs0. unfold balance_source_ports. set (s1 := if d then _ else s0).
  assert (Hs1 : inv s1) by (destruct d; [by apply inv_waiting|done]). clearbody s1.
  destruct (deferred_waiting s1); [by exists s1|]. destruct (bist_shared_mode_enabled s1); [by exists s1|].
  pose proof (inv_remove s1 Hs1) as Hs. set (s := remove_ports s1) in *. clearbody s. cbv zeta.
  pose proof (inv_loop give_sink (sink_max_pdo_requested s) s inv_give_sink (wf_sink _ (proj1 Hs)) Hs) as H1'.
  rewrite (loop_each give_sink _ s) by apply (wf_sink _ (proj1 Hs)). cbn [mbind option_bind].
  destruct (each give_sink _ s) as [s2 []]; cbn [negb fst] in *; [|by exists s2].
  pose proof (inv_loop give_frs _ s2 inv_give_frs (wf_frs _ (proj1 H1')) H1') as H2'.
  rewrite (loop_each give_frs _ s2) by apply (wf_frs _ (proj1 H1')). cbn [mbind option_bind].
  destruct (each give_frs _ s2) as [s3 []]; cbn [negb fst] in *; [|by exists s3].
  pose proof (inv_loop give_non_pd _ s3 inv_give_non_pd (wf_non_pd _ (proj1 H2')) H2') as H3'.
  rewrite (loop_each give_non_pd _ s3) by apply (wf_non_pd _ (proj1 H2')). cbn [mbind option_bind].
  destruct (each give_non_pd _ s3) as [s4 go]. by exists s4.
Qed.

(** ** Every operation keeps the budget *)

Definition valid_op (o : op) : Prop :=
  match o with
  | EvaluateSinkFixedPdo port _ _ _ | AddNonPdSink port | RemoveSink port | RemoveSource port
  | BistEnter port _ | BistExit port => 0 <= port < nports
  | SetBist _ _ | Deferred => True
  end.

Lemma inv_foldl (f : power -> Z -> power) l : forall s,
  (forall t i, inv t -> inv (f t i)) -> inv s -> inv (foldl f s l).
Proof. induction l as [|i l IH]; intros s Hf Hs; [done|]. apply IH; [done|by apply Hf]. Qed.

Lemma step_inv o s : valid_op o -> inv s -> exists t, step o s = Some t /\ inv t.
Proof.
  intros Hv Hs. assert (Hself : exists t, Some s = Some t /\ inv t) by (by exists s).
  assert (Hset : forall port, 0 <= port < nports ->
    inv (set_sinks (set_bit port (sink_max_pdo_requested s)) s) /\
    inv (set_frs (set_bit port (source_frs_max_requested s)) s) /\
    inv (set_frs (clear_bit port (source_frs_max_requested s)) s) /\
    inv (set_non_pd (set_bit port (non_pd_sink_max_requested s)) s)).
  { intros port Hp. destruct Hs as [[] Ht]. split_and!; (split; [split; cbn|done]); try done;
      try (by apply ports_set); apply ports_clear; (done || lia). }
  destruct o as [port pdo role rev|port|port|port|port role|port|en lk|]; cbn [step valid_op] in *;
    try (destruct (Hset port Hv) as (A & B & C & D)).
  - unfold dpm_evaluate_sink_fixed_pdo. repeat case_match; try done; try by apply balance_inv.
    eexists. split; [done|]. by apply inv_emit.
  - unfold dpm_add_non_pd_sink. case_match; [done|]. by apply balance_inv.
  - unfold dpm_remove_sink. repeat case_match; try done. apply balance_inv, inv_emit.
    destruct Hs as [[] Ht]. split; [split; cbn; try done; apply ports_clear; (done || lia)|done].
  - unfold dpm_remove_source. repeat case_match; try done. by apply balance_inv.
  - eexists. split; [done|]. unfold dpm_bist_shared_mode_enter. repeat case_match; try done.
    apply inv_foldl; [|by apply inv_bist]. intros t i Ht. case_match; [by apply inv_emit|done].
  - eexists. split; [done|]. unfold dpm_bist_shared_mode_exit. repeat case_match; try done.
    apply inv_foldl; [|by apply inv_bist]. intros t i Ht. by apply inv_emit.
  - eexists. split; [done|]. unfold pd_set_bist_share_mode. case_match; [done|]. by apply inv_bist.
  - by apply balance_inv.
Qed.

Lemma steps_inv ops : forall s, Forall valid_op ops -> inv s -> exists t, steps ops s = Some t /\ inv t.
Proof.
  induction ops as [|o ops IH]; intros s Hv Hs; [by exists s|]. inversion_clear Hv.
  destruct (step_inv o s) as (t & E & Ht); [done|done|]. cbn [steps]. rewrite E. by apply IH.
Qed.

(** The ports that offer 3 A, [role] being their power roles. *)
Definition offering (role : Z -> Z) s : list Z :=
  List.filter (fun i => dpm_get_source_current i (role i) s =? 3000) (seqZ 0 nports).

Lemma offering_taken role s :
  bist_shared_mode_enabled s = false -> Z.of_nat (length (offering role s)) <= taken s.
Proof.
  intros Hb. unfold taken, count. apply Nat2Z.inj_le, List.NoDup_incl_length.
  - apply List.NoDup_filter, NoDup_ListNoDup, NoDup_seqZ.
  - intros i Hi. apply filter_In in Hi as [Hi Hc]. rewrite <- list_elem_of_In, elem_of_seqZ in Hi.
    apply elem_bits. split; [lia|]. unfold dpm_get_source_current in Hc. rewrite Hb, orb_false_r in Hc.
    rewrite <- has_testbit by lia. destruct (role i =? PD_ROLE_SINK); [done|].
    destruct (has i _); [done|]. by destruct (typec_get_default_current_limit_rp i =? TYPEC_RP_1A5).
Qed.

(** C24. Whatever requests the ports make, in whatever order with the deferred
    calls, balancing returns, never hands out more 3 A slots than the board
    has, and outside the BIST shared test mode at most that many ports offer
    3 A in their source capabilities at a time. *)
Theorem slots_respected ops role s :
  inv s -> Forall valid_op ops ->
  exists t, steps ops s = Some t /\ inv t /\ taken t <= slots /\
    (bist_shared_mode_enabled t = false -> Z.of_nat (length (offering role t)) <= slots).
Proof.
  intros Hs Hv. destruct (steps_inv ops s Hv Hs) as (t & E & Ht). exists t.
  split_and!; [done|done|apply Ht|]. intros Hb. etrans; [by apply offering_taken|apply Ht].
Qed.

(** ** Which ports have the slots *)

(** How many ports of a class have one. *)
Definition served (r : Z) s : Z := count nports (Z.land (max_current_claimed s) r).

Lemma served_nonneg r s : 0 <= served r s.
Proof. apply count_nonneg. Qed.
Lemma served_claim r i s :
  0 <= i < nports -> Z.testbit (max_current_claimed s) i = false ->
  served r (claim i s) = served r s + Z.b2z (Z.testbit r i).
Proof.
  intros Hi Hc. unfold served, claim. cbn. destruct (Z.testbit r i) eqn:E; cbn [Z.b2z].
  - apply (count_insert _ _ _ i); [done|by rewrite Z.land_spec, Hc|..].
    + by rewrite Z.land_spec, testbit_set, Z.eqb_refl, orb_true_r, E by lia.
    + intros j Hj Hne. rewrite !Z.land_spec, testbit_set by lia.
      by rewrite (proj2 (Z.eqb_neq _ _) Hne), orb_false_r.
  - rewrite Z.add_0_r. apply count_ext. intros j Hj. rewrite !Z.land_spec, testbit_set by lia.
    destruct (Z.eqb_spec j i) as [->|]; [by rewrite E, !andb_false_r|by rewrite orb_false_r].
Qed.
Lemma served_unclaim r i s :
  0 <= i < nports -> Z.testbit (max_current_claimed s) i = true ->
  served r (unclaim i s) = served r s - Z.b2z (Z.testbit r i).
Proof.
  intros Hi Hc. unfold served, unclaim. cbn. destruct (Z.testbit r i) eqn:E; cbn [Z.b2z].
  - enough (count nports (Z.land (max_current_claimed s) r) =
      count nports (Z.land (clear_bit i (max_current_claimed s)) r) + 1) by lia.
    apply (count_insert _ _ _ i); [done|..].
    + by rewrite Z.land_spec, testbit_clear, Z.eqb_refl, andb_false_r by lia.
    + by rewrite Z.land_spec, Hc, E.
    + intros j Hj Hne. rewrite !Z.land_spec, testbit_clear by lia.
      by rewrite (proj2 (Z.eqb_neq _ _) Hne), andb_true_r.
  - rewrite Z.sub_0_r. apply count_ext. intros j Hj. rewrite !Z.land_spec, testbit_clear by lia.
    destruct (Z.eqb_spec j i) as [->|]; [by rewrite E, !andb_false_r|by rewrite andb_true_r].
Qed.

(** No port is in two classes. *)
Record exclusive s : Prop := {
  ex_sink_frs i : Z.testbit (sink_max_pdo_requested s) i = true ->
    Z.testbit (source_frs_max_requested s) i = false;
  ex_sink_non i : Z.testbit (sink_max_pdo_requested s) i = true ->
    Z.testbit (non_pd_sink_max_requested s) i = false;
  ex_frs_non i : Z.testbit (source_frs_max_requested s) i = true ->
    Z.testbit (non_pd_sink_max_requested s) i = false }.

(** The requests are the same. *)
Definition same s t : Prop :=
  sink_max_pdo_requested t = sink_max_pdo_requested s /\
  source_frs_max_requested t = source_frs_max_requested s /\
  non_pd_sink_max_requested t = non_pd_sink_max_requested s /\
  bist_shared_mode_enabled t = bist_shared_mode_enabled s.
Lemma same_refl s : same s s.
Proof. done. Qed.
Lemma same_trans s t u : same s t -> same t u -> same s u.
Proof. intros (A & B & C & D) (A' & B' & C' & D'). split_and!; congruence. Qed.
Lemma same_exclusive s t : same s t -> exclusive s -> exclusive t.
Proof. intros (A & B & C & _) []. split; rewrite ?A, ?B, ?C; done. Qed.

(** A class [r] has no slot. *)
Definition unserved (r : Z) s : Prop :=
  forall i, Z.testbit r i = true -> Z.testbit (max_current_claimed s) i = false.
(** Every port of the class has one. *)
Definition satisfied (r : Z) s : Prop :=
  forall i, Z.testbit r i = true -> Z.testbit (max_current_claimed s) i = true.
(** Slots are taken by [t] only from ports of [r] or by ports that had one. *)
Definition within (r : Z) s t : Prop :=
  forall i, Z.testbit (max_current_claimed t) i = true ->
    Z.testbit (max_current_claimed s) i = true \/ Z.testbit r i = true.

Lemma no_overlap r s :
  bool_of_Z (Z.land r (max_current_claimed s)) = false -> unserved r s.
Proof.
  intros Hz i Hr. pose proof (empty_mask _ i Hz) as E. rewrite Z.land_spec, Hr in E. done.
Qed.

(** What the ports of the lower classes hold, weighted by how low they are. *)
Definition weight s : Z :=
  2 * served (non_pd_sink_max_requested s) s + served (source_frs_max_requested s) s.

(** *** Taking a slot away *)

(** [t] is [s] after a slot was taken away and the wait begun. *)
Record taken_away s t : Prop := {
  ta_same : same s t;
  ta_inv : inv t;
  ta_waiting : deferred_waiting t = true;
  ta_taken : taken t = taken s - 1;
  ta_within : within 0 s t }.

Lemma taken_unclaim i s :
  0 <= i < nports -> Z.testbit (max_current_claimed s) i = true -> taken (unclaim i s) = taken s - 1.
Proof. intros. unfold taken. cbn. by apply count_clear. Qed.

Lemma downgrade_non_pd_ok s :
  inv s -> exclusive s ->
  bool_of_Z (Z.land (non_pd_sink_max_requested s) (max_current_claimed s)) = true ->
  taken_away s (downgrade_non_pd s) /\ weight (downgrade_non_pd s) = weight s - 2.
Proof.
  intros Hs Hx Hne. pose proof (inv_downgrade_non_pd s Hne Hs) as Hi.
  destruct (lowest_port _ (ports_land _ _ (wf_non_pd _ (proj1 Hs))) Hne) as [Hr Ht].
  rewrite Z.land_spec in Ht. apply andb_true_iff in Ht as [Hp Hc].
  unfold downgrade_non_pd in *. set (i := lowest _) in *. split; [split|]; [done|exact Hi|done|..].
  - exact (taken_unclaim i s Hr Hc).
  - intros j. cbn. rewrite testbit_clear by lia. intros Hj. left. by destruct (Z.testbit _ j).
  - unfold weight. cbn.
    pose proof (served_unclaim (non_pd_sink_max_requested s) i s Hr Hc) as A. rewrite Hp in A.
    pose proof (served_unclaim (source_frs_max_requested s) i s Hr Hc) as B.
    destruct (Z.testbit (source_frs_max_requested s) i) eqn:E.
    + by rewrite (ex_frs_non _ Hx i E) in Hp.
    + unfold served, unclaim in *. cbn in *. lia.
Qed.

Lemma downgrade_frs_ok s :
  inv s -> exclusive s ->
  bool_of_Z (Z.land (source_frs_max_requested s) (max_current_claimed s)) = true ->
  taken_away s (downgrade_frs s) /\ weight (downgrade_frs s) = weight s - 1.
Proof.
  intros Hs Hx Hne. pose proof (inv_downgrade_frs s Hne Hs) as Hi.
  destruct (lowest_port _ (ports_land _ _ (wf_frs _ (proj1 Hs))) Hne) as [Hr Ht].
  rewrite Z.land_spec in Ht. apply andb_true_iff in Ht as [Hp Hc].
  unfold downgrade_frs in *. set (i := lowest _) in *. split; [split|]; [done|exact Hi|done|..].
  - exact (taken_unclaim i s Hr Hc).
  - intros j. cbn. rewrite testbit_clear by lia. intros Hj. left. by destruct (Z.testbit _ j).
  - unfold weight. cbn.
    pose proof (served_unclaim (source_frs_max_requested s) i s Hr Hc) as A. rewrite Hp in A.
    pose proof (served_unclaim (non_pd_sink_max_requested s) i s Hr Hc) as B.
    rewrite (ex_frs_non _ Hx i Hp) in B. unfold served, unclaim in *. cbn in *. lia.
Qed.

(** *** Handing slots out *)

(** [t] is [s] after the ports of [l] got a slot each. *)
Record handed (l : list Z) s t : Prop := {
  hd_same : same s t;
  hd_inv : inv t;
  hd_waiting : deferred_waiting t = deferred_waiting s;
  hd_claimed i : Z.testbit (max_current_claimed t) i = Z.testbit (max_current_claimed s) i || bool_decide (i ∈ l);
  hd_taken : taken t = taken s + Z.of_nat (length l) }.

Lemma handed_nil s : inv s -> handed [] s s.
Proof. intros. split; [done|done|done| |cbn; lia]. intros i. by rewrite orb_false_r. Qed.
Lemma handed_one i s o :
  inv s -> 0 <= i < nports -> Z.testbit (max_current_claimed s) i = false -> taken s < slots ->
  handed [i] s (emit o (claim i s)).
Proof.
  intros Hs Hi Hc Ht. split; [done|by apply inv_emit, inv_claim|done|..].
  - intros j. cbn. rewrite testbit_set by lia. f_equal. symmetry.
    destruct (Z.eqb_spec j i); [apply bool_decide_eq_true_2|apply bool_decide_eq_false_2]; set_solver.
  - unfold taken. cbn. rewrite count_set by done. lia.
Qed.
Lemma handed_cons i l s t u : handed [i] s t -> handed l t u -> handed (i :: l) s u.
Proof.
  intros [A1 B1 C1 D1 E1] [A2 B2 C2 D2 E2]. split; [by eapply same_trans|done|congruence|..].
  - intros j. rewrite D2, D1, <- orb_assoc. f_equal. rewrite <- bool_decide_or.
    apply bool_decide_ext. set_solver.
  - cbn [length] in *. lia.
Qed.
Lemma handed_within l s t r : handed l s t -> (forall i, i ∈ l -> Z.testbit r i = true) -> within r s t.
Proof.
  intros Ht Hl i. rewrite (hd_claimed _ _ _ Ht). intros [E|E]%orb_true_iff; [by left|right].
  apply Hl. by apply bool_decide_eq_true in E.
Qed.

(** The ports of [l] that a loop over [l] reaches before it leaves. *)
Lemma each_handed give l : forall s,
  inv s -> NoDup l ->
  (forall i, i ∈ l -> 0 <= i < nports /\ Z.testbit (max_current_claimed s) i = false) ->
  (forall i t, 0 <= i < nports -> taken t < slots -> exists o, give i t = (emit o (claim i t), true)) ->
  (forall i t, slots <= taken t -> (give i t).2 = false) ->
  exists t, (handed l s t /\ each give l s = (t, true)) \/
    (exists l1 i l2, l = l1 ++ i :: l2 /\ handed l1 s t /\ taken t = slots /\
      each give l s = ((give i t).1, false)).
Proof.
  induction l as [|i l IH]; intros s Hs Hnd Hl Hgive Hstop; cbn [each].
  - exists s. left. by split; [apply handed_nil|].
  - apply list.NoDup_cons in Hnd as [Hni Hnd]. destruct (Hl i) as [Hi Hc]; [set_solver|].
    destruct (Z.lt_ge_cases (taken s) slots) as [Hlt|Hge].
    + destruct (Hgive i s Hi Hlt) as [o E]. rewrite E. pose proof (handed_one i s o Hs Hi Hc Hlt) as Hone.
      destruct (IH (emit o (claim i s))) as [t [[Ht Et]|(l1 & j & l2 & -> & Ht & Htk & Et)]];
        [apply Hone|done| |done|done|..].
      * intros j Hj. destruct (Hl j) as [Hjr Hjc]; [set_solver|]. split; [done|].
        rewrite (hd_claimed _ _ _ Hone), Hjc. apply bool_decide_eq_false. set_solver.
      * exists t. left. by split; [eapply handed_cons|].
      * exists t. right. exists (i :: l1), j, l2. by split_and!; [|eapply handed_cons| |].
    + exists s. right. exists [], i, l. split_and!; [done|by apply handed_nil|destruct Hs; lia|].
      specialize (Hstop i s Hge). destruct (give i s) as [t b]. cbn in Hstop. by subst b.
Qed.

Lemma give_sink_free i s :
  taken s < slots -> give_sink i s = (emit (SelectRp i TYPEC_RP_3A0) (claim i s), true).
Proof. intros. unfold give_sink. rewrite count_port_bits_count, (proj2 (Z.ltb_lt _ _)) by done. done. Qed.
Lemma give_sink_full i s : slots <= taken s ->
  give_sink i s =
    (if bool_of_Z (Z.land (non_pd_sink_max_requested s) (max_current_claimed s)) then downgrade_non_pd s
     else if bool_of_Z (Z.land (source_frs_max_requested s) (max_current_claimed s)) then downgrade_frs s
     else s, false).
Proof.
  intros. unfold give_sink. rewrite count_port_bits_count, (proj2 (Z.ltb_ge _ _)) by done.
  repeat case_match; done.
Qed.
Lemma give_frs_free i s :
  taken s < slots -> give_frs i s = (emit (FrsDetect i true) (claim i s), true).
Proof. intros. unfold give_frs. rewrite count_port_bits_count, (proj2 (Z.ltb_lt _ _)) by done. done. Qed.
Lemma give_frs_full i s : slots <= taken s ->
  give_frs i s =
    (if bool_of_Z (Z.land (non_pd_sink_max_requested s) (max_current_claimed s)) then downgrade_non_pd s
     else s, false).
Proof.
  intros. unfold give_frs. rewrite count_port_bits_count, (proj2 (Z.ltb_ge _ _)) by done.
  repeat case_match; done.
Qed.
Lemma give_non_pd_free i s :
  taken s < slots -> give_non_pd i s = (emit (SelectRp i TYPEC_RP_3A0) (claim i s), true).
Proof. intros. unfold give_non_pd. rewrite count_port_bits_count, (proj2 (Z.ltb_lt _ _)) by done. done. Qed.
Lemma give_non_pd_full i s : slots <= taken s -> give_non_pd i s = (s, false).
Proof. intros. unfold give_non_pd. rewrite count_port_bits_count, (proj2 (Z.ltb_ge _ _)) by done. done. Qed.

(** A loop over the ports of class [r] without a slot: either all get one, or
    the slots run out and [give] is asked once more. *)
Lemma loop_handed give r s :
  inv s -> ports r ->
  (forall i t, 0 <= i < nports -> taken t < slots -> exists o, give i t = (emit o (claim i t), true)) ->
  (forall i t, slots <= taken t -> (give i t).2 = false) ->
  exists t, same s t /\ inv t /\ deferred_waiting t = deferred_waiting s /\ within r s t /\
    (forall i, Z.testbit (max_current_claimed s) i = true -> Z.testbit (max_current_claimed t) i = true) /\
    ((satisfied r t /\ each give (bits 32 (unmet r s)) s = (t, true)) \/
     (exists i, Z.testbit r i = true /\ Z.testbit (max_current_claimed t) i = false /\
        taken t = slots /\ each give (bits 32 (unmet r s)) s = ((give i t).1, false))).
Proof.
  intros Hs Hr Hgive Hstop. set (l := bits 32 (unmet r s)).
  assert (Hel : forall i, i ∈ l <->
    0 <= i < nports /\ Z.testbit r i = true /\ Z.testbit (max_current_claimed s) i = false).
  { intros i. rewrite list_elem_of_In. by apply elem_unmet. }
  assert (Hnd : NoDup l) by apply NoDup_ListNoDup, nodup_bits.
  destruct (each_handed give l s) as [t Ht]; [done|done| |done|done|].
  { intros i Hi. apply Hel in Hi as (? & _ & ?). done. }
  assert (Hkeep : forall l', handed l' s t -> forall i, Z.testbit (max_current_claimed s) i = true ->
    Z.testbit (max_current_claimed t) i = true) by (intros l' Hh i Hi; by rewrite (hd_claimed _ _ _ Hh), Hi).
  exists t. destruct Ht as [[Hh E]|(l1 & i & l2 & El & Hh & Htk & E)].
  - split_and!; try apply Hh; [eapply handed_within; [exact Hh|]|by eapply Hkeep|left; split; [|done]].
    + intros i Hi. by apply Hel in Hi as (_ & ? & _).
    + intros i Hi. rewrite (hd_claimed _ _ _ Hh). destruct (Z.testbit (max_current_claimed s) i) eqn:Ec; [done|].
      apply bool_decide_eq_true, Hel. split; [by apply (ports_bit r)|done].
  - assert (Hi : i ∈ l) by (rewrite El; set_solver). apply Hel in Hi as (_ & Hir & Hic).
    split_and!; try apply Hh; [eapply handed_within; [exact Hh|]|by eapply Hkeep|right; exists i].
    + intros j Hj. assert (Hjl : j ∈ l) by (rewrite El; set_solver). by apply Hel in Hjl as (_ & ? & _).
    + split_and!; [done| |done|done]. rewrite (hd_claimed _ _ _ Hh), Hic. apply bool_decide_eq_false.
      rewrite El in Hnd. apply list.NoDup_app in Hnd as (_ & Hd & _). intros Hj. apply (Hd i Hj). set_solver.
Qed.

(** *** One round of balancing *)

(** Only ports with a request hold a slot. *)
Definition requested s : Prop := forall i, Z.testbit (max_current_claimed s) i = true ->
  Z.testbit (sink_max_pdo_requested s) i = true \/ Z.testbit (source_frs_max_requested s) i = true \/
  Z.testbit (non_pd_sink_max_requested s) i = true.

Definition keeps s t : Prop :=
  forall i, Z.testbit (max_current_claimed s) i = true -> Z.testbit (max_current_claimed t) i = true.

Lemma requested_within r s t :
  same s t -> requested s -> within r s t ->
  (r = 0 \/ r = sink_max_pdo_requested s \/ r = source_frs_max_requested s \/
   r = non_pd_sink_max_requested s) -> requested t.
Proof.
  intros (Es & Ef & En & _) Hq Hw Hr i Hi. rewrite Es, Ef, En. destruct (Hw i Hi) as [Hc|Hri]; [by apply Hq|].
  destruct Hr as [->|[->|[->| ->]]]; [by rewrite Z.bits_0 in Hri|tauto..].
Qed.

Lemma served_kept q r s t :
  keeps s t -> within r s t -> (forall i, Z.testbit r i = true -> Z.testbit q i = false) ->
  served q t = served q s.
Proof.
  intros Hk Hw Hd. apply count_ext. intros i _. rewrite !Z.land_spec.
  destruct (Z.testbit q i) eqn:Eq; [|by rewrite !andb_false_r]. rewrite !andb_true_r.
  destruct (Z.testbit (max_current_claimed s) i) eqn:Es; [by apply Hk|].
  destruct (Z.testbit (max_current_claimed t) i) eqn:Et; [|done].
  destruct (Hw i Et) as [|Hr]; [congruence|]. apply Hd in Hr. congruence.
Qed.

Lemma taken_split s : exclusive s -> requested s ->
  taken s = served (sink_max_pdo_requested s) s + served (source_frs_max_requested s) s +
    served (non_pd_sink_max_requested s) s.
Proof.
  intros [X1 X2 X3] Hq. apply count_split. intros i _. rewrite !Z.land_spec.
  specialize (Hq i). specialize (X1 i). specialize (X2 i). specialize (X3 i).
  destruct (Z.testbit (max_current_claimed s) i), (Z.testbit (sink_max_pdo_requested s) i),
    (Z.testbit (source_frs_max_requested s) i), (Z.testbit (non_pd_sink_max_requested s) i);
    cbn; intuition congruence.
Qed.

Lemma satisfied_keeps r s t : keeps s t -> satisfied r s -> satisfied r t.
Proof. intros Hk Hs i Hi. by apply Hk, Hs. Qed.
Lemma taken_keeps s t : keeps s t -> taken s <= taken t.
Proof. intros Hk. apply count_le. auto. Qed.

(** The slots are where they should be: no port of a lower class has one while
    a port of a higher class has none, and none is left over while a port
    wants it. *)
Record allocated s : Prop := {
  al_waiting : deferred_waiting s = false;
  al_requested : requested s;
  al_sink : satisfied (sink_max_pdo_requested s) s \/
    taken s = slots /\ unserved (source_frs_max_requested s) s /\ unserved (non_pd_sink_max_requested s) s;
  al_frs : satisfied (source_frs_max_requested s) s \/
    taken s = slots /\ unserved (non_pd_sink_max_requested s) s;
  al_non : satisfied (non_pd_sink_max_requested s) s \/ taken s = slots }.

(** The result of a round: done, or waiting with one slot free and less in
    the hands of the lower classes. *)
Record round s t : Prop := {
  ro_same : same s t;
  ro_inv : inv t;
  ro_requested : requested t;
  ro_outcome : allocated t \/
    deferred_waiting t = true /\ taken t = slots - 1 /\ (slots - 1 <= taken s -> weight t < weight s) }.

Lemma round_away s t u :
  same s t -> requested t -> taken t = slots -> taken_away t u ->
  (slots - 1 <= taken s -> weight u < weight s) -> round s u.
Proof.
  intros Hst Hq Ht [Hs Hi Hw Htk Hwi] Hwt. split; [by eapply same_trans|done| |].
  - eapply (requested_within 0 t u); [done|done|done|by left].
  - right. split_and!; [done|lia|done].
Qed.

(** The third loop, the second and third, and all three. *)
Definition hand_out3 s : option power :=
  '(s, _) ← while_bits give_non_pd 32 (unmet (non_pd_sink_max_requested s) s) s; Some s.
Definition hand_out2 s : option power :=
  '(s, go) ← while_bits give_frs 32 (unmet (source_frs_max_requested s) s) s;
  if negb go then Some s else hand_out3 s.
Definition hand_out s : option power :=
  '(s, go) ← while_bits give_sink 32 (unmet (sink_max_pdo_requested s) s) s;
  if negb go then Some s else hand_out2 s.

Lemma third_loop s :
  inv s -> deferred_waiting s = false -> requested s ->
  satisfied (sink_max_pdo_requested s) s -> satisfied (source_frs_max_requested s) s ->
  exists t, hand_out3 s = Some t /\ same s t /\ inv t /\ allocated t.
Proof.
  intros Hs Hw Hq S1 S2.
  destruct (loop_handed give_non_pd (non_pd_sink_max_requested s) s) as (t & Hst & Ht & Hwt & Hin & Hk & Ho);
    [done|apply Hs|..].
  { intros i u _ Hu. eexists. by apply give_non_pd_free. }
  { intros i u Hu. by rewrite give_non_pd_full. }
  assert (Ha : satisfied (non_pd_sink_max_requested t) t \/ taken t = slots -> allocated t).
  { destruct Hst as (E1 & E2 & E3 & E4). intros Hl. split; [congruence| | | |done].
    - eapply (requested_within (non_pd_sink_max_requested s)); [done|done|done|auto].
    - left. rewrite E1. by eapply satisfied_keeps.
    - left. rewrite E2. by eapply satisfied_keeps. }
  exists t. unfold hand_out3. rewrite (loop_each give_non_pd) by apply Hs.
  destruct Ho as [[Hsat E]|(i & _ & _ & Htk & E)]; rewrite E; cbn [mbind option_bind].
  - split_and!; try done. apply Ha. left. by rewrite (proj1 (proj2 (proj2 Hst))).
  - rewrite give_non_pd_full by lia. split_and!; try done. apply Ha. by right.
Qed.

Lemma second_loop s0 s :
  inv s -> exclusive s -> deferred_waiting s = false -> requested s ->
  satisfied (sink_max_pdo_requested s) s ->
  same s0 s -> taken s0 <= taken s -> weight s = weight s0 ->
  exists t, hand_out2 s = Some t /\ round s0 t.
Proof.
  intros Hs Hx Hw Hq S1 H0' Htk0 Hwt0.
  destruct (loop_handed give_frs (source_frs_max_requested s) s) as (t & Hst & Ht & Hwt & Hin & Hk & Ho);
    [done|apply Hs|..].
  { intros i u _ Hu. eexists. by apply give_frs_free. }
  { intros i u Hu. by rewrite give_frs_full. }
  assert (Hqt : requested t) by (eapply (requested_within (source_frs_max_requested s)); [done|done|done|auto]).
  pose proof (same_exclusive _ _ Hst Hx) as Hxt. pose proof Hst as (E1 & E2 & E3 & E4).
  assert (St : satisfied (sink_max_pdo_requested t) t) by (rewrite E1; by eapply satisfied_keeps).
  unfold hand_out2. rewrite (loop_each give_frs) by apply Hs.
  destruct Ho as [[Hsat E]|(i & Hir & Hic & Htk & E)]; rewrite E; cbn [mbind option_bind negb].
  - destruct (third_loop t) as (u & Eu & Hu & Hiu & Hau); [done|congruence|done|done|by rewrite E2|].
    exists u. split; [done|]. split; [eapply same_trans, same_trans; eassumption|done|apply Hau|by left].
  - rewrite give_frs_full by lia. cbn [fst]. destruct (bool_of_Z _) eqn:En.
    + eexists. split; [done|]. destruct (downgrade_non_pd_ok t Ht Hxt En) as [Hta Hwa].
      eapply round_away; [by eapply same_trans|exact Hqt|exact Htk|exact Hta|].
      intros Hfull. rewrite Hwa.
      pose proof (taken_split s Hx Hq) as A. pose proof (taken_split t Hxt Hqt) as B.
      rewrite E1, E2, E3 in B.
      assert (C1 : served (sink_max_pdo_requested s) t = served (sink_max_pdo_requested s) s).
      { apply (served_kept _ _ s t Hk Hin). intros j Hj.
        destruct (Z.testbit (sink_max_pdo_requested s) j) eqn:Ej; [|done].
        by rewrite (ex_sink_frs _ Hx j Ej) in Hj. }
      pose proof (served_kept (non_pd_sink_max_requested s) _ s t Hk Hin (ex_frs_non _ Hx)) as C3.
      unfold weight in *. rewrite E2, E3.
      lia.
    + exists t. split; [done|]. split; [by eapply same_trans|done|done|left].
      split; [congruence|done|by left| |by right]. right. split; [done|by apply no_overlap].
Qed.

Lemma hand_out_round s :
  inv s -> exclusive s -> deferred_waiting s = false -> requested s ->
  exists t, hand_out s = Some t /\ round s t.
Proof.
  intros Hs Hx Hw Hq.
  destruct (loop_handed give_sink (sink_max_pdo_requested s) s) as (t & Hst & Ht & Hwt & Hin & Hk & Ho);
    [done|apply Hs|..].
  { intros i u _ Hu. eexists. by apply give_sink_free. }
  { intros i u Hu. by rewrite give_sink_full. }
  assert (Hqt : requested t) by (eapply (requested_within (sink_max_pdo_requested s)); [done|done|done|auto]).
  pose proof (same_exclusive _ _ Hst Hx) as Hxt. pose proof Hst as (E1 & E2 & E3 & E4).
  pose proof (served_kept (source_frs_max_requested s) _ s t Hk Hin (ex_sink_frs _ Hx)) as C2.
  pose proof (served_kept (non_pd_sink_max_requested s) _ s t Hk Hin (ex_sink_non _ Hx)) as C3.
  assert (Hwe : weight t = weight s) by (unfold weight; rewrite E2, E3; lia).
  unfold hand_out. rewrite (loop_each give_sink) by apply Hs.
  destruct Ho as [[Hsat E]|(i & Hir & Hic & Htk & E)]; rewrite E; cbn [mbind option_bind negb].
  - apply second_loop; try done; [congruence|by rewrite E1|by apply taken_keeps].
  - rewrite give_sink_full by lia. cbn [fst].
    destruct (bool_of_Z (Z.land (non_pd_sink_max_requested t) _)) eqn:En;
      [|destruct (bool_of_Z (Z.land (source_frs_max_requested t) _)) eqn:Ef]; eexists; (split; [reflexivity|]).
    + destruct (downgrade_non_pd_ok t Ht Hxt En) as [Hta Hwa].
      eapply round_away; [done|exact Hqt|exact Htk|exact Hta|lia].
    + destruct (downgrade_frs_ok t Ht Hxt Ef) as [Hta Hwa].
      eapply round_away; [done|exact Hqt|exact Htk|exact Hta|lia].
    + split; [done|done|done|left]. split; [congruence|done| | |by right].
      * right. split_and!; [done|by apply no_overlap..].
      * right. split; [done|by apply no_overlap].
Qed.

Lemma balance_hand_out (d : bool) s :
  (if d then false else deferred_waiting s) = false -> bist_shared_mode_enabled s = false ->
  balance_source_ports d s = hand_out (remove_ports (set_waiting false s)).
Proof.
  intros Hw Hb. unfold balance_source_ports.
  assert ((if d then set_waiting false s else s) = set_waiting false s) as ->.
  { destruct d; [done|]. destruct s; cbn [deferred_waiting] in Hw. by subst. }
  change (deferred_waiting (set_waiting false s)) with false.
  change (bist_shared_mode_enabled (set_waiting false s)) with (bist_shared_mode_enabled s).
  rewrite Hb. cbv zeta. unfold hand_out, hand_out2, hand_out3.
  destruct (while_bits give_sink 32 _ _) as [[s1 []]|]; try done.
Qed.

Lemma remove_same s : same s (remove_ports s).
Proof. done. Qed.
Lemma remove_bit s i : ports (max_current_claimed s) ->
  Z.testbit (max_current_claimed (remove_ports s)) i =
    Z.testbit (max_current_claimed s) i &&
    (Z.testbit (sink_max_pdo_requested s) i || Z.testbit (source_frs_max_requested s) i ||
     Z.testbit (non_pd_sink_max_requested s) i).
Proof.
  intros Hp. unfold remove_ports. cbn. destruct (Z.neg_nonneg_cases i) as [Hi|Hi].
  - by rewrite !Z.testbit_neg_r by done.
  - rewrite !Z.land_spec, Z.lnot_spec, Z.land_spec, Z.lnot_spec, !Z.lor_spec by done.
    by destruct (Z.testbit (max_current_claimed s) i), (Z.testbit (sink_max_pdo_requested s) i),
      (Z.testbit (source_frs_max_requested s) i), (Z.testbit (non_pd_sink_max_requested s) i).
Qed.
Lemma remove_requested s : inv s -> requested (remove_ports s).
Proof.
  intros Hs i Hi. rewrite remove_bit in Hi by apply Hs. cbn.
  by destruct (Z.testbit (max_current_claimed s) i), (Z.testbit (sink_max_pdo_requested s) i),
      (Z.testbit (source_frs_max_requested s) i), (Z.testbit (non_pd_sink_max_requested s) i); auto.
Qed.
Lemma remove_served r s : inv s -> requested s -> served r (remove_ports s) = served r s.
Proof.
  intros Hs Hq. apply count_ext. intros i _. rewrite !Z.land_spec, remove_bit by apply Hs. f_equal.
  specialize (Hq i). destruct (Z.testbit (max_current_claimed s) i); [|done].
  destruct Hq as [->|[->| ->]]; [done|..]; by rewrite ?orb_true_r.
Qed.
Lemma remove_taken s : inv s -> requested s -> taken (remove_ports s) = taken s.
Proof.
  intros Hs Hq. apply count_ext. intros i _. rewrite remove_bit by apply Hs.
  specialize (Hq i). destruct (Z.testbit (max_current_claimed s) i); [|done].
  destruct Hq as [->|[->| ->]]; [done|..]; by rewrite ?orb_true_r.
Qed.

(** A call of [balance_source_ports] that is not ignored is a round. *)
Lemma balance_round (d : bool) s :
  inv s -> exclusive s -> bist_shared_mode_enabled s = false ->
  (if d then false else deferred_waiting s) = false ->
  exists t, balance_source_ports d s = Some t /\ round (remove_ports (set_waiting false s)) t.
Proof.
  intros Hs Hx Hb Hw. rewrite balance_hand_out by done. apply hand_out_round.
  - by apply inv_remove, inv_waiting.
  - eapply same_exclusive; [apply remove_same|]. by eapply (same_exclusive s).
  - done.
  - by apply remove_requested, inv_waiting.
Qed.

(** The deferred call runs for as long as the wait for a partner lasts. *)
Fixpoint settle (fuel : nat) s : option power :=
  if deferred_waiting s then
    match fuel with
    | O => None
    | S fuel => t ← balance_source_ports true s; settle fuel t
    end
  else Some s.

Lemma settle_ok fuel : forall s,
  inv s -> exclusive s -> bist_shared_mode_enabled s = false -> requested s ->
  (deferred_waiting s = true -> taken s = slots - 1) ->
  (deferred_waiting s = false -> allocated s) -> weight s < Z.of_nat fuel \/ deferred_waiting s = false ->
  exists t, settle fuel s = Some t /\ same s t /\ allocated t /\ inv t.
Proof.
  induction fuel as [|fuel IH]; intros s Hs Hx Hb Hq Ht Ha Hf; cbn [settle];
    (destruct (deferred_waiting s) eqn:Hw; [|exists s; split_and!; try done; by apply Ha]).
  - destruct Hf as [Hf|]; [|done]. unfold weight in Hf.
    pose proof (served_nonneg (non_pd_sink_max_requested s) s).
    pose proof (served_nonneg (source_frs_max_requested s) s). lia.
  - destruct (balance_round true s Hs Hx Hb eq_refl) as (t & E & [Hst Hit Hqt Ho]). rewrite E.
    cbn [mbind option_bind]. assert (Hs' : same s t) by (eapply same_trans; [|exact Hst]; done).
    assert (Hq1 : requested (set_waiting false s)) by exact Hq.
    pose proof (inv_waiting false s Hs) as Hs1.
    assert (Htk : taken (remove_ports (set_waiting false s)) = taken s).
    { rewrite remove_taken by done. done. }
    assert (Hwe : weight (remove_ports (set_waiting false s)) = weight s).
    { unfold weight. rewrite !remove_served by done. done. }
    destruct (IH t) as (u & Eu & Hu & Hau & Hiu).
    + done.
    + by eapply same_exclusive.
    + destruct Hst as (_ & _ & _ & ->). done.
    + done.
    + intros Hwt. destruct Ho as [[Hn _ _ _ _]|(_ & Htt & _)]; [congruence|done].
    + intros Hwt. destruct Ho as [|(Hn & _)]; [done|congruence].
    + destruct Ho as [Hal|(Hwt & Htt & Hlt)]; [right; apply Hal|left].
      rewrite Htk, Hwe in Hlt. specialize (Ht eq_refl). destruct Hf as [Hf|]; [lia|done].
    + exists u. split_and!; try done. by eapply same_trans.
Qed.

(** Allocated slots are counted by class. *)
Lemma served_le r s : served r s <= count nports r.
Proof. apply count_le. intros i _. rewrite Z.land_spec. by destruct (Z.testbit r i), (Z.testbit (max_current_claimed s) i). Qed.
Lemma served_satisfied r s : satisfied r s -> served r s = count nports r.
Proof.
  intros Hr. apply count_ext. intros i _. rewrite Z.land_spec. specialize (Hr i).
  destruct (Z.testbit r i); [by rewrite Hr|apply andb_false_r].
Qed.
Lemma served_unserved r s : unserved r s -> served r s = 0.
Proof.
  intros Hr. apply bits_count_zero. intros i _. rewrite Z.land_spec. specialize (Hr i).
  destruct (Z.testbit r i); [by rewrite Hr|apply andb_false_r].
Qed.

Definition by_priority s : Prop :=
  let sinks := served (sink_max_pdo_requested s) s in
  let frs := served (source_frs_max_requested s) s in
  let others := served (non_pd_sink_max_requested s) s in
  taken s = sinks + frs + others /\
  sinks = Z.min slots (count nports (sink_max_pdo_requested s)) /\
  frs = Z.min (slots - sinks) (count nports (source_frs_max_requested s)) /\
  others = Z.min (slots - sinks - frs) (count nports (non_pd_sink_max_requested s)).

Lemma allocated_priority s : inv s -> exclusive s -> allocated s -> by_priority s.
Proof.
  intros Hs Hx [_ Hq A1 A2 A3]. pose proof (taken_split s Hx Hq) as Hsum.
  assert (Hb : taken s <= slots) by apply Hs. unfold by_priority. cbv zeta.
  pose proof (served_le (sink_max_pdo_requested s) s). pose proof (served_le (source_frs_max_requested s) s).
  pose proof (served_le (non_pd_sink_max_requested s) s).
  pose proof (served_nonneg (sink_max_pdo_requested s) s).
  pose proof (served_nonneg (source_frs_max_requested s) s).
  pose proof (served_nonneg (non_pd_sink_max_requested s) s).
  destruct A1 as [B1%served_satisfied|(T1 & B1%served_unserved & B1'%served_unserved)],
    A2 as [B2%served_satisfied|(T2 & B2%served_unserved)], A3 as [B3%served_satisfied|T3]; lia.
Qed.

(** C21. When a port's request calls for balancing, the slots end up by
    priority: after at most two deferred rounds per slot no wait is pending,
    exactly min(slots, sinks) of the partners that asked for more than 1.5 A
    have a slot, fast role swap ports have as many as are left, partners
    without USB-PD the rest, and no slot is held without a request, provided
    no port is in two classes. *)
Theorem slots_by_priority s :
  inv s -> exclusive s -> bist_shared_mode_enabled s = false -> deferred_waiting s = false ->
  exists t u, balance_source_ports false s = Some t /\
    settle (Z.to_nat (2 * slots)) t = Some u /\ same s u /\ inv u /\ requested u /\
    deferred_waiting u = false /\ by_priority u.
Proof.
  intros Hs Hx Hb Hw.
  destruct (balance_round false s Hs Hx Hb Hw) as (t & E & [Hst Hit Hqt Ho]).
  assert (Hs' : same s t) by (eapply same_trans; [|exact Hst]; done).
  pose proof (same_exclusive _ _ Hs' Hx) as Hxt.
  destruct (settle_ok (Z.to_nat (2 * slots)) t) as (u & Eu & Hu & Hau & Hiu); try done.
  - destruct Hs' as (_ & _ & _ & ->). done.
  - intros Hwt. destruct Ho as [[Hn _ _ _ _]|(_ & Htt & _)]; [congruence|done].
  - intros Hwt. destruct Ho as [|(Hn & _)]; [done|congruence].
  - destruct Ho as [Hal|(Hwt & Htt & _)]; [right; apply Hal|left].
    pose proof (taken_split t Hxt Hqt) as Hsum. unfold weight.
    pose proof (served_nonneg (sink_max_pdo_requested t) t).
    pose proof (served_nonneg (source_frs_max_requested t) t).
    pose proof (count_nonneg nports (max_current_claimed t)) as Hc. fold (taken t) in Hc. lia.
  - exists t, u. split_and!; try done; [by eapply same_trans|apply Hau|apply Hau|].
    apply allocated_priority; [done|by eapply same_exclusive|done].
Qed.
End Proofs.

(** ** A board *)

#[export] Instance demo_board : Board := {|
  CONFIG_USB_PD_3A_PORTS := 1;
  CONFIG_USB_PD_FRS := true;
  board_get_usb_pd_port_count := 4;
  typec_get_default_current_limit_rp _ := TYPEC_RP_1A5;
  pd_src_pdo := [0x26019096];
  pd_src_pdo_max := [0x2601912C] |}.
#[export] Instance demo_laws : BoardLaws.
Proof. by split. Qed.

(** A partner without USB-PD on port 0, a fast role swap partner on port 1 and
    a sink that wants 3 A on port 2. *)
Definition demo_ops : list op :=
  [AddNonPdSink 0; EvaluateSinkFixedPdo 1 0x21819096 PD_ROLE_SINK 2; Deferred;
   EvaluateSinkFixedPdo 2 0x0001912C PD_ROLE_SOURCE 2; Deferred; RemoveSink 2; BistEnter 0 (fun _ => 1)].

Lemma slots_respected_witness :
  exists t, steps demo_ops start = Some t /\ inv t /\ taken t <= CONFIG_USB_PD_3A_PORTS /\
    (bist_shared_mode_enabled t = false -> Z.of_nat (length (offering (fun _ => PD_ROLE_SOURCE) t)) <= CONFIG_USB_PD_3A_PORTS).
Proof.
  apply (slots_respected demo_ops (fun _ => PD_ROLE_SOURCE) start).
  - by split; [split; split|vm_compute].
  - unfold demo_ops. repeat (apply Forall_nil_2 || apply Forall_cons_2); by vm_compute.
Defined.

(** The slot is held by port 0, without USB-PD; ports 1 and 2 want it too. *)
Definition demo_state : power := Power 1 4 2 1 false false [].
Lemma demo_inv : inv demo_state.
Proof. by split; [split; split|vm_compute]. Qed.
Lemma demo_exclusive : exclusive demo_state.
Proof.
  assert (Hb : forall m i, in_range 4 m -> Z.testbit m i = true -> i = 0 \/ i = 1 \/ i = 2 \/ i = 3).
  { intros m i Hm Ht. pose proof (ports_bit m i Hm Ht) as Hi. cbn in Hi. lia. }
  assert (R : forall m, 0 <= m < 16 -> in_range 4 m) by (intros m Hm; exact Hm).
  split; intros i Hi; [destruct (Hb 4 i (R 4 ltac:(lia)) Hi) as [->|[->|[->| ->]]]..
    |destruct (Hb 2 i (R 2 ltac:(lia)) Hi) as [->|[->|[->| ->]]]]; first [discriminate Hi|reflexivity].
Qed.

Lemma slots_by_priority_witness :
  exists t u, balance_source_ports false demo_state = Some t /\
    settle (Z.to_nat (2 * CONFIG_USB_PD_3A_PORTS)) t = Some u /\ same demo_state u /\ inv u /\ requested u /\
    deferred_waiting u = false /\ by_priority u.
Proof.
  apply (slots_by_priority demo_state); [apply demo_inv|apply demo_exclusive|vm_compute; reflexivity..].
Defined.

(** ** A port in two classes

    Ports 0 and 1 were taken for partners without USB-PD, which then answered
    and asked for 3 A.  The slot is taken from port 0 because it is still in
    the lower class, and given back to it because it is the lowest port of the
    higher one: the deferred calls go on for ever, raising and lowering the
    offer of port 0, and port 1 gets nothing. *)
Definition two_classes (l : list output) : power := Power 0 3 0 3 false true l.

Lemma balance_flips l :
  balance_source_ports true (two_classes l) =
    Some (two_classes (l ++ [SelectRp 0 TYPEC_RP_3A0; SelectRp 0 TYPEC_RP_1A5; CallBalance PD_T_SINK_ADJ])).
Proof.
  assert (E : balance_source_ports true (two_classes l) =
    Some (two_classes (((l ++ [SelectRp 0 TYPEC_RP_3A0]) ++ [SelectRp 0 TYPEC_RP_1A5]) ++
      [CallBalance PD_T_SINK_ADJ]))) by (vm_compute; reflexivity).
  rewrite E, <- !app_assoc. reflexivity.
Qed.

Lemma balance_never_settles k l : settle k (two_classes l) = None.
Proof.
  revert l. induction k as [|k IH]; intros l; [done|]. cbn [settle].
  change (deferred_waiting (two_classes l)) with true. rewrite balance_flips. apply IH.
Qed.

Lemma two_classes_reached :
  exists l, steps [AddNonPdSink 0; AddNonPdSink 1; EvaluateSinkFixedPdo 0 0x0001912C PD_ROLE_SOURCE 2;
    EvaluateSinkFixedPdo 1 0x0001912C PD_ROLE_SOURCE 2] start = Some (two_classes l).
Proof. eexists. vm_compute. reflexivity. Qed.
End DpmPower.
