(* ===== verification/HostCommand.v ===== *)
(** * Host command dispatch (common/host_command.c, common/host_command_task.c)

    The application processor sends packets; the host command task runs the
    command's handler and answers.  A packet is checked and unpacked in
    interrupt context ([host_packet_receive]); a valid one leaves its arguments
    in [args0] and wakes the task.  A slow handler may send
    EC_RES_IN_PROGRESS before it works on; its result is then kept for
    EC_CMD_RESEND_RESPONSE, and packets keep arriving while it works.

    A packet's buffers are lists of bytes.  When the request and response
    buffers overlap the driver supplies [request_temp], into which the request
    is copied first; nothing is read from [request] once the response is
    written, so they are separate lists here.  The handlers of other components
    are arbitrary functions over a world [W]; those of this component are
    defined below.  Debug output (hcdebug), the suppressed-command counters,
    rate limiting and the console commands are left out, and CONFIG_HOSTCMD_PD
    is not set. *)

From S2P Require Import Prelude Bits Bytes.
Import Bits Bytes.

Module HostCommand.

(** ** Constants *)

Definition EC_RES_SUCCESS : Z := 0.
Definition EC_RES_INVALID_COMMAND : Z := 1.
Definition EC_RES_ERROR : Z := 2.
Definition EC_RES_INVALID_PARAM : Z := 3.
Definition EC_RES_INVALID_VERSION : Z := 6.
Definition EC_RES_INVALID_CHECKSUM : Z := 7.
Definition EC_RES_IN_PROGRESS : Z := 8.
Definition EC_RES_UNAVAILABLE : Z := 9.
Definition EC_RES_INVALID_HEADER : Z := 12.
Definition EC_RES_REQUEST_TRUNCATED : Z := 13.
Definition EC_RES_RESPONSE_TOO_BIG : Z := 14.

Definition EC_CMD_PROTO_VERSION : Z := 0.
Definition EC_CMD_HELLO : Z := 1.
Definition EC_CMD_READ_MEMMAP : Z := 7.
Definition EC_CMD_GET_CMD_VERSIONS : Z := 8.
Definition EC_CMD_GET_COMMS_STATUS : Z := 9.
Definition EC_CMD_TEST_PROTOCOL : Z := 10.
Definition EC_CMD_GET_FEATURES : Z := 13.
Definition EC_CMD_REBOOT : Z := 0xD1.
Definition EC_CMD_RESEND_RESPONSE : Z := 0xDB.

Definition EC_PROTO_VERSION : Z := 2.
Definition EC_HOST_REQUEST_VERSION : Z := 3.
Definition EC_HOST_RESPONSE_VERSION : Z := 3.
Definition EC_MEMMAP_SIZE : Z := 255.
Definition EC_MEMMAP_ID : Z := 0x20.
Definition EC_MEMMAP_ID_VERSION : Z := 0x22.
Definition EC_MEMMAP_SWITCHES_VERSION : Z := 0x25.
Definition EC_MEMMAP_EVENTS_VERSION : Z := 0x26.
Definition EC_MEMMAP_SWITCHES : Z := 0x30.
Definition EC_COMMS_STATUS_PROCESSING : Z := BIT 0.

(** ** Packets and arguments *)

(** [sizeof (struct ec_host_request)] and [sizeof (struct ec_host_response)]. *)
Definition HEADER : Z := 8.

(** src/include/ec_commands.h:1167-1174 [struct ec_host_request] *)
Record ec_host_request := Request {
  r_struct_version : Z;
  r_checksum : Z;
  r_command : Z;
  r_command_version : Z;
  r_reserved : Z;
  r_data_len : Z }.
(** The request header at the start of a buffer. *)
Definition request_header (l : list Z) : ec_host_request :=
  Request (aget l 0) (aget l 1) (le_at l 2 2) (aget l 4) (aget l 5) (le_at l 6 2).

(** src/include/host_command.h:73-127 [struct host_packet] *)
Record host_packet := Packet {
  request : list Z;
  request_temp : option (list Z);
  request_max : Z;
  request_size : Z;
  response : list Z;
  pkt_response_max : Z;
  pkt_response_size : Z;
  driver_result : Z }.

(** [response] is the packet's response buffer after the header. *)
(** src/include/host_command.h:22-70 [struct host_cmd_handler_args] *)
Record handler_args := Args {
  command : Z;
  version : Z;
  params : list Z;
  params_size : Z;
  response_max : Z;
  response_size : Z;
  result : Z }.

Definition set_result v a := Args (command a) (version a) (params a) (params_size a)
  (response_max a) (response_size a) v.
Definition set_response_size v a := Args (command a) (version a) (params a) (params_size a)
  (response_max a) v (result a).

(** The static variables the handlers of this component use, and the state of
    the others. *)
Record mod_state (W : Type) := Mod {
  command_pending : bool;
  saved_result : Z;
  host_memmap : list Z;
  world : W }.
Arguments Mod {W}. Arguments command_pending {W}. Arguments saved_result {W}.
Arguments host_memmap {W}. Arguments world {W}.

Section Dispatch.
Context {W : Type}.
Abbreviation st := (mod_state W).

Definition set_command_pending v (s : st) : st := Mod v (saved_result s) (host_memmap s) (world s).
Definition set_saved_result v (s : st) : st := Mod (command_pending s) v (host_memmap s) (world s).
Definition set_memmap v (s : st) : st := Mod (command_pending s) (saved_result s) v (world s).

(** What a handler does: it returns its status with the arguments it changed,
    its part of the response buffer and the state; or it first sends
    EC_RES_IN_PROGRESS and continues from what it finds then. *)
Definition outcome : Type := Z * handler_args * list Z * st.
Inductive hstep :=
| Done (o : outcome)
| InProgress (a : handler_args) (resp : list Z) (s : st)
    (k : handler_args -> list Z -> st -> outcome).
(** A handler may ask for the version mask of a command. *)
Definition handler : Type := (Z -> st -> option Z) -> handler_args -> list Z -> st -> hstep.

(** src/include/host_command.h:130-140 [struct host_command] *)
Record host_command := HostCmd {
  cmd_handler : handler;
  cmd_command : Z;
  version_mask : Z }.

(** The command table as the linker lays it out, and what the rest of the
    firmware answers. *)
Class Board := {
  hcmds : list host_command;
  CONFIG_HOSTCMD_SECTION_SORTED : bool;
  CONFIG_HOST_COMMAND_STATUS : bool;
  (** [system_is_in_safe_mode () && !command_is_allowed_in_safe_mode (c)] *)
  safe_mode_blocks : Z -> W -> bool;
  get_feature_flags0 : Z;
  get_feature_flags1 : Z }.

(** The calls that leave the component: a response with the result the driver
    is told, the event that wakes the task, and a reset. *)
Inductive output :=
| Response (bytes : list Z) (result : Z)
| WakeTask
| SystemReset.

Context `{Board}.

(** [args0], [pkt0] and [pending_args] (which is NULL or points to [args0]);
    [running] is the slow handler at work, if any. *)
Record hc := Hc {
  pending_args : bool;
  args0 : handler_args;
  pkt0 : host_packet;
  running : option (handler_args -> list Z -> st -> outcome);
  state : st;
  log : list output }.
Definition set_pending v s := Hc v (args0 s) (pkt0 s) (running s) (state s) (log s).
Definition set_args v s := Hc (pending_args s) v (pkt0 s) (running s) (state s) (log s).
Definition set_pkt v s := Hc (pending_args s) (args0 s) v (running s) (state s) (log s).
Definition set_running v s := Hc (pending_args s) (args0 s) (pkt0 s) v (state s) (log s).
Definition set_state v s := Hc (pending_args s) (args0 s) (pkt0 s) (running s) v (log s).
Definition emit o s := Hc (pending_args s) (args0 s) (pkt0 s) (running s) (state s) (log s ++ [o]).

(** ** Finding the command *)

(** src/common/host_command_task.c:364-371 [find_host_command] *)
Fixpoint find_linear (l : list host_command) (c : Z) : option host_command :=
  match l with
  | [] => None
  | cmd :: l => if c =? cmd_command cmd then Some cmd else find_linear l c
  end.

(** [l] and [r] are indices into the table; every turn leaves fewer entries,
    so as many turns as there are entries, and one, are enough. *)
(** src/common/host_command_task.c:348-362 [find_host_command] *)
Fixpoint find_binary (fuel : nat) (l r c : Z) : option host_command :=
  match fuel with
  | O => None
  | S fuel =>
    if r <? l then None
    else
      let m := l + (r - l) / 2 in
      match hcmds !! Z.to_nat m with
      | None => None
      | Some cmd =>
        if cmd_command cmd <? c then find_binary fuel (m + 1) r c
        else if c <? cmd_command cmd then find_binary fuel l (m - 1) c
        else Some cmd
      end
  end.

(** src/common/host_command_task.c:334-374 [find_host_command] *)
Definition find_host_command (c : Z) (s : st) : option host_command :=
  if safe_mode_blocks c (world s) then None
  else if CONFIG_HOSTCMD_SECTION_SORTED
  then find_binary (S (length hcmds)) 0 (Z.of_nat (length hcmds) - 1) c
  else find_linear hcmds c.

(** src/include/ec_commands.h:100-100 [EC_VER_MASK] *)
Definition EC_VER_MASK (version : Z) : Z := u32 (BIT version).

Definition version_mask_of (c : Z) (s : st) : option Z := version_mask <$> find_host_command c s.

(** The handler is called with its part of the response buffer cleared. *)
(** src/common/host_command_task.c:517-579 [host_command_process] *)
Definition host_command_process (a : handler_args) (resp : list Z) (s : st) : hstep :=
  let resp := bfill resp 0 0 (response_max a) in
  match find_host_command (command a) s with
  | None => Done (EC_RES_INVALID_COMMAND, a, resp, s)
  | Some cmd =>
    if Z.land (EC_VER_MASK (version a)) (version_mask cmd) =? 0
    then Done (EC_RES_INVALID_VERSION, a, resp, s)
    else cmd_handler cmd version_mask_of a resp s
  end.

(** ** Responses *)

Definition resp_of s : list Z := drop 8 (response (pkt0 s)).
Definition put_resp (l : list Z) s : hc :=
  let p := pkt0 s in
  set_pkt (Packet (request p) (request_temp p) (request_max p) (request_size p)
    (take 8 (response p) ++ l) (pkt_response_max p) (pkt_response_size p) (driver_result p)) s.
(** What the handler left. *)
Definition put_outcome (o : outcome) s : hc :=
  let '(rv, a, resp, st) := o in set_state st (put_resp resp (set_args (set_result (u16 rv) a) s)).

(** src/common/host_command_task.c:177-215 [host_packet_respond] *)
Definition host_packet_respond s : hc :=
  let p := pkt0 s in
  let a := args0 s in
  let a := if negb (result a =? 0) then set_response_size 0 a
           else if u32 (pkt_response_max p - HEADER) <? response_size a
           then set_response_size 0 (set_result EC_RES_RESPONSE_TOO_BIG a)
           else a in
  let out := bcopy (response p) 0
    ([EC_HOST_RESPONSE_VERSION; 0] ++ le_bytes 2 (result a) ++ le_bytes 2 (response_size a) ++ [0; 0]) 8 in
  let csum := sum_bytes (take 8 out) + sum_bytes (slice out 8 (response_size a)) in
  let out := aset out 1 (u8 (- csum)) in
  let size := u16 (HEADER + response_size a) in
  let p := Packet (request p) (request_temp p) (request_max p) (request_size p) out
             (pkt_response_max p) size (result a) in
  emit (Response (take (Z.to_nat size) out) (result a)) (set_pkt p (set_args a s)).

(** src/common/host_command_task.c:85-133 [host_send_response] *)
Definition host_send_response (in_interrupt_context : bool) s : hc :=
  if CONFIG_HOST_COMMAND_STATUS && negb in_interrupt_context then
    if command_pending (state s) then
      let saved := if negb (response_size (args0 s) =? 0) then EC_RES_UNAVAILABLE
                   else u8 (result (args0 s)) in
      set_state (set_command_pending false (set_saved_result saved (state s))) s
    else if result (args0 s) =? EC_RES_IN_PROGRESS
    then host_packet_respond (set_state (set_command_pending true (state s)) s)
    else host_packet_respond s
  else host_packet_respond s.

(** Running a handler to its end where it is called, [interrupt] saying where
    that is. *)
Definition process_now (interrupt : bool) s : hc :=
  match host_command_process (args0 s) (resp_of s) (state s) with
  | Done o => put_outcome o s
  | InProgress a resp st k =>
    let s := host_send_response interrupt
      (put_outcome (EC_RES_IN_PROGRESS, a, resp, st) s) in
    put_outcome (k (args0 s) (resp_of s) (state s)) s
  end.

(** src/common/host_command_task.c:135-175 [host_command_received] *)
Definition host_command_received s : hc :=
  let s := if command (args0 s) =? EC_CMD_REBOOT
           then set_args (set_result EC_RES_ERROR (args0 s)) (emit SystemReset s) else s in
  if negb (result (args0 s) =? 0) then host_send_response true s
  else if CONFIG_HOST_COMMAND_STATUS && (command (args0 s) =? EC_CMD_GET_COMMS_STATUS)
  then host_send_response true (process_now true s)
  else emit WakeTask (set_pending true s).

(** ** Requests *)

Definition bad (e : Z) s : hc := host_packet_respond (set_args (set_result e (args0 s)) s).

(** Copying [n] bytes from [off] of the request to the temporary buffer, if
    there is one. *)
Definition copy_temp (off n : Z) (p : host_packet) : host_packet :=
  match request_temp p with
  | None => p
  | Some t => Packet (request p) (Some (bcopy t off (slice (request p) off n) n)) (request_max p)
                (request_size p) (response p) (pkt_response_max p) (pkt_response_size p) (driver_result p)
  end.
(** Where the header and the parameters are read from. *)
Definition request_data (p : host_packet) : list Z := default (request p) (request_temp p).

(** [None] is the failed ASSERT. *)
(** src/common/host_command_task.c:217-332 [host_packet_receive] *)
Definition host_packet_receive (pkt : host_packet) s : option hc :=
  let s := set_pkt pkt s in
  if negb (driver_result pkt =? 0) then Some (bad (driver_result pkt) s)
  else if request_size pkt <? HEADER then Some (bad EC_RES_REQUEST_TRUNCATED s)
  else if request_max pkt <? request_size pkt then Some (bad EC_RES_REQUEST_TRUNCATED s)
  else if pkt_response_max pkt <? HEADER then None
  else
    let csum := sum_bytes (slice (request pkt) 0 HEADER) in
    let pkt := copy_temp 0 HEADER pkt in
    let s := set_pkt pkt s in
    let r := request_header (request_data pkt) in
    if negb (r_struct_version r =? EC_HOST_REQUEST_VERSION) then Some (bad EC_RES_INVALID_HEADER s)
    else if request_size pkt <? HEADER + r_data_len r then Some (bad EC_RES_REQUEST_TRUNCATED s)
    else
      let csum := csum + sum_bytes (slice (request pkt) HEADER (r_data_len r)) in
      let pkt := copy_temp HEADER (r_data_len r) pkt in
      let params := drop 8 (request_data pkt) in
      let s := set_pkt pkt s in
      if negb (u8 csum =? 0) then
        Some (bad EC_RES_INVALID_CHECKSUM
          (set_args (Args (command (args0 s)) (version (args0 s)) params (params_size (args0 s))
             (response_max (args0 s)) (response_size (args0 s)) (result (args0 s))) s))
      else Some (host_command_received
        (set_args (Args (r_command r) (r_command_version r) params (r_data_len r)
           (u16 (pkt_response_max pkt - HEADER)) 0 EC_RES_SUCCESS) s)).

(** src/common/host_command.c:60-71 [host_request_expected_size] *)
Definition host_request_expected_size (r : ec_host_request) : Z :=
  if negb (r_struct_version r =? EC_HOST_REQUEST_VERSION) then 0
  else if negb (r_reserved r =? 0) then 0
  else HEADER + r_data_len r.

(** ** The task *)

(** A turn of the task that finds TASK_EVENT_CMD_PENDING; a slow handler is
    left at work. *)
(** src/common/host_command_task.c:395-399 [host_command_task] *)
Definition task_turn s : hc :=
  if negb (pending_args s) then s
  else match host_command_process (args0 s) (resp_of s) (state s) with
       | Done o => host_send_response false (put_outcome o s)
       | InProgress a resp st k =>
         set_running (Some k) (host_send_response false
           (put_outcome (EC_RES_IN_PROGRESS, a, resp, st) s))
       end.
(** The slow handler returns. *)
(** src/common/host_command_task.c:396-398 [host_command_task] *)
Definition task_resume s : hc :=
  match running s with
  | None => s
  | Some k => host_send_response false
      (put_outcome (k (args0 s) (resp_of s) (state s)) (set_running None s))
  end.

(** What happens to the component: a packet, in interrupt context, or a turn
    of the task, which is busy while a handler runs. *)
Inductive op := Receive (pkt : host_packet) | Task | Resume.
Definition step (o : op) s : option hc :=
  match o with
  | Receive pkt => host_packet_receive pkt s
  | Task => Some (match running s with None => task_turn s | Some _ => s end)
  | Resume => Some (task_resume s)
  end.
Fixpoint steps (l : list op) s : option hc :=
  match l with
  | [] => Some s
  | o :: l => s ← step o s; steps l s
  end.

(** ** The commands of this component *)

(** [resp] with [b] written at [off]. *)
Definition write (off : Z) (b resp : list Z) : list Z := bcopy resp off b (Z.of_nat (length b)).
Definition reply (rv size : Z) (resp : list Z) (a : handler_args) (s : st) : hstep :=
  Done (rv, set_response_size size a, resp, s).

(** src/common/host_command.c:75-85 [host_command_proto_version] *)
Definition host_command_proto_version : handler := fun _ a resp s =>
  reply EC_RES_SUCCESS 4 (write 0 (le_bytes 4 EC_PROTO_VERSION) resp) a s.

(** src/common/host_command.c:89-99 [host_command_hello] *)
Definition host_command_hello : handler := fun _ a resp s =>
  let d := le_at (params a) 0 4 in
  reply EC_RES_SUCCESS 4 (write 0 (le_bytes 4 (u32 (d + 0x01020304))) resp) a s.

(** src/common/host_command.c:107-129 [host_command_read_memmap] *)
Definition host_command_read_memmap : handler := fun _ a resp s =>
  let offset := aget (params a) 0 in
  let size := aget (params a) 1 in
  if (EC_MEMMAP_SIZE <? size) || (EC_MEMMAP_SIZE <? offset) || (EC_MEMMAP_SIZE <? offset + size) ||
     (response_max a <? size)
  then Done (EC_RES_INVALID_PARAM, a, resp, s)
  else if (offset =? EC_MEMMAP_SWITCHES) && (aget (host_memmap s) EC_MEMMAP_SWITCHES_VERSION =? 0)
  then Done (EC_RES_UNAVAILABLE, a, resp, s)
  else reply EC_RES_SUCCESS size (bcopy resp 0 (slice (host_memmap s) offset size) size) a s.

(** src/common/host_command.c:135-155 [host_command_get_cmd_versions] *)
Definition host_command_get_cmd_versions : handler := fun version_mask a resp s =>
  let cmd := if version a =? 1 then le_at (params a) 0 2 else aget (params a) 0 in
  match version_mask cmd s with
  | None => Done (EC_RES_INVALID_PARAM, a, resp, s)
  | Some mask => reply EC_RES_SUCCESS 4 (write 0 (le_bytes 4 mask) resp) a s
  end.

(** src/common/host_command.c:160-173 [host_command_test_protocol] *)
Definition host_command_test_protocol : handler := fun _ a resp s =>
  let ec_result := le_at (params a) 0 4 in
  let ret_len := le_at (params a) 4 4 in
  let copy_len := Z.min ret_len 32 in
  let resp := bfill resp 0 0 32 in
  reply ec_result copy_len (bcopy resp 0 (bytes_at (params a) 8 copy_len) copy_len) a s.

(** src/common/host_command.c:177-188 [host_command_get_features] *)
Definition host_command_get_features : handler := fun _ a resp s =>
  reply EC_RES_SUCCESS 8
    (write 0 (le_bytes 4 get_feature_flags0 ++ le_bytes 4 get_feature_flags1) resp) a s.

(** src/common/host_command_task.c:581-585 [host_command_in_process_ended] *)
Definition host_command_in_process_ended (s : st) : bool := negb (command_pending s).

(** src/common/host_command_task.c:587-594 [host_command_get_saved_result] *)
Definition host_command_get_saved_result (s : st) : Z * st :=
  (saved_result s, set_saved_result EC_RES_UNAVAILABLE s).

(** src/common/host_command.c:196-213 [host_command_get_comms_status] *)
Definition host_command_get_comms_status : handler := fun _ a resp s =>
  let flags := if host_command_in_process_ended s then 0 else EC_COMMS_STATUS_PROCESSING in
  reply EC_RES_SUCCESS 4 (write 0 (le_bytes 4 flags) resp) a s.

(** src/common/host_command.c:217-238 [host_command_resend_response] *)
Definition host_command_resend_response : handler := fun _ a resp s =>
  let '(r, s) := host_command_get_saved_result s in
  Done (EC_RES_SUCCESS, set_result r (set_response_size 0 a), resp, s).

(** src/common/host_command.c:46-58 [host_command_init] *)
Definition host_command_init (s : st) : st :=
  let m := aset (aset (host_memmap s) EC_MEMMAP_ID 0x45) (EC_MEMMAP_ID + 1) 0x43 in
  set_memmap (aset (aset m EC_MEMMAP_ID_VERSION 1) EC_MEMMAP_EVENTS_VERSION 1) s.

(** ** What a response means *)

(** The response with status [rv] and [data], as the host reads it. *)
Definition response_head (csum rv n : Z) : list Z :=
  [EC_HOST_RESPONSE_VERSION; csum] ++ le_bytes 2 rv ++ le_bytes 2 n ++ [0; 0].
Definition encode_response (rv : Z) (data : list Z) : list Z :=
  let n := Z.of_nat (length data) in
  response_head (u8 (- (sum_bytes (response_head 0 rv n) + sum_bytes data))) rv n ++ data.

Lemma length_response_head c rv n : length (response_head c rv n) = 8%nat.
Proof. unfold response_head. rewrite !length_app, !length_le_bytes. done. Qed.
Lemma sum_response_head c rv n : sum_bytes (response_head c rv n) = c + sum_bytes (response_head 0 rv n).
Proof. unfold response_head. rewrite !sum_bytes_app. cbn [sum_bytes foldr]. lia. Qed.

Lemma response_head_bytes c rv n : in_range 8 c -> is_bytes (response_head c rv n).
Proof.
  intros. unfold response_head.
  apply Forall_app_2; [|apply Forall_app_2; [apply le_bytes_bytes|apply Forall_app_2; [apply le_bytes_bytes|]]];
    repeat (apply Forall_cons_2; [done|]); by apply Forall_nil.
Qed.

(** The whole packet adds up to zero, and its fields are those given. *)
Lemma encode_response_ok rv data :
  in_range 16 rv -> Z.of_nat (length data) < 2 ^ 16 ->
  u8 (sum_bytes (encode_response rv data)) = 0 /\
  length (encode_response rv data) = (8 + length data)%nat /\
  aget (encode_response rv data) 0 = EC_HOST_RESPONSE_VERSION /\
  le_at (encode_response rv data) 2 2 = rv /\
  le_at (encode_response rv data) 4 2 = Z.of_nat (length data) /\
  drop 8 (encode_response rv data) = data.
Proof.
  intros Hrv Hn. unfold encode_response. cbv zeta. set (n := Z.of_nat (length data)).
  set (c := u8 (- _)). split_and!.
  - rewrite sum_bytes_app, sum_response_head. unfold c.
    set (x := sum_bytes (response_head 0 rv n)). set (y := sum_bytes data).
    rewrite <- Z.add_assoc, wrap_add_l. replace (- (x + y) + (x + y)) with 0 by lia. done.
  - by rewrite length_app, length_response_head.
  - done.
  - unfold response_head. rewrite !le_bytes2.
    rewrite (le_at_two _ 2 (u8 rv) (u8 (Z.shiftr rv 8))) by done. by apply u16_split.
  - unfold response_head. rewrite !le_bytes2.
    rewrite (le_at_two _ 4 (u8 n) (u8 (Z.shiftr n 8))) by done. apply u16_split. unfold in_range. lia.
  - rewrite drop_app_ge by (rewrite length_response_head; lia). by rewrite length_response_head.
Qed.

(** ** The response that is sent *)

(** A response buffer of [R] bytes. *)
Record buffer_ok (R : Z) (p : host_packet) : Prop := {
  bo_length : Z.of_nat (length (response p)) = R;
  bo_bytes : is_bytes (response p);
  bo_max : pkt_response_max p = R;
  bo_range : HEADER <= R < 2 ^ 16 }.

(** The status and data that go out. *)
Definition clip (R : Z) (a : handler_args) (resp : list Z) : Z * list Z :=
  if negb (result a =? 0) then (result a, [])
  else if R - HEADER <? response_size a then (EC_RES_RESPONSE_TOO_BIG, [])
  else (0, take (Z.to_nat (response_size a)) resp).

Lemma length_resp_of R s : buffer_ok R (pkt0 s) -> Z.of_nat (length (resp_of s)) = R - 8.
Proof. intros []. unfold resp_of. rewrite length_drop. unfold HEADER in *. lia. Qed.

(** The arguments as [host_packet_respond] cuts them to what fits. *)
Definition clipped (R : Z) (a : handler_args) : handler_args :=
  if negb (result a =? 0) then set_response_size 0 a
  else if R - HEADER <? response_size a
  then set_response_size 0 (set_result EC_RES_RESPONSE_TOO_BIG a)
  else a.
Lemma clip_clipped R a resp :
  0 <= response_size a -> R - HEADER = Z.of_nat (length resp) ->
  let b := clipped R a in
  clip R a resp = (result b, take (Z.to_nat (response_size b)) resp) /\
  Z.of_nat (length (take (Z.to_nat (response_size b)) resp)) = response_size b.
Proof.
  intros Hz Hl. unfold clip, clipped. destruct (Z.eqb_spec (result a) 0) as [E|]; cbn [negb]; [|done].
  destruct (Z.ltb_spec (R - HEADER) (response_size a)); [done|]. cbv zeta. rewrite E.
  split; [done|]. rewrite length_take. lia.
Qed.
Lemma clipped_result R a : in_range 16 (result a) -> in_range 16 (result (clipped R a)).
Proof. intros. unfold clipped. repeat case_match; done. Qed.

(** The bytes that [host_packet_respond] puts together. *)
Lemma response_built buf rv n :
  (8 <= length buf)%nat -> 0 <= n <= Z.of_nat (length buf) - 8 -> Z.of_nat (length buf) < 2 ^ 16 ->
  let out := bcopy buf 0 ([EC_HOST_RESPONSE_VERSION; 0] ++ le_bytes 2 rv ++ le_bytes 2 n ++ [0; 0]) 8 in
  let csum := sum_bytes (take 8 out) + sum_bytes (slice out 8 n) in
  let out := aset out 1 (u8 (- csum)) in
  take (Z.to_nat (u16 (HEADER + n))) out = encode_response rv (take (Z.to_nat n) (drop 8 buf)) /\
  out = response_head (u8 (- csum)) rv n ++ drop 8 buf.
Proof.
  intros Hl Hn Hm. cbv zeta. change ([EC_HOST_RESPONSE_VERSION; 0] ++ _) with (response_head 0 rv n).
  assert (Hout : bcopy buf 0 (response_head 0 rv n) 8 = response_head 0 rv n ++ drop 8 buf).
  { unfold bcopy. cbn [Z.to_nat take app]. by rewrite (take_ge (response_head _ _ _)) by (by rewrite length_response_head). }
  rewrite Hout. pose proof (length_response_head 0 rv n) as Hh. unfold slice.
  change (Z.to_nat 8) with 8%nat. change (Pos.to_nat 8) with 8%nat.
  rewrite take_app_length', drop_app_length' by done.
  set (d := take (Z.to_nat n) (drop 8 buf)).
  assert (Hd : length d = Z.to_nat n) by (unfold d; rewrite length_take, length_drop; lia).
  set (c := u8 _).
  assert (Ha : aset (response_head 0 rv n ++ drop 8 buf) 1 c = response_head c rv n ++ drop 8 buf) by done.
  rewrite Ha. split; [|done].
  rewrite wrap_id by (unfold in_range, HEADER; lia).
  replace (Z.to_nat (HEADER + n)) with (8 + Z.to_nat n)%nat by (unfold HEADER; lia).
  rewrite take_app_add' by done. fold d.
  unfold encode_response. cbv zeta. rewrite Hd, Z2Nat.id by lia. done.
Qed.

Lemma respond_packet R s :
  buffer_ok R (pkt0 s) -> in_range 16 (result (args0 s)) -> in_range 16 (response_size (args0 s)) ->
  let t := host_packet_respond s in
  let '(rv, data) := clip R (args0 s) (resp_of s) in
  log t = log s ++ [Response (encode_response rv data) rv] /\
  in_range 16 rv /\ Z.of_nat (length data) <= R - HEADER /\
  buffer_ok R (pkt0 t) /\ state t = state s /\ pending_args t = pending_args s /\ running t = running s /\
  args0 t = clipped R (args0 s).
Proof.
  intros Hb Hr Hz. cbv zeta. pose proof (length_resp_of R s Hb) as Hl. pose proof Hb as [Hlen Hbs Hmax [Hlo Hhi]].
  unfold HEADER in Hlo, Hhi.
  destruct (clip_clipped R (args0 s) (resp_of s)) as (Hc & Hcl); [apply Hz|unfold HEADER; lia|].
  pose proof (clipped_result R (args0 s) Hr) as Hcr. rewrite Hc. set (b := clipped R (args0 s)) in *.
  assert (Hn : 0 <= response_size b <= R - 8) by (rewrite <- Hcl, length_take; lia).
  destruct (response_built (response (pkt0 s)) (result b) (response_size b)) as [Ho Hout]; [lia|lia|lia|].
  assert (Eb : (if negb (result (args0 s) =? 0) then set_response_size 0 (args0 s)
           else if u32 (pkt_response_max (pkt0 s) - HEADER) <? response_size (args0 s)
           then set_response_size 0 (set_result EC_RES_RESPONSE_TOO_BIG (args0 s))
           else args0 s) = b).
  { unfold b, clipped. rewrite Hmax. by rewrite (wrap_id 32) by (unfold in_range, HEADER; lia). }
  unfold host_packet_respond. cbv zeta. rewrite Eb. cbv zeta in Ho, Hout.
  set (csum := sum_bytes _ + _) in *. set (out := aset _ 1 _) in *. split_and!.
  - unfold emit. cbn [log set_pkt set_args]. rewrite Ho. done.
  - done.
  - rewrite Hcl. unfold HEADER. lia.
  - split; cbn; [|..|done|unfold HEADER; lia].
    + rewrite Hout, length_app, length_response_head, length_drop. lia.
    + rewrite Hout. apply Forall_app. split; [|by apply Forall_drop].
      apply response_head_bytes, wrap_range. done.
  - done.
  - done.
  - done.
  - done.
Qed.

(** ** What a request means *)

(** A packet as a driver passes it: the buffers hold what [request_max] and
    [R], the size of the response buffer, say. *)
Record packet_ok (R : Z) (p : host_packet) : Prop := {
  pk_request : request_max p <= Z.of_nat (length (request p));
  pk_bytes : is_bytes (request p);
  pk_temp : forall t, request_temp p = Some t -> is_bytes t /\ request_max p <= Z.of_nat (length t);
  pk_response : Z.of_nat (length (response p)) = R;
  pk_response_bytes : is_bytes (response p);
  pk_max : pkt_response_max p = R;
  pk_driver : in_range 16 (driver_result p);
  pk_range : HEADER <= R < 2 ^ 16 }.

(** A request is refused with a status, or names a command and its version and
    carries data. *)
Inductive verdict := Bad (e : Z) | Good (cmd ver : Z) (data : list Z).
Definition parse (p : host_packet) : verdict :=
  let r := request_header (request p) in
  let n := r_data_len r in
  if negb (driver_result p =? 0) then Bad (driver_result p)
  else if (request_size p <? HEADER) || (request_max p <? request_size p) then Bad EC_RES_REQUEST_TRUNCATED
  else if negb (r_struct_version r =? EC_HOST_REQUEST_VERSION) then Bad EC_RES_INVALID_HEADER
  else if request_size p <? HEADER + n then Bad EC_RES_REQUEST_TRUNCATED
  else if negb (u8 (sum_bytes (take (Z.to_nat (HEADER + n)) (request p))) =? 0)
  then Bad EC_RES_INVALID_CHECKSUM
  else Good (r_command r) (r_command_version r) (slice (request p) HEADER n).

Definition same_response (p q : host_packet) : Prop :=
  response p = response q /\ pkt_response_max p = pkt_response_max q.

Lemma le_at2 l i : le_at l i 2 = aget l i + 256 * aget l (i + 1).
Proof. unfold le_at, bytes_at. change (seqZ 0 2) with [0; 1]. cbn [fmap list_fmap foldr]. rewrite Z.add_0_r. lia. Qed.
Lemma request_header_take l1 l2 : take 8 l1 = take 8 l2 -> request_header l1 = request_header l2.
Proof.
  intros He. assert (Hg : forall i, 0 <= i < 8 -> aget l1 i = aget l2 i).
  { intros i Hi. unfold aget. rewrite !list_lookup_total_alt. f_equal.
    rewrite <- (lookup_take_lt l1 8), <- (lookup_take_lt l2 8), He by lia. done. }
  unfold request_header. rewrite !le_at2, !Hg by lia. done.
Qed.
Lemma request_header_range l :
  is_bytes l -> in_range 16 (r_command (request_header l)) /\ in_range 8 (r_command_version (request_header l)) /\
  in_range 16 (r_data_len (request_header l)).
Proof.
  intros Hl. assert (Hg : forall i, in_range 8 (aget l i)) by (intros; by apply aget_range).
  cbn [request_header r_command r_command_version r_data_len]. rewrite !le_at2.
  pose proof (Hg 2) as [? ?]. pose proof (Hg (2 + 1)) as [? ?]. pose proof (Hg 6) as [? ?]. pose proof (Hg (6 + 1)) as [? ?].
  split_and!; [|apply Hg|]; unfold in_range; lia.
Qed.

(** The request seen through the temporary buffer. *)
Lemma copied_header p :
  8 <= request_max p -> request_max p <= Z.of_nat (length (request p)) ->
  request_header (request_data (copy_temp 0 HEADER p)) = request_header (request p).
Proof.
  intros H8 Hq. apply request_header_take. unfold request_data, copy_temp.
  destruct (request_temp p) as [t|] eqn:Et; cbn [request_temp default]; [|by rewrite Et].
  unfold bcopy, slice, HEADER, default, id. change (Z.to_nat 0) with 0%nat. change (Z.to_nat 8) with 8%nat.
  rewrite drop_0, take_0, take_take, Nat.min_id. cbn [app].
  by rewrite take_app_length' by (rewrite length_take; lia).
Qed.
Lemma copied_params p n :
  (forall t, request_temp p = Some t -> is_bytes t /\ request_max p <= Z.of_nat (length t)) ->
  0 <= n -> 8 + n <= request_max p -> request_max p <= Z.of_nat (length (request p)) ->
  take (Z.to_nat n) (drop 8 (request_data (copy_temp HEADER n (copy_temp 0 HEADER p)))) = slice (request p) HEADER n.
Proof.
  intros Ht Hn Hm Hq. unfold request_data, copy_temp.
  destruct (request_temp p) as [t|] eqn:Et; cbn [request_temp request default]; [|rewrite Et; cbn; rewrite Et; done].
  destruct (Ht t eq_refl) as [_ Ht']. unfold HEADER, id, default.
  set (t' := bcopy t 0 _ 8). assert (Hl : Z.of_nat (length t') = Z.of_nat (length t)).
  { unfold t', bcopy, slice. rewrite !length_app, !length_take, !length_drop. lia. }
  unfold bcopy. rewrite drop_app_length' by (rewrite length_take; lia).
  rewrite take_app_length' by (unfold slice; rewrite !length_take, length_drop; lia).
  unfold slice. by rewrite take_take, Nat.min_id.
Qed.

Lemma copied_bytes p off n :
  0 <= off -> is_bytes (request p) -> (forall t, request_temp p = Some t -> is_bytes t) ->
  is_bytes (request_data p) /\ is_bytes (request_data (copy_temp off n p)) /\
  is_bytes (request (copy_temp off n p)) /\ (forall t, request_temp (copy_temp off n p) = Some t -> is_bytes t).
Proof.
  intros Ho Hr Ht. unfold request_data, copy_temp.
  destruct (request_temp p) as [t|] eqn:Et; cbn [request_temp request]; rewrite ?Et; cbn [from_option id];
    [|by repeat split].
  specialize (Ht t eq_refl). set (t' := bcopy t _ _ _). assert (is_bytes t').
  { unfold t', bcopy, slice. repeat apply Forall_app_2; auto using Forall_take, Forall_drop. }
  split_and!; try done. by intros ? [= <-].
Qed.

Lemma copy_temp_same off n p : same_response (copy_temp off n p) p.
Proof. unfold copy_temp. by destruct (request_temp p). Qed.
Lemma copy_temp_request off n p :
  request (copy_temp off n p) = request p /\ request_size (copy_temp off n p) = request_size p.
Proof. unfold copy_temp. by destruct (request_temp p). Qed.
Lemma same_response_trans p q r : same_response p q -> same_response q r -> same_response p r.
Proof. intros [] []. split; congruence. Qed.

(** [host_packet_receive] decides as [parse] does. *)
(** The parameters of the arguments after a bad packet: the old ones, unless the
    packet got as far as its checksum. *)
Definition bad_params (pkt : host_packet) (e : Z) (old new : list Z) : Prop :=
  let n := r_data_len (request_header (request pkt)) in
  if (driver_result pkt =? 0) && (e =? EC_RES_INVALID_CHECKSUM)
  then take (Z.to_nat n) new = slice (request pkt) HEADER n
  else new = old.

Lemma receive_parse R pkt s :
  packet_ok R pkt ->
  match parse pkt with
  | Bad e => in_range 16 e /\ exists p ps,
      same_response p pkt /\ (is_bytes (params (args0 s)) -> is_bytes ps) /\
      bad_params pkt e (params (args0 s)) ps /\
      host_packet_receive pkt s = Some (bad e (set_args (Args (command (args0 s)) (version (args0 s)) ps
        (params_size (args0 s)) (response_max (args0 s)) (response_size (args0 s)) (result (args0 s))) (set_pkt p s)))
  | Good c v d => in_range 16 c /\ in_range 8 v /\ Z.of_nat (length d) < 2 ^ 16 /\ exists p ps,
      same_response p pkt /\ take (length d) ps = d /\ is_bytes ps /\
      host_packet_receive pkt s = Some (host_command_received
        (set_args (Args c v ps (Z.of_nat (length d)) (R - HEADER) 0 EC_RES_SUCCESS) (set_pkt p s)))
  end.
Proof.
  intros [Hq Hb Ht Hr Hrb Hmax Hd [Hlo Hhi]]. unfold HEADER in Hlo, Hhi.
  assert (Hsame : forall p, same_response p p) by done.
  assert (Hc : forall e p, in_range 16 e -> (driver_result pkt = 0 -> e <> EC_RES_INVALID_CHECKSUM) ->
    same_response p pkt -> in_range 16 e /\ exists q ps, same_response q pkt /\
    (is_bytes (params (args0 s)) -> is_bytes ps) /\ bad_params pkt e (params (args0 s)) ps /\
    Some (bad e (set_pkt p s)) = Some (bad e (set_args (Args (command (args0 s))
    (version (args0 s)) ps (params_size (args0 s)) (response_max (args0 s)) (response_size (args0 s))
    (result (args0 s))) (set_pkt q s)))).
  { intros e p ? Hne ?. split; [done|]. exists p, (params (args0 s)). split_and!; [done..| |by destruct s as [? []]].
    unfold bad_params. cbv zeta. destruct (Z.eqb_spec (driver_result pkt) 0), (Z.eqb_spec e EC_RES_INVALID_CHECKSUM);
      cbn [andb]; (done || by destruct Hne). }
  unfold parse, host_packet_receive. cbv zeta.
  destruct (Z.eqb_spec (driver_result pkt) 0); cbn [negb]; [|by apply Hc].
  destruct (Z.ltb_spec (request_size pkt) HEADER); cbn [orb]; [by apply Hc|].
  destruct (Z.ltb_spec (request_max pkt) (request_size pkt)); [by apply Hc|].
  unfold HEADER in *. destruct (Z.ltb_spec (pkt_response_max pkt) 8); [lia|].
  rewrite copied_header by lia. destruct (request_header_range (request pkt) Hb) as (Rc & Rv & Rn).
  set (r := request_header (request pkt)) in *. set (n := r_data_len r) in *.
  pose proof (copy_temp_same 0 8 pkt) as Hs1. destruct (copy_temp_request 0 8 pkt) as [-> ->].
  destruct (negb (r_struct_version r =? EC_HOST_REQUEST_VERSION)); [by apply Hc|].
  destruct (Z.ltb_spec (request_size pkt) (8 + n)); [by apply Hc|].
  assert (Esum : sum_bytes (slice (request pkt) 0 8) + sum_bytes (slice (request pkt) 8 n) =
                 sum_bytes (take (Z.to_nat (8 + n)) (request pkt))).
  { rewrite <- sum_bytes_app. f_equal. unfold slice.
    replace (Z.to_nat (8 + n)) with (8 + Z.to_nat n)%nat by (destruct Rn; lia).
    change (Z.to_nat 0) with 0%nat. change (Z.to_nat 8) with 8%nat. rewrite drop_0. apply take_take_drop. }
  rewrite Esum. pose proof (copy_temp_same 8 n (copy_temp 0 8 pkt)) as Hs2.
  assert (Hs : same_response (copy_temp 8 n (copy_temp 0 8 pkt)) pkt) by (eapply same_response_trans; done).
  assert (Hps : is_bytes (drop 8 (request_data (copy_temp 8 n (copy_temp 0 8 pkt))))).
  { apply Forall_drop. destruct (copied_bytes pkt 0 8) as (_ & _ & ? & ?); [done|done|intros t E; by destruct (Ht t E)|].
    by destruct (copied_bytes (copy_temp 0 8 pkt) 8 n) as (_ & ? & _). }
  assert (Hcopy : take (Z.to_nat n) (drop 8 (request_data (copy_temp 8 n (copy_temp 0 8 pkt)))) =
                  slice (request pkt) 8 n) by (apply copied_params; [done|destruct Rn; lia..]).
  destruct (negb (u8 _ =? 0)).
  { split; [done|]. eexists _, _. split_and!; [exact Hs|intros _; exact Hps| |reflexivity].
    unfold bad_params. by rewrite (proj2 (Z.eqb_eq (driver_result pkt) 0)) by done. }
  assert (Hlen : Z.of_nat (length (slice (request pkt) 8 n)) = n).
  { unfold slice. rewrite length_take, length_drop. destruct Rn. lia. }
  split_and!; [done|done|destruct Rn; lia|]. eexists _, _. split_and!; [exact Hs| |exact Hps|].
  - replace (length (slice (request pkt) 8 n)) with (Z.to_nat n) by lia. exact Hcopy.
  - rewrite Hlen. destruct Hs as [_ Em]. rewrite Em, Hmax, (wrap_id 16) by (unfold in_range; lia). reflexivity.
Qed.

Lemma parse_bad_nonzero pkt e : parse pkt = Bad e -> e <> 0.
Proof.
  unfold parse. destruct (Z.eqb_spec (driver_result pkt) 0); cbn [negb];
    repeat case_match; intros [= <-]; done.
Qed.

(** ** What handlers promise *)

Definition resp_ok (R : Z) (l : list Z) : Prop := Z.of_nat (length l) = R - HEADER /\ is_bytes l.
Definition args_ok (R : Z) (a : handler_args) : Prop :=
  0 <= response_max a <= R - HEADER /\ in_range 16 (response_size a) /\ in_range 16 (result a) /\
  is_bytes (params a).
Definition st_ok (s : st) : Prop :=
  Z.of_nat (length (host_memmap s)) = EC_MEMMAP_SIZE /\ is_bytes (host_memmap s) /\ in_range 8 (saved_result s).

(** A handler keeps the buffer's size and its bounds, and it cannot reach the
    record of the slow command. *)
Definition kept_ok (R : Z) (s0 : st) (a : handler_args) (resp : list Z) (s : st) : Prop :=
  args_ok R a /\ resp_ok R resp /\ st_ok s /\ command_pending s = command_pending s0.
Definition outcome_ok (R : Z) (s0 : st) (o : outcome) : Prop :=
  let '(_, a, resp, s) := o in kept_ok R s0 a resp s.
Definition cont_ok (R : Z) (k : handler_args -> list Z -> st -> outcome) : Prop :=
  forall a resp s, args_ok R a -> resp_ok R resp -> st_ok s -> outcome_ok R s (k a resp s).
Definition hstep_ok (R : Z) (s0 : st) (h : hstep) : Prop :=
  match h with
  | Done o => outcome_ok R s0 o
  | InProgress a resp s k => kept_ok R s0 a resp s /\ cont_ok R k
  end.
Definition handler_ok (R : Z) (h : handler) : Prop :=
  forall vm a resp s, args_ok R a -> resp_ok R resp -> st_ok s -> hstep_ok R s (h vm a resp s).

(** The handlers of this component keep to it when the buffer has 32 bytes of
    data, the most that EC_CMD_TEST_PROTOCOL clears. *)
Lemma write_ok R off b resp :
  0 <= off -> off + Z.of_nat (length b) <= R - HEADER -> is_bytes b -> resp_ok R resp -> resp_ok R (write off b resp).
Proof.
  intros Ho Hb Hbs [Hl Hr]. unfold write, bcopy. split.
  - rewrite !length_app, !length_take, length_drop. lia.
  - apply Forall_app_2; [by apply Forall_take|]. apply Forall_app_2; [by apply Forall_take|by apply Forall_drop].
Qed.
Lemma bcopy_write resp off b n : Z.of_nat (length b) = n -> bcopy resp off b n = write off b resp.
Proof. intros <-. done. Qed.
Lemma bfill_ok R resp n : 0 <= n <= R - HEADER -> resp_ok R resp -> resp_ok R (bfill resp 0 0 n).
Proof.
  intros Hn Hr. unfold bfill. rewrite bcopy_write by (rewrite length_replicate; lia).
  apply write_ok; [lia|rewrite length_replicate; lia|by apply Forall_replicate|done].
Qed.

Lemma reply_ok R rv size b off a resp s :
  0 <= off -> off + Z.of_nat (length b) <= R - HEADER -> is_bytes b -> in_range 16 size ->
  args_ok R a -> resp_ok R resp -> st_ok s ->
  hstep_ok R s (reply rv size (write off b resp) a s).
Proof. intros Ho Hb Hbs Hz (Hm & Hsz & Hres & Hp) Hr Hs. cbn. split_and!; try done. by apply write_ok. Qed.
Lemma done_ok R rv a resp s :
  args_ok R a -> resp_ok R resp -> st_ok s -> hstep_ok R s (Done (rv, a, resp, s)).
Proof. done. Qed.

Definition builtins : list handler :=
  [host_command_proto_version; host_command_hello; host_command_read_memmap; host_command_get_cmd_versions;
   host_command_test_protocol; host_command_get_features; host_command_get_comms_status;
   host_command_resend_response].
Lemma read_memmap_ok R : handler_ok R host_command_read_memmap.
Proof.
  intros vm a resp s Ha Hr Hs. unfold host_command_read_memmap. cbv zeta.
  set (offset := aget _ 0). set (size := aget _ 1).
  destruct (_ || _) eqn:E; [done|]. apply orb_false_iff in E as [E E4]. apply orb_false_iff in E as [E E3].
  destruct (_ && _); [done|]. pose proof Ha as (Hm & _ & _ & Hp). pose proof Hs as Hs'. destruct Hs as (Hl & Hb & Hv).
  apply Z.ltb_ge in E3, E4.
  assert (Ho : in_range 8 offset) by (by apply aget_range).
  assert (Hz : in_range 8 size) by (by apply aget_range). unfold in_range, EC_MEMMAP_SIZE in *.
  rewrite bcopy_write by (unfold slice; rewrite length_take, length_drop; lia).
  apply reply_ok; [done| | |unfold in_range; lia|done..].
  - unfold slice. rewrite length_take, length_drop. lia.
  - unfold slice. auto using Forall_take, Forall_drop.
Qed.
Lemma builtins_ok R : 40 <= R -> R < 2 ^ 16 -> Forall (handler_ok R) builtins.
Proof.
  intros HR HR2. unfold builtins.
  repeat (apply Forall_cons_2; [intros vm a resp s Ha Hr Hs|]); [..|by apply Forall_nil].
  all: try (apply reply_ok; [done|rewrite ?length_app, !length_le_bytes; unfold HEADER; cbn; lia|
    first [apply le_bytes_bytes|apply Forall_app_2; apply le_bytes_bytes]|done|done|done|done]).
  - by apply read_memmap_ok.
  - unfold host_command_get_cmd_versions. cbv zeta. case_match; [|done].
    apply reply_ok; [done|rewrite !length_le_bytes; unfold HEADER; cbn; lia|apply le_bytes_bytes|done..].
  - unfold host_command_test_protocol. cbv zeta.
    pose proof (le_at_nonneg (params a) 4 4 ltac:(apply Ha)) as Hn. set (len := Z.min _ _).
    assert (Hlen : 0 <= len <= 32) by (unfold len; lia). clearbody len.
    rewrite bcopy_write by (rewrite length_bytes_at; lia).
    apply reply_ok; [done|rewrite length_bytes_at; unfold HEADER; lia|apply bytes_at_bytes; apply Ha|
      unfold in_range; lia|done| |done].
    apply bfill_ok; [unfold HEADER; lia|done].
  - destruct Ha as (Hm & _ & _ & Hp), Hs as (Hl & Hb & Hv). cbn. split_and!; try done.
    unfold args_ok, in_range in *. cbn [response_max response_size result params set_result set_response_size]. split_and!; done || lia.
Qed.

(** ** Reachable states *)

(** The slow handler at work keeps its promise, and every response goes into a
    buffer of [R] bytes. *)
Record hc_ok (R : Z) s : Prop := {
  ok_buffer : buffer_ok R (pkt0 s);
  ok_args : args_ok R (args0 s);
  ok_state : st_ok (state s);
  ok_running : forall k, running s = Some k -> cont_ok R k }.

(** A response is well formed and fits the buffer; it carries data only when
    the command succeeded. *)
Definition output_ok (R : Z) (o : output) : Prop :=
  match o with
  | Response l rv => in_range 16 rv /\ exists data,
      l = encode_response rv data /\ HEADER + Z.of_nat (length data) <= R /\ (rv <> EC_RES_SUCCESS -> data = [])
  | _ => True
  end.
(** What a part of the component may do. *)
Definition advances (R : Z) s t : Prop :=
  hc_ok R t /\ exists new, log t = log s ++ new /\ Forall (output_ok R) new.
Lemma advances_refl R s : hc_ok R s -> advances R s s.
Proof. split; [done|]. exists []. by rewrite app_nil_r. Qed.
Lemma advances_trans R s t u : advances R s t -> advances R t u -> advances R s u.
Proof.
  intros [_ (l1 & E1 & F1)] [Hu (l2 & E2 & F2)]. split; [done|]. exists (l1 ++ l2).
  rewrite E2, E1, app_assoc. split; [done|by apply Forall_app_2].
Qed.
(** Steps that only write fields of the state. *)
Lemma advances_quiet R s t : hc_ok R t -> log t = log s -> advances R s t.
Proof. intros ? E. split; [done|]. exists []. by rewrite E, app_nil_r. Qed.
Lemma advances_emit R s o : hc_ok R s -> output_ok R o -> advances R s (emit o s).
Proof. intros [] ?. split; [by split|]. exists [o]. split; [done|by repeat constructor]. Qed.

Lemma clip_fits R a resp :
  let '(rv, data) := clip R a resp in rv <> EC_RES_SUCCESS -> data = [].
Proof. unfold clip. by destruct (negb _); [|destruct (_ <? _)]. Qed.

Lemma clipped_args_ok R a : args_ok R a -> args_ok R (clipped R a).
Proof.
  intros Ha. unfold clipped. pose proof Ha as ((? & ?) & ? & ? & ?).
  destruct (negb _); [|destruct (_ <? _); [|done]]; unfold args_ok; split_and!; done.
Qed.

Lemma respond_advances R s : hc_ok R s -> advances R s (host_packet_respond s).
Proof.
  intros [Hb Ha Hs Hk]. pose proof Ha as (Hm & Hz & Hr & Hp).
  pose proof (respond_packet R s Hb Hr Hz) as H1. pose proof (clip_fits R (args0 s) (resp_of s)) as H2. cbv zeta in H1.
  destruct (clip R (args0 s) (resp_of s)) as [rv data].
  destruct H1 as (E & Hrv & Hl & Hb' & Es & Ep & Er & Ea). split.
  - split; [done|rewrite Ea; by apply clipped_args_ok|by rewrite Es|by rewrite Er].
  - exists [Response (encode_response rv data) rv]. split; [done|]. apply Forall_singleton.
    split; [done|]. exists data. split_and!; [done|lia|done].
Qed.

Lemma set_mod_state_ok R s st : hc_ok R s -> st_ok st -> hc_ok R (set_state st s).
Proof. intros [] ?. by split. Qed.
Lemma send_advances R s b : hc_ok R s -> advances R s (host_send_response b s).
Proof.
  intros Hs. unfold host_send_response.
  destruct (CONFIG_HOST_COMMAND_STATUS && negb b); [|by apply respond_advances].
  destruct (command_pending (state s)) eqn:E.
  - cbv zeta. apply advances_quiet; [|done]. apply set_mod_state_ok; [done|].
    destruct Hs as [_ _ (Hl & Hm & _) _]. split_and!; [done..|]. cbn.
    destruct (negb _); [done|by apply wrap_range].
  - destruct (result (args0 s) =? EC_RES_IN_PROGRESS); [|by apply respond_advances].
    set (t := set_state _ s). assert (Ht : hc_ok R t).
    { apply set_mod_state_ok; [done|]. apply Hs. }
    eapply advances_trans; [|by apply respond_advances]. by apply advances_quiet.
Qed.

Lemma put_outcome_ok R s st0 o : hc_ok R s -> outcome_ok R st0 o -> hc_ok R (put_outcome o s) /\ log (put_outcome o s) = log s.
Proof.
  destruct o as [[[rv a] resp] st]. intros [Hb Ha Hs Hk] ((Hm & Hz & Hr & Hp) & (Hl & Hrb) & Hst & _).
  destruct Hb as [Bl Bb Bm Br]. unfold HEADER in *. split; [|done].
  split; [|..|done|done].
  - split; [| |done|done]; cbn [put_outcome put_resp set_state set_pkt set_args pkt0 response].
    + rewrite length_app, length_take. lia.
    + apply Forall_app_2; [by apply Forall_take|done].
  - split_and!; cbn [put_outcome put_resp set_state set_pkt set_args args0 set_result response_max response_size
      result params]; [apply Hm..|done|by apply wrap_range|done].
Qed.
Lemma resp_of_ok R s : hc_ok R s -> resp_ok R (resp_of s).
Proof.
  intros [Hb _ _ _]. split; [by apply length_resp_of|]. destruct Hb. by apply Forall_drop.
Qed.

(** Every entry of the table keeps the promises. *)
Definition table_ok (R : Z) : Prop := Forall (fun c => handler_ok R (cmd_handler c)) hcmds.

Lemma find_linear_in l c cmd : find_linear l c = Some cmd -> In cmd l /\ cmd_command cmd = c.
Proof.
  induction l as [|x l IH]; [done|]. cbn. destruct (Z.eqb_spec c (cmd_command x)).
  - intros [= <-]. by split; [left|].
  - intros [? ?]%IH. by split; [right|].
Qed.
Lemma find_binary_in n l r c cmd : find_binary n l r c = Some cmd -> In cmd hcmds /\ cmd_command cmd = c.
Proof.
  revert l r. induction n as [|n IH]; intros l r; [done|]. cbn [find_binary]. destruct (r <? l); [done|].
  destruct (hcmds !! _) as [x|] eqn:E; [|done].
  destruct (Z.ltb_spec (cmd_command x) c); [by apply IH|]. destruct (Z.ltb_spec c (cmd_command x)); [by apply IH|].
  intros [= ->]. split; [|lia]. apply list_elem_of_In. by eapply list_elem_of_lookup_2.
Qed.
Lemma find_host_command_in c s cmd :
  find_host_command c s = Some cmd -> In cmd hcmds /\ cmd_command cmd = c.
Proof.
  unfold find_host_command. destruct (safe_mode_blocks _ _); [done|].
  destruct CONFIG_HOSTCMD_SECTION_SORTED; [apply find_binary_in|apply find_linear_in].
Qed.

Lemma process_ok R a resp s :
  table_ok R -> args_ok R a -> resp_ok R resp -> st_ok s -> hstep_ok R s (host_command_process a resp s).
Proof.
  intros Ht Ha Hr Hs. unfold host_command_process. cbv zeta. set (zeros := bfill _ _ _ _).
  assert (resp_ok R zeros) by (apply bfill_ok; [apply Ha|done]).
  destruct (find_host_command (command a) s) as [cmd|] eqn:E; [|done]. destruct (_ =? 0); [done|].
  apply find_host_command_in in E as [Hin _]. unfold table_ok in Ht. rewrite List.Forall_forall in Ht.
  by apply (Ht cmd Hin).
Qed.

Lemma put_advances R s st0 o : hc_ok R s -> outcome_ok R st0 o -> advances R s (put_outcome o s).
Proof. intros Hs Ho. destruct (put_outcome_ok R s st0 o Hs Ho). by apply advances_quiet. Qed.
Lemma kept_outcome R st0 a resp s rv : kept_ok R st0 a resp s -> outcome_ok R st0 (rv, a, resp, s).
Proof. done. Qed.
Lemma continue_ok R k s :
  cont_ok R k -> hc_ok R s -> outcome_ok R (state s) (k (args0 s) (resp_of s) (state s)).
Proof. intros Hk Hs. apply Hk; [apply Hs|by apply resp_of_ok|apply Hs]. Qed.
Lemma process_state_ok R s :
  table_ok R -> hc_ok R s -> hstep_ok R (state s) (host_command_process (args0 s) (resp_of s) (state s)).
Proof. intros Ht Hs. apply process_ok; [done|apply Hs|by apply resp_of_ok|apply Hs]. Qed.

Lemma set_args_ok R s a : hc_ok R s -> args_ok R a -> hc_ok R (set_args a s).
Proof. intros [] ?. by split. Qed.
Lemma set_result_ok R a e : args_ok R a -> in_range 16 e -> args_ok R (set_result e a).
Proof. intros (Hm & Hz & Hr & Hp) He. split_and!; [apply Hm..|done|done|done]. Qed.

Lemma process_now_advances R b s : table_ok R -> hc_ok R s -> advances R s (process_now b s).
Proof.
  intros Ht Hs. unfold process_now. pose proof (process_state_ok R s Ht Hs) as Hp.
  destruct (host_command_process _ _ _) as [o|a resp st k]; cbn [hstep_ok] in Hp.
  - by eapply put_advances.
  - destruct Hp as [Hp Hk]. cbv zeta.
    assert (H1 := put_advances R s _ _ Hs (kept_outcome R _ _ _ _ EC_RES_IN_PROGRESS Hp)).
    assert (H2 := send_advances R _ b (proj1 H1)).
    eapply advances_trans; [exact H1|]. eapply advances_trans; [exact H2|].
    eapply put_advances; [apply H2|]. apply continue_ok; [done|apply H2].
Qed.

Lemma received_advances R s : table_ok R -> hc_ok R s -> advances R s (host_command_received s).
Proof.
  intros Ht Hs. unfold host_command_received. cbv zeta. set (t := if _ =? EC_CMD_REBOOT then _ else s).
  assert (H1 : advances R s t).
  { unfold t. case_match; [|by apply advances_refl].
    pose proof (advances_emit R s SystemReset Hs I) as He. eapply advances_trans; [exact He|].
    apply advances_quiet; [|done]. apply set_args_ok; [apply He|]. apply set_result_ok; [apply Hs|done]. }
  clearbody t. pose proof (proj1 H1) as Ht1. eapply advances_trans; [exact H1|].
  destruct (negb _); [by apply send_advances|]. destruct (_ && _).
  - assert (H2 := process_now_advances R true t Ht Ht1). eapply advances_trans; [exact H2|].
    by apply send_advances, H2.
  - eapply advances_trans; [|apply advances_emit; [|done]]; [apply advances_quiet; [|done]|]; by destruct Ht1.
Qed.

Lemma bad_advances R s e : hc_ok R s -> in_range 16 e -> advances R s (bad e s).
Proof.
  intros Hs He. unfold bad.
  set (t := set_args _ s). assert (hc_ok R t) by (apply set_args_ok, set_result_ok; [done|apply Hs|done]).
  eapply advances_trans; [|by apply respond_advances]. by apply advances_quiet.
Qed.

Lemma receive_advances R pkt s :
  table_ok R -> hc_ok R s -> packet_ok R pkt ->
  exists t, host_packet_receive pkt s = Some t /\ advances R s t.
Proof.
  intros Ht Hs Hp. pose proof (receive_parse R pkt s Hp) as H1.
  destruct Hp as [_ _ _ Hr Hrb Hmax _ Hrange]. destruct Hs as [Hb (Hm & Hz & Hres & Hps) Hst Hk].
  destruct (parse pkt) as [e|c v d].
  - destruct H1 as (He & p & ps & [E1 E2] & Hbs & _ & ->). eexists. split; [done|].
    set (t := set_args _ _). assert (hc_ok R t).
    { split; [|split_and!; [apply Hm..|done|done|by apply Hbs]|done|done]. split; cbn; congruence. }
    eapply advances_trans; [|by apply bad_advances]. by apply advances_quiet.
  - destruct H1 as (Hc & Hv & Hd & p & ps & [E1 E2] & _ & Hbs & ->). eexists. split; [done|].
    set (t := set_args _ _). assert (hc_ok R t).
    { split; [|split_and!; [cbn; lia..|done|done|done]|done|done]. split; cbn; congruence. }
    eapply advances_trans; [|by apply received_advances]. by apply advances_quiet.
Qed.

Lemma task_advances R s : table_ok R -> hc_ok R s -> running s = None -> advances R s (task_turn s).
Proof.
  intros Ht Hs Hr. unfold task_turn. destruct (negb _); [by apply advances_refl|].
  pose proof (process_state_ok R s Ht Hs) as Hp.
  destruct (host_command_process _ _ _) as [o|a resp st k]; cbn [hstep_ok] in Hp.
  - assert (H1 := put_advances R s _ _ Hs Hp). eapply advances_trans; [exact H1|]. by apply send_advances, H1.
  - destruct Hp as [Hp Hk].
    assert (H1 := put_advances R s _ _ Hs (kept_outcome R _ _ _ _ EC_RES_IN_PROGRESS Hp)).
    assert (H2 := send_advances R _ false (proj1 H1)).
    eapply advances_trans; [exact H1|]. eapply advances_trans; [exact H2|].
    apply advances_quiet; [|done]. destruct H2 as [[] _]. split; [done..|]. by intros ? [= <-].
Qed.
Lemma resume_advances R s : hc_ok R s -> advances R s (task_resume s).
Proof.
  intros Hs. unfold task_resume. destruct (running s) as [k|] eqn:E; [|by apply advances_refl].
  assert (Hs' : hc_ok R (set_running None s)) by (destruct Hs; by split).
  pose proof (ok_running R s Hs k E) as Hk.
  assert (H1 := put_advances R _ _ _ Hs' (continue_ok R k s Hk Hs)).
  eapply advances_trans; [by apply advances_quiet|]. eapply advances_trans; [exact H1|]. by apply send_advances, H1.
Qed.

(** ** The properties *)

Definition op_ok (R : Z) (o : op) : Prop :=
  match o with Receive pkt => packet_ok R pkt | _ => True end.

(** C22. Whatever packets arrive, in whatever order they and the turns of the
    task happen, also while a slow handler works, no assertion fails and every
    response that leaves the component is a well-formed packet no longer than
    the response buffer, with data only if its status is success. *)
Theorem responses_well_formed R (l : list op) s :
  table_ok R -> hc_ok R s -> Forall (op_ok R) l ->
  exists t new, steps l s = Some t /\ log t = log s ++ new /\
    Forall (output_ok R) new /\ hc_ok R t.
Proof.
  intros Ht Hs Hl. revert s Hs. induction Hl as [|o l Ho _ IH]; intros s Hs.
  { exists s, []. by rewrite app_nil_r. }
  assert (Hstep : exists t, step o s = Some t /\ advances R s t).
  { destruct o as [pkt| |]; cbn [step].
    - by apply receive_advances.
    - eexists. split; [done|]. destruct (running s) eqn:E; [by apply advances_refl|by apply task_advances].
    - eexists. split; [done|]. by apply resume_advances. }
  destruct Hstep as (t & E & Hok & new & En & Fn).
  destruct (IH t Hok) as (u & new' & Eu & En' & Fn' & Hu).
  exists u, (new ++ new'). cbn [steps]. rewrite E. cbn. split_and!; [done| |by apply Forall_app_2|done].
  by rewrite En', En, app_assoc.
Qed.

(** A version is supported when the command's mask has its bit. *)
Lemma version_supported m v :
  in_range 32 m -> in_range 8 v -> (Z.land (EC_VER_MASK v) m =? 0) = negb (Z.testbit m v).
Proof.
  intros Hm [Hv Hv2]. unfold EC_VER_MASK. destruct (Z.ltb_spec v 32).
  - rewrite wrap_id.
    + rewrite <- has_testbit by done. unfold has, bool_of_Z. by rewrite negb_involutive, Z.land_comm.
    + unfold BIT. rewrite Z.shiftl_1_l. split; [lia|]. apply Z.pow_lt_mono_r; lia.
  - rewrite (bits_above 32) by (done || lia). rewrite (wrap_eq 32 _ 0); [done|done|done|].
    exists (2 ^ (v - 32)). unfold BIT. rewrite Z.shiftl_1_l, <- Z.pow_add_r by lia. rewrite Z.add_0_l. f_equal. lia.
Qed.

(** The handler finds its whole part of the buffer cleared. *)
Lemma bfill_all l n : Z.of_nat (length l) = n -> bfill l 0 0 n = replicate (Z.to_nat n) 0.
Proof.
  intros <-. unfold bfill, bcopy. rewrite take_0, Nat2Z.id, take_ge by (by rewrite length_replicate).
  rewrite drop_ge by lia. by rewrite app_nil_r.
Qed.

(** The record of a command that answered EC_RES_IN_PROGRESS. *)
Definition noted (rv : Z) (s : st) : st :=
  if (rv =? EC_RES_IN_PROGRESS) && CONFIG_HOST_COMMAND_STATUS then set_command_pending true s else s.

Lemma resp_of_put R s rv a resp st :
  buffer_ok R (pkt0 s) -> resp_of (put_outcome (rv, a, resp, st) s) = resp.
Proof.
  intros [Hl _ _ [Hr _]]. unfold HEADER in Hr. unfold resp_of. cbn [put_outcome put_resp set_state set_pkt set_args pkt0 response].
  rewrite drop_app_length'; [done|]. rewrite length_take. lia.
Qed.

Lemma send_answer R s st0 rv a resp st :
  hc_ok R s -> outcome_ok R st0 (rv, a, resp, st) -> command_pending st = false ->
  let t := host_send_response false (put_outcome (rv, a, resp, st) s) in
  let '(w, data) := clip R (set_result (u16 rv) a) resp in
  log t = log s ++ [Response (encode_response w data) w] /\ state t = noted (u16 rv) st /\
  running t = running s /\ pending_args t = pending_args s.
Proof.
  intros Hs Ho Hc. cbv zeta. pose proof (put_outcome_ok R s st0 _ Hs Ho) as [Hok _].
  pose proof (resp_of_put R s rv a resp st (ok_buffer R s Hs)) as Er.
  set (t := put_outcome _ s) in *. pose proof Hok as [Hb (_ & Hz & Hr & _) _ _].
  assert (Hlog : log t = log s) by done. assert (Hst : state t = st) by done.
  assert (Ha : args0 t = set_result (u16 rv) a) by done. assert (Hrun : running t = running s) by done.
  assert (Hp : pending_args t = pending_args s) by done. clearbody t.
  rewrite <- Hlog, <- Hrun, <- Hp, <- Hst, <- Ha, <- Er. clear Hlog Hrun Hp. rewrite <- Hst in Hc.
  assert (H1 := respond_packet R t Hb Hr Hz). cbv zeta in H1.
  unfold host_send_response, noted. rewrite Hc.
  destruct CONFIG_HOST_COMMAND_STATUS; rewrite ?andb_true_r, ?andb_false_r; cbn [andb negb].
  - replace (result (args0 t)) with (u16 rv) by (by rewrite Ha). destruct (u16 rv =? EC_RES_IN_PROGRESS).
    + set (t' := set_state _ t).
      assert (H2 := respond_packet R t' Hb Hr Hz). cbv zeta in H2. change (resp_of t') with (resp_of t) in H2.
      change (args0 t') with (args0 t) in H2. destruct (clip R _ _). by destruct_and! H2; split_and!.
    + destruct (clip R _ _). by destruct_and! H1; split_and!.
  - destruct (clip R _ _). by destruct_and! H1; split_and!.
Qed.

Lemma received_ordinary s :
  command (args0 s) <> EC_CMD_REBOOT -> command (args0 s) <> EC_CMD_GET_COMMS_STATUS ->
  result (args0 s) = EC_RES_SUCCESS -> host_command_received s = emit WakeTask (set_pending true s).
Proof.
  intros Hr Hc Hs. unfold host_command_received. cbv zeta.
  rewrite (proj2 (Z.eqb_neq _ _) Hr), Hs, (proj2 (Z.eqb_neq _ _) Hc). cbn [negb Z.eqb]. by rewrite andb_false_r.
Qed.

(** What the task does with a request that is for it. *)
Lemma task_answers R s :
  hc_ok R s -> running s = None -> pending_args s = true -> command_pending (state s) = false -> table_ok R ->
  let t := task_turn s in
  match host_command_process (args0 s) (resp_of s) (state s) with
  | Done (rv, b, out, st) =>
    let '(w, data) := clip R (set_result (u16 rv) b) out in
    log t = log s ++ [Response (encode_response w data) w] /\ running t = None /\ state t = noted (u16 rv) st
  | InProgress b out st k =>
    log t = log s ++ [Response (encode_response EC_RES_IN_PROGRESS []) EC_RES_IN_PROGRESS] /\
    running t = Some k /\ state t = noted EC_RES_IN_PROGRESS st
  end.
Proof.
  intros Hs Hr Hp Hc Ht. cbv zeta. unfold task_turn. rewrite Hp. cbn [negb].
  pose proof (process_state_ok R s Ht Hs) as Hok.
  destruct (host_command_process _ _ _) as [[[[rv b] out] st]|b out st k]; cbn [hstep_ok] in Hok.
  - assert (Hcp : command_pending st = false) by (destruct Hok as (_ & _ & _ & ->); done).
    assert (H1 := send_answer R s _ rv b out st Hs Hok Hcp). cbv zeta in H1.
    destruct (clip R _ _) as [w data]. destruct H1 as (E1 & E2 & E3 & _). by rewrite E3.
  - destruct Hok as [Hok _]. assert (Hcp : command_pending st = false) by (destruct Hok as (_ & _ & _ & ->); done).
    assert (H1 := send_answer R s _ EC_RES_IN_PROGRESS b out st Hs (kept_outcome R _ _ _ _ _ Hok) Hcp). cbv zeta in H1.
    unfold clip in H1. cbn [set_result result] in H1. destruct H1 as (E1 & E2 & E3 & _). by split_and!.
Qed.

(** C29. A request that is cut short, has a wrong header, a bad checksum or that
    the driver marks as failed is answered at once with the matching status
    and no data, and no handler runs: the EC's state, the record of the pending
    request and a slow command at work stay as they were.  Of the arguments it
    shares with a request the task has not served yet, the command, version and
    sizes are kept, and so are the parameters -- unless the packet got as far as
    a bad checksum, whose parameters then take the place of the pending
    request's. *)
Theorem request_refused R pkt s e :
  packet_ok R pkt -> hc_ok R s -> parse pkt = Bad e ->
  exists t ps, step (Receive pkt) s = Some t /\ log t = log s ++ [Response (encode_response e []) e] /\
    state t = state s /\ pending_args t = pending_args s /\ running t = running s /\
    args0 t = Args (command (args0 s)) (version (args0 s)) ps (params_size (args0 s))
                (response_max (args0 s)) 0 e /\
    bad_params pkt e (params (args0 s)) ps.
Proof.
  intros Hp Hs E. pose proof (receive_parse R pkt s Hp) as H1. rewrite E in H1.
  destruct H1 as (He & p & ps & [Er Em] & Hps & Hbad & Eq). cbn [step]. rewrite Eq.
  pose proof (parse_bad_nonzero pkt e E) as Hnz. destruct Hp as [_ _ _ Hr Hrb Hmax _ Hrange].
  unfold bad. set (u := set_args _ (set_args _ _)). destruct Hs as [_ (Hm & Hz & _) _ _].
  assert (Hb : buffer_ok R (pkt0 u)) by (split; cbn; congruence).
  assert (H2 := respond_packet R u Hb He Hz). cbv zeta in H2. unfold clip in H2. cbn [u args0 set_args set_result result] in H2.
  rewrite (proj2 (Z.eqb_neq _ _) Hnz) in H2. cbn [negb] in H2. eexists _, ps. destruct_and! H2.
  split_and!; try done. rewrite H8. unfold clipped. cbn [result set_result].
  by rewrite (proj2 (Z.eqb_neq _ _) Hnz).
Qed.

(** C23. A valid request for an ordinary command, with its turn of the task: the
    command is looked up and its version checked against the mask; the handler
    is called with the request's parameters, exactly as sent, and a cleared
    buffer; its status, and on success the data it left, are what goes out; a
    slow handler is answered for with EC_RES_IN_PROGRESS. *)
Theorem request_answered R pkt s c v d :
  table_ok R -> Forall (fun cmd => in_range 32 (version_mask cmd)) hcmds ->
  packet_ok R pkt -> hc_ok R s -> parse pkt = Good c v d ->
  c <> EC_CMD_REBOOT -> c <> EC_CMD_GET_COMMS_STATUS ->
  running s = None -> command_pending (state s) = false ->
  exists ps t, take (length d) ps = d /\ steps [Receive pkt; Task] s = Some t /\
    let answered w data st := log t = (log s ++ [WakeTask]) ++ [Response (encode_response w data) w] /\
                              running t = None /\ state t = st in
    match find_host_command c (state s) with
    | None => answered EC_RES_INVALID_COMMAND [] (state s)
    | Some cmd =>
      if negb (Z.testbit (version_mask cmd) v) then answered EC_RES_INVALID_VERSION [] (state s)
      else match cmd_handler cmd version_mask_of
                   (Args c v ps (Z.of_nat (length d)) (R - HEADER) 0 EC_RES_SUCCESS)
                   (replicate (Z.to_nat (R - HEADER)) 0) (state s) with
           | Done (rv, b, out, st) =>
             let '(w, data) := clip R (set_result (u16 rv) b) out in answered w data (noted (u16 rv) st)
           | InProgress b out st k =>
             log t = (log s ++ [WakeTask]) ++ [Response (encode_response EC_RES_IN_PROGRESS []) EC_RES_IN_PROGRESS] /\
             running t = Some k /\ state t = noted EC_RES_IN_PROGRESS st
           end
    end.
Proof.
  intros Ht Hmasks Hp Hs E Hnr Hnc Hrun Hpend. pose proof (receive_parse R pkt s Hp) as H1. rewrite E in H1.
  destruct H1 as (Hc & Hv & Hd & p & ps & [Er Em] & Htake & Hps & Eq).
  set (a := Args c v ps (Z.of_nat (length d)) (R - HEADER) 0 EC_RES_SUCCESS) in *.
  rewrite received_ordinary in Eq by done. set (u := emit _ _) in Eq.
  exists ps, (task_turn u). split; [done|]. cbn [steps step]. rewrite Eq. cbn [mbind option_bind].
  change (running u) with (running s). rewrite Hrun. split; [done|].
  destruct Hp as [_ _ _ Hr Hrb Hmax _ Hrange].
  assert (Hu : hc_ok R u).
  { destruct Hs as [_ _ Hst Hk]. split; [split; cbn; congruence|split_and!; cbn; try done; lia|done|done]. }
  assert (H2 := task_answers R u Hu Hrun eq_refl Hpend Ht). cbv zeta in H2.
  change (args0 u) with a in H2. change (state u) with (state s) in H2. change (log u) with (log s ++ [WakeTask]) in H2.
  unfold host_command_process in H2. cbv zeta in H2. cbn [a response_max command version] in H2.
  rewrite (bfill_all (resp_of u)) in H2 by (apply length_resp_of, Hu). cbv zeta.
  destruct (find_host_command c (state s)) as [cmd|] eqn:Ef; [|exact H2].
  apply find_host_command_in in Ef as [Hin _]. rewrite List.Forall_forall in Hmasks.
  rewrite (version_supported _ _ (Hmasks cmd Hin) Hv) in H2.
  destruct (negb (Z.testbit _ _)); exact H2.
Qed.

(** ** The sorted table *)

Definition table_sorted : Prop :=
  forall i j x y, (i < j)%nat -> hcmds !! i = Some x -> hcmds !! j = Some y -> cmd_command x < cmd_command y.

Lemma find_linear_none l c : (forall x, In x l -> cmd_command x <> c) -> find_linear l c = None.
Proof.
  induction l as [|x l IH]; intros Hl; [done|]. cbn. destruct (Z.eqb_spec c (cmd_command x)) as [E|].
  - by destruct (Hl x (or_introl eq_refl)).
  - apply IH. intros y Hy. apply Hl. by right.
Qed.
Lemma find_linear_some l c i x :
  (forall j y, (j < i)%nat -> l !! j = Some y -> cmd_command y <> c) ->
  l !! i = Some x -> cmd_command x = c -> find_linear l c = Some x.
Proof.
  revert i. induction l as [|y l IH]; intros i Hl Hi Hc; [done|]. cbn. destruct i as [|i]; cbn in Hi.
  - injection Hi as ->. by rewrite (proj2 (Z.eqb_eq _ _) (eq_sym Hc)).
  - rewrite (proj2 (Z.eqb_neq _ _)) by (intros ->; apply (Hl 0%nat y); [lia|done|done]).
    apply (IH i); [|done|done]. intros j z Hj Hz. apply (Hl (S j) z); [lia|done].
Qed.

(** The search keeps the command, if it is there, between [l] and [r]. *)
Lemma find_binary_between n l r c :
  table_sorted -> 0 <= l -> r < Z.of_nat (length hcmds) -> r - l < Z.of_nat n ->
  (forall i x, hcmds !! i = Some x -> Z.of_nat i < l -> cmd_command x < c) ->
  (forall i x, hcmds !! i = Some x -> r < Z.of_nat i -> c < cmd_command x) ->
  (0 < n)%nat -> find_binary n l r c = find_linear hcmds c.
Proof.
  intros Hsorted. revert l r. induction n as [|n IH]; intros l r Hl Hr Hn Hlo Hhi Hpos; [lia|].
  cbn [find_binary]. destruct (Z.ltb_spec r l) as [Hlt|Hle].
  { symmetry. apply find_linear_none. intros x [i Hi]%list_elem_of_In%list_elem_of_lookup_1.
    destruct (Z.lt_ge_cases (Z.of_nat i) l); [pose proof (Hlo i x Hi); lia|pose proof (Hhi i x Hi); lia]. }
  assert (Hm : l <= l + (r - l) / 2 <= r).
  { pose proof (Z.div_pos (r - l) 2). pose proof (Z.mul_div_le (r - l) 2). lia. }
  set (m := l + (r - l) / 2) in *. clearbody m.
  destruct (lookup_lt_is_Some_2 hcmds (Z.to_nat m)) as [x Hx]; [lia|]. rewrite Hx.
  assert (Hbelow : forall i y, hcmds !! i = Some y -> Z.of_nat i < m -> cmd_command y < cmd_command x)
    by (intros i y Hy Hi; apply (Hsorted i (Z.to_nat m)); [lia|done|done]).
  assert (Habove : forall i y, hcmds !! i = Some y -> m < Z.of_nat i -> cmd_command x < cmd_command y)
    by (intros i y Hy Hi; apply (Hsorted (Z.to_nat m) i); [lia|done|done]).
  assert (Hat : forall i y, hcmds !! i = Some y -> Z.of_nat i = m -> y = x)
    by (intros i y Hy Hi; replace (Z.to_nat m) with i in Hx by lia; congruence).
  destruct (Z.ltb_spec (cmd_command x) c); [|destruct (Z.ltb_spec c (cmd_command x))].
  - destruct (decide (n = 0%nat)) as [->|]; [|apply IH; try lia; [|done]].
    + assert (r = l) by lia. symmetry. apply find_linear_none.
      intros y [i Hi]%list_elem_of_In%list_elem_of_lookup_1.
      destruct (Z.lt_trichotomy (Z.of_nat i) m) as [?|[?|?]];
        [pose proof (Hbelow i y Hi)|pose proof (Hat i y Hi)|pose proof (Hhi i y Hi)]; naive_solver lia.
    + intros i y Hy Hi. destruct (Z.lt_trichotomy (Z.of_nat i) m) as [?|[?|?]];
        [pose proof (Hbelow i y Hy); lia|by rewrite (Hat i y Hy)|lia].
  - destruct (decide (n = 0%nat)) as [->|]; [|apply IH; try lia; [done|]].
    + assert (r = l) by lia. symmetry. apply find_linear_none.
      intros y [i Hi]%list_elem_of_In%list_elem_of_lookup_1.
      destruct (Z.lt_trichotomy (Z.of_nat i) m) as [?|[?|?]];
        [pose proof (Hlo i y Hi)|pose proof (Hat i y Hi)|pose proof (Habove i y Hi)]; naive_solver lia.
    + intros i y Hy Hi. destruct (Z.lt_trichotomy (Z.of_nat i) m) as [?|[?|?]];
        [lia|by rewrite (Hat i y Hy)|pose proof (Habove i y Hy); lia].
  - symmetry. apply (find_linear_some _ _ (Z.to_nat m)); [|done|lia].
    intros j y Hj Hy. pose proof (Hbelow j y Hy). lia.
Qed.

(** When the table is sorted, the binary search finds what the linear search
    finds, whatever the command, and always ends. *)
Theorem find_binary_linear c :
  table_sorted -> find_binary (S (length hcmds)) 0 (Z.of_nat (length hcmds) - 1) c = find_linear hcmds c.
Proof.
  intros Hs. apply find_binary_between; [done|lia..| | |lia]; intros i x Hi.
  - lia.
  - apply lookup_lt_Some in Hi. lia.
Qed.
End Dispatch.

(** ** A table for the witnesses *)

(** A slow command: it answers EC_RES_IN_PROGRESS and fails in the end. *)
Definition slow_handler : handler (W:=unit) := fun _ a resp s =>
  InProgress a resp s (fun a resp s => (EC_RES_ERROR, a, resp, s)).
Definition EC_CMD_SLOW : Z := 0x13.
#[local] Instance demo_board : Board (W:=unit) := {
  hcmds := [HostCmd host_command_proto_version EC_CMD_PROTO_VERSION 1;
            HostCmd host_command_hello EC_CMD_HELLO 1;
            HostCmd host_command_read_memmap EC_CMD_READ_MEMMAP 1;
            HostCmd host_command_get_cmd_versions EC_CMD_GET_CMD_VERSIONS 3;
            HostCmd host_command_get_comms_status EC_CMD_GET_COMMS_STATUS 1;
            HostCmd host_command_test_protocol EC_CMD_TEST_PROTOCOL 1;
            HostCmd slow_handler EC_CMD_SLOW 1;
            HostCmd host_command_resend_response EC_CMD_RESEND_RESPONSE 1];
  CONFIG_HOSTCMD_SECTION_SORTED := true;
  CONFIG_HOST_COMMAND_STATUS := true;
  safe_mode_blocks := fun _ _ => false;
  get_feature_flags0 := 1;
  get_feature_flags1 := 2 }.

(** A request as the host sends it, in buffers of 64 bytes. *)
Definition encode_request (c v : Z) (data : list Z) : list Z :=
  let head csum := [EC_HOST_REQUEST_VERSION; csum] ++ le_bytes 2 c ++ [v; 0] ++ le_bytes 2 (Z.of_nat (length data)) in
  head (u8 (- (sum_bytes (head 0) + sum_bytes data))) ++ data.
Definition demo_packet (bytes : list Z) : host_packet :=
  Packet (bytes ++ replicate (64 - length bytes) 0) None 64 (Z.of_nat (length bytes)) (replicate 64 0) 64 0 0.
Definition demo_state : hc (W:=unit) :=
  Hc false (Args 0 0 [] 0 0 0 0) (demo_packet []) None
     (Mod false EC_RES_UNAVAILABLE (replicate 255 0) tt) [].

Lemma bytes_decide l : forallb (fun x => (0 <=? x) && (x <? 256)) l = true -> is_bytes l.
Proof.
  intros Hl. apply List.Forall_forall. intros x Hx. rewrite forallb_forall in Hl. specialize (Hl x Hx). unfold in_range. lia.
Qed.
Lemma slow_ok R : handler_ok R slow_handler.
Proof. intros vm a resp s Ha Hr Hs. split; [done|]. by intros ????. Qed.
Lemma demo_table_ok : table_ok 64.
Proof.
  pose proof (builtins_ok 64 ltac:(done) ltac:(done)) as Hb. unfold builtins in Hb. rewrite !List.Forall_cons_iff in Hb. destruct_and! Hb.
  unfold table_ok. cbn [hcmds demo_board]. repeat (apply Forall_cons_2; [cbn [cmd_handler]; first [done|apply slow_ok]|]).
  by apply Forall_nil.
Qed.
Lemma demo_packet_ok bytes :
  (length bytes <= 64)%nat -> is_bytes bytes -> packet_ok 64 (demo_packet bytes).
Proof.
  intros Hl Hb. split; try done.
  - cbn [request request_max demo_packet]. rewrite length_app, length_replicate. lia.
  - apply Forall_app_2; [done|by apply Forall_replicate].
  - by apply Forall_replicate.
Qed.
Lemma demo_state_ok : hc_ok 64 demo_state.
Proof.
  split; [split; try done; by apply Forall_replicate|by split_and!|split_and!; try done; by apply Forall_replicate|done].
Qed.

Lemma responses_well_formed_witness :
  exists t new, steps [Receive (demo_packet (encode_request EC_CMD_SLOW 0 [])); Task;
                       Receive (demo_packet [1; 2; 3]);
                       Receive (demo_packet (encode_request EC_CMD_GET_COMMS_STATUS 0 [])); Resume;
                       Receive (demo_packet (encode_request EC_CMD_READ_MEMMAP 0 [1; 80])); Task] demo_state = Some t /\
    log t = [] ++ new /\ Forall (output_ok 64) new /\ hc_ok 64 t.
Proof.
  apply (responses_well_formed 64).
  - exact demo_table_ok.
  - exact demo_state_ok.
  - repeat (apply Forall_cons_2; [first [exact I|apply demo_packet_ok; [vm_compute; lia|by apply bytes_decide]]|]).
    by apply Forall_nil.
Defined.

Lemma request_refused_witness :
  exists t ps, step (Receive (demo_packet [3; 0; 1; 0; 0; 0; 0; 0])) demo_state = Some t /\
    log t = [] ++ [Response (encode_response EC_RES_INVALID_CHECKSUM []) EC_RES_INVALID_CHECKSUM] /\
    state t = state demo_state /\ pending_args t = pending_args demo_state /\ running t = running demo_state /\
    args0 t = Args (command (args0 demo_state)) (version (args0 demo_state)) ps (params_size (args0 demo_state))
                (response_max (args0 demo_state)) 0 EC_RES_INVALID_CHECKSUM /\
    bad_params (demo_packet [3; 0; 1; 0; 0; 0; 0; 0]) EC_RES_INVALID_CHECKSUM (params (args0 demo_state)) ps.
Proof.
  apply (request_refused 64).
  - apply demo_packet_ok; [vm_compute; lia|by apply bytes_decide].
  - exact demo_state_ok.
  - by vm_compute.
Defined.

(** A HELLO of 9, 9, 9, 9 with a bad checksum, while a HELLO of 1, 2, 3, 4 waits
    for the task: the task answers the pending request from the parameters of
    the packet that was refused. *)
Definition bad_hello : list Z := aset (encode_request EC_CMD_HELLO 0 [9; 9; 9; 9]) 1 0.
Example refused_parameters_served :
  log <$> steps [Receive (demo_packet (encode_request EC_CMD_HELLO 0 [1; 2; 3; 4]));
                 Receive (demo_packet bad_hello); Task] demo_state =
  Some [WakeTask; Response (encode_response EC_RES_INVALID_CHECKSUM []) EC_RES_INVALID_CHECKSUM;
        Response (encode_response EC_RES_SUCCESS [13; 12; 11; 10]) EC_RES_SUCCESS].
Proof. vm_compute. reflexivity. Qed.

(** EC_CMD_HELLO adds 0x01020304 to the number it is sent. *)
Lemma request_answered_witness :
  exists ps t, take 4 ps = [1; 2; 3; 4] /\
    steps [Receive (demo_packet (encode_request EC_CMD_HELLO 0 [1; 2; 3; 4])); Task] demo_state = Some t /\
    let answered w data st := log t = ([] ++ [WakeTask]) ++ [Response (encode_response w data) w] /\
                              running t = None /\ state t = st in
    match find_host_command EC_CMD_HELLO (state demo_state) with
    | None => answered EC_RES_INVALID_COMMAND [] (state demo_state)
    | Some cmd =>
      if negb (Z.testbit (version_mask cmd) 0) then answered EC_RES_INVALID_VERSION [] (state demo_state)
      else match cmd_handler cmd version_mask_of (Args EC_CMD_HELLO 0 ps 4 56 0 EC_RES_SUCCESS)
                   (replicate 56 0) (state demo_state) with
           | Done (rv, b, out, st) =>
             let '(w, data) := clip 64 (set_result (u16 rv) b) out in answered w data (noted (u16 rv) st)
           | InProgress b out st k =>
             log t = ([] ++ [WakeTask]) ++ [Response (encode_response EC_RES_IN_PROGRESS []) EC_RES_IN_PROGRESS] /\
             running t = Some k /\ state t = noted EC_RES_IN_PROGRESS st
           end
    end.
Proof.
  apply (request_answered 64 (demo_packet (encode_request EC_CMD_HELLO 0 [1; 2; 3; 4])) demo_state
           EC_CMD_HELLO 0 [1; 2; 3; 4]).
  - exact demo_table_ok.
  - cbn [hcmds demo_board]. by repeat constructor.
  - apply demo_packet_ok; [vm_compute; lia|by apply bytes_decide].
  - exact demo_state_ok.
  - by vm_compute.
  - done.
  - done.
  - done.
  - done.
Defined.
Example hello_example :
  log <$> steps [Receive (demo_packet (encode_request EC_CMD_HELLO 0 [1; 2; 3; 4])); Task] demo_state =
  Some [WakeTask; Response (encode_response EC_RES_SUCCESS [5; 5; 5; 5]) EC_RES_SUCCESS].
Proof. by vm_compute. Qed.

Lemma demo_sorted : table_sorted.
Proof.
  intros i j x y Hij Hx Hy. pose proof (lookup_lt_Some _ _ _ Hy) as Hj. cbn [hcmds demo_board length] in Hj.
  do 8 (destruct j as [|j]; [do 8 (destruct i as [|i]; [try lia; cbn in Hx, Hy; injection Hx as <-; injection Hy as <-; done|]); lia|]).
  lia.
Qed.
Lemma find_binary_linear_witness :
  find_binary (S (length hcmds)) 0 (Z.of_nat (length hcmds) - 1) EC_CMD_TEST_PROTOCOL =
  find_linear hcmds EC_CMD_TEST_PROTOCOL /\
  cmd_command <$> find_linear hcmds EC_CMD_TEST_PROTOCOL = Some EC_CMD_TEST_PROTOCOL.
Proof. split; [apply find_binary_linear, demo_sorted|done]. Defined.

(** ** The result of a slow command

    The slow command fails.  Its result is saved, but EC_CMD_RESEND_RESPONSE
    does not hand it out: the handler puts it in [args->result], which the task
    then overwrites with the handler's own EC_RES_SUCCESS. *)
Definition slow_request : op := Receive (demo_packet (encode_request EC_CMD_SLOW 0 [])).
Definition resend_request : op := Receive (demo_packet (encode_request EC_CMD_RESEND_RESPONSE 0 [])).
Definition status_request : op := Receive (demo_packet (encode_request EC_CMD_GET_COMMS_STATUS 0 [])).
Example resend_reports_success :
  (fun t => (saved_result (state t), drop 2 (log t))) <$>
    (steps [slow_request; Task; Resume] demo_state) = Some (EC_RES_ERROR, []) /\
  (fun t => (saved_result (state t), drop 2 (log t))) <$>
    (steps [slow_request; Task; Resume; resend_request; Task] demo_state) =
  Some (EC_RES_UNAVAILABLE, [WakeTask; Response (encode_response EC_RES_SUCCESS []) EC_RES_SUCCESS]).
Proof. split; by vm_compute. Qed.

(** A host that asks whether the command still runs, as it is meant to, loses
    the result: the answer is built in the slow command's arguments, whose
    response size is then not zero when it ends. *)
Example poll_loses_result :
  (fun t => (saved_result (state t), drop 2 (log t))) <$>
    (steps [slow_request; Task; status_request; Resume] demo_state) =
  Some (EC_RES_UNAVAILABLE, [Response (encode_response EC_RES_SUCCESS [1; 0; 0; 0]) EC_RES_SUCCESS]).
Proof. by vm_compute. Qed.
End HostCommand.
