(* ===== verification/Timer.v ===== *)
(** * Timers (common/timer.c)

    A 32-bit hardware counter of microseconds, extended to 64 bits in software,
    and a one-shot timer per task.  The hardware raises an interrupt when the
    counter wraps, when it reaches the event that was set, and when software
    triggers it; [process_timers] then wakes the tasks whose timers have expired
    and sets the next event.

    Every reading of the counter is an argument: the functions that read it more
    than once take the list of the values they read.  [expire_timer] wakes a
    task with [task_set_event]; here it is recorded in a list, and Task.v sets
    the events.  CONFIG_HWTIMER_64BIT, where the hardware counts 64 bits, is not
    set. *)

From Stdlib Require Import Sorting.Sorted.
From stdpp Require Import sets.
From S2P Require Import Prelude Bits.
Import Bits.

Module Timer.

(** [timestamp_t] is a 64-bit value with its two words. *)
(** src/include/timer.h:31-37 [timestamp_t] *)
Definition timestamp (hi lo : Z) : Z := hi * 2 ^ 32 + lo.
Definition le_hi (val : Z) : Z := val / 2 ^ 32.
Definition le_lo (val : Z) : Z := u32 val.

(** The static variables, and what [__hw_clock_event_set] and
    [__hw_clock_event_clear] left in the hardware. *)
(** src/common/timer.c:37-51 [timer_running] *)
Record timers := Timers {
  clksrc_high : Z;
  timer_running : Z;
  timer_deadline : list Z;
  next_deadline : Z;
  hw_event : option Z }.

Definition set_clksrc_high v t := Timers v (timer_running t) (timer_deadline t) (next_deadline t) (hw_event t).
Definition set_running v t := Timers (clksrc_high t) v (timer_deadline t) (next_deadline t) (hw_event t).
Definition set_deadlines v t := Timers (clksrc_high t) (timer_running t) v (next_deadline t) (hw_event t).
Definition set_next v e t := Timers (clksrc_high t) (timer_running t) (timer_deadline t) v e.

(** ** Reading the time *)

(** The readings in the order of the code: the high word, the counter, the high
    word again, and both once more if it changed. *)
(** src/common/timer.c:248-275 [get_time] *)
Definition get_time (hi1 lo1 hi2 hi3 lo2 : Z) : Z :=
  if negb (hi1 =? hi2) then timestamp hi3 lo2 else timestamp hi1 lo1.
(** In the timer interrupt the high word does not change. *)
Definition time_at (t : timers) (lo : Z) : Z :=
  get_time (clksrc_high t) lo (clksrc_high t) (clksrc_high t) lo.

(** src/common/timer.c:103-113 [timestamp_expired] *)
Definition timestamp_expired (deadline now : Z) : bool := 0 <=? swrap 64 (now - deadline).

(** ** The timer interrupt *)

Definition no_deadline : Z := 2 ^ 64 - 1.

(** src/common/timer.c:53-59 [expire_timer] *)
Definition expire_timer (tskid : Z) (s : timers * list Z) : timers * list Z :=
  let '(t, woken) := s in (set_running (clear_bit tskid (timer_running t)) t, woken ++ [tskid]).

(** One timer of [check_timer]; [next] is the earliest deadline so far. *)
(** src/common/timer.c:76-84 [process_timers] *)
Definition check_one (now : Z) (tskid : Z) (s : timers * list Z * Z) : timers * list Z * Z :=
  let '(t, woken, next) := s in
  let d := aget (timer_deadline t) tskid in
  if d <=? now then (expire_timer tskid (t, woken), next)
  else if (le_hi d =? le_hi now) && (le_lo d <? le_lo next) then (t, woken, d)
  else (t, woken, next).

(** Again when a timer was started meanwhile: *)
(** src/common/timer.c:72-89 [process_timers] *)
Fixpoint check_all (fuel : nat) (now : Z) (s : timers * list Z * Z) : option (timers * list Z * Z) :=
  match fuel with
  | O => None
  | S fuel =>
    let running_t0 := timer_running s.1.1 in
    s ← while_fls (check_one now) 32 running_t0 s;
    if bool_of_Z (Z.land (timer_running s.1.1) (Z.lnot running_t0)) then check_all fuel now s else Some s
  end.

(** [los] are the readings of the counter, two a turn; [None] when they run
    out.  The last reading that was made is returned. *)
(** src/common/timer.c:69-100 [process_timers] *)
Fixpoint process_turns (los : list Z) (t : timers) (woken : list Z) : option (timers * list Z * Z) :=
  match los with
  | [] => None
  | lo :: los =>
    '(t, woken, next) ← check_all 2 (time_at t lo) (t, woken, no_deadline);
    if le_hi next =? 0xffffffff then Some (set_next 0xffffffff None t, woken, lo)
    else
      let t := set_next (le_lo next) (Some (le_lo next)) t in
      match los with
      | [] => None
      | lo :: los => if next <=? time_at t lo then process_turns los t woken else Some (t, woken, lo)
      end
  end.

(** src/common/timer.c:61-101 [process_timers] *)
Definition process_timers (overflow : bool) (los : list Z) (t : timers) : option (timers * list Z * Z) :=
  let t := if overflow then set_clksrc_high (u32 (clksrc_high t + 1)) t else t in
  process_turns los t [].

(** ** Starting and stopping a timer

    [timer_arm] in the pieces between which an interrupt may come: the time is
    read, the deadline stored, the timer published, and the interrupt triggered
    if it must look at the timer; [None] when the timer is already running. *)

(** src/common/timer.c:142-149 [timer_arm] *)
Definition timer_store (event tskid : Z) (t : timers) : option timers :=
  if has tskid (timer_running t) then None
  else Some (set_deadlines (aset (timer_deadline t) tskid event) t).
(** src/common/timer.c:150-150 [timer_arm] *)
Definition timer_publish (tskid : Z) (t : timers) : timers :=
  set_running (set_bit tskid (timer_running t)) t.
(** src/common/timer.c:152-155 [timer_arm] *)
Definition timer_trigger (event now : Z) (t : timers) : bool :=
  (le_hi event <? le_hi now) || ((le_hi event =? le_hi now) && (le_lo event <=? next_deadline t)).

(** The whole call; the second result says whether the interrupt is triggered. *)
(** src/common/timer.c:140-158 [timer_arm] *)
Definition timer_arm (event tskid now : Z) (t : timers) : ec_error * timers * bool :=
  match timer_store event tskid t with
  | None => (EC_ERROR_BUSY, t, false)
  | Some t => let t := timer_publish tskid t in (EC_SUCCESS, t, timer_trigger event now t)
  end.

(** src/common/timer.c:160-169 [timer_cancel] *)
Definition timer_cancel (tskid : Z) (t : timers) : timers :=
  set_running (clear_bit tskid (timer_running t)) t.

(** ** Busy waiting and setting the time *)

(** The readings of the counter after the first, [t0]; the number of them that
    the loop made, or [None] when they run out. *)
(** src/common/timer.c:117-134 [udelay] *)
Fixpoint udelay (us t0 : Z) (los : list Z) : option nat :=
  match los with
  | [] => None
  | lo :: los => if u32 (lo - t0) <=? us then S <$> udelay us t0 los else Some 1%nat
  end.

(** The timer interrupt is triggered after it; [lo] is what the counter is set
    to. *)
(** src/common/timer.c:283-311 [force_time] *)
Definition force_time (ts : Z) (t : timers) : timers * Z := (set_clksrc_high (le_hi ts) t, le_lo ts).

(** The value the counter starts from, given the time saved before a jump to
    this image. *)
(** src/common/timer.c:357-378 [timer_init] *)
Definition timer_init (ts : option Z) (t : timers) : timers * Z :=
  match ts with
  | Some ts => (set_clksrc_high (le_hi ts) t, le_lo ts)
  | None => (t, 0)
  end.

(** ** Words of a time *)

Lemma hi_lo val : val = timestamp (le_hi val) (le_lo val).
Proof. unfold timestamp, le_hi, le_lo, wrap. pose proof (Z.div_mod val (2 ^ 32)). lia. Qed.
Lemma hi_timestamp hi lo : in_range 32 lo -> le_hi (timestamp hi lo) = hi.
Proof. intros. unfold le_hi, timestamp, in_range in *. divlia. Qed.
Lemma lo_timestamp hi lo : in_range 32 lo -> le_lo (timestamp hi lo) = lo.
Proof.
  intros Hl. unfold le_lo, timestamp, wrap. rewrite Z.add_comm, Z_mod_plus_full. by apply wrap_id.
Qed.
Lemma lo_range val : in_range 32 (le_lo val).
Proof. by apply wrap_range. Qed.
(** Order is lexicographic. *)
Lemma time_lt a b : a < b <-> le_hi a < le_hi b \/ (le_hi a = le_hi b /\ le_lo a < le_lo b).
Proof.
  rewrite (hi_lo a) at 1. rewrite (hi_lo b) at 1. unfold timestamp.
  pose proof (lo_range a). pose proof (lo_range b). unfold in_range in *. nia.
Qed.
Lemma time_at_eq t lo : time_at t lo = timestamp (clksrc_high t) lo.
Proof. unfold time_at, get_time. by rewrite Z.eqb_refl. Qed.

(** ** Torn readings

    When the counter wraps, the interrupt adds one to the high word before the
    task goes on, so that at time [x] the words are those of [x]. *)

(** However the five readings of [get_time] fall around a wrap-around of the
    counter, as long as they are made within one turn of it, the result is a
    time between the first and the last of them. *)
Theorem get_time_between x1 x2 x3 x4 x5 :
  0 <= x1 -> x1 <= x2 -> x2 <= x3 -> x3 <= x4 -> x4 <= x5 -> x5 < x1 + 2 ^ 32 ->
  let ts := get_time (le_hi x1) (le_lo x2) (le_hi x3) (le_hi x4) (le_lo x5) in
  x1 <= ts <= x5.
Proof.
  intros H0 H1 H2 H3 H4 Hturn. cbv zeta. unfold get_time.
  assert (Hmono : forall a b, a <= b -> le_hi a <= le_hi b) by (intros; unfold le_hi; apply Z.div_le_mono; lia).
  pose proof (Hmono _ _ H1). pose proof (Hmono _ _ H2). pose proof (Hmono _ _ H3). pose proof (Hmono _ _ H4).
  assert (Hone : le_hi x5 <= le_hi x1 + 1).
  { transitivity (le_hi (x1 + 1 * 2 ^ 32)); [apply Hmono; lia|]. unfold le_hi. rewrite Z_div_plus_full by lia. lia. }
  destruct (Z.eqb_spec (le_hi x1) (le_hi x3)) as [E|E]; cbn [negb].
  - replace (le_hi x1) with (le_hi x2) by lia. rewrite <- hi_lo. lia.
  - replace (le_hi x4) with (le_hi x5) by lia. rewrite <- hi_lo. lia.
Qed.
Lemma get_time_between_witness :
  let ts := get_time (le_hi 0xfffffff0) (le_lo 0x100000002) (le_hi 0x100000003) (le_hi 0x100000004) (le_lo 0x100000005) in
  0xfffffff0 <= ts <= 0x100000005.
Proof.
  apply (get_time_between 0xfffffff0 0x100000002 0x100000003 0x100000004 0x100000005); lia.
Defined.

(** ** One look at the timers *)

Abbreviation deadline t i := (aget (timer_deadline t) i).

(** [t'] differs from [t] in the timers that run and in the event set. *)
Definition same_deadlines (t t' : timers) : Prop :=
  clksrc_high t' = clksrc_high t /\ timer_deadline t' = timer_deadline t.

(** What [check_one] makes of the timers [l] in turn. *)
Record looked (now : Z) (l : list Z) (t : timers) (woken : list Z) (next : Z)
    (t' : timers) (woken' : list Z) (next' : Z) : Prop := {
  lk_same : same_deadlines t t';
  lk_running : forall i, Z.testbit (timer_running t') i =
    Z.testbit (timer_running t) i && negb (bool_decide (i ∈ l) && (deadline t i <=? now));
  lk_woken : woken' = woken ++ List.filter (fun i => deadline t i <=? now) l;
  lk_next : next' = next \/ exists i, i ∈ l /\ next' = deadline t i /\ now < next' /\ le_hi next' = le_hi now;
  lk_le : le_lo next' <= le_lo next;
  lk_least : forall i, i ∈ l -> now < deadline t i -> le_hi (deadline t i) = le_hi now -> le_lo next' <= le_lo (deadline t i) }.

Lemma look l now : forall t woken next, Forall (fun i => 0 <= i) l ->
  let '(t', woken', next') := foldl (fun s i => check_one now i s) (t, woken, next) l in
  looked now l t woken next t' woken' next'.
Proof.
  induction l as [|i l IH]; intros t woken next Hpos; cbn [foldl].
  { split; [done| | |by left|lia|].
    - intros i. rewrite bool_decide_eq_false_2 by (by apply not_elem_of_nil). by rewrite andb_true_r.
    - by rewrite app_nil_r.
    - intros i Hi. by apply not_elem_of_nil in Hi. }
  inversion_clear Hpos as [|?? Hi Hpos']. rename Hpos' into Hpos. unfold check_one at 2. cbv zeta.
  destruct (Z.leb_spec (deadline t i) now) as [Hd|Hd].
  - cbn [expire_timer]. set (t1 := set_running _ t).
    specialize (IH t1 (woken ++ [i]) next Hpos). destruct (foldl _ _ l) as [[t' woken'] next'].
    destruct IH as [[E1 E2] Hr Hw Hn Hle Hleast].
    change (clksrc_high t1) with (clksrc_high t) in *. change (timer_deadline t1) with (timer_deadline t) in *.
    split; [done| | | |done|].
    + intros j. rewrite Hr. cbn [t1 timer_running set_running]. rewrite testbit_clear by done.
      destruct (Z.eqb_spec j i) as [->|Hne].
      * rewrite (bool_decide_eq_true_2 (i ∈ i :: l)) by set_solver.
        destruct (Z.leb_spec (deadline t i) now); [|lia]. cbn. by rewrite !andb_false_r.
      * cbn [negb]. rewrite andb_true_r. f_equal. f_equal. f_equal. apply bool_decide_ext. set_solver.
    + rewrite Hw. cbn [List.filter]. destruct (Z.leb_spec (deadline t i) now); [|lia]. by rewrite <- app_assoc.
    + destruct Hn as [|(j & Hj & ?)]; [by left|right]. exists j. split; [set_solver|done].
    + intros j [->|Hj]%elem_of_cons Hlt; [lia|]. by apply Hleast.
  - assert (Hcase : exists next1, (if (le_hi (deadline t i) =? le_hi now) && (le_lo (deadline t i) <? le_lo next)
        then (t, woken, deadline t i) else (t, woken, next)) = (t, woken, next1) /\
      (next1 = next \/ (next1 = deadline t i /\ le_hi next1 = le_hi now)) /\ le_lo next1 <= le_lo next /\
      (le_hi (deadline t i) = le_hi now -> le_lo next1 <= le_lo (deadline t i))).
    { destruct (Z.eqb_spec (le_hi (deadline t i)) (le_hi now)), (Z.ltb_spec (le_lo (deadline t i)) (le_lo next));
        cbn [andb]; eexists; (split; [done|]); split_and!; try lia; try (by left); by right. }
    destruct Hcase as (next1 & -> & Hn1 & Hle1 & Hi1).
    specialize (IH t woken next1 Hpos). destruct (foldl _ _ l) as [[t' woken'] next'].
    destruct IH as [Hs Hr Hw Hn Hle Hleast]. split; [done| | | |lia|].
    + intros j. rewrite Hr. f_equal. f_equal. destruct (Z.eqb_spec j i) as [->|Hne].
      * destruct (Z.leb_spec (deadline t i) now); [lia|]. by rewrite !andb_false_r.
      * f_equal. apply bool_decide_ext. set_solver.
    + rewrite Hw. cbn [List.filter]. by destruct (Z.leb_spec (deadline t i) now); [lia|].
    + destruct Hn as [->|(j & Hj & ?)]; [|right; exists j; split; [set_solver|done]].
      destruct Hn1 as [->|[-> ?]]; [by left|right]. exists i. split; [set_solver|done].
    + intros j [->|Hj]%elem_of_cons Hlt Hh; [specialize (Hi1 Hh); lia|]. by apply Hleast.
Qed.

(** A look at every running timer: those that have expired are stopped and
    woken, and [next] is the first of the others, if one ends before the
    counter wraps. *)
Record surveyed (now : Z) (t : timers) (woken : list Z) (t' : timers) (woken' : list Z) (next : Z) : Prop := {
  sv_same : same_deadlines t t';
  sv_range : in_range 32 (timer_running t');
  sv_running : forall i, Z.testbit (timer_running t') i = Z.testbit (timer_running t) i && (now <? deadline t i);
  sv_woken : exists new, woken' = woken ++ new /\ NoDup new /\
    forall i, i ∈ new <-> Z.testbit (timer_running t) i = true /\ deadline t i <= now;
  sv_next : next = no_deadline \/
    exists i, Z.testbit (timer_running t') i = true /\ next = deadline t i /\ le_hi next = le_hi now;
  sv_least : forall i, Z.testbit (timer_running t') i = true -> le_hi (deadline t i) = le_hi now ->
    le_lo next <= le_lo (deadline t i) }.

Lemma elem_rev_bits n m i : i ∈ rev (bits n m) <-> 0 <= i < n /\ Z.testbit m i = true.
Proof. by rewrite list_elem_of_In, <- in_rev, elem_bits. Qed.

Lemma survey now t woken :
  in_range 32 (timer_running t) ->
  exists t' woken' next, check_all 2 now (t, woken, no_deadline) = Some (t', woken', next) /\
    surveyed now t woken t' woken' next.
Proof.
  intros Hr. set (l := rev (bits 32 (timer_running t))).
  assert (Hl : forall i, i ∈ l <-> Z.testbit (timer_running t) i = true).
  { intros i. unfold l. rewrite elem_rev_bits. split; [by intros []|]. intros Ht. split; [|done].
    destruct (Z.neg_nonneg_cases i); [by rewrite Z.testbit_neg_r in Ht|].
    destruct (Z.lt_ge_cases i 32); [done|]. by rewrite (bits_above 32) in Ht. }
  assert (Hpos : Forall (fun i => 0 <= i) l).
  { apply Forall_forall. intros i Hi. apply list_elem_of_In, elem_rev_bits in Hi. lia. }
  pose proof (look l now t woken no_deadline Hpos) as H1.
  cbn [check_all]. cbn [fst]. rewrite while_fls_all by done. fold l. cbn [mbind option_bind].
  destruct (foldl _ _ l) as [[t' woken'] next]. cbn [fst].
  destruct H1 as [Hs Hrun Hw Hn Hle Hleast].
  assert (Hrun' : forall i, Z.testbit (timer_running t') i = Z.testbit (timer_running t) i && (now <? deadline t i)).
  { intros i. rewrite Hrun. destruct (Z.testbit (timer_running t) i) eqn:E; [|done]. cbn [andb].
    rewrite bool_decide_eq_true_2 by (by apply Hl). cbn [andb]. by rewrite <- Z.ltb_antisym. }
  assert (Hzero : Z.land (timer_running t') (Z.lnot (timer_running t)) = 0).
  { apply Z.bits_inj'. intros i Hi. rewrite Z.land_spec, Z.lnot_spec, Hrun', Z.bits_0 by done.
    destruct (Z.testbit (timer_running t) i); [by rewrite andb_false_r|done]. }
  unfold bool_of_Z. rewrite Hzero. cbn [negb Z.eqb]. exists t', woken', next. split; [done|].
  split; [done| |done| |..].
  - apply in_range_bits; [lia| |].
    + apply Z.bits_iff_nonneg_ex. exists 31. intros i Hi. by rewrite Hrun', (bits_above 32) by (done || lia).
    + intros i Hi. by rewrite Hrun', (bits_above 32) by (done || lia).
  - eexists. split; [exact Hw|]. split.
    + apply NoDup_ListNoDup, List.NoDup_filter. unfold l. apply List.NoDup_rev, nodup_bits.
    + intros i. rewrite list_elem_of_In, filter_In, <- list_elem_of_In, Hl. by rewrite Z.leb_le.
  - destruct Hn as [->|(i & Hi & -> & Hlt & Hh)]; [by left|right]. exists i. split_and!; [|done|done].
    rewrite Hrun'. apply Hl in Hi. rewrite Hi. lia.
  - intros i Hi Hh. rewrite Hrun' in Hi. apply andb_prop in Hi as [Hi Hlt]. apply Hleast; [by apply Hl|lia|done].
Qed.

(** What [process_timers] leaves when the last look was at the reading [lo1] and
    the last reading was [lo2]. *)
Record processed (t t' : timers) (woken : list Z) (lo1 lo2 : Z) : Prop := {
  pr_same : same_deadlines t t';
  pr_range : in_range 32 (timer_running t');
  pr_running : forall i, Z.testbit (timer_running t') i =
    Z.testbit (timer_running t) i && (time_at t lo1 <? deadline t i);
  pr_woken : NoDup woken /\
    forall i, i ∈ woken <-> Z.testbit (timer_running t) i = true /\ deadline t i <= time_at t lo1;
  pr_next : next_deadline t' = default 0xffffffff (hw_event t');
  pr_event : forall e, hw_event t' = Some e -> in_range 32 e /\ lo2 < e;
  pr_covered : forall i, Z.testbit (timer_running t') i = true -> le_hi (deadline t i) = clksrc_high t ->
    default 0xffffffff (hw_event t') <= le_lo (deadline t i) }.


Lemma surveyed_next now t woken t' woken' next :
  surveyed now t woken t' woken' next -> le_hi now < 2 ^ 32 - 1 ->
  (next = no_deadline /\ le_hi next = 0xffffffff) \/
  exists i, Z.testbit (timer_running t') i = true /\ next = deadline t i /\ now < next /\
            le_hi next = le_hi now /\ le_hi next <> 0xffffffff.
Proof.
  intros Hs Hh. destruct (sv_next _ _ _ _ _ _ Hs) as [->|(i & Hi & -> & E)]; [by left|right].
  exists i. pose proof Hi as Hi'. rewrite (sv_running _ _ _ _ _ _ Hs) in Hi'. split_and!; try done; lia.
Qed.

(** A turn that ends the loop. *)
Lemma surveyed_processed lo lo2 t woken t' woken' next e :
  in_range 32 lo -> lo <= lo2 ->
  surveyed (time_at t lo) t woken t' woken' next ->
  (e = None /\ next = no_deadline \/ e = Some (le_lo next) /\ lo2 < le_lo next) ->
  exists new, woken' = woken ++ new /\
    processed t (set_next (default 0xffffffff e) e t') new lo lo2.
Proof.
  intros Hlo Hle [Hs Hr Hrun (new & Ew & Hnd & Hnew) Hn Hleast] He.
  exists new. split; [done|]. split; try done.
  - intros x. destruct He as [[-> ->]|[-> Hlt]]; [done|]. intros [= <-]. split; [by apply wrap_range|done].
  - cbn [hw_event set_next timer_running]. intros i Hi Hh. rewrite time_at_eq, hi_timestamp in Hleast by done.
    specialize (Hleast i Hi Hh). by destruct He as [[-> ->]|[-> _]].
Qed.

Lemma surveyed_then now t woken t1 w1 next t' w2 new lo1 lo2 lo :
  now <= time_at t lo1 -> surveyed now t woken t1 w1 next ->
  processed (set_next (le_lo next) (Some (le_lo next)) t1) t' new lo1 lo2 -> w2 = w1 ++ new -> lo <= lo2 ->
  exists new', w2 = woken ++ new' /\ processed t t' new' lo1 lo2.
Proof.
  intros Hnow [[Es1 Es2] Hr1 Hrun1 (new0 & -> & Hnd0 & Hnew0) _ _] [[Ep1 Ep2] Hr Hrun [Hnd Hnew] Hn He Hc] -> Hlo.
  exists (new0 ++ new). split; [by rewrite app_assoc|].
  assert (Ht : forall x, time_at (set_next (le_lo next) (Some (le_lo next)) t1) x = time_at t x)
    by (intros x; rewrite !time_at_eq; cbn; by rewrite Es1).
  cbn [set_next timer_running timer_deadline clksrc_high] in *. rewrite Es1, Es2, Ht in *.
  split; [done|done| | |done|done|done].
  - intros i. rewrite Hrun, Hrun1. destruct (Z.testbit (timer_running t) i); [|done]. cbn [andb].
    destruct (Z.ltb_spec now (deadline t i)), (Z.ltb_spec (time_at t lo1) (deadline t i)); try done; lia.
  - split.
    + apply list.NoDup_app. split_and!; [done| |done]. intros i Hi Hi2. apply Hnew0 in Hi as [_ Hi].
      apply Hnew in Hi2 as [Hi2 _]. rewrite Hrun1 in Hi2. apply andb_prop in Hi2 as [_ ?]. lia.
    + intros i. rewrite elem_of_app, Hnew0, Hnew, Hrun1.
      destruct (Z.testbit (timer_running t) i); cbn [andb]; [|by split; [intros [[]|[]]|intros []]].
      split.
      * intros [[_ ?]|[_ ?]]; (split; [done|lia]).
      * intros [_ ?]. destruct (Z.ltb_spec now (deadline t i)); [by right|by left].
Qed.

Lemma process_turns_ok k : forall los t woken,
  in_range 32 (timer_running t) -> 0 <= clksrc_high t < 2 ^ 32 - 1 ->
  Forall (in_range 32) los -> StronglySorted Z.le los -> (2 * k + 1 <= length los)%nat ->
  (forall m, (forall i, Z.testbit m i = Z.testbit (timer_running t) i && (time_at t (hd 0 los) <? deadline t i)) ->
     count 32 m <= Z.of_nat k) ->
  exists t' new lo1 lo2, process_turns los t woken = Some (t', woken ++ new, lo2) /\
    processed t t' new lo1 lo2 /\ hd 0 los <= lo1 <= lo2 /\ lo2 ∈ los.
Proof.
  induction k as [k IH] using lt_wf_ind; intros los t woken Hr Hh Hlos Hsort Hlen Hk.
  destruct los as [|lo los]; [cbn in Hlen; lia|]. cbn [process_turns hd] in *.
  inversion_clear Hlos as [|?? Hlo Hlos']. inversion_clear Hsort as [|?? Hsort' Hle].
  destruct (survey (time_at t lo) t woken Hr) as (t1 & w1 & next & -> & Hsv). cbn [mbind option_bind].
  assert (Hnow : le_hi (time_at t lo) = clksrc_high t) by (by rewrite time_at_eq, hi_timestamp).
  destruct (surveyed_next _ _ _ _ _ _ Hsv ltac:(lia)) as [[-> Hmax]|(i & Hi & En & Hlt & Hhi & Hne)].
  { rewrite Hmax. cbn [Z.eqb Pos.eqb].
    destruct (surveyed_processed lo lo t woken t1 w1 no_deadline None Hlo ltac:(lia) Hsv ltac:(by left)) as (new & -> & Hp).
    exists (set_next 0xffffffff None t1), new, lo, lo. split_and!; [done|done|lia|lia|set_solver]. }
  rewrite (proj2 (Z.eqb_neq _ _) Hne).
  pose proof (bit_range 32 _ i ltac:(done) (sv_range _ _ _ _ _ _ Hsv) Hi) as Hi32.
  assert (Hpos : 0 < count 32 (timer_running t1)).
  { apply (count_pos _ _ i); done. }
  pose proof (Hk (timer_running t1) (sv_running _ _ _ _ _ _ Hsv)) as Hcount.
  destruct los as [|lo2 los]; [cbn in Hlen; lia|].
  inversion_clear Hlos' as [|?? Hlo2 Hlos]. inversion_clear Hsort' as [|?? Hsort Hle2].
  inversion_clear Hle as [|?? Hlole Hle1].
  set (t2 := set_next _ _ t1). assert (Ht2 : forall x, time_at t2 x = time_at t x).
  { intros x. rewrite !time_at_eq. cbn. by destruct (sv_same _ _ _ _ _ _ Hsv) as [-> _]. }
  rewrite Ht2. destruct (Z.leb_spec next (time_at t lo2)) as [Hpast|Hfuture].
  - (* the deadline went by meanwhile: look again *)
    destruct los as [|lo3 los]; [cbn in Hlen; lia|].
    destruct (IH (k - 1)%nat ltac:(lia) (lo3 :: los) t2 w1) as (t' & new & l1 & l2 & Eq & Hp & Hb & Hin).
    + apply Hsv.
    + unfold t2. cbn. by destruct (sv_same _ _ _ _ _ _ Hsv) as [-> _].
    + done.
    + done.
    + cbn [length] in *. lia.
    + intros m Hm. transitivity (count 32 (clear_bit i (timer_running t1))).
      * apply count_le. intros j Hj Hmj. rewrite Hm in Hmj. apply andb_prop in Hmj as [Hj1 Hj2].
        change (timer_running t2) with (timer_running t1) in Hj1. rewrite testbit_clear, Hj1 by lia. cbn [andb].
        destruct (Z.eqb_spec j i) as [->|]; [exfalso|done]. rewrite Ht2 in Hj2. cbn [hd] in Hj2.
        change (timer_deadline t2) with (timer_deadline t1) in Hj2.
        destruct (sv_same _ _ _ _ _ _ Hsv) as [_ Ed]. rewrite Ed, <- En in Hj2.
        rewrite !time_at_eq in *. unfold timestamp in *. inversion_clear Hle2. lia.
      * rewrite count_clear by done. lia.
    + destruct (surveyed_then (time_at t lo) t woken t1 w1 next t' (w1 ++ new) new l1 l2 lo) as (new' & E' & Hp').
      * rewrite !time_at_eq. unfold timestamp. cbn [hd] in Hb. inversion_clear Hle2. lia.
      * done.
      * done.
      * done.
      * cbn [hd] in Hb. inversion_clear Hle2. lia.
      * exists t', new', l1, l2. rewrite Eq, E'. cbn [hd] in Hb. inversion_clear Hle2.
        split_and!; [done|done|lia|lia|by do 2 (apply elem_of_cons; right)].
  - destruct (surveyed_processed lo lo2 t woken t1 w1 next (Some (le_lo next)) Hlo Hlole Hsv) as (new & -> & Hp).
    { right. split; [done|]. rewrite time_at_eq in Hfuture. rewrite (hi_lo next) in Hfuture.
      replace (le_hi next) with (clksrc_high t) in Hfuture by lia. unfold timestamp in Hfuture. lia. }
    exists t2, new, lo, lo2. split_and!; [done|done|lia|lia|set_solver].
Qed.

(** More readings than were made change nothing. *)
Lemma process_turns_more n : forall los t woken r more,
  (length los <= n)%nat -> process_turns los t woken = Some r -> process_turns (los ++ more) t woken = Some r.
Proof.
  induction n as [|n IH]; intros [|lo los] t woken r more Hn; cbn [process_turns app]; try done; cbn [length] in Hn; [lia|].
  destruct (check_all 2 _ _) as [[[t1 w1] next]|]; cbn [mbind option_bind]; [|done].
  destruct (_ =? _); [done|]. destruct los as [|lo2 los]; [done|]. cbn [app].
  destruct (_ <=? _); [|done]. apply IH. cbn [length] in Hn. lia.
Qed.

(** The timers after the high word took the wrap-around into account. *)
Definition counted (overflow : bool) (t : timers) : timers :=
  if overflow then set_clksrc_high (u32 (clksrc_high t + 1)) t else t.

(** C35. With enough readings of the counter, two for each running timer and one
    more, and as long as the counter does not wrap meanwhile, [process_timers]
    ends.  It has stopped, and woken once each, exactly the timers whose
    deadline was not after some reading; the event is set to come no later than
    any running timer of this turn of the counter and lies in the future, so
    that none is missed. *)
Theorem process_timers_correct overflow los t :
  in_range 32 (timer_running t) -> 0 <= clksrc_high (counted overflow t) < 2 ^ 32 - 1 ->
  Forall (in_range 32) los -> StronglySorted Z.le los ->
  2 * count 32 (timer_running t) + 1 <= Z.of_nat (length los) ->
  exists t' woken lo1 lo2, process_timers overflow los t = Some (t', woken, lo2) /\
    processed (counted overflow t) t' woken lo1 lo2 /\ hd 0 los <= lo1 <= lo2 /\ lo2 ∈ los.
Proof.
  intros Hr Hh Hlos Hsort Hlen.
  assert (Hk : forall m, (forall i, Z.testbit m i = Z.testbit (timer_running (counted overflow t)) i &&
      (time_at (counted overflow t) (hd 0 los) <? deadline (counted overflow t) i)) ->
      count 32 m <= Z.of_nat (Z.to_nat (count 32 (timer_running t)))).
  { intros m Hm. rewrite Z2Nat.id by apply count_nonneg. apply count_le. intros i Hi Hmi.
    rewrite Hm in Hmi. apply andb_prop in Hmi as [Hmi _]. by destruct overflow. }
  pose proof (count_nonneg 32 (timer_running t)).
  unfold process_timers. fold (counted overflow t).
  destruct (process_turns_ok (Z.to_nat (count 32 (timer_running t))) los (counted overflow t) []) as (t' & new & lo1 & lo2 & H1);
    [by destruct overflow|done..|lia|done|]. by exists t', new, lo1, lo2.
Qed.

Definition demo_timers : timers := Timers 0 (BIT 1 + BIT 3 + BIT 4) [0; 1000; 0; 1003; 5000] 1000 (Some 1000).
Lemma process_timers_correct_witness :
  exists t' woken lo1 lo2,
    process_timers false [1000; 1004; 1005; 1006; 1007; 1008; 1009] demo_timers = Some (t', woken, lo2) /\
    processed demo_timers t' woken lo1 lo2 /\ 1000 <= lo1 <= lo2 /\ lo2 ∈ [1000; 1004; 1005; 1006; 1007; 1008; 1009].
Proof.
  apply (process_timers_correct false).
  - by vm_compute.
  - by vm_compute.
  - apply Forall_in_range_b. by vm_compute.
  - repeat constructor; lia.
  - by vm_compute.
Defined.
Example process_timers_example :
  process_timers false [1000; 1004; 1005; 1006; 1007; 1008; 1009] demo_timers =
  Some (Timers 0 (BIT 4) [0; 1000; 0; 1003; 5000] 5000 (Some 5000), [1; 3], 1006).
Proof. by vm_compute. Qed.

(** ** A timer started across a wrap-around

    [timer_arm] compares the deadline with a time read before the timer is
    published.  When the counter wraps between the two, the interrupt does not
    see the timer, and the comparison, made with the old high word, takes the
    deadline for one of the next turn: the interrupt is not triggered, no event
    is set, and the timer is noticed only when the interrupt comes for another
    reason. *)
Definition torn_timers : timers := Timers 0 0 [0; 0] 0xffffffff None.
Example timer_arm_torn :
  let now := timestamp 0 0xfffffff0 in
  let event := timestamp 1 0x100 in
  (t ← timer_store event 1 torn_timers;
   '(t, woken, _) ← process_timers true [0; 1; 2] t;
   let t := timer_publish 1 t in
   Some (woken, timer_running t, hw_event t, clksrc_high t, timer_trigger event now t)) =
  Some ([], BIT 1, None, 1, false).
Proof. by vm_compute. Qed.
End Timer.
