(* ===== verification/Task.v ===== *)
(** * Tasks, events and mutexes (core/cortex-m/task.c)

    A preemptive scheduler of up to thirty tasks in a fixed order of priority,
    the highest number first, on one core.  A task waits for events; it is
    woken by [task_set_event] from a task or an interrupt, or by its timer
    (Timer.v).

    The state of the kernel has, for each task, the point it has reached in the
    kernel's code; one step of the current task is one atomic access to the
    shared state, and an interrupt may come between any two.  Clients are
    arbitrary: what a task does in its own code is a sequence of calls of the
    kernel.  [svc_handler] runs at the highest priority, so that it is one step,
    and so is an interrupt with all its handlers: tasks do not run in between.

    Task resets (CONFIG_TASK_RESET_LIST), profiling, the stacks and the switch of
    contexts itself, and the interrupt controller's registers are left out. *)

From S2P Require Import Prelude Bits Timer.
Import Bits Timer.

Module Task.

Definition TASK_ID_IDLE : Z := 0.
(** src/include/task.h:54-60 [TASK_EVENT_MUTEX] *)
Definition TASK_EVENT_MUTEX : Z := BIT 30.
Definition TASK_EVENT_TIMER : Z := BIT 31.

(** ** Where a task is *)

(** The caller of [task_wait_event_mask]: a client, or [mutex_lock]. *)
Inductive owner := Client | Locker (m : nat).
(** The caller of [__wait_evt] and its local variables: [task_wait_event], the
    loop of [task_wait_event_mask], or the loop of [crec_usleep]. *)
Inductive waiter :=
| WEvent
| WMask (mask evs deadline timeout : Z) (o : owner)
| WSleep (us evt t0 : Z).
(** The caller of [task_set_event]: a client, or the loop of [mutex_unlock] that
    has [ids] left to notify. *)
Inductive poster := PClient | PUnlock (ids : Z).

Inductive point :=
(* in its own code; [r] is what the last call returned *)
| Run (r : Z)
(* task_set_event: before the event is set, and before __schedule *)
| Post (t ev : Z) (p : poster)
| Sched (t : Z) (p : poster)
(* __wait_evt, with timer_arm inside it *)
| Wait (timeout : Z) (w : waiter)
| ArmRead (timeout deadline : Z) (w : waiter)
| ArmStore (timeout deadline now : Z) (w : waiter)
| ArmPublish (timeout deadline now : Z) (w : waiter)
| ArmTrigger (timeout deadline now : Z) (w : waiter)
| Take (timeout : Z) (w : waiter)
| Desched (timeout : Z) (w : waiter)
| Cancel (evt : Z) (w : waiter)
| ClearTimer (evt : Z) (w : waiter)
| Return (evt : Z) (w : waiter)
(* task_wait_event_mask and crec_usleep: before other events are posted again *)
| Repost (rest r : Z) (o : owner)
| SleepRepost (rest : Z)
(* mutex_lock, mutex_try_lock and mutex_unlock *)
| LockEnter (m : nat)
| TryLock (m : nat)
| Locked (m : nat)
| TryOnce (m : nat)
| Unlock (m : nat)
| Notify (ids : Z)
| ClearMutex.

(** [holds] are the mutexes that the task has locked; the code has no such
    record, it is what the task knows from where it is. *)
Record thread := Thread { at_point : point; holds : list nat }.
#[export] Instance thread_inhabited : Inhabited thread := populate (Thread (Run 0) []).

(** src/include/task.h:419-422 [struct mutex_nr] *)
Record mutex := Mutex { lock : Z; waiters : Z }.
#[export] Instance mutex_inhabited : Inhabited mutex := populate (Mutex 0 0).

(** ** The state

    The static variables, the interrupt mask, the hardware counter with the
    interrupts it has raised, and the tasks. *)
(** src/core/cortex-m/task.c:159-202 [tasks_ready] *)
Record kernel := Kernel {
  tasks_ready : Z;
  tasks_enabled : Z;
  events : list Z;
  current_task : Z;
  need_resched : bool;
  irq_enabled : bool;
  tm : timers;
  counter : Z;
  overflow : bool;
  timer_irq : bool;
  mutexes : list mutex;
  threads : list thread }.

Definition set_ready v s := Kernel v (tasks_enabled s) (events s) (current_task s) (need_resched s) (irq_enabled s)
  (tm s) (counter s) (overflow s) (timer_irq s) (mutexes s) (threads s).
Definition set_enabled v s := Kernel (tasks_ready s) v (events s) (current_task s) (need_resched s) (irq_enabled s)
  (tm s) (counter s) (overflow s) (timer_irq s) (mutexes s) (threads s).
Definition set_events v s := Kernel (tasks_ready s) (tasks_enabled s) v (current_task s) (need_resched s)
  (irq_enabled s) (tm s) (counter s) (overflow s) (timer_irq s) (mutexes s) (threads s).
Definition set_current v s := Kernel (tasks_ready s) (tasks_enabled s) (events s) v (need_resched s) (irq_enabled s)
  (tm s) (counter s) (overflow s) (timer_irq s) (mutexes s) (threads s).
Definition set_need_resched v s := Kernel (tasks_ready s) (tasks_enabled s) (events s) (current_task s) v
  (irq_enabled s) (tm s) (counter s) (overflow s) (timer_irq s) (mutexes s) (threads s).
Definition set_irq v s := Kernel (tasks_ready s) (tasks_enabled s) (events s) (current_task s) (need_resched s) v
  (tm s) (counter s) (overflow s) (timer_irq s) (mutexes s) (threads s).
Definition set_tm v s := Kernel (tasks_ready s) (tasks_enabled s) (events s) (current_task s) (need_resched s)
  (irq_enabled s) v (counter s) (overflow s) (timer_irq s) (mutexes s) (threads s).
Definition set_clock lo ovf irq s := Kernel (tasks_ready s) (tasks_enabled s) (events s) (current_task s)
  (need_resched s) (irq_enabled s) (tm s) lo ovf irq (mutexes s) (threads s).
Definition set_mutexes v s := Kernel (tasks_ready s) (tasks_enabled s) (events s) (current_task s) (need_resched s)
  (irq_enabled s) (tm s) (counter s) (overflow s) (timer_irq s) v (threads s).
Definition set_threads v s := Kernel (tasks_ready s) (tasks_enabled s) (events s) (current_task s) (need_resched s)
  (irq_enabled s) (tm s) (counter s) (overflow s) (timer_irq s) (mutexes s) v.

Definition ntasks s : Z := Z.of_nat (length (threads s)).
Definition point_of t s : point := at_point (aget (threads s) t).
Definition holds_of t s : list nat := holds (aget (threads s) t).
(** The current task goes on to another point. *)
Definition go (p : point) s : kernel :=
  set_threads (aset (threads s) (current_task s) (Thread p (holds_of (current_task s) s))) s.
Definition go_holding (p : point) (h : list nat) s : kernel :=
  set_threads (aset (threads s) (current_task s) (Thread p h)) s.
(** [atomic_or (&receiver->events, ev)] and [atomic_clear_bits]. *)
Definition or_events t ev s : kernel := set_events (aset (events s) t (Z.lor (aget (events s) t) ev)) s.
Definition clear_events t ev s : kernel :=
  set_events (aset (events s) t (Z.land (aget (events s) t) (Z.lnot ev))) s.
Definition mutex_of m s : mutex := mutexes s !!! m.
Definition set_mutex m v s : kernel := set_mutexes (<[m := v]> (mutexes s)) s.

(** The time as a task reads it; an interrupt that falls between the readings
    does not matter ([Timer.get_time_between]). *)
Definition now s : Z := time_at (tm s) (counter s).

(** ** Scheduling *)

(** [Crash] is a failed ASSERT; [Impossible] an action that cannot happen, or
    that breaks the rules a client has to keep. *)
Inductive outcome := Ok (s : kernel) | Crash | Impossible.
Definition assert_ok (r : option kernel) : outcome := match r with Some s => Ok s | None => Crash end.

(** src/core/cortex-m/task.c:273-352 [svc_handler] *)
Definition svc_handler (desched : bool) (resched : Z) s : option kernel :=
  let current := current_task s in
  let ready := if desched && (aget (events s) current =? 0) then clear_bit current (tasks_ready s)
               else tasks_ready s in
  if ntasks s <? resched then None
  else
    let ready := set_bit resched ready in
    let s := set_ready ready s in
    let runnable := Z.land ready (tasks_enabled s) in
    if runnable =? 0 then None
    else Some (set_current (__fls runnable) (set_need_resched false s)).

(** In interrupt context, or with interrupts disabled. *)
(** src/core/cortex-m/task.c:453-459 [task_set_event] *)
Definition make_ready t s : kernel := set_need_resched true (set_ready (set_bit t (tasks_ready s)) s).

(** src/core/cortex-m/task.c:444-463 [task_set_event] *)
Definition task_set_event_irq t ev s : kernel := make_ready t (or_events t ev s).

(** ** One step of the current task *)

Definition after_post (p : poster) : point :=
  match p with PClient => Run 0 | PUnlock ids => Notify ids end.
(** src/core/cortex-m/task.c:444-463 [task_set_event] *)
Definition set_event_step (p : point) s : outcome :=
  match p with
  | Post t ev p => Ok (go (Sched t p) (or_events t ev s))
  | Sched t p =>
    let s := go (after_post p) s in
    if irq_enabled s then assert_ok (svc_handler false t s) else Ok (make_ready t s)
  | _ => Impossible
  end.

(** The second argument of [__wait_evt] is TASK_ID_IDLE for every caller. *)
(** src/core/cortex-m/task.c:407-442 [__wait_evt] *)
Definition wait_evt_step (p : point) s : outcome :=
  let me := current_task s in
  match p with
  | Wait timeout w =>
    if negb (irq_enabled s) then Crash
    else if 0 <? timeout then Ok (go (ArmRead timeout (u64 (now s + timeout)) w) s)
    else Ok (go (Take timeout w) s)
  | ArmRead timeout deadline w => Ok (go (ArmStore timeout deadline (now s) w) s)
  | ArmStore timeout deadline now w =>
    match timer_store deadline me (tm s) with
    | None => Crash
    | Some t => Ok (go (ArmPublish timeout deadline now w) (set_tm t s))
    end
  | ArmPublish timeout deadline now w =>
    Ok (go (ArmTrigger timeout deadline now w) (set_tm (timer_publish me (tm s)) s))
  | ArmTrigger timeout deadline now w =>
    Ok (go (Take timeout w)
          (set_clock (counter s) (overflow s) (timer_irq s || timer_trigger deadline now (tm s)) s))
  | Take timeout w =>
    let evt := aget (events s) me in
    let s := set_events (aset (events s) me 0) s in
    if evt =? 0 then Ok (go (Desched timeout w) s)
    else if 0 <? timeout then Ok (go (Cancel evt w) s)
    else Ok (go (Return evt w) s)
  | Desched timeout w => assert_ok (svc_handler true TASK_ID_IDLE (go (Take timeout w) s))
  | Cancel evt w => Ok (go (ClearTimer evt w) (set_tm (timer_cancel me (tm s)) s))
  | ClearTimer evt w => Ok (go (Return evt w) (clear_events me TASK_EVENT_TIMER s))
  | _ => Impossible
  end.

Definition after_wait (o : owner) (r : Z) : point :=
  match o with Client => Run r | Locker m => TryLock m end.
(** The end of [task_wait_event_mask]: other events are posted again. *)
(** src/core/cortex-m/task.c:491-495 [task_wait_event_mask] *)
Definition mask_end (mask evs : Z) (o : owner) s : kernel :=
  let rest := Z.land evs (Z.lnot mask) in
  if bool_of_Z rest then go (Repost rest (Z.land evs mask) o) s
  else go (after_wait o (Z.land evs mask)) s.
(** [__wait_evt] has returned [evt]. *)
(** src/core/cortex-m/task.c:479-489 [task_wait_event_mask] *)
Definition mask_step (evt mask evs deadline timeout : Z) (o : owner) s : kernel :=
  let evs := Z.lor evs evt in
  let time_remaining_us := s32 (deadline - now s) in
  if (0 <? timeout) && (time_remaining_us <=? 0) then mask_end mask (Z.lor evs TASK_EVENT_TIMER) o s
  else if Z.land evs mask =? 0
  then go (Wait time_remaining_us (WMask mask evs deadline timeout o)) s
  else mask_end mask evs o s.
(** src/core/cortex-m/task.c:470-479 [task_wait_event_mask] *)
Definition mask_start (mask timeout : Z) (o : owner) s : point :=
  Wait timeout (WMask (Z.lor mask TASK_EVENT_TIMER) 0 (u64 (now s + timeout)) timeout o).

(** src/common/timer.c:219-230 [crec_usleep] *)
Definition sleep_step (evt us evt0 t0 : Z) s : kernel :=
  let evt := Z.lor evt0 evt in
  if (Z.land evt TASK_EVENT_TIMER =? 0) && (u32 (counter s - t0) <? us)
  then go (Wait (s32 us) (WSleep us evt t0)) s
  else go (SleepRepost (Z.land evt (Z.lnot TASK_EVENT_TIMER))) s.

Definition return_step (p : point) s : outcome :=
  match p with
  | Return evt WEvent => Ok (go (Run evt) s)
  | Return evt (WMask mask evs deadline timeout o) => Ok (mask_step evt mask evs deadline timeout o s)
  | Return evt (WSleep us evt0 t0) => Ok (sleep_step evt us evt0 t0 s)
  | Repost rest r o => Ok (go (after_wait o r) (or_events (current_task s) rest s))
  | SleepRepost rest => Ok (go (Run 0) (or_events (current_task s) rest s))
  | _ => Impossible
  end.

(** Whether the lock was free; it is then taken. *)
(** src/core/cortex-m/task.c:912-947 [mutex_try_lock] *)
Definition mutex_try_lock m s : bool * kernel :=
  if lock (mutex_of m s) =? 0 then (true, set_mutex m (Mutex 2 (waiters (mutex_of m s))) s) else (false, s).
(** src/core/cortex-m/task.c:882-910 [mutex_lock] *)
Definition mutex_lock_step (p : point) s : outcome :=
  let me := current_task s in
  let mine := holds_of me s in
  match p with
  | LockEnter m =>
    Ok (go (TryLock m) (set_mutex m (Mutex (lock (mutex_of m s)) (set_bit me (waiters (mutex_of m s)))) s))
  | TryLock m =>
    let '(taken, s) := mutex_try_lock m s in
    if taken then Ok (go_holding (Locked m) (m :: mine) s)
    else Ok (go (mask_start TASK_EVENT_MUTEX 0 (Locker m) s) s)
  | Locked m =>
    Ok (go (Run 0) (set_mutex m (Mutex (lock (mutex_of m s)) (clear_bit me (waiters (mutex_of m s)))) s))
  | TryOnce m =>
    let '(taken, s) := mutex_try_lock m s in
    if taken then Ok (go_holding (Run 1) (m :: mine) s) else Ok (go (Run 0) s)
  | _ => Impossible
  end.

(** src/core/cortex-m/task.c:949-973 [mutex_unlock] *)
Definition mutex_unlock_step (p : point) s : outcome :=
  let me := current_task s in
  match p with
  | Unlock m =>
    let ids := waiters (mutex_of m s) in
    Ok (go_holding (Notify ids) (List.filter (fun k => negb (k =? m)%nat) (holds_of me s))
          (set_irq true (set_mutex m (Mutex 0 ids) s)))
  | Notify ids =>
    if ids =? 0 then Ok (go ClearMutex s)
    else let id := __fls ids in Ok (go (Post id TASK_EVENT_MUTEX (PUnlock (clear_bit id ids))) s)
  | ClearMutex => Ok (go (Run 0) (clear_events me TASK_EVENT_MUTEX s))
  | _ => Impossible
  end.

Definition exec s : outcome :=
  let p := point_of (current_task s) s in
  match p with
  | Run _ => Impossible
  | Post _ _ _ | Sched _ _ => set_event_step p s
  | Return _ _ | Repost _ _ _ | SleepRepost _ => return_step p s
  | LockEnter _ | TryLock _ | Locked _ | TryOnce _ => mutex_lock_step p s
  | Unlock _ | Notify _ | ClearMutex => mutex_unlock_step p s
  | _ => wait_evt_step p s
  end.

(** ** Calls of a client *)

Inductive call :=
| CSetEvent (t ev : Z)
| CWaitEvent (timeout : Z)
| CWaitMask (mask timeout : Z)
| CUsleep (us : Z)
| CLock (m : nat)
| CTryLock (m : nat)
| CUnlock (m : nat)
| CDisableIrq
| CEnableIrq
| CEnableTask (t : Z)
| CDisableTask (t : Z)
| CEnableAll.

(** The rules: tasks and mutexes exist; a task does not block, nor unlock, with
    interrupts disabled; it unlocks what it has locked, and the idle task stays
    enabled. *)
Definition allowed (c : call) s : bool :=
  let task t := (0 <=? t) && (t <? ntasks s) in
  let mtx m := (m <? length (mutexes s))%nat in
  match c with
  | CSetEvent t ev => task t && (0 <=? ev) && (ev <? 2 ^ 32)
  | CWaitEvent timeout => irq_enabled s && (timeout <? 2 ^ 31)
  | CWaitMask mask timeout => irq_enabled s && (timeout <? 2 ^ 31) && (0 <=? mask) && (mask <? 2 ^ 32)
  | CUsleep us => irq_enabled s && (0 <=? us) && (us <? 2 ^ 32)
  | CLock m => irq_enabled s && mtx m
  | CTryLock m => mtx m
  | CUnlock m => irq_enabled s && mtx m && existsb (Nat.eqb m) (holds_of (current_task s) s)
  | CEnableTask t => task t
  | CDisableTask t => task t && negb (t =? TASK_ID_IDLE)
  | CEnableAll => irq_enabled s
  | CDisableIrq | CEnableIrq => true
  end.

(** src/core/cortex-m/task.c:498-505 [task_enable_all_tasks] *)
Definition task_enable_all_tasks s : outcome :=
  let all := BIT (ntasks s) - 1 in
  let s := set_enabled all (set_ready all s) in
  if irq_enabled s then assert_ok (svc_handler false TASK_ID_IDLE s) else Ok s.
(** src/core/cortex-m/task.c:507-510 [task_enable_task] *)
Definition task_enable_task t s : kernel := set_enabled (set_bit t (tasks_enabled s)) s.
(** src/core/cortex-m/task.c:512-515 [task_enabled] *)
Definition task_enabled t s : bool := has t (tasks_enabled s).
(** A task that disables itself goes on to __schedule (0, 0). *)
(** src/core/cortex-m/task.c:517-524 [task_disable_task] *)
Definition task_disable_task t s : kernel :=
  let s := set_enabled (clear_bit t (tasks_enabled s)) s in
  if irq_enabled s && (t =? current_task s) then go (Sched TASK_ID_IDLE PClient) s else go (Run 0) s.

Definition begin (c : call) s : outcome :=
  match c with
  | CSetEvent t ev => Ok (go (Post t ev PClient) s)
  | CWaitEvent timeout => Ok (go (Wait timeout WEvent) s)
  | CWaitMask mask timeout => Ok (go (mask_start mask timeout Client s) s)
  | CUsleep us => Ok (if us =? 0 then go (Run 0) s else go (Wait (s32 us) (WSleep us 0 (counter s))) s)
  | CLock m => Ok (go (LockEnter m) s)
  | CTryLock m => Ok (go (TryOnce m) s)
  | CUnlock m => Ok (go (Unlock m) s)
  | CDisableIrq => Ok (set_irq false s)
  | CEnableIrq => Ok (set_irq true s)
  | CEnableTask t => Ok (task_enable_task t s)
  | CDisableTask t => Ok (task_disable_task t s)
  | CEnableAll => task_enable_all_tasks s
  end.

(** ** Interrupts *)

(** What the handlers of one interrupt do: set an event, or serve the timer with
    the given readings of the counter, which does not wrap meanwhile. *)
Inductive handler := HEvent (t ev : Z) | HTimer (los : list Z).
Fixpoint rising (lo : Z) (los : list Z) : bool :=
  match los with
  | [] => true
  | x :: los => (lo <=? x) && (x <? 2 ^ 32) && rising x los
  end.
Definition expire (woken : list Z) s : kernel :=
  foldl (fun s t => task_set_event_irq t TASK_EVENT_TIMER s) s woken.
Definition handle (h : handler) s : outcome :=
  match h with
  | HEvent t ev =>
    if (0 <=? t) && (t <? ntasks s) && (0 <=? ev) && (ev <? 2 ^ 32) then Ok (task_set_event_irq t ev s) else Impossible
  | HTimer los =>
    if negb (rising (counter s) los) then Impossible
    else match process_timers (overflow s) los (tm s) with
         | None => Impossible
         | Some (t, woken, lo) => Ok (expire woken (set_clock lo false false (set_tm t s)))
         end
  end.
Fixpoint handle_all (l : list handler) s : outcome :=
  match l with
  | [] => Ok s
  | h :: l => match handle h s with Ok s => handle_all l s | r => r end
  end.
(** src/core/cortex-m/task.c:393-405 [task_resched_if_needed] *)
Definition task_resched_if_needed s : outcome :=
  if negb (need_resched s) then Ok s else assert_ok (svc_handler false TASK_ID_IDLE s).
Definition interrupt (l : list handler) s : outcome :=
  if negb (irq_enabled s) then Impossible
  else match handle_all l s with Ok s => task_resched_if_needed s | r => r end.

(** The counter advances by [dt], less than a turn; the hardware raises the
    timer interrupt when it reaches the event or wraps.  Interrupts are not
    disabled for a whole turn, and the 64-bit time does not run out. *)
Definition tick (dt : Z) s : outcome :=
  let lo := counter s + dt in
  let hit x := match hw_event (tm s) with Some e => (counter s <? e) && (e <=? x) | None => false end in
  if negb ((0 <? dt) && (dt <? 2 ^ 32)) then Impossible
  else if lo <? 2 ^ 32 then Ok (set_clock lo (overflow s) (timer_irq s || hit lo) s)
  else if overflow s || (2 ^ 31 <=? clksrc_high (tm s)) then Impossible
  else Ok (set_clock (lo - 2 ^ 32) true (timer_irq s || hit lo) s).

(** ** The whole *)

(** A pending timer interrupt is taken before the current task goes on, unless
    interrupts are disabled. *)
Definition interrupted s : bool := irq_enabled s && (overflow s || timer_irq s).

Inductive action := Exec | Call (c : call) | Irq (l : list handler) | Tick (dt : Z).
Definition step (a : action) s : outcome :=
  match a with
  | Exec => if interrupted s then Impossible else exec s
  | Call c =>
    match point_of (current_task s) s with
    | Run _ => if interrupted s || negb (allowed c s) then Impossible else begin c s
    | _ => Impossible
    end
  | Irq l => interrupt l s
  | Tick dt => tick dt s
  end.
Fixpoint steps (l : list action) s : outcome :=
  match l with
  | [] => Ok s
  | a :: l => match step a s with Ok s => steps l s | r => r end
  end.

(** What [task_start] finds, and the first switch, out of the scratchpad, to the
    hooks task; [n] tasks and [k] mutexes. *)
(** src/core/cortex-m/task.c:1087-1098 [task_start] *)
Definition task_start (n hooks : Z) (k : nat) : kernel :=
  Kernel (Z.lor (BIT hooks) (BIT TASK_ID_IDLE)) (Z.lor (BIT hooks) (BIT TASK_ID_IDLE)) (replicate (Z.to_nat n) 0) hooks
    false true (Timers 0 0 (replicate (Z.to_nat n) 0) 0xffffffff None) 0 false false
    (replicate k (Mutex 0 0)) (replicate (Z.to_nat n) (Thread (Run 0) [])).
End Task.
