(* ===== verification/TaskSafe.v ===== *)
(** * The scheduler never fails and never forgets an event

    Invariants of the kernel of Task.v that hold whatever the tasks do and
    however interrupts fall: the assertions of [svc_handler] and [__wait_evt]
    hold, and a task with an event is ready or about to be made so. *)

From Stdlib Require Import Sorting.Sorted.
From S2P Require Import Prelude Bits Timer Task.
Import Bits Timer Task.

Module TaskSafe.

(** ** Reading a state that was changed *)

Lemma aget_aset_eq `{Inhabited A} (l : list A) i v : 0 <= i < Z.of_nat (length l) -> aget (aset l i v) i = v.
Proof. intros. rewrite aget_aset by lia. by rewrite Z.eqb_refl. Qed.
Lemma aget_aset_ne `{Inhabited A} (l : list A) i j v :
  0 <= i < Z.of_nat (length l) -> 0 <= j -> j <> i -> aget (aset l i v) j = aget l j.
Proof. intros. rewrite aget_aset by lia. by rewrite (proj2 (Z.eqb_neq _ _)). Qed.

Ltac noirq s := let Hx := fresh in intros Hx; exfalso; change (irq_enabled s = false) in Hx; congruence.

(** The tasks, and the point each has reached. *)
Definition is_task t s : Prop := 0 <= t < ntasks s.

Section Frame.
Context (s : kernel) (Hcur : is_task (current_task s) s).

Lemma point_go p t : 0 <= t ->
  point_of t (go p s) = if t =? current_task s then p else point_of t s.
Proof.
  intros. unfold point_of, go. cbn [threads set_threads]. rewrite aget_aset by done.
  by destruct (t =? current_task s).
Qed.
Lemma holds_go p t : 0 <= t -> holds_of t (go p s) = holds_of t s.
Proof.
  intros. unfold holds_of at 1, go. cbn [threads set_threads]. rewrite aget_aset by done.
  by destruct (Z.eqb_spec t (current_task s)) as [->|].
Qed.
Lemma point_go_holding p h t : 0 <= t ->
  point_of t (go_holding p h s) = if t =? current_task s then p else point_of t s.
Proof.
  intros. unfold point_of, go_holding. cbn [threads set_threads]. rewrite aget_aset by done.
  by destruct (t =? current_task s).
Qed.
Lemma holds_go_holding p h t : 0 <= t ->
  holds_of t (go_holding p h s) = if t =? current_task s then h else holds_of t s.
Proof.
  intros. unfold holds_of, go_holding. cbn [threads set_threads]. rewrite aget_aset by done.
  by destruct (t =? current_task s).
Qed.
End Frame.
Lemma ntasks_go p s : ntasks (go p s) = ntasks s.
Proof. unfold ntasks, go. cbn. by rewrite length_aset. Qed.
Lemma ntasks_go_holding p h s : ntasks (go_holding p h s) = ntasks s.
Proof. unfold ntasks, go_holding. cbn. by rewrite length_aset. Qed.

(** ** Well-formed states *)

(** The arguments of a point make sense. *)
Definition mutex_ok m s : Prop := (m < length (mutexes s))%nat.
Definition owner_ok (o : owner) s : Prop := match o with Client => True | Locker m => mutex_ok m s end.
Definition waiter_ok (w : waiter) s : Prop := match w with WMask _ _ _ _ o => owner_ok o s | _ => True end.
Definition poster_ok (p : poster) s : Prop :=
  match p with PClient => True | PUnlock ids => in_range (ntasks s) ids end.
Definition point_ok (p : point) s : Prop :=
  match p with
  | Run _ | SleepRepost _ | ClearMutex => True
  | Post t _ p | Sched t p => is_task t s /\ poster_ok p s
  | ArmRead timeout _ w | ArmStore timeout _ _ w | ArmPublish timeout _ _ w | ArmTrigger timeout _ _ w =>
    0 < timeout /\ waiter_ok w s
  | Wait _ w | Take _ w | Desched _ w | Cancel _ w | ClearTimer _ w | Return _ w => waiter_ok w s
  | Repost _ _ o => owner_ok o s
  | LockEnter m | TryLock m | Locked m | TryOnce m | Unlock m => mutex_ok m s
  | Notify ids => in_range (ntasks s) ids
  end.

(** What a task may be doing with interrupts disabled. *)
Definition quiet (p : point) : Prop :=
  match p with Run _ | Post _ _ PClient | Sched _ PClient | TryOnce _ => True | _ => False end.

(** The points at which a task's timer may be running, and those at which its
    deadline is being stored. *)
Definition timed (p : point) : Prop :=
  match p with
  | ArmTrigger _ _ _ _ | Cancel _ _ => True
  | Take timeout _ | Desched timeout _ => 0 < timeout
  | _ => False
  end.

Record wf s : Prop := {
  wf_tasks : 2 <= ntasks s < 30;
  wf_events : Z.of_nat (length (events s)) = ntasks s;
  wf_deadlines : Z.of_nat (length (timer_deadline (tm s))) = ntasks s;
  wf_current : is_task (current_task s) s;
  wf_ready : in_range (ntasks s) (tasks_ready s);
  wf_enabled : in_range (ntasks s) (tasks_enabled s);
  wf_idle_ready : Z.testbit (tasks_ready s) TASK_ID_IDLE = true;
  wf_idle_enabled : Z.testbit (tasks_enabled s) TASK_ID_IDLE = true;
  wf_current_ready : Z.testbit (tasks_ready s) (current_task s) = true;
  wf_points : forall t, is_task t s -> point_ok (point_of t s) s;
  wf_waiters : forall m, in_range (ntasks s) (waiters (mutex_of m s));
  wf_quiet : irq_enabled s = false -> quiet (point_of (current_task s) s);
  wf_running : in_range (ntasks s) (timer_running (tm s));
  wf_timed : forall t, is_task t s -> Z.testbit (timer_running (tm s)) t = true -> timed (point_of t s);
  wf_clock : in_range 32 (counter s) /\ 0 <= clksrc_high (tm s) /\ clksrc_high (tm s) <= 2 ^ 31 /\
    (overflow s = true -> clksrc_high (tm s) < 2 ^ 31) }.

(** ** Changes that keep a state well formed *)

Lemma point_ok_ext p s s' :
  ntasks s' = ntasks s -> length (mutexes s') = length (mutexes s) -> point_ok p s -> point_ok p s'.
Proof.
  intros Hn Hm. destruct p; unfold point_ok, waiter_ok, owner_ok, poster_ok, is_task, mutex_ok; rewrite ?Hn, ?Hm; try done.
  all: repeat case_match; rewrite ?Hn, ?Hm; done.
Qed.

Lemma wf_go p s :
  wf s -> point_ok p s -> (irq_enabled s = false -> quiet p) ->
  (Z.testbit (timer_running (tm s)) (current_task s) = true -> timed p) -> wf (go p s).
Proof.
  intros [] Hp Hq Ht.
  assert (Hpt : forall t, is_task t s -> point_of t (go p s) = if t =? current_task s then p else point_of t s)
    by (intros t [? _]; by apply point_go).
  split; try done; unfold is_task in *; rewrite ?ntasks_go; try done.
  - intros t Ht'. rewrite Hpt by done. apply (point_ok_ext _ s); [apply ntasks_go|done|].
    destruct (t =? current_task s); [done|by apply wf_points0].
  - intros Hi. rewrite Hpt by done. cbn. rewrite Z.eqb_refl. by apply Hq.
  - intros t Ht' Hr. rewrite Hpt by done. destruct (Z.eqb_spec t (current_task s)) as [->|]; [by apply Ht|by apply wf_timed0].
Qed.
Lemma wf_go_holding p h s :
  wf s -> point_ok p s -> (irq_enabled s = false -> quiet p) ->
  (Z.testbit (timer_running (tm s)) (current_task s) = true -> timed p) -> wf (go_holding p h s).
Proof.
  intros [] Hp Hq Ht.
  assert (Hpt : forall t, is_task t s -> point_of t (go_holding p h s) = if t =? current_task s then p else point_of t s)
    by (intros t [? _]; by apply point_go_holding).
  split; try done; unfold is_task in *; rewrite ?ntasks_go_holding; try done.
  - intros t Ht'. rewrite Hpt by done. apply (point_ok_ext _ s); [apply ntasks_go_holding|done|].
    destruct (t =? current_task s); [done|by apply wf_points0].
  - intros Hi. rewrite Hpt by done. cbn. rewrite Z.eqb_refl. by apply Hq.
  - intros t Ht' Hr. rewrite Hpt by done. destruct (Z.eqb_spec t (current_task s)) as [->|]; [by apply Ht|by apply wf_timed0].
Qed.

Lemma wf_set_events l s : wf s -> length l = length (events s) -> wf (set_events l s).
Proof. intros [] Hl. split; try done. cbn. by rewrite Hl. Qed.
Lemma wf_or_events t ev s : wf s -> wf (or_events t ev s).
Proof. intros. apply wf_set_events; [done|apply length_aset]. Qed.
Lemma wf_clear_events t ev s : wf s -> wf (clear_events t ev s).
Proof. intros. apply wf_set_events; [done|apply length_aset]. Qed.

Lemma wf_set_ready r s :
  wf s -> in_range (ntasks s) r -> Z.testbit r TASK_ID_IDLE = true -> Z.testbit r (current_task s) = true ->
  wf (set_ready r s).
Proof. intros [] ???. by split. Qed.
Lemma wf_set_need b s : wf s -> wf (set_need_resched b s).
Proof. intros []. by split. Qed.
Lemma wf_make_ready t s : wf s -> is_task t s -> wf (make_ready t s).
Proof.
  intros Hs Ht. apply wf_set_need. apply wf_set_ready; [done| | |].
  - apply set_range; [done|apply Hs].
  - destruct Ht. rewrite testbit_set by done. by rewrite (wf_idle_ready _ Hs).
  - destruct Ht. rewrite testbit_set by done. by rewrite (wf_current_ready _ Hs).
Qed.
Lemma wf_set_irq_on s : wf s -> wf (set_irq true s).
Proof. intros []. by split. Qed.
Lemma wf_set_tm t s :
  wf s -> length (timer_deadline t) = length (timer_deadline (tm s)) -> in_range (ntasks s) (timer_running t) ->
  (forall i, Z.testbit (timer_running t) i = true -> Z.testbit (timer_running (tm s)) i = true) ->
  clksrc_high t = clksrc_high (tm s) -> wf (set_tm t s).
Proof.
  intros [] Hl Hr Hsub Hh. split; try done; cbn.
  - by rewrite Hl.
  - intros i Hi Ht. apply wf_timed0; [done|by apply Hsub].
  - by rewrite Hh.
Qed.
Lemma wf_set_irq_flag irq s : wf s -> wf (set_clock (counter s) (overflow s) irq s).
Proof. intros []. by split. Qed.
Lemma wf_set_mutex m v s : wf s -> in_range (ntasks s) (waiters v) -> wf (set_mutex m v s).
Proof.
  intros [] Hv.
  assert (Hl : length (mutexes (set_mutex m v s)) = length (mutexes s)) by (cbn; apply length_insert).
  split; try done; unfold is_task in *.
  - intros t Ht. by apply (point_ok_ext _ s), wf_points0.
  - intros k. unfold mutex_of, set_mutex. cbn [mutexes set_mutexes]. destruct (decide (k = m)) as [->|].
    + destruct (decide (m < length (mutexes s))%nat).
      * by rewrite list_lookup_total_insert_eq.
      * rewrite list_insert_ge by lia. apply wf_waiters0.
    + rewrite list_lookup_total_insert_ne by done. apply wf_waiters0.
Qed.

(** ** The scheduler *)

Definition ready_after (desched : bool) (resched : Z) s : Z :=
  set_bit resched (if desched && (aget (events s) (current_task s) =? 0)
                   then clear_bit (current_task s) (tasks_ready s) else tasks_ready s).
Definition switched (desched : bool) (resched : Z) s : kernel :=
  let r := ready_after desched resched s in
  set_current (__fls (Z.land r (tasks_enabled s))) (set_need_resched false (set_ready r s)).

(** The task that [svc_handler] switches to is ready, enabled and the highest
    such. *)
Lemma svc_switched desched resched s :
  wf s -> is_task resched s -> (desched = true -> resched = TASK_ID_IDLE) ->
  let t := switched desched resched s in
  svc_handler desched resched s = Some t /\
  in_range (ntasks s) (tasks_ready t) /\ Z.testbit (tasks_ready t) TASK_ID_IDLE = true /\
  is_task (current_task t) s /\
  Z.testbit (tasks_ready t) (current_task t) = true /\ Z.testbit (tasks_enabled s) (current_task t) = true /\
  (forall i, Z.testbit (tasks_ready t) i = true -> Z.testbit (tasks_enabled s) i = true -> i <= current_task t).
Proof.
  intros Hs Hr Hd. cbv zeta. pose proof Hs as [[Hn1 Hn2] _ _ Hc Hrdy Hen Hir Hie _ _ _ _ _ _ _].
  set (r := ready_after desched resched s).
  assert (Hrange : in_range (ntasks s) r).
  { apply set_range; [done|]. case_match; [|done]. apply clear_range; [lia|apply Hc|done]. }
  assert (Hidle : Z.testbit r TASK_ID_IDLE = true).
  { unfold r, ready_after. destruct Hr. rewrite testbit_set by done. destruct desched.
    - rewrite Hd by done. apply orb_true_r.
    - cbn [andb]. by rewrite Hir. }
  set (run := Z.land r (tasks_enabled s)).
  assert (Hrun : forall i, Z.testbit run i = Z.testbit r i && Z.testbit (tasks_enabled s) i) by (intros; apply Z.land_spec).
  assert (Hpos : 0 < run).
  { assert (0 <= run) by (apply Z.land_nonneg; left; apply Hrange).
    destruct (Z.eq_dec run 0) as [E|]; [|lia]. specialize (Hrun TASK_ID_IDLE).
    by rewrite Hidle, Hie, E, Z.bits_0 in Hrun. }
  assert (Hfls : Z.testbit run (__fls run) = true) by by apply fls_bit.
  rewrite Hrun in Hfls. apply andb_prop in Hfls as [Hf1 Hf2].
  split_and!; try done.
  - unfold svc_handler. destruct Hr. destruct (Z.ltb_spec (ntasks s) resched); [lia|]. cbv zeta.
    fold (ready_after desched resched s). fold r. cbn [tasks_enabled set_ready]. fold run.
    destruct (Z.eqb_spec run 0); [lia|done].
  - split; [apply Z.log2_nonneg|]. apply fls_range; [done|]. apply land_range; [lia|done|]. apply Hen.
  - intros i H1 H2. apply fls_max; [done|]. change (Z.testbit run i = true).
    change (Z.testbit r i = true) in H1. by rewrite Hrun, H1, H2.
Qed.
Lemma wf_switched desched resched s :
  wf s -> is_task resched s -> (desched = true -> resched = TASK_ID_IDLE) -> irq_enabled s = true ->
  wf (switched desched resched s).
Proof.
  intros Hs Hr Hd Hi. destruct (svc_switched desched resched s Hs Hr Hd) as (_ & H1 & H2 & H3 & H4 & H5 & _).
  destruct Hs. split; try done. cbn. by rewrite Hi.
Qed.

(** ** Steps keep a state well formed, and no assertion fails *)

Definition results (P : kernel -> Prop) (r : outcome) : Prop :=
  match r with Ok s => P s | Crash => False | Impossible => True end.
Lemma results_svc P desched resched s :
  wf s -> is_task resched s -> (desched = true -> resched = TASK_ID_IDLE) ->
  P (switched desched resched s) -> results P (assert_ok (svc_handler desched resched s)).
Proof. intros Hs Hr Hd HP. by destruct (svc_switched desched resched s Hs Hr Hd) as [-> _]. Qed.
Lemma idle_task s : wf s -> is_task TASK_ID_IDLE s.
Proof. intros []. unfold is_task, TASK_ID_IDLE. lia. Qed.
Lemma wf_point s : wf s -> point_ok (point_of (current_task s) s) s.
Proof. intros Hs. apply Hs, Hs. Qed.
Lemma wf_irq s p : wf s -> point_of (current_task s) s = p -> ~ quiet p -> irq_enabled s = true.
Proof.
  intros Hs E Hq. destruct (irq_enabled s) eqn:Ei; [done|]. pose proof (wf_quiet _ Hs Ei) as H. by rewrite E in H.
Qed.
Lemma wf_idle_timer s p : wf s -> point_of (current_task s) s = p -> ~ timed p ->
  Z.testbit (timer_running (tm s)) (current_task s) = false.
Proof.
  intros Hs E Ht. destruct (Z.testbit _ _) eqn:Er; [|done].
  pose proof (wf_timed _ Hs _ (wf_current _ Hs) Er) as H. by rewrite E in H.
Qed.

Section Exec.
Context (s : kernel) (Hs : wf s).

(** Going on from a point where the timer is not running. *)
Lemma wf_on p q u :
  wf u -> point_of (current_task s) s = p -> ~ timed p -> timer_running (tm u) = timer_running (tm s) ->
  current_task u = current_task s -> point_ok q u -> (irq_enabled u = false -> quiet q) -> wf (go q u).
Proof.
  intros Hu E Ht Er Ec Hq Hi. apply wf_go; [done|done|done|]. rewrite Er, Ec.
  by rewrite (wf_idle_timer s p).
Qed.

Lemma wf_sched t p : point_of (current_task s) s = Sched t p -> wf (go (after_post p) s).
Proof.
  intros E. pose proof (wf_point s Hs) as Hok. rewrite E in Hok. destruct Hok as [_ Hpost].
  apply (wf_on (Sched t p)); [done|done|by intros []|done|done|by destruct p|].
  intros Hi. pose proof (wf_quiet _ Hs Hi) as Hq. rewrite E in Hq. by destruct p.
Qed.
Lemma exec_set_event p :
  point_of (current_task s) s = p -> match p with Post _ _ _ | Sched _ _ => True | _ => False end ->
  results wf (set_event_step p s).
Proof.
  intros E Hp. pose proof (wf_point s Hs) as Hok. rewrite E in Hok.
  destruct p as [|t ev p|t p|timeout w|timeout d w|timeout d n w|timeout d n w|timeout d n w|timeout w|timeout w
    |evt w|evt w|evt w|rest r o|rest|m|m|m|m|m|ids|]; try done; destruct Hok as [Ht Hpost]; cbn [set_event_step results].
  - apply (wf_on (Post t ev p)); [by apply wf_or_events|done|by intros []|done|done|done|].
    intros Hi. pose proof (wf_quiet _ Hs Hi) as Hq. by rewrite E in Hq.
  - assert (Hg : wf (go (after_post p) s)) by (by apply (wf_sched t)).
    cbv zeta. destruct (irq_enabled _) eqn:Ei.
    + apply results_svc; [done|by unfold is_task; rewrite ntasks_go|done|]. apply wf_switched; [done| |done|done].
      by unfold is_task; rewrite ntasks_go.
    + apply wf_make_ready; [done|]. by unfold is_task; rewrite ntasks_go.
Qed.


Lemma wf_or_irq (b : bool) u : wf u -> wf (set_clock (counter u) (overflow u) b u).
Proof. apply wf_set_irq_flag. Qed.

Lemma exec_wait p :
  point_of (current_task s) s = p ->
  match p with Wait _ _ | ArmRead _ _ _ | ArmStore _ _ _ _ | ArmPublish _ _ _ _ | ArmTrigger _ _ _ _ | Take _ _
             | Desched _ _ | Cancel _ _ | ClearTimer _ _ => True | _ => False end ->
  results wf (wait_evt_step p s).
Proof.
  intros E Hp. pose proof (wf_point s Hs) as Hok. rewrite E in Hok.
  assert (Hirq : irq_enabled s = true) by (apply (wf_irq s p Hs E); clear E; destruct p; done || by intros []).
  pose proof (wf_current _ Hs) as [Hc1 Hc2].
  assert (Hrun := wf_timed _ Hs _ (wf_current _ Hs)). rewrite E in Hrun.
  assert (Hevents : forall l, length l = length (events s) -> wf (set_events l s)) by (intros; by apply wf_set_events).
  destruct p as [|t ev p|t p|timeout w|timeout d w|timeout d n w|timeout d n w|timeout d n w|timeout w|timeout w
    |evt w|evt w|evt w|rest r o|rest|m|m|m|m|m|ids|]; try done; cbn [wait_evt_step point_ok] in *.
  - rewrite Hirq. cbn [negb]. destruct (Z.ltb_spec 0 timeout); cbn [results];
      apply wf_go; (done || by noirq s || by intros []%Hrun).
  - cbn [results]. apply wf_go; (done || by noirq s || by intros []%Hrun).
  - unfold timer_store. rewrite has_testbit by done.
    rewrite (wf_idle_timer s _ Hs E) by by intros []. cbn [results].
    apply wf_go; [|by apply (point_ok_ext _ s)|noirq s|by intros []%Hrun].
    apply wf_set_tm; [done|apply length_aset|apply Hs|done|done].
  - cbn [results]. change (wf (set_tm (timer_publish (current_task s) (tm s)) (go (ArmTrigger timeout d n w) s))).
    assert (Hg : wf (go (ArmTrigger timeout d n w) s)) by (apply wf_go; done || by noirq s).
    destruct Hg. split; try done; cbn [tm set_tm timer_running timer_publish set_running].
    + change (ntasks (set_tm _ ?u)) with (ntasks u). rewrite ntasks_go. apply set_range; [done|apply Hs].
    + intros t Ht. rewrite testbit_set by done. intros [Hr|He]%orb_prop; [by apply wf_timed0|].
      change (timed (point_of t (go (ArmTrigger timeout d n w) s))). destruct Ht as [Ht _].
      by rewrite point_go, He.
  - destruct Hok as [Hto Hok]. cbn [results]. apply wf_go; [by apply wf_set_irq_flag|by apply (point_ok_ext _ s)|noirq s|done].
  - assert (Hw : wf (set_events (aset (events s) (current_task s) 0) s)) by (apply Hevents, length_aset).
    cbv zeta. destruct (_ =? 0); [|destruct (Z.ltb_spec 0 timeout)]; cbn [results]; apply wf_go; try done; try noirq s;
      try (by apply (point_ok_ext _ s)).
    intros Hr. specialize (Hrun Hr). cbn in Hrun. lia.
  - assert (Hg : wf (go (Take timeout w) s)) by (apply wf_go; done || by noirq s).
    apply results_svc; [done|by apply idle_task|done|]. apply wf_switched; [done|by apply idle_task|done|done].
  - cbn [results]. apply wf_go; [|by apply (point_ok_ext _ s)|noirq s|].
    + apply wf_set_tm; [done|done|apply clear_range; [destruct (wf_tasks _ Hs); lia|done|apply Hs]| |done].
      intros i. cbn. rewrite testbit_clear by done. by intros []%andb_prop.
    + cbn. rewrite testbit_clear by done. rewrite Z.eqb_refl, andb_false_r. done.
  - cbn [results]. apply wf_go; [by apply wf_clear_events|by apply (point_ok_ext _ s)|noirq s|by intros []%Hrun].
Qed.

Lemma wf_after_wait o r u : owner_ok o u -> point_ok (after_wait o r) u.
Proof. by destruct o. Qed.
Lemma exec_return p :
  point_of (current_task s) s = p -> match p with Return _ _ | Repost _ _ _ | SleepRepost _ => True | _ => False end ->
  results wf (return_step p s).
Proof.
  intros E Hp. pose proof (wf_point s Hs) as Hok. rewrite E in Hok.
  assert (Hirq : irq_enabled s = true) by (apply (wf_irq s p Hs E); clear E; destruct p; done || by intros []).
  assert (Hrun := wf_timed _ Hs _ (wf_current _ Hs)). rewrite E in Hrun.
  assert (Hgo : forall q, ~ timed p -> point_ok q s -> wf (go q s)) by (intros q Hnt Hq; apply wf_go; [done|done|noirq s|intros Hr; by destruct (Hnt (Hrun Hr))]).
  destruct p as [|t ev p|t p|timeout w|timeout d w|timeout d n w|timeout d n w|timeout d n w|timeout w|timeout w
    |evt w|evt w|evt w|rest r o|rest|m|m|m|m|m|ids|]; try done; cbn [return_step point_ok] in *.
  - assert (Hend : forall evs mask o, owner_ok o s -> wf (mask_end mask evs o s)).
    { intros evs mask o Ho. unfold mask_end. cbv zeta. case_match; apply Hgo; try by intros []. all: try done. by apply wf_after_wait. }
    destruct w as [|mask evs deadline timeout o|us evt0 t0]; cbn [results].
    + by apply Hgo; [intros []|].
    + unfold mask_step. cbv zeta. destruct (_ && _); [by apply Hend|]. destruct (_ =? 0); [|by apply Hend].
      by apply Hgo; [intros []|].
    + unfold sleep_step. cbv zeta. destruct (_ && _); by apply Hgo; [intros []|].
  - cbn [results]. apply wf_go; [by apply wf_or_events|by apply (point_ok_ext _ s), wf_after_wait|noirq s|by intros []%Hrun].
  - cbn [results]. apply wf_go; [by apply wf_or_events|done|noirq s|by intros []%Hrun].
Qed.

Lemma exec_mutex p :
  point_of (current_task s) s = p ->
  match p with LockEnter _ | TryLock _ | Locked _ | TryOnce _ | Unlock _ | Notify _ | ClearMutex => True | _ => False end ->
  results wf (exec s).
Proof.
  intros E Hp. pose proof (wf_point s Hs) as Hok. rewrite E in Hok.
  assert (Hrun := wf_timed _ Hs _ (wf_current _ Hs)). rewrite E in Hrun.
  assert (Hnt : ~ timed p) by (clear E Hrun; destruct p; done || by intros []).
  assert (Hq : forall q u, irq_enabled u = irq_enabled s -> ~ quiet p -> irq_enabled u = false -> quiet q).
  { intros q u Eu Hn Hi. exfalso. rewrite Eu in Hi. pose proof (wf_quiet _ Hs Hi) as H. by rewrite E in H. }
  pose proof (wf_current _ Hs) as [Hc1 Hc2].
  assert (Htry : forall m, wf (mutex_try_lock m s).2 /\ irq_enabled (mutex_try_lock m s).2 = irq_enabled s /\
    tm (mutex_try_lock m s).2 = tm s /\ current_task (mutex_try_lock m s).2 = current_task s /\
    (forall q, point_ok q s -> point_ok q (mutex_try_lock m s).2)).
  { intros m. unfold mutex_try_lock. destruct (_ =? 0); cbn [snd]; [|done]. split_and!; try done.
    - apply wf_set_mutex; [done|]. apply Hs.
    - intros q. apply point_ok_ext; [done|]. apply length_insert. }
  unfold exec. cbv zeta. rewrite E.
  destruct p as [|t ev p|t p|timeout w|timeout d w|timeout d n w|timeout d n w|timeout d n w|timeout w|timeout w
    |evt w|evt w|evt w|rest r o|rest|m|m|m|m|m|ids|]; try done;
    cbn [mutex_lock_step mutex_unlock_step point_ok timed quiet] in *.
  - cbn [results]. apply wf_go; [|by apply (point_ok_ext _ s); [|apply length_insert|]|by apply Hq; [|intros []]|by intros []%Hrun].
    apply wf_set_mutex; [done|]. cbn [waiters]. apply set_range; [done|apply Hs].
  - specialize (Htry m). destruct (mutex_try_lock m s) as [[] u]; cbn [snd] in Htry; destruct Htry as (Hu & Eu & Et & Ec & Hpo); cbn [results].
    + apply wf_go_holding; [done|by apply Hpo|by apply Hq; [|intros []]|rewrite Et, Ec; by intros []%Hrun].
    + apply wf_go; [done|by apply Hpo|by apply Hq; [|intros []]|rewrite Et, Ec; by intros []%Hrun].
  - cbn [results]. apply wf_go; [|done|by apply Hq; [|intros []]|by intros []%Hrun].
    apply wf_set_mutex; [done|]. cbn [waiters]. apply clear_range; [lia|done|apply Hs].
  - specialize (Htry m). destruct (mutex_try_lock m s) as [[] u]; cbn [snd] in Htry; destruct Htry as (Hu & Eu & Et & Ec & Hpo); cbn [results].
    + apply wf_go_holding; [done|done|done|rewrite Et, Ec; by intros []%Hrun].
    + apply wf_go; [done|done|done|rewrite Et, Ec; by intros []%Hrun].
  - cbn [results]. apply wf_go_holding; [|by apply Hs|done|by intros []%Hrun].
    apply wf_set_irq_on, wf_set_mutex; [done|]. apply Hs.
  - destruct (Z.eqb_spec ids 0); cbn [results]; (apply wf_go; [done| |by apply Hq; [|intros []]|by intros []%Hrun]); [done|].
    assert (0 < ids) by (destruct Hok; lia). pose proof (fls_range _ ids ltac:(done) Hok). split; [done|].
    apply clear_range; [lia..|done].
  - cbn [results]. apply wf_go; [by apply wf_clear_events|done|by apply Hq; [|intros []]|by intros []%Hrun].
Qed.

Lemma exec_wf : results wf (exec s).
Proof.
  remember (point_of (current_task s) s) as p eqn:E. symmetry in E.
  pose proof (exec_set_event p E) as H1. pose proof (exec_wait p E) as H2.
  pose proof (exec_return p E) as H3. pose proof (exec_mutex p E) as H4.
  unfold exec in *. cbv zeta in *. rewrite E in *. destruct p; auto; done.
Qed.
End Exec.

(** ** Interrupts *)

Lemma rising_spec los : forall lo, 0 <= lo -> rising lo los = true ->
  Forall (in_range 32) los /\ StronglySorted Z.le los /\ Forall (Z.le lo) los.
Proof.
  induction los as [|x los IH]; intros lo Hlo Hr; [by repeat constructor|]. cbn in Hr.
  apply andb_prop in Hr as [[H1 H2]%andb_prop Hr]. apply Z.leb_le in H1. apply Z.ltb_lt in H2.
  destruct (IH x ltac:(lia) Hr) as (Ha & Hb & Hc). split_and!.
  - constructor; [by split; [lia|]|done].
  - by constructor.
  - constructor; [done|]. eapply List.Forall_impl; [|exact Hc]. intros; lia.
Qed.

(** What the timer interrupt does, whether or not the readings are many. *)
Lemma timers_result ov lo los t t' woken lo2 :
  in_range 32 (timer_running t) -> 0 <= clksrc_high (counted ov t) < 2 ^ 32 - 1 -> in_range 32 lo ->
  rising lo los = true -> process_timers ov los t = Some (t', woken, lo2) ->
  exists lo1, processed (counted ov t) t' woken lo1 lo2 /\ lo <= lo1 <= lo2 /\ in_range 32 lo2.
Proof.
  intros Hr Hh Hlo Hlos Heq. destruct (rising_spec los lo ltac:(apply Hlo) Hlos) as (Ha & Hb & Hc).
  set (k := Z.to_nat (2 * count 32 (timer_running t) + 1)). set (top := 2 ^ 32 - 1).
  assert (Hpad : Forall (in_range 32) (los ++ replicate k top)).
  { apply Forall_app_2; [done|]. by apply Forall_replicate. }
  assert (Hsort : StronglySorted Z.le (los ++ replicate k top)).
  { clear -Ha Hb. induction Hb as [|x l Hb IH Hx]; cbn [app].
    - induction k as [|k IH]; [constructor|]. cbn [replicate]. constructor; [done|]. by apply Forall_replicate.
    - inversion_clear Ha as [|?? Hx' Ha']. constructor; [by apply IH|]. apply Forall_app_2; [done|].
      apply Forall_replicate. destruct Hx'. unfold top. lia. }
  destruct (process_timers_correct ov (los ++ replicate k top) t Hr Hh Hpad Hsort) as (u & w & l1 & l2 & Eq & Hp & Hl & Hin).
  { rewrite length_app, length_replicate. pose proof (count_nonneg 32 (timer_running t)). lia. }
  assert (Hmore : process_timers ov (los ++ replicate k top) t = Some (t', woken, lo2)).
  { unfold process_timers in *. by apply (process_turns_more (length los)). }
  rewrite Hmore in Eq. injection Eq as -> -> ->. exists l1. split; [done|]. split.
  - destruct los as [|x los]; [done|]. cbn [app hd] in Hl. inversion_clear Hc. lia.
  - rewrite List.Forall_forall in Hpad. by apply Hpad, list_elem_of_In.
Qed.

Lemma wf_set_event_irq t ev s : wf s -> is_task t s -> wf (task_set_event_irq t ev s).
Proof. intros Hs Ht. apply wf_make_ready; [by apply wf_or_events|done]. Qed.
Lemma ntasks_expire woken s : ntasks (expire woken s) = ntasks s.
Proof. unfold expire. revert s. induction woken as [|t l IH]; intros s; [done|]. cbn [foldl]. by rewrite IH. Qed.
Lemma wf_expire woken : forall s, Forall (fun t => is_task t s) woken -> wf s -> wf (expire woken s).
Proof.
  induction woken as [|t l IH]; intros s Hl Hs; [done|]. inversion_clear Hl as [|?? Ht Hl'].
  cbn [expire foldl]. apply IH; [done|by apply wf_set_event_irq].
Qed.

Lemma wf_counted s :
  wf s -> 0 <= clksrc_high (counted (overflow s) (tm s)) <= 2 ^ 31 /\
  timer_deadline (counted (overflow s) (tm s)) = timer_deadline (tm s) /\
  timer_running (counted (overflow s) (tm s)) = timer_running (tm s) /\
  clksrc_high (counted (overflow s) (tm s)) = clksrc_high (tm s) + Z.b2z (overflow s).
Proof.
  intros Hs. destruct (wf_clock _ Hs) as (_ & Hlow & Hmax & Hov). unfold counted. destruct (overflow s); cbn.
  - specialize (Hov eq_refl). rewrite wrap_id by (unfold in_range; lia). split_and!; try done; lia.
  - split_and!; try done; lia.
Qed.
Lemma running_range s : wf s -> in_range 32 (timer_running (tm s)).
Proof.
  intros Hs. destruct (wf_tasks _ Hs). destruct (wf_running _ Hs) as [Hr0 Hr1]. split; [done|].
  pose proof (Z.pow_le_mono_r 2 (ntasks s) 32). lia.
Qed.

(** What is known of a state after the timer interrupt's handler. *)
Lemma timer_handled s los t woken lo :
  wf s -> rising (counter s) los = true -> process_timers (overflow s) los (tm s) = Some (t, woken, lo) ->
  exists lo1, processed (counted (overflow s) (tm s)) t woken lo1 lo /\ counter s <= lo1 <= lo /\ in_range 32 lo /\
    Forall (fun i => is_task i s) woken /\ wf (set_clock lo false false (set_tm t s)).
Proof.
  intros Hs Hr Heq. destruct (wf_counted s Hs) as (Hh & Ed & Er & Eh). destruct (wf_clock _ Hs) as (Hlo & _ & Hmax & Hov).
  destruct (timers_result (overflow s) (counter s) los (tm s) t woken lo) as (lo1 & Hp & Hl & Hlo2);
    [by apply running_range|lia|done|done|done|].
  exists lo1. split_and!; [done|lia|lia|done| |].
  - apply List.Forall_forall. intros i Hi%list_elem_of_In. destruct Hp as [_ _ _ [_ Hw] _ _ _]. apply Hw in Hi as [Hi _].
    rewrite Er in Hi. apply (bit_range (ntasks s) (timer_running (tm s))); [destruct (wf_tasks _ Hs); lia|apply Hs|done].
  - destruct Hp as [[E1 E2] Hrange Hrun _ _ _ _].
    assert (Hsub : forall i, Z.testbit (timer_running t) i = true -> Z.testbit (timer_running (tm s)) i = true).
    { intros i. rewrite Hrun, Er. by intros []%andb_prop. }
    destruct Hs. split; try done; cbn.
    + by rewrite E2, Ed.
    + unfold ntasks in *. cbn. apply in_range_bits; [lia|apply Hrange|]. intros i Hi. destruct (Z.testbit (timer_running t) i) eqn:E; [|done].
      apply Hsub in E. rewrite (bits_above (Z.of_nat (length (threads s)))) in E; [done|lia|done].
    + intros i Hi Ht. apply wf_timed0; [done|by apply Hsub].
    + rewrite E1. split_and!; [done|lia|lia|done].
Qed.
Lemma handle_wf h s : wf s -> results wf (handle h s).
Proof.
  intros Hs. destruct h as [t ev|los]; cbn [handle].
  - destruct (_ && _) eqn:E; [|done]. apply andb_prop in E as [[[E1 E2]%andb_prop _]%andb_prop _].
    apply wf_set_event_irq; [done|]. split; lia.
  - destruct (rising _ _) eqn:Er; [|done]. cbn [negb]. destruct (process_timers _ _ _) as [[[t w] lo]|] eqn:E; [|done].
    destruct (timer_handled s los t w lo Hs Er E) as (lo1 & _ & _ & _ & Hw & Hwf). cbn [results].
    apply wf_expire; [|done]. done.
Qed.
Lemma interrupt_wf l s : wf s -> results wf (interrupt l s).
Proof.
  intros Hs. unfold interrupt. destruct (irq_enabled s) eqn:Ei; [|done]. cbn [negb].
  assert (Hall : results (fun t => wf t /\ irq_enabled t = true) (handle_all l s)).
  { revert s Hs Ei. induction l as [|h l IH]; intros s Hs Ei; [done|]. cbn [handle_all].
    pose proof (handle_wf h s Hs) as Hh. destruct (handle h s) as [u| |] eqn:E; [|done..]. apply IH; [done|].
    destruct h as [t ev|los]; cbn [handle] in E.
    - destruct (_ && _); [|done]. by injection E as <-.
    - destruct (negb _); [done|]. destruct (process_timers _ _ _) as [[[t w] lo]|]; [|done]. injection E as <-.
      unfold expire. assert (Hx : forall w v, irq_enabled (foldl (fun s t => task_set_event_irq t TASK_EVENT_TIMER s) v w) = irq_enabled v).
      { clear. induction w as [|x w IHw]; intros v; [done|]. cbn [foldl]. by rewrite IHw. }
      by rewrite Hx. }
  destruct (handle_all l s) as [u| |]; [|done..]. destruct Hall as [Hu Eu].
  unfold task_resched_if_needed. destruct (need_resched u); [|done]. cbn [negb].
  apply results_svc; [done|by apply idle_task|done|]. by apply wf_switched; [|apply idle_task|..].
Qed.

(** ** The clock and the clients *)

Lemma tick_wf dt s : wf s -> results wf (tick dt s).
Proof.
  intros Hs. unfold tick. cbv zeta. destruct (wf_clock _ Hs) as ([Hc0 Hc1] & Hlow & Hmax & Hov).
  destruct (_ && _) eqn:Ed; [|done]. apply andb_prop in Ed as [Ed0%Z.ltb_lt Ed1%Z.ltb_lt]. cbn [negb].
  destruct (Z.ltb_spec (counter s + dt) (2 ^ 32)).
  - cbn [results]. destruct Hs. split; try done. cbn. unfold in_range. split_and!; try done; lia.
  - destruct (overflow s || (2 ^ 31 <=? clksrc_high (tm s))) eqn:Eo; [done|]. apply orb_false_iff in Eo as [Eo1 Eo2%Z.leb_gt].
    cbn [results]. destruct Hs. split; try done. cbn. unfold in_range. split_and!; try done; lia.
Qed.

Lemma all_bits n i : 0 <= n -> Z.testbit (BIT n - 1) i = (0 <=? i) && (i <? n).
Proof.
  intros Hn. unfold BIT. rewrite Z.shiftl_1_l. replace (2 ^ n - 1) with (Z.ones n) by (rewrite Z.ones_equiv; lia).
  destruct (Z.leb_spec 0 i); [|by rewrite Z.testbit_neg_r]. cbn [andb].
  destruct (Z.ltb_spec i n); [by apply Z.ones_spec_low|by apply Z.ones_spec_high].
Qed.
Lemma all_range n : 0 <= n -> in_range n (BIT n - 1).
Proof. intros. unfold BIT, in_range. rewrite Z.shiftl_1_l. pose proof (Z.pow_pos_nonneg 2 n). lia. Qed.

Lemma begin_wf c s r :
  wf s -> point_of (current_task s) s = Run r -> allowed c s = true -> results wf (begin c s).
Proof.
  intros Hs E Ha. pose proof (wf_point s Hs) as Hok. rewrite E in Hok.
  assert (Hrun := wf_timed _ Hs _ (wf_current _ Hs)). rewrite E in Hrun.
  assert (Hgo : forall q, point_ok q s -> (irq_enabled s = false -> quiet q) -> wf (go q s))
    by (intros; apply wf_go; done || by intros []%Hrun).
  assert (Hirq : forall b q, irq_enabled s && b = true -> irq_enabled s = false -> quiet q)
    by (intros b q Hb Hi; by rewrite Hi in Hb).
  destruct c as [t ev|timeout|mask timeout|us|m|m|m| | |t|t|]; cbn [begin allowed] in *.
  - cbn [results]. apply Hgo; [|done]. cbn. apply andb_prop in Ha as [[[H1 H2]%andb_prop _]%andb_prop _]. split; [split; lia|done].
  - cbn [results]. apply Hgo; [done|by eapply Hirq].
  - cbn [results]. apply Hgo; [done|]. rewrite <- !andb_assoc in Ha. by eapply Hirq.
  - cbn [results]. rewrite <- !andb_assoc in Ha. destruct (us =? 0); apply Hgo; try done; by eapply Hirq.
  - cbn [results]. apply andb_prop in Ha as [Hi Hm]. apply Hgo; [by apply Nat.ltb_lt|by rewrite Hi].
  - cbn [results]. apply Hgo; [by apply Nat.ltb_lt|done].
  - cbn [results]. apply andb_prop in Ha as [[Hi Hm]%andb_prop _]. apply Hgo; [by apply Nat.ltb_lt|by rewrite Hi].
  - cbn [results]. destruct Hs. split; try done. intros _. change (point_of (current_task (set_irq false s)) (set_irq false s))
      with (point_of (current_task s) s). by rewrite E.
  - by apply wf_set_irq_on.
  - cbn [results]. apply andb_prop in Ha as [H1%Z.leb_le H2%Z.ltb_lt]. destruct Hs. split; try done; cbn [tasks_enabled task_enable_task set_enabled].
    + by apply set_range.
    + rewrite testbit_set by done. by rewrite wf_idle_enabled0.
  - cbn [results]. apply andb_prop in Ha as [[H1%Z.leb_le H2%Z.ltb_lt]%andb_prop H3%negb_true_iff%Z.eqb_neq].
    assert (Hd : wf (set_enabled (clear_bit t (tasks_enabled s)) s)).
    { destruct Hs. split; try done; cbn [tasks_enabled set_enabled].
      - apply clear_range; [unfold ntasks in *; lia|done|done].
      - rewrite testbit_clear by done. rewrite wf_idle_enabled0. by rewrite (proj2 (Z.eqb_neq _ _)) by congruence. }
    unfold task_disable_task. cbv zeta. destruct (_ && _) eqn:Ei.
    + apply wf_go; [done|by split; [apply (idle_task _ Hs)|]|done|by intros []%Hrun].
    + by apply wf_go; [| | |intros []%Hrun].
  - unfold task_enable_all_tasks. cbv zeta. set (u := set_enabled _ _).
    assert (Hu : wf u).
    { destruct (wf_tasks _ Hs). destruct (wf_current _ Hs).
      assert (Hb : forall i, 0 <= i < ntasks s -> Z.testbit (BIT (ntasks s) - 1) i = true).
      { intros i Hi. rewrite all_bits by lia. lia. }
      unfold u. destruct Hs. split; try done; cbn [tasks_ready tasks_enabled current_task set_enabled set_ready].
      - apply all_range. unfold ntasks in *. lia.
      - apply all_range. unfold ntasks in *. lia.
      - apply Hb. unfold TASK_ID_IDLE. lia.
      - apply Hb. unfold TASK_ID_IDLE. lia.
      - by apply Hb. }
    destruct (irq_enabled u) eqn:Ei; [|done]. apply results_svc; [done|by apply idle_task|done|].
    by apply wf_switched; [|apply idle_task|..].
Qed.

Lemma step_wf a s : wf s -> results wf (step a s).
Proof.
  intros Hs. destruct a as [|c|l|dt]; cbn [step].
  - destruct (interrupted s); [done|by apply exec_wf].
  - destruct (point_of _ _) eqn:E; try done. destruct (_ || _) eqn:Ec; [done|].
    apply orb_false_iff in Ec as [_ Ec%negb_false_iff]. by eapply begin_wf.
  - by apply interrupt_wf.
  - by apply tick_wf.
Qed.
Lemma steps_wf l : forall s, wf s -> results wf (steps l s).
Proof.
  induction l as [|a l IH]; intros s Hs; [done|]. cbn [steps]. pose proof (step_wf a s Hs) as H.
  destruct (step a s) as [u| |]; [|done..]. by apply IH.
Qed.

(** ** The beginning *)

Lemma task_start_wf n hooks k : 2 <= n < 30 -> 0 < hooks < n -> wf (task_start n hooks k).
Proof.
  intros Hn Hh.
  assert (Hb : forall i, Z.testbit (Z.lor (BIT hooks) (BIT TASK_ID_IDLE)) i = (i =? hooks) || (i =? TASK_ID_IDLE)).
  { intros i. rewrite Z.lor_spec, !testbit_BIT by (done || lia). done. }
  assert (Hr : in_range n (Z.lor (BIT hooks) (BIT TASK_ID_IDLE))).
  { apply in_range_bits; [lia|apply Z.lor_nonneg; unfold BIT; rewrite !Z.shiftl_1_l; split; apply Z.pow_nonneg; lia|].
    intros i Hi. rewrite Hb. unfold TASK_ID_IDLE. lia. }
  assert (Hnt : ntasks (task_start n hooks k) = n) by (unfold ntasks; cbn; rewrite length_replicate; lia).
  assert (Hpt : forall t, point_of t (task_start n hooks k) = Run 0).
  { intros t. unfold point_of, aget. cbn [threads task_start]. rewrite list_lookup_total_alt.
    destruct (replicate _ _ !! _) as [x|] eqn:E; [|done]. apply lookup_replicate in E as [-> _]. done. }
  split; rewrite ?Hnt; unfold is_task; rewrite ?Hnt; try done.
  - cbn. rewrite length_replicate. lia.
  - cbn. rewrite length_replicate. lia.
  - cbn. lia.
  - cbn [tasks_ready task_start]. by rewrite Hb, orb_true_r.
  - cbn [tasks_enabled task_start]. by rewrite Hb, orb_true_r.
  - cbn [tasks_ready task_start current_task]. by rewrite Hb, Z.eqb_refl.
  - intros t _. by rewrite Hpt.
  - intros m. unfold mutex_of. cbn [mutexes task_start]. rewrite list_lookup_total_alt.
    destruct (replicate _ _ !! _) as [x|] eqn:E; [apply lookup_replicate in E as [-> _]|]; cbn; split; (lia || apply Z.pow_pos_nonneg; lia).
  - cbn. split; [done|]. apply Z.pow_pos_nonneg; lia.
  - intros t _. cbn [tm task_start timer_running]. by rewrite Z.bits_0.
Qed.

(** ** What a step leaves alone *)

(** Nothing but the current task's own point and events, its timer and the
    mutexes changed. *)
Record local_step s u : Prop := {
  ls_ntasks : ntasks u = ntasks s;
  ls_ready : tasks_ready u = tasks_ready s;
  ls_enabled : tasks_enabled u = tasks_enabled s;
  ls_current : current_task u = current_task s;
  ls_need : need_resched u = need_resched s;
  ls_events : forall t, 0 <= t -> t <> current_task s -> aget (events u) t = aget (events s) t;
  ls_points : forall t, 0 <= t -> t <> current_task s -> point_of t u = point_of t s /\ holds_of t u = holds_of t s }.

Lemma local_go s p u : wf s -> local_step s u -> local_step s (go p u).
Proof.
  intros Hs []. assert (Hc : is_task (current_task u) u).
  { unfold is_task. rewrite ls_current0, ls_ntasks0. apply Hs. }
  split; try done; [by rewrite ntasks_go|].
  intros t Ht Hne. rewrite point_go, holds_go, ls_current0 by done. rewrite (proj2 (Z.eqb_neq _ _)) by done. by apply ls_points0.
Qed.
Lemma local_go_holding s p h u : wf s -> local_step s u -> local_step s (go_holding p h u).
Proof.
  intros Hs []. assert (Hc : is_task (current_task u) u).
  { unfold is_task. rewrite ls_current0, ls_ntasks0. apply Hs. }
  split; try done; [by rewrite ntasks_go_holding|].
  intros t Ht Hne. rewrite point_go_holding, holds_go_holding, ls_current0 by done.
  rewrite (proj2 (Z.eqb_neq _ _)) by done. by apply ls_points0.
Qed.
Lemma local_set_events s ev : wf s -> local_step s (set_events (aset (events s) (current_task s) ev) s).
Proof.
  intros Hs. split; try done. intros t Ht Hne. cbn. apply aget_aset_ne; [|done|done].
  rewrite (wf_events _ Hs). apply Hs.
Qed.

Definition local_point (p : point) : Prop :=
  match p with Post _ _ _ | Sched _ _ | Desched _ _ => False | _ => True end.
Lemma exec_local s u : wf s -> local_point (point_of (current_task s) s) -> exec s = Ok u -> local_step s u.
Proof.
  intros Hs Hp. unfold exec. cbv zeta. pose proof (local_set_events s) as Hev.
  assert (Hsame : local_step s s) by by split.
  assert (Hmask : forall mask evs o, local_step s (mask_end mask evs o s)).
  { intros. unfold mask_end. cbv zeta. case_match; by apply local_go. }
  destruct (point_of (current_task s) s) as [|t ev p|t p|timeout w|timeout d w|timeout d n w|timeout d n w|timeout d n w
    |timeout w|timeout w|evt w|evt w|evt w|rest r o|rest|m|m|m|m|m|ids|]; try done;
    cbn [wait_evt_step return_step mutex_lock_step mutex_unlock_step].
  - destruct (negb _); [done|]. case_match; intros [= <-]; by apply local_go.
  - intros [= <-]. by apply local_go.
  - destruct (timer_store _ _ _); [|done]. intros [= <-]. apply local_go; [done|by split].
  - intros [= <-]. apply local_go; [done|by split].
  - intros [= <-]. apply local_go; [done|by split].
  - cbv zeta. repeat case_match; intros [= <-]; apply local_go; auto.
  - intros [= <-]. apply local_go; [done|by split].
  - intros [= <-]. apply local_go; auto. by apply local_set_events.
  - destruct w as [|mask evs deadline timeout o|us evt0 t0]; intros [= <-].
    + by apply local_go.
    + unfold mask_step. cbv zeta. repeat case_match; [by apply Hmask|by apply local_go|by apply Hmask].
    + unfold sleep_step. cbv zeta. case_match; by apply local_go.
  - intros [= <-]. apply local_go; auto. by apply local_set_events.
  - intros [= <-]. apply local_go; auto. by apply local_set_events.
  - intros [= <-]. apply local_go; [done|by split].
  - unfold mutex_try_lock. destruct (_ =? 0); intros [= <-].
    + apply local_go_holding; [done|by split].
    + by apply local_go.
  - intros [= <-]. apply local_go; [done|by split].
  - unfold mutex_try_lock. destruct (_ =? 0); intros [= <-].
    + apply local_go_holding; [done|by split].
    + by apply local_go.
  - intros [= <-]. apply local_go_holding; [done|by split].
  - case_match; intros [= <-]; by apply local_go.
  - intros [= <-]. apply local_go; auto. by apply local_set_events.
Qed.

(** Switching changes who runs and the ready mask. *)
Lemma switched_points desched resched s t :
  point_of t (switched desched resched s) = point_of t s /\ holds_of t (switched desched resched s) = holds_of t s /\
  events (switched desched resched s) = events s.
Proof. done. Qed.
Lemma switched_keeps resched s t :
  0 <= resched -> Z.testbit (tasks_ready s) t = true -> Z.testbit (tasks_ready (switched false resched s)) t = true.
Proof.
  intros Hr Ht. change (tasks_ready (switched false resched s)) with (set_bit resched (tasks_ready s)).
  rewrite testbit_set by done. by rewrite Ht.
Qed.
Lemma switched_readies desched resched s :
  0 <= resched -> Z.testbit (tasks_ready (switched desched resched s)) resched = true.
Proof.
  intros Hr. change (tasks_ready (switched desched resched s)) with (ready_after desched resched s). unfold ready_after.
  rewrite testbit_set by done. rewrite Z.eqb_refl. apply orb_true_r.
Qed.

(** C18. Whatever the tasks do, as long as they keep the rules, and however
    interrupts and time come in between, none of the kernel's assertions fails:
    some enabled task is always ready, tasks wait only with interrupts enabled,
    and a task's timer is never armed twice. *)
Theorem kernel_never_asserts n hooks k l :
  2 <= n < 30 -> 0 < hooks < n -> steps l (task_start n hooks k) <> Crash.
Proof.
  intros Hn Hh E. pose proof (steps_wf l _ (task_start_wf n hooks k Hn Hh)) as H. by rewrite E in H.
Qed.
Lemma kernel_never_asserts_witness :
  steps [Call CEnableAll; Call (CWaitEvent 1000); Exec; Exec; Exec; Exec; Exec; Irq [HTimer [0; 0; 0]]; Exec; Exec;
         Call (CSetEvent 2 5); Exec; Exec] (task_start 3 1 1) <> Crash.
Proof. apply kernel_never_asserts; lia. Defined.

(** ** No event is forgotten *)

Definition setting t s : Prop := exists u p, is_task u s /\ point_of u s = Sched t p.
(** A task that has an event is ready, or the task that set it is on its way to
    [__schedule]. *)
Definition attended s : Prop :=
  forall t, is_task t s -> aget (events s) t <> 0 -> Z.testbit (tasks_ready s) t = true \/ setting t s.

(** A step after which the current task is ready, not having been about to
    schedule another, keeps it. *)
Lemma attended_keep s u :
  wf s -> attended s -> (forall t p, point_of (current_task s) s <> Sched t p) ->
  ntasks u = ntasks s -> (forall t, 0 <= t -> Z.testbit (tasks_ready s) t = true -> Z.testbit (tasks_ready u) t = true) ->
  (forall t, is_task t s -> t <> current_task s -> aget (events u) t = aget (events s) t) ->
  (forall t, is_task t s -> t <> current_task s -> point_of t u = point_of t s) -> attended u.
Proof.
  intros Hs Ha Hns Hn Hr He Hp t Ht Hev. assert (Ht' : is_task t s) by (unfold is_task in *; by rewrite <- Hn).
  destruct (Z.eq_dec t (current_task s)) as [->|Hne].
  - left. apply Hr; [apply Ht'|apply Hs].
  - rewrite He in Hev by done. destruct (Ha t Ht' Hev) as [Hrdy|(v & p & Hv & Ep)]; [left; apply Hr; [apply Ht'|done]|right].
    exists v, p. split; [unfold is_task in *; by rewrite Hn|]. rewrite Hp; [done|done|]. intros ->. by apply (Hns t p).
Qed.

Lemma attended_local s u :
  wf s -> attended s -> local_point (point_of (current_task s) s) -> local_step s u -> attended u.
Proof.
  intros Hs Ha Hp []. apply (attended_keep s); try done.
  - intros t p E. by rewrite E in Hp.
  - intros t _. by rewrite ls_ready0.
  - intros t [Ht _] Hne. by apply ls_events0.
  - intros t [Ht _] Hne. by apply ls_points0.
Qed.

Lemma exec_attended s u : wf s -> attended s -> exec s = Ok u -> attended u.
Proof.
  intros Hs Ha He. destruct (point_of (current_task s) s) eqn:E;
    try (apply (attended_local s); [done|done|by rewrite E|]; apply exec_local; [done|by rewrite E|done]).
  all: pose proof (wf_current _ Hs) as [Hc1 Hc2]; pose proof (wf_point s Hs) as Hok; rewrite E in Hok;
    unfold exec in He; cbv zeta in He; rewrite E in He; cbn [set_event_step wait_evt_step] in He.
  - (* an event is set: the task goes on to schedule *)
    injection He as <-. destruct Hok as [[Ht1 Ht2] _]. intros t' Ht' Hev.
    assert (Hpt : forall v, 0 <= v -> point_of v (go (Sched t p) (or_events t ev s)) =
              if v =? current_task s then Sched t p else point_of v s)
      by (intros v Hv; exact (point_go (or_events t ev s) (wf_current _ Hs) (Sched t p) v Hv)).
    assert (Hn : forall v, is_task v (go (Sched t p) (or_events t ev s)) <-> is_task v s)
      by (intros; unfold is_task; by rewrite ntasks_go).
    destruct (Z.eq_dec t' t) as [->|Hne].
    { right. exists (current_task s), p. split; [by apply Hn|]. rewrite Hpt, Z.eqb_refl by done. done. }
    cbn [go or_events set_threads events set_events] in Hev. rewrite aget_aset_ne in Hev; [|by rewrite (wf_events _ Hs)|apply Ht'|done].
    apply Hn in Ht'. destruct (Ha t' Ht' Hev) as [Hr|(v & q & Hv & Eq)]; [by left|right]. exists v, q.
    split; [by apply Hn|]. rewrite Hpt by apply Hv. destruct (Z.eqb_spec v (current_task s)) as [->|]; [congruence|done].
  - (* __schedule: the task is ready now *)
    destruct Hok as [[Ht1 Ht2] _]. set (g := go (after_post p) s) in *.
    assert (Hg : forall v, 0 <= v -> point_of v g = if v =? current_task s then after_post p else point_of v s)
      by (intros; by apply point_go).
    assert (Hng : ntasks g = ntasks s) by apply ntasks_go.
    assert (Hn : forall v, is_task v g <-> is_task v s) by (intros; unfold is_task; by rewrite Hng).
    assert (Hkey : forall w, events w = events s -> ntasks w = ntasks s -> Z.testbit (tasks_ready w) t = true ->
      (forall i, Z.testbit (tasks_ready s) i = true -> Z.testbit (tasks_ready w) i = true) ->
      (forall v, point_of v w = point_of v g) -> attended w).
    { intros w Ee En Hrt Hri Hpw t' Ht' Hev. rewrite Ee in Hev.
      assert (Ht'' : is_task t' s) by (unfold is_task in *; by rewrite <- En).
      destruct (Ha t' Ht'' Hev) as [Hr|(v & q & Hv & Eq)]; [left; by apply Hri|].
      destruct (Z.eq_dec v (current_task s)) as [->|Hne]; [left; congruence|right].
      exists v, q. split; [unfold is_task in *; by rewrite En|]. rewrite Hpw, Hg by apply Hv.
      by rewrite (proj2 (Z.eqb_neq _ _)). }
    destruct (irq_enabled g) eqn:Ei.
    + assert (Hwg : wf g).
      { by apply (wf_sched s Hs t p). }
      destruct (svc_switched false t g Hwg) as (Es & _); [by apply Hn|done|]. rewrite Es in He. injection He as <-.
      apply Hkey; [done|exact Hng|by apply switched_readies| |done]. intros i Hi. by apply switched_keeps.
    + injection He as <-. apply Hkey; [done|exact Hng| | |done].
      * cbn. rewrite testbit_set by done. rewrite Z.eqb_refl. apply orb_true_r.
      * intros i Hi. cbn. rewrite testbit_set by done. by rewrite Hi.
  - (* the task leaves the processor; its ready bit goes only without events *)
    set (g := go (Take timeout w) s) in *.
    assert (Hng : ntasks g = ntasks s) by apply ntasks_go.
    assert (Hwg : wf g).
    { apply wf_go; [done|done| |].
      - intros Hi. pose proof (wf_quiet _ Hs Hi) as Hq. by rewrite E in Hq.
      - intros Hr. pose proof (wf_timed _ Hs _ (wf_current _ Hs) Hr) as Ht. by rewrite E in Ht. }
    destruct (svc_switched true TASK_ID_IDLE g Hwg (idle_task _ Hwg) ltac:(done)) as (Es & _). rewrite Es in He. injection He as <-.
    assert (Hrdy : forall i, 0 <= i -> i <> current_task s \/ aget (events s) i <> 0 -> Z.testbit (tasks_ready s) i = true ->
      Z.testbit (tasks_ready (switched true TASK_ID_IDLE g)) i = true).
    { intros i Hi Hor Hb. change (tasks_ready (switched true TASK_ID_IDLE g)) with (ready_after true TASK_ID_IDLE g).
      unfold ready_after. rewrite testbit_set by done. cbn [andb]. change (events g) with (events s).
      change (current_task g) with (current_task s). change (tasks_ready g) with (tasks_ready s).
      destruct (Z.eqb_spec (aget (events s) (current_task s)) 0) as [E0|]; [|by rewrite Hb].
      rewrite testbit_clear, Hb by done. destruct (Z.eqb_spec i (current_task s)) as [->|]; [|done].
      by destruct Hor. }
    intros t Ht Hev. change (events (switched true TASK_ID_IDLE g)) with (events s) in Hev.
    assert (Ht' : is_task t s) by (unfold is_task in *; by rewrite <- Hng).
    destruct (Ha t Ht' Hev) as [Hr|(v & q & Hv & Eq)].
    + left. apply Hrdy; [apply Ht'|by right|done].
    + right. exists v, q. split; [unfold is_task in *; by rewrite <- Hng in Hv|].
      change (point_of v g = Sched t q). unfold g. rewrite point_go by (done || apply Hv).
      destruct (Z.eqb_spec v (current_task s)) as [->|]; [congruence|done].
Qed.

Lemma attended_switched s resched :
  attended s -> 0 <= resched -> attended (switched false resched s).
Proof.
  intros Ha Hr t Ht Hev. destruct (Ha t Ht Hev) as [Hb|Hset]; [left|by right]. by apply switched_keeps.
Qed.
Lemma attended_event_irq t ev s : wf s -> is_task t s -> attended s -> attended (task_set_event_irq t ev s).
Proof.
  intros Hs Ht Ha t' Ht' Hev. destruct Ht as [Ht1 Ht2].
  change (tasks_ready (task_set_event_irq t ev s)) with (set_bit t (tasks_ready s)). rewrite testbit_set by done.
  destruct (Z.eqb_spec t' t) as [->|Hne]; [left; apply orb_true_r|].
  cbn [task_set_event_irq make_ready set_need_resched set_ready or_events set_events events] in Hev.
  rewrite aget_aset_ne in Hev; [|by rewrite (wf_events _ Hs)|apply Ht'|done].
  destruct (Ha t' Ht' Hev) as [->|Hset]; [by left|by right].
Qed.
Lemma attended_expire woken : forall s,
  wf s -> Forall (fun t => is_task t s) woken -> attended s -> attended (expire woken s).
Proof.
  induction woken as [|t l IH]; intros s Hs Hl Ha; [done|]. inversion_clear Hl as [|?? Ht Hl'].
  cbn [expire foldl]. apply IH; [by apply wf_set_event_irq|done|by apply attended_event_irq].
Qed.
Lemma handle_attended h s u : wf s -> attended s -> handle h s = Ok u -> attended u.
Proof.
  intros Hs Ha. destruct h as [t ev|los]; cbn [handle].
  - destruct (_ && _) eqn:E; [|done]. apply andb_prop in E as [[[E1 E2]%andb_prop _]%andb_prop _]. intros [= <-].
    apply attended_event_irq; [done|split; lia|done].
  - destruct (rising _ _) eqn:Er; [|done]. cbn [negb]. destruct (process_timers _ _ _) as [[[t w] lo]|] eqn:E; [|done].
    intros [= <-]. destruct (timer_handled s los t w lo Hs Er E) as (lo1 & _ & _ & _ & Hw & Hwf).
    by apply attended_expire.
Qed.
Lemma interrupt_attended l s u : wf s -> attended s -> interrupt l s = Ok u -> attended u.
Proof.
  intros Hs Ha. unfold interrupt. destruct (negb _); [done|].
  assert (Hall : forall v, handle_all l s = Ok v -> wf v /\ attended v).
  { revert s Hs Ha. induction l as [|h l IH]; intros s Hs Ha v; cbn [handle_all]; [by intros [= <-]|].
    pose proof (handle_wf h s Hs) as Hw. destruct (handle h s) as [w| |] eqn:E; [|done..].
    apply IH; [done|by apply (handle_attended h s)]. }
  destruct (handle_all l s) as [v| |]; [|done..]. destruct (Hall v eq_refl) as [Hv Hav].
  unfold task_resched_if_needed. destruct (negb _); [by intros [= <-]|].
  destruct (svc_switched false TASK_ID_IDLE v Hv (idle_task _ Hv) ltac:(done)) as (-> & _). intros [= <-].
  by apply attended_switched.
Qed.

(** A call from a task's own code. *)
Lemma begin_local c s r u :
  wf s -> point_of (current_task s) s = Run r -> begin c s = Ok u ->
  match c with CEnableAll | CEnableTask _ | CDisableTask _ => True | _ => local_step s u end.
Proof.
  intros Hs E. assert (Hsame : local_step s s) by by split.
  destruct c; cbn [begin]; try done; intros [= <-]; try by apply local_go. all: try by split. case_match; by apply local_go.
Qed.
Lemma begin_attended c s r u :
  wf s -> point_of (current_task s) s = Run r -> attended s -> begin c s = Ok u -> attended u.
Proof.
  intros Hs E Ha He. pose proof (begin_local c s r u Hs E He) as Hl.
  destruct c as [t ev|timeout|mask timeout|us|m|m|m| | |t|t|]; try (apply (attended_local s); [done|done|by rewrite E|done]);
    cbn [begin] in He.
  - by injection He as <-.
  - injection He as <-. unfold task_disable_task. cbv zeta. set (v := set_enabled _ s).
    assert (Hgo : forall p, attended (go p v)).
    { intros p. apply (attended_keep s); try done.
      - intros t' q Eq. by rewrite Eq in E.
      - exact (ntasks_go p v).
      - intros t' [Ht' _] Hne. rewrite (point_go v (wf_current _ Hs)) by done. change (current_task v) with (current_task s).
        by rewrite (proj2 (Z.eqb_neq _ _)). }
    case_match; apply Hgo.
  - unfold task_enable_all_tasks in He. cbv zeta in He. set (v := set_enabled _ _) in *.
    assert (Hv : attended v).
    { intros t Ht _. left. destruct Ht as [Ht1 Ht2]. change (tasks_ready v) with (BIT (ntasks s) - 1).
      change (ntasks v) with (ntasks s) in Ht2. rewrite all_bits by lia. lia. }
    destruct (irq_enabled v); [|by injection He as <-]. unfold svc_handler in He. cbn [andb] in He. case_match; [done|].
    cbv zeta in He. case_match; [done|]. injection He as <-. by apply (attended_switched v TASK_ID_IDLE).
Qed.

Lemma step_attended a s u : wf s -> attended s -> step a s = Ok u -> attended u.
Proof.
  intros Hs Ha. destruct a as [|c|l|dt]; cbn [step].
  - destruct (interrupted s); [done|by apply exec_attended].
  - destruct (point_of _ _) eqn:E; try done. destruct (_ || _); [done|]. by eapply begin_attended.
  - by apply interrupt_attended.
  - unfold tick. cbv zeta. repeat case_match; intros [= <-]; done.
Qed.

(** ** The highest ready task runs *)

Definition highest s : Prop :=
  Z.testbit (tasks_ready s) (current_task s) = true /\ Z.testbit (tasks_enabled s) (current_task s) = true /\
  forall i, Z.testbit (tasks_ready s) i = true -> Z.testbit (tasks_enabled s) i = true -> i <= current_task s.
(** Unless a switch is due when the next interrupt ends. *)
Definition prioritized s : Prop := need_resched s = false -> highest s.

(** Nothing that the scheduler looks at has changed. *)
Definition same_sched s u : Prop :=
  tasks_ready u = tasks_ready s /\ tasks_enabled u = tasks_enabled s /\ current_task u = current_task s /\
  need_resched u = need_resched s.
Lemma prioritized_same s u : same_sched s u -> prioritized s -> prioritized u.
Proof. intros (E1 & E2 & E3 & E4) Hp. unfold prioritized, highest. by rewrite E1, E2, E3, E4. Qed.
Lemma prioritized_local s u : local_step s u -> prioritized s -> prioritized u.
Proof. intros []. by apply prioritized_same. Qed.
Lemma prioritized_switched desched resched s :
  wf s -> is_task resched s -> (desched = true -> resched = TASK_ID_IDLE) -> prioritized (switched desched resched s).
Proof.
  intros Hs Hr Hd _. by destruct (svc_switched desched resched s Hs Hr Hd) as (_ & _ & _ & _ & H1 & H2 & H3).
Qed.

Lemma exec_prioritized s u : wf s -> prioritized s -> exec s = Ok u -> prioritized u.
Proof.
  intros Hs Ha He. destruct (point_of (current_task s) s) eqn:E;
    try (apply (prioritized_local s); [|done]; apply exec_local; [done|by rewrite E|done]).
  all: pose proof (wf_point s Hs) as Hok; rewrite E in Hok;
    unfold exec in He; cbv zeta in He; rewrite E in He; cbn [set_event_step wait_evt_step] in He.
  - injection He as <-. by apply (prioritized_same s).
  - pose proof (wf_sched s Hs t p E) as Hg. destruct Hok as [Ht _].
    assert (Ht' : is_task t (go (after_post p) s)) by (unfold is_task; by rewrite ntasks_go).
    destruct (irq_enabled _); [|by injection He as <-].
    destruct (svc_switched false t _ Hg Ht' ltac:(done)) as (Es & _). rewrite Es in He. injection He as <-.
    by apply prioritized_switched.
  - assert (Hg : wf (go (Take timeout w) s)).
    { apply wf_go; [done|done| |].
      - intros Hi. pose proof (wf_quiet _ Hs Hi) as Hq. by rewrite E in Hq.
      - intros Hr. pose proof (wf_timed _ Hs _ (wf_current _ Hs) Hr) as Ht. by rewrite E in Ht. }
    destruct (svc_switched true TASK_ID_IDLE _ Hg (idle_task _ Hg) ltac:(done)) as (Es & _). rewrite Es in He. injection He as <-.
    by apply prioritized_switched; [|apply idle_task|].
Qed.

Lemma expire_sched woken : forall s,
  need_resched (expire woken s) = false -> same_sched s (expire woken s).
Proof.
  unfold expire. destruct woken as [|t l]; [done|]. cbn [foldl]. intros s Hn. exfalso.
  assert (Hx : forall l v, need_resched v = true -> need_resched (foldl (fun s t => task_set_event_irq t TASK_EVENT_TIMER s) v l) = true).
  { clear. induction l as [|x l IH]; intros v Hv; [done|]. cbn [foldl]. by apply IH. }
  by rewrite Hx in Hn.
Qed.
Lemma expire_need woken : forall s, need_resched s = true -> need_resched (expire woken s) = true.
Proof. unfold expire. induction woken as [|x l IH]; intros v Hv; [done|]. cbn [foldl]. by apply IH. Qed.
Lemma handle_sched h s u : handle h s = Ok u ->
  (need_resched s = true -> need_resched u = true) /\ (need_resched u = false -> same_sched s u).
Proof.
  destruct h as [t ev|los]; cbn [handle].
  - destruct (_ && _); [|done]. by intros [= <-].
  - destruct (negb _); [done|]. destruct (process_timers _ _ _) as [[[t w] lo]|]; [|done]. intros [= <-].
    split; [intros; by apply expire_need|]. intros Hn. by apply expire_sched in Hn.
Qed.
Lemma interrupt_prioritized l s u : wf s -> prioritized s -> interrupt l s = Ok u -> prioritized u.
Proof.
  intros Hs Hp. unfold interrupt. destruct (negb _); [done|].
  assert (Hall : forall v, handle_all l s = Ok v -> wf v /\ (need_resched s = true -> need_resched v = true) /\
    (need_resched v = false -> same_sched s v)).
  { clear Hp. revert s Hs. induction l as [|h l IH]; intros s Hs v; cbn [handle_all]; [by intros [= <-]|].
    pose proof (handle_wf h s Hs) as Hw. destruct (handle h s) as [w| |] eqn:E; [|done..]. intros Hv.
    destruct (handle_sched h s w E) as [H1 H2]. destruct (IH w Hw v Hv) as (Hwf & H3 & H4).
    split_and!; [done|auto|]. intros Hn. specialize (H4 Hn). destruct (need_resched w) eqn:Ew.
    - by rewrite H3 in Hn.
    - specialize (H2 eq_refl). destruct H2 as (A1 & A2 & A3 & A4), H4 as (B1 & B2 & B3 & B4).
      repeat split; congruence. }
  destruct (handle_all l s) as [v| |]; [|done..]. destruct (Hall v eq_refl) as (Hv & _ & Hsame).
  unfold task_resched_if_needed. destruct (need_resched v) eqn:En; cbn [negb].
  - destruct (svc_switched false TASK_ID_IDLE v Hv (idle_task _ Hv) ltac:(done)) as (-> & _). intros [= <-].
    by apply prioritized_switched; [|apply idle_task|].
  - intros [= <-]. by apply (prioritized_same s); [apply Hsame|].
Qed.

(** A call that changes which tasks are enabled does not always switch. *)
Definition keeps_enabled (a : action) : Prop :=
  match a with Call (CEnableTask _) | Call (CDisableTask _) => False | _ => True end.
Lemma step_prioritized a s u : wf s -> keeps_enabled a -> prioritized s -> step a s = Ok u -> prioritized u.
Proof.
  intros Hs Hk Hp. destruct a as [|c|l|dt]; cbn [step].
  - destruct (interrupted s); [done|by apply exec_prioritized].
  - destruct (point_of _ _) eqn:E; try done. destruct (_ || _) eqn:Ec; [done|].
    apply orb_false_iff in Ec as [_ Ec%negb_false_iff]. intros He. pose proof (begin_local c s _ u Hs E He) as Hl.
    pose proof (begin_wf c s _ Hs E Ec) as Hw.
    destruct c; try done; try by apply (prioritized_local s). cbn [begin allowed] in *.
    unfold task_enable_all_tasks in *. cbv zeta in *. set (v := set_enabled _ _) in *.
    change (irq_enabled v) with (irq_enabled s) in *. rewrite Ec in *.
    unfold svc_handler in He. cbn [andb] in He. case_match; [done|]. cbv zeta in He. case_match eqn:En; [done|].
    injection He as <-. intros _. apply Z.eqb_neq in En.
    set (run := Z.land _ _) in *. assert (Hpos : 0 < run).
    { assert (0 <= run); [|lia]. apply Z.land_nonneg. right. cbn. apply all_range. destruct (wf_tasks _ Hs). lia. }
    pose proof (fls_bit run Hpos) as Hf. unfold run in Hf at 1. rewrite Z.land_spec in Hf. apply andb_prop in Hf as [Hf1 Hf2].
    split_and!; [done|done|]. intros i H1 H2. apply (fls_max run); [done|]. unfold run. rewrite Z.land_spec.
    apply andb_true_intro. split; [exact H1|exact H2].
  - by apply interrupt_prioritized.
  - unfold tick. cbv zeta. repeat case_match; intros [= <-]; done.
Qed.

Lemma steps_attended l : forall s u, wf s -> attended s -> steps l s = Ok u -> wf u /\ attended u.
Proof.
  induction l as [|a l IH]; intros s u Hs Ha; cbn [steps]; [by intros [= <-]|].
  pose proof (step_wf a s Hs) as Hw. destruct (step a s) as [v| |] eqn:E; [|done..].
  apply IH; [done|by apply (step_attended a s)].
Qed.
Lemma steps_prioritized l : forall s u,
  wf s -> Forall keeps_enabled l -> prioritized s -> steps l s = Ok u -> prioritized u.
Proof.
  induction l as [|a l IH]; intros s u Hs Hk Hp; cbn [steps]; [by intros [= <-]|]. inversion_clear Hk as [|?? Hka Hkl].
  pose proof (step_wf a s Hs) as Hw. destruct (step a s) as [v| |] eqn:E; [|done..].
  apply IH; [done|done|by apply (step_prioritized a s)].
Qed.

Lemma task_start_attended n hooks k : attended (task_start n hooks k).
Proof.
  intros t [Ht1 Ht2] Hev. exfalso. apply Hev. unfold aget. cbn [events task_start].
  unfold ntasks in Ht2. cbn in Ht2. rewrite length_replicate in Ht2. apply lookup_total_replicate_2. lia.
Qed.

(** C17. In every state that can be reached, a task that has an event is ready, or
    the task that set the event is about to enter the scheduler for it; and if
    no task was enabled or disabled meanwhile, the task that runs is the highest
    of those ready and enabled, unless an event was set with interrupts disabled
    or the switch waits for the end of an interrupt. *)
Theorem scheduling_correct n hooks k l s :
  2 <= n < 30 -> 0 < hooks < n -> steps l (task_start n hooks k) = Ok s ->
  attended s /\ (Forall keeps_enabled l -> prioritized s).
Proof.
  intros Hn Hh. pose proof (task_start_wf n hooks k Hn Hh) as Hwf.
  pose proof (task_start_attended n hooks k) as Ha.
  assert (Hp : prioritized (task_start n hooks k)).
  { intros _. unfold highest. cbn [task_start tasks_ready tasks_enabled current_task].
    assert (Hb : forall i, Z.testbit (Z.lor (BIT hooks) (BIT TASK_ID_IDLE)) i = (i =? hooks) || (i =? TASK_ID_IDLE)).
    { intros i. by rewrite Z.lor_spec, !testbit_BIT by (done || lia). }
    rewrite !Hb, Z.eqb_refl. split_and!; [done|done|]. intros i. rewrite Hb. unfold TASK_ID_IDLE. lia. }
  intros Hl. split; [by apply (steps_attended l (task_start n hooks k))|].
  intros Hk. by apply (steps_prioritized l (task_start n hooks k)).
Qed.
Definition demo_run : list action :=
  [Call CEnableAll; Call (CWaitEvent 1000); Exec; Exec; Exec; Exec; Exec; Irq [HTimer [0; 0; 0]]; Exec; Exec;
   Call (CSetEvent 2 5); Exec; Exec; Exec].
Definition state_after (l : list action) s : kernel := match steps l s with Ok u => u | _ => s end.
Lemma scheduling_correct_witness :
  let s := state_after demo_run (task_start 3 1 1) in
  current_task s = 2 /\ attended s /\ (Forall keeps_enabled demo_run -> prioritized s).
Proof.
  cbv zeta. split; [by vm_compute|]. apply (scheduling_correct 3 1 1 demo_run); [lia|lia|by vm_compute].
Defined.

(** With interrupts disabled, the switch to a higher task waits for the next
    interrupt, also after they are enabled again. *)
Example late_switch :
  let s := state_after [Call CEnableAll; Call (CWaitEvent (-1)); Exec; Exec; Exec; Call CDisableIrq;
                        Call (CSetEvent 2 5); Exec; Exec; Call CEnableIrq] (task_start 3 1 1) in
  current_task s = 1 /\ irq_enabled s = true /\ Z.testbit (Z.land (tasks_ready s) (tasks_enabled s)) 2 = true /\
  need_resched s = true.
Proof. by vm_compute. Qed.

(** A wait without a timeout that collects another event after more than half a
    turn of the counter goes on with one: its time remaining wraps. *)
Example untimed_wait_times_out :
  let wait0 := mask_start TASK_EVENT_MUTEX (-1) Client (task_start 3 1 1) in
  let s := set_clock (2 ^ 31 + 10) false false (task_start 3 1 1) in
  let u := mask_step 1 (Z.lor TASK_EVENT_MUTEX TASK_EVENT_TIMER) 0 (u64 (-1)) (-1) Client s in
  wait0 = Wait (-1) (WMask (Z.lor TASK_EVENT_MUTEX TASK_EVENT_TIMER) 0 (u64 (-1)) (-1) Client) /\
  point_of 1 u = Wait (2 ^ 31 - 11) (WMask (Z.lor TASK_EVENT_MUTEX TASK_EVENT_TIMER) 1 (u64 (-1)) (-1) Client).
Proof. by vm_compute. Qed.
End TaskSafe.
