(* ===== verification/TaskMutex.v ===== *)
(** * Mutexes exclude, and their waiters are woken

    Invariants of the mutexes of the kernel of Task.v, over every interleaving
    of the tasks and interrupts: a mutex has one holder, and a task that waits
    for a free mutex has been signalled, or its signal is on its way. *)

From S2P Require Import Prelude Bits Timer Task TaskSafe.
Import Bits Timer Task TaskSafe.

Module TaskMutex.

(** ** Tasks that wait for a mutex *)

Definition waiter_mutex (w : waiter) : option nat :=
  match w with WMask _ _ _ _ (Locker m) => Some m | _ => None end.
(** The mutex for whose event the task waits. *)
Definition waiting_on (p : point) : option nat :=
  match p with
  | Wait _ w | ArmRead _ _ w | ArmStore _ _ _ w | ArmPublish _ _ _ w | ArmTrigger _ _ _ w | Take _ w
  | Desched _ w | Cancel _ w | ClearTimer _ w | Return _ w => waiter_mutex w
  | _ => None
  end.
(** The mutex that the task has entered itself for. *)
Definition registered (p : point) : option nat :=
  match p with
  | TryLock m | Locked m | Repost _ _ (Locker m) => Some m
  | _ => waiting_on p
  end.
(** Events that the task has taken and not looked at yet. *)
Definition in_hand (p : point) : Z :=
  match p with Cancel evt _ | ClearTimer evt _ | Return evt _ => evt | _ => 0 end.
(** The tasks that a task in [mutex_unlock] has still to signal. *)
Definition notifies (p : point) (t : Z) : bool :=
  match p with
  | Notify ids | Sched _ (PUnlock ids) => Z.testbit ids t
  | Post id _ (PUnlock ids) => (t =? id) || Z.testbit ids t
  | _ => false
  end.

Abbreviation mutex_bit x := (Z.testbit x 30).
Definition notified t s : Prop := exists u, is_task u s /\ notifies (point_of u s) t = true.
Definition signalled t s : Prop :=
  mutex_bit (aget (events s) t) = true \/ mutex_bit (in_hand (point_of t s)) = true \/ notified t s.

(** What [mutex_lock] passes to the wait loop. *)
Definition wait_ok (p : point) : Prop :=
  match p with
  | Wait _ w | ArmRead _ _ w | ArmStore _ _ _ w | ArmPublish _ _ _ w | ArmTrigger _ _ _ w | Take _ w
  | Desched _ w | Cancel _ w | ClearTimer _ w | Return _ w =>
    match w with
    | WMask mask evs _ _ (Locker _) => mask = Z.lor TASK_EVENT_MUTEX TASK_EVENT_TIMER /\ mutex_bit evs = false
    | _ => True
    end
  | Post _ ev (PUnlock _) => ev = TASK_EVENT_MUTEX
  | _ => True
  end.

Abbreviation lock_of m s := (lock (mutex_of m s)).
Record exclusive s : Prop := {
  mx_word : forall m, lock_of m s = 0 \/ lock_of m s = 2;
  mx_held : forall t m, is_task t s -> m ∈ holds_of t s -> lock_of m s = 2;
  mx_holder : forall m, lock_of m s = 2 -> exists t, is_task t s /\ m ∈ holds_of t s;
  mx_single : forall t u m, is_task t s -> is_task u s -> m ∈ holds_of t s -> m ∈ holds_of u s -> t = u;
  mx_unlock : forall t m, is_task t s -> point_of t s = Unlock m -> m ∈ holds_of t s;
  mx_registered : forall t m, is_task t s -> registered (point_of t s) = Some m ->
    Z.testbit (waiters (mutex_of m s)) t = true;
  mx_signal : forall t m, is_task t s -> waiting_on (point_of t s) = Some m -> lock_of m s = 2 \/ signalled t s;
  mx_wait : forall t, is_task t s -> wait_ok (point_of t s) }.

(** ** Steps that do not touch the mutexes *)

(** The conditions on the current task, which goes from [p] to [q]. *)
Record goes s u (p q : point) : Prop := {
  g_unlock : forall m, q = Unlock m -> m ∈ holds_of (current_task s) s;
  g_registered : forall m, registered q = Some m -> registered p = Some m;
  g_waiting : forall m, waiting_on q = Some m ->
    lock_of m s = 2 \/
    (waiting_on p = Some m /\
     (mutex_bit (aget (events s) (current_task s)) = true \/ mutex_bit (in_hand p) = true ->
      mutex_bit (aget (events u) (current_task s)) = true \/ mutex_bit (in_hand q) = true));
  g_notifies : forall t, is_task t s -> notifies p t = true ->
    notifies q t = true \/ mutex_bit (aget (events u) t) = true;
  g_wait : wait_ok q }.

Lemma exclusive_keep s u p q :
  wf s -> exclusive s -> point_of (current_task s) s = p -> goes s u p q ->
  mutexes u = mutexes s -> ntasks u = ntasks s ->
  (forall t, is_task t s -> holds_of t u = holds_of t s) ->
  (forall t, is_task t s -> point_of t u = if t =? current_task s then q else point_of t s) ->
  (forall t, is_task t s -> t <> current_task s ->
     mutex_bit (aget (events s) t) = true -> mutex_bit (aget (events u) t) = true) ->
  exclusive u.
Proof.
  intros Hs [] E [] Em En Hh Hp He.
  assert (Hn : forall t, is_task t u <-> is_task t s) by (intros; unfold is_task; by rewrite En).
  assert (Hmx : forall m, mutex_of m u = mutex_of m s) by (intros; unfold mutex_of; by rewrite Em).
  assert (Hnot : forall t, is_task t s -> notified t s -> notified t u \/ mutex_bit (aget (events u) t) = true).
  { intros t Ht (v & Hv & Hvt). destruct (Z.eq_dec v (current_task s)) as [->|Hne].
    - rewrite E in Hvt. destruct (g_notifies0 t Ht Hvt) as [Hq|]; [left|by right].
      exists (current_task s). split; [by apply Hn, Hs|]. rewrite Hp by apply Hs. by rewrite Z.eqb_refl.
    - left. exists v. split; [by apply Hn|]. rewrite Hp by done. by rewrite (proj2 (Z.eqb_neq _ _)). }
  split.
  - intros m. by rewrite Hmx.
  - intros t m Ht%Hn. rewrite Hh, Hmx by done. by apply mx_held0.
  - intros m. rewrite Hmx. intros Hm. destruct (mx_holder0 m Hm) as (t & Ht & Hin). exists t.
    split; [by apply Hn|]. by rewrite Hh.
  - intros t v m Ht%Hn Hv%Hn. rewrite !Hh by done. by apply mx_single0.
  - intros t m Ht%Hn. rewrite Hp, Hh by done. destruct (Z.eqb_spec t (current_task s)) as [->|]; [apply g_unlock0|by apply mx_unlock0].
  - intros t m Ht%Hn. rewrite Hp, Hmx by done. destruct (Z.eqb_spec t (current_task s)) as [->|]; [|by apply mx_registered0].
    intros Hq%g_registered0. rewrite <- E in Hq. by apply mx_registered0.
  - intros t m Ht%Hn Hw. rewrite Hmx. rewrite Hp in Hw by done. unfold signalled. rewrite Hp by done.
    destruct (Z.eqb_spec t (current_task s)) as [->|Hne].
    + destruct (g_waiting0 m Hw) as [?|[Hwp Hev]]; [by left|]. rewrite <- E in Hwp.
      destruct (mx_signal0 _ m Ht Hwp) as [?|[H1|[H1|H1]]]; [by left|right..].
      * destruct Hev as [?|?]; [by left|by left|by right; left].
      * rewrite E in H1. destruct Hev as [?|?]; [by right|by left|by right; left].
      * destruct (Hnot _ Ht H1); [by right; right|by left].
    + destruct (mx_signal0 t m Ht Hw) as [?|[H1|[H1|H1]]]; [by left|right..].
      * left. by apply He.
      * by right; left.
      * destruct (Hnot _ Ht H1); [by right; right|by left].
  - intros t Ht%Hn. rewrite Hp by done. destruct (t =? current_task s); [done|by apply mx_wait0].
Qed.

Lemma exclusive_ext s u :
  mutexes u = mutexes s -> threads u = threads s ->
  (forall t, is_task t s -> mutex_bit (aget (events s) t) = true -> mutex_bit (aget (events u) t) = true) ->
  exclusive s -> exclusive u.
Proof.
  intros Em Et Ee [].
  assert (Hn : forall t, is_task t u <-> is_task t s) by (intros; unfold is_task, ntasks; by rewrite Et).
  assert (Hp : forall t, point_of t u = point_of t s) by (intros; unfold point_of; by rewrite Et).
  assert (Hh : forall t, holds_of t u = holds_of t s) by (intros; unfold holds_of; by rewrite Et).
  assert (Hmx : forall m, mutex_of m u = mutex_of m s) by (intros; unfold mutex_of; by rewrite Em).
  split.
  - intros m. by rewrite Hmx.
  - intros t m Ht%Hn. rewrite Hh, Hmx. by apply mx_held0.
  - intros m. rewrite Hmx. intros (t & Ht & Hin)%mx_holder0. exists t. by rewrite Hn, Hh.
  - intros t v m Ht%Hn Hv%Hn. rewrite !Hh. by apply mx_single0.
  - intros t m Ht%Hn. rewrite Hp, Hh. by apply mx_unlock0.
  - intros t m Ht%Hn. rewrite Hp, Hmx. by apply mx_registered0.
  - intros t m Ht%Hn. rewrite Hp, Hmx. intros [?|[H|[H|(v & Hv & H)]]]%mx_signal0; [by left|right..|done].
    + left. by apply Ee.
    + right; left. by rewrite Hp.
    + right; right. exists v. by rewrite Hn, Hp.
  - intros t Ht%Hn. rewrite Hp. by apply mx_wait0.
Qed.

Lemma exclusive_go s v p q :
  wf s -> exclusive s -> point_of (current_task s) s = p -> mutexes v = mutexes s -> threads v = threads s ->
  current_task v = current_task s ->
  (forall t, is_task t s -> t <> current_task s ->
     mutex_bit (aget (events s) t) = true -> mutex_bit (aget (events v) t) = true) ->
  goes s (go q v) p q -> exclusive (go q v).
Proof.
  intros Hs Hx E Em Et Ec He Hg. assert (En : ntasks v = ntasks s) by (unfold ntasks; by rewrite Et).
  assert (Hc : is_task (current_task v) v) by (unfold is_task; rewrite En, Ec; apply Hs).
  apply (exclusive_keep s _ p q); try done.
  - by rewrite ntasks_go.
  - intros t [Ht _]. rewrite holds_go by done. unfold holds_of. by rewrite Et.
  - intros t [Ht _]. rewrite point_go by done. rewrite Ec. unfold point_of. by rewrite Et.
Qed.

(** Going to a point with the same wait, or with none. *)
Lemma goes_same s u p q :
  (forall m, q <> Unlock m) -> (forall t, notifies p t = false) ->
  (registered q = None \/ registered q = registered p) -> (waiting_on q = None \/ waiting_on q = waiting_on p) ->
  (waiting_on q <> None ->
   mutex_bit (aget (events s) (current_task s)) = true \/ mutex_bit (in_hand p) = true ->
   mutex_bit (aget (events u) (current_task s)) = true \/ mutex_bit (in_hand q) = true) ->
  wait_ok q -> goes s u p q.
Proof.
  intros Hu Hn Hr Hw Hev Hok. split; [|..|done].
  - intros m ->. by destruct (Hu m).
  - intros m Hq. by destruct Hr as [Hr|Hr]; rewrite Hr in Hq.
  - intros m Hq. right. split; [by destruct Hw as [Hw|Hw]; rewrite Hw in Hq|]. apply Hev. congruence.
  - intros t _ Hp. by rewrite Hn in Hp.
Qed.
Lemma waiting_none s u p q :
  (forall m, q <> Unlock m) -> (forall t, notifies p t = false) -> registered q = None -> waiting_on q = None ->
  wait_ok q -> goes s u p q.
Proof. intros. apply goes_same; auto. Qed.

(** ** The steps of a task *)

Section Exec.
Context (s : kernel) (Hs : wf s) (Hx : exclusive s).
Abbreviation me := (current_task s).

Lemma exec_wait_exclusive p u :
  point_of me s = p ->
  match p with Wait _ _ | ArmRead _ _ _ | ArmStore _ _ _ _ | ArmPublish _ _ _ _ | ArmTrigger _ _ _ _ | Take _ _
             | Desched _ _ | Cancel _ _ | ClearTimer _ _ => True | _ => False end ->
  wait_evt_step p s = Ok u -> exclusive u.
Proof.
  intros E Hp. pose proof (mx_wait _ Hx me (wf_current _ Hs)) as Hok. rewrite E in Hok.
  pose proof (wf_current _ Hs) as [Hc1 Hc2].
  assert (Hev : 0 <= me < Z.of_nat (length (events s))) by (rewrite (wf_events _ Hs); lia).
  assert (Hgo : forall v q, mutexes v = mutexes s -> threads v = threads s -> current_task v = me -> events v = events s ->
    wait_ok q -> waiting_on q = waiting_on p -> registered q = registered p -> (forall m, q <> Unlock m) ->
    in_hand q = in_hand p -> exclusive (go q v)).
  { intros v q Em Et Ec Ee Hq Hw Hr Hu Hh. apply (exclusive_go s v p q); try done; [intros t _ _; by rewrite Ee|].
    apply goes_same; [done|by clear -Hp; destruct p|by right|by right| |done]. cbn [go events set_threads].
    by rewrite Ee, Hh. }
  destruct p as [|t ev p|t p|timeout w|timeout d w|timeout d n w|timeout d n w|timeout d n w|timeout w|timeout w
    |evt w|evt w|evt w|rest r o|rest|m|m|m|m|m|ids|]; try done; cbn [wait_evt_step].
  - destruct (negb _); [done|]. case_match; intros [= <-]; by apply Hgo.
  - intros [= <-]. by apply Hgo.
  - destruct (timer_store _ _ _); [|done]. intros [= <-]. by apply Hgo.
  - intros [= <-]. by apply Hgo.
  - intros [= <-]. by apply Hgo.
  - cbv zeta. set (evt := aget (events s) me). set (v := set_events _ s).
    assert (Hv : forall q, wait_ok q -> waiting_on q = waiter_mutex w -> registered q = waiter_mutex w ->
      (forall m, q <> Unlock m) -> (mutex_bit evt = true -> mutex_bit (in_hand q) = true) -> exclusive (go q v)).
    { intros q Hq Hw Hr Hu Hh. apply (exclusive_go s v (Take timeout w) q); try done.
      - intros t [Ht _] Hne Hb. unfold v. cbn [set_events events]. by rewrite aget_aset_ne.
      - apply goes_same; [done|done|by right|by right| |done]. intros _ [H|H]; [right; by apply Hh|]. by rewrite Z.bits_0 in H. }
    destruct (Z.eqb_spec evt 0) as [E0|]; [|case_match]; intros [= <-]; apply Hv; try done.
    rewrite E0. by rewrite Z.bits_0.
  - intros He. assert (Hg : exclusive (go (Take timeout w) s)) by (by apply Hgo).
    unfold svc_handler in He. case_match; [done|]. cbv zeta in He. case_match; [done|]. injection He as <-.
    by apply (exclusive_ext (go (Take timeout w) s)).
  - intros [= <-]. by apply Hgo.
  - intros [= <-]. apply (exclusive_go s (clear_events me TASK_EVENT_TIMER s) (ClearTimer evt w)); try done.
    + intros t [Ht _] Hne Hb. unfold clear_events. cbn [set_events events]. by rewrite aget_aset_ne.
    + apply goes_same; [done|done|by right|by right| |done]. intros _ [H|H]; [left|by right].
      cbn [go set_threads clear_events set_events events]. rewrite aget_aset_eq by done.
      rewrite Z.land_spec, H, Z.lnot_spec by done. done.
Qed.

Lemma exec_return_exclusive p u :
  point_of me s = p -> match p with Return _ _ | Repost _ _ _ | SleepRepost _ => True | _ => False end ->
  return_step p s = Ok u -> exclusive u.
Proof.
  intros E Hp. pose proof (mx_wait _ Hx me (wf_current _ Hs)) as Hok. rewrite E in Hok.
  pose proof (wf_current _ Hs) as [Hc1 Hc2].
  assert (Hev : 0 <= me < Z.of_nat (length (events s))) by (rewrite (wf_events _ Hs); lia).
  assert (Hnone : forall q, waiting_on q = None -> registered q = None \/ registered q = registered p ->
    wait_ok q -> (forall m, q <> Unlock m) -> forall ev, exclusive (go q (or_events me ev s)) /\ exclusive (go q s)).
  { intros q Hw Hr Hq Hu ev. assert (Hg : forall v, goes s v p q).
    { intros v. apply goes_same; [done|by clear -Hp; destruct p|done|by left|by rewrite Hw|done]. }
    split.
    - apply (exclusive_go s (or_events me ev s) p q); try done. intros t [Ht _] Hne Hb.
      cbn [or_events set_events events]. by rewrite aget_aset_ne.
    - by apply (exclusive_go s s p q). }
  assert (Hplain : forall q, waiting_on q = None -> registered q = None -> wait_ok q -> (forall m, q <> Unlock m) ->
    exclusive (go q s)) by (intros q Hw Hr Hq Hu; by apply (Hnone q Hw (or_introl Hr) Hq Hu 0)).
  destruct p as [|t ev p|t p|timeout w|timeout d w|timeout d n w|timeout d n w|timeout d n w|timeout w|timeout w
    |evt w|evt w|evt w|rest r o|rest|m|m|m|m|m|ids|]; try done; cbn [return_step].
  - assert (Hend : forall mask evs o, waiter_mutex w = match o with Client => None | Locker m => Some m end ->
      exclusive (mask_end mask evs o s)).
    { intros mask evs o Hw. unfold mask_end. cbv zeta. assert (Hr : forall q, q = Repost (Z.land evs (Z.lnot mask)) (Z.land evs mask) o \/
        q = after_wait o (Z.land evs mask) -> exclusive (go q s)).
      { intros q Hq. apply (Hnone q); [| | | |exact 0]; destruct Hq as [-> | ->]; destruct o; cbn in *; auto; done. }
      destruct (bool_of_Z _); apply Hr; auto. }
    destruct w as [|mask evs deadline timeout o|us evt0 t0]; intros [= <-].
    + by apply Hplain.
    + unfold mask_step. cbv zeta. destruct (_ && _); [by apply Hend; destruct o|].
      destruct (Z.eqb_spec (Z.land (Z.lor evs evt) mask) 0) as [E0|]; [|by apply Hend; destruct o].
      apply (exclusive_go s s (Return evt (WMask mask evs deadline timeout o))); try done.
      destruct o as [|m]; [by apply waiting_none|]. destruct Hok as [-> Hevs].
      assert (Hbit : mutex_bit (Z.lor evs evt) = false).
      { apply (f_equal (fun x => Z.testbit x 30)) in E0. rewrite Z.land_spec, Z.bits_0 in E0.
        by rewrite andb_true_r in E0. }
      apply goes_same; [done|done|by right|by right| |done]. intros _ [H|H]; [by left|]. cbn [in_hand] in H.
      rewrite Z.lor_spec, H, orb_true_r in Hbit. done.
    + unfold sleep_step. cbv zeta. case_match; by apply Hplain.
  - intros [= <-]. apply (Hnone (after_wait o r)); [by destruct o|by destruct o; auto|by destruct o|by destruct o].
  - intros [= <-]. apply (Hnone (Run 0)); auto; done.
Qed.

Lemma exec_post_exclusive p u :
  point_of me s = p -> match p with Post _ _ _ | Sched _ _ => True | _ => False end ->
  set_event_step p s = Ok u -> exclusive u.
Proof.
  intros E Hp. pose proof (mx_wait _ Hx me (wf_current _ Hs)) as Hok. rewrite E in Hok.
  pose proof (wf_point s Hs) as Hpt. rewrite E in Hpt. pose proof (wf_events _ Hs) as Hlen.
  destruct p as [|t ev p|t p|timeout w|timeout d w|timeout d n w|timeout d n w|timeout d n w|timeout w|timeout w
    |evt w|evt w|evt w|rest r o|rest|m|m|m|m|m|ids|]; try done; cbn [set_event_step]; destruct Hpt as [[Ht1 Ht2] _].
  - assert (Hget : forall t', is_task t' s -> aget (events (or_events t ev s)) t' =
        if t' =? t then Z.lor (aget (events s) t) ev else aget (events s) t').
    { intros t' [Ht' _]. unfold or_events. cbn [events set_events]. rewrite aget_aset by lia. done. }
    intros [= <-]. apply (exclusive_go s (or_events t ev s) (Post t ev p)); try done.
    + intros t' Ht' _ Hb. rewrite Hget by done. destruct (Z.eqb_spec t' t) as [->|]; [by rewrite Z.lor_spec, Hb|done].
    + split; try done. intros t' Ht' Hb. change (events (go _ ?v)) with (events v). rewrite Hget by done.
      destruct p as [|ids]; [done|]. cbn in Hok. cbn [notifies] in Hb |- *. destruct (Z.eqb_spec t' t) as [->|]; [right|by left].
      rewrite Z.lor_spec, Hok. apply orb_true_r.
  - assert (Hg : exclusive (go (after_post p) s)).
    { apply (exclusive_go s s (Sched t p)); try done. split; try by destruct p.
      intros t' Ht' Hb. left. by destruct p. }
    cbv zeta. destruct (irq_enabled _); [|intros [= <-]; by apply (exclusive_ext (go (after_post p) s))].
    unfold svc_handler. case_match; [done|]. cbv zeta. case_match; [done|]. intros [= <-].
    by apply (exclusive_ext (go (after_post p) s)).
Qed.

(** *** Steps that change a mutex *)

Lemma mutex_of_set m v k : mutex_ok m s -> mutex_of k (set_mutex m v s) = if (k =? m)%nat then v else mutex_of k s.
Proof.
  intros Hm. unfold mutex_of, set_mutex. cbn [mutexes set_mutexes]. destruct (Nat.eqb_spec k m) as [->|].
  - by apply list_lookup_total_insert_eq.
  - by apply list_lookup_total_insert_ne.
Qed.

(** The current task goes from [p] to [q], and the mutex [m] and what the task
    holds change together. *)
Record changes m (mx : mutex) (h : list nat) (p q : point) : Prop := {
  c_word : lock mx = 0 \/ lock mx = 2;
  c_others : forall k, k <> m -> k ∈ h <-> k ∈ holds_of me s;
  c_mine : m ∈ h -> lock mx = 2 /\ forall t, is_task t s -> t <> me -> m ∉ holds_of t s;
  c_holder : lock mx = 2 -> m ∈ h \/ exists t, is_task t s /\ t <> me /\ m ∈ holds_of t s;
  c_held : forall t, is_task t s -> t <> me -> m ∈ holds_of t s -> lock mx = 2;
  c_unlock : forall k, q <> Unlock k;
  c_waiters : forall t, is_task t s -> t <> me -> Z.testbit (waiters (mutex_of m s)) t = true ->
    Z.testbit (waiters mx) t = true;
  c_registered : forall k, registered q = Some k ->
    Z.testbit (waiters (if (k =? m)%nat then mx else mutex_of k s)) me = true;
  c_waiting : waiting_on q = None;
  c_signal : forall t, is_task t s -> t <> me -> registered (point_of t s) = Some m -> lock_of m s = 2 ->
    lock mx = 2 \/ notifies q t = true;
  c_quiet : forall t, notifies p t = false;
  c_wait : wait_ok q }.

Lemma waiting_registered p m : waiting_on p = Some m -> registered p = Some m.
Proof. by destruct p. Qed.

Lemma exclusive_change m mx h p q v :
  mutex_ok m s -> point_of me s = p -> mutexes v = mutexes (set_mutex m mx s) -> threads v = threads s ->
  events v = events s -> current_task v = me -> changes m mx h p q -> exclusive (go_holding q h v).
Proof.
  intros Hm E Emx Et Ee Ec [] . pose proof Hx as []. set (u := go_holding q h v).
  assert (Hc : is_task (current_task v) v) by (unfold is_task, ntasks; rewrite Ec, Et; apply (wf_current _ Hs)).
  assert (Hn : forall t, is_task t u <-> is_task t s).
  { intros t. unfold is_task, u. rewrite ntasks_go_holding. unfold ntasks. by rewrite Et. }
  assert (Hp : forall t, is_task t s -> point_of t u = if t =? me then q else point_of t s).
  { intros t [Ht _]. unfold u. rewrite point_go_holding, Ec by done. unfold point_of. by rewrite Et. }
  assert (Hmx : forall k, mutex_of k u = if (k =? m)%nat then mx else mutex_of k s).
  { intros k. unfold mutex_of at 1. change (mutexes u) with (mutexes v). rewrite Emx. by apply mutex_of_set. }
  assert (Hh : forall t k, is_task t s -> k ∈ holds_of t u <-> if t =? me then k ∈ h else k ∈ holds_of t s).
  { intros t k [Ht _]. unfold u. rewrite holds_go_holding, Ec by done. unfold holds_of. rewrite Et. by case_match. }
  assert (Hnot : forall t, notified t s -> notified t u).
  { intros t (w & Hw & Hwt). exists w. rewrite Hn, Hp by done. split; [done|]. destruct (Z.eqb_spec w me) as [->|]; [|done].
    by rewrite E, c_quiet0 in Hwt. }
  split.
  - intros k. rewrite Hmx. by destruct (k =? m)%nat.
  - intros t k Ht%Hn. rewrite Hh, Hmx by done. destruct (Z.eqb_spec t me) as [->|]; destruct (Nat.eqb_spec k m) as [->|]; intros Hk.
    + by apply c_mine0.
    + apply (mx_held0 me); [done|]. by apply c_others0.
    + by apply (c_held0 t).
    + by apply (mx_held0 t).
  - intros k. rewrite Hmx. destruct (Nat.eqb_spec k m) as [->|Hk]; intros Hl.
    + destruct (c_holder0 Hl) as [?|(t & Ht & Hne & ?)].
      * exists me. rewrite Hn, Hh, Z.eqb_refl by apply (wf_current _ Hs). by split; [apply (wf_current _ Hs)|].
      * exists t. rewrite Hn, Hh by done. by rewrite (proj2 (Z.eqb_neq _ _)).
    + destruct (mx_holder0 k Hl) as (t & Ht & Hin). exists t. rewrite Hn, Hh by done. split; [done|].
      destruct (Z.eqb_spec t me) as [->|]; [by apply c_others0|done].
  - assert (Hone : forall t k, is_task t s -> t <> me -> k ∈ h -> k ∈ holds_of t s -> False).
    { intros t k Ht Hne Hk1 Hk2. destruct (Nat.eq_dec k m) as [->|Hk].
      - destruct (c_mine0 Hk1) as [_ Hno]. by apply (Hno t).
      - apply Hne. apply (mx_single0 t me k); [done|apply (wf_current _ Hs)|done|]. by apply c_others0. }
    intros t w k Ht%Hn Hw%Hn. rewrite !Hh by done.
    destruct (Z.eqb_spec t me) as [->|], (Z.eqb_spec w me) as [->|]; intros Hk1 Hk2; [done| | |by apply (mx_single0 t w k)].
    + by destruct (Hone w k).
    + by destruct (Hone t k).
  - intros t k Ht%Hn. rewrite Hp, Hh by done. destruct (Z.eqb_spec t me); [by intros ->; destruct (c_unlock0 k)|].
    by apply mx_unlock0.
  - intros t k Ht%Hn. rewrite Hp, Hmx by done. destruct (Z.eqb_spec t me) as [->|]; [by apply c_registered0|].
    intros Hr. pose proof (mx_registered0 t k Ht Hr). destruct (Nat.eqb_spec k m) as [->|]; [by apply c_waiters0|done].
  - intros t k Ht%Hn Hw. rewrite Hmx. rewrite Hp in Hw by done. destruct (Z.eqb_spec t me) as [->|Hne]; [congruence|].
    assert (Hsig : signalled t s -> signalled t u).
    { intros [H|[H|H]]; [left|right; left|right; right; by apply Hnot].
      - change (events u) with (events v). by rewrite Ee.
      - rewrite Hp by done. by rewrite (proj2 (Z.eqb_neq _ _)). }
    destruct (mx_signal0 t k Ht Hw) as [Hl|H]; [|by right; apply Hsig].
    destruct (Nat.eqb_spec k m) as [->|]; [|by left].
    destruct (c_signal0 t Ht Hne (waiting_registered _ _ Hw) Hl) as [?|H]; [by left|right; right; right].
    exists me. rewrite Hn, Hp, Z.eqb_refl by apply (wf_current _ Hs). by split; [apply (wf_current _ Hs)|].
  - intros t Ht%Hn. rewrite Hp by done. destruct (t =? me); [done|by apply mx_wait0].
Qed.

Lemma exec_mutex_exclusive p u :
  point_of me s = p ->
  match p with LockEnter _ | TryLock _ | Locked _ | TryOnce _ | Unlock _ | Notify _ | ClearMutex => True | _ => False end ->
  exec s = Ok u -> exclusive u.
Proof.
  intros E Hp. pose proof (wf_point s Hs) as Hok. rewrite E in Hok. pose proof (wf_current _ Hs) as [Hc1 Hc2].
  pose proof Hx as []. pose proof (mx_registered0 me) as Hreg. rewrite E in Hreg.
  assert (Hhold : forall m t, is_task t s -> t <> me -> m ∈ holds_of me s -> m ∉ holds_of t s).
  { intros m t Ht Hne H1 H2. apply Hne. by apply (mx_single0 t me m). }
  assert (Hwho : forall m, lock_of m s = 2 -> m ∈ holds_of me s \/ exists t, is_task t s /\ t <> me /\ m ∈ holds_of t s).
  { intros m (t & Ht & Hin)%mx_holder0. destruct (Z.eq_dec t me) as [->|]; [by left|right; by exists t]. }
  assert (Htake : forall m q, mutex_ok m s -> (forall t, notifies p t = false) -> lock_of m s = 0 -> waiting_on q = None ->
    wait_ok q -> (forall k, q <> Unlock k) -> (forall k, registered q = Some k -> registered p = Some k) ->
    exclusive (go_holding q (m :: holds_of me s) (set_mutex m (Mutex 2 (waiters (mutex_of m s))) s))).
  { intros m q Hm Hno H0 Hq Hw Hu Hr. apply (exclusive_change m (Mutex 2 (waiters (mutex_of m s))) _ p); try done. split; try done.
    - by right.
    - intros k Hk. rewrite elem_of_cons. intuition congruence.
    - intros _. split; [done|]. intros t Ht _ Hin. pose proof (mx_held0 t m Ht Hin). lia.
    - intros _. left. apply elem_of_cons. by left.
    - intros k Hk%Hr. pose proof (Hreg k (wf_current _ Hs) Hk). by destruct (Nat.eqb_spec k m) as [->|].
    - by left. }
  unfold exec. cbv zeta. rewrite E.
  destruct p as [|t ev p|t p|timeout w|timeout d w|timeout d n w|timeout d n w|timeout d n w|timeout w|timeout w
    |evt w|evt w|evt w|rest r o|rest|m|m|m|m|m|ids|]; try done; cbn [mutex_lock_step mutex_unlock_step].
  - intros [= <-]. apply (exclusive_change m (Mutex (lock_of m s) (set_bit me (waiters (mutex_of m s)))) (holds_of me s) (LockEnter m)); try done.
    split; try done.
    + apply mx_word0.
    + intros Hin. split; [by apply (mx_held0 me)|]. intros t Ht Hne. by apply Hhold.
    + intros. by apply Hwho.
    + intros t Ht _. by apply mx_held0.
    + intros t [Ht _] _ Hb. cbn [waiters]. rewrite testbit_set by done. by rewrite Hb.
    + intros k [= <-]. rewrite Nat.eqb_refl. cbn [waiters]. rewrite testbit_set by done. rewrite Z.eqb_refl. apply orb_true_r.
    + by left.
  - unfold mutex_try_lock. destruct (Z.eqb_spec (lock_of m s) 0) as [E0|]; intros [= <-].
    + by apply Htake.
    + apply (exclusive_go s s (TryLock m)); try done. split; try done.
      intros k [= <-]. left. by destruct (mx_word0 m).
  - intros [= <-]. apply (exclusive_change m (Mutex (lock_of m s) (clear_bit me (waiters (mutex_of m s)))) (holds_of me s) (Locked m)); try done.
    split; try done.
    + apply mx_word0.
    + intros Hin. split; [by apply (mx_held0 me)|]. intros t Ht Hne. by apply Hhold.
    + intros. by apply Hwho.
    + intros t Ht _. by apply mx_held0.
    + intros t [Ht _] Hne Hb. cbn [waiters]. rewrite testbit_clear, Hb by done. by rewrite (proj2 (Z.eqb_neq _ _)).
    + by left.
  - unfold mutex_try_lock. destruct (Z.eqb_spec (lock_of m s) 0) as [E0|]; intros [= <-].
    + by apply Htake.
    + by apply (exclusive_go s s (TryOnce m)).
  - pose proof (mx_unlock0 me m (wf_current _ Hs) E) as Hmine. intros [= <-].
    apply (exclusive_change m (Mutex 0 (waiters (mutex_of m s))) _ (Unlock m)); try done.
    assert (Hf : forall k, k ∈ List.filter (fun k => negb (k =? m)%nat) (holds_of me s) <-> k ∈ holds_of me s /\ k <> m).
    { intros k. rewrite list_elem_of_In, filter_In, <- list_elem_of_In. by rewrite negb_true_iff, Nat.eqb_neq. }
    split; try done.
    + by left.
    + intros k Hk. rewrite Hf. by intuition.
    + by intros [_ ?]%Hf.
    + intros t Ht Hne Hin. by destruct (Hhold m t Ht Hne Hmine).
    + intros t Ht Hne Hr _. right. by apply mx_registered0.
  - destruct (Z.eqb_spec ids 0) as [->|]; intros [= <-].
    + apply (exclusive_go s s (Notify 0)); try done. split; try done. intros t _. cbn. by rewrite Z.bits_0.
    + assert (0 < ids) by (destruct Hok; lia). pose proof (fls_range _ ids ltac:(done) Hok).
      apply (exclusive_go s s (Notify ids)); try done. split; try done. intros t [Ht _] Hb. left. cbn [notifies] in *.
      rewrite testbit_clear, Hb by lia. cbn [andb]. destruct (t =? __fls ids); done.
  - intros [= <-]. apply (exclusive_go s (clear_events me TASK_EVENT_MUTEX s) ClearMutex); try done.
    intros t [Ht _] Hne Hb. unfold clear_events. cbn [set_events events].
    rewrite aget_aset_ne; [done|by rewrite (wf_events _ Hs)|done|done].
Qed.

Lemma exec_exclusive u : exec s = Ok u -> exclusive u.
Proof.
  remember (point_of me s) as p eqn:E. symmetry in E.
  pose proof (exec_post_exclusive p u E) as H1. pose proof (exec_wait_exclusive p u E) as H2.
  pose proof (exec_return_exclusive p u E) as H3. pose proof (exec_mutex_exclusive p u E) as H4.
  unfold exec in *. cbv zeta in *. rewrite E in *. destruct p; auto; done.
Qed.
End Exec.

(** ** Calls, interrupts and time *)

Lemma exclusive_switched desched resched s : exclusive s -> exclusive (switched desched resched s).
Proof. by apply exclusive_ext. Qed.

Lemma begin_exclusive c s r u :
  wf s -> exclusive s -> point_of (current_task s) s = Run r -> allowed c s = true -> begin c s = Ok u -> exclusive u.
Proof.
  intros Hs Hx E Ha. pose proof (wf_current _ Hs) as Hme.
  assert (Hgo : forall q v, mutexes v = mutexes s -> threads v = threads s -> events v = events s ->
    current_task v = current_task s -> (forall m, q = Unlock m -> m ∈ holds_of (current_task s) s) ->
    registered q = None -> wait_ok q -> exclusive (go q v)).
  { intros q v Em Et Ee Ec Hu Hr Hw. apply (exclusive_go s v (Run r)); try done; [by rewrite Ee|].
    assert (waiting_on q = None) by (destruct (waiting_on q) eqn:Ew; [|done]; apply waiting_registered in Ew; congruence).
    split; try done; [by rewrite Hr|congruence]. }
  destruct c as [t ev|timeout|mask timeout|us|m|m|m| | |t|t|]; cbn [begin allowed] in *; try (intros [= <-]).
  1-3, 5-6: by apply Hgo.
  - case_match; by apply Hgo.
  - apply Hgo; try done. intros k [= <-]. apply andb_prop in Ha as [_ (x & Hx1 & ->%Nat.eqb_eq)%existsb_exists].
    by apply list_elem_of_In.
  - by apply (exclusive_ext s).
  - by apply (exclusive_ext s).
  - by apply (exclusive_ext s).
  - unfold task_disable_task. cbv zeta. case_match; by apply Hgo.
  - unfold task_enable_all_tasks, svc_handler. cbv zeta. cbn [andb].
    repeat case_match; intros [= <-]; by apply (exclusive_ext s).
Qed.

(** What the handlers of an interrupt do to a task's events. *)
Lemma event_irq_exclusive t ev s : wf s -> is_task t s -> exclusive s -> exclusive (task_set_event_irq t ev s).
Proof.
  intros Hs [Ht1 Ht2]. apply exclusive_ext; [done|done|]. intros t' [Ht' _] Hb.
  cbn [task_set_event_irq make_ready set_need_resched set_ready or_events set_events events].
  rewrite aget_aset by (done || by rewrite (wf_events _ Hs)). destruct (Z.eqb_spec t' t) as [->|]; [|done].
  by rewrite Z.lor_spec, Hb.
Qed.
Lemma expire_exclusive woken : forall s,
  wf s -> Forall (fun t => is_task t s) woken -> exclusive s -> exclusive (expire woken s).
Proof.
  induction woken as [|t l IH]; intros s Hs Hl Ha; [done|]. inversion_clear Hl as [|?? Ht Hl'].
  cbn [expire foldl]. apply IH; [by apply wf_set_event_irq|done|by apply event_irq_exclusive].
Qed.
Lemma handle_exclusive h s u : wf s -> exclusive s -> handle h s = Ok u -> exclusive u.
Proof.
  intros Hs Ha. destruct h as [t ev|los]; cbn [handle].
  - destruct (_ && _) eqn:E; [|done]. apply andb_prop in E as [[[E1 E2]%andb_prop _]%andb_prop _]. intros [= <-].
    apply event_irq_exclusive; [done|split; lia|done].
  - destruct (rising _ _) eqn:Er; [|done]. cbn [negb]. destruct (process_timers _ _ _) as [[[t w] lo]|] eqn:E; [|done].
    intros [= <-]. destruct (timer_handled s los t w lo Hs Er E) as (lo1 & _ & _ & _ & Hw & Hwf).
    apply expire_exclusive; [done|done|by apply (exclusive_ext s)].
Qed.
Lemma interrupt_exclusive l s u : wf s -> exclusive s -> interrupt l s = Ok u -> exclusive u.
Proof.
  intros Hs Ha. unfold interrupt. destruct (negb _); [done|].
  assert (Hall : forall v, handle_all l s = Ok v -> wf v /\ exclusive v).
  { revert s Hs Ha. induction l as [|h l IH]; intros s Hs Ha v; cbn [handle_all]; [by intros [= <-]|].
    pose proof (handle_wf h s Hs) as Hw. destruct (handle h s) as [w| |] eqn:E; [|done..].
    apply IH; [done|by apply (handle_exclusive h s)]. }
  destruct (handle_all l s) as [v| |]; [|done..]. destruct (Hall v eq_refl) as [Hv Hav].
  unfold task_resched_if_needed. destruct (negb _); [by intros [= <-]|].
  destruct (svc_switched false TASK_ID_IDLE v Hv (idle_task _ Hv) ltac:(done)) as (-> & _). intros [= <-].
  by apply exclusive_switched.
Qed.

Lemma step_exclusive a s u : wf s -> exclusive s -> step a s = Ok u -> exclusive u.
Proof.
  intros Hs Ha. destruct a as [|c|l|dt]; cbn [step].
  - destruct (interrupted s); [done|by apply exec_exclusive].
  - destruct (point_of _ _) eqn:E; try done. destruct (_ || _) eqn:Ec; [done|].
    apply orb_false_iff in Ec as [_ Ec%negb_false_iff]. by eapply begin_exclusive.
  - by apply interrupt_exclusive.
  - unfold tick. cbv zeta. repeat case_match; intros [= <-]; by apply (exclusive_ext s).
Qed.

Lemma steps_exclusive l : forall s u, wf s -> exclusive s -> steps l s = Ok u -> wf u /\ exclusive u.
Proof.
  induction l as [|a l IH]; intros s u Hs Ha; cbn [steps]; [by intros [= <-]|].
  pose proof (step_wf a s Hs) as Hw. destruct (step a s) as [v| |] eqn:E; [|done..].
  apply IH; [done|by apply (step_exclusive a s)].
Qed.

Lemma task_start_exclusive n hooks k : exclusive (task_start n hooks k).
Proof.
  assert (Ht : forall t, aget (threads (task_start n hooks k)) t = Thread (Run 0) []).
  { intros t. unfold aget. cbn [threads task_start]. rewrite list_lookup_total_alt.
    destruct (replicate _ _ !! _) as [x|] eqn:E; [|done]. by apply lookup_replicate in E as [-> _]. }
  assert (Hm : forall m, lock_of m (task_start n hooks k) = 0).
  { intros m. unfold mutex_of. cbn [mutexes task_start]. rewrite list_lookup_total_alt.
    destruct (replicate _ _ !! _) as [x|] eqn:E; [|done]. by apply lookup_replicate in E as [-> _]. }
  assert (Hno : forall m t, m ∉ holds_of t (task_start n hooks k)) by (intros m t; unfold holds_of; rewrite Ht; cbn; by apply not_elem_of_nil).
  split.
  - intros m. rewrite Hm. by left.
  - intros t m _ []%Hno.
  - intros m. by rewrite Hm.
  - intros t u m _ _ []%Hno.
  - intros t m _. unfold point_of. by rewrite Ht.
  - intros t m _. unfold point_of. by rewrite Ht.
  - intros t m _. unfold point_of. by rewrite Ht.
  - intros t _. unfold point_of. by rewrite Ht.
Qed.
Lemma reached_exclusive n hooks k l s :
  2 <= n < 30 -> 0 < hooks < n -> steps l (task_start n hooks k) = Ok s -> exclusive s.
Proof.
  intros Hn Hh Hl. by apply (steps_exclusive l _ s (task_start_wf n hooks k Hn Hh) (task_start_exclusive n hooks k)).
Qed.

(** C15. A mutex excludes: in every state that can be reached, however tasks and
    interrupts interleave, no two tasks hold the same mutex, and the mutex's
    lock word is 2 when some task holds it and 0 otherwise. *)
Theorem mutex_exclusive n hooks k l s m :
  2 <= n < 30 -> 0 < hooks < n -> steps l (task_start n hooks k) = Ok s ->
  (forall t u, is_task t s -> is_task u s -> m ∈ holds_of t s -> m ∈ holds_of u s -> t = u) /\
  ((lock_of m s = 2 /\ exists t, is_task t s /\ m ∈ holds_of t s) \/
   (lock_of m s = 0 /\ forall t, is_task t s -> m ∉ holds_of t s)).
Proof.
  intros Hn Hh Hl. destruct (reached_exclusive n hooks k l s Hn Hh Hl).
  split; [intros t u; by apply mx_single0|]. destruct (mx_word0 m) as [E|E]; [right|left].
  - split; [done|]. intros t Ht Hin. pose proof (mx_held0 t m Ht Hin). lia.
  - split; [done|by apply mx_holder0].
Qed.

(** Task 2 locks the mutex and sleeps; task 1 finds it locked and waits for it. *)
Definition contended_run : list action :=
  [Call CEnableAll; Call (CLock 0); Exec; Exec; Exec; Call (CUsleep 1000); Exec; Exec; Exec; Exec; Exec;
   Irq [HTimer [0; 0; 0]]; Exec; Exec; Call (CLock 0); Exec; Exec; Exec; Exec; Exec].
Definition contended : kernel := state_after contended_run (task_start 3 1 1).
Lemma mutex_exclusive_witness :
  (forall t u, is_task t contended -> is_task u contended ->
     0%nat ∈ holds_of t contended -> 0%nat ∈ holds_of u contended -> t = u) /\
  ((lock_of 0%nat contended = 2 /\ exists t, is_task t contended /\ 0%nat ∈ holds_of t contended) \/
   (lock_of 0%nat contended = 0 /\ forall t, is_task t contended -> 0%nat ∉ holds_of t contended)).
Proof. apply (mutex_exclusive 3 1 1 contended_run); [lia|lia|by vm_compute]. Defined.

(** C16. No wakeup is lost: in every state that can be reached, a task that waits
    for a mutex is entered among its waiters, and unless another task holds the
    mutex, the task has been signalled: its event is pending, and then it is
    ready or about to be made so, or it has taken the event and is on its way
    back to the lock, or a task in [mutex_unlock] has it on its list. *)
Theorem mutex_wakeup n hooks k l s t m :
  2 <= n < 30 -> 0 < hooks < n -> steps l (task_start n hooks k) = Ok s ->
  is_task t s -> waiting_on (point_of t s) = Some m ->
  Z.testbit (waiters (mutex_of m s)) t = true /\
  ((exists u, is_task u s /\ m ∈ holds_of u s) \/
   (mutex_bit (aget (events s) t) = true /\ (Z.testbit (tasks_ready s) t = true \/ setting t s)) \/
   mutex_bit (in_hand (point_of t s)) = true \/ notified t s).
Proof.
  intros Hn Hh Hl Ht Hw. pose proof (task_start_wf n hooks k Hn Hh) as H0.
  destruct (reached_exclusive n hooks k l s Hn Hh Hl).
  destruct (steps_attended l _ s H0 (task_start_attended n hooks k) Hl) as [_ Ha].
  split; [by apply mx_registered0, waiting_registered|].
  destruct (mx_signal0 t m Ht Hw) as [Hm%mx_holder0|[H|H]]; [by left|right; left|by right; right].
  split; [done|]. apply Ha; [done|]. intros E. by rewrite E, Z.bits_0 in H.
Qed.
(** Task 2 wakes and unlocks, with task 1 on its list. *)
Definition released_run : list action :=
  contended_run ++ [Tick 1000; Irq [HTimer [1000; 1000; 1000]]; Exec; Exec; Exec; Exec; Exec; Call (CUnlock 0); Exec].
Definition released : kernel := state_after released_run (task_start 3 1 1).
Lemma mutex_wakeup_witness :
  lock_of 0%nat released = 0 /\ waiting_on (point_of 1 released) = Some 0%nat /\
  Z.testbit (waiters (mutex_of 0%nat released)) 1 = true /\
  ((exists u, is_task u released /\ 0%nat ∈ holds_of u released) \/
   (mutex_bit (aget (events released) 1) = true /\ (Z.testbit (tasks_ready released) 1 = true \/ setting 1 released)) \/
   mutex_bit (in_hand (point_of 1 released)) = true \/ notified 1 released).
Proof.
  split; [by vm_compute|]. split; [by vm_compute|].
  apply (mutex_wakeup 3 1 1 released_run); [lia|lia|by vm_compute|by vm_compute|by vm_compute].
Defined.
End TaskMutex.
