(* ===== verification/Printf.v ===== *)
(** * Formatted printing (common/printf.c and [crec_snprintf] of builtin/stdlib.c)

    The format interpreter [vfnprintf], which sends each character to a function
    of its caller, number formatting in a buffer, and the functions that print
    into a buffer.

    A string is a list of characters with its terminating zero; a pointer into
    it is the rest of the list.  [va_list] is a list of typed arguments, as the
    caller pushed them.  [int], [long], [size_t] and pointers have 32 bits;
    CONFIG_PRINTF_LONG_IS_32BITS and CONFIG_CONSOLE_VERBOSE are parameters. *)

From stdpp Require Import sets.
From S2P Require Import Prelude Libc Util.
Import Str Util.

Module Printf.

(** ** Numbers *)

(** src/common/printf.c:40-46 [hexdigit] *)
Definition hexdigit (c : Z) : Z :=
  let c := Z.land c 0x0f in
  if 9 <? c then c + 97 - 10 else c + 48.

(** [*(--str) = c], where [str] is an index into [buf]; [None] out of bounds. *)
Definition push (c : Z) (b : list Z * Z) : option (list Z * Z) :=
  let '(buf, str) := b in
  if (0 <? str) && (str <=? Z.of_nat (length buf)) then Some (aset buf (str - 1) c, str - 1) else None.

(** src/common/printf.c:86-87 [uint64_to_str] *)
Fixpoint fixed_digits (n : nat) (val : Z) (b : list Z * Z) : option (Z * (list Z * Z)) :=
  match n with
  | O => Some (val, b)
  | S n =>
    let '(val, r) := uint64divmod val 10 in
    b ← push (48 + r) b; fixed_digits n val b
  end.

(** [fuel] is more than the number of digits; [Some None] is NULL. *)
(** src/common/printf.c:94-107 [uint64_to_str] *)
Fixpoint digits (fuel : nat) (val base : Z) (uppercase : bool) (b : list Z * Z) : option (option (list Z * Z)) :=
  match fuel with
  | O => None
  | S fuel =>
    if val =? 0 then Some (Some b)
    else if b.2 <=? 0 then Some None
    else
      let '(val, digit) := uint64divmod val base in
      b ← push (if digit <? 10 then 48 + digit else if uppercase then 65 + digit - 10 else 97 + digit - 10) b;
      digits fuel val base uppercase b
  end.

(** The string in the buffer; [None] when the buffer is overrun, [Some None]
    for NULL. *)
(** src/common/printf.c:54-110 [uint64_to_str] *)
Definition uint64_to_str (buf : list Z) (buf_len val precision base : Z) (uppercase : bool) : option (option (list Z)) :=
  if buf_len <=? 1 then Some None
  else if base <=? 1 then Some None
  else
    b ← push 0 (buf, buf_len);
    let precision' := if buf_len - 3 <? precision then buf_len - 3 else precision in
    if (buf_len - 3 <? precision) && (precision' <? 0) then Some None
    else
      '(val, b) ← fixed_digits (Z.to_nat precision') val b;
      b ← (if 0 <=? precision' then push 46 b else Some b);
      b ← (if val =? 0 then push 48 b else Some b);
      r ← digits 65 val base uppercase b;
      Some ('(buf, str) ← r; Some (drop (Z.to_nat str) buf)).

(** ** The interpreter *)

(** An argument of 32 or 64 bits, as unsigned, or a pointer with the characters
    at its address. *)
Inductive arg := Int (v : Z) | Long (v : Z) | Ptr (a : Z) (s : list Z).

(** src/common/printf.c:48-52 [PF_64BIT] *)
Definition PF_LEFT : Z := BIT 0.
Definition PF_PADZERO : Z := BIT 1.
Definition PF_SIGN : Z := BIT 2.
Definition PF_64BIT : Z := BIT 3.
Definition MAX_FORMAT : Z := 1024.
(** src/common/printf.c:29-29 [error_str] *)
Definition error_str : list Z := [69; 82; 82; 79; 82; 0].
Definition null_str : list Z := [40; 78; 85; 76; 76; 41; 0].
Definition flag (flags x : Z) : bool := bool_of_Z (Z.land flags x).

Section Interpreter.
(** CONFIG_PRINTF_LONG_IS_32BITS; the caller's function with its context, which
    returns true when it drops the character. *)
Context (long_is_32bits : bool) {S : Type} (addchar : S -> Z -> S * bool).

(** [Full] is EC_ERROR_OVERFLOW; [Mismatch] an argument that is missing or has
    another type; [Crash] a read behind the format, a buffer overrun or a failed
    ASSERT; [Fuel] a loop that goes on. *)
Inductive outcome (A : Type) := Go (a : A) | Full (s : S) | Mismatch | Crash | Fuel.
Arguments Go {A}. Arguments Full {A}. Arguments Mismatch {A}. Arguments Crash {A}. Arguments Fuel {A}.
Definition bind {A B} (x : outcome A) (f : A -> outcome B) : outcome B :=
  match x with Go a => f a | Full s => Full s | Mismatch => Mismatch | Crash => Crash | Fuel => Fuel end.
Notation "x <~ e ; k" := (bind e (fun x => k)) (at level 20, e at level 100, k at level 200, right associativity).
Notation "' p <~ e ; k" := (bind e (fun x => let p := x in k))
  (at level 20, p pattern, e at level 100, k at level 200, right associativity).

Definition emit (c : Z) (s : S) : outcome S :=
  let '(s, dropped) := addchar s c in if dropped then Full s else Go s.
(** [c = *format++]. *)
Definition fetch (format : list Z) : outcome (Z * list Z) :=
  match format with [] => Crash | c :: format => Go (c, format) end.

(** [va_arg] with the types [int], [uint32_t], [uint64_t] and [void *]. *)
Definition va_u32 (args : list arg) : outcome (Z * list arg) :=
  match args with Int v :: args => Go (v, args) | _ => Mismatch end.
Definition va_int (args : list arg) : outcome (Z * list arg) :=
  '(v, args) <~ va_u32 args; Go (s32 v, args).
Definition va_u64 (args : list arg) : outcome (Z * list arg) :=
  match args with Long v :: args => Go (v, args) | _ => Mismatch end.
Definition va_ptr (args : list arg) : outcome (Z * list Z * list arg) :=
  match args with Ptr a s :: args => Go (a, s, args) | _ => Mismatch end.

(** *** Flags, width and precision

    [c] is the current character and [format] the rest. *)

(** src/common/printf.c:304-314 [vfnprintf] *)
Fixpoint parse_flags (format : list Z) (c flags : Z) : outcome (Z * list Z * Z) :=
  if (c =? 45) || (c =? 43) then
    let flags := if c =? 45 then Z.lor flags PF_LEFT else flags in
    let flags := if c =? 43 then Z.lor flags PF_SIGN else flags in
    match format with [] => Crash | c :: format => parse_flags format c flags end
  else Go (c, format, flags).
(** src/common/printf.c:317-320 [vfnprintf] *)
Fixpoint parse_zeros (format : list Z) (c flags : Z) : outcome (Z * list Z * Z) :=
  if c =? 48 then
    match format with [] => Crash | c :: format => parse_zeros format c (Z.lor flags PF_PADZERO) end
  else Go (c, format, flags).
(** src/common/printf.c:328-331 [vfnprintf] *)
Fixpoint parse_number (format : list Z) (c n : Z) : outcome (Z * list Z * Z) :=
  if (48 <=? c) && (c <=? 57) then
    match format with [] => Crash | c' :: format => parse_number format c' (s32 (10 * n + c - 48)) end
  else Go (c, format, n).
(** src/common/printf.c:323-332 [vfnprintf] *)
Definition parse_count (format : list Z) (c : Z) (args : list arg) : outcome (Z * list Z * Z * list arg) :=
  if c =? 42 then
    '(n, args) <~ va_int args;
    '(c, format) <~ fetch format; Go (c, format, n, args)
  else '(c, format, n) <~ parse_number format c 0; Go (c, format, n, args).

(** *** Output of a field *)

Fixpoint pad (n : nat) (c : Z) (s : S) : outcome S :=
  match n with O => Go s | Datatypes.S n => s <~ emit c s; pad n c s end.
(** src/common/printf.c:529-532 [vfnprintf] *)
Fixpoint put_chars (precision : nat) (vstr : list Z) (s : S) : outcome S :=
  match precision with
  | O => Go s
  | Datatypes.S precision =>
    if deref vstr =? 0 then Go s else s <~ emit (deref vstr) s; put_chars precision (next vstr) s
  end.

(** [sign] is zero, '-' or '+'. *)
(** src/common/printf.c:481-541 [vfnprintf] *)
Definition put_field (flags pad_width precision sign : Z) (vstr : list Z) (s : S) : outcome S :=
  let '(vlen, precision) :=
    if precision <? 0 then let vlen := strlen vstr in (vlen, Z.max vlen pad_width)
    else (strnlen vstr (Z.to_nat precision), precision) in
  let vlen := if bool_of_Z sign then vlen + 1 else vlen in
  let fill := Z.to_nat (pad_width - vlen) in
  '(sign, s) <~
    (if negb (flag flags PF_LEFT) then
       '(sign, s) <~
         (if bool_of_Z sign && flag flags PF_PADZERO then s <~ emit sign s; Go (0, s) else Go (sign, s));
       s <~ pad fill (if flag flags PF_PADZERO then 48 else 32) s; Go (sign, s)
     else Go (sign, s));
  s <~ (if bool_of_Z sign then emit sign s else Go s);
  s <~ put_chars (Z.to_nat precision) vstr s;
  if flag flags PF_LEFT then pad fill 32 s else Go s.

(** *** Conversions *)

(** The length modifier; [None] for an error. *)
(** src/common/printf.c:379-415 [vfnprintf] *)
Definition parse_length (format : list Z) (c flags : Z) : outcome (option (Z * list Z * Z)) :=
  if c =? 108 then
    '(c, format) <~ fetch format;
    '(c, format, flags) <~
      (if c =? 108 then '(c, format) <~ fetch format; Go (c, format, Z.lor flags PF_64BIT)
       else Go (c, format, flags));
    if negb long_is_32bits && negb (flag flags PF_64BIT) then Go None else Go (Some (c, format, flags))
  else if c =? 122 then '(c, format) <~ fetch format; Go (Some (c, format, flags))
  else Go (Some (c, format, flags)).

(** [v] is zero-extended from 32 bits unless the flag PF_64BIT is set. *)
(** src/common/printf.c:435-451 [vfnprintf] *)
Definition sign_of (v flags : Z) : Z * Z :=
  if flag flags PF_64BIT then
    if swrap 64 v <? 0 then (45, if v =? 2 ^ 63 then v else u64 (- v))
    else (if flag flags PF_SIGN then 43 else 0, v)
  else
    if s32 v <? 0 then (45, if v =? 2 ^ 31 then v else u64 (- s32 v))
    else (if flag flags PF_SIGN then 43 else 0, v).

(** The value, and [c], which a pointer turns into -1. *)
(** src/common/printf.c:417-428 [vfnprintf] *)
Definition take_value (c flags : Z) (args : list arg) : outcome (Z * Z * list arg) :=
  if c =? 112 then '(a, _, args) <~ va_ptr args; Go (-1, a, args)
  else if flag flags PF_64BIT then '(v, args) <~ va_u64 args; Go (c, v, args)
  else '(v, args) <~ va_u32 args; Go (c, v, args).

(** The sign, the value and the base; [None] for a bad specifier. *)
(** src/common/printf.c:430-466 [vfnprintf] *)
Definition convert (c v flags : Z) : option (Z * Z * Z) :=
  if ((c =? 105) && long_is_32bits) || (c =? 100) then let '(sign, v) := sign_of v flags in Some (sign, v, 10)
  else if (c =? 117) || (c =? 84) then Some (0, v, 10)
  else if (c =? 88) || (c =? 120) then Some (0, v, 16)
  else if c =? -1 then Some (0, v, 16)
  else None.

Definition intbuf : list Z := replicate 34 0.
(** src/common/printf.c:365-479 [vfnprintf] *)
Definition number_field (format : list Z) (c flags pad_width precision : Z) (args : list arg) (s : S)
    : outcome (list Z * list arg * S) :=
  r <~ parse_length format c flags;
  match r with
  | None => Go (error_str, args, s)
  | Some (c, format, flags) =>
    '(c', v, args) <~ take_value c flags args;
    match convert c' v flags with
    | None => Go (error_str, args, s)
    | Some (sign, v, base) =>
      match uint64_to_str intbuf 34 v precision base (c' =? 88) with
      | Some (Some vstr) => s <~ put_field flags pad_width (-1) sign vstr s; Go (format, args, s)
      | _ => Crash
      end
    end
  end.

Definition bad_count (n : Z) : bool := (n <? 0) || (MAX_FORMAT <? n).

(** The precision, -1 without one, and whether it is out of range. *)
(** src/common/printf.c:340-358 [vfnprintf] *)
Definition parse_precision (format : list Z) (c : Z) (args : list arg)
    : outcome (Z * list Z * Z * bool * list arg) :=
  if c =? 46 then
    '(c, format) <~ fetch format;
    '(c, format, precision, args) <~ parse_count format c args;
    Go (c, format, precision, bad_count precision, args)
  else Go (c, format, -1, false, args).

(** What follows a percent sign and the character [c]. *)
(** src/common/printf.c:304-541 [vfnprintf] *)
Definition field (format : list Z) (c : Z) (args : list arg) (s : S) : outcome (list Z * list arg * S) :=
  '(c, format, flags) <~ parse_flags format c 0;
  '(c, format, flags) <~ parse_zeros format c flags;
  '(c, format, pad_width, args) <~ parse_count format c args;
  if bad_count pad_width then Go (error_str, args, s)
  else
    '(c, format, precision, bad, args) <~ parse_precision format c args;
    if bad then Go (error_str, args, s)
    else if c =? 115 then
      '(a, vstr, args) <~ va_ptr args;
      s <~ put_field flags pad_width precision 0 (if a =? 0 then null_str else vstr) s; Go (format, args, s)
    else number_field format c flags pad_width precision args s.

(** One turn of the loop. *)
(** src/common/printf.c:268-542 [vfnprintf] *)
Fixpoint vfnprintf_loop (fuel : nat) (format : list Z) (args : list arg) (s : S) : outcome S :=
  match fuel with
  | O => Fuel
  | Datatypes.S fuel =>
    '(c, format) <~ fetch format;
    if c =? 0 then Go s
    else if negb (c =? 37) then s <~ emit c s; vfnprintf_loop fuel format args s
    else
      '(c, format) <~ fetch format;
      if (c =? 37) || (c =? 0) then
        s <~ emit 37 s;
        if c =? 0 then Go s else vfnprintf_loop fuel format args s
      else if c =? 99 then
        '(v, args) <~ va_int args; s <~ emit v s; vfnprintf_loop fuel format args s
      else '(format, args, s) <~ field format c args s; vfnprintf_loop fuel format args s
  end.
(** Every turn takes a character of the format, or goes on with [error_str]. *)
(** src/common/printf.c:252-546 [vfnprintf] *)
Definition vfnprintf (format : list Z) (args : list arg) (s : S) : outcome S :=
  vfnprintf_loop (length format + 7) format args s.

(** src/common/printf.c:189-193 [print_hex_buffer] *)
Fixpoint put_hex (vstr : list Z) (s : S) : outcome S :=
  match vstr with
  | [] => Go s
  | b :: vstr => s <~ emit (hexdigit (Z.shiftr b 4)) s; s <~ emit (hexdigit b) s; put_hex vstr s
  end.
(** [vstr] are the [precision] bytes. *)
(** src/common/printf.c:167-202 [print_hex_buffer] *)
Definition print_hex_buffer (vstr : list Z) (pad_width flags : Z) (s : S) : outcome S :=
  let precision := Z.of_nat (length vstr) in
  let pad_width := if precision <=? Z.quot pad_width 2 then pad_width - 2 * precision else 0 in
  s <~ (if negb (flag flags PF_LEFT)
        then pad (Z.to_nat pad_width) (if flag flags PF_PADZERO then 48 else 32) s else Go s);
  s <~ put_hex vstr s;
  if flag flags PF_LEFT then pad (Z.to_nat pad_width) 32 s else Go s.
End Interpreter.
Arguments Go {S A}. Arguments Full {S A}. Arguments Mismatch {S A}. Arguments Crash {S A}. Arguments Fuel {S A}.

(** ** Printing into a buffer

    [str] is the memory from the start of the buffer on. *)

(** src/builtin/stdlib.c:26-30 [snprintf_context] *)
Record snprintf_context := Context { mem : list Z; str : Z; size : Z }.
(** src/builtin/stdlib.c:39-49 [snprintf_addchar] *)
Definition snprintf_addchar (ctx : snprintf_context) (c : Z) : snprintf_context * bool :=
  if size ctx =? 0 then (ctx, true)
  else (Context (aset (mem ctx) (str ctx) (u8 c)) (str ctx + 1) (size ctx - 1), false).

(** The memory and the length or the error; [None] when [vfnprintf] crashes. *)
Definition terminate (r : outcome snprintf_context) : option (list Z * (Z + ec_error)) :=
  match r with
  | Go ctx => Some (aset (mem ctx) (str ctx) 0, inl (str ctx))
  | Full ctx => Some (aset (mem ctx) (str ctx) 0, inr EC_ERROR_OVERFLOW)
  | _ => None
  end.
(** [buf] is None for a null pointer, and so is [format]. *)
(** src/builtin/stdlib.c:51-68 [crec_vsnprintf] *)
Definition crec_vsnprintf (long_is_32bits : bool) (buf : option (list Z)) (size : Z) (format : option (list Z))
    (args : list arg) : option (list Z * (Z + ec_error)) :=
  match buf, format with
  | Some buf, Some format =>
    if size <=? 0 then Some (buf, inr EC_ERROR_INVAL)
    else terminate (vfnprintf long_is_32bits snprintf_addchar format args (Context buf 0 (s32 (size - 1))))
  | _, _ => Some (default [] buf, inr EC_ERROR_INVAL)
  end.

(** src/common/printf.c:210-221 [add_hex_char] *)
Definition add_hex_char (ctx : snprintf_context) (c : Z) : snprintf_context * bool :=
  if size ctx =? 0 then (ctx, true)
  else (Context (aset (mem ctx) (str ctx) (u8 c)) (str ctx + 1) (size ctx - 1), false).
(** src/common/printf.c:223-226 [hex_str_buf_size] *)
Definition hex_str_buf_size (num_bytes : Z) : Z := u32 (2 * num_bytes + 1).
(** [buffer] are the [params->size] bytes. *)
(** src/common/printf.c:228-250 [snprintf_hex_buffer] *)
Definition snprintf_hex_buffer (mem : list Z) (size : Z) (buffer : list Z) : option (list Z * (Z + ec_error)) :=
  if size =? 0 then Some (mem, inr EC_ERROR_INVAL)
  else terminate (print_hex_buffer add_hex_char buffer 0 0 (Context mem 0 (u32 (size - 1)))).

(** src/include/printf.h:22-22 [PRINTF_TIMESTAMP_BUF_SIZE] *)
Definition PRINTF_TIMESTAMP_BUF_SIZE : Z := 22.
(** src/common/printf.c:128-161 [snprintf_timestamp] *)
Definition snprintf_timestamp (verbose : bool) (mem : list Z) (size timestamp : Z)
    : option (list Z * (Z + ec_error)) :=
  if size =? 0 then Some (mem, inr EC_ERROR_INVAL)
  else
    let mem := aset mem 0 0 in
    let '(precision, timestamp) := if verbose then (6, timestamp) else (3, timestamp / 1000) in
    tmp_str ← uint64_to_str (replicate 22 0) PRINTF_TIMESTAMP_BUF_SIZE timestamp precision 10 false;
    match tmp_str with
    | None => Some (mem, inr EC_ERROR_OVERFLOW)
    | Some tmp_str =>
      let len := strlen tmp_str in
      if size <? len + 1 then Some (mem, inr EC_ERROR_OVERFLOW)
      else Some (take (Z.to_nat (len + 1)) tmp_str ++ drop (Z.to_nat (len + 1)) mem, inl len)
    end.

(** ** What a number looks like *)

Fixpoint digits_of (fuel : nat) (base v : Z) : list Z :=
  match fuel with
  | O => []
  | S fuel => if v =? 0 then [] else digits_of fuel base (v / base) ++ [v mod base]
  end.
Definition digit_char (uppercase : bool) (d : Z) : Z :=
  if d <? 10 then 48 + d else if uppercase then 65 + d - 10 else 97 + d - 10.
(** A number below 2^64 in a base. *)
Definition numeral (base : Z) (uppercase : bool) (v : Z) : list Z :=
  if v =? 0 then [48] else digit_char uppercase <$> digits_of 64 base v.
(** The [n] lowest decimal digits. *)
Fixpoint decimals (n : nat) (v : Z) : list Z :=
  match n with O => [] | S n => decimals n (v / 10) ++ [48 + v mod 10] end.
(** With a decimal point before the last [precision] digits. *)
Definition fixed (precision base : Z) (uppercase : bool) (v : Z) : list Z :=
  if precision <? 0 then numeral base uppercase v
  else numeral base uppercase (v / 10 ^ precision) ++ [46] ++ decimals (Z.to_nat precision) v.

(** ** Numbers in the buffer *)

Lemma divmod_small v d : is_u64 v -> 2 <= d <= 16 -> uint64divmod v d = (v / d, v mod d).
Proof.
  intros Hv Hd. rewrite (proj1 uint64divmod_correct) by (done || lia).
  by rewrite (proj2 (Z.eqb_neq _ _)) by lia.
Qed.
Lemma div_u64 v d : is_u64 v -> 2 <= d -> is_u64 (v / d).
Proof.
  intros [H0 H1] Hd. split; [apply Z.div_pos; lia|]. apply (Z.le_lt_trans _ v); [|done]. apply Z.div_le_upper_bound; nia.
Qed.

(** [b] has [n] characters of room and holds [text]. *)
Definition holds_text (b : list Z * Z) (n : nat) (text : list Z) : Prop :=
  b.2 = Z.of_nat n /\ (n <= length b.1)%nat /\ drop n b.1 = text.
Lemma push_text c b n text : holds_text b (S n) text -> exists b', push c b = Some b' /\ holds_text b' n (c :: text).
Proof.
  destruct b as [buf i]. intros (Hi & Hl & Hd). cbn [fst snd] in *. subst i. unfold push.
  rewrite (proj2 (Z.ltb_lt _ _)), (proj2 (Z.leb_le _ _)) by lia.
  eexists. split; [done|].
  unfold holds_text, aset. cbn [fst snd]. replace (Z.to_nat _) with n by lia. rewrite length_insert. split_and!; [lia|lia|].
  rewrite drop_insert_ge by done. rewrite Nat.sub_diag. subst text.
  destruct (drop n buf) as [|x l] eqn:E; [apply (f_equal length) in E; rewrite length_drop in E; simpl in E; lia|].
  cbn. f_equal. rewrite <- (Nat.add_1_r n), <- drop_drop, E. done.
Qed.

Lemma fixed_digits_text k : forall val b n text,
  is_u64 val -> holds_text b (k + n) text ->
  exists b', fixed_digits k val b = Some (val / 10 ^ Z.of_nat k, b') /\ is_u64 (val / 10 ^ Z.of_nat k) /\
             holds_text b' n (decimals k val ++ text).
Proof.
  induction k as [|k IH]; intros val b n text Hv Hb; cbn [fixed_digits decimals].
  - exists b. rewrite Z.pow_0_r, Z.div_1_r. done.
  - rewrite (divmod_small val 10) by (done || lia). destruct (push_text (48 + val mod 10) b (k + n) text Hb) as (b' & -> & Hb').
    cbn [mbind option_bind]. destruct (IH (val / 10) b' n _ (div_u64 val 10 Hv ltac:(lia)) Hb') as (b2 & -> & Hu & Hb2).
    assert (0 < 10 ^ Z.of_nat k) by (apply Z.pow_pos_nonneg; lia).
    exists b2. rewrite Nat2Z.inj_succ, Z.pow_succ_r, <- Z.div_div by lia. rewrite <- app_assoc. done.
Qed.

Lemma digits_text base uppercase k : forall val b n text fuel,
  2 <= base <= 16 -> is_u64 val -> val < base ^ Z.of_nat k -> holds_text b (k + n) text -> (k < fuel)%nat ->
  exists b' m, digits fuel val base uppercase b = Some (Some b') /\
             holds_text b' m ((digit_char uppercase <$> digits_of k base val) ++ text).
Proof.
  induction k as [|k IH]; intros val b n text fuel Hbase Hv Hk Hb Hf; (destruct fuel as [|fuel]; [lia|]); cbn [digits digits_of].
  - change (base ^ Z.of_nat 0) with 1 in Hk. destruct Hv. rewrite (proj2 (Z.eqb_eq val 0)) by lia. by exists b, n.
  - destruct (Z.eqb_spec val 0) as [->|Hne]; [by exists b, (S k + n)%nat|].
    assert (b.2 = Z.of_nat (S (k + n))) as E by apply Hb. rewrite E, (proj2 (Z.leb_gt _ _)) by lia.
    rewrite divmod_small by done. fold (digit_char uppercase (val mod base)).
    destruct (push_text (digit_char uppercase (val mod base)) b (k + n) text Hb) as (b' & -> & Hb').
    cbn [mbind option_bind].
    assert (Hlt : val / base < base ^ Z.of_nat k).
    { apply Z.div_lt_upper_bound; [lia|]. by rewrite Nat2Z.inj_succ, Z.pow_succ_r in Hk by lia. }
    destruct (IH (val / base) b' n _ fuel Hbase (div_u64 val base Hv ltac:(lia)) Hlt Hb' ltac:(lia)) as (b2 & m & -> & Hb2).
    exists b2, m. split; [done|]. rewrite fmap_app, <- app_assoc. done.
Qed.

Lemma digits_of_fuel base : 2 <= base -> forall k k' v,
  0 <= v -> v < base ^ Z.of_nat k -> (k <= k')%nat -> digits_of k' base v = digits_of k base v.
Proof.
  intros Hb. induction k as [|k IH]; intros k' v H0 Hk Hle.
  - change (base ^ Z.of_nat 0) with 1 in Hk. replace v with 0 by lia. by destruct k'.
  - destruct k' as [|k']; [lia|]. cbn [digits_of]. destruct (Z.eqb_spec v 0); [done|]. f_equal.
    apply IH; [apply Z.div_pos; lia| |lia]. apply Z.div_lt_upper_bound; [lia|].
    by rewrite Nat2Z.inj_succ, Z.pow_succ_r in Hk by lia.
Qed.

(** Twenty digits are enough for any 64-bit number in base ten or above, and
    leave room for a decimal point. *)
Lemma numeral_text base uppercase v b n text :
  10 <= base <= 16 -> is_u64 v -> (0 < n)%nat -> v < 10 ^ Z.of_nat n -> holds_text b n text ->
  exists b' m, (b ← (if v =? 0 then push 48 b else Some b); digits 65 v base uppercase b) = Some (Some b') /\
               holds_text b' m (numeral base uppercase v ++ text).
Proof.
  intros Hbase Hv Hn Hlt Hb. unfold numeral. destruct (Z.eqb_spec v 0) as [->|Hne].
  - destruct n as [|n]; [lia|]. destruct (push_text 48 b n text Hb) as (b' & -> & Hb'). by exists b', n.
  - cbn [mbind option_bind].
    assert (Hk : exists k, (k <= n)%nat /\ (k <= 20)%nat /\ v < 10 ^ Z.of_nat k).
    { destruct (decide (n <= 20)%nat); [by exists n|]. exists 20%nat. split_and!; [lia|lia|]. destruct Hv. lia. }
    destruct Hk as (k & Hkn & Hk20 & Hk).
    assert (Hkb : v < base ^ Z.of_nat k) by (apply (Z.lt_le_trans _ _ _ Hk), Z.pow_le_mono_l; lia).
    replace n with (k + (n - k))%nat in Hb by lia.
    destruct (digits_text base uppercase k v b (n - k) text 65 ltac:(lia) Hv Hkb Hb ltac:(lia)) as (b' & m & -> & Hb').
    exists b', m. split; [done|]. by rewrite (digits_of_fuel base ltac:(lia) k 64) by (done || lia || apply Hv).
Qed.

Lemma uint64_to_str_text buf v precision base uppercase :
  (22 <= length buf)%nat -> 10 <= base <= 16 -> is_u64 v -> -1 <= precision ->
  uint64_to_str buf (Z.of_nat (length buf)) v precision base uppercase =
  Some (Some (fixed (Z.min precision (Z.of_nat (length buf) - 3)) base uppercase v ++ [0])).
Proof.
  intros Hl Hbase Hv Hp. unfold uint64_to_str. set (N := Z.of_nat (length buf)).
  rewrite (proj2 (Z.leb_gt N 1)), (proj2 (Z.leb_gt base 1)) by lia.
  assert (H0 : holds_text (buf, N) (S (length buf - 1)) []).
  { unfold holds_text. cbn [fst snd]. split_and!; [lia|lia|]. apply drop_ge. lia. }
  destruct (push_text 0 _ _ _ H0) as (b & -> & Hb). cbn [mbind option_bind].
  replace (if N - 3 <? precision then N - 3 else precision) with (Z.min precision (N - 3))
    by (destruct (Z.ltb_spec (N - 3) precision); lia).
  set (p := Z.min precision (N - 3)).
  assert ((N - 3 <? precision) && (p <? 0) = false) as -> by lia. cbv zeta.
  assert (Hend : forall val b n text, is_u64 val -> (0 < n)%nat -> val < 10 ^ Z.of_nat n -> holds_text b n text ->
    (b ← (if val =? 0 then push 48 b else Some b); r ← digits 65 val base uppercase b;
     Some ('(buf, str) ← r; Some (drop (Z.to_nat str) buf))) = Some (Some (numeral base uppercase val ++ text))).
  { intros val b1 n text Hval Hn Hlt Hb1.
    destruct (numeral_text base uppercase val b1 n text Hbase Hval Hn Hlt Hb1) as (b2 & m & E & Hs & _ & Hd).
    destruct (if val =? 0 then _ else _) as [b3|]; [|done]. cbn [mbind option_bind] in *. rewrite E.
    destruct b2 as [buf2 i]. cbn in *. subst i. rewrite Nat2Z.id, Hd. done. }
  unfold fixed. destruct (Z.leb_spec 0 p) as [Hp0|Hp0].
  - rewrite (proj2 (Z.ltb_ge p 0)) by lia.
    replace (length buf - 1)%nat with (Z.to_nat p + (length buf - 1 - Z.to_nat p))%nat in Hb by lia.
    destruct (fixed_digits_text _ v b _ [0] Hv Hb) as (b1 & -> & Hu & Hb1). rewrite Z2Nat.id in Hu |- * by done.
    replace (length buf - 1 - Z.to_nat p)%nat with (S (length buf - 2 - Z.to_nat p)) in Hb1 by lia.
    destruct (push_text 46 _ _ _ Hb1) as (b2 & E & Hb2). cbn [mbind option_bind]. rewrite E. cbn [mbind option_bind].
    rewrite (Hend _ _ _ _ Hu) with (3 := Hb2); [by rewrite <- !app_assoc|lia|].
    apply Z.div_lt_upper_bound; [apply Z.pow_pos_nonneg; lia|]. rewrite <- Z.pow_add_r by lia.
    apply (Z.lt_le_trans _ (10 ^ 20)); [destruct Hv; lia|]. apply Z.pow_le_mono_r; lia.
  - rewrite (proj2 (Z.ltb_lt p 0)) by lia. replace (Z.to_nat p) with O by lia. cbn [fixed_digits mbind option_bind].
    rewrite (Hend _ _ _ _ Hv) with (3 := Hb); [done|lia|]. apply (Z.lt_le_trans _ (10 ^ 20)); [destruct Hv; lia|].
    apply Z.pow_le_mono_r; lia.
Qed.

(** ** What is printed

    A format is printed from a list of items, each with its arguments. *)

(** A width or precision, in the format or as an argument. *)
Inductive count := Plain (n : Z) | Star (n : Z).
Inductive length_mod := Ln | Lz | Ll | Lll.
Inductive conversion := Signed | Unsigned | Timestamp | Hex (uppercase : bool).
Inductive value :=
| VStr (a : Z) (s : list Z)
| VPtr (a : Z) (s : list Z)
| VNum (m : length_mod) (k : conversion) (v : Z).
Record directive := Directive {
  left_justified : bool; plus : bool; zero : bool; width : count; precision : option count; val : value }.
Inductive item := Char (c : Z) | Percent | CharArg (c : Z) | Dir (d : directive).

Definition count_of (c : count) : Z := match c with Plain n | Star n => n end.
Definition if_ (b : bool) (l : list Z) : list Z := if b then l else [].

(** *** The format *)

Definition length_chars (m : length_mod) : list Z :=
  match m with Ln => [] | Lz => [122] | Ll => [108] | Lll => [108; 108] end.
Definition conversion_char (k : conversion) : Z :=
  match k with Signed => 100 | Unsigned => 117 | Timestamp => 84 | Hex b => if b then 88 else 120 end.
Definition value_chars (v : value) : list Z :=
  match v with
  | VStr _ _ => [115] | VPtr _ _ => [112]
  | VNum m k _ => length_chars m ++ [conversion_char k]
  end.
Definition width_chars (c : count) : list Z :=
  match c with Plain n => if n =? 0 then [] else numeral 10 false n | Star _ => [42] end.
Definition precision_chars (p : option count) : list Z :=
  match p with None => [] | Some (Plain n) => 46 :: numeral 10 false n | Some (Star _) => [46; 42] end.
Definition directive_chars (d : directive) : list Z :=
  if_ (left_justified d) [45] ++ if_ (plus d) [43] ++ if_ (zero d) [48] ++
  width_chars (width d) ++ precision_chars (precision d) ++ value_chars (val d).
Definition item_chars (i : item) : list Z :=
  match i with Char c => [c] | Percent => [37; 37] | CharArg _ => [37; 99] | Dir d => 37 :: directive_chars d end.
Definition format_of (l : list item) : list Z := concat (item_chars <$> l).

(** *** The arguments *)

Definition count_args (c : count) : list arg := match c with Plain _ => [] | Star n => [Int (u32 n)] end.
Definition value_args (v : value) : list arg :=
  match v with
  | VStr a s | VPtr a s => [Ptr a s]
  | VNum Lll Signed v => [Long (u64 v)]
  | VNum Lll _ v => [Long v]
  | VNum _ Signed v => [Int (u32 v)]
  | VNum _ _ v => [Int v]
  end.
Definition item_args (i : item) : list arg :=
  match i with
  | Char _ | Percent => []
  | CharArg c => [Int (u32 c)]
  | Dir d => count_args (width d) ++ from_option count_args [] (precision d) ++ value_args (val d)
  end.
Definition args_of (l : list item) : list arg := concat (item_args <$> l).

(** *** The text *)

Fixpoint chars_of (s : list Z) : list Z :=
  match s with [] => [] | c :: s => if c =? 0 then [] else c :: chars_of s end.
Definition string_text (p : option count) (a : Z) (s : list Z) : list Z :=
  let s := if a =? 0 then null_str else s in
  match p with None => chars_of s | Some c => take (Z.to_nat (count_of c)) (chars_of s) end.
Definition point (p : option count) : Z := match p with None => -1 | Some c => Z.min (count_of c) 31 end.
Definition sign_text (plus : bool) (v : value) : list Z :=
  match v with VNum _ Signed v => if v <? 0 then [45] else if_ plus [43] | _ => [] end.
Definition body_text (p : option count) (v : value) : list Z :=
  match v with
  | VStr a s => string_text p a s
  | VPtr a _ => fixed (point p) 16 false a
  | VNum _ Signed v => fixed (point p) 10 false (Z.abs v)
  | VNum _ (Hex b) v => fixed (point p) 16 b v
  | VNum _ _ v => fixed (point p) 10 false v
  end.
Definition justify (left zero : bool) (width : Z) (sign body : list Z) : list Z :=
  let fill := (Z.to_nat width - length (sign ++ body))%nat in
  if left then sign ++ body ++ replicate fill 32
  else if zero then sign ++ replicate fill 48 ++ body
  else replicate fill 32 ++ sign ++ body.
Definition directive_text (d : directive) : list Z :=
  justify (left_justified d) (zero d) (count_of (width d)) (sign_text (plus d) (val d)) (body_text (precision d) (val d)).
Definition item_text (i : item) : list Z :=
  match i with Char c => [c] | Percent => [37] | CharArg c => [c] | Dir d => directive_text d end.
Definition text_of (l : list item) : list Z := concat (item_text <$> l).

(** *** Well-formed items *)

Definition count_ok (c : count) : Prop := 0 <= count_of c <= MAX_FORMAT.
Definition signed_ok (w v : Z) : Prop := - 2 ^ (w - 1) <= v < 2 ^ (w - 1).
Definition value_ok (long_is_32bits : bool) (v : value) : Prop :=
  match v with
  | VStr _ _ => True
  | VPtr a _ => is_u32 a
  | VNum m k v =>
    let w := match m with Lll => 64 | _ => 32 end in
    (m = Ll -> long_is_32bits = true) /\ match k with Signed => signed_ok w v | _ => in_range w v end
  end.
Definition item_ok (long_is_32bits : bool) (i : item) : Prop :=
  match i with
  | Char c => c <> 0 /\ c <> 37
  | Percent => True
  | CharArg c => signed_ok 32 c
  | Dir d => count_ok (width d) /\ (forall c, precision d = Some c -> count_ok c) /\ value_ok long_is_32bits (val d)
  end.

(** ** The interpreter prints the text *)

Section Printing.
Context (long_is_32bits : bool) {S : Type} (addchar : S -> Z -> S * bool).
Abbreviation emit := (emit addchar).
Abbreviation vfnprintf_loop := (vfnprintf_loop long_is_32bits addchar).

(** Characters are sent until one is dropped. *)
Fixpoint send (l : list Z) (s : S) : outcome S :=
  match l with [] => Go s | c :: l => bind (emit c s) (send l) end.

Lemma bind_assoc {A B C} (x : outcome A) (f : A -> outcome B) (g : B -> outcome C) :
  bind (S := S) (bind x f) g = bind x (fun a => bind (f a) g).
Proof. by destruct x. Qed.
Lemma bind_ext {A B} (x : outcome A) (f g : A -> outcome B) :
  (forall a, f a = g a) -> bind (S := S) x f = bind x g.
Proof. intros H. destruct x; cbn; auto. Qed.
Lemma bind_Go {A} (x : outcome A) : bind (S := S) x Go = x.
Proof. by destruct x. Qed.
Lemma send_app l1 l2 s : send (l1 ++ l2) s = bind (send l1 s) (send l2).
Proof.
  revert s. induction l1 as [|c l1 IH]; intros s; [done|]. cbn [app send]. rewrite bind_assoc. apply bind_ext, IH.
Qed.
Lemma send_one c s : send [c] s = emit c s.
Proof. apply bind_Go. Qed.
Lemma pad_send n c s : pad addchar n c s = send (replicate n c) s.
Proof. revert s. induction n as [|n IH]; intros s; [done|]. cbn [pad replicate send]. by apply bind_ext. Qed.
Lemma put_chars_send n : forall vstr s, put_chars addchar n vstr s = send (take n (chars_of vstr)) s.
Proof.
  induction n as [|n IH]; intros vstr s; [done|]. cbn [put_chars].
  destruct vstr as [|c vstr]; [done|]. cbn [deref next chars_of]. destruct (c =? 0); [done|]. cbn [take send].
  apply bind_ext, IH.
Qed.
Lemma strlen_chars s : strlen s = Z.of_nat (length (chars_of s)).
Proof. induction s as [|c s IH]; [done|]. cbn [strlen chars_of]. destruct (c =? 0); [done|]. cbn [length]. lia. Qed.
Lemma strnlen_chars n : forall s, strnlen s n = Z.of_nat (length (take n (chars_of s))).
Proof.
  induction n as [|n IH]; intros s; [done|]. cbn [strnlen]. destruct s as [|c s]; [done|]. cbn [deref next chars_of].
  destruct (c =? 0); [done|]. cbn [take length]. rewrite IH. lia.
Qed.

Lemma chars_of_app l : Forall (fun c => c <> 0) l -> chars_of (l ++ [0]) = l.
Proof.
  intros Hl. induction Hl as [|c l Hc Hl IH]; [done|]. cbn [app chars_of]. by rewrite (proj2 (Z.eqb_neq c 0)), IH.
Qed.

(** The flags that a directive sets. *)
Definition flags_of (left plus zero b64 : bool) : Z :=
  (if left then PF_LEFT else 0) + (if zero then PF_PADZERO else 0) + (if plus then PF_SIGN else 0) +
  (if b64 then PF_64BIT else 0).
Lemma flag_of left plus zero b64 :
  flag (flags_of left plus zero b64) PF_LEFT = left /\ flag (flags_of left plus zero b64) PF_PADZERO = zero /\
  flag (flags_of left plus zero b64) PF_SIGN = plus /\ flag (flags_of left plus zero b64) PF_64BIT = b64.
Proof. by destruct left, plus, zero, b64. Qed.

Lemma put_field_text left plus zero b64 width prec sign vstr s :
  sign = 0 \/ sign = 43 \/ sign = 45 -> 0 <= width ->
  put_field addchar (flags_of left plus zero b64) width prec sign vstr s =
  send (justify left zero width (if_ (bool_of_Z sign) [sign])
          (if prec <? 0 then chars_of vstr else take (Z.to_nat prec) (chars_of vstr))) s.
Proof.
  intros Hsign Hw. unfold put_field. destruct (flag_of left plus zero b64) as (-> & -> & _ & _).
  set (body := if prec <? 0 then chars_of vstr else take (Z.to_nat prec) (chars_of vstr)).
  assert (Hb : exists p, take p (chars_of vstr) = body /\
    (if prec <? 0 then (strlen vstr, Z.max (strlen vstr) width) else (strnlen vstr (Z.to_nat prec), prec)) =
    (Z.of_nat (length body), Z.of_nat p)).
  { unfold body. destruct (Z.ltb_spec prec 0).
    - rewrite strlen_chars. exists (Z.to_nat (Z.max (Z.of_nat (length (chars_of vstr))) width)).
      split; [apply firstn_all2; lia|f_equal; lia].
    - rewrite strnlen_chars. exists (Z.to_nat prec). split; [done|f_equal; lia]. }
  destruct Hb as (p & Hp & E). cbv zeta. rewrite E. clear E.
  assert (Hf : Z.to_nat (width - (if bool_of_Z sign then Z.of_nat (length body) + 1 else Z.of_nat (length body))) =
    (Z.to_nat width - length (if_ (bool_of_Z sign) [sign] ++ body))%nat).
  { rewrite length_app. destruct (bool_of_Z sign); cbn [if_ length]; lia. }
  rewrite Hf. clear Hf. set (fill := (_ - _)%nat). unfold justify. fold fill.
  assert (Hput : forall s, put_chars addchar (Z.to_nat (Z.of_nat p)) vstr s = send body s).
  { intros. by rewrite put_chars_send, Nat2Z.id, Hp. }
  destruct Hsign as [->|Hs]; [|assert (bool_of_Z sign = true) as -> by (destruct Hs; by subst)]; cbn [bool_of_Z Z.eqb negb if_ app].
  - destruct left; cbn [negb]; cbn [bind andb bool_of_Z Z.eqb negb].
    + rewrite send_app. rewrite (bind_ext _ _ _ (fun a => pad_send fill 32 a)). by rewrite Hput.
    + rewrite pad_send. rewrite bind_assoc. cbn [bind bool_of_Z Z.eqb negb]. 
      destruct zero; rewrite send_app; apply bind_ext; intros; by rewrite Hput, bind_Go.
  - destruct left; cbn [negb]; cbn [bind andb].
    + assert (bool_of_Z sign = true) as -> by (destruct Hs; by subst). cbn [send]. apply bind_ext. intros a.
      rewrite Hput, send_app. apply bind_ext. intros. apply pad_send.
    + destruct zero; cbn [andb].
      * rewrite !bind_assoc. cbn [bind]. cbn [send]. apply bind_ext. intros a. cbn [bind]. rewrite !bind_assoc, pad_send, send_app.
        apply bind_ext. intros a'. cbn [bind bool_of_Z Z.eqb negb]. by rewrite Hput, bind_Go.
      * cbn [bind]. rewrite pad_send, bind_assoc, send_app. apply bind_ext. intros a. cbn [bind].
        assert (bool_of_Z sign = true) as -> by (destruct Hs; by subst). cbn [send]. apply bind_ext. intros.
        by rewrite Hput, bind_Go.
Qed.

(** *** Parsing *)

(** The current character and the rest of a format. *)
Definition at_char {A} (format : list Z) (f : Z -> list Z -> outcome A) : outcome (S := S) A :=
  match format with [] => Crash | c :: format => f c format end.
Lemma at_fetch {A} l (f : Z -> list Z -> outcome A) : bind (fetch l) (fun p => let '(c, format) := p in f c format) = at_char l f.
Proof. by destruct l. Qed.

Lemma digits_of_value k v : 0 <= v < 10 ^ Z.of_nat k -> digits_value 10 (digits_of k 10 v) = v.
Proof.
  revert v. induction k as [|k IH]; intros v Hv; [change (10 ^ Z.of_nat 0) with 1 in Hv; cbn; lia|]. cbn [digits_of].
  destruct (Z.eqb_spec v 0) as [->|]; [done|]. unfold digits_value. rewrite fold_left_app. cbn [fold_left].
  fold (digits_value 10 (digits_of k 10 (v / 10))). rewrite IH; [pose proof (Z.div_mod v 10); lia|].
  rewrite Nat2Z.inj_succ, Z.pow_succ_r in Hv by lia. split; [apply Z.div_pos; lia|apply Z.div_lt_upper_bound; lia].
Qed.
Lemma digits_of_range b k v : 2 <= b -> 0 <= v -> Forall (fun d => 0 <= d < b) (digits_of k b v).
Proof.
  intros Hb. revert v. induction k as [|k IH]; intros v Hv; [done|]. cbn [digits_of]. destruct (v =? 0); [done|].
  apply Forall_app. split; [apply IH, Z.div_pos; lia|]. apply Forall_singleton, Z.mod_pos_bound. lia.
Qed.
Lemma digits_of_head b k v : 2 <= b -> 0 < v < b ^ Z.of_nat k -> exists d l, digits_of k b v = d :: l /\ 0 < d.
Proof.
  intros Hb. revert v. induction k as [|k IH]; intros v Hv; [change (b ^ Z.of_nat 0) with 1 in Hv; lia|]. cbn [digits_of].
  destruct (Z.eqb_spec v 0); [lia|]. destruct (Z.eq_dec (v / b) 0) as [E|E].
  - exists (v mod b), []. rewrite E. replace (digits_of k b 0) with (@nil Z) by (by destruct k). split; [done|].
    pose proof (Z.div_mod v b). lia.
  - destruct (IH (v / b)) as (d & l & -> & Hd); [|by exists d, (l ++ [v mod b])].
    rewrite Nat2Z.inj_succ, Z.pow_succ_r in Hv by lia. pose proof (Z.div_pos v b). split; [lia|apply Z.div_lt_upper_bound; lia].
Qed.
(** A decimal numeral is its digits, the first not zero but for zero itself. *)
Lemma numeral_digits v : 0 <= v < 2 ^ 64 ->
  exists ds, numeral 10 false v = (Z.add 48 <$> ds) /\ Forall (fun d => 0 <= d < 10) ds /\ digits_value 10 ds = v /\
             ds <> [] /\ (v <> 0 -> exists d l, ds = d :: l /\ 0 < d).
Proof.
  intros Hv. unfold numeral. destruct (Z.eqb_spec v 0) as [->|Hne].
  { exists [0]. split_and!; [done|by apply Forall_singleton|done|done|done]. }
  assert (Hlt : v < 10 ^ Z.of_nat 64) by (change (10 ^ Z.of_nat 64) with (10 ^ 64); lia).
  exists (digits_of 64 10 v). pose proof (digits_of_range 10 64 v ltac:(lia) ltac:(lia)) as Hr. split_and!.
  - apply list_fmap_ext. intros i d Hd. pose proof (proj1 (Forall_lookup _ _) Hr i d Hd) as H. cbn beta in H. unfold digit_char.
    by rewrite (proj2 (Z.ltb_lt d 10)) by lia.
  - done.
  - apply digits_of_value. lia.
  - destruct (digits_of_head 10 64 v) as (d & l & -> & _); [lia|lia|done].
  - intros _. apply digits_of_head; lia.
Qed.

Lemma parse_digits ds c rest : ~ 48 <= c <= 57 -> forall acc,
  Forall (fun d => 0 <= d < 10) ds -> 0 <= acc -> fold_left (fun a d => a * 10 + d) ds acc < 2 ^ 31 ->
  at_char ((Z.add 48 <$> ds) ++ c :: rest) (fun c format => parse_number format c acc) =
  Go (c, rest, fold_left (fun a d => a * 10 + d) ds acc).
Proof.
  intros Hc. induction ds as [|d ds IH]; intros acc Hds Ha Hlt.
  - assert (E : (48 <=? c) && (c <=? 57) = false) by lia. destruct rest; cbn; by rewrite E.
  - apply List.Forall_cons_iff in Hds as [Hd Hds]. cbn [fmap list_fmap app at_char fold_left] in *.
    assert (Hge : acc * 10 + d <= fold_left (fun a d => a * 10 + d) ds (acc * 10 + d)).
    { rewrite digits_value_snoc. assert (0 <= digits_value 10 ds).
      { apply digits_value_nonneg; [lia|]. eapply List.Forall_impl; [|exact Hds]. cbn. lia. }
      assert (1 <= 10 ^ Z.of_nat (length ds)) by (apply Z.lt_pred_le, Z.pow_pos_nonneg; lia). nia. }
    assert (E : s32 (10 * acc + (48 + d) - 48) = acc * 10 + d).
    { unfold swrap. rewrite Z.mod_small by lia. lia. }
    specialize (IH (acc * 10 + d) Hds ltac:(lia) Hlt).
    destruct ((Z.add 48 <$> ds) ++ c :: rest) as [|c2 f2] eqn:El; [by destruct ds|]. cbn [at_char] in IH.
    cbn [parse_number]. assert ((48 <=? 48 + d) && (48 + d <=? 57) = true) as -> by lia. by rewrite E.
Qed.

Lemma s32_u32 n : signed_ok 32 n -> s32 (u32 n) = n.
Proof.
  intros Hn. unfold signed_ok in Hn. unfold swrap, wrap. rewrite Zplus_mod_idemp_l, Z.mod_small by lia. lia.
Qed.

Lemma parse_count_number n c rest args : 0 <= n <= MAX_FORMAT -> ~ 48 <= c <= 57 -> c <> 42 ->
  at_char (numeral 10 false n ++ c :: rest) (fun c format => parse_count format c args) = Go (S := S) (c, rest, n, args).
Proof.
  unfold MAX_FORMAT. intros Hn Hc H42. destruct (numeral_digits n ltac:(lia)) as (ds & -> & Hds & Hv & Hne & _).
  pose proof (parse_digits ds c rest Hc 0 Hds ltac:(lia)) as Hp. fold (digits_value 10 ds) in Hp. rewrite Hv in Hp.
  specialize (Hp ltac:(lia)). destruct ds as [|d ds]; [done|]. apply List.Forall_cons_iff in Hds as [Hd Hds].
  cbn [fmap list_fmap app at_char] in *. unfold parse_count. rewrite (proj2 (Z.eqb_neq _ 42)) by lia. by rewrite Hp.
Qed.
Lemma parse_count_width w c rest args : count_ok w -> ~ 48 <= c <= 57 -> c <> 42 ->
  at_char (width_chars w ++ c :: rest) (fun c format => parse_count format c (count_args w ++ args)) =
  Go (S := S) (c, rest, count_of w, args).
Proof.
  intros Hw Hc H42. destruct w as [n|n]; cbn [width_chars count_of count_args].
  - destruct (Z.eqb_spec n 0) as [->|]; [|by apply parse_count_number]. cbn. unfold parse_count.
    rewrite (proj2 (Z.eqb_neq _ 42)) by done. 
    assert (E : (48 <=? c) && (c <=? 57) = false) by lia. destruct rest; cbn; by rewrite E.
  - cbn. rewrite s32_u32; [done|]. unfold count_ok, MAX_FORMAT, signed_ok in *. cbn in Hw. lia.
Qed.
Lemma parse_precision_ok p c rest args : (forall n, p = Some n -> count_ok n) -> ~ 46 <= c <= 57 -> c <> 42 ->
  at_char (precision_chars p ++ c :: rest)
    (fun c format => parse_precision format c (from_option count_args [] p ++ args)) =
  Go (S := S) (c, rest, from_option count_of (-1) p, false, args).
Proof.
  intros Hp Hc H42.
  assert (Hbad : forall n, count_ok n -> bad_count (count_of n) = false) by (intros n; unfold count_ok, bad_count; lia).
  destruct p as [[n|n]|]; cbn [precision_chars from_option count_args app at_char count_of]; unfold parse_precision.
  - rewrite Z.eqb_refl, at_fetch. pose proof (parse_count_number n c rest args (Hp _ eq_refl) ltac:(lia) H42) as E.
    destruct (numeral 10 false n ++ c :: rest) as [|x f]; [done|]. cbn [at_char] in *. rewrite E. cbn [bind].
    pose proof (Hbad (Plain n) (Hp _ eq_refl)) as Hb. cbn [count_of] in Hb. by rewrite Hb.
  - cbn. pose proof (Hp _ eq_refl) as Hn. pose proof (Hbad (Star n) Hn) as Hb. cbn [count_of] in Hb.
    rewrite s32_u32; [by rewrite Hb|].
    unfold count_ok, MAX_FORMAT, signed_ok in *. cbn in Hn. lia.
  - rewrite (proj2 (Z.eqb_neq _ 46)) by lia. done.
Qed.

Lemma parse_flags_ok left plus c rest : c <> 43 -> c <> 45 ->
  at_char (if_ left [45] ++ if_ plus [43] ++ c :: rest) (fun c format => parse_flags format c 0) =
  Go (S := S) (c, rest, flags_of left plus false false).
Proof.
  intros H43 H45. assert (E : (c =? 45) || (c =? 43) = false) by lia. destruct left, plus, rest; cbn; by rewrite E.
Qed.
Lemma parse_zeros_ok left plus zero c rest : c <> 48 ->
  at_char (if_ zero [48] ++ c :: rest) (fun c format => parse_zeros format c (flags_of left plus false false)) =
  Go (S := S) (c, rest, flags_of left plus zero false).
Proof.
  intros H48. assert (E : (c =? 48) = false) by lia. destruct zero, rest; cbn; rewrite E; by destruct left, plus.
Qed.

(** The characters with which the parts of a directive begin. *)
Definition letter (c : Z) : Prop := 84 <= c <= 122.
Lemma value_head v rest : exists c f, value_chars v ++ rest = c :: f /\ letter c.
Proof.
  unfold letter. destruct v as [a s|a s|[] [| | |[]] v]; cbn; eexists _, _; (split; [done|lia]).
Qed.
Lemma precision_head p v rest :
  exists c f, precision_chars p ++ value_chars v ++ rest = c :: f /\ (c = 46 \/ letter c).
Proof.
  destruct p as [[n|n]|]; cbn; [eexists _, _; split; [done|by left]..|].
  destruct (value_head v rest) as (c & f & -> & Hc). exists c, f. auto.
Qed.
Lemma width_head w p v rest : count_ok w ->
  exists c f, width_chars w ++ precision_chars p ++ value_chars v ++ rest = c :: f /\
              c <> 43 /\ c <> 45 /\ c <> 48 /\ c <> 37 /\ c <> 0 /\ c <> 99.
Proof.
  intros Hw. unfold count_ok, MAX_FORMAT in Hw. destruct w as [n|n]; cbn [width_chars count_of] in *.
  - destruct (Z.eqb_spec n 0) as [->|Hne].
    + destruct (precision_head p v rest) as (c & f & E & Hc). exists c, f. split; [exact E|].
      destruct (Z.eq_dec c 99) as [->|].
      * exfalso. destruct p as [[m|m]|]; try done. destruct v as [a s|a s|[] [| | |[]] v]; done.
      * unfold letter in Hc. lia.
    + destruct (numeral_digits n ltac:(lia)) as (ds & -> & Hds & _ & _ & Hd).
      destruct (Hd Hne) as (d & l & -> & Hpos). apply List.Forall_cons_iff in Hds as [Hd9 _].
      eexists _, _. split; [done|]. lia.
  - eexists _, _. split; [done|]. lia.
Qed.

Lemma sign_of_signed left plus zero (b64 : bool) v : signed_ok (if b64 then 64 else 32) v ->
  sign_of (wrap (if b64 then 64 else 32) v) (flags_of left plus zero b64) =
  (if v <? 0 then 45 else if plus then 43 else 0, Z.abs v).
Proof.
  intros Hv. unfold sign_of. destruct (flag_of left plus zero b64) as (_ & _ & -> & ->). unfold signed_ok in Hv.
  assert (Hw : forall w, 0 < w -> - 2 ^ (w - 1) <= v < 2 ^ (w - 1) -> swrap w (wrap w v) = v).
  { intros w Hw0 Hw. assert (2 ^ w = 2 * 2 ^ (w - 1)) by (rewrite <- Z.pow_succ_r by lia; f_equal; lia).
    unfold swrap, wrap. rewrite Zplus_mod_idemp_l, Z.mod_small by lia. lia. }
  destruct b64; rewrite Hw by done; destruct (Z.ltb_spec v 0).
  - assert (E : u64 v = v + 2 ^ 64) by (unfold wrap; rewrite <- (Z.mod_add v 1), Z.mod_small by lia; lia).
    rewrite E. destruct (Z.eqb_spec (v + 2 ^ 64) (2 ^ 63)); f_equal; [lia|].
    replace (- (v + 2 ^ 64)) with (- v + (-1) * 2 ^ 64) by lia. unfold wrap. rewrite Z.mod_add, Z.mod_small by lia. lia.
  - rewrite wrap_id by (unfold in_range; lia). f_equal. lia.
  - assert (E : u32 v = v + 2 ^ 32) by (unfold wrap; rewrite <- (Z.mod_add v 1), Z.mod_small by lia; lia).
    rewrite E. destruct (Z.eqb_spec (v + 2 ^ 32) (2 ^ 31)); f_equal; [lia|]. rewrite wrap_id by (unfold in_range; lia). lia.
  - rewrite wrap_id by (unfold in_range; lia). f_equal. lia.
Qed.

(** The end of a directive for a number: its characters [l ++ [c]]. *)
Lemma fixed_nonzero p base uppercase v : 0 <= v -> 2 <= base <= 16 -> Forall (fun c => c <> 0) (fixed p base uppercase v).
Proof.
  intros Hv Hb.
  assert (Hn : forall v, 0 <= v -> Forall (fun c => c <> 0) (numeral base uppercase v)).
  { intros u Hu. unfold numeral. destruct (u =? 0); [by apply Forall_singleton|]. apply Forall_fmap.
    eapply List.Forall_impl; [|by apply (digits_of_range base); lia]. intros d Hd. cbn. unfold digit_char.
    destruct (Z.ltb_spec d 10); [|destruct uppercase]; cbn beta in Hd; lia. }
  unfold fixed. destruct (Z.ltb_spec p 0); [by apply Hn|]. apply Forall_app. split; [by apply Hn, Z.div_pos; [|apply Z.pow_pos_nonneg]; lia|].
  apply Forall_app. split; [by apply Forall_singleton|]. generalize (Z.to_nat p). clear -Hv. intros n. revert v Hv.
  induction n as [|n IH]; intros v Hv; [done|]. cbn. apply Forall_app. split; [apply IH, Z.div_pos; lia|].
  apply Forall_singleton. pose proof (Z.mod_pos_bound v 10). lia.
Qed.

Definition number_body (prec : Z) (v : value) : list Z :=
  match v with
  | VStr _ _ => []
  | VPtr a _ => fixed (Z.min prec 31) 16 false a
  | VNum _ Signed v => fixed (Z.min prec 31) 10 false (Z.abs v)
  | VNum _ (Hex b) v => fixed (Z.min prec 31) 16 b v
  | VNum _ _ v => fixed (Z.min prec 31) 10 false v
  end.
Lemma number_end left plus zero b64 width prec sign v base uppercase (A : list Z * list arg) s :
  sign = 0 \/ sign = 43 \/ sign = 45 -> 0 <= width -> -1 <= prec -> is_u64 v -> base = 10 \/ base = 16 ->
  match uint64_to_str intbuf 34 v prec base uppercase with
  | Some (Some vstr) => bind (put_field addchar (flags_of left plus zero b64) width (-1) sign vstr s) (fun s => Go (A, s))
  | _ => Crash
  end =
  bind (send (justify left zero width (if_ (bool_of_Z sign) [sign]) (fixed (Z.min prec 31) base uppercase v)) s)
    (fun s => Go (A, s)).
Proof.
  intros Hsign Hw Hp Hv Hbase.
  assert (E : uint64_to_str intbuf 34 v prec base uppercase = Some (Some (fixed (Z.min prec 31) base uppercase v ++ [0]))).
  { apply (uint64_to_str_text intbuf); [cbn; lia|lia|done|done]. }
  rewrite E. rewrite put_field_text by done. cbn [Z.ltb Z.compare].
  rewrite chars_of_app; [done|]. apply fixed_nonzero; [apply Hv|lia].
Qed.

Lemma number_field_ok left plus zero width prec v rest args s :
  (forall a t, v <> VStr a t) -> value_ok long_is_32bits v -> 0 <= width -> -1 <= prec ->
  at_char (value_chars v ++ rest) (fun c format =>
    number_field long_is_32bits addchar format c (flags_of left plus zero false) width prec (value_args v ++ args) s) =
  bind (send (justify left zero width (sign_text plus v) (number_body prec v)) s) (fun s => Go (rest, args, s)).
Proof.
  intros Hstr Hok Hw Hp. destruct v as [a t|a t|m k v]; [by destruct (Hstr a t)| |].
  - assert (is_u64 a) by (unfold value_ok, in_range in *; lia).
    cbn [sign_text number_body]. change (@nil Z) with (if_ (bool_of_Z 0) [0]).
    rewrite <- (number_end left plus zero false width prec 0 a 16 false (rest, args) s) by auto. done.
  - destruct Hok as [Hl Hv].
    set (b64 := match m with Lll => true | _ => false end).
    assert (Hlen : forall c f, at_char (length_chars m ++ c :: f) (fun c format =>
        parse_length (S := S) long_is_32bits format c (flags_of left plus zero false)) =
        if (c =? 108) || (c =? 122) then at_char (length_chars m ++ c :: f) (fun c format =>
        parse_length (S := S) long_is_32bits format c (flags_of left plus zero false))
        else Go (Some (c, f, flags_of left plus zero b64))).
    { intros c f. destruct ((c =? 108) || (c =? 122)) eqn:E; [done|]. apply orb_false_iff in E as [E1 E2].
      destruct m; cbn -[flag flags_of]; unfold parse_length; cbn -[flag flags_of]; rewrite ?E1, ?E2; cbn -[flag flags_of].
      - done.
      - done.
      - rewrite (Hl eq_refl). done.
      - replace (Z.lor (flags_of left plus zero false) PF_64BIT) with (flags_of left plus zero true) by (by destruct left, plus, zero).
        destruct (flag_of left plus zero true) as (_ & _ & _ & ->). by rewrite andb_false_r. }
    specialize (Hlen (conversion_char k) rest).
    replace ((conversion_char k =? 108) || (conversion_char k =? 122)) with false in Hlen by (by destruct k as [| | |[]]).
    cbn [value_chars]. rewrite <- app_assoc. cbn [app].
    destruct (length_chars m ++ conversion_char k :: rest) as [|c0 f0] eqn:Ef; [by destruct m|]. cbn [at_char] in *.
    unfold number_field. rewrite Hlen. cbn [bind].
    set (v' := match k with Signed => wrap (if b64 then 64 else 32) v | _ => v end).
    assert (Htake : take_value (S := S) (conversion_char k) (flags_of left plus zero b64) (value_args (VNum m k v) ++ args) =
                    Go (conversion_char k, v', args)).
    { unfold take_value. replace (conversion_char k =? 112) with false by (by destruct k as [| | |[]]).
      destruct (flag_of left plus zero b64) as (_ & _ & _ & ->). by destruct m, k. }
    rewrite Htake. cbn [bind].
    assert (Hbits : match k with Signed => signed_ok (if b64 then 64 else 32) v | _ => in_range (if b64 then 64 else 32) v end)
      by (by destruct m).
    assert (Hu : k <> Signed -> is_u64 v) by (intros Hk; unfold in_range in *; destruct k; [done|..]; destruct b64; lia).
    destruct k as [| | |up]; cbn [conversion_char convert Z.eqb Pos.eqb andb orb] in *.
    + unfold v'. rewrite sign_of_signed by done. cbv zeta.
      rewrite (number_end _ _ _ _ _ _ _ _ _ _ (rest, args)); [| |done|done| |by left].
      * f_equal. f_equal. unfold sign_text, number_body. by destruct (v <? 0), plus.
      * destruct (v <? 0), plus; auto.
      * unfold signed_ok, in_range in *. destruct b64; lia.
    + by rewrite (number_end _ _ _ _ _ _ _ _ _ _ (rest, args)); [|auto|done|done|by apply Hu|by left].
    + by rewrite (number_end _ _ _ _ _ _ _ _ _ _ (rest, args)); [|auto|done|done|by apply Hu|by left].
    + unfold convert. destruct up; cbn [Z.eqb Pos.eqb andb orb];
        by rewrite (number_end _ _ _ _ _ _ _ _ _ _ (rest, args)); [|auto|done|done|by apply Hu|by right].
Qed.

Lemma field_ok d rest args s : item_ok long_is_32bits (Dir d) ->
  exists c format, directive_chars d ++ rest = c :: format /\ c <> 37 /\ c <> 0 /\ c <> 99 /\
    field long_is_32bits addchar format c (item_args (Dir d) ++ args) s =
    bind (send (directive_text d) s) (fun s => Go (rest, args, s)).
Proof.
  destruct d as [left plus zero w p v]. intros (Hw & Hp & Hv). cbn [val precision width] in *.
  destruct (width_head w p v rest Hw) as (c1 & f1 & E1 & H43 & H45 & H48 & H37 & H0 & H99).
  destruct (precision_head p v rest) as (c2 & f2 & E2 & H2). destruct (value_head v rest) as (c3 & f3 & E3 & H3).
  unfold directive_chars. cbn [left_justified Printf.plus Printf.zero val precision width]. rewrite <- !app_assoc, E1.
  assert (Hz : exists c f, if_ zero [48] ++ c1 :: f1 = c :: f /\ c <> 43 /\ c <> 45 /\ c <> 37 /\ c <> 0 /\ c <> 99)
    by (destruct zero; eexists _, _; (split; [done|lia])).
  destruct Hz as (c4 & f4 & E4 & H4).
  pose proof (parse_flags_ok left plus c4 f4 ltac:(lia) ltac:(lia)) as Hflags. rewrite E4.
  assert (Hh : exists c f, if_ left [45] ++ if_ plus [43] ++ c4 :: f4 = c :: f /\ c <> 37 /\ c <> 0 /\ c <> 99)
    by (destruct left, plus; eexists _, _; (split; [done|lia])).
  destruct Hh as (c5 & f5 & E5 & H5a & H5b & H5c). rewrite E5 in *. exists c5, f5. split_and!; [done..|].
  cbn [at_char] in Hflags. unfold field. rewrite Hflags. cbn [bind].
  pose proof (parse_zeros_ok left plus zero c1 f1 H48) as Hzeros. rewrite E4 in Hzeros. cbn [at_char] in Hzeros.
  rewrite Hzeros. cbn [bind item_args precision width val]. rewrite <- !app_assoc.
  unfold letter in *.
  pose proof (parse_count_width w c2 f2 (from_option count_args [] p ++ value_args v ++ args) Hw ltac:(lia) ltac:(lia)) as Hwid.
  rewrite <- E2, E1 in Hwid. cbn [at_char] in Hwid. rewrite Hwid. cbn [bind].
  assert (bad_count (count_of w) = false) as -> by (unfold count_ok, bad_count in *; lia).
  pose proof (parse_precision_ok p c3 f3 (value_args v ++ args) Hp ltac:(lia) ltac:(lia)) as Hpre.
  rewrite <- E3, E2 in Hpre. cbn [at_char] in Hpre. rewrite Hpre. cbn [bind]. clear Hpre Hwid Hzeros Hflags.
  assert (Hw0 : 0 <= count_of w) by (unfold count_ok in Hw; lia).
  assert (Hpc : -1 <= from_option count_of (-1) p) by (destruct p as [n|]; [specialize (Hp n eq_refl); unfold count_ok in Hp|]; cbn; lia).
  unfold directive_text. cbn [left_justified Printf.plus Printf.zero val precision width].
  assert (Hd : (exists a t, v = VStr a t) \/ ~ exists a t, v = VStr a t).
  { destruct v; [by left; eexists _, _|right; by intros (? & ? & ?)..]. }
  destruct Hd as [(a & t & ->)|Hn].
  - injection E3 as <- <-. cbn [Z.eqb Pos.eqb]. cbn [value_args app va_ptr bind sign_text body_text].
    rewrite put_field_text by auto. cbn [bool_of_Z Z.eqb negb if_]. unfold string_text.
    destruct p as [n|]; cbn [from_option]; [|done]. specialize (Hp n eq_refl). unfold count_ok in Hp.
    by rewrite (proj2 (Z.ltb_ge _ 0)) by lia.
  - pose proof (number_field_ok left plus zero (count_of w) (from_option count_of (-1) p) v rest args s
      ltac:(intros a t ->; apply Hn; by exists a, t) Hv Hw0 Hpc) as Hnum.
    rewrite E3 in Hnum. cbn [at_char] in Hnum.
    assert ((c3 =? 115) = false) as -> by (apply Z.eqb_neq; intros ->; destruct v as [| |[] [| | |[]] ?]; try done; apply Hn; by eexists _, _).
    rewrite Hnum. do 3 f_equal. unfold number_body, body_text, point.
    destruct v as [a t|a t|m k v]; [by destruct Hn; exists a, t|by destruct p|by destruct k, p].
Qed.

Lemma item_step i l args s fuel : item_ok long_is_32bits i ->
  vfnprintf_loop (Datatypes.S fuel) (item_chars i ++ l) (item_args i ++ args) s =
  bind (send (item_text i) s) (vfnprintf_loop fuel l args).
Proof.
  intros Hi. destruct i as [c| |c|d].
  - destruct Hi as [H0 H37]. cbn [item_chars item_args item_text app Printf.vfnprintf_loop fetch bind].
    rewrite (proj2 (Z.eqb_neq c 0)), (proj2 (Z.eqb_neq c 37)) by done. cbn [negb]. by rewrite send_one.
  - cbn [item_chars item_args item_text app Printf.vfnprintf_loop fetch bind Z.eqb Pos.eqb negb orb]. by rewrite send_one.
  - cbn [item_chars item_args item_text app Printf.vfnprintf_loop fetch bind Z.eqb Pos.eqb negb orb].
    unfold va_int. cbn [va_u32 bind]. rewrite s32_u32 by done. by rewrite send_one.
  - destruct (field_ok d l args s Hi) as (c & f & E & H37 & H0 & H99 & Hf).
    cbn [item_chars item_text]. rewrite <- app_comm_cons, E.
    cbn [Printf.vfnprintf_loop fetch bind Z.eqb Pos.eqb negb].
    rewrite (proj2 (Z.eqb_neq c 0)), (proj2 (Z.eqb_neq c 37)), (proj2 (Z.eqb_neq c 99)) by done. cbn [orb].
    rewrite Hf, bind_assoc. by apply bind_ext.
Qed.
Lemma items_loop items rest args : forall s fuel,
  Forall (item_ok long_is_32bits) items -> (length items < fuel)%nat ->
  vfnprintf_loop fuel (format_of items ++ 0 :: rest) (args_of items ++ args) s = send (text_of items) s.
Proof.
  induction items as [|i items IH]; intros s fuel Hok Hf; (destruct fuel as [|fuel]; [cbn in Hf; lia|]); [done|].
  apply List.Forall_cons_iff in Hok as [Hi Hok].
  unfold format_of, args_of, text_of. cbn [fmap list_fmap concat]. rewrite <- !app_assoc.
  rewrite item_step, send_app by done. apply bind_ext. intros a. apply IH; [done|cbn in Hf; lia].
Qed.
Lemma format_length items : (length items <= length (format_of items))%nat.
Proof.
  induction items as [|i items IH]; [done|]. unfold format_of in *. cbn [fmap list_fmap concat length]. rewrite length_app.
  assert (1 <= length (item_chars i))%nat by (destruct i; cbn; lia). lia.
Qed.
Lemma vfnprintf_items items rest args s : Forall (item_ok long_is_32bits) items ->
  vfnprintf long_is_32bits addchar (format_of items ++ 0 :: rest) (args_of items ++ args) s = send (text_of items) s.
Proof.
  intros. unfold vfnprintf. apply items_loop; [done|]. pose proof (format_length items). rewrite length_app. lia.
Qed.

(** ** Any format is safe *)

Definition arg_ok (a : arg) : Prop := match a with Int v => is_u32 v | Long v => is_u64 v | Ptr a _ => is_u32 a end.
(** The result satisfies [P], if there is one, and nothing is overrun. *)
Definition safe {A} (P : A -> Prop) (x : outcome (S := S) A) : Prop :=
  match x with Go a => P a | Full _ | Mismatch => True | Crash | Fuel => False end.
Lemma safe_bind {A B} (P : A -> Prop) (Q : B -> Prop) (x : outcome A) (f : A -> outcome B) :
  safe P x -> (forall a, P a -> safe Q (f a)) -> safe Q (bind x f).
Proof. destruct x; cbn; auto. Qed.
Lemma safe_send l s : safe (fun _ => True) (send l s).
Proof.
  revert s. induction l as [|c l IH]; intros s; [done|]. cbn [send]. apply (safe_bind (fun _ => True)); [|auto].
  unfold Printf.emit. by destruct (addchar s c) as [? []].
Qed.

(** The format ends behind [c], in the [n] characters that are left. *)
Definition ends (n : nat) (c : Z) (format : list Z) : Prop := (c = 0 \/ 0 ∈ format) /\ (length format <= n)%nat.
Lemma ends_next n c x format : ends n c (x :: format) -> c <> 0 -> ends n x format.
Proof. intros [[?|H] Hl] Hc; [done|]. apply elem_of_cons in H. cbn in Hl. split; [destruct H; auto|lia]. Qed.
Lemma parse_flags_safe n format : forall c flags,
  ends n c format -> safe (fun '(c, format, flags) => ends n c format) (parse_flags (S := S) format c flags).
Proof.
  induction format as [|x format IH]; intros c flags Hf; cbn [parse_flags]; destruct ((c =? 45) || (c =? 43)) eqn:E; try done.
  - destruct Hf as [[->|Hin] _]; [done|]. by apply elem_of_nil in Hin.
  - apply IH, (ends_next n c); [done|]. intros ->. done.
Qed.
Lemma parse_zeros_safe n format : forall c flags,
  ends n c format -> safe (fun '(c, format, flags) => ends n c format) (parse_zeros (S := S) format c flags).
Proof.
  induction format as [|x format IH]; intros c flags Hf; cbn [parse_zeros]; destruct (Z.eqb_spec c 48) as [->|]; try done.
  - destruct Hf as [[?|Hin] _]; [done|]. by apply elem_of_nil in Hin.
  - by apply IH, (ends_next n 48).
Qed.
Lemma parse_number_safe n format : forall c v,
  ends n c format -> safe (fun '(c, format, v) => ends n c format) (parse_number (S := S) format c v).
Proof.
  induction format as [|x format IH]; intros c v Hf; cbn [parse_number]; destruct ((48 <=? c) && (c <=? 57)) eqn:E; try done.
  - destruct Hf as [[->|Hin] _]; [done|]. by apply elem_of_nil in Hin.
  - apply IH, (ends_next n c); [done|]. intros ->. done.
Qed.
Lemma fetch_safe n c format : ends n c format -> c <> 0 -> safe (fun '(c, format) => ends n c format) (fetch (S := S) format).
Proof.
  intros Hf Hc. destruct format as [|x format]; [|by apply (ends_next n c)].
  destruct Hf as [[?|Hin] _]; [done|]. by apply elem_of_nil in Hin.
Qed.
Lemma va_u32_safe args : Forall arg_ok args ->
  safe (fun '(v, args) => is_u32 v /\ Forall arg_ok args) (va_u32 (S := S) args).
Proof. intros Ha. destruct Ha as [|[v|v|a t] args H Ha]; done. Qed.
Lemma va_int_safe args : Forall arg_ok args -> safe (fun '(v, args) => Forall arg_ok args) (va_int (S := S) args).
Proof. intros Ha. destruct Ha as [|[v|v|a t] args H Ha]; done. Qed.
Lemma parse_count_safe n format c args : ends n c format -> Forall arg_ok args ->
  safe (fun '(c, format, v, args) => ends n c format /\ Forall arg_ok args) (parse_count (S := S) format c args).
Proof.
  intros Hf Ha. unfold parse_count. destruct (Z.eqb_spec c 42) as [->|].
  - apply (safe_bind _ _ _ _ (va_int_safe args Ha)). intros [v args'] Ha'.
    apply (safe_bind _ _ _ _ (fetch_safe n 42 format Hf ltac:(done))). intros [c' f'] Hf'. done.
  - apply (safe_bind _ _ _ _ (parse_number_safe n format c 0 Hf)). intros [[c' f'] v] Hf'. done.
Qed.
Lemma parse_precision_safe n format c args : ends n c format -> Forall arg_ok args ->
  safe (fun '(c, format, v, bad, args) => ends n c format /\ Forall arg_ok args /\ (bad = false -> -1 <= v))
    (parse_precision (S := S) format c args).
Proof.
  intros Hf Ha. unfold parse_precision. destruct (Z.eqb_spec c 46) as [->|]; [|done].
  apply (safe_bind _ _ _ _ (fetch_safe n 46 format Hf ltac:(done))). intros [c' f'] Hf'.
  apply (safe_bind _ _ _ _ (parse_count_safe n f' c' args Hf' Ha)). intros [[[c2 f2] v] args2] [Hf2 Ha2]. cbn.
  split_and!; [done|done|]. unfold bad_count. lia.
Qed.
Lemma parse_length_safe n format c flags : ends n c format ->
  safe (fun r => match r with Some (c, format, _) => ends n c format | None => True end)
    (parse_length (S := S) long_is_32bits format c flags).
Proof.
  intros Hf. unfold parse_length. destruct (Z.eqb_spec c 108) as [->|].
  - apply (safe_bind _ _ _ _ (fetch_safe n 108 format Hf ltac:(done))). intros [c' f'] Hf'.
    apply (safe_bind (fun '(c, format, _) => ends n c format)).
    + destruct (Z.eqb_spec c' 108) as [->|]; [|done].
      apply (safe_bind _ _ _ _ (fetch_safe n 108 f' Hf' ltac:(done))). by intros [c2 f2] Hf2.
    + intros [[c2 f2] flags2] Hf2. by destruct (_ && _).
  - destruct (Z.eqb_spec c 122) as [->|]; [|done].
    apply (safe_bind _ _ _ _ (fetch_safe n 122 format Hf ltac:(done))). by intros [c2 f2] Hf2.
Qed.

Lemma put_field_safe flags width prec sign vstr s : safe (fun _ => True) (put_field addchar flags width prec sign vstr s).
Proof.
  assert (He : forall c s, safe (fun _ => True) (emit c s)) by (intros c s0; rewrite <- send_one; apply safe_send).
  assert (Hp : forall n c s, safe (fun _ => True) (pad addchar n c s)) by (intros; rewrite pad_send; apply safe_send).
  unfold put_field. destruct (if prec <? 0 then _ else _) as [vlen p]. cbv zeta.
  apply (safe_bind (fun _ => True)).
  - destruct (negb _); [|done]. apply (safe_bind (fun _ => True)).
    + destruct (_ && _); [|done]. apply (safe_bind (fun _ => True)); [apply He|done].
    + intros [sign' s'] _. apply (safe_bind (fun _ => True)); [apply Hp|done].
  - intros [sign' s'] _. apply (safe_bind (fun _ => True)); [destruct (bool_of_Z _); [apply He|done]|]. intros a _.
    apply (safe_bind (fun _ => True)); [rewrite put_chars_send; apply safe_send|]. intros a' _.
    destruct (flag _ _); [apply Hp|done].
Qed.

Lemma sign_of_range v flags : is_u64 v -> is_u64 (sign_of v flags).2.
Proof.
  intros Hv. assert (Hw : forall x, is_u64 (u64 x)) by (intros; apply wrap_range; lia).
  unfold sign_of. repeat case_match; cbn [snd]; auto.
Qed.
Lemma convert_base c v flags sign v' base : convert long_is_32bits c v flags = Some (sign, v', base) -> is_u64 v ->
  c <> 0 /\ is_u64 v' /\ (base = 10 \/ base = 16).
Proof.
  intros E Hv. unfold convert in E. pose proof (sign_of_range v flags Hv) as Hs. destruct (sign_of v flags) as [sg w].
  split; [by intros ->|]. repeat case_match; try done; injection E as <- <- <-; auto.
Qed.

(** The rest of the format is good. *)
Definition good (n : nat) (format : list Z) : Prop := format = error_str \/ (0 ∈ format /\ (length format <= n)%nat).
Lemma ends_good n c format : ends n c format -> c <> 0 -> good n format.
Proof. intros [[?|?] ?] ?; [done|right; auto]. Qed.

Lemma number_field_safe n format c flags width prec args s : ends n c format -> Forall arg_ok args -> -1 <= prec ->
  safe (fun '(format, args, s) => good n format /\ Forall arg_ok args)
    (number_field long_is_32bits addchar format c flags width prec args s).
Proof.
  intros Hf Ha Hp. unfold number_field. apply (safe_bind _ _ _ _ (parse_length_safe n format c flags Hf)).
  intros [[[c2 f2] flags2]|] Hf2; [|by split; [left|]].
  apply (safe_bind (fun '(c, v, args) => is_u64 v /\ Forall arg_ok args /\ (c <> 0 -> c2 <> 0))).
  { unfold take_value. destruct (Z.eqb_spec c2 112) as [->|]; [|destruct (flag flags2 PF_64BIT)];
      destruct Ha as [|[v|v|a t] args Hx Ha]; try done; cbn; unfold arg_ok, in_range in *;
      (split_and!; [lia..|done|lia]) || (split_and!; [lia|done|done]). }
  intros [[c' v] args2] (Hv & Ha2 & Hc). destruct (convert _ c' v flags2) as [[[sign v'] base]|] eqn:E; [|by split; [left|]].
  destruct (convert_base _ _ _ _ _ _ E Hv) as (Hc' & Hv' & Hb).
  pose proof (uint64_to_str_text intbuf v' prec base (c' =? 88) ltac:(cbn; lia) ltac:(lia) Hv' Hp) as Et.
  change (Z.of_nat (length intbuf)) with 34 in Et. rewrite Et.
  apply (safe_bind (fun _ => True)); [apply put_field_safe|]. intros a _. cbn. split; [|done].
  apply (ends_good n c2); auto.
Qed.
Lemma field_safe n format c args s : ends n c format -> Forall arg_ok args ->
  safe (fun '(format, args, s) => good n format /\ Forall arg_ok args) (field long_is_32bits addchar format c args s).
Proof.
  intros Hf Ha. unfold field. apply (safe_bind _ _ _ _ (parse_flags_safe n format c 0 Hf)). intros [[c1 f1] fl1] Hf1.
  apply (safe_bind _ _ _ _ (parse_zeros_safe n f1 c1 fl1 Hf1)). intros [[c2 f2] fl2] Hf2.
  apply (safe_bind _ _ _ _ (parse_count_safe n f2 c2 args Hf2 Ha)). intros [[[c3 f3] width] args3] [Hf3 Ha3].
  destruct (bad_count width); [by split; [left|]|].
  apply (safe_bind _ _ _ _ (parse_precision_safe n f3 c3 args3 Hf3 Ha3)). intros [[[[c4 f4] prec] bad] args4] (Hf4 & Ha4 & Hp).
  destruct bad; [by split; [left|]|]. destruct (Z.eqb_spec c4 115) as [->|]; [|by apply number_field_safe; auto].
  destruct Ha4 as [|[v|v|a t] args4 Hx Ha4]; try done. cbn [va_ptr bind].
  apply (safe_bind (fun _ => True)); [apply put_field_safe|]. intros a' _. cbn. split; [|done]. by apply (ends_good n 115).
Qed.

Lemma emit_then {A} (P : A -> Prop) c s (f : S -> outcome A) : (forall s, safe P (f s)) -> safe P (bind (emit c s) f).
Proof. intros H. apply (safe_bind (fun _ => True)); [rewrite <- send_one; apply safe_send|auto]. Qed.
Lemma loop_safe_error args : forall s fuel, (6 <= fuel)%nat -> safe (fun _ => True) (vfnprintf_loop fuel error_str args s).
Proof.
  intros s fuel Hf. do 6 (destruct fuel as [|fuel]; [lia|]).
  unfold error_str. do 5 (cbn [Printf.vfnprintf_loop fetch bind Z.eqb Pos.eqb negb]; apply emit_then; intros ?). done.
Qed.
Lemma loop_safe fuel : forall format args s, 0 ∈ format -> Forall arg_ok args -> (length format + 7 <= fuel)%nat ->
  safe (fun _ => True) (vfnprintf_loop fuel format args s).
Proof.
  induction fuel as [fuel IH] using lt_wf_ind. intros format args s Hin Ha Hf.
  destruct fuel as [|fuel]; [lia|]. cbn [Printf.vfnprintf_loop].
  destruct format as [|c format]; [by apply elem_of_nil in Hin|]. cbn [fetch bind length] in *. apply elem_of_cons in Hin.
  destruct (Z.eqb_spec c 0) as [|Hc]; [done|]. destruct Hin as [|Hin]; [congruence|].
  destruct (negb (c =? 37)); [apply emit_then; intros; apply IH; (done || lia)|].
  destruct format as [|c2 format]; [by apply elem_of_nil in Hin|]. cbn [fetch bind length] in *. apply elem_of_cons in Hin.
  assert (He : ends (length format) c2 format) by (split; [destruct Hin; auto|lia]).
  destruct ((c2 =? 37) || (c2 =? 0)) eqn:E2.
  { apply emit_then. intros s'. destruct (Z.eqb_spec c2 0) as [|Hc2]; [done|]. apply IH; [lia| |done|lia].
    destruct Hin; [congruence|done]. }
  apply orb_false_iff in E2 as [_ Hc2%Z.eqb_neq]. destruct (c2 =? 99).
  { apply (safe_bind _ _ _ _ (va_int_safe args Ha)). intros [v args2] Ha2. apply emit_then. intros s'.
    apply IH; [lia| |done|lia]. destruct Hin; [congruence|done]. }
  apply (safe_bind _ _ _ _ (field_safe (length format) format c2 args s He Ha)). intros [[f2 args2] s2] [Hg Ha2].
  destruct Hg as [->|[Hin2 Hl]]; [apply loop_safe_error; lia|apply IH; (done || lia)].
Qed.
End Printing.

(** C13. [vfnprintf] is safe on every format, well-formed or not: as long as the
    format is a string and the arguments have the types it asks for, it does not
    read behind the format, its number buffer is not overrun, its ASSERT holds
    and it ends. *)
Theorem vfnprintf_safe {S} long_is_32bits (addchar : S -> Z -> S * bool) format args s :
  0 ∈ format -> Forall arg_ok args ->
  match vfnprintf long_is_32bits addchar format args s with
  | Go _ | Full _ | Mismatch => True
  | Crash | Fuel => False
  end.
Proof. intros Hf Ha. apply (loop_safe long_is_32bits addchar _ format args s Hf Ha). lia. Qed.
Definition collect (s : list Z) (c : Z) : list Z * bool := (s ++ [c], false).
(** "%5", "%-03.999lX" and a lone percent sign *)
Lemma vfnprintf_safe_witness :
  (forall n, vfnprintf false collect [37; 53; 0] [Int n] [] = Go [69; 82; 82; 79; 82]) /\
  match vfnprintf false collect [37; 45; 48; 51; 46; 57; 57; 57; 108; 108; 88; 37; 0; 1] [Long 255] [] with
  | Go _ | Full _ | Mismatch => True
  | Crash | Fuel => False
  end.
Proof.
  split; [done|]. apply vfnprintf_safe; [set_solver|].
  apply Forall_singleton. split; [lia|]. by vm_compute.
Defined.

(** C12. [vfnprintf] prints what the format says: for any list of items, on the
    format string and the arguments that they make up, it sends the items' text,
    character by character, until one is dropped.  That holds for every
    combination of flags, width and precision (at most 1024), length and
    conversion, with strings, pointers and numbers of 32 and 64 bits. *)
Theorem vfnprintf_prints {S} long_is_32bits (addchar : S -> Z -> S * bool) items rest args s :
  Forall (item_ok long_is_32bits) items ->
  vfnprintf long_is_32bits addchar (format_of items ++ 0 :: rest) (args_of items ++ args) s =
  send addchar (text_of items) s.
Proof. apply vfnprintf_items. Qed.
(** "V=%+06d %-*.2s|%.3lld%010zX" *)
Definition demo_items : list item :=
  [Char 86; Char 61; Dir (Directive false true true (Plain 6) None (VNum Ln Signed 42)); Char 32;
   Dir (Directive true false false (Star 5) (Some (Plain 2)) (VStr 1 [97; 98; 99; 0])); Char 124;
   Dir (Directive false false false (Plain 0) (Some (Plain 3)) (VNum Lll Signed (-1500)));
   Dir (Directive false false true (Plain 10) None (VNum Lz (Hex true) 0xbeef))].
Lemma demo_items_ok : Forall (item_ok false) demo_items.
Proof.
  repeat apply List.Forall_cons; try apply List.Forall_nil; cbn; unfold count_ok, MAX_FORMAT, signed_ok, in_range; cbn;
    split_and?; try done; try lia; intros ? [= <-]; cbn; lia.
Qed.
Lemma vfnprintf_prints_witness :
  format_of demo_items = [86; 61; 37; 43; 48; 54; 100; 32; 37; 45; 42; 46; 50; 115; 124; 37; 46; 51; 108; 108; 100; 37;
                          48; 49; 48; 122; 88] /\
  text_of demo_items = [86; 61; 43; 48; 48; 48; 52; 50; 32; 97; 98; 32; 32; 32; 124; 45; 49; 46; 53; 48; 48; 48; 48; 48;
                        48; 48; 48; 66; 69; 69; 70] /\
  vfnprintf false collect (format_of demo_items ++ 0 :: []) (args_of demo_items ++ []) [] =
  send collect (text_of demo_items) [].
Proof. split; [by vm_compute|]. split; [by vm_compute|]. apply vfnprintf_prints, demo_items_ok. Defined.

(** ** Into a buffer *)

(** A context with room for [n] characters that has taken [out]. *)
Lemma send_buffer mem0 out l : forall n,
  (length out + n < length mem0)%nat ->
  send snprintf_addchar l (Context (out ++ drop (length out) mem0) (Z.of_nat (length out)) (Z.of_nat n)) =
  let all := out ++ (u8 <$> take n l) in
  let ctx := Context (all ++ drop (length all) mem0) (Z.of_nat (length all)) (Z.of_nat (n - length l)) in
  if (length l <=? n)%nat then Go ctx else Full ctx.
Proof.
  revert out. induction l as [|c l IH]; intros out n Hn.
  - cbn. rewrite firstn_nil. cbn. by rewrite app_nil_r, Nat.sub_0_r.
  - cbn [send]. unfold emit, snprintf_addchar. cbn [size str mem]. destruct n as [|n].
    + cbn. rewrite app_nil_r. done.
    + rewrite (proj2 (Z.eqb_neq (Z.of_nat (S n)) 0)) by lia. cbn [bind].
      assert (Em : aset (out ++ drop (length out) mem0) (Z.of_nat (length out)) (u8 c) =
                   (out ++ [u8 c]) ++ drop (length (out ++ [u8 c])) mem0).
      { rewrite length_app. cbn [length]. destruct (drop (length out) mem0) as [|x r] eqn:E.
        - apply (f_equal length) in E. rewrite length_drop in E. cbn in E. lia.
        - rewrite (aset_app out r x) by done. rewrite <- drop_drop, E. done. }
      rewrite Em. replace (Z.of_nat (length out) + 1) with (Z.of_nat (length (out ++ [u8 c]))) by (rewrite length_app; cbn; lia).
      replace (Z.of_nat (S n) - 1) with (Z.of_nat n) by lia.
      rewrite IH by (rewrite length_app; cbn; lia). cbv zeta. cbn [take fmap list_fmap length Nat.leb Nat.sub].
      assert (E : (out ++ [u8 c]) ++ (u8 <$> take n l) = out ++ u8 c :: (u8 <$> take n l)) by by rewrite <- app_assoc.
      by rewrite E.
Qed.

(** What is in memory after at most [size - 1] characters of [text]. *)
Definition printed (text mem : list Z) (size : Z) : list Z :=
  let out := u8 <$> take (Z.to_nat (size - 1)) text in out ++ 0 :: drop (length out + 1) mem.
Definition print_result (text : list Z) (size : Z) : Z + ec_error :=
  if Z.of_nat (length text) <? size then inl (Z.of_nat (length text)) else inr EC_ERROR_OVERFLOW.
Lemma terminate_send text mem size : 0 < size <= Z.of_nat (length mem) ->
  terminate (send snprintf_addchar text (Context mem 0 (size - 1))) = Some (printed text mem size, print_result text size).
Proof.
  intros Hs. pose proof (send_buffer mem [] text (Z.to_nat (size - 1)) ltac:(cbn; lia)) as E. rewrite Z2Nat.id in E by lia.
  change (Context ([] ++ drop (length []) mem) (Z.of_nat (length [])) (size - 1)) with (Context mem 0 (size - 1)) in E. rewrite E. clear E. cbv zeta. rewrite !app_nil_l. set (out := u8 <$> take _ _).
  assert (Hlen : (length out < length mem)%nat) by (unfold out; rewrite length_fmap, length_take; lia).
  assert (Ha : aset (out ++ drop (length out) mem) (Z.of_nat (length out)) 0 = printed text mem size).
  { unfold printed. fold out. destruct (drop (length out) mem) as [|x r] eqn:E.
    - apply (f_equal length) in E. rewrite length_drop in E. cbn in E. lia.
    - rewrite (aset_app out r x) by done. rewrite <- drop_drop, E, <- app_assoc. done. }
  unfold print_result. destruct (Nat.leb_spec (length text) (Z.to_nat (size - 1))); cbn [terminate Printf.mem str].
  - rewrite Ha, (proj2 (Z.ltb_lt _ _)) by lia. do 3 f_equal. unfold out. rewrite length_fmap, firstn_all2 by lia. done.
  - by rewrite Ha, (proj2 (Z.ltb_ge _ _)) by lia.
Qed.
Lemma crec_vsnprintf_items long_is_32bits items args mem size :
  Forall (item_ok long_is_32bits) items -> 0 < size <= Z.of_nat (length mem) -> size <= 2 ^ 31 ->
  crec_vsnprintf long_is_32bits (Some mem) size (Some (format_of items ++ [0])) (args_of items ++ args) =
  Some (printed (text_of items) mem size, print_result (text_of items) size).
Proof.
  intros Hok Hs Hlt. unfold crec_vsnprintf. rewrite (proj2 (Z.leb_gt size 0)) by lia.
  rewrite vfnprintf_items by done. rewrite <- terminate_send by done. do 2 f_equal. f_equal.
  unfold swrap. rewrite Z.mod_small by lia. lia.
Qed.

(** [crec_snprintf] never writes outside its buffer: the memory gets as much
    of the text as fits in [size - 1] characters and a terminating zero, and is
    the same behind it; the result is the text's length, or an error exactly if
    the text did not fit. *)
Theorem snprintf_correct long_is_32bits items args mem size :
  Forall (item_ok long_is_32bits) items -> 0 < size <= Z.of_nat (length mem) -> size <= 2 ^ 31 ->
  crec_vsnprintf long_is_32bits (Some mem) size (Some (format_of items ++ [0])) (args_of items ++ args) =
  Some ((u8 <$> take (Z.to_nat (size - 1)) (text_of items)) ++
          0 :: drop (Nat.min (Z.to_nat (size - 1)) (length (text_of items)) + 1) mem,
        if Z.of_nat (length (text_of items)) <? size then inl (Z.of_nat (length (text_of items)))
        else inr EC_ERROR_OVERFLOW).
Proof.
  intros Hok Hs Hlt. rewrite crec_vsnprintf_items by done. unfold printed, print_result.
  by rewrite length_fmap, length_take.
Qed.
Lemma snprintf_correct_witness :
  crec_vsnprintf false (Some (replicate 10 7)) 5 (Some (format_of demo_items ++ [0])) (args_of demo_items ++ []) =
  Some ([86; 61; 43; 48; 0; 7; 7; 7; 7; 7], inr EC_ERROR_OVERFLOW).
Proof. apply (snprintf_correct false demo_items [] (replicate 10 7) 5); [apply demo_items_ok|by vm_compute|done]. Defined.

(** ** What is printed can be read *)

Lemma digits_of_digits b k v : 2 <= b -> 0 <= v < b ^ Z.of_nat k -> digits_value b (digits_of k b v) = v.
Proof.
  intros Hb. revert v. induction k as [|k IH]; intros v Hv; [change (b ^ Z.of_nat 0) with 1 in Hv; cbn; lia|]. cbn [digits_of].
  destruct (Z.eqb_spec v 0) as [->|]; [done|]. unfold digits_value. rewrite fold_left_app. cbn [fold_left].
  fold (digits_value b (digits_of k b (v / b))). rewrite IH; [pose proof (Z.div_mod v b); lia|].
  rewrite Nat2Z.inj_succ, Z.pow_succ_r in Hv by lia. split; [apply Z.div_pos; lia|apply Z.div_lt_upper_bound; lia].
Qed.
Lemma digits_of_length b k v : (length (digits_of k b v) <= k)%nat.
Proof.
  revert v. induction k as [|k IH]; intros v; [done|]. cbn [digits_of]. destruct (v =? 0); [cbn; lia|].
  rewrite length_app. cbn [length]. specialize (IH (v / b)). lia.
Qed.
Lemma numeral_length base up v k : 2 <= base -> 0 <= v < base ^ Z.of_nat k -> (1 <= k <= 64)%nat ->
  (length (numeral base up v) <= k)%nat.
Proof.
  intros Hb Hv Hk. unfold numeral. destruct (v =? 0); [cbn; lia|]. rewrite length_fmap.
  rewrite (digits_of_fuel base Hb k 64) by lia. apply digits_of_length.
Qed.
Lemma digit_of_char base up d : 10 <= base <= 16 -> 0 <= d < base ->
  digit_char up d <> 0 /\ digit_of base (digit_char up d) = Some d /\ is_u8 (digit_char up d).
Proof.
  intros Hb Hd. unfold digit_char, digit_of, in_range. rewrite Z.min_r by lia.
  destruct (Z.ltb_spec d 10).
  - assert ((48 <=? 48 + d) && (48 + d <? 48 + 10) = true) as -> by lia. split; [lia|split; [f_equal; lia|lia]].
  - destruct up.
    + assert ((48 <=? 65 + d - 10) && (65 + d - 10 <? 48 + 10) = false) as -> by lia.
      assert ((65 <=? 65 + d - 10) && (65 + d - 10 <? 65 + base - 10) = true) as -> by lia. split; [lia|split; [f_equal; lia|lia]].
    + assert ((48 <=? 97 + d - 10) && (97 + d - 10 <? 48 + 10) = false) as -> by lia.
      assert ((65 <=? 97 + d - 10) && (97 + d - 10 <? 65 + base - 10) = false) as -> by lia.
      assert ((97 <=? 97 + d - 10) && (97 + d - 10 <? 97 + base - 10) = true) as -> by lia. split; [lia|split; [f_equal; lia|lia]].
Qed.

Lemma numeral_number_text base up v rest : base = 10 \/ base = 16 -> is_u64 v -> deref rest = 0 ->
  exists vs, number_text base [] [] (numeral base up v) rest base vs /\ digits_value base vs = v /\
             Forall is_u8 (numeral base up v).
Proof.
  intros Hb [Hv0 Hv] Hr. assert (Hb16 : 10 <= base <= 16) by lia.
  assert (Hds : exists ds, numeral base up v = (digit_char up <$> ds) /\ Forall (fun d => 0 <= d < base) ds /\
    digits_value base ds = v /\ ((v = 0 /\ ds = [0]) \/ exists d l, ds = d :: l /\ 0 < d)).
  { unfold numeral. destruct (Z.eqb_spec v 0) as [->|Hne].
    - exists [0]. split_and!; [done|apply Forall_singleton; lia|done|by left].
    - assert (Hlt : v < base ^ Z.of_nat 64).
      { apply (Z.lt_le_trans _ (10 ^ Z.of_nat 64)); [change (10 ^ Z.of_nat 64) with (10 ^ 64); lia|apply Z.pow_le_mono_l; lia]. }
      exists (digits_of 64 base v). split_and!; [done|apply digits_of_range; lia|apply digits_of_digits; lia|].
      right. apply digits_of_head; lia. }
  destruct Hds as (ds & -> & Hrange & Hval & Hhead). exists ds. split_and!; [|done|].
  - split.
    + apply Forall_nil_2.
    + right. split; [done|]. split; [|right; right; destruct Hb; lia].
      intros (_ & H48 & Hx). destruct Hhead as [[-> ->]|(d & l & -> & Hd)].
      * cbn in Hx. rewrite Hr in Hx. lia.
      * cbn in H48. apply List.Forall_cons_iff in Hrange as [Hd' _]. unfold digit_char in H48.
        destruct (Z.ltb_spec d 10); [lia|]. destruct up; lia.
    + clear -Hrange Hb16. induction Hrange as [|d l Hd Hl IH]; [done|]. constructor; [|exact IH].
      by destruct (digit_of_char base up d Hb16 Hd) as (? & ? & ?).
    + by destruct Hhead as [[_ ->]|(? & ? & -> & _)].
    + by left.
    + lia.
  - apply Forall_fmap. eapply List.Forall_impl; [|exact Hrange]. intros d Hd. exact (proj2 (proj2 (digit_of_char base up d Hb16 Hd))).
Qed.

Lemma printed_fits text mem size : Forall is_u8 text -> Z.of_nat (length text) < size ->
  printed text mem size = text ++ 0 :: drop (length text + 1) mem.
Proof.
  intros Hu Hs. unfold printed. rewrite firstn_all2 by lia.
  assert (E : (u8 <$> text) = text).
  { clear Hs. induction Hu as [|c l Hc Hl IH]; [done|]. cbn [fmap list_fmap]. rewrite wrap_id by done. f_equal. exact IH. }
  by rewrite E.
Qed.

(** A directive for a number and nothing else. *)
Definition number_directive m k v : directive := Directive false false false (Plain 0) None (VNum m k v).
Lemma print_number long_is_32bits m k v mem size :
  let d := number_directive m k v in
  value_ok long_is_32bits (VNum m k v) -> 0 < size <= Z.of_nat (length mem) -> size <= 2 ^ 31 ->
  Forall is_u8 (directive_text d) -> Z.of_nat (length (directive_text d)) < size ->
  crec_vsnprintf long_is_32bits (Some mem) size (Some (37 :: directive_chars d ++ [0])) (value_args (VNum m k v)) =
  Some (directive_text d ++ 0 :: drop (length (directive_text d) + 1) mem, inl (Z.of_nat (length (directive_text d)))).
Proof.
  intros d Hok Hs Hlt Hu Hfit. pose proof (crec_vsnprintf_items long_is_32bits [Dir d] [] mem size) as E.
  unfold format_of, args_of, text_of in E.
  cbn [fmap list_fmap concat item_chars item_args item_text from_option app] in E. rewrite !app_nil_r in E.
  cbn [d number_directive width precision val count_args from_option app] in E. fold (number_directive m k v) in E. fold d in E.
  rewrite printed_fits in E by done. unfold print_result in E. rewrite (proj2 (Z.ltb_lt _ _)) in E by done.
  apply E; [|done|done]. apply Forall_singleton. split_and!; [by vm_compute|intros ?; discriminate|exact Hok].
Qed.
Lemma number_directive_text m k v :
  directive_text (number_directive m k v) = sign_text false (VNum m k v) ++ body_text None (VNum m k v).
Proof. done. Qed.

Section Reading.
Context (long_is_32bits : bool) (mem : list Z) (size : Z).
Hypothesis Hs : 0 < size <= Z.of_nat (length mem).
Hypothesis Hlt : size <= 2 ^ 31.
Abbreviation print format args := (crec_vsnprintf long_is_32bits (Some mem) size (Some format) args).

Lemma read_signed v : - 2 ^ 31 < v < 2 ^ 31 -> 12 <= size ->
  exists mem' n, print [37; 100; 0] [Int (u32 v)] = Some (mem', inl n) /\ (strtoi mem' 10).1 = v.
Proof.
  intros Hv Hsz. set (sign := sign_text false (VNum Ln Signed v)). set (body := numeral 10 false (Z.abs v)).
  destruct (numeral_number_text 10 false (Z.abs v) (0 :: drop (length (sign ++ body) + 1) mem))
    as (vs & Hnt & Hval & Hu8); [by left|unfold in_range; lia|done|].
  assert (Hl : (length body <= 10)%nat) by (apply numeral_length; lia).
  assert (Et : directive_text (number_directive Ln Signed v) = sign ++ body) by done.
  assert (Hsign : (length sign <= 1)%nat /\ Forall is_u8 sign) by (unfold sign; cbn; destruct (v <? 0); cbn; split; [lia|by apply Forall_singleton|lia|done]).
  eexists _, _. split.
  - apply (print_number long_is_32bits Ln Signed v); [split; [done|unfold signed_ok; lia]|done|done| |]; rewrite Et.
    + apply Forall_app. by split; [apply Hsign|].
    + rewrite length_app. lia.
  - rewrite Et, <- app_assoc. destruct (strto_parse 10 [] sign [] _ _ 10 vs Hnt) as [Hp _].
    cbn [app] in Hp. fold body in Hp. rewrite Hp; [|rewrite Hval; lia|unfold sign; cbn; destruct (v <? 0); auto]. rewrite Hval.
    unfold sign. cbn [sign_text]. destruct (Z.ltb_spec v 0).
    + rewrite bool_decide_true by done. cbn [fst]. lia.
    + rewrite bool_decide_false by done. cbn [fst]. lia.
Qed.
Lemma read_unsigned base k v : base = 10 /\ k = Unsigned \/ base = 16 /\ k = Hex false -> is_u64 v -> 21 <= size ->
  exists mem' n, print (37 :: directive_chars (number_directive Lll k v) ++ [0]) [Long v] = Some (mem', inl n) /\
                 (strtoull mem' base).1 = v.
Proof.
  intros Hk Hv Hsz. assert (Hbase : base = 10 \/ base = 16) by (destruct Hk as [[]|[]]; auto).
  destruct (numeral_number_text base false v (0 :: drop (length (numeral base false v) + 1) mem) Hbase Hv eq_refl)
    as (vs & Hnt & Hval & Hu8).
  assert (Hpow : v < base ^ Z.of_nat 20) by (destruct Hv, Hbase; subst base; lia).
  assert (Hl : (length (numeral base false v) <= 20)%nat) by (apply numeral_length; [lia|split; [apply Hv|done]|lia]).
  assert (Et : directive_text (number_directive Lll k v) = numeral base false v) by (by destruct Hk as [[-> ->]|[-> ->]]).
  replace [Long v] with (value_args (VNum Lll k v)) by (by destruct Hk as [[-> ->]|[-> ->]]).
  eexists _, _. split.
  - apply (print_number long_is_32bits Lll k v); [by destruct Hk as [[-> ->]|[-> ->]]|done|done| |]; rewrite Et; [done|lia].
  - rewrite Et. destruct (strto_parse base [] [] [] _ _ base vs Hnt) as [_ Hp]. cbn [app] in Hp.
    rewrite Hp; [done|rewrite Hval; apply Hv|by left].
Qed.
End Reading.

(** Numbers survive printing and parsing: what [crec_snprintf] prints for
    "%d", "%llu" and "%llx" into a buffer of sufficient size is read back by
    [strtoi] and [strtoull] as the same number. *)
Theorem print_parse_roundtrip long_is_32bits mem size v :
  0 < size <= Z.of_nat (length mem) -> size <= 2 ^ 31 ->
  let print format args := crec_vsnprintf long_is_32bits (Some mem) size (Some format) args in
  (- 2 ^ 31 < v < 2 ^ 31 -> 12 <= size ->
   exists mem' n, print [37; 100; 0] [Int (u32 v)] = Some (mem', inl n) /\ (strtoi mem' 10).1 = v) /\
  (is_u64 v -> 21 <= size ->
   (exists mem' n, print [37; 108; 108; 117; 0] [Long v] = Some (mem', inl n) /\ (strtoull mem' 10).1 = v) /\
   (exists mem' n, print [37; 108; 108; 120; 0] [Long v] = Some (mem', inl n) /\ (strtoull mem' 16).1 = v)).
Proof.
  intros Hs Hlt print. split; [by apply read_signed|]. intros Hv Hsz.
  split; [by apply (read_unsigned _ _ _ Hs Hlt 10 Unsigned); auto|by apply (read_unsigned _ _ _ Hs Hlt 16 (Hex false)); auto].
Qed.
Lemma print_parse_roundtrip_witness :
  exists mem' n, crec_vsnprintf false (Some (replicate 20 1)) 12 (Some [37; 100; 0]) [Int (u32 (-7081))] = Some (mem', inl n) /\
                 (strtoi mem' 10).1 = -7081.
Proof. apply (print_parse_roundtrip false (replicate 20 1) 12 (-7081)); [by vm_compute|done|lia|done]. Defined.

(** ** Timestamps and buffers in hex *)

(** The seconds with six or three decimals; any 64-bit time fits. *)
Lemma snprintf_timestamp_text verbose mem size ts : is_u64 ts -> 0 < size <= Z.of_nat (length mem) ->
  let text := if verbose : bool then fixed 6 10 false ts else fixed 3 10 false (ts / 1000) in
  snprintf_timestamp verbose mem size ts =
  Some (if Z.of_nat (length text) <? size then (text ++ 0 :: drop (length text + 1) mem, inl (Z.of_nat (length text)))
        else (aset mem 0 0, inr EC_ERROR_OVERFLOW)).
Proof.
  intros Hts Hs text. unfold snprintf_timestamp. rewrite (proj2 (Z.eqb_neq size 0)) by lia.
  assert (E : exists p v, (if verbose then (6, ts) else (3, ts / 1000)) = (p, v) /\ is_u64 v /\ text = fixed p 10 false v /\
                          (p = 6 \/ p = 3)).
  { destruct verbose; [by exists 6, ts; auto|]. exists 3, (ts / 1000). split_and?; auto. by apply div_u64. }
  destruct E as (p & v & -> & Hv & -> & Hp). cbv zeta.
  pose proof (uint64_to_str_text (replicate 22 0) v p 10 false ltac:(cbn; lia) ltac:(lia) Hv ltac:(lia)) as Et.
  change (Z.of_nat (length (replicate 22 0))) with PRINTF_TIMESTAMP_BUF_SIZE in Et. rewrite Et. cbn [mbind option_bind].
  unfold PRINTF_TIMESTAMP_BUF_SIZE. replace (Z.min p (22 - 3)) with p by lia. set (text' := fixed p 10 false v).
  assert (Hlen : strlen (text' ++ [0]) = Z.of_nat (length text')).
  { rewrite strlen_chars, chars_of_app; [done|]. apply fixed_nonzero; [apply Hv|lia]. }
  rewrite Hlen. destruct (Z.ltb_spec size (Z.of_nat (length text') + 1)), (Z.ltb_spec (Z.of_nat (length text')) size); try lia; [done|].
  replace (Z.to_nat (Z.of_nat (length text') + 1)) with (length (text' ++ [0])) by (rewrite length_app; cbn; lia).
  rewrite firstn_all, <- app_assoc. cbn [app]. rewrite length_app. cbn [length].
  unfold aset. by rewrite drop_insert_lt by lia.
Qed.

(** Two digits a byte. *)
Definition hex_text (buffer : list Z) : list Z := b ← buffer; [hexdigit (Z.shiftr b 4); hexdigit b].
Lemma put_hex_send {S} (addchar : S -> Z -> S * bool) buffer s : put_hex addchar buffer s = send addchar (hex_text buffer) s.
Proof.
  revert s. induction buffer as [|b buffer IH]; intros s; [done|]. cbn [put_hex]. unfold hex_text in *. cbn [mbind list_bind app send].
  apply bind_ext. intros s1. apply bind_ext. intros s2. apply IH.
Qed.
Lemma snprintf_hex_buffer_text mem size buffer : 0 < size <= Z.of_nat (length mem) -> size <= 2 ^ 32 ->
  snprintf_hex_buffer mem size buffer =
  Some (printed (hex_text buffer) mem size, print_result (hex_text buffer) size).
Proof.
  intros Hs Hlt. unfold snprintf_hex_buffer. rewrite (proj2 (Z.eqb_neq size 0)), wrap_id by (unfold in_range; lia).
  rewrite <- terminate_send by done. f_equal. unfold print_hex_buffer. cbn [flag].
  replace (Z.to_nat (if Z.of_nat (length buffer) <=? Z.quot 0 2 then 0 - 2 * Z.of_nat (length buffer) else 0)) with O
    by (destruct (Z.leb_spec (Z.of_nat (length buffer)) (Z.quot 0 2)); lia).
  cbn [negb bind pad]. change (flag 0 PF_LEFT) with false. cbn [negb bind]. rewrite put_hex_send. apply bind_Go.
Qed.

(** printf.h has the flag '0' before '-' and '+', and a conversion 'b' for
    binary; the interpreter takes "%0-5d" and "%b" for errors. *)
Example documented_formats_refused :
  vfnprintf false collect [37; 48; 45; 53; 100; 0] [Int 7] [] = Go [69; 82; 82; 79; 82] /\
  vfnprintf false collect [37; 98; 0] [Int 7] [] = Go [69; 82; 82; 79; 82] /\
  vfnprintf false collect [37; 45; 53; 100; 0] [Int 7] [] = Go [55; 32; 32; 32; 32].
Proof. by vm_compute. Qed.
End Printf.
