(* ===== verification/Uart.v ===== *)
(** * The console UART (common/uart_buffering.c, uart_printf.c, uart_hostcmd.c)

    Rings for output and input between the tasks and the serial port, with the
    snapshots through which the host reads the console, and printing into the
    output ring.  The sizes are the defaults of config.h.

    The port itself is an argument: how many characters it accepts, what it has
    received.  One call is one step; the interrupt handler's calls come between
    the others.  Input by DMA, the panic log's copy of the output and
    CONFIG_POLLING_UART are left out. *)

From S2P Require Import Prelude Fifo Libc Printf.
Import Str Printf.

Module Uart.

(** src/include/config.h:4665-4665 [CONFIG_UART_TX_BUF_SIZE] *)
Definition CONFIG_UART_TX_BUF_SIZE : Z := 512.
(** src/include/config.h:4648-4648 [CONFIG_UART_RX_BUF_SIZE] *)
Definition CONFIG_UART_RX_BUF_SIZE : Z := 128.
(** src/common/uart_buffering.c:24-24 [TX_BUF_NEXT] *)
Definition TX_BUF_NEXT (i : Z) : Z := Z.land (i + 1) (CONFIG_UART_TX_BUF_SIZE - 1).
(** src/common/uart_buffering.c:25-25 [RX_BUF_NEXT] *)
Definition RX_BUF_NEXT (i : Z) : Z := Z.land (i + 1) (CONFIG_UART_RX_BUF_SIZE - 1).
(** src/common/uart_buffering.c:29-29 [TX_BUF_DIFF] *)
Definition TX_BUF_DIFF (i j : Z) : Z := Z.land (i - j) (CONFIG_UART_TX_BUF_SIZE - 1).

(** The variables of the output side; [tx_started] is the transmit interrupt's
    enable bit, which [uart_tx_start] and [uart_tx_stop] set and clear. *)
(** src/common/uart_buffering.c:44-55 [tx_buf] *)
Record uart_tx := Tx {
  tx_buf : list Z;
  tx_buf_head : Z;
  tx_buf_tail : Z;
  tx_snapshot_head : Z;
  tx_snapshot_tail : Z;
  tx_last_snapshot_head : Z;
  tx_next_snapshot_head : Z;
  tx_checksum : Z;
  tx_dma_in_progress : Z;
  tx_started : bool }.
(** src/common/uart_buffering.c:48-50 [rx_buf] *)
Record uart_rx := Rx { rx_buf : list Z; rx_buf_head : Z; rx_buf_tail : Z }.

Definition set_head (buf : list Z) (head : Z) (u : uart_tx) : uart_tx :=
  Tx buf head (tx_buf_tail u) (tx_snapshot_head u) (tx_snapshot_tail u) (tx_last_snapshot_head u)
    (tx_next_snapshot_head u) (tx_checksum u) (tx_dma_in_progress u) (tx_started u).
Definition set_tail (tail : Z) (u : uart_tx) : uart_tx :=
  Tx (tx_buf u) (tx_buf_head u) tail (tx_snapshot_head u) (tx_snapshot_tail u) (tx_last_snapshot_head u)
    (tx_next_snapshot_head u) (tx_checksum u) (tx_dma_in_progress u) (tx_started u).
Definition set_snapshots (head tail last next : Z) (u : uart_tx) : uart_tx :=
  Tx (tx_buf u) (tx_buf_head u) (tx_buf_tail u) head tail last next
    (tx_checksum u) (tx_dma_in_progress u) (tx_started u).
Definition set_checksum (sum : Z) (u : uart_tx) : uart_tx :=
  Tx (tx_buf u) (tx_buf_head u) (tx_buf_tail u) (tx_snapshot_head u) (tx_snapshot_tail u) (tx_last_snapshot_head u)
    (tx_next_snapshot_head u) sum (tx_dma_in_progress u) (tx_started u).
Definition set_dma (n : Z) (u : uart_tx) : uart_tx :=
  Tx (tx_buf u) (tx_buf_head u) (tx_buf_tail u) (tx_snapshot_head u) (tx_snapshot_tail u) (tx_last_snapshot_head u)
    (tx_next_snapshot_head u) (tx_checksum u) n (tx_started u).
Definition set_started (b : bool) (u : uart_tx) : uart_tx :=
  Tx (tx_buf u) (tx_buf_head u) (tx_buf_tail u) (tx_snapshot_head u) (tx_snapshot_tail u) (tx_last_snapshot_head u)
    (tx_next_snapshot_head u) (tx_checksum u) (tx_dma_in_progress u) b.
Definition uart_tx_start : uart_tx -> uart_tx := set_started true.
Definition uart_tx_stop : uart_tx -> uart_tx := set_started false.

(** ** Output *)

Section Output.
(** CONFIG_PRESERVE_LOGS: the ring survives a reset. *)
Context (preserve_logs : bool).

(** src/common/uart_buffering.c:57-60 [uart_buffer_calc_checksum] *)
Definition uart_buffer_calc_checksum (u : uart_tx) : Z := Z.lxor (tx_buf_head u) (tx_buf_tail u).
Definition update_checksum (u : uart_tx) : uart_tx :=
  if preserve_logs then set_checksum (uart_buffer_calc_checksum u) u else u.
Definition in_buffer (i : Z) : bool := (0 <=? i) && (i <=? CONFIG_UART_TX_BUF_SIZE - 1).
(** src/common/uart_buffering.c:62-76 [uart_init_buffer] *)
Definition uart_init_buffer (u : uart_tx) : uart_tx :=
  if negb (tx_checksum u =? uart_buffer_calc_checksum u) || negb (in_buffer (tx_buf_head u)) ||
     negb (in_buffer (tx_buf_tail u))
  then set_checksum 0 (set_tail 0 (set_head (tx_buf u) 0 u))
  else u.

(** The snapshots that the new head would overtake move ahead of it. *)
(** src/common/uart_buffering.c:100-105 [uart_tx_char_raw] *)
Definition push_snapshots (tx_buf_next : Z) (u : uart_tx) : uart_tx :=
  let tx_buf_new_tail := TX_BUF_NEXT tx_buf_next in
  let last :=
    if (tx_buf_next =? tx_last_snapshot_head u) && negb (tx_last_snapshot_head u =? tx_snapshot_head u)
    then tx_buf_new_tail else tx_last_snapshot_head u in
  let next := if tx_buf_next =? tx_next_snapshot_head u then tx_buf_new_tail else tx_next_snapshot_head u in
  set_snapshots (tx_snapshot_head u) (tx_snapshot_tail u) last next u.
(** True when the character is dropped. *)
(** src/common/uart_buffering.c:78-114 [uart_tx_char_raw] *)
Definition uart_tx_char_raw (u : uart_tx) (c : Z) : uart_tx * bool :=
  let tx_buf_next := TX_BUF_NEXT (tx_buf_head u) in
  if tx_buf_next =? tx_buf_tail u then (u, true)
  else
    let u := push_snapshots tx_buf_next u in
    (update_checksum (set_head (aset (tx_buf u) (tx_buf_head u) (u8 c)) tx_buf_next u), false).

(** The port accepts [ready] characters; those written to it are returned. *)
(** src/common/uart_buffering.c:168-174 [uart_process_output] *)
Fixpoint output_loop (ready : nat) (u : uart_tx) : uart_tx * list Z :=
  match ready with
  | O => (u, [])
  | S ready =>
    if tx_buf_head u =? tx_buf_tail u then (u, [])
    else
      let c := aget (tx_buf u) (tx_buf_tail u) in
      let '(u, out) := output_loop ready (update_checksum (set_tail (TX_BUF_NEXT (tx_buf_tail u)) u)) in
      (u, c :: out)
  end.
(** src/common/uart_buffering.c:165-179 [uart_process_output] *)
Definition uart_process_output (ready : nat) (u : uart_tx) : uart_tx * list Z :=
  let '(u, out) := output_loop ready u in
  (if tx_buf_tail u =? tx_buf_head u then uart_tx_stop u else u, out).

(** With CONFIG_UART_TX_DMA; the result is the block that is handed over. *)
(** src/common/uart_buffering.c:121-161 [uart_process_output] *)
Definition uart_process_output_dma (ready : bool) (u : uart_tx) : uart_tx * list Z :=
  let head := tx_buf_head u in
  if negb ready then (u, [])
  else
    let u :=
      if bool_of_Z (tx_dma_in_progress u) then
        let tail := Z.land (tx_buf_tail u + tx_dma_in_progress u) (CONFIG_UART_TX_BUF_SIZE - 1) in
        update_checksum (set_dma 0 (set_tail tail u))
      else u in
    if head =? tx_buf_tail u then (uart_tx_stop u, [])
    else
      let n := (if tx_buf_tail u <? head then head else CONFIG_UART_TX_BUF_SIZE) - tx_buf_tail u in
      (set_dma n u, take (Z.to_nat n) (drop (Z.to_nat (tx_buf_tail u)) (tx_buf u))).

(** Until the ring is empty; the port accepts [ready] characters at each turn. *)
(** src/common/uart_buffering.c:256-287 [uart_flush_output] *)
Fixpoint uart_flush_output (ready : list nat) (u : uart_tx) : option (uart_tx * list Z) :=
  if tx_buf_head u =? tx_buf_tail u then Some (u, [])
  else match ready with
       | [] => None
       | n :: ready =>
         let '(u, out) := uart_process_output n (uart_tx_start u) in
         '(u, out') ← uart_flush_output ready u; Some (u, out ++ out')
       end.

(** src/common/uart_buffering.c:303-306 [uart_buffer_empty] *)
Definition uart_buffer_empty (u : uart_tx) : bool := tx_buf_head u =? tx_buf_tail u.
(** src/common/uart_buffering.c:308-311 [uart_buffer_full] *)
Definition uart_buffer_full (u : uart_tx) : bool := TX_BUF_NEXT (tx_buf_head u) =? tx_buf_tail u.
(** src/common/uart_buffering.c:313-316 [uart_buffer_used] *)
Definition uart_buffer_used (u : uart_tx) : Z := TX_BUF_DIFF (tx_buf_head u) (tx_buf_tail u).

(** ** Printing (common/uart_printf.c) *)

(** A newline goes out as carriage return and newline. *)
(** src/common/uart_printf.c:13-23 [__tx_char] *)
Definition __tx_char (u : uart_tx) (c : Z) : uart_tx * bool :=
  if c =? 10 then
    let '(u, dropped) := uart_tx_char_raw u 13 in
    if dropped then (u, true) else uart_tx_char_raw u c
  else uart_tx_char_raw u c.
(** src/common/uart_printf.c:25-32 [uart_putc] *)
Definition uart_putc (c : Z) (u : uart_tx) : uart_tx * ec_error :=
  let '(u, rv) := __tx_char u c in
  (uart_tx_start u, if rv : bool then EC_ERROR_OVERFLOW else EC_SUCCESS).
(** The number of characters that [tx] takes. *)
Fixpoint put_all (tx : uart_tx -> Z -> uart_tx * bool) (out : list Z) (written : Z) (u : uart_tx) : uart_tx * Z :=
  match out with
  | [] => (u, written)
  | c :: out =>
    let '(u, dropped) := tx u c in if dropped : bool then (u, written) else put_all tx out (written + 1) u
  end.
(** src/common/uart_printf.c:34-48 [uart_puts] *)
Definition uart_puts (outstr : list Z) (u : uart_tx) : uart_tx * ec_error :=
  let s := chars_of outstr in
  let '(u, n) := put_all __tx_char s 0 u in
  (uart_tx_start u, if n <? Z.of_nat (length s) then EC_ERROR_OVERFLOW else EC_SUCCESS).
(** src/common/uart_printf.c:50-64 [uart_put] *)
Definition uart_put (out : list Z) (u : uart_tx) : uart_tx * Z :=
  let '(u, written) := put_all __tx_char out 0 u in (uart_tx_start u, written).
(** src/common/uart_printf.c:66-80 [uart_put_raw] *)
Definition uart_put_raw (out : list Z) (u : uart_tx) : uart_tx * Z :=
  let '(u, written) := put_all uart_tx_char_raw out 0 u in (uart_tx_start u, written).
(** [None] when [vfnprintf] crashes. *)
(** src/common/uart_printf.c:81-88 [uart_vprintf] *)
Definition uart_vprintf (long_is_32bits : bool) (format : list Z) (args : list arg) (u : uart_tx)
    : option (uart_tx * ec_error) :=
  match vfnprintf long_is_32bits __tx_char format args u with
  | Go u => Some (uart_tx_start u, EC_SUCCESS)
  | Full u => Some (uart_tx_start u, EC_ERROR_OVERFLOW)
  | _ => None
  end.
End Output.

(** ** Input *)

(** The characters that the port has received; whether the console is told. *)
(** src/common/uart_buffering.c:224-240 [uart_process_input] *)
Fixpoint input_loop (received : list Z) (got_input : bool) (u : uart_rx) : uart_rx * bool :=
  match received with
  | [] => (u, got_input)
  | c :: received =>
    let rx_buf_next := RX_BUF_NEXT (rx_buf_head u) in
    if negb (rx_buf_next =? rx_buf_tail u)
    then input_loop received true (Rx (aset (rx_buf u) (rx_buf_head u) (u8 c)) rx_buf_next (rx_buf_tail u))
    else input_loop received got_input u
  end.
(** src/common/uart_buffering.c:219-244 [uart_process_input] *)
Definition uart_process_input (received : list Z) (u : uart_rx) : uart_rx * bool := input_loop received false u.
(** src/common/uart_buffering.c:246-252 [uart_clear_input] *)
Definition uart_clear_input (u : uart_rx) : uart_rx := Rx (rx_buf u) 0 0.
(** src/common/uart_buffering.c:289-301 [uart_getc] *)
Definition uart_getc (u : uart_rx) : uart_rx * Z :=
  if rx_buf_tail u =? rx_buf_head u then (u, -1)
  else (Rx (rx_buf u) (rx_buf_head u) (RX_BUF_NEXT (rx_buf_tail u)), aget (rx_buf u) (rx_buf_tail u)).

(** ** Snapshots for the host *)

(** src/common/uart_buffering.c:346-350 [uart_console_read_buffer_init] *)
Fixpoint skip_unused (fuel : nat) (buf : list Z) (head tail : Z) : option Z :=
  match fuel with
  | O => None
  | S fuel =>
    if tail =? head then Some tail
    else if bool_of_Z (aget buf tail) then Some tail
    else skip_unused fuel buf head (TX_BUF_NEXT tail)
  end.
Definition ring_fuel : nat := S (Z.to_nat CONFIG_UART_TX_BUF_SIZE).
(** src/common/uart_buffering.c:327-353 [uart_console_read_buffer_init] *)
Definition uart_console_read_buffer_init (u : uart_tx) : option uart_tx :=
  let head := tx_buf_head u in
  tail ← skip_unused ring_fuel (tx_buf u) head (TX_BUF_NEXT head);
  Some (set_snapshots head tail (tx_next_snapshot_head u) head u).

(** src/include/ec_commands.h:4724-4727 [CONSOLE_READ_NEXT] *)
Definition CONSOLE_READ_NEXT : Z := 0.
Definition CONSOLE_READ_RECENT : Z := 1.
(** [n] is [*write_count]. *)
(** src/common/uart_buffering.c:376-387 [uart_console_read_buffer] *)
Fixpoint copy_loop (fuel : nat) (buf : list Z) (head tail n dest_size : Z) : option (Z * list Z) :=
  match fuel with
  | O => None
  | S fuel =>
    if (tail =? head) || (dest_size - 1 <=? n) then Some (tail, [])
    else
      let c := aget buf tail in
      if bool_of_Z c
      then '(tail, dest) ← copy_loop fuel buf head (TX_BUF_NEXT tail) (n + 1) dest_size; Some (tail, c :: dest)
      else copy_loop fuel buf head (TX_BUF_NEXT tail) n dest_size
  end.
(** The bytes written; [*write_count] is zero before. *)
(** src/common/uart_buffering.c:355-394 [uart_console_read_buffer] *)
Definition uart_console_read_buffer (type dest_size : Z) (u : uart_tx) : option (uart_tx * option (list Z)) :=
  let head := tx_snapshot_head u in
  if type =? CONSOLE_READ_NEXT then
    if head =? tx_snapshot_tail u then Some (u, Some [])
    else
      '(tail, dest) ← copy_loop ring_fuel (tx_buf u) head (tx_snapshot_tail u) 0 dest_size;
      Some (set_snapshots head tail (tx_last_snapshot_head u) (tx_next_snapshot_head u) u, Some (dest ++ [0]))
  else if type =? CONSOLE_READ_RECENT then
    if head =? tx_last_snapshot_head u then Some (u, Some [])
    else
      '(tail, dest) ← copy_loop ring_fuel (tx_buf u) head (tx_last_snapshot_head u) 0 dest_size;
      Some (set_snapshots head (tx_snapshot_tail u) tail (tx_next_snapshot_head u) u, Some (dest ++ [0]))
  else Some (u, None).

(** [read_v1] is CONFIG_CONSOLE_ENABLE_READ_V1; the response, or None for
    EC_RES_INVALID_PARAM. *)
(** src/common/uart_hostcmd.c:20-43 [host_command_console_read] *)
Definition host_command_console_read (read_v1 : bool) (version subcmd response_max : Z) (u : uart_tx)
    : option (uart_tx * option (list Z)) :=
  if version =? 0 then uart_console_read_buffer CONSOLE_READ_NEXT response_max u
  else if read_v1 && (version =? 1) then uart_console_read_buffer subcmd response_max u
  else Some (u, None).
(** src/common/uart_hostcmd.c:12-16 [host_command_console_snapshot] *)
Definition host_command_console_snapshot (u : uart_tx) : option uart_tx := uart_console_read_buffer_init u.

(** ** Rings as lists *)

Ltac by_leb := repeat match goal with |- context [?a <=? ?b] => destruct (Z.leb_spec a b) end; lia.

Section Ring.
Context (k : Z) (Hk : 0 < k).
Abbreviation N := (2 ^ k).

(** The ring from index [h] on. *)
Definition rotate (h : Z) (buf : list Z) : list Z := drop (Z.to_nat h) buf ++ take (Z.to_nat h) buf.
Lemma N_pos : 1 < N.
Proof. apply (Z.lt_le_trans _ (2 ^ 1)); [done|]. apply Z.pow_le_mono_r; lia. Qed.
Lemma next_mod i : 0 <= i -> Z.land (i + 1) (N - 1) = (i + 1) mod N.
Proof. intros. by rewrite land_mask by lia. Qed.
Lemma next_cases i : 0 <= i < N -> (i + 1) mod N = if i + 1 =? N then 0 else i + 1.
Proof.
  intros Hi. destruct (Z.eqb_spec (i + 1) N) as [->|]; [apply Z.mod_same; lia|apply Z.mod_small; lia].
Qed.

(** How far [i] is behind the head. *)
Definition behind (h i : Z) : Z := (h - i) mod N.
Lemma behind_range h i : 0 <= behind h i < N.
Proof. apply Z.mod_pos_bound. pose proof N_pos. lia. Qed.
Lemma behind_cases h i : 0 <= h < N -> 0 <= i < N -> behind h i = if i <=? h then h - i else h - i + N.
Proof.
  intros Hh Hi. unfold behind. destruct (Z.leb_spec i h); [apply Z.mod_small; lia|].
  rewrite <- (Z.mod_add (h - i) 1), Z.mod_small by lia. lia.
Qed.

Lemma rotate_next h c buf : Z.of_nat (length buf) = N -> 0 <= h < N ->
  rotate ((h + 1) mod N) (aset buf h c) = tail (rotate h buf) ++ [c].
Proof.
  intros Hl Hh. unfold rotate, aset.
  destruct (lookup_lt_is_Some_2 buf (Z.to_nat h) ltac:(lia)) as [x Hx].
  rewrite (drop_S _ _ _ Hx). cbn [app tail]. rewrite next_cases by done.
  destruct (Z.eqb_spec (h + 1) N) as [E|E].
  - change (Z.to_nat 0) with O. rewrite drop_0, take_0, app_nil_r, (drop_ge buf (S _)) by lia. cbn [app].
    assert (Ed : drop (Z.to_nat h) (<[Z.to_nat h:=c]> buf) = [c]).
    { rewrite drop_insert_ge, Nat.sub_diag, (drop_S _ _ _ Hx), drop_ge by lia. done. }
    transitivity (take (Z.to_nat h) (<[Z.to_nat h:=c]> buf) ++ [c]); [rewrite <- Ed; symmetry; apply take_drop|].
    by rewrite take_insert_ge by lia.
  - replace (Z.to_nat (h + 1)) with (S (Z.to_nat h)) by lia. rewrite drop_insert_lt by lia. rewrite <- app_assoc. f_equal.
    rewrite (take_S_r _ _ c) by (rewrite list_lookup_insert_eq by lia; done). by rewrite take_insert_ge by lia.
Qed.
Lemma rotate_lookup h i buf : Z.of_nat (length buf) = N -> 0 <= h < N -> 0 <= i < N -> h <> i ->
  aget buf i = aget (rotate h buf) (N - behind h i).
Proof.
  intros Hl Hh Hi Hne. rewrite behind_cases by done. unfold rotate, aget.
  destruct (Z.leb_spec i h).
  - rewrite lookup_total_app_r by (rewrite length_drop; lia). rewrite length_drop, lookup_total_take_lt by lia. f_equal. lia.
  - rewrite lookup_total_app_l by (rewrite length_drop; lia). rewrite lookup_total_drop. f_equal. lia.
Qed.

Lemma length_rotate h buf : length (rotate h buf) = length buf.
Proof. unfold rotate. rewrite length_app, length_drop, length_take. lia. Qed.
Lemma behind_zero h i : 0 <= h < N -> 0 <= i < N -> behind h i = 0 <-> h = i.
Proof. intros. rewrite behind_cases by done. destruct (Z.leb_spec i h); lia. Qed.
(** The head moves on: what is behind it falls back, unless it is overtaken. *)
Lemma behind_push h i : 0 <= h < N -> 0 <= i < N -> (h + 1) mod N <> i -> behind ((h + 1) mod N) i = behind h i + 1.
Proof.
  intros Hh Hi. rewrite next_cases by done. pose proof N_pos. destruct (Z.eqb_spec (h + 1) N); intros Hne;
    rewrite !behind_cases by lia; by_leb.
Qed.
Lemma behind_full h i : 0 <= h < N -> 0 <= i < N -> (h + 1) mod N = i <-> behind h i = N - 1.
Proof.
  intros Hh Hi. rewrite next_cases by done. pose proof N_pos. rewrite behind_cases by lia.
  destruct (Z.eqb_spec (h + 1) N); destruct (Z.leb_spec i h); lia.
Qed.
Lemma behind_pop h i : 0 <= h < N -> 0 <= i < N -> h <> i -> behind h ((i + 1) mod N) = behind h i - 1.
Proof.
  intros Hh Hi Hne. rewrite next_cases by done. pose proof N_pos. destruct (Z.eqb_spec (i + 1) N);
    rewrite !behind_cases by lia; by_leb.
Qed.
Lemma next_range i : 0 <= (i + 1) mod N < N.
Proof. apply Z.mod_pos_bound. pose proof N_pos. lia. Qed.

(** What lies between [t] and the head [h]. *)
Definition between (h t : Z) (buf : list Z) : list Z := drop (Z.to_nat (N - behind h t)) (rotate h buf).
Section Between.
Context (h t : Z) (buf : list Z) (Hl : Z.of_nat (length buf) = N) (Hh : 0 <= h < N) (Ht : 0 <= t < N).
Lemma length_between : Z.of_nat (length (between h t buf)) = behind h t.
Proof. unfold between. rewrite length_drop, length_rotate. pose proof (behind_range h t). lia. Qed.
Lemma between_empty : h = t -> between h t buf = [].
Proof.
  intros E. apply length_zero_iff_nil. pose proof length_between as El. rewrite (proj2 (behind_zero h t Hh Ht) E) in El. lia.
Qed.
Lemma between_push c : (h + 1) mod N <> t -> between ((h + 1) mod N) t (aset buf h c) = between h t buf ++ [c].
Proof.
  intros Hne. unfold between. rewrite behind_push, rotate_next by done. pose proof (behind_range h t).
  assert (behind h t <> N - 1) by (intros E; by apply Hne, behind_full).
  pose proof (length_rotate h buf) as Hr. destruct (rotate h buf) as [|x l]; [cbn in Hr; pose proof N_pos; lia|].
  cbn [tail length] in *. rewrite drop_app_le by lia. f_equal.
  by replace (Z.to_nat (N - behind h t)) with (S (Z.to_nat (N - (behind h t + 1)))) by lia.
Qed.
Lemma between_pop : h <> t -> between h t buf = aget buf t :: between h ((t + 1) mod N) buf.
Proof.
  intros Hne. unfold between. rewrite behind_pop by done. pose proof (behind_range h t).
  assert (behind h t <> 0) by (intros E; by apply Hne, behind_zero).
  rewrite (rotate_lookup h t buf) by done. unfold aget.
  destruct (lookup_lt_is_Some_2 (rotate h buf) (Z.to_nat (N - behind h t)) ltac:(rewrite length_rotate; lia)) as [x Hx].
  rewrite (drop_S _ _ _ Hx), (list_lookup_total_correct _ _ _ Hx). do 2 f_equal. lia.
Qed.
End Between.
End Ring.

(** ** The output ring *)

Abbreviation N := CONFIG_UART_TX_BUF_SIZE.
Definition index (i : Z) : Prop := 0 <= i < 2 ^ 9.
Record tx_wf (u : uart_tx) : Prop := {
  tx_length : Z.of_nat (length (tx_buf u)) = 2 ^ 9;
  tx_head : index (tx_buf_head u);
  tx_tail : index (tx_buf_tail u);
  tx_snap_head : index (tx_snapshot_head u);
  tx_snap_tail : index (tx_snapshot_tail u);
  tx_last : index (tx_last_snapshot_head u);
  tx_next : index (tx_next_snapshot_head u);
  tx_order : tx_last_snapshot_head u = tx_snapshot_head u \/
             behind 9 (tx_buf_head u) (tx_snapshot_head u) < behind 9 (tx_buf_head u) (tx_last_snapshot_head u) }.

Definition from (t : Z) (u : uart_tx) : list Z := between 9 (tx_buf_head u) t (tx_buf u).
(** What waits for the port, and what was written since the last snapshot. *)
Definition pending (u : uart_tx) : list Z := from (tx_buf_tail u) u.
Definition since_snapshot (u : uart_tx) : list Z := from (tx_next_snapshot_head u) u.
(** What is left of the output between the last two snapshots. *)
Definition segment (t s : Z) (u : uart_tx) : list Z :=
  take (Z.to_nat (behind 9 (tx_buf_head u) t - behind 9 (tx_buf_head u) s)) (from t u).
Definition recent (u : uart_tx) : list Z := segment (tx_last_snapshot_head u) (tx_snapshot_head u) u.

Lemma TX_NEXT i : 0 <= i -> TX_BUF_NEXT i = (i + 1) mod 2 ^ 9.
Proof. exact (next_mod 9 ltac:(done) i). Qed.
Lemma TX_NEXT_index i : 0 <= i -> index (TX_BUF_NEXT i).
Proof. intros. rewrite TX_NEXT by done. exact (next_range 9 ltac:(done) i). Qed.

Lemma length_from t u : tx_wf u -> index t -> Z.of_nat (length (from t u)) = behind 9 (tx_buf_head u) t.
Proof. intros [] Ht. by apply length_between. Qed.
Lemma from_pop t u : tx_wf u -> index t -> t <> tx_buf_head u -> from t u = aget (tx_buf u) t :: from (TX_BUF_NEXT t) u.
Proof. intros [] Ht Hne. rewrite TX_NEXT by apply Ht. by apply between_pop. Qed.

(** The longest ring is one short of the buffer. *)
Definition cap : nat := 511.
Definition push_last (l : list Z) (c : Z) : list Z := if decide (length l < cap)%nat then l ++ [c] else tail l ++ [c].

(** The ring with one more character, [head] being the new head. *)
Lemma from_push t u buf head c : tx_wf u -> index t -> buf = aset (tx_buf u) (tx_buf_head u) c ->
  head = TX_BUF_NEXT (tx_buf_head u) ->
  between 9 head (if head =? t then TX_BUF_NEXT head else t) buf = push_last (from t u) c /\
  (head <> t -> between 9 head t buf = from t u ++ [c] /\ (length (from t u) < cap)%nat).
Proof.
  intros Hu Ht -> ->. pose proof Hu as [Hl Hh _ _ _ _ _ _]. pose proof (length_from t u Hu Ht) as Hlen.
  pose proof (behind_range 9 ltac:(done) (tx_buf_head u) t) as Hr.
  assert (Hpush : TX_BUF_NEXT (tx_buf_head u) <> t -> between 9 (TX_BUF_NEXT (tx_buf_head u)) t (aset (tx_buf u) (tx_buf_head u) c) =
    from t u ++ [c] /\ (length (from t u) < cap)%nat).
  { intros Hne. rewrite TX_NEXT in * by apply Hh. split; [by apply between_push|].
    assert (behind 9 (tx_buf_head u) t <> 2 ^ 9 - 1) by (intros E; by apply Hne, behind_full). unfold cap. lia. }
  split; [|exact Hpush]. unfold push_last. destruct (Z.eqb_spec (TX_BUF_NEXT (tx_buf_head u)) t) as [E|Hne].
  - assert (Hf : behind 9 (tx_buf_head u) t = 2 ^ 9 - 1) by (apply behind_full; rewrite <- ?TX_NEXT by apply Hh; done).
    rewrite decide_False by (unfold cap; lia).
    assert (Hth : tx_buf_head u <> t) by (intros Et; apply (behind_zero 9) in Et; (done || lia)).
    rewrite (from_pop t u Hu Ht) by auto. cbn [tail]. rewrite E.
    assert (Et : t = (tx_buf_head u + 1) mod 2 ^ 9) by (rewrite <- TX_NEXT; [done|apply Hh]).
    rewrite Et at 1. apply between_push; try done; [apply TX_NEXT_index, Ht|]. rewrite <- Et, TX_NEXT by apply Ht.
    rewrite next_cases by done. unfold index in *. destruct (Z.eqb_spec (t + 1) (2 ^ 9)); lia.
  - destruct (Hpush Hne) as [-> Hlt]. by rewrite decide_True.
Qed.

Lemma behind_inj h s t : index h -> index s -> index t -> behind 9 h s = behind 9 h t -> s = t.
Proof. unfold index. intros Hh Hs Ht. rewrite !behind_cases by done. by_leb. Qed.
Lemma TX_NEXT_behind h t : index h -> index t -> TX_BUF_NEXT h <> t -> behind 9 (TX_BUF_NEXT h) t = behind 9 h t + 1.
Proof. intros Hh Ht. rewrite TX_NEXT by apply Hh. intros Hne. by apply behind_push. Qed.
Lemma TX_NEXT_full h t : index h -> index t -> TX_BUF_NEXT h = t -> behind 9 h t = 2 ^ 9 - 1 /\ h <> t.
Proof.
  intros Hh Ht E. rewrite TX_NEXT in E by apply Hh. apply behind_full in E; [|done..]. split; [done|].
  intros ->. rewrite (proj2 (behind_zero 9 ltac:(done) t t Ht Ht)) in E by done. done.
Qed.
(** The head passes the start of its own lap. *)
Lemma TX_NEXT_behind_next h t : index h -> index t -> TX_BUF_NEXT h = t -> behind 9 t (TX_BUF_NEXT t) = 2 ^ 9 - 1.
Proof.
  intros Hh Ht _. pose proof (TX_NEXT_index t (proj1 Ht)) as Hn. apply (behind_full 9); [done|done|done|].
  by rewrite TX_NEXT by apply Ht.
Qed.

Section Push.
Context (preserve_logs : bool) (u : uart_tx) (c : Z) (Hu : tx_wf u).
Abbreviation head' := (TX_BUF_NEXT (tx_buf_head u)).
Abbreviation u' := (set_head (aset (tx_buf u) (tx_buf_head u) c) head' (push_snapshots head' u)).

Lemma recent_push : recent u' = recent u \/ recent u' = tail (recent u).
Proof.
  pose proof Hu as [Hl Hh Ht Hsh Hst HL Hn Ho]. pose proof (length_from _ u Hu HL) as Hlen.
  unfold recent, segment, from in *. cbn [tx_buf tx_buf_head tx_last_snapshot_head tx_snapshot_head set_head push_snapshots set_snapshots].
  set (h := tx_buf_head u) in *. set (L := tx_last_snapshot_head u) in *. set (S := tx_snapshot_head u) in *.
  destruct (Z.eq_dec L S) as [E|HLS].
  { left. rewrite (proj2 (Z.eqb_eq L S) E), andb_false_r, E, !Z.sub_diag. done. }
  rewrite (proj2 (Z.eqb_neq L S) HLS), andb_true_r. destruct Ho as [?|Ho]; [done|].
  destruct (from_push L u _ head' c Hu HL eq_refl eq_refl) as [Hp Hp2]. unfold from in Hp, Hp2. fold h in Hp, Hp2.
  pose proof (behind_range 9 ltac:(done) h L). pose proof (behind_range 9 ltac:(done) h S).
  destruct (Z.eqb_spec (TX_BUF_NEXT h) L) as [E|Hne].
  - right. rewrite Hp. destruct (TX_NEXT_full h L Hh HL E) as [Hf _]. unfold push_last.
    rewrite decide_False by (unfold cap; lia). rewrite E, (TX_NEXT_behind_next h L Hh HL E).
    assert (behind 9 L S = behind 9 h S + 1) as -> by (rewrite <- E; apply TX_NEXT_behind; congruence). rewrite Hf.
    destruct (between 9 h L (tx_buf u)) as [|x l]; [cbn in Hlen; lia|]. cbn [tail length] in *.
    replace (Z.to_nat (2 ^ 9 - 1 - behind 9 h S)) with (Datatypes.S (Z.to_nat (2 ^ 9 - 1 - (behind 9 h S + 1)))) by lia.
    cbn [take tail]. rewrite take_app_le by lia. done.
  - left. destruct (Hp2 Hne) as [-> Hcap]. unfold cap in Hcap. rewrite !TX_NEXT_behind; try done.
    + rewrite take_app_le by lia. f_equal. lia.
    + intros E. destruct (TX_NEXT_full h S Hh Hsh E). lia.
Qed.

Lemma wf_push : tx_wf u'.
Proof.
  pose proof Hu as [Hl Hh Ht Hsh Hst HL Hn Ho].
  pose proof (TX_NEXT_index _ (proj1 Hh)) as Hh'. pose proof (TX_NEXT_index _ (proj1 Hh')) as Hh2.
  split; cbn [tx_buf tx_buf_head tx_buf_tail tx_snapshot_head tx_snapshot_tail tx_last_snapshot_head
              tx_next_snapshot_head set_head push_snapshots set_snapshots]; try done.
  - by rewrite length_aset.
  - by destruct (_ && _).
  - by destruct (_ =? _).
  - set (h := tx_buf_head u) in *. set (L := tx_last_snapshot_head u) in *. set (S := tx_snapshot_head u) in *.
    destruct (Z.eqb_spec L S) as [E|HLS]; [rewrite andb_false_r; by left|]. rewrite andb_true_r.
    destruct Ho as [?|Ho]; [done|]. pose proof (behind_range 9 ltac:(done) h L).
    destruct (Z.eqb_spec (TX_BUF_NEXT h) L) as [E|Hne].
    + destruct (Z.eq_dec (TX_BUF_NEXT (TX_BUF_NEXT h)) S) as [|Hne2]; [by left|right].
      rewrite E in *. rewrite (TX_NEXT_behind_next h L Hh HL E).
      pose proof (behind_range 9 ltac:(done) L S). assert (behind 9 L S <> 2 ^ 9 - 1); [|lia].
      intros Ef. apply Hne2. apply (behind_inj L); try done. by rewrite (TX_NEXT_behind_next h L Hh HL E).
    + right. rewrite !TX_NEXT_behind; try done; [lia|]. intros E. destruct (TX_NEXT_full h S Hh Hsh E). lia.
Qed.

Lemma since_push : since_snapshot u' = push_last (since_snapshot u) c.
Proof. exact (proj1 (from_push _ u _ head' c Hu (tx_next u Hu) eq_refl eq_refl)). Qed.
Lemma pending_push : head' <> tx_buf_tail u -> pending u' = pending u ++ [c] /\ (length (pending u) < cap)%nat.
Proof. exact (proj2 (from_push _ u _ head' c Hu (tx_tail u Hu) eq_refl eq_refl)). Qed.
End Push.

Lemma wf_checksum x u : tx_wf u -> tx_wf (set_checksum x u).
Proof. by intros []. Qed.

(** A character is taken exactly if there is room. *)
Lemma tx_char_raw_ok preserve u c : tx_wf u ->
  let '(v, dropped) := uart_tx_char_raw preserve u c in
  tx_wf v /\ tx_started v = tx_started u /\
  if dropped then v = u /\ length (pending u) = cap
  else pending v = pending u ++ [u8 c] /\ (length (pending u) < cap)%nat /\
       since_snapshot v = push_last (since_snapshot u) (u8 c) /\ (recent v = recent u \/ recent v = tail (recent u)).
Proof.
  intros Hu. unfold uart_tx_char_raw. cbv zeta. destruct (Z.eqb_spec (TX_BUF_NEXT (tx_buf_head u)) (tx_buf_tail u)) as [E|Hne].
  - split; [done|]. split; [done|]. split; [done|]. pose proof Hu as [Hl Hh Ht _ _ _ _ _].
    pose proof (length_from _ u Hu Ht) as Hlen. destruct (TX_NEXT_full _ _ Hh Ht E) as [Hf _]. unfold pending, cap. lia.
  - destruct (pending_push u (u8 c) Hu Hne) as [Hp Hc]. pose proof (since_push u (u8 c) Hu) as Hs.
    pose proof (recent_push u (u8 c) Hu) as Hr. pose proof (wf_push u (u8 c) Hu) as Hw.
    unfold update_checksum. destruct preserve; [split_and!; try done; by apply wf_checksum|by split_and!].
Qed.

(** Taking a character out. *)
Lemma wf_set_tail t u : tx_wf u -> index t -> tx_wf (set_tail t u).
Proof. by intros []. Qed.
Lemma wf_update preserve u : tx_wf u -> tx_wf (update_checksum preserve u).
Proof. destruct preserve; [apply wf_checksum|done]. Qed.
Lemma pending_empty u : tx_wf u -> tx_buf_head u = tx_buf_tail u <-> pending u = [].
Proof.
  intros Hu. pose proof Hu as [Hl Hh Ht _ _ _ _ _]. pose proof (length_from _ u Hu Ht) as Hlen.
  rewrite <- (behind_zero 9) by done. unfold pending. rewrite <- length_zero_iff_nil. lia.
Qed.
Definition same_logs (u v : uart_tx) : Prop :=
  tx_buf_head v = tx_buf_head u /\ tx_buf v = tx_buf u /\ tx_snapshot_head v = tx_snapshot_head u /\
  tx_last_snapshot_head v = tx_last_snapshot_head u /\ tx_next_snapshot_head v = tx_next_snapshot_head u.

(** The port gets the oldest characters, as many as it accepts. *)
Lemma output_loop_ok preserve n : forall u, tx_wf u ->
  let '(v, out) := output_loop preserve n u in
  tx_wf v /\ same_logs u v /\ tx_started v = tx_started u /\
  out = take n (pending u) /\ pending v = drop n (pending u).
Proof.
  induction n as [|n IH]; intros u Hu; cbn [output_loop]; [by split_and!|].
  pose proof (pending_empty u Hu) as He. destruct (Z.eqb_spec (tx_buf_head u) (tx_buf_tail u)) as [E|E].
  - rewrite (proj1 He E), take_nil, drop_nil. by split_and!.
  - pose proof (tx_tail u Hu) as Ht. pose proof (TX_NEXT_index _ (proj1 Ht)) as Hn.
    set (w := update_checksum preserve (set_tail (TX_BUF_NEXT (tx_buf_tail u)) u)).
    assert (Hw : tx_wf w) by (by apply wf_update, wf_set_tail).
    assert (Hp : pending u = aget (tx_buf u) (tx_buf_tail u) :: pending w).
    { unfold pending at 1. rewrite (from_pop _ u Hu Ht) by auto. unfold w, update_checksum. by destruct preserve. }
    assert (Hs : same_logs u w /\ tx_started w = tx_started u) by (unfold w, update_checksum; by destruct preserve).
    specialize (IH w Hw). destruct (output_loop preserve n w) as [v out]. destruct IH as (Hv & Hl & Hst & -> & Hd).
    rewrite Hp. unfold same_logs in *. split_and!; try done; destruct_and?; congruence.
Qed.

(** *** Printing *)

(** What goes into the ring for a text. *)
Definition crlf_char (c : Z) : list Z := if c =? 10 then [13; 10] else [u8 c].
Definition crlf (l : list Z) : list Z := l ≫= crlf_char.
(** [l] follows what is pending, as far as there is room. *)
Definition appended (l : list Z) (u v : uart_tx) : Prop :=
  tx_wf v /\ pending v = pending u ++ take (cap - length (pending u)) l.

Lemma tx_char_ok preserve u c : tx_wf u ->
  let '(v, dropped) := __tx_char preserve u c in
  appended (crlf_char c) u v /\ dropped = negb (length (pending u) + length (crlf_char c) <=? cap)%nat.
Proof.
  intros Hu. unfold __tx_char, crlf_char, appended. destruct (Z.eqb_spec c 10) as [->|].
  - pose proof (tx_char_raw_ok preserve u 13 Hu) as H. destruct (uart_tx_char_raw preserve u 13) as [v [|]].
    + destruct H as (Hv & _ & -> & Hc). rewrite Hc, Nat.sub_diag, app_nil_r. split; [done|]. symmetry. apply negb_true_iff, Nat.leb_gt. cbn [length]. lia.
    + destruct H as (Hv & _ & Hp & Hc & _). change (u8 13) with 13 in Hp.
      pose proof (tx_char_raw_ok preserve v 10 Hv) as H. destruct (uart_tx_char_raw preserve v 10) as [w d].
      assert (Hlen : length (pending v) = S (length (pending u))) by (rewrite Hp, length_app; cbn; lia).
      destruct d; destruct H as (Hw & _ & H).
      * destruct H as [-> Hf]. split; [split; [done|]|].
        -- replace (cap - length (pending u))%nat with 1%nat by lia. done.
        -- cbn [length]. destruct (Nat.leb_spec (length (pending u) + 2) cap); [lia|done].
      * destruct H as (Hpw & Hf & _). change (u8 10) with 10 in Hpw. split; [split; [done|]|].
        -- rewrite Hpw, Hp, <- app_assoc, firstn_all2 by (cbn [length]; lia). done.
        -- cbn [length]. destruct (Nat.leb_spec (length (pending u) + 2) cap); [done|lia].
  - pose proof (tx_char_raw_ok preserve u c Hu) as H. destruct (uart_tx_char_raw preserve u c) as [v [|]]; destruct H as (Hv & _ & H).
    + destruct H as [-> Hc]. rewrite Hc, Nat.sub_diag, app_nil_r. split; [done|]. symmetry. apply negb_true_iff, Nat.leb_gt. cbn [length]. lia.
    + destruct H as (Hp & Hc & _). split; [split; [done|]|].
      * rewrite Hp, firstn_all2 by (cbn [length]; lia). done.
      * cbn [length]. destruct (Nat.leb_spec (length (pending u) + 1) cap); [done|lia].
Qed.

Lemma appended_app l1 l2 u v w : appended l1 u v -> (length (pending u) + length l1 <= cap)%nat -> appended l2 v w ->
  appended (l1 ++ l2) u w.
Proof.
  intros [Hv Hp] Hf [Hw Hq]. split; [done|]. rewrite firstn_all2 in Hp by lia.
  rewrite Hq, Hp, length_app, <- app_assoc, take_app, (firstn_all2 l1) by lia. do 3 f_equal. lia.
Qed.
Lemma appended_more l1 l2 u v : appended l1 u v -> (cap < length (pending u) + length l1)%nat -> appended (l1 ++ l2) u v.
Proof. intros [Hv Hp] Hf. split; [done|]. by rewrite take_app_le by lia. Qed.

Lemma send_tx_ok preserve l : forall u, tx_wf u ->
  exists v, appended (crlf l) u v /\
    send (__tx_char preserve) l u = if (length (pending u) + length (crlf l) <=? cap)%nat then Go v else Full v.
Proof.
  induction l as [|c l IH]; intros u Hu.
  - exists u. split; [split; [done|]; cbn; by rewrite take_nil, app_nil_r|]. pose proof (length_from _ u Hu (tx_tail u Hu)) as Hlen.
    pose proof (behind_range 9 ltac:(done) (tx_buf_head u) (tx_buf_tail u)). unfold pending, cap. cbn.
    destruct (Nat.leb_spec (length (from (tx_buf_tail u) u) + 0) 511); [done|lia].
  - cbn [send]. unfold Printf.emit. pose proof (tx_char_ok preserve u c Hu) as H.
    destruct (__tx_char preserve u c) as [v d]. destruct H as [Ha ->].
    unfold crlf. cbn [mbind list_bind]. fold (crlf l).
    destruct (Nat.leb_spec (length (pending u) + length (crlf_char c)) cap) as [Hle|Hgt]; cbn [negb bind].
    + destruct (IH v (proj1 Ha)) as (w & Hw & ->). exists w. split; [by apply (appended_app _ _ u v)|].
      destruct Ha as [_ Hp]. rewrite firstn_all2 in Hp by lia. rewrite Hp, !length_app.
      by rewrite Nat.add_assoc.
    + exists v. split; [by apply appended_more|]. rewrite length_app.
      by destruct (Nat.leb_spec (length (pending u) + (length (crlf_char c) + length (crlf l))) cap); [lia|].
Qed.

(** Printing to the console: [uart_vprintf] appends the text of its format,
    with each newline as two characters, to what waits for the port, as far as
    the ring has room; it reports success exactly if everything fitted, and
    leaves the transmit interrupt on. *)
Theorem uart_vprintf_correct preserve long_is_32bits items u :
  tx_wf u -> Forall (item_ok long_is_32bits) items ->
  exists v, tx_wf v /\ tx_started v = true /\
    pending v = pending u ++ take (cap - length (pending u)) (crlf (text_of items)) /\
    uart_vprintf preserve long_is_32bits (format_of items ++ [0]) (args_of items) u =
    Some (v, if (length (pending u) + length (crlf (text_of items)) <=? cap)%nat then EC_SUCCESS else EC_ERROR_OVERFLOW).
Proof.
  intros Hu Hok. destruct (send_tx_ok preserve (text_of items) u Hu) as (v & [Hv Hp] & E).
  assert (Hst : tx_wf (uart_tx_start v)) by (by destruct Hv).
  exists (uart_tx_start v). split_and!; [done|done|exact Hp|]. unfold uart_vprintf.
  pose proof (vfnprintf_items long_is_32bits (__tx_char preserve) items [] [] u Hok) as Ev. rewrite app_nil_r in Ev.
  rewrite Ev, E. by destruct (_ <=? _)%nat.
Qed.
Definition tx0 : uart_tx := Tx (replicate 512 0) 510 510 0 0 0 0 0 0 false.
Lemma tx0_wf : tx_wf tx0.
Proof. split; unfold index; cbn; auto; lia. Qed.
(** "%d\n" around the end of the buffer *)
Lemma uart_vprintf_correct_witness :
  let items := [Dir (Directive false false false (Plain 0) None (VNum Ln Signed (-17))); Char 10] in
  crlf (text_of items) = [45; 49; 55; 13; 10] /\
  exists v, tx_wf v /\ tx_started v = true /\
    pending v = pending tx0 ++ take (cap - length (pending tx0)) (crlf (text_of items)) /\
    uart_vprintf false false (format_of items ++ [0]) (args_of items) tx0 =
    Some (v, if (length (pending tx0) + length (crlf (text_of items)) <=? cap)%nat then EC_SUCCESS else EC_ERROR_OVERFLOW).
Proof.
  cbv zeta. split; [by vm_compute|]. apply uart_vprintf_correct; [exact tx0_wf|].
  repeat apply List.Forall_cons; try apply List.Forall_nil; [|done].
  split_and!; [by vm_compute|intros ? [=]|]. split; [done|unfold signed_ok; lia].
Defined.

(** *** The rings as bounded queues *)

#[export] Instance tx_fifo : Fifo uart_tx Z := {
  fifo_put c u := let '(u, dropped) := uart_tx_char_raw false u c in (u, negb dropped);
  fifo_get u := let '(u, out) := output_loop false 1 u in (u, head out) }.
#[export] Program Instance tx_fifo_spec : FifoSpec uart_tx Z := {
  fifo_wf := tx_wf;
  fifo_ok u c := is_u8 c;
  fifo_contents := pending;
  fifo_capacity u := cap }.
Next Obligation.
  intros u c Hu Hc. cbn. pose proof (tx_char_raw_ok false u c Hu) as H.
  destruct (uart_tx_char_raw false u c) as [v [|]]; destruct H as (Hv & _ & H).
  - destruct H as [-> Hf]. split_and!; [done|done|done|]. by rewrite decide_False by lia.
  - destruct H as (Hp & Hf & _). split_and!; [done|done|done|]. by rewrite decide_True, Hp, wrap_id.
Qed.
Next Obligation.
  intros u Hu. cbn -[output_loop]. pose proof (output_loop_ok false 1 u Hu) as H. destruct (output_loop false 1 u) as [v out].
  destruct H as (Hv & _ & _ & -> & Hp). split_and!; [done|done|done| |]; [by destruct (pending u)|].
  rewrite Hp. by destruct (pending u).
Qed.

(** ** Reading the console *)

Definition nonzero (l : list Z) : list Z := List.filter bool_of_Z l.

(** A full read stops at the head; a short one when the response is full. *)
Lemma segment_pop t s u : tx_wf u -> index t -> index s -> behind 9 (tx_buf_head u) s < behind 9 (tx_buf_head u) t ->
  segment t s u = aget (tx_buf u) t :: segment (TX_BUF_NEXT t) s u /\
  behind 9 (tx_buf_head u) (TX_BUF_NEXT t) = behind 9 (tx_buf_head u) t - 1.
Proof.
  intros Hu Ht Hs Hlt. pose proof (tx_head u Hu) as Hh. pose proof (behind_range 9 ltac:(done) (tx_buf_head u) s).
  assert (Hne : tx_buf_head u <> t).
  { intros E. apply (behind_zero 9) in E; [lia|done|done|done]. }
  assert (Hb : behind 9 (tx_buf_head u) (TX_BUF_NEXT t) = behind 9 (tx_buf_head u) t - 1).
  { rewrite TX_NEXT by apply Ht. by apply behind_pop. }
  split; [|done]. unfold segment. rewrite (from_pop t u Hu Ht) by auto. rewrite Hb.
  replace (Z.to_nat (behind 9 (tx_buf_head u) t - behind 9 (tx_buf_head u) s))
    with (S (Z.to_nat (behind 9 (tx_buf_head u) t - 1 - behind 9 (tx_buf_head u) s))) by lia. done.
Qed.
Lemma copy_loop_ok u s dest_size : tx_wf u -> index s -> forall fuel t n,
  index t -> behind 9 (tx_buf_head u) s <= behind 9 (tx_buf_head u) t ->
  behind 9 (tx_buf_head u) t - behind 9 (tx_buf_head u) s < Z.of_nat fuel -> n <= dest_size - 1 ->
  exists t' dest, copy_loop fuel (tx_buf u) s t n dest_size = Some (t', dest) /\ index t' /\
    behind 9 (tx_buf_head u) s <= behind 9 (tx_buf_head u) t' /\
    nonzero (segment t s u) = dest ++ nonzero (segment t' s u) /\
    (t' = s \/ n + Z.of_nat (length dest) = dest_size - 1) /\ n + Z.of_nat (length dest) <= dest_size - 1.
Proof.
  intros Hu Hs. induction fuel as [|fuel IH]; intros t n Ht Hle Hf Hn; [lia|]. cbn [copy_loop].
  destruct (Z.eqb_spec t s) as [->|Hne].
  { exists s, []. cbn. split_and!; auto; lia. }
  destruct (Z.leb_spec (dest_size - 1) n); cbn [orb].
  { exists t, []. cbn. split_and!; auto; lia. }
  pose proof (tx_head u Hu) as Hh.
  assert (Hlt : behind 9 (tx_buf_head u) s < behind 9 (tx_buf_head u) t).
  { assert (behind 9 (tx_buf_head u) s <> behind 9 (tx_buf_head u) t); [|lia]. intros E. by apply Hne, (behind_inj (tx_buf_head u)). }
  destruct (segment_pop t s u Hu Ht Hs Hlt) as [E Hb]. pose proof (TX_NEXT_index _ (proj1 Ht)) as Hn'. rewrite E. cbn [nonzero List.filter].
  destruct (bool_of_Z (aget (tx_buf u) t)).
  - destruct (IH (TX_BUF_NEXT t) (n + 1)) as (t' & dest & -> & Ht' & Hle' & Hd & Hend & Hmax); [done|lia|lia|lia|].
    exists t', (aget (tx_buf u) t :: dest). cbn [mbind option_bind length app]. fold (nonzero (segment (TX_BUF_NEXT t) s u)).
    rewrite Hd. split_and!; try done; [destruct Hend; [by left|right; lia]|lia].
  - destruct (IH (TX_BUF_NEXT t) n) as (t' & dest & -> & Hi); [done|lia|lia|lia|]. by exists t', dest.
Qed.

(** One READ_RECENT response, without its terminating zero, takes the next
    characters that are left. *)
Definition response_text (r : list Z) : list Z := removelast r.
Lemma read_recent_ok u dest_size : tx_wf u -> 1 <= dest_size ->
  exists v r, uart_console_read_buffer CONSOLE_READ_RECENT dest_size u = Some (v, Some r) /\ tx_wf v /\
    response_text r = take (Z.to_nat (dest_size - 1)) (nonzero (recent u)) /\
    nonzero (recent v) = drop (Z.to_nat (dest_size - 1)) (nonzero (recent u)) /\
    Z.of_nat (length r) <= dest_size.
Proof.
  intros Hu Hd. pose proof Hu as [Hl Hh Ht Hsh Hst HL Hn Ho]. unfold uart_console_read_buffer.
  change (CONSOLE_READ_RECENT =? CONSOLE_READ_NEXT) with false. rewrite Z.eqb_refl. cbv zeta.
  destruct (Z.eqb_spec (tx_snapshot_head u) (tx_last_snapshot_head u)) as [E|Hne].
  - exists u, []. assert (recent u = []) as -> by (unfold recent, segment; by rewrite E, Z.sub_diag).
    cbn. rewrite take_nil, drop_nil. split_and!; try done. lia.
  - destruct Ho as [?|Ho]; [congruence|].
    pose proof (behind_range 9 ltac:(done) (tx_buf_head u) (tx_snapshot_head u)).
    pose proof (behind_range 9 ltac:(done) (tx_buf_head u) (tx_last_snapshot_head u)).
    destruct (copy_loop_ok u (tx_snapshot_head u) dest_size Hu Hsh ring_fuel (tx_last_snapshot_head u) 0)
      as (t' & dest & -> & Ht' & Hle & Hseg & Hend & Hmax); [done|lia|change (Z.of_nat ring_fuel) with 513; lia|lia|].
    cbn [mbind option_bind]. eexists _, _. split; [done|].
    assert (Hrest : t' = tx_snapshot_head u -> segment t' (tx_snapshot_head u) u = [])
      by (intros ->; unfold segment; by rewrite Z.sub_diag).
    unfold response_text. rewrite removelast_last. unfold recent. rewrite Hseg.
    cbn [tx_last_snapshot_head tx_snapshot_head set_snapshots].
    change (segment t' (tx_snapshot_head u) (set_snapshots _ _ _ _ u)) with (segment t' (tx_snapshot_head u) u).
    split_and!; [| | |rewrite length_app; cbn [length]; lia].
    + split; cbn [tx_buf tx_buf_head tx_buf_tail tx_snapshot_head tx_snapshot_tail tx_last_snapshot_head tx_next_snapshot_head set_snapshots]; try done.
      destruct (Z.eq_dec t' (tx_snapshot_head u)) as [|Hne']; [by left|right].
      assert (behind 9 (tx_buf_head u) (tx_snapshot_head u) <> behind 9 (tx_buf_head u) t'); [|lia].
      intros E. by apply Hne', (behind_inj (tx_buf_head u)).
    + destruct Hend as [Et|Hlen]; [rewrite (Hrest Et); cbn; rewrite app_nil_r, firstn_all2 by lia; done|].
      rewrite take_app_le, firstn_all2 by lia. done.
    + destruct Hend as [Et|Hlen]; [rewrite (Hrest Et); cbn; rewrite app_nil_r, drop_ge by lia; done|].
      rewrite drop_app_ge by lia. by replace (Z.to_nat (dest_size - 1) - length dest)%nat with O by lia.
Qed.

Lemma skip_unused_total buf head fuel : forall t, index head -> index t -> behind 9 head t < Z.of_nat fuel ->
  exists t', skip_unused fuel buf head t = Some t' /\ index t'.
Proof.
  induction fuel as [|fuel IH]; intros t Hh Ht Hf; [pose proof (behind_range 9 ltac:(done) head t); lia|].
  cbn [skip_unused]. destruct (Z.eqb_spec t head) as [->|Hne]; [by exists head|]. destruct (bool_of_Z _); [by exists t|].
  apply IH; [done|apply TX_NEXT_index, Ht|]. rewrite TX_NEXT, behind_pop by (done || apply Ht || auto). lia.
Qed.
Lemma copy_loop_total buf head dest_size fuel : forall t n, index head -> index t -> behind 9 head t < Z.of_nat fuel ->
  exists t' dest, copy_loop fuel buf head t n dest_size = Some (t', dest) /\ index t'.
Proof.
  induction fuel as [|fuel IH]; intros t n Hh Ht Hf; [pose proof (behind_range 9 ltac:(done) head t); lia|].
  cbn [copy_loop]. destruct (Z.eqb_spec t head) as [->|Hne]; [by exists head, []|].
  destruct (dest_size - 1 <=? n); cbn [orb]; [by exists t, []|].
  pose proof (TX_NEXT_index _ (proj1 Ht)) as Hn.
  assert (Hb : behind 9 head (TX_BUF_NEXT t) < Z.of_nat fuel) by (rewrite TX_NEXT, behind_pop by (done || apply Ht || auto); lia).
  destruct (bool_of_Z _); [|by apply IH].
  destruct (IH _ (n + 1) Hh Hn Hb) as (t' & dest & -> & Ht'). by exists t', (aget buf t :: dest).
Qed.

(** A snapshot turns what was written since the last one into what is recent. *)
Lemma snapshot_ok u : tx_wf u ->
  exists v, uart_console_read_buffer_init u = Some v /\ tx_wf v /\ recent v = since_snapshot u /\
            since_snapshot v = [] /\ pending v = pending u.
Proof.
  intros Hu. pose proof Hu as [Hl Hh Ht Hsh Hst HL Hn Ho]. unfold uart_console_read_buffer_init. cbv zeta.
  destruct (skip_unused_total (tx_buf u) (tx_buf_head u) ring_fuel (TX_BUF_NEXT (tx_buf_head u))) as (t & -> & Hti).
  { done. } { apply TX_NEXT_index, Hh. } { pose proof (behind_range 9 ltac:(done) (tx_buf_head u) (TX_BUF_NEXT (tx_buf_head u))). change (Z.of_nat ring_fuel) with 513. lia. }
  cbn [mbind option_bind]. eexists. split; [done|].
  assert (Hz : behind 9 (tx_buf_head u) (tx_buf_head u) = 0) by (by apply behind_zero).
  assert (Hrec : recent (set_snapshots (tx_buf_head u) t (tx_next_snapshot_head u) (tx_buf_head u) u) = since_snapshot u).
  { unfold recent, segment, since_snapshot, from.
    cbn [tx_buf tx_buf_head tx_last_snapshot_head tx_snapshot_head tx_next_snapshot_head set_snapshots].
    pose proof (length_from _ u Hu Hn) as Hlen. unfold from in Hlen. rewrite Hz, firstn_all2 by lia. done. }
  split_and!; [|exact Hrec| |done].
  - split; cbn [tx_buf tx_buf_head tx_buf_tail tx_snapshot_head tx_snapshot_tail tx_last_snapshot_head tx_next_snapshot_head set_snapshots]; try done.
    destruct (Z.eq_dec (tx_next_snapshot_head u) (tx_buf_head u)) as [|Hne]; [by left|right]. rewrite Hz.
    pose proof (behind_range 9 ltac:(done) (tx_buf_head u) (tx_next_snapshot_head u)).
    assert (behind 9 (tx_buf_head u) (tx_next_snapshot_head u) <> 0); [|lia]. intros E. apply Hne. symmetry. by apply (behind_zero 9).
  - apply between_empty; done.
Qed.

(** What the tasks, the port and the host do between two snapshots; the
    characters that the ring takes are returned. *)
Inductive tx_op := Write (c : Z) | Output (ready : nat) | Read (type dest_size : Z).
Definition tx_step (preserve : bool) (op : tx_op) (u : uart_tx) : option (uart_tx * list Z) :=
  match op with
  | Write c => let '(u, dropped) := uart_tx_char_raw preserve u c in Some (u, if dropped then [] else [u8 c])
  | Output n => Some ((uart_process_output preserve n u).1, [])
  | Read type dest_size => '(u, _) ← uart_console_read_buffer type dest_size u; Some (u, [])
  end.
Fixpoint tx_run (preserve : bool) (ops : list tx_op) (u : uart_tx) : option (uart_tx * list Z) :=
  match ops with
  | [] => Some (u, [])
  | op :: ops => '(u, l) ← tx_step preserve op u; '(u, l') ← tx_run preserve ops u; Some (u, l ++ l')
  end.
(** Reads of what is recent, with responses of the given sizes. *)
Fixpoint read_all (sizes : list Z) (u : uart_tx) : option (uart_tx * list Z) :=
  match sizes with
  | [] => Some (u, [])
  | d :: sizes =>
    '(u, r) ← uart_console_read_buffer CONSOLE_READ_RECENT d u;
    r ← r; '(u, l) ← read_all sizes u; Some (u, response_text r ++ l)
  end.

Lemma wf_set_snap_tail u t : tx_wf u -> index t ->
  tx_wf (set_snapshots (tx_snapshot_head u) t (tx_last_snapshot_head u) (tx_next_snapshot_head u) u).
Proof. by intros []. Qed.
Lemma read_any_ok type d u : tx_wf u ->
  exists v r, uart_console_read_buffer type d u = Some (v, r) /\ since_snapshot v = since_snapshot u /\
              (type <> CONSOLE_READ_RECENT \/ 1 <= d -> tx_wf v).
Proof.
  intros Hu. unfold uart_console_read_buffer. cbv zeta. pose proof Hu as [Hl Hh Ht Hsh Hst HL Hn Ho].
  assert (Htot : forall t, index t -> exists t' dest, copy_loop ring_fuel (tx_buf u) (tx_snapshot_head u) t 0 d = Some (t', dest) /\ index t').
  { intros t Hti. apply copy_loop_total; [done|done|]. pose proof (behind_range 9 ltac:(done) (tx_snapshot_head u) t).
    change (Z.of_nat ring_fuel) with 513. lia. }
  destruct (Z.eqb_spec type CONSOLE_READ_NEXT) as [->|H1].
  - destruct (_ =? _); [by exists u, (Some [])|]. destruct (Htot _ Hst) as (t' & dest & -> & Ht').
    eexists _, _. split; [done|]. split; [done|]. intros _. by apply wf_set_snap_tail.
  - destruct (Z.eqb_spec type CONSOLE_READ_RECENT) as [->|H2]; [|by exists u, None].
    destruct (Z.leb_spec 1 d) as [Hd|Hd].
    + pose proof (read_recent_ok u d Hu Hd) as (v & r & E & Hv & _). unfold uart_console_read_buffer in E.
      change (CONSOLE_READ_RECENT =? CONSOLE_READ_NEXT) with false in E. rewrite Z.eqb_refl in E. cbv zeta in E. rewrite E.
      exists v, (Some r). split; [done|]. split; [|done].
      destruct (_ =? _); [by injection E as <- _|]. destruct (copy_loop _ _ _ _ _ _) as [[t' dest]|]; [|done].
      by injection E as <- _.
    + destruct (_ =? _); [by exists u, (Some [])|]. destruct (Htot _ HL) as (t' & dest & -> & Ht').
      eexists _, _. split; [done|]. split; [done|]. intros []; [done|lia].
Qed.

Definition op_ok (op : tx_op) : Prop := match op with Read type d => type <> CONSOLE_READ_RECENT \/ 1 <= d | _ => True end.
Lemma tx_step_ok preserve op u : tx_wf u -> op_ok op ->
  exists v l, tx_step preserve op u = Some (v, l) /\ tx_wf v /\ since_snapshot v = foldl push_last (since_snapshot u) l.
Proof.
  intros Hu Hop. destruct op as [c|n|type d]; cbn [tx_step].
  - pose proof (tx_char_raw_ok preserve u c Hu) as H. destruct (uart_tx_char_raw preserve u c) as [v [|]]; destruct H as (Hv & _ & H).
    + destruct H as [-> _]. by exists u, [].
    + destruct H as (_ & _ & Hs & _). by exists v, [u8 c].
  - unfold uart_process_output. pose proof (output_loop_ok preserve n u Hu) as H. destruct (output_loop preserve n u) as [v out].
    destruct H as (Hv & (H1 & H2 & _ & _ & H3) & _). eexists _, []. split; [done|].
    assert (Hs : since_snapshot v = since_snapshot u) by (unfold since_snapshot, from; by rewrite H1, H2, H3).
    destruct (_ =? _); cbn [fst]; [|done]. by destruct Hv.
  - destruct (read_any_ok type d u Hu) as (v & r & -> & Hs & Hv). exists v, []. cbn. auto.
Qed.
Lemma tx_ops_ok preserve ops : forall u, tx_wf u -> Forall op_ok ops ->
  exists v l, tx_run preserve ops u = Some (v, l) /\ tx_wf v /\ since_snapshot v = foldl push_last (since_snapshot u) l.
Proof.
  induction ops as [|op ops IH]; intros u Hu Hok; [by exists u, []|]. apply List.Forall_cons_iff in Hok as [Hop Hok].
  cbn [tx_run]. destruct (tx_step_ok preserve op u Hu Hop) as (v & l & -> & Hv & Hs). cbn [mbind option_bind].
  destruct (IH v Hv Hok) as (w & l' & -> & Hw & Hs'). exists w, (l ++ l'). by rewrite foldl_app, <- Hs.
Qed.
Lemma push_last_all l : foldl push_last [] l = drop (length l - cap) l.
Proof.
  induction l as [|c l IH] using rev_ind; [done|]. rewrite foldl_app, IH, length_app. cbn [foldl length].
  unfold push_last. rewrite length_drop. assert (1 <= cap)%nat by (unfold cap; lia). case_decide.
  - rewrite drop_app_le by lia. f_equal. by replace (length l + 1 - cap)%nat with (length l - cap)%nat by lia.
  - rewrite drop_app_le by lia. f_equal. replace (length l + 1 - cap)%nat with (length l - cap + 1)%nat by lia.
    by rewrite <- drop_drop; destruct (drop (length l - cap) l).
Qed.
(** The characters that fit in responses of these sizes. *)
Fixpoint room (sizes : list Z) : nat := match sizes with [] => O | d :: sizes => (Z.to_nat (d - 1) + room sizes)%nat end.
Lemma read_all_ok sizes : forall u, tx_wf u -> Forall (fun d => 2 <= d) sizes ->
  (length (nonzero (recent u)) <= room sizes)%nat ->
  exists v, read_all sizes u = Some (v, nonzero (recent u)).
Proof.
  induction sizes as [|d sizes IH]; intros u Hu Hs Hlen.
  - exists u. cbn in Hlen |- *. by rewrite (proj1 (length_zero_iff_nil (nonzero (recent u)))) by lia.
  - apply List.Forall_cons_iff in Hs as [Hd Hs]. cbn [read_all].
    destruct (read_recent_ok u d Hu ltac:(lia)) as (v & r & -> & Hv & Ht & Hr & _). cbn [mbind option_bind].
    destruct (IH v Hv Hs) as (w & ->); [rewrite Hr, length_drop; cbn [room] in Hlen; lia|]. exists w. cbn [mbind option_bind].
    by rewrite Ht, Hr, take_drop.
Qed.

(** C14. The host misses nothing: whatever tasks write, the port sends and the
    host reads between two snapshots, reading what is recent after the second,
    in responses of any sizes that are large enough together, gives exactly the
    characters that the ring has taken since the first (without zeros), or the
    last 511 of them. *)
Theorem console_snapshots_complete preserve ops sizes u :
  tx_wf u -> Forall op_ok ops -> Forall (fun d => 2 <= d) sizes ->
  exists u1 u2 written u3,
    host_command_console_snapshot u = Some u1 /\ tx_run preserve ops u1 = Some (u2, written) /\
    host_command_console_snapshot u2 = Some u3 /\
    ((length written <= room sizes)%nat ->
     exists u4, read_all sizes u3 = Some (u4, nonzero (drop (length written - cap) written))).
Proof.
  intros Hu Hops Hsizes. destruct (snapshot_ok u Hu) as (u1 & E1 & H1 & _ & Hs1 & _).
  destruct (tx_ops_ok preserve ops u1 H1 Hops) as (u2 & l & E2 & H2 & Hs2).
  destruct (snapshot_ok u2 H2) as (u3 & E3 & H3 & Hr3 & _). exists u1, u2, l, u3. split_and!; [done..|].
  intros Hlen. rewrite Hs1, push_last_all in Hs2. rewrite Hs2 in Hr3. rewrite <- Hr3. apply read_all_ok; [done|done|].
  rewrite Hr3. unfold nonzero. etransitivity; [apply filter_length_le|]. rewrite length_drop. lia.
Qed.
Lemma console_snapshots_complete_witness :
  let ops := [Write 72; Write 105; Output 1; Read CONSOLE_READ_NEXT 16; Write 10] in
  exists u1 u2 written u3,
    host_command_console_snapshot tx0 = Some u1 /\ tx_run false ops u1 = Some (u2, written) /\
    host_command_console_snapshot u2 = Some u3 /\
    ((length written <= room [3; 3]%Z)%nat ->
     exists u4, read_all [3; 3] u3 = Some (u4, nonzero (drop (length written - cap) written))).
Proof.
  apply console_snapshots_complete; [exact tx0_wf| |].
  - repeat apply List.Forall_cons; try apply List.Forall_nil; try done. by left.
  - repeat apply List.Forall_cons; try apply List.Forall_nil; lia.
Defined.

(** ** Output by DMA *)

Lemma from_block u n : forall t, tx_wf u -> index t -> (n <= length (from t u))%nat -> Z.of_nat n <= 2 ^ 9 - t ->
  take n (drop (Z.to_nat t) (tx_buf u)) = take n (from t u) /\
  from (Z.land (t + Z.of_nat n) (N - 1)) u = drop n (from t u).
Proof.
  induction n as [|n IH]; intros t Hu Ht Hn Hb.
  - split; [done|]. rewrite Z.add_0_r, drop_0. f_equal. change (N - 1) with (2 ^ 9 - 1). rewrite land_mask by done.
    apply wrap_id. exact Ht.
  - assert (Hne : t <> tx_buf_head u).
    { intros ->. pose proof (length_from _ u Hu Ht) as Hl. rewrite (proj2 (behind_zero 9 ltac:(done) _ _ Ht Ht)) in Hl by done. lia. }
    pose proof (from_pop t u Hu Ht Hne) as Ep. pose proof (tx_length u Hu) as Hlen. rewrite Ep in Hn |- *. cbn [length take drop] in *.
    destruct (lookup_lt_is_Some_2 (tx_buf u) (Z.to_nat t) ltac:(unfold index in Ht; lia)) as [x Hx].
    rewrite (drop_S _ _ _ Hx). unfold aget. rewrite (list_lookup_total_correct _ _ _ Hx). cbn [take].
    destruct (Z.eq_dec t (2 ^ 9 - 1)) as [->|Hlast].
    + replace n with O by lia. rewrite !take_0, drop_0. split; [done|]. f_equal.
    + assert (Hnext : TX_BUF_NEXT t = t + 1).
      { rewrite TX_NEXT by apply Ht. apply Z.mod_small. unfold index in Ht. lia. }
      rewrite Hnext in *. destruct (IH (t + 1)) as [H1 H2]; [done|unfold index in *; lia|lia|lia|].
      replace (S (Z.to_nat t)) with (Z.to_nat (t + 1)) by (unfold index in Ht; lia). rewrite H1. split; [done|].
      rewrite <- H2. do 2 f_equal. lia.
Qed.

(** The characters that a transfer has in flight are the first of those pending. *)
Definition dma_ok (u : uart_tx) : Prop :=
  0 <= tx_dma_in_progress u <= Z.of_nat (length (pending u)) /\ tx_buf_tail u + tx_dma_in_progress u <= 2 ^ 9.

(** When a transfer is done its characters leave the ring, and the next block
    is the beginning of what is left: nothing if nothing is left. *)
Lemma process_output_dma_ok preserve u : tx_wf u -> dma_ok u ->
  let '(v, out) := uart_process_output_dma preserve true u in
  tx_wf v /\ dma_ok v /\ pending v = drop (Z.to_nat (tx_dma_in_progress u)) (pending u) /\
  out = take (Z.to_nat (tx_dma_in_progress v)) (pending v) /\ (out = [] -> pending v = []).
Proof.
  intros Hu [Hd1 Hd2]. unfold uart_process_output_dma. cbn [negb]. cbv zeta.
  set (w := if bool_of_Z (tx_dma_in_progress u) then _ else u).
  assert (Hw : tx_wf w /\ pending w = drop (Z.to_nat (tx_dma_in_progress u)) (pending u) /\ tx_buf_head w = tx_buf_head u /\
               tx_dma_in_progress w = 0).
  { unfold w, bool_of_Z. destruct (Z.eqb_spec (tx_dma_in_progress u) 0) as [E|Hne]; cbn [negb]; [by rewrite E|].
    pose proof (from_block u (Z.to_nat (tx_dma_in_progress u)) (tx_buf_tail u) Hu (tx_tail u Hu)) as Hb.
    destruct Hb as [_ Hb]; [unfold pending in *; lia|lia|]. rewrite Z2Nat.id in Hb by lia.
    set (t := Z.land _ _) in *.
    assert (Ht : index t).
    { unfold t. change (N - 1) with (2 ^ 9 - 1). rewrite land_mask by done. apply wrap_range. done. }
    assert (Hs : tx_wf (set_dma 0 (set_tail t u))) by (pose proof (wf_set_tail t u Hu Ht) as []; done).
    split; [by apply wf_update|]. unfold update_checksum. by destruct preserve. }
  clearbody w. destruct Hw as (Hw & Hp & Hhd & Hz). pose proof (tx_tail w Hw) as Ht. pose proof (tx_head w Hw) as Hh.
  pose proof (length_from _ w Hw Ht) as Hl. pose proof (pending_empty w Hw) as He. rewrite <- Hhd.
  destruct (Z.eqb_spec (tx_buf_head w) (tx_buf_tail w)) as [E|Hne].
  - assert (Hs : tx_wf (uart_tx_stop w)) by (by destruct Hw).
    split; [done|]. split; [unfold dma_ok; cbn [tx_dma_in_progress set_started uart_tx_stop tx_buf_tail]; rewrite Hz; unfold index in *; lia|].
    change (pending (uart_tx_stop w)) with (pending w). cbn [tx_dma_in_progress set_started uart_tx_stop]. rewrite Hz.
    split_and!; [done|done|]. intros _. by apply He.
  - set (n := (if tx_buf_tail w <? tx_buf_head w then tx_buf_head w else N) - tx_buf_tail w).
    assert (Hn : 0 < n /\ n <= Z.of_nat (length (from (tx_buf_tail w) w)) /\ tx_buf_tail w + n <= 2 ^ 9).
    { rewrite Hl, behind_cases by done. unfold n. change N with (2 ^ 9). unfold index in *.
      destruct (Z.ltb_spec (tx_buf_tail w) (tx_buf_head w)); by_leb. }
    assert (Hs : tx_wf (set_dma n w)) by (by destruct Hw).
    change (pending (set_dma n w)) with (pending w). cbn [tx_dma_in_progress set_dma].
    destruct (from_block w (Z.to_nat n) (tx_buf_tail w) Hw Ht) as [Hb _]; [lia|lia|]. unfold pending at 2 3.
    split_and!; [done|..].
    + unfold dma_ok. change (pending (set_dma n w)) with (pending w). cbn [tx_dma_in_progress set_dma tx_buf_tail]. unfold pending. lia.
    + done.
    + exact Hb.
    + rewrite Hb. intros E0. apply (f_equal length) in E0. rewrite length_take in E0. cbn [length] in E0. lia.
Qed.

(** ** The input ring *)

Record rx_wf (u : uart_rx) : Prop := {
  rx_length : Z.of_nat (length (rx_buf u)) = 2 ^ 7;
  rx_bytes : is_bytes (rx_buf u);
  rx_head : 0 <= rx_buf_head u < 2 ^ 7;
  rx_tail : 0 <= rx_buf_tail u < 2 ^ 7 }.
Definition received (u : uart_rx) : list Z := between 7 (rx_buf_head u) (rx_buf_tail u) (rx_buf u).
Lemma RX_NEXT i : 0 <= i -> RX_BUF_NEXT i = (i + 1) mod 2 ^ 7.
Proof. exact (next_mod 7 ltac:(done) i). Qed.

#[export] Instance rx_fifo : Fifo uart_rx Z := {
  fifo_put c u := uart_process_input [c] u;
  fifo_get u := let '(u, c) := uart_getc u in (u, if c =? -1 then None else Some c) }.
#[export] Program Instance rx_fifo_spec : FifoSpec uart_rx Z := {
  fifo_wf := rx_wf;
  fifo_ok u c := is_u8 c;
  fifo_contents := received;
  fifo_capacity u := 127%nat }.
Next Obligation.
  intros u c Hu Hc. destruct Hu as [Hl Hb Hh Ht]. cbn. unfold uart_process_input. cbn [input_loop].
  pose proof (length_between 7 ltac:(done) (rx_buf_head u) (rx_buf_tail u) _ Hl) as Hlen. fold (received u) in Hlen.
  pose proof (behind_range 7 ltac:(done) (rx_buf_head u) (rx_buf_tail u)) as Hr.
  rewrite RX_NEXT by lia. destruct (Z.eqb_spec ((rx_buf_head u + 1) mod 2 ^ 7) (rx_buf_tail u)) as [E|Hne]; cbn [negb].
  - split_and!; [done|done|done|]. apply (behind_full 7) in E; [|done..]. by rewrite decide_False by lia.
  - rewrite wrap_id by done. split_and!; [|done|done|].
    + split; cbn [rx_buf rx_buf_head rx_buf_tail]; [by rewrite length_aset|by apply Forall_insert|by apply next_range|done].
    + assert (behind 7 (rx_buf_head u) (rx_buf_tail u) <> 2 ^ 7 - 1) by (intros E; by apply Hne, behind_full).
      rewrite decide_True by lia. unfold received. cbn [rx_buf rx_buf_head rx_buf_tail]. by rewrite between_push.
Qed.
Next Obligation.
  intros u Hu. destruct Hu as [Hl Hb Hh Ht]. cbn. unfold uart_getc. unfold received.
  destruct (Z.eqb_spec (rx_buf_tail u) (rx_buf_head u)) as [E|Hne].
  - rewrite between_empty by (done || auto). done.
  - rewrite between_pop by (done || auto). pose proof (aget_range 8 _ (rx_buf_tail u) ltac:(done) Hb) as [Ha _].
    rewrite (proj2 (Z.eqb_neq _ (-1))) by lia. rewrite <- RX_NEXT by lia. split_and!; [|done|done|done|done].
    split; cbn [rx_buf rx_buf_head rx_buf_tail]; [done|done|done|]. rewrite RX_NEXT by lia. by apply next_range.
Qed.
End Uart.
