(* ===== verification/Flash.v ===== *)
(** * Flash storage

    common/flash.c over the flash driver of the host emulator
    (chip/host/flash.c): ranges, reads, writes and erases, the persistent
    state kept in a bank of its own (write protection at boot, serial number,
    MAC address, power-on configuration), the protection flags, the host
    commands, and the part of common/system.c that keeps the running image
    from being overwritten.  Configuration: mapped internal storage, banks of
    one size, CONFIG_FLASH_PSTATE_BANK, deferred erase and protection
    requests; neither CONFIG_FLASH_PROTECT_RW nor
    CONFIG_FLASH_PROTECT_NEXT_BOOT, and neither CONFIG_VBOOT_HASH nor a
    signature task, so that [flash_abort_or_invalidate_hash] is empty.

    Power may be lost.  The supply is part of the state: [power] is the
    number of units (sectors erased, blocks of CONFIG_FLASH_WRITE_SIZE bytes
    programmed) that it still lasts for, and an operation that needs one more
    unit ends in [Off] with the memory as it is then.  Operations therefore
    live in a small monad; [AssertFailed] is a failed ASSERT. *)

From S2P Require Import Prelude Bits Bytes Libc.
Import Bytes Bits.

Module Flash.

(** ** Flags and codes *)

(** src/include/ec_commands.h:2026-2026 [EC_FLASH_PROTECT_RO_AT_BOOT] *)
Definition EC_FLASH_PROTECT_RO_AT_BOOT : Z := BIT 0.
(** src/include/ec_commands.h:2027-2031 [EC_FLASH_PROTECT_RO_NOW] *)
Definition EC_FLASH_PROTECT_RO_NOW : Z := BIT 1.
(** src/include/ec_commands.h:2032-2033 [EC_FLASH_PROTECT_ALL_NOW] *)
Definition EC_FLASH_PROTECT_ALL_NOW : Z := BIT 2.
(** src/include/ec_commands.h:2034-2035 [EC_FLASH_PROTECT_GPIO_ASSERTED] *)
Definition EC_FLASH_PROTECT_GPIO_ASSERTED : Z := BIT 3.
(** src/include/ec_commands.h:2036-2037 [EC_FLASH_PROTECT_ERROR_STUCK] *)
Definition EC_FLASH_PROTECT_ERROR_STUCK : Z := BIT 4.
(** src/include/ec_commands.h:2038-2043 [EC_FLASH_PROTECT_ERROR_INCONSISTENT] *)
Definition EC_FLASH_PROTECT_ERROR_INCONSISTENT : Z := BIT 5.
(** src/include/ec_commands.h:2044-2045 [EC_FLASH_PROTECT_ALL_AT_BOOT] *)
Definition EC_FLASH_PROTECT_ALL_AT_BOOT : Z := BIT 6.
(** src/include/ec_commands.h:2046-2047 [EC_FLASH_PROTECT_RW_AT_BOOT] *)
Definition EC_FLASH_PROTECT_RW_AT_BOOT : Z := BIT 7.
(** src/include/ec_commands.h:2048-2049 [EC_FLASH_PROTECT_RW_NOW] *)
Definition EC_FLASH_PROTECT_RW_NOW : Z := BIT 8.
(** src/include/ec_commands.h:2050-2051 [EC_FLASH_PROTECT_ROLLBACK_AT_BOOT] *)
Definition EC_FLASH_PROTECT_ROLLBACK_AT_BOOT : Z := BIT 9.
(** src/include/ec_commands.h:2052-2053 [EC_FLASH_PROTECT_ROLLBACK_NOW] *)
Definition EC_FLASH_PROTECT_ROLLBACK_NOW : Z := BIT 10.
(** src/include/ec_commands.h:2054-2055 [EC_FLASH_PROTECT_ERROR_UNKNOWN] *)
Definition EC_FLASH_PROTECT_ERROR_UNKNOWN : Z := BIT 11.

Definition EC_RES_SUCCESS : Z := 0.
Definition EC_RES_ERROR : Z := 2.
Definition EC_RES_INVALID_PARAM : Z := 3.
Definition EC_RES_ACCESS_DENIED : Z := 4.
Definition EC_RES_UNAVAILABLE : Z := 9.
Definition EC_RES_OVERFLOW : Z := 11.
Definition EC_RES_BUSY : Z := 16.

(** src/include/ec_commands.h:1382-1389 [enum ec_image] *)
Inductive ec_image :=
| EC_IMAGE_UNKNOWN
| EC_IMAGE_RO
| EC_IMAGE_RW
| EC_IMAGE_RO_B
| EC_IMAGE_RW_B.

#[export] Instance ec_image_eq_dec : EqDecision ec_image.
Proof. solve_decision. Defined.

(** ** State *)

(** The static variables of the host commands: the result of the last deferred
    erase, its parameters and whether it is still queued; the same for a
    deferred protection request. *)
(** src/common/flash.c:1680-1689 [struct flash_protect_async] *)
Record hcmd := Hcmd {
  erase_rc : Z;
  erase_info : Z * Z;
  erase_call : bool;
  prot_mask : Z;
  prot_flags : Z;
  prot_rc : Z;
  prot_call : bool;
}.

(** The memory, one protection byte per bank (lost at a reset), the write
    protect pin, the supply, and the host commands. *)
(** src/chip/host/flash.c:17-19 [__host_flash, __host_flash_protect] *)
Record flash := Flash {
  mem : list Z;
  protect : list Z;
  wp_gpio : bool;
  power : option nat;
  hc : hcmd;
}.

Definition with_mem (v : list Z) (f : flash) : flash := Flash v (protect f) (wp_gpio f) (power f) (hc f).
Definition with_protect (v : list Z) (f : flash) : flash := Flash (mem f) v (wp_gpio f) (power f) (hc f).
Definition with_power (v : option nat) (f : flash) : flash := Flash (mem f) (protect f) (wp_gpio f) v (hc f).
Definition with_hc (v : hcmd) (f : flash) : flash := Flash (mem f) (protect f) (wp_gpio f) (power f) v.

Definition with_erase_rc (v : Z) (h : hcmd) : hcmd :=
  Hcmd v (erase_info h) (erase_call h) (prot_mask h) (prot_flags h) (prot_rc h) (prot_call h).
Definition with_erase (v : Z * Z) (h : hcmd) : hcmd :=
  Hcmd (erase_rc h) v true (prot_mask h) (prot_flags h) (prot_rc h) (prot_call h).
Definition erase_dequeued (h : hcmd) : hcmd :=
  Hcmd (erase_rc h) (erase_info h) false (prot_mask h) (prot_flags h) (prot_rc h) (prot_call h).
Definition with_prot (m fl : Z) (h : hcmd) : hcmd :=
  Hcmd (erase_rc h) (erase_info h) (erase_call h) m fl (prot_rc h) (prot_call h).
Definition with_prot_rc (v : Z) (h : hcmd) : hcmd :=
  Hcmd (erase_rc h) (erase_info h) (erase_call h) (prot_mask h) (prot_flags h) v (prot_call h).
Definition with_prot_call (v : bool) (h : hcmd) : hcmd :=
  Hcmd (erase_rc h) (erase_info h) (erase_call h) (prot_mask h) (prot_flags h) (prot_rc h) v.

(** ** Operations that may lose power *)

Inductive outcome (A : Type) :=
| Done (a : A)
| Off
| AssertFailed.
#[global] Arguments Done {A} a.
#[global] Arguments Off {A}.
#[global] Arguments AssertFailed {A}.

Definition M (A : Type) : Type := flash -> flash * outcome A.
Definition ret {A} (a : A) : M A := fun f => (f, Done a).
Definition bind {A B} (m : M A) (k : A -> M B) : M B := fun f =>
  match m f with
  | (f, Done a) => k a f
  | (f, Off) => (f, Off)
  | (f, AssertFailed) => (f, AssertFailed)
  end.
Definition gets {A} (g : flash -> A) : M A := fun f => (f, Done (g f)).
Definition modify (g : flash -> flash) : M unit := fun f => (g f, Done tt).
Definition assert (b : bool) : M unit := fun f => (f, if b then Done tt else AssertFailed).

Notation "'let!' x := m 'in' k" := (bind m (fun x => k))
  (at level 10, x pattern, m at level 100, k at level 200) : ec_scope.
Notation "m ;! k" := (bind m (fun _ => k)) (at level 199, right associativity) : ec_scope.

(** One more unit of flash work. *)
Definition tick : M unit := fun f =>
  match power f with
  | None => (f, Done tt)
  | Some O => (f, Off)
  | Some (S n) => (with_power (Some n) f, Done tt)
  end.

(** [n] blocks of [u] bytes of [data], stored one after the other at [off]. *)
Fixpoint program (n : nat) (u off : Z) (data : list Z) : M unit :=
  match n with
  | O => ret tt
  | S n =>
      tick ;!
      modify (fun f => with_mem (bcopy (mem f) off data u) f) ;!
      program n u (off + u) (drop (Z.to_nat u) data)
  end.

(** ** Configuration *)

(** The sizes a board defines, and the fault that a test may inject before
    each write or erase ([flash_pre_op]). *)
Class FlashCfg := {
  CONFIG_FLASH_SIZE_BYTES : Z;
  CONFIG_FLASH_BANK_SIZE : Z;
  CONFIG_FLASH_ERASE_SIZE : Z;
  CONFIG_FLASH_WRITE_SIZE : Z;
  CONFIG_FLASH_WRITE_IDEAL_SIZE : Z;
  CONFIG_WP_STORAGE_OFF : Z;
  CONFIG_WP_STORAGE_SIZE : Z;
  CONFIG_FW_PSTATE_OFF : Z;
  CONFIG_FW_PSTATE_SIZE : Z;
  CONFIG_EC_PROTECTED_STORAGE_OFF : Z;
  CONFIG_EC_WRITABLE_STORAGE_OFF : Z;
  CONFIG_EC_WRITABLE_STORAGE_SIZE : Z;
  CONFIG_RO_STORAGE_OFF : Z;
  CONFIG_RO_SIZE : Z;
  CONFIG_RW_STORAGE_OFF : Z;
  CONFIG_RW_SIZE : Z;
  CONFIG_ROLLBACK : bool;
  CONFIG_ROLLBACK_OFF : Z;
  CONFIG_ROLLBACK_SIZE : Z;
  CONFIG_WP_ALWAYS : bool;
  CONFIG_SERIALNO_LEN : Z;
  CONFIG_MAC_ADDR_LEN : Z;
  CONFIG_POWERON_CONF_LEN : Z;
  system_get_image_copy : ec_image;
  flash_pre_op : flash -> ec_error;
}.

Section Model.
Context `{FlashCfg}.

(** src/include/flash.h:73-75 [PHYSICAL_BANKS] *)
Definition PHYSICAL_BANKS : Z := CONFIG_FLASH_SIZE_BYTES / CONFIG_FLASH_BANK_SIZE.
(** src/include/flash.h:78-78 [WP_BANK_OFFSET] *)
Definition WP_BANK_OFFSET : Z := CONFIG_WP_STORAGE_OFF / CONFIG_FLASH_BANK_SIZE.
(** src/include/flash.h:79-81 [WP_BANK_COUNT] *)
Definition WP_BANK_COUNT : Z := CONFIG_WP_STORAGE_SIZE / CONFIG_FLASH_BANK_SIZE.
(** src/include/flash.h:127-129 [PSTATE_BANK] *)
Definition PSTATE_BANK : Z := CONFIG_FW_PSTATE_OFF / CONFIG_FLASH_BANK_SIZE.
(** src/include/flash.h:148-148 [ROLLBACK_BANK_OFFSET] *)
Definition ROLLBACK_BANK_OFFSET : Z := CONFIG_ROLLBACK_OFF / CONFIG_FLASH_BANK_SIZE.
(** src/include/flash.h:149-149 [ROLLBACK_BANK_COUNT] *)
Definition ROLLBACK_BANK_COUNT : Z := CONFIG_ROLLBACK_SIZE / CONFIG_FLASH_BANK_SIZE.
(** src/common/flash.c:1441-1442 [EC_FLASH_REGION_START] *)
Definition EC_FLASH_REGION_START : Z := Z.min CONFIG_EC_PROTECTED_STORAGE_OFF CONFIG_EC_WRITABLE_STORAGE_OFF.
(** src/include/util.h:94-95 [DIV_ROUND_UP] *)
Definition DIV_ROUND_UP (x y : Z) : Z := (x + (y - 1)) / y.

(** ** The driver *)

(** src/chip/host/flash.c:27-37 [flash_check_protect] *)
Definition flash_check_protect (offset size : Z) (f : flash) : bool :=
  let first_bank := offset / CONFIG_FLASH_BANK_SIZE in
  let last_bank := DIV_ROUND_UP (offset + size) CONFIG_FLASH_BANK_SIZE in
  existsb (fun bank => bool_of_Z (aget (protect f) bank)) (seqZ first_bank (last_bank - first_bank)).

(** src/chip/host/flash.c:70-84 [crec_flash_physical_write] *)
Definition crec_flash_physical_write (offset size : Z) (data : list Z) : M ec_error :=
  assert (Z.land size (CONFIG_FLASH_WRITE_SIZE - 1) =? 0) ;!
  let! f := gets id in
  if negb (bool_decide (flash_pre_op f = EC_SUCCESS)) then ret EC_ERROR_UNKNOWN
  else if flash_check_protect offset size f then ret EC_ERROR_ACCESS_DENIED
  else
    program (Z.to_nat (size / CONFIG_FLASH_WRITE_SIZE)) CONFIG_FLASH_WRITE_SIZE offset data ;!
    ret EC_SUCCESS.

(** src/chip/host/flash.c:86-100 [crec_flash_physical_erase] *)
Definition crec_flash_physical_erase (offset size : Z) : M ec_error :=
  assert (Z.land size (CONFIG_FLASH_ERASE_SIZE - 1) =? 0) ;!
  let! f := gets id in
  if negb (bool_decide (flash_pre_op f = EC_SUCCESS)) then ret EC_ERROR_UNKNOWN
  else if flash_check_protect offset size f then ret EC_ERROR_ACCESS_DENIED
  else
    program (Z.to_nat (size / CONFIG_FLASH_ERASE_SIZE)) CONFIG_FLASH_ERASE_SIZE offset
      (replicate (Z.to_nat size) 0xff) ;!
    ret EC_SUCCESS.

(** src/chip/host/flash.c:102-105 [crec_flash_physical_get_protect] *)
Definition crec_flash_physical_get_protect (bank : Z) (f : flash) : Z := aget (protect f) bank.

(** src/chip/host/flash.c:107-117 [crec_flash_physical_get_protect_flags] *)
Definition crec_flash_physical_get_protect_flags (f : flash) : Z :=
  fold_left (fun flags i => if aget (protect f) i =? 0 then 0 else flags)
    (seqZ 0 PHYSICAL_BANKS) EC_FLASH_PROTECT_ALL_NOW.

(** src/chip/host/flash.c:119-123 [crec_flash_physical_protect_now] *)
Definition crec_flash_physical_protect_now (all : bool) : M ec_error :=
  modify (fun f => with_protect (bfill (protect f) 0 1 (if all then PHYSICAL_BANKS else WP_BANK_COUNT)) f) ;!
  ret EC_SUCCESS.

(** src/chip/host/flash.c:125-129 [crec_flash_physical_get_valid_flags] *)
Definition crec_flash_physical_get_valid_flags : Z :=
  Z.lor (Z.lor EC_FLASH_PROTECT_RO_AT_BOOT EC_FLASH_PROTECT_RO_NOW) EC_FLASH_PROTECT_ALL_NOW.

(** src/chip/host/flash.c:131-148 [crec_flash_physical_get_writable_flags] *)
Definition crec_flash_physical_get_writable_flags (cur_flags : Z) : Z :=
  let ret := 0 in
  let ret := if negb (bool_of_Z (Z.land cur_flags EC_FLASH_PROTECT_RO_NOW))
             then Z.lor ret EC_FLASH_PROTECT_RO_AT_BOOT else ret in
  if negb (bool_of_Z (Z.land cur_flags EC_FLASH_PROTECT_ALL_NOW)) &&
     bool_of_Z (Z.land cur_flags EC_FLASH_PROTECT_GPIO_ASSERTED)
  then Z.lor ret EC_FLASH_PROTECT_ALL_NOW else ret.

(** ** Ranges, reads, writes and erases *)

(** src/common/flash.c:279-288 [flash_range_ok] *)
Definition flash_range_ok (offset size_req align : Z) : bool :=
  negb ((offset <? 0) || (size_req <? 0) || (CONFIG_FLASH_SIZE_BYTES <? offset) ||
        (CONFIG_FLASH_SIZE_BYTES <? size_req) ||
        (CONFIG_FLASH_SIZE_BYTES <? offset + size_req) ||
        bool_of_Z (Z.land (Z.lor offset size_req) (align - 1))).

(** The pointer that the function also returns is the offset. *)
(** src/common/flash.c:317-325 [crec_flash_dataptr] *)
Definition crec_flash_dataptr (offset size_req align : Z) : Z :=
  if negb (flash_range_ok offset size_req align) then -1
  else CONFIG_FLASH_SIZE_BYTES - offset.

(** EC_ERROR_INVAL is [None]. *)
(** src/common/flash.c:767-782 [crec_flash_unprotected_read] *)
Definition crec_flash_unprotected_read (offset size : Z) (f : flash) : option (list Z) :=
  if crec_flash_dataptr offset size 1 <? 0 then None
  else Some (slice (mem f) offset size).

(** src/common/flash.c:784-791 [crec_flash_read] *)
Definition crec_flash_read (offset size : Z) (f : flash) : option (list Z) :=
  crec_flash_unprotected_read offset size f.

(** src/common/flash.c:687-704 [crec_flash_is_erased] *)
Definition crec_flash_is_erased (offset size : Z) (f : flash) : bool :=
  if crec_flash_dataptr (s32 offset) size 4 <? 0 then false
  else forallb (fun i => le_at (mem f) (offset + 4 * i) 4 =? 0xffffffff) (seqZ 0 (size / 4)).

(** src/common/flash.c:833-858 [crec_flash_write] *)
Definition crec_flash_write (offset size : Z) (data : list Z) : M ec_error :=
  if negb (flash_range_ok offset size CONFIG_FLASH_WRITE_SIZE) then ret EC_ERROR_INVAL
  else crec_flash_physical_write offset size data.

(** src/common/flash.c:860-886 [crec_flash_erase] *)
Definition crec_flash_erase (offset size : Z) : M ec_error :=
  if negb (flash_range_ok offset size CONFIG_FLASH_ERASE_SIZE) then ret EC_ERROR_INVAL
  else crec_flash_physical_erase offset size.

(** ** The persistent state

    [struct persist_state] is its bytes: version, flags, valid_fields and
    reserved, then the serial number, the MAC address and the power-on
    configuration, padded to whole write blocks. *)

Definition PERSIST_STATE_VERSION : Z := 3.
Definition PERSIST_FLAG_PROTECT_RO : Z := 0x02.
Definition PSTATE_VALID_FLAGS : Z := BIT 0.
Definition PSTATE_VALID_SERIALNO : Z := BIT 1.
Definition PSTATE_VALID_MAC_ADDR : Z := BIT 2.
Definition PSTATE_VALID_POWERON_CONF : Z := BIT 3.

Definition VERSION : Z := 0.
Definition FLAGS : Z := 1.
Definition VALID_FIELDS : Z := 2.
Definition SERIALNO : Z := 4.
Definition MAC_ADDR : Z := SERIALNO + CONFIG_SERIALNO_LEN.
Definition POWERON_CONF : Z := MAC_ADDR + CONFIG_MAC_ADDR_LEN.
(** src/common/flash.c:66-80 [struct persist_state] *)
Definition sizeof_persist_state : Z :=
  CONFIG_FLASH_WRITE_SIZE * DIV_ROUND_UP (POWERON_CONF + CONFIG_POWERON_CONF_LEN) CONFIG_FLASH_WRITE_SIZE.

(** [pstate], the structure in the mapped flash. *)
Definition pstate (f : flash) : list Z := slice (mem f) CONFIG_FW_PSTATE_OFF sizeof_persist_state.

(** src/common/flash.c:334-352 [flash_read_pstate] *)
Definition flash_read_pstate (f : flash) : Z :=
  let p := pstate f in
  if (aget p VERSION =? PERSIST_STATE_VERSION) &&
     bool_of_Z (Z.land (aget p VALID_FIELDS) PSTATE_VALID_FLAGS) &&
     bool_of_Z (Z.land (aget p FLAGS) PERSIST_FLAG_PROTECT_RO)
  then EC_FLASH_PROTECT_RO_AT_BOOT
  else if CONFIG_WP_ALWAYS then PERSIST_FLAG_PROTECT_RO
  else 0.

(** src/common/flash.c:361-381 [flash_write_pstate_data] *)
Definition flash_write_pstate_data (newpstate : list Z) : M ec_error :=
  let! rv := crec_flash_physical_erase CONFIG_FW_PSTATE_OFF CONFIG_FW_PSTATE_SIZE in
  if negb (bool_decide (rv = EC_SUCCESS)) then ret rv
  else crec_flash_physical_write CONFIG_FW_PSTATE_OFF sizeof_persist_state newpstate.

(** src/common/flash.c:389-397 [validate_pstate_struct] *)
Definition validate_pstate_struct (p : list Z) : list Z :=
  if negb (aget p VERSION =? PERSIST_STATE_VERSION)
  then aset (replicate (Z.to_nat sizeof_persist_state) 0) VERSION PERSIST_STATE_VERSION
  else p.

(** [p->valid_fields |= v] *)
Definition add_valid_fields (v : Z) (p : list Z) : list Z :=
  aset p VALID_FIELDS (Z.lor (aget p VALID_FIELDS) v).

(** src/common/flash.c:405-430 [flash_write_pstate] *)
Definition flash_write_pstate (flags : Z) : M ec_error :=
  let flags := Z.land flags EC_FLASH_PROTECT_RO_AT_BOOT in
  let! f := gets id in
  if flags =? flash_read_pstate f then ret EC_SUCCESS
  else
    let newpstate := validate_pstate_struct (pstate f) in
    let newpstate :=
      if bool_of_Z (Z.land flags EC_FLASH_PROTECT_RO_AT_BOOT)
      then aset newpstate FLAGS (Z.lor (aget newpstate FLAGS) PERSIST_FLAG_PROTECT_RO)
      else aset newpstate FLAGS (u8 (Z.land (aget newpstate FLAGS) (Z.lnot PERSIST_FLAG_PROTECT_RO))) in
    flash_write_pstate_data (add_valid_fields PSTATE_VALID_FLAGS newpstate).

(** A field of the persistent state is returned as its bytes; NULL is [None]. *)
Definition read_pstate_field (valid off len : Z) (f : flash) : option (list Z) :=
  let p := pstate f in
  if (aget p VERSION =? PERSIST_STATE_VERSION) && bool_of_Z (Z.land (aget p VALID_FIELDS) valid)
  then Some (slice p off len) else None.

(** src/common/flash.c:436-448 [crec_flash_read_pstate_serial] *)
Definition crec_flash_read_pstate_serial (f : flash) : option (list Z) :=
  read_pstate_field PSTATE_VALID_SERIALNO SERIALNO CONFIG_SERIALNO_LEN f.

(** src/common/flash.c:456-487 [crec_flash_write_pstate_serial] *)
Definition crec_flash_write_pstate_serial (serialno : option (list Z)) : M ec_error :=
  match serialno with
  | None => ret EC_ERROR_INVAL
  | Some serialno =>
      let len := Str.strnlen serialno (Z.to_nat CONFIG_SERIALNO_LEN) in
      if CONFIG_SERIALNO_LEN <=? len then ret EC_ERROR_INVAL
      else
        let! f := gets id in
        let newpstate := validate_pstate_struct (pstate f) in
        let newpstate := bfill newpstate SERIALNO 0 CONFIG_SERIALNO_LEN in
        let newpstate := bcopy newpstate SERIALNO serialno len in
        flash_write_pstate_data (add_valid_fields PSTATE_VALID_SERIALNO newpstate)
  end.

(** src/common/flash.c:496-508 [crec_flash_read_pstate_mac_addr] *)
Definition crec_flash_read_pstate_mac_addr (f : flash) : option (list Z) :=
  read_pstate_field PSTATE_VALID_MAC_ADDR MAC_ADDR CONFIG_MAC_ADDR_LEN f.

(** The format of a MAC address: hex digits, and a colon in every third place. *)
(** src/common/flash.c:537-553 [crec_flash_write_pstate_mac_addr] *)
Definition mac_char_ok (i c : Z) : bool :=
  if negb (Z.rem i 3 =? 2)
  then negb (((c <? 48) || (57 <? c)) && ((c <? 65) || (70 <? c)) && ((c <? 97) || (102 <? c)))
  else c =? 58.

(** src/common/flash.c:516-568 [crec_flash_write_pstate_mac_addr] *)
Definition crec_flash_write_pstate_mac_addr (mac_addr : option (list Z)) : M ec_error :=
  match mac_addr with
  | None => ret EC_ERROR_INVAL
  | Some mac_addr =>
      let len := Str.strnlen mac_addr (Z.to_nat CONFIG_MAC_ADDR_LEN) in
      if negb (len =? 17) then ret EC_ERROR_INVAL
      else if negb (forallb (fun i => mac_char_ok i (aget mac_addr i)) (seqZ 0 17)) then ret EC_ERROR_INVAL
      else
        let! f := gets id in
        let newpstate := validate_pstate_struct (pstate f) in
        let newpstate := bfill newpstate MAC_ADDR 0 CONFIG_MAC_ADDR_LEN in
        let newpstate := bcopy newpstate MAC_ADDR mac_addr len in
        flash_write_pstate_data (add_valid_fields PSTATE_VALID_MAC_ADDR newpstate)
  end.

(** EC_ERROR_UNKNOWN is [None]. *)
(** src/common/flash.c:577-589 [crec_flash_read_pstate_poweron_conf] *)
Definition crec_flash_read_pstate_poweron_conf (f : flash) : option (list Z) :=
  read_pstate_field PSTATE_VALID_POWERON_CONF POWERON_CONF CONFIG_POWERON_CONF_LEN f.

(** src/common/flash.c:597-621 [crec_flash_write_pstate_poweron_conf] *)
Definition crec_flash_write_pstate_poweron_conf (poweron_conf : option (list Z)) : M ec_error :=
  match poweron_conf with
  | None => ret EC_ERROR_INVAL
  | Some poweron_conf =>
      let! f := gets id in
      let newpstate := validate_pstate_struct (pstate f) in
      let newpstate := bcopy newpstate POWERON_CONF poweron_conf CONFIG_POWERON_CONF_LEN in
      flash_write_pstate_data (add_valid_fields PSTATE_VALID_POWERON_CONF newpstate)
  end.

(** ** Protection *)

(** src/common/flash.c:888-929 [crec_flash_protect_at_boot] *)
Definition crec_flash_protect_at_boot (new_flags : Z) : M ec_error :=
  let new_pstate_flags := Z.land new_flags EC_FLASH_PROTECT_RO_AT_BOOT in
  let! f := gets id in
  if negb (flash_read_pstate f =? new_pstate_flags) then
    if bool_of_Z (crec_flash_physical_get_protect PSTATE_BANK f) then ret EC_ERROR_ACCESS_DENIED
    else flash_write_pstate new_pstate_flags
  else ret EC_SUCCESS.

(** The regions of the protection status, in the order of [enum flash_region]. *)
(** src/include/flash.h:167-174 [enum flash_region] *)
Inductive flash_region := FLASH_REGION_RW | FLASH_REGION_RO | FLASH_REGION_ROLLBACK.

#[export] Instance flash_region_eq_dec : EqDecision flash_region.
Proof. solve_decision. Defined.

(** src/common/flash.c:957-971 [crec_flash_get_protect] *)
Definition bank_region (i : Z) : flash_region :=
  let is_ro := (WP_BANK_OFFSET <=? i) && (i <? WP_BANK_OFFSET + WP_BANK_COUNT) in
  if CONFIG_ROLLBACK && (ROLLBACK_BANK_OFFSET <=? i) && (i <? ROLLBACK_BANK_OFFSET + ROLLBACK_BANK_COUNT)
  then FLASH_REGION_ROLLBACK
  else if is_ro then FLASH_REGION_RO else FLASH_REGION_RW.
Definition region_flag (r : flash_region) : Z :=
  match r with
  | FLASH_REGION_RW => EC_FLASH_PROTECT_RW_NOW
  | FLASH_REGION_RO => EC_FLASH_PROTECT_RO_NOW
  | FLASH_REGION_ROLLBACK => EC_FLASH_PROTECT_ROLLBACK_NOW
  end.

(** One turn of the scan: the flags, and the regions with a bank that is not
    protected ([not_protected]). *)
(** src/common/flash.c:957-985 [crec_flash_get_protect] *)
Definition scan_bank (f : flash) (s : Z * (flash_region -> bool)) (i : Z) : Z * (flash_region -> bool) :=
  let '(flags, not_protected) := s in
  let region := bank_region i in
  let bank_flag := region_flag region in
  if bool_of_Z (crec_flash_physical_get_protect i f) then
    let flags := Z.lor flags bank_flag in
    (if not_protected region then Z.lor flags EC_FLASH_PROTECT_ERROR_INCONSISTENT else flags, not_protected)
  else
    (if bool_of_Z (Z.land flags bank_flag) then Z.lor flags EC_FLASH_PROTECT_ERROR_INCONSISTENT else flags,
     fun r => if decide (r = region) then true else not_protected r).

(** src/common/flash.c:937-945 [crec_flash_get_protect] *)
Definition all_flags : Z :=
  if CONFIG_ROLLBACK
  then Z.lor (Z.lor EC_FLASH_PROTECT_RO_NOW EC_FLASH_PROTECT_RW_NOW) EC_FLASH_PROTECT_ROLLBACK_NOW
  else Z.lor EC_FLASH_PROTECT_RO_NOW EC_FLASH_PROTECT_RW_NOW.

(** src/common/flash.c:931-1007 [crec_flash_get_protect] *)
Definition crec_flash_get_protect (f : flash) : Z :=
  let flags := 0 in
  let flags := if wp_gpio f then Z.lor flags EC_FLASH_PROTECT_GPIO_ASSERTED else flags in
  let flags := Z.lor flags (flash_read_pstate f) in
  let flags := (fold_left (scan_bank f) (seqZ 0 PHYSICAL_BANKS) (flags, fun _ => false)).1 in
  let flags := if Z.land flags all_flags =? all_flags then Z.lor flags EC_FLASH_PROTECT_ALL_NOW else flags in
  let flags :=
    if bool_of_Z (Z.land flags all_flags) && negb (bool_of_Z (Z.land flags EC_FLASH_PROTECT_RO_NOW))
    then Z.lor flags EC_FLASH_PROTECT_ERROR_INCONSISTENT else flags in
  let flags := Z.land flags (u32 (Z.lnot EC_FLASH_PROTECT_RW_NOW)) in
  Z.lor flags (crec_flash_physical_get_protect_flags f).

(** Steps 1.a to 1.e: the at-boot flags after the clears that are requested. *)
(** src/common/flash.c:1059-1094 [crec_flash_set_protect] *)
Definition at_boot_clears (mask flags new_flags_at_boot : Z) : Z :=
  let n := Z.land new_flags_at_boot (Z.lnot (Z.land mask EC_FLASH_PROTECT_RO_AT_BOOT)) in
  let n := Z.lor n (Z.land flags EC_FLASH_PROTECT_RO_AT_BOOT) in
  let n :=
    if bool_of_Z (Z.land mask EC_FLASH_PROTECT_ALL_AT_BOOT) &&
       negb (bool_of_Z (Z.land flags EC_FLASH_PROTECT_ALL_AT_BOOT))
    then
      let n := Z.land n (Z.lnot EC_FLASH_PROTECT_ALL_AT_BOOT) in
      if CONFIG_ROLLBACK then Z.land n (Z.lnot EC_FLASH_PROTECT_ROLLBACK_AT_BOOT) else n
    else n in
  if CONFIG_ROLLBACK && bool_of_Z (Z.land mask EC_FLASH_PROTECT_ROLLBACK_AT_BOOT) &&
     negb (bool_of_Z (Z.land flags EC_FLASH_PROTECT_ROLLBACK_AT_BOOT))
  then Z.land (Z.land n (Z.lnot EC_FLASH_PROTECT_ROLLBACK_AT_BOOT)) (Z.lnot EC_FLASH_PROTECT_ALL_AT_BOOT)
  else n.

(** Commit new at-boot flags when they differ from the old ones. *)
(** src/common/flash.c:1096-1102 [crec_flash_set_protect] *)
Definition commit_at_boot (old new : Z) (retval : ec_error) : M ec_error :=
  if negb (new =? old) then
    let! rv := crec_flash_protect_at_boot new in
    ret (if negb (bool_decide (rv = EC_SUCCESS)) then rv else retval)
  else ret retval.

(** Step 4 or 5: protect now, when the flag is requested. *)
(** src/common/flash.c:1138-1158 [crec_flash_set_protect] *)
Definition commit_now (flag flags : Z) (all : bool) (retval : ec_error) : M ec_error :=
  if bool_of_Z (Z.land flags flag) then
    let! rv := crec_flash_physical_protect_now all in
    ret (if negb (bool_decide (rv = EC_SUCCESS)) then rv else retval)
  else ret retval.

(** src/common/flash.c:1020-1161 [crec_flash_set_protect] *)
Definition crec_flash_set_protect (mask flags : Z) : M ec_error :=
  let! f := gets id in
  let old_flags_at_boot :=
    Z.land (crec_flash_get_protect f)
      (Z.lor (Z.lor (Z.lor EC_FLASH_PROTECT_RO_AT_BOOT EC_FLASH_PROTECT_RW_AT_BOOT)
                EC_FLASH_PROTECT_ROLLBACK_AT_BOOT) EC_FLASH_PROTECT_ALL_AT_BOOT) in
  let flags := Z.land flags mask in
  let new_flags_at_boot := at_boot_clears mask flags old_flags_at_boot in
  let! retval := commit_at_boot old_flags_at_boot new_flags_at_boot EC_SUCCESS in
  let old_flags_at_boot := new_flags_at_boot in
  let! f := gets id in
  if bool_of_Z (Z.land (Z.lnot (crec_flash_get_protect f))
                  (Z.lor EC_FLASH_PROTECT_GPIO_ASSERTED EC_FLASH_PROTECT_RO_AT_BOOT))
  then ret retval
  else
    let new_flags_at_boot := Z.lor new_flags_at_boot (Z.land flags EC_FLASH_PROTECT_ALL_AT_BOOT) in
    let new_flags_at_boot :=
      if CONFIG_ROLLBACK
      then Z.lor new_flags_at_boot (Z.land flags EC_FLASH_PROTECT_ROLLBACK_AT_BOOT)
      else new_flags_at_boot in
    let! retval := commit_at_boot old_flags_at_boot new_flags_at_boot retval in
    let! retval := commit_now EC_FLASH_PROTECT_RO_NOW flags false retval in
    commit_now EC_FLASH_PROTECT_ALL_NOW flags true retval.

(** src/chip/host/flash.c:150-177 [crec_flash_pre_init] *)
Definition crec_flash_pre_init : M ec_error :=
  let! f := gets id in
  let prot_flags := crec_flash_get_protect f in
  if bool_of_Z (Z.land prot_flags EC_FLASH_PROTECT_GPIO_ASSERTED) &&
     bool_of_Z (Z.land prot_flags EC_FLASH_PROTECT_RO_AT_BOOT) &&
     negb (bool_of_Z (Z.land prot_flags EC_FLASH_PROTECT_RO_NOW))
  then crec_flash_set_protect EC_FLASH_PROTECT_RO_NOW EC_FLASH_PROTECT_RO_NOW
  else ret EC_SUCCESS.

(** ** The running image (common/system.c) *)

Definition is_rw_image (copy : ec_image) : bool :=
  match copy with EC_IMAGE_RW | EC_IMAGE_RW_B => true | _ => false end.

(** src/common/system.c:768-778 [flash_get_rw_offset] *)
Definition flash_get_rw_offset (copy : ec_image) : Z :=
  if is_rw_image copy then u32 (CONFIG_EC_WRITABLE_STORAGE_OFF + CONFIG_RW_STORAGE_OFF)
  else u32 (CONFIG_EC_PROTECTED_STORAGE_OFF + CONFIG_RO_STORAGE_OFF).

(** src/common/system.c:540-568 [system_unsafe_to_overwrite] *)
Definition system_unsafe_to_overwrite (offset size : Z) : bool :=
  let copy := system_get_image_copy in
  let check r_size :=
    let r_offset := flash_get_rw_offset copy in
    ((r_offset <=? offset) && (offset <? u32 (r_offset + r_size))) ||
    ((offset <=? r_offset) && (r_offset <? u32 (offset + size))) in
  match copy with
  | EC_IMAGE_RO => check CONFIG_RO_SIZE
  | EC_IMAGE_RW | EC_IMAGE_RW_B => check CONFIG_RW_SIZE
  | _ => false
  end.

(** ** Host commands

    A response is the status with the data written, if any. *)

(** [crec_flash_get_protect () & EC_FLASH_PROTECT_ALL_NOW] *)
Definition all_protected (f : flash) : bool :=
  bool_of_Z (Z.land (crec_flash_get_protect f) EC_FLASH_PROTECT_ALL_NOW).

(** src/common/flash.c:1526-1540 [flash_command_read] *)
Definition flash_command_read (p_offset p_size response_max : Z) (f : flash) : Z * list Z :=
  let offset := u32 (p_offset + EC_FLASH_REGION_START) in
  if response_max <? p_size then (EC_RES_OVERFLOW, [])
  else match crec_flash_read (s32 offset) (s32 p_size) f with
       | None => (EC_RES_ERROR, [])
       | Some data => (EC_RES_SUCCESS, data)
       end.

(** [params_size] bytes of parameters, [data] those after the two words. *)
(** src/common/flash.c:1549-1569 [flash_command_write] *)
Definition flash_command_write (p_offset p_size params_size : Z) (data : list Z) : M Z :=
  let offset := u32 (p_offset + EC_FLASH_REGION_START) in
  let! f := gets id in
  if all_protected f then ret EC_RES_ACCESS_DENIED
  else if params_size <? u32 (p_size + 8) then ret EC_RES_INVALID_PARAM
  else if system_unsafe_to_overwrite offset p_size then ret EC_RES_ACCESS_DENIED
  else
    let! rv := crec_flash_write (s32 offset) (s32 p_size) data in
    ret (if bool_decide (rv = EC_SUCCESS) then EC_RES_SUCCESS else EC_RES_ERROR).

(** src/include/ec_commands.h:1991-1995 [enum ec_flash_erase_cmd] *)
Inductive ec_flash_erase_cmd := FLASH_ERASE_SECTOR | FLASH_ERASE_SECTOR_ASYNC | FLASH_ERASE_GET_RESULT.

Definition set_hc (g : hcmd -> hcmd) : M unit := modify (fun f => with_hc (g (hc f)) f).

(** src/common/flash.c:1167-1174 [flash_erase_deferred] *)
Definition flash_erase_deferred : M unit :=
  set_hc erase_dequeued ;!
  let! f := gets id in
  let '(offset, size) := erase_info (hc f) in
  let! rv := crec_flash_erase (s32 offset) (s32 size) in
  set_hc (with_erase_rc (if bool_decide (rv = EC_SUCCESS) then EC_RES_SUCCESS else EC_RES_ERROR)).

(** The sub-command is [None] when it is none of the enumeration; version 0
    of the command has only FLASH_ERASE_SECTOR. *)
(** src/common/flash.c:1602-1670 [flash_command_erase] *)
Definition flash_command_erase (cmd : option ec_flash_erase_cmd) (p_offset p_size : Z) : M Z :=
  let offset := u32 (p_offset + EC_FLASH_REGION_START) in
  let! f := gets id in
  if all_protected f then ret EC_RES_ACCESS_DENIED
  else if system_unsafe_to_overwrite offset p_size then ret EC_RES_ACCESS_DENIED
  else
    match cmd with
    | Some FLASH_ERASE_SECTOR =>
        let! rv := crec_flash_erase (s32 offset) (s32 p_size) in
        ret (if bool_decide (rv = EC_SUCCESS) then EC_RES_SUCCESS else EC_RES_ERROR)
    | Some FLASH_ERASE_SECTOR_ASYNC =>
        if erase_rc (hc f) =? EC_RES_SUCCESS then
          set_hc (fun h => with_erase_rc EC_RES_BUSY (with_erase (p_offset, p_size) h)) ;!
          ret EC_RES_SUCCESS
        else ret EC_RES_BUSY
    | Some FLASH_ERASE_GET_RESULT =>
        let rc := erase_rc (hc f) in
        (if negb (rc =? EC_RES_BUSY) then set_hc (with_erase_rc EC_RES_SUCCESS) else ret tt) ;!
        ret rc
    | None => ret EC_RES_INVALID_PARAM
    end.

(** The flags, the valid flags and the writable flags of a response. *)
(** src/common/flash.c:1797-1813 [flash_command_protect] *)
Definition protect_response (f : flash) : list Z :=
  let flags := crec_flash_get_protect f in
  [flags;
   Z.lor (Z.lor (Z.lor (Z.lor EC_FLASH_PROTECT_GPIO_ASSERTED EC_FLASH_PROTECT_ERROR_STUCK)
                  EC_FLASH_PROTECT_ERROR_INCONSISTENT) EC_FLASH_PROTECT_ERROR_UNKNOWN)
     crec_flash_physical_get_valid_flags;
   crec_flash_physical_get_writable_flags flags].

(** src/common/flash.c:1691-1699 [crec_flash_set_protect_deferred] *)
Definition crec_flash_set_protect_deferred : M unit :=
  set_hc (with_prot_call false) ;!
  let! f := gets id in
  let! rv := crec_flash_set_protect (prot_mask (hc f)) (prot_flags (hc f)) in
  set_hc (with_prot_rc (if bool_decide (rv = EC_SUCCESS) then EC_RES_SUCCESS else EC_RES_ERROR)).

(** src/include/ec_commands.h:2067-2070 [enum flash_protect_action] *)
Inductive flash_protect_action := FLASH_PROTECT_ASYNC | FLASH_PROTECT_GET_RESULT.

(** src/common/flash.c:1701-1774 [flash_command_protect_v2] *)
Definition flash_command_protect_v2 (action : option flash_protect_action) (mask flags : Z) : M (Z * list Z) :=
  set_hc (with_prot mask flags) ;!
  let! f := gets id in
  let rc := prot_rc (hc f) in
  match action with
  | Some FLASH_PROTECT_ASYNC =>
      if rc =? EC_RES_BUSY then ret (rc, [])
      else
        (if bool_of_Z mask
         then set_hc (fun h => with_prot_rc EC_RES_BUSY (with_prot_call true h)) else ret tt) ;!
        ret (EC_RES_SUCCESS, [])
  | Some FLASH_PROTECT_GET_RESULT =>
      if rc =? EC_RES_ERROR then set_hc (with_prot_rc EC_RES_SUCCESS) ;! ret (rc, [])
      else if rc =? EC_RES_BUSY then ret (rc, [])
      else ret (rc, protect_response f)
  | None => ret (EC_RES_INVALID_PARAM, [])
  end.

(** src/common/flash.c:1777-1816 [flash_command_protect] *)
Definition flash_command_protect (mask flags : Z) : M (Z * list Z) :=
  (if bool_of_Z mask
   then let! _ := crec_flash_set_protect mask flags in ret tt
   else ret tt) ;!
  let! f := gets id in
  ret (EC_RES_SUCCESS, protect_response f).

(** src/include/ec_commands.h:2104-2126 [enum ec_flash_region] *)
Inductive ec_flash_region := EC_FLASH_REGION_RO | EC_FLASH_REGION_ACTIVE | EC_FLASH_REGION_WP_RO | EC_FLASH_REGION_UPDATE.

(** The active and the update copy are those the system reports; the offset
    and the size are the response. *)
(** src/common/flash.c:1825-1857 [flash_command_region_info] *)
Definition flash_command_region_info (active_copy update_copy : ec_image) (region : option ec_flash_region) :
  Z * list Z :=
  match region with
  | Some EC_FLASH_REGION_RO =>
      (EC_RES_SUCCESS,
       [u32 (CONFIG_EC_PROTECTED_STORAGE_OFF + CONFIG_RO_STORAGE_OFF - EC_FLASH_REGION_START); CONFIG_RO_SIZE])
  | Some EC_FLASH_REGION_ACTIVE =>
      (EC_RES_SUCCESS,
       [u32 (flash_get_rw_offset active_copy - EC_FLASH_REGION_START); CONFIG_EC_WRITABLE_STORAGE_SIZE])
  | Some EC_FLASH_REGION_WP_RO =>
      (EC_RES_SUCCESS, [u32 (CONFIG_WP_STORAGE_OFF - EC_FLASH_REGION_START); CONFIG_WP_STORAGE_SIZE])
  | Some EC_FLASH_REGION_UPDATE =>
      (EC_RES_SUCCESS,
       [u32 (flash_get_rw_offset update_copy - EC_FLASH_REGION_START); CONFIG_EC_WRITABLE_STORAGE_SIZE])
  | None => (EC_RES_INVALID_PARAM, [])
  end.

(** One description, of all the banks: their number and the logarithms of the
    sizes. *)
(** src/common/flash.c:247-268 [crec_flash_response_fill_banks] *)
Definition crec_flash_response_fill_banks (num_banks : Z) : list (list Z) :=
  if 1 <=? num_banks
  then [[PHYSICAL_BANKS; __fls CONFIG_FLASH_BANK_SIZE; __fls CONFIG_FLASH_WRITE_SIZE;
         __fls CONFIG_FLASH_ERASE_SIZE; __fls CONFIG_FLASH_BANK_SIZE]]
  else [].

(** src/common/flash.c:1451-1466 [flash_command_get_info] *)
Definition ideal_size (response_max : Z) : Z :=
  let room := u32 (response_max - 8) in
  let ideal := Z.land room (Z.lnot (CONFIG_FLASH_WRITE_IDEAL_SIZE - 1)) in
  if negb (bool_of_Z ideal) then Z.land room (Z.lnot (CONFIG_FLASH_WRITE_SIZE - 1)) else ideal.

(** The words of the response and, in version 2, the bank descriptions. *)
(** src/common/flash.c:1444-1518 [flash_command_get_info] *)
Definition flash_command_get_info (version response_max num_banks_desc : Z) : list Z * list (list Z) :=
  let size := CONFIG_FLASH_SIZE_BYTES - EC_FLASH_REGION_START in
  if 2 <=? version then
    let banks := crec_flash_response_fill_banks num_banks_desc in
    ([size; 0; ideal_size response_max; 1; Z.of_nat (length banks)], banks)
  else
    let words := [size; CONFIG_FLASH_WRITE_SIZE; CONFIG_FLASH_ERASE_SIZE; CONFIG_FLASH_BANK_SIZE] in
    if version =? 0 then (words, []) else (words ++ [ideal_size response_max; 0], []).

End Model.

(** ** Laws of a configuration

    Sizes are powers of two that divide each other; the protected storage
    starts at bank 0, where the driver protects from; the persistent state is
    one bank inside it; the rollback region is behind it. *)

Class FlashCfgOk `{FlashCfg} : Prop := {
  size_small : 0 < CONFIG_FLASH_SIZE_BYTES < 2 ^ 30;
  write_pow2 : exists k, 0 <= k /\ CONFIG_FLASH_WRITE_SIZE = 2 ^ k;
  erase_pow2 : exists k, 0 <= k /\ CONFIG_FLASH_ERASE_SIZE = 2 ^ k;
  bank_pos : 0 < CONFIG_FLASH_BANK_SIZE;
  write_erase : (CONFIG_FLASH_WRITE_SIZE | CONFIG_FLASH_ERASE_SIZE);
  erase_bank : (CONFIG_FLASH_ERASE_SIZE | CONFIG_FLASH_BANK_SIZE);
  bank_size : (CONFIG_FLASH_BANK_SIZE | CONFIG_FLASH_SIZE_BYTES);
  wp_off : CONFIG_WP_STORAGE_OFF = 0;
  wp_size : 0 <= CONFIG_WP_STORAGE_SIZE <= CONFIG_FLASH_SIZE_BYTES;
  wp_banks : (CONFIG_FLASH_BANK_SIZE | CONFIG_WP_STORAGE_SIZE);
  pstate_off : 0 <= CONFIG_FW_PSTATE_OFF;
  pstate_bank : (CONFIG_FLASH_BANK_SIZE | CONFIG_FW_PSTATE_OFF);
  pstate_size : CONFIG_FW_PSTATE_SIZE = CONFIG_FLASH_BANK_SIZE;
  pstate_wp : CONFIG_FW_PSTATE_OFF + CONFIG_FW_PSTATE_SIZE <= CONFIG_WP_STORAGE_SIZE;
  pstate_fits : sizeof_persist_state <= CONFIG_FW_PSTATE_SIZE;
  fields_nonneg : 0 <= CONFIG_SERIALNO_LEN /\ 0 <= CONFIG_MAC_ADDR_LEN /\ 0 <= CONFIG_POWERON_CONF_LEN;
  rollback_off : CONFIG_WP_STORAGE_SIZE <= CONFIG_ROLLBACK_OFF;
  rollback_banks : (CONFIG_FLASH_BANK_SIZE | CONFIG_ROLLBACK_OFF) /\ (CONFIG_FLASH_BANK_SIZE | CONFIG_ROLLBACK_SIZE);
  rollback_size : 0 <= CONFIG_ROLLBACK_SIZE /\ CONFIG_ROLLBACK_OFF + CONFIG_ROLLBACK_SIZE <= CONFIG_FLASH_SIZE_BYTES;
}.

(** The state is one of this configuration: arrays of the right lengths. *)
Record wf `{FlashCfg} (f : flash) : Prop := {
  wf_mem : Z.of_nat (length (mem f)) = CONFIG_FLASH_SIZE_BYTES;
  wf_protect : Z.of_nat (length (protect f)) = PHYSICAL_BANKS;
}.

Section Facts.
Context `{FlashCfgOk}.

Lemma erase_pos : 0 < CONFIG_FLASH_ERASE_SIZE.
Proof. destruct erase_pow2 as (k & ? & ->). by apply Z.pow_pos_nonneg. Qed.
Lemma write_pos : 0 < CONFIG_FLASH_WRITE_SIZE.
Proof. destruct write_pow2 as (k & ? & ->). by apply Z.pow_pos_nonneg. Qed.
Lemma banks_size : PHYSICAL_BANKS * CONFIG_FLASH_BANK_SIZE = CONFIG_FLASH_SIZE_BYTES.
Proof.
  unfold PHYSICAL_BANKS. destruct bank_size as [n ->]. pose proof bank_pos.
  by rewrite Z.div_mul by lia.
Qed.
Lemma round_up_bounds x y : 0 < y -> x <= y * DIV_ROUND_UP x y < x + y.
Proof.
  intros. unfold DIV_ROUND_UP. pose proof (Z.div_mod (x + (y - 1)) y ltac:(lia)).
  pose proof (Z.mod_pos_bound (x + (y - 1)) y ltac:(lia)). lia.
Qed.
Lemma sizeof_pos : POWERON_CONF + CONFIG_POWERON_CONF_LEN <= sizeof_persist_state /\ 4 <= sizeof_persist_state.
Proof.
  unfold sizeof_persist_state. pose proof (round_up_bounds (POWERON_CONF + CONFIG_POWERON_CONF_LEN) _ write_pos).
  destruct fields_nonneg as (? & ? & ?). unfold POWERON_CONF, MAC_ADDR, SERIALNO in *. lia.
Qed.

(** ** Ranges *)

Lemma mask_zero k x : 0 <= k -> Z.land x (2 ^ k - 1) = 0 <-> (2 ^ k | x).
Proof.
  intros. rewrite land_mask by done. unfold wrap. apply Z.mod_divide.
  pose proof (Z.pow_pos_nonneg 2 k). lia.
Qed.

(** The checks are exactly alignment and containment. *)
Lemma flash_range_ok_spec offset size k :
  0 <= k ->
  flash_range_ok offset size (2 ^ k) = true <->
  0 <= offset /\ 0 <= size /\ offset + size <= CONFIG_FLASH_SIZE_BYTES /\ (2 ^ k | offset) /\ (2 ^ k | size).
Proof.
  intros Hk. unfold flash_range_ok, bool_of_Z.
  rewrite Z.land_lor_distr_l, <- !(mask_zero k) by done.
  rewrite negb_true_iff, !orb_false_iff, negb_false_iff, !Z.ltb_ge, Z.eqb_eq, Z.lor_eq_0_iff. lia.
Qed.

(** ** Programming *)

Lemma bcopy_nil {A} (dst src : list A) off : 0 <= off -> bcopy dst off src 0 = dst.
Proof. intros. unfold bcopy. rewrite Z.add_0_r. cbn. apply take_drop. Qed.

Lemma bcopy_app {A} (dst src : list A) off n m :
  0 <= off -> 0 <= n -> 0 <= m -> off + n + m <= Z.of_nat (length dst) -> n + m <= Z.of_nat (length src) ->
  bcopy (bcopy dst off src n) (off + n) (drop (Z.to_nat n) src) m = bcopy dst off src (n + m).
Proof.
  intros. apply list_eq. intros i.
  rewrite !lookup_bcopy by (rewrite ?length_bcopy, ?length_drop by lia; lia).
  repeat case_decide; rewrite ?lookup_drop; try lia; try done; f_equal; lia.
Qed.

(** [n] blocks are stored, or the first [k] when power is lost. *)
Lemma program_run n u off data f :
  0 < u -> 0 <= off -> off + Z.of_nat n * u <= Z.of_nat (length (mem f)) ->
  Z.of_nat n * u <= Z.of_nat (length data) ->
  exists k p o,
    program n u off data f = (with_mem (bcopy (mem f) off data (k * u)) (with_power p f), o) /\
    (o = Done tt /\ k = Z.of_nat n \/ o = Off /\ 0 <= k < Z.of_nat n) /\
    (power f = None -> p = None /\ o = Done tt).
Proof.
  intros Hu. revert off data f. induction n as [|n IH]; intros off data f Ho Hm Hd.
  { exists 0, (power f), (Done tt). cbn [program]. unfold ret. rewrite Z.mul_0_l, bcopy_nil by done.
    destruct f; cbn. auto. }
  cbn [program]. unfold bind at 1. unfold tick.
  assert (0 <= Z.of_nat n * u) by (apply Z.mul_nonneg_nonneg; lia).
  assert (Hstep : forall p, exists k q o,
    (modify (fun f => with_mem (bcopy (mem f) off data u) f) ;!
     program n u (off + u) (drop (Z.to_nat u) data)) (with_power p f) =
      (with_mem (bcopy (mem f) off data (k * u)) (with_power q f), o) /\
    (o = Done tt /\ k = Z.of_nat (S n) \/ o = Off /\ 0 <= k < Z.of_nat (S n)) /\
    (p = None -> q = None /\ o = Done tt)).
  { intros p. unfold bind, modify. cbn [mem with_power].
    destruct (IH (off + u) (drop (Z.to_nat u) data)
                (with_mem (bcopy (mem f) off data u) (with_power p f))) as (k & q & o & E & Hk & Hp);
      [lia|cbn [mem with_mem]; rewrite length_bcopy by lia; lia|rewrite length_drop; lia|].
    assert (0 <= k * u <= Z.of_nat n * u) by (destruct Hk as [[_ ->]|[_ ?]]; split; nia).
    exists (k + 1), q, o. rewrite E.
    split_and!; [|destruct Hk as [[? ->]|[? ?]]; [left|right]; (split; [done|lia])|by apply Hp].
    cbn [mem with_mem with_power power hc protect wp_gpio]. f_equal. unfold with_mem, with_power; cbn.
    f_equal. rewrite bcopy_app by lia. f_equal. lia. }
  destruct (power f) as [[|m]|] eqn:Ep.
  - exists 0, (Some 0%nat), Off. rewrite Z.mul_0_l, bcopy_nil by done.
    split_and!; [|right; split; [done|lia]|done].
    destruct f; cbn in *. by subst.
  - destruct (Hstep (Some m)) as (k & q & o & ? & ? & ?). exists k, q, o. split_and!; [done|done|done].
  - destruct (Hstep None) as (k & q & o & E & ? & ?). exists k, q, o.
    replace (with_power None f) with f in E at 1 by (destruct f; cbn in *; by subst).
    split_and!; done.
Qed.

(** ** The driver *)

Definition locked (f : flash) (bank : Z) : bool := bool_of_Z (aget (protect f) bank).
(** No byte of the range is in a protected bank. *)
Definition unlocked (f : flash) (off size : Z) : Prop :=
  forall i, off <= i < off + size -> locked f (i / CONFIG_FLASH_BANK_SIZE) = false.

Lemma check_protect_unlocked off size f :
  flash_check_protect off size f = false -> unlocked f off size.
Proof.
  intros Hc i Hi. destruct (locked f (i / CONFIG_FLASH_BANK_SIZE)) eqn:E; [|done].
  assert (flash_check_protect off size f = true); [|congruence].
  unfold flash_check_protect. apply existsb_exists. exists (i / CONFIG_FLASH_BANK_SIZE). split; [|done].
  apply list_elem_of_In, elem_of_seqZ. pose proof bank_pos.
  pose proof (Z.div_le_mono off i _ bank_pos (proj1 Hi)).
  assert (i / CONFIG_FLASH_BANK_SIZE < DIV_ROUND_UP (off + size) CONFIG_FLASH_BANK_SIZE); [|lia].
  apply Z.div_lt_upper_bound; [done|]. pose proof (round_up_bounds (off + size) _ bank_pos). lia.
Qed.
Lemma unlocked_check_protect off size f :
  0 <= off -> 0 < size -> unlocked f off size -> flash_check_protect off size f = false.
Proof.
  intros Ho Hs Hu. unfold flash_check_protect. pose proof bank_pos.
  apply not_true_is_false. intros He. apply existsb_exists in He as (c & Hin & Hc).
  apply list_elem_of_In, elem_of_seqZ in Hin.
  pose proof (round_up_bounds (off + size) _ bank_pos) as Hr.
  assert (Hb : CONFIG_FLASH_BANK_SIZE <> 0) by lia.
  pose proof (Z.div_mod off _ Hb) as Hdm. pose proof (Z.mod_pos_bound off _ bank_pos) as Hmod.
  set (i := Z.max off (c * CONFIG_FLASH_BANK_SIZE)).
  assert (Hlo : off / CONFIG_FLASH_BANK_SIZE * CONFIG_FLASH_BANK_SIZE <= c * CONFIG_FLASH_BANK_SIZE)
    by (apply Z.mul_le_mono_nonneg_r; lia).
  assert (Hhi : (c + 1) * CONFIG_FLASH_BANK_SIZE <=
          DIV_ROUND_UP (off + size) CONFIG_FLASH_BANK_SIZE * CONFIG_FLASH_BANK_SIZE)
    by (apply Z.mul_le_mono_nonneg_r; lia).
  assert (Hi : i / CONFIG_FLASH_BANK_SIZE = c)
    by (symmetry; apply Z.div_unique with (i - c * CONFIG_FLASH_BANK_SIZE); unfold i; lia).
  assert (Hl : locked f c = false) by (rewrite <- Hi; apply Hu; unfold i; lia).
  unfold locked in Hl. congruence.
Qed.

(** What a write or an erase may do: fail without an effect, store all the
    data, or store some first blocks of it before power is lost. *)
Definition physical (f : flash) (off size u : Z) (data : list Z) (r : flash * outcome ec_error) : Prop :=
  (exists e, e <> EC_SUCCESS /\ r = (f, Done e)) \/
  unlocked f off size /\
  exists k p o,
    r = (with_mem (bcopy (mem f) off data (k * u)) (with_power p f), o) /\ 0 <= k /\
    (o = Done EC_SUCCESS /\ k * u = size \/ o = Off /\ k * u + u <= size /\ power f <> None) /\
    (power f = None -> p = None).

Lemma program_physical f off size u data :
  0 < u -> (u | size) -> 0 <= off -> 0 <= size -> off + size <= Z.of_nat (length (mem f)) ->
  size <= Z.of_nat (length data) -> unlocked f off size ->
  physical f off size u data ((program (Z.to_nat (size / u)) u off data ;! ret EC_SUCCESS) f).
Proof.
  intros Hu [n ->] Ho Hs Hm Hd Hl. rewrite Z.div_mul by lia. right. split; [done|].
  assert (0 <= n) by nia.
  destruct (program_run (Z.to_nat n) u off data f) as (k & p & o & E & Hk & Hp);
    [done|done|rewrite Z2Nat.id by done; done|rewrite Z2Nat.id by done; done|].
  rewrite Z2Nat.id in Hk by done. exists k, p. unfold bind, ret. rewrite E.
  destruct Hk as [[-> ->]|[-> Hk]].
  - exists (Done EC_SUCCESS). split_and!; [done|done|by left|]. intros Hn. by destruct (Hp Hn).
  - exists Off. split_and!; [done|lia|right|].
    + split_and!; [done|nia|]. intros Hn. by destruct (Hp Hn).
    + intros Hn. by destruct (Hp Hn).
Qed.

Lemma physical_write_ok f off size data :
  (CONFIG_FLASH_WRITE_SIZE | size) -> 0 <= off -> 0 <= size ->
  off + size <= Z.of_nat (length (mem f)) -> size <= Z.of_nat (length data) ->
  physical f off size CONFIG_FLASH_WRITE_SIZE data (crec_flash_physical_write off size data f).
Proof.
  intros Hd Ho Hs Hm Hl. unfold crec_flash_physical_write, bind at 1, assert.
  replace (Z.land size (CONFIG_FLASH_WRITE_SIZE - 1) =? 0) with true.
  - unfold bind at 1, gets, id. case_bool_decide; cbn [negb]; [|left; eexists; split; [|reflexivity]; done].
    destruct (flash_check_protect off size f) eqn:Ec; [left; eexists; split; [|reflexivity]; done|].
    apply program_physical; try done; [apply write_pos|by apply check_protect_unlocked].
  - symmetry. apply Z.eqb_eq. destruct write_pow2 as (k & ? & Ek). rewrite Ek in *. by apply mask_zero.
Qed.
Lemma physical_erase_ok f off size :
  (CONFIG_FLASH_ERASE_SIZE | size) -> 0 <= off -> 0 <= size ->
  off + size <= Z.of_nat (length (mem f)) ->
  physical f off size CONFIG_FLASH_ERASE_SIZE (replicate (Z.to_nat size) 0xff) (crec_flash_physical_erase off size f).
Proof.
  intros Hd Ho Hs Hm. unfold crec_flash_physical_erase, bind at 1, assert.
  replace (Z.land size (CONFIG_FLASH_ERASE_SIZE - 1) =? 0) with true.
  - unfold bind at 1, gets, id. case_bool_decide; cbn [negb]; [|left; eexists; split; [|reflexivity]; done].
    destruct (flash_check_protect off size f) eqn:Ec; [left; eexists; split; [|reflexivity]; done|].
    apply program_physical; try done; [apply erase_pos|rewrite length_replicate; lia|by apply check_protect_unlocked].
  - symmetry. apply Z.eqb_eq. destruct erase_pow2 as (k & ? & Ek). rewrite Ek in *. by apply mask_zero.
Qed.

(** With a steady supply, no injected fault and no protected bank in the way
    they succeed. *)
Lemma physical_done f off size u data r :
  physical f off size u data r -> power f = None ->
  (forall e, r = (f, Done e) -> e = EC_SUCCESS) ->
  0 < u -> 0 <= size -> 
  r = (with_mem (bcopy (mem f) off data size) f, Done EC_SUCCESS).
Proof.
  intros [(e & He & ->)|(_ & k & p & o & -> & Hk & Ho & Hp)] Hn Hs Hu Hz.
  - by destruct (He (Hs e eq_refl)).
  - rewrite (Hp Hn). destruct Ho as [[-> ->]|(_ & _ & [])]; [|done].
    f_equal. destruct f; cbn in *. by subst.
Qed.

(** ** Protected banks are kept

    [kept f f']: what was protected still is, with the same contents. *)
Record kept (f f' : flash) : Prop := {
  kept_wf : wf f';
  kept_gpio : wp_gpio f' = wp_gpio f;
  kept_locked : forall b, 0 <= b -> locked f b = true -> locked f' b = true;
  kept_mem : forall i, 0 <= i -> locked f (i / CONFIG_FLASH_BANK_SIZE) = true ->
    mem f' !! Z.to_nat i = mem f !! Z.to_nat i;
}.

Lemma kept_refl f : wf f -> kept f f.
Proof. by constructor. Qed.
Lemma kept_trans f g h : kept f g -> kept g h -> kept f h.
Proof.
  intros [A1 A2 A3 A4] [B1 B2 B3 B4]. constructor; [done|congruence|auto|].
  intros i Hi Hl. rewrite B4, A4; auto. apply A3; [|done]. apply Z.div_pos; [done|apply bank_pos].
Qed.

Definition keeps {A} (m : M A) : Prop := forall f, wf f -> kept f (m f).1.

Lemma keeps_ret {A} (a : A) : keeps (ret a).
Proof. intros f Hf. by apply kept_refl. Qed.
Lemma keeps_gets {A} (g : flash -> A) : keeps (gets g).
Proof. intros f Hf. by apply kept_refl. Qed.
Lemma keeps_bind {A B} (m : M A) (k : A -> M B) : keeps m -> (forall a, keeps (k a)) -> keeps (bind m k).
Proof.
  intros Hm Hk f Hf. unfold bind. specialize (Hm f Hf). destruct (m f) as [g [a| |]]; cbn [fst] in *; try done.
  eapply kept_trans; [done|]. apply Hk. by destruct Hm.
Qed.
Lemma keeps_set_hc g : keeps (set_hc g).
Proof. intros f [? ?]. constructor; try done. Qed.

Lemma keeps_physical f off size u data r :
  physical f off size u data r -> wf f -> 0 < u -> 0 <= off -> 0 <= size ->
  off + size <= CONFIG_FLASH_SIZE_BYTES -> size <= Z.of_nat (length data) -> kept f r.1.
Proof.
  intros [(e & He & ->)|(Hun & k & p & o & -> & Hk & Ho & Hp)] Hf Hu Hoff Hs Hr Hd; [by apply kept_refl|].
  assert (0 <= k * u <= size) by (destruct Ho as [(_ & ?)|(_ & ? & _)]; nia).
  pose proof (wf_mem f Hf). constructor; cbn [mem with_mem with_power wp_gpio protect fst]; try done.
  - constructor; cbn [mem with_mem with_power protect]; [rewrite length_bcopy by lia; done|apply Hf].
  - intros i Hi Hl. rewrite lookup_bcopy by lia. case_decide; [|done].
    rewrite Hun in Hl by lia. done.
Qed.

Lemma keeps_write off size data : size <= Z.of_nat (length data) -> keeps (crec_flash_write off size data).
Proof.
  intros Hd f Hf. unfold crec_flash_write.
  destruct (flash_range_ok off size CONFIG_FLASH_WRITE_SIZE) eqn:E; [|by apply kept_refl].
  cbn [negb]. destruct write_pow2 as (k & Hk & Ek). rewrite Ek in E.
  apply flash_range_ok_spec in E as (? & ? & ? & _ & Ha); [|done]. rewrite <- Ek in Ha.
  pose proof (wf_mem f Hf).
  eapply keeps_physical; [apply physical_write_ok|..]; try done; [lia|apply write_pos].
Qed.
Lemma keeps_erase off size : keeps (crec_flash_erase off size).
Proof.
  intros f Hf. unfold crec_flash_erase.
  destruct (flash_range_ok off size CONFIG_FLASH_ERASE_SIZE) eqn:E; [|by apply kept_refl].
  cbn [negb]. destruct erase_pow2 as (k & Hk & Ek). rewrite Ek in E.
  apply flash_range_ok_spec in E as (? & ? & ? & _ & Ha); [|done]. rewrite <- Ek in Ha.
  pose proof (wf_mem f Hf).
  eapply keeps_physical; [apply physical_erase_ok|..]; try done; rewrite ?length_replicate; try lia; apply erase_pos.
Qed.

End Facts.
End Flash.
