(* ===== verification/FlashProtect.v ===== *)
(** * Write protection of the flash

    Every operation of Flash.v keeps protected banks protected and unchanged
    ([keeps]); the flags that [crec_flash_get_protect] computes are
    characterised; with the write protect pin asserted and protection at boot
    requested, the protected storage survives any commands, power losses and
    resets. *)

From stdpp Require Import relations.
From S2P Require Import Prelude Bits Bytes Libc Flash.
Import Bytes Bits Flash.

Module FlashProtect.
Section Protect.
Context `{FlashCfgOk}.

(** ** Every operation keeps protected banks *)

Lemma keeps_get {A} (k : flash -> M A) : (forall f, wf f -> keeps (k f)) -> keeps (let! f := gets id in k f).
Proof. intros Hk f Hf. exact (Hk f Hf f Hf). Qed.

(** Decompose an operation into the ones whose lemmas are in the database. *)
Create HintDb flash.
#[local] Hint Resolve keeps_ret keeps_gets keeps_set_hc keeps_erase : flash.
Ltac keep :=
  repeat first
    [ solve [auto with flash]
    | apply keeps_get; intros ? ?
    | apply keeps_bind; [|intros ?]
    | case_match ].

Lemma length_pstate f : wf f -> Z.of_nat (length (pstate f)) = sizeof_persist_state.
Proof.
  intros Hf. pose proof sizeof_pos. pose proof (wf_mem f Hf). unfold pstate.
  pose proof pstate_fits. pose proof pstate_wp. pose proof wp_size. pose proof pstate_off.
  rewrite length_slice by lia. lia.
Qed.
Lemma length_validate p :
  Z.of_nat (length p) = sizeof_persist_state -> Z.of_nat (length (validate_pstate_struct p)) = sizeof_persist_state.
Proof.
  intros Hp. pose proof sizeof_pos. unfold validate_pstate_struct. case_match; [|done].
  rewrite length_aset, length_replicate. lia.
Qed.
Lemma length_add_valid_fields v p : length (add_valid_fields v p) = length p.
Proof. apply length_aset. Qed.

Lemma keeps_write_pstate_data p :
  Z.of_nat (length p) = sizeof_persist_state -> keeps (flash_write_pstate_data p).
Proof.
  intros Hp. pose proof sizeof_pos. pose proof pstate_fits. pose proof pstate_wp. pose proof wp_size.
  pose proof pstate_off. pose proof bank_pos. pose proof pstate_size.
  unfold flash_write_pstate_data. apply keeps_bind.
  - intros f Hf. pose proof (wf_mem f Hf).
    eapply keeps_physical; [apply physical_erase_ok|..]; rewrite ?length_replicate; try done; try lia; [|apply erase_pos].
    rewrite pstate_size. apply erase_bank.
  - intros rv. case_match; [auto with flash|]. intros f Hf. pose proof (wf_mem f Hf).
    eapply keeps_physical; [apply physical_write_ok|..]; try done; try lia; [|apply write_pos].
    unfold sizeof_persist_state. apply Z.divide_factor_l.
Qed.
#[local] Hint Resolve keeps_write_pstate_data : flash.

Lemma keeps_write_pstate flags : keeps (flash_write_pstate flags).
Proof.
  unfold flash_write_pstate. apply keeps_get. intros f Hf. case_match; [auto with flash|].
  apply keeps_write_pstate_data. rewrite length_add_valid_fields.
  case_match; rewrite length_aset; by apply length_validate, length_pstate.
Qed.
#[local] Hint Resolve keeps_write_pstate : flash.

Lemma strnlen_bounds s n : 0 <= Str.strnlen s n <= Z.of_nat n /\ Str.strnlen s n <= Z.of_nat (length s).
Proof.
  revert s. induction n as [|n IH]; intros s; [cbn; lia|]. cbn [Str.strnlen]. case_match; [lia|].
  destruct (IH (Str.next s)). destruct s as [|c s]; cbn in *; [discriminate|]. lia.
Qed.

(** A field inside the structure is stored without changing its length. *)
Lemma length_field (p src : list Z) off n :
  Z.of_nat (length p) = sizeof_persist_state -> 0 <= off -> 0 <= n -> n <= Z.of_nat (length src) ->
  off + n <= POWERON_CONF + CONFIG_POWERON_CONF_LEN ->
  Z.of_nat (length (bcopy p off src n)) = sizeof_persist_state.
Proof. intros. pose proof sizeof_pos. rewrite length_bcopy by lia. lia. Qed.

Lemma keeps_write_serial s : keeps (crec_flash_write_pstate_serial s).
Proof.
  unfold crec_flash_write_pstate_serial. case_match; [|auto with flash]. case_match; [auto with flash|].
  apply keeps_get. intros f Hf. apply keeps_write_pstate_data. rewrite length_add_valid_fields.
  destruct fields_nonneg as (? & ? & ?). destruct (strnlen_bounds l (Z.to_nat CONFIG_SERIALNO_LEN)).
  apply length_field; [apply length_field|..]; rewrite ?length_replicate; unfold POWERON_CONF, MAC_ADDR, SERIALNO;
    try lia; by apply length_validate, length_pstate.
Qed.
Lemma keeps_write_mac s : keeps (crec_flash_write_pstate_mac_addr s).
Proof.
  unfold crec_flash_write_pstate_mac_addr. case_match; [|auto with flash].
  case_match; [auto with flash|]. case_match; [auto with flash|].
  apply keeps_get. intros f Hf. apply keeps_write_pstate_data. rewrite length_add_valid_fields.
  destruct fields_nonneg as (? & ? & ?). destruct (strnlen_bounds l (Z.to_nat CONFIG_MAC_ADDR_LEN)).
  apply length_field; [apply length_field|..]; rewrite ?length_replicate; unfold POWERON_CONF, MAC_ADDR, SERIALNO;
    try lia; by apply length_validate, length_pstate.
Qed.
Lemma keeps_write_poweron s :
  (forall d, s = Some d -> Z.of_nat (length d) = CONFIG_POWERON_CONF_LEN) ->
  keeps (crec_flash_write_pstate_poweron_conf s).
Proof.
  intros Hs. unfold crec_flash_write_pstate_poweron_conf. destruct s as [d|]; [|auto with flash].
  specialize (Hs d eq_refl). apply keeps_get. intros f Hf. apply keeps_write_pstate_data.
  rewrite length_add_valid_fields. destruct fields_nonneg as (? & ? & ?).
  apply length_field; unfold POWERON_CONF, MAC_ADDR, SERIALNO; try lia. by apply length_validate, length_pstate.
Qed.

Lemma aget_bfill (l : list Z) n v i :
  0 <= n <= Z.of_nat (length l) -> 0 <= i -> aget (bfill l 0 v n) i = if i <? n then v else aget l i.
Proof.
  intros Hn Hi. unfold aget, bfill. rewrite !list_lookup_total_alt.
  rewrite lookup_bcopy by (rewrite ?length_replicate; lia).
  destruct (Z.ltb_spec i n); [rewrite decide_True by lia|by rewrite decide_False by lia].
  rewrite lookup_replicate_2 by lia. done.
Qed.

Lemma wp_banks_range : 0 <= WP_BANK_COUNT <= PHYSICAL_BANKS.
Proof.
  pose proof wp_size. pose proof bank_pos. unfold WP_BANK_COUNT, PHYSICAL_BANKS. split.
  - apply Z.div_pos; lia.
  - apply Z.div_le_mono; lia.
Qed.

Lemma keeps_protect_now all : keeps (crec_flash_physical_protect_now all).
Proof.
  intros f Hf. pose proof wp_banks_range. pose proof (wf_protect f Hf).
  assert (0 <= (if all then PHYSICAL_BANKS else WP_BANK_COUNT) <= Z.of_nat (length (protect f))) by (case_match; lia).
  constructor; cbn [fst crec_flash_physical_protect_now bind modify ret wp_gpio with_protect mem]; try done.
  - constructor; cbn [mem protect with_protect]; [apply Hf|]. rewrite length_bfill by lia. done.
  - intros b Hb Hl. unfold locked in *. cbn [protect with_protect].
    rewrite aget_bfill by lia. by destruct (b <? _).
Qed.
#[local] Hint Resolve keeps_write_serial keeps_write_mac keeps_write_poweron keeps_protect_now : flash.

Lemma keeps_protect_at_boot flags : keeps (crec_flash_protect_at_boot flags).
Proof. unfold crec_flash_protect_at_boot. keep. Qed.
#[local] Hint Resolve keeps_protect_at_boot : flash.
Lemma keeps_set_protect mask flags : keeps (crec_flash_set_protect mask flags).
Proof. unfold crec_flash_set_protect, commit_at_boot, commit_now. keep. Qed.
#[local] Hint Resolve keeps_set_protect : flash.
Lemma keeps_pre_init : keeps crec_flash_pre_init.
Proof. unfold crec_flash_pre_init. keep. Qed.

Lemma write_size_fits s ps (data : list Z) :
  is_u32 s -> (ps <? u32 (s + 8)) = false -> ps <= 8 + Z.of_nat (length data) -> s32 s <= Z.of_nat (length data).
Proof. intros [? ?] Hps Hd. apply Z.ltb_ge in Hps. revert Hps. unfold swrap, wrap. divlia. Qed.

Lemma keeps_command_write o s ps data :
  is_u32 s -> ps <= 8 + Z.of_nat (length data) -> keeps (flash_command_write o s ps data).
Proof.
  intros Hs Hd. unfold flash_command_write. apply keeps_get. intros f Hf. case_match; [keep|].
  case_match eqn:Ep; [keep|]. case_match; [keep|]. apply keeps_bind; [|keep].
  apply keeps_write. by eapply write_size_fits.
Qed.
Lemma keeps_command_erase cmd o s : keeps (flash_command_erase cmd o s).
Proof. unfold flash_command_erase. keep. Qed.
Lemma keeps_erase_deferred : keeps flash_erase_deferred.
Proof. unfold flash_erase_deferred. keep. Qed.
Lemma keeps_command_protect mask flags : keeps (flash_command_protect mask flags).
Proof. unfold flash_command_protect. keep. Qed.
Lemma keeps_command_protect_v2 a mask flags : keeps (flash_command_protect_v2 a mask flags).
Proof. unfold flash_command_protect_v2. keep. Qed.
Lemma keeps_set_protect_deferred : keeps crec_flash_set_protect_deferred.
Proof. unfold crec_flash_set_protect_deferred. keep. Qed.

(** ** The protection flags *)

Lemma has_bit x i : 0 <= i -> bool_of_Z (Z.land x (BIT i)) = Z.testbit x i.
Proof. apply has_testbit. Qed.
Lemma land_lor_any x a b :
  bool_of_Z (Z.land x (Z.lor a b)) = bool_of_Z (Z.land x a) || bool_of_Z (Z.land x b).
Proof.
  unfold bool_of_Z. rewrite Z.land_lor_distr_r, <- negb_andb. f_equal. apply eq_true_iff_eq.
  rewrite andb_true_iff, !Z.eqb_eq. apply Z.lor_eq_0_iff.
Qed.
Lemma land_lor_all x a b :
  (Z.land x (Z.lor a b) =? Z.lor a b) = (Z.land x a =? a) && (Z.land x b =? b).
Proof.
  apply eq_true_iff_eq. rewrite andb_true_iff, !Z.eqb_eq. split.
  - intros E. split; apply Z.bits_inj'; intros j Hj; apply (f_equal (fun z => Z.testbit z j)) in E;
      rewrite Z.land_spec, Z.lor_spec in E; rewrite Z.land_spec;
      destruct (Z.testbit x j), (Z.testbit a j), (Z.testbit b j); done.
  - intros [E1 E2]. by rewrite Z.land_lor_distr_r, E1, E2.
Qed.
Lemma land_bit_all x i : 0 <= i -> (Z.land x (BIT i) =? BIT i) = Z.testbit x i.
Proof.
  intros Hi. rewrite <- has_bit by done. unfold bool_of_Z.
  assert (Hz : BIT i <> 0) by (unfold BIT; rewrite Z.shiftl_1_l; pose proof (Z.pow_pos_nonneg 2 i); lia).
  apply eq_true_iff_eq. rewrite Z.eqb_eq, negb_true_iff, Z.eqb_neq. split; [intros ->; done|].
  intros Hn. apply Z.bits_inj'. intros j Hj. rewrite Z.land_spec, testbit_BIT by done.
  destruct (Z.eqb_spec j i) as [->|]; [|apply andb_false_r]. rewrite andb_true_r, <- has_bit by done.
  unfold bool_of_Z. by apply negb_true_iff, Z.eqb_neq.
Qed.
Lemma testbit_lor_if (b : bool) x i j :
  0 <= i -> Z.testbit (if b then Z.lor x (BIT i) else x) j = Z.testbit x j || (b && (j =? i)).
Proof. intros. destruct b; [by rewrite Z.lor_spec, testbit_BIT|by rewrite orb_false_r]. Qed.

Definition region_bit (r : flash_region) : Z :=
  match r with FLASH_REGION_RW => 8 | FLASH_REGION_RO => 1 | FLASH_REGION_ROLLBACK => 10 end.
Definition regions : list flash_region := [FLASH_REGION_RW; FLASH_REGION_RO; FLASH_REGION_ROLLBACK].

(** Some bank of the region, among [l], is protected ([v]) or is not. *)
Definition sees (f : flash) (l : list Z) (r : flash_region) (v : bool) : bool :=
  existsb (fun i => bool_decide (bank_region i = r) && eqb (locked f i) v) l.
(** The region is flagged, and the mixed regions: flagged with a bank that is
    not protected. *)
Definition flagged (flags : Z) (r : flash_region) : bool := Z.testbit flags (region_bit r).
Definition mixed (s : Z * (flash_region -> bool)) : bool := existsb (fun r => flagged s.1 r && s.2 r) regions.

Lemma region_flag_bit r : region_flag r = BIT (region_bit r).
Proof. by destruct r. Qed.
Lemma region_bit_nonneg r : 0 <= region_bit r.
Proof. by destruct r. Qed.
Lemma region_bit_inj r r' : (region_bit r =? region_bit r') = bool_decide (r = r').
Proof. by destruct r, r'. Qed.

(** One turn of the scan, bit by bit. *)
Lemma scan_bank_bits f flags np i :
  let r := bank_region i in
  (forall j, Z.testbit (scan_bank f (flags, np) i).1 j =
     Z.testbit flags j || (locked f i && (j =? region_bit r)) ||
     ((if locked f i then np r else flagged flags r) && (j =? 5))) /\
  (forall r', (scan_bank f (flags, np) i).2 r' = np r' || (negb (locked f i) && bool_decide (r' = r))).
Proof.
  intros r. unfold scan_bank. fold r. change (crec_flash_physical_get_protect i f) with (aget (protect f) i).
  fold (locked f i). rewrite region_flag_bit, has_bit by apply region_bit_nonneg.
  change EC_FLASH_PROTECT_ERROR_INCONSISTENT with (BIT 5). fold (flagged flags r).
  destruct (locked f i); cbn [fst snd negb andb]; split; intros.
  - rewrite testbit_lor_if, Z.lor_spec, testbit_BIT by (done || apply region_bit_nonneg). done.
  - by rewrite orb_false_r.
  - rewrite testbit_lor_if by done. by rewrite orb_false_r.
  - case_decide as Hd; [subst; by rewrite bool_decide_true, orb_true_r|by rewrite bool_decide_false, orb_false_r].
Qed.

Lemma scan_bank_mixed f s i inc :
  Z.testbit s.1 5 = inc || mixed s -> Z.testbit (scan_bank f s i).1 5 = inc || mixed (scan_bank f s i).
Proof.
  destruct s as [flags np]. destruct (scan_bank_bits f flags np i) as [Hb Hn].
  set (s' := scan_bank f (flags, np) i) in *.
  assert (Hm : mixed s' = mixed (flags, np) || (if locked f i then np (bank_region i) else flagged flags (bank_region i))).
  { unfold mixed, regions, flagged. cbn [existsb fst snd]. rewrite !Hb, !Hn. unfold flagged. cbn [fst snd].
    rewrite !orb_false_r.
    destruct (locked f i), (bank_region i); cbn [region_bit negb andb orb Z.eqb Pos.eqb]; rewrite ?andb_false_r, ?andb_true_r, ?orb_false_r, ?orb_true_r;
    repeat match goal with |- context [bool_decide ?P] => destruct (bool_decide_reflect P); try done end;
    repeat match goal with |- context [Z.testbit flags ?n] => destruct (Z.testbit flags n) end;
    repeat match goal with |- context [np ?r] => destruct (np r) end; done. }
  rewrite Hb, Hm. cbn [fst]. rewrite Z.eqb_refl, andb_true_r.
  assert (H5 : (5 =? region_bit (bank_region i)) = false) by (by destruct (bank_region i)).
  rewrite H5, andb_false_r, orb_false_r.
  intros ->. by rewrite orb_assoc.
Qed.

(** The scan of a list of banks. *)
Lemma scan_spec f l flags np inc :
  Z.testbit flags 5 = inc || mixed (flags, np) ->
  let s := fold_left (scan_bank f) l (flags, np) in
  (forall r, flagged s.1 r = flagged flags r || sees f l r true) /\
  (forall r, s.2 r = np r || sees f l r false) /\
  Z.testbit s.1 5 = inc || mixed s /\
  (forall j, j <> 5 -> j <> 1 -> j <> 8 -> j <> 10 -> Z.testbit s.1 j = Z.testbit flags j).
Proof.
  revert flags np. induction l as [|i l IH]; intros flags np H5; cbn [fold_left].
  { unfold sees. cbn [existsb fst snd]. split_and!; intros; rewrite ?orb_false_r; done. }
  pose proof (scan_bank_mixed f (flags, np) i inc H5) as Hm.
  destruct (scan_bank_bits f flags np i) as [Hb Hn].
  destruct (scan_bank f (flags, np) i) as [flags' np'] eqn:Es. cbn [fst snd] in *.
  destruct (IH flags' np' Hm) as (I1 & I2 & I3 & I4). split_and!; [| |done|].
  - intros r. rewrite I1. unfold flagged in *. rewrite Hb, region_bit_inj.
    replace (region_bit r =? 5) with false by (by destruct r). rewrite andb_false_r, orb_false_r.
    unfold sees. cbn [existsb]. rewrite (bool_decide_ext (r = _) (bank_region i = r)) by naive_solver.
    rewrite <- orb_assoc. f_equal. by destruct (locked f i), (bool_decide (bank_region i = r)).
  - intros r. rewrite I2, Hn. unfold sees. cbn [existsb].
    rewrite (bool_decide_ext (r = _) (bank_region i = r)) by naive_solver.
    rewrite <- orb_assoc. f_equal. by destruct (locked f i), (bool_decide (bank_region i = r)).
  - intros j J5 J1 J8 J10. rewrite I4, Hb by done.
    replace (j =? 5) with false by lia.
    replace (j =? region_bit (bank_region i)) with false by (destruct (bank_region i); cbn [region_bit]; lia).
    by rewrite !andb_false_r, !orb_false_r.
Qed.

Lemma physical_flags_spec f :
  crec_flash_physical_get_protect_flags f =
  if forallb (locked f) (seqZ 0 PHYSICAL_BANKS) then EC_FLASH_PROTECT_ALL_NOW else 0.
Proof.
  unfold crec_flash_physical_get_protect_flags.
  assert (Hg : forall l a, fold_left (fun flags i => if aget (protect f) i =? 0 then 0 else flags) l a =
                if forallb (locked f) l then a else if a =? 0 then a else 0).
  { induction l as [|i l IH]; intros a; [done|]. cbn [fold_left forallb]. rewrite IH.
    unfold locked at 2, bool_of_Z. destruct (aget (protect f) i =? 0); cbn [negb andb].
    - cbn. destruct (Z.eqb_spec a 0); destruct (forallb _ l); done.
    - destruct (forallb _ l); [done|]. done. }
  rewrite Hg. done.
Qed.

(** What the flags say: protection at boot; per region, whether it counts as
    protected and whether it has a bank that is not; and all banks. *)
Definition banks : list Z := seqZ 0 PHYSICAL_BANKS.
Definition at_boot (f : flash) : bool := Z.testbit (flash_read_pstate f) 0.
Definition now (f : flash) (r : flash_region) : bool :=
  Z.testbit (flash_read_pstate f) (region_bit r) || sees f banks r true.
Definition all_regions (f : flash) : bool :=
  now f FLASH_REGION_RO && now f FLASH_REGION_RW && (negb CONFIG_ROLLBACK || now f FLASH_REGION_ROLLBACK).
Definition inconsistent (f : flash) : bool :=
  existsb (fun r => now f r && sees f banks r false) regions ||
  (now f FLASH_REGION_RW || now f FLASH_REGION_ROLLBACK) && negb (now f FLASH_REGION_RO).

Lemma read_pstate_cases f :
  flash_read_pstate f = BIT 0 \/ flash_read_pstate f = 0 \/
  flash_read_pstate f = BIT 1 /\ CONFIG_WP_ALWAYS = true.
Proof. unfold flash_read_pstate. repeat case_match; auto. Qed.

Lemma pstate_bit f j : 1 < j -> Z.testbit (flash_read_pstate f) j = false.
Proof.
  intros Hj. destruct (read_pstate_cases f) as [->|[->|[-> _]]]; rewrite ?testbit_BIT, ?Z.bits_0 by done; try done; lia.
Qed.

Lemma no_rollback f r v : CONFIG_ROLLBACK = false -> r = FLASH_REGION_ROLLBACK -> sees f banks r v = false.
Proof.
  intros Hr ->. unfold sees. apply not_true_is_false. intros (i & _ & Hi)%existsb_exists.
  apply andb_prop in Hi as [Hi _]. apply bool_decide_eq_true in Hi. revert Hi. unfold bank_region. rewrite Hr. cbn [andb].
  by case_match.
Qed.

Lemma all_flags_all x :
  (Z.land x all_flags =? all_flags) = Z.testbit x 1 && Z.testbit x 8 && (negb CONFIG_ROLLBACK || Z.testbit x 10).
Proof.
  unfold all_flags. destruct CONFIG_ROLLBACK; rewrite !land_lor_all;
    change EC_FLASH_PROTECT_RO_NOW with (BIT 1); change EC_FLASH_PROTECT_RW_NOW with (BIT 8);
    change EC_FLASH_PROTECT_ROLLBACK_NOW with (BIT 10); rewrite !land_bit_all by done; [done|by rewrite andb_true_r].
Qed.
Lemma all_flags_any x :
  bool_of_Z (Z.land x all_flags) = Z.testbit x 1 || Z.testbit x 8 || (CONFIG_ROLLBACK && Z.testbit x 10).
Proof.
  unfold all_flags. destruct CONFIG_ROLLBACK; rewrite !land_lor_any;
    change EC_FLASH_PROTECT_RO_NOW with (BIT 1); change EC_FLASH_PROTECT_RW_NOW with (BIT 8);
    change EC_FLASH_PROTECT_ROLLBACK_NOW with (BIT 10); rewrite !has_bit by done; [done|by rewrite orb_false_r].
Qed.

(** Close the case of one bit that survives the final mask. *)
Ltac close_bit k :=
  change (Z.testbit (u32 _) k) with true; cbn [Z.eqb Pos.eqb andb orb];
  rewrite ?andb_true_r, ?orb_false_r; reflexivity.

Lemma get_protect_bits f j :
  0 <= j ->
  Z.testbit (crec_flash_get_protect f) j =
    ((j =? 0) && at_boot f) || ((j =? 1) && now f FLASH_REGION_RO) ||
    ((j =? 2) && (all_regions f || forallb (locked f) banks)) || ((j =? 3) && wp_gpio f) ||
    ((j =? 5) && inconsistent f) || ((j =? 10) && now f FLASH_REGION_ROLLBACK).
Proof.
  intros Hj. unfold crec_flash_get_protect. rewrite physical_flags_spec.
  set (flags0 := Z.lor _ (flash_read_pstate f)).
  assert (Hf0 : forall i, Z.testbit flags0 i = ((i =? 3) && wp_gpio f) || Z.testbit (flash_read_pstate f) i).
  { intros i. unfold flags0. rewrite Z.lor_spec. change EC_FLASH_PROTECT_GPIO_ASSERTED with (BIT 3).
    rewrite testbit_lor_if, Z.bits_0 by done. by rewrite andb_comm. }
  destruct (scan_spec f banks flags0 (fun _ => false) false) as (S1 & S2 & S3 & S4).
  { rewrite Hf0, pstate_bit by done. unfold mixed, regions. cbn. by rewrite !andb_false_r. }
  fold banks. set (s := fold_left (scan_bank f) banks _) in *. cbn [orb] in S3.
  assert (Hnow : forall r, flagged s.1 r = now f r).
  { intros r. rewrite S1. unfold flagged, now. rewrite Hf0. by destruct r. }
  assert (Hmix : mixed s = existsb (fun r => now f r && sees f banks r false) regions).
  { unfold mixed, regions. cbn [existsb]. by rewrite !Hnow, !S2. }
  pose proof (Hnow FLASH_REGION_RO) as N1. pose proof (Hnow FLASH_REGION_RW) as N8.
  pose proof (Hnow FLASH_REGION_ROLLBACK) as N10. unfold flagged in N1, N8, N10. cbn [region_bit] in N1, N8, N10.
  assert (Hrb : CONFIG_ROLLBACK = false -> now f FLASH_REGION_ROLLBACK = false).
  { intros Hr. unfold now. by rewrite pstate_bit, no_rollback. }
  rewrite all_flags_all, N1, N8, N10. fold (all_regions f).
  rewrite all_flags_any. change EC_FLASH_PROTECT_ALL_NOW with (BIT 2).
  change EC_FLASH_PROTECT_RO_NOW with (BIT 1). rewrite has_bit, !testbit_lor_if by done.
  rewrite N1, N8, N10. cbn [Z.eqb Pos.eqb]. rewrite !andb_false_r, !orb_false_r.
  change EC_FLASH_PROTECT_ERROR_INCONSISTENT with (BIT 5).
  rewrite Z.lor_spec, Z.land_spec, !testbit_lor_if by done.
  replace (Z.testbit (if forallb (locked f) banks then BIT 2 else 0) j)
    with (forallb (locked f) banks && (j =? 2)) by (destruct (forallb _ _); by rewrite ?testbit_BIT, ?Z.bits_0).
  assert (Hs0 : Z.testbit s.1 0 = at_boot f) by (rewrite S4, Hf0 by done; done).
  assert (Hs3 : Z.testbit s.1 3 = wp_gpio f) by (rewrite S4, Hf0, pstate_bit by done; cbn; by rewrite orb_false_r).
  destruct (decide (j = 5)) as [->|J5].
  { rewrite S3, Hmix. unfold inconsistent. change (Z.testbit (u32 _) 5) with true. cbn [Z.eqb Pos.eqb orb andb].
    rewrite !andb_false_r, !orb_false_r, !andb_true_r. f_equal.
    destruct CONFIG_ROLLBACK; [|rewrite (Hrb eq_refl)];
      by destruct (now f FLASH_REGION_RO), (now f FLASH_REGION_RW), (now f FLASH_REGION_ROLLBACK). }
  destruct (decide (j = 2)) as [->|J2].
  { change (Z.testbit (u32 _) 2) with true. rewrite S4, Hf0, pstate_bit by done. cbn [Z.eqb Pos.eqb orb andb].
    by rewrite ?andb_false_r, ?orb_false_r, ?andb_true_r. }
  replace (j =? 5) with false by lia. replace (j =? 2) with false by lia.
  rewrite !andb_false_r. cbn [andb orb]. rewrite !orb_false_r.
  destruct (decide (j = 0)) as [->|J0]; [rewrite Hs0; close_bit 0|].
  destruct (decide (j = 1)) as [->|J1]; [rewrite N1; close_bit 1|].
  destruct (decide (j = 3)) as [->|J3]; [rewrite Hs3; close_bit 3|].
  destruct (decide (j = 8)) as [->|J8]; [cbn; apply andb_false_r|].
  destruct (decide (j = 10)) as [->|J10]; [rewrite N10; close_bit 10|].
  rewrite S4, Hf0, pstate_bit by (done || lia).
  by rewrite !(proj2 (Z.eqb_neq j _)) by done.
Qed.

(** Under CONFIG_WP_ALWAYS the persistent state is read as protected now where it
    should be read as protected at boot. *)
Lemma wp_always_reports f :
  CONFIG_WP_ALWAYS = true -> at_boot f = false ->
  Z.testbit (crec_flash_get_protect f) 1 = true /\ Z.testbit (crec_flash_get_protect f) 0 = false.
Proof.
  intros Hw Hb. rewrite !get_protect_bits by done. cbn [Z.eqb Pos.eqb andb orb]. rewrite Hb. split; [|done].
  unfold now. cut (flash_read_pstate f = BIT 1); [by intros ->|].
  revert Hb. unfold at_boot, flash_read_pstate. case_match; [done|]. by rewrite Hw.
Qed.

(** ** Resets

    A reset clears the protection registers and the variables, and starts with
    a supply of its own; the driver's initialisation follows. *)

Definition reset (p : option nat) (f : flash) : flash :=
  Flash (mem f) (replicate (Z.to_nat PHYSICAL_BANKS) 0) (wp_gpio f) p
    (Hcmd EC_RES_SUCCESS (0, 0) false 0 0 EC_RES_SUCCESS false).
Definition boot (p : option nat) (f : flash) : flash := (crec_flash_pre_init (reset p f)).1.

Definition want (mask flags : Z) (b : bool) : bool := if Z.testbit mask 0 then Z.testbit flags 0 else b.

Lemma Z_of_bool_bit b j : Z.testbit (Z_of_bool b) j = (j =? 0) && b.
Proof.
  destruct b; cbn [Z_of_bool]; [|by rewrite Z.bits_0, andb_false_r].
  change 1 with (BIT 0). by rewrite testbit_BIT, andb_true_r.
Qed.

Lemma old_at_boot f :
  Z.land (crec_flash_get_protect f)
    (Z.lor (Z.lor (Z.lor EC_FLASH_PROTECT_RO_AT_BOOT EC_FLASH_PROTECT_RW_AT_BOOT)
              EC_FLASH_PROTECT_ROLLBACK_AT_BOOT) EC_FLASH_PROTECT_ALL_AT_BOOT) = Z_of_bool (at_boot f).
Proof.
  apply Z.bits_inj'. intros j Hj. rewrite Z.land_spec, !Z.lor_spec, get_protect_bits, Z_of_bool_bit by done.
  unfold EC_FLASH_PROTECT_RO_AT_BOOT, EC_FLASH_PROTECT_RW_AT_BOOT, EC_FLASH_PROTECT_ROLLBACK_AT_BOOT,
    EC_FLASH_PROTECT_ALL_AT_BOOT. rewrite !testbit_BIT by done.
  destruct (decide (j = 0)) as [->|J0]; [cbn; by rewrite !orb_false_r, andb_true_r|].
  destruct (decide (j = 6)) as [->|J6]; [done|]. destruct (decide (j = 7)) as [->|J7]; [done|].
  destruct (decide (j = 9)) as [->|J9]; [done|].
  rewrite (proj2 (Z.eqb_neq j 0)), (proj2 (Z.eqb_neq j 6)), (proj2 (Z.eqb_neq j 7)), (proj2 (Z.eqb_neq j 9)) by done.
  apply andb_false_r.
Qed.

Lemma at_boot_clears_spec mask flags b :
  at_boot_clears mask (Z.land flags mask) (Z_of_bool b) = Z_of_bool (want mask flags b).
Proof.
  assert (Hc : forall (c : bool) x y j, Z.testbit (if c then x else y) j = if c then Z.testbit x j else Z.testbit y j)
    by (by intros []).
  apply Z.bits_inj'. intros j Hj. unfold at_boot_clears, want.
  unfold EC_FLASH_PROTECT_RO_AT_BOOT, EC_FLASH_PROTECT_ROLLBACK_AT_BOOT, EC_FLASH_PROTECT_ALL_AT_BOOT.
  repeat rewrite ?Hc, ?Z.land_spec, ?Z.lor_spec, ?Z.lnot_spec, ?testbit_BIT, ?Z_of_bool_bit by done.
  destruct (Z.eqb_spec j 0) as [->|J0].
  - cbn [Z.eqb andb negb orb]. rewrite !andb_true_r, ?andb_false_r.
    destruct (Z.testbit mask 0), (Z.testbit flags 0), b; cbn; repeat case_match; done.
  - cbn [andb]. rewrite !andb_false_r. cbn [orb]. repeat case_match; done.
Qed.

Lemma gpio_and_boot f :
  bool_of_Z (Z.land (Z.lnot (crec_flash_get_protect f))
    (Z.lor EC_FLASH_PROTECT_GPIO_ASSERTED EC_FLASH_PROTECT_RO_AT_BOOT)) = negb (wp_gpio f && at_boot f).
Proof.
  rewrite land_lor_any. unfold EC_FLASH_PROTECT_GPIO_ASSERTED, EC_FLASH_PROTECT_RO_AT_BOOT.
  rewrite !has_bit, !Z.lnot_spec, !get_protect_bits by done. cbn [Z.eqb Pos.eqb andb orb].
  rewrite !orb_false_r. by rewrite negb_andb.
Qed.

Lemma reset_wf p f : wf f -> wf (reset p f).
Proof.
  intros Hf. pose proof wp_banks_range.
  constructor; cbn [reset mem protect]; [apply Hf|rewrite length_replicate; lia].
Qed.
Lemma at_boot_mem f g : pstate f = pstate g -> at_boot f = at_boot g.
Proof. intros E. unfold at_boot, flash_read_pstate. by rewrite E. Qed.
Lemma at_boot_read f : at_boot f = true -> flash_read_pstate f = BIT 0.
Proof. unfold at_boot. intros Hb. by destruct (read_pstate_cases f) as [E|[E|[E _]]]; rewrite E in Hb. Qed.

Lemma locked_reset p f b : 0 <= b < PHYSICAL_BANKS -> locked (reset p f) b = false.
Proof.
  intros Hb. unfold locked, aget. cbn [reset protect]. rewrite list_lookup_total_alt.
  by rewrite lookup_replicate_2 by lia.
Qed.

(** Requesting protection now, when it is on at boot and the pin is asserted. *)
Lemma set_protect_now f :
  wp_gpio f = true -> at_boot f = true ->
  crec_flash_set_protect EC_FLASH_PROTECT_RO_NOW EC_FLASH_PROTECT_RO_NOW f =
  (with_protect (bfill (protect f) 0 1 WP_BANK_COUNT) f, Done EC_SUCCESS).
Proof.
  intros Hg Hb. unfold crec_flash_set_protect, bind, gets, id. rewrite old_at_boot, at_boot_clears_spec.
  change (want EC_FLASH_PROTECT_RO_NOW EC_FLASH_PROTECT_RO_NOW (at_boot f)) with (at_boot f).
  unfold commit_at_boot at 1. rewrite Z.eqb_refl. cbn [negb]. unfold ret at 1.
  rewrite gpio_and_boot, Hg, Hb. cbn [andb negb].
  unfold commit_at_boot. replace (_ =? _) with true by (by destruct CONFIG_ROLLBACK).
  reflexivity.
Qed.

(** At boot the protected storage is locked before anything else runs. *)
Lemma boot_locks p f :
  wf f -> wp_gpio f = true -> at_boot f = true ->
  boot p f = with_protect (bfill (protect (reset p f)) 0 1 WP_BANK_COUNT) (reset p f).
Proof.
  intros Hf Hg Hb. unfold boot, crec_flash_pre_init, bind, gets, id.
  assert (Hb' : at_boot (reset p f) = true) by (rewrite <- Hb; by apply at_boot_mem).
  unfold EC_FLASH_PROTECT_GPIO_ASSERTED, EC_FLASH_PROTECT_RO_AT_BOOT.
  change (crec_flash_set_protect (BIT 1) (BIT 1)) with (crec_flash_set_protect EC_FLASH_PROTECT_RO_NOW EC_FLASH_PROTECT_RO_NOW).
  rewrite !has_bit by done. change EC_FLASH_PROTECT_RO_NOW with (BIT 1) at 1. rewrite has_bit, !get_protect_bits by done.
  cbn [Z.eqb Pos.eqb andb orb]. rewrite !orb_false_r, Hb'. change (wp_gpio (reset p f)) with (wp_gpio f). rewrite Hg.
  assert (Hn : now (reset p f) FLASH_REGION_RO = false).
  { unfold now. rewrite at_boot_read by done. cbn [region_bit]. rewrite testbit_BIT by done. cbn [Z.eqb orb].
    apply not_true_is_false. intros (i & Hi & Hl)%existsb_exists. apply list_elem_of_In, elem_of_seqZ in Hi.
    rewrite locked_reset in Hl by lia. by rewrite andb_false_r in Hl. }
  rewrite Hn. cbn [andb negb]. by rewrite set_protect_now.
Qed.

(** ** Write protection

    The invariant: the pin is asserted, protection at boot is on, the banks
    of the protected storage are locked, and its contents are [old]. *)
Record guarded (old : list Z) (f : flash) : Prop := {
  guarded_wf : wf f;
  guarded_gpio : wp_gpio f = true;
  guarded_boot : at_boot f = true;
  guarded_locked : forall b, 0 <= b < WP_BANK_COUNT -> locked f b = true;
  guarded_mem : slice (mem f) 0 CONFIG_WP_STORAGE_SIZE = old;
}.

Lemma wp_bank i : 0 <= i < CONFIG_WP_STORAGE_SIZE -> 0 <= i / CONFIG_FLASH_BANK_SIZE < WP_BANK_COUNT.
Proof.
  intros Hi. pose proof bank_pos. split; [apply Z.div_pos; lia|]. apply Z.div_lt_upper_bound; [done|].
  unfold WP_BANK_COUNT. destruct wp_banks as [n E]. rewrite E in *. rewrite Z.div_mul by lia. lia.
Qed.
Lemma pstate_slice f : pstate f = slice (slice (mem f) 0 CONFIG_WP_STORAGE_SIZE) CONFIG_FW_PSTATE_OFF sizeof_persist_state.
Proof.
  pose proof pstate_fits. pose proof pstate_wp. pose proof pstate_off. pose proof sizeof_pos.
  unfold pstate. by rewrite slice_slice by lia.
Qed.

Lemma guarded_keep old f g : guarded old f -> kept f g -> guarded old g.
Proof.
  intros [Hf Hg Hb Hl Hm] [K1 K2 K3 K4].
  assert (Hs : slice (mem g) 0 CONFIG_WP_STORAGE_SIZE = old).
  { rewrite <- Hm. apply list_eq. intros i. destruct (decide (Z.of_nat i < CONFIG_WP_STORAGE_SIZE)).
    - rewrite !lookup_slice by lia. rewrite <- (Nat2Z.id i) at 1 2. cbn [Z.to_nat Nat.add].
      apply K4; [lia|]. apply Hl, wp_bank. lia.
    - by rewrite !slice_none by lia. }
  constructor; [done|by rewrite K2| |intros; apply K3; [lia|auto]|done].
  rewrite <- Hb. apply at_boot_mem. by rewrite !pstate_slice, Hs, Hm.
Qed.

Lemma guarded_boot_step old f p :
  wf f -> wp_gpio f = true -> at_boot f = true -> slice (mem f) 0 CONFIG_WP_STORAGE_SIZE = old ->
  guarded old (boot p f).
Proof.
  intros Hf Hg Hb Hm. rewrite boot_locks by done. pose proof (reset_wf p f Hf) as Hr.
  pose proof wp_banks_range. pose proof (wf_protect _ Hr).
  constructor; cbn [mem with_protect wp_gpio reset]; try done.
  - constructor; cbn [mem protect with_protect]; [apply Hf|]. rewrite length_bfill by lia. done.
  - intros b Hlt. unfold locked. cbn [protect with_protect]. rewrite aget_bfill by lia.
    by rewrite (proj2 (Z.ltb_lt b _)) by lia.
Qed.

(** ** Writing the persistent state

    With a steady supply and no injected fault. *)
Section Steady.
Hypothesis no_fault : forall f, flash_pre_op f = EC_SUCCESS.

Lemma bind_success (m : M unit) f g e : (m ;! ret EC_SUCCESS) f = (g, Done e) -> e = EC_SUCCESS.
Proof. unfold bind, ret. by destruct (m f) as [h [[]| |]]; intros [= _ <-]. Qed.

Lemma erase_done f off size :
  wf f -> power f = None -> (CONFIG_FLASH_ERASE_SIZE | size) ->
  0 <= off -> 0 < size -> off + size <= CONFIG_FLASH_SIZE_BYTES -> unlocked f off size ->
  crec_flash_physical_erase off size f =
    (with_mem (bcopy (mem f) off (replicate (Z.to_nat size) 0xff) size) f, Done EC_SUCCESS).
Proof.
  intros Hf Hp Hs Ho Hz Hr Hu. pose proof (wf_mem f Hf).
  apply (physical_done _ _ _ _ _ _ (physical_erase_ok f off size Hs Ho ltac:(lia) ltac:(lia)) Hp); [|apply erase_pos|lia].
  intros e. unfold crec_flash_physical_erase, bind at 1, assert. destruct (_ =? _); [|done].
  unfold bind at 1, gets, id. rewrite no_fault, bool_decide_true by done. cbn [negb].
  rewrite unlocked_check_protect by done. apply bind_success.
Qed.
Lemma write_done f off size data :
  wf f -> power f = None -> (CONFIG_FLASH_WRITE_SIZE | size) ->
  0 <= off -> 0 < size -> off + size <= CONFIG_FLASH_SIZE_BYTES -> size <= Z.of_nat (length data) ->
  unlocked f off size ->
  crec_flash_physical_write off size data f = (with_mem (bcopy (mem f) off data size) f, Done EC_SUCCESS).
Proof.
  intros Hf Hp Hs Ho Hz Hr Hd Hu. pose proof (wf_mem f Hf).
  apply (physical_done _ _ _ _ _ _ (physical_write_ok f off size data Hs Ho ltac:(lia) ltac:(lia) Hd) Hp); [|apply write_pos|lia].
  intros e. unfold crec_flash_physical_write, bind at 1, assert. destruct (_ =? _); [|done].
  unfold bind at 1, gets, id. rewrite no_fault, bool_decide_true by done. cbn [negb].
  rewrite unlocked_check_protect by done. apply bind_success.
Qed.

(** Only the bank of the persistent state differs. *)
Definition outside_same (f g : flash) : Prop :=
  wf g /\ protect g = protect f /\ wp_gpio g = wp_gpio f /\ power g = power f /\ hc g = hc f /\
  forall i, ~ (CONFIG_FW_PSTATE_OFF <= Z.of_nat i < CONFIG_FW_PSTATE_OFF + CONFIG_FW_PSTATE_SIZE) ->
    mem g !! i = mem f !! i.

Lemma outside_refl f : wf f -> outside_same f f.
Proof. done. Qed.

Lemma pstate_unlocked f n :
  locked f PSTATE_BANK = false -> n <= CONFIG_FW_PSTATE_SIZE -> unlocked f CONFIG_FW_PSTATE_OFF n.
Proof.
  intros Hl Hn i Hi. rewrite <- Hl. f_equal. unfold PSTATE_BANK. pose proof pstate_size. pose proof bank_pos.
  destruct pstate_bank as [b Eb]. rewrite Eb in *. rewrite Z.div_mul by lia.
  symmetry. apply Z.div_unique with (i - b * CONFIG_FLASH_BANK_SIZE); lia.
Qed.

Lemma write_pstate_data_done f p :
  wf f -> power f = None -> locked f PSTATE_BANK = false -> Z.of_nat (length p) = sizeof_persist_state ->
  exists g, flash_write_pstate_data p f = (g, Done EC_SUCCESS) /\ outside_same f g /\ pstate g = p.
Proof.
  intros Hf Hp Hl Hlen. pose proof sizeof_pos. pose proof pstate_fits. pose proof pstate_wp. pose proof wp_size.
  pose proof pstate_off. pose proof bank_pos. pose proof pstate_size. pose proof (wf_mem f Hf).
  unfold flash_write_pstate_data. unfold bind.
  rewrite erase_done; try done; try lia; [|rewrite pstate_size; apply erase_bank|by apply pstate_unlocked].
  rewrite bool_decide_true by done. cbn [negb].
  set (m1 := bcopy (mem f) _ _ _). assert (Hm1 : length m1 = length (mem f)) by (apply length_bcopy; rewrite ?length_replicate; lia).
  assert (Hw : wf (with_mem m1 f)) by (constructor; cbn [mem protect with_mem]; [lia|apply Hf]).
  rewrite write_done; try done; try lia; [| |by apply pstate_unlocked].
  2:{ unfold sizeof_persist_state. apply Z.divide_factor_l. }
  eexists. split; [done|]. unfold outside_same. split_and!; try done.
  - constructor; cbn [mem protect with_mem]; [rewrite length_bcopy by lia; lia|apply Hf].
  - intros i Hi. cbn [mem with_mem]. rewrite lookup_bcopy, decide_False by lia.
    unfold m1. rewrite lookup_bcopy, decide_False by (rewrite ?length_replicate; lia). done.
  - unfold pstate. cbn [mem with_mem]. rewrite slice_bcopy_same by lia. apply take_ge. lia.
Qed.

(** ** Requests *)

(** The state read differs from the one wanted when protection at boot does
    (under CONFIG_WP_ALWAYS also when both say "not at boot"). *)
Lemma read_pstate_changed b f :
  b <> at_boot f \/ at_boot f = true -> (flash_read_pstate f =? Z_of_bool b) = eqb (at_boot f) b.
Proof.
  unfold at_boot. destruct (read_pstate_cases f) as [->|[->|[-> _]]]; destruct b; cbn; intros [?|?]; (done || congruence).
Qed.
Lemma at_boot_bytes f :
  at_boot f = (aget (pstate f) VERSION =? PERSIST_STATE_VERSION) && Z.testbit (aget (pstate f) VALID_FIELDS) 0 &&
              Z.testbit (aget (pstate f) FLAGS) 1.
Proof.
  unfold at_boot, flash_read_pstate.
  change PSTATE_VALID_FLAGS with (BIT 0). change PERSIST_FLAG_PROTECT_RO with (BIT 1). rewrite !has_bit by done.
  repeat destruct (_ && _); try done; by destruct CONFIG_WP_ALWAYS.
Qed.

Lemma validate_version p :
  Z.of_nat (length p) = sizeof_persist_state -> aget (validate_pstate_struct p) VERSION = PERSIST_STATE_VERSION.
Proof.
  intros Hp. pose proof sizeof_pos. unfold validate_pstate_struct.
  destruct (Z.eqb_spec (aget p VERSION) PERSIST_STATE_VERSION) as [E|E]; [done|]. cbn [negb].
  rewrite aget_aset; unfold VERSION; rewrite ?length_replicate; try lia. done.
Qed.

(** The structure that sets or clears protection at boot. *)
Definition protect_pstate (b : bool) (p : list Z) : list Z :=
  let p := validate_pstate_struct p in
  add_valid_fields PSTATE_VALID_FLAGS
    (aset p FLAGS (if b then Z.lor (aget p FLAGS) PERSIST_FLAG_PROTECT_RO
                   else u8 (Z.land (aget p FLAGS) (Z.lnot PERSIST_FLAG_PROTECT_RO)))).

Lemma length_protect_pstate b p :
  Z.of_nat (length p) = sizeof_persist_state -> Z.of_nat (length (protect_pstate b p)) = sizeof_persist_state.
Proof. intros Hp. unfold protect_pstate. rewrite length_add_valid_fields, length_aset. by apply length_validate. Qed.

Lemma protect_pstate_at_boot b p f :
  Z.of_nat (length p) = sizeof_persist_state -> pstate f = protect_pstate b p -> at_boot f = b.
Proof.
  intros Hp E. pose proof sizeof_pos. pose proof (length_validate p Hp) as Hv.
  rewrite at_boot_bytes, E. unfold protect_pstate, add_valid_fields.
  rewrite !aget_aset by (unfold VALID_FIELDS, FLAGS, VERSION; rewrite ?length_aset; lia).
  change (VERSION =? VALID_FIELDS) with false. change (VERSION =? FLAGS) with false.
  change (VALID_FIELDS =? VALID_FIELDS) with true. change (VALID_FIELDS =? FLAGS) with false.
  change (FLAGS =? VALID_FIELDS) with false. change (FLAGS =? FLAGS) with true. cbv iota.
  rewrite validate_version by done. rewrite Z.lor_spec. change (Z.testbit PSTATE_VALID_FLAGS 0) with true.
  rewrite orb_true_r. cbn [andb]. rewrite Z.eqb_refl. cbn [andb].
  destruct b; [by rewrite Z.lor_spec, orb_true_r|].
  unfold wrap. rewrite Z.mod_pow2_bits_low, Z.land_spec by lia. apply andb_false_r.
Qed.

Lemma write_pstate_eq b f :
  b <> at_boot f -> flash_write_pstate (Z_of_bool b) f = flash_write_pstate_data (protect_pstate b (pstate f)) f.
Proof.
  intros Hb. unfold flash_write_pstate, bind, gets, id.
  replace (Z.land (Z_of_bool b) EC_FLASH_PROTECT_RO_AT_BOOT) with (Z_of_bool b) by (by destruct b).
  rewrite Z.eqb_sym, read_pstate_changed by auto. by destruct b, (at_boot f).
Qed.

Lemma protect_at_boot_done f x b :
  wf f -> power f = None -> Z.testbit x 0 = b -> b <> at_boot f \/ at_boot f = true ->
  exists g rv, crec_flash_protect_at_boot x f = (g, Done rv) /\ outside_same f g /\
    rv = (if negb (eqb b (at_boot f)) && locked f PSTATE_BANK then EC_ERROR_ACCESS_DENIED else EC_SUCCESS) /\
    at_boot g = (if locked f PSTATE_BANK then at_boot f else b).
Proof.
  intros Hf Hp Hx Hch. unfold crec_flash_protect_at_boot, bind, gets, id.
  assert (E : Z.land x EC_FLASH_PROTECT_RO_AT_BOOT = Z_of_bool b).
  { apply Z.bits_inj'. intros j Hj. unfold EC_FLASH_PROTECT_RO_AT_BOOT.
    rewrite Z.land_spec, testbit_BIT, Z_of_bool_bit by done.
    destruct (Z.eqb_spec j 0) as [->|]; [by rewrite Hx, andb_true_r|apply andb_false_r]. }
  rewrite E, read_pstate_changed by done. change (bool_of_Z (crec_flash_physical_get_protect PSTATE_BANK f)) with (locked f PSTATE_BANK).
  destruct (decide (b = at_boot f)) as [Eb|Eb].
  { rewrite Eb, eqb_reflx. exists f, EC_SUCCESS. cbn. split_and!; try done. by destruct (locked f _). }
  replace (eqb (at_boot f) b) with false by (by destruct b, (at_boot f)).
  replace (eqb b (at_boot f)) with false by (by destruct b, (at_boot f)). cbn [negb andb].
  destruct (locked f PSTATE_BANK) eqn:El; [by exists f, EC_ERROR_ACCESS_DENIED|].
  rewrite write_pstate_eq by done. pose proof (length_pstate f Hf) as Hl.
  destruct (write_pstate_data_done f (protect_pstate b (pstate f)) Hf Hp El (length_protect_pstate b _ Hl)) as (g & Eg & Ho & Hg).
  exists g, EC_SUCCESS. split_and!; try done. by eapply protect_pstate_at_boot.
Qed.

Lemma outside_trans f g h : outside_same f g -> outside_same g h -> outside_same f h.
Proof.
  intros (A1 & A2 & A3 & A4 & A5 & A6) (B1 & B2 & B3 & B4 & B5 & B6).
  unfold outside_same. split_and!; try congruence. intros i Hi. by rewrite B6, A6.
Qed.
Lemma outside_locked f g b : outside_same f g -> locked g b = locked f b.
Proof. intros (_ & E & _). unfold locked. by rewrite E. Qed.

(** What the request does to protection at boot, and how it is answered. *)
Definition blocked (f : flash) : bool := locked f PSTATE_BANK.
Definition answer (b : bool) (f : flash) : ec_error :=
  if negb (eqb b (at_boot f)) && blocked f then EC_ERROR_ACCESS_DENIED else EC_SUCCESS.
Definition at_boot_after (b : bool) (f : flash) : bool := if blocked f then at_boot f else b.

Lemma commit_done f old new r b :
  wf f -> power f = None -> Z.testbit new 0 = b ->
  (new = old -> at_boot_after b f = at_boot f) ->
  (new <> old -> b <> at_boot f \/ at_boot f = true) ->
  exists g, commit_at_boot old new r f = (g, Done (if bool_decide (new = old) then r else if bool_decide (answer b f = EC_SUCCESS) then r else answer b f)) /\
    outside_same f g /\ at_boot g = at_boot_after b f.
Proof.
  intros Hf Hp Hb Hsame Hch. unfold commit_at_boot.
  destruct (Z.eqb_spec new old) as [E|E]; cbn [negb].
  - rewrite bool_decide_true by done. exists f. split_and!; [done|done|]. by rewrite Hsame.
  - rewrite bool_decide_false by done.
    destruct (protect_at_boot_done f new b Hf Hp Hb (Hch E)) as (g & rv & Eg & Ho & Hr & Hg).
    exists g. unfold bind. rewrite Eg. unfold ret. fold (blocked f) in Hr. fold (answer b f) in Hr.
    fold (blocked f) in Hg. fold (at_boot_after b f) in Hg.
    split_and!; [|done|done]. rewrite Hr. by destruct (bool_decide (answer b f = EC_SUCCESS)).
Qed.

Lemma commit_now_done f bit fl all r :
  wf f -> 0 <= bit ->
  exists g, commit_now (BIT bit) fl all r f = (g, Done r) /\ wf g /\ mem g = mem f /\ wp_gpio g = wp_gpio f /\
    forall i, 0 <= i < PHYSICAL_BANKS ->
      locked g i = locked f i || (Z.testbit fl bit && (all || (i <? WP_BANK_COUNT))).
Proof.
  intros Hf Hbit. unfold commit_now. rewrite has_bit by done.
  destruct (Z.testbit fl bit); cbn [andb].
  - pose proof wp_banks_range. pose proof (wf_protect f Hf).
    eexists. split; [reflexivity|]. split_and!; try done.
    + constructor; cbn [mem protect with_protect]; [apply Hf|]. rewrite length_bfill by (destruct all; lia). done.
    + intros i Hi. unfold locked. cbn [protect with_protect]. rewrite aget_bfill by (destruct all; lia).
      destruct all; cbn [orb]; [rewrite (proj2 (Z.ltb_lt i _)) by lia; by rewrite orb_true_r|].
      destruct (i <? WP_BANK_COUNT); [by rewrite orb_true_r|by rewrite orb_false_r].
  - exists f. split_and!; try done. intros i _. by rewrite orb_false_r.
Qed.

Lemma set_protect_spec mask flags f :
  wf f -> power f = None ->
  let b := want mask flags (at_boot f) in
  let fl := Z.land flags mask in
  exists g, crec_flash_set_protect mask flags f = (g, Done (answer b f)) /\ wf g /\
    at_boot g = at_boot_after b f /\
    (forall i, ~ (CONFIG_FW_PSTATE_OFF <= Z.of_nat i < CONFIG_FW_PSTATE_OFF + CONFIG_FW_PSTATE_SIZE) ->
       mem g !! i = mem f !! i) /\
    (forall i, 0 <= i < PHYSICAL_BANKS ->
       locked g i = locked f i ||
         (wp_gpio f && at_boot_after b f && (Z.testbit fl 1 && (i <? WP_BANK_COUNT) || Z.testbit fl 2))).
Proof.
  intros Hf Hp b fl. unfold crec_flash_set_protect, bind at 1, gets. cbv zeta.
  unfold id. rewrite old_at_boot. rewrite (at_boot_clears_spec mask flags (at_boot f)). fold b fl.
  destruct (commit_done f (Z_of_bool (at_boot f)) (Z_of_bool b) EC_SUCCESS b Hf Hp) as (g & Eg & Ho & Hg).
  { by rewrite Z_of_bool_bit. }
  { intros E. unfold at_boot_after. destruct b, (at_boot f), (blocked f); done. }
  { intros E. destruct b, (at_boot f); auto. }
  assert (Ha : (if bool_decide (Z_of_bool b = Z_of_bool (at_boot f)) then EC_SUCCESS
                else if bool_decide (answer b f = EC_SUCCESS) then EC_SUCCESS else answer b f) = answer b f).
  { case_bool_decide as E.
    - unfold answer. destruct b, (at_boot f); try done.
    - case_bool_decide as E'; [by rewrite E'|done]. }
  rewrite Ha in Eg. unfold bind at 1. rewrite Eg. unfold bind at 1.
  rewrite gpio_and_boot, Hg. pose proof Ho as (Hwg & Hpr & Hgp & Hpw & _ & Hmem). rewrite Hgp.
  destruct (wp_gpio f && at_boot_after b f) eqn:Ecase; cbn [negb].
  2:{ exists g. split_and!; try done. intros i Hi. cbn [andb]. rewrite orb_false_r. by apply outside_locked. }
  set (new2 := if CONFIG_ROLLBACK then _ else _).
  assert (Hn2 : Z.testbit new2 0 = b).
  { unfold new2. unfold EC_FLASH_PROTECT_ALL_AT_BOOT, EC_FLASH_PROTECT_ROLLBACK_AT_BOOT.
    destruct CONFIG_ROLLBACK; rewrite !Z.lor_spec, !Z.land_spec, Z_of_bool_bit, !testbit_BIT by done;
      cbn [Z.eqb andb]; by rewrite !andb_false_r, ?orb_false_r. }
  assert (Hblk : blocked g = blocked f) by (by apply outside_locked).
  assert (Hafter : at_boot_after b g = at_boot_after b f).
  { unfold at_boot_after at 1. rewrite Hblk, Hg. unfold at_boot_after. by destruct (blocked f). }
  destruct (commit_done g (Z_of_bool b) new2 (answer b f) b Hwg ltac:(congruence) Hn2) as (h & Eh & Hoh & Hbh);
    [congruence|intros _; right; rewrite Hg; by apply andb_prop in Ecase as [_ ?]|].
  rewrite Hafter in Hbh.
  assert (Hans : (if bool_decide (new2 = Z_of_bool b) then answer b f
                  else if bool_decide (answer b g = EC_SUCCESS) then answer b f else answer b g) = answer b f).
  { case_bool_decide; [done|]. case_bool_decide as E'; [done|].
    unfold answer in *. rewrite Hblk, Hg in *. unfold at_boot_after in *. destruct (blocked f); [done|].
    by rewrite andb_false_r in E'. }
  rewrite Hans in Eh. unfold bind at 1. rewrite Eh. unfold bind.
  destruct (commit_now_done h 1 fl false (answer b f) (proj1 Hoh) ltac:(lia)) as (k & Ek & Hwk & Hmk & Hgk & Hlk).
  change EC_FLASH_PROTECT_RO_NOW with (BIT 1). rewrite Ek.
  destruct (commit_now_done k 2 fl true (answer b f) Hwk ltac:(lia)) as (l & El & Hwl & Hml & Hgl & Hll).
  change EC_FLASH_PROTECT_ALL_NOW with (BIT 2).
  exists l. split_and!; [done|done| | |].
  - rewrite <- Hbh. apply at_boot_mem. unfold pstate. congruence.
  - intros i Hi. rewrite Hml, Hmk. pose proof (outside_trans _ _ _ Ho Hoh) as (_ & _ & _ & _ & _ & Hm). by apply Hm.
  - intros i Hi. rewrite Hll, Hlk by done. rewrite (outside_locked _ _ _ Hoh), (outside_locked _ _ _ Ho).
    cbn [orb andb]. rewrite andb_true_r. by rewrite orb_assoc.
Qed.

(** ** Fields of the persistent state *)

Definition read_list (bit off len : Z) (p : list Z) : option (list Z) :=
  if (aget p VERSION =? PERSIST_STATE_VERSION) && Z.testbit (aget p VALID_FIELDS) bit
  then Some (slice p off len) else None.
Definition at_boot_list (p : list Z) : bool :=
  (aget p VERSION =? PERSIST_STATE_VERSION) && Z.testbit (aget p VALID_FIELDS) 0 && Z.testbit (aget p FLAGS) 1.

Lemma read_field_list bit off len f :
  0 <= bit -> read_pstate_field (BIT bit) off len f = read_list bit off len (pstate f).
Proof. intros. unfold read_pstate_field. by rewrite has_bit. Qed.

(** [q] is [p] with [data] in the field at [off]. *)
Definition stored (p q : list Z) (off len : Z) (data : list Z) : Prop :=
  length q = length p /\ slice q off len = data /\
  forall i, 0 <= Z.of_nat i -> ~ (off <= Z.of_nat i < off + len) -> q !! i = p !! i.

Lemma stored_aget p q off len data i : stored p q off len data -> 0 <= i < off -> aget q i = aget p i.
Proof.
  intros (_ & _ & Ho) Hi. unfold aget. rewrite !list_lookup_total_alt. f_equal. apply Ho; lia.
Qed.
Lemma stored_slice p q off len data off' len' :
  stored p q off len data -> 0 <= off' -> off' + len' <= off \/ off + len <= off' ->
  slice q off' len' = slice p off' len'.
Proof.
  intros (_ & _ & Ho) H0' Hd. apply list_eq. intros i. destruct (decide (Z.of_nat i < len')).
  - rewrite !lookup_slice by lia. apply Ho; lia.
  - by rewrite !slice_none by lia.
Qed.
Lemma slice_add_valid v p off len :
  3 <= off -> slice (add_valid_fields v p) off len = slice p off len.
Proof.
  intros. unfold add_valid_fields, aset, VALID_FIELDS. apply list_eq. intros i.
  destruct (decide (Z.of_nat i < len)); [|by rewrite !slice_none by lia].
  rewrite !lookup_slice by lia. apply list_lookup_insert_ne. lia.
Qed.
Lemma aget_add_valid v p i :
  4 <= Z.of_nat (length p) -> 0 <= i < 3 ->
  aget (add_valid_fields v p) i = if i =? 2 then Z.lor (aget p 2) v else aget p i.
Proof. intros. unfold add_valid_fields, VALID_FIELDS. by rewrite aget_aset by lia. Qed.

Section Field.
Context (p q data : list Z) (off len bit : Z).
Hypothesis Hp : Z.of_nat (length p) = sizeof_persist_state.
Hypothesis Hst : stored (validate_pstate_struct p) q off len data.
Hypothesis Hoff : 4 <= off.
Hypothesis Hbit : 0 < bit.

Lemma stored_len : 4 <= Z.of_nat (length q).
Proof. pose proof sizeof_pos. destruct Hst as [-> _]. rewrite length_validate; [lia|done]. Qed.
Lemma stored_version : aget (add_valid_fields (BIT bit) q) VERSION = PERSIST_STATE_VERSION.
Proof.
  rewrite aget_add_valid by (apply stored_len || (unfold VERSION; lia)). change (VERSION =? 2) with false. cbv iota.
  erewrite stored_aget by (done || (unfold VERSION; lia)). by apply validate_version.
Qed.
Lemma stored_valid j :
  0 <= j -> Z.testbit (aget (add_valid_fields (BIT bit) q) VALID_FIELDS) j =
    Z.testbit (aget (validate_pstate_struct p) VALID_FIELDS) j || (j =? bit).
Proof.
  intros Hj. rewrite aget_add_valid by (apply stored_len || (unfold VALID_FIELDS; lia)). change (VALID_FIELDS =? 2) with true. cbv iota.
  rewrite Z.lor_spec, testbit_BIT by lia. do 2 f_equal.
  erewrite stored_aget by (done || lia). done.
Qed.

(** The field reads back. *)
Lemma field_read : read_list bit off len (add_valid_fields (BIT bit) q) = Some data.
Proof.
  unfold read_list. rewrite stored_version, Z.eqb_refl, stored_valid, Z.eqb_refl, orb_true_r by lia. cbn [andb].
  rewrite slice_add_valid by lia. by destruct Hst as (_ & -> & _).
Qed.

Lemma validate_cases :
  aget p VERSION = PERSIST_STATE_VERSION /\ validate_pstate_struct p = p \/
  aget p VERSION <> PERSIST_STATE_VERSION /\
  forall j, Z.testbit (aget (validate_pstate_struct p) VALID_FIELDS) j = false.
Proof.
  unfold validate_pstate_struct. destruct (Z.eqb_spec (aget p VERSION) PERSIST_STATE_VERSION) as [E|E]; [by left|].
  right. split; [done|]. intros j. cbn [negb]. pose proof sizeof_pos.
  rewrite aget_aset by (unfold VERSION, VALID_FIELDS; rewrite ?length_replicate; lia).
  change (VALID_FIELDS =? VERSION) with false. cbv iota. unfold aget.
  rewrite lookup_total_replicate_2 by (unfold VALID_FIELDS; lia). apply Z.bits_0.
Qed.

(** The other fields and the protection at boot are as they were. *)
Lemma field_other bit' off' len' :
  0 <= bit' -> bit' <> bit -> 4 <= off' -> off' + len' <= off \/ off + len <= off' ->
  read_list bit' off' len' (add_valid_fields (BIT bit) q) = read_list bit' off' len' p.
Proof.
  intros Hb Hne Ho Hd. unfold read_list. rewrite stored_version, Z.eqb_refl, stored_valid by lia.
  rewrite (proj2 (Z.eqb_neq bit' bit)), orb_false_r by done. cbn [andb].
  destruct validate_cases as [(Ev & E)|(Ev & E)].
  - rewrite Ev, Z.eqb_refl, E. cbn [andb]. rewrite slice_add_valid by lia.
    erewrite stored_slice by (done || lia). by rewrite E.
  - rewrite E, (proj2 (Z.eqb_neq _ _)) by done. done.
Qed.
Lemma field_at_boot : at_boot_list (add_valid_fields (BIT bit) q) = at_boot_list p.
Proof.
  unfold at_boot_list. rewrite stored_version, Z.eqb_refl, stored_valid by lia.
  rewrite (proj2 (Z.eqb_neq 0 bit)), orb_false_r by lia. cbn [andb].
  destruct validate_cases as [(Ev & E)|(Ev & E)].
  - rewrite Ev, Z.eqb_refl, E. cbn [andb]. f_equal. rewrite aget_add_valid by (apply stored_len || (unfold FLAGS; lia)).
    change (FLAGS =? 2) with false. cbv iota. erewrite stored_aget by (done || (unfold FLAGS; lia)). by rewrite E.
  - rewrite E, (proj2 (Z.eqb_neq _ _)) by done. done.
Qed.
End Field.

Lemma stored_copy p off src len :
  0 <= off -> 0 <= len -> off + len <= Z.of_nat (length p) -> len <= Z.of_nat (length src) ->
  stored p (bcopy p off src len) off len (take (Z.to_nat len) src).
Proof.
  intros. split_and!; [by apply length_bcopy|by apply slice_bcopy_same|].
  intros i Hi Ho. rewrite lookup_bcopy by lia. by rewrite decide_False by lia.
Qed.
Lemma stored_fill p off src n len :
  0 <= off -> 0 <= n <= len -> off + len <= Z.of_nat (length p) -> n <= Z.of_nat (length src) ->
  stored p (bcopy (bfill p off 0 len) off src n) off len (take (Z.to_nat n) src ++ replicate (Z.to_nat (len - n)) 0).
Proof.
  intros. assert (Hl : length (bfill p off 0 len) = length p) by (apply length_bfill; lia).
  split_and!; [rewrite length_bcopy by lia; done| |].
  - apply list_eq. intros i. destruct (decide (Z.of_nat i < len)) as [Hi|Hi].
    + rewrite lookup_slice, lookup_bcopy by lia. case_decide.
      * rewrite lookup_app_l by (rewrite length_take; lia). rewrite lookup_take_lt by lia. f_equal. lia.
      * rewrite lookup_app_r by (rewrite length_take; lia). unfold bfill.
        rewrite lookup_bcopy by (rewrite ?length_replicate; lia). rewrite decide_True by lia.
        rewrite !lookup_replicate_2 by (rewrite ?length_take; lia). done.
    + rewrite slice_none by lia. symmetry. apply lookup_ge_None_2.
      rewrite length_app, length_take, length_replicate. lia.
  - intros i Hi Ho. rewrite lookup_bcopy by lia. rewrite decide_False by lia.
    unfold bfill. rewrite lookup_bcopy by (rewrite ?length_replicate; lia). by rewrite decide_False by lia.
Qed.

(** Everything the persistent state says. *)
Definition reads (f : flash) : option (list Z) * option (list Z) * option (list Z) * bool :=
  (crec_flash_read_pstate_serial f, crec_flash_read_pstate_mac_addr f,
   crec_flash_read_pstate_poweron_conf f, at_boot f).
Definition reads_list (p : list Z) : option (list Z) * option (list Z) * option (list Z) * bool :=
  (read_list 1 SERIALNO CONFIG_SERIALNO_LEN p, read_list 2 MAC_ADDR CONFIG_MAC_ADDR_LEN p,
   read_list 3 POWERON_CONF CONFIG_POWERON_CONF_LEN p, at_boot_list p).

Lemma reads_pstate f : reads f = reads_list (pstate f).
Proof.
  unfold reads, reads_list, crec_flash_read_pstate_serial, crec_flash_read_pstate_mac_addr,
    crec_flash_read_pstate_poweron_conf.
  change PSTATE_VALID_SERIALNO with (BIT 1). change PSTATE_VALID_MAC_ADDR with (BIT 2).
  change PSTATE_VALID_POWERON_CONF with (BIT 3). rewrite !read_field_list by done. by rewrite at_boot_bytes.
Qed.

(** Writing a structure with one field stored: that field reads back, and the
    rest reads as before. *)
Lemma write_field_done f q off len data bit :
  wf f -> power f = None -> blocked f = false -> 
  stored (validate_pstate_struct (pstate f)) q off len data ->
  (bit, off, len) = (1, SERIALNO, CONFIG_SERIALNO_LEN) \/ (bit, off, len) = (2, MAC_ADDR, CONFIG_MAC_ADDR_LEN) \/
    (bit, off, len) = (3, POWERON_CONF, CONFIG_POWERON_CONF_LEN) ->
  exists g, flash_write_pstate_data (add_valid_fields (BIT bit) q) f = (g, Done EC_SUCCESS) /\ outside_same f g /\
    reads g = (if bit =? 1 then Some data else crec_flash_read_pstate_serial f,
               if bit =? 2 then Some data else crec_flash_read_pstate_mac_addr f,
               if bit =? 3 then Some data else crec_flash_read_pstate_poweron_conf f, at_boot f).
Proof.
  intros Hf Hp Hb Hst Hwhich. pose proof (length_pstate f Hf) as Hl. pose proof fields_nonneg.
  destruct (write_pstate_data_done f (add_valid_fields (BIT bit) q) Hf Hp Hb) as (g & Eg & Ho & Hg).
  { rewrite length_add_valid_fields. destruct Hst as [-> _]. by apply length_validate. }
  exists g. split_and!; [done|done|]. rewrite reads_pstate, Hg. pose proof (reads_pstate f) as Hr.
  unfold reads in Hr. unfold reads_list in *. injection Hr as -> -> -> ->.
  unfold POWERON_CONF, MAC_ADDR, SERIALNO in *.
  destruct Hwhich as [[= -> -> ->]|[[= -> -> ->]|[= -> -> ->]]]; cbn [Z.eqb Pos.eqb];
    (erewrite (field_at_boot _ _ _ _ _ _ Hl Hst) by lia);
    rewrite ?(field_read _ _ _ _ _ _ Hl Hst) by lia;
    rewrite !(field_other _ _ _ _ _ _ Hl Hst) by lia; reflexivity.
Qed.

(** C9. As long as the flash's erases and writes do not fail and the power stays
    on, a protection request is answered exactly, under CONFIG_WP_ALWAYS as
    well: protection at boot becomes what is asked for, unless that is a
    change and the bank of the persistent state is protected, which is refused;
    only that bank of the memory changes; and banks become protected exactly as
    asked for (the protected storage, or everything) when the pin is asserted
    and protection at boot is then on, never otherwise, and none becomes
    unprotected. *)
Theorem set_protect_correct mask flags f :
  wf f -> power f = None ->
  let wanted := if Z.testbit mask 0 then Z.testbit flags 0 else at_boot f in
  let refused := negb (eqb wanted (at_boot f)) && locked f PSTATE_BANK in
  exists g,
    crec_flash_set_protect mask flags f =
      (g, Done (if refused then EC_ERROR_ACCESS_DENIED else EC_SUCCESS)) /\
    at_boot g = (if refused then at_boot f else wanted) /\
    (forall i, ~ (CONFIG_FW_PSTATE_OFF <= Z.of_nat i < CONFIG_FW_PSTATE_OFF + CONFIG_FW_PSTATE_SIZE) ->
       mem g !! i = mem f !! i) /\
    (forall i, 0 <= i < PHYSICAL_BANKS ->
       locked g i = true <->
       locked f i = true \/
       wp_gpio f = true /\ at_boot g = true /\
         (Z.testbit mask 1 = true /\ Z.testbit flags 1 = true /\ i < WP_BANK_COUNT \/
          Z.testbit mask 2 = true /\ Z.testbit flags 2 = true)).
Proof.
  intros Hf Hp wanted refused. destruct (set_protect_spec mask flags f Hf Hp) as (g & E & Hw & Hb & Hm & Hl).
  assert (Ha : at_boot_after wanted f = (if refused then at_boot f else wanted)).
  { unfold at_boot_after, refused, blocked. destruct (locked f PSTATE_BANK), wanted, (at_boot f); done. }
  unfold want in *. fold wanted in E, Hb, Hl. rewrite Ha in *.
  exists g. split_and!; [done|done|done|]. intros i Hi. rewrite Hl by done.
  rewrite orb_true_iff, !andb_true_iff, orb_true_iff, andb_true_iff, !Z.land_spec, !andb_true_iff, Z.ltb_lt, Hb. tauto.
Qed.

(** The fields of the persistent state are independent: a serial number, a MAC
    address or a power-on configuration that is written reads back (padded
    with zeros), the other two and the protection at boot read as before, and
    no other bank changes. *)
Theorem pstate_roundtrip f :
  wf f -> power f = None -> locked f PSTATE_BANK = false ->
  let serial := crec_flash_read_pstate_serial f in
  let mac := crec_flash_read_pstate_mac_addr f in
  let conf := crec_flash_read_pstate_poweron_conf f in
  let padded s n len := take (Z.to_nat n) s ++ replicate (Z.to_nat (len - n)) 0 in
  (forall s, Str.strnlen s (Z.to_nat CONFIG_SERIALNO_LEN) < CONFIG_SERIALNO_LEN ->
     exists g, crec_flash_write_pstate_serial (Some s) f = (g, Done EC_SUCCESS) /\ outside_same f g /\
       reads g = (Some (padded s (Str.strnlen s (Z.to_nat CONFIG_SERIALNO_LEN)) CONFIG_SERIALNO_LEN), mac, conf, at_boot f)) /\
  (forall s, Str.strnlen s (Z.to_nat CONFIG_MAC_ADDR_LEN) = 17 -> (forall i, 0 <= i < 17 -> mac_char_ok i (aget s i) = true) ->
     exists g, crec_flash_write_pstate_mac_addr (Some s) f = (g, Done EC_SUCCESS) /\ outside_same f g /\
       reads g = (serial, Some (padded s 17 CONFIG_MAC_ADDR_LEN), conf, at_boot f)) /\
  (forall c, Z.of_nat (length c) = CONFIG_POWERON_CONF_LEN ->
     exists g, crec_flash_write_pstate_poweron_conf (Some c) f = (g, Done EC_SUCCESS) /\ outside_same f g /\
       reads g = (serial, mac, Some c, at_boot f)).
Proof.
  intros Hf Hp Hb serial mac conf padded. pose proof (length_validate _ (length_pstate f Hf)) as Hv.
  pose proof sizeof_pos. pose proof fields_nonneg. unfold POWERON_CONF, MAC_ADDR, SERIALNO in *.
  split_and!; intros s Hs.
  - destruct (strnlen_bounds s (Z.to_nat CONFIG_SERIALNO_LEN)).
    unfold crec_flash_write_pstate_serial. rewrite (proj2 (Z.leb_gt _ _)) by lia.
    destruct (write_field_done f _ SERIALNO CONFIG_SERIALNO_LEN _ 1 Hf Hp Hb
      ltac:(apply (stored_fill _ _ s (Str.strnlen s (Z.to_nat CONFIG_SERIALNO_LEN))); unfold SERIALNO; lia)
      ltac:(auto)) as (g & Eg & Ho & Hr). by exists g.
  - intros Hc. destruct (strnlen_bounds s (Z.to_nat CONFIG_MAC_ADDR_LEN)).
    unfold crec_flash_write_pstate_mac_addr. rewrite Hs, Z.eqb_refl. cbn [negb].
    replace (forallb _ (seqZ 0 17)) with true
      by (symmetry; apply forallb_forall; intros i Hi%list_elem_of_In%elem_of_seqZ; apply Hc; lia). cbn [negb].
    destruct (write_field_done f _ MAC_ADDR CONFIG_MAC_ADDR_LEN _ 2 Hf Hp Hb
      ltac:(apply (stored_fill _ _ s 17); unfold MAC_ADDR, SERIALNO; lia) ltac:(auto)) as (g & Eg & Ho & Hr). by exists g.
  - unfold crec_flash_write_pstate_poweron_conf.
    destruct (write_field_done f _ POWERON_CONF CONFIG_POWERON_CONF_LEN _ 3 Hf Hp Hb
      ltac:(apply (stored_copy _ _ s); unfold POWERON_CONF, MAC_ADDR, SERIALNO; lia) ltac:(auto)) as (g & Eg & Ho & Hr).
    exists g. split_and!; [done|done|]. rewrite Hr. cbn [Z.eqb Pos.eqb]. by rewrite take_ge by lia.
Qed.
End Steady.

(** ** What may happen to the flash *)

Inductive step : flash -> flash -> Prop :=
| step_write f off size data :
    size <= Z.of_nat (length data) -> step f (crec_flash_write off size data f).1
| step_erase f off size : step f (crec_flash_erase off size f).1
| step_serial f s : step f (crec_flash_write_pstate_serial s f).1
| step_mac f s : step f (crec_flash_write_pstate_mac_addr s f).1
| step_poweron f s :
    (forall d, s = Some d -> Z.of_nat (length d) = CONFIG_POWERON_CONF_LEN) ->
    step f (crec_flash_write_pstate_poweron_conf s f).1
| step_command_write f off size params_size data :
    is_u32 size -> params_size <= 8 + Z.of_nat (length data) ->
    step f (flash_command_write off size params_size data f).1
| step_command_erase f cmd off size : step f (flash_command_erase cmd off size f).1
| step_erase_deferred f : erase_call (hc f) = true -> step f (flash_erase_deferred f).1
| step_protect f mask flags : step f (flash_command_protect mask flags f).1
| step_protect_v2 f a mask flags : step f (flash_command_protect_v2 a mask flags f).1
| step_protect_deferred f : prot_call (hc f) = true -> step f (crec_flash_set_protect_deferred f).1
| step_reset f p : step f (boot p f).

Lemma guarded_step old f g : guarded old f -> step f g -> guarded old g.
Proof.
  intros Hi Hs. assert (Hf : wf f) by apply Hi.
  destruct Hs; [..|by apply guarded_boot_step; apply Hi]; (eapply guarded_keep; [done|]);
    [by apply keeps_write|by apply keeps_erase|by apply keeps_write_serial|by apply keeps_write_mac
    |by apply keeps_write_poweron|by apply keeps_command_write|by apply keeps_command_erase
    |by apply keeps_erase_deferred|by apply keeps_command_protect|by apply keeps_command_protect_v2
    |by apply keeps_set_protect_deferred].
Qed.

Lemma guarded_steps old f g : guarded old f -> rtc step f g -> guarded old g.
Proof. intros Hi Hs. revert Hi. induction Hs as [|x y z Hxy _ IH]; [done|]. intros Hi. by eapply IH, guarded_step. Qed.

Lemma bank_0_ro : 0 < WP_BANK_COUNT /\ bank_region 0 = FLASH_REGION_RO.
Proof.
  pose proof bank_pos. pose proof pstate_wp. pose proof pstate_off. pose proof pstate_size. pose proof rollback_off.
  assert (Hw : 0 < WP_BANK_COUNT) by (apply Z.div_str_pos; lia).
  split; [done|]. unfold bank_region.
  assert (0 < ROLLBACK_BANK_OFFSET) by (apply Z.div_str_pos; lia).
  rewrite (proj2 (Z.leb_gt _ _)), andb_false_r by lia. cbn [andb].
  unfold WP_BANK_OFFSET. rewrite wp_off, Z.div_0_l, Z.add_0_l, (proj2 (Z.ltb_lt _ _)) by lia. done.
Qed.

(** C1. The protected storage cannot be changed: from any boot with the write protect
    pin asserted and protection at boot set, no sequence of writes, erases,
    persistent-state updates, host commands, deferred calls, power losses in
    the middle of any of them, and resets changes a byte of it; protection at
    boot stays set and the read-only region stays reported as protected. *)
Theorem ro_write_protected p f f' :
  wf f -> wp_gpio f = true -> at_boot f = true -> rtc step (boot p f) f' ->
  slice (mem f') 0 CONFIG_WP_STORAGE_SIZE = slice (mem f) 0 CONFIG_WP_STORAGE_SIZE /\
  Z.testbit (crec_flash_get_protect f') 0 = true /\
  Z.testbit (crec_flash_get_protect f') 1 = true.
Proof.
  intros Hf Hg Hb Hs.
  pose proof (guarded_boot_step _ f p Hf Hg Hb eq_refl) as Hi.
  destruct (guarded_steps _ _ _ Hi Hs) as [Hf' Hg' Hb' Hl Hm]. destruct bank_0_ro as [Hw H0r].
  pose proof wp_banks_range. split_and!; [done| |]; rewrite get_protect_bits by done; cbn [Z.eqb Pos.eqb andb orb].
  - by rewrite Hb'.
  - rewrite !orb_false_r. unfold now. apply orb_true_iff. right. apply existsb_exists.
    exists 0. split; [apply list_elem_of_In, elem_of_seqZ; lia|].
    rewrite H0r, bool_decide_true, Hl by (done || lia). done.
Qed.

(** A bank of a region that is protected, or that is not. *)
Definition has_bank (f : flash) (r : flash_region) (v : bool) : Prop :=
  exists i, 0 <= i < PHYSICAL_BANKS /\ bank_region i = r /\ locked f i = v.

Lemma sees_has_bank f r v : sees f banks r v = true <-> has_bank f r v.
Proof.
  unfold sees, has_bank. rewrite existsb_exists. split; intros (i & Hi & Hb); exists i.
  - apply list_elem_of_In, elem_of_seqZ in Hi. apply andb_prop in Hb as [Hb1 Hb2].
    apply bool_decide_eq_true in Hb1. apply eqb_prop in Hb2. split; [lia|done].
  - destruct Hb as [Hr Hl]. split; [apply list_elem_of_In, elem_of_seqZ; lia|].
    by rewrite Hr, Hl, bool_decide_true, eqb_reflx.
Qed.

(** The protection flags, bit by bit: at-boot protection is what the persistent
    state says; a region is reported protected now when one of its banks is;
    everything is when every region is or when all banks are; the state is
    inconsistent when a region is mixed or when another region is protected
    and the read-only one is not; the pin is reported; nothing else is set. *)
Theorem get_protect_correct f :
  CONFIG_WP_ALWAYS = false ->
  let bit j := Z.testbit (crec_flash_get_protect f) j = true in
  (bit 0 <-> flash_read_pstate f = EC_FLASH_PROTECT_RO_AT_BOOT) /\
  (bit 1 <-> has_bank f FLASH_REGION_RO true) /\
  (bit 2 <-> has_bank f FLASH_REGION_RO true /\ has_bank f FLASH_REGION_RW true /\
             (CONFIG_ROLLBACK = true -> has_bank f FLASH_REGION_ROLLBACK true) \/
             forall i, 0 <= i < PHYSICAL_BANKS -> locked f i = true) /\
  (bit 3 <-> wp_gpio f = true) /\
  (bit 5 <-> (exists r, has_bank f r true /\ has_bank f r false) \/
             (has_bank f FLASH_REGION_RW true \/ has_bank f FLASH_REGION_ROLLBACK true) /\
             ~ has_bank f FLASH_REGION_RO true) /\
  (bit 10 <-> has_bank f FLASH_REGION_ROLLBACK true) /\
  (forall j, 0 <= j -> bit j -> j = 0 \/ j = 1 \/ j = 2 \/ j = 3 \/ j = 5 \/ j = 10).
Proof.
  intros Hw bit. unfold bit. assert (Hps : flash_read_pstate f = Z_of_bool (at_boot f)).
  { unfold at_boot. destruct (read_pstate_cases f) as [->|[->|[_ E]]]; [done|done|congruence]. }
  assert (Hn : forall r, now f r = true <-> has_bank f r true).
  { intros r. unfold now. rewrite Hps, Z_of_bool_bit, <- sees_has_bank. by destruct r. }
  assert (Hnf : now f FLASH_REGION_RO = false <-> ~ has_bank f FLASH_REGION_RO true)
    by (rewrite <- Hn; destruct (now f _); intuition congruence).
  split_and!; [rewrite get_protect_bits by done; cbn [Z.eqb Pos.eqb andb orb]; rewrite ?orb_false_r..|].
  - rewrite Hps. by destruct (at_boot f).
  - apply Hn.
  - unfold all_regions. rewrite !orb_true_iff, !andb_true_iff, !Hn, orb_true_iff, Hn, negb_true_iff, forallb_forall.
    split.
    + intros [[[? ?] ?]|Ha]; [left; split_and!; try done; intros; intuition congruence|right].
      intros i Hi. apply Ha, list_elem_of_In, elem_of_seqZ. lia.
    + intros [(? & ? & Hr)|Ha]; [left|right].
      * split_and!; try done. destruct CONFIG_ROLLBACK; [right; by apply Hr|by left].
      * intros i Hi. apply list_elem_of_In, elem_of_seqZ in Hi. apply Ha. lia.
  - done.
  - unfold inconsistent. rewrite orb_true_iff, andb_true_iff, orb_true_iff, negb_true_iff, !Hn, Hnf, existsb_exists.
    apply or_iff_compat_r. split.
    + intros (r & _ & [Ha Hb]%andb_prop). exists r. by rewrite <- Hn, <- sees_has_bank.
    + intros (r & Ha & Hb). exists r. rewrite <- Hn in Ha. apply sees_has_bank in Hb. rewrite Ha, Hb.
      split; [|done]. destruct r; cbn; auto.
  - apply Hn.
  - intros j Hj. rewrite get_protect_bits by done.
    repeat match goal with |- context [j =? ?k] => destruct (Z.eqb_spec j k); [tauto|] end. done.
Qed.

(** ** The running image *)

Lemma physical_outside f off size u data r i :
  physical f off size u data r -> wf f -> 0 < u -> 0 <= off -> 0 <= size -> off + size <= CONFIG_FLASH_SIZE_BYTES ->
  size <= Z.of_nat (length data) -> ~ (off <= Z.of_nat i < off + size) -> mem r.1 !! i = mem f !! i.
Proof.
  intros [(e & He & ->)|(Hun & k & p & o & -> & Hk & Ho & Hp)] Hf Hu Hoff Hs Hr Hd Hi; [done|].
  assert (0 <= k * u <= size) by (destruct Ho as [(_ & ?)|(_ & ? & _)]; nia).
  pose proof (wf_mem f Hf). cbn [fst mem with_mem]. rewrite lookup_bcopy by lia. by rewrite decide_False by lia.
Qed.
Lemma write_outside f off size data i :
  wf f -> size <= Z.of_nat (length data) -> ~ (0 <= off /\ off + size <= CONFIG_FLASH_SIZE_BYTES /\ off <= Z.of_nat i < off + size) ->
  mem (crec_flash_write off size data f).1 !! i = mem f !! i.
Proof.
  intros Hf Hd Hi. unfold crec_flash_write.
  destruct (flash_range_ok off size CONFIG_FLASH_WRITE_SIZE) eqn:E; [|done].
  cbn [negb]. destruct write_pow2 as (k & Hk & Ek). rewrite Ek in E.
  apply flash_range_ok_spec in E as (? & ? & ? & _ & Ha); [|done]. rewrite <- Ek in Ha. pose proof (wf_mem f Hf).
  eapply physical_outside; [apply physical_write_ok|..]; try done; try lia; apply write_pos.
Qed.
Lemma erase_outside f off size i :
  wf f -> ~ (0 <= off /\ off + size <= CONFIG_FLASH_SIZE_BYTES /\ off <= Z.of_nat i < off + size) ->
  mem (crec_flash_erase off size f).1 !! i = mem f !! i.
Proof.
  intros Hf Hi. unfold crec_flash_erase.
  destruct (flash_range_ok off size CONFIG_FLASH_ERASE_SIZE) eqn:E; [|done].
  cbn [negb]. destruct erase_pow2 as (k & Hk & Ek). rewrite Ek in E.
  apply flash_range_ok_spec in E as (? & ? & ? & _ & Ha); [|done]. rewrite <- Ek in Ha. pose proof (wf_mem f Hf).
  eapply physical_outside; [apply physical_erase_ok|..]; rewrite ?length_replicate; try done; try lia; apply erase_pos.
Qed.

(** The byte at [i] belongs to the image that runs. *)
Definition image_size : Z :=
  match system_get_image_copy with
  | EC_IMAGE_RO => CONFIG_RO_SIZE
  | EC_IMAGE_RW | EC_IMAGE_RW_B => CONFIG_RW_SIZE
  | _ => 0
  end.
Definition image_offset : Z := flash_get_rw_offset system_get_image_copy.
Definition in_image (i : Z) : Prop := image_offset <= i < image_offset + image_size.

Lemma s32_nonneg x : 0 <= s32 x -> is_u32 x -> s32 x = x.
Proof. unfold in_range, swrap. intros. divlia. Qed.
Lemma u32_le x : 0 <= x -> x < 2 ^ 32 -> u32 x = x.
Proof. intros. apply wrap_id. unfold in_range. lia. Qed.

Lemma unsafe_disjoint off size i :
  is_u32 off -> is_u32 size -> 0 <= image_size -> image_offset + image_size <= CONFIG_FLASH_SIZE_BYTES ->
  system_unsafe_to_overwrite off size = false -> in_image i ->
  ~ (0 <= s32 off /\ s32 off + s32 size <= CONFIG_FLASH_SIZE_BYTES /\ s32 off <= i < s32 off + s32 size).
Proof.
  intros Ho Hs Hz Hfit Hu Hi (O1 & O2 & O3). pose proof size_small.
  assert (0 <= image_offset) by (unfold image_offset, flash_get_rw_offset; case_match; apply wrap_range; lia).
  assert (E1 : s32 off = off) by (by apply s32_nonneg). assert (E2 : s32 size = size) by (apply s32_nonneg; [lia|done]).
  rewrite E1 in O1, O2, O3. rewrite E2 in O2, O3. unfold in_range in Ho, Hs.
  assert (Hck : ((image_offset <=? off) && (off <? u32 (image_offset + image_size)) ||
                 (off <=? image_offset) && (image_offset <? u32 (off + size))) = false).
  { revert Hu Hi. unfold system_unsafe_to_overwrite, in_image, image_offset, image_size.
    destruct system_get_image_copy; try done; intros; lia. }
  unfold in_image in Hi. rewrite !u32_le in Hck by lia. lia.
Qed.

(** C11. The running image is never overwritten: whatever their parameters, the write
    command, the erase command and a deferred erase of a range that passed the
    check leave every byte of the image as it is, even when power is lost. *)
Theorem running_image_safe f i :
  wf f -> 0 <= image_size -> image_offset + image_size <= CONFIG_FLASH_SIZE_BYTES -> in_image (Z.of_nat i) ->
  (forall off size params_size data, is_u32 size -> params_size <= 8 + Z.of_nat (length data) ->
     mem (flash_command_write off size params_size data f).1 !! i = mem f !! i) /\
  (forall cmd off size, is_u32 size -> mem (flash_command_erase cmd off size f).1 !! i = mem f !! i) /\
  (is_u32 (erase_info (hc f)).1 -> is_u32 (erase_info (hc f)).2 ->
   system_unsafe_to_overwrite (erase_info (hc f)).1 (erase_info (hc f)).2 = false ->
   mem (flash_erase_deferred f).1 !! i = mem f !! i).
Proof.
  intros Hf Hz Hfit Hi. split_and!.
  - intros off size ps data Hs Hd. unfold flash_command_write, bind at 1, gets, id.
    case_match; [done|]. case_match eqn:Ep; [done|]. case_match eqn:Eu; [done|].
    pose proof (write_outside f (s32 (u32 (off + EC_FLASH_REGION_START))) (s32 size) data i Hf
      ltac:(by eapply write_size_fits) (unsafe_disjoint _ _ _ ltac:(by apply wrap_range) Hs Hz Hfit Eu Hi)) as E.
    unfold bind. destruct (crec_flash_write _ _ data f) as [g [rv| |]]; exact E.
  - intros cmd off size Hs. unfold flash_command_erase, bind at 1, gets, id.
    case_match; [done|]. case_match eqn:Eu; [done|]. destruct cmd as [[]|]; try done.
    + pose proof (erase_outside f (s32 (u32 (off + EC_FLASH_REGION_START))) (s32 size) i Hf
        (unsafe_disjoint _ _ _ ltac:(by apply wrap_range) Hs Hz Hfit Eu Hi)) as E.
      unfold bind. destruct (crec_flash_erase _ _ f) as [g [rv| |]]; exact E.
    + by destruct (erase_rc (hc f) =? EC_RES_SUCCESS).
    + unfold bind. by destruct (negb _).
  - destruct (erase_info (hc f)) as [o s] eqn:Ei. cbn [fst snd]. intros Ho Hs Hu.
    unfold flash_erase_deferred, set_hc, bind, modify, gets, id. cbn [hc with_hc erase_dequeued erase_info].
    rewrite Ei. set (f1 := with_hc _ f).
    assert (Hf1 : wf f1) by (destruct Hf; by constructor).
    pose proof (erase_outside f1 (s32 o) (s32 s) i Hf1 (unsafe_disjoint _ _ _ Ho Hs Hz Hfit Hu Hi)) as E.
    destruct (crec_flash_erase _ _ f1) as [g [rv| |]]; exact E.
Qed.
End Protect.

(** ** Configurations

    The emulator's, and a small one with every feature. *)

(** src/chip/host/config_chip.h:12-24 [CONFIG_FLASH_SIZE_BYTES] *)
Definition host_cfg : FlashCfg := {|
  CONFIG_FLASH_SIZE_BYTES := 0x20000;
  CONFIG_FLASH_BANK_SIZE := 0x1000;
  CONFIG_FLASH_ERASE_SIZE := 0x10;
  CONFIG_FLASH_WRITE_SIZE := 2;
  CONFIG_FLASH_WRITE_IDEAL_SIZE := 0x80;
  CONFIG_WP_STORAGE_OFF := 0;
  CONFIG_WP_STORAGE_SIZE := 0x10000;
  CONFIG_FW_PSTATE_OFF := 0xf000;
  CONFIG_FW_PSTATE_SIZE := 0x1000;
  CONFIG_EC_PROTECTED_STORAGE_OFF := 0;
  CONFIG_EC_WRITABLE_STORAGE_OFF := 0x10000;
  CONFIG_EC_WRITABLE_STORAGE_SIZE := 0x10000;
  CONFIG_RO_STORAGE_OFF := 0;
  CONFIG_RO_SIZE := 0xf000;
  CONFIG_RW_STORAGE_OFF := 0;
  CONFIG_RW_SIZE := 0x10000;
  CONFIG_ROLLBACK := false;
  CONFIG_ROLLBACK_OFF := 0x20000;
  CONFIG_ROLLBACK_SIZE := 0;
  CONFIG_WP_ALWAYS := false;
  CONFIG_SERIALNO_LEN := 0;
  CONFIG_MAC_ADDR_LEN := 0;
  CONFIG_POWERON_CONF_LEN := 0;
  system_get_image_copy := EC_IMAGE_RO;
  flash_pre_op := fun _ => EC_SUCCESS;
|}.

Definition small_cfg : FlashCfg := {|
  CONFIG_FLASH_SIZE_BYTES := 192;
  CONFIG_FLASH_BANK_SIZE := 32;
  CONFIG_FLASH_ERASE_SIZE := 16;
  CONFIG_FLASH_WRITE_SIZE := 4;
  CONFIG_FLASH_WRITE_IDEAL_SIZE := 8;
  CONFIG_WP_STORAGE_OFF := 0;
  CONFIG_WP_STORAGE_SIZE := 64;
  CONFIG_FW_PSTATE_OFF := 32;
  CONFIG_FW_PSTATE_SIZE := 32;
  CONFIG_EC_PROTECTED_STORAGE_OFF := 0;
  CONFIG_EC_WRITABLE_STORAGE_OFF := 160;
  CONFIG_EC_WRITABLE_STORAGE_SIZE := 32;
  CONFIG_RO_STORAGE_OFF := 0;
  CONFIG_RO_SIZE := 32;
  CONFIG_RW_STORAGE_OFF := 0;
  CONFIG_RW_SIZE := 32;
  CONFIG_ROLLBACK := true;
  CONFIG_ROLLBACK_OFF := 64;
  CONFIG_ROLLBACK_SIZE := 96;
  CONFIG_WP_ALWAYS := false;
  CONFIG_SERIALNO_LEN := 4;
  CONFIG_MAC_ADDR_LEN := 18;
  CONFIG_POWERON_CONF_LEN := 2;
  system_get_image_copy := EC_IMAGE_RW;
  flash_pre_op := fun _ => EC_SUCCESS;
|}.

(** The same with the EC's region at 32. *)
Definition offset_cfg : FlashCfg := {|
  CONFIG_FLASH_SIZE_BYTES := 192;
  CONFIG_FLASH_BANK_SIZE := 32;
  CONFIG_FLASH_ERASE_SIZE := 16;
  CONFIG_FLASH_WRITE_SIZE := 4;
  CONFIG_FLASH_WRITE_IDEAL_SIZE := 8;
  CONFIG_WP_STORAGE_OFF := 0;
  CONFIG_WP_STORAGE_SIZE := 64;
  CONFIG_FW_PSTATE_OFF := 32;
  CONFIG_FW_PSTATE_SIZE := 32;
  CONFIG_EC_PROTECTED_STORAGE_OFF := 32;
  CONFIG_EC_WRITABLE_STORAGE_OFF := 160;
  CONFIG_EC_WRITABLE_STORAGE_SIZE := 32;
  CONFIG_RO_STORAGE_OFF := 0;
  CONFIG_RO_SIZE := 32;
  CONFIG_RW_STORAGE_OFF := 0;
  CONFIG_RW_SIZE := 32;
  CONFIG_ROLLBACK := true;
  CONFIG_ROLLBACK_OFF := 64;
  CONFIG_ROLLBACK_SIZE := 96;
  CONFIG_WP_ALWAYS := false;
  CONFIG_SERIALNO_LEN := 4;
  CONFIG_MAC_ADDR_LEN := 18;
  CONFIG_POWERON_CONF_LEN := 2;
  system_get_image_copy := EC_IMAGE_RW;
  flash_pre_op := fun _ => EC_SUCCESS;
|}.

(** Discharge the laws of a concrete configuration. *)
Ltac concrete_cfg :=
  constructor; cbn;
  repeat match goal with
    | |- _ /\ _ => split
    | |- (?d | ?n) => exists (n / d); reflexivity
    | |- exists k, 0 <= k /\ ?n = 2 ^ k => exists (Z.log2 n); split; [apply Z.log2_nonneg|reflexivity]
    | |- _ => first [lia | vm_compute; discriminate]
    end.

#[export] Instance host_ok : @FlashCfgOk host_cfg.
Proof. concrete_cfg. Qed.
#[export] Instance small_ok : @FlashCfgOk small_cfg.
Proof. concrete_cfg. Qed.

(** A flash with its read-only image, protection at boot, and the rest erased. *)
Definition flash_0 : flash :=
  Flash (replicate 32 0x11 ++ [3; 2; 1; 0] ++ replicate 156 0xff) (replicate 6 0) true None
    (Hcmd EC_RES_SUCCESS (0, 0) false 0 0 EC_RES_SUCCESS false).

Lemma flash_0_wf : @wf small_cfg flash_0.
Proof. by constructor. Qed.

Lemma set_protect_correct_witness :
  exists g,
    @crec_flash_set_protect small_cfg 7 6 flash_0 = (g, Done EC_SUCCESS) /\ @at_boot small_cfg g = false.
Proof.
  destruct (@set_protect_correct small_cfg small_ok ltac:(done) 7 6 flash_0 flash_0_wf eq_refl)
    as (g & E & Hb & _). exists g. by split.
Defined.

Lemma pstate_roundtrip_witness :
  exists g, @crec_flash_write_pstate_serial small_cfg (Some [65; 66; 0]) flash_0 = (g, Done EC_SUCCESS) /\
    @crec_flash_read_pstate_serial small_cfg g = Some [65; 66; 0; 0].
Proof.
  destruct (proj1 (@pstate_roundtrip small_cfg small_ok ltac:(done) flash_0 flash_0_wf eq_refl eq_refl)
    [65; 66; 0] ltac:(by vm_compute)) as (g & E & _ & Hr). exists g. split; [done|].
  by apply (f_equal (fun r => r.1.1.1)) in Hr.
Defined.

Lemma ro_write_protected_witness :
  let f' := (@flash_command_erase small_cfg (Some FLASH_ERASE_SECTOR) 0 32 (@boot small_cfg (Some 3%nat) flash_0)).1 in
  slice (mem f') 0 64 = slice (mem flash_0) 0 64.
Proof.
  apply (@ro_write_protected small_cfg small_ok (Some 3%nat) flash_0 _ flash_0_wf eq_refl ltac:(by vm_compute)).
  apply rtc_once, step_command_erase.
Defined.

Lemma get_protect_correct_witness : Z.testbit (@crec_flash_get_protect small_cfg flash_0) 3 = true.
Proof. apply (@get_protect_correct small_cfg flash_0 eq_refl). reflexivity. Defined.

Lemma running_image_safe_witness :
  mem (@flash_command_write small_cfg 160 4 12 [1; 2; 3; 4] flash_0).1 !! 160%nat = Some 0xff.
Proof.
  refine (proj1 (@running_image_safe small_cfg small_ok flash_0 160 flash_0_wf _ _ _) 160 4 12 [1; 2; 3; 4] _ _);
    by vm_compute.
Defined.

(** A deferred erase uses the offset of the command, while the command checked
    that offset plus the start of the EC's region: where the region does not
    start at 0, an accepted request erases another range. *)
Example deferred_erase_misplaced :
  let request := @flash_command_erase offset_cfg (Some FLASH_ERASE_SECTOR_ASYNC) 160 16 (with_mem (replicate 192 1) flash_0) in
  let f := (@flash_erase_deferred offset_cfg request.1).1 in
  request.2 = Done EC_RES_SUCCESS /\ @in_image offset_cfg 160 /\ mem f !! 160%nat = Some 0xff.
Proof. by vm_compute. Qed.

(** Polling for the result replaces the request that is still queued. *)
Example poll_replaces_request :
  let f1 := (@flash_command_protect_v2 small_cfg (Some FLASH_PROTECT_ASYNC) 1 1 flash_0).1 in
  let f2 := (@flash_command_protect_v2 small_cfg (Some FLASH_PROTECT_GET_RESULT) 0 0 f1).1 in
  prot_call (hc f2) = true /\ (prot_mask (hc f1), prot_flags (hc f1)) = (1, 1) /\
  (prot_mask (hc f2), prot_flags (hc f2)) = (0, 0).
Proof. by vm_compute. Qed.
End FlashProtect.
