(* ===== verification/Rollback.v ===== *)
(** * Rollback protection

    common/rollback.c: two copies of a record (sequence number, minimum
    version, device secret, cookie) in two regions of the flash, of which the
    valid one with the larger number counts; an update erases and rewrites the
    other one.  CONFIG_ROLLBACK_SECRET_SIZE is the size of a SHA-256 digest
    (the source asserts it); the regions are halves of the rollback storage
    (not CONFIG_FLASH_MULTIPLE_REGION); no MPU and no OTP key.

    An update may lose power at any unit of flash work (Flash.v): the theorems
    show that the old or the new record counts afterwards, that the minimum
    version never decreases, and that the reset of the secret overwrites both
    copies. *)

From stdpp Require Import relations.
From S2P Require Import Prelude Bits Bytes Libc Util Sha256 Flash FlashProtect.
Import Bytes Bits Sha256 Flash FlashProtect.

Module Rollback.

(** src/include/rollback.h:9-9 [CROS_EC_ROLLBACK_COOKIE] *)
Definition CROS_EC_ROLLBACK_COOKIE : Z := 0x0b112233.
(** src/common/rollback.c:50-50 [ROLLBACK_REGIONS] *)
Definition ROLLBACK_REGIONS : Z := 2.
Definition CONFIG_ROLLBACK_SECRET_SIZE : Z := SHA256_DIGEST_SIZE.

(** src/common/rollback_private.h:20-28 [struct rollback_data] *)
Record rollback_data := Data {
  id : Z;
  rollback_min_version : Z;
  secret : list Z;
  cookie : Z;
}.

(** The bytes of the structure in memory. *)
Definition sizeof_data : Z := 8 + CONFIG_ROLLBACK_SECRET_SIZE + 4.
Definition decode (b : list Z) : rollback_data :=
  Data (s32 (le_at b 0 4)) (s32 (le_at b 4 4)) (slice b 8 CONFIG_ROLLBACK_SECRET_SIZE)
    (le_at b (8 + CONFIG_ROLLBACK_SECRET_SIZE) 4).
Definition encode (d : rollback_data) : list Z :=
  le_bytes 4 (id d) ++ le_bytes 4 (rollback_min_version d) ++ secret d ++ le_bytes 4 (cookie d).

Section Model.
Context `{FlashCfg}.
(** The form of the hash's inner loop, and what its context on the stack held. *)
Context (unrolled : bool) (stack : sha256_ctx).

(** src/common/rollback.c:52-65 [get_rollback_offset] *)
Definition get_rollback_offset (region : Z) : Z :=
  CONFIG_ROLLBACK_OFF + region * CONFIG_ROLLBACK_SIZE / ROLLBACK_REGIONS.

(** EC_ERROR_UNKNOWN is [None]. *)
(** src/common/rollback.c:99-113 [read_rollback] *)
Definition read_rollback (region : Z) (f : flash) : option rollback_data :=
  match crec_flash_read (get_rollback_offset region) sizeof_data f with
  | None => None
  | Some b => Some (decode b)
  end.

(** [clear_rollback] of a record that is returned. *)
(** src/common/rollback.c:92-97 [clear_rollback] *)
Definition clear_rollback (d : rollback_data) : rollback_data :=
  Data (id d) (rollback_min_version d) (replicate (Z.to_nat CONFIG_ROLLBACK_SECRET_SIZE) 0) (cookie d).

(** The loop over the regions, with [min_region] and [max_id]. *)
(** src/common/rollback.c:132-143 [get_latest_rollback] *)
Definition latest_step (f : flash) (s : option (Z * Z)) (region : Z) : option (Z * Z) :=
  match s with
  | None => None
  | Some (min_region, max_id) =>
      match read_rollback region f with
      | None => None
      | Some tmp_data =>
          if negb (cookie tmp_data =? CROS_EC_ROLLBACK_COOKIE) then Some (min_region, max_id)
          else if max_id <? id tmp_data then Some (region, id tmp_data) else Some (min_region, max_id)
      end
  end.

(** The region and its record; [buffer] is what [data] held; -1 is [None]. *)
(** src/common/rollback.c:124-165 [get_latest_rollback] *)
Definition get_latest_rollback (buffer : rollback_data) (f : flash) : option (Z * rollback_data) :=
  match fold_left (latest_step f) (seqZ 0 ROLLBACK_REGIONS) (Some (-1, -1)) with
  | None => None
  | Some (min_region, _) =>
      if 0 <=? min_region then
        match read_rollback min_region f with
        | None => None
        | Some data => Some (min_region, data)
        end
      else Some (0, Data 0 0 (secret (clear_rollback buffer)) CROS_EC_ROLLBACK_COOKIE)
  end.

(** src/common/rollback.c:167-179 [rollback_get_minimum_version] *)
Definition rollback_get_minimum_version (buffer : rollback_data) (f : flash) : Z :=
  match get_latest_rollback buffer f with
  | None => -1
  | Some (_, data) => rollback_min_version data
  end.

(** EC_ERROR_UNKNOWN is [None]. *)
(** src/common/rollback.c:182-199 [rollback_get_secret] *)
Definition rollback_get_secret (buffer : rollback_data) (f : flash) : option (list Z) :=
  match get_latest_rollback buffer f with
  | None => None
  | Some (_, data) =>
      if Util.bytes_are_trivial (secret data) CONFIG_ROLLBACK_SECRET_SIZE then None else Some (secret data)
  end.

(** src/common/rollback.c:203-219 [get_rollback_erase_size_bytes] *)
Definition get_rollback_erase_size_bytes : M Z :=
  let erase_size := CONFIG_ROLLBACK_SIZE / ROLLBACK_REGIONS in
  assert (Z.rem erase_size CONFIG_FLASH_ERASE_SIZE =? 0) ;!
  assert (0 <? erase_size) ;!
  assert (ROLLBACK_REGIONS * erase_size <=? CONFIG_ROLLBACK_SIZE) ;!
  assert (sizeof_data <=? erase_size) ;!
  ret erase_size.

(** [local] is what [board_get_entropy] gives in its
    CONFIG_ROLLBACK_SECRET_LOCAL_ENTROPY_SIZE calls, [None] where it fails;
    the failure of the function is [None]. *)
(** src/common/rollback.c:223-254 [add_entropy] *)
Definition add_entropy (src add : list Z) (add_len : Z) (local : list (option Z)) : option (list Z) :=
  let ctx := SHA256_init stack in
  let ctx := SHA256_update unrolled ctx src CONFIG_ROLLBACK_SECRET_SIZE in
  let ctx := SHA256_update unrolled ctx add add_len in
  let ctx :=
    fold_left (fun ctx extra =>
      match ctx, extra with
      | Some ctx, Some extra => Some (SHA256_update unrolled ctx [extra] 1)
      | _, _ => None
      end) local (Some ctx) in
  match ctx with
  | None => None
  | Some ctx => Some (take (Z.to_nat CONFIG_ROLLBACK_SECRET_SIZE) (buf (SHA256_final unrolled ctx)))
  end.

(** The record, padded to whole write blocks with 0xff. *)
(** src/common/rollback.c:279-293 [rollback_update] *)
Definition sizeof_block : Z := CONFIG_FLASH_WRITE_SIZE * DIV_ROUND_UP sizeof_data CONFIG_FLASH_WRITE_SIZE.
Definition block_of (d : rollback_data) : list Z :=
  encode d ++ replicate (Z.to_nat (sizeof_block - sizeof_data)) 0xff.

(** The last part of an update: erase the region and write the record. *)
(** src/common/rollback.c:343-366 [rollback_update] *)
Definition store_rollback (region : Z) (data : rollback_data) : M ec_error :=
  let offset := get_rollback_offset region in
  let! erase_size := get_rollback_erase_size_bytes in
  if erase_size <? 0 then ret EC_ERROR_UNKNOWN
  else if system_unsafe_to_overwrite (u32 offset) (u32 erase_size) then ret EC_ERROR_UNKNOWN
  else
    let! rv := crec_flash_erase offset erase_size in
    if negb (bool_decide (rv = EC_SUCCESS)) then ret EC_ERROR_UNKNOWN
    else crec_flash_write offset sizeof_block (block_of data).

(** The version that an update writes, or how it ends early.  [entropy] is
    NULL or the bytes and their number. *)
(** src/common/rollback.c:305-324 [rollback_update] *)
Definition next_version (next_min_version : Z) (has_entropy : bool) (data : rollback_data) : Z + ec_error :=
  if has_entropy then
    inl (if next_min_version <? rollback_min_version data then rollback_min_version data else next_min_version)
  else if next_min_version <? rollback_min_version data then inr EC_ERROR_INVAL
  else if next_min_version =? rollback_min_version data then inr EC_SUCCESS
  else inl next_min_version.

(** src/common/rollback.c:272-370 [rollback_update] *)
Definition rollback_update (next_min_version : Z) (entropy : option (list Z * Z)) (local : list (option Z))
    (buffer : rollback_data) : M ec_error :=
  let! f := gets (fun f => f) in
  if bool_of_Z (Z.land (crec_flash_get_protect f) EC_FLASH_PROTECT_ROLLBACK_NOW) then ret EC_ERROR_ACCESS_DENIED
  else
    match get_latest_rollback buffer f with
    | None => ret EC_ERROR_UNKNOWN
    | Some (region, data) =>
        match next_version next_min_version (bool_decide (is_Some entropy)) data with
        | inr e => ret e
        | inl next_min_version =>
            let region := Z.rem (region + 1) ROLLBACK_REGIONS in
            let new_secret :=
              match entropy with
              | None => Some (secret data)
              | Some (bytes, length) => add_entropy (secret data) bytes length local
              end in
            match new_secret with
            | None => ret EC_ERROR_UNCHANGED
            | Some new_secret =>
                store_rollback region
                  (Data (s32 (id data + 1)) next_min_version new_secret CROS_EC_ROLLBACK_COOKIE)
            end
        end
    end.

(** src/common/rollback.c:372-375 [rollback_update_version] *)
Definition rollback_update_version (next_min_version : Z) (buffer : rollback_data) : M ec_error :=
  rollback_update next_min_version None [] buffer.

(** src/common/rollback.c:377-396 [rollback_add_entropy] *)
Definition rollback_add_entropy (data : list Z) (len : Z) (local : list (option Z)) (buffer : rollback_data) :
  M ec_error :=
  rollback_update (-1) (Some (data, len)) local buffer.

(** ** The entropy command *)

(** src/include/ec_commands.h:6864-6875 [enum add_entropy_action] *)
Inductive entropy_action := ADD_ENTROPY_ASYNC | ADD_ENTROPY_RESET_ASYNC | ADD_ENTROPY_GET_RESULT.

(** The static variables, and whether the deferred call is queued. *)
(** src/common/rollback.c:444-445 [add_entropy_action, add_entropy_rv] *)
Record entropy_state := Entropy {
  add_entropy_action : entropy_action;
  add_entropy_rv : Z;
  add_entropy_queued : bool;
}.

(** One turn per element of [draws]: the bytes of [trng_rand_bytes], what
    [board_get_entropy] gives, and what the stack holds. *)
(** src/common/rollback.c:459-468 [add_entropy_deferred] *)
Fixpoint add_entropy_loop (draws : list (list Z * list (option Z) * rollback_data)) : M Z :=
  match draws with
  | [] => ret EC_RES_SUCCESS
  | (rand, local, buffer) :: draws =>
      let! rv := rollback_add_entropy rand CONFIG_ROLLBACK_SECRET_SIZE local buffer in
      if negb (bool_decide (rv = EC_SUCCESS)) then ret EC_RES_ERROR else add_entropy_loop draws
  end.

(** src/common/rollback.c:447-472 [add_entropy_deferred] *)
Definition add_entropy_deferred (draws : nat -> list Z * list (option Z) * rollback_data) (s : entropy_state) :
  M entropy_state :=
  let repeat := match add_entropy_action s with ADD_ENTROPY_RESET_ASYNC => Z.to_nat ROLLBACK_REGIONS | _ => 1%nat end in
  let! rv := add_entropy_loop (draws <$> seq 0 repeat) in
  ret (Entropy (add_entropy_action s) rv false).

(** src/common/rollback.c:474-496 [hc_rollback_add_entropy] *)
Definition hc_rollback_add_entropy (action : option entropy_action) (s : entropy_state) : Z * entropy_state :=
  match action with
  | Some (ADD_ENTROPY_ASYNC as a) | Some (ADD_ENTROPY_RESET_ASYNC as a) =>
      if add_entropy_rv s =? EC_RES_BUSY then (EC_RES_BUSY, s)
      else (EC_RES_SUCCESS, Entropy a EC_RES_BUSY true)
  | Some ADD_ENTROPY_GET_RESULT => (add_entropy_rv s, s)
  | None => (EC_RES_INVALID_PARAM, s)
  end.

(** [rw_rollback_version] is what [system_get_rollback_version] gives. *)
(** src/common/rollback.c:547-570 [host_command_rollback_info] *)
Definition host_command_rollback_info (rw_rollback_version : Z) (buffer : rollback_data) (f : flash) :
  Z * list Z :=
  match get_latest_rollback buffer f with
  | None => (EC_RES_UNAVAILABLE, [])
  | Some (_, data) => (EC_RES_SUCCESS, [id data; rollback_min_version data; rw_rollback_version])
  end.

End Model.

(** Laws of the rollback storage: halves of whole sectors that hold a record,
    outside the running image; sectors of at least a word. *)
Definition half `{FlashCfg} : Z := CONFIG_ROLLBACK_SIZE / ROLLBACK_REGIONS.
Class RollbackOk `{FlashCfgOk} : Prop := {
  rollback_even : (2 | CONFIG_ROLLBACK_SIZE);
  half_sectors : (CONFIG_FLASH_ERASE_SIZE | half);
  half_fits : sizeof_data <= half;
  sector_word : 4 <= CONFIG_FLASH_ERASE_SIZE;
  not_running : forall region, region = 0 \/ region = 1 ->
    system_unsafe_to_overwrite (u32 (get_rollback_offset region)) (u32 half) = false;
}.

Section Proofs.
Context `{RollbackOk}.
Context (unrolled : bool) (stack : sha256_ctx).

Lemma sizeof_data_eq : sizeof_data = 44.
Proof. reflexivity. Qed.
Lemma half_eq : 2 * half = CONFIG_ROLLBACK_SIZE.
Proof.
  unfold half, ROLLBACK_REGIONS. destruct rollback_even as [n E]. rewrite E, Z.div_mul by lia. lia.
Qed.
Lemma offset_eq region : get_rollback_offset region = CONFIG_ROLLBACK_OFF + region * half.
Proof.
  unfold get_rollback_offset. f_equal. rewrite <- half_eq. unfold ROLLBACK_REGIONS.
  replace (region * (2 * half)) with (region * half * 2) by lia. apply Z.div_mul. lia.
Qed.
(** A region: 0 or 1. *)
Definition is_region (r : Z) : Prop := r = 0 \/ r = 1.
Lemma region_range r :
  is_region r -> 44 <= half /\ 0 <= get_rollback_offset r /\ get_rollback_offset r + half <= CONFIG_FLASH_SIZE_BYTES.
Proof.
  intros Hr. rewrite offset_eq. pose proof half_eq. pose proof half_fits. rewrite sizeof_data_eq in *.
  pose proof rollback_off. pose proof rollback_size. pose proof wp_size. destruct Hr as [-> | ->]; lia.
Qed.
Lemma offset_apart r : is_region r ->
  get_rollback_offset (1 - r) + half <= get_rollback_offset r \/ get_rollback_offset r + half <= get_rollback_offset (1 - r).
Proof. intros Hr. rewrite !offset_eq. pose proof (region_range r Hr). destruct Hr as [-> | ->]; lia. Qed.
Lemma is_region_other r : is_region r -> is_region (1 - r).
Proof. unfold is_region. lia. Qed.

(** The record in a region, and its claim to be the latest. *)
Definition rec (f : flash) (r : Z) : rollback_data := decode (slice (mem f) (get_rollback_offset r) sizeof_data).
Definition score (d : rollback_data) : Z := if cookie d =? CROS_EC_ROLLBACK_COOKIE then id d else -1.
Definition default_data : rollback_data :=
  Data 0 0 (replicate (Z.to_nat CONFIG_ROLLBACK_SECRET_SIZE) 0) CROS_EC_ROLLBACK_COOKIE.

Lemma read_rollback_rec f r : is_region r -> read_rollback r f = Some (rec f r).
Proof.
  intros Hr. pose proof (region_range r Hr). pose proof size_small. pose proof sizeof_data_eq.
  unfold read_rollback, crec_flash_read, crec_flash_unprotected_read, crec_flash_dataptr.
  replace (flash_range_ok _ _ 1) with true.
  - cbn [negb]. by rewrite (proj2 (Z.ltb_ge _ _)) by lia.
  - symmetry. apply (flash_range_ok_spec _ _ 0); [done|].
    split_and!; try lia; change (2 ^ 0) with 1; apply Z.divide_1_l.
Qed.

(** The valid record with the larger number, the first one in a tie. *)
Definition latest (f : flash) : Z * rollback_data :=
  if Z.max (score (rec f 0)) (-1) <? score (rec f 1) then (1, rec f 1)
  else if -1 <? score (rec f 0) then (0, rec f 0) else (0, default_data).

Lemma latest_step_eq f m i k :
  is_region k -> -1 <= i ->
  latest_step f (Some (m, i)) k = Some (if i <? score (rec f k) then (k, score (rec f k)) else (m, i)).
Proof.
  intros Hk Hi. unfold latest_step, score. rewrite read_rollback_rec by done.
  destruct (cookie (rec f k) =? CROS_EC_ROLLBACK_COOKIE); cbn [negb].
  - by destruct (i <? id (rec f k)).
  - by rewrite (proj2 (Z.ltb_ge _ _)) by done.
Qed.

Lemma get_latest_eq buffer f : get_latest_rollback buffer f = Some (latest f).
Proof.
  unfold get_latest_rollback, latest. change (seqZ 0 ROLLBACK_REGIONS) with [0; 1]. cbn [fold_left].
  assert (Hr0 : is_region 0) by (by left). assert (Hr1 : is_region 1) by (by right).
  rewrite latest_step_eq by (done || lia).
  destruct (Z.ltb_spec (-1) (score (rec f 0))).
  - rewrite latest_step_eq by (done || lia). rewrite Z.max_l by lia.
    destruct (_ <? score (rec f 1)); cbn [Z.leb Z.compare]; by rewrite read_rollback_rec.
  - rewrite latest_step_eq by (done || lia). rewrite Z.max_r by lia.
    destruct (_ <? score (rec f 1)); cbn [Z.leb Z.compare]; [by rewrite read_rollback_rec|done].
Qed.

(** What [latest] gives: a valid record, or the default. *)
Lemma latest_cases f r d :
  latest f = (r, d) ->
  is_region r /\ 0 <= id d /\ cookie d = CROS_EC_ROLLBACK_COOKIE /\ score (rec f (1 - r)) <= id d /\
  (d = rec f r /\ score (rec f r) = id d \/ r = 0 /\ d = default_data /\ score (rec f 0) <= -1 /\ score (rec f 1) <= -1) /\
  (r = 1 -> score (rec f 0) < id d).
Proof.
  assert (Hs : forall k, -1 < score (rec f k) -> score (rec f k) = id (rec f k) /\ cookie (rec f k) = CROS_EC_ROLLBACK_COOKIE).
  { intros k. unfold score. destruct (Z.eqb_spec (cookie (rec f k)) CROS_EC_ROLLBACK_COOKIE); [done|lia]. }
  unfold latest. destruct (Z.ltb_spec (Z.max (score (rec f 0)) (-1)) (score (rec f 1))) as [Ha|Ha].
  - intros [= <- <-]. destruct (Hs 1 ltac:(lia)) as [E C]. change (1 - 1) with 0.
    split_and!; [by right|lia|done|lia|by left|lia].
  - destruct (Z.ltb_spec (-1) (score (rec f 0))) as [Hb|Hb]; intros [= <- <-]; change (1 - 0) with 1.
    + destruct (Hs 0 ltac:(lia)) as [E C]. split_and!; [by left|lia|done|lia|by left|done].
    + split_and!; [by left|done|done|cbn; lia| |done]. right. split_and!; [done|done|lia|lia].
Qed.

(** The other region spoilt or unchanged: the same record counts. *)
Lemma latest_old f g r d :
  latest f = (r, d) -> rec g r = rec f r ->
  rec g (1 - r) = rec f (1 - r) \/ score (rec g (1 - r)) <= -1 -> latest g = (r, d).
Proof.
  intros Hl Er Eo. destruct (latest_cases f r d Hl) as (Hr & Hid & _ & Ho & Hd & Hlt).
  destruct Eo as [Eo|Eo].
  - revert Hl. unfold latest. destruct Hr as [-> | ->]; [change (1 - 0) with 1 in Eo|change (1 - 1) with 0 in Eo]; by rewrite Er, Eo.
  - unfold latest. destruct Hr as [-> | ->]; [change (1 - 0) with 1 in *|change (1 - 1) with 0 in *]; rewrite Er.
    + rewrite (proj2 (Z.ltb_ge _ _)) by lia. destruct Hd as [[E1 E2]|(_ & E1 & E2 & _)].
      * rewrite (proj2 (Z.ltb_lt _ _)) by lia. by rewrite E1.
      * rewrite (proj2 (Z.ltb_ge _ _)) by lia. by rewrite E1.
    + destruct Hd as [[E1 E2]|(E1 & _)]; [|done]. rewrite (proj2 (Z.ltb_lt _ _)) by lia. by rewrite E1.
Qed.

(** The next record stored in the other region: it counts. *)
Lemma latest_new f g r d d' :
  latest f = (r, d) -> rec g r = rec f r -> rec g (1 - r) = d' ->
  id d' = id d + 1 -> cookie d' = CROS_EC_ROLLBACK_COOKIE -> latest g = (1 - r, d').
Proof.
  intros Hl Er Eo Hi Hc. destruct (latest_cases f r d Hl) as (Hr & Hid & _ & _ & Hd & _).
  assert (Hs : score d' = id d + 1) by (unfold score; by rewrite Hc, Z.eqb_refl).
  assert (Hle : score (rec f r) <= id d) by (destruct Hd as [[_ E]|(-> & -> & ? & _)]; [lia|cbn; lia]).
  unfold latest. destruct Hr as [-> | ->]; [change (1 - 0) with 1 in *|change (1 - 1) with 0 in *]; rewrite Er, Eo, Hs.
  - by rewrite (proj2 (Z.ltb_lt _ _)) by lia.
  - rewrite (proj2 (Z.ltb_ge _ _)) by lia. by rewrite (proj2 (Z.ltb_lt _ _)) by lia.
Qed.

(** ** Records in memory *)

Lemma le_at_four l off a b c d :
  0 <= off -> slice l off 4 = [a; b; c; d] -> le_at l off 4 = a + 256 * (b + 256 * (c + 256 * d)).
Proof.
  intros Ho Hs. assert (Hl : off + 4 <= Z.of_nat (length l)).
  { apply (f_equal length) in Hs. unfold slice in Hs. rewrite length_take, length_drop in Hs. cbn in Hs. lia. }
  unfold le_at. rewrite bytes_at_slice, Hs by lia. cbn [foldr]. lia.
Qed.
Lemma le_bytes_four x : le_bytes 4 x = [u8 x; u8 (Z.shiftr x 8); u8 (Z.shiftr x 16); u8 (Z.shiftr x 24)].
Proof. unfold le_bytes. change (seqZ 0 4) with [0; 1; 2; 3]. cbn [fmap list_fmap]. by rewrite Z.shiftr_0_r. Qed.
Lemma four_value x :
  u8 x + 256 * (u8 (Z.shiftr x 8) + 256 * (u8 (Z.shiftr x 16) + 256 * u8 (Z.shiftr x 24))) = u32 x.
Proof. rewrite !Z.shiftr_div_pow2 by lia. unfold wrap. divlia. Qed.

Lemma le_at_le_bytes l off x : 0 <= off -> slice l off 4 = le_bytes 4 x -> le_at l off 4 = u32 x.
Proof. intros Ho Hs. rewrite le_bytes_four in Hs. rewrite (le_at_four _ _ _ _ _ _ Ho Hs). apply four_value. Qed.

Lemma s32_of_u32 x : - 2 ^ 31 <= x < 2 ^ 31 -> s32 (u32 x) = x.
Proof. intros. unfold swrap, wrap. divlia. Qed.

(** A record of the C types. *)
Record data_ok (d : rollback_data) : Prop := {
  ok_id : - 2 ^ 31 <= id d < 2 ^ 31;
  ok_version : - 2 ^ 31 <= rollback_min_version d < 2 ^ 31;
  ok_secret : length (secret d) = 32%nat;
  ok_cookie : is_u32 (cookie d);
}.

Lemma length_encode d : data_ok d -> length (encode d) = 44%nat.
Proof. intros [_ _ Hs _]. unfold encode. rewrite !length_app, !length_le_bytes, Hs. done. Qed.

Lemma slice_app_l {A} (l r : list A) off n :
  0 <= off -> 0 <= n -> off + n <= Z.of_nat (length l) -> slice (l ++ r) off n = slice l off n.
Proof.
  intros. unfold slice. rewrite drop_app_le by lia. apply take_app_le. rewrite length_drop. lia.
Qed.
Lemma slice_app_r {A} (l r : list A) off n :
  Z.of_nat (length l) <= off -> slice (l ++ r) off n = slice r (off - Z.of_nat (length l)) n.
Proof. intros. unfold slice. rewrite drop_app_ge by lia. do 2 f_equal. lia. Qed.

Lemma decode_encode d : data_ok d -> decode (encode d) = d.
Proof.
  intros [Hi Hv Hs Hc]. unfold decode, encode. change (8 + CONFIG_ROLLBACK_SECRET_SIZE) with 40.
  change CONFIG_ROLLBACK_SECRET_SIZE with 32.
  assert (L : forall x, Z.of_nat (length (le_bytes 4 x)) = 4) by (intros; by rewrite length_le_bytes).
  rewrite (le_at_le_bytes _ 0 (id d)), (le_at_le_bytes _ 4 (rollback_min_version d)), (le_at_le_bytes _ 40 (cookie d)).
  - rewrite !s32_of_u32 by done. rewrite (wrap_id _ (cookie d)) by done. destruct d as [i v sec c]. cbn in *. f_equal.
    rewrite slice_app_r by (rewrite !L; lia). rewrite slice_app_r by (rewrite !L; lia). rewrite !L.
    change (8 - 4 - 4) with 0. rewrite slice_app_l by lia. apply slice_all. lia.
  - lia.
  - rewrite app_assoc, app_assoc. rewrite slice_app_r by (rewrite !length_app, !length_le_bytes, Hs; lia).
    rewrite !length_app, !length_le_bytes, Hs. change (40 - _) with 0. by apply slice_all; rewrite L.
  - lia.
  - rewrite slice_app_r by (rewrite !L; lia). rewrite L, slice_app_l by (rewrite ?L; lia). by apply slice_all; rewrite L.
  - lia.
  - rewrite slice_app_l by (rewrite ?L; lia). by apply slice_all; rewrite L.
Qed.

Lemma decode_ok b : 44 <= Z.of_nat (length b) -> is_u32 (cookie (decode b)) -> data_ok (decode b).
Proof.
  intros Hb Hc. unfold decode in *. cbn [cookie] in Hc.
  constructor; cbn [id rollback_min_version secret cookie]; [unfold swrap; divlia|unfold swrap; divlia| |done].
  change CONFIG_ROLLBACK_SECRET_SIZE with 32. rewrite length_slice by lia. done.
Qed.

(** Erased bytes where the number is, or at the end of the cookie, spoil a
    record. *)
Lemma erased_score m o : 0 <= o -> slice m o 4 = [0xff; 0xff; 0xff; 0xff] -> score (decode (slice m o sizeof_data)) <= -1.
Proof.
  intros Ho Hs. unfold score, decode. cbn [cookie id]. case_match; [|lia].
  rewrite (le_at_four _ 0 0xff 0xff 0xff 0xff) by (rewrite ?slice_slice, ?Z.add_0_r by (done || lia); done).
  by vm_compute.
Qed.
Lemma cut_score m o x y z :
  0 <= o -> 0 <= x -> 0 <= y -> 0 <= z -> slice m (o + 40) 4 = [x; y; z; 0xff] ->
  score (decode (slice m o sizeof_data)) <= -1.
Proof.
  intros Ho Hx Hy Hz Hs. unfold score, decode. cbn [cookie id]. change (8 + CONFIG_ROLLBACK_SECRET_SIZE) with 40.
  rewrite (le_at_four _ 40 x y z 0xff) by (rewrite ?slice_slice by (done || lia); done).
  unfold CROS_EC_ROLLBACK_COOKIE. rewrite (proj2 (Z.eqb_neq _ _)) by lia. done.
Qed.

(** ** Storing a record *)

Lemma half_write : (CONFIG_FLASH_WRITE_SIZE | half).
Proof. eapply Z.divide_trans; [apply write_erase|apply half_sectors]. Qed.
Lemma offset_sectors r : is_region r -> (CONFIG_FLASH_ERASE_SIZE | get_rollback_offset r).
Proof.
  intros Hr. rewrite offset_eq. apply Z.divide_add_r; [|apply Z.divide_mul_r, half_sectors].
  eapply Z.divide_trans; [apply erase_bank|apply rollback_banks].
Qed.
Lemma block_bounds : sizeof_data <= sizeof_block < sizeof_data + CONFIG_FLASH_WRITE_SIZE /\ sizeof_block <= half.
Proof.
  unfold sizeof_block. pose proof (round_up_bounds sizeof_data _ write_pos) as Hb. split; [done|].
  destruct half_write as [n E]. pose proof half_fits. pose proof write_pos. rewrite E in *.
  assert (DIV_ROUND_UP sizeof_data CONFIG_FLASH_WRITE_SIZE < n + 1); nia.
Qed.
Lemma length_block d : data_ok d -> Z.of_nat (length (block_of d)) = sizeof_block.
Proof.
  intros Hd. unfold block_of. rewrite length_app, length_encode, length_replicate by done.
  pose proof block_bounds. rewrite sizeof_data_eq in *. lia.
Qed.

Lemma erase_size_ok f : get_rollback_erase_size_bytes f = (f, Done half).
Proof.
  unfold get_rollback_erase_size_bytes, bind, assert. fold half. pose proof erase_pos. pose proof half_fits.
  pose proof half_eq. rewrite sizeof_data_eq in *. change sizeof_data with 44.
  destruct half_sectors as [n E].
  rewrite (proj2 (Z.eqb_eq (Z.rem half _) 0)) by (rewrite E; apply Z.rem_mul; lia).
  rewrite (proj2 (Z.ltb_lt _ _)) by lia. unfold ROLLBACK_REGIONS. rewrite (proj2 (Z.leb_le (2 * _) _)) by lia.
  by rewrite (proj2 (Z.leb_le _ _)) by lia.
Qed.

(** The other region is out of reach, and a region as it was gives the record
    that it gave. *)
Lemma rec_other f m p r n data :
  wf f -> is_region r -> 0 <= n <= half -> n <= Z.of_nat (length data) ->
  m = bcopy (mem f) (get_rollback_offset r) data n ->
  rec (with_mem m (with_power p f)) (1 - r) = rec f (1 - r).
Proof.
  intros Hf Hr Hn Hd ->. pose proof (region_range r Hr). pose proof (region_range _ (is_region_other r Hr)).
  pose proof (offset_apart r Hr). pose proof (wf_mem f Hf). pose proof sizeof_data_eq.
  unfold rec. cbn [mem with_mem]. by rewrite slice_bcopy_disjoint by lia.
Qed.

Lemma slice_ff n k : 0 <= k -> k <= n -> take (Z.to_nat k) (replicate (Z.to_nat n) 0xff) = replicate (Z.to_nat k) 0xff.
Proof. intros. rewrite take_replicate. f_equal. lia. Qed.

(** The erase: done, or the region as it was or spoilt. *)
Lemma erase_region f r g o :
  wf f -> is_region r -> crec_flash_erase (get_rollback_offset r) half f = (g, o) ->
  wf g /\ rec g (1 - r) = rec f (1 - r) /\
  match o with
  | Done e => if decide (e = EC_SUCCESS)
              then slice (mem g) (get_rollback_offset r) half = replicate (Z.to_nat half) 0xff else g = f
  | Off => g = f \/ rec g r = rec f r \/ score (rec g r) <= -1
  | AssertFailed => False
  end.
Proof.
  intros Hf Hr E. pose proof (region_range r Hr) as (H44 & Ho & Hfit). pose proof (wf_mem f Hf). pose proof erase_pos.
  unfold crec_flash_erase in E. destruct erase_pow2 as (k & Hk & Ek).
  replace (flash_range_ok _ _ _) with true in E
    by (symmetry; rewrite Ek; apply flash_range_ok_spec; [done|]; rewrite <- Ek;
        split_and!; [lia|lia|lia|by apply offset_sectors|apply half_sectors]).
  cbn [negb] in E.
  assert (Hz : 0 <= half) by lia. rewrite <- (wf_mem f Hf) in Hfit.
  pose proof (physical_erase_ok f (get_rollback_offset r) half half_sectors Ho Hz Hfit) as Hp.
  rewrite E in Hp. destruct Hp as [(e & He & [= -> ->])|(_ & n & p & o' & [= -> ->] & Hn & Hout & _)].
  { split_and!; [done|done|]. by rewrite decide_False. }
  assert (Hnu : 0 <= n * CONFIG_FLASH_ERASE_SIZE <= half) by (destruct Hout as [(_ & ?)|(_ & ? & _)]; nia).
  assert (Hlen : n * CONFIG_FLASH_ERASE_SIZE <= Z.of_nat (length (replicate (Z.to_nat half) 0xff)))
    by (rewrite length_replicate; lia).
  split_and!.
  - constructor; cbn [mem protect with_mem with_power]; [rewrite length_bcopy by lia; done|apply Hf].
  - by eapply rec_other.
  - destruct Hout as [[-> En]|(-> & En & _)]; cbn [mem with_mem].
    + rewrite decide_True by done. rewrite En in *. rewrite slice_bcopy_same by lia. apply slice_ff; lia.
    + right. destruct (decide (n = 0)) as [->|Hn0]; [left|right].
      * unfold rec. cbn [mem with_mem]. by rewrite Z.mul_0_l, bcopy_nil by done.
      * apply erased_score; [done|]. cbn [mem with_mem]. pose proof sector_word.
        assert (4 <= n * CONFIG_FLASH_ERASE_SIZE) by nia.
        rewrite slice_bcopy_inside by lia. rewrite Z.sub_diag. unfold slice. change (Z.to_nat 0) with 0%nat. rewrite drop_0.
        by rewrite (slice_ff half 4) by lia.
Qed.

Lemma block_cookie d j :
  data_ok d -> (j < 4)%nat -> block_of d !! (40 + j)%nat = le_bytes 4 (cookie d) !! j.
Proof.
  intros Hd Hj. pose proof (length_encode d Hd). unfold block_of. rewrite lookup_app_l by lia.
  unfold encode. rewrite !lookup_app_r; rewrite ?length_le_bytes, ?(ok_secret d Hd);
    change (Z.to_nat 4) with 4%nat; try lia. f_equal. lia.
Qed.

(** Fewer than 44 bytes of a record over erased flash are no valid record. *)
Lemma cut_write_score (m : list Z) o d n :
  0 <= o -> o + half <= Z.of_nat (length m) -> data_ok d -> 0 <= n <= 43 -> n <= Z.of_nat (length (block_of d)) ->
  slice m o half = replicate (Z.to_nat half) 0xff ->
  score (decode (slice (bcopy m o (block_of d) n) o sizeof_data)) <= -1.
Proof.
  intros Ho Hm Hd Hn Hl Hff. pose proof half_fits as Hh. rewrite sizeof_data_eq in Hh.
  set (m' := bcopy m o (block_of d) n).
  assert (Hb : forall j, (j < 4)%nat -> exists v, m' !! (Z.to_nat (o + 40) + j)%nat = Some v /\ 0 <= v /\
                 (n <= 40 + Z.of_nat j -> v = 0xff)).
  { intros j Hj. unfold m'. rewrite lookup_bcopy by lia. case_decide.
    - replace (Z.to_nat (o + 40) + j - Z.to_nat o)%nat with (40 + j)%nat by lia.
      rewrite block_cookie by done. unfold le_bytes. rewrite lookup_fmap_seqZ, decide_True by lia.
      eexists. split; [done|]. split; [apply (wrap_range 8); lia|lia].
    - exists 0xff. split; [|lia]. apply (f_equal (fun l => l !! (40 + j)%nat)) in Hff.
      rewrite lookup_slice, lookup_replicate_2 in Hff by lia. rewrite <- Hff. f_equal. lia. }
  destruct (Hb 0%nat ltac:(lia)) as (x & Ex & Hx & _). destruct (Hb 1%nat ltac:(lia)) as (y & Ey & Hy & _).
  destruct (Hb 2%nat ltac:(lia)) as (z & Ez & Hz & _). destruct (Hb 3%nat ltac:(lia)) as (w & Ew & _ & Hw).
  rewrite Hw in Ew by lia. apply (cut_score m' o x y z); try done.
  apply list_eq. intros i. destruct (decide (i < 4)%nat); [|by rewrite slice_none, lookup_ge_None_2 by (cbn; lia)].
  rewrite lookup_slice by lia. destruct i as [|[|[|[|i]]]]; [done|done|done|done|lia].
Qed.

(** A write to the erased region: done, or the region still erased or its
    record cut short. *)
Lemma write_region f r d g o :
  wf f -> is_region r -> data_ok d -> cookie d = CROS_EC_ROLLBACK_COOKIE ->
  slice (mem f) (get_rollback_offset r) half = replicate (Z.to_nat half) 0xff ->
  crec_flash_write (get_rollback_offset r) sizeof_block (block_of d) f = (g, o) ->
  wf g /\ rec g (1 - r) = rec f (1 - r) /\
  match o with
  | Done e => if decide (e = EC_SUCCESS) then rec g r = d else g = f
  | Off => score (rec g r) <= -1
  | AssertFailed => False
  end.
Proof.
  intros Hf Hr Hd Hc Hff E. pose proof (region_range r Hr) as (H44 & Ho & Hfit). pose proof (wf_mem f Hf). pose proof write_pos.
  destruct block_bounds as [[B1 B2] B3]. rewrite sizeof_data_eq in *. pose proof (length_block d Hd) as Hlb.
  assert (Hdiv : (CONFIG_FLASH_WRITE_SIZE | sizeof_block)) by apply Z.divide_factor_l.
  unfold crec_flash_write in E. destruct write_pow2 as (k & Hk & Ek).
  replace (flash_range_ok _ _ _) with true in E
    by (symmetry; rewrite Ek; apply flash_range_ok_spec; [done|]; rewrite <- Ek;
        split_and!; [lia|lia|lia| |done]; eapply Z.divide_trans; [apply write_erase|by apply offset_sectors]).
  cbn [negb] in E. assert (Hz : 0 <= sizeof_block) by lia.
  assert (Hm : get_rollback_offset r + sizeof_block <= Z.of_nat (length (mem f))) by lia.
  assert (Hl : sizeof_block <= Z.of_nat (length (block_of d))) by lia.
  pose proof (physical_write_ok f _ _ (block_of d) Hdiv Ho Hz Hm Hl) as Hp.
  rewrite E in Hp. destruct Hp as [(e & He & [= -> ->])|(_ & n & p & o' & [= -> ->] & Hn & Hout & _)].
  { split_and!; [done|done|]. by rewrite decide_False. }
  assert (Hnu : 0 <= n * CONFIG_FLASH_WRITE_SIZE <= sizeof_block) by (destruct Hout as [(_ & ?)|(_ & ? & _)]; nia).
  split_and!.
  - constructor; cbn [mem protect with_mem with_power]; [rewrite length_bcopy by lia; done|apply Hf].
  - by apply (rec_other f _ p r (n * CONFIG_FLASH_WRITE_SIZE) (block_of d)); try done; lia.
  - destruct Hout as [[-> En]|(-> & En & _)].
    + rewrite decide_True by done. rewrite En. unfold rec. cbn [mem with_mem].
      rewrite slice_bcopy_inside by (rewrite ?sizeof_data_eq; lia). rewrite Z.sub_diag. unfold block_of.
      rewrite slice_app_l by (rewrite ?length_encode, ?sizeof_data_eq by done; lia).
      rewrite slice_all by (rewrite length_encode by done; done). by apply decode_encode.
    + unfold rec. cbn [mem with_mem]. eapply cut_write_score; try done; lia.
Qed.

(** ** Updates *)

(** Storing: done, or the region's record as it was or spoilt. *)
Lemma store_spec f r d g o :
  wf f -> is_region r -> data_ok d -> cookie d = CROS_EC_ROLLBACK_COOKIE -> store_rollback r d f = (g, o) ->
  wf g /\ rec g (1 - r) = rec f (1 - r) /\
  match o with
  | Done e => if decide (e = EC_SUCCESS) then rec g r = d else rec g r = rec f r \/ score (rec g r) <= -1
  | Off => rec g r = rec f r \/ score (rec g r) <= -1
  | AssertFailed => False
  end.
Proof.
  intros Hf Hr Hd Hc. unfold store_rollback, bind at 1. rewrite erase_size_ok.
  pose proof (region_range r Hr) as (H44 & Ho & _).
  rewrite (proj2 (Z.ltb_ge _ _)), (not_running r Hr) by lia.
  unfold bind. destruct (crec_flash_erase _ _ f) as [f1 o1] eqn:E1.
  destruct (erase_region f r f1 o1 Hf Hr E1) as (Hf1 & Eo1 & Ho1).
  destruct o1 as [e1| |]; [|intros [= <- <-]; split_and!; try done; naive_solver|done].
  case_bool_decide as He; cbn [negb].
  2:{ intros [= <- <-]. rewrite decide_False in Ho1 by done. subst f1. split_and!; try done. by left. }
  rewrite decide_True in Ho1 by done. intros E2.
  destruct (write_region f1 r d g o Hf1 Hr Hd Hc Ho1 E2) as (Hg & Eo2 & Ho2).
  split_and!; [done|congruence|].
  destruct o as [e2| |]; [|by right|done]. case_decide; [done|]. subst g. right.
  apply erased_score; [done|]. rewrite <- (Z.add_0_r (get_rollback_offset r)), <- (slice_slice _ _ half) by lia.
  rewrite Ho1. unfold slice. change (Z.to_nat 0) with 0%nat. by rewrite drop_0, (slice_ff half 4) by lia.
Qed.

Hypothesis stack_buf : length (buf stack) = 32%nat.

Lemma buf_update ctx data n : buf (SHA256_update unrolled ctx data n) = buf ctx.
Proof. unfold SHA256_update. by case_match. Qed.
Lemma length_words (w : Z -> Z) l (out : list Z) :
  length out = 32%nat -> Forall (fun i => 0 <= i < 8) l ->
  length (fold_left (fun out i => bcopy out (Z.shiftl i 2) (UNPACK32 (w i)) 4) l out) = 32%nat.
Proof.
  revert out. induction l as [|i l IH]; intros out Ho Hl; [done|]. cbn [fold_left].
  apply Forall_cons_iff in Hl as [Hi Hl]. apply IH; [|done]. rewrite Z.shiftl_mul_pow2 by lia.
  rewrite length_bcopy; rewrite ?Ho; try lia. cbn. lia.
Qed.
Lemma length_final ctx : length (buf ctx) = 32%nat -> length (buf (SHA256_final unrolled ctx)) = 32%nat.
Proof.
  intros Hb. apply length_words; [done|].
  change (seqZ 0 8) with [0; 1; 2; 3; 4; 5; 6; 7]. repeat constructor; lia.
Qed.
Lemma length_add_entropy src add n local s :
  add_entropy unrolled stack src add n local = Some s -> length s = 32%nat.
Proof.
  unfold add_entropy. set (ctx := SHA256_update _ (SHA256_update _ _ _ _) _ _).
  assert (Hb : length (buf ctx) = 32%nat) by (unfold ctx; by rewrite !buf_update).
  revert Hb. generalize ctx. clear ctx. induction local as [|[x|] local IH]; intros ctx Hb; cbn [fold_left].
  - intros E%(inj Some). by rewrite <- E, length_take, length_final.
  - apply IH. by rewrite buf_update.
  - clear IH. induction local as [|y local IH]; [done|]. exact IH.
Qed.

(** The record that an update stores, if it gets that far. *)
Definition updated (v : Z) (entropy : option (list Z * Z)) (local : list (option Z)) (d : rollback_data) :
  option rollback_data :=
  match next_version v (bool_decide (is_Some entropy)) d with
  | inr _ => None
  | inl v =>
      match (match entropy with
             | None => Some (secret d)
             | Some (bytes, n) => add_entropy unrolled stack (secret d) bytes n local
             end) with
      | None => None
      | Some s => Some (Data (id d + 1) v s CROS_EC_ROLLBACK_COOKIE)
      end
  end.

Lemma latest_ok f r d : wf f -> latest f = (r, d) -> data_ok d.
Proof.
  intros Hf Hl. destruct (latest_cases f r d Hl) as (Hr & _ & Hc & _ & [(E & _)|(_ & -> & _)] & _).
  - rewrite E in *. pose proof (region_range r Hr). pose proof (wf_mem f Hf). unfold rec.
    apply decode_ok; [rewrite length_slice by (rewrite ?sizeof_data_eq; lia); done|].
    change (is_u32 (cookie (rec f r))). rewrite Hc. by vm_compute.
  - constructor; [cbn; lia|cbn; lia|done|by vm_compute].
Qed.

Lemma updated_ok v entropy local d d' :
  data_ok d -> - 2 ^ 31 <= v < 2 ^ 31 -> -1 <= id d < 2 ^ 31 - 1 -> updated v entropy local d = Some d' ->
  data_ok d' /\ id d' = id d + 1 /\ cookie d' = CROS_EC_ROLLBACK_COOKIE /\
  rollback_min_version d' = Z.max v (rollback_min_version d).
Proof.
  intros [Hi Hv Hs Hc] Hr Hid. unfold updated, next_version.
  destruct entropy as [[bytes n]|]; [rewrite bool_decide_true by done|rewrite bool_decide_false by (by intros [? ?])].
  - case_match eqn:Es; [|done]. intros [= <-]. pose proof (length_add_entropy _ _ _ _ _ Es).
    split_and!; cbn; try done; [constructor; cbn; [lia|case_match; lia|done|by vm_compute]|case_match; lia].
  - destruct (Z.ltb_spec v (rollback_min_version d)); [done|].
    destruct (Z.eqb_spec v (rollback_min_version d)); [done|]. intros [= <-].
    split_and!; cbn; try done; [constructor; cbn; [lia|lia|done|by vm_compute]|lia].
Qed.

(** An update with its outcome, over the old record [d]. *)
Lemma update_spec v entropy local buffer f g o r d :
  wf f -> latest f = (r, d) -> - 2 ^ 31 <= v < 2 ^ 31 -> id d < 2 ^ 31 - 1 ->
  rollback_update unrolled stack v entropy local buffer f = (g, o) ->
  wf g /\
  match o with
  | Done e =>
      if decide (e = EC_SUCCESS)
      then latest g = match updated v entropy local d with Some d' => (1 - r, d') | None => (r, d) end /\
           rec g r = rec f r
      else latest g = (r, d)
  | Off => exists d', updated v entropy local d = Some d' /\ (latest g = (r, d) \/ latest g = (1 - r, d'))
  | AssertFailed => False
  end.
Proof.
  intros Hf Hl Hv Hid. pose proof (latest_ok f r d Hf Hl) as Hd.
  destruct (latest_cases f r d Hl) as (Hr & Hid0 & _).
  unfold rollback_update, bind, gets. case_match; [intros [= <- <-]; by rewrite decide_False|].
  rewrite get_latest_eq, Hl. unfold updated at 1.
  pose proof (updated_ok v entropy local d) as Hup. unfold updated in *.
  destruct (next_version v _ d) as [w|e].
  2:{ intros [= <- <-]. split; [done|]. by case_decide. }
  destruct (match entropy with None => _ | Some _ => _ end) as [sec|]; [|intros [= <- <-]; by rewrite decide_False].
  destruct (Hup _ Hd Hv ltac:(lia) eq_refl) as (Hok & _ & Hck & _). clear Hup.
  replace (s32 (id d + 1)) with (id d + 1) by (unfold swrap; divlia).
  replace (Z.rem (r + 1) ROLLBACK_REGIONS) with (1 - r) by (destruct Hr as [-> | ->]; done).
  set (d' := Data _ _ _ _) in *. intros E.
  destruct (store_spec f (1 - r) d' g o Hf (is_region_other r Hr) Hok Hck E) as (Hg & Er & Ho).
  replace (1 - (1 - r)) with r in Er by lia. split; [done|].
  assert (Hnew : rec g (1 - r) = d' -> latest g = (1 - r, d')) by (intros; by eapply latest_new).
  assert (Hold : rec g (1 - r) = rec f (1 - r) \/ score (rec g (1 - r)) <= -1 -> latest g = (r, d))
    by (by apply latest_old).
  destruct o as [e| |]; [|by exists d'; auto|done]. case_decide; auto.
Qed.

(** ** Updates that are not disturbed *)

Definition rollback_open (f : flash) : Prop := unlocked f CONFIG_ROLLBACK_OFF CONFIG_ROLLBACK_SIZE.

Lemma open_region f r n : rollback_open f -> is_region r -> n <= half -> unlocked f (get_rollback_offset r) n.
Proof.
  intros Hu Hr Hn i Hi. apply Hu. pose proof half_eq. rewrite offset_eq in Hi. pose proof (region_range r Hr).
  destruct Hr as [-> | ->]; lia.
Qed.

(** No rollback bank is protected: the update is not refused. *)
Lemma open_not_protected f :
  rollback_open f -> bool_of_Z (Z.land (crec_flash_get_protect f) EC_FLASH_PROTECT_ROLLBACK_NOW) = false.
Proof.
  intros Hu. unfold EC_FLASH_PROTECT_ROLLBACK_NOW. rewrite has_bit, get_protect_bits by done.
  cbn [Z.eqb Pos.eqb andb orb]. unfold now. rewrite pstate_bit by done. cbn [orb].
  apply not_true_is_false. intros (i & Hi & Hl)%sees_has_bank.
  destruct Hl as [Hreg Hl]. enough (locked f i = false) by congruence.
  assert (Hb : ROLLBACK_BANK_OFFSET <= i < ROLLBACK_BANK_OFFSET + ROLLBACK_BANK_COUNT).
  { revert Hreg. unfold bank_region. destruct CONFIG_ROLLBACK; cbn [andb]; repeat case_match; try done; lia. }
  revert Hb. unfold ROLLBACK_BANK_OFFSET, ROLLBACK_BANK_COUNT. pose proof bank_pos.
  destruct rollback_banks as [[a Ea] [c Ec]]. rewrite Ea, Ec, !Z.div_mul by lia. intros Hb.
  rewrite <- (Z.div_mul i CONFIG_FLASH_BANK_SIZE) by lia. apply Hu. rewrite Ea, Ec. nia.
Qed.

Section Steady.
Hypothesis no_fault : forall f, flash_pre_op f = EC_SUCCESS.

Lemma store_done f r d :
  wf f -> is_region r -> data_ok d -> power f = None -> rollback_open f ->
  exists m, store_rollback r d f = (with_mem m f, Done EC_SUCCESS) /\ wf (with_mem m f).
Proof.
  intros Hf Hr Hd Hp Hu. pose proof (region_range r Hr) as (H44 & Ho & Hfit). pose proof (wf_mem f Hf).
  destruct block_bounds as [[B1 B2] B3]. rewrite sizeof_data_eq in *. pose proof (length_block d Hd) as Hlb.
  unfold store_rollback, bind at 1. rewrite erase_size_ok.
  rewrite (proj2 (Z.ltb_ge _ _)), (not_running r Hr) by lia.
  assert (He : forall g, wf g -> power g = None -> rollback_open g ->
    crec_flash_erase (get_rollback_offset r) half g =
      (with_mem (bcopy (mem g) (get_rollback_offset r) (replicate (Z.to_nat half) 0xff) half) g, Done EC_SUCCESS)).
  { intros g Hg Hpg Hug. unfold crec_flash_erase. destruct erase_pow2 as (k & Hk & Ek).
    replace (flash_range_ok _ _ _) with true
      by (symmetry; rewrite Ek; apply flash_range_ok_spec; [done|]; rewrite <- Ek;
          split_and!; [lia|lia|lia|by apply offset_sectors|apply half_sectors]).
    cbn [negb]. apply erase_done; try done; try lia; [apply half_sectors|by apply open_region]. }
  unfold bind. rewrite He by done. rewrite bool_decide_true by done. cbn [negb].
  set (m1 := bcopy (mem f) _ _ _). assert (Hm1 : length m1 = length (mem f)) by (apply length_bcopy; rewrite ?length_replicate; lia).
  assert (Hw : wf (with_mem m1 f)) by (constructor; cbn [mem protect with_mem]; [lia|apply Hf]).
  assert (Hdiv : (CONFIG_FLASH_WRITE_SIZE | sizeof_block)) by apply Z.divide_factor_l.
  unfold crec_flash_write. destruct write_pow2 as (k & Hk & Ek).
  replace (flash_range_ok _ _ _) with true
    by (symmetry; rewrite Ek; apply flash_range_ok_spec; [done|]; rewrite <- Ek;
        split_and!; [lia|lia|lia| |done]; eapply Z.divide_trans; [apply write_erase|by apply offset_sectors]).
  cbn [negb]. rewrite write_done; try done; try lia; [|by apply open_region].
  eexists. split; [done|]. constructor; cbn [mem protect with_mem]; [rewrite length_bcopy by lia; lia|apply Hf].
Qed.

Lemma update_done v entropy local buffer f r d d' :
  wf f -> latest f = (r, d) -> - 2 ^ 31 <= v < 2 ^ 31 -> id d < 2 ^ 31 - 1 -> power f = None -> rollback_open f ->
  updated v entropy local d = Some d' ->
  exists g, rollback_update unrolled stack v entropy local buffer f = (g, Done EC_SUCCESS) /\
    wf g /\ power g = None /\ rollback_open g /\ latest g = (1 - r, d') /\ rec g r = rec f r.
Proof.
  intros Hf Hl Hv Hid Hp Hu Hd'.
  assert (Hdone : exists m, rollback_update unrolled stack v entropy local buffer f = (with_mem m f, Done EC_SUCCESS)).
  { destruct (latest_cases f r d Hl) as (Hr & Hid0 & _). pose proof (latest_ok f r d Hf Hl) as Hd.
    pose proof (updated_ok v entropy local d d' Hd Hv ltac:(lia) Hd') as (Hok & _).
    unfold rollback_update, bind, gets. rewrite open_not_protected, get_latest_eq, Hl by done.
    unfold updated in Hd'. destruct (next_version v _ d) as [w|e]; [|done].
    destruct (match entropy with None => _ | Some _ => _ end) as [sec|]; [|done]. injection Hd' as <-.
    replace (s32 (id d + 1)) with (id d + 1) by (unfold swrap; divlia).
    replace (Z.rem (r + 1) ROLLBACK_REGIONS) with (1 - r) by (destruct Hr as [-> | ->]; done).
    destruct (store_done f (1 - r) _ Hf (is_region_other r Hr) Hok Hp Hu) as (m & E & _). by exists m. }
  destruct Hdone as [m E]. destruct (update_spec _ _ _ _ _ _ _ _ _ Hf Hl Hv Hid E) as (Hg & Ho).
  rewrite decide_True, Hd' in Ho by done. exists (with_mem m f). split_and!; try done; apply Ho.
Qed.
End Steady.

(** ** The secret *)

Lemma fold_extra xs ctx :
  fold_left (fun ctx extra =>
      match ctx, extra with
      | Some ctx, Some extra => Some (SHA256_update unrolled ctx [extra] 1)
      | _, _ => None
      end) (Some <$> xs) (Some ctx) =
  Some (fold_left (fun ctx data => SHA256_update unrolled ctx data (Z.of_nat (length data))) ((fun x => [x]) <$> xs) ctx).
Proof. revert ctx. induction xs as [|x xs IH]; intros ctx; [done|]. cbn [fmap list_fmap fold_left]. apply IH. Qed.

(** The new secret is the hash of the old one, the host's bytes and the local
    ones. *)
Lemma add_entropy_hash src add xs :
  Sha256Proofs.stack_ok stack -> is_bytes src -> length src = 32%nat -> is_bytes add -> is_bytes xs ->
  32 + Z.of_nat (length add) + Z.of_nat (length xs) < 2 ^ 29 ->
  add_entropy unrolled stack src add (Z.of_nat (length add)) (Some <$> xs) = Some (Fips.sha256 (src ++ add ++ xs)).
Proof.
  intros (Hb & Hby & Hbuf) Hs Hls Ha Hx Hlen. unfold add_entropy. rewrite fold_extra. f_equal.
  set (chunks := [src; add] ++ ((fun x => [x]) <$> xs)).
  assert (Hconcat : concat chunks = src ++ add ++ xs).
  { unfold chunks. cbn [app concat]. do 2 f_equal. clear. induction xs as [|x xs IH]; [done|].
    cbn [fmap list_fmap concat app]. by f_equal. }
  assert (Hbytes : Forall is_bytes chunks).
  { apply Forall_app. split; [by repeat constructor|]. apply Forall_fmap. eapply Forall_impl; [|exact Hx].
    intros x Hx'. by constructor. }
  assert (E : buf (SHA256_final unrolled (fold_left (fun ctx data =>
      SHA256_update unrolled ctx data (Z.of_nat (length data))) chunks (SHA256_init stack))) = Fips.sha256 (concat chunks)).
  { assert (Hn : Z.of_nat (length (concat chunks)) < 2 ^ 29) by (rewrite Hconcat, !length_app, Hls; lia).
    apply Sha256Proofs.final_correct; [|done].
    apply (Sha256Proofs.updates_absorbed unrolled chunks _ []); [by apply Sha256Proofs.init_absorbed|done|done]. }
  rewrite Hconcat in E. unfold chunks in E. cbn [app fold_left] in E. rewrite Hls in E. rewrite <- E.
  apply take_ge. rewrite E, Sha256Proofs.length_sha256. done.
Qed.

(** ** The properties *)

Lemma get_latest_iff buffer f r d : get_latest_rollback buffer f = Some (r, d) <-> latest f = (r, d).
Proof. rewrite get_latest_eq. split; [by intros [=]|by intros ->]. Qed.

Lemma next_refused v d e has : next_version v has d = inr e ->
  has = false /\ (e = EC_ERROR_INVAL /\ v < rollback_min_version d \/ e = EC_SUCCESS /\ v = rollback_min_version d).
Proof.
  unfold next_version. destruct has; [done|].
  destruct (Z.ltb_spec v (rollback_min_version d)); [intros [= <-]; auto|].
  destruct (Z.eqb_spec v (rollback_min_version d)); [intros [= <-]; auto|done].
Qed.
Lemma all_local local src add n :
  Forall is_Some local -> exists s, add_entropy unrolled stack src add n local = Some s.
Proof.
  unfold add_entropy. generalize (SHA256_update unrolled (SHA256_update unrolled (SHA256_init stack) src CONFIG_ROLLBACK_SECRET_SIZE) add n).
  intros ctx Hl. revert ctx. induction Hl as [|x local [y ->] _ IH]; intros ctx; cbn [fold_left]; [by eexists|apply IH].
Qed.

(** C2. Updates are atomic: whatever the record in force, wherever power is lost and
    whichever flash operation fails, afterwards the old record is in force
    unchanged, or the new one is: the next number, the larger of the versions
    and, without entropy, the same secret.  A reported success is the new
    record (or a version already in force), an error leaves the old one, and
    an update that nothing disturbs succeeds, unless it would decrease the
    version, which is refused. *)
Theorem rollback_update_atomic v entropy local buffer buffer' f r d :
  wf f -> - 2 ^ 31 <= v < 2 ^ 31 -> id d < 2 ^ 31 - 1 -> get_latest_rollback buffer f = Some (r, d) ->
  let '(g, o) := rollback_update unrolled stack v entropy local buffer f in
  let old := get_latest_rollback buffer' g = Some (r, d) in
  let new := exists d', get_latest_rollback buffer' g = Some (1 - r, d') /\ id d' = id d + 1 /\
               rollback_min_version d' = Z.max v (rollback_min_version d) /\
               (entropy = None -> secret d' = secret d) in
  wf g /\
  match o with
  | Done EC_SUCCESS => new \/ old /\ entropy = None /\ v = rollback_min_version d
  | Done _ => old
  | Off => old \/ new
  | AssertFailed => False
  end /\
  (power f = None -> rollback_open f -> (forall f, flash_pre_op f = EC_SUCCESS) -> Forall is_Some local ->
   o = Done (if decide (entropy = None /\ v < rollback_min_version d) then EC_ERROR_INVAL else EC_SUCCESS)).
Proof.
  intros Hf Hv Hid Hl%get_latest_iff. destruct (rollback_update _ _ _ _ _ _ f) as [g o] eqn:E. intros old new.
  destruct (update_spec _ _ _ _ _ _ _ _ _ Hf Hl Hv Hid E) as (Hg & Ho).
  destruct (latest_cases f r d Hl) as (_ & Hid0 & _). pose proof (latest_ok f r d Hf Hl) as Hd.
  assert (Hnew : forall d', updated v entropy local d = Some d' -> latest g = (1 - r, d') -> new).
  { intros d' Hu Hlg. destruct (updated_ok _ _ _ _ _ Hd Hv ltac:(lia) Hu) as (_ & Hi & _ & Hm).
    exists d'. split_and!; [by apply get_latest_iff|done|done|]. intros ->. revert Hu. unfold updated.
    destruct (next_version _ _ d); [|done]. intros E'. injection E' as E'. by rewrite <- E'. }
  assert (Hold : latest g = (r, d) -> old) by apply get_latest_iff.
  assert (Hnone : updated v entropy local d = None -> o = Done EC_SUCCESS ->
                  entropy = None /\ v = rollback_min_version d \/ False).
  { intros Hu ->. revert E Hu. unfold rollback_update, bind, gets. destruct (bool_of_Z _); [by intros [=]|].
    rewrite get_latest_eq, Hl. unfold updated. destruct (next_version _ _ d) as [w|e] eqn:En.
    - destruct (match entropy with None => _ | Some _ => _ end) as [sec|]; [by intros _ [=]|by intros [=]].
    - intros [= <- ->] _. apply next_refused in En as [Hb [[? _]|[_ ?]]]; [done|].
      left. split; [|done]. by destruct entropy; [rewrite bool_decide_true in Hb by done|]. }
  split_and!; [done| |].
  - destruct o as [e| |]; [|destruct Ho as (d' & Hu & [?|?]); eauto|done].
    destruct (decide (e = EC_SUCCESS)) as [->|Hne]; [|by destruct e; auto; done].
    destruct Ho as [Ho _]. destruct (updated v entropy local d) as [d'|] eqn:Hu; [eauto|].
    destruct (Hnone eq_refl eq_refl) as [[? ?]|[]]. auto.
  - intros Hp Hopen Hnf Hloc. destruct (next_version v (bool_decide (is_Some entropy)) d) as [w|e] eqn:En.
    + assert (Hup : exists d', updated v entropy local d = Some d').
      { unfold updated. rewrite En. destruct entropy as [[bytes n]|]; [|by eexists].
        destruct (all_local local (secret d) bytes n Hloc) as [s ->]. by eexists. }
      destruct Hup as [d' Hup].
      destruct (update_done Hnf v entropy local buffer f r d d' Hf Hl Hv Hid Hp Hopen Hup) as (g' & E' & _).
      rewrite E in E'. injection E' as _ ->. rewrite decide_False; [done|]. intros [-> Hlt]. revert En.
      unfold next_version. rewrite bool_decide_false by (by intros [? ?]). by rewrite (proj2 (Z.ltb_lt _ _)).
    + revert E. unfold rollback_update, bind, gets. rewrite open_not_protected, get_latest_eq, Hl, En by done.
      intros [= _ <-]. apply next_refused in En as [Hb He]. apply bool_decide_eq_false in Hb.
      destruct entropy; [by destruct Hb|]. destruct He as [[-> Hlt]|[-> ->]];
        [by rewrite decide_True|rewrite decide_False by lia; done].
Qed.

(** Updates, each with a supply of its own, and resets. *)
Inductive rollback_step : flash -> flash -> Prop :=
| step_update p v entropy local buffer f :
    - 2 ^ 31 <= v < 2 ^ 31 ->
    rollback_step f (rollback_update unrolled stack v entropy local buffer (with_power p f)).1
| step_boot p f : rollback_step f (boot p f).

Lemma latest_mem f g : mem f = mem g -> latest f = latest g.
Proof. intros E. unfold latest, rec. by rewrite E. Qed.
Lemma boot_wf p f : wf f -> wf (boot p f).
Proof. intros Hf. apply (kept_wf (reset p f)), keeps_pre_init. by apply reset_wf. Qed.
Lemma boot_mem p f : mem (boot p f) = mem f.
Proof.
  unfold boot, crec_flash_pre_init, bind, gets. cbv zeta. unfold Datatypes.id.
  unfold EC_FLASH_PROTECT_GPIO_ASSERTED, EC_FLASH_PROTECT_RO_AT_BOOT.
  rewrite !(has_bit _ 0), !(has_bit _ 3), !get_protect_bits by done. cbn [Z.eqb Pos.eqb andb orb]. rewrite !orb_false_r.
  destruct (wp_gpio (reset p f)) eqn:Eg; [|done]. destruct (at_boot (reset p f)) eqn:Eb; [|done].
  cbn [andb]. case_match; [|done]. by rewrite set_protect_now.
Qed.

Lemma rollback_step_version f g :
  wf f -> rollback_step f g -> id (latest f).2 < 2 ^ 31 - 1 ->
  wf g /\ id (latest g).2 <= id (latest f).2 + 1 /\
  rollback_min_version (latest f).2 <= rollback_min_version (latest g).2.
Proof.
  intros Hf Hs Hid. destruct Hs as [p v entropy local buffer f Hv|p f].
  2:{ rewrite (latest_mem (boot p f) f) by apply boot_mem. split; [by apply boot_wf|lia]. }
  assert (Hfp : wf (with_power p f)) by (destruct Hf; by constructor).
  rewrite (latest_mem f (with_power p f)) in * by done. generalize dependent (with_power p f). clear Hf f. intros f Hid Hf.
  destruct (latest f) as [r d] eqn:Hl. cbn [snd] in *.
  destruct (rollback_update _ _ _ _ _ _ f) as [g o] eqn:E. cbn [fst].
  destruct (update_spec _ _ _ _ _ _ _ _ _ Hf Hl Hv Hid E) as (Hg & Ho). split; [done|].
  destruct (latest_cases f r d Hl) as (_ & Hid0 & _). pose proof (latest_ok f r d Hf Hl) as Hd.
  assert (Hold : latest g = (r, d) -> id (latest g).2 <= id d + 1 /\ rollback_min_version d <= rollback_min_version (latest g).2)
    by (intros ->; cbn [snd]; lia).
  assert (Hnew : forall d', updated v entropy local d = Some d' -> latest g = (1 - r, d') ->
    id (latest g).2 <= id d + 1 /\ rollback_min_version d <= rollback_min_version (latest g).2).
  { intros d' Hu ->. cbn [snd]. destruct (updated_ok _ _ _ _ _ Hd Hv ltac:(lia) Hu) as (_ & -> & _ & ->). lia. }
  destruct o as [e| |]; [|destruct Ho as (d' & Hu & [?|?]); eauto|done].
  case_decide; [|auto]. destruct Ho as [Ho _]. destruct (updated v entropy local d) eqn:Hu; eauto.
Qed.

(** C3. The minimum version never decreases, over any number of updates with any
    versions and entropy, interrupted by power losses at any point, failing
    flash operations and resets (as long as the 31-bit sequence numbers last). *)
Theorem rollback_monotone n f g buffer :
  wf f -> nsteps rollback_step n f g -> id (latest f).2 + Z.of_nat n < 2 ^ 31 ->
  rollback_get_minimum_version buffer f <= rollback_get_minimum_version buffer g.
Proof.
  unfold rollback_get_minimum_version. rewrite !get_latest_eq.
  intros Hf Hs Hid. enough (rollback_min_version (latest f).2 <= rollback_min_version (latest g).2)
    by (by destruct (latest f), (latest g)).
  induction Hs as [f|n f h g Hfh _ IH]; [done|].
  destruct (rollback_step_version f h Hf Hfh ltac:(lia)) as (Hh & Hi & Hv).
  etrans; [done|]. apply IH; [done|lia].
Qed.

Lemma updated_entropy d rand xs :
  Sha256Proofs.stack_ok stack -> is_bytes (secret d) -> length (secret d) = 32%nat ->
  is_bytes rand -> length rand = 32%nat -> is_bytes xs -> Z.of_nat (length xs) < 2 ^ 28 ->
  updated (-1) (Some (rand, CONFIG_ROLLBACK_SECRET_SIZE)) (Some <$> xs) d =
  Some (Data (id d + 1) (Z.max (-1) (rollback_min_version d)) (Fips.sha256 (secret d ++ rand ++ xs)) CROS_EC_ROLLBACK_COOKIE).
Proof.
  intros Hst Hs Hls Hr Hlr Hx Hlx. unfold updated, next_version. rewrite bool_decide_true by done.
  replace CONFIG_ROLLBACK_SECRET_SIZE with (Z.of_nat (length rand)) by (rewrite Hlr; done).
  rewrite add_entropy_hash by (done || lia). do 2 f_equal. case_match; lia.
Qed.

Lemma latest_bytes f r d : wf f -> is_bytes (mem f) -> latest f = (r, d) -> is_bytes (secret d) /\ length (secret d) = 32%nat.
Proof.
  intros Hf Hb Hl. split; [|by apply (ok_secret d), (latest_ok f r)].
  destruct (latest_cases f r d Hl) as (_ & _ & _ & _ & [(-> & _)|(_ & -> & _)] & _); cbn [secret default_data].
  - unfold rec, decode, slice. cbn [secret]. by repeat apply Forall_take || apply Forall_drop.
  - apply Forall_replicate. unfold in_range. lia.
Qed.

(** C10. Resetting the secret leaves no copy of it: when nothing disturbs the two
    updates, both regions end up with fresh records, whose secrets are the
    SHA-256 digests of the old secret with the first random bytes, and of that
    digest with the second ones; versions are kept and the last record is in
    force. *)
Theorem entropy_reset f r d buffer rand0 xs0 buffer0 rand1 xs1 buffer1 :
  (forall f, flash_pre_op f = EC_SUCCESS) -> Sha256Proofs.stack_ok stack ->
  wf f -> is_bytes (mem f) -> power f = None -> rollback_open f ->
  get_latest_rollback buffer f = Some (r, d) -> id d + 2 < 2 ^ 31 ->
  is_bytes rand0 -> length rand0 = 32%nat -> is_bytes xs0 -> Z.of_nat (length xs0) < 2 ^ 28 ->
  is_bytes rand1 -> length rand1 = 32%nat -> is_bytes xs1 -> Z.of_nat (length xs1) < 2 ^ 28 ->
  let draws (i : nat) := if (i =? 0)%nat then (rand0, Some <$> xs0, buffer0) else (rand1, Some <$> xs1, buffer1) in
  let version := Z.max (-1) (rollback_min_version d) in
  let secret1 := Fips.sha256 (secret d ++ rand0 ++ xs0) in
  let secret2 := Fips.sha256 (secret1 ++ rand1 ++ xs1) in
  exists g,
    add_entropy_deferred unrolled stack draws (Entropy ADD_ENTROPY_RESET_ASYNC EC_RES_BUSY true) f =
      (g, Done (Entropy ADD_ENTROPY_RESET_ASYNC EC_RES_SUCCESS false)) /\
    read_rollback (1 - r) g = Some (Data (id d + 1) version secret1 CROS_EC_ROLLBACK_COOKIE) /\
    read_rollback r g = Some (Data (id d + 2) version secret2 CROS_EC_ROLLBACK_COOKIE) /\
    get_latest_rollback buffer g = Some (r, Data (id d + 2) version secret2 CROS_EC_ROLLBACK_COOKIE).
Proof.
  intros Hnf Hst Hf Hby Hp Hopen Hl%get_latest_iff Hid Hr0 Hl0 Hx0 Hlx0 Hr1 Hl1 Hx1 Hlx1 draws version secret1 secret2.
  destruct (latest_cases f r d Hl) as (Hr & Hid0 & _).
  destruct (latest_bytes f r d Hf Hby Hl) as [Hsb Hsl].
  set (d1 := Data (id d + 1) version secret1 CROS_EC_ROLLBACK_COOKIE).
  destruct (update_done Hnf (-1) (Some (rand0, CONFIG_ROLLBACK_SECRET_SIZE)) (Some <$> xs0) buffer0 f r d d1 Hf Hl
    ltac:(lia) ltac:(lia) Hp Hopen (updated_entropy d rand0 xs0 Hst Hsb Hsl Hr0 Hl0 Hx0 Hlx0))
    as (g1 & E1 & Hw1 & Hp1 & Ho1 & Hlat1 & _).
  assert (Hs1b : is_bytes secret1) by apply Sha256Proofs.sha256_bytes.
  assert (Hs1l : length secret1 = 32%nat) by apply Sha256Proofs.length_sha256.
  destruct (update_done Hnf (-1) (Some (rand1, CONFIG_ROLLBACK_SECRET_SIZE)) (Some <$> xs1) buffer1 g1 (1 - r) d1 _ Hw1 Hlat1
    ltac:(lia) ltac:(cbn; lia) Hp1 Ho1 (updated_entropy d1 rand1 xs1 Hst Hs1b Hs1l Hr1 Hl1 Hx1 Hlx1))
    as (g2 & E2 & Hw2 & _ & _ & Hlat2 & Hrec2).
  replace (1 - (1 - r)) with r in Hlat2 by lia. unfold d1 in Hlat2. cbn [id rollback_min_version secret] in Hlat2.
  replace (Z.max (-1) version) with version in Hlat2 by lia. replace (id d + 1 + 1) with (id d + 2) in Hlat2 by lia.
  fold secret2 in Hlat2. exists g2. split_and!.
  - unfold add_entropy_deferred. cbn [add_entropy_action]. change (draws <$> seq 0 (Z.to_nat ROLLBACK_REGIONS))
      with [(rand0, Some <$> xs0, buffer0); (rand1, Some <$> xs1, buffer1)].
    unfold bind at 1. cbn [add_entropy_loop]. unfold bind, rollback_add_entropy. rewrite E1, bool_decide_true by done. cbn [negb].
    rewrite E2, bool_decide_true by done. done.
  - rewrite read_rollback_rec by (by apply is_region_other). f_equal. rewrite Hrec2.
    destruct (latest_cases g1 (1 - r) d1 Hlat1) as (_ & _ & _ & _ & [(E & _)|(_ & E & _)] & _); [done|].
    apply (f_equal id) in E. cbn in E. lia.
  - rewrite read_rollback_rec by done. f_equal.
    destruct (latest_cases g2 r _ Hlat2) as (_ & _ & _ & _ & [(E & _)|(_ & E & _)] & _); [done|].
    apply (f_equal id) in E. cbn in E. lia.
  - by apply get_latest_iff.
Qed.
End Proofs.

(** ** A configuration

    Flash.v's small one: two halves of 48 bytes, of which neither is run. *)

#[export] Instance small_rollback_ok : @RollbackOk small_cfg small_ok.
Proof.
  constructor.
  - by exists 48.
  - by exists 3.
  - done.
  - done.
  - by intros region [-> | ->].
Qed.

Lemma flash_0_open : @rollback_open small_cfg flash_0.
Proof.
  intros i Hi. cbn in Hi. unfold locked, flash_0, aget. cbn [protect CONFIG_FLASH_BANK_SIZE small_cfg].
  assert (Hb : 0 <= i / 32 < 6) by divlia. generalize (i / 32) Hb. clear. intros b Hb.
  by rewrite list_lookup_total_alt, lookup_replicate_2 by lia.
Qed.

Lemma rollback_update_atomic_witness :
  let '(g, o) := @rollback_update small_cfg true Sha256Proofs.zero_ctx 1 None [] default_data flash_0 in
  o = Done EC_SUCCESS /\ @wf small_cfg g.
Proof.
  pose proof (@rollback_update_atomic small_cfg small_ok small_rollback_ok true Sha256Proofs.zero_ctx eq_refl
    1 None [] default_data default_data flash_0 0 default_data flash_0_wf ltac:(done) ltac:(done)
    ltac:(by vm_compute)) as E.
  destruct (@rollback_update small_cfg _ _ _ _ _ _ _) as [g o]. destruct E as (Hg & _ & E). split; [|done].
  by rewrite E by first [exact flash_0_open|constructor|done].
Defined.

Lemma rollback_monotone_witness :
  @rollback_get_minimum_version small_cfg default_data flash_0 <=
  @rollback_get_minimum_version small_cfg default_data
    (@rollback_update small_cfg true Sha256Proofs.zero_ctx 1 None [] default_data (with_power (Some 20%nat) flash_0)).1.
Proof.
  apply (@rollback_monotone small_cfg small_ok small_rollback_ok true Sha256Proofs.zero_ctx eq_refl 1);
    [apply flash_0_wf|apply nsteps_once, step_update; lia|by vm_compute].
Defined.

Lemma entropy_reset_witness :
  exists g s,
    @add_entropy_deferred small_cfg true Sha256Proofs.zero_ctx
      (fun i => if (i =? 0)%nat then (replicate 32 1, [], default_data) else (replicate 32 2, [], default_data))
      (Entropy ADD_ENTROPY_RESET_ASYNC EC_RES_BUSY true) flash_0 = (g, Done s) /\
    s = Entropy ADD_ENTROPY_RESET_ASYNC EC_RES_SUCCESS false.
Proof.
  assert (Hr1 : is_bytes (replicate 32 1)) by (by apply Forall_replicate).
  assert (Hr2 : is_bytes (replicate 32 2)) by (by apply Forall_replicate).
  assert (Hm : is_bytes (mem flash_0)).
  { unfold flash_0. cbn [mem]. repeat (apply Forall_app; split); [apply Forall_replicate|repeat constructor|apply Forall_replicate];
      done. }
  assert (Hl : @get_latest_rollback small_cfg default_data flash_0 = Some (0, default_data)) by (by vm_compute).
  assert (Hn : is_bytes []) by constructor.
  destruct (@entropy_reset small_cfg small_ok small_rollback_ok true Sha256Proofs.zero_ctx eq_refl
    flash_0 0 default_data default_data (replicate 32 1) [] default_data (replicate 32 2) [] default_data
    (fun _ => eq_refl) Sha256Proofs.zero_ctx_ok flash_0_wf Hm eq_refl flash_0_open Hl eq_refl
    Hr1 eq_refl Hn eq_refl Hr2 eq_refl Hn eq_refl)
    as (g & E & _). exact (ex_intro _ g (ex_intro _ _ (conj E eq_refl))).
Defined.
End Rollback.
