(* ===== verification/Cbi.v ===== *)
(** * Board information

    common/cbi.c, common/cbi_common.c and the driver of common/cbi_eeprom.c:
    a checksummed image of tagged values, cached in RAM and kept in a storage
    medium behind a driver interface ([Storage]).  The EEPROM driver implements
    it over an I2C bus.  The driver that reads strapping pins (cbi_gpio.c,
    which calls back into this file) is not modelled.

    An access outside the buffers the code names is [None]: the theorems show
    that well-formed images never cause one. *)

From stdpp Require Import gmap.
From S2P Require Import Prelude Bytes Crc.
Import Crc Bytes.

Module Cbi.

(** ** The image *)

(** src/include/cros_board_info.h:39-39 [cbi_magic] *)
Definition cbi_magic : list Z := [0x43; 0x42; 0x49].
(** src/include/cros_board_info.h:20-20 [CBI_IMAGE_SIZE_EEPROM] *)
Definition CBI_IMAGE_SIZE : Z := 256.
(** src/include/cros_board_info.h:17-17 [CBI_VERSION_MAJOR] *)
Definition CBI_VERSION_MAJOR : Z := 0.
Definition CBI_VERSION_MINOR : Z := 0.

(** Offsets in the header and the sizes of the two structures. *)
(** src/include/cros_board_info.h:41-59 [struct cbi_header] *)
Definition CRC : Z := 3.
Definition MINOR_VERSION : Z := 4.
Definition MAJOR_VERSION : Z := 5.
Definition TOTAL_SIZE : Z := 6.
Definition sizeof_header : Z := 8.
(** src/include/cros_board_info.h:61-65 [struct cbi_data] *)
Definition sizeof_data : Z := 2.

(** src/include/ec_commands.h:6622-6648 [enum cbi_data_tag] *)
Definition CBI_TAG_BOARD_VERSION : Z := 0.
Definition CBI_TAG_OEM_ID : Z := 1.
Definition CBI_TAG_SKU_ID : Z := 2.
Definition CBI_TAG_MODEL_ID : Z := 5.
Definition CBI_TAG_FW_CONFIG : Z := 6.
Definition CBI_TAG_PCB_SUPPLIER : Z := 7.
Definition CBI_TAG_SSFC : Z := 8.
Definition CBI_TAG_REWORK_ID : Z := 9.

(** Accesses to a buffer, checked. *)
Definition peek (img : list Z) (i : Z) : option Z := if i <? 0 then None else img !! Z.to_nat i.
Definition copy_in (img : list Z) (off : Z) (src : list Z) (n : Z) : option (list Z) :=
  if (0 <=? off) && (0 <=? n) && (off + n <=? Z.of_nat (length img)) && (n <=? Z.of_nat (length src))
  then Some (bcopy img off src n) else None.
Definition poke (img : list Z) (i v : Z) : option (list Z) := copy_in img i [v] 1.
Definition read_range (img : list Z) (off n : Z) : option (list Z) :=
  if (0 <=? off) && (0 <=? n) && (off + n <=? Z.of_nat (length img)) then Some (slice img off n) else None.

Definition total_size (img : list Z) : Z := le_at img TOTAL_SIZE 2.
Definition set_total_size (img : list Z) (v : Z) : option (list Z) := copy_in img TOTAL_SIZE (le_bytes 2 v) 2.

(** src/common/cbi.c:28-32 [cbi_crc8] *)
Definition cbi_crc8 (img : list Z) : option Z :=
  let n := total_size img - 3 - 1 in
  data ← read_range img (CRC + 1) n;
  Some (cros_crc8 data n).

(** The image and the position after the item. *)
(** src/common/cbi.c:34-51 [cbi_set_data] *)
Definition cbi_set_data (img : list Z) (p tag : Z) (buf : list Z) (size : Z) : option (list Z * Z) :=
  if size =? 0 then Some (img, p)
  else
    img ← poke img p (u8 tag);
    img ← poke img (p + 1) (u8 size);
    img ← copy_in img (p + sizeof_data) buf size;
    Some (img, p + (sizeof_data + size)).

(** A string is its bytes with the terminating zero; NULL is [None]. *)
(** src/common/cbi.c:53-59 [cbi_set_string] *)
Definition cbi_set_string (img : list Z) (p tag : Z) (str : option (list Z)) : option (list Z * Z) :=
  match str with
  | None => Some (img, p)
  | Some str => cbi_set_data img p tag str (Z.of_nat (length str))
  end.

(** The position of the first item with the tag; each turn advances by at
    least two bytes. *)
(** src/common/cbi.c:66-71 [cbi_find_tag] *)
Fixpoint find_from (fuel : nat) (img : list Z) (tag p : Z) : option (option Z) :=
  match fuel with
  | O => None
  | S fuel =>
      if p + sizeof_data <? total_size img then
        t ← peek img p;
        if t =? tag then Some (Some p)
        else
          size ← peek img (p + 1);
          find_from fuel img tag (p + (sizeof_data + size))
      else Some None
  end.

(** src/common/cbi.c:61-73 [cbi_find_tag] *)
Definition cbi_find_tag (img : list Z) (tag : Z) : option (option Z) :=
  find_from (S (Z.to_nat (total_size img))) img tag sizeof_header.

(** [bytes_after] is a [size_t]. *)
(** src/common/cbi.c:211-220 [cbi_remove_tag] *)
Definition cbi_remove_tag (img : list Z) (d : Z) : option (list Z) :=
  dsize ← peek img (d + 1);
  let size := sizeof_data + dsize in
  let next := d + size in
  let bytes_after := u32 (total_size img - next) in
  moved ← read_range img next bytes_after;
  img ← copy_in img d moved bytes_after;
  set_total_size img (u16 (total_size img - size)).

(** ** The storage and the cache *)

(** src/include/cros_board_info.h:72-76 [enum cbi_storage_type] *)
Inductive storage_type := CBI_STORAGE_TYPE_EEPROM | CBI_STORAGE_TYPE_GPIO | CBI_STORAGE_TYPE_FLASH.
#[export] Instance storage_type_eq_dec : EqDecision storage_type.
Proof. solve_decision. Defined.

(** The driver: results are 0 or an error; [load] is given what the buffer
    holds and returns it. *)
(** src/include/cros_board_info.h:81-91 [struct cbi_storage_driver] *)
Class Storage (Med : Type) := {
  cbi_storage_type : storage_type;
  store : list Z -> Med -> Z * Med;
  load : Z -> list Z -> Z -> Med -> Z * list Z * Med;
  is_protected : Med -> bool;
}.

(** The board: the size of the storage, whether locked fields may be written,
    and its callback. *)
Class CbiCfg := {
  CBI_FLASH_SIZE : Z;
  CONFIG_SYSTEM_UNLOCKED : bool;
  cbi_board_override : Z -> list Z -> Z -> ec_error * list Z * Z;
}.

Section Model.
Context {Med : Type} `{Storage Med} `{CbiCfg}.

(** The static variables, and the medium. *)
(** src/common/cbi.c:83-85 [cache_status, cbi, head] *)
Record cbi_state := Cbi {
  synced : bool;
  cbi : list Z;
  storage : Med;
}.
Definition with_synced (v : bool) (s : cbi_state) : cbi_state := Cbi v (cbi s) (storage s).
Definition with_cbi (v : list Z) (s : cbi_state) : cbi_state := Cbi (synced s) v (storage s).
Definition with_storage (v : Med) (s : cbi_state) : cbi_state := Cbi (synced s) (cbi s) v.

Definition M (A : Type) : Type := cbi_state -> option (A * cbi_state).
Definition ret {A} (a : A) : M A := fun s => Some (a, s).
Definition bind {A B} (m : M A) (k : A -> M B) : M B := fun s =>
  match m s with
  | None => None
  | Some (a, s) => k a s
  end.
Definition gets {A} (g : cbi_state -> A) : M A := fun s => Some (g s, s).
Definition modify (g : cbi_state -> cbi_state) : M unit := fun s => Some (tt, g s).
(** An access to the cached image, and one that changes it. *)
Definition on_cbi {A} (g : list Z -> option A) : M A := fun s => a ← g (cbi s); Some (a, s).
Definition edit_cbi (g : list Z -> option (list Z)) : M unit := fun s => img ← g (cbi s); Some (tt, with_cbi img s).

#[local] Notation "'do!' x := m 'in' k" := (bind m (fun x => k))
  (at level 10, x pattern, m at level 100, k at level 200).
#[local] Notation "m ;! k" := (bind m (fun _ => k)) (at level 199, right associativity).

(** [memset(cbi, 0, sizeof(cbi))], the magic number and an empty body. *)
Definition empty_image : list Z :=
  cbi_magic ++ replicate 3 0 ++ le_bytes 2 sizeof_header ++ replicate (Z.to_nat (CBI_IMAGE_SIZE - sizeof_header)) 0.
Definition set_version (img : list Z) : option (list Z) :=
  img ← poke img MAJOR_VERSION CBI_VERSION_MAJOR;
  poke img MINOR_VERSION CBI_VERSION_MINOR.
Definition update_crc (img : list Z) : option (list Z) :=
  crc ← cbi_crc8 img;
  poke img CRC crc.

(** src/common/cbi.c:87-98 [cbi_create] *)
Definition cbi_create : M ec_error :=
  modify (with_cbi empty_image) ;!
  edit_cbi set_version ;!
  edit_cbi update_crc ;!
  modify (with_synced true) ;!
  ret EC_SUCCESS.

(** src/common/cbi.c:100-103 [cbi_invalidate_cache] *)
Definition cbi_invalidate_cache : M unit := modify (with_synced false).

(** src/common/cbi.c:105-108 [cbi_get_cache_status] *)
Definition cbi_get_cache_status : M bool := gets synced.

(** [cbi_config->drv->load] into the cache at [pos]. *)
Definition load_cache (offset pos len : Z) : M Z := fun s =>
  old ← read_range (cbi s) pos len;
  let '(rv, data, st) := load offset old len (storage s) in
  img ← copy_in (cbi s) pos data len;
  Some (rv, Cbi (synced s) img st).

(** src/common/cbi.c:110-157 [do_cbi_read] *)
Definition do_cbi_read : M ec_error :=
  do! rv := load_cache 0 0 sizeof_header in
  if bool_of_Z rv then ret EC_ERROR_INVAL
  else
    do! img := gets cbi in
    if negb (bool_decide (slice img 0 3 = cbi_magic)) then ret EC_ERROR_INVAL
    else if CBI_VERSION_MAJOR <? aget img MAJOR_VERSION then ret EC_ERROR_INVAL
    else if (total_size img <? sizeof_header) || (CBI_IMAGE_SIZE <? total_size img) then ret EC_ERROR_OVERFLOW
    else
      do! rv := load_cache sizeof_header sizeof_header (total_size img - sizeof_header) in
      if bool_of_Z rv then ret EC_ERROR_INVAL
      else
        do! crc := on_cbi cbi_crc8 in
        do! img := gets cbi in
        if negb (bool_decide (cbi_storage_type = CBI_STORAGE_TYPE_GPIO)) && negb (crc =? aget img CRC)
        then ret EC_ERROR_INVAL
        else ret EC_SUCCESS.

(** The two attempts; [rv] is the result of the last one. *)
(** src/common/cbi.c:167-174 [cbi_read] *)
Fixpoint read_loop (n : nat) (rv : ec_error) : M ec_error :=
  match n with
  | O => ret rv
  | S n =>
      do! rv := do_cbi_read in
      if bool_decide (rv = EC_SUCCESS) then modify (with_synced true) ;! ret EC_SUCCESS
      else read_loop n rv
  end.

(** src/common/cbi.c:159-177 [cbi_read] *)
Definition cbi_read : M ec_error :=
  do! status := cbi_get_cache_status in
  if status then ret EC_SUCCESS else read_loop 2 EC_SUCCESS.

(** The result with the contents of the caller's buffer and its size. *)
(** src/common/cbi.c:185-209 [cbi_get_board_info] *)
Definition cbi_get_board_info (tag : Z) (buf : list Z) (size : Z) : M (ec_error * list Z * Z) :=
  do! rv := cbi_read in
  if negb (bool_decide (rv = EC_SUCCESS)) then ret (EC_ERROR_UNKNOWN, buf, size)
  else
    do! d := on_cbi (fun img => cbi_find_tag img tag) in
    match d with
    | None => ret (EC_ERROR_UNKNOWN, buf, size)
    | Some d =>
        do! dsize := on_cbi (fun img => peek img (d + 1)) in
        if size <? dsize then ret (EC_ERROR_INVAL, buf, size)
        else
          do! value := on_cbi (fun img => read_range img (d + sizeof_data) dsize) in
          do! buf := on_cbi (fun _ =>
            buf ← copy_in buf 0 (replicate (Z.to_nat size) 0) size;
            copy_in buf 0 value dsize) in
          ret (cbi_board_override tag buf dsize)
    end.

(** The error codes mix two enumerations: EC_RES_ACCESS_DENIED has the value
    of EC_ERROR_TIMEOUT. *)
(** src/common/cbi.c:222-260 [cbi_set_board_info] *)
Definition cbi_set_board_info (tag : Z) (buf : list Z) (size : Z) : M ec_error :=
  do! d := on_cbi (fun img => cbi_find_tag img tag) in
  if negb CONFIG_SYSTEM_UNLOCKED && bool_decide (is_Some d) &&
     ((tag =? CBI_TAG_BOARD_VERSION) || (tag =? CBI_TAG_OEM_ID))
  then ret EC_ERROR_TIMEOUT
  else
    do! d :=
      match d with
      | None => ret None
      | Some d =>
          do! dsize := on_cbi (fun img => peek img (d + 1)) in
          if negb (dsize =? size) then edit_cbi (fun img => cbi_remove_tag img d) ;! ret None
          else ret (Some d)
      end in
    match d with
    | None =>
        do! img := gets cbi in
        if CBI_IMAGE_SIZE <? total_size img + sizeof_data + size then ret EC_ERROR_OVERFLOW
        else
          edit_cbi (fun img =>
            '(img, p) ← cbi_set_data img (total_size img) tag buf size;
            set_total_size img (u16 p)) ;!
          ret EC_SUCCESS
    | Some d =>
        edit_cbi (fun img =>
          dsize ← peek img (d + 1);
          copy_in img (d + sizeof_data) buf dsize) ;!
        ret EC_SUCCESS
    end.

(** The value of EC_ERROR_ACCESS_DENIED. *)
Definition ACCESS_DENIED : Z := 7.
(** src/common/cbi.c:262-270 [cbi_write] *)
Definition cbi_write : M Z := fun s =>
  if is_protected (storage s) then Some (ACCESS_DENIED, s)
  else let '(rv, st) := store (cbi s) (storage s) in Some (rv, with_storage st s).

(** ** The fields *)

(** A field of [n] bytes: the result and the integer left in the caller's
    variable, which held [old]. *)
Definition get_field (tag n old : Z) : M (ec_error * Z) :=
  do! r := cbi_get_board_info tag (le_bytes n old) n in
  ret (r.1.1, le_at r.1.2 0 n).

(** src/common/cbi.c:283-288 [cbi_get_board_version] *)
Definition cbi_get_board_version : Z -> M (ec_error * Z) := get_field CBI_TAG_BOARD_VERSION 4.
(** src/common/cbi.c:290-295 [cbi_get_sku_id] *)
Definition cbi_get_sku_id : Z -> M (ec_error * Z) := get_field CBI_TAG_SKU_ID 4.
(** src/common/cbi.c:297-302 [cbi_get_oem_id] *)
Definition cbi_get_oem_id : Z -> M (ec_error * Z) := get_field CBI_TAG_OEM_ID 4.
(** src/common/cbi.c:304-309 [cbi_get_model_id] *)
Definition cbi_get_model_id : Z -> M (ec_error * Z) := get_field CBI_TAG_MODEL_ID 4.
(** src/common/cbi.c:311-317 [cbi_get_pcb_supplier] *)
Definition cbi_get_pcb_supplier : Z -> M (ec_error * Z) := get_field CBI_TAG_PCB_SUPPLIER 4.
(** src/common/cbi.c:319-323 [cbi_get_rework_id] *)
Definition cbi_get_rework_id : Z -> M (ec_error * Z) := get_field CBI_TAG_REWORK_ID 8.
(** src/common/cbi_common.c:17-22 [cbi_get_ssfc] *)
Definition cbi_get_ssfc : Z -> M (ec_error * Z) := get_field CBI_TAG_SSFC 4.
(** src/common/cbi_common.c:24-30 [cbi_get_fw_config] *)
Definition cbi_get_fw_config : Z -> M (ec_error * Z) := get_field CBI_TAG_FW_CONFIG 4.

(** ** Host commands *)

Definition EC_RES_SUCCESS : Z := 0.
Definition EC_RES_ERROR : Z := 2.
Definition EC_RES_INVALID_PARAM : Z := 3.
Definition EC_RES_ACCESS_DENIED : Z := 4.

(** src/include/ec_commands.h:6656-6656 [CBI_GET_RELOAD] *)
Definition CBI_GET_RELOAD : Z := BIT 0.
(** src/include/ec_commands.h:6671-6671 [CBI_SET_NO_SYNC] *)
Definition CBI_SET_NO_SYNC : Z := BIT 0.
(** src/include/ec_commands.h:6672-6672 [CBI_SET_INIT] *)
Definition CBI_SET_INIT : Z := BIT 1.
(** src/include/ec_commands.h:6698-6698 [EC_CBI_BIN_BUFFER_CLEAR] *)
Definition EC_CBI_BIN_BUFFER_CLEAR : Z := BIT 0.
(** src/include/ec_commands.h:6699-6699 [EC_CBI_BIN_BUFFER_WRITE] *)
Definition EC_CBI_BIN_BUFFER_WRITE : Z := BIT 1.

(** The status and the response; [response] is what its buffer holds. *)
(** src/common/cbi_common.c:32-47 [hc_cbi_get] *)
Definition hc_cbi_get (tag flag : Z) (response : list Z) : M (Z * list Z) :=
  let size := u8 (Z.min (Z.of_nat (length response)) 255) in
  (if bool_of_Z (Z.land flag CBI_GET_RELOAD) then cbi_invalidate_cache else ret tt) ;!
  do! r := cbi_get_board_info tag response size in
  let '(rv, response, size) := r in
  if negb (bool_decide (rv = EC_SUCCESS)) then ret (EC_RES_INVALID_PARAM, [])
  else ret (EC_RES_SUCCESS, take (Z.to_nat size) response).

(** src/common/cbi.c:428-461 [is_valid_cbi] *)
Definition is_valid_cbi (img : list Z) : option bool :=
  if negb (bool_decide (slice img 0 3 = cbi_magic)) then Some false
  else if CBI_VERSION_MAJOR <? aget img MAJOR_VERSION then Some false
  else if (total_size img <? sizeof_header) || (CBI_IMAGE_SIZE <? total_size img) then Some false
  else
    crc ← cbi_crc8 img;
    Some (crc =? aget img CRC).

(** The size is cut to the byte that [cbi_set_board_info] takes. *)
(** src/common/cbi.c:327-375 [common_cbi_set] *)
Definition common_cbi_set (tag flag size : Z) (data : list Z) : M Z :=
  do! protected := gets (fun s => is_protected (storage s)) in
  if protected && negb (bool_of_Z (Z.land flag CBI_SET_NO_SYNC)) then ret EC_RES_ACCESS_DENIED
  else
    do! early :=
      if bool_of_Z (Z.land flag CBI_SET_INIT) then
        do! valid := on_cbi is_valid_cbi in
        if negb CONFIG_SYSTEM_UNLOCKED && valid then ret (Some EC_RES_ACCESS_DENIED)
        else modify (with_cbi empty_image) ;! ret None
      else
        do! rv := cbi_read in
        ret (if negb (bool_decide (rv = EC_SUCCESS)) then Some EC_RES_ERROR else None) in
    match early with
    | Some rv => ret rv
    | None =>
        do! rv := cbi_set_board_info tag data (u8 size) in
        if negb (bool_decide (rv = EC_SUCCESS)) then ret EC_RES_INVALID_PARAM
        else
          edit_cbi set_version ;!
          edit_cbi update_crc ;!
          modify (with_synced true) ;!
          if bool_of_Z (Z.land flag CBI_SET_NO_SYNC) then ret EC_RES_SUCCESS
          else
            do! rv := cbi_write in
            ret (if bool_of_Z rv then EC_RES_ERROR else EC_RES_SUCCESS)
    end.

(** [data] is what follows the fixed part of the parameters; the sum is a
    [size_t]. *)
(** src/common/cbi.c:377-386 [hc_cbi_set] *)
Definition hc_cbi_set (tag flag size : Z) (data : list Z) (params_size : Z) : M Z :=
  if params_size <? u32 (12 + size) then ret EC_RES_INVALID_PARAM
  else common_cbi_set tag flag size data.

(** [load] into the response buffer, which holds [response]; the offset is
    cut to the byte that the driver takes. *)
(** src/common/cbi.c:389-425 [hc_cbi_bin_read] *)
Definition hc_cbi_bin_read (offset size : Z) (response : list Z) : M (Z * list Z) :=
  let max := u8 (Z.min (Z.of_nat (length response)) 255) in
  if max <? size then ret (EC_RES_INVALID_PARAM, [])
  else if CBI_FLASH_SIZE <=? offset then ret (EC_RES_INVALID_PARAM, [])
  else if CBI_FLASH_SIZE <? u32 (offset + size) then ret (EC_RES_INVALID_PARAM, [])
  else if offset <? CBI_IMAGE_SIZE then
    let read_size := if CBI_IMAGE_SIZE <? u32 (offset + size) then CBI_IMAGE_SIZE - offset else size in
    do! response := on_cbi (fun _ => copy_in response read_size (replicate (Z.to_nat (size - read_size)) 0xff) (size - read_size)) in
    do! old := on_cbi (fun _ => read_range response 0 read_size) in
    do! r := (fun s => let '(rv, data, st) := load (u8 offset) old read_size (storage s) in Some ((rv, data), with_storage st s)) in
    do! response := on_cbi (fun _ => copy_in response 0 r.2 read_size) in
    if bool_of_Z r.1 then ret (EC_RES_ERROR, []) else ret (EC_RES_SUCCESS, take (Z.to_nat size) response)
  else
    do! response := on_cbi (fun _ => copy_in response 0 (replicate (Z.to_nat size) 0xff) size) in
    ret (EC_RES_SUCCESS, take (Z.to_nat size) response).

(** src/common/cbi.c:463-520 [hc_cbi_bin_write] *)
Definition hc_cbi_bin_write (offset size flags : Z) (data : list Z) (params_size : Z) : M Z :=
  do! protected := gets (fun s => is_protected (storage s)) in
  if protected then ret EC_RES_ACCESS_DENIED
  else if params_size <? u32 (9 + size) then ret EC_RES_INVALID_PARAM
  else if CBI_FLASH_SIZE <=? offset then ret EC_RES_INVALID_PARAM
  else if CBI_FLASH_SIZE <? u32 (offset + size) then ret EC_RES_INVALID_PARAM
  else
    (if bool_of_Z (Z.land flags EC_CBI_BIN_BUFFER_CLEAR)
     then modify (with_cbi (replicate (Z.to_nat CBI_IMAGE_SIZE) 0xff)) else ret tt) ;!
    if offset <? CBI_IMAGE_SIZE then
      let write_size := if CBI_IMAGE_SIZE <? u32 (offset + size) then CBI_IMAGE_SIZE - offset else size in
      edit_cbi (fun img => copy_in img offset data write_size) ;!
      if bool_of_Z (Z.land flags EC_CBI_BIN_BUFFER_WRITE) then
        do! valid := on_cbi is_valid_cbi in
        if valid then
          do! rv := (fun s => let '(rv, st) := store (cbi s) (storage s) in Some (rv, with_storage st s)) in
          if bool_of_Z rv then ret EC_RES_ERROR
          else
            cbi_invalidate_cache ;!
            do! _ := cbi_read in
            do! status := cbi_get_cache_status in
            ret (if negb status then EC_RES_ERROR else EC_RES_SUCCESS)
        else ret EC_RES_ERROR
      else ret EC_RES_SUCCESS
    else ret EC_RES_ERROR.

(** Updates by the EC itself; the printing of [dump_cbi] aside, which reads
    the medium again. *)
(** src/common/cbi.c:544-570 [dump_cbi] *)
Definition dump_cbi : M unit := cbi_invalidate_cache ;! do! _ := cbi_read in ret tt.
Definition set_field (tag value : Z) : M ec_error :=
  do! protected := gets (fun s => is_protected (storage s)) in
  if protected then ret EC_ERROR_ACCESS_DENIED
  else
    do! rv := cbi_read in
    (if negb (bool_decide (rv = EC_SUCCESS)) then do! _ := cbi_create in ret tt else ret tt) ;!
    do! _ := cbi_set_board_info tag (le_bytes 4 value) 4 in
    edit_cbi update_crc ;!
    do! rv := cbi_write in
    if bool_of_Z rv then ret EC_ERROR_UNKNOWN
    else dump_cbi ;! ret EC_SUCCESS.
(** src/common/cbi.c:682-704 [cbi_set_fw_config] *)
Definition cbi_set_fw_config : Z -> M ec_error := set_field CBI_TAG_FW_CONFIG.
(** src/common/cbi.c:706-727 [cbi_set_ssfc] *)
Definition cbi_set_ssfc : Z -> M ec_error := set_field CBI_TAG_SSFC.
End Model.

(** ** The EEPROM *)

(** The bus: a block written at an offset, a block read into a buffer; and
    the state of the write protect pin. *)
Class I2c (Bus : Type) := {
  i2c_write_block : Z -> list Z -> Bus -> Z * Bus;
  i2c_read_block : Z -> list Z -> Z -> Bus -> Z * list Z * Bus;
  write_protect_is_asserted : Bus -> bool;
  CONFIG_BYPASS_CBI_EEPROM_WP_CHECK : bool;
}.

(** src/common/cbi_eeprom.c:25-25 [EEPROM_PAGE_WRITE_SIZE] *)
Definition EEPROM_PAGE_WRITE_SIZE : Z := 8.

Section Eeprom.
Context {Bus : Type} `{I2c Bus}.

(** src/common/cbi_eeprom.c:28-32 [eeprom_read] *)
Definition eeprom_read : Z -> list Z -> Z -> Bus -> Z * list Z * Bus := i2c_read_block.

(** src/common/cbi_eeprom.c:34-40 [eeprom_is_write_protected] *)
Definition eeprom_is_write_protected (b : Bus) : bool :=
  if CONFIG_BYPASS_CBI_EEPROM_WP_CHECK then false else write_protect_is_asserted b.

(** [p] is the offset in the image. *)
(** src/common/cbi_eeprom.c:47-61 [eeprom_write] *)
Fixpoint write_pages (fuel : nat) (img : list Z) (p rest : Z) (b : Bus) : Z * Bus :=
  match fuel with
  | O => (0, b)
  | S fuel =>
      if 0 <? rest then
        let size := Z.min EEPROM_PAGE_WRITE_SIZE rest in
        let '(rv, b) := i2c_write_block p (slice img p size) b in
        if bool_of_Z rv then (rv, b) else write_pages fuel img (p + size) (rest - size) b
      else (0, b)
  end.

(** src/common/cbi_eeprom.c:42-64 [eeprom_write] *)
Definition eeprom_write (img : list Z) (b : Bus) : Z * Bus :=
  write_pages (Z.to_nat (total_size img)) img 0 (total_size img) b.

(** src/common/cbi_eeprom.c:74-78 [eeprom_drv] *)
#[export] Instance eeprom_drv : Storage Bus := {
  cbi_storage_type := CBI_STORAGE_TYPE_EEPROM;
  store := eeprom_write;
  load := eeprom_read;
  is_protected := eeprom_is_write_protected;
}.
End Eeprom.

(** ** Well-formed images *)

(** An item is its tag and its value. *)
Definition enc (i : Z * list Z) : list Z := i.1 :: Z.of_nat (length i.2) :: i.2.
Definition body (items : list (Z * list Z)) : list Z := concat (enc <$> items).
Definition size_of (items : list (Z * list Z)) : Z := sizeof_header + Z.of_nat (length (body items)).
Definition item_ok (i : Z * list Z) : Prop := is_u8 i.1 /\ is_bytes i.2 /\ 0 < Z.of_nat (length i.2) < 256.

Definition image (crc minor major : Z) (items : list (Z * list Z)) (rest : list Z) : list Z :=
  [0x43; 0x42; 0x49; crc; minor; major; u8 (size_of items); u8 (Z.shiftr (size_of items) 8)] ++ body items ++ rest.

(** The image of the items: distinct tags with values of 1 to 255 bytes. *)
Definition sane (img : list Z) (items : list (Z * list Z)) : Prop :=
  exists crc minor major rest,
    img = image crc minor major items rest /\ is_bytes [crc; minor; major] /\ is_bytes rest /\
    size_of items + Z.of_nat (length rest) = CBI_IMAGE_SIZE /\ Forall item_ok items /\ NoDup items.*1.

(** The values by tag, and the bytes they take with the header. *)
Definition holds (img : list Z) (m : gmap Z (list Z)) : Prop :=
  exists items, sane img items /\ list_to_map items = m.
Definition used (m : gmap Z (list Z)) : Z :=
  map_fold (fun _ v n => sizeof_data + Z.of_nat (length v) + n) sizeof_header m.

Lemma peek_app a x b : peek (a ++ x :: b) (Z.of_nat (length a)) = Some x.
Proof.
  unfold peek. rewrite (proj2 (Z.ltb_ge _ _)) by lia. rewrite Nat2Z.id. by apply list_lookup_middle.
Qed.
Lemma copy_in_app a b c src :
  length b = length src -> copy_in (a ++ b ++ c) (Z.of_nat (length a)) src (Z.of_nat (length src)) = Some (a ++ src ++ c).
Proof.
  intros E. unfold copy_in, bcopy. rewrite !length_app.
  rewrite (proj2 (Z.leb_le 0 _)), (proj2 (Z.leb_le 0 (Z.of_nat (length src)))), !(proj2 (Z.leb_le _ _)) by lia.
  cbn [andb]. f_equal. rewrite <- Nat2Z.inj_add, !Nat2Z.id, take_app_length, firstn_all, <- E.
  by rewrite <- drop_drop, !drop_app_length.
Qed.
Lemma read_range_app a b c :
  read_range (a ++ b ++ c) (Z.of_nat (length a)) (Z.of_nat (length b)) = Some b.
Proof.
  unfold read_range, slice. rewrite !length_app.
  rewrite (proj2 (Z.leb_le 0 _)), (proj2 (Z.leb_le 0 (Z.of_nat (length b)))), (proj2 (Z.leb_le _ _)) by lia.
  cbn [andb]. by rewrite !Nat2Z.id, drop_app_length, take_app_length.
Qed.

Lemma body_app l1 l2 : body (l1 ++ l2) = body l1 ++ body l2.
Proof. unfold body. by rewrite fmap_app, concat_app. Qed.
Lemma body_cons i l : body (i :: l) = enc i ++ body l.
Proof. done. Qed.
Lemma length_enc i : Z.of_nat (length (enc i)) = 2 + Z.of_nat (length i.2).
Proof. unfold enc. cbn [length]. lia. Qed.
Lemma size_of_cons pre i post : size_of (pre ++ i :: post) = size_of (pre ++ post) + 2 + Z.of_nat (length i.2).
Proof. unfold size_of. rewrite !body_app, body_cons, !length_app. pose proof (length_enc i). lia. Qed.
Lemma size_of_pos items : 8 <= size_of items.
Proof. unfold size_of, sizeof_header. lia. Qed.
Lemma length_body items : (length items <= length (body items))%nat.
Proof.
  induction items as [|i items IH]; [done|]. rewrite body_cons, length_app. unfold enc. cbn [length]. lia.
Qed.

Lemma total_size_image c mi ma items rest :
  size_of items < 2 ^ 16 -> total_size (image c mi ma items rest) = size_of items.
Proof.
  intros Hn. unfold total_size. rewrite (le_at_two _ _ (u8 (size_of items)) (u8 (Z.shiftr (size_of items) 8)));
    [|done|done].
  pose proof (size_of_pos items). rewrite <- (u16_split (size_of items)) at 3; [lia|]. unfold in_range. lia.
Qed.

(** The header, and the image around an item. *)
Definition header (crc minor major : Z) (items : list (Z * list Z)) : list Z :=
  [0x43; 0x42; 0x49; crc; minor; major; u8 (size_of items); u8 (Z.shiftr (size_of items) 8)].
Lemma image_split c mi ma pre i post rest :
  image c mi ma (pre ++ i :: post) rest =
  (header c mi ma (pre ++ i :: post) ++ body pre) ++ enc i ++ body post ++ rest.
Proof. unfold image, header. rewrite body_app, body_cons, <- !app_assoc. done. Qed.
Lemma split_pos c mi ma items pre :
  Z.of_nat (length (header c mi ma items ++ body pre)) = size_of pre.
Proof. rewrite length_app. unfold size_of, sizeof_header. cbn [header length]. lia. Qed.

(** An item is where the sizes of the ones before it say. *)
Lemma item_at c mi ma pre i post rest :
  exists a, Z.of_nat (length a) = size_of pre /\
    image c mi ma (pre ++ i :: post) rest = a ++ enc i ++ body post ++ rest.
Proof. eexists. split; [apply split_pos|apply image_split]. Qed.

Lemma peek_tag c mi ma pre i post rest : peek (image c mi ma (pre ++ i :: post) rest) (size_of pre) = Some i.1.
Proof. destruct (item_at c mi ma pre i post rest) as (a & <- & ->). apply peek_app. Qed.
Lemma peek_size c mi ma pre i post rest :
  peek (image c mi ma (pre ++ i :: post) rest) (size_of pre + 1) = Some (Z.of_nat (length i.2)).
Proof.
  destruct (item_at c mi ma pre i post rest) as (a & <- & ->). unfold enc. cbn [app].
  change (i.1 :: ?l) with ([i.1] ++ l). rewrite app_assoc.
  replace (Z.of_nat (length a) + 1) with (Z.of_nat (length (a ++ [i.1]))) by (rewrite length_app; cbn [length]; lia).
  apply peek_app.
Qed.
Lemma read_value c mi ma pre i post rest :
  read_range (image c mi ma (pre ++ i :: post) rest) (size_of pre + sizeof_data) (Z.of_nat (length i.2)) = Some i.2.
Proof.
  destruct (item_at c mi ma pre i post rest) as (a & <- & ->). unfold enc. cbn [app].
  change (i.1 :: ?x :: ?l) with ([i.1; x] ++ l). rewrite app_assoc.
  replace (Z.of_nat (length a) + sizeof_data) with (Z.of_nat (length (a ++ [i.1; Z.of_nat (length i.2)])))
    by (rewrite length_app; unfold sizeof_data; cbn [length]; lia).
  apply read_range_app.
Qed.

(** ** Searching *)

Fixpoint pos_of (items : list (Z * list Z)) (tag p : Z) : option Z :=
  match items with
  | [] => None
  | i :: items => if i.1 =? tag then Some p else pos_of items tag (p + (sizeof_data + Z.of_nat (length i.2)))
  end.

Lemma find_from_spec post fuel c mi ma pre rest tag :
  size_of (pre ++ post) < 2 ^ 16 -> Forall item_ok post -> (length post < fuel)%nat ->
  find_from fuel (image c mi ma (pre ++ post) rest) tag (size_of pre) = Some (pos_of post tag (size_of pre)).
Proof.
  revert pre fuel. induction post as [|i post IH]; intros pre fuel Hn Hok Hf; (destruct fuel as [|fuel]; [cbn in Hf; lia|]);
    cbn [find_from pos_of]; rewrite total_size_image by done.
  - rewrite app_nil_r. by rewrite (proj2 (Z.ltb_ge _ _)) by (unfold sizeof_data; lia).
  - inversion_clear Hok as [|? ? (Hi & _ & Hv) Hok'].
    pose proof (size_of_cons pre i post) as Hs. pose proof (size_of_cons pre i []) as Hp. rewrite app_nil_r in Hp.
    assert (size_of pre <= size_of (pre ++ post)) by (unfold size_of; rewrite body_app, length_app; lia).
    rewrite (proj2 (Z.ltb_lt _ _)) by (unfold sizeof_data; lia).
    rewrite peek_tag, peek_size. cbn [mbind option_bind]. destruct (i.1 =? tag); [done|].
    unfold sizeof_data. replace (size_of pre + (2 + Z.of_nat (length i.2))) with (size_of (pre ++ [i])) by lia.
    change (i :: post) with ([i] ++ post). rewrite app_assoc. apply IH; [by rewrite <- app_assoc|done|cbn in Hf; lia].
Qed.

Lemma find_tag_spec c mi ma items rest tag :
  size_of items < 2 ^ 16 -> Forall item_ok items ->
  cbi_find_tag (image c mi ma items rest) tag = Some (pos_of items tag sizeof_header).
Proof.
  intros Hn Hok. unfold cbi_find_tag. rewrite total_size_image by done.
  apply (find_from_spec items _ c mi ma [] rest tag); [done|done|].
  pose proof (length_body items). unfold size_of, sizeof_header. lia.
Qed.

Lemma pos_of_none items tag p : tag ∉ items.*1 -> pos_of items tag p = None.
Proof.
  revert p. induction items as [|i items IH]; intros p Ht; cbn [pos_of]; [done|].
  apply not_elem_of_cons in Ht as [Hi Ht]. rewrite (proj2 (Z.eqb_neq _ _)) by congruence. by apply IH.
Qed.
Lemma pos_of_some pre tag v post p :
  tag ∉ pre.*1 -> pos_of (pre ++ (tag, v) :: post) tag p = Some (p + Z.of_nat (length (body pre))).
Proof.
  revert p. induction pre as [|i pre IH]; intros p Ht; cbn [pos_of app].
  - cbn [fst]. rewrite Z.eqb_refl. f_equal. cbn. lia.
  - apply not_elem_of_cons in Ht as [Hi Ht]. rewrite (proj2 (Z.eqb_neq _ _)) by congruence. rewrite IH by done.
    rewrite body_cons, length_app. pose proof (length_enc i). unfold sizeof_data. f_equal. lia.
Qed.

(** A tag is missing, or it is that of exactly one item. *)
Lemma item_cases (items : list (Z * list Z)) tag :
  NoDup items.*1 ->
  ((tag ∉ items.*1) /\ (list_to_map items : gmap Z (list Z)) !! tag = None) \/
  (exists pre v post, items = pre ++ (tag, v) :: post /\ (tag ∉ pre.*1) /\ (tag ∉ post.*1) /\
     (list_to_map items : gmap Z (list Z)) !! tag = Some v).
Proof.
  intros Hn. destruct ((list_to_map items : gmap Z (list Z)) !! tag) as [v|] eqn:E.
  - right. apply elem_of_list_to_map in E; [|done]. apply list_elem_of_split in E as (pre & post & ->).
    exists pre, v, post. rewrite fmap_app in Hn. cbn in Hn. apply list.NoDup_app in Hn as (_ & Hd & Hn).
    apply list.NoDup_cons in Hn as [Hp _]. split_and!; [done| |done|done].
    intros Hi. apply (Hd tag); [done|left].
  - left. split; [by apply not_elem_of_list_to_map|done].
Qed.

Lemma find_tag_none c mi ma items rest tag :
  size_of items < 2 ^ 16 -> Forall item_ok items -> tag ∉ items.*1 ->
  cbi_find_tag (image c mi ma items rest) tag = Some None.
Proof. intros. rewrite find_tag_spec by done. f_equal. by apply pos_of_none. Qed.
Lemma find_tag_some c mi ma pre tag v post rest :
  size_of (pre ++ (tag, v) :: post) < 2 ^ 16 -> Forall item_ok (pre ++ (tag, v) :: post) -> tag ∉ pre.*1 ->
  cbi_find_tag (image c mi ma (pre ++ (tag, v) :: post) rest) tag = Some (Some (size_of pre)).
Proof. intros. rewrite find_tag_spec, pos_of_some by done. done. Qed.

(** ** Changing the image *)

Lemma image_header c mi ma items rest : image c mi ma items rest = header c mi ma items ++ body items ++ rest.
Proof. done. Qed.
Lemma set_total_header c mi ma items0 items l :
  set_total_size (header c mi ma items0 ++ l) (size_of items) = Some (header c mi ma items ++ l).
Proof.
  unfold set_total_size, header. rewrite le_bytes2.
  exact (copy_in_app [0x43; 0x42; 0x49; c; mi; ma] [_; _] l [u8 (size_of items); u8 (Z.shiftr (size_of items) 8)] eq_refl).
Qed.
Lemma total_size_header c mi ma items l :
  size_of items < 2 ^ 16 -> total_size (header c mi ma items ++ l) = size_of items.
Proof. intros Hn. rewrite <- (total_size_image c mi ma items [] Hn), image_header. done. Qed.

Lemma copy_in_take img off src n :
  0 <= n <= Z.of_nat (length src) -> copy_in img off src n = copy_in img off (take (Z.to_nat n) src) n.
Proof.
  intros Hn. unfold copy_in, bcopy. rewrite length_take, take_take, Nat.min_id, Nat.min_l by lia.
  rewrite Z2Nat.id by lia. rewrite !(proj2 (Z.leb_le n _)) by lia. done.
Qed.
(** Copying over the middle of a list. *)
Lemma copy_in_at a b c src off n :
  off = Z.of_nat (length a) -> n = Z.of_nat (length src) -> length b = length src ->
  copy_in (a ++ b ++ c) off src n = Some (a ++ src ++ c).
Proof. intros -> -> E. by apply copy_in_app. Qed.
Lemma copy_in_0 b c src n :
  n = Z.of_nat (length src) -> length b = length src -> copy_in (b ++ c) 0 src n = Some (src ++ c).
Proof. intros. by apply (copy_in_at []). Qed.
Lemma read_range_at a b c off n :
  off = Z.of_nat (length a) -> n = Z.of_nat (length b) -> read_range (a ++ b ++ c) off n = Some b.
Proof. intros -> ->. apply read_range_app. Qed.

Lemma remove_tag_spec c mi ma pre i post rest :
  size_of (pre ++ i :: post) < 2 ^ 16 ->
  exists rest', cbi_remove_tag (image c mi ma (pre ++ i :: post) rest) (size_of pre) =
      Some (image c mi ma (pre ++ post) rest') /\
    rest' = drop (length (body post)) (enc i ++ body post) ++ rest.
Proof.
  intros Hn. eexists. split; [|done]. unfold cbi_remove_tag. rewrite peek_size. cbn [mbind option_bind].
  rewrite total_size_image by done. pose proof (size_of_cons pre i post) as Hs. pose proof (size_of_pos pre).
  assert (Hp : size_of (pre ++ post) = size_of pre + Z.of_nat (length (body post)))
    by (unfold size_of; rewrite body_app, length_app; lia).
  unfold sizeof_data. replace (u32 _) with (Z.of_nat (length (body post))) by (symmetry; unfold wrap; divlia).
  rewrite image_split. set (a := header c mi ma (pre ++ i :: post) ++ body pre).
  assert (Ha : size_of pre = Z.of_nat (length a)) by (symmetry; apply split_pos).
  rewrite app_assoc at 1. rewrite read_range_at; [|rewrite length_app, Ha; pose proof (length_enc i); lia|done].
  cbn [mbind option_bind].
  set (tl := drop (length (body post)) (enc i ++ body post)).
  replace (enc i ++ body post ++ rest) with (take (length (body post)) (enc i ++ body post) ++ tl ++ rest)
    by (unfold tl; rewrite app_assoc, take_drop; by rewrite <- app_assoc).
  rewrite copy_in_at; [|done|done|rewrite length_take, length_app; lia].
  cbn [mbind option_bind]. unfold a. rewrite <- app_assoc, total_size_header by done.
  replace (u16 _) with (size_of (pre ++ post)) by (symmetry; rewrite wrap_id; [lia|unfold in_range; lia]).
  rewrite set_total_header. rewrite image_header, body_app, <- app_assoc. done.
Qed.

Lemma overwrite_spec c mi ma pre tag v post rest buf :
  (length v <= length buf)%nat ->
  copy_in (image c mi ma (pre ++ (tag, v) :: post) rest) (size_of pre + sizeof_data) buf (Z.of_nat (length v)) =
  Some (image c mi ma (pre ++ (tag, take (length v) buf) :: post) rest).
Proof.
  intros Hl. rewrite copy_in_take, Nat2Z.id by lia. rewrite !image_split.
  assert (Hs : size_of (pre ++ (tag, take (length v) buf) :: post) = size_of (pre ++ (tag, v) :: post)).
  { rewrite !size_of_cons. cbn [snd]. rewrite length_take. lia. }
  unfold header. rewrite Hs. fold (header c mi ma (pre ++ (tag, v) :: post)).
  set (a := header c mi ma (pre ++ (tag, v) :: post) ++ body pre). unfold enc. cbn [fst snd].
  rewrite length_take, Nat.min_l by lia.
  change ((tag :: Z.of_nat (length v) :: v) ++ body post ++ rest) with ([tag; Z.of_nat (length v)] ++ v ++ body post ++ rest).
  rewrite app_assoc, copy_in_at; [by rewrite <- !app_assoc|..].
  - rewrite length_app. unfold a. rewrite <- (split_pos c mi ma (pre ++ (tag, v) :: post) pre). unfold sizeof_data. cbn [length]. lia.
  - rewrite length_take. lia.
  - rewrite length_take. lia.
Qed.

Lemma append_spec c mi ma items rest tag buf size :
  is_u8 tag -> 0 < size < 256 -> size <= Z.of_nat (length buf) -> 2 + size <= Z.of_nat (length rest) ->
  cbi_set_data (image c mi ma items rest) (size_of items) tag buf size =
  Some (header c mi ma items ++ body (items ++ [(tag, take (Z.to_nat size) buf)]) ++ drop (Z.to_nat (2 + size)) rest,
        size_of (items ++ [(tag, take (Z.to_nat size) buf)])).
Proof.
  intros Ht Hs Hb Hr. unfold cbi_set_data. rewrite (proj2 (Z.eqb_neq _ _)) by lia.
  rewrite !wrap_id by (unfold in_range in *; lia). unfold poke.
  assert (Hl : length (take (Z.to_nat size) buf) = Z.to_nat size) by (rewrite length_take; lia).
  destruct rest as [|x [|y rest]]; [cbn in Hr; lia..|]. cbn [length] in Hr.
  assert (Ha : size_of items = Z.of_nat (length (header c mi ma items ++ body items))) by (symmetry; apply split_pos).
  rewrite image_header, app_assoc. change (x :: y :: rest) with ([x] ++ (y :: rest)).
  rewrite copy_in_at by done. cbn [mbind option_bind]. change ([tag] ++ y :: rest) with ([tag] ++ [y] ++ rest).
  rewrite (app_assoc _ [tag]), copy_in_at; [|rewrite length_app; cbn [length]; lia|done|done]. cbn [mbind option_bind].
  rewrite <- (take_drop (Z.to_nat size) rest) at 1. rewrite (app_assoc _ [size]), copy_in_take by lia.
  rewrite copy_in_at; [|rewrite length_app, length_app; unfold sizeof_data; cbn [length]; lia|lia|rewrite length_take; lia].
  cbn [mbind option_bind]. f_equal. f_equal.
  - rewrite body_app, body_cons. unfold enc. cbn [fst snd body fmap list_fmap concat]. rewrite Hl, Z2Nat.id by lia.
    rewrite <- !app_assoc. do 2 f_equal. cbn [app]. do 2 f_equal.
    f_equal. replace (Z.to_nat (2 + size)) with (S (S (Z.to_nat size))) by lia. done.
  - pose proof (size_of_cons items (tag, take (Z.to_nat size) buf) []) as E. rewrite app_nil_r in E. cbn [snd] in E.
    unfold sizeof_data. lia.
Qed.

(** ** Versions and checksums *)

Lemma set_version_spec c mi ma items rest : set_version (image c mi ma items rest) = Some (image c 0 0 items rest).
Proof.
  assert (E : poke (image c mi ma items rest) MAJOR_VERSION CBI_VERSION_MAJOR = Some (image c mi 0 items rest))
    by exact (copy_in_app [0x43; 0x42; 0x49; c; mi] [ma] _ [0] eq_refl).
  unfold set_version. rewrite E. exact (copy_in_app [0x43; 0x42; 0x49; c] [mi] _ [0] eq_refl).
Qed.

Definition covered (minor major : Z) (items : list (Z * list Z)) : list Z :=
  [minor; major; u8 (size_of items); u8 (Z.shiftr (size_of items) 8)] ++ body items.
Definition crc_of (minor major : Z) (items : list (Z * list Z)) : Z := hash8 0 (covered minor major items).

Lemma cbi_crc8_spec c mi ma items rest :
  size_of items < 2 ^ 16 -> cbi_crc8 (image c mi ma items rest) = Some (crc_of mi ma items).
Proof.
  intros Hn. unfold cbi_crc8. rewrite total_size_image by done.
  assert (Hl : size_of items - 3 - 1 = Z.of_nat (length (covered mi ma items)))
    by (unfold covered, size_of, sizeof_header; rewrite length_app; cbn [length]; lia).
  rewrite Hl. change (image c mi ma items rest) with ([0x43; 0x42; 0x49; c] ++ covered mi ma items ++ rest).
  rewrite read_range_at by done. done.
Qed.
Lemma update_crc_spec c mi ma items rest :
  size_of items < 2 ^ 16 -> update_crc (image c mi ma items rest) = Some (image (crc_of mi ma items) mi ma items rest).
Proof.
  intros Hn. unfold update_crc. rewrite cbi_crc8_spec by done. cbn [mbind option_bind].
  exact (copy_in_app [0x43; 0x42; 0x49] [c] _ [crc_of mi ma items] eq_refl).
Qed.

Lemma is_valid_image c mi ma items rest :
  size_of items <= CBI_IMAGE_SIZE ->
  is_valid_cbi (image c mi ma items rest) = Some (negb (0 <? ma) && (crc_of mi ma items =? c)).
Proof.
  intros Hn. unfold CBI_IMAGE_SIZE in Hn. unfold is_valid_cbi. rewrite bool_decide_true by done. cbn [negb].
  change (aget (image c mi ma items rest) MAJOR_VERSION) with ma. unfold CBI_VERSION_MAJOR.
  destruct (0 <? ma); [done|]. rewrite total_size_image by lia. pose proof (size_of_pos items).
  rewrite (proj2 (Z.ltb_ge (size_of items) sizeof_header)) by (unfold sizeof_header; lia).
  rewrite (proj2 (Z.ltb_ge CBI_IMAGE_SIZE _)) by (unfold CBI_IMAGE_SIZE; lia). cbn [orb].
  rewrite cbi_crc8_spec by lia. done.
Qed.

(** ** Values by tag *)

Lemma map_split pre tag v post :
  tag ∉ pre.*1 -> tag ∉ post.*1 -> NoDup (pre ++ (tag, v) :: post).*1 ->
  let m := list_to_map (pre ++ post) : gmap Z (list Z) in
  m !! tag = None /\ list_to_map (pre ++ (tag, v) :: post) = <[tag := v]> m.
Proof.
  intros Hp Hq Hn m. split.
  - apply not_elem_of_list_to_map. rewrite fmap_app. by apply not_elem_of_app.
  - unfold m. rewrite <- list_to_map_cons. apply list_to_map_proper; [done|]. symmetry. apply Permutation_middle.
Qed.

Lemma used_insert m tag v : m !! tag = None -> used (<[tag := v]> m) = sizeof_data + Z.of_nat (length v) + used m.
Proof. intros Hm. unfold used. rewrite map_fold_insert_L; [done|lia|done]. Qed.
Lemma used_items items : NoDup items.*1 -> used (list_to_map items) = size_of items.
Proof.
  induction items as [|[t v] items IH]; intros Hn.
  - cbn [list_to_map foldr]. unfold used. rewrite map_fold_empty. done.
  - cbn [fmap list_fmap fst] in Hn. apply list.NoDup_cons in Hn as [Ht Hn]. rewrite list_to_map_cons, used_insert, IH by
      (done || by apply not_elem_of_list_to_map).
    pose proof (size_of_cons [] (t, v) items) as E. cbn [app snd] in E. unfold sizeof_data. lia.
Qed.

(** ** Setting a value *)

Lemma sane_intro c mi ma items rest :
  is_bytes [c; mi; ma] -> is_bytes rest -> size_of items + Z.of_nat (length rest) = CBI_IMAGE_SIZE ->
  Forall item_ok items -> NoDup items.*1 -> sane (image c mi ma items rest) items.
Proof. intros. exists c, mi, ma, rest. done. Qed.

Lemma is_bytes_enc i : item_ok i -> is_bytes (enc i).
Proof. intros (Ht & Hv & Hl). unfold enc. repeat constructor; try apply Ht; try lia; done. Qed.
Lemma is_bytes_body items : Forall item_ok items -> is_bytes (body items).
Proof.
  induction 1 as [|i items Hi _ IH]; [by constructor|]. rewrite body_cons. apply Forall_app. split; [by apply is_bytes_enc|done].
Qed.

Section Set_.
Context {Med : Type} `{Storage Med} `{CbiCfg}.
#[local] Abbreviation cbi_state := (@cbi_state Med).

(** Whether a tag is one of the locked ones, and whether a value fits. *)
Definition locked (tag : Z) : bool :=
  negb CONFIG_SYSTEM_UNLOCKED && ((tag =? CBI_TAG_BOARD_VERSION) || (tag =? CBI_TAG_OEM_ID)).
Definition fits (tag size : Z) (m : gmap Z (list Z)) : bool := used (delete tag m) + sizeof_data + size <=? CBI_IMAGE_SIZE.
Definition update (tag size : Z) (buf : list Z) (m : gmap Z (list Z)) : gmap Z (list Z) :=
  if size =? 0 then delete tag m else <[tag := take (Z.to_nat size) buf]> m.

Lemma tags_snoc (items : list (Z * list Z)) tag v : NoDup items.*1 -> tag ∉ items.*1 -> NoDup (items ++ [(tag, v)]).*1.
Proof.
  intros Hn Ht. rewrite fmap_app. apply list.NoDup_app. split_and!; [done| |apply NoDup_singleton].
  intros t Hi Hj. apply list_elem_of_singleton in Hj as ->. done.
Qed.

(** Adding an item at the end, as far as it fits. *)
Lemma append_item c mi ma items rest tag buf size (s : cbi_state) :
  sane (image c mi ma items rest) items -> is_bytes [c; mi; ma] -> is_bytes rest ->
  size_of items + Z.of_nat (length rest) = CBI_IMAGE_SIZE ->
  tag ∉ items.*1 -> is_u8 tag -> 0 <= size < 256 -> size <= Z.of_nat (length buf) -> is_bytes buf ->
  size_of items + sizeof_data + size <= CBI_IMAGE_SIZE ->
  exists img', (img ← Some (image c mi ma items rest);
      '(img, p) ← cbi_set_data img (total_size img) tag buf size; set_total_size img (u16 p)) = Some img' /\
    holds img' (update tag size buf (list_to_map items)).
Proof.
  intros Hsane Hh Hr Hl Ht Ht8 Hs Hb Hby Hfit. unfold CBI_IMAGE_SIZE, sizeof_data in *. cbn [mbind option_bind].
  pose proof (size_of_pos items). rewrite total_size_image by lia. unfold update.
  destruct Hsane as (? & ? & ? & ? & _ & _ & _ & _ & Hok & Hnd).
  destruct (Z.eqb_spec size 0) as [->|Hz].
  - unfold cbi_set_data. rewrite Z.eqb_refl. cbn [mbind option_bind]. rewrite wrap_id by (unfold in_range; lia).
    rewrite image_header, set_total_header. eexists. split; [done|]. exists items. split.
    + by apply sane_intro.
    + symmetry. apply delete_id. by apply not_elem_of_list_to_map.
  - rewrite append_spec by (done || lia). cbn [mbind option_bind].
    pose proof (size_of_cons items (tag, take (Z.to_nat size) buf) []) as E. rewrite app_nil_r in E. cbn [snd] in E.
    rewrite length_take, Nat.min_l in E by lia.
    rewrite wrap_id by (unfold in_range; lia). rewrite set_total_header, <- image_header. eexists. split; [done|].
    exists (items ++ [(tag, take (Z.to_nat size) buf)]). split.
    + apply sane_intro; [done|by apply Forall_drop| |..].
      * rewrite length_drop. unfold CBI_IMAGE_SIZE. lia.
      * apply Forall_app. split; [done|]. constructor; [|done]. split_and!; cbn [fst snd];
          [done|by apply Forall_take|rewrite length_take; lia..].
      * by apply tags_snoc.
    + rewrite <- list_to_map_cons. apply list_to_map_proper; [by apply tags_snoc|].
      apply Permutation_sym, Permutation_cons_append.
Qed.

Lemma bind_on_cbi {A B} (g : list Z -> option A) (k : A -> M B) (s : cbi_state) a :
  g (cbi s) = Some a -> bind (on_cbi g) k s = k a s.
Proof. intros E. unfold bind, on_cbi. by rewrite E. Qed.
Lemma bind_edit_cbi {B} (g : list Z -> option (list Z)) (k : unit -> M B) (s : cbi_state) img :
  g (cbi s) = Some img -> bind (edit_cbi g) k s = k tt (with_cbi img s).
Proof. intros E. unfold bind, edit_cbi. by rewrite E. Qed.

(** The last part of [cbi_set_board_info], when no item is to be overwritten. *)
Definition append_or_fail (tag : Z) (buf : list Z) (size : Z) : @M Med ec_error :=
  bind (gets cbi) (fun img =>
    if CBI_IMAGE_SIZE <? total_size img + sizeof_data + size then ret EC_ERROR_OVERFLOW
    else
      bind (edit_cbi (fun img =>
        '(img, p) ← cbi_set_data img (total_size img) tag buf size;
        set_total_size img (u16 p))) (fun _ => ret EC_SUCCESS)).
Lemma append_or_fail_spec tag buf size (s : cbi_state) items :
  sane (cbi s) items -> tag ∉ items.*1 -> is_u8 tag -> 0 <= size < 256 -> size <= Z.of_nat (length buf) -> is_bytes buf ->
  let m := list_to_map items in
  exists rv img', append_or_fail tag buf size s = Some (rv, with_cbi img' s) /\
    if size_of items + sizeof_data + size <=? CBI_IMAGE_SIZE
    then rv = EC_SUCCESS /\ holds img' (update tag size buf m)
    else rv = EC_ERROR_OVERFLOW /\ img' = cbi s.
Proof.
  intros Hsane Ht Ht8 Hs Hb Hby m. pose proof Hsane as (c & mi & ma & rest & Ei & Hh & Hr & Hl & Hok & Hnd).
  unfold append_or_fail, bind at 1, gets. rewrite Ei, total_size_image by (unfold CBI_IMAGE_SIZE in Hl; lia).
  rewrite Z.ltb_antisym. destruct (Z.leb_spec (size_of items + sizeof_data + size) CBI_IMAGE_SIZE) as [Hfit|Hfit]; cbn [negb].
  - rewrite Ei in Hsane. destruct (append_item c mi ma items rest tag buf size s) as (img' & E & Hh'); try done.
    eexists _, _. rewrite (bind_edit_cbi _ _ s img'); [|by rewrite Ei]. split; [done|]. done.
  - exists EC_ERROR_OVERFLOW, (cbi s). split; [|by rewrite Ei]. by destruct s.
Qed.

(** The two ways to treat an item whose tag is set. *)
Lemma sane_split img pre tag v post :
  sane img (pre ++ (tag, v) :: post) ->
  item_ok (tag, v) /\ Forall item_ok (pre ++ post) /\ NoDup (pre ++ post).*1.
Proof.
  intros (_ & _ & _ & _ & _ & _ & _ & _ & Hok & Hnd). apply Forall_app in Hok as [Hpre Hpost]. inversion_clear Hpost.
  split_and!; [done|by apply Forall_app|]. rewrite fmap_app in Hnd |- *. cbn in Hnd.
  apply (sublist_NoDup _ _ Hnd), sublist_app; [done|]. by apply sublist_cons.
Qed.

Lemma overwrite_item img pre tag v post buf :
  sane img (pre ++ (tag, v) :: post) -> (length v <= length buf)%nat -> is_bytes buf ->
  exists img', (dsize ← peek img (size_of pre + 1); copy_in img (size_of pre + sizeof_data) buf dsize) = Some img' /\
    sane img' (pre ++ (tag, take (length v) buf) :: post).
Proof.
  intros Hsane Hb Hby. destruct (sane_split _ _ _ _ _ Hsane) as [(Ht & _ & Hv) _].
  destruct Hsane as (c & mi & ma & rest & -> & Hh & Hr & Hl & Hok & Hnd). cbn [fst snd] in *.
  rewrite peek_size. cbn [mbind option_bind]. eexists. split; [by apply overwrite_spec|].
  assert (Hlv : length (take (length v) buf) = length v) by (rewrite length_take; lia).
  apply sane_intro; [done|done|rewrite size_of_cons in *; cbn [snd] in *; by rewrite Hlv| |by rewrite fmap_app in *].
  apply Forall_app in Hok as [Hpre Hpost]. inversion_clear Hpost. apply Forall_app. split; [done|].
  constructor; [|done]. split_and!; cbn [fst snd]; [done|by apply Forall_take|rewrite Hlv; lia..].
Qed.

Lemma remove_item img pre tag v post :
  sane img (pre ++ (tag, v) :: post) ->
  exists img', cbi_remove_tag img (size_of pre) = Some img' /\ sane img' (pre ++ post).
Proof.
  intros Hsane. destruct (sane_split _ _ _ _ _ Hsane) as (Hi & Hok' & Hnd').
  destruct Hsane as (c & mi & ma & rest & -> & Hh & Hr & Hl & Hok & Hnd).
  pose proof (size_of_cons pre (tag, v) post) as Hsz. cbn [snd] in Hsz.
  destruct (remove_tag_spec c mi ma pre (tag, v) post rest) as (rest' & Er & ->); [unfold CBI_IMAGE_SIZE in Hl; lia|].
  eexists. split; [done|]. apply sane_intro; [done| | |done|done].
  - apply Forall_app. split; [|done]. apply Forall_drop, Forall_app. split; [by apply is_bytes_enc|].
    apply Forall_app in Hok' as [_ Hpost]. by apply is_bytes_body.
  - rewrite length_app, length_drop, length_app. pose proof (length_enc (tag, v)) as Hle. cbn [snd] in Hle. lia.
Qed.

Lemma set_board_info_spec tag buf size (s : cbi_state) m :
  holds (cbi s) m -> is_u8 tag -> 0 <= size < 256 -> size <= Z.of_nat (length buf) -> is_bytes buf ->
  exists rv img', cbi_set_board_info tag buf size s = Some (rv, with_cbi img' s) /\
    if locked tag && bool_decide (is_Some (m !! tag)) then rv = EC_ERROR_TIMEOUT /\ img' = cbi s
    else if fits tag size m then rv = EC_SUCCESS /\ holds img' (update tag size buf m)
    else rv = EC_ERROR_OVERFLOW /\ holds img' (delete tag m).
Proof.
  intros (items & Hsane & <-) Ht8 Hs Hb Hby. pose proof Hsane as (c & mi & ma & rest & Ei & Hh & Hr & Hl & Hok & Hnd).
  assert (Hn : size_of items < 2 ^ 16) by (unfold CBI_IMAGE_SIZE in Hl; lia).
  unfold cbi_set_board_info. destruct (item_cases items tag Hnd) as [(Ht & Em)|(pre & v & post & -> & Hp & Hq & Em)]; rewrite Em.
  - rewrite (bind_on_cbi _ _ s None) by (rewrite Ei; by apply find_tag_none).
    rewrite !bool_decide_false by (by intros [? ?]). rewrite !andb_false_r. cbn [andb].
    destruct (append_or_fail_spec tag buf size s items) as (rv & img' & E & Hres); try done.
    exists rv, img'. split; [exact E|]. unfold fits. rewrite delete_id, used_items by done.
    case_match; [done|]. destruct Hres as [-> ->]. split; [done|]. by exists items.
  - destruct (map_split pre tag v post Hp Hq Hnd) as [Hm0 Em0]. set (m0 := list_to_map (pre ++ post)) in *.
    destruct (sane_split _ _ _ _ _ Hsane) as (Hi & _ & Hnd').
    pose proof (size_of_cons pre (tag, v) post) as Hsz. cbn [snd] in Hsz.
    assert (Hdel : delete tag (list_to_map (pre ++ (tag, v) :: post)) = m0) by (rewrite Em0; by apply delete_insert_id).
    assert (Hu : used m0 = size_of (pre ++ post)) by (by apply used_items).
    unfold fits, update. rewrite Hdel, Hu, Em0, insert_insert_eq.
    rewrite (bind_on_cbi _ _ s (Some (size_of pre))) by (rewrite Ei; by apply find_tag_some).
    rewrite !bool_decide_true, !andb_true_r by eauto. fold (locked tag).
    destruct (locked tag); [exists EC_ERROR_TIMEOUT, (cbi s); split; [by destruct s|done]|].
    unfold bind at 1. rewrite (bind_on_cbi _ _ s (Z.of_nat (length v))) by (rewrite Ei; apply peek_size).
    destruct (Z.eqb_spec (Z.of_nat (length v)) size) as [Esz|Esz]; cbn [negb]; unfold ret at 1.
    + destruct (overwrite_item (cbi s) pre tag v post buf Hsane) as (img' & Eo & Hs'); [lia|done|].
      eexists _, img'. rewrite (bind_edit_cbi _ _ s _ Eo). split; [done|].
      rewrite (proj2 (Z.leb_le _ _)) by (unfold sizeof_data; lia). split; [done|]. eexists. split; [done|].
      destruct Hs' as (_ & _ & _ & _ & _ & _ & _ & _ & _ & Hnd2). destruct (map_split pre tag _ post Hp Hq Hnd2) as [_ ->].
      rewrite (proj2 (Z.eqb_neq _ _)) by (destruct Hi as (_ & _ & ?); cbn in *; lia). by rewrite <- Esz, Nat2Z.id.
    + destruct (remove_item (cbi s) pre tag v post Hsane) as (img1 & Er & Hs1).
      rewrite (bind_edit_cbi _ _ s _ Er). unfold ret at 1.
      assert (Ht : tag ∉ (pre ++ post).*1) by (rewrite fmap_app; by apply not_elem_of_app).
      destruct (append_or_fail_spec tag buf size (with_cbi img1 s) (pre ++ post) Hs1 Ht Ht8 Hs Hb Hby) as (rv & img' & E & Hres).
      exists rv, img'. split; [exact E|]. fold m0 in Hres. unfold update in Hres. rewrite delete_id in Hres by done.
      case_match; [done|]. destruct Hres as [-> ->]. split; [done|]. by exists (pre ++ post).
Qed.

Lemma crc_of_range mi ma items : is_u8 (crc_of mi ma items).
Proof. by apply wrap_range. Qed.

(** Version and checksum of a changed image. *)
Lemma stamp_spec img items :
  sane img items -> exists img1 img2, set_version img = Some img1 /\ update_crc img1 = Some img2 /\
    sane img2 items /\ is_valid_cbi img2 = Some true.
Proof.
  intros (c & mi & ma & rest & -> & Hh & Hr & Hl & Hok & Hnd). eexists _, _. unfold CBI_IMAGE_SIZE in Hl.
  split; [apply set_version_spec|]. split; [apply update_crc_spec; lia|]. split.
  - apply sane_intro; try done. repeat constructor; try done; apply crc_of_range.
  - rewrite is_valid_image by (unfold CBI_IMAGE_SIZE; lia). by rewrite Z.eqb_refl.
Qed.

Lemma valid_defined img : length img = Z.to_nat CBI_IMAGE_SIZE -> exists b, is_valid_cbi img = Some b.
Proof.
  intros Hl. unfold is_valid_cbi. case_match; [by eexists|]. case_match; [by eexists|]. case_match eqn:E; [by eexists|].
  apply orb_false_iff in E as [E1%Z.ltb_ge E2%Z.ltb_ge]. unfold cbi_crc8, read_range, CRC, sizeof_header, CBI_IMAGE_SIZE in *.
  rewrite Hl, !(proj2 (Z.leb_le _ _)) by lia. cbn. by eexists.
Qed.
Lemma sane_empty : sane empty_image [].
Proof. exists 0, 0, 0, (replicate 248 0). split_and!; try done; try concrete_range; constructor. Qed.

Lemma bool_decide_some_true (b : bool) : bool_decide (Some b = Some true) = b.
Proof. by destruct b. Qed.

(** The initialisation of [common_cbi_set]: refused, or an empty image. *)
Lemma init_spec (s : cbi_state) (k : option Z -> @M Med Z) :
  length (cbi s) = Z.to_nat CBI_IMAGE_SIZE ->
  bind (bind (on_cbi is_valid_cbi) (fun valid =>
        if negb CONFIG_SYSTEM_UNLOCKED && valid then ret (Some EC_RES_ACCESS_DENIED)
        else bind (modify (with_cbi empty_image)) (fun _ => ret None))) k s =
  if negb CONFIG_SYSTEM_UNLOCKED && bool_decide (is_valid_cbi (cbi s) = Some true)
  then k (Some EC_RES_ACCESS_DENIED) s else k None (with_cbi empty_image s).
Proof.
  intros Hl. destruct (valid_defined (cbi s) Hl) as [b Eb]. rewrite Eb, bool_decide_some_true.
  unfold bind, on_cbi. rewrite Eb. cbn [mbind option_bind]. by destruct (negb CONFIG_SYSTEM_UNLOCKED && b).
Qed.

(** The part of [common_cbi_set] that sets the value. *)
Definition set_and_write (tag flag size : Z) (data : list Z) : @M Med Z :=
  bind (cbi_set_board_info tag data (u8 size)) (fun rv =>
    if negb (bool_decide (rv = EC_SUCCESS)) then ret EC_RES_INVALID_PARAM
    else
      bind (edit_cbi set_version) (fun _ => bind (edit_cbi update_crc) (fun _ =>
        bind (modify (with_synced true)) (fun _ =>
          if bool_of_Z (Z.land flag CBI_SET_NO_SYNC) then ret EC_RES_SUCCESS
          else bind cbi_write (fun rv => ret (if bool_of_Z rv then EC_RES_ERROR else EC_RES_SUCCESS)))))).

(** The outcome: refused, or too large (an old value of another size is then
    lost), or stored. *)
Definition set_outcome (tag flag size : Z) (data : list Z) (s : cbi_state) (m0 : gmap Z (list Z)) (rv : Z) (s' : cbi_state) : Prop :=
  if locked tag && bool_decide (is_Some (m0 !! tag)) then rv = EC_RES_INVALID_PARAM /\ s' = s
  else if negb (fits tag size m0)
  then rv = EC_RES_INVALID_PARAM /\ holds (cbi s') (delete tag m0) /\ storage s' = storage s
  else
    holds (cbi s') (update tag size data m0) /\ is_valid_cbi (cbi s') = Some true /\ synced s' = true /\
    if bool_of_Z (Z.land flag CBI_SET_NO_SYNC) then rv = EC_RES_SUCCESS /\ storage s' = storage s
    else if is_protected (storage s) then rv = EC_RES_ERROR /\ storage s' = storage s
    else storage s' = (store (cbi s') (storage s)).2 /\
         rv = (if bool_of_Z (store (cbi s') (storage s)).1 then EC_RES_ERROR else EC_RES_SUCCESS).

Lemma set_and_write_spec tag flag size data (s : cbi_state) m :
  holds (cbi s) m -> is_u8 tag -> u8 size <= Z.of_nat (length data) -> is_bytes data ->
  exists rv s', set_and_write tag flag size data s = Some (rv, s') /\ set_outcome tag flag (u8 size) data s m rv s'.
Proof.
  intros Hm Ht Hb Hby. assert (Hs : 0 <= u8 size < 256) by (apply (wrap_range 8); lia).
  unfold set_and_write, set_outcome. set (sz := u8 size) in *.
  destruct (set_board_info_spec tag data sz s m Hm Ht Hs Hb Hby) as (rv & img & E & Hres).
  unfold bind at 1. rewrite E. destruct (locked tag && _).
  { destruct Hres as [-> ->]. cbn. eexists _, _. split; [done|]. by destruct s. }
  destruct (fits tag sz m); cbn [negb].
  2:{ destruct Hres as [-> Hh]. by eexists _, _. }
  destruct Hres as [-> (items & Hsane & Hmap)]. rewrite bool_decide_true by done. cbn [negb].
  destruct (stamp_spec img items Hsane) as (img1 & img2 & E1 & E2 & Hs2 & Hv).
  rewrite (bind_edit_cbi _ _ (with_cbi img s) img1) by done.
  rewrite (bind_edit_cbi _ _ _ img2) by done. unfold bind at 1. cbn [modify].
  destruct (bool_of_Z (Z.land flag CBI_SET_NO_SYNC)).
  { eexists _, _. split; [done|]. cbn. split_and!; try done. by exists items. }
  unfold bind, cbi_write. cbn [storage with_synced with_cbi].
  destruct (is_protected (storage s)) eqn:Hp.
  { eexists _, _. split; [done|]. cbn. split_and!; try done. by exists items. }
  destruct (store _ _) as [e st] eqn:Est. eexists _, _. split; [done|]. cbn [cbi storage synced with_storage with_synced with_cbi] in *.
  rewrite Est. cbn. split_and!; try done. by exists items.
Qed.

End Set_.

(** ** Reading the medium *)

(** What a storage promises: what it holds is unchanged by loads; a load that
    succeeds returns it; a store that succeeds puts the image there. *)
Class StorageOk (Med : Type) `{Storage Med} := {
  contents : Med -> list Z;
  contents_length s : length (contents s) = Z.to_nat CBI_IMAGE_SIZE;
  contents_bytes s : is_bytes (contents s);
  load_law off data len s :
    0 <= off -> 0 <= len -> off + len <= CBI_IMAGE_SIZE -> Z.of_nat (length data) = len ->
    let '(rv, data', s') := load off data len s in
    length data' = length data /\ (is_bytes data -> is_bytes data') /\ contents s' = contents s /\
    (rv = 0 -> data' = slice (contents s) off len);
  store_law img s :
    length img = Z.to_nat CBI_IMAGE_SIZE -> is_bytes img -> 0 <= total_size img <= CBI_IMAGE_SIZE ->
    let '(rv, s') := store img s in
    rv = 0 -> slice (contents s') 0 (total_size img) = slice img 0 (total_size img);
}.

Section Read.
Context {Med : Type} `{StorageOk Med} `{CbiCfg}.
#[local] Abbreviation cbi_state := (@cbi_state Med).

Lemma load_cache_spec pos len (s : cbi_state) :
  length (cbi s) = Z.to_nat CBI_IMAGE_SIZE -> is_bytes (cbi s) -> 0 <= pos -> 0 <= len -> pos + len <= CBI_IMAGE_SIZE ->
  exists rv s', load_cache pos pos len s = Some (rv, s') /\ synced s' = synced s /\
    contents (storage s') = contents (storage s) /\ length (cbi s') = length (cbi s) /\ is_bytes (cbi s') /\
    (rv = 0 -> cbi s' = bcopy (cbi s) pos (slice (contents (storage s)) pos len) len) /\
    rv = (load pos (slice (cbi s) pos len) len (storage s)).1.1 /\
    slice (cbi s') 0 pos = slice (cbi s) 0 pos.
Proof.
  intros Hl Hb Hp Hn Hf. unfold CBI_IMAGE_SIZE in *. unfold load_cache, read_range. rewrite Hl.
  rewrite !(proj2 (Z.leb_le _ _)) by lia. cbn [andb mbind option_bind].
  assert (Hlen : Z.of_nat (length (slice (cbi s) pos len)) = len) by (rewrite length_slice; lia).
  pose proof (load_law pos (slice (cbi s) pos len) len (storage s) Hp Hn Hf Hlen) as Hload.
  destruct (load pos _ len (storage s)) as [[rv data] st]. destruct Hload as (Hd & Hdb & Hc & Hrv).
  unfold copy_in. rewrite Hl, !(proj2 (Z.leb_le _ _)) by lia. cbn [andb mbind option_bind].
  assert (is_bytes data) by (apply Hdb; unfold slice; by apply Forall_take, Forall_drop).
  eexists rv, _. split; [done|]. cbn [synced storage cbi fst]. split_and!; try done.
  - rewrite length_bcopy; lia.
  - unfold bcopy. apply Forall_app. split; [by apply Forall_take|]. apply Forall_app. split; [by apply Forall_take|by apply Forall_drop].
  - intros Hz. by rewrite Hrv.
  - apply slice_bcopy_disjoint; lia.
Qed.

(** The bytes below the total size decide whether an image is valid. *)
Lemma slice_agree {A} (l l' : list A) n off m :
  slice l 0 n = slice l' 0 n -> 0 <= off -> 0 <= m -> off + m <= n -> slice l off m = slice l' off m.
Proof.
  intros E Ho Hm Hn. pose proof (slice_slice l 0 n off m ltac:(lia) Ho Hm Hn) as E1.
  pose proof (slice_slice l' 0 n off m ltac:(lia) Ho Hm Hn) as E2. rewrite E, E2 in E1. done.
Qed.
Lemma aget_slice1 (l : list Z) i : 0 <= i < Z.of_nat (length l) -> slice l i 1 = [aget l i].
Proof.
  intros Hi. unfold slice, aget. rewrite (drop_S l (l !!! Z.to_nat i)) by (apply list_lookup_lookup_total_lt; lia). done.
Qed.
Lemma aget_agree (l l' : list Z) n i :
  slice l 0 n = slice l' 0 n -> 0 <= i < n -> n <= Z.of_nat (length l) -> n <= Z.of_nat (length l') -> aget l i = aget l' i.
Proof.
  intros E Hi Hl Hl'. enough ([aget l i] = [aget l' i]) by congruence.
  rewrite <- !aget_slice1 by lia. by apply (slice_agree _ _ n); [done|lia..].
Qed.
Lemma total_size_agree img img' n :
  slice img 0 n = slice img' 0 n -> 8 <= n -> n <= Z.of_nat (length img) -> n <= Z.of_nat (length img') ->
  total_size img = total_size img'.
Proof.
  intros E Hn Hl Hl'. unfold total_size, le_at, TOTAL_SIZE. rewrite !bytes_at_slice by lia.
  by rewrite (slice_agree img img' n) by (done || lia).
Qed.

(** What makes an image valid. *)
Lemma is_valid_spec img :
  length img = Z.to_nat CBI_IMAGE_SIZE -> is_valid_cbi img = Some true <->
  slice img 0 3 = cbi_magic /\ aget img MAJOR_VERSION <= 0 /\ 8 <= total_size img <= CBI_IMAGE_SIZE /\
  hash8 0 (slice img 4 (total_size img - 4)) = aget img CRC.
Proof.
  intros Hl. unfold is_valid_cbi, CBI_VERSION_MAJOR.
  case_bool_decide as Em; cbn [negb]; [|by split; [intros [=]|intros [? _]]].
  destruct (Z.ltb_spec 0 (aget img MAJOR_VERSION)); [split; [by intros [=]|lia]|].
  destruct ((total_size img <? sizeof_header) || (CBI_IMAGE_SIZE <? total_size img)) eqn:Hr.
  { split; [by intros [=]|]. intros (_ & _ & ? & _). unfold sizeof_header in Hr. lia. }
  apply orb_false_iff in Hr as [R1%Z.ltb_ge R2%Z.ltb_ge]. unfold sizeof_header, CBI_IMAGE_SIZE in *.
  unfold cbi_crc8, read_range. change (CRC + 1) with 4. replace (total_size img - 3 - 1) with (total_size img - 4) by lia.
  rewrite Hl, !(proj2 (Z.leb_le _ _)) by lia. cbn [andb mbind option_bind].
  assert (E : hash8 0 (slice img 4 (total_size img - 4)) = cros_crc8 (slice img 4 (total_size img - 4)) (total_size img - 4)).
  { unfold hash8, cros_crc8. f_equal. rewrite length_slice; lia. }
  rewrite E. split.
  - intros [= E'%Z.eqb_eq]. done.
  - intros (_ & _ & _ & ->). by rewrite Z.eqb_refl.
Qed.

Lemma crc_decides img :
  length img = Z.to_nat CBI_IMAGE_SIZE -> slice img 0 3 = cbi_magic -> aget img MAJOR_VERSION <= CBI_VERSION_MAJOR ->
  8 <= total_size img <= CBI_IMAGE_SIZE ->
  exists crc, cbi_crc8 img = Some crc /\ is_valid_cbi img = Some (crc =? aget img CRC).
Proof.
  intros Hl Hm Ha Hn. unfold is_valid_cbi. rewrite bool_decide_true by done. cbn [negb].
  rewrite !(proj2 (Z.ltb_ge _ _)) by (unfold sizeof_header; lia). cbn [orb].
  unfold cbi_crc8, read_range. unfold CBI_IMAGE_SIZE, CRC in *. rewrite Hl, !(proj2 (Z.leb_le _ _)) by lia.
  cbn [andb mbind option_bind]. by eexists.
Qed.

Lemma valid_agree img img' :
  length img = Z.to_nat CBI_IMAGE_SIZE -> length img' = Z.to_nat CBI_IMAGE_SIZE ->
  slice img 0 (total_size img) = slice img' 0 (total_size img) ->
  is_valid_cbi img = Some true -> is_valid_cbi img' = Some true /\ total_size img' = total_size img.
Proof.
  intros Hl Hl' E Hv. apply is_valid_spec in Hv as (Hm & Ha & Hn & Hc); [|done]. unfold CBI_IMAGE_SIZE, MAJOR_VERSION, CRC in *.
  assert (Et : total_size img' = total_size img) by (symmetry; apply (total_size_agree _ _ (total_size img)); [done|lia..]).
  split; [|done]. apply is_valid_spec; [done|]. unfold CBI_IMAGE_SIZE, MAJOR_VERSION, CRC. rewrite Et.
  rewrite <- !(aget_agree img img' (total_size img)) by (done || lia).
  rewrite <- !(slice_agree img img' (total_size img)) by (done || lia). done.
Qed.

(** The cache, whatever was read so far. *)
Record cache_ok (s : cbi_state) : Prop := {
  cache_length : length (cbi s) = Z.to_nat CBI_IMAGE_SIZE;
  cache_bytes : is_bytes (cbi s);
}.
(** The cache has what the medium holds, and that is valid. *)
Definition in_sync (s : cbi_state) : Prop :=
  is_valid_cbi (cbi s) = Some true /\
  slice (cbi s) 0 (total_size (cbi s)) = slice (contents (storage s)) 0 (total_size (cbi s)).
(** The medium answers all loads. *)
Definition answers : Prop := forall off data len st, (load off data len st).1.1 = 0.

Lemma bool_of_Z_spec z : bool_of_Z z = negb (z =? 0).
Proof. done. Qed.
Lemma slice_0_take {A} (l : list A) n : slice l 0 n = take (Z.to_nat n) l.
Proof. done. Qed.

Lemma header_agree (img c : list Z) :
  8 <= Z.of_nat (length img) -> 8 <= Z.of_nat (length c) -> slice (bcopy img 0 (slice c 0 8) 8) 0 8 = slice c 0 8.
Proof.
  intros Hl Hc. rewrite slice_bcopy_same by (rewrite ?length_slice; lia).
  apply take_ge. rewrite length_slice; lia.
Qed.
Lemma body_agree (img c : list Z) n :
  8 <= n -> n <= Z.of_nat (length img) -> n <= Z.of_nat (length c) -> slice img 0 8 = slice c 0 8 ->
  slice (bcopy img 8 (slice c 8 (n - 8)) (n - 8)) 0 n = slice c 0 n.
Proof.
  intros Hn Hl Hc E. rewrite slice_0_take. replace (Z.to_nat n) with (Z.to_nat (8 + (n - 8))) at 1 by lia.
  rewrite take_bcopy by (rewrite ?length_slice; lia). rewrite <- slice_0_take, E. unfold slice. rewrite drop_0, take_take.
  rewrite Nat.min_id. replace (Z.to_nat n) with (Z.to_nat 8 + Z.to_nat (n - 8))%nat by lia.
  by rewrite take_take_drop.
Qed.

(** The outcome of an attempt that started in [s]. *)
Definition attempt (s : cbi_state) (r : option (ec_error * cbi_state)) : Prop :=
  exists rv s', r = Some (rv, s') /\ cache_ok s' /\ synced s' = synced s /\
    contents (storage s') = contents (storage s) /\
    (rv = EC_SUCCESS -> in_sync s') /\
    (answers -> is_valid_cbi (contents (storage s)) = Some true -> rv = EC_SUCCESS).
Lemma attempt_fails (s s' : cbi_state) e :
  e <> EC_SUCCESS -> cache_ok s' -> synced s' = synced s -> contents (storage s') = contents (storage s) ->
  (answers -> is_valid_cbi (contents (storage s)) <> Some true) -> attempt s (Some (e, s')).
Proof. intros He Hk Hs Hc Hv. exists e, s'. split_and!; try done. intros Ha Hv'. by destruct (Hv Ha). Qed.

Lemma do_read_spec (s : cbi_state) :
  cache_ok s -> cbi_storage_type <> CBI_STORAGE_TYPE_GPIO -> attempt s (do_cbi_read s).
Proof.
  intros [Hl Hb] Hg. pose proof (contents_length (storage s)) as Hcl. set (c := contents (storage s)) in *.
  assert (Hspec := is_valid_spec c Hcl). unfold CBI_IMAGE_SIZE, MAJOR_VERSION, CRC in *.
  destruct (load_cache_spec 0 8 s) as (rv1 & s1 & E1 & Hs1 & Hc1 & Hl1 & Hb1 & Hok1 & Hrv1 & _);
    [done|done|done|done|unfold CBI_IMAGE_SIZE; lia|].
  assert (Hk1 : cache_ok s1) by (split; [unfold CBI_IMAGE_SIZE; congruence|done]).
  unfold do_cbi_read. unfold bind at 1. unfold sizeof_header at 1. rewrite E1, bool_of_Z_spec.
  destruct (Z.eqb_spec rv1 0) as [Hz1|Hz1]; cbn [negb].
  2:{ apply attempt_fails; try done. intros Ha. by rewrite Ha in Hrv1. }
  specialize (Hok1 Hz1). assert (Hh : slice (cbi s1) 0 8 = slice c 0 8) by (rewrite Hok1; apply header_agree; lia).
  assert (Ht : total_size (cbi s1) = total_size c) by (apply (total_size_agree _ _ 8); [done|lia..]).
  assert (Ha1 : forall i, 0 <= i < 8 -> aget (cbi s1) i = aget c i) by (intros; apply (aget_agree _ _ 8); [done|lia..]).
  unfold bind at 1, gets at 1. rewrite (slice_agree (cbi s1) c 8 0 3) by (done || lia). unfold MAJOR_VERSION.
  rewrite (Ha1 5), Ht by lia. case_bool_decide as Em; cbn [negb].
  2:{ apply attempt_fails; try done. intros _ Hv. by apply Hspec in Hv as [? _]. }
  destruct (Z.ltb_spec CBI_VERSION_MAJOR (aget c 5)) as [Hma|Hma].
  { apply attempt_fails; try done. intros _ Hv. apply Hspec in Hv as (_ & ? & _). unfold CBI_VERSION_MAJOR in Hma. lia. }
  destruct ((total_size c <? sizeof_header) || (CBI_IMAGE_SIZE <? total_size c)) eqn:Hr.
  { apply attempt_fails; try done. intros _ Hv. apply Hspec in Hv as (_ & _ & ? & _). unfold sizeof_header, CBI_IMAGE_SIZE in *. lia. }
  apply orb_false_iff in Hr as [R1%Z.ltb_ge R2%Z.ltb_ge]. unfold sizeof_header, CBI_IMAGE_SIZE in *.
  set (n := total_size c) in *.
  destruct (load_cache_spec 8 (n - 8) s1) as (rv2 & s2 & E2 & Hs2 & Hc2 & Hl2 & Hb2 & Hok2 & Hrv2 & _);
    [apply Hk1|done|done|lia|unfold CBI_IMAGE_SIZE; lia|].
  assert (Hk2 : cache_ok s2) by (split; [unfold CBI_IMAGE_SIZE; congruence|done]).
  unfold bind at 1. rewrite E2, bool_of_Z_spec.
  destruct (Z.eqb_spec rv2 0) as [Hz2|Hz2]; cbn [negb].
  2:{ apply attempt_fails; [done|done|congruence|congruence|]. intros Ha. by rewrite Ha in Hrv2. }
  specialize (Hok2 Hz2). rewrite Hc1 in Hok2. fold c in Hok2.
  assert (Hn : slice (cbi s2) 0 n = slice c 0 n) by (rewrite Hok2; apply body_agree; [lia|lia|lia|done]).
  assert (Ht2 : total_size (cbi s2) = n) by (apply (total_size_agree _ _ n); [done|lia..]).
  assert (Hl2' : length (cbi s2) = Z.to_nat CBI_IMAGE_SIZE) by apply Hk2.
  destruct (crc_decides (cbi s2)) as (crc & Ec & Ev); [done| | |rewrite Ht2; unfold CBI_IMAGE_SIZE; lia|].
  { rewrite (slice_agree (cbi s2) c n) by (done || lia). done. }
  { unfold MAJOR_VERSION. rewrite (aget_agree (cbi s2) c n) by (done || lia). done. }
  rewrite (bind_on_cbi _ _ s2 crc Ec). unfold bind at 1, gets. rewrite bool_decide_false by done. cbn [negb andb].
  destruct (crc =? aget (cbi s2) CRC) eqn:Ecrc; cbn [negb].
  - exists EC_SUCCESS, s2. split_and!; [done|done|congruence|congruence| |done]. intros _. split; [by rewrite Ev|].
    rewrite Ht2, Hc2, Hc1. done.
  - apply attempt_fails; [done|done|congruence|congruence|]. intros _ Hv. fold c in Hv.
    destruct (valid_agree c (cbi s2)) as [Hv2 _]; [done|done|by symmetry|done|]. congruence.
Qed.

Lemma read_loop_spec n e (s : cbi_state) :
  cache_ok s -> cbi_storage_type <> CBI_STORAGE_TYPE_GPIO -> synced s = false ->
  exists rv s', read_loop n e s = Some (rv, s') /\ cache_ok s' /\ contents (storage s') = contents (storage s) /\
    (synced s' = true -> rv = EC_SUCCESS /\ in_sync s') /\ (rv = EC_SUCCESS -> synced s' = true \/ e = EC_SUCCESS /\ n = O) /\
    (answers -> is_valid_cbi (contents (storage s)) = Some true -> n <> O -> rv = EC_SUCCESS).
Proof.
  intros Hk Hg. revert e s Hk. induction n as [|n IH]; intros e s Hk Hs; cbn [read_loop].
  { exists e, s. split_and!; try done; [by rewrite Hs|by right]. }
  destruct (do_read_spec s Hk Hg) as (rv & s1 & E & Hk1 & Hs1 & Hc1 & Hin & Hans). unfold bind at 1. rewrite E.
  case_bool_decide as Hrv.
  - eexists _, _. split; [done|]. cbn [storage synced with_synced]. destruct (Hin Hrv) as [Hv Hsl].
    split_and!; try done; [|by left]. by destruct Hk1; split.
  - destruct (IH rv s1 Hk1 ltac:(congruence)) as (rv' & s' & E' & Hk' & Hc' & Hsy & Hok & Hans').
    exists rv', s'. rewrite Hc1 in *. split_and!; try done.
    + intros Hr. destruct (Hok Hr) as [?|[? _]]; [by left|done].
    + intros Ha Hv _. by destruct (Hrv (Hans Ha Hv)).
Qed.

Lemma read_spec (s : cbi_state) :
  cache_ok s -> cbi_storage_type <> CBI_STORAGE_TYPE_GPIO -> synced s = false ->
  exists rv s', cbi_read s = Some (rv, s') /\ cache_ok s' /\ contents (storage s') = contents (storage s) /\
    (rv = EC_SUCCESS <-> synced s' = true) /\ (synced s' = true -> in_sync s') /\
    (answers -> is_valid_cbi (contents (storage s)) = Some true -> rv = EC_SUCCESS).
Proof.
  intros Hk Hg Hs. unfold cbi_read, cbi_get_cache_status, bind, gets. rewrite Hs.
  destruct (read_loop_spec 2 EC_SUCCESS s Hk Hg Hs) as (rv & s' & E & Hk' & Hc & Hsy & Hok & Hans).
  exists rv, s'. split; [done|]. split; [done|]. split; [done|]. split; [split|split].
  - intros Hr. destruct (Hok Hr) as [?|[_ ?]]; done.
  - by intros [? _]%Hsy.
  - by intros [_ ?]%Hsy.
  - intros Ha Hv. by apply Hans.
Qed.

(** Only the bytes below the total size matter to the values. *)
Lemma sane_total img items : sane img items -> total_size img = size_of items.
Proof. intros (c & mi & ma & rest & -> & _ & _ & Hl & _). apply total_size_image. unfold CBI_IMAGE_SIZE in Hl. lia. Qed.
Lemma sane_size img items : sane img items -> 8 <= size_of items <= CBI_IMAGE_SIZE /\ length img = Z.to_nat CBI_IMAGE_SIZE /\ is_bytes img.
Proof.
  intros (c & mi & ma & rest & -> & Hh & Hr & Hl & Hok & _). pose proof (size_of_pos items).
  split; [lia|]. split.
  - unfold image. rewrite !length_app. unfold size_of, sizeof_header in Hl. cbn [length]. lia.
  - unfold image. apply Forall_app. split; [|apply Forall_app; split; [by apply is_bytes_body|done]].
    apply list.Forall_cons in Hh as [? Hh]. apply list.Forall_cons in Hh as [? Hh]. apply list.Forall_cons in Hh as [? Hh].
    repeat (apply list.Forall_cons; split); try done; by apply wrap_range.
Qed.
Lemma sane_agree img img' items :
  sane img items -> length img' = Z.to_nat CBI_IMAGE_SIZE -> is_bytes img' ->
  slice img' 0 (size_of items) = slice img 0 (size_of items) -> sane img' items.
Proof.
  intros Hs Hl' Hb' E. destruct (sane_size _ _ Hs) as (Hn & Hl & _). destruct Hs as (c & mi & ma & rest & -> & Hh & Hr & Hlr & Hok & Hnd).
  assert (Hhd : slice (image c mi ma items rest) 0 (size_of items) = header c mi ma items ++ body items).
  { rewrite image_header, app_assoc. unfold slice. cbn [drop]. rewrite <- (split_pos c mi ma items items), Nat2Z.id.
    apply take_app_length. }
  assert (Ei : img' = image c mi ma items (drop (Z.to_nat (size_of items)) img')).
  { rewrite image_header, app_assoc, <- Hhd, <- E. symmetry. apply take_drop. }
  rewrite Ei. apply sane_intro; [done|by apply Forall_drop| |done|done].
  rewrite length_drop, Hl'. unfold CBI_IMAGE_SIZE in *. lia.
Qed.

(** ** Values that are read *)

Lemma get_board_info_spec tag buf size (s : cbi_state) m :
  (forall t b n, cbi_board_override t b n = (EC_SUCCESS, b, n)) ->
  synced s = true -> holds (cbi s) m -> 0 <= size <= Z.of_nat (length buf) ->
  cbi_get_board_info tag buf size s =
    Some (match m !! tag with
          | None => (EC_ERROR_UNKNOWN, buf, size)
          | Some v =>
              if size <? Z.of_nat (length v) then (EC_ERROR_INVAL, buf, size)
              else (EC_SUCCESS, v ++ replicate (Z.to_nat size - length v) 0 ++ drop (Z.to_nat size) buf, Z.of_nat (length v))
          end, s).
Proof.
  intros Hov Hs (items & Hsane & <-) Hb. pose proof Hsane as (c & mi & ma & rest & Ei & Hh & Hr & Hl & Hok & Hnd).
  assert (Hn : size_of items < 2 ^ 16) by (unfold CBI_IMAGE_SIZE in Hl; lia).
  unfold cbi_get_board_info, cbi_read, cbi_get_cache_status. unfold bind at 1 2, gets. rewrite Hs. unfold ret at 1.
  rewrite bool_decide_true by done. cbn [negb].
  destruct (item_cases items tag Hnd) as [(Ht & Em)|(pre & v & post & -> & Hp & Hq & Em)]; rewrite Em.
  - by rewrite (bind_on_cbi _ _ s None) by (rewrite Ei; by apply find_tag_none).
  - rewrite (bind_on_cbi _ _ s (Some (size_of pre))) by (rewrite Ei; by apply find_tag_some).
    rewrite (bind_on_cbi _ _ s (Z.of_nat (length v))) by (rewrite Ei; apply peek_size).
    destruct (Z.ltb_spec size (Z.of_nat (length v))); [done|].
    rewrite (bind_on_cbi _ _ s v) by (rewrite Ei; apply (read_value c mi ma pre (tag, v))).
    rewrite (bind_on_cbi _ _ s (v ++ replicate (Z.to_nat size - length v) 0 ++ drop (Z.to_nat size) buf)); [by unfold ret; rewrite Hov|].
    rewrite <- (take_drop (Z.to_nat size) buf) at 1.
    rewrite copy_in_0 by (rewrite ?length_take, ?length_replicate; lia). cbn [mbind option_bind].
    replace (Z.to_nat size) with (length v + (Z.to_nat size - length v))%nat at 1 by lia.
    rewrite replicate_add, <- app_assoc. by rewrite copy_in_0 by (rewrite ?length_replicate; done).
Qed.

(** The command that reads a value, into a response buffer that takes any. *)
Lemma hc_cbi_get_spec tag response (s : cbi_state) m :
  (forall t b n, cbi_board_override t b n = (EC_SUCCESS, b, n)) ->
  synced s = true -> holds (cbi s) m -> 255 <= Z.of_nat (length response) ->
  hc_cbi_get tag 0 response s =
    Some (match m !! tag with Some v => (EC_RES_SUCCESS, v) | None => (EC_RES_INVALID_PARAM, []) end, s).
Proof.
  intros Hov Hs Hm Hr. unfold hc_cbi_get. rewrite Z.min_r by lia. change (u8 255) with 255. unfold bind, ret.
  change (bool_of_Z (Z.land 0 CBI_GET_RELOAD)) with false. cbv iota beta.
  rewrite (get_board_info_spec tag response 255 s m Hov Hs Hm) by lia.
  destruct (m !! tag) as [v|] eqn:Ev; [|done].
  assert (Hv : Z.of_nat (length v) < 256).
  { destruct Hm as (items & (_ & _ & _ & _ & _ & _ & _ & _ & Hok & Hnd) & <-).
    apply elem_of_list_to_map in Ev; [|done]. rewrite list.Forall_forall in Hok. destruct (Hok _ Ev) as (_ & _ & ?). cbn in *. lia. }
  rewrite (proj2 (Z.ltb_ge _ _)) by lia. rewrite bool_decide_true by done. cbn [negb].
  by rewrite Nat2Z.id, take_app_length.
Qed.

(** Getting a value reads the medium first. *)
Lemma get_reads tag response (s s' : cbi_state) :
  cbi_read s = Some (EC_SUCCESS, s') -> synced s' = true -> hc_cbi_get tag 0 response s = hc_cbi_get tag 0 response s'.
Proof.
  intros E Hs. assert (E' : cbi_read s' = Some (EC_SUCCESS, s'))
    by (unfold cbi_read, cbi_get_cache_status, bind, gets; by rewrite Hs).
  unfold hc_cbi_get, cbi_get_board_info, bind, ret. change (bool_of_Z (Z.land 0 CBI_GET_RELOAD)) with false.
  cbv iota beta. by rewrite E, E'.
Qed.

(** After a restart, with the medium holding a valid image of some values. *)
Lemma restart_spec img0 st img m :
  cbi_storage_type <> CBI_STORAGE_TYPE_GPIO -> answers ->
  holds img0 m -> is_valid_cbi img0 = Some true ->
  slice (contents st) 0 (total_size img0) = slice img0 0 (total_size img0) ->
  length img = Z.to_nat CBI_IMAGE_SIZE -> is_bytes img ->
  exists s', cbi_read (Cbi false img st) = Some (EC_SUCCESS, s') /\ synced s' = true /\ holds (cbi s') m.
Proof.
  intros Hg Ha (items & Hsane & Hm) Hv Hst Hl Hb. destruct (sane_size _ _ Hsane) as (Hn & Hl0 & _).
  pose proof (contents_length st) as Hcl.
  destruct (read_spec (Cbi false img st)) as (rv & s' & E & [Hl' Hb'] & Hc & Hrv & Hin & Hok); [by split|done|done|].
  destruct (valid_agree img0 (contents st)) as [Hvc Htc]; [done|done|by symmetry|done|].
  specialize (Hok Ha Hvc). subst rv. assert (Hs : synced s' = true) by (by apply Hrv).
  exists s'. split; [done|]. split; [done|]. exists items. split; [|done]. destruct (Hin Hs) as [Hvs Hsl].
  cbn [storage] in Hc. rewrite Hc in Hsl.
  destruct (valid_agree (cbi s') (contents st)) as [_ Hts]; [done|done|done|done|].
  assert (Et : total_size (cbi s') = total_size img0) by congruence.
  apply (sane_agree img0); [done|done|done|]. rewrite <- (sane_total _ _ Hsane), <- Hst, <- Et. done.
Qed.

Lemma sane_prefix (img : list Z) m : holds img m -> length img = Z.to_nat CBI_IMAGE_SIZE /\ is_bytes img /\ 0 <= total_size img <= CBI_IMAGE_SIZE.
Proof.
  intros (items & Hs & _). destruct (sane_size _ _ Hs) as (? & ? & ?). rewrite (sane_total _ _ Hs).
  split_and!; [done|done|lia..].
Qed.

(** The values a command works on: those of the cache once it is in step with
    the medium, and before that those of the medium, if it holds a valid image. *)
Definition values_of (s : cbi_state) (m : gmap Z (list Z)) : Prop :=
  if synced s then holds (cbi s) m
  else is_valid_cbi (contents (storage s)) = Some true -> holds (contents (storage s)) m.

(** What reading the image leaves: unless it is in the cache already, the
    medium's, if that is valid and the medium answers. *)
Record read_result (s : cbi_state) (e : ec_error) (s1 : cbi_state) : Prop := {
  rr_cache : cache_ok s1;
  rr_contents : contents (storage s1) = contents (storage s);
  rr_synced : e = EC_SUCCESS <-> synced s1 = true;
  rr_kept : synced s = true -> s1 = s;
  rr_answered : answers -> is_valid_cbi (contents (storage s)) = Some true -> e = EC_SUCCESS;
}.

Lemma read_values (s : cbi_state) m :
  cache_ok s -> cbi_storage_type <> CBI_STORAGE_TYPE_GPIO -> values_of s m ->
  exists e s1, cbi_read s = Some (e, s1) /\ read_result s e s1 /\ (e = EC_SUCCESS -> holds (cbi s1) m).
Proof.
  intros Hk Hg Hm. unfold values_of in Hm. destruct (synced s) eqn:Hs.
  { exists EC_SUCCESS, s. split; [|by split]. unfold cbi_read, cbi_get_cache_status, bind, gets. by rewrite Hs. }
  destruct (read_spec s Hk Hg Hs) as (e & s1 & E & Hk1 & Hc & Hsy & Hin & Hok).
  exists e, s1. split; [done|]. split; [split; try done; congruence|]. intros He. apply Hsy, Hin in He as [Hv Hsl].
  pose proof (contents_length (storage s)) as Hcl. destruct Hk1 as [Hl1 Hb1]. rewrite Hc in Hsl.
  destruct (valid_agree (cbi s1) (contents (storage s))) as [Hvc Htc]; [done|done|done|done|].
  destruct (Hm Hvc) as (items & Hsane & Hi). exists items. split; [|done].
  apply (sane_agree (contents (storage s))); [done|done|done|].
  rewrite <- (sane_total _ _ Hsane), Htc. done.
Qed.

Lemma common_cbi_set_spec tag flag size data (s : cbi_state) m :
  let init := bool_of_Z (Z.land flag CBI_SET_INIT) in
  cache_ok s -> cbi_storage_type <> CBI_STORAGE_TYPE_GPIO -> (init = false -> values_of s m) ->
  is_u8 tag -> is_bytes data -> u8 size <= Z.of_nat (length data) ->
  exists rv s', common_cbi_set tag flag size data s = Some (rv, s') /\
    if is_protected (storage s) && negb (bool_of_Z (Z.land flag CBI_SET_NO_SYNC)) ||
       init && (negb CONFIG_SYSTEM_UNLOCKED && bool_decide (is_valid_cbi (cbi s) = Some true))
    then rv = EC_RES_ACCESS_DENIED /\ s' = s
    else if init then set_outcome tag flag (u8 size) data s ∅ rv s'
    else exists e s1, cbi_read s = Some (e, s1) /\ read_result s e s1 /\
           if bool_decide (e = EC_SUCCESS) then set_outcome tag flag (u8 size) data s1 m rv s'
           else rv = EC_RES_ERROR /\ s' = s1.
Proof.
  intros init Hk Hg Hm Ht Hby Hlt. unfold common_cbi_set. unfold bind at 1, gets.
  destruct (is_protected (storage s) && _) eqn:Hp; cbn [orb]; [by eexists _, _|].
  set (k := fun early => match early with Some rv => ret rv | None => set_and_write tag flag size data end).
  fold init. destruct init; cbn [andb].
  - pose proof (init_spec s k (cache_length s Hk)) as Hi. destruct (negb CONFIG_SYSTEM_UNLOCKED && _).
    { eexists _, _. split; [exact Hi|]. done. }
    destruct (set_and_write_spec tag flag size data (with_cbi empty_image s) ∅) as (rv & s' & E & Ho);
      [by exists []; split; [apply sane_empty|]|done..|].
    exists rv, s'. split; [etrans; [exact Hi|exact E]|]. revert Ho. unfold set_outcome.
    rewrite lookup_empty, bool_decide_false, andb_false_r by (by intros [? ?]). done.
  - destruct (read_values s m Hk Hg (Hm eq_refl)) as (e & s1 & E1 & Hr & Hm1).
    unfold bind at 1 2. rewrite E1. unfold ret at 1. case_bool_decide as He; cbn [negb].
    + destruct (set_and_write_spec tag flag size data s1 m (Hm1 He) Ht Hlt Hby) as (rv & s' & E & Ho).
      exists rv, s'. split; [exact E|]. exists e, s1. by rewrite bool_decide_true.
    + exists EC_RES_ERROR, s1. split; [done|]. exists e, s1. by rewrite bool_decide_false.
Qed.

Lemma u8_at_most size : 0 <= size -> u8 size <= size.
Proof. intros. unfold wrap. apply Z.mod_le; lia. Qed.

(** C5. The command that sets a value, for any size below 2^32 - 12, on a
    well-formed image (an EEPROM's or a flash's): it is refused when the
    parameters are short, when the medium is protected and a write is asked
    for, or when an initialisation would drop a valid image of a locked system.
    Unless it initialises, it reads the medium first if the cache is not in
    step with it, and fails with an error when that does.  Then it is refused
    when the tag is locked and present, and fails when the value does not fit
    next to the others (an old value of another size is then lost); otherwise
    the cache holds the new value -- the first size mod 256 bytes, as the size
    is cut to a byte; none if that is 0 -- and all the others, with a valid
    header and checksum, and is written to the medium unless the client asks
    not to. *)
Theorem cbi_set_correct tag flag size data (s : cbi_state) m :
  let init := bool_of_Z (Z.land flag CBI_SET_INIT) in
  cache_ok s -> cbi_storage_type <> CBI_STORAGE_TYPE_GPIO -> (init = false -> values_of s m) ->
  is_u8 tag -> 0 <= size < 2 ^ 32 - 12 -> is_bytes data -> Z.of_nat (length data) < 2 ^ 16 ->
  exists rv s', hc_cbi_set tag flag size data (12 + Z.of_nat (length data)) s = Some (rv, s') /\
    if Z.of_nat (length data) <? size then rv = EC_RES_INVALID_PARAM /\ s' = s
    else if is_protected (storage s) && negb (bool_of_Z (Z.land flag CBI_SET_NO_SYNC)) ||
            init && (negb CONFIG_SYSTEM_UNLOCKED && bool_decide (is_valid_cbi (cbi s) = Some true))
    then rv = EC_RES_ACCESS_DENIED /\ s' = s
    else if init then set_outcome tag flag (u8 size) data s ∅ rv s'
    else exists e s1, cbi_read s = Some (e, s1) /\ read_result s e s1 /\
           if bool_decide (e = EC_SUCCESS) then set_outcome tag flag (u8 size) data s1 m rv s'
           else rv = EC_RES_ERROR /\ s' = s1.
Proof.
  intros init Hk Hg Hm Ht Hs Hby Hd. unfold hc_cbi_set. rewrite (wrap_id 32) by (unfold in_range in *; lia).
  destruct (Z.ltb_spec (Z.of_nat (length data)) size) as [Hlt|Hlt].
  - rewrite (proj2 (Z.ltb_lt _ _)) by lia. by eexists _, _.
  - rewrite (proj2 (Z.ltb_ge _ _)) by lia. apply common_cbi_set_spec; try done.
    pose proof (u8_at_most size). lia.
Qed.

(** A command that succeeded and wrote: the medium has the cache's image. *)
Lemma outcome_stored tag flag size data (s s' : cbi_state) m :
  bool_of_Z (Z.land flag CBI_SET_NO_SYNC) = false -> set_outcome tag flag size data s m EC_RES_SUCCESS s' ->
  holds (cbi s') (update tag size data m) /\ is_valid_cbi (cbi s') = Some true /\
  slice (contents (storage s')) 0 (total_size (cbi s')) = slice (cbi s') 0 (total_size (cbi s')).
Proof.
  intros Hns Ho. unfold set_outcome in Ho. destruct (locked tag && _); [by destruct Ho|].
  destruct (fits tag size m); cbn [negb] in Ho; [|by destruct Ho]. rewrite Hns in Ho.
  destruct Ho as (Hm & Hv & _ & Ho). destruct (is_protected (storage s)); [by destruct Ho|].
  destruct Ho as (Est & Erv). destruct (sane_prefix _ _ Hm) as (Hlc & Hbc & Htot).
  pose proof (store_law (cbi s') (storage s) Hlc Hbc Htot) as Hst.
  destruct (store (cbi s') (storage s)) as [e st]. cbn [fst snd] in *. rewrite bool_of_Z_spec in Erv.
  destruct (Z.eqb_spec e 0) as [->|]; cbn [negb] in Erv; [|done]. rewrite Est. by split_and!; [..|apply Hst].
Qed.

(** C4. What was set is there after a restart, on a well-formed image of a
    medium that answers loads, with a board that does not override values:
    when the command succeeds and the client did not ask to skip the write,
    then from any contents of the cache's memory the command that reads a
    value returns the one that was set (the first size mod 256 bytes of the
    data; none if that is 0), and those of the other tags as they were. *)
Theorem cbi_survives_reboot tag flag size data (s : cbi_state) m s' img t response :
  (forall t b n, cbi_board_override t b n = (EC_SUCCESS, b, n)) ->
  cbi_storage_type <> CBI_STORAGE_TYPE_GPIO -> answers ->
  let init := bool_of_Z (Z.land flag CBI_SET_INIT) in
  cache_ok s -> (init = false -> values_of s m) ->
  is_u8 tag -> 0 <= size <= Z.of_nat (length data) -> is_bytes data ->
  bool_of_Z (Z.land flag CBI_SET_NO_SYNC) = false ->
  common_cbi_set tag flag size data s = Some (EC_RES_SUCCESS, s') ->
  length img = Z.to_nat CBI_IMAGE_SIZE -> is_bytes img -> 255 <= Z.of_nat (length response) ->
  exists s'', hc_cbi_get t 0 response (Cbi false img (storage s')) =
    Some (match (if t =? tag then if u8 size =? 0 then None else Some (take (Z.to_nat (u8 size)) data)
                 else (if init then ∅ else m) !! t) with
          | Some v => (EC_RES_SUCCESS, v)
          | None => (EC_RES_INVALID_PARAM, [])
          end, s'').
Proof.
  intros Hov Hg Ha init Hk Hm Ht Hsz Hby Hns Hset Hli Hbi Hr. pose proof (u8_at_most size ltac:(lia)) as Hu.
  destruct (common_cbi_set_spec tag flag size data s m Hk Hg Hm Ht Hby ltac:(lia)) as (rv & s1 & E & Ho).
  fold init in Ho. rewrite E in Hset. injection Hset as -> ->. destruct (_ || _); [by destruct Ho|].
  set (sz := u8 size) in *.
  assert (Hso : exists s0, set_outcome tag flag sz data s0 (if init then ∅ else m) EC_RES_SUCCESS s').
  { destruct init; [by eexists|]. destruct Ho as (e & s1 & _ & _ & Ho). case_bool_decide; [by eexists|by destruct Ho]. }
  destruct Hso as [s0 Hso]. destruct (outcome_stored _ _ _ _ _ _ _ Hns Hso) as (Hm' & Hv & Hst).
  destruct (restart_spec (cbi s') (storage s') img (update tag sz data (if init then ∅ else m)))
    as (s2 & E2 & Hs2 & Hm2); [done..|].
  exists s2. rewrite (get_reads t response _ s2 E2 Hs2), (hc_cbi_get_spec t response s2 _ Hov Hs2 Hm2 Hr). do 2 f_equal.
  unfold update. destruct (Z.eqb_spec t tag) as [->|Hne]; destruct (sz =? 0).
  - by rewrite lookup_delete_eq.
  - by rewrite lookup_insert_eq.
  - by rewrite lookup_delete_ne.
  - by rewrite lookup_insert_ne.
Qed.

(** ** Damage to the medium *)

Lemma slice_plus {A} (l : list A) off n m : 0 <= off -> 0 <= n -> 0 <= m -> slice l off (n + m) = slice l off n ++ slice l (off + n) m.
Proof.
  intros. unfold slice. rewrite !Z2Nat.inj_add by lia. by rewrite <- drop_drop, take_take_drop.
Qed.
Lemma slice_around (l : list Z) off i n :
  0 <= off <= i -> i < off + n -> off + n <= Z.of_nat (length l) ->
  slice l off n = slice l off (i - off) ++ aget l i :: slice l (i + 1) (off + n - i - 1).
Proof.
  intros Ho Hi Hl. replace n with ((i - off) + (1 + (off + n - i - 1))) at 1 by lia. rewrite slice_plus by lia.
  f_equal. replace (off + (i - off)) with i by lia. rewrite slice_plus, aget_slice1 by lia. done.
Qed.
Lemma slice_ext (l l' : list Z) off n :
  0 <= off -> off + n <= Z.of_nat (length l) -> off + n <= Z.of_nat (length l') ->
  (forall j, off <= j < off + n -> aget l j = aget l' j) -> slice l off n = slice l' off n.
Proof.
  intros Ho Hl Hl' E. apply list_eq. intros k. destruct (decide (Z.of_nat k < n)); [|by rewrite !slice_none by lia].
  rewrite !lookup_slice by lia. specialize (E (off + Z.of_nat k) ltac:(lia)). unfold aget in E.
  rewrite !Z2Nat.inj_add, !Nat2Z.id in E by lia.
  rewrite !list_lookup_lookup_total_lt by lia. by rewrite E.
Qed.

(** Two valid images of the same size do not differ in a single byte. *)
Lemma valid_one_byte img img' i :
  length img = Z.to_nat CBI_IMAGE_SIZE -> length img' = Z.to_nat CBI_IMAGE_SIZE -> is_bytes img -> is_bytes img' ->
  is_valid_cbi img = Some true -> is_valid_cbi img' = Some true -> total_size img' = total_size img ->
  0 <= i < total_size img ->
  (forall j, 0 <= j < total_size img -> j <> i -> aget img' j = aget img j) -> aget img' i = aget img i.
Proof.
  intros Hl Hl' Hb Hb' Hv Hv' Ht Hi E.
  apply is_valid_spec in Hv as (Hm & _ & Hn & Hc); [|done]. apply is_valid_spec in Hv' as (Hm' & _ & _ & Hc'); [|done].
  rewrite Ht in Hc'. set (n := total_size img) in *. unfold CBI_IMAGE_SIZE, CRC in *.
  destruct (decide (i < 3)).
  { apply (aget_agree _ _ 3); [by rewrite Hm, Hm'|lia..]. }
  destruct (decide (i = 3)) as [->|].
  { rewrite <- Hc, <- Hc'. f_equal. apply slice_ext; [lia..|]. intros j Hj. apply E; lia. }
  destruct (decide (aget img' i = aget img i)) as [|Hne]; [done|exfalso].
  rewrite (slice_around img 4 i), (slice_around img' 4 i), (E 3) in * by lia. rewrite <- Hc in Hc'. revert Hc'.
  rewrite (slice_ext img' img 4 (i - 4)) by (lia || (intros; apply E; lia)).
  rewrite (slice_ext img' img (i + 1)) by (lia || (intros; apply E; lia)).
  assert (Hs : forall o k, is_bytes (slice img o k)) by (intros; by apply Forall_take, Forall_drop).
  apply hash8_one_byte; [done|apply Hs|apply Hs|by apply aget_range|by apply aget_range|done].
Qed.

(** C6. Damage is noticed: when one byte of the image on the medium differs from a valid
    image (other than its size field), reading it fails, whatever the loads
    answer, and the cache stays unusable. *)
Theorem cbi_rejects_corruption img0 st img i :
  cbi_storage_type <> CBI_STORAGE_TYPE_GPIO ->
  length img0 = Z.to_nat CBI_IMAGE_SIZE -> is_bytes img0 -> is_valid_cbi img0 = Some true ->
  length img = Z.to_nat CBI_IMAGE_SIZE -> is_bytes img ->
  0 <= i < total_size img0 -> i <> TOTAL_SIZE -> i <> TOTAL_SIZE + 1 ->
  (forall j, 0 <= j < total_size img0 -> j <> i -> aget (contents st) j = aget img0 j) ->
  aget (contents st) i <> aget img0 i ->
  exists rv s', cbi_read (Cbi false img st) = Some (rv, s') /\ rv <> EC_SUCCESS /\ synced s' = false.
Proof.
  intros Hg Hl0 Hb0 Hv0 Hl Hb Hi H6 H7 E Hne. unfold TOTAL_SIZE in *.
  destruct (read_spec (Cbi false img st)) as (rv & s' & Er & [Hl' Hb'] & Hc & Hrv & Hin & _); [by split|done|done|].
  cbn [storage] in Hc. exists rv, s'. split; [done|]. enough (synced s' = false) as Hs by (split; [|done]; intros ?%Hrv; congruence).
  destruct (synced s') eqn:Hs; [exfalso|done]. destruct (Hin eq_refl) as [Hv Hsl]. rewrite Hc in Hsl.
  pose proof (contents_length st) as Hcl.
  destruct (valid_agree (cbi s') (contents st)) as [Hvc Htc]; [done|done|done|done|].
  apply Hne, (valid_one_byte img0 (contents st) i); try done; [apply contents_bytes|].
  pose proof (is_valid_spec img0 Hl0) as Hsp. apply Hsp in Hv0 as (_ & _ & Hn & _). unfold CBI_IMAGE_SIZE in *.
  unfold total_size, le_at, TOTAL_SIZE. rewrite !bytes_at_slice by lia. f_equal.
  apply slice_ext; [lia..|]. intros j Hj. apply E; lia.
Qed.
End Read.

(** ** The EEPROM is a storage *)

(** What the part promises: blocks within a page are stored, and read back. *)
Class I2cOk (Bus : Type) `{I2c Bus} := {
  eeprom : Bus -> list Z;
  eeprom_length b : length (eeprom b) = Z.to_nat CBI_IMAGE_SIZE;
  eeprom_bytes b : is_bytes (eeprom b);
  read_law off data len b :
    0 <= off -> 0 <= len -> off + len <= CBI_IMAGE_SIZE -> Z.of_nat (length data) = len ->
    let '(rv, data', b') := i2c_read_block off data len b in
    length data' = length data /\ (is_bytes data -> is_bytes data') /\ eeprom b' = eeprom b /\
    (rv = 0 -> data' = slice (eeprom b) off len);
  write_law off data b :
    0 <= off -> off + Z.of_nat (length data) <= CBI_IMAGE_SIZE -> is_bytes data ->
    off mod EEPROM_PAGE_WRITE_SIZE + Z.of_nat (length data) <= EEPROM_PAGE_WRITE_SIZE ->
    let '(rv, b') := i2c_write_block off data b in
    rv = 0 -> eeprom b' = bcopy (eeprom b) off data (Z.of_nat (length data));
}.

Section EepromOk.
Context {Bus : Type} `{I2cOk Bus}.

(** Writes start at pages, so none crosses one; [p] bytes are written. *)
Lemma write_pages_spec fuel img p rest b :
  length img = Z.to_nat CBI_IMAGE_SIZE -> is_bytes img -> 0 <= p -> p mod EEPROM_PAGE_WRITE_SIZE = 0 -> 0 <= rest ->
  p + rest <= CBI_IMAGE_SIZE -> rest <= Z.of_nat fuel -> slice (eeprom b) 0 p = slice img 0 p ->
  let '(rv, b') := write_pages fuel img p rest b in
  rv = 0 -> slice (eeprom b') 0 (p + rest) = slice img 0 (p + rest).
Proof.
  intros Hl Hb. revert p rest b. induction fuel as [|fuel IH]; intros p rest b Hp Hm Hr Hf Hfu Hs; cbn [write_pages].
  { intros _. by replace (p + rest) with p by lia. }
  destruct (Z.ltb_spec 0 rest); [|intros _; by replace (p + rest) with p by lia].
  unfold EEPROM_PAGE_WRITE_SIZE, CBI_IMAGE_SIZE in *. set (size := Z.min 8 rest).
  assert (Hsl : Z.of_nat (length (slice img p size)) = size) by (rewrite length_slice; lia).
  pose proof (write_law p (slice img p size) b) as Hw. unfold EEPROM_PAGE_WRITE_SIZE, CBI_IMAGE_SIZE in Hw. rewrite Hsl in Hw.
  specialize (Hw Hp ltac:(lia) ltac:(by apply Forall_take, Forall_drop) ltac:(lia)).
  destruct (i2c_write_block p _ b) as [rv b1]. rewrite bool_of_Z_spec.
  destruct (Z.eqb_spec rv 0) as [Hz|]; cbn [negb]; [|done]. specialize (Hw Hz). pose proof (eeprom_length b) as He.
  assert (Hs1 : slice (eeprom b1) 0 (p + size) = slice img 0 (p + size)).
  { rewrite Hw, !slice_plus by lia. unfold CBI_IMAGE_SIZE in He.
    rewrite slice_bcopy_disjoint, Hs by lia. cbn [Z.add]. rewrite slice_bcopy_same by lia. f_equal.
    rewrite Z.add_0_l. apply take_ge. lia. }
  destruct (Z.eq_dec size rest) as [Er|Er].
  - rewrite Er in *. replace (rest - rest) with 0 by lia. destruct fuel; cbn [write_pages Z.ltb Z.compare]; by intros _.
  - assert (size = 8) by lia. replace (p + rest) with (p + size + (rest - size)) by lia.
    apply IH; [lia| |lia|lia|lia|done]. rewrite <- Hm. replace (p + size) with (p + 1 * 8) by lia. apply Z_mod_plus_full.
Qed.

Lemma eeprom_store_law img b :
  length img = Z.to_nat CBI_IMAGE_SIZE -> is_bytes img -> 0 <= total_size img <= CBI_IMAGE_SIZE ->
  let '(rv, b') := eeprom_write img b in
  rv = 0 -> slice (eeprom b') 0 (total_size img) = slice img 0 (total_size img).
Proof.
  intros Hl Hb Ht. unfold eeprom_write. apply (write_pages_spec _ img 0 (total_size img) b); try done; lia.
Qed.

#[export] Instance eeprom_ok : StorageOk Bus := {|
  contents := eeprom; contents_length := eeprom_length; contents_bytes := eeprom_bytes;
  load_law := read_law; store_law := eeprom_store_law |}.
End EepromOk.

(** ** A part that works, and a board *)

(** The bytes of the part: 256 of them, whatever the list. *)
Definition part (b : list Z) : list Z := u8 <$> take 256 (b ++ replicate 256 0).
#[export] Instance mem_bus : I2c (list Z) := {
  i2c_write_block off data b := (0, bcopy (part b) off data (Z.of_nat (length data)));
  i2c_read_block off data len b := (0, slice (part b) off len, b);
  write_protect_is_asserted _ := false;
  CONFIG_BYPASS_CBI_EEPROM_WP_CHECK := false;
}.
Lemma part_length b : length (part b) = 256%nat.
Proof. unfold part. rewrite length_fmap, length_take, length_app, length_replicate. lia. Qed.
Lemma part_bytes b : is_bytes (part b).
Proof. apply Forall_fmap, Forall_forall. intros x _. by apply wrap_range. Qed.
Lemma part_id b : length b = 256%nat -> is_bytes b -> part b = b.
Proof.
  intros Hl Hb. unfold part. rewrite take_app_le by lia. rewrite take_ge by lia. clear Hl.
  induction Hb as [|x b Hx _ IH]; cbn [fmap list_fmap]; [done|]. f_equal; [by apply wrap_id|done].
Qed.
Lemma part_read off data len b :
  0 <= off -> 0 <= len -> off + len <= CBI_IMAGE_SIZE -> Z.of_nat (length data) = len ->
  let '(rv, data', b') := i2c_read_block off data len b in
  length data' = length data /\ (is_bytes data -> is_bytes data') /\ part b' = part b /\
  (rv = 0 -> data' = slice (part b) off len).
Proof.
  intros Ho Hn Hf Hd. cbn [i2c_read_block mem_bus]. unfold CBI_IMAGE_SIZE in Hf. pose proof (part_length b).
  split_and!; [rewrite length_slice; lia| |done|done]. intros _. apply Forall_take, Forall_drop, part_bytes.
Qed.
Lemma part_write off data b :
  0 <= off -> off + Z.of_nat (length data) <= CBI_IMAGE_SIZE -> is_bytes data ->
  off mod EEPROM_PAGE_WRITE_SIZE + Z.of_nat (length data) <= EEPROM_PAGE_WRITE_SIZE ->
  let '(rv, b') := i2c_write_block off data b in
  rv = 0 -> part b' = bcopy (part b) off data (Z.of_nat (length data)).
Proof.
  intros Ho Hf Hd Hpg. cbn [i2c_write_block mem_bus]. intros _. unfold CBI_IMAGE_SIZE in Hf.
  pose proof (part_length b). apply part_id.
  - rewrite length_bcopy; lia.
  - unfold bcopy. pose proof (part_bytes b). repeat apply Forall_app_2; by (apply Forall_take || apply Forall_drop).
Qed.
#[export] Instance mem_bus_ok : I2cOk (list Z) := {|
  eeprom := part; eeprom_length := part_length; eeprom_bytes := part_bytes; read_law := part_read; write_law := part_write |}.

Definition board : CbiCfg := {|
  CBI_FLASH_SIZE := 256;
  CONFIG_SYSTEM_UNLOCKED := false;
  cbi_board_override := fun _ buf size => (EC_SUCCESS, buf, size);
|}.

(** A board version and a SKU, with their checksum. *)
Definition items_0 : list (Z * list Z) := [(0, [1]); (2, [7; 0; 0; 0])].
Definition map_0 : gmap Z (list Z) := list_to_map items_0.
Definition image_0 : list Z := image (crc_of 0 0 items_0) 0 0 items_0 (replicate 239 0).
Definition state_0 : @cbi_state (list Z) := Cbi true image_0 image_0.
Lemma holds_0 : holds image_0 map_0.
Proof.
  exists items_0. split; [|done]. apply sane_intro; [concrete_range|concrete_range|done| |].
  - repeat constructor; concrete_range || done.
  - by apply (bool_decide_unpack _).
Qed.

Lemma cache_0 synced : cache_ok (Cbi synced image_0 image_0).
Proof. split; [done|concrete_range]. Qed.
Lemma values_0 synced : @values_of (list Z) eeprom_drv eeprom_ok (Cbi synced image_0 image_0) map_0.
Proof. destruct synced; [exact holds_0|]. intros _. exact holds_0. Qed.

(** From a cache that has not been read yet. *)
Lemma cbi_set_correct_witness :
  exists rv s', @hc_cbi_set (list Z) eeprom_drv board 2 0 1 [9] 13 (Cbi false image_0 image_0) = Some (rv, s') /\
    rv = EC_RES_SUCCESS /\ exists s1, @set_outcome (list Z) eeprom_drv board 2 0 1 [9] s1 map_0 rv s'.
Proof.
  assert (Hg : @cbi_storage_type (list Z) eeprom_drv <> CBI_STORAGE_TYPE_GPIO) by done.
  assert (Hd : is_bytes [9]) by concrete_range. assert (H2 : is_u8 2) by done.
  destruct (@cbi_set_correct (list Z) eeprom_drv eeprom_ok board 2 0 1 [9] (Cbi false image_0 image_0) map_0
    (cache_0 false) Hg (fun _ => values_0 false) H2 ltac:(lia) Hd ltac:(done)) as (rv & s' & E & Ho).
  destruct Ho as (e & s1 & Er & _ & Ho).
  assert (e = EC_SUCCESS) as -> by (revert Er; vm_compute; by intros [= <- _]).
  exists rv, s'. split; [exact E|]. split; [|by exists s1].
  revert E. vm_compute. by intros [= <- _].
Defined.

(** The SKU becomes a byte, and the medium is read from scratch. *)
Lemma cbi_survives_reboot_witness :
  exists s'', @hc_cbi_get (list Z) eeprom_drv board 2 0 (replicate 255 0)
      (Cbi false (replicate 256 0)
        (match @common_cbi_set (list Z) eeprom_drv board 2 0 1 [9] state_0 with Some (_, s') => storage s' | None => [] end)) =
    Some ((EC_RES_SUCCESS, [9]), s'').
Proof.
  assert (Hg : @cbi_storage_type (list Z) eeprom_drv <> CBI_STORAGE_TYPE_GPIO) by done.
  assert (Hr : is_bytes (replicate 256 0)) by concrete_range.
  assert (Hd : is_bytes [9]) by concrete_range.
  assert (H2 : is_u8 2) by done. assert (Hs : 0 <= 1 <= Z.of_nat (length [9])) by done.
  assert (Hb : 255 <= Z.of_nat (length (replicate 255 0))) by (rewrite length_replicate; lia).
  destruct (@common_cbi_set (list Z) eeprom_drv board 2 0 1 [9] state_0) as [[rv s']|] eqn:E; [|by vm_compute in E].
  assert (rv = EC_RES_SUCCESS) as -> by (revert E; vm_compute; by intros [=]).
  destruct (@cbi_survives_reboot (list Z) eeprom_drv eeprom_ok board 2 0 1 [9] state_0 map_0 s' (replicate 256 0) 2 (replicate 255 0)
    (fun _ _ _ => eq_refl) Hg (fun _ _ _ _ => eq_refl) (cache_0 true) (fun _ => values_0 true)
    H2 Hs Hd eq_refl E eq_refl Hr Hb)
    as (s2 & E2).
  exists s2. exact E2.
Defined.

Lemma cbi_rejects_corruption_witness :
  exists rv s', @cbi_read (list Z) eeprom_drv (Cbi false (replicate 256 0) (<[12%nat := 8]> image_0)) = Some (rv, s') /\
    rv <> EC_SUCCESS /\ synced s' = false.
Proof.
  refine (@cbi_rejects_corruption (list Z) eeprom_drv eeprom_ok image_0 (<[12%nat := 8]> image_0) (replicate 256 0) 12
    _ eq_refl _ eq_refl eq_refl _ _ _ _ _ _).
  - done.
  - concrete_range.
  - concrete_range.
  - by vm_compute.
  - done.
  - done.
  - intros j [Hj _] Hne. change (contents (<[12%nat := 8]> image_0)) with (part (<[12%nat := 8]> image_0)).
    rewrite part_id by (by rewrite ?length_insert || concrete_range).
    unfold aget. apply list_lookup_total_insert_ne. lia.
  - by vm_compute.
Defined.

(** ** What the checks miss *)

(** Setting a larger value that does not fit loses the one in the cache. *)
Example failed_set_loses_value :
  match @hc_cbi_set (list Z) eeprom_drv board 2 0 245 (replicate 245 1) 257 state_0 with
  | Some (rv, s') => rv = EC_RES_INVALID_PARAM /\ cbi_find_tag (cbi s') 2 = Some None
  | None => False
  end.
Proof. by vm_compute. Qed.

(** The check of the parameters' size wraps around: a read past their end,
    into an image without values. *)
Example set_size_wraps :
  @hc_cbi_set (list Z) eeprom_drv board 5 0 (2 ^ 32 - 12) [] 12
    (Cbi true (image (crc_of 0 0 []) 0 0 [] (replicate 248 0)) []) = None.
Proof. by vm_compute. Qed.
(** A size of 256 is cut to 0, and the value removed. *)
Example set_size_cut :
  match @hc_cbi_set (list Z) eeprom_drv board 2 0 256 (replicate 256 1) 268 state_0 with
  | Some (rv, s') => rv = EC_RES_SUCCESS /\ cbi_find_tag (cbi s') 2 = Some None
  | None => False
  end.
Proof. by vm_compute. Qed.

(** So do the checks of a raw write: a write past the end of the cache. *)
Example bin_write_wraps : @hc_cbi_bin_write (list Z) eeprom_drv board 255 (2 ^ 32 - 1) 0 [1] 10 state_0 = None.
Proof. by vm_compute. Qed.

(** A raw write to the buffer that is not committed changes the image that is
    read as valid, here to one whose items run past the end. *)
Example bin_write_unchecked :
  match @hc_cbi_bin_write (list Z) eeprom_drv board 6 2 0 [255; 255] 11 state_0 with
  | Some (rv, s') => rv = EC_RES_SUCCESS /\ synced s' = true /\ @hc_cbi_get (list Z) eeprom_drv board 9 0 (replicate 8 0) s' = None
  | None => False
  end.
Proof. by vm_compute. Qed.
End Cbi.
