(* ===== verification/HostEvent.v ===== *)
(** * Host events

    common/host_event_commands.c with CONFIG_HOSTCMD_X86, CONFIG_POWER_S0IX and
    64-bit events: the events set for the host, their second copy, the masks
    and the mirror that the chip driver reports.  The first part is the code as
    functions of the state; the second part cuts [host_set_events] and
    [host_clear_events] into their atomic accesses, which tasks and interrupts
    may interleave. *)

From stdpp Require Import relations.
From S2P Require Import Prelude Bits Bytes.
Import Bits Bytes.

Module HostEvent.

(** src/include/lpc.h:83-89 [enum lpc_host_event_type] *)
Definition LPC_HOST_EVENT_SMI : Z := 0.
Definition LPC_HOST_EVENT_SCI : Z := 1.
Definition LPC_HOST_EVENT_WAKE : Z := 2.
Definition LPC_HOST_EVENT_ALWAYS_REPORT : Z := 3.
Definition LPC_HOST_EVENT_COUNT : Z := 4.

(** src/include/ec_commands.h:943-943 [EC_HOST_EVENT_MASK] *)
Definition EC_HOST_EVENT_MASK (code : Z) : Z := BIT (code - 1).
(** src/include/ec_commands.h:847-941 [enum host_event_code] *)
Definition EC_HOST_EVENT_KEYBOARD_RECOVERY : Z := 15.
Definition EC_HOST_EVENT_THERMAL_SHUTDOWN : Z := 16.
Definition EC_HOST_EVENT_BATTERY_SHUTDOWN : Z := 17.
Definition EC_HOST_EVENT_THROTTLE_START : Z := 18.
Definition EC_HOST_EVENT_THROTTLE_STOP : Z := 19.
Definition EC_HOST_EVENT_HANG_REBOOT : Z := 21.
Definition EC_HOST_EVENT_PANIC : Z := 24.
Definition EC_HOST_EVENT_KEYBOARD_FASTBOOT : Z := 25.
Definition EC_HOST_EVENT_MKBP : Z := 27.
Definition EC_HOST_EVENT_KEYBOARD_RECOVERY_HW_REINIT : Z := 30.

(** src/common/host_event_commands.c:77-85 [LPC_HOST_EVENT_ALWAYS_REPORT_DEFAULT_MASK] *)
Definition LPC_HOST_EVENT_ALWAYS_REPORT_DEFAULT_MASK : Z :=
  foldr Z.lor 0 (EC_HOST_EVENT_MASK <$>
    [ EC_HOST_EVENT_KEYBOARD_RECOVERY; EC_HOST_EVENT_THERMAL_SHUTDOWN; EC_HOST_EVENT_BATTERY_SHUTDOWN;
      EC_HOST_EVENT_HANG_REBOOT; EC_HOST_EVENT_PANIC; EC_HOST_EVENT_KEYBOARD_FASTBOOT; EC_HOST_EVENT_MKBP;
      EC_HOST_EVENT_KEYBOARD_RECOVERY_HW_REINIT ]).

(** The events a board reports, and its always-report mask. *)
Class HostEventCfg := {
  CONFIG_HOST_EVENT_REPORT_MASK : Z;
  lpc_override_always_report_mask : Z;
}.

(** The static variables; [told] is what the chip driver saw in its last
    [lpc_update_host_event_status], and [recovery] whether
    [system_enter_manual_recovery] was called. *)
(** src/common/host_event_commands.c:87-91 [lpc_host_events, lpc_host_event_mask, active_wm_set_by_host] *)
Record hev := Hev {
  lpc_host_events : Z;
  lpc_host_event_mask : list Z;
  active_wm_set_by_host : bool;
  events : Z;
  events_copy_b : Z;
  s3_lazy_wm : Z;
  s5_lazy_wm : Z;
  s0ix_lazy_wm : Z;
  told : Z * list Z;
  recovery : bool;
}.
Definition with_lpc v s := Hev v (lpc_host_event_mask s) (active_wm_set_by_host s) (events s) (events_copy_b s)
  (s3_lazy_wm s) (s5_lazy_wm s) (s0ix_lazy_wm s) (told s) (recovery s).
Definition with_masks v s := Hev (lpc_host_events s) v (active_wm_set_by_host s) (events s) (events_copy_b s)
  (s3_lazy_wm s) (s5_lazy_wm s) (s0ix_lazy_wm s) (told s) (recovery s).
Definition with_active v s := Hev (lpc_host_events s) (lpc_host_event_mask s) v (events s) (events_copy_b s)
  (s3_lazy_wm s) (s5_lazy_wm s) (s0ix_lazy_wm s) (told s) (recovery s).
Definition with_events v s := Hev (lpc_host_events s) (lpc_host_event_mask s) (active_wm_set_by_host s) v (events_copy_b s)
  (s3_lazy_wm s) (s5_lazy_wm s) (s0ix_lazy_wm s) (told s) (recovery s).
Definition with_copy_b v s := Hev (lpc_host_events s) (lpc_host_event_mask s) (active_wm_set_by_host s) (events s) v
  (s3_lazy_wm s) (s5_lazy_wm s) (s0ix_lazy_wm s) (told s) (recovery s).
Definition with_lazy s3 s5 s0ix s := Hev (lpc_host_events s) (lpc_host_event_mask s) (active_wm_set_by_host s) (events s)
  (events_copy_b s) s3 s5 s0ix (told s) (recovery s).
Definition with_recovery s := Hev (lpc_host_events s) (lpc_host_event_mask s) (active_wm_set_by_host s) (events s)
  (events_copy_b s) (s3_lazy_wm s) (s5_lazy_wm s) (s0ix_lazy_wm s) (told s) true.

(** The driver's update reads the events and the masks. *)
Definition lpc_update_host_event_status (s : hev) : hev :=
  Hev (lpc_host_events s) (lpc_host_event_mask s) (active_wm_set_by_host s) (events s) (events_copy_b s)
    (s3_lazy_wm s) (s5_lazy_wm s) (s0ix_lazy_wm s) (lpc_host_events s, lpc_host_event_mask s) (recovery s).

(** The lowest set bit of a word, from 1; 0 if there is none. *)
Definition ffs (x : Z) : Z := if x =? 0 then 0 else lowest x + 1.

Section Model.
Context `{HostEventCfg}.

(** src/common/host_event_commands.c:29-50 [host_event_set_bit] *)
Definition host_event_set_bit (bit : Z) : Z :=
  if bit =? 0 then 0
  else if 32 <? bit then Z.shiftl (u32 (Z.shiftl 1 (bit - 32 - 1))) 32
  else u32 (Z.shiftl 1 (bit - 1)).

(** src/common/host_event_commands.c:93-101 [lpc_set_host_event_mask] *)
Definition lpc_set_host_event_mask (type mask : Z) (s : hev) : hev :=
  let s := with_masks (aset (lpc_host_event_mask s) type mask) s in
  let s := lpc_update_host_event_status s in
  if (type =? LPC_HOST_EVENT_WAKE) && (mask =? 0) then with_active false s else s.

(** src/common/host_event_commands.c:103-106 [lpc_get_host_event_mask] *)
Definition lpc_get_host_event_mask (type : Z) (s : hev) : Z := aget (lpc_host_event_mask s) type.

(** src/common/host_event_commands.c:108-117 [lpc_get_all_host_event_masks] *)
Definition lpc_get_all_host_event_masks (s : hev) : Z :=
  fold_left (fun or_mask i => Z.lor or_mask (lpc_get_host_event_mask i s)) (seqZ 0 LPC_HOST_EVENT_COUNT) 0.

(** src/common/host_event_commands.c:119-126 [lpc_set_host_event_state] *)
Definition lpc_set_host_event_state (ev : Z) (s : hev) : hev :=
  if ev =? lpc_host_events s then s else lpc_update_host_event_status (with_lpc ev s).

(** src/common/host_event_commands.c:128-131 [lpc_get_host_events_by_type] *)
Definition lpc_get_host_events_by_type (type : Z) (s : hev) : Z :=
  Z.land (lpc_host_events s) (lpc_get_host_event_mask type s).

(** Two accesses, to the lower and the upper word. *)
(** src/common/host_event_commands.c:266-272 [host_events_atomic_or] *)
Definition host_events_atomic_or (e m : Z) : Z :=
  let e := Z.lor e (u32 m) in
  Z.lor e (Z.shiftl (u32 (Z.shiftr m 32)) 32).
(** src/common/host_event_commands.c:274-280 [host_events_atomic_clear] *)
Definition host_events_atomic_clear (e m : Z) : Z :=
  let e := Z.land e (Z.lnot (u32 m)) in
  Z.land e (Z.lnot (Z.shiftl (u32 (Z.shiftr m 32)) 32)).

(** The events that a call sets, and whether it does something. *)
Definition effective (mask : Z) (s : hev) : Z :=
  Z.land (Z.land mask CONFIG_HOST_EVENT_REPORT_MASK) (lpc_get_all_host_event_masks s).
Definition changes (mask : Z) (s : hev) : bool :=
  negb (Z.land (events s) mask =? mask) || negb (Z.land (events_copy_b s) mask =? mask).
Definition note_recovery (mask : Z) (s : hev) : hev :=
  if bool_of_Z (Z.land mask (EC_HOST_EVENT_MASK EC_HOST_EVENT_KEYBOARD_RECOVERY)) then with_recovery s else s.

(** src/common/host_event_commands.c:301-342 [host_set_events] *)
Definition host_set_events (mask : Z) (s : hev) : hev :=
  let mask := effective mask s in
  if negb (changes mask s) then s
  else
    let s := note_recovery mask s in
    let s := with_events (host_events_atomic_or (events s) mask) s in
    let s := with_copy_b (host_events_atomic_or (events_copy_b s) mask) s in
    lpc_set_host_event_state (events s) s.

(** src/common/host_event_commands.c:344-350 [host_set_single_event] *)
Definition host_set_single_event (event : Z) : hev -> hev := host_set_events (host_event_set_bit event).

(** The result is an [int]: the upper word of the event is lost. *)
(** src/common/host_event_commands.c:352-358 [host_is_event_set] *)
Definition host_is_event_set (event : Z) (s : hev) : Z := s32 (u32 (Z.land (events s) (host_event_set_bit event))).

(** src/common/host_event_commands.c:360-381 [host_clear_events] *)
Definition host_clear_events (mask : Z) (s : hev) : hev :=
  let mask := Z.land mask CONFIG_HOST_EVENT_REPORT_MASK in
  if negb (bool_of_Z (Z.land (events s) mask)) then s
  else
    let s := with_events (host_events_atomic_clear (events s) mask) s in
    lpc_set_host_event_state (events s) s.

(** [ffs] takes an [int]. *)
(** src/common/host_event_commands.c:138-155 [lpc_get_next_host_event] *)
Definition lpc_get_next_host_event (s : hev) : Z * hev :=
  let evt_idx := ffs (u32 (lpc_host_events s)) in
  let evt_idx :=
    if evt_idx =? 0 then
      let evt_idx_high := ffs (u32 (Z.shiftr (lpc_host_events s) 32)) in
      if negb (evt_idx_high =? 0) then 32 + evt_idx_high else evt_idx
    else evt_idx in
  (evt_idx, if negb (evt_idx =? 0) then host_clear_events (host_event_set_bit evt_idx) s else s).

(** src/common/host_event_commands.c:412-419 [host_clear_events_b] *)
Definition host_clear_events_b (mask : Z) (s : hev) : hev :=
  with_copy_b (host_events_atomic_clear (events_copy_b s) mask) s.

(** src/common/host_event_commands.c:426-432 [host_throttle_cpu] *)
Definition host_throttle_cpu (throttle : Z) : hev -> hev :=
  host_set_single_event (if bool_of_Z throttle then EC_HOST_EVENT_THROTTLE_START else EC_HOST_EVENT_THROTTLE_STOP).

(** src/common/host_event_commands.c:438-441 [clear_events_copy_b] *)
Definition clear_events_copy_b (s : hev) : hev := with_copy_b 0 s.

(** src/common/host_event_commands.c:206-211 [lpc_s3_resume_clear_masks] *)
Definition lpc_s3_resume_clear_masks (s : hev) : hev :=
  lpc_set_host_event_mask LPC_HOST_EVENT_WAKE 0
    (lpc_set_host_event_mask LPC_HOST_EVENT_SCI 0 (lpc_set_host_event_mask LPC_HOST_EVENT_SMI 0 s)).

(** src/common/host_event_commands.c:225-229 [clear_non_sci_events] *)
Definition clear_non_sci_events (s : hev) : hev :=
  host_clear_events (Z.land (u64 (Z.lnot (lpc_get_host_event_mask LPC_HOST_EVENT_SCI s)))
                            (u64 (Z.lnot (lpc_get_host_event_mask LPC_HOST_EVENT_SMI s)))) s.

(** ** Jumps to another image

    A saved tag is its version and contents; the stored masks are those of
    another image. *)

Definition LPC_SYSJUMP_OLD_VERSION : Z := 1.
Definition LPC_SYSJUMP_VERSION : Z := 2.
Definition LAZY_WAKE_MASK_HOOK_VERSION : Z := 1.

(** src/common/host_event_commands.c:157-161 [lpc_sysjump_save_mask] *)
Definition lpc_sysjump_save_mask (s : hev) : Z * list Z := (LPC_SYSJUMP_VERSION, lpc_host_event_mask s).

(** src/common/host_event_commands.c:172-187 [lpc_post_sysjump_restore_mask] *)
Definition lpc_post_sysjump_restore_mask (tag : option (Z * list Z)) (s : hev) : bool * hev :=
  match tag with
  | None => (false, s)
  | Some (version, prev_mask) =>
      if negb (Z.of_nat (length prev_mask) =? LPC_HOST_EVENT_COUNT) ||
         (negb (version =? LPC_SYSJUMP_VERSION) && negb (version =? LPC_SYSJUMP_OLD_VERSION))
      then (false, s)
      else (version =? LPC_SYSJUMP_VERSION, with_masks prev_mask s)
  end.

(** src/common/host_event_commands.c:194-204 [lpc_init_mask] *)
Definition lpc_init_mask (tag : option (Z * list Z)) (s : hev) : hev :=
  let '(restored, s) := lpc_post_sysjump_restore_mask tag s in
  if negb restored
  then with_masks (aset (lpc_host_event_mask s) LPC_HOST_EVENT_ALWAYS_REPORT lpc_override_always_report_mask) s
  else s.

(** src/common/host_event_commands.c:792-797 [preserve_lazy_wm] *)
Definition preserve_lazy_wm (s : hev) : Z * (Z * Z * Z) :=
  (LAZY_WAKE_MASK_HOOK_VERSION, (s3_lazy_wm s, s5_lazy_wm s, s0ix_lazy_wm s)).
(** The size of the contents is right by their type. *)
(** src/common/host_event_commands.c:800-812 [restore_lazy_wm] *)
Definition restore_lazy_wm (tag : option (Z * (Z * Z * Z))) (s : hev) : hev :=
  match tag with
  | Some (version, (s3, s5, s0ix)) =>
      if version =? LAZY_WAKE_MASK_HOOK_VERSION then with_lazy s3 s5 s0ix s else s
  | None => s
  end.

(** ** Host commands *)

Definition EC_RES_SUCCESS : Z := 0.
Definition EC_RES_INVALID_PARAM : Z := 3.
Definition EC_RES_ACCESS_DENIED : Z := 4.

(** The 32-bit commands. *)
(** src/common/host_event_commands.c:502-511 [host_event_get_smi_mask] *)
Definition host_event_get_smi_mask (s : hev) : Z := u32 (lpc_get_host_event_mask LPC_HOST_EVENT_SMI s).
(** src/common/host_event_commands.c:515-524 [host_event_get_sci_mask] *)
Definition host_event_get_sci_mask (s : hev) : Z := u32 (lpc_get_host_event_mask LPC_HOST_EVENT_SCI s).
(** src/common/host_event_commands.c:528-537 [host_event_get_wake_mask] *)
Definition host_event_get_wake_mask (s : hev) : Z := u32 (lpc_get_host_event_mask LPC_HOST_EVENT_WAKE s).
(** src/common/host_event_commands.c:541-548 [host_event_set_smi_mask] *)
Definition host_event_set_smi_mask (mask : Z) : hev -> hev := lpc_set_host_event_mask LPC_HOST_EVENT_SMI mask.
(** src/common/host_event_commands.c:552-559 [host_event_set_sci_mask] *)
Definition host_event_set_sci_mask (mask : Z) : hev -> hev := lpc_set_host_event_mask LPC_HOST_EVENT_SCI mask.
(** src/common/host_event_commands.c:563-571 [host_event_set_wake_mask] *)
Definition host_event_set_wake_mask (mask : Z) (s : hev) : hev :=
  with_active (bool_of_Z mask) (lpc_set_host_event_mask LPC_HOST_EVENT_WAKE mask s).
(** src/common/host_event_commands.c:582-590 [host_event_get_b] *)
Definition host_event_get_b (s : hev) : Z := u32 (events_copy_b s).

(** src/include/ec_commands.h:4458-4470 [enum ec_host_event_action] *)
Inductive event_action := EC_HOST_EVENT_GET | EC_HOST_EVENT_SET | EC_HOST_EVENT_CLEAR.
(** src/include/ec_commands.h:4472-4500 [enum ec_host_event_mask_type] *)
Inductive mask_type :=
| EC_HOST_EVENT_MAIN
| EC_HOST_EVENT_B
| EC_HOST_EVENT_SCI_MASK
| EC_HOST_EVENT_SMI_MASK
| EC_HOST_EVENT_ALWAYS_REPORT_MASK
| EC_HOST_EVENT_ACTIVE_WAKE_MASK
| EC_HOST_EVENT_LAZY_WAKE_MASK_S0IX
| EC_HOST_EVENT_LAZY_WAKE_MASK_S3
| EC_HOST_EVENT_LAZY_WAKE_MASK_S5.

(** The status and the response's value; an unknown mask type is [None]. *)
(** src/common/host_event_commands.c:612-660 [host_event_action_get] *)
Definition host_event_action_get (type : option mask_type) (s : hev) : Z * Z :=
  match type with
  | Some EC_HOST_EVENT_MAIN => (EC_RES_ACCESS_DENIED, 0)
  | Some EC_HOST_EVENT_B => (EC_RES_SUCCESS, events_copy_b s)
  | Some EC_HOST_EVENT_SCI_MASK => (EC_RES_SUCCESS, lpc_get_host_event_mask LPC_HOST_EVENT_SCI s)
  | Some EC_HOST_EVENT_SMI_MASK => (EC_RES_SUCCESS, lpc_get_host_event_mask LPC_HOST_EVENT_SMI s)
  | Some EC_HOST_EVENT_ALWAYS_REPORT_MASK => (EC_RES_SUCCESS, lpc_get_host_event_mask LPC_HOST_EVENT_ALWAYS_REPORT s)
  | Some EC_HOST_EVENT_ACTIVE_WAKE_MASK => (EC_RES_SUCCESS, lpc_get_host_event_mask LPC_HOST_EVENT_WAKE s)
  | Some EC_HOST_EVENT_LAZY_WAKE_MASK_S0IX => (EC_RES_SUCCESS, s0ix_lazy_wm s)
  | Some EC_HOST_EVENT_LAZY_WAKE_MASK_S3 => (EC_RES_SUCCESS, s3_lazy_wm s)
  | Some EC_HOST_EVENT_LAZY_WAKE_MASK_S5 => (EC_RES_SUCCESS, s5_lazy_wm s)
  | None => (EC_RES_INVALID_PARAM, 0)
  end.

(** src/common/host_event_commands.c:662-706 [host_event_action_set] *)
Definition host_event_action_set (type : option mask_type) (value : Z) (s : hev) : Z * hev :=
  match type with
  | Some EC_HOST_EVENT_MAIN | Some EC_HOST_EVENT_B => (EC_RES_ACCESS_DENIED, s)
  | Some EC_HOST_EVENT_SCI_MASK => (EC_RES_SUCCESS, lpc_set_host_event_mask LPC_HOST_EVENT_SCI value s)
  | Some EC_HOST_EVENT_SMI_MASK => (EC_RES_SUCCESS, lpc_set_host_event_mask LPC_HOST_EVENT_SMI value s)
  | Some EC_HOST_EVENT_ALWAYS_REPORT_MASK => (EC_RES_SUCCESS, lpc_set_host_event_mask LPC_HOST_EVENT_ALWAYS_REPORT value s)
  | Some EC_HOST_EVENT_ACTIVE_WAKE_MASK =>
      (EC_RES_SUCCESS, lpc_set_host_event_mask LPC_HOST_EVENT_WAKE value (with_active (bool_of_Z value) s))
  | Some EC_HOST_EVENT_LAZY_WAKE_MASK_S0IX => (EC_RES_SUCCESS, with_lazy (s3_lazy_wm s) (s5_lazy_wm s) value s)
  | Some EC_HOST_EVENT_LAZY_WAKE_MASK_S3 => (EC_RES_SUCCESS, with_lazy value (s5_lazy_wm s) (s0ix_lazy_wm s) s)
  | Some EC_HOST_EVENT_LAZY_WAKE_MASK_S5 => (EC_RES_SUCCESS, with_lazy (s3_lazy_wm s) value (s0ix_lazy_wm s) s)
  | None => (EC_RES_INVALID_PARAM, s)
  end.

(** src/common/host_event_commands.c:708-740 [host_event_action_clear] *)
Definition host_event_action_clear (type : option mask_type) (value : Z) (s : hev) : Z * hev :=
  match type with
  | Some EC_HOST_EVENT_MAIN => (EC_RES_SUCCESS, host_clear_events value s)
  | Some EC_HOST_EVENT_B => (EC_RES_SUCCESS, host_clear_events_b value s)
  | Some _ => (EC_RES_ACCESS_DENIED, s)
  | None => (EC_RES_INVALID_PARAM, s)
  end.

(** The status, the response of a get, and the state. *)
(** src/common/host_event_commands.c:742-759 [host_command_host_event] *)
Definition host_command_host_event (action : option event_action) (type : option mask_type) (value : Z) (s : hev) :
  Z * option Z * hev :=
  match action with
  | Some EC_HOST_EVENT_GET => let '(rv, v) := host_event_action_get type s in (rv, Some v, s)
  | Some EC_HOST_EVENT_SET => let '(rv, s) := host_event_action_set type value s in (rv, None, s)
  | Some EC_HOST_EVENT_CLEAR => let '(rv, s) := host_event_action_clear type value s in (rv, None, s)
  | None => (EC_RES_INVALID_PARAM, None, s)
  end.

(** src/common/host_event_commands.c:768-790 [get_lazy_wake_mask] *)
Inductive sleep_state := POWER_S5 | POWER_S3 | POWER_S0ix | OTHER_STATE.
Definition get_lazy_wake_mask (state : sleep_state) (s : hev) : ec_error * Z :=
  match state with
  | POWER_S5 => (EC_SUCCESS, s5_lazy_wm s)
  | POWER_S3 => (EC_SUCCESS, s3_lazy_wm s)
  | POWER_S0ix => (EC_SUCCESS, s0ix_lazy_wm s)
  | OTHER_STATE => (EC_ERROR_INVAL, 0)
  end.

(** ** Interleavings

    A call as its accesses to the shared variables, one word at a time; the
    guard of an operation reads before the first. *)

Inductive access :=
| Guard_set (mask : Z)
| Guard_clear (mask : Z)
| Or_events (word : bool) (mask : Z)
| Or_copy_b (word : bool) (mask : Z)
| Clear_events (word : bool) (mask : Z)
| Read_events
| Publish.

(** The part of a mask in the lower or the upper word. *)
Definition part (word : bool) (mask : Z) : Z :=
  if word then Z.shiftl (u32 (Z.shiftr mask 32)) 32 else u32 mask.

(** What is left of a call, and the events it read. *)
Record call := Call {
  todo : list access;
  snap : Z;
}.

(** src/common/host_event_commands.c:301-342 [host_set_events] *)
Definition set_call (mask : Z) : call :=
  Call [Guard_set mask; Or_events false mask; Or_events true mask; Or_copy_b false mask; Or_copy_b true mask;
        Read_events; Publish] 0.
(** src/common/host_event_commands.c:360-381 [host_clear_events] *)
Definition clear_call (mask : Z) : call :=
  Call [Guard_clear mask; Clear_events false mask; Clear_events true mask; Read_events; Publish] 0.

(** One access of a call. *)
Definition access_step (a : access) (rest : list access) (snap : Z) (s : hev) : call * hev :=
  match a with
  | Guard_set mask => if negb (changes mask s) then (Call [] snap, s) else (Call rest snap, note_recovery mask s)
  | Guard_clear mask => if negb (bool_of_Z (Z.land (events s) mask)) then (Call [] snap, s) else (Call rest snap, s)
  | Or_events word mask => (Call rest snap, with_events (Z.lor (events s) (part word mask)) s)
  | Or_copy_b word mask => (Call rest snap, with_copy_b (Z.lor (events_copy_b s) (part word mask)) s)
  | Clear_events word mask => (Call rest snap, with_events (Z.land (events s) (Z.lnot (part word mask))) s)
  | Read_events => (Call rest (events s), s)
  | Publish => (Call rest snap, lpc_set_host_event_state snap s)
  end.

(** Any call that has something left makes its next access. *)
Inductive interleave : list call * hev -> list call * hev -> Prop :=
| interleave_access calls i a rest v s c s' :
    calls !! i = Some (Call (a :: rest) v) -> access_step a rest v s = (c, s') ->
    interleave (calls, s) (<[i := c]> calls, s').

(** One call on its own. *)
Fixpoint alone (fuel : nat) (c : call) (s : hev) : hev :=
  match fuel, todo c with
  | S fuel, a :: rest => let '(c, s) := access_step a rest (snap c) s in alone fuel c s
  | _, _ => s
  end.
End Model.

(** ** Words and bits *)

Lemma part_testbit w m j :
  is_u64 m -> 0 <= j -> Z.testbit (part w m) j = Z.testbit m j && (if w then 32 <=? j else j <? 32).
Proof.
  intros Hm Hj. unfold part. destruct w.
  - rewrite (wrap_id 32) by (unfold in_range in *; rewrite Z.shiftr_div_pow2 by lia; divlia).
    rewrite Z.shiftl_spec by done. destruct (Z.leb_spec 32 j).
    + rewrite Z.shiftr_spec, andb_true_r by lia. f_equal. lia.
    + by rewrite Z.testbit_neg_r, andb_false_r by lia.
  - rewrite <- (land_mask 32), Z.land_spec by lia. change (2 ^ 32 - 1) with (Z.ones 32).
    destruct (Z.ltb_spec j 32); [by rewrite Z.ones_spec_low|by rewrite Z.ones_spec_high by lia].
Qed.

Lemma atomic_or_lor e m : is_u64 m -> host_events_atomic_or e m = Z.lor e m.
Proof.
  intros Hm. unfold host_events_atomic_or. fold (part false m) (part true m). apply Z.bits_inj'. intros j Hj.
  rewrite !Z.lor_spec, !part_testbit by done. destruct (Z.leb_spec 32 j), (Z.ltb_spec j 32); try lia;
    destruct (Z.testbit e j), (Z.testbit m j); done.
Qed.
Lemma atomic_clear_land e m : is_u64 m -> host_events_atomic_clear e m = Z.land e (Z.lnot m).
Proof.
  intros Hm. unfold host_events_atomic_clear. fold (part false m) (part true m). apply Z.bits_inj'. intros j Hj.
  rewrite !Z.land_spec, !Z.lnot_spec, !part_testbit by done. destruct (Z.leb_spec 32 j), (Z.ltb_spec j 32); try lia;
    destruct (Z.testbit e j), (Z.testbit m j); done.
Qed.

Lemma u64_land a b : is_u64 a -> is_u64 (Z.land a b).
Proof.
  intros [H1 H2]. unfold in_range. split; [apply Z.land_nonneg; by left|].
  destruct (Z.eq_dec (Z.land a b) 0) as [->|Hz]; [done|].
  assert (0 <= Z.land a b) by (apply Z.land_nonneg; by left). apply Z.log2_lt_pow2; [lia|].
  assert (Hb : Z.testbit (Z.land a b) (Z.log2 (Z.land a b)) = true) by (apply Z.bit_log2; lia).
  rewrite Z.land_spec in Hb. apply andb_prop in Hb as [Hb _].
  pose proof (bit_range 64 a _ ltac:(lia) (conj H1 H2) Hb). lia.
Qed.
Lemma u64_lor a b : is_u64 a -> is_u64 b -> is_u64 (Z.lor a b).
Proof. intros. apply lor_range; [lia|done|done]. Qed.

Lemma event_bit i : 0 <= i < 64 -> host_event_set_bit (i + 1) = BIT i.
Proof.
  intros Hi. unfold host_event_set_bit. rewrite (proj2 (Z.eqb_neq _ _)) by lia.
  assert (E : forallb (fun i => (if 32 <? i + 1 then Z.shiftl (u32 (Z.shiftl 1 (i + 1 - 32 - 1))) 32
      else u32 (Z.shiftl 1 (i + 1 - 1))) =? BIT i) (seqZ 0 64) = true) by (by vm_compute).
  by apply Z.eqb_eq, (forall_below 64 _ E).
Qed.

(** The next event is the lowest set bit of the 64. *)
Lemma filter_fmap {A B} (f : B -> bool) (g : A -> B) l : List.filter f (g <$> l) = g <$> List.filter (fun x => f (g x)) l.
Proof. induction l as [|x l IH]; [done|]. cbn. rewrite IH. by destruct (f (g x)). Qed.
Lemma bits_halves m :
  is_u64 m -> bits 64 m = bits 32 (u32 m) ++ ((fun i => 32 + i) <$> bits 32 (u32 (Z.shiftr m 32))).
Proof.
  intros Hm. unfold bits. replace (seqZ 0 64) with (seqZ 0 32 ++ ((fun i => 32 + i) <$> seqZ 0 32)) by done.
  rewrite List.filter_app, filter_fmap. f_equal; [|f_equal]; apply List.filter_ext_in; intros i Hi%list_elem_of_In%elem_of_seqZ.
  - pose proof (part_testbit false m i Hm ltac:(lia)) as E. unfold part in E. rewrite E.
    rewrite (proj2 (Z.ltb_lt _ _)) by lia. by rewrite andb_true_r.
  - rewrite (wrap_id 32) by (unfold in_range in *; rewrite Z.shiftr_div_pow2 by lia; divlia).
    rewrite Z.shiftr_spec by lia. f_equal. lia.
Qed.

Lemma ffs_bits m : is_u32 m -> ffs m = match bits 32 m with [] => 0 | i :: _ => i + 1 end.
Proof.
  intros Hm. unfold ffs. rewrite lowest_bits. destruct (bits 32 m) as [|i l] eqn:E.
  - by rewrite (bits_zero 32 m) by done.
  - destruct (Z.eqb_spec m 0) as [->|]; [|done]. by vm_compute in E.
Qed.

Section Proofs.
Context `{HostEventCfg}.

Lemma next_index (s : hev) :
  is_u64 (lpc_host_events s) ->
  lpc_get_next_host_event s =
    match bits 64 (lpc_host_events s) with
    | [] => (0, s)
    | i :: _ => (i + 1, host_clear_events (BIT i) s)
    end.
Proof.
  intros Hm. unfold lpc_get_next_host_event. rewrite !ffs_bits by (by apply wrap_range).
  assert (Hr : forall i l m, bits 32 m = i :: l -> 0 <= i < 32).
  { intros i l m E. assert (Hi : In i (bits 32 m)) by (rewrite E; by left). by apply elem_bits in Hi as [? _]. }
  rewrite bits_halves by done. destruct (bits 32 (u32 (lpc_host_events s))) as [|i l] eqn:E1.
  - cbn [Z.eqb app]. destruct (bits 32 (u32 (Z.shiftr (lpc_host_events s) 32))) as [|i l] eqn:E2; cbn [fmap list_fmap]; [done|].
    pose proof (Hr _ _ _ E2). rewrite (proj2 (Z.eqb_neq (i + 1) 0)) by lia. cbn [negb].
    rewrite (proj2 (Z.eqb_neq (32 + (i + 1)) 0)) by lia. cbn [negb]. rewrite Z.add_assoc, event_bit by lia. done.
  - pose proof (Hr _ _ _ E1). rewrite (proj2 (Z.eqb_neq (i + 1) 0)) by lia. cbn [negb app].
    rewrite (proj2 (Z.eqb_neq (i + 1) 0)) by lia. cbn [negb]. by rewrite event_bit by lia.
Qed.

(** ** One call after the other *)

(** Between calls: the mirror is what the driver was told, and nothing is
    set that the board does not report. *)
Record in_sync (s : hev) : Prop := {
  sync_mirror : lpc_host_events s = events s;
  sync_told : (told s).1 = events s;
  sync_range : is_u64 (events s);
  sync_report : Z.land (events s) CONFIG_HOST_EVENT_REPORT_MASK = events s;
}.

(** What a call of [lpc_set_host_event_state] with the events leaves. *)
Lemma publish_sync (s : hev) :
  is_u64 (events s) -> Z.land (events s) CONFIG_HOST_EVENT_REPORT_MASK = events s -> (told s).1 = lpc_host_events s ->
  in_sync (lpc_set_host_event_state (events s) s).
Proof.
  intros Hr Hp Ht. unfold lpc_set_host_event_state. destruct (Z.eqb_spec (events s) (lpc_host_events s)) as [E|E];
    constructor; cbn; congruence.
Qed.
Lemma publish_same ev (s : hev) :
  let s' := lpc_set_host_event_state ev s in
  events s' = events s /\ events_copy_b s' = events_copy_b s /\ lpc_host_event_mask s' = lpc_host_event_mask s.
Proof. unfold lpc_set_host_event_state. by destruct (ev =? _). Qed.

Lemma masks_same (s s' : hev) mask : lpc_host_event_mask s' = lpc_host_event_mask s -> effective mask s' = effective mask s.
Proof. intros E. unfold effective, lpc_get_all_host_event_masks, lpc_get_host_event_mask. by rewrite E. Qed.

Lemma lor_absorb e m : Z.land e m = m -> Z.lor e m = e.
Proof.
  intros E. apply Z.bits_inj'. intros j Hj. apply (f_equal (fun z => Z.testbit z j)) in E. rewrite Z.land_spec in E.
  rewrite Z.lor_spec. destruct (Z.testbit e j), (Z.testbit m j); done.
Qed.

Lemma host_set_events_spec mask (s : hev) :
  in_sync s -> is_u64 mask ->
  let s' := host_set_events mask s in
  in_sync s' /\ events s' = Z.lor (events s) (effective mask s) /\
  events_copy_b s' = Z.lor (events_copy_b s) (effective mask s) /\
  lpc_host_event_mask s' = lpc_host_event_mask s.
Proof.
  intros [Hm Ht Hr Hp] Hmask s'. unfold s', host_set_events.
  assert (He : is_u64 (effective mask s)) by (by apply u64_land, u64_land). set (m := effective mask s) in *.
  destruct (changes m s) eqn:Ec; cbn [negb].
  - rewrite !atomic_or_lor by done. set (s1 := note_recovery m s).
    assert (E1 : events s1 = events s /\ events_copy_b s1 = events_copy_b s /\ lpc_host_event_mask s1 = lpc_host_event_mask s /\
      told s1 = told s /\ lpc_host_events s1 = lpc_host_events s) by (unfold s1, note_recovery; by destruct (bool_of_Z _)).
    destruct E1 as (E1 & E2 & E3 & E4 & E5). set (s2 := with_copy_b _ _).
    destruct (publish_same (events s2) s2) as (F1 & F2 & F3). rewrite F1, F2, F3.
    split; [|cbn; by rewrite E1, E2, E3]. apply publish_sync; cbn.
    + rewrite E1. by apply u64_lor.
    + rewrite E1, Z.land_lor_distr_l, Hp. f_equal. unfold m, effective. apply Z.bits_inj'. intros j Hj.
      rewrite !Z.land_spec. destruct (Z.testbit mask j), (Z.testbit CONFIG_HOST_EVENT_REPORT_MASK j), (Z.testbit _ j); done.
    + congruence.
  - unfold changes in Ec. apply orb_false_iff in Ec as [Ea%negb_false_iff%Z.eqb_eq Eb%negb_false_iff%Z.eqb_eq].
    rewrite !lor_absorb by done. done.
Qed.

Lemma host_clear_bit i (s : hev) :
  in_sync s -> 0 <= i < 64 -> Z.testbit (events s) i = true ->
  let s' := host_clear_events (BIT i) s in
  in_sync s' /\ events s' = clear_bit i (events s) /\ events_copy_b s' = events_copy_b s /\
  lpc_host_event_mask s' = lpc_host_event_mask s.
Proof.
  intros [Hm Ht Hr Hp] Hi Hb s'. unfold s', host_clear_events.
  assert (Hrep : Z.testbit CONFIG_HOST_EVENT_REPORT_MASK i = true).
  { apply (f_equal (fun z => Z.testbit z i)) in Hp. rewrite Z.land_spec, Hb in Hp. done. }
  assert (Em : Z.land (BIT i) CONFIG_HOST_EVENT_REPORT_MASK = BIT i).
  { apply Z.bits_inj'. intros j Hj. rewrite Z.land_spec, testbit_BIT by lia. destruct (Z.eqb_spec j i) as [->|]; [by rewrite Hrep|done]. }
  rewrite Em. fold (has i (events s)). rewrite has_testbit, Hb by lia. cbn [negb].
  assert (HB : is_u64 (BIT i)).
  { unfold BIT, in_range. rewrite Z.shiftl_1_l. split; [apply Z.pow_nonneg; lia|apply Z.pow_lt_mono_r; lia]. }
  rewrite atomic_clear_land by done. fold (clear_bit i (events s)). set (s2 := with_events _ s).
  destruct (publish_same (events s2) s2) as (F1 & F2 & F3). rewrite F1, F2, F3. split; [|done].
  apply publish_sync; cbn.
  - apply clear_range; [lia|lia|done].
  - apply Z.bits_inj'. intros j Hj. apply (f_equal (fun z => Z.testbit z j)) in Hp. rewrite Z.land_spec in Hp.
    rewrite Z.land_spec, !testbit_clear by lia.
    destruct (Z.testbit (events s) j), (Z.testbit CONFIG_HOST_EVENT_REPORT_MASK j), (negb (j =? i)); done.
  - congruence.
Qed.

(** The host reads events until there are none. *)
Fixpoint drain (fuel : nat) (s : hev) : list Z * hev :=
  match fuel with
  | O => ([], s)
  | S fuel =>
      let '(evt, s) := lpc_get_next_host_event s in
      if evt =? 0 then ([], s) else let '(l, s) := drain fuel s in (evt :: l, s)
  end.

Lemma drain_spec fuel (s : hev) :
  in_sync s -> (length (bits 64 (events s)) < fuel)%nat ->
  exists s', drain fuel s = ((fun i => i + 1) <$> bits 64 (events s), s') /\ in_sync s' /\ events s' = 0 /\
    events_copy_b s' = events_copy_b s /\ lpc_host_event_mask s' = lpc_host_event_mask s.
Proof.
  revert s. induction fuel as [|fuel IH]; intros s Hs Hf; [lia|]. cbn [drain].
  pose proof (sync_range s Hs) as Hr. rewrite next_index, (sync_mirror s Hs) by (by rewrite (sync_mirror s Hs)).
  destruct (bits 64 (events s)) as [|i l] eqn:E; cbn [Z.eqb].
  - exists s. split_and!; try done; [apply Hs..|]. by apply (bits_zero 64).
  - assert (Hi : In i (bits 64 (events s))) by (rewrite E; by left). apply elem_bits in Hi as [Hi Hb].
    destruct (host_clear_bit i s Hs Hi Hb) as (Hs1 & E1 & E2 & E3).
    rewrite (proj2 (Z.eqb_neq _ _)) by lia. pose proof (bits_clear 64 (events s) i l E) as El. rewrite <- E1 in El.
    destruct (IH _ Hs1) as (s' & Ed & Hs' & Ee & Eb & Em); [rewrite El; cbn in Hf; lia|].
    exists s'. rewrite Ed, El. split_and!; [done|apply Hs'..|done|congruence|congruence].
Qed.

Lemma set_list_spec ms (s : hev) :
  in_sync s -> Forall (in_range 64) ms ->
  let s1 := fold_left (fun s m => host_set_events m s) ms s in
  in_sync s1 /\ events s1 = fold_left (fun e m => Z.lor e (effective m s)) ms (events s) /\
  events_copy_b s1 = fold_left (fun e m => Z.lor e (effective m s)) ms (events_copy_b s) /\
  lpc_host_event_mask s1 = lpc_host_event_mask s.
Proof.
  revert s. induction ms as [|m ms IH]; intros s Hs Hms; [done|]. inversion_clear Hms as [|? ? Hm Hms']. cbn [fold_left].
  destruct (host_set_events_spec m s Hs Hm) as (Hs1 & E1 & E2 & E3). destruct (IH _ Hs1 Hms') as (Hs' & F1 & F2 & F3).
  assert (Hext : forall (l : list Z) e, fold_left (fun e m0 => Z.lor e (effective m0 (host_set_events m s))) l e =
                 fold_left (fun e m0 => Z.lor e (effective m0 s)) l e).
  { intros l. induction l as [|x l IHl]; intros e; [done|]. cbn [fold_left]. by rewrite (masks_same s _ x E3), IHl. }
  rewrite F1, F2, F3, !Hext, E1, E2. done.
Qed.

(** C8. Every event reaches the host once: after any calls that set events, the host
    that reads events until there are none gets exactly those that were
    pending or set (and are reported by the board and by a mask), each once,
    in increasing order; the second copy keeps them all. *)
Theorem host_events_delivered ms (s : hev) :
  in_sync s -> Forall (in_range 64) ms ->
  let s1 := fold_left (fun s m => host_set_events m s) ms s in
  let pending := fold_left (fun e m => Z.lor e (effective m s)) ms (events s) in
  exists s2, drain 65 s1 = ((fun i => i + 1) <$> bits 64 pending, s2) /\ in_sync s2 /\ events s2 = 0 /\
    events_copy_b s2 = fold_left (fun e m => Z.lor e (effective m s)) ms (events_copy_b s).
Proof.
  intros Hs Hms s1 pending. destruct (set_list_spec ms s Hs Hms) as (Hs1 & E1 & E2 & _). fold s1 in Hs1, E1, E2.
  destruct (drain_spec 65 s1 Hs1) as (s2 & Ed & Hs2 & Ee & Eb & _); [pose proof (length_bits 64 (events s1)); lia|].
  exists s2. rewrite Ed, E1. split_and!; [done|apply Hs2..|done|congruence].
Qed.

(** ** Interleaved calls *)

(** The accesses of a call on its own are the function. *)
Lemma alone_set mask (s : hev) : alone 7 (set_call (effective mask s)) s = host_set_events mask s.
Proof.
  unfold host_set_events. set (m := effective mask s). unfold set_call. cbn [alone todo snap access_step].
  destruct (changes m s); cbn [negb]; [|done]. reflexivity.
Qed.
Lemma alone_clear mask (s : hev) :
  alone 5 (clear_call (Z.land mask CONFIG_HOST_EVENT_REPORT_MASK)) s = host_clear_events mask s.
Proof.
  unfold host_clear_events. unfold clear_call. cbn [alone todo snap access_step].
  destruct (bool_of_Z _); cbn [negb]; [|done]. reflexivity.
Qed.

(** Calls that do not clear an event. *)
Definition spares (k : Z) (a : access) : Prop :=
  match a with Clear_events _ mask => is_u64 mask /\ Z.testbit mask k = false | _ => True end.

Lemma access_keeps k a rest v (s : hev) :
  0 <= k -> spares k a ->
  let s' := (access_step a rest v s).2 in
  (Z.testbit (events s) k = true -> Z.testbit (events s') k = true) /\
  (Z.testbit (events_copy_b s) k = true -> Z.testbit (events_copy_b s') k = true).
Proof.
  intros Hk Ha. destruct a as [mask|mask|w mask|w mask|w mask| |]; cbn.
  - destruct (changes mask s); cbn; [|done]. unfold note_recovery. by destruct (bool_of_Z _).
  - by destruct (bool_of_Z _).
  - split; [|done]. intros Hb. by rewrite Z.lor_spec, Hb.
  - split; [done|]. intros Hb. by rewrite Z.lor_spec, Hb.
  - split; [|done]. intros Hb. destruct Ha as [Hm Hz]. rewrite Z.land_spec, Z.lnot_spec, part_testbit, Hb, Hz by done. done.
  - done.
  - destruct (publish_same v s) as (E1 & E2 & _). by rewrite E1, E2.
Qed.
Lemma access_rest a rest v (s : hev) : todo (access_step a rest v s).1 = rest \/ todo (access_step a rest v s).1 = [].
Proof. destruct a; cbn; try case_match; auto. Qed.

(** How far a call that sets an event is, and what it has done. *)
Definition progress (mask k : Z) (c : call) (s : hev) : Prop :=
  exists n, todo c = drop n (todo (set_call mask)) /\
    ((if 32 <=? k then 3 else 2) <= Z.of_nat n -> Z.testbit (events s) k = true) /\
    ((if 32 <=? k then 5 else 4) <= Z.of_nat n -> Z.testbit (events_copy_b s) k = true).

Lemma progress_step mask k a rest v (s : hev) :
  0 <= k -> is_u64 mask -> Z.testbit mask k = true ->
  progress mask k (Call (a :: rest) v) s -> progress mask k (access_step a rest v s).1 (access_step a rest v s).2.
Proof.
  intros Hk Hm Hb (n & Et & He & Hc). cbn [todo] in Et.
  assert (Hn : (n < 7)%nat).
  { destruct (decide (n < 7)%nat); [done|]. rewrite drop_ge in Et by (cbn; lia). done. }
  assert (Hset : forall e w, w = (32 <=? k) -> Z.testbit (Z.lor e (part w mask)) k = true).
  { intros e w ->. rewrite Z.lor_spec, part_testbit, Hb by done. destruct (Z.leb_spec 32 k);
      [by rewrite orb_true_r|rewrite (proj2 (Z.ltb_lt _ _)) by lia; by rewrite orb_true_r]. }
  assert (Hkeep : forall e w, Z.testbit e k = true -> Z.testbit (Z.lor e (part w mask)) k = true)
    by (intros e w E; by rewrite Z.lor_spec, E).
  destruct n as [|[|[|[|[|[|[|n]]]]]]]; [injection Et as -> ->; cbn [access_step fst snd]..|lia].
  - destruct (changes mask s) eqn:Ec; cbn [negb].
    + exists 1%nat. split; [done|]. destruct (32 <=? k); lia.
    + exists 7%nat. split; [done|]. unfold changes in Ec.
      apply orb_false_iff in Ec as [Ea%negb_false_iff%Z.eqb_eq Eb%negb_false_iff%Z.eqb_eq].
      apply (f_equal (fun z => Z.testbit z k)) in Ea, Eb. rewrite Z.land_spec, Hb, andb_true_r in Ea, Eb. done.
  - exists 2%nat. split; [done|]. cbn [events events_copy_b with_events with_copy_b]. destruct (32 <=? k); (split; [|lia]); [lia|by intros _; apply Hset].
  - exists 3%nat. split; [done|]. cbn [events events_copy_b with_events with_copy_b]. destruct (32 <=? k) eqn:Ek; (split; [|lia]); intros _; [by apply Hset|apply Hkeep, He; lia].
  - exists 4%nat. split; [done|]. cbn [events events_copy_b with_events with_copy_b]. destruct (32 <=? k) eqn:Ek; (split; [intros _; apply He; lia|]); [lia|intros _; by apply Hset].
  - exists 5%nat. split; [done|]. cbn [events events_copy_b with_events with_copy_b]. destruct (32 <=? k) eqn:Ek; (split; [intros _; apply He; lia|]); intros _;
      [by apply Hset|apply Hkeep, Hc; lia].
  - exists 6%nat. split; [done|]. cbn [events events_copy_b with_events with_copy_b]. destruct (32 <=? k); (split; intros _; [apply He|apply Hc]; lia).
  - exists 7%nat. split; [done|]. destruct (publish_same v s) as (E1 & E2 & _). rewrite E1, E2.
    destruct (32 <=? k); (split; intros _; [apply He|apply Hc]; lia).
Qed.

(** The invariant of the interleavings, for one of the calls. *)
Definition on_track (mask k : Z) (i : nat) (x : list call * hev) : Prop :=
  Forall (fun c => Forall (spares k) (todo c)) x.1 /\ exists c, x.1 !! i = Some c /\ progress mask k c x.2.

Lemma on_track_step mask k i x y :
  0 <= k -> is_u64 mask -> Z.testbit mask k = true -> interleave x y -> on_track mask k i x -> on_track mask k i y.
Proof.
  intros Hk Hm Hb Hxy [Hs (c & Hc & Hp)]. destruct Hxy as [cs j a rest w t d t' Hj Ej]. cbn [fst snd] in *.
  assert (Hd : Forall (spares k) (a :: rest)) by (exact (Forall_lookup_1 _ _ _ _ Hs Hj)).
  inversion_clear Hd as [|? ? Ha Hrest].
  pose proof (access_keeps k a rest w t Hk Ha) as Hkp. pose proof (access_rest a rest w t) as Hre. rewrite Ej in Hkp, Hre.
  cbn [fst snd] in Hkp, Hre. split; cbn [fst snd].
  - apply Forall_insert; [done|]. destruct Hre as [-> | ->]; [done|constructor].
  - destruct (decide (j = i)) as [->|Hne].
    + rewrite list_lookup_insert_eq by (by eapply lookup_lt_Some). exists d. split; [done|].
      rewrite Hj in Hc. injection Hc as <-. pose proof (progress_step mask k a rest w t Hk Hm Hb Hp) as Hps.
      by rewrite Ej in Hps.
    + rewrite list_lookup_insert_ne by done. exists c. split; [done|].
      destruct Hp as (n & Et & H1 & H2). exists n. split; [done|]. destruct Hkp as [K1 K2]. auto.
Qed.
Lemma on_track_rtc mask k i x y :
  0 <= k -> is_u64 mask -> Z.testbit mask k = true -> rtc interleave x y -> on_track mask k i x -> on_track mask k i y.
Proof. intros Hk Hm Hb Hr. induction Hr as [|x y z Hxy _ IH]; [done|]. intros Hx. eapply IH, on_track_step; eauto. Qed.

(** C7. No event is lost to interleaving: whatever other calls (that do not clear it) run
    in between, a call that sets an event and has ended leaves it set in both
    copies. *)
Theorem set_events_atomic k mask i calls calls' v (s s' : hev) :
  0 <= k -> is_u64 mask -> Z.testbit mask k = true ->
  Forall (fun c => Forall (spares k) (todo c)) calls -> calls !! i = Some (set_call mask) ->
  rtc interleave (calls, s) (calls', s') -> calls' !! i = Some (Call [] v) ->
  Z.testbit (events s') k = true /\ Z.testbit (events_copy_b s') k = true.
Proof.
  intros Hk Hm Hb Hsp Hi Hr He.
  assert (H0 : on_track mask k i (calls, s)).
  { split; [done|]. exists (set_call mask). split; [done|]. exists 0%nat. split; [done|]. destruct (32 <=? k); lia. }
  destruct (on_track_rtc mask k i _ _ Hk Hm Hb Hr H0) as [_ (c & Hc & n & Et & H1 & H2)]. cbn [fst snd] in *.
  rewrite He in Hc. injection Hc as <-. cbn [todo] in Et.
  assert ((7 <= n)%nat) by (apply (f_equal length) in Et; rewrite length_drop in Et; cbn in Et; lia).
  split; [apply H1|apply H2]; destruct (32 <=? k); lia.
Qed.
End Proofs.

(** ** A board, and schedules *)

#[local] Instance all_events : HostEventCfg := {|
  CONFIG_HOST_EVENT_REPORT_MASK := 2 ^ 64 - 1;
  lpc_override_always_report_mask := LPC_HOST_EVENT_ALWAYS_REPORT_DEFAULT_MASK;
|}.
(** After a start: the masks are the default ones. *)
Definition boot_state : hev := lpc_init_mask None (Hev 0 [0; 0; 0; 0] false 0 0 0 0 0 (0, [0; 0; 0; 0]) false).
Lemma boot_in_sync : in_sync boot_state.
Proof. by constructor. Qed.

(** The accesses in the order of a schedule. *)
Fixpoint run (schedule : list nat) (x : list call * hev) : list call * hev :=
  match schedule with
  | [] => x
  | i :: schedule =>
      match x.1 !! i with
      | Some (Call (a :: rest) v) => let '(c, s) := access_step a rest v x.2 in run schedule (<[i := c]> x.1, s)
      | _ => x
      end
  end.
Lemma run_rtc schedule x : rtc interleave x (run schedule x).
Proof.
  revert x. induction schedule as [|i schedule IH]; intros [calls s]; cbn [run fst snd]; [done|].
  destruct (calls !! i) as [[[|a rest] v]|] eqn:E; [done| |done].
  destruct (access_step a rest v s) as [c s'] eqn:Ea. eapply rtc_l; [by apply (interleave_access calls i a rest v)|apply IH].
Qed.

(** A panic and a recovery key: the panic's call is interrupted between its
    last two accesses. *)
Definition panic : Z := EC_HOST_EVENT_MASK EC_HOST_EVENT_PANIC.
Definition recovery_key : Z := EC_HOST_EVENT_MASK EC_HOST_EVENT_KEYBOARD_RECOVERY.
Definition interrupted : list call * hev :=
  run (replicate 6 0%nat ++ replicate 7 1%nat ++ [0%nat]) ([set_call panic; set_call recovery_key], boot_state).

Lemma host_events_delivered_witness :
  exists s2, drain 65 (fold_left (fun s m => host_set_events m s) [panic; recovery_key; panic] boot_state) = ([15; 24], s2).
Proof.
  destruct (host_events_delivered [panic; recovery_key; panic] boot_state boot_in_sync ltac:(concrete_range)) as (s2 & E & _).
  exists s2. exact E.
Defined.

Lemma set_events_atomic_witness :
  Z.testbit (events interrupted.2) 23 = true /\ Z.testbit (events_copy_b interrupted.2) 23 = true.
Proof.
  assert (H1 : 0 <= 23) by done. assert (H2 : is_u64 panic) by done.
  assert (Hs : Forall (fun c => Forall (spares 23) (todo c)) [set_call panic; set_call recovery_key])
    by (repeat constructor).
  assert (Hr : rtc interleave ([set_call panic; set_call recovery_key], boot_state) (interrupted.1, interrupted.2))
    by (rewrite <- surjective_pairing; apply run_rtc).
  exact (set_events_atomic 23 panic 0 _ interrupted.1 panic boot_state interrupted.2 H1 H2 eq_refl Hs eq_refl Hr eq_refl).
Defined.

(** The mirror, however, may be left behind: when the host's clear of an event
    is interrupted before its last access by a call that sets another, the
    mirror stays empty, the host reads no event, and setting it again changes
    nothing. *)
Example mirror_loses_event :
  let x := run (replicate 4 0%nat ++ replicate 7 1%nat ++ [0%nat])
             ([clear_call panic; set_call recovery_key], host_set_events panic boot_state) in
  let s := x.2 in
  todo <$> x.1 = [[]; []] /\
  events s = recovery_key /\ lpc_host_events s = 0 /\ host_set_events recovery_key s = s /\ (drain 65 s).1 = [].
Proof. by vm_compute. Qed.

(** An event of the upper word is never reported as set. *)
Example upper_event_not_set :
  let s := host_set_single_event 33 (lpc_set_host_event_mask LPC_HOST_EVENT_SCI (2 ^ 64 - 1) boot_state) in
  Z.testbit (events s) 32 = true /\ host_is_event_set 33 s = 0.
Proof. by vm_compute. Qed.
End HostEvent.
